(* ===== verification/_CoqProject ===== *)
-Q . S2P
Prelude.v
Text.v
Heap.v
Cache.v
MagicSquare.v
Sudoku.v
Cipher.v
Signals.v
Bst.v
Threadpool.v
Kalloc.v
Vm.v
File.v
Wmap.v
Proc.v
Pipe.v
Bio.v
Log.v
Block.v
Inode.v
Readwrite.v
Fileop.v
Dir.v
Trunc.v
Syscall.v
Sysfile.v
Unlink.v
Mkfs.v
Grep.v
Shell.v
Runcmd.v
Console.v
