(* ===== verification/Prelude.v ===== *)
(** * A verification library for the SDE systems-programming repository

    The repository is a set of independent C programs (an allocator, a cache
    simulator, small algorithmic and signal programs, a thread pool, a
    concurrent search tree) and one large one, an xv6 kernel extended with
    memory mappings ([wmap]).  Each modelled source file has one file here.

    ** Files and sources

    Every function keeps its C name; a function's loop is a Fixpoint named after
    it.  Paths are relative to src/.

    - [Prelude]: C outcomes ([result], [fault]), the state monad [M] of a C
      function with its notations, 32-bit wrap-around and overflow-checked
      arithmetic, generic list and arithmetic lemmas.
    - [Text]: C strings as lists of character codes; atoi and sscanf as
      the programs use them, printf's numerals, and their round trips.
    - [Heap]: 底层系统/memory-allocator/p3Heap.c.  The heap is the map of its
      words (headers, footers and payload alike); the specification is a list of
      blocks [(size, allocated)] tied to it by [rep].
    - [Cache]: 底层系统/cache-memory/csim.c, from the bytes of the trace to the
      printed summary; the specification is one LRU stack of tags per set.
    - [MagicSquare], [Sudoku], [Cipher], [Signals]: the programs of
      底层系统/misc-algorithms, program-analysis and signals-exceptions, each
      over its input and output bytes.
    - [Bst], [Threadpool]: Thread pool + 并发二叉树/solution.  [Bst] checks the
      lock discipline at every access of a node; [Threadpool] is a step relation
      whose steps are the critical sections of the worker, submitting and
      destroying threads, with spurious wakeups.
    - [Kalloc], [Vm], [File], [Wmap]: xv6 wmap/solution/kalloc.c, vm.c, file.c
      and wmap.c.  They are layers over one state: physical memory as the words
      of its pages ([Kalloc]), page directories and tables kept in those pages
      ([Vm]), the table of open files ([File]), the processes with their region
      lists ([Wmap], which calls all three).
    - [Bio], [Log], [Block], [Inode], [Readwrite], [Fileop]: the file system
      of xv6 as a stack.  [Bio] is bio.c with memide.c; the disk records its
      writes in order, so that a crash is a prefix of the writes.  [Log] is log.c
      over it.  [Block] is the block allocator of fs.c and the view [in_tx] that
      the layers above have of the log: the contents of every block in a
      transaction.  [Inode] is fs.c from iinit to writei, with the well-formed
      file systems [fs_wf]; [Readwrite] proves what readi and writei do to the
      bytes of files; [Fileop] gives file.c its operations from those, with
      forkret's start of the file system.
    - [Dir], [Trunc], [Sysfile], [Unlink]: names over that stack.  [Dir] is fs.c
      from namecmp on, with the invariant [dirs_ok] of directories and references
      to the inode table counted by [carries]; [Trunc] proves what itrunc and the
      last iput do to inodes and the bitmap; [Sysfile] is sysfile.c with the
      theorem about link; [Unlink] has the one about unlink.
    - [Mkfs]: mkfs.c, the program of the host that makes the disk image, over
      the sectors of the image; its specification is the invariant [fs_wf] of
      [Inode] and the start of the file system in [Fileop].
    - [Syscall]: syscall.c, the arguments on the user's stack and the table of
      calls, with sysproc.c over [Proc].
    - [Console]: console.c with kbd.c, kbd.h and uart.c: the ring of input
      characters between interrupts and readers, the line editor, the keyboard's
      decoder, the text screen, cprintf.
    - [Proc]: proc.c over the world of [Wmap]: creating, sleeping, waking,
      killing, exiting and waiting for processes, as steps of all processes
      between which ptable.lock is free.
    - [Pipe]: pipe.c.  The sections of pipewrite and piperead between two sleeps
      are executable; [Pipe.exec] runs them for any number of writers and readers
      in any order.
    - [Grep]: the user program grep.c.
    - [Shell], [Runcmd]: the shell sh.c.  [Shell] is its parser, on the bytes of
      a line with pointers as positions, against a grammar of token lists;
      [Runcmd] runs the commands over a table of descriptors, against a semantics
      of three streams.

    Code that is not in the repository, or is used only through a contract, is a
    type class: [Linker] (the addresses the linker chooses, [Kalloc]), [Devsw]
    (the read and write functions of devices, [Inode]) and [Fs] (inodes, pipes
    and transactions as the file table uses them, [File]).  The laws the theorems
    need are fields of [Linker] and the class [FsOk]; [Fileop] proves [FsOk] of
    the file system above, and the witnesses instantiate the rest with concrete
    functions.

    ** How state and operations correspond

    A C function is a function on the state of its module with a [result]: [Ok]
    for a return (the returned value and the new state), [Err Undefined] for
    undefined behaviour (signed overflow, access outside an object, use of an
    unset pointer), [Err Panic] for the kernel's panic, [Err (Exit c)] for
    [exit(c)] and [Err OutOfFuel] for a loop that reached the model's bound.  A
    theorem that a call gives [Ok] therefore also says that it terminates and
    has no undefined behaviour.  Machine integers are [Z] with the wrap-around
    of unsigned types written out ([u32]) and signed overflow a fault.

    ** Fuel, and why it is enough

    Every loop whose bound is not a structural one takes fuel computed from the
    state, and the theorems show that it is not reached:
    - [Heap]: one more than the number of 8-byte units of the region; a block
      has at least one unit.
    - [Vm]: the number of pages between the two addresses, plus one.
    - [Wmap]: [list_fuel] = 17 for a list of at most sixteen slots; the number
      of pages of a region for the loops over pages; regions for the search for
      a gap.
    - [Bst]: the number of nodes plus one, as every turn descends one level.
    - [Grep]: the length of the rest of the file plus one, as each turn of the
      read loop consumes at least one byte.
    - [Bio], [Log]: the lengths of the buffer list and of the log header.
    - [Shell]: four times the length of the line plus four for the four mutually
      recursive functions of the parser, the length plus one for its loops; every
      turn reads a token.
    - [Block], [Inode]: balloc's outer loop has a turn for every bitmap block and
      one more; readi and writei one for every byte and one more.
    - [Dir], [Sysfile]: a turn for every character of the path (each element has
      one), for every byte of the directory and one more.
    - [Mkfs]: iappend's loop has a turn for every byte and one more.
    - [Syscall]: fetchstr, one more than the bytes of the process.
    - [Console]: the characters between the cursor of the line and its start for
      ctl-U, one more than the count asked for in a read, and 16 for the digits of
      a number, the size of its buffer.

    ** The theorems

    - Functional correctness against a specification: best fit and coalescing
      with the rejection of bad pointers ([Heap.alloc_refines],
      [Heap.free_block_refines]), LRU counting ([Cache.csim_counts]), the magic
      property, Sudoku validity and where the code's notion of it differs from its
      comment's ([Sudoku.sudoku_decides]), the finite map
      of the search tree ([Bst.bst_refines_map]), the page-table operations
      ([Vm.copyuvm_correct], [Vm.allocuvm_correct], [Vm.copyout_correct]), the
      mapping system calls and the page fault ([Wmap.sys_wmap_correct],
      [Wmap.sys_wunmap_correct], [Wmap.handle_page_fault_correct]; unmapping and
      faults for anonymous regions that no other process shares), grep against the
      meaning of its patterns ([Grep.grep_correct]), the following of paths ([Dir.namei_correct]) and the adding of names
      ([Dir.dirlink_correct]), cprintf ([Console.cprintf_correct]).
    - Bounds: string and buffer arguments of system calls lie inside the process
      ([Syscall.arguments_inside]); the screen driver stays inside its rows
      ([Console.screen_bounds]).
    - Invariants over any sequence of calls: [Heap.heap_safety],
      [Wmap.wmap_calls_safe] (anonymous regions that no other process shares),
      [Kalloc.kalloc_safety], [Threadpool.pool_fifo],
      [Proc.process_table_sound] (init lives, identifiers are unique, every
      process has a living parent, no wakeup of wait is lost),
      [Pipe.pipe_fifo] and [Console.console_wf].
    - Equivalence with a reference: the console's ring behaves as a queue and a
      line under edit ([Console.console_refines], [Console.console_delivers]); the
      shell's parser decides its grammar ([Shell.parsecmd_correct]) and the commands
      it can return can be printed and parsed back ([Shell.print_parse]); runcmd passes three streams down a command and leaves
      no other descriptor open ([Runcmd.runcmd_meaning], [Runcmd.pipeline_ends]).
    - Crash safety: [Log.log_atomic], [Log.recovery_idempotent], on top of the
      transparency of the buffer cache ([Bio.cache_transparent]); a write to a
      file is all there or not at all after a crash at any disk write and a new
      start, and touches no other file ([Fileop.write_atomic]).  The calls link
      and unlink are one such transaction each, and change names, counts of links
      and free blocks exactly as their paths say ([Sysfile.sys_link_correct],
      [Unlink.sys_unlink_correct]).
    - Two programs that must agree: the kernel that starts on an image made by
      mkfs finds a well-formed file system with the files it was given, under
      their names ([Mkfs.mkfs_boots]).
    - Liveness and termination: [Threadpool.pool_no_deadlock],
      [Threadpool.pool_terminates], [Pipe.pipe_no_lost_wakeup].
    - Round trips: [Heap.alloc_free_roundtrip], [Vm.alloc_dealloc_roundtrip],
      [Cipher.Decode.decode_roundtrip], [Fileop.write_read], [Shell.print_parse].
    - What the code does at the edges, including where it goes wrong: overflow
      of large magic squares, digits the Sudoku checker does not reject, the
      destruction of a thread pool under a blocked submitter, the regions of
      length 0 that [wpunmap] leaves, the reference that a rejected [wmap]
      keeps, the log space that [begin_op] promises twice, the lines that grep
      drops, the block that mkfs gives a full root directory by its size only
      ([Mkfs.mkfs_root_hole]), the parent that a failed fork strands in wait, the reader that a
      killed writer leaves asleep beside a full pipe, the shell's [>>] and [cd],
      link to a name that its directory has for itself, which waits for its own
      lock ([Dir.dirlink_self]), and sleep for a negative number of ticks, which
      counts it as a large one ([Syscall.sys_sleep_negative]).

    ** Not modelled

    - Interleavings inside most of the kernel and of threads in the search tree:
      the kernel's spin locks are taken to make each call indivisible (in [Proc]
      and [Pipe]: each section between two sleeps), and sleeping locks are those
      of one process ([Bio]); [Bst] proves that each operation of one thread
      keeps the lock discipline.
    - The parts of xv6 above and beside the modelled layers: exec.c with sys_exec,
      trap.c, of proc.c the first process, procdump and the saving of registers,
      and the user programs but for grep and the shell.  Of sysfile.c, open,
      mkdir, mknod, chdir and the calls on descriptors are modelled but have no
      theorem of their own yet.
    - vm.c's loading of segment and page-table registers and [loaduvm], which
      reads through the file system; boot code, assembly and device drivers
      (ide.c, lapic.c, ioapic.c, mp.c), whose effects are on hardware.
    - The copy of the cache simulator's summary in .csim_results, which is written
      after the summary is printed.
    - Mappings with a file or shared between processes have definitions in [Wmap]
      but no theorem beyond wmap itself.
    - The C++ matrix-multiplication programs: floating point, timing and vector
      intrinsics.  p3Heap-2.c is byte for byte p3Heap.c.  The test programs
      (usertests.c, tests/), which only call what is modelled here. *)
From stdpp Require Export base numbers list list_numbers option gmap strings.
From Stdlib Require Export ZArith Lia.

#[global] Open Scope Z_scope.

(** ** Outcomes of C code

    A C function either returns normally or stops in one of four ways. *)
Inductive fault : Type :=
  | Undefined      (** undefined behaviour: signed overflow, bad access, bad shift *)
  | Panic          (** the xv6 kernel's [panic] *)
  | Exit (code : Z) (** the process called [exit(code)] *)
  | OutOfFuel.     (** the model's loop bound was reached *)

#[export] Instance fault_eq_dec : EqDecision fault.
Proof. solve_decision. Defined.

Inductive result (A : Type) : Type :=
  | Ok (a : A)
  | Err (e : fault).
Arguments Ok {A} a.
Arguments Err {A} e.

#[export] Instance result_ret : MRet result := fun A a => Ok a.
#[export] Instance result_bind : MBind result := fun A B k m =>
  match m with Ok a => k a | Err e => Err e end.

(** ** State-and-error monad

    [M S A] is a C function body over the mutable state [S]. *)
Definition M (S A : Type) : Type := S -> result (A * S).

#[export] Instance M_ret {S} : MRet (M S) := fun A a s => Ok (a, s).
#[export] Instance M_bind {S} : MBind (M S) := fun A B k m s =>
  match m s with Ok (a, s') => k a s' | Err e => Err e end.

Definition get {S} : M S S := fun s => Ok (s, s).
Definition put {S} (s : S) : M S unit := fun _ => Ok (tt, s).
Definition modify {S} (f : S -> S) : M S unit := fun s => Ok (tt, f s).
Definition fail {S A} (e : fault) : M S A := fun _ => Err e.
Definition lift {S A} (r : result A) : M S A := fun s =>
  match r with Ok a => Ok (a, s) | Err e => Err e end.

(** Total-correctness weakest precondition: [m] returns, in a state that
    satisfies the postcondition; no fault, no exhausted fuel. *)
Definition wp {S A} (m : M S A) (s : S) (Q : A -> S -> Prop) : Prop :=
  exists a s', m s = Ok (a, s') /\ Q a s'.

Section wp_rules.
Context {S : Type}.
Implicit Types s : S.

Lemma wp_ret {A} (a : A) s (Q : A -> S -> Prop) : Q a s -> wp (mret a) s Q.
  Proof. intros H. exists a, s. split; [reflexivity|exact H]. Qed.

Lemma wp_bind {A B} (m : M S A) (k : A -> M S B) s Q :
    wp m s (fun a s' => wp (k a) s' Q) -> wp (mbind k m) s Q.
  Proof.
    intros (a & s' & Hm & b & s'' & Hk & HQ).
    exists b, s''. split; [|exact HQ].
    unfold mbind, M_bind. rewrite Hm. exact Hk.
  Qed.

Lemma wp_bind_inv {A B} (m : M S A) (k : A -> M S B) s Q :
    wp (mbind k m) s Q -> wp m s (fun a s' => wp (k a) s' Q).
Proof.
  intros (b & s'' & H & HQ). unfold mbind, M_bind in H.
  destruct (m s) as [[a s']|] eqn:Hm; [|done]. exists a, s'. split; [done|]. by exists b, s''.
Qed.

Lemma wp_get s Q : Q s s -> wp (@get S) s Q.
  Proof. intros H. exists s, s. auto. Qed.

Lemma wp_put s s' Q : Q tt s' -> wp (put s') s Q.
  Proof. intros H. exists tt, s'. auto. Qed.

Lemma wp_modify f s Q : Q tt (f s) -> wp (@modify S f) s Q.
  Proof. intros H. exists tt, (f s). auto. Qed.

Lemma wp_lift {A} (r : result A) (a : A) s Q :
    r = Ok a -> Q a s -> wp (lift r) s Q.
  Proof. intros -> H. exists a, s. auto. Qed.

Lemma wp_mono {A} (m : M S A) s (P Q : A -> S -> Prop) :
    wp m s P -> (forall a s', P a s' -> Q a s') -> wp m s Q.
  Proof. intros (a & s' & ? & ?) HPQ. exists a, s'. auto. Qed.

Lemma wp_Ok {A} (m : M S A) s a s' Q : m s = Ok (a, s') -> wp m s Q -> Q a s'.
  Proof. intros Hm (b & t & Hb & HQ). rewrite Hm in Hb. by simplify_eq. Qed.

Lemma wp_of_Ok {A} (m : M S A) s a s' (Q : A -> S -> Prop) :
    m s = Ok (a, s') -> Q a s' -> wp m s Q.
  Proof. intros Hm HQ. exists a, s'. auto. Qed.
End wp_rules.

Lemma bind_Ok {S A B} (m : M S A) (k : A -> M S B) s a s' : m s = Ok (a, s') -> mbind k m s = k a s'.
Proof. intros Hm. unfold mbind, M_bind. by rewrite Hm. Qed.

Lemma bind_Err {S A B} (m : M S A) (k : A -> M S B) s e : m s = Err e -> mbind k m s = Err e.
Proof. intros Hm. unfold mbind, M_bind. by rewrite Hm. Qed.

(** One step of symbolic execution of a monadic body. *)
Ltac wp_step :=
  lazymatch goal with
  | |- wp (mret _) _ _ => apply wp_ret
  | |- wp (mbind _ _) _ _ => apply wp_bind
  | |- wp get _ _ => apply wp_get
  | |- wp (put _) _ _ => apply wp_put
  | |- wp (modify _) _ _ => apply wp_modify
  end; cbn beta iota.
Ltac wp_steps := repeat wp_step.

(** ** Machine integers

    [int] is a 32-bit two's complement integer, [uint] its unsigned
    companion, [ulong] the 64-bit unsigned type; all are kept as [Z]. *)
Definition INT_MAX : Z := 2147483647.
Definition INT_MIN : Z := -2147483648.
Definition UINT_MOD : Z := 4294967296.
Definition ULONG_MOD : Z := 18446744073709551616.

Definition int_ok (z : Z) : bool := (INT_MIN <=? z) && (z <=? INT_MAX).

(** The value of a signed expression whose mathematical value is [z]:
    overflow is undefined behaviour. *)
Definition sint (z : Z) : result Z := if int_ok z then Ok z else Err Undefined.

(** Unsigned arithmetic wraps. *)
Definition u32 (z : Z) : Z := z mod UINT_MOD.
Definition u64 (z : Z) : Z := z mod ULONG_MOD.

(** Conversion to [int] of an out-of-range value (modulo 2^32, as gcc does). *)
Definition to_int (z : Z) : Z := (z + 2147483648) mod UINT_MOD - 2147483648.

Lemma sint_ok z : INT_MIN <= z <= INT_MAX -> sint z = Ok z.
Proof.
  intros H. unfold sint, int_ok.
  rewrite (proj2 (Z.leb_le _ _)), (proj2 (Z.leb_le _ _)) by lia. reflexivity.
Qed.

Lemma sint_over z : INT_MAX < z \/ z < INT_MIN -> sint z = Err Undefined.
Proof.
  intros H. unfold sint, int_ok.
  destruct (Z.leb_spec INT_MIN z), (Z.leb_spec z INT_MAX); (reflexivity || lia).
Qed.

Lemma to_int_id z : INT_MIN <= z <= INT_MAX -> to_int z = z.
Proof.
  unfold INT_MIN, INT_MAX, to_int, UINT_MOD. intros H.
  rewrite Z.mod_small by lia. lia.
Qed.

Lemma u32_id z : 0 <= z < UINT_MOD -> u32 z = z.
Proof. apply Z.mod_small. Qed.

Lemma u64_id z : 0 <= z < ULONG_MOD -> u64 z = z.
Proof. apply Z.mod_small. Qed.

Lemma u32_range z : 0 <= u32 z < UINT_MOD.
Proof. apply Z.mod_pos_bound. unfold UINT_MOD. lia. Qed.

Create HintDb cint.
Create Rewrite HintDb cint.
#[export] Hint Resolve sint_ok to_int_id u32_id u64_id u32_range : cint.
#[export] Hint Rewrite sint_ok to_int_id u32_id u64_id
  using (unfold INT_MIN, INT_MAX, UINT_MOD, ULONG_MOD in *; lia) : cint.

(** [lia] with division and remainder. *)
Ltac zlia := Z.to_euclidean_division_equations; lia.

Ltac unfold_bounds := unfold INT_MIN, INT_MAX, UINT_MOD, ULONG_MOD in *.

(** ** Bit masks

    Masking with a run of low ones, or with its complement, is division
    with remainder by a power of two. *)
Lemma land_ones_mod x n : 0 <= n -> Z.land x (Z.ones n) = x mod 2 ^ n.
Proof. apply Z.land_ones. Qed.

Lemma land_lnot_ones x n : 0 <= n -> Z.land x (Z.lnot (Z.ones n)) = x - x mod 2 ^ n.
Proof.
  intros Hn. rewrite <-Z.ldiff_land, Z.ldiff_ones_r by done.
  rewrite Z.shiftl_mul_pow2, Z.shiftr_div_pow2 by done.
  pose proof (Z.div_mod x (2 ^ n)) as E.
  pose proof (Z.pow_pos_nonneg 2 n). lia.
Qed.

(** Disjoint bit patterns add up. *)
Lemma lor_add_disjoint x y : Z.land x y = 0 -> Z.lor x y = x + y.
Proof.
  intros H. rewrite Z.add_nocarry_lxor by done. by rewrite Z.lxor_lor.
Qed.

(** A multiple of [2 ^ n] and a number below [2 ^ n] share no bit. *)
Lemma lor_add_low x r n :
  0 <= n -> x mod 2 ^ n = 0 -> 0 <= r < 2 ^ n -> Z.lor x r = x + r.
Proof.
  intros Hn Hx Hr. apply lor_add_disjoint.
  rewrite <-(Z.mod_small r (2 ^ n)) by done.
  rewrite <-land_ones_mod by done.
  rewrite (Z.land_comm r), Z.land_assoc, land_ones_mod, Hx by done. apply Z.land_0_l.
Qed.

(** Masking a number split at bit [n] with a mask of the low [n] bits. *)
Lemma land_low x r m n :
  0 <= n -> x mod 2 ^ n = 0 -> 0 <= r < 2 ^ n -> 0 <= m < 2 ^ n ->
  Z.land (x + r) m = Z.land r m.
Proof.
  intros Hn Hx Hr Hm.
  assert (Hm' : m = Z.land (Z.ones n) m).
  { rewrite Z.land_comm, land_ones_mod, Z.mod_small by done. done. }
  rewrite Hm', !Z.land_assoc, !land_ones_mod by done.
  by rewrite Z.add_mod, Hx, Z.add_0_l, Z.mod_mod by lia.
Qed.

(** Masking with the complement of a low mask only touches the low part. *)
Lemma land_lnot_low x r m n :
  0 <= n -> x mod 2 ^ n = 0 -> 0 <= r < 2 ^ n -> 0 <= m < 2 ^ n ->
  Z.land (x + r) (Z.lnot m) = x + Z.land r (Z.lnot m).
Proof.
  intros Hn Hx Hr Hm.
  assert (0 <= Z.land r (Z.lnot m) < 2 ^ n) as Hb.
  { rewrite <-(Z.mod_small r (2 ^ n)), <-land_ones_mod by done.
    rewrite <-Z.land_assoc, (Z.land_comm (Z.ones n)), Z.land_assoc, land_ones_mod by done.
    apply Z.mod_pos_bound. lia. }
  rewrite <-(lor_add_low x r n), <-(lor_add_low x (Z.land r (Z.lnot m)) n) by done.
  rewrite Z.land_lor_distr_l. f_equal.
  rewrite <-(Z.mod_small m (2 ^ n)), <-land_ones_mod by done.
  rewrite Z.lnot_land. rewrite Z.land_lor_distr_r.
  rewrite land_lnot_ones, Hx, Z.sub_0_r by done.
  apply Z.bits_inj'. intros i Hi. rewrite Z.lor_spec, Z.land_spec.
  by destruct (Z.testbit x i), (Z.testbit (Z.lnot m) i).
Qed.

(** ** Lists *)
Lemma insert_middle {A} (p q : list A) x y :
  <[length p := y]> (p ++ x :: q) = p ++ y :: q.
Proof. induction p as [|z p IH]; cbn; [done|]. f_equal. exact IH. Qed.

Lemma lookup_middle {A} (p q : list A) x : (p ++ x :: q) !! length p = Some x.
Proof. by rewrite list_lookup_middle. Qed.

(** Sums of a measure over a list. *)
Definition sumf {A} (f : A -> nat) (l : list A) : nat := sum_list (f <$> l).

#[global] Arguments sumf : simpl never.

Lemma sumf_cons {A} (f : A -> nat) x l : sumf f (x :: l) = (f x + sumf f l)%nat.
Proof. done. Qed.

Lemma sumf_app {A} (f : A -> nat) l l' : sumf f (l ++ l') = (sumf f l + sumf f l')%nat.
Proof. induction l as [|x l IH]; [done|]. cbn [app]. rewrite !sumf_cons, IH. lia. Qed.

Lemma sumf_insert {A} (f : A -> nat) l i x y :
  l !! i = Some x -> (sumf f (<[i := y]> l) + f x = sumf f l + f y)%nat.
Proof.
  revert i. induction l as [|z l IH]; intros [|i] Hi; try done.
  - cbn in Hi. simplify_eq. change (<[0%nat := y]> (x :: l)) with (y :: l). rewrite !sumf_cons. lia.
  - change (<[S i := y]> (z :: l)) with (z :: <[i := y]> l). rewrite !sumf_cons. specialize (IH i Hi). lia.
Qed.

Lemma sumf_pos {A} (f : A -> nat) l : (0 < sumf f l)%nat -> exists i x, l !! i = Some x /\ (0 < f x)%nat.
Proof.
  induction l as [|z l IH]; [unfold sumf; cbn; lia|]. rewrite sumf_cons. intros H.
  destruct (decide (0 < f z)%nat); [by exists 0%nat, z|]. destruct IH as (i & x & Hi & Hx); [lia|].
  by exists (S i), x.
Qed.

Lemma sumf_zero {A} (f : A -> nat) l : sumf f l = 0%nat -> forall i x, l !! i = Some x -> f x = 0%nat.
Proof.
  induction l as [|z l IH]; [done|]. rewrite sumf_cons. intros H [|i] x Hx; cbn in Hx.
  - simplify_eq. lia.
  - apply (IH ltac:(lia) i x Hx).
Qed.

Lemma sumf_const0 {A} (f : A -> nat) l : (forall x, x ∈ l -> f x = 0%nat) -> sumf f l = 0%nat.
Proof.
  induction l as [|x l IH]; intros H; [done|]. rewrite sumf_cons, IH, H by set_solver. done.
Qed.

Lemma sumf_le {A} (f g : A -> nat) l : (forall x, (f x <= g x)%nat) -> (sumf f l <= sumf g l)%nat.
Proof. intros H. induction l as [|x l IH]; [done|]. rewrite !sumf_cons. specialize (H x). lia. Qed.

Create HintDb lists.
Create Rewrite HintDb lists.
#[export] Hint Rewrite @insert_middle @lookup_middle @length_app @length_insert : lists.

(** [bs] written over [l] at [o]. *)
Definition write_at {A} (o : nat) (bs l : list A) : list A := take o l ++ bs ++ drop (o + length bs) l.

Lemma write_at_nil {A} o (l : list A) : write_at o [] l = l.
Proof. unfold write_at. cbn. rewrite Nat.add_0_r. apply take_drop. Qed.

Lemma length_write_at {A} o (bs l : list A) : (o <= length l)%nat -> length (write_at o bs l) = Nat.max (length l) (o + length bs).
Proof. intros Ho. unfold write_at. rewrite !length_app, length_take, length_drop. lia. Qed.

Lemma write_at_app {A} o (b1 b2 l : list A) : (o <= length l)%nat -> write_at (o + length b1) b2 (write_at o b1 l) = write_at o (b1 ++ b2) l.
Proof.
  intros Ho. unfold write_at.
  assert (length (take o l) = o) as Ht by (rewrite length_take; lia).
  rewrite (app_assoc (take o l) b1). rewrite take_app_length' by (rewrite length_app; lia).
  rewrite <-!app_assoc. do 3 f_equal. rewrite app_assoc, drop_app, (drop_ge (take o l ++ b1)) by (rewrite length_app; lia).
  rewrite drop_drop, !length_app. cbn. f_equal. lia.
Qed.

Lemma lookup_write_at {A} o (bs l : list A) k : (o <= length l)%nat ->
  write_at o bs l !! k = if decide (o <= k < o + length bs)%nat then bs !! (k - o)%nat else l !! k.
Proof.
  intros Ho. unfold write_at. assert (length (take o l) = o) as Ht by (rewrite length_take; lia).
  case_decide as E.
  - rewrite lookup_app_r, lookup_app_l by lia. by rewrite Ht.
  - destruct (decide (k < o)%nat).
    + rewrite lookup_app_l by lia. apply lookup_take_lt. lia.
    + rewrite lookup_app_r, lookup_app_r, lookup_drop by lia. f_equal. lia.
Qed.
