(* ===== verification/Text.v ===== *)
(** * Characters, numerals and the C library's text conversions

    A C string is the list of its character codes before the terminating NUL.
    Holds [isspace], digit scanning in any base up to 16, [atoi], the [%llx]
    and [%u] conversions of [sscanf], the numerals that [printf] writes, and
    the print/scan round trips. *)
From S2P Require Import Prelude.

Definition chr (s : string) : list Z :=
  (fun a => Z.of_nat (Ascii.nat_of_ascii a)) <$> String.list_ascii_of_string s.

Definition isspace (c : Z) : bool := (c =? 32) || ((9 <=? c) && (c <=? 13)).

Fixpoint skip_spaces (s : list Z) : list Z :=
  match s with
  | c :: s' => if isspace c then skip_spaces s' else s
  | [] => []
  end.

(** The value of a digit character in bases up to 16. *)
Definition digit_val (c : Z) : option Z :=
  if (48 <=? c) && (c <=? 57) then Some (c - 48)
  else if (97 <=? c) && (c <=? 102) then Some (c - 87)
  else if (65 <=? c) && (c <=? 70) then Some (c - 55)
  else None.

Definition base_digit (base c : Z) : option Z :=
  match digit_val c with
  | Some d => if d <? base then Some d else None
  | None => None
  end.

Definition digit_char (d : Z) : Z := if d <? 10 then 48 + d else 87 + d.

(** Longest run of digits from the front of [s]: its value on top of [acc], and
    the rest. *)
Fixpoint scan_digits (base acc : Z) (s : list Z) : Z * list Z :=
  match s with
  | c :: s' =>
      match base_digit base c with
      | Some d => scan_digits base (acc * base + d) s'
      | None => (acc, s)
      end
  | [] => (acc, [])
  end.

Definition starts_digit (base : Z) (s : list Z) : bool :=
  match s with c :: _ => bool_decide (is_Some (base_digit base c)) | [] => false end.

(** Optional sign: true for a minus sign. *)
Definition scan_sign (s : list Z) : bool * list Z :=
  match s with
  | c :: s' => if c =? 45 then (true, s') else if c =? 43 then (false, s') else (false, s)
  | [] => (false, [])
  end.

(** [atoi]: leading white space, a sign, decimal digits; 0 when there are none,
    undefined when the value does not fit an [int]. *)
Definition atoi (s : list Z) : result Z :=
  let '(neg, s) := scan_sign (skip_spaces s) in
  let '(v, _) := scan_digits 10 0 s in
  sint (if neg then - v else v).

(** A [%llx] ([base] 16) or [%u] ([base] 10) conversion into [w] unsigned
    values: [None] is a matching failure; a value out of range is undefined. *)
Definition scan_unsigned (base w : Z) (s : list Z) : result (option (Z * list Z)) :=
  let '(neg, s) := scan_sign (skip_spaces s) in
  let s := match s with
           | z :: x :: s' => if (base =? 16) && (z =? 48) && ((x =? 120) || (x =? 88)) then s' else s
           | _ => s
           end in
  if starts_digit base s then
    let '(v, s) := scan_digits base 0 s in
    if v <? w then Ok (Some ((if neg then (- v) mod w else v), s)) else Err Undefined
  else Ok None.

(** A [%d] conversion: [None] is a matching failure or the end of the input. *)
Definition scan_int (s : list Z) : result (option Z) :=
  let '(neg, s) := scan_sign (skip_spaces s) in
  if starts_digit 10 s then
    v ← sint (if neg then - (scan_digits 10 0 s).1 else (scan_digits 10 0 s).1);
    Ok (Some v)
  else Ok None.

(** Numerals: digits of a non-negative number, most significant first. *)
Fixpoint digits_aux (fuel : nat) (base n : Z) (acc : list Z) : list Z :=
  match fuel with
  | O => acc
  | S fuel' =>
      let acc := digit_char (n mod base) :: acc in
      if n / base =? 0 then acc else digits_aux fuel' base (n / base) acc
  end.

Definition digits (base n : Z) : list Z := digits_aux (S (Z.to_nat (Z.log2 n))) base n [].

(** What [%d] prints. *)
Definition print_int (z : Z) : list Z :=
  if z <? 0 then 45 :: digits 10 (- z) else digits 10 z.

(** ** Round trips *)
Lemma base_digit_char base d : 2 <= base <= 16 -> 0 <= d < base ->
  base_digit base (digit_char d) = Some d.
Proof.
  intros Hb Hd. unfold base_digit, digit_char, digit_val.
  destruct (Z.ltb_spec d 10).
  - rewrite (proj2 (Z.leb_le 48 _)), (proj2 (Z.leb_le _ 57)) by lia. cbn.
    replace (48 + d - 48) with d by lia. by rewrite (proj2 (Z.ltb_lt _ _)) by lia.
  - rewrite (proj2 (Z.leb_gt (87 + d) 57)) by lia. rewrite andb_false_r.
    rewrite (proj2 (Z.leb_le 97 _)), (proj2 (Z.leb_le _ 102)) by lia. cbn.
    replace (87 + d - 87) with d by lia. by rewrite (proj2 (Z.ltb_lt _ _)) by lia.
Qed.

Lemma digits_aux_scan fuel base n acc rest :
  2 <= base <= 16 -> 0 <= n < base ^ Z.of_nat fuel -> (0 < fuel)%nat ->
  scan_digits base 0 (digits_aux fuel base n acc ++ rest) = scan_digits base n (acc ++ rest).
Proof.
  intros Hb. revert n acc. induction fuel as [|fuel IH]; intros n acc Hn Hf; [lia|].
  cbn [digits_aux].
  assert (0 <= n mod base < base) as Hm by (apply Z.mod_pos_bound; lia).
  assert (forall u, scan_digits base u ((digit_char (n mod base) :: acc) ++ rest)
                    = scan_digits base (u * base + n mod base) (acc ++ rest)) as Hstep.
  { intros u. cbn [scan_digits app]. by rewrite base_digit_char by lia. }
  pose proof (Z.div_mod n base ltac:(lia)) as Hd.
  destruct (Z.eqb_spec (n / base) 0) as [E|E].
  - rewrite Hstep. f_equal. lia.
  - assert (0 <= n / base) by (apply Z.div_pos; lia).
    assert (n / base < base ^ Z.of_nat fuel).
    { apply Z.div_lt_upper_bound; [lia|]. rewrite Nat2Z.inj_succ, Z.pow_succ_r in Hn by lia. lia. }
    destruct fuel as [|fuel].
    { change (base ^ Z.of_nat 0) with 1 in *. lia. }
    rewrite IH by lia. rewrite Hstep. f_equal. lia.
Qed.

Lemma scan_digits_stop base acc s : starts_digit base s = false -> scan_digits base acc s = (acc, s).
Proof.
  destruct s as [|c s]; [done|]. cbn. intros H%bool_decide_eq_false.
  destruct (base_digit base c); [|done]. destruct H. eauto.
Qed.

(** Scanning what was printed gives back the number. *)
Lemma scan_print base n rest :
  2 <= base <= 16 -> 0 <= n -> starts_digit base rest = false ->
  scan_digits base 0 (digits base n ++ rest) = (n, rest).
Proof.
  intros Hb Hn Hr. unfold digits. rewrite digits_aux_scan; [by apply scan_digits_stop|done| |lia].
  split; [done|]. rewrite Nat2Z.inj_succ, Z2Nat.id by apply Z.log2_nonneg.
  destruct (decide (n = 0)) as [->|].
  { apply Z.pow_pos_nonneg; [lia|]. pose proof (Z.log2_nonneg 0). lia. }
  pose proof (Z.log2_spec n ltac:(lia)) as [_ Hl].
  eapply Z.lt_le_trans; [exact Hl|]. apply Z.pow_le_mono_l. lia.
Qed.

Lemma digits_aux_head fuel base n acc :
  2 <= base <= 16 -> (0 < fuel)%nat ->
  exists d ds, digits_aux fuel base n acc = digit_char d :: ds /\ 0 <= d < base.
Proof.
  intros Hb. revert n acc. induction fuel as [|fuel IH]; intros n acc Hf; [lia|]. cbn [digits_aux].
  pose proof (Z.mod_pos_bound n base ltac:(lia)).
  destruct (n / base =? 0); [eauto|]. destruct fuel; [cbn; eauto|]. apply IH. lia.
Qed.

Lemma digits_head base n :
  2 <= base <= 16 -> exists d ds, digits base n = digit_char d :: ds /\ 0 <= d < base.
Proof. intros. apply digits_aux_head; [done|lia]. Qed.

Lemma digit_char_range d : 0 <= d < 16 -> 48 <= digit_char d <= 57 \/ 97 <= digit_char d <= 102.
Proof. unfold digit_char. destruct (Z.ltb_spec d 10); lia. Qed.

(** Every character of a numeral is a digit character. *)
Lemma digits_aux_all fuel base n acc :
  2 <= base <= 16 ->
  Forall (fun c => 48 <= c <= 57 \/ 97 <= c <= 102) acc ->
  Forall (fun c => 48 <= c <= 57 \/ 97 <= c <= 102) (digits_aux fuel base n acc).
Proof.
  intros Hb. revert n acc. induction fuel as [|fuel IH]; intros n acc Hacc; cbn [digits_aux]; [done|].
  assert (Forall (fun c => 48 <= c <= 57 \/ 97 <= c <= 102) (digit_char (n mod base) :: acc)).
  { constructor; [|done]. apply digit_char_range. pose proof (Z.mod_pos_bound n base). lia. }
  destruct (n / base =? 0); [done|]. by apply IH.
Qed.

Lemma digits_all base n : 2 <= base <= 16 ->
  Forall (fun c => 48 <= c <= 57 \/ 97 <= c <= 102) (digits base n).
Proof. intros. by apply digits_aux_all. Qed.

Lemma isspace_false c : 33 <= c -> isspace c = false.
Proof.
  intros. unfold isspace. rewrite (proj2 (Z.eqb_neq _ _)), (proj2 (Z.leb_gt c 13)) by lia.
  by rewrite andb_false_r.
Qed.

(** Scanning an unsigned numeral that [printf] wrote. *)
Lemma scan_unsigned_print base w n rest :
  base = 10 \/ base = 16 -> 0 <= n < w -> starts_digit base rest = false ->
  (base = 16 -> match rest with x :: _ => x <> 120 /\ x <> 88 | [] => True end) ->
  scan_unsigned base w (digits base n ++ rest) = Ok (Some (n, rest)).
Proof.
  intros Hb Hn Hr Hx. unfold scan_unsigned.
  destruct (digits_head base n ltac:(lia)) as (d & ds & Hds & Hd).
  pose proof (digits_all base n ltac:(lia)) as Hall.
  pose proof (scan_print base n rest ltac:(lia) ltac:(lia) Hr) as Hscan.
  rewrite Hds in *. apply Forall_cons in Hall as [Hc Hall]. cbn [app] in *.
  cbn [skip_spaces]. rewrite isspace_false by lia.
  cbn [scan_sign]. rewrite (proj2 (Z.eqb_neq _ 45)), (proj2 (Z.eqb_neq _ 43)) by lia.
  assert (starts_digit base (digit_char d :: ds ++ rest) = true) as Hsd.
  { cbn. apply bool_decide_eq_true. rewrite base_digit_char by lia. eauto. }
  assert (match ds ++ rest with
          | [] => digit_char d :: ds ++ rest
          | x :: s' => if (base =? 16) && (digit_char d =? 48) && ((x =? 120) || (x =? 88))
                      then s' else digit_char d :: ds ++ rest
          end = digit_char d :: ds ++ rest) as ->.
  { destruct ds as [|x ds]; cbn [app].
    - destruct rest as [|x rest]; [done|]. destruct (Z.eqb_spec base 16) as [E|]; [|done].
      destruct (Hx E). rewrite (proj2 (Z.eqb_neq x _)), (proj2 (Z.eqb_neq x 88)) by done.
      by rewrite andb_false_r.
    - apply Forall_cons in Hall as [Hxr _].
      rewrite (proj2 (Z.eqb_neq x 120)), (proj2 (Z.eqb_neq x 88)) by lia. by rewrite andb_false_r. }
  rewrite Hsd, Hscan. by rewrite (proj2 (Z.ltb_lt _ _)) by lia.
Qed.

Lemma starts_digit_other base c s : ~ (48 <= c <= 57 \/ 97 <= c <= 102 \/ 65 <= c <= 70) ->
  starts_digit base (c :: s) = false.
Proof.
  intros Hc. cbn. apply bool_decide_eq_false. unfold base_digit, digit_val.
  assert ((48 <=? c) && (c <=? 57) = false) as -> by lia.
  assert ((97 <=? c) && (c <=? 102) = false) as -> by lia.
  assert ((65 <=? c) && (c <=? 70) = false) as -> by lia.
  by intros [? ?].
Qed.

(** [atoi] reads back what [%d] printed. *)
Lemma atoi_print z rest : INT_MIN <= z <= INT_MAX -> starts_digit 10 rest = false ->
  atoi (print_int z ++ rest) = Ok z.
Proof.
  intros Hz Hr. unfold atoi, print_int.
  destruct (Z.ltb_spec z 0).
  - cbn [app skip_spaces]. rewrite isspace_false by lia. cbn [scan_sign].
    change (45 =? 45) with true. cbn iota. rewrite scan_print by (done || lia).
    rewrite Z.opp_involutive. by apply sint_ok.
  - destruct (digits_head 10 z ltac:(lia)) as (d & ds & Hds & Hd).
    pose proof (digits_all 10 z ltac:(lia)) as Hall.
    pose proof (scan_print 10 z rest ltac:(lia) ltac:(lia) Hr) as Hscan.
    rewrite Hds in *. apply Forall_cons in Hall as [Hc Hall]. cbn [app] in *.
    cbn [skip_spaces]. rewrite isspace_false by lia.
    cbn [scan_sign]. rewrite (proj2 (Z.eqb_neq _ 45)), (proj2 (Z.eqb_neq _ 43)) by lia.
    rewrite Hscan. by apply sint_ok.
Qed.

Lemma scan_int_print z rest : INT_MIN <= z <= INT_MAX -> starts_digit 10 rest = false ->
  scan_int (print_int z ++ rest) = Ok (Some z).
Proof.
  intros Hz Hr. unfold scan_int, print_int.
  assert (forall n, starts_digit 10 (digits 10 n ++ rest) = true) as Hsd.
  { intros n. destruct (digits_head 10 n ltac:(lia)) as (d & ds & -> & Hd). cbn.
    apply bool_decide_eq_true. rewrite base_digit_char by lia. eauto. }
  destruct (Z.ltb_spec z 0).
  - cbn [app skip_spaces]. rewrite isspace_false by lia. cbn [scan_sign].
    change (45 =? 45) with true. cbn iota. rewrite Hsd, scan_print by (done || lia). cbn [fst].
    rewrite Z.opp_involutive. by rewrite sint_ok.
  - specialize (Hsd z). destruct (digits_head 10 z ltac:(lia)) as (d & ds & Hds & Hd).
    pose proof (digits_all 10 z ltac:(lia)) as Hall.
    pose proof (scan_print 10 z rest ltac:(lia) ltac:(lia) Hr) as Hscan.
    rewrite Hds in *. apply Forall_cons in Hall as [Hc Hall]. cbn [app] in *.
    cbn [skip_spaces]. rewrite isspace_false by lia.
    cbn [scan_sign]. rewrite (proj2 (Z.eqb_neq _ 45)), (proj2 (Z.eqb_neq _ 43)) by lia.
    rewrite Hsd, Hscan. cbn [fst]. by rewrite sint_ok.
Qed.

(** ** Lines and tokens *)

(** [getline]: the next line with its newline; [None] at the end of the file. *)
Fixpoint get_line (file : list Z) : list Z * list Z :=
  match file with
  | [] => ([], [])
  | c :: file' => if c =? 10 then ([c], file') else let '(l, r) := get_line file' in (c :: l, r)
  end.

Definition getline (file : list Z) : option (list Z * list Z) :=
  match file with [] => None | _ => Some (get_line file) end.

(** [strtok] with one delimiter: skip delimiters, then the token up to the next
    one, which is consumed. *)
Fixpoint skip_delims (d : Z) (s : list Z) : list Z :=
  match s with c :: s' => if c =? d then skip_delims d s' else s | [] => [] end.

Fixpoint until_delim (d : Z) (s : list Z) : list Z * list Z :=
  match s with
  | [] => ([], [])
  | c :: s' => if c =? d then ([], s') else let '(t, r) := until_delim d s' in (c :: t, r)
  end.

Definition strtok (d : Z) (s : list Z) : option (list Z * list Z) :=
  match skip_delims d s with [] => None | s' => Some (until_delim d s') end.

Lemma get_line_spec line rest :
  Forall (fun c => c <> 10) line -> get_line (line ++ 10 :: rest) = (line ++ [10], rest).
Proof.
  induction 1 as [|c line Hc Hl IH]; [done|]. cbn [app get_line].
  rewrite (proj2 (Z.eqb_neq _ _)) by done. by rewrite IH.
Qed.

Lemma getline_spec line rest :
  Forall (fun c => c <> 10) line -> getline (line ++ 10 :: rest) = Some (line ++ [10], rest).
Proof. intros H. unfold getline. rewrite get_line_spec by done. by destruct line. Qed.

Lemma until_delim_stop d t rest :
  Forall (fun c => c <> d) t -> until_delim d (t ++ d :: rest) = (t, rest).
Proof.
  induction 1 as [|c t Hc Ht IH]; cbn [app until_delim]; [by rewrite Z.eqb_refl|].
  rewrite (proj2 (Z.eqb_neq _ _)) by done. by rewrite IH.
Qed.

Lemma until_delim_end d t : Forall (fun c => c <> d) t -> until_delim d t = (t, []).
Proof.
  induction 1 as [|c t Hc Ht IH]; cbn [until_delim]; [done|].
  rewrite (proj2 (Z.eqb_neq _ _)) by done. by rewrite IH.
Qed.

Lemma strtok_token d t rest :
  t <> [] -> Forall (fun c => c <> d) t -> strtok d (t ++ d :: rest) = Some (t, rest).
Proof.
  intros Hne Ht. unfold strtok. destruct t as [|c t]; [done|]. cbn [app skip_delims].
  apply Forall_cons in Ht as Hc. destruct Hc as [Hc _].
  rewrite (proj2 (Z.eqb_neq _ _)) by done. f_equal. by apply (until_delim_stop d (c :: t)).
Qed.

Lemma strtok_last d t : t <> [] -> Forall (fun c => c <> d) t -> strtok d t = Some (t, []).
Proof.
  intros Hne Ht. unfold strtok. destruct t as [|c t]; [done|]. cbn [skip_delims].
  apply Forall_cons in Ht as Hc. destruct Hc as [Hc _].
  rewrite (proj2 (Z.eqb_neq _ _)) by done. f_equal. by apply until_delim_end.
Qed.

(** Characters of a printed integer. *)
Lemma print_int_chars z : Forall (fun c => 45 <= c) (print_int z).
Proof.
  unfold print_int. destruct (z <? 0); [constructor; [lia|]|];
    (eapply Forall_impl; [apply digits_all; lia|]; cbn; lia).
Qed.

Lemma print_int_nonempty z : print_int z <> [].
Proof.
  unfold print_int. destruct (z <? 0); [done|].
  destruct (digits_head 10 z ltac:(lia)) as (d & ds & -> & _). done.
Qed.

Lemma atoi_print_int z : INT_MIN <= z <= INT_MAX -> atoi (print_int z) = Ok z.
Proof. intros. rewrite <-(app_nil_r (print_int z)). by apply atoi_print. Qed.

(** [fgets(buf, n + 1, fp)]: up to [n] characters, through the first newline. *)
Fixpoint fgets_line (n : nat) (file : list Z) : list Z * list Z :=
  match n, file with
  | O, _ => ([], file)
  | _, [] => ([], [])
  | S n', c :: file' =>
      if c =? 10 then ([c], file')
      else let '(line, rest) := fgets_line n' file' in (c :: line, rest)
  end.

(** The C string at the front of a buffer. *)
Fixpoint until_nul (l : list Z) : list Z :=
  match l with [] => [] | c :: l' => if c =? 0 then [] else c :: until_nul l' end.

Lemma fgets_line_spec n line rest :
  Forall (fun c => c <> 10) line -> (length line < n)%nat ->
  fgets_line n (line ++ 10 :: rest) = (line ++ [10], rest).
Proof.
  intros Hl. revert n. induction Hl as [|c line Hc Hl IH]; intros n Hn; (destruct n as [|n]; [cbn in Hn; lia|]).
  - done.
  - cbn [app fgets_line]. rewrite (proj2 (Z.eqb_neq _ _)) by done. rewrite IH by (cbn in Hn; lia). done.
Qed.

Lemma until_nul_spec line rest : Forall (fun c => c <> 0) line -> until_nul (line ++ 0 :: rest) = line.
Proof.
  induction 1 as [|c line Hc Hl IH]; [done|]. cbn [app until_nul].
  rewrite (proj2 (Z.eqb_neq _ _)) by done. by rewrite IH.
Qed.
