(* ===== verification/Heap.v ===== *)
(** * The best-fit heap allocator, 底层系统/memory-allocator/p3Heap.c

    State: the mapped words, [heap_start], [alloc_size] and the static
    [allocated_once].  Operations: [alloc], [free_block], [init_heap] and
    [disp_heap], each the whole C function.  The abstract heap is a list of
    blocks; [rep] ties the header, footer and end-mark words to it. *)
From S2P Require Import Prelude.

(** ** State

    A [blockHeader] is one 32-bit word; [words] holds the words of the mapped
    region by (4-aligned) byte address, headers, footers and payload alike. *)
Record heap : Type := mkHeap {
  words : gmap Z Z;
  heap_start : Z;
  alloc_size : Z;
  allocated_once : bool
}.

Definition set_words (w : gmap Z Z) (h : heap) : heap :=
  mkHeap w (heap_start h) (alloc_size h) (allocated_once h).

(** Reading or writing a word outside the mapping faults. *)
Definition load (a : Z) : M heap Z := fun h =>
  match words h !! a with Some v => Ok (v, h) | None => Err Undefined end.

Definition store (a v : Z) : M heap unit := fun h =>
  match words h !! a with
  | Some _ => Ok (tt, set_words (<[a := v]> (words h)) h)
  | None => Err Undefined
  end.

Definition NULL : Z := 0.
Definition HDR : Z := 4.      (** [sizeof(blockHeader)] *)
Definition A_BIT : Z := 1.
Definition P_BIT : Z := 2.
Definition GET_SIZE (size_status : Z) : Z := Z.land size_status (Z.lnot 3).
Definition IS_ALLOCATED (size_status : Z) : bool := negb (Z.land size_status A_BIT =? 0).
Definition IS_PREV_ALLOCATED (size_status : Z) : bool := negb (Z.land size_status P_BIT =? 0).

(** ** alloc *)

(** [required_size]: header plus payload, rounded up to a multiple of 8.
    [size + sizeof] is computed in [size_t] and converted back to [int]. *)
Definition required_of (size : Z) : result Z :=
  let required_size := to_int (u64 (size + HDR)) in
  if Z.rem required_size 8 =? 0 then Ok required_size
  else sint (required_size + (8 - Z.rem required_size 8)).

(** The traversal loop; [fuel] bounds the number of headers visited. *)
Fixpoint alloc_scan (fuel : nat) (required_size current best_fit best_fit_size : Z)
    : M heap (Z * Z) :=
  match fuel with
  | O => fail OutOfFuel
  | S fuel' =>
      status ← load current;
      if status =? 1 then mret (best_fit, best_fit_size)
      else
        let current_size := GET_SIZE status in
        let '(best_fit, best_fit_size) :=
          if negb (IS_ALLOCATED status) && (required_size <=? current_size) then
            if (best_fit =? NULL) || (current_size <? best_fit_size)
            then (current, current_size) else (best_fit, best_fit_size)
          else (best_fit, best_fit_size) in
        alloc_scan fuel' required_size (current + current_size) best_fit best_fit_size
  end.

(** Enough iterations for any tiling of the heap by blocks of at least 8 bytes. *)
Definition scan_fuel (h : heap) : nat := S (Z.to_nat (alloc_size h / 8)).

(** Taking the chosen block: split it when at least 8 bytes remain, and fix
    the header of whatever follows. *)
Definition alloc_place (best_fit best_fit_size required_size : Z) : M heap unit :=
  remaining_size ← lift (sint (best_fit_size - required_size));
  (if 8 <=? remaining_size then
     status ← load best_fit;
     let p_bit := if IS_PREV_ALLOCATED status then P_BIT else 0 in
     _ ← store best_fit (Z.lor (Z.lor required_size p_bit) A_BIT);
     let new_free := best_fit + required_size in
     _ ← store new_free (Z.lor remaining_size P_BIT);
     let new_footer := new_free + remaining_size - HDR in
     _ ← store new_footer remaining_size;
     let next := new_free + remaining_size in
     next_status ← load next;
     if next_status =? 1 then mret tt
     else store next (Z.land next_status (Z.lnot P_BIT))
   else
     status ← load best_fit;
     _ ← store best_fit (Z.lor status A_BIT);
     let next := best_fit + best_fit_size in
     next_status ← load next;
     if next_status =? 1 then mret tt
     else store next (Z.lor next_status P_BIT)).

Definition alloc (size : Z) : M heap Z :=
  if size <? 1 then mret NULL else
  required_size ← lift (required_of size);
  h ← get;
  '(best_fit, best_fit_size) ←
    alloc_scan (scan_fuel h) required_size (heap_start h) NULL 0;
  if best_fit =? NULL then mret NULL else
  _ ← alloc_place best_fit best_fit_size required_size;
  mret (best_fit + HDR).

(** ** free_block *)

(** Merging with the previous block: its address and the summed size. *)
Definition coalesce_prev (block block_size p_bit : Z) : M heap (Z * Z) :=
  if Z.land p_bit P_BIT =? 0 then
    prev_footer ← load (block - HDR);
    let prev_size := GET_SIZE prev_footer in
    sum ← lift (sint (block_size + prev_size));
    mret (block - prev_size, sum)
  else mret (block, block_size).

(** Merging with the next block: the size grows by its size. *)
Definition coalesce_next (next_block coalesced_size : Z) : M heap Z :=
  next_status ← load next_block;
  if negb (next_status =? 1) && negb (IS_ALLOCATED next_status)
  then lift (sint (coalesced_size + GET_SIZE next_status))
  else mret coalesced_size.

(** Header and footer of the merged block, and the p-bit of what follows it. *)
Definition write_coalesced (coalesced_block coalesced_size : Z) : M heap unit :=
  cstatus ← load coalesced_block;
  let coalesced_p_bit := if IS_PREV_ALLOCATED cstatus then P_BIT else 0 in
  _ ← store coalesced_block (Z.lor coalesced_size coalesced_p_bit);
  _ ← store (coalesced_block + coalesced_size - HDR) coalesced_size;
  let next_after_coalesce := coalesced_block + coalesced_size in
  nstatus ← load next_after_coalesce;
  if nstatus =? 1 then mret tt
  else store next_after_coalesce (Z.land nstatus (Z.lnot P_BIT)).

Definition free_block (ptr : Z) : M heap Z :=
  if ptr =? NULL then mret (-1) else
  if negb (ptr mod 8 =? 0) then mret (-1) else
  let block := ptr - HDR in
  h ← get;
  if block <? heap_start h then mret (-1) else
  let heap_end := heap_start h + alloc_size h in
  if heap_end <=? block then mret (-1) else
  status ← load block;
  if negb (IS_ALLOCATED status) then mret (-1) else
  let block_size := GET_SIZE status in
  let p_bit := if IS_PREV_ALLOCATED status then P_BIT else 0 in
  _ ← store block (Z.lor block_size p_bit);
  _ ← store (block + block_size - HDR) block_size;
  '(coalesced_block, coalesced_size) ← coalesce_prev block block_size p_bit;
  coalesced_size ← coalesce_next (block + block_size) coalesced_size;
  _ ← write_coalesced coalesced_block coalesced_size;
  mret 0.

(** ** init_heap

    The operating system: the page size, whether [open("/dev/zero")] works,
    and [mmap] of a length, which yields the address of fresh zeroed memory
    or fails. *)
Record os : Type := mkOs {
  getpagesize : Z;
  open_devzero : bool;
  mmap : Z -> option Z
}.

(** [n] zeroed words from address [p], as a private mapping of /dev/zero holds. *)
Fixpoint zero_words (p : Z) (n : nat) : gmap Z Z :=
  match n with
  | O => ∅
  | S n' => <[p := 0]> (zero_words (p + 4) n')
  end.

Definition set_alloc_size (z : Z) (h : heap) : heap :=
  mkHeap (words h) (heap_start h) z (allocated_once h).

Definition init_heap (o : os) (sizeOfRegion : Z) : M heap Z :=
  h ← get;
  if allocated_once h then mret (-1) else
  if sizeOfRegion <=? 0 then mret (-1) else
  let pagesize := getpagesize o in
  let padsize := Z.rem sizeOfRegion pagesize in
  let padsize := Z.rem (pagesize - padsize) pagesize in
  region ← lift (sint (sizeOfRegion + padsize));
  _ ← modify (set_alloc_size region);
  if negb (open_devzero o) then mret (-1) else
  match mmap o region with
  | None => mret (-1)
  | Some mmap_ptr =>
      let start := mmap_ptr + 4 in
      let asize := region - 8 in
      _ ← modify (fun h => mkHeap (zero_words mmap_ptr (Z.to_nat (region / 4)) ∪ words h)
                             start asize true);
      _ ← store (start + asize) 1;
      _ ← store start asize;
      status ← load start;
      sum ← lift (sint (status + 2));
      _ ← store start sum;
      _ ← store (start + asize - 4) asize;
      mret 0
  end.

(** ** disp_heap

    Each printed line is a [row]; the function returns the rows and the
    three totals it prints. *)
Record row : Type := mkRow {
  counter : Z; status_alloc : bool; p_status_alloc : bool;
  t_begin : Z; t_end : Z; t_size : Z
}.

Fixpoint disp_scan (fuel : nat) (current counter used_size free_size : Z) (rows : list row)
    : M heap (list row * Z * Z) :=
  match fuel with
  | O => fail OutOfFuel
  | S fuel' =>
      status ← load current;
      if status =? 1 then mret (rows, used_size, free_size)
      else
        let is_used := negb (Z.land status 1 =? 0) in
        let t_size := if is_used then status - 1 else status in
        let p_used := negb (Z.land t_size 2 =? 0) in
        t_size ← lift (sint (if p_used then t_size - 2 else t_size));
        used_size ← lift (sint (if is_used then used_size + t_size else used_size));
        free_size ← lift (sint (if is_used then free_size else free_size + t_size));
        disp_scan fuel' (current + t_size) (counter + 1) used_size free_size
          (rows ++ [mkRow counter is_used p_used current (current + t_size - 1) t_size])
  end.

Definition disp_heap : M heap (list row * Z * Z * Z) :=
  h ← get;
  '(rows, used_size, free_size) ← disp_scan (scan_fuel h) (heap_start h) 1 0 0 [];
  total ← lift (sint (used_size + free_size));
  mret (rows, used_size, free_size, total).

(** ** The abstract heap: a tiling of the region by blocks *)
Record blk : Type := mkBlk { bsize : Z; bused : bool }.

#[export] Instance blk_eq_dec : EqDecision blk.
Proof. solve_decision. Defined.

Fixpoint total (bs : list blk) : Z :=
  match bs with [] => 0 | b :: bs' => bsize b + total bs' end.

(** The header word of a block: size, p-bit, a-bit. *)
Definition header (size : Z) (prev used : bool) : Z :=
  size + ((if prev then P_BIT else 0) + (if used then A_BIT else 0)).

Definition blk_ok (b : blk) : Prop := 8 <= bsize b /\ bsize b mod 8 = 0.

(** A block's own words: its header and, when free, its footer. *)
Definition blk_words (w : gmap Z Z) (a : Z) (prev : bool) (b : blk) : Prop :=
  w !! a = Some (header (bsize b) prev (bused b)) /\
  (bused b = false -> w !! (a + bsize b - HDR) = Some (bsize b)).

(** Blocks [bs] laid out from address [a]; [prev] is the status of the block before. *)
Fixpoint seg (w : gmap Z Z) (a : Z) (prev : bool) (bs : list blk) : Prop :=
  match bs with
  | [] => True
  | b :: bs' => blk_ok b /\ blk_words w a prev b /\ seg w (a + bsize b) (bused b) bs'
  end.

Fixpoint last_used (prev : bool) (bs : list blk) : bool :=
  match bs with [] => prev | b :: bs' => last_used (bused b) bs' end.

(** Immediate coalescing: no two neighbouring blocks are both free. *)
Fixpoint no_adj_free (bs : list blk) : Prop :=
  match bs with
  | [] => True
  | b :: bs' =>
      (bused b = false -> match bs' with [] => True | c :: _ => bused c = true end)
      /\ no_adj_free bs'
  end.

Record rep (h : heap) (bs : list blk) : Prop := {
  rep_seg : seg (words h) (heap_start h) true bs;
  rep_end : words h !! (heap_start h + alloc_size h) = Some 1;
  rep_total : total bs = alloc_size h;
  rep_align : heap_start h mod 8 = 4;
  rep_pos : 0 < heap_start h;
  rep_max : alloc_size h <= INT_MAX - 8;
  rep_mapped : forall x, heap_start h <= x <= heap_start h + alloc_size h ->
                 x mod 4 = 0 -> is_Some (words h !! x);
  rep_coal : no_adj_free bs
}.

(** ** Specification of best fit *)
Definition fits (req : Z) (b : blk) : Prop := bused b = false /\ req <= bsize b.

(** [b], between [pre] and [post], is the first smallest free block that fits. *)
Record best_fit (req : Z) (pre : list blk) (b : blk) (post : list blk) : Prop := {
  bf_fits : fits req b;
  bf_pre : Forall (fun c => fits req c -> bsize b < bsize c) pre;
  bf_post : Forall (fun c => fits req c -> bsize b <= bsize c) post
}.

(** What a chosen block becomes. *)
Definition place (req : Z) (b : blk) : list blk :=
  if 8 <=? bsize b - req then [mkBlk req true; mkBlk (bsize b - req) false]
  else [mkBlk (bsize b) true].

Definition round8 (z : Z) : Z := (z + 7) / 8 * 8.

(** ** Header words *)
Lemma header_size s p u : s mod 8 = 0 -> GET_SIZE (header s p u) = s.
Proof.
  intros Hs. unfold GET_SIZE, header.
  rewrite (land_lnot_low s _ 3 2) by (destruct p, u; unfold P_BIT, A_BIT; zlia).
  destruct p, u; apply Z.add_0_r.
Qed.

Lemma header_alloc s p u : s mod 8 = 0 -> IS_ALLOCATED (header s p u) = u.
Proof.
  intros Hs. unfold IS_ALLOCATED, header.
  rewrite (land_low s _ A_BIT 2) by (destruct p, u; unfold P_BIT, A_BIT; zlia).
  by destruct p, u.
Qed.

Lemma header_prev s p u : s mod 8 = 0 -> IS_PREV_ALLOCATED (header s p u) = p.
Proof.
  intros Hs. unfold IS_PREV_ALLOCATED, header.
  rewrite (land_low s _ P_BIT 2) by (destruct p, u; unfold P_BIT, A_BIT; zlia).
  by destruct p, u.
Qed.

Lemma header_clear_p s p u :
  s mod 8 = 0 -> Z.land (header s p u) (Z.lnot P_BIT) = header s false u.
Proof.
  intros Hs. unfold header.
  rewrite (land_lnot_low s _ P_BIT 2) by (destruct p, u; unfold P_BIT, A_BIT; zlia).
  by destruct p, u.
Qed.

Lemma header_set_p s p u :
  s mod 8 = 0 -> Z.lor (header s p u) P_BIT = header s true u.
Proof.
  intros Hs. unfold header.
  rewrite <-(lor_add_low s _ 2) by (destruct p, u; unfold P_BIT, A_BIT; zlia).
  rewrite <-Z.lor_assoc, (lor_add_low s _ 2); destruct p, u; unfold P_BIT, A_BIT;
    change (2 ^ 2) with 4; cbn [Z.lor]; try (simpl Z.lor); try zlia; done.
Qed.

Lemma header_set_a s p u :
  s mod 8 = 0 -> Z.lor (header s p u) A_BIT = header s p true.
Proof.
  intros Hs. unfold header.
  rewrite <-(lor_add_low s _ 2) by (destruct p, u; unfold P_BIT, A_BIT; zlia).
  rewrite <-Z.lor_assoc, (lor_add_low s _ 2); destruct p, u; unfold P_BIT, A_BIT;
    change (2 ^ 2) with 4; cbn [Z.lor]; try (simpl Z.lor); try zlia; done.
Qed.

Lemma lor_p_bit s (p : bool) :
  s mod 8 = 0 -> Z.lor s (if p then P_BIT else 0) = header s p false.
Proof.
  intros Hs. unfold header. rewrite (lor_add_low s _ 2);
    destruct p; unfold P_BIT, A_BIT; zlia.
Qed.

Lemma header_not_end s p u : 8 <= s -> (header s p u =? 1) = false.
Proof. intros. apply Z.eqb_neq. unfold header, P_BIT, A_BIT. destruct p, u; lia. Qed.

Create HintDb heap.
Create Rewrite HintDb heap.
#[export] Hint Rewrite header_size header_alloc header_prev header_clear_p
  header_set_p header_set_a lor_p_bit header_not_end using (assumption || lia) : heap.

(** ** Segments *)
Lemma total_app bs1 bs2 : total (bs1 ++ bs2) = total bs1 + total bs2.
Proof. induction bs1; cbn [total app]; lia. Qed.

Lemma last_used_app p bs1 bs2 :
  last_used p (bs1 ++ bs2) = last_used (last_used p bs1) bs2.
Proof. revert p. induction bs1; intros p; cbn; auto. Qed.

Lemma seg_app w a p bs1 bs2 :
  seg w a p (bs1 ++ bs2) <->
  seg w a p bs1 /\ seg w (a + total bs1) (last_used p bs1) bs2.
Proof.
  revert a p. induction bs1 as [|b bs1 IH]; intros a p; cbn [seg app total last_used].
  - rewrite Z.add_0_r. tauto.
  - rewrite IH, Z.add_assoc. tauto.
Qed.

Lemma seg_total w a p bs : seg w a p bs -> 8 * Z.of_nat (length bs) <= total bs /\ total bs mod 8 = 0.
Proof.
  revert a p. induction bs as [|b bs IH]; intros a p; cbn [seg total length].
  - done.
  - intros ([? ?] & _ & Hs). apply IH in Hs. unfold blk_ok in *. zlia.
Qed.

Lemma seg_ok w a p bs : seg w a p bs -> Forall blk_ok bs.
Proof. revert a p. induction bs; intros a' p; cbn; naive_solver. Qed.

(** A segment only depends on the words of its own address range. *)
Lemma seg_frame w w' a p bs :
  (forall x, a <= x < a + total bs -> w' !! x = w !! x) ->
  seg w a p bs -> seg w' a p bs.
Proof.
  revert a p. induction bs as [|b bs IH]; intros a p Hw; cbn [seg total]; [done|].
  intros (Hok & [Hh Hf] & Hs).
  pose proof (seg_total _ _ _ _ Hs) as [Ht _].
  destruct Hok as [Hok1 Hok2]. cbn [total] in Hw.
  split_and!; [done| split | ].
  - rewrite Hw by lia. done.
  - intros Hu. unfold HDR in *. rewrite Hw by lia. auto.
  - apply IH; [|done]. intros x Hx. apply Hw. lia.
Qed.

(** Words stored outside the range. *)
Lemma seg_insert_out w a p bs x v :
  ~ (a <= x < a + total bs) -> seg w a p bs -> seg (<[x := v]> w) a p bs.
Proof. intros Hx. apply seg_frame. intros y Hy. rewrite lookup_insert_ne; [done|lia]. Qed.

(** Rewriting the p-bit of the first header. *)
Lemma seg_set_prev w a p q b bs :
  seg w a p (b :: bs) ->
  seg (<[a := header (bsize b) q (bused b)]> w) a q (b :: bs).
Proof.
  cbn [seg]. intros (Hok & [Hh Hf] & Hs). destruct Hok as [Hok1 Hok2].
  split_and!; [done| split | ].
  - by rewrite lookup_insert_eq.
  - intros Hu. unfold HDR in *. rewrite lookup_insert_ne by lia. auto.
  - apply seg_insert_out; [lia|done].
Qed.

Lemma no_adj_free_app bs1 bs2 : no_adj_free (bs1 ++ bs2) -> no_adj_free bs1 /\ no_adj_free bs2.
Proof.
  induction bs1 as [|b bs1 IH]; cbn [no_adj_free app]; [done|].
  intros [H1 H2]. apply IH in H2 as [H2 H3].
  split_and!; try done. intros Hb. specialize (H1 Hb). by destruct bs1.
Qed.

Definition first_used (bs : list blk) : Prop :=
  match bs with [] => True | c :: _ => bused c = true end.

Lemma no_adj_free_join bs1 bs2 :
  no_adj_free bs1 -> no_adj_free bs2 ->
  (last_used true bs1 = false -> first_used bs2) -> no_adj_free (bs1 ++ bs2).
Proof.
  induction bs1 as [|b bs1 IH]; cbn [no_adj_free app last_used]; [done|].
  intros [H1 H2] H3 H4. split.
  - intros Hb. destruct bs1 as [|c bs1]; cbn [app]; [|auto].
    cbn in H4. specialize (H4 Hb). by destruct bs2.
  - apply IH; auto. intros Hl. apply H4.
    destruct bs1 as [|c bs1]; cbn in *; [done|done].
Qed.

Lemma no_adj_free_split bs1 bs2 :
  no_adj_free (bs1 ++ bs2) -> last_used true bs1 = false -> first_used bs2.
Proof.
  induction bs1 as [|b bs1 IH]; cbn [no_adj_free app last_used]; [done|].
  intros [H1 H2] Hl. destruct bs1 as [|c bs1]; cbn in *.
  - specialize (H1 Hl). by destruct bs2.
  - auto.
Qed.

(** ** Symbolic execution over the word store *)

(** [h'] differs from [h] at most in the contents of words in [P]. *)
Record touched (P : Z -> Prop) (h h' : heap) : Prop := {
  touched_start : heap_start h' = heap_start h;
  touched_size : alloc_size h' = alloc_size h;
  touched_once : allocated_once h' = allocated_once h;
  touched_out : forall x, ~ P x -> words h' !! x = words h !! x;
  touched_dom : forall x, is_Some (words h !! x) -> is_Some (words h' !! x)
}.

Lemma touched_refl P h : touched P h h.
Proof. by split. Qed.

Lemma touched_trans P h1 h2 h3 : touched P h1 h2 -> touched P h2 h3 -> touched P h1 h3.
Proof.
  intros [A1 A2 AO A3 A4] [B1 B2 BO B3 B4]. split; [congruence..| |auto].
  intros x Hx. rewrite B3, A3; done.
Qed.

Lemma touched_weaken (P P' : Z -> Prop) h h' :
  (forall x, P x -> P' x) -> touched P h h' -> touched P' h h'.
Proof. intros HP [A1 A2 AO A3 A4]. split; auto. Qed.

Lemma wp_load h a v Q : words h !! a = Some v -> Q v h -> wp (load a) h Q.
Proof. intros Hv HQ. exists v, h. unfold load. by rewrite Hv. Qed.

Lemma wp_store h a v (Q : unit -> heap -> Prop) :
  is_Some (words h !! a) ->
  (forall h', touched (fun x => x = a) h h' -> words h' = <[a := v]> (words h) -> Q tt h') ->
  wp (store a v) h Q.
Proof.
  intros [u Hu] HQ. unfold wp, store. rewrite Hu. eexists tt, _. split; [done|].
  apply HQ; [|done]. split; try done; cbn.
  - intros x Hx. by rewrite lookup_insert_ne by congruence.
  - intros x Hx. destruct (decide (a = x)) as [->|]; [by rewrite lookup_insert_eq|].
    by rewrite lookup_insert_ne.
Qed.

#[export] Hint Resolve touched_refl : heap.

(** Fixing the p-bit of whatever follows address [a]: the next block's
    header, or nothing when the end mark follows. *)
Lemma wp_fix_next h a q q' bs (f : Z -> Z) (Q : unit -> heap -> Prop) :
  seg (words h) a q bs ->
  words h !! (a + total bs) = Some 1 ->
  (forall s u, s mod 8 = 0 -> f (header s q u) = header s q' u) ->
  (forall h', touched (fun x => x = a /\ bs <> []) h h' ->
     seg (words h') a q' bs -> words h' !! (a + total bs) = Some 1 -> Q tt h') ->
  wp (st ← load a; if st =? 1 then mret tt else store a (f st)) h Q.
Proof.
  intros Hs He Hf HQ. destruct bs as [|b bs].
  - cbn [total] in *. rewrite Z.add_0_r in He.
    wp_step. eapply wp_load; [exact He|]. cbn. apply wp_ret. apply HQ; [done|done|].
    cbn. by rewrite Z.add_0_r.
  - pose proof Hs as ([Hb8 Hbm] & [Hh Hfoot] & Hrest).
    pose proof (seg_total _ _ _ _ Hrest) as [Ht _].
    wp_step. eapply wp_load; [exact Hh|]. rewrite header_not_end by done.
    eapply wp_store; [by rewrite Hh|]. intros h' Hto Hw.
    rewrite Hf in Hw by done. apply HQ.
    + eapply touched_weaken; [|exact Hto]. cbn. intros x ->. done.
    + rewrite Hw. eapply seg_set_prev, Hs.
    + cbn [total] in *. rewrite Hw, lookup_insert_ne by lia. done.
Qed.

(** ** The traversal of alloc *)
Definition best_so_far (req hs : Z) (pre : list blk) (bf bfs : Z) : Prop :=
  (bf = NULL /\ Forall (fun c => ~ fits req c) pre) \/
  exists p1 b p2, pre = p1 ++ b :: p2 /\ best_fit req p1 b p2 /\
    bf = hs + total p1 /\ bfs = bsize b.

Lemma best_so_far_step req hs pre b bf bfs :
  0 < hs -> 0 <= total pre -> Forall blk_ok pre ->
  best_so_far req hs pre bf bfs ->
  best_so_far req hs (pre ++ [b])
    (if negb (bused b) && (req <=? bsize b) && ((bf =? NULL) || (bsize b <? bfs))
     then hs + total pre else bf)
    (if negb (bused b) && (req <=? bsize b) && ((bf =? NULL) || (bsize b <? bfs))
     then bsize b else bfs).
Proof.
  intros Hhs Ht Hok Hbest.
  destruct (negb (bused b) && (req <=? bsize b)) eqn:Hfit; cbn [andb].
  - apply andb_true_iff in Hfit as [Hu Hr]. apply negb_true_iff in Hu. apply Z.leb_le in Hr.
    destruct Hbest as [[-> Hnone]|(p1 & c & p2 & -> & [Hcf Hp1 Hp2] & -> & ->)].
    + cbn. right. exists pre, b, []. split_and!; try done. split; [by split| |done].
      eapply Forall_impl; [exact Hnone|]. by intros c Hc Hc'.
    + assert (hs + total p1 =? NULL = false) as ->.
      { apply Z.eqb_neq. apply Forall_app in Hok as [Hok1 _]. unfold NULL.
        assert (0 <= total p1); [|lia]. clear -Hok1.
        induction Hok1 as [|c l [Hc _] _ IH]; cbn; lia. }
      cbn [orb]. destruct (Z.ltb_spec (bsize b) (bsize c)) as [Hlt|Hge]; right.
      * exists (p1 ++ c :: p2), b, []. split_and!; try done. split; [by split| |done].
        apply Forall_app. split; [|constructor].
        -- eapply Forall_impl; [exact Hp1|]. intros d Hd Hfd. specialize (Hd Hfd). lia.
        -- done.
        -- eapply Forall_impl; [exact Hp2|]. intros d Hd Hfd. specialize (Hd Hfd). lia.
      * exists p1, c, (p2 ++ [b]). rewrite <-app_assoc. split_and!; try done.
        split; [done|done|]. apply Forall_app. split; [done|]. constructor; [|done]. done.
  - assert (~ fits req b) as Hnf.
    { intros [Hu Hr]. rewrite Hu in Hfit. cbn in Hfit. apply Z.leb_gt in Hfit. lia. }
    destruct Hbest as [[-> Hnone]|(p1 & c & p2 & -> & [Hcf Hp1 Hp2] & -> & ->)].
    + left. split; [done|]. apply Forall_app. auto.
    + right. exists p1, c, (p2 ++ [b]). rewrite <-app_assoc. split_and!; try done.
      split; [done|done|]. apply Forall_app. split; [done|]. constructor; [|done]. done.
Qed.

Lemma alloc_scan_spec h req bs pre fuel bf bfs :
  seg (words h) (heap_start h) true (pre ++ bs) ->
  words h !! (heap_start h + total (pre ++ bs)) = Some 1 ->
  0 < heap_start h ->
  (length bs < fuel)%nat ->
  best_so_far req (heap_start h) pre bf bfs ->
  wp (alloc_scan fuel req (heap_start h + total pre) bf bfs) h
     (fun r h' => h' = h /\ best_so_far req (heap_start h) (pre ++ bs) (fst r) (snd r)).
Proof.
  revert pre fuel bf bfs. induction bs as [|b bs IH]; intros pre fuel bf bfs Hs He Hhs Hfuel Hb;
    (destruct fuel as [|fuel]; [cbn in Hfuel; lia|]); cbn [alloc_scan].
  - rewrite app_nil_r in *. wp_step. eapply wp_load; [exact He|]. cbn. apply wp_ret. done.
  - pose proof (seg_ok _ _ _ _ Hs) as Hok.
    apply Forall_app in Hok as [Hokp Hokb]. apply Forall_cons in Hokb as [Hokb _].
    pose proof Hs as Hs'. apply seg_app in Hs' as [Hpre Hrest].
    pose proof (seg_total _ _ _ _ Hpre) as [Htp _].
    destruct Hrest as (_ & [Hh _] & _). destruct Hokb as [Hb8 Hbm].
    wp_step. eapply wp_load; [exact Hh|]. rewrite header_not_end by done.
    rewrite header_size, header_alloc by done.
    pose proof (best_so_far_step req (heap_start h) pre b bf bfs Hhs ltac:(lia) Hokp Hb) as Hstep.
    assert (pre ++ b :: bs = (pre ++ [b]) ++ bs) as Eq by (by rewrite <-app_assoc).
    rewrite Eq in *.
    replace (heap_start h + total pre + bsize b) with (heap_start h + total (pre ++ [b]))
      by (rewrite total_app; cbn; lia).
    destruct (negb (bused b) && (req <=? bsize b)); cbn [andb] in Hstep;
      [destruct ((bf =? NULL) || (bsize b <? bfs))|];
      apply IH; try done; cbn in Hfuel; lia.
Qed.

(** Payload words of allocated blocks: the memory that belongs to the client. *)
Fixpoint in_used (a : Z) (bs : list blk) (x : Z) : Prop :=
  match bs with
  | [] => False
  | b :: bs' => (bused b = true /\ a + HDR <= x < a + bsize b) \/ in_used (a + bsize b) bs' x
  end.

Lemma in_used_app a bs1 bs2 x :
  in_used a (bs1 ++ bs2) x <-> in_used a bs1 x \/ in_used (a + total bs1) bs2 x.
Proof.
  revert a. induction bs1 as [|b bs1 IH]; intros a; cbn [in_used app total].
  - rewrite Z.add_0_r. tauto.
  - rewrite IH, Z.add_assoc. tauto.
Qed.

Lemma in_used_range a bs x :
  Forall blk_ok bs -> in_used a bs x -> a + HDR <= x < a + total bs.
Proof.
  intros Hok. revert a. induction Hok as [|b bs [Hb _] Hok IH]; intros a; cbn; [done|].
  assert (0 <= total bs) by (clear -Hok; induction Hok as [|? ? [? _]]; cbn; lia).
  unfold HDR in *. intros [[_ ?]|Hx]; [lia|]. apply IH in Hx. lia.
Qed.

(** What the allocator touches when it works on a free middle block. *)
Lemma in_used_untouched a p1 b p2 x :
  Forall blk_ok (p1 ++ b :: p2) -> bused b = false ->
  in_used a (p1 ++ b :: p2) x ->
  ~ (a + total p1 <= x < a + total p1 + bsize b \/
     x = a + total p1 + bsize b /\ p2 <> []).
Proof.
  intros Hok Hb Hx. apply Forall_app in Hok as [Ho1 Ho2].
  apply Forall_cons in Ho2 as [Hob Ho2]. destruct Hob as [Hb8 _].
  apply in_used_app in Hx as [Hx|Hx].
  - apply in_used_range in Hx; [|done]. lia.
  - cbn [in_used] in Hx. rewrite Hb in Hx. destruct Hx as [[? _]|Hx]; [done|].
    apply in_used_range in Hx; [|done]. unfold HDR in *. lia.
Qed.

(** ** The size computation of alloc *)
Lemma required_of_ok size :
  1 <= size <= INT_MAX - 11 -> required_of size = Ok (round8 (size + HDR)).
Proof.
  unfold INT_MAX. intros Hs. unfold required_of, HDR.
  rewrite u64_id by (unfold ULONG_MOD; lia).
  rewrite to_int_id by (unfold_bounds; lia).
  rewrite Z.rem_mod_nonneg by lia. unfold round8.
  destruct (Z.eqb_spec ((size + 4) mod 8) 0) as [E|E].
  - f_equal. zlia.
  - rewrite sint_ok by (unfold_bounds; zlia). f_equal. zlia.
Qed.

Lemma round8_spec z : z <= round8 z < z + 8 /\ round8 z mod 8 = 0.
Proof. unfold round8. zlia. Qed.

(** ** alloc meets its specification *)
Inductive alloc_outcome (req hs : Z) (bs : list blk) : Z -> list blk -> Prop :=
  | alloc_none : Forall (fun c => ~ fits req c) bs -> alloc_outcome req hs bs NULL bs
  | alloc_some p1 b p2 :
      bs = p1 ++ b :: p2 -> best_fit req p1 b p2 ->
      alloc_outcome req hs bs (hs + total p1 + HDR) (p1 ++ place req b ++ p2).

Record rep_parts (h : heap) (p1 : list blk) (b : blk) (p2 : list blk) : Prop := {
  rp_pre : seg (words h) (heap_start h) true p1;
  rp_ok : blk_ok b;
  rp_words : blk_words (words h) (heap_start h + total p1) (last_used true p1) b;
  rp_post : seg (words h) (heap_start h + total p1 + bsize b) (bused b) p2;
  rp_end : words h !! (heap_start h + total p1 + bsize b + total p2) = Some 1;
  rp_tot : 0 <= total p1 /\ total p1 mod 8 = 0 /\ 0 <= total p2 /\ total p2 mod 8 = 0;
  rp_size : total p1 + bsize b + total p2 = alloc_size h
}.

Lemma rep_split h p1 b p2 : rep h (p1 ++ b :: p2) -> rep_parts h p1 b p2.
Proof.
  intros [Hs He Ht Ha Hp Hm Hd Hc].
  pose proof Hs as Hs'. apply seg_app in Hs' as [H1 [Hok [Hw H2]]].
  rewrite total_app in Ht. cbn [total] in Ht.
  pose proof (seg_total _ _ _ _ H1). pose proof (seg_total _ _ _ _ H2).
  split; try done; try lia.
  - replace (heap_start h + total p1 + bsize b + total p2)
      with (heap_start h + alloc_size h) by lia. done.
Qed.

Lemma rep_word h bs x :
  rep h bs -> heap_start h <= x <= heap_start h + alloc_size h -> x mod 4 = 0 ->
  is_Some (words h !! x).
Proof. intros []; auto. Qed.

(** Rebuilding [rep] after the words of a middle part were rewritten. *)
Lemma rep_rebuild h h' P p1 old p2 mid :
  rep h (p1 ++ old ++ p2) ->
  touched P h h' ->
  (forall x, P x -> heap_start h + total p1 <= x) ->
  seg (words h') (heap_start h + total p1) (last_used true p1) mid ->
  total mid = total old ->
  seg (words h') (heap_start h + total p1 + total old) (last_used (last_used true p1) mid) p2 ->
  words h' !! (heap_start h + total p1 + total old + total p2) = Some 1 ->
  no_adj_free (p1 ++ mid ++ p2) ->
  rep h' (p1 ++ mid ++ p2).
Proof.
  intros [Hs He Ht Ha Hp Hm Hd Hc] [Hst Hal _ Hout Hdom] HP Hmid Htm Hpost Hend Hcoal.
  apply seg_app in Hs as [H1 _]. rewrite !total_app in Ht.
  split; rewrite ?Hst, ?Hal; try done.
  - rewrite seg_app, seg_app, Htm. split_and!; try done.
    eapply seg_frame; [|exact H1]. intros x Hx. apply Hout. intros HPx. apply HP in HPx. lia.
  - replace (heap_start h + alloc_size h)
      with (heap_start h + total p1 + total old + total p2) by lia. done.
  - rewrite !total_app. lia.
  - intros x Hx Hx4. apply Hdom, Hd; done.
Qed.

Lemma last_used_place p req b : bused b = false ->
  last_used p (place req b) = negb (8 <=? bsize b - req).
Proof. intros. unfold place. by destruct (8 <=? bsize b - req). Qed.

Lemma total_place req b : total (place req b) = bsize b.
Proof. unfold place. destruct (8 <=? bsize b - req); cbn; lia. Qed.

(** Using a free block keeps the heap coalesced. *)
Lemma no_adj_free_place p1 b p2 req :
  no_adj_free (p1 ++ b :: p2) -> bused b = false ->
  no_adj_free (p1 ++ place req b ++ p2).
Proof.
  intros Hc Hb. apply no_adj_free_app in Hc as [Hc1 Hc2].
  cbn [no_adj_free] in Hc2. destruct Hc2 as [Hbp Hc2].
  apply no_adj_free_join; [done| |].
  - apply no_adj_free_join; [|done|].
    + unfold place. by destruct (8 <=? bsize b - req).
    + intros _. specialize (Hbp Hb). by destruct p2.
  - intros _. unfold place. by destruct (8 <=? bsize b - req).
Qed.

Section place_block.
Context (h : heap) (p1 : list blk) (b : blk) (p2 : list blk) (req : Z).
Hypothesis Hrep : rep h (p1 ++ b :: p2).
Hypothesis Hfree : bused b = false.
Hypothesis Hreq : 8 <= req <= bsize b /\ req mod 8 = 0.

Let a := heap_start h + total p1.
Let touch (x : Z) : Prop := a <= x < a + bsize b \/ x = a + bsize b /\ p2 <> [].

Lemma block_word x : a <= x < a + bsize b -> x mod 4 = 0 -> is_Some (words h !! x).
  Proof.
    intros Hx Hx4. pose proof (rep_split _ _ _ _ Hrep) as [].
    eapply rep_word; eauto. unfold a in *. lia.
  Qed.

Lemma block_align : a mod 8 = 4.
  Proof.
    pose proof (rep_split _ _ _ _ Hrep) as []. pose proof (rep_align _ _ Hrep). unfold a. zlia.
  Qed.

Lemma place_split :
    8 <= bsize b - req ->
    wp (alloc_place a (bsize b) req) h
      (fun _ h' => touched touch h h' /\ rep h' (p1 ++ place req b ++ p2)).
  Proof.
    intros Hrem. pose proof (rep_split _ _ _ _ Hrep) as [H1 [Hb8 Hbm] [Hh Hf] H2 He Ht Hsz].
    pose proof block_align as Hal. pose proof (rep_max _ _ Hrep) as Hmax.
    rewrite Hfree in *. fold a in Hh, Hf, H2, He. unfold alloc_place.
    wp_step. eapply wp_lift; [apply sint_ok; unfold_bounds; lia|].
    rewrite (proj2 (Z.leb_le _ _) Hrem).
    wp_step. eapply wp_load; [exact Hh|]. rewrite header_prev by done.
    wp_step. eapply wp_store; [by rewrite Hh|]. intros h1 T1 W1.
    wp_step. eapply wp_store;
      [eapply touched_dom; [exact T1|]; apply block_word; [lia|zlia]|]. intros h2 T2 W2.
    wp_step. eapply wp_store;
      [eapply touched_dom; [exact T2|]; eapply touched_dom; [exact T1|];
       apply block_word; unfold HDR; [lia|zlia]|]. intros h3 T3 W3.
    assert (touched (fun x => a <= x < a + bsize b) h h3) as T.
    { eapply touched_trans; [eapply touched_weaken; [|exact T1]|
        eapply touched_trans; eapply touched_weaken; [|exact T2| |exact T3]];
        cbn; intros x ->; unfold HDR; lia. }
    replace (a + req + (bsize b - req)) with (a + bsize b) in * by lia.
    eapply wp_fix_next with (q := false) (q' := false) (bs := p2);
      [| |intros; by apply header_clear_p|].
    { eapply seg_frame; [|exact H2]. intros x Hx. eapply touched_out; [exact T|]. cbn; lia. }
    { erewrite touched_out; [exact He|exact T|]. cbn; lia. }
    intros h4 T4 S4 E4. split.
    { eapply touched_trans; eapply touched_weaken; [|exact T| |exact T4];
        unfold touch; cbn; intros; lia || tauto. }
    assert (forall x, a <= x < a + bsize b -> words h4 !! x = words h3 !! x) as F4.
    { intros x Hx. eapply touched_out; [exact T4|]. cbn. lia. }
    eapply rep_rebuild with (P := touch) (old := [b]); cbn [total]; rewrite ?Z.add_0_r; try done.
    - eapply touched_trans; eapply touched_weaken; [|exact T| |exact T4];
        unfold touch; cbn; intros; lia || tauto.
    - unfold touch. fold a. lia.
    - fold a. unfold place. rewrite (proj2 (Z.leb_le _ _) Hrem). cbn [seg bsize bused].
      unfold blk_ok, blk_words. cbn [bsize bused]. unfold HDR in *.
      split_and!; try lia; try (intros; discriminate); try zlia; try (intros _);
        rewrite F4 by lia; rewrite W3.
      + rewrite lookup_insert_ne by lia. rewrite W2, lookup_insert_ne by lia.
        rewrite W1, lookup_insert_eq. f_equal.
        rewrite lor_p_bit, header_set_a by zlia. done.
      + rewrite lookup_insert_ne by lia. rewrite W2, lookup_insert_eq.
        change P_BIT with (if true then P_BIT else 0). rewrite lor_p_bit by zlia. done.
      + replace (a + req + (bsize b - req) - 4) with (a + bsize b - 4) by lia.
        by rewrite lookup_insert_eq.
    - apply total_place.
    - rewrite last_used_place by done. rewrite (proj2 (Z.leb_le _ _) Hrem). done.
    - apply no_adj_free_place; [|done]. apply Hrep.
  Qed.

Lemma place_exact :
    ~ 8 <= bsize b - req ->
    wp (alloc_place a (bsize b) req) h
      (fun _ h' => touched touch h h' /\ rep h' (p1 ++ place req b ++ p2)).
  Proof.
    intros Hrem. pose proof (rep_split _ _ _ _ Hrep) as [H1 [Hb8 Hbm] [Hh Hf] H2 He Ht Hsz].
    pose proof block_align as Hal. pose proof (rep_max _ _ Hrep) as Hmax.
    rewrite Hfree in *. fold a in Hh, Hf, H2, He. unfold alloc_place.
    wp_step. eapply wp_lift; [apply sint_ok; unfold_bounds; lia|].
    rewrite (proj2 (Z.leb_gt _ _)) by lia.
    wp_step. eapply wp_load; [exact Hh|].
    wp_step. eapply wp_store; [by rewrite Hh|]. intros h1 T1 W1.
    rewrite header_set_a in W1 by done.
    eapply wp_fix_next with (q := false) (q' := true) (bs := p2) (f := fun s => Z.lor s P_BIT);
      [| |intros; by apply header_set_p|].
    { eapply seg_frame; [|exact H2]. intros x Hx. eapply touched_out; [exact T1|]. cbn; lia. }
    { erewrite touched_out; [exact He|exact T1|]. cbn; lia. }
    intros h4 T4 S4 E4.
    assert (touched touch h h4) as T.
    { eapply touched_trans; eapply touched_weaken; [|exact T1| |exact T4];
        unfold touch; cbn; intros; lia || tauto. }
    split; [done|].
    eapply rep_rebuild with (P := touch) (old := [b]); cbn [total]; rewrite ?Z.add_0_r; try done.
    - unfold touch. fold a. lia.
    - fold a. unfold place. rewrite (proj2 (Z.leb_gt _ _)) by lia. cbn [seg bsize bused].
      unfold blk_ok, blk_words. cbn [bsize bused].
      split_and!; try done. erewrite touched_out; [|exact T4|cbn; lia].
      rewrite W1, lookup_insert_eq. done.
    - apply total_place.
    - rewrite last_used_place by done. rewrite (proj2 (Z.leb_gt _ _)) by lia. done.
    - apply no_adj_free_place; [|done]. apply Hrep.
  Qed.
End place_block.

Lemma best_so_far_start req hs : best_so_far req hs [] NULL 0.
Proof. left. split; [done|constructor]. Qed.

Lemma rep_scan_fuel h bs : rep h bs -> (length bs < scan_fuel h)%nat.
Proof.
  intros [Hs _ Ht _ _ _ _ _]. apply seg_total in Hs as [Hl Hm].
  unfold scan_fuel. rewrite Ht in *. zlia.
Qed.

Lemma alloc_wp h bs size :
  rep h bs -> 1 <= size <= INT_MAX - 11 ->
  wp (alloc size) h (fun p h' => exists bs',
    alloc_outcome (round8 (size + HDR)) (heap_start h) bs p bs' /\ rep h' bs' /\
    heap_start h' = heap_start h /\ alloc_size h' = alloc_size h /\
    (forall x, in_used (heap_start h) bs x -> words h' !! x = words h !! x)).
Proof.
  intros Hrep Hsize. unfold alloc.
  rewrite (proj2 (Z.ltb_ge _ _)) by lia.
  wp_step. eapply wp_lift; [by apply required_of_ok|]. wp_step. apply wp_get.
  pose proof Hrep as [Hs He Ht Ha Hp Hm Hd Hc].
  wp_step. eapply wp_mono.
  { replace (heap_start h) with (heap_start h + total []) at 1 by (cbn; lia).
    apply (alloc_scan_spec h _ bs []); try done.
    - by rewrite <-Ht in He.
    - by apply rep_scan_fuel.
    - apply best_so_far_start. }
  intros [bf bfs] h' [-> Hbest]. cbn [fst snd app] in Hbest.
  destruct Hbest as [[-> Hnone]|(p1 & b & p2 & -> & Hbf & -> & ->)].
  - cbn. apply wp_ret. exists bs. split_and!; try done. by constructor.
  - pose proof (rep_split _ _ _ _ Hrep) as [H1 [Hb8 Hbm] _ _ _ Ht' Hsz].
    rewrite (proj2 (Z.eqb_neq _ _)) by (unfold NULL; lia).
    pose proof Hbf as [[Hfree Hfit] _ _].
    pose proof (round8_spec (size + HDR)) as [Hr1 Hr2].
    assert (8 <= round8 (size + HDR) <= bsize b /\ round8 (size + HDR) mod 8 = 0)
      by (unfold round8, HDR in *; zlia).
    wp_step. eapply wp_mono.
    { destruct (decide (8 <= bsize b - round8 (size + HDR))).
      - by apply place_split.
      - by apply place_exact. }
    cbn beta. intros _ h' [T Hrep']. apply wp_ret. eexists. split_and!; [|exact Hrep'|..].
    + by eapply alloc_some.
    + apply T.
    + apply T.
    + intros x Hx. eapply touched_out; [exact T|].
      apply in_used_untouched; [by eapply seg_ok|done|done].
Qed.

(** ** free_block meets its specification *)

(** Reference: merge every two neighbouring free blocks. *)
Definition merge1 (b : blk) (r : list blk) : list blk :=
  match r with
  | c :: r' =>
      if negb (bused b) && negb (bused c) then mkBlk (bsize b + bsize c) false :: r' else b :: r
  | [] => [b]
  end.

Fixpoint coalesce (bs : list blk) : list blk :=
  match bs with [] => [] | b :: bs' => merge1 b (coalesce bs') end.

Lemma merge1_used b r : (bused b = false -> first_used r) -> merge1 b r = b :: r.
Proof.
  intros H. destruct r as [|c r]; cbn; [done|].
  destruct (bused b); cbn; [done|]. cbn in H. by rewrite H.
Qed.

Lemma coalesce_app pre l r :
  no_adj_free (pre ++ r) -> coalesce l = r -> coalesce (pre ++ l) = pre ++ r.
Proof.
  induction pre as [|b pre IH]; cbn [app coalesce]; [done|].
  intros [H1 H2] Hl. rewrite IH by done. apply merge1_used.
  intros Hb. specialize (H1 Hb). destruct (pre ++ r); done.
Qed.

Lemma coalesce_id bs : no_adj_free bs -> coalesce bs = bs.
Proof.
  intros H. pose proof (coalesce_app bs [] []) as E.
  rewrite !app_nil_r in E. by apply E.
Qed.

Lemma coalesce_total bs : total (coalesce bs) = total bs.
Proof.
  induction bs as [|b bs IH]; cbn [coalesce total]; [done|].
  rewrite <-IH. destruct (coalesce bs) as [|c r]; cbn [merge1 total]; [lia|].
  destruct (negb (bused b) && negb (bused c)); cbn [total bsize]; lia.
Qed.

Lemma last_used_snoc p pre c : last_used p (pre ++ [c]) = bused c.
Proof. by rewrite last_used_app. Qed.

Lemma last_used_false_inv pre :
  last_used true pre = false -> exists pre' c, pre = pre' ++ [c] /\ bused c = false.
Proof.
  destruct pre as [|c pre _] using rev_ind; [done|].
  rewrite last_used_snoc. intros. by exists pre, c.
Qed.

Lemma write_coalesced_spec h a n p s0 u0 q p2 :
  words h !! a = Some (header s0 p u0) -> s0 mod 8 = 0 ->
  8 <= n -> n mod 8 = 0 -> is_Some (words h !! (a + n - HDR)) ->
  seg (words h) (a + n) q p2 -> words h !! (a + n + total p2) = Some 1 ->
  wp (write_coalesced a n) h (fun _ h' =>
    touched (fun x => x = a \/ x = a + n - HDR \/ x = a + n /\ p2 <> []) h h' /\
    words h' !! a = Some (header n p false) /\
    seg (words h') a p [mkBlk n false] /\
    seg (words h') (a + n) false p2 /\ words h' !! (a + n + total p2) = Some 1).
Proof.
  intros Hh Hs0 Hn8 Hnm Hfoot Hseg Hend. unfold write_coalesced.
  assert (0 <= total p2) by (apply seg_total in Hseg; lia).
  wp_step. eapply wp_load; [exact Hh|]. rewrite header_prev, lor_p_bit by done.
  wp_step. eapply wp_store; [by rewrite Hh|]. intros h1 T1 W1.
  wp_step. eapply wp_store; [by eapply touched_dom|]. intros h2 T2 W2.
  assert (touched (fun x => x = a \/ x = a + n - HDR) h h2) as T.
  { eapply touched_trans; eapply touched_weaken; [|exact T1| |exact T2]; cbn; tauto. }
  unfold HDR in *.
  eapply wp_fix_next with (q := q) (q' := false) (bs := p2) (f := fun s => Z.land s (Z.lnot P_BIT));
    [| |intros; by apply header_clear_p|].
  { eapply seg_frame; [|exact Hseg]. intros x Hx. eapply touched_out; [exact T|]. cbn; lia. }
  { erewrite touched_out; [exact Hend|exact T|]. cbn; lia. }
  intros h3 T3 S3 E3.
  assert (words h3 !! a = Some (header n p false)) as Ha.
  { erewrite touched_out; [|exact T3|cbn; lia].
    rewrite W2, lookup_insert_ne, W1, lookup_insert_eq by lia. done. }
  split_and!; try done.
  - eapply touched_trans; eapply touched_weaken; [|exact T| |exact T3]; cbn; tauto.
  - cbn [seg]. unfold blk_ok, blk_words, HDR. cbn. split_and!; try done. intros _.
    erewrite touched_out; [|exact T3|cbn; lia]. by rewrite W2, lookup_insert_eq.
Qed.

Lemma get_size_plain s : s mod 8 = 0 -> GET_SIZE s = s.
Proof. intros Hs. rewrite <-(header_size s false false Hs) at 2. f_equal. unfold header. lia. Qed.

(** The block that [coalesce_prev] chooses, and what the heap looks like around it. *)
Lemma coalesce_prev_spec h pre sz :
  seg (words h) (heap_start h) true pre -> sz + total pre <= INT_MAX -> 8 <= sz ->
  wp (coalesce_prev (heap_start h + total pre) sz (if last_used true pre then P_BIT else 0)) h
     (fun r h' => h' = h /\
       if last_used true pre then r = (heap_start h + total pre, sz)
       else exists pre' c, pre = pre' ++ [c] /\ bused c = false /\
              r = (heap_start h + total pre', sz + bsize c)).
Proof.
  intros Hseg Hmax Hsz. unfold coalesce_prev.
  destruct (last_used true pre) eqn:Hl; cbn beta iota;
    [change (Z.land P_BIT P_BIT =? 0) with false|change (Z.land 0 P_BIT =? 0) with true];
    cbn iota; [by apply wp_ret|].
  apply last_used_false_inv in Hl as (pre' & c & -> & Hc).
  apply seg_app in Hseg as [H1 ([Hc8 Hcm] & [Hch Hcf] & _)].
  apply seg_total in H1 as [Ht1 _].
  rewrite total_app in *. cbn [total] in *. rewrite Z.add_0_r in *.
  specialize (Hcf Hc). rewrite Z.add_assoc in *.
  wp_step. eapply wp_load; [exact Hcf|]. rewrite get_size_plain by done.
  wp_step. eapply wp_lift; [apply sint_ok; unfold_bounds; lia|]. apply wp_ret.
  split; [done|]. exists pre', c. split_and!; try done. f_equal; lia.
Qed.

Lemma coalesce_next_spec h a n post q :
  seg (words h) a q post -> words h !! (a + total post) = Some 1 ->
  0 <= n -> n + total post <= INT_MAX ->
  wp (coalesce_next a n) h (fun r h' => h' = h /\
    ((first_used post /\ r = n) \/
     exists d post', post = d :: post' /\ bused d = false /\ r = n + bsize d)).
Proof.
  intros Hseg Hend Hn Hmax. unfold coalesce_next. destruct post as [|d post].
  - cbn in Hend. rewrite Z.add_0_r in Hend.
    wp_step. eapply wp_load; [exact Hend|]. cbn. apply wp_ret. split; [done|]. by left.
  - destruct Hseg as ([Hd8 Hdm] & [Hdh _] & Hrest). apply seg_total in Hrest as [Ht _].
    cbn [total] in *.
    wp_step. eapply wp_load; [exact Hdh|].
    rewrite header_not_end, header_alloc, header_size by done. cbn [negb andb].
    destruct (bused d) eqn:Hu; cbn [negb].
    + apply wp_ret. split; [done|]. by left.
    + eapply wp_lift; [apply sint_ok; unfold_bounds; lia|]. split; [done|]. right. eauto.
Qed.

Lemma no_adj_free_before p1 c r :
  no_adj_free (p1 ++ c :: r) -> bused c = false -> last_used true p1 = true.
Proof.
  intros Hn Hc. destruct (last_used true p1) eqn:E; [done|].
  pose proof (no_adj_free_split _ _ Hn E) as F. cbn in F. congruence.
Qed.

Lemma no_adj_free_after b r : no_adj_free (b :: r) -> bused b = false -> first_used r.
Proof. intros [H _] Hb. specialize (H Hb). by destruct r. Qed.

Lemma no_adj_free_mid p1 n p2 :
  no_adj_free p1 -> no_adj_free p2 -> last_used true p1 = true -> first_used p2 ->
  no_adj_free (p1 ++ [mkBlk n false] ++ p2).
Proof.
  intros H1 H2 Hl Hf. apply no_adj_free_join; [done| |by rewrite Hl].
  cbn. split; [intros _; by destruct p2|done].
Qed.

(** Merging a run [old] of blocks into one free block. *)
Lemma merge_run h h2 p1 old p2 s0 u0 q :
  rep h (p1 ++ old ++ p2) ->
  let a := heap_start h + total p1 in
  let n := total old in
  8 <= n -> n mod 8 = 0 ->
  touched (fun x => a <= x < a + n) h h2 ->
  words h2 !! a = Some (header s0 (last_used true p1) u0) -> s0 mod 8 = 0 ->
  seg (words h) (a + n) q p2 ->
  no_adj_free (p1 ++ [mkBlk n false] ++ p2) ->
  wp (write_coalesced a n) h2 (fun _ h' =>
    touched (fun x => x = a \/ x = a + n - HDR \/ x = a + n /\ p2 <> []) h2 h' /\
    words h' !! a = Some (header n (last_used true p1) false) /\
    rep h' (p1 ++ [mkBlk n false] ++ p2)).
Proof.
  intros Hrep a n Hn8 Hnm T Hh Hs0 Hseg Hcoal.
  pose proof Hrep as [Hs He Ht Ha Hp Hm Hd Hc].
  apply seg_app in Hs as [H1 Hs]. apply seg_app in Hs as [_ H2].
  pose proof (seg_total _ _ _ _ H1) as [Ht1 Hm1]. pose proof (seg_total _ _ _ _ H2) as [Ht2 _].
  rewrite !total_app in Ht. fold n in Ht. fold a n in H2.
  assert (words h !! (a + n + total p2) = Some 1) as Hend.
  { replace (a + n + total p2) with (heap_start h + alloc_size h) by (unfold a; lia). done. }
  eapply wp_mono.
  { eapply (write_coalesced_spec h2 a n _ s0 u0 q p2); try done.
    - eapply touched_dom; [exact T|]. apply Hd; unfold HDR, a in *; [lia|zlia].
    - eapply seg_frame; [|exact Hseg]. intros x Hx. eapply touched_out; [exact T|]. cbn; lia.
    - erewrite touched_out; [exact Hend|exact T|cbn; lia]. }
  cbn beta. intros _ h' (T' & Hh' & Hmid & Hpost & Hend').
  split_and!; [done..|].
  eapply rep_rebuild with (old := old)
    (P := fun x => a <= x < a + n \/ x = a + n /\ p2 <> []); try done.
  - eapply touched_trans; eapply touched_weaken; [|exact T| |exact T'];
      unfold HDR; cbn; intros; lia || tauto || intuition lia.
  - cbn. fold a. lia.
  - cbn. fold n. lia.
Qed.

(** The client's view of a free: everything outside the freed block and its
    free neighbours is untouched. *)
Definition client_words (h : heap) (pre : list blk) (sz : Z) (post : list blk) (x : Z) : Prop :=
  in_used (heap_start h) pre x \/ in_used (heap_start h + total pre + sz) post x.

Section free.
Context (h : heap) (pre : list blk) (sz : Z) (post : list blk).
Hypothesis Hrep : rep h (pre ++ mkBlk sz true :: post).
Let block := heap_start h + total pre.

  (** The result, for a run [old] that contains the freed block. *)
Definition freed (h' : heap) : Prop :=
    rep h' (coalesce (pre ++ mkBlk sz false :: post)) /\
    heap_start h' = heap_start h /\ alloc_size h' = alloc_size h /\
    (exists v, words h' !! block = Some v /\ IS_ALLOCATED v = false) /\
    (forall x, client_words h pre sz post x -> words h' !! x = words h !! x).

Lemma free_facts :
    8 <= sz /\ sz mod 8 = 0 /\ block mod 8 = 4 /\ 0 <= total pre /\ total pre mod 8 = 0 /\
    0 <= total post /\ total post mod 8 = 0 /\
    total pre + sz + total post = alloc_size h /\ alloc_size h <= INT_MAX - 8 /\ 0 < heap_start h.
  Proof.
    pose proof (rep_split _ _ _ _ Hrep) as [H1 [Hb8 Hbm] _ H2 He Ht Hsz]. cbn [bsize] in *.
    pose proof (rep_align _ _ Hrep). pose proof (rep_max _ _ Hrep). pose proof (rep_pos _ _ Hrep).
    unfold block. split_and!; try lia. zlia.
  Qed.

  (** After header and footer were written, before merging. *)
Definition marked (h2 : heap) : Prop :=
    touched (fun x => block <= x < block + sz) h h2 /\
    words h2 !! block = Some (header sz (last_used true pre) false).

Lemma finish_free h2 p1 old p2 s0 u0 q :
    marked h2 ->
    pre ++ mkBlk sz true :: post = p1 ++ old ++ p2 ->
    coalesce (pre ++ mkBlk sz false :: post) = p1 ++ [mkBlk (total old) false] ++ p2 ->
    words h2 !! (heap_start h + total p1) = Some (header s0 (last_used true p1) u0) ->
    s0 mod 8 = 0 ->
    seg (words h) (heap_start h + total p1 + total old) q p2 ->
    no_adj_free (p1 ++ [mkBlk (total old) false] ++ p2) ->
    8 <= total old -> total old mod 8 = 0 ->
    heap_start h + total p1 <= block ->
    block + sz <= heap_start h + total p1 + total old ->
    (forall x, client_words h pre sz post x ->
       ~ (heap_start h + total p1 <= x < heap_start h + total p1 + total old \/
          x = heap_start h + total p1 + total old /\ p2 <> [])) ->
    wp (write_coalesced (heap_start h + total p1) (total old)) h2 (fun _ => freed).
  Proof.
    intros [T2 Hb2] Hbs Hco Hh Hs0 Hseg Hnaf Hn8 Hnm Hle Hge Hcl.
    pose proof free_facts as Hff.
    assert (touched (fun x => heap_start h + total p1 <= x < heap_start h + total p1 + total old) h h2) as T.
    { eapply touched_weaken; [|exact T2]. cbn. lia. }
    eapply wp_mono.
    { eapply merge_run; try done. by rewrite <-Hbs. }
    cbn beta. intros _ h' (T' & Hh' & Hrep'). unfold freed. rewrite Hco. split_and!.
    - done.
    - rewrite (touched_start _ _ _ T'). apply T.
    - rewrite (touched_size _ _ _ T'). apply T.
    - unfold HDR in *. destruct (decide (block = heap_start h + total p1)) as [E|E].
      + rewrite E, Hh'. eexists. split; [done|]. by apply header_alloc.
      + exists (header sz (last_used true pre) false). rewrite header_alloc by tauto.
        split; [|done]. erewrite touched_out; [done|exact T'|cbn; lia].
    - intros x Hx. specialize (Hcl x Hx). unfold HDR in *.
      erewrite touched_out; [|exact T'|].
      + eapply touched_out; [exact T|]. cbn. intros Hin. apply Hcl. by left.
      + cbn. intros [->|[->|Hnext]]; apply Hcl; [left; lia|left; lia|by right].
  Qed.
End free.

(** The four ways of merging, all instances of [finish_free]. *)
Section free_cases.
Context (h : heap) (pre : list blk) (sz : Z) (post : list blk) (h2 : heap).
Hypothesis Hrep : rep h (pre ++ mkBlk sz true :: post).
Hypothesis Hmarked : marked h pre sz h2.

Local Lemma client_bounds x :
    client_words h pre sz post x ->
    (in_used (heap_start h) pre x /\ heap_start h <= x < heap_start h + total pre) \/
    (in_used (heap_start h + total pre + sz) post x /\
     heap_start h + total pre + sz + HDR <= x < heap_start h + total pre + sz + total post).
  Proof.
    pose proof (rep_seg _ _ Hrep) as Hs. apply seg_ok in Hs.
    apply Forall_app in Hs as [H1 H2]. apply Forall_cons in H2 as [_ H2].
    intros [Hx|Hx]; [left|right]; (split; [done|]);
      apply in_used_range in Hx; unfold HDR in *; done || lia.
  Qed.

  (** The words of the previous and of the next block after the marking. *)
Local Lemma marked_pre : seg (words h2) (heap_start h) true pre.
  Proof.
    destruct Hmarked as [T _]. pose proof (rep_split _ _ _ _ Hrep) as [H1 _ _ _ _ _ _].
    eapply seg_frame; [|exact H1]. intros x Hx. eapply touched_out; [exact T|]. cbn; lia.
  Qed.

Local Lemma marked_post : seg (words h2) (heap_start h + total pre + sz) true post.
  Proof.
    destruct Hmarked as [T _]. pose proof (rep_split _ _ _ _ Hrep) as [_ _ _ H2 _ _ _].
    eapply seg_frame; [|exact H2]. intros x Hx. eapply touched_out; [exact T|]. cbn in *; lia.
  Qed.

Local Lemma marked_end :
    words h2 !! (heap_start h + total pre + sz + total post) = Some 1.
  Proof.
    destruct Hmarked as [T _]. pose proof (rep_split _ _ _ _ Hrep) as [_ _ _ _ He Ht _].
    cbn in He. erewrite touched_out; [exact He|exact T|cbn; lia].
  Qed.

Lemma free_alone :
    last_used true pre = true -> first_used post ->
    wp (write_coalesced (heap_start h + total pre) sz) h2 (fun _ => freed h pre sz post).
  Proof.
    intros Hl Hf. pose proof (free_facts _ _ _ _ Hrep) as Hff.
    pose proof (rep_coal _ _ Hrep) as Hc. pose proof Hc as Hc'.
    apply no_adj_free_app in Hc' as [Hc1 [_ Hc2]].
    assert (no_adj_free (pre ++ [mkBlk sz false] ++ post)) as Hn by by apply no_adj_free_mid.
    pose proof (finish_free h pre sz post Hrep h2 pre [mkBlk sz true] post sz false true) as F.
    cbn [total bsize] in F. rewrite Z.add_0_r in F. apply F; try done; try tauto; try lia.
    - apply coalesce_app; [done|]. cbn [app coalesce].
      rewrite coalesce_id by done. by apply merge1_used.
    - destruct Hmarked as [_ Hm]. by rewrite Hm.
    - pose proof (rep_split _ _ _ _ Hrep) as [_ _ _ H2 _ _ _]. done.
    - intros x Hx%client_bounds. unfold HDR in *. destruct Hx as [[_ ?]|[_ ?]]; lia.
  Qed.

Lemma free_with_next d post' :
    last_used true pre = true -> post = d :: post' -> bused d = false ->
    wp (write_coalesced (heap_start h + total pre) (sz + bsize d)) h2
       (fun _ => freed h pre sz post).
  Proof.
    pose proof client_bounds as Hcb. intros Hl -> Hd. pose proof (free_facts _ _ _ _ Hrep) as Hff.
    pose proof (rep_coal _ _ Hrep) as Hc. pose proof Hc as Hc'.
    apply no_adj_free_app in Hc' as [Hc1 [_ Hc2]].
    pose proof (no_adj_free_after _ _ Hc2 Hd) as Hf. pose proof (proj2 Hc2) as Hc3.
    pose proof (rep_split _ _ _ _ Hrep) as [_ _ _ H2 _ _ _].
    destruct H2 as ([Hd8 Hdm] & _ & H3). cbn [bsize] in *.
    pose proof (seg_total _ _ _ _ H3) as [Ht3 _].
    assert (no_adj_free (pre ++ [mkBlk (sz + bsize d) false] ++ post')) as Hn
      by by apply no_adj_free_mid.
    pose proof (finish_free h pre sz (d :: post') Hrep h2 pre [mkBlk sz true; d] post' sz false (bused d)) as F.
    cbn [total bsize] in F. rewrite Z.add_0_r in F. apply F; try done; try tauto; try lia.
    - apply coalesce_app; [done|]. cbn [app coalesce].
      rewrite (coalesce_id post') by done. rewrite (merge1_used _ post') by done.
      cbn [merge1 bused bsize]. by rewrite Hd.
    - destruct Hmarked as [_ Hm]. by rewrite Hm.
    - by rewrite Z.add_assoc.
    - zlia.
    - intros x Hx%Hcb. unfold HDR in *.
      destruct Hx as [[_ ?]|[Hu ?]]; [lia|]. cbn [in_used] in Hu. rewrite Hd in Hu.
      destruct Hu as [[? _]|Hu]; [done|].
      apply in_used_range in Hu; [|by eapply seg_ok]. unfold HDR in *. lia.
  Qed.

Lemma free_with_prev pre' c :
    pre = pre' ++ [c] -> bused c = false -> first_used post ->
    wp (write_coalesced (heap_start h + total pre') (sz + bsize c)) h2
       (fun _ => freed h pre sz post).
  Proof.
    pose proof client_bounds as Hcb. pose proof marked_pre as H1.
    intros -> Hcf Hf. pose proof (free_facts _ _ _ _ Hrep) as Hff.
    pose proof (rep_coal _ _ Hrep) as Hc. rewrite <-app_assoc in Hc. cbn [app] in Hc.
    pose proof (no_adj_free_before _ _ _ Hc Hcf) as Hl.
    apply no_adj_free_app in Hc as [Hc1 [_ [_ Hc2]]].
    apply seg_app in H1 as [Hp' ([Hc8 Hcm] & [Hch _] & _)].
    pose proof (seg_total _ _ _ _ Hp') as [Htp _].
    rewrite total_app in *. cbn [total] in *. rewrite Z.add_0_r in *.
    assert (no_adj_free (pre' ++ [mkBlk (bsize c + sz) false] ++ post)) as Hn
      by by apply no_adj_free_mid.
    pose proof (finish_free h (pre' ++ [c]) sz post Hrep h2 pre' [c; mkBlk sz true] post (bsize c) (bused c) true) as F.
    rewrite total_app in F. cbn [total bsize] in F. rewrite !Z.add_0_r in F. rewrite (Z.add_comm sz).
    apply F; try done; try tauto; try lia.
    - by rewrite <-app_assoc.
    - rewrite <-app_assoc. apply coalesce_app; [done|]. cbn [app coalesce].
      rewrite (coalesce_id post) by done. rewrite (merge1_used _ post) by done.
      cbn [merge1 bused bsize]. by rewrite Hcf.
    - pose proof (rep_split _ _ _ _ Hrep) as [_ _ _ H2 _ _ _].
      rewrite total_app in H2. cbn [total] in H2. rewrite Z.add_0_r in H2.
      replace (heap_start h + total pre' + (bsize c + sz))
        with (heap_start h + (total pre' + bsize c) + sz) by lia. done.
    - zlia.
    - intros x Hx%Hcb.  unfold HDR in *. destruct Hx as [[Hu ?]|[_ ?]]; [|lia].
      apply in_used_app in Hu as [Hu|Hu].
      + apply in_used_range in Hu; [lia|by eapply seg_ok].
      + cbn [in_used] in Hu. rewrite Hcf in Hu. by destruct Hu as [[? _]|?].
  Qed.

Lemma free_with_both pre' c d post' :
    pre = pre' ++ [c] -> bused c = false -> post = d :: post' -> bused d = false ->
    wp (write_coalesced (heap_start h + total pre') (sz + bsize c + bsize d)) h2
       (fun _ => freed h pre sz post).
  Proof.
    pose proof client_bounds as Hcb. pose proof marked_pre as H1.
    intros -> Hcf -> Hd. pose proof (free_facts _ _ _ _ Hrep) as Hff.
    pose proof (rep_coal _ _ Hrep) as Hc. rewrite <-app_assoc in Hc. cbn [app] in Hc.
    pose proof (no_adj_free_before _ _ _ Hc Hcf) as Hl.
    apply no_adj_free_app in Hc as [Hc1 [_ [_ Hc2]]].
    pose proof (no_adj_free_after _ _ Hc2 Hd) as Hf. pose proof (proj2 Hc2) as Hc3.
    apply seg_app in H1 as [Hp' ([Hc8 Hcm] & [Hch _] & _)].
    pose proof (seg_total _ _ _ _ Hp') as [Htp _].
    pose proof (rep_split _ _ _ _ Hrep) as [_ _ _ H2 _ _ _].
    destruct H2 as ([Hd8 Hdm] & _ & H3). pose proof (seg_total _ _ _ _ H3) as [Ht3 _].
    rewrite total_app in *. cbn [total bsize] in *. rewrite Z.add_0_r in *.
    assert (no_adj_free (pre' ++ [mkBlk (bsize c + (sz + bsize d)) false] ++ post')) as Hn
      by by apply no_adj_free_mid.
    pose proof (finish_free h (pre' ++ [c]) sz (d :: post') Hrep h2 pre'
      [c; mkBlk sz true; d] post' (bsize c) (bused c) (bused d)) as F.
    rewrite total_app in F. cbn [total bsize] in F. rewrite !Z.add_0_r in F.
    replace (sz + bsize c + bsize d) with (bsize c + (sz + bsize d)) by lia.
    apply F; try done; try tauto; try lia.
    - by rewrite <-app_assoc.
    - rewrite <-app_assoc. apply coalesce_app; [done|]. cbn [app coalesce].
      rewrite (coalesce_id post') by done. rewrite (merge1_used _ post') by done.
      cbn [merge1 bused bsize]. rewrite Hd. cbn. by rewrite Hcf.
    - replace (heap_start h + total pre' + (bsize c + (sz + bsize d)))
        with (heap_start h + (total pre' + bsize c) + sz + bsize d) by lia. done.
    - zlia.
    - intros x Hx%Hcb.  unfold HDR in *. destruct Hx as [[Hu ?]|[Hu ?]].
      + apply in_used_app in Hu as [Hu|Hu].
        * apply in_used_range in Hu; [lia|by eapply seg_ok].
        * cbn [in_used] in Hu. rewrite Hcf in Hu. by destruct Hu as [[? _]|?].
      + cbn [in_used] in Hu. rewrite Hd in Hu. destruct Hu as [[? _]|Hu]; [done|].
        apply in_used_range in Hu; [|by eapply seg_ok]. unfold HDR in *. lia.
  Qed.

Lemma free_merge :
    wp ('(coalesced_block, coalesced_size) ←
          coalesce_prev (heap_start h + total pre) sz (if last_used true pre then P_BIT else 0);
        coalesced_size ← coalesce_next (heap_start h + total pre + sz) coalesced_size;
        _ ← write_coalesced coalesced_block coalesced_size;
        mret 0) h2 (fun r h' => r = 0 /\ freed h pre sz post h').
  Proof.
    pose proof (free_facts _ _ _ _ Hrep) as Hff.
    pose proof (touched_start _ _ _ (proj1 Hmarked)) as Hst.
    pose proof marked_pre as Hmp. pose proof marked_post as Hmq. pose proof marked_end as Hme.
    wp_step. eapply wp_mono.
    { rewrite <-Hst. apply coalesce_prev_spec; [by rewrite Hst|unfold_bounds; lia|lia]. }
    rewrite !Hst. intros [cb cn] h' [-> Hcb].
    assert (0 <= cn /\ cn + total post <= INT_MAX) as [? ?].
    { destruct (last_used true pre); [simplify_eq; unfold_bounds; lia|].
      destruct Hcb as (pre' & c & Hpre & _ & [=]). subst cn.
      rewrite Hpre in Hmp, Hff. rewrite total_app in Hff. cbn [total] in Hff.
      apply seg_app in Hmp as [H1%seg_total ([? _] & _)]. unfold_bounds. lia. }
    wp_step. eapply wp_mono; [by apply (coalesce_next_spec _ _ _ post true)|].
    intros n h' [-> Hn]. wp_step.
    eapply wp_mono; [|intros ? ? Hw; apply wp_ret; split; [reflexivity|exact Hw]].
    destruct (last_used true pre) eqn:Hl.
    - simplify_eq. destruct Hn as [[Hf ->]|(d & post' & Hpost & Hd & ->)].
      + by apply free_alone.
      + by eapply free_with_next.
    - destruct Hcb as (pre' & c & Hpre & Hc & [=]). subst cb cn.
      destruct Hn as [[Hf ->]|(d & post' & Hpost & Hd & ->)].
      + by eapply free_with_prev.
      + by eapply free_with_both.
  Qed.
End free_cases.

Lemma free_wp h pre sz post :
  rep h (pre ++ mkBlk sz true :: post) ->
  wp (free_block (heap_start h + total pre + HDR)) h
     (fun r h' => r = 0 /\ freed h pre sz post h').
Proof.
  intros Hrep. pose proof (free_facts _ _ _ _ Hrep) as Hff.
  pose proof (rep_split _ _ _ _ Hrep) as [H1 _ [Hh _] H2 He _ Hsz]. cbn [bsize bused] in *.
  unfold free_block.
  rewrite (proj2 (Z.eqb_neq _ _)) by (unfold HDR, NULL; lia).
  rewrite (proj2 (Z.eqb_eq _ _)) by (unfold HDR; zlia). cbn [negb].
  replace (heap_start h + total pre + HDR - HDR) with (heap_start h + total pre) by lia.
  wp_step. apply wp_get.
  rewrite (proj2 (Z.ltb_ge _ _)), (proj2 (Z.leb_gt _ _)) by lia.
  wp_step. eapply wp_load; [exact Hh|].
  rewrite header_alloc, header_size, header_prev by tauto. cbn [negb].
  wp_step. eapply wp_store; [by rewrite Hh|]. intros h1 T1 W1.
  rewrite lor_p_bit in W1 by tauto.
  wp_step. eapply wp_store.
  { eapply touched_dom; [exact T1|]. eapply rep_word; [exact Hrep| |]; unfold HDR; [lia|zlia]. }
  intros h2 T2 W2. eapply free_merge; [done|]. split.
  - eapply touched_trans; eapply touched_weaken; [|exact T1| |exact T2];
      unfold HDR; cbn; intros; lia.
  - rewrite W2, lookup_insert_ne, W1, lookup_insert_eq by (unfold HDR; lia). done.
Qed.

(** ** Consequences over payloads and client runs *)

(** Payload address and capacity of every allocated block, from address [a]. *)
Fixpoint payloads (a : Z) (bs : list blk) : list (Z * Z) :=
  match bs with
  | [] => []
  | b :: bs' =>
      (if bused b then [(a + HDR, bsize b - HDR)] else []) ++ payloads (a + bsize b) bs'
  end.

Lemma payloads_app a bs1 bs2 :
  payloads a (bs1 ++ bs2) = payloads a bs1 ++ payloads (a + total bs1) bs2.
Proof.
  revert a. induction bs1 as [|b bs1 IH]; intros a; cbn [payloads app total].
  - by rewrite Z.add_0_r.
  - by rewrite IH, Z.add_assoc, app_assoc.
Qed.

Lemma payloads_range a bs p c :
  Forall blk_ok bs -> (p, c) ∈ payloads a bs -> a + HDR <= p /\ 0 < c /\ p + c <= a + total bs.
Proof.
  intros Hok. revert a. induction Hok as [|b bs [Hb _] Hok IH]; intros a; cbn; [set_solver|].
  assert (0 <= total bs) by (clear -Hok; induction Hok as [|? ? [? _]]; cbn; lia).
  unfold HDR in *. destruct (bused b); cbn; rewrite ?elem_of_cons;
    [intros [[= -> ->]|Hp]|intros Hp]; try lia; apply IH in Hp; lia.
Qed.

Lemma payloads_in_used a bs p c x :
  (p, c) ∈ payloads a bs -> p <= x < p + c -> in_used a bs x.
Proof.
  revert a. induction bs as [|b bs IH]; intros a; cbn; [set_solver|].
  unfold HDR in *. destruct (bused b); cbn; rewrite ?elem_of_cons;
    [intros [[= -> ->]|Hp]|intros Hp]; intros Hx; [left; split; [done|lia]|right; eauto..].
Qed.

(** Splitting the block list at an allocated payload. *)
Lemma payloads_split a bs p c :
  (p, c) ∈ payloads a bs -> exists pre post,
    bs = pre ++ mkBlk (c + HDR) true :: post /\ p = a + total pre + HDR.
Proof.
  revert a. induction bs as [|[s u] bs IH]; intros a; cbn; [set_solver|].
  assert ((p, c) ∈ payloads (a + s) bs -> exists pre post,
    mkBlk s u :: bs = pre ++ mkBlk (c + HDR) true :: post /\ p = a + total pre + HDR) as Hrec.
  { intros (pre & post & -> & ->)%IH. exists (mkBlk s u :: pre), post. cbn. split; [done|lia]. }
  destruct u; cbn; rewrite ?elem_of_cons; [intros [[= -> ->]|Hp]|intros Hp]; auto.
  exists [], bs. cbn. split; [|lia]. do 2 f_equal. lia.
Qed.

(** Merging free blocks changes no payload. *)
Lemma payloads_coalesce a bs : payloads a (coalesce bs) = payloads a bs.
Proof.
  revert a. induction bs as [|b bs IH]; intros a; cbn [coalesce payloads]; [done|].
  rewrite <-IH. destruct (coalesce bs) as [|c r]; cbn [merge1 payloads]; [done|].
  destruct (bused b) eqn:Hb, (bused c) eqn:Hc; cbn [negb andb payloads]; rewrite ?Hb, ?Hc; try done.
  cbn. by rewrite Z.add_assoc.
Qed.

Lemma payloads_free a pre sz post :
  payloads a (coalesce (pre ++ mkBlk sz false :: post)) =
  payloads a pre ++ payloads (a + total pre + sz) post.
Proof. rewrite payloads_coalesce, payloads_app. done. Qed.

(** Two different payloads do not overlap. *)
Lemma payloads_disjoint a bs p1 c1 p2 c2 :
  Forall blk_ok bs ->
  (p1, c1) ∈ payloads a bs -> (p2, c2) ∈ payloads a bs -> p1 <> p2 ->
  p1 + c1 <= p2 \/ p2 + c2 <= p1.
Proof.
  intros Hok. revert a. induction Hok as [|b bs Hb Hok IH]; intros a; cbn; [set_solver|].
  pose proof (payloads_range (a + bsize b) bs) as Hr. unfold HDR in *.
  destruct (bused b); cbn; rewrite ?elem_of_cons; [|by apply IH].
  intros [[= -> ->]|H1] [[= -> ->]|H2] Hne; try done.
  - apply Hr in H2; [lia|done].
  - apply Hr in H1; [lia|done].
  - by eapply IH.
Qed.

(** Storing into a payload keeps the representation. *)
Lemma rep_client_write h bs x v :
  rep h bs -> in_used (heap_start h) bs x -> is_Some (words h !! x) ->
  rep (set_words (<[x := v]> (words h)) h) bs.
Proof.
  intros [Hs He Ht Ha Hp Hm Hd Hc] Hx Hsome.
  pose proof (seg_ok _ _ _ _ Hs) as Hok.
  pose proof (in_used_range _ _ _ Hok Hx) as Hr.
  split; cbn; try done.
  - clear -Hs Hx Hok. revert Hs Hx Hok. generalize (heap_start h), true.
    induction bs as [|b bs IH]; intros a q; cbn [seg in_used]; [done|].
    intros (Hb & [Hh Hf] & Hs) Hx [_ Hok]%Forall_cons. destruct Hb as [Hb8 Hbm].
    destruct Hx as [[Hu Hx]|Hx].
    + unfold HDR in *. split_and!; [done|split|].
      * by rewrite lookup_insert_ne by lia.
      * by rewrite Hu.
      * apply seg_insert_out; [lia|done].
    + pose proof (in_used_range _ _ _ Hok Hx) as Hr. unfold HDR in *. split_and!; [done|split|auto].
      * by rewrite lookup_insert_ne by lia.
      * intros Hu. unfold HDR. rewrite lookup_insert_ne by lia. auto.
  - rewrite lookup_insert_ne; [done|]. rewrite Ht in Hr. lia.
  - intros y Hy Hy4. destruct (decide (x = y)) as [->|].
    + rewrite lookup_insert_eq. eauto.
    + rewrite lookup_insert_ne by done. auto.
Qed.

(** ** Initialisation *)
Lemma zero_words_lookup p n x :
  zero_words p n !! x = if decide (p <= x < p + 4 * Z.of_nat n /\ (x - p) mod 4 = 0)
                       then Some 0 else None.
Proof.
  revert p. induction n as [|n IH]; intros p; cbn [zero_words].
  - rewrite lookup_empty. case_decide; [lia|done].
  - rewrite lookup_insert. case_decide as E.
    + subst. rewrite decide_True; [done|]. rewrite Z.sub_diag. split; [lia|done].
    + rewrite IH. case_decide as D1; case_decide as D2; try done; exfalso; zlia.
Qed.

Record os_ok (o : os) : Prop := {
  os_page : 16 <= getpagesize o /\ getpagesize o mod 8 = 0;
  os_mmap : forall n p, mmap o n = Some p -> 0 < p /\ p mod 8 = 0
}.

(** The region size init_heap asks for. *)
Definition round_page (page n : Z) : Z := (n + page - 1) / page * page.

Lemma pad_round page n :
  0 < page -> 0 < n -> n + Z.rem (page - Z.rem n page) page = round_page page n.
Proof.
  intros Hp Hn. unfold round_page. rewrite (Z.rem_mod_nonneg n) by lia.
  pose proof (Z.mod_pos_bound n page Hp) as Hm.
  pose proof (Z.div_mod n page ltac:(lia)) as Hd.
  rewrite Z.rem_mod_nonneg by lia.
  destruct (decide (n mod page = 0)) as [E|E].
  - rewrite E, Z.sub_0_r, Z.mod_same by lia.
    replace (n + page - 1) with (page - 1 + n / page * page) by lia.
    rewrite Z.div_add, Z.div_small by lia. lia.
  - rewrite Z.mod_small by lia.
    replace (n + page - 1) with ((n mod page - 1) + (n / page + 1) * page) by lia.
    rewrite Z.div_add, Z.div_small by lia. lia.
Qed.

Lemma init_heap_wp o n h p :
  os_ok o -> 0 < n -> round_page (getpagesize o) n <= INT_MAX ->
  allocated_once h = false -> open_devzero o = true ->
  mmap o (round_page (getpagesize o) n) = Some p ->
  wp (init_heap o n) h (fun r h' => r = 0 /\ allocated_once h' = true /\
    heap_start h' = p + 4 /\
    rep h' [mkBlk (round_page (getpagesize o) n - 8) false]).
Proof.
  intros [[Hpg Hpgm] Hmm] Hn Hmax Honce Hopen Hmap.
  apply Hmm in Hmap as Hp. destruct Hp as [Hp0 Hp8].
  set (page := getpagesize o) in *. set (region := round_page page n) in *.
  assert (page <= region /\ region mod 8 = 0) as [Hr Hrm].
  { unfold region, round_page. split.
    - assert (1 <= (n + page - 1) / page) by (apply Z.div_le_lower_bound; lia). nia.
    - rewrite Z.mul_mod, Hpgm, Z.mul_0_r by lia. done. }
  unfold init_heap. wp_step. apply wp_get. rewrite Honce.
  rewrite (proj2 (Z.leb_gt _ _)) by lia. fold page.
  wp_step. eapply wp_lift.
  { rewrite pad_round by lia. fold region. apply sint_ok. unfold_bounds. lia. }
  wp_steps. rewrite Hopen. cbn [negb]. rewrite Hmap. wp_steps.
  set (h0 := mkHeap _ _ _ _).
  assert (forall x, p <= x < p + region -> x mod 4 = 0 -> is_Some (words h0 !! x)) as Hdom.
  { intros x Hx Hx4. unfold h0. cbn. rewrite lookup_union, zero_words_lookup.
    rewrite decide_True by zlia. destruct (words h !! x); cbn; eauto. }
  eapply wp_store; [apply Hdom; [lia|zlia]|]. intros h1 T1 W1.
  wp_step. eapply wp_store; [eapply touched_dom; [exact T1|]; apply Hdom; [lia|zlia]|]. intros h2 T2 W2.
  wp_step. eapply wp_load; [rewrite W2; apply lookup_insert_eq|].
  wp_step. eapply wp_lift; [apply sint_ok; unfold_bounds; lia|].
  wp_step. eapply wp_store; [rewrite W2, lookup_insert_eq; eauto|]. intros h3 T3 W3.
  wp_step. eapply wp_store;
    [eapply touched_dom; [exact T3|]; eapply touched_dom; [exact T2|];
     eapply touched_dom; [exact T1|]; apply Hdom; [lia|zlia]|]. intros h4 T4 W4.
  apply wp_ret.
  assert (touched (fun x => x = p + 4 + (region - 8) \/ x = p + 4 \/ x = p + 4 + (region - 8) - 4) h0 h4) as T.
  { eapply touched_trans; [eapply touched_weaken; [|exact T1]; cbn; tauto|].
    eapply touched_trans; [eapply touched_weaken; [|exact T2]; cbn; tauto|].
    eapply touched_trans; [eapply touched_weaken; [|exact T3]; cbn; tauto|].
    eapply touched_weaken; [|exact T4]; cbn; tauto. }
  assert (heap_start h4 = p + 4) as Hst by (rewrite (touched_start _ _ _ T); done).
  assert (alloc_size h4 = region - 8) as Hal by (rewrite (touched_size _ _ _ T); done).
  split_and!; [done|by rewrite (touched_once _ _ _ T)|done|].
  split; rewrite ?Hst, ?Hal; try done; try zlia.
  - cbn [seg]. unfold blk_ok, blk_words, HDR. cbn [bsize bused].
    split_and!; try done; try zlia; try intros _; rewrite W4.
    + rewrite lookup_insert_ne, W3, lookup_insert_eq by lia. f_equal.
    + by rewrite lookup_insert_eq.
  - rewrite W4, lookup_insert_ne, W3, lookup_insert_ne, W2, lookup_insert_ne, W1 by lia.
    by rewrite lookup_insert_eq.
  - cbn [total bsize]. lia.
  - intros x Hx Hx4. eapply touched_dom; [exact T|]. apply Hdom; [lia|done].
Qed.

(** ** disp_heap *)

(** The line printed for each block. *)
Fixpoint rows_of (a : Z) (prev : bool) (n : Z) (bs : list blk) : list row :=
  match bs with
  | [] => []
  | b :: bs' =>
      mkRow n (bused b) prev a (a + bsize b - 1) (bsize b)
        :: rows_of (a + bsize b) (bused b) (n + 1) bs'
  end.

Definition sum_where (f : blk -> bool) (bs : list blk) : Z := total (filter (fun b => Is_true (f b)) bs).

Lemma sum_where_cons f b bs :
  sum_where f (b :: bs) = (if f b then bsize b else 0) + sum_where f bs.
Proof.
  unfold sum_where. rewrite filter_cons. destruct (f b); cbn.
  - rewrite decide_True by done. done.
  - rewrite decide_False by auto. done.
Qed.

Lemma sum_where_split bs : sum_where bused bs + sum_where (negb ∘ bused) bs = total bs.
Proof.
  induction bs as [|b bs IH]; [done|]. rewrite !sum_where_cons. cbn.
  destruct (bused b); cbn; lia.
Qed.

Lemma sum_where_bounds f bs : Forall blk_ok bs -> 0 <= sum_where f bs <= total bs.
Proof.
  induction 1 as [|b bs [Hb _] _ IH]; [done|]. rewrite sum_where_cons. cbn.
  destruct (f b); lia.
Qed.

Lemma header_land1 s p u : s mod 8 = 0 -> Z.land (header s p u) 1 = if u then 1 else 0.
Proof.
  intros Hs. unfold header.
  rewrite (land_low s _ 1 2) by (destruct p, u; unfold P_BIT, A_BIT; zlia). by destruct p, u.
Qed.

Lemma header_free_land2 s p : s mod 8 = 0 -> Z.land (header s p false) 2 = if p then 2 else 0.
Proof.
  intros Hs. unfold header.
  rewrite (land_low s _ 2 2) by (destruct p; unfold P_BIT, A_BIT; zlia). by destruct p.
Qed.

Lemma disp_scan_spec h bs a q n us fs rows fuel :
  seg (words h) a q bs -> words h !! (a + total bs) = Some 1 ->
  (length bs < fuel)%nat -> 0 <= us -> 0 <= fs -> us + fs + total bs <= INT_MAX ->
  wp (disp_scan fuel a n us fs rows) h (fun r h' => h' = h /\
    r = (rows ++ rows_of a q n bs, us + sum_where bused bs, fs + sum_where (negb ∘ bused) bs)).
Proof.
  revert a q n us fs rows fuel.
  induction bs as [|b bs IH]; intros a q n us fs rows fuel Hs He Hfuel Hus Hfs Hmax;
    (destruct fuel as [|fuel]; [cbn in Hfuel; lia|]); cbn [disp_scan rows_of].
  - cbn in He. rewrite Z.add_0_r in He. wp_step. eapply wp_load; [exact He|].
    cbn. apply wp_ret. by rewrite app_nil_r, !Z.add_0_r.
  - destruct Hs as ([Hb8 Hbm] & [Hh _] & Hs). pose proof (seg_total _ _ _ _ Hs) as [Ht _].
    cbn [total length] in *.
    assert (0 <= bsize b <= INT_MAX) by lia.
    wp_step. eapply wp_load; [exact Hh|]. rewrite header_not_end, header_land1 by done.
    assert (negb ((if bused b then 1 else 0) =? 0) = bused b) as -> by by destruct (bused b).
    assert ((if bused b then header (bsize b) q (bused b) - 1 else header (bsize b) q (bused b))
            = header (bsize b) q false) as ->.
    { destruct (bused b); unfold header, A_BIT; [lia|done]. }
    rewrite header_free_land2 by done.
    assert (negb ((if q then 2 else 0) =? 0) = q) as -> by by destruct q.
    wp_step. apply (wp_lift _ (bsize b)).
    { replace (if q then _ else _) with (bsize b) by (unfold header, P_BIT; destruct q; lia).
      apply sint_ok. unfold_bounds. lia. }
    wp_step. eapply wp_lift; [apply sint_ok; unfold_bounds; destruct (bused b); lia|].
    wp_step. eapply wp_lift; [apply sint_ok; unfold_bounds; destruct (bused b); lia|].
    eapply wp_mono.
    { apply IH; [exact Hs|by rewrite <-Z.add_assoc|lia|destruct (bused b); lia..]. }
    intros r h' [-> ->]. split; [done|]. rewrite <-app_assoc, !sum_where_cons. cbn [app].
    f_equal; [f_equal|]; unfold compose; destruct (bused b); cbn; lia.
Qed.

(** ** Client runs

    A client of the allocator: it initialises the heap once, then allocates,
    frees pointers it owns, and writes words of payloads it owns.  [live] lists
    the owned pointers with the sizes that were asked for. *)
Inductive reach (o : os) : heap -> list (Z * Z) -> Prop :=
  | reach_init n h0 h :
      allocated_once h0 = false -> init_heap o n h0 = Ok (0, h) -> reach o h []
  | reach_alloc h live n p h' :
      reach o h live -> 1 <= n <= INT_MAX - 11 ->
      alloc n h = Ok (p, h') -> p <> NULL -> reach o h' ((p, n) :: live)
  | reach_alloc_null h live n h' :
      reach o h live -> 1 <= n <= INT_MAX - 11 ->
      alloc n h = Ok (NULL, h') -> reach o h' live
  | reach_free h live1 p n live2 r h' :
      reach o h (live1 ++ (p, n) :: live2) ->
      free_block p h = Ok (r, h') -> reach o h' (live1 ++ live2)
  | reach_write h live p n x v h' :
      reach o h live -> (p, n) ∈ live -> p <= x -> x + 4 <= p + n ->
      store x v h = Ok (tt, h') -> reach o h' live.

(** What holds of the owned pointers: each is the payload of its own block. *)
Record live_ok (h : heap) (bs : list blk) (live : list (Z * Z)) : Prop := {
  live_nodup : NoDup live.*1;
  live_payload : forall p n, (p, n) ∈ live ->
    exists c, (p, c) ∈ payloads (heap_start h) bs /\ 1 <= n <= c
}.

Lemma live_ok_app h bs live1 live2 e :
  live_ok h bs (live1 ++ e :: live2) -> live_ok h bs (live1 ++ live2) /\ ~ e.1 ∈ (live1 ++ live2).*1.
Proof.
  intros [Hnd Hp]. rewrite !fmap_app in *. cbn in Hnd.
  rewrite <-Permutation_middle in Hnd. apply NoDup_cons in Hnd as [Hn Hnd].
  split; [|done]. split; [by rewrite fmap_app|]. intros p n Hin. apply Hp. set_solver.
Qed.

Lemma init_heap_reach o n h0 h :
  os_ok o -> allocated_once h0 = false -> init_heap o n h0 = Ok (0, h) ->
  exists s, rep h [mkBlk s false].
Proof.
  intros Hos Honce Hinit. pose proof Hos as [[Hpg _] _].
  assert (0 < n /\ round_page (getpagesize o) n <= INT_MAX /\ open_devzero o = true /\
    exists p, mmap o (round_page (getpagesize o) n) = Some p) as (Hn & Hmax & Hopen & p & Hp).
  { unfold init_heap, mbind, M_bind, get in Hinit. rewrite Honce in Hinit.
    destruct (Z.leb_spec n 0); [done|]. split; [done|].
    rewrite pad_round in Hinit by lia. unfold lift, sint, int_ok in Hinit.
    destruct ((INT_MIN <=? round_page (getpagesize o) n) &&
              (round_page (getpagesize o) n <=? INT_MAX)) eqn:E; [|done].
    apply andb_true_iff in E as [_ E%Z.leb_le]. split; [done|].
    cbn in Hinit. destruct (open_devzero o); [|done]. split; [done|].
    destruct (mmap o (round_page (getpagesize o) n)) as [p|]; [by exists p|done]. }
  pose proof (init_heap_wp o n h0 p Hos Hn Hmax Honce Hopen Hp) as (r & h' & Hr & _ & _ & _ & Hrep).
  rewrite Hinit in Hr. simplify_eq. eauto.
Qed.

Lemma alloc_live h bs live n p h' :
  rep h bs -> live_ok h bs live -> 1 <= n <= INT_MAX - 11 -> alloc n h = Ok (p, h') ->
  exists bs', rep h' bs' /\ live_ok h' bs' (if p =? NULL then live else (p, n) :: live).
Proof.
  intros Hrep [Hnd Hlive] Hn Hal. pose proof (alloc_wp h bs n Hrep Hn) as Hw.
  apply (wp_Ok _ _ _ _ _ Hal) in Hw as (bs' & Hout & Hrep' & Hst & _ & _).
  exists bs'. split; [done|]. pose proof (seg_ok _ _ _ _ (rep_seg _ _ Hrep)) as Hok.
  destruct Hout as [_|p1 b p2 -> Hbf].
  - split; [done|]. by rewrite Hst.
  - pose proof (rep_split _ _ _ _ Hrep) as [_ [Hb8 _] _ _ _ Ht _]. pose proof (rep_pos _ _ Hrep).
    rewrite (proj2 (Z.eqb_neq _ _)) by (unfold HDR, NULL; lia).
    pose proof Hbf as [[Hfree Hfit] _ _]. pose proof (round8_spec (n + HDR)) as [Hr _].
    apply Forall_app in Hok as [Hok1 [_ Hok2]%Forall_cons].
    rewrite payloads_app in Hlive. cbn [payloads] in Hlive. rewrite Hfree in Hlive. cbn [app] in Hlive.
    split.
    + cbn. apply NoDup_cons. split; [|done]. intros Hin.
      apply list_elem_of_fmap in Hin as ((q & m) & Heq & Hq). cbn in Heq. subst q.
      apply Hlive in Hq as (c & [Hc|Hc]%elem_of_app & _); apply payloads_range in Hc; try done;
        unfold HDR in *; lia.
    + intros q m [[= -> ->]|Hq]%elem_of_cons.
      * exists ((if 8 <=? bsize b - round8 (n + HDR) then round8 (n + HDR) else bsize b) - HDR).
        rewrite Hst, payloads_app. unfold HDR in *. split.
        -- apply elem_of_app. right. unfold place.
           destruct (8 <=? bsize b - round8 (n + 4)); cbn; left.
        -- destruct (8 <=? bsize b - round8 (n + 4)); lia.
      * apply Hlive in Hq as (c & Hc & Hm). exists c. split; [|done].
        rewrite Hst, payloads_app, payloads_app, total_place.
        apply elem_of_app in Hc as [Hc|Hc]; rewrite !elem_of_app; auto.
Qed.

Lemma free_live h bs live1 p n live2 :
  rep h bs -> live_ok h bs (live1 ++ (p, n) :: live2) ->
  wp (free_block p) h (fun r h' => r = 0 /\ exists bs', rep h' bs' /\ live_ok h' bs' (live1 ++ live2)).
Proof.
  intros Hrep Hlive. pose proof (live_payload _ _ _ Hlive p n ltac:(set_solver)) as (c & Hc & _).
  apply live_ok_app in Hlive as [[Hnd Hlive] Hnotin]. cbn in Hnotin.
  apply payloads_split in Hc as (pre & post & -> & ->).
  eapply wp_mono; [by apply free_wp|]. intros r h' [-> (Hrep' & Hst & _)]. split; [done|].
  eexists. split; [exact Hrep'|]. split; [done|]. intros q m Hq.
  pose proof (list_elem_of_fmap_2 fst _ _ Hq) as Hq1.
  apply Hlive in Hq as Hq'. destruct Hq' as (d & Hd & Hm). exists d. split; [|done].
  rewrite payloads_app in Hd. cbn [payloads bused bsize] in Hd.
  rewrite Hst, payloads_free. rewrite !elem_of_app in Hd |- *. cbn in Hd.
  destruct Hd as [Hd|[Hd|Hd]%elem_of_cons]; auto.
  exfalso. apply Hnotin. by injection Hd as <- _.
Qed.

Lemma reach_inv o h live : os_ok o -> reach o h live -> exists bs, rep h bs /\ live_ok h bs live.
Proof.
  intros Hos. induction 1 as [n h0 h Honce Hinit|h live n p h' _ (bs & Hrep & Hl) Hn Hal Hp
    |h live n h' _ (bs & Hrep & Hl) Hn Hal|h l1 p n l2 r h' _ (bs & Hrep & Hl) Hf
    |h live p n x v h' _ (bs & Hrep & Hl) Hin Hx1 Hx2 Hst].
  - eapply init_heap_reach in Hinit as [s Hs]; [|done..].
    eexists. split; [exact Hs|]. split; [constructor|]. set_solver.
  - destruct (alloc_live _ _ _ _ _ _ Hrep Hl Hn Hal) as (bs' & Hrep' & Hl').
    rewrite (proj2 (Z.eqb_neq _ _) Hp) in Hl'. eauto.
  - destruct (alloc_live _ _ _ _ _ _ Hrep Hl Hn Hal) as (bs' & Hrep' & Hl'). eauto.
  - destruct (free_live _ _ _ _ _ _ Hrep Hl) as (r' & h'' & Hf' & _ & bs' & Hr & Hl').
    rewrite Hf in Hf'. simplify_eq. eauto.
  - exists bs. unfold store in Hst. destruct (words h !! x) as [w|] eqn:Hw; [|done]. simplify_eq.
    split; [|by destruct Hl as [? ?]]. destruct (live_payload _ _ _ Hl _ _ Hin) as (c & Hc & Hnc).
    apply rep_client_write; [done| |eauto]. eapply payloads_in_used; [exact Hc|]. lia.
Qed.

(** ** A concrete heap for the witnesses: a 64-byte "page", one 56-byte block *)
Definition demo_os : os := mkOs 64 true (fun _ => Some 64).
Definition no_heap : heap := mkHeap ∅ 0 0 false.
Definition state_of {A} (d : heap) (r : result (A * heap)) : heap :=
  match r with Ok (_, h) => h | Err _ => d end.
Definition demo_heap : heap := state_of no_heap (init_heap demo_os 40 no_heap).
Definition demo_heap2 : heap := state_of no_heap (alloc 10 demo_heap).

Lemma demo_os_ok : os_ok demo_os.
Proof. split; cbn; [split; [lia|done]|]. intros n p [= <-]. split; [lia|done]. Qed.

Lemma demo_rep : rep demo_heap [mkBlk 56 false].
Proof.
  pose proof (init_heap_wp demo_os 40 no_heap 64 demo_os_ok eq_refl ltac:(done) eq_refl eq_refl eq_refl)
    as (r & h & Hr & _ & _ & _ & Hrep).
  replace demo_heap with h; [exact Hrep|]. unfold demo_heap. by rewrite Hr.
Qed.

Lemma demo_rep2 : rep demo_heap2 [mkBlk 16 true; mkBlk 40 false].
Proof.
  pose proof (alloc_wp demo_heap _ 10 demo_rep ltac:(unfold_bounds; lia))
    as (p & h & Hal & bs' & Hout & Hrep & _).
  assert (demo_heap2 = h) as -> by (unfold demo_heap2; by rewrite Hal).
  inversion Hout as [Hn|p1 b p2 Heq Hbf]; subst.
  - exfalso. apply Forall_cons in Hn as [Hn _]. apply Hn. split; [done|]. vm_compute. discriminate.
  - destruct p1 as [|c p1]; [|by destruct p1]. cbn [app] in Heq. injection Heq as <- <-. exact Hrep.
Qed.

(** ** The allocator's properties *)

(** C1: [alloc] refines best fit on the abstract heap.  On a well-formed heap
    every request that does not overflow returns: NULL, with the heap
    unchanged, exactly when no free block fits, and otherwise the payload of
    the first smallest fitting free block, which is split when at least 8 bytes
    remain; headers, footers and p-bits stay consistent, and no payload word of
    an allocated block is changed. *)
Theorem alloc_refines h bs size :
  rep h bs -> 1 <= size <= INT_MAX - 11 ->
  exists p h' bs',
    alloc size h = Ok (p, h') /\
    alloc_outcome (round8 (size + HDR)) (heap_start h) bs p bs' /\ rep h' bs' /\
    (forall x, in_used (heap_start h) bs x -> words h' !! x = words h !! x).
Proof.
  intros Hrep Hsize.
  destruct (alloc_wp h bs size Hrep Hsize) as (p & h' & Hal & bs' & Hout & Hrep' & _ & _ & Hw).
  by exists p, h', bs'.
Qed.

Lemma alloc_refines_witness : exists p h' bs',
    alloc 10 demo_heap = Ok (p, h') /\
    alloc_outcome 16 68 [mkBlk 56 false] p bs' /\ rep h' bs' /\
    (forall x, in_used 68 [mkBlk 56 false] x -> words h' !! x = words demo_heap !! x).
Proof.
  exact (alloc_refines demo_heap [mkBlk 56 false] 10 demo_rep ltac:(unfold_bounds; lia)).
Defined.

Lemma free_bad_pointer h p :
  p = NULL \/ p mod 8 <> 0 \/ p - HDR < heap_start h \/ heap_start h + alloc_size h <= p - HDR ->
  free_block p h = Ok (-1, h).
Proof.
  intros Hbad. unfold free_block.
  destruct (Z.eqb_spec p NULL) as [|Hn]; [done|].
  destruct (Z.eqb_spec (p mod 8) 0) as [Hm|Hm]; [|done].
  unfold mbind, M_bind, get. cbn [negb].
  destruct (Z.ltb_spec (p - HDR) (heap_start h)) as [|Hlo]; [done|].
  destruct (Z.leb_spec (heap_start h + alloc_size h) (p - HDR)) as [|Hhi]; [done|].
  exfalso. destruct Hbad as [?|[?|[?|?]]]; [done|done|lia|lia].
Qed.

(** C2: [free_block] refines "mark free and merge neighbouring free blocks".
    Freeing the payload of any allocated block succeeds, produces the coalesced
    block list, leaves the payloads of all other allocated blocks unchanged, and
    an immediate second free of the same pointer is rejected without effect.
    NULL, a pointer that is not 8-aligned and a pointer whose header lies below
    the heap or at or past its end are rejected without effect. *)
Theorem free_block_refines h pre sz post :
  rep h (pre ++ mkBlk sz true :: post) ->
  (exists h',
    free_block (heap_start h + total pre + HDR) h = Ok (0, h') /\
    rep h' (coalesce (pre ++ mkBlk sz false :: post)) /\
    (forall x, client_words h pre sz post x -> words h' !! x = words h !! x) /\
    free_block (heap_start h + total pre + HDR) h' = Ok (-1, h')) /\
  (forall p,
    p = NULL \/ p mod 8 <> 0 \/ p - HDR < heap_start h \/ heap_start h + alloc_size h <= p - HDR ->
    free_block p h = Ok (-1, h)).
Proof.
  intros Hrep. split; [|by apply free_bad_pointer].
  pose proof (free_facts _ _ _ _ Hrep) as Hff.
  destruct (free_wp _ _ _ _ Hrep) as (r & h' & Hf & -> & Hrep' & Hst & Hsz & (v & Hv & Hva) & Hcl).
  exists h'. split_and!; try done.
  unfold free_block, mbind, M_bind, get.
  rewrite (proj2 (Z.eqb_neq _ _)) by (unfold HDR, NULL; lia).
  rewrite (proj2 (Z.eqb_eq _ _)) by (unfold HDR; zlia). cbn [negb].
  replace (heap_start h + total pre + HDR - HDR) with (heap_start h + total pre) by lia.
  rewrite (proj2 (Z.ltb_ge _ _)), (proj2 (Z.leb_gt _ _)) by lia.
  unfold load. by rewrite Hv, Hva.
Qed.

Lemma free_block_refines_witness : (exists h',
    free_block 72 demo_heap2 = Ok (0, h') /\
    rep h' [mkBlk 56 false] /\
    (forall x, client_words demo_heap2 [] 16 [mkBlk 40 false] x -> words h' !! x = words demo_heap2 !! x) /\
    free_block 72 h' = Ok (-1, h')) /\
  free_block NULL demo_heap2 = Ok (-1, demo_heap2) /\
  free_block 76 demo_heap2 = Ok (-1, demo_heap2) /\
  free_block 64 demo_heap2 = Ok (-1, demo_heap2) /\
  free_block 128 demo_heap2 = Ok (-1, demo_heap2).
Proof.
  destruct (free_block_refines demo_heap2 [] 16 [mkBlk 40 false] demo_rep2) as [Hf Hbad].
  split; [exact Hf|]. split; [apply Hbad; left; reflexivity|].
  split; [apply Hbad; right; left; discriminate|].
  split; [apply Hbad; right; right; left; reflexivity|].
  apply Hbad; right; right; right; discriminate.
Defined.

(** Freeing what [alloc] just returned restores the block structure exactly,
    whether or not the allocation split a block. *)
Theorem alloc_free_roundtrip h bs size p h' :
  rep h bs -> 1 <= size <= INT_MAX - 11 -> alloc size h = Ok (p, h') -> p <> NULL ->
  exists h'', free_block p h' = Ok (0, h'') /\ rep h'' bs.
Proof.
  intros Hrep Hsize Hal Hp. pose proof (alloc_wp h bs size Hrep Hsize) as Hw.
  apply (wp_Ok _ _ _ _ _ Hal) in Hw as (bs' & Hout & Hrep' & Hst & _ & _).
  destruct Hout as [_|p1 b p2 -> [[Hfree _] _ _]]; [done|].
  pose proof (rep_coal _ _ Hrep) as Hc. rewrite <-Hst.
  unfold place in Hrep'. destruct b as [s u]. cbn [bsize bused] in *. subst u.
  destruct (8 <=? s - round8 (size + HDR)); cbn [app] in Hrep';
    destruct (free_wp _ _ _ _ Hrep') as (r & h'' & Hf & -> & Hrep'' & _); exists h''; (split; [done|]).
  - rewrite (coalesce_app _ _ (mkBlk s false :: p2)) in Hrep''; [done|done|].
    apply no_adj_free_app in Hc as [_ Hc]. pose proof (no_adj_free_after _ _ Hc eq_refl).
    cbn [coalesce]. rewrite coalesce_id by apply Hc. rewrite (merge1_used _ p2) by done.
    cbn. do 2 f_equal. lia.
  - by rewrite coalesce_id in Hrep''.
Qed.

Lemma alloc_free_roundtrip_witness : exists h'',
  free_block 72 demo_heap2 = Ok (0, h'') /\ rep h'' [mkBlk 56 false].
Proof.
  apply (alloc_free_roundtrip demo_heap [mkBlk 56 false] 10 72 demo_heap2);
    [exact demo_rep|unfold_bounds; lia|reflexivity|discriminate].
Defined.

(** C3: safety of every client run.  In any state that a client can reach by
    initialising, allocating, freeing what it owns and writing payload words it
    owns, the heap is well formed: it is a list of blocks that fills the region,
    with consistent headers, footers and p-bits, the end mark in place and no two
    free blocks side by side, and every owned pointer is the payload of its own
    allocated block.  The owned payloads are 8-aligned, inside the region and pairwise
    disjoint; the next allocation and the free of any owned pointer return
    without fault. *)
Theorem heap_safety o h live :
  os_ok o -> reach o h live ->
  (exists bs, rep h bs /\ live_ok h bs live) /\
  (forall p n, (p, n) ∈ live ->
     p mod 8 = 0 /\ heap_start h < p /\ p + n <= heap_start h + alloc_size h) /\
  (forall p n q m, (p, n) ∈ live -> (q, m) ∈ live -> p <> q -> p + n <= q \/ q + m <= p) /\
  NoDup live.*1 /\
  (forall size, 1 <= size <= INT_MAX - 11 -> exists p h', alloc size h = Ok (p, h')) /\
  (forall p n, (p, n) ∈ live -> exists h', free_block p h = Ok (0, h')).
Proof.
  intros Hos (bs & Hrep & Hl)%reach_inv; [|done].
  pose proof (seg_ok _ _ _ _ (rep_seg _ _ Hrep)) as Hok.
  destruct (Hl) as [Hnd Hp]. split; [by exists bs|]. split_and!; try done.
  - intros p n Hin. destruct (Hp p n Hin) as (c & Hc & Hn).
    pose proof (payloads_range _ _ _ _ Hok Hc) as Hr.
    rewrite (rep_total _ _ Hrep) in Hr.
    apply payloads_split in Hc as (pre & post & -> & ->).
    pose proof (free_facts _ _ _ _ Hrep) as Hff. unfold HDR in *. split_and!; [zlia|lia..].
  - intros p n q m Hin1 Hin2 Hne.
    destruct (Hp p n Hin1) as (c & Hc & Hn). destruct (Hp q m Hin2) as (d & Hd & Hm).
    pose proof (payloads_disjoint _ _ _ _ _ _ Hok Hc Hd Hne). lia.
  - intros size Hsize. destruct (alloc_wp h bs size Hrep Hsize) as (p & h' & Hal & _). eauto.
  - intros p n Hin. apply list_elem_of_split in Hin as (l1 & l2 & ->).
    destruct (free_live _ _ _ _ _ _ Hrep Hl) as (r & h' & Hf & -> & _). eauto.
Qed.

Lemma heap_safety_witness :
  NoDup [72] /\ exists h', free_block 72 demo_heap2 = Ok (0, h').
Proof.
  assert (reach demo_os demo_heap2 [(72, 10)]) as Hr.
  { eapply reach_alloc with (h := demo_heap);
      [eapply (reach_init _ 40 no_heap); reflexivity|unfold_bounds; lia|reflexivity|discriminate]. }
  destruct (heap_safety demo_os demo_heap2 [(72, 10)] demo_os_ok Hr) as (_ & _ & _ & Hnd & _ & Hf).
  split; [exact Hnd|]. apply (Hf 72 10). left.
Defined.

(** [init_heap] on a fresh process: the region is rounded up to whole pages,
    and the heap becomes one free block that fills it, with the end mark in
    place; a later call is refused without effect. *)
Theorem init_heap_establishes o n h p :
  os_ok o -> 0 < n -> round_page (getpagesize o) n <= INT_MAX ->
  allocated_once h = false -> open_devzero o = true ->
  mmap o (round_page (getpagesize o) n) = Some p ->
  exists h', init_heap o n h = Ok (0, h') /\ heap_start h' = p + 4 /\
    rep h' [mkBlk (round_page (getpagesize o) n - 8) false] /\
    forall o' n', init_heap o' n' h' = Ok (-1, h').
Proof.
  intros Hos Hn Hmax Honce Hopen Hmap.
  destruct (init_heap_wp o n h p Hos Hn Hmax Honce Hopen Hmap) as (r & h' & Hi & -> & Ho & Hst & Hrep).
  exists h'. split_and!; try done. intros o' n'.
  unfold init_heap, mbind, M_bind, get. by rewrite Ho.
Qed.

Lemma init_heap_establishes_witness :
  exists h', init_heap demo_os 40 no_heap = Ok (0, h') /\ heap_start h' = 68 /\
    rep h' [mkBlk 56 false] /\ forall o' n', init_heap o' n' h' = Ok (-1, h').
Proof.
  apply (init_heap_establishes demo_os 40 no_heap 64);
    [exact demo_os_ok|lia|vm_compute; discriminate|reflexivity..].
Defined.

(** The rounding of the request is not protected against overflow: for the
    seven sizes INT_MAX-10 .. INT_MAX-4 the function has undefined behaviour in
    every heap, where its contract promises NULL. *)
Theorem alloc_size_overflow h size :
  INT_MAX - 10 <= size <= INT_MAX - 4 -> alloc size h = Err Undefined.
Proof.
  unfold INT_MAX. intros Hs. unfold alloc. rewrite (proj2 (Z.ltb_ge _ _)) by lia.
  unfold mbind at 1, M_bind, lift at 1, required_of, HDR.
  rewrite u64_id by (unfold ULONG_MOD; lia). rewrite to_int_id by (unfold_bounds; lia).
  rewrite Z.rem_mod_nonneg by lia. rewrite (proj2 (Z.eqb_neq _ _)) by zlia.
  unfold sint, int_ok. rewrite (proj2 (Z.leb_gt _ INT_MAX)) by (unfold_bounds; zlia).
  by rewrite andb_false_r.
Qed.

Lemma alloc_size_overflow_witness : alloc 2147483640 demo_heap = Err Undefined.
Proof. apply (alloc_size_overflow demo_heap 2147483640). unfold_bounds; lia. Defined.

(** [disp_heap] lists exactly the blocks, in address order, with their own
    and their predecessor's status, and its totals split the region into used
    and free bytes. *)
Theorem disp_heap_reports h bs :
  rep h bs ->
  disp_heap h = Ok (rows_of (heap_start h) true 1 bs, sum_where bused bs,
                    sum_where (negb ∘ bused) bs, alloc_size h, h).
Proof.
  intros Hrep. pose proof Hrep as [Hs He Ht _ _ Hm _ _].
  pose proof (seg_ok _ _ _ _ Hs) as Hok. pose proof (sum_where_split bs) as Hsp.
  destruct (disp_scan_spec h bs (heap_start h) true 1 0 0 [] (scan_fuel h))
    as (r & h' & Hd & -> & ->); [done|by rewrite Ht|by eapply rep_scan_fuel|lia|lia|unfold_bounds; lia|].
  pose proof (sum_where_bounds bused bs Hok). pose proof (sum_where_bounds (negb ∘ bused) bs Hok).
  unfold disp_heap, mbind, M_bind, get. rewrite Hd. cbn [app]. rewrite !Z.add_0_l.
  unfold lift. rewrite sint_ok by (unfold_bounds; lia). cbn. rewrite Hsp, Ht. done.
Qed.

Lemma disp_heap_reports_witness :
  disp_heap demo_heap2 =
  Ok ([mkRow 1 true true 68 83 16; mkRow 2 false true 84 123 40], 16, 40, 56, demo_heap2).
Proof. exact (disp_heap_reports demo_heap2 [mkBlk 16 true; mkBlk 40 false] demo_rep2). Defined.
