(* ===== verification/Cache.v ===== *)
(** * The cache simulator, 底层系统/cache-memory/csim.c

    State: the globals of csim.c (configuration, cache, counters, the LRU
    clock) and the verbose output.  Operations: [init_cache], [access_data],
    [replay_trace] over the bytes of a trace file, [free_cache] and [main].
    The abstract cache is, per set, the stack of resident tags, most recently
    used first. *)
From Stdlib Require Import Sorting.Sorted.
From S2P Require Import Prelude Text.

(** ** State *)
Record cache_line : Type := mkLine {
  valid : bool;
  tag : Z;
  counter : Z       (** LRU counter *)
}.

(** What verbose mode prints. *)
Inductive printed : Type :=
  | PAccess (kind addr len : Z)   (** ["%c %llx,%u "] *)
  | PHit | PMiss | PEviction | PNewline
  | PSummary (hits misses evictions : Z)
  | PUsage | PMissingArg.

Record csim : Type := mkCsim {
  b : Z; s : Z; E : Z;           (** command-line parameters *)
  B : Z; S_ : Z;                 (** block size, number of sets *)
  hit_cnt : Z; miss_cnt : Z; evict_cnt : Z;
  verbosity : bool;
  cache : list (list cache_line);
  global_counter : Z;
  printout : list printed
}.

Definition set_cache (c : list (list cache_line)) (st : csim) : csim :=
  mkCsim (b st) (s st) (E st) (B st) (S_ st) (hit_cnt st) (miss_cnt st) (evict_cnt st)
    (verbosity st) c (global_counter st) (printout st).
Definition set_counts (h m e : Z) (st : csim) : csim :=
  mkCsim (b st) (s st) (E st) (B st) (S_ st) h m e
    (verbosity st) (cache st) (global_counter st) (printout st).
Definition set_clock (g : Z) (st : csim) : csim :=
  mkCsim (b st) (s st) (E st) (B st) (S_ st) (hit_cnt st) (miss_cnt st) (evict_cnt st)
    (verbosity st) (cache st) g (printout st).
Definition add_out (p : printed) (st : csim) : csim :=
  mkCsim (b st) (s st) (E st) (B st) (S_ st) (hit_cnt st) (miss_cnt st) (evict_cnt st)
    (verbosity st) (cache st) (global_counter st) (printout st ++ [p]).
Definition set_sizes (bb ss : Z) (st : csim) : csim :=
  mkCsim (b st) (s st) (E st) bb ss (hit_cnt st) (miss_cnt st) (evict_cnt st)
    (verbosity st) (cache st) (global_counter st) (printout st).

(** [if (verbosity) printf(...)] *)
Definition vprint (p : printed) : M csim unit :=
  modify (fun st => if verbosity st then add_out p st else st).

(** ** Cache construction *)

(** [1 << n] on an [int]: undefined outside 0..30. *)
Definition shl1_int (n : Z) : result Z :=
  if (0 <=? n) && (n <? 31) then Ok (Z.shiftl 1 n) else Err Undefined.

Definition empty_line : cache_line := mkLine false 0 0.

(** [malloc] of the i-th call and its size succeeds or not. *)
Definition malloc_oracle : Type := nat -> Z -> bool.

Definition LINE_SIZE : Z := 24.
Definition PTR_SIZE : Z := 8.

Fixpoint init_sets (malloc : malloc_oracle) (i : nat) (n : nat) (lines : Z)
    : result (list (list cache_line)) :=
  match n with
  | O => Ok []
  | S n' =>
      if negb (malloc i (u64 (lines * LINE_SIZE))) then Err (Exit 1) else
      rest ← init_sets malloc (S i) n' lines;
      mret (replicate (Z.to_nat lines) empty_line :: rest)
  end.

Definition init_cache (malloc : malloc_oracle) : M csim unit :=
  st ← get;
  ss ← lift (shl1_int (s st));
  bb ← lift (shl1_int (b st));
  _ ← modify (set_sizes bb ss);
  if negb (malloc 0%nat (u64 (ss * PTR_SIZE))) then fail (Exit 1) else
  sets ← lift (init_sets malloc 1 (Z.to_nat ss) (E st));
  modify (set_cache sets).

Definition free_cache : M csim unit := modify (set_cache []).

(** ** access_data *)

(** First line of the set that holds the tag. *)
Fixpoint find_hit (set : list cache_line) (t : Z) (i : nat) : option nat :=
  match set with
  | [] => None
  | l :: set' => if valid l && (tag l =? t) then Some i else find_hit set' t (S i)
  end.

(** First invalid line. *)
Fixpoint find_invalid (set : list cache_line) (i : nat) : option nat :=
  match set with
  | [] => None
  | l :: set' => if negb (valid l) then Some i else find_invalid set' (S i)
  end.

(** The loop from line 1 on that keeps the smallest counter. *)
Fixpoint find_lru (set : list cache_line) (i lru_index : nat) (min_counter : Z) : nat :=
  match set with
  | [] => lru_index
  | l :: set' =>
      if counter l <? min_counter then find_lru set' (S i) i (counter l)
      else find_lru set' (S i) lru_index min_counter
  end.

(** Shifts of a 64-bit value by 64 or more are undefined. *)
Definition shr64 (a n : Z) : result Z :=
  if (0 <=? n) && (n <? 64) then Ok (Z.shiftr a n) else Err Undefined.
Definition mask64 (n : Z) : result Z :=
  if (0 <=? n) && (n <? 64) then Ok (u64 (Z.shiftl 1 n - 1)) else Err Undefined.

(** [x++] on an [int] counter. *)
Definition incr (z : Z) : result Z := sint (z + 1).

(** [cache[k][i] = l] *)
Definition set_line (k i : nat) (l : cache_line) (c : list (list cache_line))
    : list (list cache_line) :=
  match c !! k with Some set => <[k := <[i := l]> set]> c | None => c end.

(** Update line [i] of set [k]; [++global_counter] is its new LRU stamp. *)
Definition touch_line (k i : nat) (v : bool) (t : Z) : M csim unit :=
  st ← get;
  let g := u64 (global_counter st + 1) in
  _ ← modify (set_clock g);
  modify (fun st => set_cache (set_line k i (mkLine v t g) (cache st)) st).

Definition access_data (addr : Z) : M csim unit :=
  st ← get;
  hi ← lift (shr64 addr (b st));
  m ← lift (mask64 (s st));
  let set_index := Z.land hi m in
  t ← lift (shr64 addr (s st + b st));
  match cache st !! Z.to_nat set_index with
  | None => fail Undefined
  | Some set =>
      match find_hit set t 0 with
      | Some i =>
          h ← lift (incr (hit_cnt st));
          _ ← modify (set_counts h (miss_cnt st) (evict_cnt st));
          _ ← touch_line (Z.to_nat set_index) i true t;
          vprint PHit
      | None =>
          m ← lift (incr (miss_cnt st));
          _ ← modify (set_counts (hit_cnt st) m (evict_cnt st));
          _ ← vprint PMiss;
          match find_invalid set 0 with
          | Some i => touch_line (Z.to_nat set_index) i true t
          | None =>
              e ← lift (incr (evict_cnt st));
              _ ← modify (set_counts (hit_cnt st) m e);
              _ ← vprint PEviction;
              match set with
              | [] => fail Undefined
              | l0 :: rest =>
                  let lru_index := find_lru rest 1 0 (counter l0) in
                  touch_line (Z.to_nat set_index) lru_index true t
              end
          end
      end
  end.

(** ** replay_trace *)

(** The 1000-byte buffer keeps what earlier lines left behind the NUL. *)
Definition fill_buf (line buf : list Z) : list Z :=
  line ++ 0 :: drop (S (length line)) buf.

Definition UINT_W : Z := UINT_MOD.

(** [sscanf(buf+3, "%llx,%u", &addr, &len)]: fields that do not match keep
    their old value. *)
Definition scan_access (str : list Z) (addr len : Z) : result (Z * Z) :=
  r ← scan_unsigned 16 ULONG_MOD str;
  match r with
  | None => Ok (addr, len)
  | Some (a, rest) =>
      match rest with
      | c :: rest' =>
          if c =? 44 then
            r2 ← scan_unsigned 10 UINT_W rest';
            Ok (a, match r2 with Some (l, _) => l | None => len end)
          else Ok (a, len)
      | [] => Ok (a, len)
      end
  end.

Definition CH_L : Z := 76.
Definition CH_S : Z := 83.
Definition CH_M : Z := 77.

Definition replay_line (buf : list Z) (addr len : Z) : M csim (Z * Z) :=
  match buf !! 1%nat with
  | None => fail Undefined
  | Some c =>
      if (c =? CH_S) || (c =? CH_L) || (c =? CH_M) then
        '(addr, len) ← lift (scan_access (until_nul (drop 3 buf)) addr len);
        _ ← vprint (PAccess c addr len);
        _ ← (if c =? CH_L then access_data addr
             else if c =? CH_S then access_data addr
             else _ ← access_data addr; access_data addr);
        _ ← vprint PNewline;
        mret (addr, len)
      else mret (addr, len)
  end.

(** One iteration per line; a file has at most as many lines as characters. *)
Fixpoint replay_loop (fuel : nat) (file buf : list Z) (addr len : Z) : M csim unit :=
  match fuel with
  | O => fail OutOfFuel
  | S fuel' =>
      match file with
      | [] => mret tt
      | _ =>
          let '(line, rest) := fgets_line 999 file in
          let buf := fill_buf line buf in
          '(addr, len) ← replay_line buf addr len;
          replay_loop fuel' rest buf addr len
      end
  end.

(** [None] is a file that cannot be opened; [buf] is the uninitialised buffer. *)
Definition replay_trace (file : option (list Z)) (buf : list Z) : M csim unit :=
  match file with
  | None => fail (Exit 1)
  | Some bytes => replay_loop (S (length bytes)) bytes buf 0 0
  end.

(** ** main *)

Definition print_usage {A} : M csim A := _ ← modify (add_out PUsage); fail (Exit 0).

(** One option as [getopt] reports it, with [optarg]. *)
Definition set_args (bb ss EE : Z) (v : bool) (st : csim) : csim :=
  mkCsim bb ss EE (B st) (S_ st) (hit_cnt st) (miss_cnt st) (evict_cnt st)
    v (cache st) (global_counter st) (printout st).

Fixpoint parse_args (opts : list (Z * list Z)) (trace_file : option (list Z))
    : M csim (option (list Z)) :=
  match opts with
  | [] => mret trace_file
  | (c, optarg) :: opts' =>
      st ← get;
      if c =? 98 then n ← lift (atoi optarg); _ ← modify (set_args n (s st) (E st) (verbosity st));
                      parse_args opts' trace_file
      else if c =? 69 then n ← lift (atoi optarg); _ ← modify (set_args (b st) (s st) n (verbosity st));
                      parse_args opts' trace_file
      else if c =? 104 then print_usage
      else if c =? 115 then n ← lift (atoi optarg); _ ← modify (set_args (b st) n (E st) (verbosity st));
                      parse_args opts' trace_file
      else if c =? 116 then parse_args opts' (Some optarg)
      else if c =? 118 then _ ← modify (set_args (b st) (s st) (E st) true); parse_args opts' trace_file
      else _ ← print_usage (A := unit); fail (Exit 1)
  end.

(** [fs] maps a file name to its contents; main returns the summary it prints.
    Its copy in .csim_results, written after that, is left out. *)
Definition main (malloc : malloc_oracle) (fs : list Z -> option (list Z)) (buf : list Z)
    (opts : list (Z * list Z)) : M csim (Z * Z * Z) :=
  trace_file ← parse_args opts None;
  st ← get;
  match trace_file with
  | Some name =>
      if (s st =? 0) || (E st =? 0) || (b st =? 0) then
        _ ← modify (add_out PMissingArg); _ ← print_usage (A := unit); fail (Exit 1)
      else
        _ ← init_cache malloc;
        _ ← replay_trace (fs name) buf;
        _ ← free_cache;
        st ← get;
        _ ← modify (add_out (PSummary (hit_cnt st) (miss_cnt st) (evict_cnt st)));
        mret (hit_cnt st, miss_cnt st, evict_cnt st)
  | None => _ ← modify (add_out PMissingArg); _ ← print_usage (A := unit); fail (Exit 1)
  end.

Definition csim0 : csim := mkCsim 0 0 0 0 0 0 0 0 false [] 0 [].


(** ** The abstract cache: one LRU stack of tags per set *)
Record amodel : Type := mkA {
  stacks : list (list Z);
  hits : Z; misses : Z; evictions : Z
}.

Definition lru_stack (E : nat) (t : Z) (stk : list Z) : list Z :=
  take E (t :: filter (fun x => x <> t) stk).

Definition addr_set (b s a : Z) : nat := Z.to_nat ((a / 2 ^ b) mod 2 ^ s).
Definition addr_tag (b s a : Z) : Z := a / 2 ^ (s + b).

Definition stack_of (m : amodel) (k : nat) : list Z := default [] (stacks m !! k).

Definition lru_access (b s : Z) (E : nat) (m : amodel) (a : Z) : amodel :=
  let k := addr_set b s a in
  let t := addr_tag b s a in
  let stk := stack_of m k in
  let hit := bool_decide (t ∈ stk) in
  let full := bool_decide (length stk = E) in
  mkA (<[k := lru_stack E t stk]> (stacks m))
    (hits m + Z.b2z hit) (misses m + Z.b2z (negb hit))
    (evictions m + Z.b2z (negb hit && full)).

Definition lru_run (b s : Z) (E : nat) (m : amodel) (accs : list Z) : amodel :=
  foldl (lru_access b s E) m accs.

Definition lru_init (s : Z) : amodel := mkA (replicate (Z.to_nat (2 ^ s)) []) 0 0 0.

(** ** Lists of tags and stamps *)
Definition entries (set : list cache_line) : list (Z * Z) :=
  omap (fun l => if valid l then Some (tag l, counter l) else None) set.

Definition newer (x y : Z * Z) : Prop := y.2 < x.2.

Record set_rep (g : Z) (E : nat) (set : list cache_line) (stk : list Z) : Prop := {
  sr_len : length set = E;
  sr_nodup : NoDup stk;
  sr_stamps : Forall (fun e => e.2 <= g) (entries set);
  sr_order : exists L, L ≡ₚ entries set /\ StronglySorted newer L /\ L.*1 = stk
}.

Lemma entries_app p q : entries (p ++ q) = entries p ++ entries q.
Proof. apply omap_app. Qed.

Lemma entries_cons_valid l q : valid l = true -> entries (l :: q) = (tag l, counter l) :: entries q.
Proof. intros H. unfold entries. cbn. by rewrite H. Qed.

Lemma entries_cons_invalid l q : valid l = false -> entries (l :: q) = entries q.
Proof. intros H. unfold entries. cbn. by rewrite H. Qed.

Lemma entries_length set : (length (entries set) <= length set)%nat.
Proof.
  induction set as [|l set IH]; [done|]. destruct (valid l) eqn:H.
  - rewrite entries_cons_valid by done. cbn. lia.
  - rewrite entries_cons_invalid by done. cbn. lia.
Qed.

Lemma set_rep_length g E set stk : set_rep g E set stk -> (length stk <= E)%nat.
Proof.
  intros [Hl _ _ (L & HL & _ & <-)]. rewrite length_fmap, HL, <-Hl. apply entries_length.
Qed.

Lemma ssorted_remove L1 x L2 :
  StronglySorted newer (L1 ++ x :: L2) -> StronglySorted newer (L1 ++ L2).
Proof.
  induction L1 as [|y L1 IH]; cbn; intros H; apply StronglySorted_inv in H as [H1 H2]; [done|].
  constructor; [auto|]. rewrite Forall_app in *. rewrite Forall_cons in H2. tauto.
Qed.

Lemma filter_neq_id (l : list Z) t : t ∉ l -> filter (fun x => x <> t) l = l.
Proof.
  induction l as [|x l IH]; [done|]. intros Hn. rewrite filter_cons, decide_True by set_solver.
  f_equal. apply IH. set_solver.
Qed.

Lemma filter_neq_remove (l1 l2 : list Z) t :
  NoDup (l1 ++ t :: l2) -> filter (fun x => x <> t) (l1 ++ t :: l2) = l1 ++ l2.
Proof.
  intros Hnd. rewrite <-Permutation_middle in Hnd. apply NoDup_cons in Hnd as [Hn _].
  rewrite filter_app, filter_cons, decide_False by auto.
  by rewrite !filter_neq_id by set_solver.
Qed.

(** ** The three searches of access_data *)
Lemma find_hit_Some set t n i :
  find_hit set t n = Some i ->
  exists p l q, set = p ++ l :: q /\ i = (n + length p)%nat /\ valid l = true /\ tag l = t.
Proof.
  revert n. induction set as [|l set IH]; intros n; cbn; [done|].
  destruct (valid l && (tag l =? t)) eqn:H.
  - intros [= <-]. apply andb_true_iff in H as [? ?%Z.eqb_eq].
    exists [], l, set. split_and!; done || (cbn; lia).
  - intros (p & l' & q & -> & -> & ?)%IH. exists (l :: p), l', q.
    split_and!; done || tauto || (cbn; lia).
Qed.

Lemma find_hit_None set t n : find_hit set t n = None -> t ∉ (entries set).*1.
Proof.
  revert n. induction set as [|l set IH]; intros n; cbn [find_hit]; [set_solver|].
  destruct (valid l && (tag l =? t)) eqn:H; [done|]. intros Hn%IH.
  destruct (valid l) eqn:Hv.
  - rewrite entries_cons_valid by done. rewrite fmap_cons. cbn in H |- *. apply Z.eqb_neq in H. set_solver.
  - by rewrite entries_cons_invalid.
Qed.

Lemma find_invalid_Some set n i :
  find_invalid set n = Some i ->
  exists p l q, set = p ++ l :: q /\ i = (n + length p)%nat /\ valid l = false.
Proof.
  revert n. induction set as [|l set IH]; intros n; cbn; [done|].
  destruct (valid l) eqn:H; cbn.
  - intros (p & l' & q & -> & -> & ?)%IH. exists (l :: p), l', q. split_and!; done || (cbn; lia).
  - intros [= <-]. exists [], l, set. split_and!; done || (cbn; lia).
Qed.

Lemma find_invalid_None set n :
  find_invalid set n = None -> entries set = (fun l => (tag l, counter l)) <$> set.
Proof.
  revert n. induction set as [|l set IH]; intros n; cbn [find_invalid]; [done|].
  destruct (valid l) eqn:H; cbn [negb]; [|done].
  intros Hn%IH. rewrite entries_cons_valid by done. cbn. by rewrite Hn.
Qed.

Lemma find_lru_spec set n best mc (pre : list cache_line) :
  n = length pre -> (exists l, pre !! best = Some l /\ counter l = mc) ->
  Forall (fun l => mc <= counter l) pre ->
  exists l, (pre ++ set) !! find_lru set n best mc = Some l /\
    Forall (fun l' => counter l <= counter l') (pre ++ set).
Proof.
  revert n best mc pre. induction set as [|x set IH]; intros n best mc pre -> (l & Hl & <-) Hmin; cbn.
  - exists l. by rewrite app_nil_r.
  - assert (pre ++ x :: set = (pre ++ [x]) ++ set) as -> by by rewrite <-app_assoc.
    destruct (Z.ltb_spec (counter x) (counter l)).
    + apply IH.
      * rewrite length_app. cbn. lia.
      * exists x. rewrite lookup_app_r, Nat.sub_diag by lia. done.
      * apply Forall_app. split; [|by constructor].
        eapply Forall_impl; [exact Hmin|]. cbn. lia.
    + apply IH.
      * rewrite length_app. cbn. lia.
      * exists l. split; [|done]. rewrite lookup_app_l; [done|]. by apply lookup_lt_Some in Hl.
      * apply Forall_app. split; [done|]. constructor; [lia|done].
Qed.

(** Restamping one line with the fresh clock value puts its tag on top. *)
Lemma set_rep_touch g E p l q t L :
  length (p ++ l :: q) = E ->
  Forall (fun e => e.2 <= g) (entries (p ++ l :: q)) ->
  L ≡ₚ entries (p ++ q) -> StronglySorted newer L -> NoDup (t :: L.*1) ->
  set_rep (g + 1) E (p ++ mkLine true t (g + 1) :: q) (t :: L.*1).
Proof.
  intros Hlen Hst HL Hs Hnd.
  assert (Forall (fun e => e.2 <= g) (entries (p ++ q))) as Hst'.
  { rewrite entries_app in *. rewrite Forall_app in *. destruct Hst as [? Hst].
    split; [done|]. destruct (valid l) eqn:Hv.
    - rewrite entries_cons_valid in Hst by done. by apply Forall_cons in Hst as [_ ?].
    - by rewrite entries_cons_invalid in Hst. }
  assert (entries (p ++ mkLine true t (g + 1) :: q) ≡ₚ (t, g + 1) :: entries (p ++ q)) as Hp.
  { rewrite !entries_app, entries_cons_valid by done. cbn. by rewrite Permutation_middle. }
  split.
  - rewrite <-Hlen, !length_app. done.
  - done.
  - rewrite Hp. constructor; [cbn; lia|]. eapply Forall_impl; [exact Hst'|]. cbn. lia.
  - exists ((t, g + 1) :: L). split_and!; [by rewrite Hp, HL| |done].
    constructor; [done|]. rewrite HL. eapply Forall_impl; [exact Hst'|]. unfold newer. cbn. lia.
Qed.

(** The line with the smallest stamp is the bottom of the stack. *)
Lemma oldest_is_last (L : list (Z * Z)) e :
  StronglySorted newer L -> e ∈ L -> Forall (fun e' => e.2 <= e'.2) L ->
  exists L0, L = L0 ++ [e].
Proof.
  induction L as [|x L IH]; intros Hs Hin Hmin; [set_solver|].
  apply StronglySorted_inv in Hs as [Hs Hx]. apply Forall_cons in Hmin as [Hm Hmin].
  apply elem_of_cons in Hin as [->|Hin].
  - destruct L as [|y L]; [by exists []|]. apply Forall_cons in Hx as [Hy _].
    apply Forall_cons in Hmin as [Hxy _]. unfold newer in Hy. lia.
  - destruct (IH Hs Hin Hmin) as [L0 ->]. by exists (x :: L0).
Qed.

(** When every line contributes an entry, every line is valid. *)
Lemma entries_full_valid lines :
  entries lines = (fun l => (tag l, counter l)) <$> lines ->
  Forall (fun l => valid l = true) lines.
Proof.
  induction lines as [|x lines IH]; [constructor|]. intros H.
  destruct (valid x) eqn:Hx.
  - rewrite entries_cons_valid in H by done. cbn in H. injection H as H. constructor; auto.
  - rewrite entries_cons_invalid in H by done.
    pose proof (entries_length lines) as Hl. rewrite H in Hl. cbn in Hl.
    rewrite length_fmap in Hl. lia.
Qed.

(** ** One access to one set *)

(** The stack that results when the rest of the stack is [stk']. *)
Lemma lru_stack_eq E t stk stk' :
  filter (fun x => x <> t) stk = stk' -> (length stk' < E)%nat ->
  lru_stack E t stk = t :: stk'.
Proof. intros <- Hl. unfold lru_stack. apply take_ge. cbn. lia. Qed.

Section set_access.
Context (g : Z) (E : nat) (set : list cache_line) (stk : list Z) (t : Z).
Hypothesis Hrep : set_rep g E set stk.

Let fresh : cache_line := mkLine true t (g + 1).

Lemma set_access_hit i :
    find_hit set t 0 = Some i ->
    t ∈ stk /\ set_rep (g + 1) E (<[i := fresh]> set) (lru_stack E t stk).
  Proof.
    intros Hf. pose proof (set_rep_length _ _ _ _ Hrep) as Hle.
    destruct Hrep as [Hlen Hnd Hst (L & HL & Hs & <-)].
    apply find_hit_Some in Hf as (p & l & q & -> & -> & Hv & <-). cbn [Nat.add].
    rewrite insert_middle.
    assert (entries (p ++ l :: q) ≡ₚ (tag l, counter l) :: entries (p ++ q)) as Hp.
    { rewrite !entries_app, entries_cons_valid by done. by rewrite Permutation_middle. }
    assert ((tag l, counter l) ∈ L) as Hin by (rewrite HL, Hp; left).
    apply list_elem_of_split in Hin as (L1 & L2 & ->).
    rewrite fmap_app in *. cbn [fmap list_fmap fst] in *.
    split; [set_solver|].
    rewrite (lru_stack_eq _ _ _ ((L1 ++ L2).*1)).
    - eapply set_rep_touch; [done|done| |by eapply ssorted_remove|].
      + rewrite <-Permutation_middle, Hp in HL. by apply Permutation_cons_inv in HL.
      + rewrite fmap_app. by rewrite Permutation_middle.
    - rewrite fmap_app. by apply filter_neq_remove.
    - rewrite length_app in Hle. rewrite fmap_app, length_app. cbn in Hle. lia.
  Qed.

Local Lemma not_in_stack : find_hit set t 0 = None -> t ∉ stk.
  Proof.
    intros Hf%find_hit_None. destruct Hrep as [_ _ _ (L & HL & _ & <-)]. by rewrite HL.
  Qed.

Lemma set_access_fill i :
    find_hit set t 0 = None -> find_invalid set 0 = Some i ->
    (t ∉ stk) /\ (length stk < E)%nat /\
    set_rep (g + 1) E (<[i := fresh]> set) (lru_stack E t stk).
  Proof.
    intros Hn%not_in_stack Hf.
    pose proof Hrep as [Hlen Hnd Hst (L & HL & Hs & Hstk)].
    apply find_invalid_Some in Hf as (p & l & q & Hset & -> & Hv). cbn [Nat.add].
    assert (entries set = entries (p ++ q)) as Hent.
    { by rewrite Hset, !entries_app, entries_cons_invalid. }
    assert (length stk < E)%nat as Hlt.
    { rewrite <-Hstk, length_fmap, HL, Hent, <-Hlen, Hset.
      pose proof (entries_length (p ++ q)) as Hl. rewrite length_app in *. cbn. lia. }
    split_and!; [done|done|]. rewrite (lru_stack_eq _ _ _ stk); [|by apply filter_neq_id|done].
    rewrite Hset, insert_middle. subst stk. eapply set_rep_touch.
    - by rewrite <-Hset.
    - by rewrite <-Hset.
    - by rewrite HL, Hent.
    - done.
    - by constructor.
  Qed.

Lemma set_access_evict l0 rest :
    find_hit set t 0 = None -> find_invalid set 0 = None -> set = l0 :: rest ->
    (t ∉ stk) /\ length stk = E /\
    set_rep (g + 1) E (<[find_lru rest 1 0 (counter l0) := fresh]> set) (lru_stack E t stk).
  Proof.
    intros Hn%not_in_stack Hf%find_invalid_None Hset.
    pose proof Hrep as [Hlen Hnd Hst (L & HL & Hs & Hstk)].
    assert (length stk = E) as Hfull.
    { rewrite <-Hstk, length_fmap, HL, Hf, length_fmap. done. }
    split_and!; [done|done|].
    destruct (find_lru_spec rest 1 0 (counter l0) [l0]) as (l & Hl & Hmin);
      [done|by exists l0|by constructor|].
    cbn [app] in Hl, Hmin. rewrite <-Hset in Hl, Hmin.
    set (i := find_lru rest 1 0 (counter l0)) in *. clearbody i.
    apply list_elem_of_split_length in Hl as (p & q & Hpq & ->).
    assert (exists L0, L = L0 ++ [(tag l, counter l)]) as [L0 HL0].
    { apply oldest_is_last; [done| |].
      - rewrite HL, Hf, Hpq, fmap_app. apply elem_of_app. right. left.
      - rewrite HL, Hf. apply Forall_fmap. eapply Forall_impl; [exact Hmin|]. done. }
    rewrite Hpq, insert_middle.
    assert (lru_stack E t stk = t :: L0.*1) as ->.
    { unfold lru_stack. rewrite filter_neq_id by done. rewrite <-Hfull, <-Hstk, HL0, fmap_app.
      rewrite length_app, Nat.add_1_r. cbn [take fmap list_fmap]. f_equal. by apply take_app_length. }
    assert (valid l = true) as Hv.
    { apply entries_full_valid in Hf. rewrite Hpq in Hf. apply Forall_app in Hf as [_ Hf].
      by apply Forall_cons in Hf as [? _]. }
    eapply set_rep_touch.
    - by rewrite <-Hpq.
    - by rewrite <-Hpq.
    - rewrite Hpq in HL. rewrite entries_app, entries_cons_valid in HL by done.
      rewrite HL0, <-Permutation_cons_append, <-Permutation_middle in HL.
      apply Permutation_cons_inv in HL. by rewrite entries_app.
    - rewrite HL0 in Hs. apply ssorted_remove in Hs. by rewrite app_nil_r in Hs.
    - apply NoDup_cons. split.
      + rewrite <-Hstk, HL0, fmap_app in Hn. set_solver.
      + rewrite <-Hstk, HL0, fmap_app in Hnd. by apply NoDup_app in Hnd as [? _].
  Qed.
End set_access.

(** ** The whole cache *)
Record cache_rep (st : csim) (m : amodel) : Prop := {
  cr_b : 1 <= b st < 31;
  cr_s : 1 <= s st < 31;
  cr_E : 1 <= E st;
  cr_sets : length (cache st) = Z.to_nat (2 ^ s st);
  cr_stacks : Forall2 (set_rep (global_counter st) (Z.to_nat (E st))) (cache st) (stacks m);
  cr_hits : hit_cnt st = hits m;
  cr_misses : miss_cnt st = misses m;
  cr_evictions : evict_cnt st = evictions m;
  cr_clock : global_counter st = hits m + misses m;
  cr_pos : 0 <= evictions m <= misses m /\ 0 <= hits m;
  cr_max : hits m + misses m <= INT_MAX
}.

Lemma set_rep_later g g' E set stk : g <= g' -> set_rep g E set stk -> set_rep g' E set stk.
Proof.
  intros Hg [? ? Hs ?]. split; try done. eapply Forall_impl; [exact Hs|]. cbn. lia.
Qed.

(** The address split of the code is division by powers of two. *)
Lemma addr_split st addr :
  0 <= addr < ULONG_MOD -> 1 <= b st < 31 -> 1 <= s st < 31 ->
  shr64 addr (b st) = Ok (addr / 2 ^ b st) /\
  mask64 (s st) = Ok (Z.ones (s st)) /\
  shr64 addr (s st + b st) = Ok (addr_tag (b st) (s st) addr) /\
  Z.to_nat (Z.land (addr / 2 ^ b st) (Z.ones (s st))) = addr_set (b st) (s st) addr /\
  (addr_set (b st) (s st) addr < Z.to_nat (2 ^ s st))%nat.
Proof.
  intros Ha Hb Hs. unfold shr64, mask64, addr_tag, addr_set.
  assert (forall n, 0 <= n < 64 -> (0 <=? n) && (n <? 64) = true) as Hok by (intros; lia).
  rewrite !Hok by lia. rewrite !Z.shiftr_div_pow2, Z.shiftl_mul_pow2, Z.mul_1_l by lia.
  assert (0 < 2 ^ s st < ULONG_MOD).
  { split; [apply Z.pow_pos_nonneg; lia|].
    apply Z.le_lt_trans with (2 ^ 30); [apply Z.pow_le_mono_r; lia|done]. }
  assert (u64 (2 ^ s st - 1) = Z.ones (s st)) as -> by (rewrite u64_id, Z.ones_equiv; lia).
  split_and!; try done.
  - by rewrite land_ones_mod by lia.
  - pose proof (Z.mod_pos_bound (addr / 2 ^ b st) (2 ^ s st)). lia.
Qed.

(** Printing changes the output only. *)
Definition with_out (out : list printed) (st : csim) : csim :=
  mkCsim (b st) (s st) (E st) (B st) (S_ st) (hit_cnt st) (miss_cnt st) (evict_cnt st)
    (verbosity st) (cache st) (global_counter st) out.

Lemma wp_vprint st p (Q : unit -> csim -> Prop) :
  (forall out, Q tt (with_out out st)) -> wp (vprint p) st Q.
Proof.
  intros HQ. apply wp_modify. destruct (verbosity st); [apply (HQ (printout st ++ [p]))|].
  replace st with (with_out (printout st) st) by by destruct st. apply HQ.
Qed.

(** The state after the counters and one line of set [k] were updated. *)
Lemma cache_rep_update st m k lines lines' stk t E' h mi e out :
  cache_rep st m ->
  cache st !! k = Some lines -> stacks m !! k = Some stk ->
  E' = Z.to_nat (E st) ->
  set_rep (global_counter st + 1) E' lines' (lru_stack E' t stk) ->
  h + mi = hits m + misses m + 1 -> h + mi <= INT_MAX -> 0 <= e <= mi -> 0 <= h ->
  cache_rep
    (mkCsim (b st) (s st) (E st) (B st) (S_ st) h mi e (verbosity st)
       (<[k := lines']> (cache st)) (global_counter st + 1) out)
    (mkA (<[k := lru_stack E' t stk]> (stacks m)) h mi e).
Proof.
  intros [Hb Hs HE Hsets Hst Hh Hm He Hc Hp Hx] Hk Hsk -> Hset Hsum Hmax He' Hh'.
  split; cbn; try done; try lia.
  - by rewrite length_insert.
  - apply Forall2_insert; [|done].
    eapply Forall2_impl; [exact Hst|]. intros x y. apply set_rep_later. lia.
Qed.

Lemma access_data_wp st m addr :
  cache_rep st m -> 0 <= addr < ULONG_MOD -> hits m + misses m < INT_MAX ->
  wp (access_data addr) st (fun _ st' =>
    cache_rep st' (lru_access (b st) (s st) (Z.to_nat (E st)) m addr) /\
    b st' = b st /\ s st' = s st /\ E st' = E st).
Proof.
  intros Hrep Ha Hroom. pose proof Hrep as [Hb Hs HE Hsets Hst Hh Hm He Hc Hp Hx].
  destruct (addr_split st addr Ha Hb Hs) as (E1 & E2 & E3 & E4 & Hk).
  unfold lru_access, stack_of. set (k := addr_set (b st) (s st) addr) in *.
  set (t := addr_tag (b st) (s st) addr) in *.
  destruct (lookup_lt_is_Some_2 (cache st) k ltac:(lia)) as [lines Hlines].
  destruct (Forall2_lookup_l _ _ _ _ _ Hst Hlines) as (stk & Hstk & Hset).
  rewrite Hstk. cbn [default]. unfold access_data.
  wp_step. apply wp_get. wp_step. eapply wp_lift; [exact E1|].
  wp_step. eapply wp_lift; [exact E2|]. wp_step. eapply wp_lift; [exact E3|].
  rewrite E4, Hlines. unfold incr.
  assert (u64 (global_counter st + 1) = global_counter st + 1) as Hclk.
  { apply u64_id. unfold_bounds. lia. }
  destruct (find_hit lines t 0) as [i|] eqn:Hfind.
  - destruct (set_access_hit _ _ _ _ _ Hset _ Hfind) as [Hin Hset'].
    rewrite (bool_decide_eq_true_2 _ Hin). cbn [negb andb Z.b2z].
    wp_step. eapply wp_lift; [apply sint_ok; unfold_bounds; lia|]. wp_steps.
    unfold touch_line. wp_steps. cbn. rewrite Hclk. unfold set_line. rewrite Hlines.
    apply wp_vprint. intros out. split; [|done].
    rewrite !Z.add_0_r, Hm, He, Hh.
    apply (cache_rep_update st m k lines _ stk t); try done; unfold_bounds; lia.
  - wp_step. eapply wp_lift; [apply sint_ok; unfold_bounds; lia|]. wp_steps.
    apply wp_vprint. intros out.
    destruct (find_invalid lines 0) as [i|] eqn:Hinv.
    + destruct (set_access_fill _ _ _ _ _ Hset _ Hfind Hinv) as (Hin & Hlt & Hset').
      rewrite (bool_decide_eq_false_2 _ Hin), (bool_decide_eq_false_2 (length stk = _)) by lia.
      cbn [negb andb Z.b2z].
      unfold touch_line. wp_steps. cbn. rewrite Hclk. unfold set_line. rewrite Hlines.
      split; [|done]. rewrite !Z.add_0_r, Hm, He, Hh.
      apply (cache_rep_update st m k lines _ stk t); try done; unfold_bounds; lia.
    + wp_step. eapply wp_lift; [apply sint_ok; unfold_bounds; lia|]. wp_steps.
      apply wp_vprint. intros out2.
      destruct lines as [|l0 rest] eqn:Hl.
      { pose proof (sr_len _ _ _ _ Hset) as Hlen. cbn in Hlen. lia. }
      destruct (set_access_evict _ _ _ _ _ Hset _ _ Hfind Hinv eq_refl) as (Hin & Hfull & Hset').
      rewrite (bool_decide_eq_false_2 _ Hin), (bool_decide_eq_true_2 _ Hfull).
      cbn [negb andb Z.b2z].
      unfold touch_line. wp_steps. cbn [cache global_counter with_out set_clock set_counts].
      rewrite Hclk. unfold set_line. rewrite Hlines.
      split; [|done]. rewrite !Z.add_0_r.
      rewrite Hm, He, Hh in *.
      apply (cache_rep_update st m k (l0 :: rest) _ stk t); try done; unfold_bounds; lia.
Qed.

(** ** Replaying a trace *)

(** The accesses that a trace file stands for, as the reading loop sees them. *)
Definition line_accesses (c addr : Z) : list Z :=
  if c =? CH_M then [addr; addr] else [addr].

Fixpoint trace_accesses (fuel : nat) (file buf : list Z) (addr len : Z) : result (list Z) :=
  match fuel with
  | O => Err OutOfFuel
  | S fuel' =>
      match file with
      | [] => Ok []
      | _ =>
          let '(line, rest) := fgets_line 999 file in
          let buf := fill_buf line buf in
          match buf !! 1%nat with
          | None => Err Undefined
          | Some c =>
              if (c =? CH_S) || (c =? CH_L) || (c =? CH_M) then
                '(addr, len) ← scan_access (until_nul (drop 3 buf)) addr len;
                more ← trace_accesses fuel' rest buf addr len;
                Ok (line_accesses c addr ++ more)
              else trace_accesses fuel' rest buf addr len
          end
      end
  end.

Lemma scan_digits_nonneg base acc str : 0 <= base -> 0 <= acc -> 0 <= (scan_digits base acc str).1.
Proof.
  intros Hb. revert acc. induction str as [|c str IH]; intros acc Ha; cbn; [done|].
  unfold base_digit. destruct (digit_val c) as [d|] eqn:Hd; [|done].
  destruct (d <? base); [|done]. apply IH.
  assert (0 <= d); [|nia]. revert Hd. unfold digit_val.
  destruct ((48 <=? c) && (c <=? 57)) eqn:H1; [intros ?; simplify_eq; lia|].
  destruct ((97 <=? c) && (c <=? 102)) eqn:H2; [intros ?; simplify_eq; lia|].
  destruct ((65 <=? c) && (c <=? 70)) eqn:H3; [intros ?; simplify_eq; lia|done].
Qed.

Lemma scan_unsigned_range base w str n rest :
  0 <= base -> 0 < w -> scan_unsigned base w str = Ok (Some (n, rest)) -> 0 <= n < w.
Proof.
  intros Hb Hw. unfold scan_unsigned. destruct (scan_sign (skip_spaces str)) as [neg u].
  match goal with |- (if starts_digit _ ?x then _ else _) = _ -> _ => generalize x; intros y end.
  destruct (starts_digit base y); [|done].
  pose proof (scan_digits_nonneg base 0 y Hb ltac:(lia)) as Hv.
  destruct (scan_digits base 0 y) as [v r]. cbn in Hv.
  destruct (Z.ltb_spec v w); [|done]. intros [= <- <-].
  destruct neg; [by apply Z.mod_pos_bound|lia].
Qed.

Lemma scan_access_range str addr len addr' len' :
  0 <= addr < ULONG_MOD -> scan_access str addr len = Ok (addr', len') -> 0 <= addr' < ULONG_MOD.
Proof.
  intros Ha. unfold scan_access, mbind, result_bind.
  destruct (scan_unsigned 16 ULONG_MOD str) as [[[a rest]|]|] eqn:Hs; [| |done].
  - apply scan_unsigned_range in Hs; [|done|done].
    destruct rest as [|c rest]; [intros ?; by simplify_eq|].
    destruct (c =? 44); [|intros ?; by simplify_eq].
    destruct (scan_unsigned 10 UINT_W rest); [|done]. intros ?; by simplify_eq.
  - intros ?; by simplify_eq.
Qed.

Lemma lru_access_sum b s E m a :
  hits (lru_access b s E m a) + misses (lru_access b s E m a) = hits m + misses m + 1.
Proof. unfold lru_access. cbn. destruct (bool_decide _); cbn; lia. Qed.

Definition same_config (st st' : csim) : Prop := b st' = b st /\ s st' = s st /\ E st' = E st.

Lemma cache_rep_out st m out : cache_rep st m -> cache_rep (with_out out st) m.
Proof. by intros []. Qed.

Lemma access_line_wp st m c addr :
  cache_rep st m -> 0 <= addr < ULONG_MOD ->
  (c =? CH_S) || (c =? CH_L) || (c =? CH_M) = true ->
  hits m + misses m + Z.of_nat (length (line_accesses c addr)) <= INT_MAX ->
  wp (if c =? CH_L then access_data addr
      else if c =? CH_S then access_data addr
      else _ ← access_data addr; access_data addr) st
     (fun _ st' => cache_rep st' (lru_run (b st) (s st) (Z.to_nat (E st)) m (line_accesses c addr)) /\
                   same_config st st').
Proof.
  intros Hrep Ha Hc Hmax. unfold line_accesses in *.
  assert (hits m + misses m < INT_MAX) as H1 by (destruct (c =? CH_M); cbn in Hmax; lia).
  pose proof (access_data_wp st m addr Hrep Ha H1) as Hw.
  destruct (Z.eqb_spec c CH_L) as [->|]; [exact Hw|].
  destruct (Z.eqb_spec c CH_S) as [->|]; [exact Hw|].
  destruct (Z.eqb_spec c CH_M) as [->|]; [|done]. cbn in Hmax.
  wp_step. eapply wp_mono; [exact Hw|]. cbn beta. intros _ st1 (Hrep1 & Eb & Es & EE).
  eapply wp_mono; [apply access_data_wp; [exact Hrep1|done|rewrite lru_access_sum; lia]|].
  cbn beta. intros _ st2 (Hrep2 & Eb2 & Es2 & EE2). rewrite Eb, Es, EE in *.
  split; [exact Hrep2|done].
Qed.

Lemma lru_run_app b s E m l1 l2 : lru_run b s E m (l1 ++ l2) = lru_run b s E (lru_run b s E m l1) l2.
Proof. apply foldl_app. Qed.

Lemma lru_run_sum b s E m l :
  hits (lru_run b s E m l) + misses (lru_run b s E m l) = hits m + misses m + Z.of_nat (length l).
Proof.
  revert m. induction l as [|a l IH]; intros m; cbn; [lia|].
  change (foldl ?f ?x l) with (lru_run b s E x l). rewrite IH, lru_access_sum. lia.
Qed.

Lemma replay_loop_wp fuel file buf addr len accs st m :
  cache_rep st m -> 0 <= addr < ULONG_MOD ->
  trace_accesses fuel file buf addr len = Ok accs ->
  hits m + misses m + Z.of_nat (length accs) <= INT_MAX ->
  wp (replay_loop fuel file buf addr len) st (fun _ st' =>
    cache_rep st' (lru_run (b st) (s st) (Z.to_nat (E st)) m accs) /\ same_config st st').
Proof.
  revert file buf addr len accs st m.
  induction fuel as [|fuel IH]; intros file buf addr len accs st m Hrep Ha Htr Hmax; [done|].
  cbn [replay_loop trace_accesses] in *. destruct file as [|f0 file].
  { simplify_eq. apply wp_ret. by split. }
  destruct (fgets_line 999 (f0 :: file)) as [line rest].
  unfold replay_line. set (buf' := fill_buf line buf) in *. clearbody buf'.
  destruct (buf' !! 1%nat) as [c|]; [|done].
  destruct ((c =? CH_S) || (c =? CH_L) || (c =? CH_M)) eqn:Hc.
  - destruct (scan_access (until_nul (drop 3 buf')) addr len) as [[addr' len']|] eqn:Hscan; [|done].
    apply scan_access_range in Hscan as Ha'; [|done]. unfold mbind, result_bind in Htr.
    destruct (trace_accesses fuel rest buf' addr' len') as [more|] eqn:Hmore; [|done].
    cbn in Htr. injection Htr as <-. rewrite length_app, Nat2Z.inj_add in Hmax.
    wp_step. wp_step. eapply wp_lift; [reflexivity|]. cbn beta iota.
    wp_step. apply wp_vprint. intros out. wp_step.
    eapply wp_mono; [apply (access_line_wp _ m); [by apply cache_rep_out|done|done|lia]|].
    cbn beta. intros _ st1 [Hrep1 (Eb & Es & EE)]. cbn in Hrep1, Eb, Es, EE.
    wp_step. apply wp_vprint. intros out1. apply wp_ret.
    eapply wp_mono; [eapply IH; [by apply cache_rep_out|done|exact Hmore|rewrite lru_run_sum; lia]|].
    cbn beta. intros _ st2 [Hrep2 (Eb2 & Es2 & EE2)]. cbn in *.
    rewrite lru_run_app. rewrite Eb, Es, EE in *. split; [exact Hrep2|by split_and!].
  - wp_step. apply wp_ret. eapply IH; done.
Qed.

(** ** The inclusion property of LRU *)

Lemma filter_take_nodup (l : list Z) t n :
  NoDup l -> take n (filter (fun x => x <> t) (take (S n) l)) = take n (filter (fun x => x <> t) l).
Proof.
  revert n. induction l as [|x l IH]; intros n Hnd; [done|].
  apply NoDup_cons in Hnd as [Hx Hnd]. cbn [take]. rewrite !filter_cons. case_decide.
  - destruct n as [|n]; [done|]. cbn [take]. f_equal. by apply IH.
  - destruct (decide (x = t)) as [->|]; [|done].
    rewrite (filter_neq_id l) by done.
    rewrite filter_neq_id by (intros (i & Hi%list_elem_of_lookup_2 & _)%elem_of_take; done).
    by rewrite take_take, Nat.min_id.
Qed.

(** A bounded stack is a prefix of the unbounded one. *)
Lemma lru_stack_prefix E t l :
  NoDup l -> lru_stack E t (take E l) = take E (t :: filter (fun x => x <> t) l).
Proof.
  intros Hnd. unfold lru_stack. destruct E as [|n]; [done|]. cbn [take]. f_equal.
  by apply filter_take_nodup.
Qed.

(** [m] simulates [E] lines per set of the unbounded stacks [full]. *)
Record prefix_of (E : nat) (full : list (list Z)) (m : amodel) : Prop := {
  po_stacks : stacks m = (take E) <$> full;
  po_nodup : Forall NoDup full
}.

Definition full_access (b s : Z) (full : list (list Z)) (a : Z) : list (list Z) :=
  let k := addr_set b s a in
  let stk := default [] (full !! k) in
  <[k := addr_tag b s a :: filter (fun x => x <> addr_tag b s a) stk]> full.

Lemma prefix_of_access E full m b s a :
  prefix_of E full m -> prefix_of E (full_access b s full a) (lru_access b s E m a).
Proof.
  intros [Hst Hnd]. unfold full_access, lru_access, stack_of.
  set (k := addr_set b s a). set (t := addr_tag b s a).
  assert (default [] (stacks m !! k) = take E (default [] (full !! k))) as Hstk.
  { rewrite Hst, list_lookup_fmap. destruct (full !! k); cbn; [done|]. by rewrite take_nil. }
  assert (NoDup (default [] (full !! k))) as Hn.
  { destruct (full !! k) eqn:Hk; cbn; [|constructor]. by eapply Forall_lookup_1 in Hk. }
  split; cbn.
  - rewrite Hstk, lru_stack_prefix by done. by rewrite Hst, list_fmap_insert.
  - apply Forall_insert; [done|]. apply NoDup_cons. split.
    + intros H%list_elem_of_filter. tauto.
    + by apply NoDup_filter.
Qed.

Lemma elem_of_take_mono (l : list Z) t E1 E2 : (E1 <= E2)%nat -> t ∈ take E1 l -> t ∈ take E2 l.
Proof. intros HE (i & Hi & Hlt)%elem_of_take. apply elem_of_take. exists i. split; [done|lia]. Qed.

Lemma lru_access_mono E1 E2 full m1 m2 b s a :
  (E1 <= E2)%nat -> prefix_of E1 full m1 -> prefix_of E2 full m2 ->
  hits m1 <= hits m2 -> hits (lru_access b s E1 m1 a) <= hits (lru_access b s E2 m2 a).
Proof.
  intros HE [H1 _] [H2 _] Hh. unfold lru_access, stack_of. cbn.
  set (k := addr_set b s a). set (t := addr_tag b s a).
  rewrite H1, H2, !list_lookup_fmap. destruct (full !! k) as [l|]; cbn; [|lia].
  destruct (bool_decide (t ∈ take E1 l)) eqn:H; cbn;
    [|match goal with |- context [Z.b2z ?x] => destruct x end; cbn; lia].
  apply bool_decide_eq_true in H. apply (elem_of_take_mono _ _ _ E2) in H; [|done].
  rewrite bool_decide_eq_true_2 by done. cbn. lia.
Qed.

(** ** Traces in the format of valgrind's lackey *)

(** A data record [" K addr,len"] or an instruction fetch ["I  addr,len"]. *)
Inductive record : Type :=
  | Data (kind addr len : Z)
  | Fetch (addr len : Z).

Definition record_ok (r : record) : bool :=
  match r with
  | Data k a n => ((k =? CH_L) || (k =? CH_S) || (k =? CH_M))
                  && (0 <=? a) && (a <? ULONG_MOD) && (0 <=? n) && (n <? UINT_W)
  | Fetch a n => (0 <=? a) && (0 <=? n)
  end.

Definition print_fields (a n : Z) : list Z := digits 16 a ++ 44 :: digits 10 n.

Definition print_record (r : record) : list Z :=
  match r with
  | Data k a n => 32 :: k :: 32 :: print_fields a n
  | Fetch a n => 73 :: 32 :: 32 :: print_fields a n
  end.

Definition print_trace (rs : list record) : list Z := concat ((fun r => print_record r ++ [10]) <$> rs).

Definition record_accesses (r : record) : list Z :=
  match r with Data k a _ => line_accesses k a | Fetch _ _ => [] end.

(** Lines are shorter than the buffer: fewer than 999 characters. *)
Definition record_fits (r : record) : bool := bool_decide (length (print_record r) < 999)%nat.

Lemma print_fields_all a n :
  Forall (fun c => 44 <= c) (print_fields a n).
Proof.
  unfold print_fields. apply Forall_app. split; [|constructor; [done|]].
  all: eapply Forall_impl; [apply digits_all; lia|]; cbn; lia.
Qed.

Lemma print_record_chars r : Forall (fun c => c <> 10 /\ c <> 0) (print_record r) \/ record_ok r = false.
Proof.
  destruct r as [k a n|a n]; cbn.
  - destruct (_ || _) eqn:Hk; [left|by right].
    assert (k = 76 \/ k = 83 \/ k = 77) as Hk' by (revert Hk; unfold CH_L, CH_S, CH_M; lia).
    do 3 (constructor; [lia|]). eapply Forall_impl; [apply print_fields_all|]. cbn. lia.
  - left. do 3 (constructor; [lia|]). eapply Forall_impl; [apply print_fields_all|]. cbn. lia.
Qed.

(** Scanning the two fields of a line gives them back. *)
Lemma scan_access_print a n addr len :
  0 <= a < ULONG_MOD -> 0 <= n < UINT_W -> scan_access (print_fields a n ++ [10]) addr len = Ok (a, n).
Proof.
  intros Ha Hn. unfold scan_access, print_fields. rewrite <-app_assoc. cbn [app].
  rewrite (scan_unsigned_print 16) by
    first [by right | done | intros _; done | apply starts_digit_other; lia].
  unfold mbind, result_bind. change (44 =? 44) with true. cbn iota.
  rewrite (scan_unsigned_print 10) by first [by left | done | apply starts_digit_other; lia].
  done.
Qed.

(** Reading a printed trace yields the accesses of its records. *)
Lemma trace_accesses_print fuel rs buf addr len :
  (length (print_trace rs) < fuel)%nat ->
  forallb record_ok rs -> forallb record_fits rs ->
  trace_accesses fuel (print_trace rs) buf addr len = Ok (concat (record_accesses <$> rs)).
Proof.
  revert rs buf addr len. induction fuel as [|fuel IH]; intros rs buf addr len Hf Hok Hfit; [lia|].
  destruct rs as [|r rs]; [done|].
  cbn [forallb] in Hok, Hfit. apply andb_prop_elim in Hok as [Hr Hok]. apply andb_prop_elim in Hfit as [Hrf Hfit].
  apply Is_true_true in Hr. apply bool_decide_unpack in Hrf.
  assert (print_trace (r :: rs) = print_record r ++ 10 :: print_trace rs) as Hp.
  { unfold print_trace. cbn. by rewrite <-app_assoc. }
  destruct (print_record_chars r) as [Hch|Hch]; [|congruence].
  apply Forall_and in Hch as [Hnl Hnz].
  rewrite Hp in *. rewrite length_app in Hf. cbn [length] in Hf.
  cbn [trace_accesses]. destruct (print_record r ++ 10 :: print_trace rs) as [|f0 fs] eqn:Hfile.
  { by destruct (print_record r). }
  rewrite <-Hfile, fgets_line_spec by done. unfold fill_buf.
  generalize (drop (S (length (print_record r ++ [10]))) buf). intros junk.
  destruct r as [k a n|a n]; cbn [print_record app] in *.
  - cbn [lookup list_lookup].
    revert Hr. cbn [record_ok]. rewrite !andb_true_iff, !Z.leb_le, !Z.ltb_lt.
    intros ((((Hk & Ha1) & Ha2) & Hn1) & Hn2).
    assert ((k =? CH_S) || (k =? CH_L) || (k =? CH_M) = true) as -> by lia.
    cbn [skipn app]. rewrite drop_0, until_nul_spec; last first.
    { apply Forall_app. split; [|by repeat constructor].
      do 3 apply Forall_cons_1 in Hnz as [_ Hnz]. done. }
    rewrite scan_access_print by done. unfold mbind, result_bind.
    rewrite IH by (done || lia). done.
  - cbn [lookup list_lookup]. change ((32 =? CH_S) || (32 =? CH_L) || (32 =? CH_M)) with false.
    cbn iota. rewrite IH by (done || lia). done.
Qed.

(** ** Start-up and main *)
Lemma entries_replicate n : entries (replicate n empty_line) = [].
Proof. induction n; [done|]. cbn. done. Qed.

Lemma init_sets_ok malloc i n lines :
  (forall j sz, malloc j sz = true) ->
  init_sets malloc i n lines = Ok (replicate n (replicate (Z.to_nat lines) empty_line)).
Proof.
  intros Hm. revert i. induction n as [|n IH]; intros i; [done|].
  cbn [init_sets]. rewrite Hm. cbn [negb]. unfold mbind, result_bind. by rewrite IH.
Qed.

Lemma set_rep_empty E : set_rep 0 E (replicate E empty_line) [].
Proof.
  split; [apply length_replicate|constructor|by rewrite entries_replicate|].
  exists []. rewrite entries_replicate. split_and!; [done|constructor|done].
Qed.

Lemma shl1_int_ok n : 0 <= n < 31 -> shl1_int n = Ok (2 ^ n).
Proof.
  intros. unfold shl1_int. assert ((0 <=? n) && (n <? 31) = true) as -> by lia.
  by rewrite Z.shiftl_1_l.
Qed.

Lemma init_cache_wp malloc st :
  (forall j sz, malloc j sz = true) -> 1 <= b st < 31 -> 1 <= s st < 31 -> 1 <= E st ->
  hit_cnt st = 0 -> miss_cnt st = 0 -> evict_cnt st = 0 -> global_counter st = 0 ->
  wp (init_cache malloc) st (fun _ st' => cache_rep st' (lru_init (s st)) /\ same_config st st').
Proof.
  intros Hm Hb Hs HE Hh Hmi He Hg. unfold init_cache.
  wp_step. apply wp_get. wp_step. eapply wp_lift; [apply shl1_int_ok; lia|].
  wp_step. eapply wp_lift; [apply shl1_int_ok; lia|]. wp_steps. rewrite Hm. cbn [negb].
  wp_step. eapply wp_lift; [by apply init_sets_ok|]. wp_steps.
  split; [|done]. split; cbn; try done; try lia.
  - by rewrite length_replicate.
  - rewrite Hg. apply Forall2_replicate. apply set_rep_empty.
Qed.

(** The options [-s s -E E -b b -t name], with the numbers in decimal. *)
Definition options (s E b : Z) (name : list Z) : list (Z * list Z) :=
  [(115, print_int s); (69, print_int E); (98, print_int b); (116, name)].


Lemma parse_options_wp s0 E0 b0 name st Q :
  0 <= s0 <= INT_MAX -> 0 <= E0 <= INT_MAX -> 0 <= b0 <= INT_MAX ->
  Q (Some name) (set_args b0 s0 E0 (verbosity st) st) ->
  wp (parse_args (options s0 E0 b0 name) None) st Q.
Proof.
  intros Hs HE Hb HQ. unfold options. unfold_bounds.
  cbn [parse_args]. wp_step. apply wp_get. change (115 =? 98) with false. cbn.
  wp_step. eapply wp_lift; [apply atoi_print_int; unfold_bounds; lia|]. wp_step. wp_step.
  wp_step. apply wp_get. cbn.
  wp_step. eapply wp_lift; [apply atoi_print_int; unfold_bounds; lia|]. wp_step. wp_step.
  wp_step. apply wp_get. cbn.
  wp_step. eapply wp_lift; [apply atoi_print_int; unfold_bounds; lia|]. wp_step. wp_step.
  wp_step. apply wp_get. cbn. apply wp_ret. exact HQ.
Qed.

(** A whole run: main reports the counts of the LRU model. *)
Lemma main_run malloc fs buf s0 E0 b0 name bytes accs :
  (forall j sz, malloc j sz = true) -> 1 <= s0 < 31 -> 1 <= b0 < 31 -> 1 <= E0 <= INT_MAX ->
  fs name = Some bytes ->
  trace_accesses (S (length bytes)) bytes buf 0 0 = Ok accs ->
  Z.of_nat (length accs) <= INT_MAX ->
  let r := lru_run b0 s0 (Z.to_nat E0) (lru_init s0) accs in
  wp (main malloc fs buf (options s0 E0 b0 name)) csim0
    (fun out _ => out = (hits r, misses r, evictions r)).
Proof.
  intros Hm Hs Hb HE Hfs Htr Hmax r. unfold main. wp_step.
  apply parse_options_wp; [unfold_bounds; lia..|]. wp_step. apply wp_get. cbn [b s E set_args].
  rewrite !(proj2 (Z.eqb_neq _ _)) by lia. cbn [orb].
  wp_step. eapply wp_mono; [apply init_cache_wp; (done || (cbn; lia))|].
  cbn beta. intros _ st1 [Hrep1 (Eb & Es & EE)]. cbn in Hrep1, Eb, Es, EE.
  wp_step. rewrite Hfs. cbn [replay_trace].
  eapply wp_mono; [eapply replay_loop_wp; [exact Hrep1|done|exact Htr|]|]; [cbn; lia|].
  cbn beta. intros _ st2 [Hrep2 _]. rewrite Eb, Es, EE in Hrep2.
  wp_step. apply wp_modify. wp_steps.
  destruct Hrep2 as [_ _ _ _ _ Eh Em Ee _ _ _]. cbn. by rewrite Eh, Em, Ee.
Qed.

(** Resident lines: what was missed and not evicted is still there. *)
Definition resident (m : amodel) : nat := sum_list (length <$> stacks m).

Record amodel_wf (E : nat) (m : amodel) : Prop := {
  aw_nodup : Forall NoDup (stacks m);
  aw_len : Forall (fun l => (length l <= E)%nat) (stacks m);
  aw_resident : misses m - evictions m = Z.of_nat (resident m);
  aw_pos : 0 <= evictions m
}.

Lemma filter_neq_length (l : list Z) t :
  NoDup l -> t ∈ l -> S (length (filter (fun x => x <> t) l)) = length l.
Proof.
  intros Hnd (l1 & l2 & ->)%list_elem_of_split. rewrite filter_neq_remove by done.
  rewrite !length_app. cbn. lia.
Qed.

Lemma lru_stack_length E t l :
  NoDup l -> (length l <= E)%nat ->
  length (lru_stack E t l) =
    if bool_decide (t ∈ l) then length l
    else if bool_decide (length l = E) then E else S (length l).
Proof.
  intros Hnd Hl. unfold lru_stack. rewrite length_take. cbn [length].
  case_bool_decide as Ht.
  - pose proof (filter_neq_length l t Hnd Ht). lia.
  - rewrite filter_neq_id by done. case_bool_decide; lia.
Qed.

Lemma sum_list_insert (l : list nat) k x y :
  l !! k = Some x -> (sum_list (<[k := y]> l) + x = sum_list l + y)%nat.
Proof.
  revert k. induction l as [|z l IH]; intros [|k] Hk; try done; cbn in *.
  - simplify_eq. lia.
  - specialize (IH k Hk). change (z + sum_list (<[k:=y]> l) + x = z + sum_list l + y)%nat. lia.
Qed.

Lemma lru_access_wf b s E m a :
  (addr_set b s a < length (stacks m))%nat -> amodel_wf E m -> amodel_wf E (lru_access b s E m a).
Proof.
  intros Hk [Hnd Hlen Hr Hp]. unfold lru_access, stack_of.
  set (k := addr_set b s a) in *. set (t := addr_tag b s a).
  destruct (lookup_lt_is_Some_2 _ _ Hk) as [l Hl]. rewrite Hl. cbn [default].
  assert (NoDup l) as Hln by (by eapply Forall_lookup_1 in Hnd).
  assert ((length l <= E)%nat) as Hll by (by eapply (Forall_lookup_1 _ _ _ _ Hlen) in Hl).
  pose proof (lru_stack_length E t l Hln Hll) as Hnl.
  split; cbn.
  - apply Forall_insert; [done|]. unfold lru_stack. eapply sublist_NoDup; [|apply sublist_take]. apply NoDup_cons. split.
    + intros H%list_elem_of_filter. tauto.
    + by apply NoDup_filter.
  - apply Forall_insert; [done|]. unfold lru_stack. rewrite length_take. lia.
  - unfold resident in *. cbn. rewrite list_fmap_insert.
    assert ((length <$> stacks m) !! k = Some (length l)) as Hlk by (by rewrite list_lookup_fmap, Hl).
    pose proof (sum_list_insert _ _ _ (length (lru_stack E t l)) Hlk) as Hsum.
    rewrite Hnl in *. case_bool_decide; cbn; [lia|]. case_bool_decide; cbn; lia.
  - destruct (negb _ && _); cbn; lia.
Qed.

Lemma addr_set_bound b s a : 0 <= s -> (addr_set b s a < Z.to_nat (2 ^ s))%nat.
Proof.
  intros. unfold addr_set. pose proof (Z.mod_pos_bound (a / 2 ^ b) (2 ^ s)). lia.
Qed.

Lemma lru_run_wf b s E m accs :
  0 <= s -> length (stacks m) = Z.to_nat (2 ^ s) -> amodel_wf E m -> amodel_wf E (lru_run b s E m accs).
Proof.
  intros Hs. revert m. induction accs as [|a accs IH]; intros m Hl Hwf; [done|]. cbn.
  apply IH; [cbn; by rewrite length_insert|].
  apply lru_access_wf; [|done]. rewrite Hl. by apply addr_set_bound.
Qed.

Lemma lru_run_length b s E m accs : length (stacks (lru_run b s E m accs)) = length (stacks m).
Proof.
  revert m. induction accs as [|a accs IH]; intros m; [done|]. cbn.
  change (foldl ?f ?x accs) with (lru_run b s E x accs). rewrite IH. cbn. by rewrite length_insert.
Qed.

Lemma amodel_wf_init s E : amodel_wf E (lru_init s).
Proof.
  split; cbn; try done.
  - apply Forall_replicate. constructor.
  - apply Forall_replicate. cbn. lia.
  - unfold resident. cbn. induction (Z.to_nat (2 ^ s)); [done|]. cbn. done.
Qed.

Lemma resident_bound E m : amodel_wf E m -> (resident m <= length (stacks m) * E)%nat.
Proof.
  intros [_ Hl _ _]. unfold resident. induction Hl as [|l ls Hl _ IH]; cbn in *; lia.
Qed.

Lemma lru_run_mono b s E1 E2 accs full m1 m2 :
  (E1 <= E2)%nat -> prefix_of E1 full m1 -> prefix_of E2 full m2 -> hits m1 <= hits m2 ->
  hits (lru_run b s E1 m1 accs) <= hits (lru_run b s E2 m2 accs).
Proof.
  intros HE. revert full m1 m2. induction accs as [|a accs IH]; intros full m1 m2 H1 H2 Hh; [done|].
  cbn. apply (IH (full_access b s full a)); [by apply prefix_of_access..|].
  by eapply lru_access_mono.
Qed.

Lemma prefix_of_init E s : prefix_of E (replicate (Z.to_nat (2 ^ s)) []) (lru_init s).
Proof.
  split; cbn.
  - rewrite fmap_replicate. by rewrite take_nil.
  - apply Forall_replicate. constructor.
Qed.

(** ** Properties *)

(** Both accesses of an [M] record touch the same line, so the second hits. *)
Lemma lru_access_twice b s E m a :
  (0 < E)%nat -> (addr_set b s a < length (stacks m))%nat ->
  let m1 := lru_access b s E m a in
  let m2 := lru_access b s E m1 a in
  hits m2 = hits m1 + 1 /\ misses m2 = misses m1 /\ evictions m2 = evictions m1.
Proof.
  intros HE Hk m1 m2.
  assert (stack_of m1 (addr_set b s a) = lru_stack E (addr_tag b s a) (stack_of m (addr_set b s a))) as Hs1.
  { unfold m1, stack_of at 1, lru_access. cbn. by rewrite list_lookup_insert_eq. }
  unfold m2, lru_access. rewrite Hs1, bool_decide_eq_true_2; [cbn; lia|].
  destruct E as [|E]; [lia|]. apply list_elem_of_here.
Qed.

(** C4: for every trace file whose records fit the line buffer, and every
    geometry that main accepts (s and b from 1 to 30, any positive E), with
    malloc succeeding and at most INT_MAX accesses, the program terminates
    without fault and the summary it prints is what one LRU stack per set
    counts on the file's accesses (one per load or store, two per modify,
    none per instruction fetch). *)
Theorem csim_counts malloc fs buf s0 E0 b0 name rs :
  (forall j sz, malloc j sz = true) -> 1 <= s0 < 31 -> 1 <= b0 < 31 -> 1 <= E0 <= INT_MAX ->
  forallb record_ok rs -> forallb record_fits rs -> fs name = Some (print_trace rs) ->
  Z.of_nat (length (concat (record_accesses <$> rs))) <= INT_MAX ->
  let r := lru_run b0 s0 (Z.to_nat E0) (lru_init s0) (concat (record_accesses <$> rs)) in
  exists st, main malloc fs buf (options s0 E0 b0 name) csim0
             = Ok ((hits r, misses r, evictions r), st).
Proof.
  intros Hm Hs Hb HE Hok Hfit Hfs Hmax r.
  destruct (main_run malloc fs buf s0 E0 b0 name _ _ Hm Hs Hb HE Hfs
              (trace_accesses_print _ rs buf 0 0 (Nat.lt_succ_diag_r _) Hok Hfit) Hmax) as (out & st & Hrun & ->).
  by exists st.
Qed.

(** The trace of the witnesses: two loads of conflicting blocks, a modify, a store. *)
Definition sample_trace : list record :=
  [Data 76 16 4; Fetch 4096 3; Data 76 48 8; Data 77 16 4; Data 83 80 1; Data 76 255 1].
Definition sample_fs (name : list Z) : option (list Z) :=
  if bool_decide (name = chr "t") then Some (print_trace sample_trace) else None.

Lemma csim_counts_witness :
  let r := lru_run 4 1 (Z.to_nat 2) (lru_init 1) (concat (record_accesses <$> sample_trace)) in
  (hits r, misses r, evictions r) = (2, 4, 2) /\
  exists st, main (fun _ _ => true) sample_fs (replicate 1000 7) (options 1 2 4 (chr "t")) csim0
             = Ok ((hits r, misses r, evictions r), st).
Proof.
  cbn zeta. split; [vm_compute; reflexivity|].
  apply (csim_counts (fun _ _ => true) sample_fs (replicate 1000 7) 1 2 4 (chr "t") sample_trace);
    first [done | unfold_bounds; lia | vm_compute; done | idtac].
Defined.

(** C5: LRU inclusion: on the same trace and the same sets and blocks, the
    program never reports fewer hits or more misses with more lines per set. *)
Theorem csim_inclusion malloc fs buf s0 E1 E2 b0 name rs :
  (forall j sz, malloc j sz = true) -> 1 <= s0 < 31 -> 1 <= b0 < 31 -> 1 <= E1 <= E2 -> E2 <= INT_MAX ->
  forallb record_ok rs -> forallb record_fits rs -> fs name = Some (print_trace rs) ->
  Z.of_nat (length (concat (record_accesses <$> rs))) <= INT_MAX ->
  exists h1 m1 e1 st1 h2 m2 e2 st2,
    main malloc fs buf (options s0 E1 b0 name) csim0 = Ok ((h1, m1, e1), st1) /\
    main malloc fs buf (options s0 E2 b0 name) csim0 = Ok ((h2, m2, e2), st2) /\
    h1 <= h2 /\ m2 <= m1.
Proof.
  intros Hm Hs Hb HE HE2 Hok Hfit Hfs Hmax.
  pose proof (fun n => trace_accesses_print (S (length (print_trace rs))) rs buf 0 0 n Hok Hfit) as Htr.
  specialize (Htr ltac:(lia)).
  destruct (main_run malloc fs buf s0 E1 b0 name _ _ Hm Hs Hb ltac:(lia) Hfs Htr Hmax)
    as (? & st1 & Hrun1 & ->).
  destruct (main_run malloc fs buf s0 E2 b0 name _ _ Hm Hs Hb ltac:(lia) Hfs Htr Hmax)
    as (? & st2 & Hrun2 & ->).
  do 8 eexists. split; [exact Hrun1|]. split; [exact Hrun2|].
  set (accs := concat _).
  pose proof (lru_run_mono b0 s0 (Z.to_nat E1) (Z.to_nat E2) accs _ _ _ ltac:(lia)
                (prefix_of_init _ s0) (prefix_of_init _ s0) ltac:(done)) as Hmono.
  pose proof (lru_run_sum b0 s0 (Z.to_nat E1) (lru_init s0) accs).
  pose proof (lru_run_sum b0 s0 (Z.to_nat E2) (lru_init s0) accs). cbn in *. lia.
Qed.

Lemma csim_inclusion_witness :
  exists h1 m1 e1 st1 h2 m2 e2 st2,
    main (fun _ _ => true) sample_fs (replicate 1000 7) (options 1 1 4 (chr "t")) csim0
      = Ok ((h1, m1, e1), st1) /\
    main (fun _ _ => true) sample_fs (replicate 1000 7) (options 1 4 4 (chr "t")) csim0
      = Ok ((h2, m2, e2), st2) /\
    h1 <= h2 /\ m2 <= m1.
Proof.
  apply (csim_inclusion (fun _ _ => true) sample_fs (replicate 1000 7) 1 1 4 4 (chr "t") sample_trace);
    first [done | unfold_bounds; lia | vm_compute; done | idtac].
Defined.

(** The summary's numbers add up: hits and misses are the accesses of the
    trace, evictions are at most misses, and what missed without evicting is
    still resident, so it fits the 2^s * E lines of the cache. *)
Theorem csim_accounting malloc fs buf s0 E0 b0 name rs :
  (forall j sz, malloc j sz = true) -> 1 <= s0 < 31 -> 1 <= b0 < 31 -> 1 <= E0 <= INT_MAX ->
  forallb record_ok rs -> forallb record_fits rs -> fs name = Some (print_trace rs) ->
  Z.of_nat (length (concat (record_accesses <$> rs))) <= INT_MAX ->
  exists h m e st,
    main malloc fs buf (options s0 E0 b0 name) csim0 = Ok ((h, m, e), st) /\
    h + m = Z.of_nat (length (concat (record_accesses <$> rs))) /\
    0 <= e /\ 0 <= m - e <= 2 ^ s0 * E0.
Proof.
  intros Hm Hs Hb HE Hok Hfit Hfs Hmax.
  destruct (main_run malloc fs buf s0 E0 b0 name _ _ Hm Hs Hb HE Hfs
              (trace_accesses_print _ rs buf 0 0 (Nat.lt_succ_diag_r _) Hok Hfit) Hmax) as (out & st & Hrun & ->).
  do 4 eexists. split; [exact Hrun|]. set (accs := concat _).
  pose proof (lru_run_sum b0 s0 (Z.to_nat E0) (lru_init s0) accs) as Hsum. cbn in Hsum.
  assert (amodel_wf (Z.to_nat E0) (lru_run b0 s0 (Z.to_nat E0) (lru_init s0) accs)) as Hwf.
  { apply lru_run_wf; [lia|cbn; by rewrite length_replicate|apply amodel_wf_init]. }
  pose proof (resident_bound _ _ Hwf) as Hres. rewrite lru_run_length in Hres. cbn in Hres.
  rewrite length_replicate in Hres. destruct Hwf as [_ _ Hr Hp].
  assert (0 < 2 ^ s0) by (apply Z.pow_pos_nonneg; lia). split; [lia|]. split; [done|]. nia.
Qed.

Lemma csim_accounting_witness :
  exists h m e st,
    main (fun _ _ => true) sample_fs (replicate 1000 7) (options 1 2 4 (chr "t")) csim0
      = Ok ((h, m, e), st) /\
    h + m = 6 /\ 0 <= e /\ 0 <= m - e <= 2 ^ 1 * 2.
Proof.
  apply (csim_accounting (fun _ _ => true) sample_fs (replicate 1000 7) 1 2 4 (chr "t") sample_trace);
    first [done | unfold_bounds; lia | vm_compute; done | idtac].
Defined.

(** An [M] record (a load and a store of one address): from any
    consistent cache, the second [access_data] always hits; it changes neither
    the miss nor the eviction count. *)
Theorem modify_second_hits st m addr :
  cache_rep st m -> 0 <= addr < ULONG_MOD -> hits m + misses m + 2 <= INT_MAX ->
  exists st1 st2, access_data addr st = Ok (tt, st1) /\ access_data addr st1 = Ok (tt, st2) /\
    hit_cnt st2 = hit_cnt st1 + 1 /\ miss_cnt st2 = miss_cnt st1 /\ evict_cnt st2 = evict_cnt st1.
Proof.
  intros Hrep Ha Hmax.
  destruct (access_data_wp st m addr Hrep Ha ltac:(lia)) as ([] & st1 & H1 & Hrep1 & Eb & Es & EE).
  destruct (access_data_wp st1 _ addr Hrep1 Ha) as ([] & st2 & H2 & Hrep2 & _); [rewrite lru_access_sum; lia|].
  exists st1, st2. rewrite Eb, Es, EE in Hrep2.
  destruct (lru_access_twice (b st) (s st) (Z.to_nat (E st)) m addr) as (Eh & Em & Ee).
  - destruct Hrep. lia.
  - destruct Hrep as [_ ? _ Hl Hst _ _ _ _ _ _]. rewrite <-(Forall2_length _ _ _ Hst), Hl.
    apply addr_set_bound. lia.
  - destruct Hrep1 as [_ _ _ _ _ -> -> -> _ _ _], Hrep2 as [_ _ _ _ _ -> -> -> _ _ _]. done.
Qed.

(** A two-set cache of two lines that holds tag 0 in set 1. *)
Definition sample_csim : csim :=
  mkCsim 4 1 2 16 2 0 1 0 true [[empty_line; empty_line]; [mkLine true 0 1; empty_line]] 1 [].

Lemma sample_csim_rep : cache_rep sample_csim (mkA [[]; [0]] 0 1 0).
Proof.
  split; cbn; try done; try (unfold_bounds; lia).
  constructor; [|constructor; [|constructor]].
  - split; [done|constructor|constructor|]. exists []. split_and!; [done|constructor|done].
  - split; [done|by apply NoDup_singleton|by repeat constructor|].
    exists [(0, 1)]. split_and!; [done|by repeat constructor|done].
Defined.

Lemma modify_second_hits_witness :
  exists st1 st2, access_data 48 sample_csim = Ok (tt, st1) /\ access_data 48 st1 = Ok (tt, st2) /\
    hit_cnt st2 = hit_cnt st1 + 1 /\ miss_cnt st2 = miss_cnt st1 /\ evict_cnt st2 = evict_cnt st1.
Proof.
  apply (modify_second_hits sample_csim _ 48 sample_csim_rep); unfold_bounds; cbn; lia.
Defined.

(** A run without a trace file, or with s, E or b equal to 0, prints the
    usage text and ends with exit status 0: [print_usage] itself calls
    [exit(0)], so the [exit(1)] after it is never reached. *)
Theorem missing_argument_exits_zero malloc fs buf s0 E0 b0 name :
  0 <= s0 <= INT_MAX -> 0 <= E0 <= INT_MAX -> 0 <= b0 <= INT_MAX ->
  s0 = 0 \/ E0 = 0 \/ b0 = 0 ->
  main malloc fs buf (options s0 E0 b0 name) csim0 = Err (Exit 0) /\
  main malloc fs buf [] csim0 = Err (Exit 0).
Proof.
  intros Hs HE Hb H0. split; [|done]. unfold main.
  destruct (parse_options_wp s0 E0 b0 name csim0 (fun a st => a = Some name /\ st = set_args b0 s0 E0 false csim0)
              Hs HE Hb ltac:(done)) as (a & st & Hp & -> & ->).
  unfold mbind, M_bind. rewrite Hp. cbn.
  assert ((s0 =? 0) || (E0 =? 0) || (b0 =? 0) = true) as -> by lia. done.
Qed.

Lemma missing_argument_exits_zero_witness :
  main (fun _ _ => true) sample_fs [] (options 1 0 4 (chr "t")) csim0 = Err (Exit 0) /\
  main (fun _ _ => true) sample_fs [] [] csim0 = Err (Exit 0).
Proof.
  apply (missing_argument_exits_zero (fun _ _ => true) sample_fs [] 1 0 4 (chr "t")); unfold_bounds; lia.
Defined.
