(* ===== verification/MagicSquare.v ===== *)
(** * Magic squares, 底层系统/misc-algorithms/my_magic_square.c

    Operations: [getSize], [generateMagicSquare], [fileOutputMagicSquare] and
    [main].  The heap-allocated square is its list of rows.  The specification
    is that of a magic square; the proof goes through the closed form of the
    Siamese method. *)
From S2P Require Import Prelude Text.

#[warnings="-notation-for-abbreviation"] Notation grid := (list (list Z)).

Record MagicSquare : Type := mkMS { size : Z; magic_square : grid }.

(** The element [c] of row [r], by pointer arithmetic, and the store to it. *)
Definition cell (g : grid) (r c : Z) : result Z :=
  if (r <? 0) || (c <? 0) then Err Undefined else
  match g !! Z.to_nat r with
  | Some row => match row !! Z.to_nat c with Some v => Ok v | None => Err Undefined end
  | None => Err Undefined
  end.

Definition set_cell (g : grid) (r c v : Z) : result grid :=
  _ ← cell g r c;
  match g !! Z.to_nat r with
  | Some row => Ok (<[Z.to_nat r := <[Z.to_nat c := v]> row]> g)
  | None => Err Undefined
  end.

(** ** getSize *)
Definition getSize (stdin : list Z) : result Z :=
  r ← scan_int stdin;
  match r with
  | None => Err (Exit 1)
  | Some size =>
      if size <? 3 then Err (Exit 1)
      else if Z.rem size 2 =? 0 then Err (Exit 1)
      else Ok size
  end.

(** ** generateMagicSquare *)

(** The rows, zeroed; [malloc i] tells whether the i-th allocation succeeds. *)
Fixpoint alloc_rows (malloc : nat -> bool) (i k : nat) (n : Z) : result grid :=
  match k with
  | O => Ok []
  | S k' =>
      if negb (malloc i) then Err (Exit 1) else
      rest ← alloc_rows malloc (S i) k' n;
      Ok (replicate (Z.to_nat n) 0 :: rest)
  end.

(** The position after [(row, col)]: up and right, or down when that cell is taken. *)
Definition next_position (n : Z) (g : grid) (row col : Z) : result (Z * Z) :=
  up ← sint (row - 1 + n);
  let next_row := Z.rem up n in
  let next_col := Z.rem (col + 1) n in
  taken ← cell g next_row next_col;
  if negb (taken =? 0) then Ok (Z.rem (row + 1) n, col) else Ok (next_row, next_col).

Fixpoint siamese (fuel : nat) (n num row col : Z) (g : grid) : result grid :=
  match fuel with
  | O => Err OutOfFuel
  | S fuel' =>
      nn ← sint (n * n);
      if num <=? nn then
        g ← set_cell g row col num;
        '(next_row, next_col) ← next_position n g row col;
        num' ← sint (num + 1);
        siamese fuel' n num' next_row next_col g
      else Ok g
  end.

Definition generateMagicSquare (malloc : nat -> bool) (n : Z) : result MagicSquare :=
  if negb (malloc 0%nat) then Err (Exit 1) else
  if negb (malloc 1%nat) then Err (Exit 1) else
  rows ← alloc_rows malloc 2 (Z.to_nat n) n;
  g ← siamese (S (Z.to_nat (n * n))) n 1 0 (Z.quot n 2) rows;
  Ok (mkMS n g).

(** ** fileOutputMagicSquare

    Yields the bytes of the output file.  [fopen] and [fclose] tell whether the
    file can be opened for writing and whether closing it succeeds; a failing
    [fprintf] is not looked at by the code. *)
Fixpoint print_row (row : list Z) : list Z :=
  match row with
  | [] => []
  | [v] => print_int v
  | v :: row' => print_int v ++ 44 :: print_row row'
  end.

Definition fileOutputMagicSquare (fopen fclose : bool) (ms : MagicSquare) : result (list Z) :=
  if negb fopen then Err (Exit 1) else
  let fp := print_int (size ms) ++ 10 :: concat ((fun row => print_row row ++ [10]) <$> magic_square ms) in
  if negb fclose then Err (Exit 1) else Ok fp.

(** [main] yields the contents of the output file. *)
Definition main (argc : Z) (malloc : nat -> bool) (fopen fclose : bool) (stdin : list Z) : result (list Z) :=
  if negb (argc =? 2) then Err (Exit 1) else
  size ← getSize stdin;
  ms ← generateMagicSquare malloc size;
  fileOutputMagicSquare fopen fclose ms.

(** ** Specification *)
Definition sumZ (l : list Z) : Z := foldr Z.add 0 l.

Definition column (g : grid) (j : nat) : list Z := (fun row => row !!! j) <$> g.
Definition diagonal (g : grid) : list Z := imap (fun i row => row !!! i) g.
Definition antidiagonal (g : grid) : list Z := imap (fun i row => row !!! (length g - 1 - i)%nat) g.

Record magic (n : Z) (g : grid) : Prop := {
  mg_rows : length g = Z.to_nat n;
  mg_cols : Forall (fun row => length row = Z.to_nat n) g;
  mg_perm : concat g ≡ₚ seqZ 1 (n * n);
  mg_row_sums : Forall (fun row => 2 * sumZ row = n * (n * n + 1)) g;
  mg_col_sums : forall j, (j < Z.to_nat n)%nat -> 2 * sumZ (column g j) = n * (n * n + 1);
  mg_diag : 2 * sumZ (diagonal g) = n * (n * n + 1);
  mg_anti : 2 * sumZ (antidiagonal g) = n * (n * n + 1)
}.

(** ** Tables *)
Definition tab (n : Z) (f : Z -> Z -> Z) : grid := (fun i => f i <$> seqZ 0 n) <$> seqZ 0 n.

Definition upd (f : Z -> Z -> Z) (r c v : Z) : Z -> Z -> Z :=
  fun i j => if decide (i = r /\ j = c) then v else f i j.

Lemma seqZ0_lookup n i : 0 <= i < n -> seqZ 0 n !! Z.to_nat i = Some i.
Proof. intros. apply lookup_seqZ. lia. Qed.

Lemma tab_row n f i : 0 <= i < n -> tab n f !! Z.to_nat i = Some (f i <$> seqZ 0 n).
Proof. intros. unfold tab. by rewrite list_lookup_fmap, seqZ0_lookup. Qed.

Lemma cell_tab n f r c : 0 <= r < n -> 0 <= c < n -> cell (tab n f) r c = Ok (f r c).
Proof.
  intros Hr Hc. unfold cell. rewrite !(proj2 (Z.ltb_ge _ _)) by lia. cbn [orb].
  rewrite tab_row by done. cbn iota. by rewrite list_lookup_fmap, seqZ0_lookup.
Qed.

Lemma tab_ext n f f' : (forall i j, 0 <= i < n -> 0 <= j < n -> f i j = f' i j) -> tab n f = tab n f'.
Proof.
  intros H. unfold tab. apply list_fmap_ext. intros k i Hi%lookup_seqZ.
  apply list_fmap_ext. intros k' j Hj%lookup_seqZ. apply H; lia.
Qed.

(** Updating an entry of a list that tabulates a function. *)
Lemma fmap_seqZ_insert {A} (f f' : Z -> A) n i v :
  0 <= i < n -> f' i = v -> (forall j, 0 <= j < n -> j <> i -> f' j = f j) ->
  <[Z.to_nat i := v]> (f <$> seqZ 0 n) = f' <$> seqZ 0 n.
Proof.
  intros Hi Hv Hf. apply list_eq. intros k.
  destruct (decide (k = Z.to_nat i)) as [->|Hk].
  - rewrite list_lookup_insert_eq by (rewrite length_fmap, length_seqZ; lia).
    by rewrite list_lookup_fmap, seqZ0_lookup, <-Hv.
  - rewrite list_lookup_insert_ne by done. rewrite !list_lookup_fmap.
    destruct (seqZ 0 n !! k) as [j|] eqn:Hj; [|done]. apply lookup_seqZ in Hj as [-> ?].
    cbn. f_equal. symmetry. apply Hf; lia.
Qed.

Lemma set_cell_tab n f r c v :
  0 <= r < n -> 0 <= c < n -> set_cell (tab n f) r c v = Ok (tab n (upd f r c v)).
Proof.
  intros Hr Hc. unfold set_cell. rewrite cell_tab by done. unfold mbind, result_bind.
  rewrite tab_row by done. cbn iota. f_equal. unfold tab at 1.
  rewrite (fmap_seqZ_insert (f r) (upd f r c v r)); [|done|unfold upd; by rewrite decide_True|].
  - apply fmap_seqZ_insert; [done|done|]. intros j Hj Hne. apply list_fmap_ext.
    intros k x _. unfold upd. by rewrite decide_False by tauto.
  - intros j Hj Hne. unfold upd. by rewrite decide_False by tauto.
Qed.

Lemma alloc_rows_ok malloc i n k :
  (forall j, malloc j = true) -> alloc_rows malloc i k n = Ok (replicate k (replicate (Z.to_nat n) 0)).
Proof.
  intros Hm. revert i. induction k as [|k IH]; intros i; [done|].
  cbn [alloc_rows]. rewrite Hm. cbn [negb]. unfold mbind, result_bind. by rewrite IH.
Qed.

Lemma replicate_tab n : 0 <= n -> replicate (Z.to_nat n) (replicate (Z.to_nat n) 0) = tab n (fun _ _ => 0).
Proof.
  intros. unfold tab. symmetry. rewrite (const_fmap _ _ (replicate (Z.to_nat n) 0)).
  - f_equal. rewrite length_seqZ. lia.
  - intros x. rewrite (const_fmap _ _ 0) by done. by rewrite length_seqZ.
Qed.

(** ** Closed form of the Siamese method

    Number [k + 1] is the [k mod n]-th of the [k / n]-th diagonal run. *)
Section siamese.
Context (n : Z) (Hn : 0 < n).

Definition qpos (i j : Z) : Z := (i + j - n / 2) mod n.
Definition rpos (i j : Z) : Z := (i + 2 * (j - n / 2)) mod n.
Definition val (i j : Z) : Z := qpos i j * n + rpos i j + 1.
Definition prow (k : Z) : Z := (2 * (k / n) - k mod n) mod n.
Definition pcol (k : Z) : Z := (n / 2 - k / n + k mod n) mod n.

Lemma mod_cong x y k : x = y + k * n -> x mod n = y mod n.
Proof using Hn. intros ->. apply Z_mod_plus_full. Qed.

Lemma mod_repr x : x mod n = x + (- (x / n)) * n.
Proof using Hn. pose proof (Z.div_mod x n). lia. Qed.

Lemma mod_in x : 0 <= x mod n < n.
Proof using Hn. apply Z.mod_pos_bound. done. Qed.

Lemma val_range i j : 1 <= val i j <= n * n.
Proof using Hn. unfold val, qpos, rpos. pose proof (mod_in (i + j - n / 2)).
  pose proof (mod_in (i + 2 * (j - n / 2))). nia. Qed.

Lemma div_mod_unique q r : 0 <= r < n -> (q * n + r) / n = q /\ (q * n + r) mod n = r.
Proof using Hn.
  intros. rewrite Z.add_comm, Z.div_add, Z.div_small, Z_mod_plus_full, Z.mod_small by lia. lia.
Qed.

Lemma val_pos k : 0 <= k < n * n -> val (prow k) (pcol k) = k + 1.
Proof using Hn.
  intros Hk. unfold val, qpos, rpos, prow, pcol.
  set (q := k / n). set (r := k mod n). set (h := n / 2).
  assert (0 <= q < n) as Hq.
  { split; [apply Z.div_pos; lia|apply Z.div_lt_upper_bound; lia]. }
  pose proof (mod_in k) as Hr. fold r in Hr.
  assert (k = q * n + r) as Ek by (pose proof (Z.div_mod k n); lia).
  assert (((2 * q - r) mod n + (h - q + r) mod n - h) mod n = q) as ->.
  { rewrite <-(Z.mod_small q n) at 3 by done.
    rewrite (mod_repr (2 * q - r)), (mod_repr (h - q + r)).
    apply (mod_cong _ _ (- ((2 * q - r) / n) - (h - q + r) / n)). lia. }
  assert (((2 * q - r) mod n + 2 * ((h - q + r) mod n - h)) mod n = r) as ->.
  { rewrite <-(Z.mod_small r n) at 3 by done.
    rewrite (mod_repr (2 * q - r)), (mod_repr (h - q + r)).
    apply (mod_cong _ _ (- ((2 * q - r) / n) - 2 * ((h - q + r) / n))). lia. }
  lia.
Qed.

Lemma pos_val i j : 0 <= i < n -> 0 <= j < n -> prow (val i j - 1) = i /\ pcol (val i j - 1) = j.
Proof using Hn.
  intros Hi Hj. unfold val. rewrite Z.add_simpl_r.
  unfold prow, pcol.
  destruct (div_mod_unique (qpos i j) (rpos i j)) as [-> ->]; [apply mod_in|].
  unfold qpos, rpos. set (h := n / 2).
  rewrite (mod_repr (i + j - h)), (mod_repr (i + 2 * (j - h))). split.
  - rewrite <-(Z.mod_small i n) at 5 by done.
    apply (mod_cong _ _ (-2 * ((i + j - h) / n) + (i + 2 * (j - h)) / n)). lia.
  - rewrite <-(Z.mod_small j n) at 5 by done.
    apply (mod_cong _ _ ((i + j - h) / n - (i + 2 * (j - h)) / n)). lia.
Qed.

(** The square after [k] numbers were placed. *)
Definition partial (k i j : Z) : Z := if val i j <=? k then val i j else 0.

Lemma partial_step k : 0 <= k < n * n ->
  tab n (upd (partial k) (prow k) (pcol k) (k + 1)) = tab n (partial (k + 1)).
Proof using Hn.
  intros Hk. apply tab_ext. intros i j Hi Hj. unfold upd, partial.
  destruct (pos_val i j Hi Hj) as [Ei Ej]. pose proof (val_pos k Hk) as Ev.
  destruct (decide (i = prow k /\ j = pcol k)) as [[-> ->]|Hne].
  - rewrite Ev. by rewrite Z.leb_refl.
  - assert (val i j <> k + 1) by (intros E; rewrite E, Z.add_simpl_r in Ei; rewrite E, Z.add_simpl_r in Ej; auto).
    destruct (Z.leb_spec (val i j) k), (Z.leb_spec (val i j) (k + 1)); lia.
Qed.

(** The next position of the code is that of the next number. *)
Lemma next_position_spec k :
  0 <= k < n * n -> n <= 46340 ->
  next_position n (tab n (partial (k + 1))) (prow k) (pcol k) = Ok (prow (k + 1), pcol (k + 1)).
Proof using Hn.
  intros Hk Hmax. unfold next_position.
  pose proof (mod_in (2 * (k / n) - k mod n)) as Hrow. fold (prow k) in Hrow.
  pose proof (mod_in (n / 2 - k / n + k mod n)) as Hcol. fold (pcol k) in Hcol.
  rewrite sint_ok by (unfold_bounds; lia). unfold mbind, result_bind.
  rewrite !Z.rem_mod_nonneg by lia.
  pose proof (mod_in (prow k - 1 + n)) as Hup. pose proof (mod_in (pcol k + 1)) as Hright.
  rewrite cell_tab by done.
  set (q := k / n) in *. set (r := k mod n) in *. set (h := n / 2) in *.
  assert (k = q * n + r) as Ek by (pose proof (Z.div_mod k n); lia).
  pose proof (mod_in k) as Hr. fold r in Hr.
  assert (0 <= q < n) as Hq.
  { split; [apply Z.div_pos; lia|apply Z.div_lt_upper_bound; lia]. }
  destruct (decide (r = n - 1)) as [Er|Er].
  - assert ((prow k - 1 + n) mod n = prow (q * n)) as E1.
    { unfold prow at 2. destruct (div_mod_unique q 0) as [E0 E0']; [lia|]. rewrite Z.add_0_r in E0, E0'.
      rewrite E0, E0'. unfold prow. fold q r. rewrite (mod_repr (2 * q - r)).
      apply (mod_cong _ _ (- ((2 * q - r) / n))). lia. }
    assert ((pcol k + 1) mod n = pcol (q * n)) as E2.
    { unfold pcol at 2. destruct (div_mod_unique q 0) as [E0 E0']; [lia|]. rewrite Z.add_0_r in E0, E0'.
      rewrite E0, E0'. unfold pcol. fold q r h. rewrite (mod_repr (h - q + r)).
      apply (mod_cong _ _ (- ((h - q + r) / n) + 1)). lia. }
    rewrite E1, E2. unfold partial. rewrite val_pos by nia.
    rewrite (proj2 (Z.leb_le _ _)) by lia. rewrite (proj2 (Z.eqb_neq _ 0)) by nia. cbn [negb].
    f_equal. unfold prow at 2, pcol at 2.
    replace (k + 1) with ((q + 1) * n + 0) by lia.
    destruct (div_mod_unique (q + 1) 0) as [-> ->]; [lia|]. f_equal.
    + unfold prow. fold q r. rewrite (mod_repr (2 * q - r)).
      apply (mod_cong _ _ (- ((2 * q - r) / n) - 1)). lia.
    + unfold pcol. fold q r h. apply (mod_cong _ _ 1). lia.
  - assert ((k + 1) / n = q /\ (k + 1) mod n = r + 1) as [Eq' Er'].
    { replace (k + 1) with (q * n + (r + 1)) by lia. apply div_mod_unique. lia. }
    assert ((prow k - 1 + n) mod n = prow (k + 1)) as ->.
    { unfold prow at 2. rewrite Eq', Er'. unfold prow. fold q r. rewrite (mod_repr (2 * q - r)).
      apply (mod_cong _ _ (- ((2 * q - r) / n) + 1)). lia. }
    assert ((pcol k + 1) mod n = pcol (k + 1)) as ->.
    { unfold pcol at 2. rewrite Eq', Er'. unfold pcol. fold q r h. rewrite (mod_repr (h - q + r)).
      apply (mod_cong _ _ (- ((h - q + r) / n))). lia. }
    unfold partial. destruct (decide (k + 1 < n * n)) as [Hlt|Hge].
    + rewrite val_pos by lia. rewrite (proj2 (Z.leb_gt _ _)) by lia. done.
    + exfalso. nia.
Qed.

Lemma siamese_spec fuel k :
  0 <= k <= n * n -> n <= 46340 -> n * n - k < Z.of_nat fuel ->
  siamese fuel n (k + 1) (prow k) (pcol k) (tab n (partial k)) = Ok (tab n val).
Proof using Hn.
  revert k. induction fuel as [|fuel IH]; intros k Hk Hmax Hf; [lia|]. cbn [siamese].
  rewrite (sint_ok (n * n)) by (unfold_bounds; nia). unfold mbind, result_bind.
  destruct (decide (k + 1 <= n * n)).
  - rewrite (proj2 (Z.leb_le (k + 1) (n * n))) by done. rewrite set_cell_tab by apply mod_in. rewrite partial_step by lia.
    rewrite next_position_spec by lia. rewrite sint_ok by (unfold_bounds; nia).
    apply IH; lia.
  - rewrite (proj2 (Z.leb_gt (k + 1) (n * n))) by lia.
    f_equal. apply tab_ext. intros i j _ _. unfold partial. pose proof (val_range i j).
    by rewrite (proj2 (Z.leb_le _ _)) by lia.
Qed.

End siamese.

(** ** Sums *)
Lemma sumZ_perm l1 l2 : l1 ≡ₚ l2 -> sumZ l1 = sumZ l2.
Proof. unfold sumZ. induction 1; cbn [foldr] in *; lia. Qed.

Lemma sumZ_fmap_affine {A} (f g : A -> Z) (l : list A) m :
  sumZ ((fun x => f x * m + g x + 1) <$> l) = sumZ (f <$> l) * m + sumZ (g <$> l) + Z.of_nat (length l).
Proof. unfold sumZ. induction l as [|x l IH]; cbn [fmap list_fmap foldr length] in *; lia. Qed.

Lemma sumZ_fmap_const_pair {A} (f g : A -> Z) (l : list A) m :
  (forall x, x ∈ l -> f x + g x = m) -> sumZ (f <$> l) + sumZ (g <$> l) = m * Z.of_nat (length l).
Proof.
  induction l as [|x l IH]; intros H; [cbn; lia|].
  pose proof (H x ltac:(set_solver)). pose proof (IH ltac:(set_solver)).
  unfold sumZ in *. cbn [fmap list_fmap foldr length] in *. lia.
Qed.

Section sums.
Context (n : Z) (Hn : 0 < n).

(** An affine map with invertible coefficient permutes the residues. *)
Lemma perm_affine a c :
  (forall d, (n | c * d) -> (n | d)) -> (fun j => (a + c * j) mod n) <$> seqZ 0 n ≡ₚ seqZ 0 n.
Proof using Hn.
  intros Hc. apply submseteq_length_Permutation; [|by rewrite length_fmap].
  apply NoDup_submseteq.
  - apply NoDup_fmap_2_strong; [|apply NoDup_seqZ].
    intros x y Hx%elem_of_seqZ Hy%elem_of_seqZ E. cbn beta in E.
    assert ((n | c * (x - y))) as Hd.
    { exists ((a + c * x) / n - (a + c * y) / n).
      pose proof (Z.div_mod (a + c * x) n). pose proof (Z.div_mod (a + c * y) n). lia. }
    destruct (Hc _ Hd) as [k Hk].
    assert (k = 0) as -> by (destruct (Z.lt_trichotomy k 0) as [?|[?|?]]; nia). lia.
  - intros x (j & -> & _)%list_elem_of_fmap. apply elem_of_seqZ.
    pose proof (mod_in n Hn (a + c * j)). lia.
Qed.

Lemma divide_unit c d : c = 1 \/ c = -1 -> (n | c * d) -> (n | d).
Proof using. intros [-> | ->] H; [by rewrite Z.mul_1_l in H|]. apply Z.divide_opp_r. by rewrite Z.opp_eq_mul_m1, Z.mul_comm. Qed.

Lemma divide_two d : Z.odd n = true -> (n | 2 * d) -> (n | d).
Proof using Hn.
  intros [m Hm]%Z.odd_spec [k Hk]. exists (d - m * k).
  assert (d = n * d - m * (2 * d)) as E by (rewrite Hm; ring). rewrite Hk in E. lia.
Qed.

Lemma sum_perm (f : Z -> Z) (g : Z -> Z) :
  g <$> seqZ 0 n ≡ₚ seqZ 0 n -> sumZ (f <$> seqZ 0 n) = sumZ ((fun i => f (g i)) <$> seqZ 0 n).
Proof using.
  intros Hg. apply sumZ_perm.
  transitivity (f <$> (g <$> seqZ 0 n)); [by rewrite Hg|]. by rewrite <-list_fmap_compose.
Qed.

(** Values that pair up to [n - 1] about the middle. *)
Lemma sum_paired (f : Z -> Z) :
  (forall i, 0 <= i < n -> f i + f (n - 1 - i) = n - 1) -> 2 * sumZ (f <$> seqZ 0 n) = n * (n - 1).
Proof using Hn.
  intros Hf.
  pose proof (sum_perm f (fun i => (n - 1 + -1 * i) mod n)
                (perm_affine (n - 1) (-1) (fun d => divide_unit (-1) d ltac:(by right)))) as Hp.
  pose proof (sumZ_fmap_const_pair f (fun i => f ((n - 1 + -1 * i) mod n)) (seqZ 0 n) (n - 1)) as Hs.
  rewrite length_seqZ, <-Hp in Hs. rewrite Z2Nat.id in Hs by lia. rewrite <-Z.add_diag, Hs; [lia|].
  intros i Hi%elem_of_seqZ. rewrite Z.mod_small by lia.
  replace (n - 1 + -1 * i) with (n - 1 - i) by lia. apply Hf. lia.
Qed.

Lemma sum_residues : 2 * sumZ (seqZ 0 n) = n * (n - 1).
Proof using Hn. rewrite <-(list_fmap_id (seqZ 0 n)). apply sum_paired. unfold id. lia. Qed.

Lemma sum_affine a c :
  (forall d, (n | c * d) -> (n | d)) -> 2 * sumZ ((fun j => (a + c * j) mod n) <$> seqZ 0 n) = n * (n - 1).
Proof using Hn. intros Hc. rewrite (sumZ_perm _ _ (perm_affine a c Hc)). apply sum_residues. Qed.

(** Residues that add up to [-1] modulo [n] pair up to [n - 1]. *)
Lemma residue_pair x y k : x + y = n - 1 + k * n -> x mod n + y mod n = n - 1.
Proof using Hn.
  intros E. pose proof (mod_in n Hn x). pose proof (mod_in n Hn y).
  pose proof (Z.div_mod x n). pose proof (Z.div_mod y n).
  assert (x mod n + y mod n = n - 1 + (k - x / n - y / n) * n) as Es by lia.
  destruct (Z.lt_trichotomy (k - x / n - y / n) 0) as [?|[?|?]]; nia.
Qed.

Lemma sum_line (q r : Z -> Z) :
  2 * sumZ (q <$> seqZ 0 n) = n * (n - 1) -> 2 * sumZ (r <$> seqZ 0 n) = n * (n - 1) ->
  2 * sumZ ((fun j => q j * n + r j + 1) <$> seqZ 0 n) = n * (n * n + 1).
Proof using Hn.
  intros Hq Hr. rewrite (sumZ_fmap_affine q r), length_seqZ, Z2Nat.id by lia. nia.
Qed.

Lemma sumZ_ext (f g : Z -> Z) : (forall i, f i = g i) -> sumZ (f <$> seqZ 0 n) = sumZ (g <$> seqZ 0 n).
Proof using. intros H. f_equal. apply list_fmap_ext. auto. Qed.

Hypothesis Hodd : Z.odd n = true.

Lemma half : 2 * (n / 2) = n - 1.
Proof using Hn Hodd. destruct (proj1 (Z.odd_spec n) Hodd) as [m Hm]. zlia. Qed.

Lemma val_row_sum i : 2 * sumZ ((fun j => val n i j) <$> seqZ 0 n) = n * (n * n + 1).
Proof using Hn Hodd.
  unfold val. apply (sum_line (qpos n i) (rpos n i)); unfold qpos, rpos.
  - rewrite (sumZ_ext _ (fun j => (i - n / 2 + 1 * j) mod n)) by (intros; f_equal; lia).
    apply sum_affine. intros d. apply divide_unit. by left.
  - rewrite (sumZ_ext _ (fun j => (i - 2 * (n / 2) + 2 * j) mod n)) by (intros; f_equal; lia).
    apply sum_affine. intros d. by apply divide_two.
Qed.

Lemma val_col_sum j : 2 * sumZ ((fun i => val n i j) <$> seqZ 0 n) = n * (n * n + 1).
Proof using Hn Hodd.
  unfold val. apply (sum_line (fun i => qpos n i j) (fun i => rpos n i j)); unfold qpos, rpos.
  - rewrite (sumZ_ext _ (fun i => (j - n / 2 + 1 * i) mod n)) by (intros; f_equal; lia).
    apply sum_affine. intros d. apply divide_unit. by left.
  - rewrite (sumZ_ext _ (fun i => (2 * (j - n / 2) + 1 * i) mod n)) by (intros; f_equal; lia).
    apply sum_affine. intros d. apply divide_unit. by left.
Qed.

Lemma val_diag_sum : 2 * sumZ ((fun i => val n i i) <$> seqZ 0 n) = n * (n * n + 1).
Proof using Hn Hodd.
  pose proof half as Hh. unfold val.
  apply (sum_line (fun i => qpos n i i) (fun i => rpos n i i)); apply sum_paired; unfold qpos, rpos; intros i Hi.
  - apply (residue_pair _ _ 0). lia.
  - apply (residue_pair _ _ 0). lia.
Qed.

Lemma val_anti_sum : 2 * sumZ ((fun i => val n i (n - 1 - i)) <$> seqZ 0 n) = n * (n * n + 1).
Proof using Hn Hodd.
  pose proof half as Hh. unfold val.
  apply (sum_line (fun i => qpos n i (n - 1 - i)) (fun i => rpos n i (n - 1 - i)));
    apply sum_paired; unfold qpos, rpos; intros i Hi.
  - apply (residue_pair _ _ 0). lia.
  - apply (residue_pair _ _ 0). lia.
Qed.

End sums.

(** ** Lines of a table *)
Lemma seqZ0_lookup_nat n k x : seqZ 0 n !! k = Some x -> x = Z.of_nat k /\ 0 <= x < n.
Proof. intros [-> ?]%lookup_seqZ. lia. Qed.

Lemma tab_lookup_total n (f : Z -> Z -> Z) (k : Z) j :
  (j < Z.to_nat n)%nat -> (f k <$> seqZ 0 n) !!! j = f k (Z.of_nat j).
Proof.
  intros Hj. apply list_lookup_total_correct. rewrite list_lookup_fmap.
  replace (seqZ 0 n !! j) with (Some (Z.of_nat j)); [done|]. symmetry. apply lookup_seqZ. lia.
Qed.

Lemma column_tab n f j : (j < Z.to_nat n)%nat ->
  column (tab n f) j = (fun i => f i (Z.of_nat j)) <$> seqZ 0 n.
Proof.
  intros Hj. unfold column, tab. rewrite <-list_fmap_compose. apply list_fmap_ext.
  intros k i _. cbn. by apply tab_lookup_total.
Qed.

Lemma length_tab n f : length (tab n f) = Z.to_nat n.
Proof. unfold tab. by rewrite length_fmap, length_seqZ. Qed.

Lemma diagonal_tab n f : diagonal (tab n f) = (fun i => f i i) <$> seqZ 0 n.
Proof.
  unfold diagonal, tab. apply list_eq. intros k. rewrite list_lookup_imap, !list_lookup_fmap.
  destruct (seqZ 0 n !! k) as [i|] eqn:Hi; [|done]. cbn. f_equal.
  apply seqZ0_lookup_nat in Hi as [-> ?]. apply tab_lookup_total. lia.
Qed.

Lemma antidiagonal_tab n f : antidiagonal (tab n f) = (fun i => f i (n - 1 - i)) <$> seqZ 0 n.
Proof.
  unfold antidiagonal. rewrite length_tab. unfold tab. apply list_eq. intros k.
  rewrite list_lookup_imap, !list_lookup_fmap.
  destruct (seqZ 0 n !! k) as [i|] eqn:Hi; [|done]. cbn. f_equal.
  apply seqZ0_lookup_nat in Hi as [-> ?]. rewrite tab_lookup_total by lia. f_equal. lia.
Qed.

Lemma length_concat_const (g : grid) m :
  Forall (fun row => length row = m) g -> length (concat g) = (length g * m)%nat.
Proof. induction 1; [done|]. cbn. rewrite length_app. lia. Qed.

Lemma tab_rows n f : Forall (fun row => length row = Z.to_nat n) (tab n f).
Proof.
  apply Forall_forall. intros row (i & -> & _)%list_elem_of_fmap. by rewrite length_fmap, length_seqZ.
Qed.

Lemma tab_perm n : 0 < n -> concat (tab n (val n)) ≡ₚ seqZ 1 (n * n).
Proof.
  intros Hn. symmetry. apply submseteq_length_Permutation.
  - apply NoDup_submseteq; [apply NoDup_seqZ|]. intros x Hx%elem_of_seqZ.
    apply list_elem_of_In, in_concat. exists (val n (prow n (x - 1)) <$> seqZ 0 n).
    pose proof (mod_in n Hn) as Hmod. split; apply list_elem_of_In.
    + apply list_elem_of_fmap. exists (prow n (x - 1)). split; [done|].
      apply elem_of_seqZ. unfold prow. specialize (Hmod (2 * ((x - 1) / n) - (x - 1) mod n)). lia.
    + apply list_elem_of_fmap. exists (pcol n (x - 1)).
      split; [rewrite val_pos by lia; lia|]. apply elem_of_seqZ. unfold pcol.
      specialize (Hmod (n / 2 - (x - 1) / n + (x - 1) mod n)). lia.
  - rewrite (length_concat_const _ _ (tab_rows n _)), length_tab, length_seqZ. nia.
Qed.

Lemma tab_magic n : 0 < n -> Z.odd n = true -> magic n (tab n (val n)).
Proof.
  intros Hn Ho. split.
  - apply length_tab.
  - apply tab_rows.
  - by apply tab_perm.
  - apply Forall_forall. intros row (i & -> & _)%list_elem_of_fmap. by apply val_row_sum.
  - intros j Hj. rewrite column_tab by done. by apply val_col_sum.
  - rewrite diagonal_tab. by apply val_diag_sum.
  - rewrite antidiagonal_tab. by apply val_anti_sum.
Qed.

Lemma generate_spec malloc n :
  (forall j, malloc j = true) -> 0 < n <= 46340 ->
  generateMagicSquare malloc n = Ok (mkMS n (tab n (val n))).
Proof.
  intros Hm Hn. unfold generateMagicSquare. rewrite !Hm. cbn [negb].
  rewrite alloc_rows_ok by done. unfold mbind, result_bind. rewrite replicate_tab by lia.
  rewrite Z.quot_div_nonneg by lia.
  assert (tab n (fun _ _ => 0) = tab n (partial n 0)) as ->.
  { apply tab_ext. intros i j Hi Hj. unfold partial. pose proof (val_range n ltac:(lia) i j).
    by rewrite (proj2 (Z.leb_gt _ _)) by lia. }
  assert (prow n 0 = 0) as Hp by (unfold prow; rewrite Z.div_0_l, Z.mod_0_l by lia; reflexivity).
  assert (pcol n 0 = n / 2) as Hc.
  { unfold pcol. rewrite Z.div_0_l, Z.mod_0_l by lia. rewrite Z.mod_small; [lia|].
    split; [pose proof (Z.div_pos n 2); lia|]. rewrite Z.sub_0_r, Z.add_0_r. apply Z.div_lt; lia. }
  pose proof (siamese_spec n ltac:(lia) (S (Z.to_nat (n * n))) 0 ltac:(nia) ltac:(lia) ltac:(nia)) as Hs.
  rewrite Hp, Hc in Hs. change (0 + 1) with 1 in Hs. by rewrite Hs.
Qed.

(** ** Properties *)

(** What [getSize] accepts. *)
Lemma getSize_print n rest :
  3 <= n <= INT_MAX -> Z.odd n = true -> starts_digit 10 rest = false ->
  getSize (print_int n ++ rest) = Ok n.
Proof.
  intros Hn Ho Hr. unfold getSize. rewrite scan_int_print by (unfold_bounds; lia || done).
  unfold mbind, result_bind. rewrite (proj2 (Z.ltb_ge _ _)) by lia.
  rewrite (proj2 (Z.eqb_neq _ _)); [done|]. rewrite Z.rem_mod_nonneg by lia.
  destruct (proj1 (Z.odd_spec n) Ho) as [m ->]. zlia.
Qed.

(** Reading back one row of the file. *)
Fixpoint read_row (k : nat) (s : list Z) : list Z * list Z :=
  match k with
  | O => ([], s)
  | S k' =>
      let '(v, s) := scan_digits 10 0 s in
      let '(vs, s) := read_row k' (tail s) in (v :: vs, s)
  end.

Fixpoint read_rows (m k : nat) (s : list Z) : grid :=
  match m with
  | O => []
  | S m' => let '(row, s) := read_row k s in row :: read_rows m' k s
  end.

Lemma read_row_print row rest :
  Forall (fun v => 0 <= v) row -> row <> [] ->
  read_row (length row) (print_row row ++ 10 :: rest) = (row, rest).
Proof.
  induction 1 as [|v row Hv Hrow IH]; [done|]. intros _.
  change (length (v :: row)) with (S (length row)). cbn [read_row].
  assert (print_int v = digits 10 v) as Hpv.
  { unfold print_int. by rewrite (proj2 (Z.ltb_ge _ _)) by lia. }
  destruct row as [|w row].
  - cbn [print_row]. rewrite Hpv, scan_print by (done || lia || (apply starts_digit_other; lia)).
    done.
  - change (print_row (v :: w :: row)) with (print_int v ++ 44 :: print_row (w :: row)).
    rewrite Hpv, <-app_assoc.
    cbn [app]. rewrite scan_print by (done || lia || (apply starts_digit_other; lia)).
    cbn [tail]. by rewrite IH.
Qed.

Lemma read_rows_print (g : grid) k :
  (0 < k)%nat -> Forall (fun row => length row = k) g -> Forall (Forall (fun v => 0 <= v)) g ->
  read_rows (length g) k (concat ((fun row => print_row row ++ [10]) <$> g)) = g.
Proof.
  intros Hk. induction g as [|row g IH]; intros Hl Hp; [done|].
  apply Forall_cons in Hl as [Hl Hls]. apply Forall_cons in Hp as [Hp Hps]. cbn.
  rewrite <-app_assoc. cbn [app]. rewrite <-Hl at 1.
  rewrite read_row_print by (done || (intros ->; cbn in Hl; lia)). f_equal. by apply IH.
Qed.

(** C7: for every odd size from 3 to 46340 entered by the user, with [malloc]
    succeeding, the program generates the square without fault.  When the output
    file can be opened and closed, it holds the size and then the rows, comma
    separated, of an n by n magic square: the numbers 1..n*n once each, and every
    row, column and diagonal with the sum n(n*n+1)/2.  When the file cannot be
    opened or closing it fails, the program exits with status 1. *)
Theorem magic_square_correct malloc n rest :
  (forall j, malloc j = true) -> 3 <= n <= 46340 -> Z.odd n = true -> starts_digit 10 rest = false ->
  (exists g rows,
    main 2 malloc true true (print_int n ++ rest) = Ok (print_int n ++ 10 :: rows) /\
    rows = concat ((fun row => print_row row ++ [10]) <$> g) /\
    read_rows (Z.to_nat n) (Z.to_nat n) rows = g /\ magic n g) /\
  (forall fopen fclose, fopen = false \/ fclose = false ->
    main 2 malloc fopen fclose (print_int n ++ rest) = Err (Exit 1)).
Proof.
  intros Hm Hn Ho Hr.
  assert (forall fopen fclose, main 2 malloc fopen fclose (print_int n ++ rest)
    = fileOutputMagicSquare fopen fclose (mkMS n (tab n (val n)))) as Hmain.
  { intros fopen fclose. unfold main. cbn [negb Z.eqb Pos.eqb].
    rewrite getSize_print by (unfold_bounds; lia || done).
    unfold mbind, result_bind. by rewrite generate_spec by (done || lia). }
  split.
  - exists (tab n (val n)). eexists. split; [exact (Hmain true true)|split; [reflexivity|split]].
    + rewrite <-(length_tab n (val n)) at 1. apply read_rows_print; [lia|apply tab_rows|].
      apply Forall_forall. intros row (i & -> & _)%list_elem_of_fmap. apply Forall_forall.
      intros v (j & -> & _)%list_elem_of_fmap. pose proof (val_range n ltac:(lia) i j). lia.
    + apply tab_magic; [lia|done].
  - intros fopen fclose Hf. rewrite Hmain. unfold fileOutputMagicSquare.
    destruct fopen; [|done]. by destruct Hf as [Hx|Hx]; rewrite Hx.
Qed.

Lemma magic_square_correct_witness :
  (exists g rows, main 2 (fun _ => true) true true (print_int 3 ++ [10]) = Ok (print_int 3 ++ 10 :: rows) /\
    rows = concat ((fun row => print_row row ++ [10]) <$> g) /\
    read_rows (Z.to_nat 3) (Z.to_nat 3) rows = g /\ magic 3 g) /\
  main 2 (fun _ => true) false true (print_int 3 ++ [10]) = Err (Exit 1).
Proof.
  destruct (magic_square_correct (fun _ => true) 3 [10]) as [Hg Hf]; [done|done|done|done|].
  split; [exact Hg|]. apply Hf. by left.
Defined.

(** [getSize] accepts every odd size from 3 on, but the loop bound [n * n]
    overflows [int] from 46341: generating such a square is undefined
    behaviour at its first loop test. *)
Theorem magic_square_overflow malloc n :
  (forall j, malloc j = true) -> 46341 <= n <= INT_MAX ->
  generateMagicSquare malloc n = Err Undefined.
Proof.
  intros Hm Hn. unfold generateMagicSquare. rewrite !Hm. cbn [negb].
  rewrite alloc_rows_ok by done. unfold mbind, result_bind. cbn [siamese].
  by rewrite (sint_over (n * n)) by (unfold_bounds; nia).
Qed.

Lemma magic_square_overflow_witness :
  generateMagicSquare (fun _ => true) 46341 = Err Undefined.
Proof. apply magic_square_overflow; [done|unfold_bounds; lia]. Defined.
