(* ===== verification/Sudoku.v ===== *)
(** * The Sudoku board checker, 底层系统/misc-algorithms/check_sudoku_board.c

    Operations: [valid_sudoku_board], [get_board_size] and [main] over the
    bytes of the input file, read with getline, strtok and atoi.  A board is
    the list of its rows.  The specification is duplicate freedom of the filled
    cells of every row and column. *)
From S2P Require Import Prelude Text.

(** ** valid_sudoku_board *)

(** One pass over the cells [js] of a row or column: [seen] has ten entries. *)
Fixpoint scan_cells (cell : nat -> result Z) (js : list nat) (seen : list Z) : result bool :=
  match js with
  | [] => Ok true
  | j :: js' =>
      val ← cell j;
      if negb (val =? 0) then
        if val <? 0 then Err Undefined else
        match seen !! Z.to_nat val with
        | None => Err Undefined
        | Some x =>
            if negb (x =? 0) then Ok false
            else scan_cells cell js' (<[Z.to_nat val := 1]> seen)
        end
      else scan_cells cell js' seen
  end.

(** Entry [j] of row [i]. *)
Definition board_at (board : list (list Z)) (i j : nat) : result Z :=
  match board !! i with
  | Some row => match row !! j with Some v => Ok v | None => Err Undefined end
  | None => Err Undefined
  end.

(** The lines one after the other, stopping at the first bad one; [cell i j] is
    cell [j] of line [i]. *)
Fixpoint check_lines (cell : nat -> nat -> result Z) (size : nat) (lines : list nat) : result bool :=
  match lines with
  | [] => Ok true
  | i :: lines' =>
      ok ← scan_cells (cell i) (seq 0 size) (replicate 10 0);
      if negb ok then Ok false else check_lines cell size lines'
  end.

Definition valid_sudoku_board (board : list (list Z)) (size : Z) : result Z :=
  rows ← check_lines (board_at board) (Z.to_nat size) (seq 0 (Z.to_nat size));
  if negb rows then Ok 0 else
  cols ← check_lines (fun j i => board_at board i j) (Z.to_nat size) (seq 0 (Z.to_nat size));
  if negb cols then Ok 0 else Ok 1.

(** ** Reading the file *)
Definition DELIM : Z := 44.

Definition get_board_size (file : list Z) : result (Z * list Z) :=
  match getline file with
  | None => Err (Exit 1)
  | Some (line, file) =>
      match strtok DELIM line with
      | None => Err Undefined
      | Some (size_chars, _) => size ← atoi size_chars; Ok (size, file)
      end
  end.

(** The tokens of one line; [atoi(NULL)] when the line has too few. *)
Fixpoint read_cells (k : nat) (line : list Z) : result (list Z) :=
  match k with
  | O => Ok []
  | S k' =>
      match strtok DELIM line with
      | None => Err Undefined
      | Some (token, rest) =>
          val ← atoi token; vals ← read_cells k' rest; Ok (val :: vals)
      end
  end.

Fixpoint read_board (k size : nat) (file : list Z) : result (list (list Z)) :=
  match k with
  | O => Ok []
  | S k' =>
      match getline file with
      | None => Err (Exit 1)
      | Some (line, file) =>
          row ← read_cells size line; rows ← read_board k' size file; Ok (row :: rows)
      end
  end.

Fixpoint all_mallocs (malloc : nat -> bool) (i k : nat) : bool :=
  match k with O => true | S k' => malloc i && all_mallocs malloc (S i) k' end.

(** [main]: true when it prints "valid", with the exit status; [None] is a file
    that cannot be opened, [fclose] tells whether closing it succeeds. *)
Definition main (argc : Z) (malloc : nat -> bool) (fclose : bool) (file : option (list Z))
    : result (bool * Z) :=
  if negb (argc =? 2) then Err (Exit 1) else
  match file with
  | None => Err (Exit 1)
  | Some fp =>
      '(size, fp) ← get_board_size fp;
      if (size <? 1) || (size >? 9) then Ok (false, 0) else
      if negb (all_mallocs malloc 0 (S (Z.to_nat size))) then Err (Exit 1) else
      board ← read_board (Z.to_nat size) (Z.to_nat size) fp;
      v ← valid_sudoku_board board size;
      Ok (negb (v =? 0), if fclose then 0 else 1)
  end.

(** ** Specification *)
Definition filled (vals : list Z) : list Z := filter (fun v => v <> 0) vals.

Definition no_duplicates (board : list (list Z)) (size : nat) : Prop :=
  Forall (fun row => NoDup (filled row)) board /\
  forall j, (j < size)%nat -> NoDup (filled ((fun row => row !!! j) <$> board)).

(** The validity that the comment of [valid_sudoku_board] states: every row and
    column holds only blanks or the digits 1 to size, without duplicates. *)
Definition valid_line (size : nat) (vals : list Z) : Prop :=
  Forall (fun v => v = 0 \/ 1 <= v <= Z.of_nat size) vals /\ NoDup (filled vals).

Definition valid_state (board : list (list Z)) (size : nat) : Prop :=
  Forall (valid_line size) board /\
  forall j, (j < size)%nat -> valid_line size ((fun row => row !!! j) <$> board).

(** No digit is larger than the size. *)
Definition small_digits (board : list (list Z)) (size : nat) : Prop :=
  Forall (Forall (fun v => v <= Z.of_nat size)) board.

Definition square (board : list (list Z)) (size : nat) : Prop :=
  length board = size /\ Forall (fun row => length row = size) board.

Definition digits_ok (board : list (list Z)) : Prop := Forall (Forall (fun v => 0 <= v <= 9)) board.

(** The file that holds a board: the size, then the rows, comma separated. *)
Fixpoint print_cells (row : list Z) : list Z :=
  match row with
  | [] => []
  | [v] => print_int v
  | v :: row' => print_int v ++ DELIM :: print_cells row'
  end.

Definition print_board (size : Z) (board : list (list Z)) : list Z :=
  print_int size ++ 10 :: concat ((fun row => print_cells row ++ [10]) <$> board).

(** ** One line *)
Definition seen_rep (seen prev : list Z) : Prop :=
  forall v, 0 <= v <= 9 -> seen !! Z.to_nat v = Some (if bool_decide (v ∈ prev) then 1 else 0).

Lemma seen_rep_add seen prev v :
  0 <= v <= 9 -> seen_rep seen prev -> seen_rep (<[Z.to_nat v := 1]> seen) (v :: prev).
Proof.
  intros Hv Hs w Hw. destruct (decide (w = v)) as [->|Hne].
  - rewrite list_lookup_insert_eq by (eapply lookup_lt_Some; by apply Hs).
    by rewrite bool_decide_eq_true_2 by set_solver.
  - rewrite list_lookup_insert_ne by lia. rewrite Hs by done. f_equal.
    by rewrite (bool_decide_ext (w ∈ v :: prev) (w ∈ prev)) by set_solver.
Qed.

Lemma scan_cells_spec cell js vals seen prev :
  Forall2 (fun j v => cell j = Ok v) js vals -> Forall (fun v => 0 <= v <= 9) vals ->
  NoDup prev -> seen_rep seen prev ->
  scan_cells cell js seen = Ok (bool_decide (NoDup (filled vals ++ prev))).
Proof.
  intros Hcell. revert seen prev. induction Hcell as [|j v js vals Hj Hcell IH]; intros seen prev Hv Hnd Hs.
  - cbn. by rewrite bool_decide_eq_true_2.
  - apply Forall_cons in Hv as [Hv0 Hv]. cbn [scan_cells]. rewrite Hj. unfold mbind, result_bind.
    unfold filled in *. rewrite filter_cons. destruct (Z.eqb_spec v 0) as [->|Hne]; cbn [negb].
    + rewrite decide_False by auto. by apply IH.
    + rewrite decide_True by done. rewrite (proj2 (Z.ltb_ge _ _)) by lia. rewrite Hs by done.
      case_bool_decide as Hin; cbn.
      * f_equal. symmetry. apply bool_decide_eq_false. rewrite NoDup_cons. set_solver.
      * rewrite (IH _ (v :: prev)); [|done|by apply NoDup_cons|by apply seen_rep_add].
        f_equal. apply bool_decide_ext. by rewrite <-Permutation_middle.
Qed.

Lemma seen_rep_start : seen_rep (replicate 10 0) [].
Proof.
  intros v Hv. rewrite lookup_replicate_2 by lia. by rewrite bool_decide_eq_false_2 by set_solver.
Qed.

Lemma scan_line_spec cell js vals :
  Forall2 (fun j v => cell j = Ok v) js vals -> Forall (fun v => 0 <= v <= 9) vals ->
  scan_cells cell js (replicate 10 0) = Ok (bool_decide (NoDup (filled vals))).
Proof.
  intros Hc Hv. rewrite (scan_cells_spec _ _ vals _ []) by (done || constructor || apply seen_rep_start).
  by rewrite app_nil_r.
Qed.

Lemma check_lines_spec cell size lines vals :
  (forall i, i ∈ lines -> Forall2 (fun j v => cell i j = Ok v) (seq 0 size) (vals i) /\
                          Forall (fun v => 0 <= v <= 9) (vals i)) ->
  check_lines cell size lines = Ok (bool_decide (Forall (fun i => NoDup (filled (vals i))) lines)).
Proof.
  induction lines as [|i lines IH]; intros H; [done|]. cbn [check_lines].
  destruct (H i ltac:(set_solver)) as [Hc Hv]. rewrite (scan_line_spec _ _ _ Hc Hv).
  unfold mbind, result_bind.
  destruct (bool_decide_reflect (NoDup (filled (vals i)))) as [Hnd|Hnd]; cbn [negb].
  - rewrite IH by set_solver. f_equal. apply bool_decide_ext. rewrite Forall_cons. tauto.
  - rewrite bool_decide_eq_false_2; [done|]. rewrite Forall_cons. tauto.
Qed.

(** ** The board *)
Lemma board_row board size i row :
  square board size -> board !! i = Some row ->
  Forall2 (fun j v => board_at board i j = Ok v) (seq 0 size) row.
Proof.
  intros [_ Hl] Hi. apply (Forall_lookup_1 _ _ _ _ Hl) in Hi as Hr.
  apply Forall2_same_length_lookup_2; [by rewrite length_seq|].
  intros j k v [-> ?]%lookup_seq Hv. unfold board_at. cbn in *. rewrite Hi. by rewrite Hv.
Qed.

Lemma board_col board size j :
  square board size -> (j < size)%nat ->
  Forall2 (fun i v => board_at board i j = Ok v) (seq 0 size) ((fun row => row !!! j) <$> board).
Proof.
  intros [Hl Hls] Hj. apply Forall2_same_length_lookup_2; [by rewrite length_seq, length_fmap|].
  intros i k v [-> ?]%lookup_seq. rewrite list_lookup_fmap. intros (row & Hrow & ->)%fmap_Some.
  unfold board_at. cbn in *. rewrite Hrow. apply (Forall_lookup_1 _ _ _ _ Hls) in Hrow as Hr.
  destruct (lookup_lt_is_Some_2 row j ltac:(lia)) as [x Hx].
  rewrite (list_lookup_total_correct _ _ _ Hx). cbn. by rewrite Hx.
Qed.

Lemma digits_col board j : digits_ok board -> Forall (fun v => 0 <= v <= 9) ((fun row => row !!! j) <$> board).
Proof.
  intros Hd. apply Forall_fmap. eapply Forall_impl; [exact Hd|]. cbn. intros row Hr.
  destruct (decide (j < length row)%nat) as [Hj|Hj].
  - destruct (lookup_lt_is_Some_2 _ _ Hj) as [x Hx]. rewrite (list_lookup_total_correct _ _ _ Hx).
    by apply (Forall_lookup_1 _ _ _ _ Hr) in Hx.
  - rewrite list_lookup_total_alt, lookup_ge_None_2 by lia. by cbn.
Qed.

#[export] Instance no_duplicates_dec board size : Decision (no_duplicates board size).
Proof.
  unfold no_duplicates. apply and_dec; [apply _|].
  refine (cast_if (decide (Forall (fun j => NoDup (filled ((fun row => row !!! j) <$> board))) (seq 0 size)))).
  - rewrite Forall_forall in *. intros j Hj. apply f. apply elem_of_seq. lia.
  - rewrite Forall_forall in *. intros H. apply n. intros j Hj%elem_of_seq. apply H. lia.
Defined.

Lemma valid_spec board size :
  0 <= size -> square board (Z.to_nat size) -> digits_ok board ->
  valid_sudoku_board board size = Ok (Z.b2z (bool_decide (no_duplicates board (Z.to_nat size)))).
Proof.
  intros Hs Hsq Hd. unfold valid_sudoku_board. set (m := Z.to_nat size) in *.
  pose proof (proj1 Hsq) as Hlen.
  rewrite (check_lines_spec (board_at board) _ _ (fun i => board !!! i)); last first.
  { intros i Hi%elem_of_seq. destruct (lookup_lt_is_Some_2 board i ltac:(lia)) as [row Hrow].
    rewrite (list_lookup_total_correct _ _ _ Hrow). split; [by apply board_row|].
    by apply (Forall_lookup_1 _ _ _ _ Hd) in Hrow. }
  unfold mbind, result_bind.
  assert (Forall (fun i => NoDup (filled (board !!! i))) (seq 0 m)
          <-> Forall (fun row => NoDup (filled row)) board) as Hrows.
  { rewrite Forall_forall, Forall_lookup. split.
    - intros H i row Hi. rewrite <-(list_lookup_total_correct _ _ _ Hi). apply H.
      apply elem_of_seq. apply lookup_lt_Some in Hi. lia.
    - intros H i Hi%elem_of_seq. destruct (lookup_lt_is_Some_2 board i ltac:(lia)) as [row Hrow].
      rewrite (list_lookup_total_correct _ _ _ Hrow). by apply (H i). }
  destruct (bool_decide_reflect (Forall (fun i => NoDup (filled (board !!! i))) (seq 0 m))) as [H1|H1];
    cbn [negb]; last first.
  { rewrite bool_decide_eq_false_2; [done|]. intros [H _]. by apply H1, Hrows. }
  rewrite (check_lines_spec (fun j i => board_at board i j) _ _ (fun j => (fun row => row !!! j) <$> board)); last first.
  { intros j Hj%elem_of_seq. split; [apply board_col; [done|lia]|by apply digits_col]. }
  match goal with |- context [if negb (bool_decide ?P) then _ else _] =>
    destruct (bool_decide_reflect P) as [H2|H2] end; cbn [negb].
  - rewrite bool_decide_eq_true_2; [done|]. split; [by apply Hrows|]. rewrite Forall_forall in H2.
    intros j Hj. apply H2, elem_of_seq. lia.
  - rewrite bool_decide_eq_false_2; [done|]. intros [_ H]. apply H2, Forall_forall.
    intros j Hj%elem_of_seq. apply H. lia.
Qed.

(** ** Reading back a printed board *)
Lemma atoi_line z : INT_MIN <= z <= INT_MAX -> atoi (print_int z ++ [10]) = Ok z.
Proof. intros. apply atoi_print; [done|]. apply starts_digit_other. lia. Qed.

Lemma print_int_no_delim z : Forall (fun c => c <> DELIM) (print_int z ++ [10]).
Proof.
  apply Forall_app. split; [|by repeat constructor].
  eapply Forall_impl; [apply print_int_chars|]. unfold DELIM. cbn. lia.
Qed.

Lemma read_cells_print row :
  row <> [] -> Forall (fun v => INT_MIN <= v <= INT_MAX) row ->
  read_cells (length row) (print_cells row ++ [10]) = Ok row.
Proof.
  induction row as [|v row IH]; [done|]. intros _ [Hv Hrow]%Forall_cons.
  change (length (v :: row)) with (S (length row)). cbn [read_cells].
  destruct row as [|w row].
  - change (print_cells [v]) with (print_int v).
    rewrite strtok_last; [|by destruct (print_int v)|apply print_int_no_delim].
    rewrite atoi_line by done. done.
  - change (print_cells (v :: w :: row)) with (print_int v ++ DELIM :: print_cells (w :: row)).
    rewrite <-app_assoc. cbn [app].
    rewrite strtok_token; [|apply print_int_nonempty|].
    + rewrite atoi_print_int by done. unfold mbind, result_bind. by rewrite IH.
    + eapply Forall_impl; [apply print_int_chars|]. unfold DELIM. cbn. lia.
Qed.

Lemma print_cells_chars row : Forall (fun c => c <> 10) (print_cells row).
Proof.
  assert (forall z, Forall (fun c => c <> 10) (print_int z)) as Hp.
  { intros z. eapply Forall_impl; [apply print_int_chars|]. cbn. lia. }
  induction row as [|v [|w row] IH]; [constructor|apply Hp|].
  change (print_cells (v :: w :: row)) with (print_int v ++ DELIM :: print_cells (w :: row)).
  apply Forall_app. split; [apply Hp|]. constructor; [done|exact IH].
Qed.

Lemma read_board_print board size :
  (0 < size)%nat -> Forall (fun row => length row = size) board -> digits_ok board ->
  read_board (length board) size (concat ((fun row => print_cells row ++ [10]) <$> board)) = Ok board.
Proof.
  intros Hs. induction board as [|row board IH]; [done|].
  intros [Hl Hls]%Forall_cons [Hd Hds]%Forall_cons. cbn.
  rewrite <-app_assoc. cbn [app]. rewrite getline_spec by apply print_cells_chars.
  rewrite <-Hl at 1. rewrite read_cells_print; [|by intros ->; cbn in Hl; lia|].
  - unfold mbind, result_bind. by rewrite IH.
  - eapply Forall_impl; [exact Hd|]. unfold_bounds. cbn. lia.
Qed.

Lemma all_mallocs_ok malloc i k : (forall j, malloc j = true) -> all_mallocs malloc i k = true.
Proof. intros H. revert i. induction k as [|k IH]; intros i; [done|]. cbn. by rewrite H, IH. Qed.

Lemma main_print malloc fclose size board :
  (forall j, malloc j = true) -> 1 <= size <= 9 -> square board (Z.to_nat size) -> digits_ok board ->
  main 2 malloc fclose (Some (print_board size board))
  = Ok (bool_decide (no_duplicates board (Z.to_nat size)), if fclose then 0 else 1).
Proof.
  intros Hm Hs Hsq Hd. unfold main. cbn [negb Z.eqb Pos.eqb]. unfold get_board_size, print_board.
  rewrite getline_spec by (eapply Forall_impl; [apply print_int_chars|]; cbn; lia).
  rewrite strtok_last; [|by destruct (print_int size)|apply print_int_no_delim].
  rewrite atoi_line by (unfold_bounds; lia). unfold mbind, result_bind.
  assert ((size <? 1) || (size >? 9) = false) as -> by lia.
  rewrite all_mallocs_ok by done. cbn [negb].
  destruct Hsq as [Hl Hls]. rewrite <-Hl at 1. rewrite read_board_print by (done || lia).
  rewrite valid_spec by (done || lia). by case_bool_decide.
Qed.

Lemma valid_state_iff board size :
  square board size -> digits_ok board ->
  valid_state board size <-> no_duplicates board size /\ small_digits board size.
Proof.
  intros [_ Hls] Hd. unfold valid_state, valid_line, no_duplicates, small_digits. split.
  - intros [Hr Hc]. split; [split|].
    + eapply Forall_impl; [exact Hr|]. by intros row [_ ?].
    + intros j Hj. by apply Hc.
    + eapply Forall_impl; [exact Hr|]. intros row [Hv _]. eapply Forall_impl; [exact Hv|]. cbn. lia.
  - intros [[Hr Hc] Hsm]. split.
    + apply Forall_forall. intros row Hin. rewrite Forall_forall in Hr. split; [|by apply Hr].
      unfold digits_ok in Hd. rewrite Forall_forall in Hd, Hsm. specialize (Hd row Hin). specialize (Hsm row Hin).
      rewrite Forall_forall in Hd, Hsm. apply Forall_forall. intros v Hv.
      specialize (Hd v Hv). specialize (Hsm v Hv). cbn in *. lia.
    + intros j Hj. split; [|by apply Hc]. apply Forall_forall. intros v (row & -> & Hin)%list_elem_of_fmap.
      unfold digits_ok in Hd. rewrite Forall_forall in Hls, Hd, Hsm.
      specialize (Hls row Hin). specialize (Hd row Hin). specialize (Hsm row Hin).
      destruct (lookup_lt_is_Some_2 row j) as [x Hx]; [lia|].
      rewrite (list_lookup_total_correct _ _ _ Hx).
      apply list_elem_of_lookup_2 in Hx. rewrite Forall_forall in Hd, Hsm.
      specialize (Hd x Hx). specialize (Hsm x Hx). cbn in *. lia.
Qed.

Lemma filled_single d : NoDup (filled [d]).
Proof. unfold filled. rewrite filter_cons. case_decide; [apply NoDup_singleton|constructor]. Qed.

Lemma large_digit_board v : 10 <= v -> valid_sudoku_board [[v]] 1 = Err Undefined.
Proof.
  intros Hv. unfold valid_sudoku_board. change (Z.to_nat 1) with 1%nat.
  assert (scan_cells (board_at [[v]] 0) (seq 0 1) (replicate 10 0) = Err Undefined) as Hs.
  { unfold scan_cells. cbn [seq]. change (board_at [[v]] 0 0) with (Ok v). unfold mbind, result_bind.
    rewrite (proj2 (Z.eqb_neq v 0)), (proj2 (Z.ltb_ge v 0)) by lia. cbn [negb].
    by rewrite lookup_ge_None_2 by (rewrite length_replicate; lia). }
  change (check_lines (board_at [[v]]) 1 (seq 0 1)) with
    (ok ← scan_cells (board_at [[v]] 0) (seq 0 1) (replicate 10 0);
     if negb ok then Ok false else Ok true). by rewrite Hs.
Qed.

(** ** Properties *)

(** C28: on every file that holds a board of size 1 to 9 with cells from 0
    (blank) to 9, the program answers "valid" exactly when no row and no
    column contains a digit twice.  The validity that the comment of
    [valid_sudoku_board] states (only blanks and the digits 1 to size, without
    duplicates) is this answer together with the digits being at most the size:
    the two agree on every board without larger digits, and a board with a larger
    digit is answered "valid" or not by its duplicates alone, although the comment
    makes it invalid.  The exit status is 0, or 1 when closing the file fails. *)
Theorem sudoku_decides malloc fclose size board :
  (forall j, malloc j = true) -> 1 <= size <= 9 -> square board (Z.to_nat size) -> digits_ok board ->
  exists ans, main 2 malloc fclose (Some (print_board size board)) = Ok (ans, if fclose then 0 else 1) /\
    (ans = true <-> no_duplicates board (Z.to_nat size)) /\
    (valid_state board (Z.to_nat size) <-> ans = true /\ small_digits board (Z.to_nat size)).
Proof.
  intros Hm Hs Hsq Hd. eexists. split; [by apply main_print|]. rewrite bool_decide_eq_true.
  split; [done|]. by apply valid_state_iff.
Qed.

Lemma sudoku_decides_witness :
  exists ans, main 2 (fun _ => true) true (Some (print_board 2 [[1; 2]; [0; 1]])) = Ok (ans, 0) /\
    (ans = true <-> no_duplicates [[1; 2]; [0; 1]] (Z.to_nat 2)) /\
    (valid_state [[1; 2]; [0; 1]] (Z.to_nat 2) <-> ans = true /\ small_digits [[1; 2]; [0; 1]] (Z.to_nat 2)).
Proof.
  apply (sudoku_decides (fun _ => true) true 2); [done|lia|by repeat constructor|].
  repeat constructor; lia.
Defined.

(** The digits are not checked against the size: in a board of size 1 to 8
    whose single filled cell is larger than its size, the answer is "valid",
    although a valid row holds only blanks and the digits 1 to size; and a
    value above 9 indexes outside the ten entries of [seen]. *)
Theorem sudoku_accepts_large_digit malloc d v :
  (forall j, malloc j = true) -> 2 <= d <= 9 -> 10 <= v <= INT_MAX ->
  main 2 malloc true (Some (print_board 1 [[d]])) = Ok (true, 0) /\
  ~ valid_state [[d]] 1 /\
  main 2 malloc true (Some (print_board 1 [[v]])) = Err Undefined.
Proof.
  intros Hm Hd Hv. split; [|split].
  - rewrite main_print; [|done|lia|by repeat constructor|by repeat constructor; lia].
    do 2 f_equal. apply bool_decide_eq_true. split.
    + constructor; [apply filled_single|constructor].
    + intros j Hj. assert (j = 0%nat) as -> by lia. apply (filled_single d).
  - intros [Hr _]. apply Forall_inv in Hr as [Hc _]. apply Forall_inv in Hc. cbn in Hc. lia.
  - unfold main, get_board_size, print_board. cbn [negb Z.eqb Pos.eqb].
    rewrite getline_spec by (eapply Forall_impl; [apply print_int_chars|]; cbn; lia).
    rewrite strtok_last; [|by destruct (print_int 1)|apply print_int_no_delim].
    rewrite atoi_line by (unfold_bounds; lia). unfold mbind, result_bind. cbn [Z.ltb Z.gtb Z.compare orb].
    rewrite all_mallocs_ok by done. cbn [negb].
    change (Z.to_nat 1) with 1%nat. cbn [fmap list_fmap concat app read_board].
    rewrite app_nil_r. change (print_cells [v]) with (print_int v).
    rewrite getline_spec by (eapply Forall_impl; [apply print_int_chars|]; cbn; lia).
    cbn [read_cells]. rewrite strtok_last; [|by destruct (print_int v)|apply print_int_no_delim].
    rewrite atoi_line by (unfold_bounds; lia). unfold mbind, result_bind.
    by rewrite large_digit_board by lia.
Qed.

Lemma sudoku_accepts_large_digit_witness :
  main 2 (fun _ => true) true (Some (print_board 1 [[9]])) = Ok (true, 0) /\ ~ valid_state [[9]] 1 /\
  main 2 (fun _ => true) true (Some (print_board 1 [[10]])) = Err Undefined.
Proof. apply sudoku_accepts_large_digit; [done|lia|unfold_bounds; lia]. Defined.
