(* ===== verification/Cipher.v ===== *)
(** * The Caesar decoder and the linear sequence printer,
      底层系统/program-analysis/decode.c and sequence.c

    [Module Decode]: reading the two lines, [calculate_shifts], [decode] and
    [main]; the specification is the encoder that [decode] inverts.
    [Module Sequence]: [linear_function] and [main]; the specification is the
    closed form of a linear recurrence. *)
From S2P Require Import Prelude Text.

Module Decode.

(** A line read by [fgets] into a buffer of [n + 1] bytes, with the newline
    replaced; [exit(1)] at the end of the file.  [str[len - 1]] of an empty
    string is out of bounds. *)
Definition read_line (n : nat) (file : list Z) : result (list Z) :=
  match file with
  | [] => Err (Exit 1)
  | _ =>
      let str := until_nul (fgets_line n file).1 in
      match last str with
      | None => Err Undefined
      | Some c => Ok (if c =? 10 then take (length str - 1) str else str)
      end
  end.

Definition read_cipher_file (file : option (list Z)) : result (list Z) :=
  match file with None => Err (Exit 1) | Some bytes => read_line 999 bytes end.

Definition get_login_key (stdin : list Z) : result (list Z) := read_line 49 stdin.

Definition calculate_shifts (key : list Z) : Z :=
  let shifts := foldl Z.lxor 0 key in
  let shifts := Z.abs (Z.rem shifts 26) in
  if shifts =? 0 then 1 else shifts.

Definition decode_char (shifts c : Z) : Z :=
  if (c <? 97) || (c >? 122) then c
  else Z.rem (c - 97 + shifts) 26 + 97.

Definition decode (cipher key : list Z) : list Z :=
  decode_char (calculate_shifts key) <$> cipher.

(** [main] yields the two texts it prints. *)
Definition main (cipher_txt : option (list Z)) (stdin : list Z) : result (list Z * list Z) :=
  cipher ← read_cipher_file cipher_txt;
  key ← get_login_key stdin;
  Ok (cipher, decode cipher key).

(** ** Specification: the left shift that encodes *)
Definition lower (c : Z) : bool := (97 <=? c) && (c <=? 122).

Definition encode_char (shifts c : Z) : Z :=
  if lower c then (c - 97 - shifts) mod 26 + 97 else c.

Definition encode (plain key : list Z) : list Z := encode_char (calculate_shifts key) <$> plain.

(** A text of one line: no newline, no NUL, and it fits the buffer. *)
Definition line_ok (n : nat) (s : list Z) : bool :=
  bool_decide (s <> []) && bool_decide (length s < n)%nat && forallb (fun c => negb (c =? 10) && negb (c =? 0)) s.

Lemma calculate_shifts_range key : 1 <= calculate_shifts key <= 25.
Proof.
  unfold calculate_shifts. set (x := foldl Z.lxor 0 key).
  pose proof (Z.rem_bound_abs x 26 ltac:(lia)).
  destruct (Z.eqb_spec (Z.abs (Z.rem x 26)) 0); lia.
Qed.

Lemma decode_encode_char k c : 1 <= k <= 25 -> decode_char k (encode_char k c) = c.
Proof.
  intros Hk. unfold encode_char, decode_char, lower.
  destruct ((97 <=? c) && (c <=? 122)) eqn:Hc.
  - pose proof (Z.mod_pos_bound (c - 97 - k) 26 ltac:(lia)) as Hm.
    assert (((c - 97 - k) mod 26 + 97 <? 97) || ((c - 97 - k) mod 26 + 97 >? 122) = false) as -> by lia.
    rewrite Z.rem_mod_nonneg by lia. rewrite Z.add_simpl_r, Zplus_mod_idemp_l.
    replace (c - 97 - k + k) with (c - 97) by lia. rewrite Z.mod_small by lia. lia.
  - assert ((c <? 97) || (c >? 122) = true) as -> by lia. done.
Qed.

Lemma encode_char_other k c : encode_char k c <> 10 /\ encode_char k c <> 0 \/ lower c = false.
Proof.
  unfold encode_char. destruct (lower c) eqn:Hc; [left|by right].
  pose proof (Z.mod_pos_bound (c - 97 - k) 26 ltac:(lia)). lia.
Qed.

Lemma read_line_spec n s rest : line_ok n s -> read_line n (s ++ 10 :: rest) = Ok s.
Proof.
  unfold line_ok. intros [[H1 H2]%andb_prop_elim H3]%andb_prop_elim.
  apply bool_decide_unpack in H1, H2. apply forallb_True in H3.
  assert (Forall (fun c => c <> 10) s /\ Forall (fun c => c <> 0) s) as [Hnl Hnz].
  { split; (eapply Forall_impl; [exact H3|]); cbn; intros c Hc%Is_true_true; lia. }
  unfold read_line. destruct (s ++ 10 :: rest) as [|c0 file] eqn:Hf; [by destruct s|]. rewrite <-Hf.
  rewrite fgets_line_spec by done. cbn [fst].
  assert (until_nul (s ++ [10]) = s ++ [10]) as ->.
  { rewrite <-(until_nul_spec (s ++ [10]) []) at 2; [|by apply Forall_app; split; [|repeat constructor]].
    generalize (s ++ [10]) as l. clear. induction l as [|c l IH]; [done|]. cbn.
    destruct (c =? 0); [done|]. by rewrite <-IH. }
  rewrite last_snoc. cbn [Z.eqb Pos.eqb]. rewrite length_app. cbn [length].
  replace (length s + 1 - 1)%nat with (length s) by lia. by rewrite take_app_length.
Qed.

Lemma encode_line_ok n plain key : line_ok n plain -> line_ok n (encode plain key).
Proof.
  unfold line_ok. intros [[H1 H2]%andb_prop_elim H3]%andb_prop_elim.
  apply bool_decide_unpack in H1, H2. apply forallb_True in H3.
  repeat (apply andb_prop_intro; split).
  - apply bool_decide_pack. unfold encode. by destruct plain.
  - apply bool_decide_pack. unfold encode. by rewrite length_fmap.
  - apply forallb_True, Forall_fmap. eapply Forall_impl; [exact H3|]. cbn. intros c Hc%Is_true_true.
    apply Is_true_true_2. destruct (encode_char_other (calculate_shifts key) c) as [|Hl]; [lia|].
    unfold encode_char. rewrite Hl. lia.
Qed.

Lemma decode_encode plain key : decode (encode plain key) key = plain.
Proof.
  unfold decode, encode. rewrite <-list_fmap_compose. rewrite <-(list_fmap_id plain) at 2.
  apply list_fmap_ext. intros i c _. cbn. apply decode_encode_char, calculate_shifts_range.
Qed.

(** The program decodes every text that was encoded with its key: for a
    plaintext and a login of one line each, running it on the encoded file and
    the login prints the plaintext; and no lowercase letter is left as it was. *)
Theorem decode_roundtrip plain key rest rest' :
  line_ok 999 plain -> line_ok 49 key ->
  main (Some (encode plain key ++ 10 :: rest)) (key ++ 10 :: rest') = Ok (encode plain key, plain) /\
  forall c, lower c = true ->
    lower (decode_char (calculate_shifts key) c) = true /\ decode_char (calculate_shifts key) c <> c.
Proof.
  intros Hp Hk. split.
  - unfold main, read_cipher_file, get_login_key.
    rewrite !read_line_spec by (done || by apply encode_line_ok). unfold mbind, result_bind.
    by rewrite decode_encode.
  - intros c Hc. pose proof (calculate_shifts_range key) as Hs. unfold decode_char, lower in *.
    assert ((c <? 97) || (c >? 122) = false) as -> by lia. rewrite Z.rem_mod_nonneg by lia.
    pose proof (Z.mod_pos_bound (c - 97 + calculate_shifts key) 26 ltac:(lia)). split; [lia|].
    pose proof (Z.div_mod (c - 97 + calculate_shifts key) 26). lia.
Qed.

Lemma decode_roundtrip_witness :
  main (Some (encode (chr "hello, world") (chr "cindy") ++ [10])) (chr "cindy" ++ [10])
    = Ok (encode (chr "hello, world") (chr "cindy"), chr "hello, world") /\
  forall c, lower c = true ->
    lower (decode_char (calculate_shifts (chr "cindy")) c) = true /\
    decode_char (calculate_shifts (chr "cindy")) c <> c.
Proof. apply (decode_roundtrip (chr "hello, world") (chr "cindy") [] []); vm_compute; done. Defined.

End Decode.

Module Sequence.

Definition linear_function (m x b : Z) : result Z := p ← sint (m * x); sint (p + b).

(** The remaining values, from iteration [i] on. *)
Fixpoint print_values (k : nat) (m c current_value : Z) : result (list Z) :=
  match k with
  | O => Ok []
  | S k' =>
      v ← linear_function m current_value c;
      rest ← print_values k' m c v;
      Ok (44 :: print_int v ++ rest)
  end.

(** [main]: the exit status and what it prints; [args] is argv without the
    program's name.  Usage and error texts are not spelled out. *)
Definition main (args : list (list Z)) : result (Z * list Z) :=
  match args with
  | [a1; a2; a3; a4] =>
      n ← atoi a1; x0 ← atoi a2; m ← atoi a3; c ← atoi a4;
      if n <=? 0 then Ok (1, []) else
      rest ← print_values (Z.to_nat (n - 1)) m c x0;
      Ok (0, print_int x0 ++ rest ++ [10])
  | _ => Ok (1, [])
  end.

(** ** Specification *)
Fixpoint geometric (m : Z) (i : nat) : Z :=
  match i with O => 0 | S i' => geometric m i' + m ^ Z.of_nat i' end.

(** Term [i] of the recurrence x(i+1) = m x(i) + c. *)
Definition term (x0 m c : Z) (i : nat) : Z := m ^ Z.of_nat i * x0 + c * geometric m i.

Definition in_int (z : Z) : Prop := INT_MIN <= z <= INT_MAX.

Lemma term_succ x0 m c i : term x0 m c (S i) = m * term x0 m c i + c.
Proof.
  unfold term. cbn [geometric]. rewrite Nat2Z.inj_succ, Z.pow_succ_r by lia.
  assert (m * geometric m i + 1 = geometric m i + m ^ Z.of_nat i) as Hg; [|nia].
  clear. induction i as [|i IH]; [cbn; lia|]. cbn [geometric]. rewrite Nat2Z.inj_succ, Z.pow_succ_r by lia. nia.
Qed.

Lemma print_values_spec k x0 m c i :
  (forall j, (i <= j < i + k)%nat -> in_int (m * term x0 m c j) /\ in_int (term x0 m c (S j))) ->
  print_values k m c (term x0 m c i)
  = Ok (concat ((fun j => 44 :: print_int (term x0 m c j)) <$> seq (S i) k)).
Proof.
  revert i. induction k as [|k IH]; intros i H; [done|]. cbn [print_values].
  destruct (H i ltac:(lia)) as [H1 H2]. unfold linear_function. rewrite (sint_ok (m * _)) by done.
  unfold mbind, result_bind. rewrite <-term_succ, sint_ok by done.
  rewrite IH by (intros j Hj; apply H; lia). done.
Qed.

(** With four numeric arguments and a positive count, the program prints
    exactly the first [n] terms m^i x0 + c (m^(i-1) + ... + 1), comma separated
    on one line, as long as neither a term nor the product before the addition
    leaves the [int] range; a count of 0 or less, or another number of
    arguments, ends with status 1. *)
Theorem sequence_closed_form n x0 m c :
  in_int n -> in_int x0 -> in_int m -> in_int c ->
  (forall j, (S j < Z.to_nat n)%nat -> in_int (m * term x0 m c j) /\ in_int (term x0 m c (S j))) ->
  main [print_int n; print_int x0; print_int m; print_int c]
  = Ok (if n <=? 0 then (1, [])
        else (0, print_int x0 ++ concat ((fun j => 44 :: print_int (term x0 m c j)) <$> seq 1 (Z.to_nat (n - 1)))
                 ++ [10])) /\
  forall args, length args <> 4%nat -> main args = Ok (1, []).
Proof.
  intros Hn Hx Hm Hc H. split.
  - unfold main. rewrite !atoi_print_int by done. unfold mbind, result_bind.
    destruct (Z.leb_spec n 0); [done|].
    pose proof (print_values_spec (Z.to_nat (n - 1)) x0 m c 0) as Hp.
    assert (term x0 m c 0 = x0) as Ex by (unfold term; cbn; lia). rewrite Ex in Hp.
    rewrite Hp; [done|]. intros j Hj. apply H. lia.
  - intros args Hl. destruct args as [|a [|b [|d [|e [|f args]]]]]; done || (by destruct Hl).
Qed.

Lemma sequence_closed_form_witness :
  main [print_int 4; print_int 2; print_int (-3); print_int 5]
  = Ok (0, print_int 2 ++ concat ((fun j => 44 :: print_int (term 2 (-3) 5 j)) <$> seq 1 3) ++ [10]) /\
  forall args, length args <> 4%nat -> main args = Ok (1, []).
Proof.
  apply (sequence_closed_form 4 2 (-3) 5); unfold in_int; [unfold_bounds; lia..|].
  intros j Hj. change (Z.to_nat 4) with 4%nat in Hj.
  destruct j as [|[|[|j]]]; [vm_compute; repeat split; discriminate..|lia].
Defined.

End Sequence.
