(* ===== verification/Signals.v ===== *)
(** * The signal programs, 底层系统/signals-exceptions/

    [Module Handler] is my_c_signal_handler.c, [Module Send] is send_signal.c
    and [Module Div0] is my_div0_handler.c.  Each process is an event machine:
    a handler or a loop iteration is a state transformer, and the events are the
    signals delivered and the lines read. *)
From S2P Require Import Prelude Text.

Definition SIGINT : Z := 2.
Definition SIGFPE : Z := 8.
Definition SIGUSR1 : Z := 10.
Definition SIGALRM : Z := 14.

Module Handler.

Inductive printed : Type :=
  | Instructions
  | TimeReport (pid : Z) (time_string : list Z)
  | TimeError | CtimeError
  | Usr1Counted
  | IntHandled (count : Z).

Record proc : Type := mkProc {
  sigusr1_count : Z;
  pending_alarm : option Z;     (** seconds of the armed alarm *)
  out : list printed
}.

Definition alarm_seconds : Z := 3.

Definition print (p : printed) (s : proc) : proc :=
  mkProc (sigusr1_count s) (pending_alarm s) (out s ++ [p]).
Definition alarm (n : Z) (s : proc) : proc := mkProc (sigusr1_count s) (Some n) (out s).

(** What [time] and [ctime] return when the alarm goes off. *)
Record clock : Type := mkClock { time_now : option Z; ctime : Z -> option (list Z) }.

(** The alarm that raised the signal is no longer armed. *)
Definition alarm_handler (pid : Z) (k : clock) : M proc unit :=
  _ ← modify (fun s => mkProc (sigusr1_count s) None (out s));
  match time_now k with
  | None => modify (print TimeError)
  | Some t =>
      match ctime k t with
      | None => modify (print CtimeError)
      | Some [] => fail Undefined
      | Some str =>
          _ ← modify (print (TimeReport pid (take (length str - 1) str)));
          modify (alarm alarm_seconds)
      end
  end.

Definition sigusr1_handler : M proc unit :=
  _ ← modify (print Usr1Counted);
  s ← get;
  n ← lift (sint (sigusr1_count s + 1));
  modify (fun s => mkProc n (pending_alarm s) (out s)).

(** [exit(0)] ends the process: the log is what it printed. *)
Definition sigint_handler (s : proc) : list printed * Z :=
  (out s ++ [IntHandled (sigusr1_count s)], 0).

(** The set-up of [main]; [sigaction] succeeds or not for each signal. *)
Definition main (sigaction : Z -> bool) : result proc :=
  if negb (sigaction SIGALRM) then Err (Exit 1) else
  if negb (sigaction SIGUSR1) then Err (Exit 1) else
  if negb (sigaction SIGINT) then Err (Exit 1) else
  Ok (print Instructions (alarm alarm_seconds (mkProc 0 None []))).

Inductive event : Type := Alarm (k : clock) | Usr1.

Definition handle (pid : Z) (e : event) : M proc unit :=
  match e with Alarm k => alarm_handler pid k | Usr1 => sigusr1_handler end.

Fixpoint handle_all (pid : Z) (es : list event) : M proc unit :=
  match es with
  | [] => mret tt
  | e :: es' => _ ← handle pid e; handle_all pid es'
  end.

Definition clock_works (e : event) : Prop :=
  match e with
  | Usr1 => True
  | Alarm k => exists t str, time_now k = Some t /\ ctime k t = Some str /\ str <> []
  end.

Definition count_usr1 (es : list event) : Z :=
  foldr (fun e n => match e with Usr1 => n + 1 | Alarm _ => n end) 0 es.

Lemma count_usr1_nonneg es : 0 <= count_usr1 es.
Proof. unfold count_usr1. induction es as [|[] es IH]; cbn [foldr] in *; lia. Qed.

Lemma handle_all_spec pid es s :
  Forall clock_works es -> pending_alarm s = Some alarm_seconds ->
  INT_MIN <= sigusr1_count s -> sigusr1_count s + count_usr1 es <= INT_MAX ->
  wp (handle_all pid es) s (fun _ s' =>
    sigusr1_count s' = sigusr1_count s + count_usr1 es /\ pending_alarm s' = Some alarm_seconds).
Proof.
  intros Hw. revert s. induction Hw as [|e es He Hw IH]; intros s Ha Hmin Hmax.
  - apply wp_ret. cbn. split; [lia|done].
  - pose proof (count_usr1_nonneg es). cbn [handle_all]. wp_step. destruct e as [k|].
    + change (count_usr1 (Alarm k :: es)) with (count_usr1 es) in *.
      destruct He as (t & str & Ht & Hc & Hne). unfold handle, alarm_handler. rewrite Ht, Hc.
      destruct str as [|c str]; [done|]. wp_steps.
      eapply wp_mono; [apply IH; (done || (unfold_bounds; cbn; lia))|]. cbn. done.
    + change (count_usr1 (Usr1 :: es)) with (count_usr1 es + 1) in *.
      unfold handle, sigusr1_handler.
      wp_step. wp_step. wp_step. wp_step. wp_step.
      eapply wp_lift; [apply sint_ok; unfold_bounds; cbn; lia|]. wp_step.
      eapply wp_mono; [apply IH; (done || (unfold_bounds; cbn; lia))|].
      cbn. intros _ s' [-> ?]. split; [lia|done].
Qed.

End Handler.

Module Send.

(** What the process asks the kernel to do: [kill(pid, sig)]. *)
Definition main (kill : Z -> Z -> bool) (args : list (list Z)) : result (option (Z * Z) * Z) :=
  match args with
  | [opt; pid_arg] =>
      let signal_type := if bool_decide (opt = chr "-u") then Some SIGUSR1
                         else if bool_decide (opt = chr "-i") then Some SIGINT else None in
      match signal_type with
      | None => Ok (None, 1)
      | Some sig =>
          target_pid ← atoi pid_arg;
          if target_pid <=? 0 then Ok (None, 1)
          else if kill target_pid sig then Ok (Some (target_pid, sig), 0)
          else Ok (None, 1)
      end
  | _ => Ok (None, 1)
  end.

End Send.

(** Running send_signal with each of [optss] against the handler process [pid]:
    [None] while the process is alive, or what it printed until its exit. *)
Fixpoint session (pid : Z) (opts : list (list Z)) (s : Handler.proc)
    : result (Handler.proc + list Handler.printed * Z) :=
  match opts with
  | [] => Ok (inl s)
  | opt :: opts' =>
      '(sent, _) ← Send.main (fun _ _ => true) [opt; print_int pid];
      match sent with
      | Some (p, sig) =>
          if negb (p =? pid) then session pid opts' s
          else if sig =? SIGINT then Ok (inr (Handler.sigint_handler s))
          else '(_, s) ← Handler.sigusr1_handler s; session pid opts' s
      | None => session pid opts' s
      end
  end.

Lemma session_usr1 pid k s :
  1 <= pid <= INT_MAX -> 0 <= Handler.sigusr1_count s -> Handler.sigusr1_count s + Z.of_nat k <= INT_MAX ->
  exists outs, session pid (replicate k (chr "-u") ++ [chr "-i"]) s
    = Ok (inr (outs ++ [Handler.IntHandled (Handler.sigusr1_count s + Z.of_nat k)], 0)).
Proof.
  intros Hp. revert s. induction k as [|k IH]; intros s H0 Hmax; cbn [replicate app session].
  - unfold Send.main. rewrite atoi_print_int by (unfold_bounds; lia). unfold mbind, result_bind.
    rewrite bool_decide_eq_false_2, bool_decide_eq_true_2 by done.
    rewrite (proj2 (Z.leb_gt _ _)) by lia. cbn iota. rewrite Z.eqb_refl. cbn.
    rewrite Z.add_0_r. by eexists.
  - unfold Send.main at 1. rewrite atoi_print_int by (unfold_bounds; lia). unfold mbind, result_bind.
    rewrite bool_decide_eq_true_2 by done. rewrite (proj2 (Z.leb_gt _ _)) by lia. cbn iota.
    rewrite Z.eqb_refl. cbn [negb SIGUSR1 SIGINT Z.eqb Pos.eqb].
    unfold Handler.sigusr1_handler, mbind, M_bind, modify, get, lift.
    cbn [Handler.sigusr1_count Handler.print]. rewrite sint_ok by (unfold_bounds; lia).
    destruct (IH (Handler.mkProc (Handler.sigusr1_count s + 1)
                    (Handler.pending_alarm (Handler.print Handler.Usr1Counted s))
                    (Handler.out (Handler.print Handler.Usr1Counted s)))) as [outs Ho]; [cbn; lia..|].
    exists outs. rewrite Ho. cbn [Handler.sigusr1_count].
    by replace (Handler.sigusr1_count s + 1 + Z.of_nat k)
      with (Handler.sigusr1_count s + Z.of_nat (S k)) by lia.
Qed.

Module Div0.

Inductive printed : Type :=
  | Quotient (num1 num2 quotient remainder : Z)
  | DivisionByZero (count : Z)
  | Total (count : Z).

(** The process waits for the first or the second number of a division. *)
Inductive phase : Type := First | Second (num1 : Z).

Record proc : Type := mkProc { where_ : phase; division_count : Z; out : list printed }.

(** A line read by [fgets], the end of the input, or Ctrl-C. *)
Inductive event : Type := Line (buffer : list Z) | Eof | Interrupt.

Definition sigfpe_handler (s : proc) : list printed * Z :=
  (out s ++ [DivisionByZero (division_count s)], 0).
Definition sigint_handler (s : proc) : list printed * Z :=
  (out s ++ [Total (division_count s)], 0).

(** The processor raises SIGFPE for a zero divisor and for a quotient that does
    not fit. *)
Definition traps (num1 num2 : Z) : bool :=
  (num2 =? 0) || ((num1 =? INT_MIN) && (num2 =? -1)).

(** One event; the right injection is the end of the process: what it printed
    and its exit status. *)
Definition step (e : event) (s : proc) : result (proc + list printed * Z) :=
  match e with
  | Interrupt => Ok (inr (sigint_handler s))
  | Eof => Ok (inr (out s, 0))
  | Line buffer =>
      match where_ s with
      | First => num1 ← atoi buffer; Ok (inl (mkProc (Second num1) (division_count s) (out s)))
      | Second num1 =>
          num2 ← atoi buffer;
          if traps num1 num2 then Ok (inr (sigfpe_handler s)) else
          let quotient := Z.quot num1 num2 in
          let remainder := Z.rem num1 num2 in
          n ← sint (division_count s + 1);
          Ok (inl (mkProc First n (out s ++ [Quotient num1 num2 quotient remainder])))
      end
  end.

Fixpoint run (es : list event) (s : proc) : result (proc + list printed * Z) :=
  match es with
  | [] => Ok (inl s)
  | e :: es' =>
      r ← step e s;
      match r with inl s => run es' s | inr done => Ok (inr done) end
  end.

Definition start : proc := mkProc First 0 [].

(** The lines that enter a list of divisions. *)
Definition enter (ps : list (Z * Z)) : list event :=
  concat ((fun p => [Line (print_int p.1 ++ [10]); Line (print_int p.2 ++ [10])]) <$> ps).

Definition pair_ok (p : Z * Z) : Prop := INT_MIN <= p.1 <= INT_MAX /\ INT_MIN <= p.2 <= INT_MAX.

Definition report (p : Z * Z) : printed := Quotient p.1 p.2 (Z.quot p.1 p.2) (Z.rem p.1 p.2).

Lemma run_enter ps es s :
  Forall pair_ok ps -> Forall (fun p => traps p.1 p.2 = false) ps -> where_ s = First ->
  INT_MIN <= division_count s -> division_count s + Z.of_nat (length ps) <= INT_MAX ->
  run (enter ps ++ es) s
  = run es (mkProc First (division_count s + Z.of_nat (length ps)) (out s ++ (report <$> ps))).
Proof.
  revert s. induction ps as [|[n1 n2] ps IH]; intros s Hok Ht Hw Hmin Hmax.
  - cbn. rewrite Z.add_0_r, app_nil_r. by destruct s; cbn in *; subst.
  - apply Forall_cons in Hok as [[H1 H2] Hok], Ht as [Ht0 Ht]. cbn [fst snd] in *.
    assert (starts_digit 10 [10] = false) as Hd by (apply starts_digit_other; lia).
    cbn [enter fmap list_fmap concat app run fst snd step]. rewrite Hw.
    rewrite (atoi_print n1), (atoi_print n2) by done. unfold mbind, result_bind.
    cbn [where_ division_count out]. rewrite Ht0.
    cbn [length] in Hmax. rewrite sint_ok by (unfold_bounds; lia). cbn iota.
    fold (enter ps). rewrite IH by (done || (cbn [division_count]; unfold_bounds; lia)).
    cbn [division_count out length fmap list_fmap]. rewrite <-app_assoc. cbn [app].
    by replace (division_count s + 1 + Z.of_nat (length ps))
      with (division_count s + Z.of_nat (S (length ps))) by lia.
Qed.

End Div0.

(** ** Properties *)

(** Any interleaving of alarms and SIGUSR1 signals leaves the process with
    the number of SIGUSR1 signals in its counter and the 3-second alarm armed
    again (as long as [time] and [ctime] work and the counter fits an int), so
    that the final SIGINT prints that number and exits with status 0. *)
Theorem signal_counts sigaction pid es :
  (forall sig, sigaction sig = true) -> Forall Handler.clock_works es -> Handler.count_usr1 es <= INT_MAX ->
  exists s0 s outs, Handler.main sigaction = Ok s0 /\
    Handler.handle_all pid es s0 = Ok (tt, s) /\
    Handler.pending_alarm s = Some Handler.alarm_seconds /\
    Handler.sigint_handler s = (outs ++ [Handler.IntHandled (Handler.count_usr1 es)], 0).
Proof.
  intros Hs Hw Hmax.
  set (s0 := Handler.print Handler.Instructions (Handler.alarm Handler.alarm_seconds (Handler.mkProc 0 None []))).
  destruct (Handler.handle_all_spec pid es s0 Hw) as ([] & s & Hrun & Hc & Ha); [done|done|done|].
  exists s0, s, (Handler.out s). unfold Handler.main. rewrite !Hs. split_and!; try done.
  unfold Handler.sigint_handler. by rewrite Hc.
Qed.

Lemma signal_counts_witness :
  let k := Handler.mkClock (Some 7) (fun _ => Some [48; 10]) in
  exists s0 s outs, Handler.main (fun _ => true) = Ok s0 /\
    Handler.handle_all 1 [Handler.Usr1; Handler.Alarm k; Handler.Usr1] s0 = Ok (tt, s) /\
    Handler.pending_alarm s = Some Handler.alarm_seconds /\
    Handler.sigint_handler s = (outs ++ [Handler.IntHandled 2], 0).
Proof.
  apply (signal_counts (fun _ => true) 1
    [Handler.Usr1; Handler.Alarm (Handler.mkClock (Some 7) (fun _ => Some [48; 10])); Handler.Usr1]);
    [done| |done].
  repeat constructor. exists 7, [48; 10]. done.
Defined.

(** The two signal programs together: k runs of [send_signal -u pid]
    followed by one of [send_signal -i pid] make the handler process print that
    SIGUSR1 was handled exactly k times and exit with status 0. *)
Theorem send_and_count pid k :
  1 <= pid <= INT_MAX -> Z.of_nat k <= INT_MAX ->
  exists s0 outs, Handler.main (fun _ => true) = Ok s0 /\
    session pid (replicate k (chr "-u") ++ [chr "-i"]) s0
    = Ok (inr (outs ++ [Handler.IntHandled (Z.of_nat k)], 0)).
Proof.
  intros Hp Hk.
  destruct (session_usr1 pid k
    (Handler.print Handler.Instructions (Handler.alarm Handler.alarm_seconds (Handler.mkProc 0 None []))) Hp)
    as [outs Ho]; [done|done|].
  eexists. exists outs. split; [reflexivity|exact Ho].
Qed.

Lemma send_and_count_witness :
  exists s0 outs, Handler.main (fun _ => true) = Ok s0 /\
    session 4242 (replicate 3 (chr "-u") ++ [chr "-i"]) s0
    = Ok (inr (outs ++ [Handler.IntHandled 3], 0)).
Proof. apply (send_and_count 4242 3); unfold_bounds; lia. Defined.

(** A division session: after any list of divisions that the processor can
    do, the program has printed every quotient and remainder, each satisfying
    the division law, Ctrl-C prints their number, and a division by zero prints
    it too; both exit with status 0.  INT_MIN divided by -1 also raises SIGFPE
    and is reported as a division by 0. *)
Theorem div0_session ps :
  Forall Div0.pair_ok ps -> Forall (fun p => Div0.traps p.1 p.2 = false) ps ->
  Z.of_nat (length ps) <= INT_MAX ->
  let outs := Div0.report <$> ps in
  Div0.run (Div0.enter ps ++ [Div0.Interrupt]) Div0.start
    = Ok (inr (outs ++ [Div0.Total (Z.of_nat (length ps))], 0)) /\
  (forall n, INT_MIN <= n <= INT_MAX ->
    Div0.run (Div0.enter (ps ++ [(n, 0)])) Div0.start
      = Ok (inr (outs ++ [Div0.DivisionByZero (Z.of_nat (length ps))], 0))) /\
  Div0.run (Div0.enter (ps ++ [(INT_MIN, -1)])) Div0.start
    = Ok (inr (outs ++ [Div0.DivisionByZero (Z.of_nat (length ps))], 0)) /\
  Forall (fun p => p.1 = p.2 * Z.quot p.1 p.2 + Z.rem p.1 p.2 /\
                   Z.abs (Z.rem p.1 p.2) < Z.abs p.2) ps.
Proof.
  intros Hok Ht Hmax outs.
  assert (starts_digit 10 [10] = false) as Hd by (apply starts_digit_other; lia).
  assert (forall n d, INT_MIN <= n <= INT_MAX -> INT_MIN <= d <= INT_MAX -> Div0.traps n d = true ->
    Div0.run (Div0.enter (ps ++ [(n, d)])) Div0.start
      = Ok (inr (outs ++ [Div0.DivisionByZero (Z.of_nat (length ps))], 0))) as Htrap.
  { intros n d Hn Hdd Htr. unfold Div0.enter. rewrite fmap_app, concat_app. fold (Div0.enter ps).
    rewrite Div0.run_enter by (done || (unfold_bounds; cbn; lia)).
    cbn [fmap list_fmap concat app Div0.run Div0.step Div0.where_ fst snd].
    rewrite (atoi_print n), (atoi_print d) by done. unfold mbind, result_bind.
    cbn [Div0.where_]. by rewrite Htr. }
  split_and!.
  - rewrite Div0.run_enter by (done || (unfold_bounds; cbn; lia)). done.
  - intros n Hn. apply Htrap; [done|unfold_bounds; lia|done].
  - apply Htrap; [unfold_bounds; lia..|done].
  - rewrite Forall_forall in *. intros [n d] Hin. specialize (Ht _ Hin). cbn [fst snd] in *.
    assert (d <> 0) by (intros ->; done).
    split; [apply Z.quot_rem'|by apply Z.rem_bound_abs].
Qed.

Lemma div0_session_witness :
  let outs := Div0.report <$> [(7, -2); (-9, 4)] in
  Div0.run (Div0.enter [(7, -2); (-9, 4)] ++ [Div0.Interrupt]) Div0.start
    = Ok (inr (outs ++ [Div0.Total (Z.of_nat 2)], 0)) /\
  (forall n, INT_MIN <= n <= INT_MAX ->
    Div0.run (Div0.enter ([(7, -2); (-9, 4)] ++ [(n, 0)])) Div0.start
      = Ok (inr (outs ++ [Div0.DivisionByZero (Z.of_nat 2)], 0))) /\
  Div0.run (Div0.enter ([(7, -2); (-9, 4)] ++ [(INT_MIN, -1)])) Div0.start
    = Ok (inr (outs ++ [Div0.DivisionByZero (Z.of_nat 2)], 0)) /\
  Forall (fun p => p.1 = p.2 * Z.quot p.1 p.2 + Z.rem p.1 p.2 /\
                   Z.abs (Z.rem p.1 p.2) < Z.abs p.2) [(7, -2); (-9, 4)].
Proof.
  apply (div0_session [(7, -2); (-9, 4)]).
  - repeat constructor; unfold_bounds; cbn; lia.
  - repeat constructor.
  - unfold_bounds. cbn. lia.
Defined.
