(* ===== verification/Bst.v ===== *)
(** * The binary search tree with per-node locks,
      Thread pool + 并发二叉树/solution/bst.c

    State: the nodes by address, each with its mutex, the root pointer and the
    tree mutex.  Every access checks the lock discipline: a field is read or
    written only while the mutex that protects it is held, a mutex is never
    locked twice or unlocked while free, and a node is freed only unlocked.
    The abstract state is a tree with the addresses of its nodes, and above it
    a finite map from keys to values. *)
From S2P Require Import Prelude.

(** ** State *)
Record bst_node : Type := mkNode {
  key : Z; value : Z;
  lock_count : Z;
  locked : bool;
  left : Z; right : Z        (** addresses; 0 is NULL *)
}.

Record bst : Type := mkBst {
  root : Z;
  tree_locked : bool;
  nodes : gmap Z bst_node
}.

Definition NULL : Z := 0.

(** [malloc] of a node (an unused address, or none) and [pthread_mutex_init]. *)
Record env : Type := mkEnv {
  malloc : gmap Z bst_node -> option Z;
  mutex_init : bool
}.

Definition set_nodes (m : gmap Z bst_node) (t : bst) : bst := mkBst (root t) (tree_locked t) m.

(** ** Locks *)
Definition lock_tree : M bst unit := fun t =>
  if tree_locked t then Err Undefined else Ok (tt, mkBst (root t) true (nodes t)).
Definition unlock_tree : M bst unit := fun t =>
  if tree_locked t then Ok (tt, mkBst (root t) false (nodes t)) else Err Undefined.

Definition NODE_LOCK (a : Z) : M bst unit := fun t =>
  match nodes t !! a with
  | Some n =>
      if locked n then Err Undefined else
      Ok (tt, set_nodes (<[a := mkNode (key n) (value n) (u32 (lock_count n + 1)) true (left n) (right n)]> (nodes t)) t)
  | None => Err Undefined
  end.

Definition NODE_UNLOCK (a : Z) : M bst unit := fun t =>
  match nodes t !! a with
  | Some n =>
      if locked n then
        Ok (tt, set_nodes (<[a := mkNode (key n) (value n) (lock_count n) false (left n) (right n)]> (nodes t)) t)
      else Err Undefined
  | None => Err Undefined
  end.

(** Field access under the node's lock. *)
Definition held (a : Z) : M bst bst_node := fun t =>
  match nodes t !! a with
  | Some n => if locked n then Ok (n, t) else Err Undefined
  | None => Err Undefined
  end.

Definition write_node (a : Z) (n : bst_node) : M bst unit :=
  modify (fun t => set_nodes (<[a := n]> (nodes t)) t).

Definition set_left (a p : Z) : M bst unit :=
  n ← held a; write_node a (mkNode (key n) (value n) (lock_count n) true p (right n)).
Definition set_right (a p : Z) : M bst unit :=
  n ← held a; write_node a (mkNode (key n) (value n) (lock_count n) true (left n) p).
Definition set_key_value (a k v : Z) : M bst unit :=
  n ← held a; write_node a (mkNode k v (lock_count n) true (left n) (right n)).

Definition get_root : M bst Z := fun t => if tree_locked t then Ok (root t, t) else Err Undefined.
Definition set_root (p : Z) : M bst unit := fun t =>
  if tree_locked t then Ok (tt, mkBst p (tree_locked t) (nodes t)) else Err Undefined.

(** ** Nodes *)
Definition bst_node_create (e : env) (k v : Z) : M bst Z :=
  t ← get;
  match malloc e (nodes t) with
  | None => mret NULL
  | Some a =>
      if negb (mutex_init e) then mret NULL else
      _ ← write_node a (mkNode k v 0 false NULL NULL);
      mret a
  end.

Definition bst_node_free (a : Z) : M bst unit := fun t =>
  match nodes t !! a with
  | Some n => if locked n then Err Undefined else Ok (tt, set_nodes (delete a (nodes t)) t)
  | None => Err Undefined
  end.

(** ** bst_init, bst_destroy *)
(** [malloc] of the tree and [pthread_mutex_init] succeed or not; a null pointer
    is [None]. *)
Definition bst_init (malloc_ok mutex_ok : bool) : option bst :=
  if negb malloc_ok then None
  else if negb mutex_ok then None
  else Some (mkBst NULL false ∅).

(** After the threads were joined: no lock is needed. *)
Fixpoint bst_destroy_node (fuel : nat) (a : Z) : M bst unit :=
  match fuel with
  | O => fail OutOfFuel
  | S fuel' =>
      if a =? NULL then mret tt else
      t ← get;
      match nodes t !! a with
      | None => fail Undefined
      | Some n =>
          _ ← bst_destroy_node fuel' (left n);
          _ ← bst_destroy_node fuel' (right n);
          bst_node_free a
      end
  end.

(** Enough iterations for every path of the tree. *)
Definition depth_fuel (t : bst) : nat := S (size (nodes t)).

Definition bst_destroy : M bst unit :=
  t ← get; bst_destroy_node (depth_fuel t) (root t).

(** ** bst_insert

    [tree] is the pointer passed; errno is not modelled. *)
Fixpoint insert_loop (fuel : nat) (e : env) (cur k v : Z) : M bst Z :=
  match fuel with
  | O => fail OutOfFuel
  | S fuel' =>
      n ← held cur;
      if k =? key n then
        _ ← NODE_UNLOCK cur; mret (-1)
      else if k <? key n then
        if left n =? NULL then
          new_node ← bst_node_create e k v;
          if new_node =? NULL then _ ← NODE_UNLOCK cur; mret (-1) else
          _ ← set_left cur new_node;
          _ ← NODE_UNLOCK cur;
          mret 0
        else
          let next := left n in
          _ ← NODE_LOCK next;
          _ ← NODE_UNLOCK cur;
          insert_loop fuel' e next k v
      else
        if right n =? NULL then
          new_node ← bst_node_create e k v;
          if new_node =? NULL then _ ← NODE_UNLOCK cur; mret (-1) else
          _ ← set_right cur new_node;
          _ ← NODE_UNLOCK cur;
          mret 0
        else
          let next := right n in
          _ ← NODE_LOCK next;
          _ ← NODE_UNLOCK cur;
          insert_loop fuel' e next k v
  end.

Definition bst_insert (e : env) (tree k v : Z) : M bst Z :=
  if tree =? NULL then mret (-1) else
  t ← get;
  _ ← lock_tree;
  r ← get_root;
  if r =? NULL then
    new_node ← bst_node_create e k v;
    if new_node =? NULL then _ ← unlock_tree; mret (-1) else
    _ ← set_root new_node;
    _ ← unlock_tree;
    mret 0
  else
    let cur := r in
    _ ← NODE_LOCK cur;
    _ ← unlock_tree;
    insert_loop (depth_fuel t) e cur k v.

(** ** bst_lookup: the value written through the pointer, if any *)
Fixpoint lookup_loop (fuel : nat) (cur k : Z) : M bst (option Z * Z) :=
  match fuel with
  | O => fail OutOfFuel
  | S fuel' =>
      n ← held cur;
      if k =? key n then
        _ ← NODE_UNLOCK cur; mret (Some (value n), 0)
      else
        let next := if k <? key n then left n else right n in
        if next =? NULL then _ ← NODE_UNLOCK cur; mret (None, -1) else
        _ ← NODE_LOCK next;
        _ ← NODE_UNLOCK cur;
        lookup_loop fuel' next k
  end.

Definition bst_lookup (tree k value : Z) : M bst (option Z * Z) :=
  if (tree =? NULL) || (value =? NULL) then mret (None, -1) else
  t ← get;
  _ ← lock_tree;
  r ← get_root;
  if r =? NULL then _ ← unlock_tree; mret (None, -1) else
  let cur := r in
  _ ← NODE_LOCK cur;
  _ ← unlock_tree;
  lookup_loop (depth_fuel t) cur k.

(** ** delete_two_children *)
Fixpoint succ_loop (fuel : nat) (cur succ_parent succ : Z) : M bst (Z * Z) :=
  match fuel with
  | O => fail OutOfFuel
  | S fuel' =>
      s ← held succ;
      if left s =? NULL then mret (succ_parent, succ) else
      let next_succ := left s in
      _ ← NODE_LOCK next_succ;
      _ ← (if negb (succ_parent =? cur) then NODE_UNLOCK succ_parent else mret tt);
      succ_loop fuel' cur succ next_succ
  end.

(** From the copy of the successor into [cur] to the end. *)
Definition take_successor (cur succ_parent succ : Z) : M bst unit :=
  s ← held succ;
  _ ← set_key_value cur (key s) (value s);
  _ ← (if succ_parent =? cur then set_right succ_parent (right s)
       else _ ← set_left succ_parent (right s); NODE_UNLOCK succ_parent);
  _ ← NODE_UNLOCK succ;
  bst_node_free succ.

Definition delete_two_children (fuel : nat) (cur : Z) : M bst unit :=
  let succ_parent := cur in
  c ← held cur;
  let succ := right c in
  _ ← NODE_LOCK succ;
  '(succ_parent, succ) ← succ_loop fuel cur succ_parent succ;
  take_successor cur succ_parent succ.

(** ** bst_delete *)

(** From the loop [while (cur->key != key)] on, with parent and cur locked. *)
Fixpoint delete_loop (fuel depth : nat) (parent cur : Z) (is_left : bool) (k : Z) : M bst Z :=
  match fuel with
  | O => fail OutOfFuel
  | S fuel' =>
      c ← held cur;
      if negb (key c =? k) then
        let '(next, is_left) := if k <? key c then (left c, true) else (right c, false) in
        if next =? NULL then
          _ ← NODE_UNLOCK parent; _ ← NODE_UNLOCK cur; mret (-1)
        else
          _ ← NODE_UNLOCK parent;
          _ ← NODE_LOCK next;
          delete_loop fuel' depth cur next is_left k
      else if (left c =? NULL) || (right c =? NULL) then
        let child := if negb (left c =? NULL) then left c else right c in
        _ ← (if is_left then set_left parent child else set_right parent child);
        _ ← NODE_UNLOCK parent;
        _ ← NODE_UNLOCK cur;
        _ ← bst_node_free cur;
        mret 0
      else
        _ ← NODE_UNLOCK parent;
        _ ← delete_two_children depth cur;
        _ ← NODE_UNLOCK cur;
        mret 0
  end.

Definition bst_delete (tree k : Z) : M bst Z :=
  if tree =? NULL then mret (-1) else
  t ← get;
  _ ← lock_tree;
  r ← get_root;
  if r =? NULL then _ ← unlock_tree; mret (-1) else
  let cur := r in
  _ ← NODE_LOCK cur;
  c ← held cur;
  if key c =? k then
    if (left c =? NULL) || (right c =? NULL) then
      _ ← set_root (if negb (left c =? NULL) then left c else right c);
      _ ← unlock_tree;
      _ ← NODE_UNLOCK cur;
      _ ← bst_node_free cur;
      mret 0
    else
      _ ← unlock_tree;
      _ ← delete_two_children (depth_fuel t) cur;
      _ ← NODE_UNLOCK cur;
      mret 0
  else
    _ ← unlock_tree;
    let parent := cur in
    let '(next, is_left) := if k <? key c then (left c, true) else (right c, false) in
    if next =? NULL then _ ← NODE_UNLOCK parent; mret (-1) else
    _ ← NODE_LOCK next;
    delete_loop (depth_fuel t) (depth_fuel t) parent next is_left k.

(** ** The abstract tree *)
Inductive tree : Type :=
  | Leaf
  | Node (a k v : Z) (l r : tree).

#[export] Instance tree_eq_dec : EqDecision tree.
Proof. solve_decision. Defined.

Definition ptr (t : tree) : Z := match t with Leaf => NULL | Node a _ _ _ _ => a end.

Fixpoint addrs (t : tree) : list Z :=
  match t with Leaf => [] | Node a _ _ l r => a :: addrs l ++ addrs r end.

Fixpoint height (t : tree) : nat :=
  match t with Leaf => O | Node _ _ _ l r => S (Nat.max (height l) (height r)) end.

Fixpoint insert_t (a k v : Z) (t : tree) : tree :=
  match t with
  | Leaf => Node a k v Leaf Leaf
  | Node b k' v' l r =>
      if k =? k' then t
      else if k <? k' then Node b k' v' (insert_t a k v l) r
      else Node b k' v' l (insert_t a k v r)
  end.

Fixpoint lookup_t (k : Z) (t : tree) : option Z :=
  match t with
  | Leaf => None
  | Node _ k' v' l r => if k =? k' then Some v' else if k <? k' then lookup_t k l else lookup_t k r
  end.

(** The leftmost node, and the tree without it. *)
Fixpoint min_t (a k v : Z) (l : tree) : Z * Z * Z :=
  match l with Leaf => (a, k, v) | Node a' k' v' l' _ => min_t a' k' v' l' end.

Fixpoint remove_min (t : tree) : tree :=
  match t with
  | Leaf => Leaf
  | Node a k v Leaf r => r
  | Node a k v l r => Node a k v (remove_min l) r
  end.

Fixpoint delete_t (k : Z) (t : tree) : tree :=
  match t with
  | Leaf => Leaf
  | Node a k' v' l r =>
      if k' =? k then
        match l, r with
        | Leaf, _ => r
        | _, Leaf => l
        | _, Node ra rk rv rl _ =>
            let '(_, mk, mv) := min_t ra rk rv rl in Node a mk mv l (remove_min r)
        end
      else if k <? k' then Node a k' v' (delete_t k l) r
      else Node a k' v' l (delete_t k r)
  end.

(** ** Representation *)

(** Node [a] holds the given fields and its mutex is free or held. *)
Definition is_node (m : gmap Z bst_node) (a k v : Z) (b : bool) (l r : Z) : Prop :=
  a <> NULL /\ exists c, m !! a = Some (mkNode k v c b l r).

Fixpoint rep (m : gmap Z bst_node) (t : tree) : Prop :=
  match t with
  | Leaf => True
  | Node a k v l r => is_node m a k v false (ptr l) (ptr r) /\ rep m l /\ rep m r
  end.

(** The same with the mutex of the root held. *)
Definition rep_held (m : gmap Z bst_node) (t : tree) : Prop :=
  match t with
  | Leaf => False
  | Node a k v l r => is_node m a k v true (ptr l) (ptr r) /\ rep m l /\ rep m r
  end.

(** Only the nodes in [A] differ. *)
Definition same_but (A : list Z) (m m' : gmap Z bst_node) : Prop := forall b, b ∉ A -> m' !! b = m !! b.

Lemma rep_same m m' t : rep m t -> (forall b, b ∈ addrs t -> m' !! b = m !! b) -> rep m' t.
Proof.
  induction t as [|a k v l IHl r IHr]; [done|]. cbn. intros ((Ha & c & Hn) & Hl & Hr) H. split_and!.
  - split; [done|]. exists c. rewrite H by set_solver. done.
  - apply IHl; [done|]. intros b Hb. apply H. set_solver.
  - apply IHr; [done|]. intros b Hb. apply H. set_solver.
Qed.

Lemma rep_same_but A m m' t : rep m t -> same_but A m m' -> (forall b, b ∈ A -> b ∉ addrs t) -> rep m' t.
Proof. intros Hr Hs Hd. eapply rep_same; [done|]. intros b Hb. apply Hs. intros HA. by apply (Hd b). Qed.

Lemma rep_insert m t a n : rep m t -> a ∉ addrs t -> rep (<[a := n]> m) t.
Proof. intros Hr Ha. eapply rep_same; [done|]. intros b Hb. apply lookup_insert_ne. by intros ->. Qed.

Lemma rep_ptr m t : rep m t -> ptr t = NULL <-> t = Leaf.
Proof. destruct t; cbn; [done|]. intros ((Ha & _) & _). split; [by intros ->|done]. Qed.

Lemma rep_eqb m t : rep m t -> (ptr t =? NULL) = bool_decide (t = Leaf).
Proof.
  intros Hr. destruct (Z.eqb_spec (ptr t) NULL) as [E|E]; symmetry.
  - by apply bool_decide_eq_true, (rep_ptr m t).
  - apply bool_decide_eq_false. intros ->. by destruct E.
Qed.


(** ** The rules of the lock discipline *)
Lemma wp_held a k v l r st Q :
  is_node (nodes st) a k v true l r ->
  (forall c, nodes st !! a = Some (mkNode k v c true l r) -> Q (mkNode k v c true l r) st) ->
  wp (held a) st Q.
Proof.
  intros (Ha & c & Hn) HQ. unfold wp, held. rewrite Hn. cbn. eauto.
Qed.

Lemma wp_NODE_LOCK a k v l r st (Q : unit -> bst -> Prop) :
  is_node (nodes st) a k v false l r ->
  (forall c, Q tt (set_nodes (<[a := mkNode k v c true l r]> (nodes st)) st)) ->
  wp (NODE_LOCK a) st Q.
Proof. intros (Ha & c & Hn) HQ. unfold wp, NODE_LOCK. rewrite Hn. cbn. eauto. Qed.

Lemma wp_NODE_UNLOCK a k v l r st (Q : unit -> bst -> Prop) :
  is_node (nodes st) a k v true l r ->
  (forall c, Q tt (set_nodes (<[a := mkNode k v c false l r]> (nodes st)) st)) ->
  wp (NODE_UNLOCK a) st Q.
Proof. intros (Ha & c & Hn) HQ. unfold wp, NODE_UNLOCK. rewrite Hn. cbn. eauto. Qed.

Lemma wp_write a n st (Q : unit -> bst -> Prop) :
  Q tt (set_nodes (<[a := n]> (nodes st)) st) -> wp (write_node a n) st Q.
Proof. intros H. unfold wp, write_node, modify. eauto. Qed.

Lemma wp_set_left a k v l r p st (Q : unit -> bst -> Prop) :
  is_node (nodes st) a k v true l r ->
  (forall c, Q tt (set_nodes (<[a := mkNode k v c true p r]> (nodes st)) st)) ->
  wp (set_left a p) st Q.
Proof. intros Hn HQ. unfold set_left. wp_step. eapply wp_held; [done|]. intros c _. by apply wp_write. Qed.

Lemma wp_set_right a k v l r p st (Q : unit -> bst -> Prop) :
  is_node (nodes st) a k v true l r ->
  (forall c, Q tt (set_nodes (<[a := mkNode k v c true l p]> (nodes st)) st)) ->
  wp (set_right a p) st Q.
Proof. intros Hn HQ. unfold set_right. wp_step. eapply wp_held; [done|]. intros c _. by apply wp_write. Qed.

Lemma wp_set_key_value a k v l r k' v' st (Q : unit -> bst -> Prop) :
  is_node (nodes st) a k v true l r ->
  (forall c, Q tt (set_nodes (<[a := mkNode k' v' c true l r]> (nodes st)) st)) ->
  wp (set_key_value a k' v') st Q.
Proof. intros Hn HQ. unfold set_key_value. wp_step. eapply wp_held; [done|]. intros c _. by apply wp_write. Qed.

Lemma wp_free a k v l r st (Q : unit -> bst -> Prop) :
  is_node (nodes st) a k v false l r -> Q tt (set_nodes (delete a (nodes st)) st) -> wp (bst_node_free a) st Q.
Proof. intros (Ha & c & Hn) HQ. unfold wp, bst_node_free. rewrite Hn. cbn. eauto. Qed.

Lemma wp_lock_tree st (Q : unit -> bst -> Prop) :
  tree_locked st = false -> Q tt (mkBst (root st) true (nodes st)) -> wp lock_tree st Q.
Proof. intros Hl HQ. unfold wp, lock_tree. rewrite Hl. eauto. Qed.

Lemma wp_unlock_tree st (Q : unit -> bst -> Prop) :
  tree_locked st = true -> Q tt (mkBst (root st) false (nodes st)) -> wp unlock_tree st Q.
Proof. intros Hl HQ. unfold wp, unlock_tree. rewrite Hl. eauto. Qed.

Lemma wp_get_root st (Q : Z -> bst -> Prop) : tree_locked st = true -> Q (root st) st -> wp get_root st Q.
Proof. intros Hl HQ. unfold wp, get_root. rewrite Hl. eauto. Qed.

Lemma wp_set_root p st (Q : unit -> bst -> Prop) :
  tree_locked st = true -> Q tt (mkBst p true (nodes st)) -> wp (set_root p) st Q.
Proof. intros Hl HQ. unfold wp, set_root. rewrite Hl. eauto. Qed.

(** Node facts under updates. *)
Lemma is_node_eq m a k v c b l r : a <> NULL -> is_node (<[a := mkNode k v c b l r]> m) a k v b l r.
Proof. intros Ha. split; [done|]. exists c. apply lookup_insert_eq. Qed.

Lemma is_node_ne m a a' n k v b l r : a <> a' -> is_node m a k v b l r -> is_node (<[a' := n]> m) a k v b l r.
Proof. intros Hne (Ha & c & Hn). split; [done|]. exists c. by rewrite lookup_insert_ne by done. Qed.

Lemma is_node_same A m m' a k v b l r : is_node m a k v b l r -> same_but A m m' -> a ∉ A -> is_node m' a k v b l r.
Proof. intros (Ha & c & Hn) Hs HA. split; [done|]. exists c. by rewrite Hs. Qed.

Lemma same_but_refl A m : same_but A m m.
Proof. done. Qed.

Lemma same_but_insert A m m' a n : a ∈ A -> same_but A m m' -> same_but A m (<[a := n]> m').
Proof. intros Ha Hs b Hb. rewrite lookup_insert_ne by set_solver. by apply Hs. Qed.

Lemma same_but_insert1 m a n : same_but [a] m (<[a := n]> m).
Proof. apply same_but_insert; [set_solver|apply same_but_refl]. Qed.

Lemma same_but_delete A m m' a : a ∈ A -> same_but A m m' -> same_but A m (delete a m').
Proof. intros Ha Hs b Hb. rewrite lookup_delete_ne by set_solver. by apply Hs. Qed.

Lemma same_but_trans A B C m1 m2 m3 :
  same_but A m1 m2 -> same_but B m2 m3 -> (forall b, b ∈ A -> b ∈ C) -> (forall b, b ∈ B -> b ∈ C) ->
  same_but C m1 m3.
Proof. intros H1 H2 HA HB b Hb. rewrite H2 by auto. apply H1. auto. Qed.

(** ** Insertion *)
Definition env_ok (e : env) : Prop := forall m a, malloc e m = Some a -> a <> NULL /\ m !! a = None.
Definition can_create (e : env) : Prop := mutex_init e = true /\ forall m, malloc e m <> None.

Lemma wp_create e k v st (Q : Z -> bst -> Prop) :
  env_ok e ->
  (~ can_create e -> Q NULL st) ->
  (forall a, a <> NULL -> nodes st !! a = None ->
     Q a (set_nodes (<[a := mkNode k v 0 false NULL NULL]> (nodes st)) st)) ->
  wp (bst_node_create e k v) st Q.
Proof.
  intros He Hf Hs. unfold bst_node_create. wp_step. wp_step.
  destruct (malloc e (nodes st)) as [a|] eqn:Hm.
  - destruct (mutex_init e) eqn:Hi; cbn [negb].
    + destruct (He _ _ Hm) as [Ha Hn]. wp_step. apply wp_write. apply wp_ret. by apply Hs.
    + apply wp_ret, Hf. intros [? _]. congruence.
  - apply wp_ret, Hf. intros [_ H]. by apply (H (nodes st)).
Qed.

(** How an insertion into the subtree [t] ends. *)
Definition insert_post (e : env) (k v : Z) (t : tree) (st : bst) (res : Z) (st' : bst) : Prop :=
  root st' = root st /\ tree_locked st' = tree_locked st /\
  ((res = -1 /\ (is_Some (lookup_t k t) \/ ~ can_create e) /\ rep (nodes st') t /\
    same_but (addrs t) (nodes st) (nodes st') /\ dom (nodes st') = dom (nodes st)) \/
   (res = 0 /\ lookup_t k t = None /\ exists a, a <> NULL /\ nodes st !! a = None /\
    rep (nodes st') (insert_t a k v t) /\ same_but (a :: addrs t) (nodes st) (nodes st') /\
    dom (nodes st') = {[a]} ∪ dom (nodes st))).

Lemma dom_insert_is_node m a k v b l r n :
  is_node m a k v b l r -> dom (<[a := n]> m) = dom m.
Proof. intros (_ & c & Hn). apply dom_insert_lookup_L. by rewrite Hn. Qed.

Lemma nodup_node a k v l r :
  NoDup (addrs (Node a k v l r)) ->
  a ∉ addrs l /\ a ∉ addrs r /\ NoDup (addrs l) /\ NoDup (addrs r) /\ (forall b, b ∈ addrs l -> b ∉ addrs r).
Proof.
  cbn. intros [Ha H]%NoDup_cons. apply NoDup_app in H as (Hl & Hd & Hr). set_solver.
Qed.

Lemma ptr_in t : t <> Leaf -> ptr t ∈ addrs t.
Proof. destruct t; [done|]. intros _. apply list_elem_of_here. Qed.

(** What holds after the child's lock was taken and the node's released. *)
Record descended (m m2 : gmap Z bst_node) (a k v : Z) (l r t1 t2 : tree) : Prop := {
  de_held : rep_held m2 t1;
  de_node : is_node m2 a k v false (ptr l) (ptr r);
  de_other : rep m2 t2;
  de_same : same_but [a; ptr t1] m m2;
  de_dom : dom m2 = dom m
}.

Lemma rep_lock m t a k v l r c :
  t = Node a k v l r -> NoDup (addrs t) -> rep m t ->
  rep_held (<[a := mkNode k v c true (ptr l) (ptr r)]> m) t.
Proof.
  intros -> Hnd (Hn & Hl & Hr). apply nodup_node in Hnd as (Hal & Har & _). split_and!.
  - apply is_node_eq. by destruct Hn.
  - by apply rep_insert.
  - by apply rep_insert.
Qed.

Lemma rep_held_insert m t a n : rep_held m t -> a ∉ addrs t -> rep_held (<[a := n]> m) t.
Proof.
  destruct t as [|b k v l r]; [done|]. cbn. intros (Hn & Hl & Hr) Ha. split_and!.
  - apply is_node_ne; [set_solver|done].
  - apply rep_insert; [done|set_solver].
  - apply rep_insert; [done|set_solver].
Qed.

Lemma wp_descend {A} st a k v l r t1 t2 (K : M bst A) Q :
  rep_held (nodes st) (Node a k v l r) -> NoDup (addrs (Node a k v l r)) ->
  (t1 = l /\ t2 = r \/ t1 = r /\ t2 = l) -> t1 <> Leaf ->
  (forall m2, descended (nodes st) m2 a k v l r t1 t2 -> wp K (set_nodes m2 st) Q) ->
  wp (_ ← NODE_LOCK (ptr t1); _ ← NODE_UNLOCK a; K) st Q.
Proof.
  intros (Hn & Hl & Hr) Hnd H12 Hne HK.
  apply nodup_node in Hnd as (Hal & Har & Hndl & Hndr & Hd).
  assert (rep (nodes st) t1 /\ rep (nodes st) t2 /\ NoDup (addrs t1) /\ a ∉ addrs t1 /\ a ∉ addrs t2 /\
          ptr t1 ∉ addrs t2) as (H1 & H2 & Hnd1 & Ha1 & Ha2 & Hp2).
  { destruct H12 as [[-> ->]|[-> ->]]; split_and!; try done; pose proof (ptr_in _ Hne); set_solver. }
  assert (a <> ptr t1) as Hap by (intros ->; apply Ha1, ptr_in, Hne).
  destruct t1 as [|b k1 v1 l1 r1]; [done|]. pose proof H1 as (Hn1 & _).
  wp_step. eapply wp_NODE_LOCK; [exact Hn1|]. intros c1.
  wp_step. eapply wp_NODE_UNLOCK; [cbn; apply is_node_ne; [done|exact Hn]|]. intros c2. cbn [nodes set_nodes].
  apply HK. split.
  - apply rep_held_insert; [|done]. by eapply rep_lock.
  - apply is_node_eq. by destruct Hn.
  - apply rep_insert; [|done]. by apply rep_insert.
  - apply same_but_insert; [set_solver|]. apply same_but_insert; [set_solver|]. apply same_but_refl.
  - erewrite (dom_insert_is_node _ a); [by eapply dom_insert_is_node|]. apply is_node_ne; [done|exact Hn].
Qed.

(** Two updates of a node in a row are the second one. *)
Lemma rep_unlock m a k v l r c :
  rep_held m (Node a k v l r) -> NoDup (addrs (Node a k v l r)) ->
  rep (<[a := mkNode k v c false (ptr l) (ptr r)]> m) (Node a k v l r).
Proof.
  intros (Hn & Hl & Hr) (Hal & Har & _)%nodup_node. split_and!.
  - apply is_node_eq. by destruct Hn.
  - by apply rep_insert.
  - by apply rep_insert.
Qed.

Lemma insert_t_ptr a k v t : t <> Leaf -> ptr (insert_t a k v t) = ptr t.
Proof. destruct t; [done|]. intros _. cbn. repeat case_match; done. Qed.

Lemma insert_t_addrs a k v t : lookup_t k t = None -> addrs (insert_t a k v t) ≡ₚ a :: addrs t.
Proof.
  induction t as [|b k' v' l IHl r IHr]; [done|]. cbn.
  destruct (Z.eqb_spec k k'); [done|]. destruct (Z.ltb_spec k k'); intros Hlk; cbn.
  - rewrite IHl by done. cbn. apply Permutation_swap.
  - rewrite IHr by done. rewrite <-Permutation_middle. apply Permutation_swap.
Qed.

Lemma insert_t_same a k v t : is_Some (lookup_t k t) -> insert_t a k v t = t.
Proof.
  induction t as [|b k' v' l IHl r IHr]; cbn; [by intros [? ?]|].
  destruct (Z.eqb_spec k k'); [done|]. destruct (Z.ltb_spec k k'); intros Hlk; f_equal; auto.
Qed.

(** The result of a node from that of the child in which the loop went on. *)
Lemma insert_post_child e k v st m2 a k' v' l r t1 t2 res st' :
  descended (nodes st) m2 a k' v' l r t1 t2 -> NoDup (addrs (Node a k' v' l r)) -> t1 <> Leaf ->
  (t1 = l /\ t2 = r /\ k < k' \/ t1 = r /\ t2 = l /\ k' < k) ->
  insert_post e k v t1 (set_nodes m2 st) res st' ->
  insert_post e k v (Node a k' v' l r) st res st'.
Proof.
  intros [Hh Hn Ho Hs Hd] Hnd Hne H12 (Hr & Hl & Hres).
  apply nodup_node in Hnd as (Hal & Har & Hndl & Hndr & Hlr).
  assert (lookup_t k (Node a k' v' l r) = lookup_t k t1) as Elk.
  { cbn. rewrite (proj2 (Z.eqb_neq _ _)) by lia.
    destruct H12 as [(-> & -> & ?)|(-> & -> & ?)]; [rewrite (proj2 (Z.ltb_lt _ _))|rewrite (proj2 (Z.ltb_ge _ _))]; lia || done. }
  assert (a ∉ addrs t1 /\ (forall b, b ∈ addrs t1 -> b ∉ addrs t2) /\
          (forall b, b ∈ addrs t1 -> b ∈ addrs (Node a k' v' l r)) /\
          (forall b, b ∈ addrs t2 -> is_Some (m2 !! b))) as (Ha1 & H1d & Hsub & Hdom2).
  { split_and!.
    - destruct H12 as [(-> & -> & ?)|(-> & -> & ?)]; done.
    - destruct H12 as [(-> & -> & ?)|(-> & -> & ?)]; set_solver.
    - cbn. destruct H12 as [(-> & -> & ?)|(-> & -> & ?)]; set_solver.
    - intros b. clear -Ho. revert Ho. generalize t2. intros t. induction t as [|b' ? ? l IHl r IHr]; [set_solver|].
      cbn. intros ((_ & c & E) & Hl & Hr) [->|[Hb|Hb]%elem_of_app]%elem_of_cons; eauto. }
  pose proof (ptr_in _ Hne) as Hp1.
  split; [exact Hr|]. split; [exact Hl|]. cbn [nodes set_nodes] in Hres. destruct Hres as [Hres|Hres]; [left|right].
  - destruct Hres as (-> & Hcase & Hrep & Hsame & Hdom). split_and!; [done|by rewrite Elk| | |by rewrite Hdom].
    + cbn. split; [by eapply is_node_same|].
      assert (rep (nodes st') t2) by (eapply rep_same_but; [exact Ho|exact Hsame|done]).
      destruct H12 as [(-> & -> & ?)|(-> & -> & ?)]; done.
    + eapply same_but_trans; [exact Hs|exact Hsame| |exact Hsub].
      intros b [->|[->|[]%elem_of_nil]%elem_of_cons]%elem_of_cons; [set_solver|auto].
  - destruct Hres as (-> & Hnone & x & Hx & Hfresh & Hrep & Hsame & Hdom).
    assert (x <> a) as Hxa by (intros ->; destruct Hn as (_ & c & E); congruence).
    assert (x ∉ addrs t2) as Hx2 by (intros Hin; destruct (Hdom2 _ Hin); congruence).
    split_and!; [done|by rewrite Elk|]. exists x. split_and!.
    + done.
    + destruct (nodes st !! x) eqn:E; [|done].
      assert (x ∈ dom m2) as Hin by (rewrite Hd; by eapply elem_of_dom_2).
      apply elem_of_dom in Hin as [? ?]. congruence.
    + assert (rep (nodes st') t2).
      { eapply rep_same_but; [exact Ho|exact Hsame|]. intros b [->|Hb]%elem_of_cons; auto. }
      assert (is_node (nodes st') a k' v' false (ptr l) (ptr r)).
      { eapply is_node_same; [exact Hn|exact Hsame|]. intros [?|?]%elem_of_cons; [congruence|done]. }
      cbn. rewrite (proj2 (Z.eqb_neq _ _)) by lia.
      destruct H12 as [(-> & -> & ?)|(-> & -> & ?)];
        [rewrite (proj2 (Z.ltb_lt _ _)) by lia|rewrite (proj2 (Z.ltb_ge _ _)) by lia];
        cbn; rewrite insert_t_ptr by done; done.
    + eapply same_but_trans; [exact Hs|exact Hsame| |].
      * intros b [->|[->|[]%elem_of_nil]%elem_of_cons]%elem_of_cons; [set_solver|].
        apply elem_of_cons. right. auto.
      * intros b [->|Hb]%elem_of_cons; [set_solver|]. apply elem_of_cons. right. auto.
    + by rewrite Hdom, Hd.
Qed.

(** A new leaf below [a]: the node is created, linked and unlocked. *)
Lemma rep_attach m t1 a k v c l r x kx vx :
  rep_held m (Node a k v l r) -> NoDup (addrs (Node a k v l r)) -> x <> NULL -> m !! x = None ->
  (l = Leaf /\ t1 = Node a k v (Node x kx vx Leaf Leaf) r \/
   r = Leaf /\ t1 = Node a k v l (Node x kx vx Leaf Leaf)) ->
  forall p q, p = ptr (match t1 with Node _ _ _ l' _ => l' | Leaf => Leaf end) ->
    q = ptr (match t1 with Node _ _ _ _ r' => r' | Leaf => Leaf end) ->
  rep (<[a := mkNode k v c false p q]> (<[x := mkNode kx vx 0 false NULL NULL]> m)) t1.
Proof.
  intros (Hn & Hl & Hr) (Hal & Har & _)%nodup_node Hx Hfresh Ht1 p q -> ->.
  assert (x <> a) as Hxa by (intros ->; destruct Hn as (_ & c' & E); congruence).
  assert (forall t, rep m t -> a ∉ addrs t ->
    forall n n', rep (<[a := n]> (<[x := n']> m)) t) as Hsub.
  { intros t Ht Ha n n'. apply rep_insert; [|done]. eapply rep_same; [exact Ht|].
    intros b Hb. apply lookup_insert_ne. intros <-.
    clear -Ht Hb Hfresh. induction t as [|b' ? ? l IHl r IHr]; [set_solver|].
    destruct Ht as ((_ & c & E) & Hl & Hr). cbn in Hb.
    apply elem_of_cons in Hb as [->|[Hb|Hb]%elem_of_app]; [congruence|auto|auto]. }
  assert (is_node (<[x := mkNode kx vx 0 false NULL NULL]> m) x kx vx false NULL NULL)
    by (by apply is_node_eq).
  destruct Ht1 as [[-> ->]|[-> ->]]; cbn; split_and!; auto; try (apply is_node_eq; by destruct Hn);
    (apply is_node_ne; done).
Qed.

Lemma wp_attach e st a k v l r k0 v0 (setter : Z -> M bst unit) Q t1 :
  env_ok e -> rep_held (nodes st) (Node a k v l r) -> NoDup (addrs (Node a k v l r)) ->
  lookup_t k0 (Node a k v l r) = None ->
  (l = Leaf /\ setter = set_left a /\ (forall x, t1 x = Node a k v (Node x k0 v0 Leaf Leaf) r) \/
   r = Leaf /\ setter = set_right a /\ (forall x, t1 x = Node a k v l (Node x k0 v0 Leaf Leaf))) ->
  (forall x, t1 x = insert_t x k0 v0 (Node a k v l r)) ->
  (forall res st', insert_post e k0 v0 (Node a k v l r) st res st' -> Q res st') ->
  wp (new_node ← bst_node_create e k0 v0;
      if new_node =? NULL then _ ← NODE_UNLOCK a; mret (-1) else
      _ ← setter new_node; _ ← NODE_UNLOCK a; mret 0) st Q.
Proof.
  intros He Hrep Hnd Hnone Ht1 Hins HQ. pose proof Hrep as (Hn & Hl & Hr).
  wp_step. apply wp_create; [done| |].
  - intros Hfail. cbn [Z.eqb NULL]. wp_step. eapply wp_NODE_UNLOCK; [exact Hn|]. intros c.
    apply wp_ret, HQ. split; [done|]. split; [done|]. left. split_and!; [done|by right| | |].
    + by apply rep_unlock.
    + apply same_but_insert; [set_solver|apply same_but_refl].
    + by eapply dom_insert_is_node.
  - intros x Hx Hfresh. rewrite (proj2 (Z.eqb_neq _ _)) by done.
    assert (x <> a) as Hxa by (intros ->; destruct Hn as (_ & c' & E); congruence).
    wp_step. set (m1 := <[x := _]> (nodes st)).
    assert (is_node m1 a k v true (ptr l) (ptr r)) as Hn1 by (by apply is_node_ne).
    assert (forall c p q, p = ptr (match t1 x with Node _ _ _ l' _ => l' | Leaf => Leaf end) ->
      q = ptr (match t1 x with Node _ _ _ _ r' => r' | Leaf => Leaf end) ->
      insert_post e k0 v0 (Node a k v l r) st 0
        (set_nodes (<[a := mkNode k v c false p q]> m1) st)) as Hpost.
    { intros c p q Hp Hq. split; [done|]. split; [done|]. right. split; [done|]. split; [done|].
      exists x. split; [done|]. split; [done|]. cbn [nodes set_nodes]. split_and!.
      - rewrite <-Hins. unfold m1. eapply rep_attach; try done.
        destruct Ht1 as [(? & _ & ->)|(? & _ & ->)]; auto.
      - apply same_but_insert; [set_solver|]. apply same_but_insert; [set_solver|]. apply same_but_refl.
      - erewrite dom_insert_is_node by exact Hn1. apply dom_insert_L. }
    destruct Ht1 as [(-> & -> & Et)|(-> & -> & Et)].
    + eapply wp_set_left; [exact Hn1|]. intros c1. wp_step.
      eapply wp_NODE_UNLOCK; [cbn [nodes set_nodes]; apply is_node_eq; by destruct Hn|]. intros c2.
      cbn [nodes set_nodes]. rewrite insert_insert_eq. apply wp_ret, HQ. apply Hpost; by rewrite Et.
    + eapply wp_set_right; [exact Hn1|]. intros c1. wp_step.
      eapply wp_NODE_UNLOCK; [cbn [nodes set_nodes]; apply is_node_eq; by destruct Hn|]. intros c2.
      cbn [nodes set_nodes]. rewrite insert_insert_eq. apply wp_ret, HQ. apply Hpost; by rewrite Et.
Qed.

Lemma insert_loop_wp e k v t st fuel :
  env_ok e -> rep_held (nodes st) t -> NoDup (addrs t) -> (height t <= fuel)%nat ->
  wp (insert_loop fuel e (ptr t) k v) st (insert_post e k v t st).
Proof.
  intros He. revert st fuel. induction t as [|a k' v' l IHl r IHr]; intros st fuel Hrep Hnd Hf; [done|].
  destruct fuel as [|fuel]; [cbn in Hf; lia|]. cbn [insert_loop ptr]. pose proof Hrep as (Hn & Hl & Hr).
  wp_step. eapply wp_held; [exact Hn|]. intros c _. cbn [key left right].
  destruct (Z.eqb_spec k k') as [->|Hne].
  - wp_step. eapply wp_NODE_UNLOCK; [exact Hn|]. intros c'. apply wp_ret.
    split; [done|]. split; [done|]. left. split_and!; [done| | | |].
    + left. cbn. rewrite Z.eqb_refl. eauto.
    + by apply rep_unlock.
    + apply same_but_insert; [set_solver|apply same_but_refl].
    + by eapply dom_insert_is_node.
  - pose proof (nodup_node _ _ _ _ _ Hnd) as (_ & _ & Hndl & Hndr & _). cbn in Hf.
    destruct (Z.ltb_spec k k').
    + rewrite (rep_eqb _ _ Hl). case_bool_decide as Hlf.
      * subst l. eapply wp_attach; [done|exact Hrep|done| |left|reflexivity|done].
        -- cbn. rewrite (proj2 (Z.eqb_neq _ _)), (proj2 (Z.ltb_lt _ _)) by done. done.
        -- split_and!; [done|done|]. intros x. cbn.
           rewrite (proj2 (Z.eqb_neq _ _)), (proj2 (Z.ltb_lt _ _)) by done. done.
      * eapply (wp_descend st a k' v' l r l r); [exact Hrep|done|by left|done|]. intros m2 Hde.
        eapply wp_mono; [apply IHl; [apply Hde|done|lia]|]. intros res st' Hpost.
        eapply insert_post_child; [exact Hde|done|done|left; done|exact Hpost].
    + assert (k' < k) by lia. rewrite (rep_eqb _ _ Hr). case_bool_decide as Hrf.
      * subst r. eapply wp_attach; [done|exact Hrep|done| |right|reflexivity|done].
        -- cbn. rewrite (proj2 (Z.eqb_neq _ _)), (proj2 (Z.ltb_ge _ _)) by lia. done.
        -- split_and!; [done|done|]. intros x. cbn.
           rewrite (proj2 (Z.eqb_neq _ _)), (proj2 (Z.ltb_ge _ _)) by lia. done.
      * eapply (wp_descend st a k' v' l r r l); [exact Hrep|done|by right|done|]. intros m2 Hde.
        eapply wp_mono; [apply IHr; [apply Hde|done|lia]|]. intros res st' Hpost.
        eapply insert_post_child; [exact Hde|done|done|right; done|exact Hpost].
Qed.

(** ** Lookup *)
Definition lookup_result (o : option Z) : option Z * Z := (o, match o with Some _ => 0 | None => -1 end).

Definition quiet_post (t : tree) (st st' : bst) : Prop :=
  root st' = root st /\ tree_locked st' = tree_locked st /\ rep (nodes st') t /\
  same_but (addrs t) (nodes st) (nodes st') /\ dom (nodes st') = dom (nodes st).

Lemma quiet_child st m2 a k v l r t1 t2 st' :
  descended (nodes st) m2 a k v l r t1 t2 -> NoDup (addrs (Node a k v l r)) -> t1 <> Leaf ->
  (t1 = l /\ t2 = r \/ t1 = r /\ t2 = l) ->
  quiet_post t1 (set_nodes m2 st) st' -> quiet_post (Node a k v l r) st st'.
Proof.
  intros [Hh Hn Ho Hs Hd] Hnd Hne H12 (Hr & Hl & Hrep & Hsame & Hdom).
  apply nodup_node in Hnd as (Hal & Har & Hndl & Hndr & Hlr). cbn [nodes set_nodes] in *.
  pose proof (ptr_in _ Hne) as Hp1.
  assert (a ∉ addrs t1) by (destruct H12 as [[-> ->]|[-> ->]]; done).
  assert (rep (nodes st') t2).
  { eapply rep_same_but; [exact Ho|exact Hsame|]. destruct H12 as [[-> ->]|[-> ->]]; set_solver. }
  split_and!; [done|done| | |by rewrite Hdom].
  - cbn. split; [by eapply is_node_same|]. destruct H12 as [[-> ->]|[-> ->]]; done.
  - assert (forall b, b ∈ addrs t1 -> b ∈ addrs (Node a k v l r)).
    { cbn. destruct H12 as [[-> ->]|[-> ->]]; set_solver. }
    eapply same_but_trans; [exact Hs|exact Hsame| |done].
    intros b [->|[->|[]%elem_of_nil]%elem_of_cons]%elem_of_cons; [set_solver|auto].
Qed.

Lemma quiet_unlock st a k v l r c :
  rep_held (nodes st) (Node a k v l r) -> NoDup (addrs (Node a k v l r)) ->
  quiet_post (Node a k v l r) st (set_nodes (<[a := mkNode k v c false (ptr l) (ptr r)]> (nodes st)) st).
Proof.
  intros Hrep Hnd. split_and!; [done|done| | |].
  - by apply rep_unlock.
  - apply same_but_insert; [set_solver|apply same_but_refl].
  - eapply dom_insert_is_node. apply Hrep.
Qed.

Lemma lookup_loop_wp k t st fuel :
  rep_held (nodes st) t -> NoDup (addrs t) -> (height t <= fuel)%nat ->
  wp (lookup_loop fuel (ptr t) k) st (fun res st' =>
    res = lookup_result (lookup_t k t) /\ quiet_post t st st').
Proof.
  revert st fuel. induction t as [|a k' v' l IHl r IHr]; intros st fuel Hrep Hnd Hf; [done|].
  destruct fuel as [|fuel]; [cbn in Hf; lia|]. cbn [lookup_loop ptr]. pose proof Hrep as (Hn & Hl & Hr).
  wp_step. eapply wp_held; [exact Hn|]. intros c _. cbn [key left right value].
  pose proof (nodup_node _ _ _ _ _ Hnd) as (_ & _ & Hndl & Hndr & _). cbn in Hf. cbn [lookup_t].
  destruct (Z.eqb_spec k k') as [->|Hne].
  { wp_step. eapply wp_NODE_UNLOCK; [exact Hn|]. intros c'. apply wp_ret. split; [done|].
    by apply quiet_unlock. }
  assert (forall t1 t2, (t1 = l /\ t2 = r \/ t1 = r /\ t2 = l) -> rep (nodes st) t1 ->
    (forall st fuel, rep_held (nodes st) t1 -> NoDup (addrs t1) -> (height t1 <= fuel)%nat ->
      wp (lookup_loop fuel (ptr t1) k) st (fun res st' =>
        res = lookup_result (lookup_t k t1) /\ quiet_post t1 st st')) ->
    wp (if ptr t1 =? NULL then _ ← NODE_UNLOCK a; mret (None, -1) else
        _ ← NODE_LOCK (ptr t1); _ ← NODE_UNLOCK a; lookup_loop fuel (ptr t1) k) st
      (fun res st' => res = lookup_result (lookup_t k t1) /\ quiet_post (Node a k' v' l r) st st')) as Hchild.
  { intros t1 t2 H12 Hr1 IH. rewrite (rep_eqb _ _ Hr1). case_bool_decide as Hlf.
    - wp_step. eapply wp_NODE_UNLOCK; [exact Hn|]. intros c'. apply wp_ret. subst t1. split; [done|].
      by apply quiet_unlock.
    - eapply (wp_descend st a k' v' l r t1 t2); [exact Hrep|done|done|done|]. intros m2 Hde.
      assert (NoDup (addrs t1) /\ (height t1 <= fuel)%nat) as [Hnd1 Hf1].
      { destruct H12 as [[-> _]|[-> _]]; split; done || lia. }
      eapply wp_mono; [apply IH; [apply Hde|done|done]|]. intros res st' [-> Hq]. split; [done|].
      by eapply quiet_child. }
  destruct (Z.ltb_spec k k'); [apply (Hchild l r)|apply (Hchild r l)]; auto.
Qed.

(** ** Deletion: the tree side *)
Definition min_of (t : tree) : Z * Z * Z :=
  match t with Leaf => (0, 0, 0) | Node a k v l _ => min_t a k v l end.

Fixpoint deleted_addr (k : Z) (t : tree) : option Z :=
  match t with
  | Leaf => None
  | Node a k' _ l r =>
      if k' =? k then
        Some (if bool_decide (l = Leaf) || bool_decide (r = Leaf) then a else (min_of r).1.1)
      else if k <? k' then deleted_addr k l else deleted_addr k r
  end.

Lemma remove_min_node a k v l r : l <> Leaf -> remove_min (Node a k v l r) = Node a k v (remove_min l) r.
Proof. by destruct l. Qed.

Lemma min_of_node a k v l r : l <> Leaf -> min_of (Node a k v l r) = min_of l.
Proof. by destruct l. Qed.

Lemma delete_t_two k a v l r :
  l <> Leaf -> r <> Leaf ->
  delete_t k (Node a k v l r) = Node a (min_of r).1.2 (min_of r).2 l (remove_min r).
Proof.
  intros Hl Hr. cbn. rewrite Z.eqb_refl. destruct l, r; try done. cbn.
  by destruct (min_t _ _ _ _) as [[??]?].
Qed.

Lemma remove_min_addrs t : t <> Leaf -> addrs t ≡ₚ (min_of t).1.1 :: addrs (remove_min t).
Proof.
  induction t as [|a k v l IHl r _]; [done|]. intros _. destruct (decide (l = Leaf)) as [->|Hl]; [done|].
  rewrite min_of_node, remove_min_node by done. cbn [addrs]. rewrite (IHl Hl). cbn. apply Permutation_swap.
Qed.

Lemma delete_t_addrs k t x : deleted_addr k t = Some x -> addrs t ≡ₚ x :: addrs (delete_t k t).
Proof.
  induction t as [|a k' v l IHl r IHr]; [done|]. cbn [deleted_addr].
  destruct (Z.eqb_spec k' k) as [->|Hne].
  - intros [= <-]. destruct (decide (l = Leaf)) as [->|Hl].
    { cbn. by rewrite Z.eqb_refl. }
    destruct (decide (r = Leaf)) as [->|Hr].
    { cbn. rewrite Z.eqb_refl. destruct l; [done|]. by rewrite orb_true_r, app_nil_r. }
    rewrite !bool_decide_eq_false_2, delete_t_two by done. cbn [orb addrs].
    rewrite (remove_min_addrs r Hr) at 1. rewrite <-Permutation_middle. apply Permutation_swap.
  - cbn [delete_t]. rewrite (proj2 (Z.eqb_neq _ _)) by done. destruct (k <? k'); intros Hx; cbn [addrs].
    + rewrite (IHl Hx). cbn. apply Permutation_swap.
    + rewrite (IHr Hx), <-Permutation_middle. apply Permutation_swap.
Qed.

Lemma deleted_addr_lookup k t : is_Some (deleted_addr k t) <-> is_Some (lookup_t k t).
Proof.
  induction t as [|a k' v l IHl r IHr]; [done|]. cbn. rewrite (Z.eqb_sym k' k).
  destruct (k =? k'); [by split; eauto|]. by destruct (k <? k').
Qed.

Lemma delete_t_none k t : deleted_addr k t = None -> delete_t k t = t.
Proof.
  induction t as [|a k' v l IHl r IHr]; [done|]. cbn [deleted_addr delete_t].
  destruct (k' =? k); [done|]. by destruct (k <? k'); intros Hx; f_equal; auto.
Qed.

(** A deletion below a node other than the deleted one leaves its root. *)
Lemma delete_t_ptr k a k' v l r : k' <> k -> ptr (delete_t k (Node a k' v l r)) = a.
Proof. intros Hne. cbn. rewrite (proj2 (Z.eqb_neq _ _)) by done. by destruct (k <? k'). Qed.

(** ** Deletion: the successor *)
Record succ_post (t : tree) (cur kc vc lc rc sp ks vs rs : Z) (st st' : bst) : Prop := {
  sp_root : root st' = root st;
  sp_lock : tree_locked st' = tree_locked st;
  sp_cur : is_node (nodes st') cur (min_of t).1.2 (min_of t).2 true lc
             (if sp =? cur then ptr (remove_min t) else rc);
  sp_parent : sp <> cur -> is_node (nodes st') sp ks vs false (ptr (remove_min t)) rs;
  sp_rep : rep (nodes st') (remove_min t);
  sp_same : same_but (cur :: sp :: addrs t) (nodes st) (nodes st');
  sp_dom : dom (nodes st') = dom (nodes st) ∖ {[(min_of t).1.1]}
}.

Lemma wp_take_successor st s k v r cur kc vc lc rc sp ks vs rs :
  rep_held (nodes st) (Node s k v Leaf r) -> NoDup (addrs (Node s k v Leaf r)) ->
  is_node (nodes st) cur kc vc true lc rc -> cur ∉ addrs (Node s k v Leaf r) ->
  sp ∉ addrs (Node s k v Leaf r) ->
  (sp <> cur -> is_node (nodes st) sp ks vs true s rs) ->
  wp (take_successor cur sp s) st
    (fun _ st' => succ_post (Node s k v Leaf r) cur kc vc lc rc sp ks vs rs st st').
Proof.
  intros (Hn & _ & Hr) (_ & Hsr & _)%nodup_node Hc Hcur Hsp Hspn. cbn [addrs app] in *.
  assert (cur <> s /\ cur ∉ addrs r /\ sp <> s /\ sp ∉ addrs r) as (Hcs & Hcr & Hss & Hspr) by set_solver.
  pose proof (proj1 Hc) as Hc0. pose proof (proj1 Hn) as Hs0.
  unfold take_successor. wp_step. eapply wp_held; [exact Hn|]. intros c _. cbn [key value right].
  wp_step. eapply wp_set_key_value; [exact Hc|]. intros c1. wp_step.
  set (m1 := <[cur := _]> (nodes st)).
  assert (is_node m1 cur k v true lc rc) as Hc1 by (by apply is_node_eq).
  assert (is_node m1 s k v true NULL (ptr r)) as Hn1 by (by apply is_node_ne).
  assert (rep m1 r) as Hr1 by (by apply rep_insert).
  assert (dom m1 = dom (nodes st)) as Hd1 by (eapply dom_insert_is_node; exact Hc).
  destruct (Z.eqb_spec sp cur) as [->|Hne].
  - eapply wp_set_right; [exact Hc1|]. intros c2. wp_step. cbn [nodes set_nodes].
    eapply wp_NODE_UNLOCK; [cbn [nodes set_nodes]; apply is_node_ne; [done|exact Hn1]|].
    intros c3. cbn [nodes set_nodes].
    eapply wp_free; [cbn [nodes set_nodes]; by apply is_node_eq|]. cbn [nodes set_nodes].
    split; cbn [nodes set_nodes min_of remove_min min_t fst snd]; try done.
    + rewrite Z.eqb_refl. split; [done|]. exists c2.
      by rewrite lookup_delete_ne, lookup_insert_ne, lookup_insert_eq by done.
    + eapply rep_same; [exact Hr1|]. intros b Hb.
      rewrite lookup_delete_ne, !lookup_insert_ne by (intros ->; done). done.
    + apply same_but_delete; [set_solver|]. do 3 (apply same_but_insert; [set_solver|]). apply same_but_refl.
    + rewrite dom_delete_L. f_equal. erewrite dom_insert_is_node by (apply is_node_ne; [done|exact Hn1]).
      erewrite dom_insert_is_node by exact Hc1. done.
  - specialize (Hspn Hne).
    assert (is_node m1 sp ks vs true s rs) as Hp1 by (by apply is_node_ne).
    pose proof (proj1 Hspn) as Hp0.
    wp_step. eapply wp_set_left; [exact Hp1|]. intros c2. cbn [nodes set_nodes].
    eapply wp_NODE_UNLOCK; [cbn [nodes set_nodes]; by apply is_node_eq|]. intros c3. wp_step.
    cbn [nodes set_nodes]. rewrite insert_insert_eq.
    eapply wp_NODE_UNLOCK; [cbn [nodes set_nodes]; apply is_node_ne; [done|exact Hn1]|]. intros c4.
    eapply wp_free; [cbn [nodes set_nodes]; by apply is_node_eq|]. cbn [nodes set_nodes].
    split; cbn [nodes set_nodes min_of remove_min min_t fst snd]; try done.
    + rewrite (proj2 (Z.eqb_neq _ _)) by done. split; [done|]. exists c1.
      rewrite lookup_delete_ne, !lookup_insert_ne by done. unfold m1. by rewrite lookup_insert_eq.
    + intros _. split; [done|]. exists c3.
      by rewrite lookup_delete_ne, lookup_insert_ne, lookup_insert_eq by done.
    + eapply rep_same; [exact Hr1|]. intros b Hb.
      rewrite lookup_delete_ne, !lookup_insert_ne by (intros ->; done). done.
    + apply same_but_delete; [set_solver|]. do 3 (apply same_but_insert; [set_solver|]). apply same_but_refl.
    + rewrite dom_delete_L. f_equal. erewrite dom_insert_is_node by (apply is_node_ne; [done|exact Hn1]).
      erewrite dom_insert_is_node by exact Hp1. done.
Qed.

Lemma succ_loop_wp t fuel st cur kc vc lc rc sp ks vs rs :
  rep_held (nodes st) t -> NoDup (addrs t) -> (height t <= fuel)%nat ->
  is_node (nodes st) cur kc vc true lc rc -> cur ∉ addrs t -> sp ∉ addrs t ->
  (sp = cur -> rc = ptr t) ->
  (sp <> cur -> is_node (nodes st) sp ks vs true (ptr t) rs) ->
  wp ('(sp', s') ← succ_loop fuel cur sp (ptr t); take_successor cur sp' s') st
    (fun _ st' => succ_post t cur kc vc lc rc sp ks vs rs st st').
Proof.
  revert fuel st sp ks vs rs.
  induction t as [|s k v l IHl r _]; intros fuel st sp ks vs rs Hrep Hnd Hf Hc Hcur Hsp Hrc Hspn; [done|].
  destruct fuel as [|fuel]; [cbn in Hf; lia|]. cbn [succ_loop ptr].
  pose proof Hrep as (Hn & Hl & Hr). wp_step. wp_step. eapply wp_held; [exact Hn|]. intros c _. cbn [left].
  rewrite (rep_eqb _ _ Hl). destruct (bool_decide_reflect (l = Leaf)) as [->|Hlf].
  { apply wp_ret. cbn iota beta. by apply wp_take_successor. }
  pose proof (nodup_node _ _ _ _ _ Hnd) as (Hsl & Hsr & Hndl & Hndr & Hlr).
  pose proof (ptr_in _ Hlf) as Hpl. cbn [addrs] in Hcur, Hsp.
  assert (cur <> s /\ cur ∉ addrs l /\ cur ∉ addrs r /\ sp <> s /\ sp ∉ addrs l /\ sp ∉ addrs r /\
          cur <> ptr l /\ sp <> ptr l /\ s <> ptr l) as (? & ? & ? & ? & ? & ? & ? & ? & ?) by set_solver.
  destruct l as [|b kl vl ll lr] eqn:El; [done|]. rewrite <-El in *.
  assert (ptr l = b) as Epl by (by rewrite El).
  pose proof Hl as Hl'. rewrite El in Hl'. destruct Hl' as (Hnl & _). rewrite <-Epl in Hnl.
  wp_step. eapply wp_NODE_LOCK; [exact Hnl|]. intros c1. wp_step.
  set (m1 := <[ptr l := _]> (nodes st)).
  assert (rep_held m1 l) as Hl1.
  { unfold m1. rewrite El. cbn [ptr]. eapply rep_lock; [done|by rewrite <-El|by rewrite <-El]. }
  assert (is_node m1 s k v true (ptr l) (ptr r)) as Hn1 by (by apply is_node_ne).
  assert (is_node m1 cur kc vc true lc rc) as Hc1 by (by apply is_node_ne).
  assert (rep m1 r) as Hr1 by (apply rep_insert; [done|set_solver]).
  assert (dom m1 = dom (nodes st)) as Hd1 by (eapply dom_insert_is_node; exact Hnl).
  assert (forall m2, rep_held m2 l -> is_node m2 s k v true (ptr l) (ptr r) ->
    is_node m2 cur kc vc true lc rc -> rep m2 r -> dom m2 = dom (nodes st) ->
    same_but (cur :: sp :: addrs (Node s k v l r)) (nodes st) m2 ->
    (sp <> cur -> is_node m2 sp ks vs false s rs) ->
    wp ('(sp', s') ← succ_loop fuel cur s (ptr l); take_successor cur sp' s') (set_nodes m2 st)
      (fun _ st' => succ_post (Node s k v l r) cur kc vc lc rc sp ks vs rs st st')) as Hgo.
  { intros m2 Hl2 Hn2 Hc2 Hr2 Hd2 Hs2 Hp2.
    eapply wp_mono; [apply (IHl fuel (set_nodes m2 st) s k v (ptr r)); try done|].
    { cbn in Hf. lia. }
    intros _ st' [P1 P2 P3 P4 P5 P6 P7]. cbn [nodes set_nodes root tree_locked] in *.
    rewrite (proj2 (Z.eqb_neq _ _)) in P3 by done. specialize (P4 ltac:(done)).
    split; try done; rewrite ?min_of_node, ?remove_min_node by done; cbn [ptr].
    - destruct (Z.eqb_spec sp cur) as [E|]; [|done]. by rewrite (Hrc E) in P3.
    - intros Hne. eapply is_node_same; [by apply Hp2|exact P6|set_solver].
    - split_and!; [done|done|]. eapply rep_same_but; [exact Hr2|exact P6|].
      intros b' [->|[->|Hb]%elem_of_cons]%elem_of_cons; auto.
    - eapply same_but_trans; [exact Hs2|exact P6|done|]. clear. cbn [addrs]. intros b' Hb'.
      rewrite !elem_of_cons in *. rewrite elem_of_app. tauto.
    - by rewrite P7, Hd2. }
  assert (same_but (cur :: sp :: addrs (Node s k v l r)) (nodes st) m1) as Hs1.
  { apply same_but_insert; [cbn; set_solver|apply same_but_refl]. }
  destruct (Z.eqb_spec sp cur) as [E|Hne]; cbn [negb].
  - apply wp_ret, wp_bind_inv. apply (Hgo m1); done.
  - specialize (Hspn Hne). pose proof (proj1 Hspn) as Hp0.
    assert (is_node m1 sp ks vs true s rs) as Hp1 by (by apply is_node_ne).
    eapply wp_NODE_UNLOCK; [exact Hp1|]. intros c2. cbn [nodes set_nodes]. apply wp_bind_inv, Hgo.
    + by apply rep_held_insert.
    + by apply is_node_ne.
    + apply is_node_ne; [done|]. done.
    + by apply rep_insert.
    + erewrite dom_insert_is_node by exact Hp1. done.
    + apply same_but_insert; [set_solver|exact Hs1].
    + intros _. by apply is_node_eq.
Qed.

(** ** Deletion: the whole operation *)
Definition removed (st st' : bst) (x : option Z) : Prop :=
  dom (nodes st') = match x with Some a => dom (nodes st) ∖ {[a]} | None => dom (nodes st) end.

Lemma delete_two_wp st a k v l r fuel :
  rep_held (nodes st) (Node a k v l r) -> NoDup (addrs (Node a k v l r)) -> r <> Leaf ->
  (height r <= fuel)%nat ->
  wp (delete_two_children fuel a) st (fun _ st' =>
    root st' = root st /\ tree_locked st' = tree_locked st /\
    rep_held (nodes st') (Node a (min_of r).1.2 (min_of r).2 l (remove_min r)) /\
    same_but (addrs (Node a k v l r)) (nodes st) (nodes st') /\
    removed st st' (Some (min_of r).1.1)).
Proof.
  intros Hrep Hnd Hr Hf. pose proof Hrep as (Hn & Hl & Hrr).
  pose proof (nodup_node _ _ _ _ _ Hnd) as (Hal & Har & Hndl & Hndr & Hlr).
  pose proof (ptr_in _ Hr) as Hpr. assert (a <> ptr r) as Hap by (intros ->; done).
  unfold delete_two_children. wp_step. eapply wp_held; [exact Hn|]. intros c _. cbn [right].
  destruct r as [|b kr vr rl rr] eqn:Er; [done|]. rewrite <-Er in *.
  assert (is_node (nodes st) (ptr r) kr vr false (ptr rl) (ptr rr)) as Hnr.
  { rewrite Er in Hrr |- *. apply Hrr. }
  wp_step. eapply wp_NODE_LOCK; [exact Hnr|]. intros c1. cbn zeta.
  set (m1 := <[ptr r := _]> (nodes st)).
  assert (rep_held m1 r) as Hr1.
  { unfold m1. rewrite Er. cbn [ptr]. eapply rep_lock; [done|by rewrite <-Er|by rewrite <-Er]. }
  clear Er. eapply wp_mono.
  { apply (succ_loop_wp r fuel (set_nodes m1 st) a k v (ptr l) (ptr r) a 0 0 0); try done.
    by apply is_node_ne. }
  intros _ st' [P1 P2 P3 _ P5 P6 P7]. cbn [nodes set_nodes root tree_locked] in *.
  rewrite Z.eqb_refl in P3. split_and!; try done.
  - cbn. split_and!; [done| |done].
    eapply rep_same_but; [apply rep_insert; [exact Hl|]|exact P6|]; cbn; set_solver.
  - eapply same_but_trans; [apply same_but_insert1|exact P6| |];
      cbn; set_solver.
  - unfold removed. rewrite P7. f_equal. by eapply dom_insert_is_node.
Qed.

Lemma wp_delete_two_unlock st a k v l r fuel Q :
  rep_held (nodes st) (Node a k v l r) -> NoDup (addrs (Node a k v l r)) -> l <> Leaf -> r <> Leaf ->
  (height r <= fuel)%nat ->
  (forall st', root st' = root st -> tree_locked st' = tree_locked st ->
    rep (nodes st') (delete_t k (Node a k v l r)) ->
    same_but (addrs (Node a k v l r)) (nodes st) (nodes st') ->
    removed st st' (deleted_addr k (Node a k v l r)) -> Q 0 st') ->
  wp (_ ← delete_two_children fuel a; _ ← NODE_UNLOCK a; mret 0) st Q.
Proof.
  intros Hrep Hnd Hl Hr Hf HQ. wp_step. eapply wp_mono; [by apply delete_two_wp|].
  cbn beta. intros _ st1 (R1 & R2 & R3 & R4 & R5). pose proof R3 as (Hn1 & _).
  wp_step. eapply wp_NODE_UNLOCK; [exact Hn1|]. intros c. apply wp_ret. apply HQ; cbn [root tree_locked nodes set_nodes].
  - done.
  - done.
  - rewrite delete_t_two by done. apply rep_unlock; [done|].
    cbn [addrs] in Hnd |- *. rewrite (remove_min_addrs r Hr) in Hnd.
    rewrite <-Permutation_middle in Hnd. apply NoDup_cons in Hnd as [H1 Hnd].
    apply NoDup_cons in Hnd as [H2 Hnd]. apply NoDup_cons. split; [set_solver|done].
  - eapply same_but_insert; [cbn; set_solver|exact R4].
  - unfold removed in *. cbn [deleted_addr nodes set_nodes]. rewrite Z.eqb_refl, !bool_decide_eq_false_2 by done.
    cbn [orb]. rewrite <-R5. by eapply dom_insert_is_node.
Qed.

(** A node with at most one child, unlinked, unlocked and freed. *)
Definition only_child (l r : tree) : tree := if bool_decide (l = Leaf) then r else l.

Lemma delete_t_one k a v l r : l = Leaf \/ r = Leaf -> delete_t k (Node a k v l r) = only_child l r.
Proof. cbn. rewrite Z.eqb_refl. unfold only_child. by intros [-> | ->]; [|destruct l]. Qed.

Lemma deleted_addr_one k a v l r : l = Leaf \/ r = Leaf -> deleted_addr k (Node a k v l r) = Some a.
Proof.
  cbn. rewrite Z.eqb_refl. intros [-> | ->]; [done|]. by rewrite orb_true_r.
Qed.

Lemma only_child_ptr m l r : rep m l -> (if negb (ptr l =? NULL) then ptr l else ptr r) = ptr (only_child l r).
Proof. intros Hl. rewrite (rep_eqb _ _ Hl). unfold only_child. by case_bool_decide. Qed.

Lemma only_child_cases l r : only_child l r = l \/ only_child l r = r.
Proof. unfold only_child. case_bool_decide; auto. Qed.

Lemma wp_free_unlock st a k v l r Q :
  rep_held (nodes st) (Node a k v l r) -> NoDup (addrs (Node a k v l r)) ->
  (forall m', rep m' (only_child l r) -> same_but [a] (nodes st) m' ->
    dom m' = dom (nodes st) ∖ {[a]} -> Q 0 (set_nodes m' st)) ->
  wp (_ ← NODE_UNLOCK a; _ ← bst_node_free a; mret 0) st Q.
Proof.
  intros (Hn & Hl & Hr) (Hal & Har & _)%nodup_node HQ.
  wp_step. eapply wp_NODE_UNLOCK; [exact Hn|]. intros c. wp_step.
  eapply wp_free; [cbn [nodes set_nodes]; apply is_node_eq; by destruct Hn|]. apply wp_ret.
  cbn [nodes set_nodes]. apply (HQ (delete a (<[a := mkNode k v c false (ptr l) (ptr r)]> (nodes st)))).
  - assert (forall t, rep (nodes st) t -> a ∉ addrs t ->
      rep (delete a (<[a := mkNode k v c false (ptr l) (ptr r)]> (nodes st))) t) as Hsub.
    { intros t Ht Ha. eapply rep_same; [exact Ht|]. intros b Hb.
      by rewrite lookup_delete_ne, lookup_insert_ne by (intros ->; done). }
    destruct (only_child_cases l r) as [-> | ->]; by apply Hsub.
  - apply same_but_delete; [set_solver|]. apply same_but_insert; [set_solver|apply same_but_refl].
  - rewrite dom_delete_L. by erewrite dom_insert_is_node by exact Hn.
Qed.

(** How a deletion below the locked parent [p] ends. *)
Record delete_post (k : Z) (t : tree) (p kp vp lp rp : Z) (is_left : bool) (st : bst) (res : Z) (st' : bst)
    : Prop := {
  dp_res : res = match lookup_t k t with Some _ => 0 | None => -1 end;
  dp_root : root st' = root st;
  dp_lock : tree_locked st' = tree_locked st;
  dp_parent : is_node (nodes st') p kp vp false
                (if is_left then ptr (delete_t k t) else lp) (if is_left then rp else ptr (delete_t k t));
  dp_rep : rep (nodes st') (delete_t k t);
  dp_same : same_but (p :: addrs t) (nodes st) (nodes st');
  dp_dom : removed st st' (deleted_addr k t)
}.

Lemma wp_unlink k a v l r p kp vp lp rp (is_left : bool) (st : bst) :
  rep_held (nodes st) (Node a k v l r) -> NoDup (addrs (Node a k v l r)) -> l = Leaf \/ r = Leaf ->
  is_node (nodes st) p kp vp true lp rp -> p ∉ addrs (Node a k v l r) ->
  wp (_ ← (if is_left then set_left p (ptr (only_child l r)) else set_right p (ptr (only_child l r)));
      _ ← NODE_UNLOCK p; _ ← NODE_UNLOCK a; _ ← bst_node_free a; mret 0) st
    (delete_post k (Node a k v l r) p kp vp lp rp is_left st).
Proof.
  intros Hrep Hnd Hlr Hp Hpn. pose proof (proj1 Hp) as Hp0.
  set (lp' := if is_left then ptr (only_child l r) else lp).
  set (rp' := if is_left then rp else ptr (only_child l r)).
  assert (forall c, wp (_ ← NODE_UNLOCK p; _ ← NODE_UNLOCK a; _ ← bst_node_free a; mret 0)
            (set_nodes (<[p := mkNode kp vp c true lp' rp']> (nodes st)) st)
            (delete_post k (Node a k v l r) p kp vp lp rp is_left st)) as Hgo.
  { intros c. wp_step. eapply wp_NODE_UNLOCK; [cbn [nodes set_nodes]; by apply is_node_eq|]. intros c1.
    cbn [nodes set_nodes]. rewrite insert_insert_eq. eapply (wp_free_unlock _ a k v l r).
    - cbn [nodes set_nodes]. by apply rep_held_insert.
    - done.
    - cbn [nodes set_nodes]. intros m' Hm Hs Hd. split; try done; cbn [nodes set_nodes].
      + cbn. by rewrite Z.eqb_refl.
      + rewrite delete_t_one by done. eapply is_node_same; [by apply is_node_eq|exact Hs|cbn in Hpn; set_solver].
      + by rewrite delete_t_one.
      + eapply same_but_trans; [apply same_but_insert1|exact Hs| |];
          cbn; set_solver.
      + unfold removed. rewrite deleted_addr_one by done. cbn [nodes set_nodes].
        rewrite Hd. f_equal. by eapply dom_insert_is_node. }
  wp_step. destruct is_left.
  - eapply wp_set_left; [exact Hp|]. exact Hgo.
  - eapply wp_set_right; [exact Hp|]. exact Hgo.
Qed.

(** The parent is released before the child is locked here. *)
Lemma wp_unlock_lock {A} st a k v l r t1 t2 p kp vp lp rp (K : M bst A) Q :
  rep_held (nodes st) (Node a k v l r) -> NoDup (addrs (Node a k v l r)) ->
  (t1 = l /\ t2 = r \/ t1 = r /\ t2 = l) -> t1 <> Leaf ->
  is_node (nodes st) p kp vp true lp rp -> p ∉ addrs (Node a k v l r) ->
  (forall m2, rep_held m2 t1 -> is_node m2 a k v true (ptr l) (ptr r) -> rep m2 t2 ->
    is_node m2 p kp vp false lp rp -> same_but [p; ptr t1] (nodes st) m2 -> dom m2 = dom (nodes st) ->
    wp K (set_nodes m2 st) Q) ->
  wp (_ ← NODE_UNLOCK p; _ ← NODE_LOCK (ptr t1); K) st Q.
Proof.
  intros (Hn & Hl & Hr) Hnd H12 Hne Hp Hpn HQ.
  apply nodup_node in Hnd as (Hal & Har & Hndl & Hndr & Hd). cbn [addrs] in Hpn.
  assert (rep (nodes st) t1 /\ rep (nodes st) t2 /\ NoDup (addrs t1) /\ a ∉ addrs t1 /\
          p ∉ addrs t1 /\ p ∉ addrs t2 /\ p <> a /\ ptr t1 ∉ addrs t2)
    as (H1 & H2 & Hnd1 & Ha1 & Hp1 & Hp2 & Hpa & Hpt).
  { pose proof (ptr_in _ Hne). destruct H12 as [[-> ->]|[-> ->]]; split_and!; try done; set_solver. }
  pose proof (ptr_in _ Hne) as Hpt1.
  assert (a <> ptr t1 /\ p <> ptr t1) as [Hap Hpp] by (split; intros ->; done).
  destruct t1 as [|b k1 v1 l1 r1]; [done|]. pose proof H1 as (Hn1 & _). cbn [ptr] in *.
  wp_step. eapply wp_NODE_UNLOCK; [exact Hp|]. intros c1. wp_step.
  eapply wp_NODE_LOCK; [cbn [nodes set_nodes]; apply is_node_ne; [done|exact Hn1]|].
  intros c2. cbn [nodes set_nodes]. apply HQ.
  - eapply (rep_lock _ (Node b k1 v1 l1 r1)); [done|done|]. by apply rep_insert.
  - by do 2 (apply is_node_ne; [done|]).
  - by do 2 (apply rep_insert; [|done]).
  - apply is_node_ne; [done|]. apply is_node_eq. by destruct Hp.
  - apply same_but_insert; [set_solver|]. apply same_but_insert; [set_solver|apply same_but_refl].
  - erewrite dom_insert_is_node by (apply is_node_ne; [done|exact Hn1]).
    by eapply dom_insert_is_node.
Qed.

Lemma lookup_t_child k a k' v l r : k <> k' ->
  lookup_t k (Node a k' v l r) = lookup_t k (if k <? k' then l else r) /\
  deleted_addr k (Node a k' v l r) = deleted_addr k (if k <? k' then l else r) /\
  delete_t k (Node a k' v l r)
    = Node a k' v (if k <? k' then delete_t k l else l) (if k <? k' then r else delete_t k r).
Proof.
  intros Hne. cbn. rewrite (proj2 (Z.eqb_neq k k')), (proj2 (Z.eqb_neq k' k)) by done.
  by destruct (k <? k').
Qed.

(** The result of a node from that of the child, once its own parent is done. *)
Lemma delete_post_child k a k' v l r t1 t2 p kp vp lp rp (is_left : bool) st m2 res st' :
  k <> k' -> NoDup (addrs (Node a k' v l r)) -> p ∉ addrs (Node a k' v l r) ->
  t1 = (if k <? k' then l else r) -> t2 = (if k <? k' then r else l) -> t1 <> Leaf ->
  (is_left = true -> lp = a) -> (is_left = false -> rp = a) ->
  rep m2 t2 -> is_node m2 p kp vp false lp rp ->
  same_but [p; ptr t1] (nodes st) m2 -> dom m2 = dom (nodes st) ->
  delete_post k t1 a k' v (ptr l) (ptr r) (k <? k') (set_nodes m2 st) res st' ->
  delete_post k (Node a k' v l r) p kp vp lp rp is_left st res st'.
Proof.
  intros Hk Hnd Hpn Et1 Et2 Hne Hlp Hrp H2 Hp Hs Hd [P1 P2 P3 P4 P5 P6 P7].
  destruct (lookup_t_child k a k' v l r Hk) as (Elk & Eda & Edel). rewrite <-Et1 in Elk, Eda.
  apply nodup_node in Hnd as (Hal & Har & Hndl & Hndr & Hlr). cbn [addrs nodes set_nodes root tree_locked] in *.
  assert (p ∉ a :: addrs t1 /\ (forall b, b ∈ a :: addrs t1 -> b ∉ addrs t2) /\
          (forall b, b ∈ addrs t1 -> b ∈ a :: addrs l ++ addrs r)) as (Hp1 & H12 & Hsub).
  { destruct (k <? k'); subst t1 t2; split_and!; set_solver. }
  pose proof (ptr_in _ Hne) as Hpt.
  assert (rep (nodes st') t2) as Hr2 by (eapply rep_same_but; [exact H2|exact P6|done]).
  split; try done.
  - by rewrite Elk.
  - rewrite (delete_t_ptr k a k' v l r) by done. eapply is_node_same in Hp; [|exact P6|done].
    destruct is_left; [by rewrite <-(Hlp eq_refl)|by rewrite <-(Hrp eq_refl)].
  - rewrite Edel. clear Edel Elk Eda. destruct (k <? k'); subst t1 t2; cbn [rep]; split_and!; done.
  - eapply same_but_trans; [exact Hs|exact P6| |].
    + intros b [->|[->|[]%elem_of_nil]%elem_of_cons]%elem_of_cons; [set_solver|].
      apply elem_of_cons. right. auto.
    + intros b [->|Hb]%elem_of_cons; [set_solver|]. apply elem_of_cons. right. auto.
  - rewrite Eda. unfold removed in *. cbn [nodes set_nodes] in P7. by rewrite Hd in P7.
Qed.

Lemma delete_loop_wp k t fuel depth st p kp vp lp rp (is_left : bool) :
  rep_held (nodes st) t -> NoDup (addrs t) -> (height t <= fuel)%nat -> (height t <= depth)%nat ->
  is_node (nodes st) p kp vp true lp rp -> p ∉ addrs t ->
  (is_left = true -> lp = ptr t) -> (is_left = false -> rp = ptr t) ->
  wp (delete_loop fuel depth p (ptr t) is_left k) st (delete_post k t p kp vp lp rp is_left st).
Proof.
  revert fuel st p kp vp lp rp is_left.
  induction t as [|a k' v l IHl r IHr]; intros fuel st p kp vp lp rp is_left Hrep Hnd Hf Hdp Hp Hpn Hlp Hrp; [done|].
  destruct fuel as [|fuel]; [cbn in Hf; lia|]. cbn [delete_loop ptr]. pose proof Hrep as (Hn & Hl & Hr).
  wp_step. eapply wp_held; [exact Hn|]. intros c _. cbn [key left right].
  cbn [height] in Hf, Hdp. cbn [ptr] in Hlp, Hrp.
  pose proof (nodup_node _ _ _ _ _ Hnd) as (Hal & Har & Hndl & Hndr & Hlr).
  destruct (Z.eqb_spec k' k) as [->|Hne]; cbn [negb].
  - rewrite (only_child_ptr _ _ _ Hl), (rep_eqb _ _ Hl), (rep_eqb _ _ Hr).
    destruct (bool_decide (l = Leaf) || bool_decide (r = Leaf)) eqn:Hone.
    + apply wp_unlink; try done. apply orb_true_iff in Hone as [H|H]; apply bool_decide_eq_true in H; auto.
    + apply orb_false_iff in Hone as [H1 H2]. apply bool_decide_eq_false in H1, H2.
      pose proof (proj1 Hp) as Hp0. cbn [addrs] in Hpn.
      wp_step. eapply wp_NODE_UNLOCK; [exact Hp|]. intros c1. cbn [nodes set_nodes].
      eapply wp_delete_two_unlock; [cbn [nodes set_nodes]; by apply rep_held_insert|done|done|done|lia|].
      intros st' R1 R2 R3 R4 R5. cbn [nodes set_nodes root tree_locked] in *. split; try done.
      * cbn. by rewrite Z.eqb_refl.
      * rewrite delete_t_two by done. cbn [ptr].
        assert (is_node (nodes st') p kp vp false lp rp) as Hp' by (eapply is_node_same; [by apply is_node_eq|exact R4|done]).
        destruct is_left; [by rewrite <-(Hlp eq_refl)|by rewrite <-(Hrp eq_refl)].
      * eapply same_but_trans; [apply same_but_insert1|exact R4| |]; cbn; set_solver.
      * unfold removed in *. cbn [nodes set_nodes] in R5. rewrite R5.
        destruct (deleted_addr _ _); [f_equal|]; by eapply dom_insert_is_node.
  - assert (k <> k') as Hne' by done.
    destruct (lookup_t_child k a k' v l r Hne') as (Elk & Eda & Edel).
    set (t1 := if k <? k' then l else r) in *. set (t2 := if k <? k' then r else l).
    assert ((if k <? k' then (ptr l, true) else (ptr r, false)) = (ptr t1, k <? k')) as ->
      by (unfold t1; by destruct (k <? k')).
    assert (rep (nodes st) t1) as H1 by (unfold t1; by destruct (k <? k')).
    rewrite (rep_eqb _ _ H1). destruct (bool_decide_reflect (t1 = Leaf)) as [Hlf|Hlf].
    + wp_step. eapply wp_NODE_UNLOCK; [exact Hp|]. intros c1. wp_step. cbn [nodes set_nodes].
      cbn [addrs] in Hpn. pose proof (proj1 Hp) as Hp0. assert (p <> a) by set_solver.
      eapply wp_NODE_UNLOCK; [cbn [nodes set_nodes]; apply is_node_ne; [done|exact Hn]|]. intros c2. apply wp_ret.
      assert (delete_t k (Node a k' v l r) = Node a k' v l r) as Esame.
      { apply delete_t_none. rewrite Eda, Hlf. done. }
      split; rewrite ?Esame; try done; cbn [nodes set_nodes].
      * by rewrite Elk, Hlf.
      * cbn [ptr]. apply is_node_ne; [done|]. destruct is_left;
          [rewrite <-(Hlp eq_refl)|rewrite <-(Hrp eq_refl)]; by apply is_node_eq.
      * apply rep_unlock; [|done]. by apply rep_held_insert.
      * apply same_but_insert; [set_solver|]. apply same_but_insert; [set_solver|apply same_but_refl].
      * unfold removed. rewrite Eda, Hlf. cbn [deleted_addr nodes set_nodes].
        erewrite dom_insert_is_node by (apply is_node_ne; [done|exact Hn]). by eapply dom_insert_is_node.
    + assert (t1 = l /\ t2 = r \/ t1 = r /\ t2 = l) as H12 by (unfold t1, t2; destruct (k <? k'); auto).
      eapply (wp_unlock_lock st a k' v l r t1 t2 p kp vp lp rp); try done.
      intros m2 G1 G2 G3 G4 G5 G6.
      assert (NoDup (addrs t1) /\ (height t1 <= fuel)%nat /\ (height t1 <= depth)%nat /\ a ∉ addrs t1)
        as (Hnd1 & Hf1 & Hd1 & Ha1) by (unfold t1; destruct (k <? k'); split_and!; done || lia).
      eapply wp_mono with (P := delete_post k t1 a k' v (ptr l) (ptr r) (k <? k') (set_nodes m2 st)).
      * unfold t1 in *. destruct (k <? k'); [apply IHl|apply IHr]; done.
      * intros res st' Hpost. eapply (delete_post_child k a k' v l r t1 t2); eauto.
Qed.

(** ** Keys in order *)
Fixpoint keys (t : tree) : list Z :=
  match t with Leaf => [] | Node _ k _ l r => keys l ++ k :: keys r end.

Fixpoint ordered (t : tree) : Prop :=
  match t with
  | Leaf => True
  | Node _ k _ l r =>
      (forall k', k' ∈ keys l -> k' < k) /\ (forall k', k' ∈ keys r -> k < k') /\ ordered l /\ ordered r
  end.

Lemma lookup_t_keys k t : is_Some (lookup_t k t) -> k ∈ keys t.
Proof.
  induction t as [|a k' v l IHl r IHr]; cbn; [by intros [? ?]|].
  destruct (Z.eqb_spec k k'); [set_solver|]. destruct (k <? k'); set_solver.
Qed.

Lemma keys_lookup_t k t : ordered t -> k ∈ keys t -> is_Some (lookup_t k t).
Proof.
  induction t as [|a k' v l IHl r IHr]; cbn; [set_solver|]. intros (Hl & Hr & Hol & Hor) Hk.
  destruct (Z.eqb_spec k k'); [eauto|]. apply elem_of_app in Hk as [Hk|[->|Hk]%elem_of_cons]; [|done|].
  - rewrite (proj2 (Z.ltb_lt _ _)) by auto. auto.
  - specialize (Hr _ Hk). rewrite (proj2 (Z.ltb_ge _ _)) by lia. auto.
Qed.

Lemma insert_t_keys a k v t k' : k' ∈ keys (insert_t a k v t) -> k' = k \/ k' ∈ keys t.
Proof.
  induction t as [|b k0 v0 l IHl r IHr]; cbn; [set_solver|].
  destruct (k =? k0); [set_solver|]. destruct (k <? k0); cbn; set_solver.
Qed.

Lemma insert_t_ordered a k v t : ordered t -> ordered (insert_t a k v t).
Proof.
  induction t as [|b k0 v0 l IHl r IHr]; cbn; [set_solver|]. intros (Hl & Hr & Hol & Hor).
  destruct (Z.eqb_spec k k0); [done|]. destruct (Z.ltb_spec k k0); cbn; split_and!; auto.
  - intros k' [->|?]%insert_t_keys; auto.
  - intros k' [->|?]%insert_t_keys; [lia|auto].
Qed.

Lemma insert_t_lookup a k v t k' :
  lookup_t k t = None -> lookup_t k' (insert_t a k v t) = if decide (k' = k) then Some v else lookup_t k' t.
Proof.
  induction t as [|b k0 v0 l IHl r IHr]; cbn.
  - intros _. destruct (Z.eqb_spec k' k), (decide (k' = k)); try done. by destruct (k' <? k).
  - destruct (Z.eqb_spec k k0) as [->|Hne]; [done|]. intros Hn. destruct (Z.ltb_spec k k0); cbn.
    + rewrite IHl by done. destruct (decide (k' = k)) as [->|]; [|done].
      by rewrite (proj2 (Z.eqb_neq _ _)), (proj2 (Z.ltb_lt _ _)) by done.
    + rewrite IHr by done. destruct (decide (k' = k)) as [->|]; [|done].
      by rewrite (proj2 (Z.eqb_neq _ _)), (proj2 (Z.ltb_ge _ _)) by done.
Qed.

Lemma min_of_keys t : t <> Leaf -> ordered t ->
  (min_of t).1.2 ∈ keys t /\ (forall k, k ∈ keys t -> (min_of t).1.2 <= k) /\
  (forall k, k ∈ keys (remove_min t) -> k ∈ keys t /\ (min_of t).1.2 < k) /\
  ordered (remove_min t) /\ lookup_t (min_of t).1.2 t = Some (min_of t).2 /\
  (forall k, k <> (min_of t).1.2 -> lookup_t k (remove_min t) = lookup_t k t).
Proof.
  induction t as [|a k v l IHl r _]; [done|]. intros _ (Hl & Hr & Hol & Hor).
  destruct (decide (l = Leaf)) as [->|Hlf].
  - cbn in *. rewrite Z.eqb_refl. split_and!; try done.
    + set_solver.
    + intros k' [->|Hk]%elem_of_cons; [lia|]. specialize (Hr _ Hk). lia.
    + intros k' Hk. split; [set_solver|auto].
    + intros k' Hk. rewrite (proj2 (Z.eqb_neq _ _)) by done. destruct (Z.ltb_spec k' k); [|done].
      destruct (lookup_t k' r) eqn:E; [|done]. specialize (Hr k' (lookup_t_keys _ _ ltac:(eauto))). lia.
  - rewrite min_of_node, remove_min_node by done.
    destruct (IHl Hlf Hol) as (H1 & H2 & H3 & H4 & H5 & H6). pose proof (Hl _ H1). cbn. split_and!; auto.
    + set_solver.
    + intros k' [Hk|[->|Hk]%elem_of_cons]%elem_of_app; [auto|lia|]. specialize (Hr _ Hk). lia.
    + intros k' [Hk|[->|Hk]%elem_of_cons]%elem_of_app.
      * destruct (H3 _ Hk). split; [set_solver|done].
      * split; [set_solver|done].
      * specialize (Hr _ Hk). split; [set_solver|lia].
    + intros k' Hk. destruct (H3 _ Hk). auto.
    + by rewrite (proj2 (Z.eqb_neq _ _)), (proj2 (Z.ltb_lt _ _)) by lia.
    + intros k' Hk. by rewrite H6.
Qed.

Lemma delete_t_keys k t k' : ordered t -> k' ∈ keys (delete_t k t) -> k' ∈ keys t /\ k' <> k.
Proof.
  induction t as [|a k0 v l IHl r IHr]; [set_solver|]. intros Hord. pose proof Hord as (Hl & Hr & Hol & Hor).
  destruct (Z.eq_dec k k0) as [<-|Hne].
  - destruct (decide (l = Leaf \/ r = Leaf)) as [Hone|Htwo].
    + rewrite delete_t_one by done. cbn [keys].
      destruct (only_child_cases l r) as [-> | ->]; intros Hk.
      * specialize (Hl _ Hk). split; [set_solver|lia].
      * specialize (Hr _ Hk). split; [set_solver|lia].
    + assert (l <> Leaf /\ r <> Leaf) as [Hlf Hrf] by tauto.
      destruct (min_of_keys r Hrf Hor) as (H1 & H2 & H3 & _). pose proof (Hr _ H1).
      rewrite delete_t_two by done. cbn [keys]. intros [Hk|[->|Hk]%elem_of_cons]%elem_of_app.
      * specialize (Hl _ Hk). split; [set_solver|lia].
      * split; [set_solver|lia].
      * destruct (H3 _ Hk) as [Hk' ?]. specialize (Hr _ Hk'). split; [set_solver|lia].
  - destruct (lookup_t_child k a k0 v l r Hne) as (_ & _ & ->). cbn [keys].
    destruct (Z.ltb_spec k k0); intros [Hk|[->|Hk]%elem_of_cons]%elem_of_app.
    + destruct (IHl Hol Hk). split; [set_solver|done].
    + split; [set_solver|done].
    + specialize (Hr _ Hk). split; [set_solver|lia].
    + specialize (Hl _ Hk). split; [set_solver|lia].
    + split; [set_solver|done].
    + destruct (IHr Hor Hk). split; [set_solver|done].
Qed.

Lemma delete_t_ordered k t : ordered t -> ordered (delete_t k t).
Proof.
  induction t as [|a k0 v l IHl r IHr]; [done|]. intros (Hl & Hr & Hol & Hor).
  destruct (Z.eq_dec k k0) as [<-|Hne].
  - destruct (decide (l = Leaf \/ r = Leaf)) as [Hone|Htwo].
    + rewrite delete_t_one by done. by destruct (only_child_cases l r) as [-> | ->].
    + assert (l <> Leaf /\ r <> Leaf) as [Hlf Hrf] by tauto.
      destruct (min_of_keys r Hrf Hor) as (H1 & H2 & H3 & H4 & _). pose proof (Hr _ H1).
      rewrite delete_t_two by done. cbn. split_and!; auto.
      * intros k' Hk. specialize (Hl _ Hk). lia.
      * intros k' Hk. by apply H3.
  - destruct (lookup_t_child k a k0 v l r Hne) as (_ & _ & ->). destruct (k <? k0); cbn; split_and!; auto.
    + intros k' Hk%delete_t_keys; [|done]. naive_solver.
    + intros k' Hk%delete_t_keys; [|done]. naive_solver.
Qed.

Lemma lookup_t_out k a k0 v l r : ordered (Node a k0 v l r) ->
  (k < k0 -> lookup_t k r = None) /\ (k0 < k -> lookup_t k l = None).
Proof.
  intros (Hl & Hr & _). split; intros Hk.
  - destruct (lookup_t k r) eqn:E; [|done]. specialize (Hr k (lookup_t_keys _ _ ltac:(eauto))). lia.
  - destruct (lookup_t k l) eqn:E; [|done]. specialize (Hl k (lookup_t_keys _ _ ltac:(eauto))). lia.
Qed.

Lemma delete_t_lookup k t k' : ordered t ->
  lookup_t k' (delete_t k t) = if decide (k' = k) then None else lookup_t k' t.
Proof.
  induction t as [|a k0 v l IHl r IHr]; [by case_decide|]. intros Hord. pose proof Hord as (Hl & Hr & Hol & Hor).
  destruct (decide (k' = k)) as [->|Hkk].
  { destruct (lookup_t k (delete_t k (Node a k0 v l r))) eqn:E; [|done].
    destruct (delete_t_keys k (Node a k0 v l r) k Hord (lookup_t_keys _ _ ltac:(eauto))). done. }
  destruct (lookup_t_out k' a k0 v l r Hord) as [Hout1 Hout2].
  destruct (Z.eq_dec k k0) as [<-|Hne].
  - cbn [lookup_t]. rewrite (proj2 (Z.eqb_neq k' k)) by done.
    destruct (decide (l = Leaf \/ r = Leaf)) as [Hone|Htwo].
    + rewrite delete_t_one by done. unfold only_child.
      destruct (Z.ltb_spec k' k); destruct (bool_decide_reflect (l = Leaf)) as [->|Hlf]; cbn; auto.
      * destruct Hone as [?| ->]; [done|]. by rewrite Hout2 by lia.
    + assert (l <> Leaf /\ r <> Leaf) as [Hlf Hrf] by tauto.
      destruct (min_of_keys r Hrf Hor) as (H1 & H2 & H3 & H4 & H5 & H6). pose proof (Hr _ H1).
      rewrite delete_t_two by done. cbn [lookup_t].
      destruct (Z.eqb_spec k' (min_of r).1.2) as [->|Hm].
      * rewrite (proj2 (Z.ltb_ge _ _)) by lia. by rewrite H5.
      * destruct (Z.ltb_spec k' (min_of r).1.2), (Z.ltb_spec k' k); try done; try lia.
        -- rewrite Hout2 by lia. destruct (lookup_t k' r) eqn:E; [|done].
           assert (k' ∈ keys r) as Hin by (apply lookup_t_keys; by rewrite E). specialize (H2 _ Hin). lia.
        -- by apply H6.
  - destruct (lookup_t_child k a k0 v l r Hne) as (_ & _ & ->). cbn [lookup_t].
    destruct (Z.eqb_spec k' k0) as [->|]; [done|].
    destruct (Z.ltb_spec k k0), (Z.ltb_spec k' k0); rewrite ?IHl, ?IHr by done;
      try (destruct (decide (k' = k)); [done|]); done.
Qed.

(** ** The tree in memory *)
Record bst_rep (st : bst) (t : tree) : Prop := {
  br_root : root st = ptr t;
  br_lock : tree_locked st = false;
  br_rep : rep (nodes st) t;
  br_nodup : NoDup (addrs t);
  br_dom : dom (nodes st) = list_to_set (addrs t)
}.

Lemma height_addrs t : (height t <= length (addrs t))%nat.
Proof. induction t as [|a k v l IHl r IHr]; cbn; [lia|]. rewrite length_app. lia. Qed.

Lemma bst_rep_fuel st t : bst_rep st t -> (height t <= depth_fuel st)%nat.
Proof.
  intros [_ _ _ Hnd Hdom]. unfold depth_fuel. rewrite <-size_dom, Hdom, size_list_to_set by done.
  pose proof (height_addrs t). lia.
Qed.

Lemma rep_eqb_root st t : bst_rep st t -> (root st =? NULL) = bool_decide (t = Leaf).
Proof. intros [-> _ Hr _ _]. by eapply rep_eqb. Qed.

(** Locking the root and releasing the tree. *)
Lemma wp_enter {A} st t b (K : M bst A) Q :
  bst_rep st t -> t <> Leaf ->
  (forall m', rep_held m' t -> same_but [ptr t] (nodes st) m' -> dom m' = dom (nodes st) ->
     wp K (mkBst (root st) b m') Q) ->
  wp (_ ← NODE_LOCK (ptr t); K) (mkBst (root st) b (nodes st)) Q.
Proof.
  intros [_ _ Hr Hnd _] Hne HK. destruct t as [|a k v l r]; [done|]. pose proof Hr as (Hn & _).
  wp_step. eapply wp_NODE_LOCK; [exact Hn|]. intros c. cbn [nodes set_nodes root tree_locked].
  apply HK; [by eapply rep_lock|apply same_but_insert1|by eapply dom_insert_is_node].
Qed.

(** ** The operations on the whole tree *)
Lemma dom_cons_set (x : Z) (l l' : list Z) : l ≡ₚ x :: l' ->
  (list_to_set l : gset Z) = {[x]} ∪ list_to_set l'.
Proof. intros H. by rewrite (list_to_set_perm_L _ _ H). Qed.

Lemma bst_insert_wp e tree k v t st :
  env_ok e -> tree <> NULL -> bst_rep st t ->
  wp (bst_insert e tree k v) st (fun res st' =>
    (res = -1 /\ (is_Some (lookup_t k t) \/ ~ can_create e) /\ bst_rep st' t) \/
    (res = 0 /\ lookup_t k t = None /\ exists a, bst_rep st' (insert_t a k v t))).
Proof.
  intros He Htree Hrep. pose proof (bst_rep_fuel _ _ Hrep) as Hfuel.
  pose proof Hrep as [Hroot Hlock Hr Hnd Hdom].
  unfold bst_insert. rewrite (proj2 (Z.eqb_neq tree NULL)) by done. wp_step. apply wp_get. wp_step.
  apply wp_lock_tree; [done|]. wp_step. apply wp_get_root; [done|]. cbn [root].
  rewrite (rep_eqb_root _ _ Hrep). case_bool_decide as Ht.
  - subst t. wp_step. apply wp_create; [done| |].
    + intros Hfail. cbn [Z.eqb NULL]. wp_step. apply wp_unlock_tree; [done|]. apply wp_ret. left.
      split_and!; [done|by right|]. by split.
    + intros a Ha Hfresh. rewrite (proj2 (Z.eqb_neq a NULL)) by done. wp_step. apply wp_set_root; [done|].
      wp_step. apply wp_unlock_tree; [done|]. apply wp_ret. right. split_and!; [done|done|]. exists a.
      cbn [nodes set_nodes root tree_locked] in *. split; try done.
      * cbn. split_and!; [by apply is_node_eq|done|done].
      * apply NoDup_singleton.
      * cbn [nodes set_nodes insert_t addrs app]. rewrite dom_insert_L, Hdom. set_solver.
  - rewrite Hroot. cbn zeta. rewrite <-Hroot. rewrite Hroot at 1.
    eapply wp_enter; [done|done|]. intros m' Hm Hs Hd. wp_step. apply wp_unlock_tree; [done|].
    rewrite Hroot. eapply wp_mono; [apply (insert_loop_wp e k v t); [done|done|done|lia]|].
    cbn [nodes root tree_locked]. intros res st' (R1 & R2 & Hres). cbn [nodes root tree_locked] in *.
    destruct Hres as [(-> & Hc & Hr' & _ & Hd')|(-> & Hn & a & Ha & Hf & Hr' & _ & Hd')].
    + left. split_and!; [done|done|]. split; try done. by rewrite Hd', Hd.
    + right. split_and!; [done|done|]. exists a.
      pose proof (insert_t_addrs a k v t Hn) as Hp. split; try done.
      * by rewrite R1, insert_t_ptr.
      * rewrite Hp. apply NoDup_cons. split; [|done]. intros Hin.
        assert (a ∈ dom m') as Hin' by (rewrite Hd, Hdom; by apply elem_of_list_to_set).
        apply elem_of_dom in Hin' as [? ?]. congruence.
      * by rewrite (dom_cons_set _ _ _ Hp), Hd', Hd, Hdom.
Qed.

Lemma bst_lookup_wp tree k value t st :
  tree <> NULL -> value <> NULL -> bst_rep st t ->
  wp (bst_lookup tree k value) st (fun res st' => res = lookup_result (lookup_t k t) /\ bst_rep st' t).
Proof.
  intros Htree Hval Hrep. pose proof (bst_rep_fuel _ _ Hrep) as Hfuel.
  pose proof Hrep as [Hroot Hlock Hr Hnd Hdom].
  unfold bst_lookup. rewrite (proj2 (Z.eqb_neq tree NULL)), (proj2 (Z.eqb_neq value NULL)) by done.
  cbn [orb]. wp_step. apply wp_get. wp_step. apply wp_lock_tree; [done|].
  wp_step. apply wp_get_root; [done|]. cbn [root]. rewrite (rep_eqb_root _ _ Hrep). case_bool_decide as Ht.
  - subst t. wp_step. apply wp_unlock_tree; [done|]. apply wp_ret. split; [done|]. by split.
  - rewrite Hroot at 1. eapply wp_enter; [done|done|]. intros m' Hm Hs Hd. wp_step.
    apply wp_unlock_tree; [done|]. rewrite Hroot.
    eapply wp_mono; [apply (lookup_loop_wp k t); [done|done|lia]|].
    cbn [nodes root tree_locked]. intros res st' [-> (R1 & R2 & Hr' & _ & Hd')].
    cbn [nodes root tree_locked] in *. split; [done|]. split; try done. by rewrite Hd', Hd.
Qed.

Lemma removed_dom (m m' : gmap Z bst_node) t t' x :
  addrs t ≡ₚ x :: addrs t' -> NoDup (addrs t) -> dom m = list_to_set (addrs t) ->
  dom m' = dom m ∖ {[x]} -> NoDup (addrs t') /\ dom m' = list_to_set (addrs t').
Proof.
  intros Hp Hnd Hm Hm'. rewrite Hp in Hnd. apply NoDup_cons in Hnd as [Hx Hnd]. split; [done|].
  rewrite Hm', Hm, (dom_cons_set _ _ _ Hp). set_solver.
Qed.

(** The end of a deletion: the tree without the node. *)
Lemma bst_rep_delete k t st0 st' :
  bst_rep st0 t -> tree_locked st' = false -> root st' = ptr (delete_t k t) ->
  rep (nodes st') (delete_t k t) ->
  (dom (nodes st') = match deleted_addr k t with Some a => dom (nodes st0) ∖ {[a]} | None => dom (nodes st0) end) ->
  bst_rep st' (delete_t k t).
Proof.
  intros [_ _ _ Hnd Hdom] Hl Hroot Hr Hrem. destruct (deleted_addr k t) as [x|] eqn:Hx.
  - destruct (removed_dom _ _ _ _ _ (delete_t_addrs k t x Hx) Hnd Hdom Hrem) as [? ?]. by split.
  - rewrite delete_t_none in * by done. split; try done. by rewrite Hrem.
Qed.

Lemma delete_below_wp k a k' v l r t1 t2 st fuel depth :
  rep_held (nodes st) (Node a k' v l r) -> NoDup (addrs (Node a k' v l r)) -> k <> k' ->
  t1 = (if k <? k' then l else r) -> t2 = (if k <? k' then r else l) -> t1 <> Leaf ->
  (height l <= fuel)%nat -> (height r <= fuel)%nat -> (height l <= depth)%nat -> (height r <= depth)%nat ->
  wp (_ ← NODE_LOCK (ptr t1); delete_loop fuel depth a (ptr t1) (k <? k') k) st (fun res st' =>
    res = match lookup_t k t1 with Some _ => 0 | None => -1 end /\
    root st' = root st /\ tree_locked st' = tree_locked st /\
    rep (nodes st') (delete_t k (Node a k' v l r)) /\
    removed st st' (deleted_addr k (Node a k' v l r))).
Proof.
  intros (Hn & Hl & Hr) Hnd Hne Et1 Et2 Hlf Hfl Hfr Hdl Hdr.
  destruct (lookup_t_child k a k' v l r Hne) as (_ & Eda & Edel).
  apply nodup_node in Hnd as (Hal & Har & Hndl & Hndr & Hlr).
  assert (rep (nodes st) t1 /\ rep (nodes st) t2 /\ NoDup (addrs t1) /\ (height t1 <= fuel)%nat /\
          (height t1 <= depth)%nat /\ a ∉ addrs t1 /\ a ∉ addrs t2 /\ (forall b, b ∈ addrs t1 -> b ∉ addrs t2))
    as (H1 & H2 & Hnd1 & Hf1 & Hd1 & Ha1 & Ha2 & H12).
  { destruct (k <? k'); subst t1 t2; split_and!; try done. intros b Hb Hb'. by apply (Hlr b). }
  assert (((k <? k') = true -> ptr l = ptr t1) /\ ((k <? k') = false -> ptr r = ptr t1)) as [G1 G2]
    by (subst t1; by destruct (k <? k')).
  pose proof (ptr_in _ Hlf) as Hpt. assert (a <> ptr t1) as Hap by (intros ->; done).
  assert (exists kb vb lb rb, is_node (nodes st) (ptr t1) kb vb false lb rb) as (kb & vb & lb & rb & Hn1).
  { destruct t1; [done|]. destruct H1 as (Hn1 & _). eauto. }
  wp_step. eapply wp_NODE_LOCK; [exact Hn1|]. intros c1. cbn [nodes set_nodes].
  assert (rep_held (<[ptr t1 := mkNode kb vb c1 true lb rb]> (nodes st)) t1) as Hh1.
  { destruct t1 as [|b k1 v1 l1 r1]; [done|]. pose proof H1 as ((_ & c2 & Eq) & _).
    destruct Hn1 as (_ & c3 & Eq'). cbn [ptr] in *. rewrite Eq in Eq'. simplify_eq. by eapply rep_lock. }
  eapply wp_mono.
  { apply (delete_loop_wp k t1 _ _ _ a k' v (ptr l) (ptr r) (k <? k')); cbn [nodes set_nodes]; try done.
    by apply is_node_ne. }
  intros res st' [P1 P2 P3 P4 P5 P6 P7]. cbn [nodes set_nodes root tree_locked] in *.
  assert (rep (nodes st') t2) as Hr2.
  { eapply rep_same_but; [apply rep_insert; [exact H2|by apply H12]|exact P6|].
    intros b [->|Hb]%elem_of_cons; [done|by apply H12]. }
  split_and!; [done|done|done| |].
  - rewrite Edel. destruct (k <? k'); subst t1 t2; cbn [rep]; split_and!; done.
  - rewrite Eda, <-Et1. unfold removed in *. cbn [nodes set_nodes] in P7.
    erewrite dom_insert_is_node in P7 by exact Hn1. exact P7.
Qed.

Lemma bst_delete_wp tree k t st :
  tree <> NULL -> bst_rep st t ->
  wp (bst_delete tree k) st (fun res st' =>
    res = match lookup_t k t with Some _ => 0 | None => -1 end /\ bst_rep st' (delete_t k t)).
Proof.
  intros Htree Hrep. pose proof (bst_rep_fuel _ _ Hrep) as Hfuel.
  pose proof Hrep as [Hroot Hlock Hr Hnd Hdom].
  unfold bst_delete. rewrite (proj2 (Z.eqb_neq tree NULL)) by done.
  wp_step. apply wp_get. wp_step. apply wp_lock_tree; [done|].
  wp_step. apply wp_get_root; [done|]. cbn [root]. rewrite (rep_eqb_root _ _ Hrep). case_bool_decide as Ht.
  { subst t. wp_step. apply wp_unlock_tree; [done|]. apply wp_ret. split; [done|]. by split. }
  rewrite Hroot at 1. eapply wp_enter; [done|done|]. intros m' Hm Hs Hd. rewrite Hroot.
  destruct t as [|a k' v l r]; [done|]. pose proof Hm as (Hn & Hl' & Hr'). cbn [ptr].
  pose proof (nodup_node _ _ _ _ _ Hnd) as (Hal & Har & Hndl & Hndr & Hlr). cbn [height] in Hfuel.
  wp_step. eapply wp_held; [exact Hn|]. intros c _. cbn [key left right nodes].
  destruct (Z.eqb_spec k' k) as [->|Hne].
  - rewrite (only_child_ptr _ _ _ Hl'), (rep_eqb _ _ Hl'), (rep_eqb _ _ Hr').
    assert (match lookup_t k (Node a k v l r) with Some _ => 0 | None => -1 end = 0) as Hres
      by (cbn; by rewrite Z.eqb_refl).
    destruct (bool_decide (l = Leaf) || bool_decide (r = Leaf)) eqn:Hone.
    + assert (l = Leaf \/ r = Leaf) as Hone'.
      { apply orb_true_iff in Hone as [H|H]; apply bool_decide_eq_true in H; auto. }
      wp_step. apply wp_set_root; [done|]. wp_step. apply wp_unlock_tree; [done|]. cbn [root nodes].
      eapply (wp_free_unlock _ a k v l r); [done|done|]. cbn [nodes]. intros m2 R1 R2 R3. rewrite Hres.
      split; [done|]. eapply bst_rep_delete; [exact Hrep|done|by rewrite delete_t_one|by rewrite delete_t_one|].
      rewrite deleted_addr_one by done. cbn [nodes set_nodes]. by rewrite R3, Hd.
    + apply orb_false_iff in Hone as [H1 H2]. apply bool_decide_eq_false in H1, H2.
      wp_step. apply wp_unlock_tree; [done|]. cbn [root nodes].
      eapply wp_delete_two_unlock; [done|done|done|done|lia|]. cbn [root nodes tree_locked].
      intros st' R1 R2 R3 R4 R5. rewrite Hres. split; [done|].
      eapply bst_rep_delete; [exact Hrep|done|by rewrite R1, delete_t_two|done|].
      unfold removed in R5. cbn [nodes] in R5. by rewrite R5, Hd.
  - assert (k <> k') as Hne' by done.
    destruct (lookup_t_child k a k' v l r Hne') as (Elk & Eda & Edel).
    set (t1 := if k <? k' then l else r) in *. set (t2 := if k <? k' then r else l).
    assert (t1 = l /\ t2 = r \/ t1 = r /\ t2 = l) as H12 by (unfold t1, t2; destruct (k <? k'); auto).
    wp_step. apply wp_unlock_tree; [done|]. cbn [root nodes].
    assert ((if k <? k' then (ptr l, true) else (ptr r, false)) = (ptr t1, k <? k')) as ->
      by (unfold t1; by destruct (k <? k')).
    assert (rep m' t1) as H1 by (unfold t1; by destruct (k <? k')).
    rewrite (rep_eqb _ _ H1). destruct (bool_decide_reflect (t1 = Leaf)) as [Hlf|Hlf].
    + wp_step. eapply wp_NODE_UNLOCK; [exact Hn|]. intros c1. apply wp_ret.
      rewrite Elk, Hlf. split; [done|]. eapply bst_rep_delete; [exact Hrep|done| | |].
      * rewrite delete_t_none; [done|]. by rewrite Eda, Hlf.
      * rewrite delete_t_none; [|by rewrite Eda, Hlf]. by apply rep_unlock.
      * rewrite Eda, Hlf. cbn [deleted_addr nodes set_nodes]. rewrite <-Hd. by eapply dom_insert_is_node.
    + eapply wp_mono; [apply (delete_below_wp k a k' v l r t1 t2); try done; lia|].
      cbn [nodes root tree_locked]. intros res st' (-> & R1 & R2 & R3 & R4). rewrite Elk. split; [done|].
      eapply bst_rep_delete; [exact Hrep|done|by rewrite R1, delete_t_ptr|done|].
      unfold removed in R4. cbn [nodes] in R4. by rewrite R4, Hd.
Qed.

(** ** bst_destroy *)
Lemma destroy_node_wp t fuel st :
  rep (nodes st) t -> NoDup (addrs t) -> (height t < fuel)%nat ->
  wp (bst_destroy_node fuel (ptr t)) st (fun _ st' =>
    root st' = root st /\ tree_locked st' = tree_locked st /\
    same_but (addrs t) (nodes st) (nodes st') /\ dom (nodes st') = dom (nodes st) ∖ list_to_set (addrs t)).
Proof.
  revert fuel st. induction t as [|a k v l IHl r IHr]; intros fuel st Hr Hnd Hf;
    (destruct fuel as [|fuel]; [lia|]); cbn [bst_destroy_node ptr].
  - cbn [NULL Z.eqb]. apply wp_ret. split_and!; try done. cbn. set_solver.
  - destruct Hr as (Hn & Hl & Hr). pose proof Hn as (Ha & c & Hlk). cbn [height] in Hf.
    apply nodup_node in Hnd as (Hal & Har & Hndl & Hndr & Hlr).
    rewrite (proj2 (Z.eqb_neq a NULL)) by done. wp_step. apply wp_get. rewrite Hlk. cbn [left right].
    wp_step. eapply wp_mono; [apply IHl; [done|done|lia]|]. cbn beta. intros _ st1 (R1 & R2 & R3 & R4).
    wp_step. eapply wp_mono; [apply IHr; [eapply rep_same_but; [exact Hr|exact R3|exact Hlr]|done|lia]|].
    cbn beta. intros _ st2 (S1 & S2 & S3 & S4).
    assert (is_node (nodes st2) a k v false (ptr l) (ptr r)) as Hn2.
    { eapply is_node_same; [|exact S3|done]. by eapply is_node_same. }
    eapply wp_free; [exact Hn2|]. cbn [root tree_locked nodes set_nodes addrs]. split_and!; try congruence.
    + apply same_but_delete; [set_solver|].
      eapply same_but_trans; [exact R3|exact S3| |]; set_solver.
    + rewrite dom_delete_L, S4, R4, list_to_set_cons, list_to_set_app_L. set_solver.
Qed.

(** ** The abstract map *)

(** Every mutex is free, every node is in the tree, and the tree is [M]. *)
Definition bst_map (st : bst) (m : gmap Z Z) : Prop :=
  exists t, bst_rep st t /\ ordered t /\ forall k, m !! k = lookup_t k t.

Definition empty_bst : bst := mkBst NULL false ∅.

Lemma bst_map_init : bst_map empty_bst ∅.
Proof. exists Leaf. split; [|done]. split; done || constructor. Qed.

Lemma insert_map e tree k v st m :
  env_ok e -> tree <> NULL -> bst_map st m ->
  wp (bst_insert e tree k v) st (fun res st' =>
    (res = -1 /\ (is_Some (m !! k) \/ ~ can_create e) /\ bst_map st' m) \/
    (res = 0 /\ m !! k = None /\ bst_map st' (<[k := v]> m))).
Proof.
  intros He Ht (t & Hrep & Hord & Hm). eapply wp_mono; [by apply bst_insert_wp|].
  cbn beta. intros res st' [(-> & Hc & Hr)|(-> & Hn & a & Hr)]; [left|right].
  - split_and!; [done|by rewrite Hm|]. by exists t.
  - split_and!; [done|by rewrite Hm|]. exists (insert_t a k v t). split_and!; [done|by apply insert_t_ordered|].
    intros k'. rewrite insert_t_lookup by done. case_decide as Hk.
    + subst. apply lookup_insert_eq.
    + by rewrite lookup_insert_ne.
Qed.

Lemma lookup_map tree value k st m :
  tree <> NULL -> value <> NULL -> bst_map st m ->
  wp (bst_lookup tree k value) st (fun res st' => res = lookup_result (m !! k) /\ bst_map st' m).
Proof.
  intros Ht Hv (t & Hrep & Hord & Hm). eapply wp_mono; [by apply bst_lookup_wp|].
  cbn beta. intros res st' [-> Hr]. split; [by rewrite Hm|]. by exists t.
Qed.

Lemma delete_map tree k st m :
  tree <> NULL -> bst_map st m ->
  wp (bst_delete tree k) st (fun res st' =>
    res = match m !! k with Some _ => 0 | None => -1 end /\ bst_map st' (delete k m)).
Proof.
  intros Ht (t & Hrep & Hord & Hm). eapply wp_mono; [by apply bst_delete_wp|].
  cbn beta. intros res st' [-> Hr]. split; [by rewrite Hm|]. exists (delete_t k t).
  split_and!; [done|by apply delete_t_ordered|]. intros k'. rewrite delete_t_lookup by done.
  case_decide as Hk; [subst; apply lookup_delete_eq|by rewrite lookup_delete_ne].
Qed.

(** A client's calls and the specification on maps. *)
Inductive op : Type := Insert (k v : Z) | Lookup (k : Z) | Delete (k : Z).

Definition run_op (e : env) (tree value : Z) (o : op) : M bst (option Z * Z) :=
  match o with
  | Insert k v => r ← bst_insert e tree k v; mret (None, r)
  | Lookup k => bst_lookup tree k value
  | Delete k => r ← bst_delete tree k; mret (None, r)
  end.

Fixpoint run_ops (e : env) (tree value : Z) (os : list op) : M bst (list (option Z * Z)) :=
  match os with
  | [] => mret []
  | o :: os' => a ← run_op e tree value o; rest ← run_ops e tree value os'; mret (a :: rest)
  end.

Definition spec_op (o : op) (m : gmap Z Z) : (option Z * Z) * gmap Z Z :=
  match o with
  | Insert k v => match m !! k with Some _ => ((None, -1), m) | None => ((None, 0), <[k := v]> m) end
  | Lookup k => (lookup_result (m !! k), m)
  | Delete k => ((None, match m !! k with Some _ => 0 | None => -1 end), delete k m)
  end.

Fixpoint spec_ops (os : list op) (m : gmap Z Z) : list (option Z * Z) * gmap Z Z :=
  match os with
  | [] => ([], m)
  | o :: os' => let '(a, m) := spec_op o m in let '(rest, m) := spec_ops os' m in (a :: rest, m)
  end.

Lemma run_op_spec e tree value o st m :
  env_ok e -> can_create e -> tree <> NULL -> value <> NULL -> bst_map st m ->
  wp (run_op e tree value o) st (fun a st' => a = (spec_op o m).1 /\ bst_map st' (spec_op o m).2).
Proof.
  intros He Hc Ht Hv Hm. destruct o as [k v|k|k]; cbn [run_op spec_op].
  - wp_step. eapply wp_mono; [by apply insert_map|]. cbn beta.
    intros res st' [(-> & [[x Hx]|Hf] & Hm')|(-> & Hn & Hm')]; apply wp_ret; [by rewrite Hx|done|by rewrite Hn].
  - eapply wp_mono; [by apply lookup_map|]. cbn beta. by intros res st' [-> ?].
  - wp_step. eapply wp_mono; [by apply delete_map|]. cbn beta. intros res st' [-> ?]. by apply wp_ret.
Qed.

Lemma run_ops_spec e tree value os st m :
  env_ok e -> can_create e -> tree <> NULL -> value <> NULL -> bst_map st m ->
  wp (run_ops e tree value os) st (fun as_ st' => as_ = (spec_ops os m).1 /\ bst_map st' (spec_ops os m).2).
Proof.
  intros He Hc Ht Hv. revert st m. induction os as [|o os IH]; intros st m Hm; [by apply wp_ret|].
  cbn [run_ops spec_ops]. wp_step. eapply wp_mono; [by apply run_op_spec|]. cbn beta. intros a st1 [-> Hm1].
  wp_step. eapply wp_mono; [by apply IH|]. cbn beta. intros rest st2 [-> Hm2]. apply wp_ret.
  destruct (spec_op o m) as [a m1]. cbn [fst snd] in *. by destruct (spec_ops os m1).
Qed.

(** ** Properties *)

(** C6: from [bst_init], any sequence of [bst_insert], [bst_lookup] and
    [bst_delete] calls gives the answers of a finite map from keys to values,
    with the code's return values.  Every call terminates; it reads and writes
    each field only under the mutex that protects it, never locks a mutex it
    holds, releases every mutex before it returns, and frees exactly the nodes
    that left the tree. *)
Theorem bst_refines_map e tree value os :
  env_ok e -> can_create e -> tree <> NULL -> value <> NULL ->
  exists st0 st, bst_init true true = Some st0 /\
    run_ops e tree value os st0 = Ok ((spec_ops os ∅).1, st) /\ bst_map st (spec_ops os ∅).2.
Proof.
  intros He Hc Ht Hv.
  destruct (run_ops_spec e tree value os empty_bst ∅ He Hc Ht Hv bst_map_init) as (a & st & Hrun & -> & Hm).
  by exists empty_bst, st.
Qed.

(** An allocator that always finds an unused address. *)
Definition good_env : env := mkEnv (fun m => Some (fresh (dom m ∪ {[NULL]}))) true.
Definition full_env : env := mkEnv (fun _ => None) true.

Lemma good_env_ok : env_ok good_env /\ can_create good_env.
Proof.
  split; [|by split].
  intros m a [= <-]. pose proof (is_fresh (dom m ∪ {[NULL]})) as Hf. split; [set_solver|].
  apply not_elem_of_dom. set_solver.
Defined.

Definition demo_ops : list op :=
  [Insert 5 50; Insert 2 20; Insert 8 80; Insert 7 70; Insert 9 90; Insert 5 51; Delete 8; Lookup 7;
   Delete 5; Lookup 5; Delete 1].

Lemma bst_refines_map_witness :
  (spec_ops demo_ops ∅).1 = [(None, 0); (None, 0); (None, 0); (None, 0); (None, 0); (None, -1); (None, 0);
                             (Some 70, 0); (None, 0); (None, -1); (None, -1)] /\
  exists st0 st, bst_init true true = Some st0 /\
             run_ops good_env 1 2 demo_ops st0 = Ok ((spec_ops demo_ops ∅).1, st) /\
             bst_map st (spec_ops demo_ops ∅).2.
Proof.
  split; [vm_compute; reflexivity|].
  apply (bst_refines_map good_env 1 2 demo_ops); [apply good_env_ok|apply good_env_ok|done|done].
Defined.

(** [bst_insert] under any allocator: it returns 0 exactly when it added the
    key, and -1 with the map unchanged when the key is present or the node
    cannot be created; the result keeps every mutex free in both cases. *)
Theorem bst_insert_outcomes e tree k v st m :
  env_ok e -> tree <> NULL -> bst_map st m ->
  exists res st', bst_insert e tree k v st = Ok (res, st') /\
    ((res = 0 /\ m !! k = None /\ bst_map st' (<[k := v]> m)) \/
     (res = -1 /\ (is_Some (m !! k) \/ ~ can_create e) /\ bst_map st' m)).
Proof.
  intros He Ht Hm. destruct (insert_map e tree k v st m He Ht Hm) as (res & st' & Hrun & Hcase).
  exists res, st'. tauto.
Qed.

Lemma bst_insert_outcomes_witness :
  exists res st', bst_insert full_env 1 4 40 empty_bst = Ok (res, st') /\
    ((res = 0 /\ (∅ : gmap Z Z) !! 4 = None /\ bst_map st' (<[4 := 40]> ∅)) \/
     (res = -1 /\ (is_Some ((∅ : gmap Z Z) !! 4) \/ ~ can_create full_env) /\ bst_map st' ∅)).
Proof. apply (bst_insert_outcomes full_env 1 4 40 empty_bst ∅); [done|done|apply bst_map_init]. Defined.

(** [bst_destroy] frees every node of the tree, each once. *)
Theorem bst_destroy_frees_all st m :
  bst_map st m -> exists st', bst_destroy st = Ok (tt, st') /\ nodes st' = ∅.
Proof.
  intros (t & Hrep & _). pose proof (bst_rep_fuel _ _ Hrep) as Hf. destruct Hrep as [Hroot Hl Hr Hnd Hd].
  assert (wp bst_destroy st (fun _ st' => dom (nodes st') = ∅)) as ([] & st' & Hrun & Hdom).
  { unfold bst_destroy. wp_step. apply wp_get. rewrite Hroot.
    eapply wp_mono; [apply destroy_node_wp; [done|done|]|].
    - unfold depth_fuel. rewrite <-size_dom, Hd, size_list_to_set by done. pose proof (height_addrs t). lia.
    - cbn beta. intros _ st' (_ & _ & _ & ->). rewrite Hd. set_solver. }
  exists st'. split; [done|]. by apply dom_empty_inv_L.
Qed.

Lemma bst_destroy_frees_all_witness :
  exists st', bst_destroy (mkBst 8 false {[8 := mkNode 3 30 1 false 0 16; 16 := mkNode 4 40 2 false 0 0]})
              = Ok (tt, st') /\ nodes st' = ∅.
Proof.
  apply (bst_destroy_frees_all _ {[3 := 30; 4 := 40]}).
  exists (Node 8 3 30 Leaf (Node 16 4 40 Leaf Leaf)). split_and!.
  - split; try done.
    + cbn. split_and!; try done; (split; [done|eexists; reflexivity]).
    + cbn. apply NoDup_cons. split; [set_solver|apply NoDup_singleton].
  - cbn. split_and!; try done; set_solver by lia.
  - intros k. cbn. destruct (Z.eqb_spec k 3) as [->|]; [done|]. rewrite lookup_insert_ne by done.
    destruct (Z.ltb_spec k 3); [apply lookup_singleton_ne; lia|].
    destruct (Z.eqb_spec k 4) as [->|]; [done|]. rewrite lookup_singleton_ne by done. by destruct (k <? 4).
Defined.
