(* ===== verification/Threadpool.v ===== *)
(** * The thread pool, Thread pool + 并发二叉树/solution/threadpool.c

    State: the fields of [threadpool_t].  Each critical section, from acquiring
    the mutex to releasing it or to a condition wait, is one executable step on
    the pool; threads run their sections in any order ([step]).  A condition
    wait gives up the mutex and re-runs its section when woken; wakeups may be
    spurious.  Ghost lists record the accepted, started and finished tasks. *)
From S2P Require Import Prelude.

Record task_t : Type := mkTask { func : Z; arg : Z }.

Record threadpool : Type := mkPool {
  queue : list (option task_t);     (** None: not written yet *)
  num_threads : Z;
  queue_capacity : Z;
  queue_size : Z;
  queue_head : Z;
  queue_tail : Z;
  shutdown : bool
}.

Definition set_queue (q : list (option task_t)) (size head tail : Z) (p : threadpool) : threadpool :=
  mkPool q (num_threads p) (queue_capacity p) size head tail (shutdown p).
Definition set_shutdown (p : threadpool) : threadpool :=
  mkPool (queue p) (num_threads p) (queue_capacity p) (queue_size p) (queue_head p) (queue_tail p) true.

(** ** The critical sections *)

(** worker_thread: wait on not_empty, leave, or run a task after signalling not_full. *)
Inductive worker_next : Type := WWait | WExit | WRun (t : task_t).

Definition worker_section : M threadpool worker_next :=
  p ← get;
  if (queue_size p =? 0) && negb (shutdown p) then mret WWait
  else if (queue_size p =? 0) && shutdown p then mret WExit
  else if queue_head p <? 0 then fail Undefined else
  match queue p !! Z.to_nat (queue_head p) with
  | Some (Some task) =>
      let head := Z.rem (queue_head p + 1) (queue_capacity p) in
      size ← lift (sint (queue_size p - 1));
      _ ← modify (set_queue (queue p) size head (queue_tail p));
      mret (WRun task)
  | _ => fail Undefined
  end.

(** threadpool_submit: wait on not_full, or return, after signalling not_empty
    when the result is 0. *)
Inductive submit_next : Type := SWait | SRet (r : Z).

Definition submit_section (t : task_t) : M threadpool submit_next :=
  p ← get;
  if (queue_size p =? queue_capacity p) && negb (shutdown p) then mret SWait
  else if shutdown p then mret (SRet (-1))
  else if (queue_tail p <? 0) || (Z.of_nat (length (queue p)) <=? queue_tail p) then fail Undefined else
  let q := <[Z.to_nat (queue_tail p) := Some t]> (queue p) in
  let tail := Z.rem (queue_tail p + 1) (queue_capacity p) in
  size ← lift (sint (queue_size p + 1));
  _ ← modify (set_queue q size (queue_head p) tail);
  mret (SRet 0).

(** threadpool_destroy before the joins: both conditions are broadcast. *)
Definition destroy_section : M threadpool unit := modify set_shutdown.

(** ** threadpool_create and the end of threadpool_destroy *)
Inductive resource : Type := RPool | RQueue | RThreads | RLock | RNotEmpty | RNotFull | RWorker (i : nat).

#[export] Instance resource_eq_dec : EqDecision resource.
Proof. solve_decision. Defined.

(** The live resources; [ok r] tells whether acquiring [r] succeeds. *)
Definition acquire (ok : resource -> bool) (r : resource) : M (list resource) bool := fun live =>
  if ok r then Ok (true, r :: live) else Ok (false, live).
Definition release (r : resource) : M (list resource) unit := fun live =>
  match list_find (r =.) live with
  | Some (i, _) => Ok (tt, delete i live)
  | None => Err Undefined
  end.

Fixpoint release_all (rs : list resource) : M (list resource) unit :=
  match rs with [] => mret tt | r :: rs' => _ ← release r; release_all rs' end.

(** Workers from [i] on; on failure, shutdown, join the [i] created ones and clean up. *)
Fixpoint spawn (ok : resource -> bool) (k i : nat) : M (list resource) bool :=
  match k with
  | O => mret true
  | S k' =>
      b ← acquire ok (RWorker i);
      if negb (b : bool) then
        _ ← release_all (RWorker <$> seq 0 i);
        _ ← release_all [RNotFull; RNotEmpty; RLock; RThreads; RQueue; RPool];
        mret false
      else spawn ok k' (S i)
  end.

Definition new_pool (num_threads queue_capacity : Z) : threadpool :=
  mkPool (replicate (Z.to_nat queue_capacity) None) num_threads queue_capacity 0 0 0 false.

Definition threadpool_create (ok : resource -> bool) (num_threads queue_capacity : Z)
    : M (list resource) (option threadpool) :=
  if (num_threads <=? 0) || (queue_capacity <=? 0) then mret None else
  b ← acquire ok RPool;
  if negb (b : bool) then mret None else
  b ← acquire ok RQueue;
  if negb (b : bool) then _ ← release_all [RPool]; mret None else
  b ← acquire ok RThreads;
  if negb (b : bool) then _ ← release_all [RQueue; RPool]; mret None else
  b ← acquire ok RLock;
  if negb (b : bool) then _ ← release_all [RThreads; RQueue; RPool]; mret None else
  b ← acquire ok RNotEmpty;
  if negb (b : bool) then _ ← release_all [RLock; RThreads; RQueue; RPool]; mret None else
  b ← acquire ok RNotFull;
  if negb (b : bool) then _ ← release_all [RNotEmpty; RLock; RThreads; RQueue; RPool]; mret None else
  b ← spawn ok (Z.to_nat num_threads) 0;
  if negb (b : bool) then mret None
  else mret (Some (new_pool num_threads queue_capacity)).

(** The joins and the clean-up of threadpool_destroy. *)
Definition destroy_cleanup (p : threadpool) : M (list resource) unit :=
  _ ← release_all (RWorker <$> seq 0 (Z.to_nat (num_threads p)));
  release_all [RNotFull; RNotEmpty; RLock; RThreads; RQueue; RPool].

(** ** The threads *)
Inductive wstate : Type := WReady | WWaiting | WRunning (t : task_t) | WExited.

(** A submitting thread: where it is in [threadpool_submit], and the tasks it
    still submits, the current one first. *)
Inductive spc : Type := SIdle | SWaiting | SWoken.
Record sstate : Type := mkSub { pc : spc; todo : list task_t; rets : list Z }.

Inductive dstate : Type := DNot | DJoining | DDone.

Record sys : Type := mkSys {
  pool : threadpool;
  workers : list wstate;
  subs : list sstate;
  destroyer : dstate;
  accepted : list task_t;
  started : list task_t;
  finished : list task_t
}.

(** pthread_cond_signal: wakes one waiting thread, if there is one. *)
Definition wake_worker (ws ws' : list wstate) : Prop :=
  (exists i, ws !! i = Some WWaiting /\ ws' = <[i := WReady]> ws) \/ ((forall i, ws !! i <> Some WWaiting) /\ ws' = ws).
Definition wake_sub (ss ss' : list sstate) : Prop :=
  (exists i s, ss !! i = Some s /\ pc s = SWaiting /\ ss' = <[i := mkSub SWoken (todo s) (rets s)]> ss) \/
  ((forall i s, ss !! i = Some s -> pc s <> SWaiting) /\ ss' = ss).

Definition broadcast_worker (w : wstate) : wstate := match w with WWaiting => WReady | _ => w end.
Definition broadcast_sub (s : sstate) : sstate :=
  match pc s with SWaiting => mkSub SWoken (todo s) (rets s) | _ => s end.

(** Who makes a step; spurious wakeups are kept apart. *)
Inductive actor : Type := Worker (i : nat) | Submitter (j : nat) | Destroyer | Spurious.

Inductive step : actor -> sys -> sys -> Prop :=
  | step_worker_wait i p ws ss d a b f :
      ws !! i = Some WReady -> worker_section p = Ok (WWait, p) -> d <> DDone ->
      step (Worker i) (mkSys p ws ss d a b f) (mkSys p (<[i := WWaiting]> ws) ss d a b f)
  | step_worker_exit i p ws ss d a b f :
      ws !! i = Some WReady -> worker_section p = Ok (WExit, p) -> d <> DDone ->
      step (Worker i) (mkSys p ws ss d a b f) (mkSys p (<[i := WExited]> ws) ss d a b f)
  | step_worker_take i p p' t ws ss ss' d a b f :
      ws !! i = Some WReady -> worker_section p = Ok (WRun t, p') -> wake_sub ss ss' -> d <> DDone ->
      step (Worker i) (mkSys p ws ss d a b f) (mkSys p' (<[i := WRunning t]> ws) ss' d a (b ++ [t]) f)
  | step_worker_done i p t ws ss d a b f :
      ws !! i = Some (WRunning t) ->
      step (Worker i) (mkSys p ws ss d a b f) (mkSys p (<[i := WReady]> ws) ss d a b (f ++ [t]))
  | step_submit_wait j s t ts p ws ss d a b f :
      ss !! j = Some s -> pc s <> SWaiting -> todo s = t :: ts ->
      submit_section t p = Ok (SWait, p) -> d <> DDone ->
      step (Submitter j) (mkSys p ws ss d a b f) (mkSys p ws (<[j := mkSub SWaiting (todo s) (rets s)]> ss) d a b f)
  | step_submit_refused j s t ts p ws ss d a b f :
      ss !! j = Some s -> pc s <> SWaiting -> todo s = t :: ts ->
      submit_section t p = Ok (SRet (-1), p) -> d <> DDone ->
      step (Submitter j) (mkSys p ws ss d a b f) (mkSys p ws (<[j := mkSub SIdle ts (rets s ++ [-1])]> ss) d a b f)
  | step_submit_accept j s t ts p p' ws ws' ss d a b f :
      ss !! j = Some s -> pc s <> SWaiting -> todo s = t :: ts ->
      submit_section t p = Ok (SRet 0, p') -> wake_worker ws ws' -> d <> DDone ->
      step (Submitter j) (mkSys p ws ss d a b f)
        (mkSys p' ws' (<[j := mkSub SIdle ts (rets s ++ [0])]> ss) d (a ++ [t]) b f)
  | step_destroy p p' ws ss a b f :
      destroy_section p = Ok (tt, p') ->
      step Destroyer (mkSys p ws ss DNot a b f)
        (mkSys p' (broadcast_worker <$> ws) (broadcast_sub <$> ss) DJoining a b f)
  | step_join p ws ss a b f :
      Forall (eq WExited) ws ->
      step Destroyer (mkSys p ws ss DJoining a b f) (mkSys p ws ss DDone a b f)
  | step_spurious_worker i p ws ss d a b f :
      ws !! i = Some WWaiting ->
      step Spurious (mkSys p ws ss d a b f) (mkSys p (<[i := WReady]> ws) ss d a b f)
  | step_spurious_sub j s p ws ss d a b f :
      ss !! j = Some s -> pc s = SWaiting ->
      step Spurious (mkSys p ws ss d a b f) (mkSys p ws (<[j := mkSub SWoken (todo s) (rets s)]> ss) d a b f).

(** The system after threadpool_create: [n] workers, and the submitting threads. *)
Definition start (p : threadpool) (jobs : list (list task_t)) : sys :=
  mkSys p (replicate (Z.to_nat (num_threads p)) WReady) ((fun ts => mkSub SIdle ts []) <$> jobs)
    DNot [] [] [].

Inductive reachable (s0 : sys) : sys -> Prop :=
  | reach_start : reachable s0 s0
  | reach_step a s s' : reachable s0 s -> step a s s' -> reachable s0 s'.

(** ** The ring buffer *)
Record ring (p : threadpool) (q : list task_t) : Prop := {
  ri_cap : 0 < queue_capacity p <= INT_MAX;
  ri_len : length (queue p) = Z.to_nat (queue_capacity p);
  ri_size : queue_size p = Z.of_nat (length q);
  ri_fits : Z.of_nat (length q) <= queue_capacity p;
  ri_head : 0 <= queue_head p < queue_capacity p;
  ri_tail : queue_tail p = (queue_head p + Z.of_nat (length q)) mod queue_capacity p;
  ri_slots : forall i t, q !! i = Some t ->
    queue p !! Z.to_nat ((queue_head p + Z.of_nat i) mod queue_capacity p) = Some (Some t)
}.

(** Offsets smaller than the capacity fall in different slots. *)
Lemma slots_differ cap h i j :
  0 < cap -> 0 <= i < cap -> 0 <= j < cap -> i <> j -> (h + i) mod cap <> (h + j) mod cap.
Proof.
  intros Hc Hi Hj Hne E. apply Hne.
  pose proof (Z.div_mod (h + i) cap). pose proof (Z.div_mod (h + j) cap).
  assert (i - j = cap * ((h + i) / cap - (h + j) / cap)) as Ed by lia.
  assert ((h + i) / cap - (h + j) / cap = 0) by nia. lia.
Qed.

Lemma worker_section_empty p : ring p [] ->
  worker_section p = Ok (if shutdown p then WExit else WWait, p).
Proof.
  intros [_ _ Hs _ _ _ _]. unfold worker_section, mbind, M_bind, get. rewrite Hs. cbn.
  by destruct (shutdown p).
Qed.

Lemma worker_section_take p t q : ring p (t :: q) ->
  exists p', worker_section p = Ok (WRun t, p') /\ ring p' q /\
    shutdown p' = shutdown p /\ queue_capacity p' = queue_capacity p /\ num_threads p' = num_threads p.
Proof.
  intros [Hc Hl Hs Hf Hh Ht Hsl]. cbn [length] in *. unfold worker_section, mbind, M_bind, get.
  rewrite (proj2 (Z.eqb_neq (queue_size p) 0)) by lia. cbn [andb].
  rewrite (proj2 (Z.ltb_ge (queue_head p) 0)) by lia.
  pose proof (Hsl 0%nat t eq_refl) as H0. rewrite Z.add_0_r, Z.mod_small in H0 by lia. rewrite H0.
  unfold lift, modify. rewrite sint_ok by (unfold_bounds; lia).
  eexists. split; [reflexivity|]. split; [|done]. rewrite Z.rem_mod_nonneg by lia. split; cbn; try done; try lia.
  - apply Z.mod_pos_bound. lia.
  - rewrite Ht, Zplus_mod_idemp_l. f_equal. lia.
  - intros i u Hi. rewrite Zplus_mod_idemp_l. specialize (Hsl (S i) u Hi). rewrite <-Hsl.
    f_equal. f_equal. f_equal. lia.
Qed.

Lemma submit_section_spec p q t : ring p q ->
  (shutdown p = true /\ submit_section t p = Ok (SRet (-1), p)) \/
  (shutdown p = false /\ Z.of_nat (length q) = queue_capacity p /\ submit_section t p = Ok (SWait, p)) \/
  (shutdown p = false /\ Z.of_nat (length q) < queue_capacity p /\
   exists p', submit_section t p = Ok (SRet 0, p') /\ ring p' (q ++ [t]) /\
     shutdown p' = false /\ queue_capacity p' = queue_capacity p /\ num_threads p' = num_threads p).
Proof.
  intros [Hc Hl Hs Hf Hh Ht Hsl]. unfold submit_section, mbind, M_bind, get.
  destruct (shutdown p) eqn:Hsd; [left; by rewrite andb_false_r|right]. rewrite andb_true_r, Hs.
  destruct (Z.eqb_spec (Z.of_nat (length q)) (queue_capacity p)) as [E|E]; [by left|right].
  split; [done|]. split; [lia|].
  pose proof (Z.mod_pos_bound (queue_head p + Z.of_nat (length q)) (queue_capacity p) ltac:(lia)) as Hb.
  rewrite <-Ht in Hb. rewrite (proj2 (Z.ltb_ge (queue_tail p) 0)), (proj2 (Z.leb_gt _ (queue_tail p))) by lia.
  cbn [orb]. unfold lift, modify. rewrite sint_ok by (unfold_bounds; lia).
  eexists. split; [reflexivity|]. split; [|done]. rewrite Z.rem_mod_nonneg by lia. split; cbn; try done.
  - by rewrite length_insert.
  - rewrite length_app. cbn. lia.
  - rewrite length_app. cbn. lia.
  - rewrite Ht, Zplus_mod_idemp_l, length_app. f_equal. cbn. lia.
  - intros i u Hi. destruct (decide (i = length q)) as [->|Hne].
    + rewrite lookup_app_r, Nat.sub_diag in Hi by lia. cbn in Hi. simplify_eq. rewrite <-Ht.
      apply list_lookup_insert_eq. lia.
    + assert (i < length q)%nat.
      { apply lookup_lt_Some in Hi. rewrite length_app in Hi. cbn in Hi. lia. }
      rewrite lookup_app_l in Hi by lia. rewrite list_lookup_insert_ne; [by apply Hsl|].
      rewrite Ht. pose proof (Z.mod_pos_bound (queue_head p + Z.of_nat i) (queue_capacity p) ltac:(lia)).
      pose proof (slots_differ (queue_capacity p) (queue_head p) (Z.of_nat (length q)) (Z.of_nat i)
                    ltac:(lia) ltac:(lia) ltac:(lia) ltac:(lia)).
      rewrite <-Ht in *. lia.
Qed.

(** ** The invariant of the threads *)
Definition w_waiting (w : wstate) : nat := match w with WWaiting => 1 | _ => 0 end.
Definition w_ready (w : wstate) : nat := match w with WReady => 1 | _ => 0 end.
Definition w_exited (w : wstate) : nat := match w with WExited => 1 | _ => 0 end.
Definition s_waiting (s : sstate) : nat := match pc s with SWaiting => 1 | _ => 0 end.

(** Can lock the pool mutex and has a task to submit. *)
Definition s_active (s : sstate) : nat :=
  match pc s, todo s with SWaiting, _ => 0 | _, [] => 0 | _, _ => 1 end.

Definition running (ws : list wstate) : list task_t :=
  omap (fun w => match w with WRunning t => Some t | _ => None end) ws.

(** A thread inside [threadpool_submit] still has its task. *)
Definition sub_ok (s : sstate) : Prop := pc s <> SIdle -> todo s <> [].

#[global] Arguments running : simpl never.

Record inv (n : nat) (s : sys) (q : list task_t) : Prop := {
  iv_ring : ring (pool s) q;
  iv_workers : length (workers s) = n;
  iv_fifo : accepted s = started s ++ q;
  iv_done : started s ≡ₚ finished s ++ running (workers s);
  iv_not_empty : (0 < sumf w_waiting (workers s))%nat -> (length q <= sumf w_ready (workers s))%nat;
  iv_not_full : (0 < sumf s_waiting (subs s))%nat ->
    queue_capacity (pool s) - Z.of_nat (length q) <= Z.of_nat (sumf s_active (subs s));
  iv_shutdown : shutdown (pool s) = match destroyer s with DNot => false | _ => true end;
  iv_awake : shutdown (pool s) = true -> sumf w_waiting (workers s) = 0%nat /\ sumf s_waiting (subs s) = 0%nat;
  iv_exited : (0 < sumf w_exited (workers s))%nat -> shutdown (pool s) = true /\ q = [];
  iv_subs : Forall sub_ok (subs s);
  iv_done_exited : destroyer s = DDone -> Forall (eq WExited) (workers s)
}.

Lemma running_insert ws i w w' :
  ws !! i = Some w ->
  exists l1 l2, running ws = l1 ++ running [w] ++ l2 /\ running (<[i := w']> ws) = l1 ++ running [w'] ++ l2.
Proof.
  intros Hi. destruct (list_elem_of_split_length _ _ _ Hi) as (l1 & l2 & -> & ->).
  exists (running l1), (running l2). rewrite insert_middle. unfold running.
  change (w :: l2) with ([w] ++ l2). change (w' :: l2) with ([w'] ++ l2). by rewrite !omap_app.
Qed.

Lemma running_same ws i w w' :
  ws !! i = Some w -> running [w] = running [w'] -> running (<[i := w']> ws) = running ws.
Proof. intros Hi E. destruct (running_insert ws i w w' Hi) as (l1 & l2 & -> & ->). by rewrite E. Qed.

Lemma wake_worker_spec ws ws' : wake_worker ws ws' ->
  length ws' = length ws /\ running ws' = running ws /\ sumf w_exited ws' = sumf w_exited ws /\
  ((0 < sumf w_waiting ws)%nat ->
     S (sumf w_waiting ws') = sumf w_waiting ws /\ sumf w_ready ws' = S (sumf w_ready ws)) /\
  (sumf w_waiting ws = 0%nat -> ws' = ws).
Proof.
  intros [(i & Hi & ->)|[Hno ->]].
  - pose proof (sumf_insert w_waiting ws i _ WReady Hi) as H1. pose proof (sumf_insert w_ready ws i _ WReady Hi) as H2.
    pose proof (sumf_insert w_exited ws i _ WReady Hi) as H3. cbn in H1, H2, H3.
    split_and!; [by rewrite length_insert|by eapply running_same|lia|lia|lia].
  - split_and!; try done. intros Hpos. apply sumf_pos in Hpos as (i & w & Hi & Hw).
    destruct w; cbn in Hw; try lia. by destruct (Hno i).
Qed.

Lemma wake_sub_spec ss ss' : wake_sub ss ss' -> Forall sub_ok ss ->
  Forall sub_ok ss' /\ length ss' = length ss /\
  ((0 < sumf s_waiting ss)%nat ->
     S (sumf s_waiting ss') = sumf s_waiting ss /\ sumf s_active ss' = S (sumf s_active ss)) /\
  (sumf s_waiting ss = 0%nat -> ss' = ss).
Proof.
  intros [(i & s & Hi & Hpc & ->)|[Hno ->]] Hok.
  - pose proof (Forall_lookup_1 _ _ _ _ Hok Hi) as Hs. unfold sub_ok in Hs. rewrite Hpc in Hs.
    specialize (Hs ltac:(done)).
    set (s' := mkSub SWoken (todo s) (rets s)).
    pose proof (sumf_insert s_waiting ss i _ s' Hi) as H1.
    pose proof (sumf_insert s_active ss i _ s' Hi) as H2.
    unfold s_waiting, s_active in H1, H2. cbn in H1, H2. rewrite Hpc in H1, H2.
    fold s_waiting s_active in H1, H2. destruct (todo s) eqn:Htd; [done|].
    split_and!; [apply Forall_insert; [done|]; by intros _|by rewrite length_insert| |].
    + intros _. unfold s_waiting, s_active in *. lia.
    + unfold s_waiting in *. lia.
  - split_and!; try done. intros Hpos. apply sumf_pos in Hpos as (i & s & Hi & Hs).
    unfold s_waiting in Hs. destruct (pc s) eqn:Hpc; try lia. by destruct (Hno i s Hi).
Qed.

(** Facts about one entry of a list of threads. *)
Lemma insert_w ws i w w' : ws !! i = Some w ->
  (sumf w_waiting (<[i := w']> ws) + w_waiting w = sumf w_waiting ws + w_waiting w')%nat /\
  (sumf w_ready (<[i := w']> ws) + w_ready w = sumf w_ready ws + w_ready w')%nat /\
  (sumf w_exited (<[i := w']> ws) + w_exited w = sumf w_exited ws + w_exited w')%nat /\
  length (<[i := w']> ws) = length ws.
Proof. intros Hi. split_and!; try by apply sumf_insert. apply length_insert. Qed.

Lemma insert_s ss j s s' : ss !! j = Some s ->
  (sumf s_waiting (<[j := s']> ss) + s_waiting s = sumf s_waiting ss + s_waiting s')%nat /\
  (sumf s_active (<[j := s']> ss) + s_active s = sumf s_active ss + s_active s')%nat.
Proof. intros Hi. split; by apply sumf_insert. Qed.

Lemma broadcast_worker_facts ws :
  sumf w_waiting (broadcast_worker <$> ws) = 0%nat /\
  sumf w_ready (broadcast_worker <$> ws) = (sumf w_ready ws + sumf w_waiting ws)%nat /\
  sumf w_exited (broadcast_worker <$> ws) = sumf w_exited ws /\
  running (broadcast_worker <$> ws) = running ws.
Proof.
  induction ws as [|w ws (H1 & H2 & H3 & H4)]; [done|].
  rewrite fmap_cons, !sumf_cons, H1, H2, H3. unfold running in *. cbn [omap list_omap].
  destruct w; cbn; rewrite H4; split_and!; (done || lia).
Qed.

Lemma broadcast_sub_facts ss :
  sumf s_waiting (broadcast_sub <$> ss) = 0%nat /\ (Forall sub_ok ss -> Forall sub_ok (broadcast_sub <$> ss)).
Proof.
  split.
  - apply sumf_const0. intros x (s & -> & _)%list_elem_of_fmap. unfold s_waiting, broadcast_sub.
    by destruct (pc s) eqn:E; cbn; rewrite ?E.
  - intros Hok. apply Forall_fmap. eapply Forall_impl; [exact Hok|]. intros s Hs.
    unfold sub_ok, broadcast_sub in *. cbn. destruct (pc s) eqn:E; cbn; rewrite ?E; auto.
Qed.

Lemma exited_running ws : Forall (eq WExited) ws -> running ws = [].
Proof. induction 1 as [|w ws <- _ IH]; [done|]. exact IH. Qed.

Lemma inv_start n cap jobs :
  0 < n -> 0 < cap <= INT_MAX -> inv (Z.to_nat n) (start (new_pool n cap) jobs) [].
Proof.
  intros Hn Hc. unfold start. split; cbn; try done.
  - split; cbn; try lia; try done. by rewrite length_replicate.
  - by rewrite length_replicate.
  - induction (Z.to_nat n) as [|k IH]; [done|]. exact IH.
  - intros H. rewrite sumf_const0 in H; [lia|]. intros x Hx. apply elem_of_replicate in Hx as [-> _]. done.
  - intros H. rewrite sumf_const0 in H; [lia|]. intros x (ts & -> & _)%list_elem_of_fmap. done.
  - intros H. rewrite sumf_const0 in H; [lia|]. intros x Hx. apply elem_of_replicate in Hx as [-> _]. done.
  - apply Forall_fmap, Forall_forall. intros ts _ H. done.
Qed.

Lemma inv_worker n i s s' q :
  inv n s q -> step (Worker i) s s' -> exists q', inv n s' q'.
Proof.
  intros [I1 I2 I3 I4 I5 I6 I7 I8 I9 I10 I11] Hstep. inversion Hstep; subst; cbn in *.
  - (* wait *)
    destruct q as [|t q]; [|destruct (worker_section_take _ _ _ I1) as (? & E & _); congruence].
    rewrite (worker_section_empty _ I1) in *.
    assert (shutdown p = false) as Hsd by (by destruct (shutdown p)).
    destruct (insert_w ws i WReady WWaiting) as (J1 & J2 & J3 & J4); [done|]. cbn in J1, J2, J3.
    exists []. split; cbn; try done; try lia.
    + rewrite (running_same _ _ WReady) by done. done.
    + congruence.
    + intros He. destruct I9; [lia|congruence].
  - (* exit *)
    destruct q as [|t q]; [|destruct (worker_section_take _ _ _ I1) as (? & E & _); congruence].
    rewrite (worker_section_empty _ I1) in *.
    assert (shutdown p = true) as Hsd by (by destruct (shutdown p)).
    destruct (insert_w ws i WReady WExited) as (J1 & J2 & J3 & J4); [done|]. cbn in J1, J2, J3.
    destruct (I8 Hsd) as [K1 K2].
    exists []. split; cbn; try done; try lia.
    rewrite (running_same _ _ WReady) by done. done.
  - (* take *)
    destruct q as [|t' q].
    { rewrite (worker_section_empty _ I1) in *. destruct (shutdown p); congruence. }
    destruct (worker_section_take _ _ _ I1) as (p2 & E & R & Hsd & Hcap & _).
    assert (t' = t /\ p2 = p') as [-> ->] by (split; congruence).
    destruct (insert_w ws i WReady (WRunning t)) as (J1 & J2 & J3 & J4); [done|]. cbn in J1, J2, J3.
    match goal with Hw : wake_sub _ _ |- _ => destruct (wake_sub_spec _ _ Hw I10) as (W1 & W2 & W3 & W4) end.
    exists q. split; cbn; try done; try lia.
    + rewrite I3, <-app_assoc. done.
    + destruct (running_insert ws i WReady (WRunning t)) as (l1 & l2 & E1 & ->); [done|].
      change (running [WReady]) with (@nil task_t) in E1. change (running [WRunning t]) with [t]. cbn [app] in *.
      rewrite <-Permutation_cons_append, I4, E1, !app_assoc. apply Permutation_middle.
    + intros Hw. cbn [length] in I5. lia.
    + intros Hw. rewrite Hcap. cbn [length] in I6. destruct (decide (sumf s_waiting ss = 0%nat)) as [Ez|Ez].
      * rewrite (W4 Ez) in Hw. lia.
      * destruct W3 as [W3 W5]; [lia|]. rewrite W5. lia.
    + by rewrite Hsd.
    + rewrite Hsd. intros Hs. destruct (I8 Hs) as [K1 K2]. rewrite (W4 K2). split; lia.
    + intros He. destruct I9; [lia|done].
  - (* done *)
    destruct (insert_w ws i (WRunning t) WReady) as (J1 & J2 & J3 & J4); [done|]. cbn in J1, J2, J3.
    exists q. split; cbn; try done; try lia.
    + destruct (running_insert ws i (WRunning t) WReady) as (l1 & l2 & E1 & ->); [done|].
      change (running [WReady]) with (@nil task_t). change (running [WRunning t]) with [t] in E1. cbn [app] in *.
      rewrite I4, E1, <-app_assoc. apply Permutation_app_head. cbn. by rewrite <-Permutation_middle.
    + intros Hs. destruct (I8 Hs). lia.
    + intros He. destruct I9; [lia|]. done.
    + intros Hd. specialize (I11 Hd). rewrite Forall_lookup in I11. by specialize (I11 i _ ltac:(eassumption)).
Qed.

Lemma inv_submitter n j s s' q :
  inv n s q -> step (Submitter j) s s' -> exists q', inv n s' q'.
Proof.
  intros [I1 I2 I3 I4 I5 I6 I7 I8 I9 I10 I11] Hstep. inversion Hstep; subst; cbn in *.
  - (* wait *)
    destruct (submit_section_spec p q t I1) as [[_ E]|[(Hsd & Hfull & E)|(_ & _ & ? & E & _)]]; try congruence.
    destruct (insert_s ss j s0 (mkSub SWaiting (todo s0) (rets s0))) as [J1 J2]; [done|].
    unfold s_waiting, s_active in J1, J2. cbn in J1, J2. fold s_waiting s_active in J1, J2.
    exists q. split; cbn; try done.
    + intros _. lia.
    + intros Hs. congruence.
    + apply Forall_insert; [done|]. intros _. cbn. congruence.
  - (* refused *)
    destruct (submit_section_spec p q t I1) as [[Hsd E]|[(Hsd & Hfull & E)|(_ & _ & ? & E & _)]]; try congruence.
    destruct (insert_s ss j s0 (mkSub SIdle ts (rets s0 ++ [-1]))) as [J1 J2]; [done|].
    destruct (I8 Hsd) as [K1 K2].
    assert (s_waiting s0 = 0%nat) as Hw0 by (unfold s_waiting; by destruct (pc s0)).
    change (s_waiting (mkSub SIdle ts (rets s0 ++ [-1]))) with 0%nat in J1.
    exists q. split; cbn; try done; try lia.
    apply Forall_insert; [done|]. intros H'. done.
  - (* accepted *)
    destruct (submit_section_spec p q t I1) as [[_ E]|[(Hsd & Hfull & E)|(Hsd & Hroom & p2 & E & R & Hsd2 & Hcap & _)]];
      try congruence. assert (p2 = p') as -> by congruence.
    destruct (insert_s ss j s0 (mkSub SIdle ts (rets s0 ++ [0]))) as [J1 J2]; [done|].
    assert (s_waiting s0 = 0%nat) as Hw0 by (unfold s_waiting; by destruct (pc s0)).
    assert (s_active s0 = 1%nat) as Ha0 by (unfold s_active; match goal with Ht : todo s0 = _ |- _ => rewrite Ht end; by destruct (pc s0)).
    change (s_waiting (mkSub SIdle ts (rets s0 ++ [0]))) with 0%nat in J1.
    match goal with Hw : wake_worker _ _ |- _ => destruct (wake_worker_spec _ _ Hw) as (W1 & W2 & W3 & W4 & W5) end.
    exists (q ++ [t]). split; cbn; try done; try lia.
    + by rewrite I3, app_assoc.
    + by rewrite W2.
    + intros Hw. rewrite length_app. cbn. destruct (decide (sumf w_waiting ws = 0%nat)) as [Ez|Ez].
      * rewrite (W5 Ez) in Hw. lia.
      * destruct W4 as [W4 W6]; [lia|]. specialize (I5 ltac:(lia)). lia.
    + intros Hw. rewrite Hcap, length_app. cbn. specialize (I6 ltac:(lia)). lia.
    + by rewrite Hsd2, <-I7.
    + congruence.
    + intros He. destruct I9; [lia|congruence].
    + apply Forall_insert; [done|]. intros H'. done.
Qed.

Lemma inv_destroyer n s s' q :
  inv n s q -> step Destroyer s s' -> exists q', inv n s' q'.
Proof.
  intros [I1 I2 I3 I4 I5 I6 I7 I8 I9 I10 I11] Hstep. inversion Hstep; subst; cbn in *.
  - match goal with Hd : destroy_section _ = _ |- _ => unfold destroy_section, modify in Hd; injection Hd as <- end.
    destruct (broadcast_worker_facts ws) as (B1 & B2 & B3 & B4). destruct (broadcast_sub_facts ss) as [C1 C2].
    exists q. split; cbn; try done; try lia.
    + by destruct I1.
    + by rewrite length_fmap.
    + by rewrite B4.
    + rewrite B3. intros H. destruct (I9 H). congruence.
    + by apply C2.
  - exists q. split; cbn; done.
Qed.

Lemma inv_spurious n s s' q :
  inv n s q -> step Spurious s s' -> exists q', inv n s' q'.
Proof.
  intros [I1 I2 I3 I4 I5 I6 I7 I8 I9 I10 I11] Hstep. inversion Hstep; subst; cbn in *.
  - destruct (insert_w ws i WWaiting WReady) as (J1 & J2 & J3 & J4); [done|]. cbn in J1, J2, J3.
    exists q. split; cbn; try done; try lia.
    + rewrite (running_same _ _ WWaiting) by done. done.
    + intros Hs. destruct (I8 Hs). lia.
    + intros He. destruct I9; [lia|done].
    + intros Hd. specialize (I11 Hd). rewrite Forall_lookup in I11. by specialize (I11 i _ ltac:(eassumption)).
  - set (s1 := mkSub SWoken (todo s0) (rets s0)).
    match goal with Hl : ss !! j = Some s0, Hp : pc s0 = SWaiting |- _ =>
      pose proof (Forall_lookup_1 _ _ _ _ I10 Hl) as Hs0; rename Hp into Hpc end.
    unfold sub_ok in Hs0. rewrite Hpc in Hs0.
    specialize (Hs0 ltac:(done)).
    destruct (insert_s ss j s0 s1) as [J1 J2]; [done|].
    assert (s_waiting s0 = 1%nat /\ s_active s0 = 0%nat) as [E1 E2] by (unfold s_waiting, s_active; by rewrite Hpc).
    assert (s_active s1 = 1%nat) as E3 by (unfold s_active, s1; cbn; by destruct (todo s0)).
    change (s_waiting s1) with 0%nat in J1.
    exists q. split; cbn; try done; try lia.
    + intros Hs. destruct (I8 Hs). lia.
    + apply Forall_insert; [done|]. by intros _.
Qed.

Lemma inv_step n a s s' q : inv n s q -> step a s s' -> exists q', inv n s' q'.
Proof.
  destruct a; [apply inv_worker|apply inv_submitter|apply inv_destroyer|apply inv_spurious].
Qed.

Lemma inv_reachable n cap jobs s :
  0 < n -> 0 < cap <= INT_MAX -> reachable (start (new_pool n cap) jobs) s -> exists q, inv (Z.to_nat n) s q.
Proof.
  intros Hn Hc. induction 1 as [|a s s' _ [q Hq] Hstep].
  - exists []. by apply inv_start.
  - by eapply inv_step.
Qed.

(** ** Termination: a measure that every step other than a spurious wakeup lowers *)
Definition w_measure (w : wstate) : nat :=
  match w with WReady => 1 | WWaiting => 0 | WRunning _ => 2 | WExited => 0 end.
Definition s_measure (s : sstate) : nat :=
  match pc s with SWaiting => 0 | _ => 1 end + 6 * length (todo s).
Definition d_measure (s : sys) : nat :=
  match destroyer s with DNot => length (workers s) + length (subs s) + 2 | DJoining => 1 | DDone => 0 end.

Definition measure (s : sys) : nat :=
  sumf w_measure (workers s) + sumf s_measure (subs s) + 4 * Z.to_nat (queue_size (pool s)) + d_measure s.

Lemma wake_worker_measure ws ws' : wake_worker ws ws' ->
  (sumf w_measure ws' <= S (sumf w_measure ws))%nat /\ length ws' = length ws.
Proof.
  intros [(i & Hi & ->)|[_ ->]]; [|by split; [lia|]].
  pose proof (sumf_insert w_measure ws i _ WReady Hi) as H. cbn in H. rewrite length_insert. split; [lia|done].
Qed.

Lemma wake_sub_measure ss ss' : wake_sub ss ss' ->
  (sumf s_measure ss' <= S (sumf s_measure ss))%nat /\ length ss' = length ss.
Proof.
  intros [(i & s & Hi & Hpc & ->)|[_ ->]]; [|by split; [lia|]].
  pose proof (sumf_insert s_measure ss i _ (mkSub SWoken (todo s) (rets s)) Hi) as H.
  unfold s_measure in H at 2 4. cbn in H. rewrite Hpc in H. rewrite length_insert. split; [lia|done].
Qed.

Lemma broadcast_measure ws ss :
  (sumf w_measure (broadcast_worker <$> ws) <= length ws + sumf w_measure ws)%nat /\
  (sumf s_measure (broadcast_sub <$> ss) <= length ss + sumf s_measure ss)%nat.
Proof.
  split.
  - induction ws as [|w ws IH]; [done|]. rewrite fmap_cons, !sumf_cons. cbn [length]. destruct w; cbn; lia.
  - induction ss as [|s ss IH]; [done|]. rewrite fmap_cons, !sumf_cons. cbn [length].
    assert (s_measure (broadcast_sub s) <= S (s_measure s))%nat; [|lia].
    unfold s_measure, broadcast_sub. destruct (pc s) eqn:E; cbn; rewrite ?E; lia.
Qed.

Lemma measure_step n a s s' q : inv n s q -> a <> Spurious -> step a s s' -> (measure s' < measure s)%nat.
Proof.
  intros [I1 I2 _ _ _ _ _ _ _ _ _] Hsp Hstep. pose proof (ri_size _ _ I1) as Hsz.
  unfold measure, d_measure.
  inversion Hstep; subst; try done; cbn [pool workers subs destroyer] in *.
  - pose proof (sumf_insert w_measure ws i _ WWaiting H) as J. cbn in J. rewrite length_insert. lia.
  - pose proof (sumf_insert w_measure ws i _ WExited H) as J. cbn in J. rewrite length_insert. lia.
  - destruct q as [|t' q].
    { rewrite (worker_section_empty _ I1) in *. by destruct (shutdown p). }
    destruct (worker_section_take _ _ _ I1) as (p2 & E & R & _). assert (p2 = p') as -> by congruence.
    pose proof (ri_size _ _ R) as Hsz'. cbn [length] in Hsz.
    pose proof (sumf_insert w_measure ws i _ (WRunning t) H) as J. cbn in J. rewrite length_insert.
    destruct (wake_sub_measure _ _ H1) as [W1 W2]. rewrite W2. lia.
  - pose proof (sumf_insert w_measure ws i _ WReady H) as J. cbn in J. rewrite length_insert. lia.
  - pose proof (sumf_insert s_measure ss j _ (mkSub SWaiting (todo s0) (rets s0)) H) as J.
    unfold s_measure in J at 2 4. cbn in J. rewrite length_insert. destruct (pc s0); try done; lia.
  - pose proof (sumf_insert s_measure ss j _ (mkSub SIdle ts (rets s0 ++ [-1])) H) as J.
    unfold s_measure in J at 2 4. rewrite H1 in J. cbn in J. rewrite length_insert. destruct (pc s0); try done; lia.
  - pose proof (sumf_insert s_measure ss j _ (mkSub SIdle ts (rets s0 ++ [0])) H) as J.
    unfold s_measure in J at 2 4. rewrite H1 in J. cbn in J. rewrite length_insert.
    destruct (submit_section_spec p q t I1) as [[_ E]|[(_ & _ & E)|(_ & _ & p2 & E & R & _)]]; try congruence.
    assert (p2 = p') as -> by congruence. pose proof (ri_size _ _ R) as Hsz'. rewrite length_app in Hsz'. cbn in Hsz'.
    destruct (wake_worker_measure _ _ H3) as [W1 W2]. rewrite W2. destruct (pc s0); try done; lia.
  - unfold destroy_section, modify in H. injection H as <-. cbn [queue_size set_shutdown].
    destruct (broadcast_measure ws ss). lia.
  - lia.
Qed.

(** ** Progress *)
Lemma wake_sub_total ss : exists ss', wake_sub ss ss'.
Proof.
  destruct (decide (sumf s_waiting ss = 0%nat)) as [E|E].
  - exists ss. right. split; [|done]. intros i s Hi Hpc. pose proof (sumf_zero _ _ E i s Hi) as H.
    unfold s_waiting in H. by rewrite Hpc in H.
  - destruct (sumf_pos s_waiting ss) as (i & s & Hi & Hs); [lia|]. eexists. left. exists i, s.
    split_and!; [done| |reflexivity]. unfold s_waiting in Hs. destruct (pc s) eqn:Hpc; try lia. done.
Qed.

Lemma wake_worker_total ws : exists ws', wake_worker ws ws'.
Proof.
  destruct (decide (sumf w_waiting ws = 0%nat)) as [E|E].
  - exists ws. right. split; [|done]. intros i Hi. by pose proof (sumf_zero _ _ E i _ Hi).
  - destruct (sumf_pos w_waiting ws) as (i & w & Hi & Hw); [lia|]. destruct w; cbn in Hw; try lia.
    eexists. left. by exists i.
Qed.

#[export] Instance wstate_eq_dec : EqDecision wstate.
Proof. assert (EqDecision task_t) by solve_decision. solve_decision. Defined.

(** A worker that is ready or running a task can go on. *)
Lemma worker_can_step n s q i w :
  inv n s q -> destroyer s <> DDone -> workers s !! i = Some w -> w <> WWaiting -> w <> WExited ->
  exists s', step (Worker i) s s'.
Proof.
  intros [I1 _ _ _ _ _ _ _ _ _ _] Hd Hi Hw He. destruct s as [p ws ss d a b f]. cbn in *.
  destruct w; try done; [|eexists; by apply step_worker_done].
  destruct q as [|t q].
  - pose proof (worker_section_empty _ I1) as E. destruct (shutdown p) eqn:Hsd.
    + eexists. by apply step_worker_exit.
    + eexists. by apply step_worker_wait.
  - destruct (worker_section_take _ _ _ I1) as (p' & E & _). destruct (wake_sub_total ss) as [ss' Hss].
    eexists. by eapply step_worker_take.
Qed.

Lemma submitter_can_step n s q j u :
  inv n s q -> destroyer s <> DDone -> subs s !! j = Some u -> pc u <> SWaiting -> todo u <> [] ->
  exists s', step (Submitter j) s s'.
Proof.
  intros [I1 _ _ _ _ _ _ _ _ _ _] Hd Hj Hu Ht. destruct s as [p ws ss d a b f]. cbn in *.
  destruct (todo u) as [|t ts] eqn:Htd; [done|].
  destruct (submit_section_spec p q t I1) as [[_ E]|[(_ & _ & E)|(_ & _ & p' & E & _)]].
  - eexists. by eapply step_submit_refused.
  - eexists. eapply step_submit_wait; eauto.
  - destruct (wake_worker_total ws) as [ws' Hws]. eexists. by eapply step_submit_accept.
Qed.

(** A worker that can go on, found by counting. *)
Lemma exists_live_worker n s q :
  inv n s q -> (0 < n)%nat -> destroyer s = DNot -> q <> [] ->
  exists i w, workers s !! i = Some w /\ w <> WWaiting /\ w <> WExited.
Proof.
  intros [I1 I2 _ _ I5 _ I7 _ I9 _ _] Hn Hd Hq. rewrite Hd in I7.
  destruct (decide (sumf w_waiting (workers s) = 0%nat)) as [E|E].
  - destruct (workers s) as [|w ws] eqn:Ew; [cbn in I2; lia|]. exists 0%nat, w. split; [done|].
    split; intros ->.
    + rewrite sumf_cons in E. cbn in E. lia.
    + rewrite sumf_cons in I9. destruct I9; [cbn; lia|congruence].
  - assert (0 < sumf w_ready (workers s))%nat as Hr.
    { specialize (I5 ltac:(lia)). destruct q; [done|]. cbn in I5. lia. }
    destruct (sumf_pos w_ready _ Hr) as (i & w & Hi & Hw). exists i, w. split; [done|]. by destruct w; cbn in Hw; try lia.
Qed.

Lemma progress_live n s q :
  inv n s q -> (0 < n)%nat -> destroyer s = DNot ->
  (exists u, u ∈ subs s /\ todo u <> []) -> exists a s', a <> Spurious /\ a <> Destroyer /\ step a s s'.
Proof.
  intros Hinv Hn Hd (u & Hu & Ht). pose proof Hinv as [I1 I2 _ _ I5 I6 I7 I8 I9 I10 _].
  destruct (decide (sumf s_active (subs s) = 0%nat)) as [E|E].
  - apply list_elem_of_lookup in Hu as [j Hj].
    pose proof (sumf_zero _ _ E j u Hj) as Hu0. unfold s_active in Hu0.
    assert (pc u = SWaiting) as Hpc by (destruct (pc u), (todo u); done).
    assert (0 < sumf s_waiting (subs s))%nat as Hw.
    { destruct (decide (sumf s_waiting (subs s) = 0%nat)) as [Ez|]; [|lia].
      pose proof (sumf_zero _ _ Ez j u Hj) as Hz. unfold s_waiting in Hz. by rewrite Hpc in Hz. }
    specialize (I6 Hw). rewrite E in I6. pose proof (ri_cap _ _ I1).
    assert (q <> []) as Hq by (intros ->; cbn in I6; lia).
    destruct (exists_live_worker n s q Hinv Hn Hd Hq) as (i & w & Hi & Hw1 & Hw2).
    destruct (worker_can_step n s q i w Hinv ltac:(congruence) Hi Hw1 Hw2) as [s' Hs]. by exists (Worker i), s'.
  - destruct (sumf_pos s_active (subs s)) as (j & u' & Hj & Hu'); [lia|]. unfold s_active in Hu'.
    destruct (submitter_can_step n s q j u' Hinv ltac:(congruence) Hj) as [s' Hs].
    + intros Hpc. rewrite Hpc in Hu'. lia.
    + intros Htd. rewrite Htd in Hu'. destruct (pc u'); lia.
    + by exists (Submitter j), s'.
Qed.

(** While the destroyer joins, a worker can go on or all have exited. *)
Lemma progress_joining n s q :
  inv n s q -> destroyer s = DJoining -> exists a s', a <> Spurious /\ step a s s'.
Proof.
  intros Hinv Hd. pose proof Hinv as [I1 I2 _ _ I5 I6 I7 I8 I9 I10 _]. rewrite Hd in I7.
  destruct (I8 I7) as [Hw _].
  destruct (decide (Forall (eq WExited) (workers s))) as [He|He].
  - destruct s as [p ws ss d a b f]. cbn in *. subst d. eexists Destroyer, _. split; [done|]. by apply step_join.
  - apply not_Forall_Exists in He; [|apply _]. apply Exists_exists in He as (w & Hin & Hw1).
    apply list_elem_of_lookup in Hin as [i Hi].
    destruct (worker_can_step n s q i w Hinv ltac:(congruence) Hi) as [s' Hs].
    + intros ->. by pose proof (sumf_zero _ _ Hw i _ Hi).
    + intros ->. by apply Hw1.
    + by exists (Worker i), s'.
Qed.

(** ** threadpool_create *)
Lemma acquire_spec ok r live : acquire ok r live = Ok (ok r, if ok r then r :: live else live).
Proof. unfold acquire. by destruct (ok r). Qed.

Lemma release_head r live : release r (r :: live) = Ok (tt, live).
Proof. unfold release. cbn. by rewrite decide_True. Qed.

Lemma release_ne r r' live l' : r <> r' -> release r live = Ok (tt, l') -> release r (r' :: live) = Ok (tt, r' :: l').
Proof.
  intros Hne. unfold release. cbn [list_find]. rewrite decide_False by done.
  destruct (list_find (eq r) live) as [[i x]|]; cbn; [|done]. intros [= <-]. done.
Qed.

Definition base : list resource := [RNotFull; RNotEmpty; RLock; RThreads; RQueue; RPool].

Lemma release_all_workers k live :
  release_all (RWorker <$> seq 0 k) ((RWorker <$> rev (seq 0 k)) ++ live) = Ok (tt, live).
Proof.
  assert (forall ws l, NoDup ws -> release_all (RWorker <$> ws) ((RWorker <$> rev ws) ++ l) = Ok (tt, l)) as H;
    [|apply H, NoDup_ListNoDup, seq_NoDup].
  intros ws. induction ws as [|w ws IH]; intros l Hnd; [done|]. apply NoDup_cons in Hnd as [Hw Hnd].
  cbn [rev fmap list_fmap release_all]. rewrite fmap_app, <-app_assoc.
  assert (release (RWorker w) ((RWorker <$> rev ws) ++ (RWorker <$> [w]) ++ l) = Ok (tt, (RWorker <$> rev ws) ++ l)) as Hr.
  { assert (w ∉ rev ws) as Hw' by (by rewrite list_elem_of_In, <-in_rev, <-list_elem_of_In).
    generalize dependent (rev ws). intros l' _ Hw'. induction l' as [|x l' IHl]; [apply release_head|].
    cbn. apply release_ne; [set_solver|]. apply IHl. set_solver. }
  unfold mbind, M_bind. rewrite Hr. by apply IH.
Qed.

Lemma spawn_spec ok k i :
  exists b live, spawn ok k i ((RWorker <$> rev (seq 0 i)) ++ base) = Ok (b, live) /\
    live = if (b : bool) then (RWorker <$> rev (seq 0 (i + k))) ++ base else [].
Proof.
  revert i. induction k as [|k IH]; intros i.
  - eexists _, _. split; [reflexivity|]. by rewrite Nat.add_0_r.
  - cbn [spawn]. unfold mbind, M_bind. rewrite acquire_spec. destruct (ok (RWorker i)); cbn [negb].
    + specialize (IH (S i)). rewrite seq_S, rev_app_distr in IH. cbn in IH.
      destruct IH as (b & live & -> & ->). exists b. eexists. split; [reflexivity|].
      rewrite Nat.add_succ_r. by destruct b.
    + rewrite release_all_workers. exists false, []. split; [|done]. reflexivity.
Qed.

Lemma create_spec ok n cap :
  exists r live, threadpool_create ok n cap [] = Ok (r, live) /\
    match r with
    | None => live = []
    | Some p => p = new_pool n cap /\ 0 < n /\ 0 < cap /\ live = (RWorker <$> rev (seq 0 (Z.to_nat n))) ++ base
    end.
Proof.
  unfold threadpool_create. destruct ((n <=? 0) || (cap <=? 0)) eqn:Hn; [by exists None, []|].
  apply orb_false_iff in Hn as [Hn%Z.leb_gt Hc%Z.leb_gt]. unfold mbind, M_bind.
  do 6 (rewrite acquire_spec; match goal with |- context [ok ?r] => destruct (ok r) end; cbn [negb];
        [|by exists None, []]).
  destruct (spawn_spec ok (Z.to_nat n) 0) as (b & live & Hs & ->). cbn [rev seq fmap list_fmap app] in Hs.
  unfold base at 1 in Hs. rewrite Hs. destruct b; cbn [negb]; [|by exists None, []].
  exists (Some (new_pool n cap)). eexists. split; [reflexivity|]. by split_and!.
Qed.

(** ** Properties *)

(** C29: for any pool that threadpool_create returns and any submitting threads,
    in every reachable state, spurious wakeups included, the circular buffer
    holds the accepted tasks that no worker has taken yet, at most
    [queue_capacity] of them: tasks are taken in the order in which they were
    accepted, each exactly once, and each taken task has run or is running. *)
Theorem pool_fifo n cap jobs s :
  0 < n -> 0 < cap <= INT_MAX -> reachable (start (new_pool n cap) jobs) s ->
  exists q, ring (pool s) q /\ accepted s = started s ++ q /\ started s ≡ₚ finished s ++ running (workers s).
Proof.
  intros Hn Hc Hr. destruct (inv_reachable n cap jobs s Hn Hc Hr) as [q Hq].
  exists q. split_and!; apply Hq.
Qed.

Lemma pool_fifo_witness :
  exists q, ring (pool (start (new_pool 2 3) [[mkTask 1 1]; [mkTask 2 2]])) q /\
    accepted (start (new_pool 2 3) [[mkTask 1 1]; [mkTask 2 2]])
    = started (start (new_pool 2 3) [[mkTask 1 1]; [mkTask 2 2]]) ++ q /\
    started (start (new_pool 2 3) [[mkTask 1 1]; [mkTask 2 2]])
    ≡ₚ finished (start (new_pool 2 3) [[mkTask 1 1]; [mkTask 2 2]])
       ++ running (workers (start (new_pool 2 3) [[mkTask 1 1]; [mkTask 2 2]])).
Proof. apply (pool_fifo 2 3 [[mkTask 1 1]; [mkTask 2 2]]); [lia|unfold_bounds; lia|constructor]. Defined.

(** C30: no lost wakeup and no deadlock.  In every reachable state before
    threadpool_destroy: if some thread still has a task to submit, blocked or
    not, a worker or a submitter can make a step; and if the queue is not empty,
    some worker is neither waiting nor finished, and can make a step. *)
Theorem pool_no_deadlock n cap jobs s :
  0 < n -> 0 < cap <= INT_MAX -> reachable (start (new_pool n cap) jobs) s -> destroyer s = DNot ->
  ((exists u, u ∈ subs s /\ todo u <> []) -> exists a s', a <> Spurious /\ a <> Destroyer /\ step a s s') /\
  (queue_size (pool s) <> 0 -> exists i s', step (Worker i) s s').
Proof.
  intros Hn Hc Hr Hd. destruct (inv_reachable n cap jobs s Hn Hc Hr) as [q Hq]. split.
  - apply (progress_live (Z.to_nat n) s q Hq); [lia|done].
  - intros Hz. assert (q <> []) as Hne by (intros ->; apply Hz; by rewrite (ri_size _ _ (iv_ring _ _ _ Hq))).
    destruct (exists_live_worker _ s q Hq ltac:(lia) Hd Hne) as (i & w & Hi & H1 & H2).
    exists i. by apply (worker_can_step (Z.to_nat n) s q i w Hq ltac:(congruence)).
Qed.

Lemma pool_no_deadlock_witness :
  let s := start (new_pool 1 1) [[mkTask 1 1; mkTask 1 2]] in
  ((exists u, u ∈ subs s /\ todo u <> []) -> exists a s', a <> Spurious /\ a <> Destroyer /\ step a s s') /\
  (queue_size (pool s) <> 0 -> exists i s', step (Worker i) s s').
Proof.
  apply (pool_no_deadlock 1 1 [[mkTask 1 1; mkTask 1 2]]); [lia|unfold_bounds; lia|constructor|done].
Defined.

(** C31: termination and drain.  Every step other than a spurious wakeup lowers
    [measure], so a run without spurious wakeups is finite; and when no such
    step is left, threadpool_destroy has returned, all workers have exited and
    every accepted task has been started, in order, and has finished. *)
Theorem pool_terminates n cap jobs s :
  0 < n -> 0 < cap <= INT_MAX -> reachable (start (new_pool n cap) jobs) s ->
  (forall a s', a <> Spurious -> step a s s' -> (measure s' < measure s)%nat) /\
  ((forall a s', a <> Spurious -> ~ step a s s') ->
    destroyer s = DDone /\ Forall (eq WExited) (workers s) /\
    started s = accepted s /\ finished s ≡ₚ accepted s).
Proof.
  intros Hn Hc Hr. destruct (inv_reachable n cap jobs s Hn Hc Hr) as [q Hq]. split.
  { intros a s' Ha Hs. by eapply measure_step. }
  intros Hstuck. destruct (destroyer s) eqn:Hd.
  - destruct s as [p ws ss d a b f]. cbn in Hd. subst d.
    destruct (Hstuck Destroyer (mkSys (set_shutdown p) (broadcast_worker <$> ws) (broadcast_sub <$> ss) DJoining a b f));
      [done|by apply step_destroy].
  - destruct (progress_joining _ s q Hq Hd) as (a & s' & Ha & Hs). by destruct (Hstuck a s' Ha).
  - destruct Hq as [I1 I2 I3 I4 _ _ _ _ I9 _ I11]. specialize (I11 Hd).
    rewrite (exited_running _ I11), app_nil_r in I4.
    destruct (workers s) as [|w ws] eqn:Ew; [cbn in I2; lia|].
    apply Forall_cons in I11 as He. destruct He as [<- _].
    destruct I9 as [_ ->]; [rewrite sumf_cons; cbn; lia|]. rewrite app_nil_r in I3.
    split_and!; [done|done|done|]. by rewrite I3, I4.
Qed.

Lemma pool_terminates_witness :
  let s := start (new_pool 2 1) [[mkTask 1 1]; []] in
  (forall a s', a <> Spurious -> step a s s' -> (measure s' < measure s)%nat) /\
  ((forall a s', a <> Spurious -> ~ step a s s') ->
    destroyer s = DDone /\ Forall (eq WExited) (workers s) /\
    started s = accepted s /\ finished s ≡ₚ accepted s).
Proof. apply (pool_terminates 2 1 [[mkTask 1 1]; []]); [lia|unfold_bounds; lia|constructor]. Defined.

(** Threadpool_create never leaks: whichever of its allocations,
    initialisations or thread creations fails, it returns NULL with everything
    it had acquired released (and the workers it had created joined); when it
    succeeds, the clean-up of threadpool_destroy releases everything, each
    resource once. *)
Theorem create_no_leak ok n cap :
  exists r live, threadpool_create ok n cap [] = Ok (r, live) /\
    match r with
    | None => live = []
    | Some p => p = new_pool n cap /\ 0 < n /\ 0 < cap /\ destroy_cleanup p live = Ok (tt, [])
    end.
Proof.
  destruct (create_spec ok n cap) as (r & live & Hc & Hr). exists r, live. split; [done|].
  destruct r as [p|]; [|done]. destruct Hr as (-> & Hn & Hcap & ->). split_and!; [done..|].
  unfold destroy_cleanup, mbind, M_bind. cbn [num_threads new_pool]. by rewrite release_all_workers.
Qed.

(** Threadpool_destroy does not wait for submitters: there is a run in
    which a thread blocked in threadpool_submit on a full queue is woken by the
    broadcast and still has to lock the pool's mutex again when the pool has
    been freed. *)
Theorem destroy_under_submitter :
  exists s u, reachable (start (new_pool 1 1) [[mkTask 1 1; mkTask 1 2]]) s /\
    destroyer s = DDone /\ u ∈ subs s /\ pc u = SWoken.
Proof.
  do 2 eexists. split; [|split; [|split]].
  - eapply reach_step.
    { eapply reach_step.
      { eapply reach_step.
        { eapply reach_step.
          { eapply reach_step.
            { eapply reach_step.
              { eapply reach_step; [apply reach_start|].
                eapply (step_submit_accept 0); [reflexivity|done|reflexivity|lazy; reflexivity| |done].
                right. split; [|reflexivity]. intros [|[|i]]; done. }
              eapply (step_submit_wait 0); [reflexivity|done|reflexivity|lazy; reflexivity|done]. }
            eapply step_destroy. reflexivity. }
          eapply (step_worker_take 0); [reflexivity|lazy; reflexivity| |done].
          right. split; [|reflexivity]. intros [|[|i]] u Hi; cbn in Hi; by simplify_eq. }
        eapply (step_worker_done 0). reflexivity. }
      eapply (step_worker_exit 0); [reflexivity|lazy; reflexivity|done]. }
    apply step_join. by repeat constructor.
  - reflexivity.
  - cbn. apply list_elem_of_here.
  - reflexivity.
Qed.
