(* ===== verification/Kalloc.v ===== *)
(** * Kernel memory and the page allocator, xv6 wmap/solution/{mmu.h,memlayout.h,kalloc.c}

    The memory is a map from page addresses to the 1024 words of the page; a
    page that is not in the map holds zeros.  The free list is threaded through
    the free pages themselves, as in [struct run]. *)
From S2P Require Import Prelude.

(** ** Memory layout and address macros *)
Definition PGSIZE : Z := 4096.
Definition EXTMEM : Z := 0x100000.
Definition PHYSTOP : Z := 0xE000000.
Definition DEVSPACE : Z := 0xFE000000.
Definition KERNBASE : Z := 0x80000000.
Definition KERNLINK : Z := KERNBASE + EXTMEM.
Definition MMAPBASE : Z := 0x60000000.
Definition NPDENTRIES : Z := 1024.

Definition V2P (a : Z) : Z := u32 (a - KERNBASE).
Definition P2V (a : Z) : Z := u32 (a + KERNBASE).

Definition PDXSHIFT : Z := 22.
Definition PTXSHIFT : Z := 12.
Definition PDX (va : Z) : Z := Z.land (Z.shiftr va PDXSHIFT) 0x3FF.
Definition PTX (va : Z) : Z := Z.land (Z.shiftr va PTXSHIFT) 0x3FF.
Definition PGADDR (d t o : Z) : Z := u32 (Z.lor (Z.lor (Z.shiftl d PDXSHIFT) (Z.shiftl t PTXSHIFT)) o).
Definition PGROUNDUP (sz : Z) : Z := Z.land (u32 (sz + PGSIZE - 1)) (Z.lnot (PGSIZE - 1)).
Definition PGROUNDDOWN (a : Z) : Z := Z.land a (Z.lnot (PGSIZE - 1)).

Definition PTE_P : Z := 1.
Definition PTE_W : Z := 2.
Definition PTE_U : Z := 4.
Definition PTE_ADDR (pte : Z) : Z := Z.land pte (Z.lnot 0xFFF).
Definition PTE_FLAGS (pte : Z) : Z := Z.land pte 0xFFF.

(** The symbols of the linker script kernel.ld that the code refers to. *)
Class Linker : Type := {
  data : Z;
  end_ : Z;
  data_aligned : data mod PGSIZE = 0;
  data_above : KERNLINK < data;
  end_above : data <= end_;
  end_below : end_ < KERNBASE + PHYSTOP
}.

(** ** Kernel memory *)
Record kmem : Type := mkKmem {
  mem : gmap Z (list Z);
  use_lock : bool;
  freelist : Z
}.

Definition zero_page : list Z := replicate 1024 0.
Definition page (k : kmem) (v : Z) : list Z := default zero_page (mem k !! v).
Definition entry (k : kmem) (v j : Z) : Z := default 0 (page k v !! Z.to_nat j).
Definition setp (v : Z) (ws : list Z) (k : kmem) : kmem := mkKmem (<[v := ws]> (mem k)) (use_lock k) (freelist k).
Definition set_entry (v j w : Z) (k : kmem) : kmem := setp v (<[Z.to_nat j := w]> (page k v)) k.
Definition set_freelist (h : Z) (k : kmem) : kmem := mkKmem (mem k) (use_lock k) h.

(** Kernel addresses that the kernel's mapping covers (see kmap in vm.c). *)
Definition mapped_kva (a : Z) : bool := (KERNBASE <=? a) && (a <? KERNBASE + PHYSTOP).

Definition load (a : Z) : M kmem Z :=
  k ← get;
  if mapped_kva a then mret (entry k (PGROUNDDOWN a) (a mod PGSIZE / 4)) else fail Undefined.
Definition store (a w : Z) : M kmem unit :=
  if mapped_kva a then modify (set_entry (PGROUNDDOWN a) (a mod PGSIZE / 4) w) else fail Undefined.

(** memset of a page: the stosl case of string.c. *)
Definition byte4 (c : Z) : Z :=
  Z.lor (Z.lor (Z.lor (Z.shiftl c 24) (Z.shiftl c 16)) (Z.shiftl c 8)) c.
Definition memset_page (v c : Z) : M kmem unit :=
  if mapped_kva v then modify (setp v (replicate 1024 (byte4 (Z.land c 0xFF)))) else fail Undefined.
(** memmove of a whole page to a page. *)
Definition memmove_page (dst src : Z) : M kmem unit :=
  k ← get;
  if mapped_kva dst && mapped_kva src then modify (setp dst (page k src)) else fail Undefined.

(** The bytes of a page. *)
Definition word_bytes (w : Z) : list Z :=
  [w mod 256; w / 256 mod 256; w / 65536 mod 256; w / 16777216 mod 256].
Definition page_bytes (ws : list Z) : list Z := ws ≫= word_bytes.
Fixpoint bytes_words (bs : list Z) : list Z :=
  match bs with
  | b0 :: b1 :: b2 :: b3 :: bs' => (b0 + 256 * b1 + 65536 * b2 + 16777216 * b3) :: bytes_words bs'
  | _ => []
  end.

(** memmove of [bs] into the page at [v], [off] bytes in. *)
Definition write_bytes (v off : Z) (bs : list Z) : M kmem unit :=
  k ← get;
  if mapped_kva v && (0 <=? off) && (off + Z.of_nat (length bs) <=? PGSIZE) then
    let old := page_bytes (page k v) in
    modify (setp v (bytes_words (take (Z.to_nat off) old ++ bs ++ drop (Z.to_nat off + length bs) old)))
  else fail Undefined.

Section kalloc.
Context `{Linker}.

(** ** kalloc.c *)
Definition kfree (v : Z) : M kmem unit :=
  if negb (v mod PGSIZE =? 0) || (v <? end_) || (PHYSTOP <=? V2P v) then fail Panic else
  _ ← memset_page v 1;
  k ← get;
  _ ← store v (freelist k);
  modify (set_freelist v).

Definition kalloc : M kmem Z :=
  k ← get;
  let r := freelist k in
  if r =? 0 then mret 0 else
  next ← load r;
  _ ← modify (set_freelist next);
  mret r.

Fixpoint freerange_loop (fuel : nat) (p vend : Z) : M kmem unit :=
  if negb (u32 (p + PGSIZE) <=? vend) then mret tt else
  match fuel with
  | O => fail OutOfFuel
  | S fuel' => _ ← kfree p; freerange_loop fuel' (u32 (p + PGSIZE)) vend
  end.

Definition freerange (vstart vend : Z) : M kmem unit :=
  freerange_loop (Z.to_nat (vend / PGSIZE)) (PGROUNDUP vstart) vend.

Definition kinit1 (vstart vend : Z) : M kmem unit :=
  _ ← modify (fun k => mkKmem (mem k) false (freelist k));
  freerange vstart vend.

Definition kinit2 (vstart vend : Z) : M kmem unit :=
  _ ← freerange vstart vend;
  modify (fun k => mkKmem (mem k) true (freelist k)).

(** ** The free list as a list of pages *)

(** Pages that kfree accepts. *)
Definition valid (v : Z) : Prop := v mod PGSIZE = 0 /\ end_ <= v < KERNBASE + PHYSTOP.

Fixpoint chain (k : kmem) (h : Z) (fl : list Z) : Prop :=
  match fl with
  | [] => h = 0
  | v :: fl' => h = v /\ chain k (entry k v 0) fl'
  end.

Definition wf (k : kmem) : Prop := map_Forall (fun _ p => length p = 1024%nat) (mem k).

Record free_ok (k : kmem) (fl : list Z) : Prop := {
  fo_wf : wf k;
  fo_chain : chain k (freelist k) fl;
  fo_nodup : NoDup fl;
  fo_valid : Forall valid fl
}.
End kalloc.

(** ** Address arithmetic *)
Ltac unfold_layout := unfold PGSIZE, EXTMEM, PHYSTOP, DEVSPACE, KERNBASE, MMAPBASE, NPDENTRIES in *.
Ltac unfold_shifts := unfold PDXSHIFT, PTXSHIFT in *.

Lemma PGROUNDDOWN_mod a : PGROUNDDOWN a = a - a mod PGSIZE.
Proof. unfold PGROUNDDOWN. change (PGSIZE - 1) with (Z.ones 12). by rewrite land_lnot_ones. Qed.

Lemma PTE_ADDR_mod a : PTE_ADDR a = a - a mod PGSIZE.
Proof. apply PGROUNDDOWN_mod. Qed.

Lemma PTE_FLAGS_mod a : PTE_FLAGS a = a mod PGSIZE.
Proof. unfold PTE_FLAGS. change 0xFFF with (Z.ones 12). by rewrite land_ones_mod. Qed.

Lemma PGROUNDUP_mod a : 0 <= a < UINT_MOD - PGSIZE -> PGROUNDUP a = (a + PGSIZE - 1) / PGSIZE * PGSIZE.
Proof.
  intros Ha. unfold PGROUNDUP. rewrite u32_id by (unfold_bounds; unfold_layout; lia).
  fold (PGROUNDDOWN (a + PGSIZE - 1)). rewrite PGROUNDDOWN_mod. unfold_layout. zlia.
Qed.

Lemma PDX_div va : 0 <= va < UINT_MOD -> PDX va = va / 4194304.
Proof.
  intros Hv. unfold PDX. change 0x3FF with (Z.ones 10). rewrite land_ones_mod, Z.shiftr_div_pow2 by done.
  change (2 ^ PDXSHIFT) with 4194304. unfold_bounds. zlia.
Qed.

Lemma PTX_div va : 0 <= va < UINT_MOD -> PTX va = va / 4096 mod 1024.
Proof.
  intros Hv. unfold PTX. change 0x3FF with (Z.ones 10). by rewrite land_ones_mod, Z.shiftr_div_pow2 by done.
Qed.

Lemma PGADDR_add d t o : 0 <= d < 1024 -> 0 <= t < 1024 -> 0 <= o < 4096 ->
  PGADDR d t o = d * 4194304 + t * 4096 + o.
Proof.
  intros Hd Ht Ho. unfold PGADDR. unfold_shifts. rewrite !Z.shiftl_mul_pow2 by done.
  rewrite (lor_add_low _ (t * 2 ^ 12) 22) by (try lia; zlia).
  rewrite (lor_add_low _ o 12) by (try lia; zlia).
  rewrite u32_id; unfold_bounds; lia.
Qed.

Lemma V2P_id v : KERNBASE <= v < UINT_MOD -> V2P v = v - KERNBASE.
Proof. intros Hv. unfold V2P. apply u32_id. unfold_layout. unfold_bounds. lia. Qed.

Lemma P2V_id a : 0 <= a < KERNBASE -> P2V a = a + KERNBASE.
Proof. intros Ha. unfold P2V. apply u32_id. unfold_layout. unfold_bounds. lia. Qed.

Lemma mapped_kva_true a : KERNBASE <= a < KERNBASE + PHYSTOP -> mapped_kva a = true.
Proof. intros Ha. unfold mapped_kva. by rewrite (proj2 (Z.leb_le _ _)), (proj2 (Z.ltb_lt _ _)) by lia. Qed.

(** ** Memory accesses *)
Lemma page_setp v ws k v' : page (setp v ws k) v' = if decide (v' = v) then ws else page k v'.
Proof.
  unfold page, setp. cbn. destruct (decide (v' = v)) as [->|Hne].
  - by rewrite lookup_insert_eq.
  - by rewrite lookup_insert_ne.
Qed.

Lemma page_length k v : wf k -> length (page k v) = 1024%nat.
Proof.
  intros Hw. unfold page. destruct (mem k !! v) as [p|] eqn:E; [exact (Hw _ _ E)|].
  apply (length_replicate 1024 0).
Qed.

Lemma wf_setp v ws k : wf k -> length ws = 1024%nat -> wf (setp v ws k).
Proof. intros Hw Hl. unfold wf, setp. cbn. by apply map_Forall_insert_2. Qed.

Lemma wf_set_entry v j w k : wf k -> wf (set_entry v j w k).
Proof. intros Hw. apply wf_setp; [done|]. by rewrite length_insert, page_length. Qed.

Lemma entry_ext k k' v j : page k' v = page k v -> entry k' v j = entry k v j.
Proof. unfold entry. by intros ->. Qed.

Lemma entry_set_entry v j w k v' j' : wf k -> 0 <= j < 1024 -> 0 <= j' ->
  entry (set_entry v j w k) v' j' = if decide (v' = v /\ j' = j) then w else entry k v' j'.
Proof.
  intros Hw Hj Hj'. unfold entry, set_entry. rewrite page_setp. destruct (decide (v' = v)) as [->|Hne].
  - destruct (decide (j' = j)) as [->|Hj2].
    + rewrite decide_True by done. rewrite list_lookup_insert_eq; [done|]. rewrite page_length by done. lia.
    + rewrite decide_False by naive_solver. rewrite list_lookup_insert_ne; [done|lia].
  - by rewrite decide_False by naive_solver.
Qed.

Lemma entry_replicate k v c j : page k v = replicate 1024 c -> 0 <= j < 1024 -> entry k v j = c.
Proof. intros Hp Hj. unfold entry. rewrite Hp, lookup_replicate_2; [done|lia]. Qed.

Lemma load_entry k v j : v mod PGSIZE = 0 -> KERNBASE <= v < KERNBASE + PHYSTOP -> 0 <= j < 1024 ->
  load (v + 4 * j) k = Ok (entry k v j, k).
Proof.
  intros Ha Hv Hj. unfold load, mbind, M_bind, get.
  rewrite mapped_kva_true by (unfold_layout; zlia). rewrite PGROUNDDOWN_mod.
  assert ((v + 4 * j) mod PGSIZE = 4 * j) as -> by (unfold_layout; zlia).
  unfold mret, M_ret. do 3 f_equal; zlia.
Qed.

Lemma store_entry k v j w : v mod PGSIZE = 0 -> KERNBASE <= v < KERNBASE + PHYSTOP -> 0 <= j < 1024 ->
  store (v + 4 * j) w k = Ok (tt, set_entry v j w k).
Proof.
  intros Ha Hv Hj. unfold store.
  rewrite mapped_kva_true by (unfold_layout; zlia). rewrite PGROUNDDOWN_mod.
  assert ((v + 4 * j) mod PGSIZE = 4 * j) as -> by (unfold_layout; zlia).
  unfold modify. do 3 f_equal; zlia.
Qed.

Section kalloc_proofs.
Context `{Linker}.

Lemma valid_range v : valid v -> v mod PGSIZE = 0 /\ KERNBASE <= v < KERNBASE + PHYSTOP /\ v <> 0 /\ v <> KERNBASE.
Proof.
  intros [Ha Hv]. pose proof data_above. pose proof end_above. unfold KERNLINK in *. unfold_layout. lia.
Qed.

Lemma chain_ext k k' h fl : (forall v, v ∈ fl -> entry k' v 0 = entry k v 0) -> chain k h fl -> chain k' h fl.
Proof.
  revert h. induction fl as [|v fl IH]; intros h He; [done|]. cbn. intros [-> Hc]. split; [done|].
  rewrite He by set_solver. apply IH; [|done]. intros u Hu. apply He. set_solver.
Qed.

Lemma free_ok_ext k k' fl : wf k' -> freelist k' = freelist k -> (forall v, v ∈ fl -> page k' v = page k v) ->
  free_ok k fl -> free_ok k' fl.
Proof.
  intros Hw Hf Hp [A B C D]. split; [done| |done|done]. rewrite Hf. eapply chain_ext; [|done].
  intros v Hv. apply entry_ext, Hp, Hv.
Qed.

Definition freed (v : Z) (k : kmem) : kmem :=
  set_freelist v (set_entry v 0 (freelist k) (setp v (replicate 1024 0x01010101) k)).

Lemma kfree_ok k fl v : free_ok k fl -> valid v -> v ∉ fl -> kfree v k = Ok (tt, freed v k) /\ free_ok (freed v k) (v :: fl).
Proof.
  intros [Hw Hc Hn Hv] Hval Hnin. destruct (valid_range v Hval) as (Ha & Hr & H0 & _).
  assert (wf (setp v (replicate 1024 16843009) k)) as Hw' by (apply wf_setp; [done|by rewrite length_replicate]).
  split.
  - unfold kfree. rewrite (proj2 (Z.eqb_eq _ _)), (proj2 (Z.ltb_ge _ _)), (proj2 (Z.leb_gt _ _)); [|rewrite V2P_id|destruct Hval|done];
      [|unfold_layout; unfold_bounds; lia..].
    cbn [negb orb]. unfold memset_page. rewrite mapped_kva_true by done.
    replace (replicate 1024 (byte4 (Z.land 1 255))) with (replicate 1024 0x01010101) by reflexivity.
    unfold mbind, M_bind, modify, get.
    pose proof (store_entry (setp v (replicate 1024 16843009) k) v 0 (freelist k) Ha Hr ltac:(lia)) as Hs.
    rewrite Z.add_0_r in Hs. cbn [freelist setp]. by rewrite Hs.
  - split; cbn.
    + by apply wf_set_entry.
    + split; [done|]. unfold entry at 1. change (page (freed v k) v) with (page (set_entry v 0 (freelist k) (setp v (replicate 1024 16843009) k)) v).
      fold (entry (set_entry v 0 (freelist k) (setp v (replicate 1024 16843009) k)) v 0).
      rewrite entry_set_entry, decide_True by (done || lia).
      eapply chain_ext; [|done]. intros u Hu. change (entry (freed v k) u 0) with (entry (set_entry v 0 (freelist k) (setp v (replicate 1024 16843009) k)) u 0).
      rewrite entry_set_entry, decide_False by (first [done|lia|intros [-> _]; done]).
      apply entry_ext. rewrite page_setp, decide_False; [done|]. by intros ->.
    + by constructor.
    + by constructor.
Qed.

Lemma page_freed v k u : u <> v -> page (freed v k) u = page k u.
Proof.
  intros Hu. change (page (freed v k) u) with (page (set_entry v 0 (freelist k) (setp v (replicate 1024 16843009) k)) u).
  unfold set_entry. rewrite !page_setp, !decide_False by done. done.
Qed.

Lemma kalloc_nil k : free_ok k [] -> kalloc k = Ok (0, k).
Proof. intros [_ Hc _ _]. cbn in Hc. unfold kalloc, mbind, M_bind, get. by rewrite Hc. Qed.

Lemma kalloc_cons k v fl : free_ok k (v :: fl) ->
  kalloc k = Ok (v, set_freelist (entry k v 0) k) /\ free_ok (set_freelist (entry k v 0) k) fl /\ valid v /\ v ∉ fl.
Proof.
  intros [Hw [Hf Hc] Hn Hv]. apply NoDup_cons in Hn as [Hn1 Hn2]. apply Forall_cons in Hv as [Hv1 Hv2].
  destruct (valid_range v Hv1) as (Ha & Hr & H0 & _). split_and!; [|split|..]; try done.
  - unfold kalloc, mbind, M_bind, get. rewrite Hf, (proj2 (Z.eqb_neq _ _)) by done.
    pose proof (load_entry k v 0 Ha Hr ltac:(lia)) as Hl. rewrite Z.add_0_r in Hl. by rewrite Hl.
  - cbn. eapply chain_ext; [|done]. done.
Qed.
End kalloc_proofs.

(** ** freerange and the boot sequence *)
Definition pages_between (a b : Z) : list Z := (fun i => a + PGSIZE * i) <$> seqZ 0 ((b - a) / PGSIZE).

Lemma pages_between_nil a b : b < a + PGSIZE -> pages_between a b = [].
Proof. intros Hab. unfold pages_between. rewrite seqZ_nil; [done|]. unfold_layout. zlia. Qed.

Lemma pages_between_cons a b : a + PGSIZE <= b -> pages_between a b = a :: pages_between (a + PGSIZE) b.
Proof.
  intros Hab. unfold pages_between.
  replace ((b - a) / PGSIZE) with (Z.succ ((b - (a + PGSIZE)) / PGSIZE)) by (unfold_layout; zlia).
  rewrite seqZ_cons by (unfold_layout; zlia). cbn. f_equal; [lia|]. rewrite Z.pred_succ.
  change (Z.succ 0) with (1 + 0). rewrite <-(fmap_add_seqZ 1 0), <-list_fmap_compose. apply list_fmap_ext. intros ? ? _. cbn. unfold_layout. lia.
Qed.

Lemma elem_of_pages_between a b v : v ∈ pages_between a b -> a mod PGSIZE = 0 -> v mod PGSIZE = 0 /\ a <= v /\ v + PGSIZE <= b.
Proof.
  intros Hv Ha. unfold pages_between in Hv. apply list_elem_of_fmap in Hv as (i & -> & Hi).
  apply elem_of_seqZ in Hi. unfold_layout. split_and!; zlia.
Qed.

Lemma NoDup_pages_between a b : NoDup (pages_between a b).
Proof. apply NoDup_fmap_2; [intros x y; unfold_layout; lia|apply NoDup_seqZ]. Qed.

Lemma pages_between_app a b c : a <= b <= c -> (b - a) mod PGSIZE = 0 ->
  pages_between a c = pages_between a b ++ pages_between b c.
Proof.
  intros Hab Hm. unfold pages_between. replace ((c - a) / PGSIZE) with ((b - a) / PGSIZE + (c - b) / PGSIZE) by (unfold_layout; zlia).
  rewrite seqZ_app, fmap_app by (unfold_layout; zlia). f_equal. rewrite Z.add_0_l.
  replace ((b - a) / PGSIZE) with ((b - a) / PGSIZE + 0) at 1 by lia.
  rewrite <-fmap_add_seqZ, <-list_fmap_compose. apply list_fmap_ext. intros ? ? _. cbn. unfold_layout. zlia.
Qed.

Section boot.
Context `{Linker}.

Lemma freerange_loop_ok fuel k fl p vend :
  free_ok k fl -> p mod PGSIZE = 0 -> end_ <= p -> vend <= KERNBASE + PHYSTOP -> p <= UINT_MOD - 2 * PGSIZE ->
  (vend - p) / PGSIZE <= Z.of_nat fuel -> (forall v, v ∈ fl -> v < p \/ vend < v + PGSIZE) ->
  exists k', freerange_loop fuel p vend k = Ok (tt, k') /\ free_ok k' (rev (pages_between p vend) ++ fl)
    /\ use_lock k' = use_lock k.
Proof.
  revert k fl p. induction fuel as [|fuel IH]; intros k fl p Hok Ha He Hv Hp Hf Hfl;
    pose proof data_above; pose proof end_above; unfold KERNLINK in *; cbn [freerange_loop];
    (rewrite u32_id by (unfold_layout; unfold_bounds; lia)); destruct (Z.leb_spec (p + PGSIZE) vend) as [Hle|Hgt]; cbn [negb];
    try (rewrite pages_between_nil by done; by exists k).
  - exfalso. unfold_layout. zlia.
  - destruct (kfree_ok k fl p Hok) as [Hk Hok']; [split; [done|unfold_layout; lia]|intros Hin; specialize (Hfl p Hin); unfold_layout; lia|].
    unfold mbind, M_bind. rewrite Hk.
    destruct (IH (freed p k) (p :: fl) (p + PGSIZE)) as (k' & Hr & Ho & Hu); [done|unfold_layout; zlia|unfold_layout; lia|lia|
       unfold_layout; unfold_bounds; lia|unfold_layout; zlia|..].
    { intros v [->|Hin]%elem_of_cons; [unfold_layout; lia|]. specialize (Hfl v Hin). unfold_layout; lia. }
    exists k'. split_and!; [done| |done]. rewrite pages_between_cons by done. cbn [rev]. by rewrite <-app_assoc.
Qed.

(** The pages of physical memory behind the kernel. *)
Definition all_pages : list Z := pages_between (PGROUNDUP end_) (KERNBASE + PHYSTOP).

Lemma PGROUNDUP_end : PGROUNDUP end_ mod PGSIZE = 0 /\ end_ <= PGROUNDUP end_ <= KERNBASE + PHYSTOP.
Proof.
  pose proof data_above. pose proof end_above. pose proof end_below. unfold KERNLINK in *.
  rewrite PGROUNDUP_mod by (unfold_layout; unfold_bounds; lia). unfold_layout. zlia.
Qed.

(** The pages below the 4 MB mark, freed by kinit1 ... *)
Lemma kinit1_ok k : wf k -> freelist k = 0 -> PGROUNDUP end_ <= P2V 4194304 ->
  exists k', kinit1 end_ (P2V 4194304) k = Ok (tt, k') /\ free_ok k' (rev (pages_between (PGROUNDUP end_) (P2V 4194304))).
Proof.
  intros Hw Hf Hend. destruct PGROUNDUP_end as (Hal & Hge & Hle). pose proof data_above; pose proof end_above; unfold KERNLINK in *.
  assert (P2V 4194304 = 2151677952) as E4 by reflexivity.
  set (k1 := mkKmem (mem k) false (freelist k)).
  assert (free_ok k1 []) as Hk1 by (split; [done|done|constructor|constructor]).
  destruct (freerange_loop_ok (Z.to_nat (P2V 4194304 / PGSIZE)) k1 [] (PGROUNDUP end_) (P2V 4194304)) as (k2 & R2 & O2 & U2);
    [done|done|lia|rewrite E4; unfold_layout; lia|rewrite E4 in Hend; unfold_layout; unfold_bounds; lia| |set_solver|].
  { rewrite E4. unfold_layout. zlia. }
  rewrite app_nil_r in O2. exists k2. split; [|done].
  unfold kinit1, freerange, mbind, M_bind, modify. fold k1. by rewrite R2.
Qed.

(** ... and those above it, freed by kinit2. *)
Lemma kinit2_ok k fl : free_ok k fl -> (forall v, v ∈ fl -> v < P2V 4194304) -> end_ <= P2V 4194304 ->
  exists k', kinit2 (P2V 4194304) (P2V PHYSTOP) k = Ok (tt, k') /\
    free_ok k' (rev (pages_between (P2V 4194304) (P2V PHYSTOP)) ++ fl) /\ use_lock k' = true.
Proof.
  intros Hok Hfl Hend. assert (P2V PHYSTOP = KERNBASE + PHYSTOP) as EP by reflexivity.
  assert (P2V 4194304 = 2151677952) as E4 by reflexivity.
  destruct (freerange_loop_ok (Z.to_nat (P2V PHYSTOP / PGSIZE)) k fl (PGROUNDUP (P2V 4194304)) (P2V PHYSTOP)) as (k3 & R3 & O3 & U3);
    [done|done|change (PGROUNDUP (P2V 4194304)) with (P2V 4194304); lia|rewrite EP; lia|done| | |].
  { rewrite Z2Nat.id by done. done. }
  { intros v Hv. left. change (PGROUNDUP (P2V 4194304)) with (P2V 4194304). by apply Hfl. }
  exists (mkKmem (mem k3) true (freelist k3)). split_and!; [|by apply (free_ok_ext k3); [apply O3|..|exact O3]|done].
  unfold kinit2, freerange, mbind, M_bind, modify. by rewrite R3.
Qed.
End boot.

(** ** Clients of the allocator *)
Section client.
Context `{Linker}.

(** A client calls kalloc and kfree, frees only pages it holds, and writes
    only inside them.  The list holds the pages it has, at first [o0]. *)
Inductive client (k0 : kmem) (o0 : list Z) : kmem -> list Z -> Prop :=
  | client_start : client k0 o0 k0 o0
  | client_alloc k o v k' : client k0 o0 k o -> kalloc k = Ok (v, k') -> v <> 0 -> client k0 o0 k' (v :: o)
  | client_fail k o k' : client k0 o0 k o -> kalloc k = Ok (0, k') -> client k0 o0 k' o
  | client_free k o1 v o2 k' : client k0 o0 k (o1 ++ v :: o2) -> kfree v k = Ok (tt, k') -> client k0 o0 k' (o1 ++ o2)
  | client_write k o v ws : client k0 o0 k o -> v ∈ o -> length ws = 1024%nat -> client k0 o0 (setp v ws k) o.

Lemma client_inv k0 o0 fl0 k o : free_ok k0 fl0 -> NoDup (o0 ++ fl0) -> Forall valid o0 -> client k0 o0 k o ->
  exists fl, free_ok k fl /\ o ++ fl ≡ₚ o0 ++ fl0.
Proof.
  intros H0 Hn0 Hv0 Hc. assert (Forall valid (o0 ++ fl0)) as HV0 by (apply Forall_app; split; [done|apply H0]). induction Hc as [|k o v k' Hc (fl & Hok & Hp) Hk Hv|k o k' Hc (fl & Hok & Hp) Hk
    |k o1 v o2 k' Hc (fl & Hok & Hp) Hk|k o v ws Hc (fl & Hok & Hp) Hv Hl].
  - by exists fl0.
  - destruct fl as [|u fl]; [rewrite (kalloc_nil k Hok) in Hk; by simplify_eq|].
    destruct (kalloc_cons k u fl Hok) as (Ha & Hok' & _). rewrite Ha in Hk. simplify_eq.
    exists fl. split; [done|]. rewrite <-Hp. cbn. apply Permutation_middle.
  - destruct fl as [|u fl]; [rewrite (kalloc_nil k Hok) in Hk; simplify_eq; by exists []|].
    destruct (kalloc_cons k u fl Hok) as (Ha & Hok' & Hu & _). rewrite Ha in Hk. simplify_eq.
    by destruct (valid_range 0 Hu) as (_ & _ & ? & _).
  - assert (NoDup ((o1 ++ v :: o2) ++ fl) /\ Forall valid ((o1 ++ v :: o2) ++ fl)) as [Hn HV].
    { by rewrite !Hp. }
    rewrite <-app_assoc in Hn, HV. cbn in Hn, HV. apply NoDup_app in Hn as (_ & _ & Hn).
    apply NoDup_cons in Hn as [Hn _]. rewrite Forall_app, Forall_cons in HV.
    destruct (kfree_ok k fl v Hok) as [Hf Hok']; [naive_solver|set_solver|].
    rewrite Hf in Hk. simplify_eq. exists (v :: fl). split; [done|]. rewrite <-Hp, <-!app_assoc. cbn.
    by rewrite <-Permutation_middle.
  - exists fl. split; [|done]. assert (NoDup (o ++ fl)) as Hn by (by rewrite Hp).
    apply NoDup_app in Hn as (_ & Hd & _). apply (free_ok_ext k); [apply wf_setp; [apply Hok|done]|done| |exact Hok].
    intros u Hu. rewrite page_setp, decide_False; [done|]. intros ->. by apply (Hd v).
Qed.
End client.

(** A linker layout for the examples. *)
#[export] Instance example_linker : Linker.
Proof. refine {| data := 0x80108000; end_ := 0x80115000 |}; (reflexivity || done). Defined.

(** C36: kinit1 puts the pages below 4 MB on the free list, kinit2 those above,
    each exactly once.  Whatever calls of kalloc and kfree and writes to its
    own pages the kernel makes in between and afterwards, the pages it holds
    and the free pages are together exactly the pages initialised so far, each
    once: kalloc never hands out a page that is in use, and fails only when no
    page is free; freeing a held page always succeeds. *)
Theorem kalloc_safety `{Linker} k : wf k -> freelist k = 0 -> PGROUNDUP end_ <= P2V 4194304 ->
  exists k0, kinit1 end_ (P2V 4194304) k = Ok (tt, k0) /\
    forall k1 o1, client k0 [] k1 o1 ->
      exists k2, kinit2 (P2V 4194304) (P2V PHYSTOP) k1 = Ok (tt, k2) /\
        forall k3 o, client k2 o1 k3 o ->
          exists fl, o ++ fl ≡ₚ all_pages /\ NoDup (o ++ fl) /\
            (exists v k4, kalloc k3 = Ok (v, k4) /\ (v = 0 /\ fl = [] \/ v ∈ fl)) /\
            (forall v, v ∈ o -> exists k4, kfree v k3 = Ok (tt, k4)).
Proof.
  intros Hw Hf He. destruct PGROUNDUP_end as (Hal & Hge & Hle). assert (P2V 4194304 = 2151677952) as E4 by reflexivity.
  destruct (kinit1_ok k Hw Hf He) as (k0 & Hb & H0). exists k0. split; [done|].
  intros k1 o1 Hc1. destruct (client_inv k0 [] _ k1 o1 H0 (fo_nodup _ _ H0) (Forall_nil_2 _) Hc1) as (fl1 & Hok1 & Hp1).
  cbn [app] in Hp1. rewrite <-Permutation_rev in Hp1.
  assert (forall v, v ∈ o1 ++ fl1 -> v < P2V 4194304 /\ valid v) as Hlow.
  { intros v Hv. rewrite Hp1 in Hv. apply elem_of_pages_between in Hv; [|done]. pose proof data_above. pose proof end_above.
    unfold valid. rewrite E4 in *. unfold_layout. lia. }
  destruct (kinit2_ok k1 fl1 Hok1) as (k2 & Hk2 & Hok2 & _); [intros v Hv; apply Hlow; set_solver|lia|].
  exists k2. split; [done|]. set (fl2 := rev (pages_between (P2V 4194304) (P2V PHYSTOP)) ++ fl1) in *.
  assert (o1 ++ fl2 ≡ₚ all_pages) as Hall.
  { unfold fl2, all_pages. rewrite <-Permutation_rev, Permutation_app_swap_app, Hp1, Permutation_app_comm.
    rewrite (pages_between_app (PGROUNDUP end_) (P2V 4194304) (KERNBASE + PHYSTOP)); [done|rewrite E4 in *; unfold_layout; lia|].
    rewrite E4 in *. unfold_layout. zlia. }
  assert (NoDup (o1 ++ fl2)) as Hn2 by (rewrite Hall; apply NoDup_pages_between).
  intros k3 o Hc. destruct (client_inv k2 o1 fl2 k3 o Hok2 Hn2) as (fl & Hok & Hp'); [|done|].
  { apply Forall_forall. intros v Hv. apply Hlow, elem_of_app. by left. }
  assert (NoDup (o ++ fl)) as Hn by (by rewrite Hp').
  exists fl. split_and!; [by rewrite Hp'|done|..].
  - destruct fl as [|v fl]; [exists 0, k3; split; [by apply kalloc_nil|by left]|].
    destruct (kalloc_cons k3 v fl Hok) as (Ha & _). exists v. eexists. split; [exact Ha|right; apply list_elem_of_here].
  - intros v Hv. apply NoDup_app in Hn as (_ & Hd & _). eexists. apply (kfree_ok k3 fl v Hok); [|by apply Hd].
    assert (v ∈ all_pages) as Hva by (rewrite <-Hall, <-Hp'; apply elem_of_app; by left).
    apply elem_of_pages_between in Hva; [|done]. unfold valid. unfold_layout. lia.
Qed.

Lemma kalloc_safety_witness :
  exists k0, kinit1 end_ (P2V 4194304) (mkKmem ∅ false 0) = Ok (tt, k0) /\
    forall k1 o1, client k0 [] k1 o1 ->
      exists k2, kinit2 (P2V 4194304) (P2V PHYSTOP) k1 = Ok (tt, k2) /\
        forall k3 o, client k2 o1 k3 o ->
          exists fl, o ++ fl ≡ₚ all_pages /\ NoDup (o ++ fl) /\
            (exists v k4, kalloc k3 = Ok (v, k4) /\ (v = 0 /\ fl = [] \/ v ∈ fl)) /\
            (forall v, v ∈ o -> exists k4, kfree v k3 = Ok (tt, k4)).
Proof. apply (kalloc_safety (mkKmem ∅ false 0)); [apply map_Forall_empty|done|done]. Defined.
