(* ===== verification/Vm.v ===== *)
(** * Page tables and user memory, xv6 wmap/solution/vm.c

    Page directories and page tables are pages of the kernel memory of Kalloc,
    read and written through the two-level walk of [walkpgdir].  Pointers to
    page-table entries are their kernel addresses; 0 is NULL. *)
From S2P Require Import Prelude Kalloc.

Definition or_flags (pa perm : Z) : Z := Z.lor (Z.lor pa perm) PTE_P.

Section vm.
Context `{Linker}.

Definition walkpgdir (pgdir va : Z) (alloc : bool) : M kmem Z :=
  let pde := pgdir + 4 * PDX va in
  w ← load pde;
  if negb (Z.land w PTE_P =? 0) then mret (P2V (PTE_ADDR w) + 4 * PTX va)
  else if negb alloc then mret 0
  else
    pgtab ← kalloc;
    if (pgtab : Z) =? 0 then mret 0 else
    _ ← memset_page pgtab 0;
    _ ← store pde (Z.lor (Z.lor (Z.lor (V2P pgtab) PTE_P) PTE_W) PTE_U);
    mret (pgtab + 4 * PTX va).

Fixpoint mappages_loop (fuel : nat) (pgdir a last pa perm : Z) : M kmem Z :=
  match fuel with
  | O => fail OutOfFuel
  | S fuel' =>
      pte ← walkpgdir pgdir a true;
      if (pte : Z) =? 0 then mret (-1) else
      w ← load pte;
      if negb (Z.land w PTE_P =? 0) then fail Panic else
      _ ← store pte (or_flags pa perm);
      if a =? last then mret 0
      else mappages_loop fuel' pgdir (u32 (a + PGSIZE)) last (u32 (pa + PGSIZE)) perm
  end.

Definition mappages (pgdir va size pa perm : Z) : M kmem Z :=
  let a := PGROUNDDOWN va in
  let last := PGROUNDDOWN (u32 (va + size - 1)) in
  mappages_loop (S (Z.to_nat (u32 (last - a) / PGSIZE))) pgdir a last pa perm.

Fixpoint deallocuvm_loop (fuel : nat) (pgdir a oldsz : Z) : M kmem unit :=
  if negb (a <? oldsz) then mret tt else
  match fuel with
  | O => fail OutOfFuel
  | S fuel' =>
      pte ← walkpgdir pgdir a false;
      if (pte : Z) =? 0 then
        deallocuvm_loop fuel' pgdir (u32 (u32 (PGADDR (PDX a + 1) 0 0 - PGSIZE) + PGSIZE)) oldsz
      else
        w ← load pte;
        if Z.land w PTE_P =? 0 then deallocuvm_loop fuel' pgdir (u32 (a + PGSIZE)) oldsz else
        let pa := PTE_ADDR w in
        if pa =? 0 then fail Panic else
        _ ← kfree (P2V pa);
        _ ← store pte 0;
        deallocuvm_loop fuel' pgdir (u32 (a + PGSIZE)) oldsz
  end.

Definition deallocuvm (pgdir oldsz newsz : Z) : M kmem Z :=
  if oldsz <=? newsz then mret oldsz else
  _ ← deallocuvm_loop (Z.to_nat (oldsz / PGSIZE + 1)) pgdir (PGROUNDUP newsz) oldsz;
  mret newsz.

(** The directory's tables, from index [i]: [n] entries. *)
Fixpoint free_tables (n : nat) (pgdir i : Z) : M kmem unit :=
  match n with
  | O => mret tt
  | S n' =>
      w ← load (pgdir + 4 * i);
      _ ← (if negb (Z.land w PTE_P =? 0) then kfree (P2V (PTE_ADDR w)) else mret tt);
      free_tables n' pgdir (i + 1)
  end.

Definition freevm (pgdir : Z) : M kmem unit :=
  if pgdir =? 0 then fail Panic else
  _ ← deallocuvm pgdir KERNBASE 0;
  _ ← free_tables (Z.to_nat NPDENTRIES) pgdir 0;
  kfree pgdir.

(** kmap: virt, phys_start, phys_end, perm. *)
Definition kmap : list (Z * Z * Z * Z) :=
  [(KERNBASE, 0, EXTMEM, PTE_W);
   (KERNLINK, V2P KERNLINK, V2P data, 0);
   (data, V2P data, PHYSTOP, PTE_W);
   (DEVSPACE, DEVSPACE, 0, PTE_W)].

Fixpoint map_kernel (ks : list (Z * Z * Z * Z)) (pgdir : Z) : M kmem Z :=
  match ks with
  | [] => mret 0
  | (virt, phys_start, phys_end, perm) :: ks' =>
      r ← mappages pgdir virt (u32 (phys_end - phys_start)) phys_start perm;
      if (r : Z) <? 0 then mret (-1) else map_kernel ks' pgdir
  end.

Definition setupkvm : M kmem Z :=
  pgdir ← kalloc;
  if (pgdir : Z) =? 0 then mret 0 else
  _ ← memset_page pgdir 0;
  if DEVSPACE <? P2V PHYSTOP then fail Panic else
  r ← map_kernel kmap pgdir;
  if (r : Z) <? 0 then _ ← freevm pgdir; mret 0 else mret pgdir.

(** The result of kalloc is not checked: with no free page memset and
    memmove go through the NULL pointer. *)
Definition inituvm (pgdir : Z) (init : list Z) : M kmem unit :=
  if PGSIZE <=? Z.of_nat (length init) then fail Panic else
  m ← kalloc;
  _ ← memset_page m 0;
  _ ← mappages pgdir 0 PGSIZE (V2P m) (Z.lor PTE_W PTE_U);
  write_bytes m 0 init.

Fixpoint allocuvm_loop (fuel : nat) (pgdir a oldsz newsz : Z) : M kmem Z :=
  if negb (a <? newsz) then mret newsz else
  match fuel with
  | O => fail OutOfFuel
  | S fuel' =>
      m ← kalloc;
      if (m : Z) =? 0 then _ ← deallocuvm pgdir newsz oldsz; mret 0 else
      _ ← memset_page m 0;
      r ← mappages pgdir a PGSIZE (V2P m) (Z.lor PTE_W PTE_U);
      if (r : Z) <? 0 then
        _ ← deallocuvm pgdir newsz oldsz;
        _ ← kfree m;
        mret 0
      else allocuvm_loop fuel' pgdir (u32 (a + PGSIZE)) oldsz newsz
  end.

Definition allocuvm (pgdir oldsz newsz : Z) : M kmem Z :=
  if MMAPBASE <=? newsz then mret 0
  else if newsz <? oldsz then mret oldsz
  else allocuvm_loop (Z.to_nat (newsz / PGSIZE + 1)) pgdir (PGROUNDUP oldsz) oldsz newsz.

Definition clearpteu (pgdir uva : Z) : M kmem unit :=
  pte ← walkpgdir pgdir uva false;
  if (pte : Z) =? 0 then fail Panic else
  w ← load pte;
  store pte (Z.land w (Z.lnot PTE_U)).

Fixpoint copyuvm_loop (fuel : nat) (pgdir d i sz : Z) : M kmem Z :=
  if negb (i <? sz) then mret d else
  match fuel with
  | O => fail OutOfFuel
  | S fuel' =>
      pte ← walkpgdir pgdir i false;
      if (pte : Z) =? 0 then fail Panic else
      w ← load pte;
      if Z.land w PTE_P =? 0 then fail Panic else
      let pa := PTE_ADDR w in
      let flags := PTE_FLAGS w in
      m ← kalloc;
      if (m : Z) =? 0 then _ ← freevm d; mret 0 else
      _ ← memmove_page m (P2V pa);
      r ← mappages d i PGSIZE (V2P m) flags;
      if (r : Z) <? 0 then _ ← kfree m; _ ← freevm d; mret 0
      else copyuvm_loop fuel' pgdir d (u32 (i + PGSIZE)) sz
  end.

Definition copyuvm (pgdir sz : Z) : M kmem Z :=
  d ← setupkvm;
  if (d : Z) =? 0 then mret 0
  else copyuvm_loop (Z.to_nat (sz / PGSIZE + 1)) pgdir d 0 sz.

(** A NULL entry pointer would be dereferenced (as in the code). *)
Definition uva2ka (pgdir uva : Z) : M kmem Z :=
  pte ← walkpgdir pgdir uva false;
  w ← load pte;
  if Z.land w PTE_P =? 0 then mret 0
  else if Z.land w PTE_U =? 0 then mret 0
  else mret (P2V (PTE_ADDR w)).

Fixpoint copyout_loop (fuel : nat) (pgdir va : Z) (p : list Z) : M kmem Z :=
  match p with
  | [] => mret 0
  | _ =>
      match fuel with
      | O => fail OutOfFuel
      | S fuel' =>
          let va0 := PGROUNDDOWN va in
          pa0 ← uva2ka pgdir va0;
          if (pa0 : Z) =? 0 then mret (-1) else
          let n := Z.min (PGSIZE - (va - va0)) (Z.of_nat (length p)) in
          _ ← write_bytes pa0 (va - va0) (take (Z.to_nat n) p);
          copyout_loop fuel' pgdir (u32 (va0 + PGSIZE)) (drop (Z.to_nat n) p)
      end
  end.

(** [len] is the length of [p]. *)
Definition copyout (pgdir va : Z) (p : list Z) : M kmem Z :=
  copyout_loop (S (length p)) pgdir va p.

End vm.

(** ** Page directories as finite maps

    [rep k fl tb ds]: in the memory [k] the free pages are [fl], [tb] gives the
    page of each page table, and each directory [d] of [ds] is the finite map
    [ds !! d] from virtual page numbers to page-table entries. *)
Section rep.
Context `{Linker}.

Definition loose (fl : list Z) (tb : gmap (Z * Z) Z) (ds : gmap Z (gmap Z Z)) (u : Z) : Prop :=
  u ∉ fl /\ ds !! u = None /\ forall p, tb !! p <> Some u.

Record rep (k : kmem) (fl : list Z) (tb : gmap (Z * Z) Z) (ds : gmap Z (gmap Z Z)) : Prop := {
  rp_free : free_ok k fl;
  rp_dir : forall d mp, ds !! d = Some mp -> valid d /\ d ∉ fl;
  rp_tab : forall d i t, tb !! (d, i) = Some t ->
    is_Some (ds !! d) /\ 0 <= i < 1024 /\ valid t /\ t ∉ fl /\ ds !! t = None;
  rp_inj : forall p q t, tb !! p = Some t -> tb !! q = Some t -> p = q;
  rp_pde : forall d mp i, ds !! d = Some mp -> 0 <= i < 1024 ->
    entry k d i = match tb !! (d, i) with Some t => V2P t + 7 | None => 0 end;
  rp_pte : forall d mp i t j, ds !! d = Some mp -> tb !! (d, i) = Some t -> 0 <= j < 1024 ->
    entry k t j = default 0 (mp !! (1024 * i + j));
  rp_map : forall d mp n w, ds !! d = Some mp -> mp !! n = Some w ->
    0 <= n < 1048576 /\ is_Some (tb !! (d, n / 1024)) /\ w mod 2 = 1 /\ 0 <= w < UINT_MOD
}.

(** The pages of the free list, the directories and the tables are the pages
    the component manages; the others are left alone. *)
Definition keeps (fl : list Z) (tb : gmap (Z * Z) Z) (ds : gmap Z (gmap Z Z)) (k k' : kmem) : Prop :=
  forall u, loose fl tb ds u -> page k' u = page k u.

Definition vpn (va : Z) : Z := va / PGSIZE.

Lemma vpn_split va : 0 <= va < UINT_MOD -> 1024 * PDX va + PTX va = vpn va /\ 0 <= PDX va < 1024 /\ 0 <= PTX va < 1024.
Proof.
  intros Hv. rewrite PDX_div, PTX_div by done. unfold vpn. unfold_layout. unfold_bounds. split_and!; zlia.
Qed.

Lemma land_1 w : Z.land w PTE_P = w mod 2.
Proof. unfold PTE_P. change 1 with (Z.ones 1) at 1. by rewrite land_ones_mod. Qed.

Lemma pde_flags t : valid t -> Z.lor (Z.lor (Z.lor (V2P t) PTE_P) PTE_W) PTE_U = V2P t + 7 /\
  PTE_ADDR (V2P t + 7) = V2P t /\ P2V (V2P t) = t /\ Z.land (V2P t + 7) PTE_P = 1.
Proof.
  intros Ht. destruct (valid_range t Ht) as (Ha & Hr & _). rewrite V2P_id by (unfold_layout; unfold_bounds; lia).
  rewrite <-!Z.lor_assoc. change (Z.lor PTE_P (Z.lor PTE_W PTE_U)) with 7.
  rewrite (lor_add_low _ 7 12), PTE_ADDR_mod, land_1, P2V_id by (unfold_layout; first [lia|zlia]).
  unfold_layout. split_and!; zlia.
Qed.

Lemma rep_page_ext k k' fl tb ds : wf k' -> freelist k' = freelist k ->
  (forall u, ~ loose fl tb ds u -> page k' u = page k u) -> rep k fl tb ds -> rep k' fl tb ds.
Proof.
  intros Hw Hf Hp [A B C D E F G]. split; try done.
  - apply (free_ok_ext k); [done|done| |done]. intros v Hv. apply Hp. unfold loose. naive_solver.
  - intros d mp i Hd Hi. rewrite <-(E d mp i Hd Hi). apply entry_ext, Hp. unfold loose. intros (_ & ? & _). congruence.
  - intros d mp i t j Hd Ht Hj. rewrite <-(F d mp i t j Hd Ht Hj). apply entry_ext, Hp. unfold loose. intros (_ & _ & ?). naive_solver.
Qed.

(** Writing a page the component does not manage. *)
Lemma rep_setp k fl tb ds u ws : rep k fl tb ds -> loose fl tb ds u -> length ws = 1024%nat -> rep (setp u ws k) fl tb ds.
Proof.
  intros Hr Hu Hl. apply (rep_page_ext k); [apply wf_setp; [apply Hr|done]|done| |done].
  intros v Hv. rewrite page_setp, decide_False; [done|]. by intros ->.
Qed.

(** kalloc takes a page out of the component's hands. *)
Lemma rep_kalloc k v fl tb ds : rep k (v :: fl) tb ds ->
  exists k', kalloc k = Ok (v, k') /\ mem k' = mem k /\ rep k' fl tb ds /\ loose fl tb ds v /\ valid v.
Proof.
  intros [A B C D E F G]. destruct (kalloc_cons k v fl A) as (Hk & Hok & Hv & Hn).
  eexists. split_and!; [exact Hk|done| |split_and!|done]; [|done| |].
  - split; try done.
    + intros d mp Hd. destruct (B d mp Hd). split; [done|set_solver].
    + intros d i t Ht. destruct (C d i t Ht) as (?&?&?&?&?). split_and!; try done; set_solver.
  - destruct (ds !! v) as [mp|] eqn:Hd; [|done]. destruct (B v mp Hd). set_solver.
  - intros [d i] Ht. destruct (C d i v Ht) as (?&?&?&?&?). set_solver.
Qed.

Lemma rep_kalloc_nil k tb ds : rep k [] tb ds -> kalloc k = Ok (0, k).
Proof. intros [A _ _ _ _ _ _]. by apply kalloc_nil. Qed.

(** kfree gives a page back. *)
Lemma rep_kfree k fl tb ds u : rep k fl tb ds -> valid u -> loose fl tb ds u ->
  kfree u k = Ok (tt, freed u k) /\ rep (freed u k) (u :: fl) tb ds.
Proof.
  intros Hr Hv (Hn & Hd & Ht). destruct (kfree_ok k fl u (rp_free _ _ _ _ Hr) Hv Hn) as [Hk Hok]. split; [done|].
  destruct Hr as [A B C D E F G]. split; try done.
  - intros d mp Hdm. destruct (B d mp Hdm). split; [done|]. apply not_elem_of_cons. split; [congruence|done].
  - intros d i t Hti. destruct (C d i t Hti) as (?&?&?&?&?). split_and!; try done; [lia|lia|].
    apply not_elem_of_cons. split; [|done]. intros ->. by apply (Ht (d, i)).
  - intros d mp i Hdm Hi. rewrite <-(E d mp i Hdm Hi). apply entry_ext, page_freed. congruence.
  - intros d mp i t j Hdm Hti Hj. rewrite <-(F d mp i t j Hdm Hti Hj). apply entry_ext, page_freed.
    intros ->. by apply (Ht (d, i)).
Qed.

(** Updating one entry. *)
Lemma rep_set_pte k fl tb ds d mp i t j w mp' :
  rep k fl tb ds -> ds !! d = Some mp -> tb !! (d, i) = Some t -> 0 <= j < 1024 ->
  default 0 (mp' !! (1024 * i + j)) = w ->
  (forall n, n <> 1024 * i + j -> mp' !! n = mp !! n) ->
  (forall w', mp' !! (1024 * i + j) = Some w' -> w' mod 2 = 1 /\ 0 <= w' < UINT_MOD) ->
  rep (set_entry t j w k) fl tb (<[d := mp']> ds).
Proof.
  intros Hr Hd Ht Hj Hw Hn Hw'. pose proof (rp_free _ _ _ _ Hr) as Hok. pose proof (fo_wf _ _ Hok) as Hwf.
  destruct Hr as [A B C D E F G]. destruct (C d i t Ht) as (_ & Hi & Htv & Htf & Htd).
  assert (forall d' mp0, <[d:=mp']> ds !! d' = Some mp0 -> exists mp1, ds !! d' = Some mp1 /\
    (d' = d /\ mp0 = mp' /\ mp1 = mp \/ d' <> d /\ mp0 = mp1)) as Hins.
  { intros d' mp0. destruct (decide (d' = d)) as [->|Hne].
    - rewrite lookup_insert_eq. intros. simplify_eq. exists mp. naive_solver.
    - rewrite lookup_insert_ne by done. intros. exists mp0. naive_solver. }
  split.
  - apply (free_ok_ext k); [by apply wf_set_entry|done| |done]. intros v Hv. unfold set_entry.
    rewrite page_setp, decide_False; [done|]. by intros ->.
  - intros d' mp0 H'. destruct (Hins d' mp0 H') as (mp1 & H1 & _). by apply (B d' mp1).
  - intros d' i' t' Ht'. destruct (C d' i' t' Ht') as (H1 & H2 & H3 & H4 & H5).
    split_and!; try done; try lia.
    + destruct (decide (d' = d)) as [->|]; [by rewrite lookup_insert_eq|by rewrite lookup_insert_ne].
    + rewrite lookup_insert_ne; [done|]. intros ->. congruence.
  - done.
  - intros d' mp0 i' H' Hi'. destruct (Hins d' mp0 H') as (mp1 & H1 & _). rewrite <-(E d' mp1 i' H1 Hi').
    apply entry_ext. unfold set_entry. rewrite page_setp, decide_False; [done|]. intros ->. congruence.
  - intros d' mp0 i' t' j' H' Ht' Hj'. destruct (Hins d' mp0 H') as (mp1 & H1 & Hc).
    rewrite entry_set_entry by (done || lia). destruct (decide (t' = t /\ j' = j)) as [[-> ->]|Hne].
    + assert ((d', i') = (d, i)) as [= -> ->] by (by eapply D). destruct Hc as [(_ & -> & _)|]; [done|naive_solver].
    + rewrite (F d' mp1 i' t' j' H1 Ht' Hj'). destruct Hc as [(-> & -> & ->)|(_ & ->)]; [|done].
      destruct (C d i' t' Ht') as (_ & Hi2 & _).
      rewrite Hn; [done|]. intros Heq. apply Hne. assert (i' = i /\ j' = j) as [-> ->] by lia. split; [congruence|done].
  - intros d' mp0 n w0 H' Hw0. destruct (Hins d' mp0 H') as (mp1 & H1 & Hc). destruct Hc as [(-> & -> & ->)|(_ & ->)]; [|by eapply G].
    destruct (decide (n = 1024 * i + j)) as [->|Hne].
    + split_and!; try (apply Hw'; done); try lia.
      replace ((1024 * i + j) / 1024) with i by zlia. by rewrite Ht.
    + rewrite Hn in Hw0 by done. by eapply G.
Qed.

(** The memory during a call: what was loose stays as it was. *)
Lemma keeps_refl fl tb ds k : keeps fl tb ds k k.
Proof. by intros u Hu. Qed.

(** ** The walk *)
Lemma load_pde k fl tb ds d mp va : rep k fl tb ds -> ds !! d = Some mp -> 0 <= va < UINT_MOD ->
  load (d + 4 * PDX va) k = Ok (match tb !! (d, PDX va) with Some t => V2P t + 7 | None => 0 end, k).
Proof.
  intros Hr Hd Hv. destruct (vpn_split va Hv) as (_ & Hi & _). destruct (rp_dir _ _ _ _ Hr d mp Hd) as [Hdv _].
  destruct (valid_range d Hdv) as (Ha & Hk & _). rewrite load_entry by done. by rewrite (rp_pde _ _ _ _ Hr d mp).
Qed.

Lemma walk_present k fl tb ds d mp va t alloc : rep k fl tb ds -> ds !! d = Some mp -> 0 <= va < UINT_MOD ->
  tb !! (d, PDX va) = Some t -> walkpgdir d va alloc k = Ok (t + 4 * PTX va, k).
Proof.
  intros Hr Hd Hv Ht. unfold walkpgdir, mbind, M_bind. rewrite (load_pde k fl tb ds d mp va Hr Hd Hv), Ht.
  destruct (rp_tab _ _ _ _ Hr _ _ _ Ht) as (_ & _ & Htv & _). destruct (pde_flags t Htv) as (_ & E1 & E2 & E3).
  rewrite E3. cbn [negb Z.eqb]. by rewrite E1, E2.
Qed.

Lemma walk_absent k fl tb ds d mp va : rep k fl tb ds -> ds !! d = Some mp -> 0 <= va < UINT_MOD ->
  tb !! (d, PDX va) = None -> walkpgdir d va false k = Ok (0, k).
Proof.
  intros Hr Hd Hv Ht. unfold walkpgdir, mbind, M_bind. by rewrite (load_pde k fl tb ds d mp va Hr Hd Hv), Ht.
Qed.

(** What the caller of walkpgdir does with the entry. *)
Lemma pte_access k fl tb ds d mp va t : rep k fl tb ds -> ds !! d = Some mp -> 0 <= va < UINT_MOD ->
  tb !! (d, PDX va) = Some t ->
  t + 4 * PTX va <> 0 /\ load (t + 4 * PTX va) k = Ok (default 0 (mp !! vpn va), k) /\
  (forall w, store (t + 4 * PTX va) w k = Ok (tt, set_entry t (PTX va) w k)).
Proof.
  intros Hr Hd Hv Ht. destruct (vpn_split va Hv) as (<- & Hi & Hj).
  destruct (rp_tab _ _ _ _ Hr _ _ _ Ht) as (_ & _ & Htv & _). destruct (valid_range t Htv) as (Ha & Hk & _).
  split_and!.
  - unfold_layout. lia.
  - rewrite load_entry by done. by rewrite (rp_pte _ _ _ _ Hr d mp (PDX va)).
  - intros w. by apply store_entry.
Qed.

Lemma absent_unmapped k fl tb ds d mp va : rep k fl tb ds -> ds !! d = Some mp -> 0 <= va < UINT_MOD ->
  tb !! (d, PDX va) = None -> mp !! vpn va = None.
Proof.
  intros Hr Hd Hv Ht. destruct (mp !! vpn va) as [w|] eqn:E; [|done].
  destruct (rp_map _ _ _ _ Hr d mp _ _ Hd E) as (_ & Hs & _).
  destruct (vpn_split va Hv) as (Hs' & Hi & Hj). rewrite <-Hs' in Hs.
  replace ((1024 * PDX va + PTX va) / 1024) with (PDX va) in Hs by zlia. rewrite Ht in Hs. by destruct Hs.
Qed.

(** Walking with [alloc]: a missing table takes the first free page. *)
Lemma walk_alloc k fl tb ds d mp va : rep k fl tb ds -> ds !! d = Some mp -> 0 <= va < UINT_MOD ->
  (fl = [] /\ tb !! (d, PDX va) = None /\ walkpgdir d va true k = Ok (0, k)) \/
  exists t k' fl' tb', walkpgdir d va true k = Ok (t + 4 * PTX va, k') /\ rep k' fl' tb' ds /\
    tb' !! (d, PDX va) = Some t /\ keeps fl tb ds k k' /\
    (fl' = fl /\ tb' = tb \/ fl = t :: fl' /\ tb !! (d, PDX va) = None /\ tb' = <[(d, PDX va) := t]> tb).
Proof.
  intros Hr Hd Hv. destruct (tb !! (d, PDX va)) as [t|] eqn:Ht.
  { right. exists t, k, fl, tb. split_and!; [by eapply walk_present|done|done|by intros ?|by left]. }
  destruct fl as [|v fl].
  { left. split_and!; [done|done|]. unfold walkpgdir, mbind, M_bind.
    rewrite (load_pde k [] tb ds d mp va Hr Hd Hv), Ht. change (Z.land 0 PTE_P =? 0) with true. cbn [negb].
    by rewrite (rep_kalloc_nil k tb ds Hr). }
  right. destruct (rep_kalloc k v fl tb ds Hr) as (k1 & Hk & Hm & Hr1 & Hl & Hval).
  destruct (valid_range v Hval) as (Ha & Hkr & H0 & _). destruct (vpn_split va Hv) as (_ & Hi & Hj).
  destruct (rp_dir _ _ _ _ Hr1 d mp Hd) as [Hdv Hdf]. destruct (valid_range d Hdv) as (Hda & Hdk & _).
  assert (d <> v) as Hdv' by (intros ->; destruct Hl as (_ & ? & _); congruence).
  set (k2 := setp v (replicate 1024 0) k1).
  assert (rep k2 fl tb ds) as Hr2 by (apply rep_setp; [done|done|apply length_replicate]).
  set (k3 := set_entry d (PDX va) (V2P v + 7) k2).
  exists v, k3, fl, (<[(d, PDX va) := v]> tb). split_and!.
  - unfold walkpgdir, mbind, M_bind. rewrite (load_pde k (v :: fl) tb ds d mp va Hr Hd Hv), Ht.
    change (Z.land 0 PTE_P =? 0) with true. cbn [negb]. rewrite Hk. rewrite (proj2 (Z.eqb_neq _ _)) by done. unfold memset_page. rewrite mapped_kva_true by done.
    replace (replicate 1024 (byte4 (Z.land 0 255))) with (replicate 1024 0) by reflexivity. unfold modify. fold k2.
    rewrite store_entry by done. by rewrite (proj1 (pde_flags v Hval)).
  - destruct Hl as (Hl1 & Hl2 & Hl3). pose proof (rp_free _ _ _ _ Hr2) as Hok. pose proof (fo_wf _ _ Hok) as Hwf.
    destruct Hr2 as [A B C D E F G]. split.
    + apply (free_ok_ext k2); [by apply wf_set_entry|done| |done]. intros u Hu. unfold k3, set_entry.
      rewrite page_setp, decide_False; [done|]. by intros ->.
    + done.
    + intros d' i' t' [[[= <- <-] <-]|[Hne Ht']]%lookup_insert_Some; [|by apply (C d' i')]. by split_and!; try lia.
    + intros p q t' [[<- <-]|[Hne1 H1]]%lookup_insert_Some [[<- ?]|[Hne2 H2]]%lookup_insert_Some;
        [done|by destruct (Hl3 q)|subst t'; by destruct (Hl3 p)|by eapply D].
    + intros d' mp' i' Hd' Hi'. unfold k3. rewrite entry_set_entry by (done || lia).
      destruct (decide (d' = d /\ i' = PDX va)) as [[-> ->]|Hne]; [by rewrite lookup_insert_eq|].
      rewrite lookup_insert_ne by (intros Heq; injection Heq; naive_solver). by apply (E d' mp').
    + intros d' mp' i' t' j Hd' [[[= <- <-] <-]|[Hne Ht']]%lookup_insert_Some Hj'; unfold k3;
        rewrite entry_set_entry by (done || lia).
      * rewrite decide_False by naive_solver. unfold k2. rewrite (entry_replicate _ _ 0); [|by rewrite page_setp, decide_True|done].
        assert (mp' = mp) as -> by congruence. destruct (mp !! _) as [w|] eqn:Ew; [|done]. destruct (G d mp _ w Hd Ew) as (_ & Hs & _).
        replace ((1024 * PDX va + j) / 1024) with (PDX va) in Hs by zlia. rewrite Ht in Hs. by destruct Hs.
      * rewrite decide_False; [by apply (F d' mp')|]. intros [-> _]. destruct (C d' i' d Ht') as (_&_&_&_&?). congruence.
    + intros d' mp' n w Hd' Hw. destruct (G d' mp' n w Hd' Hw) as (Hn & Hs & Hw'). split_and!; try done; try lia.
      destruct (decide ((d', n / 1024) = (d, PDX va))) as [->|]; [by rewrite lookup_insert_eq|by rewrite lookup_insert_ne].
  - by rewrite lookup_insert_eq.
  - intros u (Hu1 & Hu2 & Hu3). unfold k3, set_entry. rewrite page_setp, decide_False by congruence.
    unfold k2. rewrite page_setp, decide_False by set_solver. unfold page. by rewrite Hm.
  - by right.
Qed.
End rep.

(** ** mappages *)

(** [cnt] pages from page number [n] on, mapped to the frames from [pa] on. *)
Fixpoint map_range (cnt : nat) (mp : gmap Z Z) (n pa perm : Z) : gmap Z Z :=
  match cnt with
  | O => mp
  | S cnt' => map_range cnt' (<[n := or_flags pa perm]> mp) (n + 1) (pa + PGSIZE) perm
  end.

Lemma lookup_map_range cnt mp n pa perm x :
  map_range cnt mp n pa perm !! x =
  if decide (n <= x < n + Z.of_nat cnt) then Some (or_flags (pa + PGSIZE * (x - n)) perm) else mp !! x.
Proof.
  revert mp n pa. induction cnt as [|cnt IH]; intros mp n pa; cbn [map_range].
  { by rewrite decide_False by lia. }
  rewrite IH. destruct (decide (n + 1 <= x < n + 1 + Z.of_nat cnt)).
  - rewrite decide_True by lia. do 2 f_equal. unfold_layout. lia.
  - destruct (decide (x = n)) as [->|Hne].
    + rewrite lookup_insert_eq, decide_True by lia. do 2 f_equal. lia.
    + rewrite lookup_insert_ne, decide_False by lia. done.
Qed.

Lemma or_flags_add pa perm : pa mod PGSIZE = 0 -> 0 <= perm < 4096 ->
  or_flags pa perm = pa + (perm + 1 - perm mod 2).
Proof.
  intros Ha Hp. unfold or_flags. rewrite <-Z.lor_assoc.
  assert (Z.lor perm PTE_P = perm + 1 - perm mod 2) as E.
  { pose proof (Z.add_lor_land perm PTE_P) as Hl. rewrite land_1 in Hl. unfold PTE_P in *. lia. }
  rewrite E. apply (lor_add_low _ _ 12); [done|done|]. assert (perm mod 2 = 0 \/ perm mod 2 = 1) by zlia.
  assert (perm = 4095 -> perm mod 2 = 1) by (by intros ->). lia.
Qed.

Lemma or_flags_ok pa perm : pa mod PGSIZE = 0 -> 0 <= pa < UINT_MOD -> 0 <= perm < 4096 ->
  or_flags pa perm mod 2 = 1 /\ 0 <= or_flags pa perm < UINT_MOD /\
  PTE_ADDR (or_flags pa perm) = pa /\ PTE_FLAGS (or_flags pa perm) = perm + 1 - perm mod 2.
Proof.
  intros Ha Hpa Hp. rewrite or_flags_add, PTE_ADDR_mod, PTE_FLAGS_mod by done.
  assert (0 <= perm + 1 - perm mod 2 < 4096) by (assert (perm = 4095 -> perm mod 2 = 1) by (by intros ->); zlia).
  unfold_layout. unfold_bounds. split_and!; zlia.
Qed.

Section mappages.
Context `{Linker}.

(** Pages only move from the free list to new tables. *)
Record grows (fl : list Z) (tb : gmap (Z * Z) Z) (fl' : list Z) (tb' : gmap (Z * Z) Z) : Prop := {
  gr_managed : forall u, (u ∈ fl' \/ exists p, tb' !! p = Some u) <-> (u ∈ fl \/ exists p, tb !! p = Some u);
  gr_old : tb ⊆ tb'
}.

Lemma grows_refl fl tb : grows fl tb fl tb.
Proof. by split. Qed.

Lemma grows_trans fl tb fl' tb' fl'' tb'' : grows fl tb fl' tb' -> grows fl' tb' fl'' tb'' -> grows fl tb fl'' tb''.
Proof. intros [H1 S1] [H2 S2]. split; [|by etrans]. intros u. by rewrite H2, H1. Qed.

Lemma loose_grows fl tb fl' tb' ds u : grows fl tb fl' tb' -> loose fl' tb' ds u <-> loose fl tb ds u.
Proof. intros [H1 _]. specialize (H1 u). unfold loose. naive_solver. Qed.

Lemma loose_insert fl tb ds d mp mp' u : ds !! d = Some mp -> loose fl tb (<[d := mp']> ds) u <-> loose fl tb ds u.
Proof.
  intros Hd. unfold loose. destruct (decide (u = d)) as [->|Hne].
  - rewrite lookup_insert_eq, Hd. naive_solver.
  - by rewrite lookup_insert_ne.
Qed.

Lemma walk_alloc_grows k fl tb ds d mp va : rep k fl tb ds -> ds !! d = Some mp -> 0 <= va < UINT_MOD ->
  (fl = [] /\ walkpgdir d va true k = Ok (0, k)) \/
  exists t k' fl' tb', walkpgdir d va true k = Ok (t + 4 * PTX va, k') /\ rep k' fl' tb' ds /\
    tb' !! (d, PDX va) = Some t /\ keeps fl tb ds k k' /\ grows fl tb fl' tb'.
Proof.
  intros Hr Hd Hv. destruct (walk_alloc k fl tb ds d mp va Hr Hd Hv) as [(H1 & _ & H2)|(t & k' & fl' & tb' & Hw & Hr' & Ht & Hk & Hc)];
    [by left|right]. exists t, k', fl', tb'. split_and!; try done.
  destruct Hc as [[-> ->]|(-> & Hn & ->)]; [apply grows_refl|]. split; [|by apply insert_subseteq].
  intros u. rewrite elem_of_cons. split.
  - intros [Hu|[p [[_ <-]|[_ Hp]]%lookup_insert_Some]]; [by left; right|by left; left|by right; exists p].
  - intros [[->|Hu]|[p Hp]]; [right; exists (d, PDX va); by rewrite lookup_insert_eq|by left|].
    right. exists p. rewrite lookup_insert_ne; [done|]. intros <-. congruence.
Qed.

Lemma mappages_loop_ok fuel k fl tb ds d mp a last pa perm n :
  rep k fl tb ds -> ds !! d = Some mp ->
  a mod PGSIZE = 0 -> 0 <= a -> last = a + PGSIZE * Z.of_nat n -> last < UINT_MOD -> (n < fuel)%nat ->
  pa mod PGSIZE = 0 -> 0 <= pa -> pa + PGSIZE * Z.of_nat n < UINT_MOD -> 0 <= perm < 4096 ->
  (forall x, vpn a <= x <= vpn last -> mp !! x = None) ->
  exists r k' fl' tb' cnt, mappages_loop fuel d a last pa perm k = Ok (r, k') /\
    rep k' fl' tb' (<[d := map_range cnt mp (vpn a) pa perm]> ds) /\
    keeps fl tb ds k k' /\ grows fl tb fl' tb' /\
    (r = 0 /\ cnt = S n \/ r = -1 /\ fl' = [] /\ (cnt <= n)%nat /\ (cnt = 0%nat -> k' = k /\ fl = [])).
Proof.
  revert k fl tb ds mp a pa n. induction fuel as [|fuel IH]; intros k fl tb ds mp a pa n Hr Hd Ha Ha0 Hl Hlm Hf Hp Hp0 Hpm Hperm Hun; [lia|].
  cbn [mappages_loop].
  destruct (walk_alloc_grows k fl tb ds d mp a Hr Hd ltac:(unfold_layout; lia))
    as [(-> & Hw)|(t & k1 & fl1 & tb1 & Hw & Hr1 & Ht & Hk1 & Hg1)].
  { exists (-1), k, [], tb, 0%nat. rewrite (bind_Ok _ _ _ _ _ Hw). split_and!; [done| |by intros ?|apply grows_refl|right; split_and!; [done|done|lia|done]].
    cbn [map_range]. by rewrite insert_id. }
  rewrite (bind_Ok _ _ _ _ _ Hw).
  destruct (pte_access k1 fl1 tb1 ds d mp a t Hr1 Hd ltac:(unfold_layout; lia) Ht) as (Hnz & Hld & Hst).
  rewrite (proj2 (Z.eqb_neq _ _) Hnz), (bind_Ok _ _ _ _ _ Hld), (Hun (vpn a)) by (unfold vpn; unfold_layout; zlia).
  cbn [default]. change (Z.land 0 PTE_P =? 0) with true. cbn [negb]. rewrite (bind_Ok _ _ _ _ _ (Hst _)).
  destruct (or_flags_ok pa perm Hp ltac:(unfold_layout; lia) Hperm) as (Ho1 & Ho2 & _).
  destruct (vpn_split a ltac:(unfold_layout; lia)) as (Hs & Hi & Hj).
  set (k2 := set_entry t (PTX a) (or_flags pa perm) k1).
  set (mp2 := <[vpn a := or_flags pa perm]> mp).
  assert (rep k2 fl1 tb1 (<[d := mp2]> ds)) as Hr2.
  { eapply rep_set_pte; [exact Hr1|done|done|done|rewrite Hs; unfold mp2; by rewrite lookup_insert_eq|..].
    - intros x Hx. unfold mp2. rewrite lookup_insert_ne; [done|lia].
    - rewrite Hs. unfold mp2. rewrite lookup_insert_eq. by intros w' [= <-]. }
  assert (keeps fl tb ds k k2) as Hk2.
  { intros u Hu. unfold k2, set_entry. rewrite page_setp, decide_False; [by apply Hk1|]. intros ->.
    apply (loose_grows _ _ _ _ _ _ Hg1) in Hu as (_ & _ & H3). by apply (H3 (d, PDX a)). }
  destruct (Z.eqb_spec a last) as [->|Hne].
  { assert (n = 0%nat) as -> by (unfold_layout; lia). exists 0, k2, fl1, tb1, 1%nat. split_and!; try done. by left. }
  destruct n as [|n]; [unfold_layout; lia|].
  assert (a + PGSIZE < UINT_MOD /\ pa + PGSIZE < UINT_MOD) as [Hb1 Hb2] by (unfold_layout; lia).
  rewrite !u32_id by (unfold_layout; lia).
  destruct (IH k2 fl1 tb1 (<[d := mp2]> ds) mp2 (a + PGSIZE) (pa + PGSIZE) n) as (r & k' & fl' & tb' & cnt & H1 & H2 & H3 & H4 & H5);
    try done; try (unfold_layout; first [lia|zlia]).
  { by rewrite lookup_insert_eq. }
  { intros x Hx. unfold mp2. rewrite lookup_insert_ne; [apply Hun|]; unfold vpn in *; unfold_layout; zlia. }
  exists r, k', fl', tb', (S cnt). split_and!; [done| | |by eapply grows_trans|].
  - rewrite insert_insert_eq in H2. cbn [map_range]. fold mp2. replace (vpn a + 1) with (vpn (a + PGSIZE)); [done|].
    unfold vpn. unfold_layout. zlia.
  - intros u Hu. rewrite H3; [by apply Hk2|]. rewrite (loose_insert _ _ ds d mp) by done. by apply (loose_grows _ _ _ _ _ _ Hg1).
  - destruct H5 as [[-> ->]|(-> & -> & Hc & _)]; [by left|right; split_and!; [done|done|lia|done]].
Qed.
End mappages.

(** ** User pages: deallocuvm, allocuvm *)

(** The kernel address of the page an entry points to. *)
Definition upage (w : Z) : Z := P2V (PTE_ADDR w).

(** [mp] without the pages from number [lo] that start below [hi]. *)
Definition unmap (lo hi : Z) (mp : gmap Z Z) : gmap Z Z :=
  filter (fun p => ~ (lo <= p.1 /\ p.1 * PGSIZE < hi)) mp.

Lemma lookup_unmap lo hi mp n :
  unmap lo hi mp !! n = if decide (lo <= n /\ n * PGSIZE < hi) then None else mp !! n.
Proof.
  unfold unmap. destruct (decide (lo <= n /\ n * PGSIZE < hi)) as [Hin|Hout].
  - apply map_lookup_filter_None. right. intros x _ Hx. by apply Hx.
  - destruct (mp !! n) as [w|] eqn:E.
    + apply map_lookup_filter_Some. by split.
    + apply map_lookup_filter_None. by left.
Qed.

Lemma unmap_skip lo lo' hi mp : lo <= lo' -> (forall n, lo <= n < lo' -> mp !! n = None) -> unmap lo hi mp = unmap lo' hi mp.
Proof.
  intros Hl Hn. apply map_eq. intros n. rewrite !lookup_unmap.
  destruct (decide (lo <= n /\ n * PGSIZE < hi)), (decide (lo' <= n /\ n * PGSIZE < hi)); try done.
  - symmetry. apply Hn. lia.
  - lia.
Qed.

Lemma unmap_empty lo hi mp : hi <= lo * PGSIZE -> unmap lo hi mp = mp.
Proof.
  intros Hh. apply map_eq. intros n. rewrite lookup_unmap, decide_False; [done|]. unfold_layout. lia.
Qed.

Lemma unmap_delete lo hi mp : lo * PGSIZE < hi -> unmap (lo + 1) hi (delete lo mp) = unmap lo hi mp.
Proof.
  intros Hl. apply map_eq. intros n. rewrite !lookup_unmap. destruct (decide (n = lo)) as [->|Hne].
  - rewrite lookup_delete_eq, (decide_True (P := lo <= lo /\ _)) by lia. by case_decide.
  - rewrite lookup_delete_ne by done.
    destruct (decide (lo <= n /\ n * PGSIZE < hi)), (decide (lo + 1 <= n /\ n * PGSIZE < hi)); (done || lia).
Qed.

Section user.
Context `{Linker}.

(** The pages that [mp] maps at the numbers in [P] are valid pages outside the
    free list, the tables and the directories, and no page has two numbers. *)
Record owned (fl : list Z) (tb : gmap (Z * Z) Z) (ds : gmap Z (gmap Z Z)) (mp : gmap Z Z) (P : Z -> Prop) : Prop := {
  ow_loose : forall n w, P n -> mp !! n = Some w -> valid (upage w) /\ loose fl tb ds (upage w);
  ow_inj : forall n n' w w', P n -> P n' -> mp !! n = Some w -> mp !! n' = Some w' -> upage w = upage w' -> n = n'
}.

Lemma owned_weaken fl tb ds mp (P Q : Z -> Prop) : (forall n, Q n -> P n) -> owned fl tb ds mp P -> owned fl tb ds mp Q.
Proof. intros HPQ [A B]. split; intros; [eapply A|eapply B]; eauto. Qed.

Lemma upage_pa w u : valid u -> upage w = u -> PTE_ADDR w <> 0.
Proof.
  intros Hu Hw H0. unfold upage in Hw. rewrite H0 in Hw. destruct (valid_range u Hu) as (_ & _ & _ & Hk). by rewrite <-Hw in Hk.
Qed.

Lemma deallocuvm_loop_ok fuel k fl tb ds d mp a oldsz :
  rep k fl tb ds -> ds !! d = Some mp -> a mod PGSIZE = 0 -> 0 <= a -> oldsz <= KERNBASE -> a <= KERNBASE ->
  oldsz - a <= PGSIZE * Z.of_nat fuel ->
  owned fl tb ds mp (fun n => vpn a <= n /\ n * PGSIZE < oldsz) ->
  exists k' fr, deallocuvm_loop fuel d a oldsz k = Ok (tt, k') /\
    rep k' (fr ++ fl) tb (<[d := unmap (vpn a) oldsz mp]> ds) /\
    (forall u, u ∈ fr <-> exists n w, (vpn a <= n /\ n * PGSIZE < oldsz) /\ mp !! n = Some w /\ u = upage w) /\
    (forall u, loose fl tb ds u -> u ∉ fr -> page k' u = page k u).
Proof.
  revert k fl ds mp a. induction fuel as [|fuel IH]; intros k fl ds mp a Hr Hd Ha Ha0 Ho Hak Hf Hown.
  { cbn [deallocuvm_loop]. rewrite (proj2 (Z.ltb_ge _ _)) by (unfold_layout; lia). cbn [negb].
    exists k, []. split_and!; [done| | |done].
    - rewrite unmap_empty by (unfold vpn; unfold_layout; zlia). by rewrite insert_id.
    - intros u. split; [by intros ?%elem_of_nil|]. intros (n & w & Hn & _). unfold vpn in Hn. unfold_layout. zlia. }
  cbn [deallocuvm_loop]. destruct (Z.ltb_spec a oldsz) as [Hlt|Hge]; cbn [negb].
  2:{ exists k, []. split_and!; [done| | |done].
    - rewrite unmap_empty by (unfold vpn; unfold_layout; zlia). by rewrite insert_id.
    - intros u. split; [by intros ?%elem_of_nil|]. intros (n & w & Hn & _). unfold vpn in Hn. unfold_layout. zlia. }
  assert (0 <= a < UINT_MOD) as Hab by (unfold_layout; unfold_bounds; lia).
  destruct (vpn_split a Hab) as (Hs & Hi & Hj).
  (* the next address to look at, when the pages before it are unmapped *)
  assert (forall a', a' mod PGSIZE = 0 -> a + PGSIZE <= a' <= KERNBASE + PGSIZE -> (forall n, vpn a <= n < vpn a' -> mp !! n = None) ->
    a' <= KERNBASE ->
    exists k' fr, deallocuvm_loop fuel d a' oldsz k = Ok (tt, k') /\
    rep k' (fr ++ fl) tb (<[d := unmap (vpn a) oldsz mp]> ds) /\
    (forall u, u ∈ fr <-> exists n w, (vpn a <= n /\ n * PGSIZE < oldsz) /\ mp !! n = Some w /\ u = upage w) /\
    (forall u, loose fl tb ds u -> u ∉ fr -> page k' u = page k u)) as Hskip.
  { intros a' Ha' Hb' Hn Hk'. assert (vpn a <= vpn a') as Hva by (unfold vpn; unfold_layout; zlia).
    destruct (IH k fl ds mp a' Hr Hd Ha' ltac:(unfold_layout; lia) Ho Hk') as (k' & fr & H1 & H2 & H3 & H4); [unfold_layout; lia| |].
    { eapply owned_weaken; [|exact Hown]. intros n Hn'. cbn in *. lia. }
    exists k', fr. split_and!; [done| | |done].
    - by rewrite (unmap_skip _ (vpn a')).
    - intros u. rewrite H3. split; intros (n & w & Hn1 & Hn2 & Hn3).
      + exists n, w. split_and!; [lia|lia|done|done].
      + exists n, w. split_and!; [|lia|done|done]. destruct (decide (n < vpn a')); [|lia]. rewrite Hn in Hn2 by lia. done. }
  destruct (tb !! (d, PDX a)) as [t|] eqn:Ht.
  - rewrite (bind_Ok _ _ _ _ _ (walk_present k fl tb ds d mp a t false Hr Hd Hab Ht)).
    destruct (pte_access k fl tb ds d mp a t Hr Hd Hab Ht) as (Hnz & Hld & Hst).
    rewrite (proj2 (Z.eqb_neq _ _) Hnz), (bind_Ok _ _ _ _ _ Hld), u32_id by (unfold_layout; unfold_bounds; lia).
    destruct (mp !! vpn a) as [w|] eqn:Ew; cbn [from_option id].
    2:{ change (Z.land 0 PTE_P =? 0) with true. cbn [negb]. apply Hskip; try (unfold_layout; zlia).
        intros n Hn. replace n with (vpn a); [done|]. unfold vpn in *. unfold_layout. zlia. }
    destruct (rp_map _ _ _ _ Hr d mp _ w Hd Ew) as (Hn & _ & Hodd & Hwr).
    rewrite land_1, Hodd. change (1 =? 0) with false. cbv beta iota.
    assert (vpn a <= vpn a /\ vpn a * PGSIZE < oldsz) as Hin by (unfold vpn; unfold_layout; zlia).
    destruct (ow_loose _ _ _ _ _ Hown _ w Hin Ew) as [Hval Hloose].
    rewrite (proj2 (Z.eqb_neq _ _)) by (by apply (upage_pa w (upage w))).
    destruct (rep_kfree k fl tb ds (upage w) Hr Hval Hloose) as [Hkf Hr1].
    fold (upage w). rewrite (bind_Ok _ _ _ _ _ Hkf).
    destruct (pte_access _ _ tb ds d mp a t Hr1 Hd Hab Ht) as (_ & _ & Hst1). rewrite (bind_Ok _ _ _ _ _ (Hst1 0)).
    set (k2 := set_entry t (PTX a) 0 (freed (upage w) k)). set (mp2 := delete (vpn a) mp).
    assert (rep k2 (upage w :: fl) tb (<[d := mp2]> ds)) as Hr2.
    { eapply rep_set_pte; [exact Hr1|done|done|done|..]; rewrite ?Hs; unfold mp2.
      - by rewrite lookup_delete_eq.
      - intros n' Hn'. by rewrite lookup_delete_ne.
      - by rewrite lookup_delete_eq. }
    destruct (IH k2 (upage w :: fl) (<[d := mp2]> ds) mp2 (a + PGSIZE) Hr2) as (k' & fr & H1 & H2 & H3 & H4);
      [by rewrite lookup_insert_eq|unfold_layout; zlia|unfold_layout; lia|done|unfold_layout; zlia|unfold_layout; lia| |].
    { split.
      - intros n w' Hn' Hw'. unfold mp2 in Hw'. apply lookup_delete_Some in Hw' as [Hne Hw'].
        assert (vpn a <= n /\ n * PGSIZE < oldsz) as Hn2 by (unfold vpn in *; unfold_layout; zlia).
        destruct (ow_loose _ _ _ _ _ Hown n w' Hn2 Hw') as [Hv' Hl']. split; [done|].
        rewrite (loose_insert _ _ ds d mp) by done. destruct Hl' as (L1 & L2 & L3). split_and!; [|done|done].
        apply not_elem_of_cons. split; [|done]. intros Heq. apply Hne. by apply (ow_inj _ _ _ _ _ Hown _ _ w w').
      - intros n n' w1 w2 Hn1 Hn2 Hw1 Hw2. unfold mp2 in *. apply lookup_delete_Some in Hw1 as [_ Hw1], Hw2 as [_ Hw2].
        apply (ow_inj _ _ _ _ _ Hown n n' w1 w2); unfold vpn in *; unfold_layout; try done; zlia. }
    assert (vpn (a + PGSIZE) = vpn a + 1) as Hvs by (unfold vpn; unfold_layout; zlia). rewrite Hvs in *.
    exists k', (fr ++ [upage w]). split_and!; [done| | |].
    + rewrite insert_insert_eq in H2. unfold mp2 in H2. rewrite unmap_delete in H2 by lia. by rewrite <-app_assoc.
    + intros u. rewrite elem_of_app, list_elem_of_singleton, H3. unfold mp2. split.
      * intros [(n & w' & Hn1 & Hn2 & Hn3)| ->].
        -- apply lookup_delete_Some in Hn2 as [_ Hn2]. exists n, w'. split_and!; [lia|lia|done|done].
        -- exists (vpn a), w. by split_and!; try lia.
      * intros (n & w' & Hn1 & Hn2 & Hn3). destruct (decide (n = vpn a)) as [->|Hne].
        -- right. congruence.
        -- left. exists n, w'. split_and!; [lia|lia|by rewrite lookup_delete_ne|done].
    + intros u Hu Hnu. rewrite elem_of_app, list_elem_of_singleton in Hnu.
      rewrite H4; [|rewrite (loose_insert _ _ ds d mp) by done; destruct Hu as (L1 & L2 & L3); split_and!; [set_solver|done|done]|tauto].
      unfold k2, set_entry. rewrite page_setp, decide_False; [apply page_freed; tauto|].
      intros ->. destruct Hu as (_ & _ & H9). by apply (H9 (d, PDX a)).
  - rewrite (bind_Ok _ _ _ _ _ (walk_absent k fl tb ds d mp a Hr Hd Hab Ht)). change (0 =? 0) with true. cbv beta iota.
    rewrite PDX_div in * by done.
    assert (0 <= a / 4194304 + 1 <= 512) as Hpd by (unfold_layout; zlia).
    rewrite PGADDR_add by lia. rewrite (u32_id (_ - PGSIZE)) by (unfold_layout; unfold_bounds; lia).
    rewrite u32_id by (unfold_layout; unfold_bounds; lia).
    apply Hskip; try (unfold_layout; zlia).
    intros n Hn. destruct (mp !! n) as [w|] eqn:Ew; [|done]. destruct (rp_map _ _ _ _ Hr d mp n w Hd Ew) as (_ & Hsome & _).
    replace (n / 1024) with (a / 4194304) in Hsome by (unfold vpn in *; unfold_layout; zlia).
    rewrite Ht in Hsome. by destruct Hsome.
Qed.
End user.

Section grow.
Context `{Linker}.

(** Mapping one page. *)
Lemma mappages_one k fl tb ds d mp va pa perm :
  rep k fl tb ds -> ds !! d = Some mp -> va mod PGSIZE = 0 -> 0 <= va < UINT_MOD ->
  pa mod PGSIZE = 0 -> 0 <= pa < UINT_MOD -> 0 <= perm < 4096 -> mp !! vpn va = None ->
  (mappages d va PGSIZE pa perm k = Ok (-1, k) /\ fl = []) \/
  exists k' fl' tb', mappages d va PGSIZE pa perm k = Ok (0, k') /\
    rep k' fl' tb' (<[d := <[vpn va := or_flags pa perm]> mp]> ds) /\ keeps fl tb ds k k' /\ grows fl tb fl' tb'.
Proof.
  intros Hr Hd Hva Hvr Hpa Hpr Hperm Hun.
  assert (PGROUNDDOWN va = va /\ PGROUNDDOWN (u32 (va + PGSIZE - 1)) = va) as [E1 E2].
  { rewrite u32_id by (unfold_layout; unfold_bounds; zlia). rewrite !PGROUNDDOWN_mod. unfold_layout. zlia. }
  unfold mappages. rewrite E1, E2, Z.sub_diag. change (Z.to_nat (u32 0 / PGSIZE)) with 0%nat.
  destruct (mappages_loop_ok 1 k fl tb ds d mp va va pa perm 0) as (r & k' & fl' & tb' & cnt & H1 & H2 & H3 & H4 & H5);
    try done; try (unfold_layout; lia).
  { intros x Hx. by replace x with (vpn va) by lia. }
  destruct H5 as [[-> ->]|(-> & -> & Hcnt & Hk)].
  - right. exists k', fl', tb'. by split_and!.
  - left. destruct Hk as [-> ->]; [lia|done].
Qed.

(** deallocuvm removes the pages from [newsz] up and gives them back. *)
Lemma deallocuvm_ok k fl tb ds d mp oldsz newsz :
  rep k fl tb ds -> ds !! d = Some mp -> 0 <= newsz < oldsz -> oldsz <= KERNBASE ->
  owned fl tb ds mp (fun n => vpn (PGROUNDUP newsz) <= n /\ n * PGSIZE < oldsz) ->
  exists k' fr, deallocuvm d oldsz newsz k = Ok (newsz, k') /\
    rep k' (fr ++ fl) tb (<[d := unmap (vpn (PGROUNDUP newsz)) oldsz mp]> ds) /\
    (forall u, u ∈ fr <-> exists n w, (vpn (PGROUNDUP newsz) <= n /\ n * PGSIZE < oldsz) /\ mp !! n = Some w /\ u = upage w) /\
    (forall u, loose fl tb ds u -> u ∉ fr -> page k' u = page k u).
Proof.
  intros Hr Hd Hn Ho Hown.
  assert (PGROUNDUP newsz mod PGSIZE = 0 /\ newsz <= PGROUNDUP newsz <= KERNBASE) as [Ha Hb].
  { rewrite PGROUNDUP_mod by (unfold_layout; unfold_bounds; lia). unfold_layout. zlia. }
  destruct (deallocuvm_loop_ok (Z.to_nat (oldsz / PGSIZE + 1)) k fl tb ds d mp (PGROUNDUP newsz) oldsz)
    as (k' & fr & H1 & H2 & H3 & H4); try done; try lia; [unfold_layout; zlia|].
  exists k', fr. split_and!; try done. unfold deallocuvm. rewrite (proj2 (Z.leb_gt _ _)) by lia.
  by rewrite (bind_Ok _ _ _ _ _ H1).
Qed.
End grow.

(** ** allocuvm *)
Definition upte (perm u : Z) : Z := or_flags (V2P u) perm.
Definition user_pte : Z -> Z := upte (Z.lor PTE_W PTE_U).

Section allocuvm.
Context `{Linker}.

Lemma upte_ok perm u : valid u -> 0 <= perm < 4096 -> upte perm u mod 2 = 1 /\ 0 <= upte perm u < UINT_MOD /\ upage (upte perm u) = u.
Proof.
  intros Hu Hp. destruct (valid_range u Hu) as (Ha & Hr & _). unfold upte, upage.
  assert (V2P u mod PGSIZE = 0 /\ 0 <= V2P u < UINT_MOD) as [H1 H2]
    by (rewrite V2P_id by (unfold_layout; unfold_bounds; lia); unfold_layout; unfold_bounds; zlia).
  destruct (or_flags_ok (V2P u) perm H1 H2 Hp) as (H3 & H4 & -> & _).
  split_and!; try done; try lia. apply (pde_flags u Hu).
Qed.

Lemma user_pte_ok u : valid u -> user_pte u mod 2 = 1 /\ 0 <= user_pte u < UINT_MOD /\ upage (user_pte u) = u.
Proof. intros Hu. by apply upte_ok. Qed.

(** The pages of [P] are mapped with the permissions [pm n], to pages that
    belong to the directory alone and hold the words [C n]. *)
Record fresh_with (pm : Z -> Z) (C : Z -> list Z) (k : kmem) (fl : list Z) (tb : gmap (Z * Z) Z)
    (ds : gmap Z (gmap Z Z)) (mp : gmap Z Z) (P : Z -> Prop) : Prop := {
  fr_owned : owned fl tb ds mp P;
  fr_perm : forall n, P n -> 0 <= pm n < 4096;
  fr_page : forall n, P n -> exists u, mp !! n = Some (upte (pm n) u) /\ valid u /\ page k u = C n
}.

(** Pages of zeros for the user. *)
Definition fresh := fresh_with (fun _ => Z.lor PTE_W PTE_U) (fun _ => zero_page).

Lemma memset_zero u k : valid u -> memset_page u 0 k = Ok (tt, setp u zero_page k).
Proof.
  intros Hu. destruct (valid_range u Hu) as (_ & Hr & _). unfold memset_page. by rewrite mapped_kva_true.
Qed.

(** The clean-up of allocuvm: the pages allocated so far go back. *)
Lemma undo_alloc k fl tb ds d mp oldsz newsz a :
  rep k fl tb ds -> ds !! d = Some mp -> 0 <= oldsz < newsz -> newsz <= KERNBASE ->
  fresh k fl tb ds mp (fun n => vpn (PGROUNDUP oldsz) <= n < vpn a) ->
  (forall n, vpn a <= n /\ n * PGSIZE < newsz -> mp !! n = None) ->
  exists k' fr, deallocuvm d newsz oldsz k = Ok (oldsz, k') /\
    rep k' (fr ++ fl) tb (<[d := unmap (vpn (PGROUNDUP oldsz)) newsz mp]> ds) /\
    (forall u, loose (fr ++ fl) tb ds u <-> loose fl tb ds u /\
      ~ exists n w, (vpn (PGROUNDUP oldsz) <= n /\ n * PGSIZE < newsz) /\ mp !! n = Some w /\ u = upage w) /\
    (forall u, loose (fr ++ fl) tb ds u -> page k' u = page k u).
Proof.
  intros Hr Hd Ho Hn [Hown _ _] Hun.
  destruct (deallocuvm_ok k fl tb ds d mp newsz oldsz Hr Hd) as (k' & fr & H1 & H2 & H3 & H4); [lia|done| |].
  { assert (forall n w, vpn (PGROUNDUP oldsz) <= n /\ n * PGSIZE < newsz -> mp !! n = Some w -> n < vpn a) as Hlt.
    { intros n w Hn' Hw. destruct (decide (n < vpn a)); [done|]. rewrite Hun in Hw by lia. done. }
    split.
    - intros n w Hn' Hw. pose proof (Hlt n w Hn' Hw). apply (ow_loose _ _ _ _ _ Hown n w); [cbn; lia|done].
    - intros n n' w w' Hn1 Hn2 Hw1 Hw2. pose proof (Hlt n w Hn1 Hw1). pose proof (Hlt n' w' Hn2 Hw2).
      apply (ow_inj _ _ _ _ _ Hown n n' w w'); (done || cbn; lia). }
  exists k', fr. split_and!; [done|done| |].
  - intros u. rewrite <-H3. unfold loose. rewrite not_elem_of_app. tauto.
  - intros u Hu. apply H4; unfold loose in *; rewrite not_elem_of_app in Hu; tauto.
Qed.

Lemma loose_cons m fl tb ds u : loose (m :: fl) tb ds u <-> loose fl tb ds u /\ u <> m.
Proof. unfold loose. rewrite not_elem_of_cons. tauto. Qed.

Lemma fresh_insert pm Ct k fl tb ds d mp0 mp' mp (P Q : Z -> Prop) : ds !! d = Some mp0 -> (forall n, Q n -> P n) ->
  fresh_with pm Ct k fl tb (<[d := mp']> ds) mp P -> fresh_with pm Ct k fl tb ds mp Q.
Proof.
  intros Hd HPQ [[A B] Hpm C]. split; [split| |].
  - intros n w Hn Hw. rewrite <-(loose_insert _ _ ds d mp0 mp') by done. apply (A n w); [by apply HPQ|done].
  - intros n n' w w' Hn Hn'. apply (B n n' w w'); by apply HPQ.
  - intros n Hn. by apply Hpm, HPQ.
  - intros n Hn. by apply C, HPQ.
Qed.

Lemma fresh_weaken pm Ct k fl tb ds mp (P Q : Z -> Prop) : (forall n, Q n -> P n) ->
  fresh_with pm Ct k fl tb ds mp P -> fresh_with pm Ct k fl tb ds mp Q.
Proof.
  intros HPQ [A Hpm C]. split; [by eapply owned_weaken| |]; intros n Hn; [apply Hpm|apply C]; by apply HPQ.
Qed.

(** One more page. *)
Lemma fresh_extend pm Ct k k' fl tb fl' tb' ds mp m (n0 n1 : Z) :
  fresh_with pm Ct k fl tb ds mp (fun n => n0 <= n < n1) -> n0 <= n1 -> valid m -> loose fl tb ds m -> 0 <= pm n1 < 4096 ->
  (forall n, n0 <= n < n1 -> mp !! n <> Some (upte (pm n) m)) ->
  page k m = Ct n1 -> keeps fl tb ds k k' -> grows fl tb fl' tb' ->
  fresh_with pm Ct k' fl' tb' ds (<[n1 := upte (pm n1) m]> mp) (fun n => n0 <= n < n1 + 1).
Proof.
  intros [[A B] Hpm C] Hn Hm Hl Hp1 Hne Hz Hk Hg. destruct (upte_ok (pm n1) m Hm Hp1) as (_ & _ & Hu).
  assert (forall n w, n0 <= n < n1 + 1 -> <[n1 := upte (pm n1) m]> mp !! n = Some w ->
    n = n1 /\ w = upte (pm n1) m \/ n0 <= n < n1 /\ mp !! n = Some w) as Hc.
  { intros n w Hn' Hw. destruct (decide (n = n1)) as [->|]; [rewrite lookup_insert_eq in Hw; simplify_eq; by left|].
    rewrite lookup_insert_ne in Hw by done. right. split; [lia|done]. }
  assert (forall n w, n0 <= n < n1 -> mp !! n = Some w -> upage w <> m) as Hum.
  { intros n w Hn' Hw Heq. destruct (C n Hn') as (u & Hc1 & Hc2 & _). rewrite Hw in Hc1. simplify_eq.
    destruct (upte_ok (pm n) u Hc2 (Hpm n Hn')) as (_ & _ & Hu2). rewrite Hu2 in *. by apply (Hne n). }
  split; [split| |].
  - intros n w Hn' Hw. destruct (Hc n w Hn' Hw) as [[-> ->]|[H1 H2]].
    + rewrite Hu. split; [done|]. by apply (loose_grows _ _ _ _ _ _ Hg).
    + destruct (A n w H1 H2). split; [done|]. by apply (loose_grows _ _ _ _ _ _ Hg).
  - intros n n' w w' Hn1 Hn2 Hw1 Hw2 He. destruct (Hc n w Hn1 Hw1) as [[-> ->]|[H1 H2]], (Hc n' w' Hn2 Hw2) as [[-> ->]|[H3 H4]].
    + done.
    + rewrite Hu in He. by destruct (Hum n' w' H3 H4).
    + rewrite Hu in He. by destruct (Hum n w H1 H2).
    + by apply (B n n' w w').
  - intros n Hn'. destruct (decide (n = n1)) as [->|]; [done|apply Hpm; lia].
  - intros n Hn'. destruct (decide (n = n1)) as [->|].
    + exists m. rewrite lookup_insert_eq, Hk by done. done.
    + rewrite lookup_insert_ne by done. destruct (C n ltac:(lia)) as (u & H1 & H2 & H3). exists u. split_and!; [done|done|].
      destruct (A n _ ltac:(lia) H1) as [_ H4]. rewrite (proj2 (proj2 (upte_ok (pm n) u H2 (Hpm n ltac:(lia))))) in H4. by rewrite Hk.
Qed.

Lemma unmap_insert lo hi mp n w : lo <= n -> n * PGSIZE < hi -> unmap lo hi (<[n := w]> mp) = unmap lo hi mp.
Proof.
  intros H1 H2. apply map_eq. intros x. rewrite !lookup_unmap. case_decide; [done|]. rewrite lookup_insert_ne; [done|].
  intros <-. tauto.
Qed.

Lemma allocuvm_loop_ok fuel k fl tb ds d mp a oldsz newsz :
  rep k fl tb ds -> ds !! d = Some mp -> 0 <= oldsz <= newsz -> newsz <= MMAPBASE ->
  a mod PGSIZE = 0 -> PGROUNDUP oldsz <= a <= KERNBASE -> newsz - a <= PGSIZE * Z.of_nat fuel ->
  fresh k fl tb ds mp (fun n => vpn (PGROUNDUP oldsz) <= n < vpn a) ->
  (forall n, vpn a <= n /\ n * PGSIZE < newsz -> mp !! n = None) ->
  exists r k' fl' tb' mp', allocuvm_loop fuel d a oldsz newsz k = Ok (r, k') /\
    rep k' fl' tb' (<[d := mp']> ds) /\ tb ⊆ tb' /\
    (forall u, loose fl tb ds u -> loose fl' tb' ds u -> page k' u = page k u) /\
    (r = newsz /\ fresh k' fl' tb' ds mp' (fun n => vpn (PGROUNDUP oldsz) <= n < vpn a \/ vpn a <= n /\ n * PGSIZE < newsz) /\
     (forall n, ~ (vpn a <= n /\ n * PGSIZE < newsz) -> mp' !! n = mp !! n) /\
     (forall u, loose fl' tb' ds u <-> loose fl tb ds u \/
        exists n, (vpn a <= n /\ n * PGSIZE < newsz) /\ mp' !! n = Some (user_pte u) /\ valid u) /\
     (forall n u, vpn a <= n /\ n * PGSIZE < newsz -> mp' !! n = Some (user_pte u) -> valid u -> ~ loose fl tb ds u)
    \/
     r = 0 /\ mp' = unmap (vpn (PGROUNDUP oldsz)) newsz mp /\
     (forall u, loose fl' tb' ds u <-> loose fl tb ds u /\
        ~ exists n w, (vpn (PGROUNDUP oldsz) <= n /\ n * PGSIZE < newsz) /\ mp !! n = Some w /\ u = upage w)).
Proof.
  revert k fl tb ds mp a. induction fuel as [|fuel IH]; intros k fl tb ds mp a Hr Hd Ho Hn Ha Hb Hf Hfr Hun;
    cbn [allocuvm_loop]; (destruct (Z.ltb_spec a newsz) as [Hlt|Hge]; cbn [negb]);
    try (exfalso; unfold_layout; lia);
    try (exists newsz, k, fl, tb, mp; split_and!; [done|by rewrite insert_id|done|done|]; left;
      assert (forall n, ~ (vpn a <= n /\ n * PGSIZE < newsz)) as Hno by (intros n; unfold vpn; unfold_layout; zlia);
      split_and!; [done| |done| |];
      [eapply fresh_weaken; [|exact Hfr]; intros n [Hn'|Hn']; [done|by destruct (Hno n)]
      |intros u; split; [by left|]; intros [|(n & Hn' & _)]; [done|by destruct (Hno n)]
      |intros n u Hn'; by destruct (Hno n)]).
  assert (0 <= PGROUNDUP oldsz) as Hlo by (unfold PGROUNDUP; apply Z.land_nonneg; left; apply u32_range).
  assert (0 <= a < UINT_MOD) as Hab by (unfold_layout; unfold_bounds; lia).
  assert (oldsz <= PGROUNDUP oldsz) as Hroll by (rewrite PGROUNDUP_mod by (unfold_layout; unfold_bounds; lia); unfold_layout; zlia).
  assert (vpn (PGROUNDUP oldsz) <= vpn a /\ vpn a * PGSIZE = a /\ vpn (a + PGSIZE) = vpn a + 1) as (Hv1 & Hv2 & Hv3)
    by (unfold vpn; unfold_layout; zlia).
  assert (oldsz < newsz /\ newsz <= KERNBASE) as [Hon Hnk] by (unfold_layout; lia).
  destruct fl as [|m fl].
  { rewrite (bind_Ok _ _ _ _ _ (rep_kalloc_nil k tb ds Hr)). change (0 =? 0) with true. cbv beta iota.
    destruct (undo_alloc k [] tb ds d mp oldsz newsz a Hr Hd ltac:(lia) Hnk Hfr Hun) as (k' & fr & H1 & H2 & H3 & H4).
    rewrite (bind_Ok _ _ _ _ _ H1). exists 0, k', (fr ++ []), tb, (unmap (vpn (PGROUNDUP oldsz)) newsz mp).
    split_and!; try done; [intros u _; apply H4|by right]. }
  destruct (rep_kalloc k m fl tb ds Hr) as (k1 & Hk & Hmem & Hr1 & Hl1 & Hval).
  rewrite (bind_Ok _ _ _ _ _ Hk). destruct (valid_range m Hval) as (Hma & Hmr & Hm0 & _).
  rewrite (proj2 (Z.eqb_neq _ _) Hm0), (bind_Ok _ _ _ _ _ (memset_zero m k1 Hval)).
  set (k2 := setp m zero_page k1).
  assert (rep k2 fl tb ds) as Hr2 by (apply rep_setp; [done|done|apply length_replicate]).
  assert (forall u, u <> m -> page k2 u = page k u) as Hpk.
  { intros u Hu. unfold k2. rewrite page_setp, decide_False by done. unfold page. by rewrite Hmem. }
  assert (forall n w, vpn (PGROUNDUP oldsz) <= n < vpn a -> mp !! n = Some w -> upage w <> m /\ loose fl tb ds (upage w)) as Hum.
  { intros n w Hn' Hw. destruct Hfr as [[A B] _ C]. destruct (A n w Hn' Hw) as [_ A2]. apply loose_cons in A2. tauto. }
  assert (fresh k2 fl tb ds mp (fun n => vpn (PGROUNDUP oldsz) <= n < vpn a)) as Hfr2.
  { destruct Hfr as [[A B] Hpm C]. split; [split; [|done]|done|].
    - intros n w Hn' Hw. split; [by apply (A n w)|by apply (Hum n w)].
    - intros n Hn'. destruct (C n Hn') as (u & C1 & C2 & C3). exists u. split_and!; [done|done|].
      rewrite Hpk; [done|]. intros ->. destruct (Hum n _ Hn' C1) as [Hne _]. by rewrite (proj2 (proj2 (upte_ok (Z.lor PTE_W PTE_U) m C2 ltac:(done)))) in Hne. }
  destruct (user_pte_ok m Hval) as (_ & _ & Hupm).
  destruct (mappages_one k2 fl tb ds d mp a (V2P m) (Z.lor PTE_W PTE_U) Hr2 Hd Ha Hab) as [(Hmp & ->)|(k3 & fl3 & tb3 & Hmp & Hr3 & Hk3 & Hg3)];
    [rewrite V2P_id by (unfold_layout; unfold_bounds; lia); unfold_layout; unfold_bounds; zlia|rewrite V2P_id by (unfold_layout; unfold_bounds; lia); unfold_layout; unfold_bounds; zlia|done|apply Hun; lia|..];
    rewrite (bind_Ok _ _ _ _ _ Hmp).
  - change (-1 <? 0) with true. cbv beta iota.
    destruct (undo_alloc k2 [] tb ds d mp oldsz newsz a Hr2 Hd ltac:(lia) Hnk Hfr2 Hun) as (k' & fr & H1 & H2 & H3 & H4).
    rewrite (bind_Ok _ _ _ _ _ H1).
    assert (loose (fr ++ []) tb ds m) as Hlm.
    { apply H3. split; [done|]. intros (n & w & Hn1 & Hw & ->).
      destruct (decide (n < vpn a)); [by destruct (Hum n w ltac:(lia) Hw)|]. rewrite Hun in Hw by lia. done. }
    destruct (rep_kfree k' (fr ++ []) tb _ m H2 Hval) as [Hkf Hr4]; [by rewrite (loose_insert _ _ ds d mp)|].
    rewrite (bind_Ok _ _ _ _ _ Hkf). exists 0, (freed m k'), (m :: fr ++ []), tb, (unmap (vpn (PGROUNDUP oldsz)) newsz mp).
    split_and!; [done|done|done| |right; split_and!; [done|done|]].
    + intros u _ Hu. apply loose_cons in Hu as [Hu Hne]. by rewrite page_freed, H4, Hpk by done.
    + intros u. rewrite !loose_cons, H3. tauto.
  - change (0 <? 0) with false. cbv beta iota. rewrite u32_id by (unfold_layout; unfold_bounds; lia).
    change (or_flags (V2P m) (Z.lor PTE_W PTE_U)) with (user_pte m) in Hr3. set (mp3 := <[vpn a := user_pte m]> mp) in *.
    assert (mp3 !! vpn a = Some (user_pte m)) as Hmp3 by (unfold mp3; by rewrite lookup_insert_eq).
    assert (forall n, n <> vpn a -> mp3 !! n = mp !! n) as Hmp3n by (intros n Hne; unfold mp3; by rewrite lookup_insert_ne).
    assert (forall u, loose fl3 tb3 (<[d := mp3]> ds) u <-> loose (m :: fl) tb ds u \/ u = m) as Hl3.
    { intros u. rewrite (loose_insert _ _ ds d mp) by done. rewrite (loose_grows _ _ _ _ _ _ Hg3), loose_cons.
      destruct (decide (u = m)) as [->|]; tauto. }
    destruct (IH k3 fl3 tb3 (<[d := mp3]> ds) mp3 (a + PGSIZE)) as (r & k' & fl' & tb' & mp' & H1 & H2 & H3 & H4 & H5);
      try done; try (unfold_layout; first [lia|zlia]).
    { by rewrite lookup_insert_eq. }
    { rewrite Hv3. apply (fresh_insert _ _ _ _ _ _ d mp3 mp _ (fun n => vpn (PGROUNDUP oldsz) <= n < vpn a + 1)); [by rewrite lookup_insert_eq|done|].
      rewrite insert_insert_eq, insert_id by done. eapply (fresh_extend (fun _ => Z.lor PTE_W PTE_U)); try done.
      - intros n Hn' Hw. by destruct (Hum n _ Hn' Hw) as [Hne _].
      - unfold k2. by rewrite page_setp, decide_True. }
    { intros n Hn'. rewrite Hmp3n, Hun; [done|lia|lia]. }
    rewrite Hv3 in *. exists r, k', fl', tb', mp'. rewrite insert_insert_eq in H2.
    split_and!; [done|done|etrans; [apply Hg3|done]| |].
    { intros u Hu Hu'. pose proof Hu as Hu2. apply loose_cons in Hu as [Hu Hne]. rewrite H4, Hk3, Hpk; [done|done|done| |].
      - apply Hl3. by left.
      - by rewrite (loose_insert _ _ ds d mp). }
    destruct H5 as [(-> & H5 & H6 & H7 & H8)|(-> & -> & H5)].
    + left. split_and!; [done| | | |].
      * eapply fresh_insert; [done| |exact H5]. intros n Hn'. cbn in *. lia.
      * intros n Hn'. rewrite H6, Hmp3n; [done|lia|lia].
      * intros u. rewrite <-(loose_insert _ _ ds d mp mp3) by done. rewrite H7, Hl3. split.
        -- intros [[Hu| ->]|(n & Hn' & Hw)]; [by left| |].
           ++ right. exists (vpn a). split_and!; [lia|lia| |done]. rewrite H6 by lia. done.
           ++ right. exists n. split; [lia|done].
        -- intros [Hu|(n & Hn' & Hw & Hvu)]; [by left; left|]. destruct (decide (n = vpn a)) as [->|Hne].
           ++ left. right. rewrite H6 in Hw by lia. rewrite Hmp3 in Hw. injection Hw as Hw.
              destruct (user_pte_ok u Hvu) as (_ & _ & <-). by rewrite <-Hw.
           ++ right. exists n. split; [lia|done].
      * intros n u Hn' Hw Hvu. destruct (decide (n = vpn a)) as [->|Hne].
        -- rewrite H6, Hmp3 in Hw by lia. injection Hw as Hw. destruct (user_pte_ok u Hvu) as (_ & _ & Hu).
           rewrite <-Hw, Hupm in Hu. rewrite loose_cons. naive_solver.
        -- intros Hl. apply (H8 n u ltac:(lia) Hw Hvu). apply Hl3. by left.
    + right. split_and!; [done|unfold mp3; apply unmap_insert; lia|].
      intros u. rewrite <-(loose_insert _ _ ds d mp mp3) by done. rewrite H5, Hl3. split.
      * intros [Hu Hno]. split.
        -- destruct Hu as [|Hu]; [done|]. exfalso. apply Hno. exists (vpn a), (user_pte m). split_and!; [lia|lia|done|congruence].
        -- intros (n & w & Hn' & Hw & Heq). apply Hno. exists n, w. split_and!; [lia|lia| |done].
           destruct (decide (n = vpn a)) as [->|Hne]; [|by rewrite Hmp3n]. rewrite Hun in Hw by lia. done.
      * intros [Hu Hno]. split; [by left|]. intros (n & w & Hn' & Hw & Heq). destruct (decide (n = vpn a)) as [->|Hne].
        -- rewrite Hmp3 in Hw. simplify_eq. rewrite Hupm in Hu. apply loose_cons in Hu. naive_solver.
        -- apply Hno. exists n, w. rewrite Hmp3n in Hw by done. split_and!; [lia|lia|done|done].
Qed.
End allocuvm.

(** ** freevm and setupkvm *)
Section freevm.
Context `{Linker}.

(** Dropping a directory from the abstract state: its page, its tables and the
    pages it maps are then loose. *)
Lemma rep_forget k fl tb ds d mp : rep k fl tb ds -> ds !! d = Some mp ->
  rep k fl (filter (fun p => p.1.1 <> d) tb) (delete d ds).
Proof.
  intros [A B C D E F G] Hd.
  assert (forall p t, filter (fun p : Z * Z * Z => p.1.1 <> d) tb !! p = Some t <-> tb !! p = Some t /\ p.1 <> d) as Hf.
  { intros p t. by rewrite map_lookup_filter_Some. }
  split; try done.
  - intros d' mp' [Hne Hd']%lookup_delete_Some. by apply (B d' mp').
  - intros d' i t [Ht Hne]%Hf. cbn in Hne. destruct (C d' i t Ht) as (H1 & H2 & H3 & H4 & H5).
    split_and!; try done; try lia; [by rewrite lookup_delete_ne|]. by apply lookup_delete_None; right.
  - intros p q t [H1 _]%Hf [H2 _]%Hf. by apply (D p q t).
  - intros d' mp' i [Hne Hd']%lookup_delete_Some Hi. rewrite (E d' mp' i Hd' Hi).
    destruct (tb !! (d', i)) as [t|] eqn:Et.
    + by rewrite (proj2 (Hf (d', i) t)).
    + rewrite (proj2 (map_lookup_filter_None _ _ _)); [done|by left].
  - intros d' mp' i t j [Hne Hd']%lookup_delete_Some [Ht _]%Hf Hj. by apply (F d' mp').
  - intros d' mp' n w [Hne Hd']%lookup_delete_Some Hw. destruct (G d' mp' n w Hd' Hw) as (H1 & [t Ht] & H3).
    split_and!; try done; try lia. exists t. by apply Hf.
Qed.

(** A page is lost when nothing accounts for it any more. *)
Lemma loose_forget k fl tb ds d mp u : rep k fl tb ds -> ds !! d = Some mp ->
  loose fl (filter (fun p => p.1.1 <> d) tb) (delete d ds) u <->
  loose fl tb ds u \/ u = d \/ exists i, tb !! (d, i) = Some u.
Proof.
  intros Hr Hd. split.
  - intros (H1 & H2 & H3). destruct (decide (u = d)) as [->|Hne]; [by right; left|]. rewrite lookup_delete_ne in H2 by done.
    destruct (decide (map_Exists (fun _ t => t = u) tb)) as [([d' i] & t & Hp & ->)|Hno].
    + right. right. exists i. destruct (decide (d' = d)) as [->|Hnd]; [done|]. destruct (H3 (d', i)). by apply map_lookup_filter_Some.
    + left. split_and!; [done|done|]. intros p Hp. apply Hno. by exists p, u.
  - intros [(H1 & H2 & H3)|[->|[i Hi]]].
    + split_and!; [done|by apply lookup_delete_None; right|]. intros p [Hp _]%map_lookup_filter_Some. by apply (H3 p).
    + destruct (rp_dir _ _ _ _ Hr d mp Hd) as [_ Hn]. split_and!; [done|by rewrite lookup_delete_eq|].
      intros [d' i] [Hp _]%map_lookup_filter_Some. destruct (rp_tab _ _ _ _ Hr _ _ _ Hp) as (_&_&_&_&?). congruence.
    + destruct (rp_tab _ _ _ _ Hr _ _ _ Hi) as (_&_&_&Hn&Hds). split_and!; [done|by apply lookup_delete_None; right|].
      intros p [Hp Hne]%map_lookup_filter_Some. pose proof (rp_inj _ _ _ _ Hr _ _ _ Hp Hi) as ->. done.
Qed.

Lemma free_tables_ok n i k fl tb ds d (T : Z -> option Z) :
  rep k fl tb ds -> valid d -> loose fl tb ds d -> 0 <= i -> i + Z.of_nat n <= 1024 ->
  (forall j, i <= j < i + Z.of_nat n -> entry k d j = match T j with Some t => V2P t + 7 | None => 0 end) ->
  (forall j t, i <= j < i + Z.of_nat n -> T j = Some t -> valid t /\ loose fl tb ds t /\ t <> d) ->
  (forall j j' t, T j = Some t -> T j' = Some t -> j = j') ->
  exists k' fr, free_tables n d i k = Ok (tt, k') /\ rep k' (fr ++ fl) tb ds /\
    (forall u, u ∈ fr <-> exists j, i <= j < i + Z.of_nat n /\ T j = Some u) /\
    (forall u, loose fl tb ds u -> u ∉ fr -> page k' u = page k u).
Proof.
  revert i k fl. induction n as [|n IH]; intros i k fl Hr Hdv Hdl Hi Hn HE HT Hinj; cbn [free_tables].
  { exists k, []. split_and!; [done|done| |done]. intros u. split; [by intros ?%elem_of_nil|]. intros (j & ? & _). lia. }
  destruct (valid_range d Hdv) as (Hda & Hdr & _).
  rewrite (bind_Ok _ _ _ _ _ (load_entry k d i Hda Hdr ltac:(lia))), HE by lia.
  destruct (T i) as [t|] eqn:Et.
  - destruct (HT i t ltac:(lia) Et) as (Htv & Htl & Htd). destruct (pde_flags t Htv) as (_ & E1 & E2 & E3).
    rewrite E3, E1, E2. change (negb (1 =? 0)) with true. cbv beta iota.
    destruct (rep_kfree k fl tb ds t Hr Htv Htl) as [Hk Hr1]. rewrite (bind_Ok _ _ _ _ _ Hk).
    destruct (IH (i + 1) (freed t k) (t :: fl)) as (k' & fr & H1 & H2 & H3 & H4); try done; try lia.
    + apply loose_cons. split; [done|]. by intros ->.
    + intros j Hj. rewrite <-HE by lia. apply entry_ext, page_freed. done.
    + intros j t' Hj Ht'. destruct (HT j t' ltac:(lia) Ht') as (A1 & A2 & A3). split_and!; try done. apply loose_cons.
      split; [done|]. intros ->. pose proof (Hinj j i t Ht' Et). lia.
    + exists k', (fr ++ [t]). split_and!; [done|by rewrite <-app_assoc| |].
      * intros u. rewrite elem_of_app, list_elem_of_singleton, H3. split.
        -- intros [(j & Hj & HTj)| ->]; [exists j; split; [lia|done]|exists i; split; [lia|done]].
        -- intros (j & Hj & HTj). destruct (decide (j = i)) as [->|]; [right; congruence|left; exists j; split; [lia|done]].
      * intros u Hu Hnu. rewrite elem_of_app, list_elem_of_singleton in Hnu. rewrite H4; [apply page_freed; tauto| |tauto].
        apply loose_cons. tauto.
  - change (negb (Z.land 0 PTE_P =? 0)) with false. cbv beta iota. unfold mbind, M_bind, mret, M_ret. fold (free_tables n).
    destruct (IH (i + 1) k fl) as (k' & fr & H1 & H2 & H3 & H4); try done; try lia.
    + intros j Hj. apply HE. lia.
    + intros j t' Hj. apply HT. lia.
    + exists k', fr. split_and!; [done|done| |done]. intros u. rewrite H3. split; intros (j & Hj & HTj).
      * exists j. split; [lia|done].
      * exists j. destruct (decide (j = i)) as [->|]; [congruence|]. split; [lia|done].
Qed.

(** freevm gives back the user pages, the page tables and the directory. *)
Lemma freevm_ok k fl tb ds d mp : rep k fl tb ds -> ds !! d = Some mp ->
  owned fl tb ds mp (fun n => 0 <= n /\ n * PGSIZE < KERNBASE) ->
  exists k' fl', freevm d k = Ok (tt, k') /\
    rep k' fl' (filter (fun p => p.1.1 <> d) tb) (delete d ds) /\
    (forall u, loose fl' (filter (fun p => p.1.1 <> d) tb) (delete d ds) u <-> loose fl tb ds u /\
      ~ exists n w, (0 <= n /\ n * PGSIZE < KERNBASE) /\ mp !! n = Some w /\ u = upage w) /\
    (forall u, loose fl tb ds u -> loose fl' (filter (fun p => p.1.1 <> d) tb) (delete d ds) u -> page k' u = page k u).
Proof.
  intros Hr Hd Hown. destruct (rp_dir _ _ _ _ Hr d mp Hd) as [Hdv Hdf].
  destruct (valid_range d Hdv) as (Hda & Hdr & Hd0 & _).
  assert (vpn (PGROUNDUP 0) = 0) as Hv0 by reflexivity.
  destruct (deallocuvm_ok k fl tb ds d mp KERNBASE 0 Hr Hd) as (k1 & fr & H1 & H2 & H3 & H4); [unfold_layout; lia|done|by rewrite Hv0|].
  rewrite Hv0 in *. set (mp1 := unmap 0 KERNBASE mp) in *. set (ds1 := <[d := mp1]> ds) in *.
  assert (ds1 !! d = Some mp1) as Hd1 by (unfold ds1; by rewrite lookup_insert_eq).
  assert (delete d ds1 = delete d ds) as Hds1 by (unfold ds1; by rewrite delete_insert_eq).
  pose proof (rep_forget k1 (fr ++ fl) tb ds1 d mp1 H2 Hd1) as Hr1.
  pose proof (fun u => loose_forget k1 (fr ++ fl) tb ds1 d mp1 u H2 Hd1) as Hl1. rewrite Hds1 in *.
  set (tb1 := filter (fun p => p.1.1 <> d) tb) in *.
  destruct (free_tables_ok 1024 0 k1 (fr ++ fl) tb1 (delete d ds) d (fun i => tb !! (d, i))) as (k2 & fr2 & G1 & G2 & G3 & G4); try done; try lia.
  { apply Hl1. by right; left. }
  { intros j Hj. apply (rp_pde _ _ _ _ H2 d mp1); [done|lia]. }
  { intros j t Hj Ht. destruct (rp_tab _ _ _ _ H2 d j t Ht) as (_ & _ & Htv & _ & Htd). split_and!; [done| |congruence].
    apply Hl1. right. right. by exists j. }
  { intros j j' t Hj Hj'. by injection (rp_inj _ _ _ _ H2 _ _ _ Hj Hj'). }
  assert (d ∉ fr2) as Hdfr.
  { rewrite G3. intros (j & _ & Hj). destruct (rp_tab _ _ _ _ H2 d j d Hj) as (_&_&_&_&?). congruence. }
  assert (loose (fr2 ++ fr ++ fl) tb1 (delete d ds) d) as Hdl.
  { assert (loose (fr ++ fl) tb1 (delete d ds) d) as (L1 & L2 & L3) by (apply Hl1; by right; left).
    split_and!; [|done|done]. rewrite elem_of_app. tauto. }
  destruct (rep_kfree k2 (fr2 ++ fr ++ fl) tb1 (delete d ds) d G2 Hdv Hdl) as [Hk3 Hr3].
  exists (freed d k2), (d :: fr2 ++ fr ++ fl).
  assert (forall u, loose (d :: fr2 ++ fr ++ fl) tb1 (delete d ds) u <-> loose (fr ++ fl) tb ds1 u) as Hl2.
  { intros u. rewrite loose_cons. split.
    - intros [(L1 & L2 & L3) Hne]. rewrite elem_of_app in L1.
      assert (loose (fr ++ fl) tb1 (delete d ds) u) as [Hl| [Hl|[i Hi]]]%Hl1 by (split_and!; [tauto|done|done]); [done|done|].
      exfalso. apply L1. left. apply G3. exists i. split; [|done]. destruct (rp_tab _ _ _ _ H2 d i u Hi) as (_ & ? & _). lia.
    - intros Hl. assert (loose (fr ++ fl) tb1 (delete d ds) u) as (L1 & L2 & L3) by (apply Hl1; by left).
      destruct Hl as (L4 & L5 & L6). split; [split_and!; [|done|done]|congruence].
      rewrite elem_of_app. intros [Hu|Hu]; [|tauto]. apply G3 in Hu as (j & _ & Hj). by apply (L6 (d, j)). }
  split_and!; [|done| |].
  - unfold freevm. rewrite (proj2 (Z.eqb_neq _ _) Hd0), (bind_Ok _ _ _ _ _ H1).
    change (Z.to_nat NPDENTRIES) with 1024%nat. by rewrite (bind_Ok _ _ _ _ _ G1).
  - intros u. rewrite Hl2. unfold ds1. rewrite (loose_insert _ _ ds d mp) by done. rewrite <-H3.
    unfold loose. rewrite elem_of_app. tauto.
  - intros u Hu Hu2. pose proof Hu2 as Hu3. apply Hl2 in Hu3. apply loose_cons in Hu2 as [Hu2 Hne].
    destruct Hu2 as (L1 & L2 & L3). destruct Hu3 as (L4 & L5 & L6). rewrite !elem_of_app in L1. rewrite elem_of_app in L4.
    rewrite page_freed, G4, H4; [done|done|tauto| |tauto|done].
    apply Hl1. left. split_and!; [rewrite elem_of_app; tauto|done|done].
Qed.
End freevm.

(** ** The kernel's part of a directory *)
Section setupkvm.
Context `{Linker}.

Lemma mappages_ok k fl tb ds d mp va size pa perm :
  rep k fl tb ds -> ds !! d = Some mp -> va mod PGSIZE = 0 -> 0 <= va -> size mod PGSIZE = 0 -> 0 < size -> va + size <= UINT_MOD ->
  pa mod PGSIZE = 0 -> 0 <= pa -> pa + size <= UINT_MOD -> 0 <= perm < 4096 ->
  (forall x, vpn va <= x < vpn (va + size) -> mp !! x = None) ->
  exists r k' fl' tb' cnt, mappages d va size pa perm k = Ok (r, k') /\
    rep k' fl' tb' (<[d := map_range cnt mp (vpn va) pa perm]> ds) /\ keeps fl tb ds k k' /\ grows fl tb fl' tb' /\
    (cnt <= Z.to_nat (size / PGSIZE))%nat /\ (r = 0 /\ cnt = Z.to_nat (size / PGSIZE) \/ r = -1).
Proof.
  intros Hr Hd Hva Hva0 Hs Hs0 Hvs Hpa Hpa0 Hps Hperm Hun.
  assert (PGROUNDDOWN va = va /\ PGROUNDDOWN (u32 (va + size - 1)) = va + size - PGSIZE) as [E1 E2].
  { rewrite u32_id by (unfold_layout; lia). rewrite !PGROUNDDOWN_mod. unfold_layout. zlia. }
  unfold mappages. rewrite E1, E2. replace (va + size - PGSIZE - va) with (size - PGSIZE) by lia.
  rewrite u32_id by (unfold_layout; zlia).
  destruct (mappages_loop_ok (S (Z.to_nat ((size - PGSIZE) / PGSIZE))) k fl tb ds d mp va (va + size - PGSIZE) pa perm
    (Z.to_nat ((size - PGSIZE) / PGSIZE))) as (r & k' & fl' & tb' & cnt & H1 & H2 & H3 & H4 & H5); try done; try lia;
    try (unfold_layout; zlia).
  { intros x Hx. apply Hun. unfold vpn in *. unfold_layout. zlia. }
  exists r, k', fl', tb', cnt. split_and!; try done.
  - unfold_layout. destruct H5 as [[_ ->]|(_ & _ & Hc & _)]; zlia.
  - destruct H5 as [[-> ->]|(-> & _)]; [left; split; [done|unfold_layout; zlia]|by right].
Qed.

Fixpoint kmapped (ks : list (Z * Z * Z * Z)) (mp : gmap Z Z) : gmap Z Z :=
  match ks with
  | [] => mp
  | (virt, s, e, perm) :: ks' => kmapped ks' (map_range (Z.to_nat (u32 (e - s) / PGSIZE)) mp (vpn virt) s perm)
  end.

(** Each segment is page aligned, does not wrap and comes after the ones before. *)
Fixpoint ksegs_ok (lo : Z) (ks : list (Z * Z * Z * Z)) : Prop :=
  match ks with
  | [] => True
  | (virt, s, e, perm) :: ks' =>
      lo <= virt /\ virt mod PGSIZE = 0 /\ s mod PGSIZE = 0 /\ u32 (e - s) mod PGSIZE = 0 /\ 0 < u32 (e - s) /\
      0 <= s /\ virt + u32 (e - s) <= UINT_MOD /\ s + u32 (e - s) <= UINT_MOD /\ 0 <= perm < 4096 /\
      ksegs_ok (virt + u32 (e - s)) ks'
  end.

Lemma map_kernel_ok lo ks k fl tb ds d mp :
  rep k fl tb ds -> ds !! d = Some mp -> 0 <= lo -> lo mod PGSIZE = 0 -> ksegs_ok lo ks ->
  (forall n, vpn lo <= n -> mp !! n = None) ->
  exists r k' fl' tb' mp', map_kernel ks d k = Ok (r, k') /\ rep k' fl' tb' (<[d := mp']> ds) /\
    keeps fl tb ds k k' /\ grows fl tb fl' tb' /\ (forall n, n < vpn lo -> mp' !! n = mp !! n) /\
    (r = 0 /\ mp' = kmapped ks mp \/ r = -1).
Proof.
  revert lo k fl tb ds mp. induction ks as [|[[[virt s] e] perm] ks IH]; intros lo k fl tb ds mp Hr Hd Hlo Hlm Hks Hun; cbn [map_kernel].
  { exists 0, k, fl, tb, mp. split_and!; [done|by rewrite insert_id|by intros ?|apply grows_refl|done|by left]. }
  destruct Hks as (K1 & K2 & K3 & K4 & K5 & K6 & K7 & K8 & K9 & K10).
  assert (vpn lo <= vpn virt) as Hvl by (unfold vpn; unfold_layout; zlia).
  destruct (mappages_ok k fl tb ds d mp virt (u32 (e - s)) s perm) as (r & k1 & fl1 & tb1 & cnt & H1 & H2 & H3 & H4 & H5 & H6);
    try done; try lia.
  { intros x Hx. apply Hun. lia. }
  rewrite (bind_Ok _ _ _ _ _ H1). destruct H6 as [[-> ->]| ->].
  - change (0 <? 0) with false. cbv beta iota. set (mp1 := map_range _ mp _ _ _) in *.
    assert (forall n, n < vpn virt \/ vpn (virt + u32 (e - s)) <= n -> mp1 !! n = mp !! n) as Hmp1.
    { intros n Hn. unfold mp1. rewrite lookup_map_range, decide_False; [done|].
      revert Hn. unfold vpn. unfold_layout. zlia. }
    destruct (IH (virt + u32 (e - s)) k1 fl1 tb1 (<[d := mp1]> ds) mp1) as (r & k' & fl' & tb' & mp' & G1 & G2 & G3 & G4 & G5 & G6);
      try done; try lia.
    + by rewrite lookup_insert_eq.
    + unfold_layout. zlia.
    + intros n Hn. rewrite Hmp1 by lia. apply Hun. unfold vpn in *. unfold_layout. zlia.
    + exists r, k', fl', tb', mp'. rewrite insert_insert_eq in G2. split_and!; [done|done| |by eapply grows_trans| |done].
      * intros u Hu. rewrite G3; [by apply H3|]. rewrite (loose_insert _ _ ds d mp) by done. by apply (loose_grows _ _ _ _ _ _ H4).
      * intros n Hn. rewrite G5, Hmp1; [done|lia|]. unfold vpn in *. unfold_layout. zlia.
  - change (-1 <? 0) with true. cbv beta iota.
    exists (-1), k1, fl1, tb1, (map_range cnt mp (vpn virt) s perm). split_and!; [done|done|done|done| |by right].
    intros n Hn. rewrite lookup_map_range, decide_False by lia. done.
Qed.

Lemma kmap_ok : ksegs_ok KERNBASE kmap.
Proof.
  pose proof data_aligned as Ha. pose proof data_above as Hb. pose proof end_above. pose proof end_below.
  unfold kmap, KERNLINK in *. cbn [ksegs_ok].
  rewrite !V2P_id by (unfold_layout; unfold_bounds; lia).
  rewrite !u32_id by (unfold_layout; unfold_bounds; lia).
  replace (u32 (0 - DEVSPACE)) with 33554432 by reflexivity.
  change PTE_W with 2. unfold_layout. unfold_bounds. split_and!; try done; zlia.
Qed.

(** What every directory maps above KERNBASE. *)
Definition kernel_map : gmap Z Z := kmapped kmap ∅.

Lemma kernel_map_user n : n * PGSIZE < KERNBASE -> kernel_map !! n = None.
Proof.
  intros Hn. unfold kernel_map, kmap. cbn [kmapped]. pose proof data_above as Hb. unfold KERNLINK in *.
  rewrite !lookup_map_range, !decide_False, lookup_empty; [done|..];
    intros [Hx _]; revert Hx; unfold vpn; unfold_layout; zlia.
Qed.

Lemma new_directory k v fl tb ds : rep k (v :: fl) tb ds ->
  exists k1, kalloc k = Ok (v, k1) /\ valid v /\
    rep (setp v zero_page k1) fl tb (<[v := ∅]> ds) /\ ds !! v = None /\
    (forall u, loose (v :: fl) tb ds u -> page (setp v zero_page k1) u = page k u) /\
    (forall u, loose fl tb (<[v := ∅]> ds) u <-> loose (v :: fl) tb ds u).
Proof.
  intros Hr. destruct (rep_kalloc k v fl tb ds Hr) as (k1 & Hk & Hm & Hr1 & Hl & Hv). exists k1.
  assert (rep (setp v zero_page k1) fl tb ds) as Hr2 by (apply rep_setp; [done|done|apply length_replicate]).
  destruct Hl as (L1 & L2 & L3).
  assert (forall i, tb !! (v, i) = None) as Htb.
  { intros i. destruct (tb !! (v, i)) as [t|] eqn:E; [|done]. destruct (rp_tab _ _ _ _ Hr1 _ _ _ E) as ([? ?] & _). congruence. }
  split_and!; [done|done| |done| |].
  - destruct Hr2 as [A B C D E F G]. split; try done.
    + intros d mp [[<- <-]|[Hne Hd]]%lookup_insert_Some; [done|by apply (B d mp)].
    + intros d i t Ht. destruct (C d i t Ht) as (H1 & H2 & H3 & H4 & H5). split_and!; try done; try lia.
      * rewrite lookup_insert_ne; [done|]. intros <-. by rewrite Htb in Ht.
      * rewrite lookup_insert_ne; [done|]. intros <-. by destruct (L3 (d, i)).
    + intros d mp i [[<- <-]|[Hne Hd]]%lookup_insert_Some Hi; [|by apply (E d mp)].
      rewrite Htb. apply (entry_replicate _ _ 0); [by rewrite page_setp, decide_True|done].
    + intros d mp i t j [[<- <-]|[Hne Hd]]%lookup_insert_Some Ht Hj; [by rewrite Htb in Ht|by apply (F d mp)].
    + intros d mp n w [[<- <-]|[Hne Hd]]%lookup_insert_Some Hw; [done|by apply (G d mp)].
  - intros u [Hu Hne]%loose_cons. rewrite page_setp, decide_False by done. unfold page. by rewrite Hm.
  - intros u. rewrite loose_cons. unfold loose. destruct (decide (u = v)) as [->|Hne].
    + rewrite lookup_insert_eq. naive_solver.
    + rewrite lookup_insert_ne by done. tauto.
Qed.

(** setupkvm makes a directory with the kernel's mappings, or gives everything back. *)
Lemma setupkvm_ok k fl tb ds : rep k fl tb ds ->
  exists r k' fl' tb' ds', setupkvm k = Ok (r, k') /\ rep k' fl' tb' ds' /\
    (forall u, loose fl' tb' ds' u <-> loose fl tb ds u) /\ (forall u, loose fl tb ds u -> page k' u = page k u) /\
    (r <> 0 /\ ds !! r = None /\ ds' = <[r := kernel_map]> ds \/ r = 0 /\ ds' = ds).
Proof.
  intros Hr. unfold setupkvm. destruct fl as [|v fl].
  { rewrite (bind_Ok _ _ _ _ _ (rep_kalloc_nil k tb ds Hr)). exists 0, k, [], tb, ds. split_and!; try done. by right. }
  destruct (new_directory k v fl tb ds Hr) as (k1 & Hk & Hv & Hr1 & Hds & Hp1 & Hl1).
  destruct (valid_range v Hv) as (_ & _ & Hv0 & _).
  rewrite (bind_Ok _ _ _ _ _ Hk), (proj2 (Z.eqb_neq _ _) Hv0), (bind_Ok _ _ _ _ _ (memset_zero v k1 Hv)).
  change (DEVSPACE <? P2V PHYSTOP) with false. cbv beta iota.
  destruct (map_kernel_ok KERNBASE kmap _ fl tb _ v ∅ Hr1) as (r & k2 & fl2 & tb2 & mp2 & H1 & H2 & H3 & H4 & H5 & H6);
    [by rewrite lookup_insert_eq|unfold_layout; lia|done|apply kmap_ok|done|].
  rewrite (bind_Ok _ _ _ _ _ H1). rewrite insert_insert_eq in H2.
  assert (forall u, loose fl2 tb2 (<[v := mp2]> ds) u <-> loose (v :: fl) tb ds u) as Hl2.
  { intros u. rewrite <-Hl1. rewrite <-(loose_grows _ _ _ _ (<[v:=∅]> ds) u H4).
    rewrite <-(loose_insert fl2 tb2 (<[v:=∅]> ds) v ∅ mp2) by (by rewrite lookup_insert_eq). by rewrite insert_insert_eq. }
  assert (forall u, loose (v :: fl) tb ds u -> page k2 u = page k u) as Hp2.
  { intros u Hu. rewrite H3; [by apply Hp1|]. by apply Hl1. }
  destruct H6 as [[-> ->]| ->].
  - change (0 <? 0) with false. cbv beta iota. exists v, k2, fl2, tb2, (<[v := kernel_map]> ds). split_and!; try done. by left.
  - change (-1 <? 0) with true. cbv beta iota.
    assert (<[v := mp2]> ds !! v = Some mp2) as Hv2 by (by rewrite lookup_insert_eq).
    destruct (freevm_ok k2 fl2 tb2 _ v mp2 H2 Hv2) as (k3 & fl3 & G1 & G2 & G3 & G4).
    { split; intros n; [intros w [Hn1 Hn2] Hw|intros n' w w' [Hn1 Hn2] _ Hw]; exfalso;
        (rewrite H5, lookup_empty in Hw; [done|unfold vpn; unfold_layout; zlia]). }
    rewrite (bind_Ok _ _ _ _ _ G1). rewrite delete_insert_id in * by done.
    exists 0, k3, fl3, (filter (fun p => p.1.1 <> v) tb2), ds.
    assert (forall u, loose fl3 (filter (fun p : Z * Z * Z => p.1.1 <> v) tb2) ds u <-> loose (v :: fl) tb ds u) as Hl3.
    { intros u. rewrite G3, Hl2. split; [by intros [? _]|]. intros Hu. split; [done|]. intros (n & w & [Hn1 Hn2] & Hw & _).
      rewrite H5, lookup_empty in Hw; [done|]. unfold vpn. unfold_layout. zlia. }
    split_and!; [done|done|done| |by right].
    intros u Hu. rewrite G4; [by apply Hp2|by apply Hl2|by apply Hl3].
Qed.
End setupkvm.

(** ** copyuvm *)
Section copyuvm.
Context `{Linker}.

Lemma memmove_page_ok dst src k : valid dst -> valid src -> memmove_page dst src k = Ok (tt, setp dst (page k src) k).
Proof.
  intros Hd Hs. destruct (valid_range dst Hd) as (_ & Hr1 & _), (valid_range src Hs) as (_ & Hr2 & _).
  unfold memmove_page, mbind, M_bind, get. by rewrite !mapped_kva_true.
Qed.

Lemma or_flags_flags pa w : pa mod PGSIZE = 0 -> w mod 2 = 1 -> or_flags pa (PTE_FLAGS w) = pa + PTE_FLAGS w.
Proof.
  intros Hp Hw. rewrite PTE_FLAGS_mod. rewrite or_flags_add; [|done|unfold_layout; zlia]. unfold_layout. zlia.
Qed.

(** The user part of the parent: page [n] holds [Ct n] and has the flags [pm n]. *)
Definition parent_ok (pm : Z -> Z) (Ct : Z -> list Z) (k : kmem) (fl : list Z) (tb : gmap (Z * Z) Z)
    (ds : gmap Z (gmap Z Z)) (mp : gmap Z Z) (sz : Z) : Prop :=
  forall n, 0 <= n -> n * PGSIZE < sz -> exists w, mp !! n = Some w /\ pm n = PTE_FLAGS w /\
    valid (upage w) /\ loose fl tb ds (upage w) /\ page k (upage w) = Ct n.

Lemma owned_of_fresh pm Ct k fl tb ds mp n1 : fresh_with pm Ct k fl tb ds mp (fun n => 0 <= n < n1) ->
  (forall n, n1 <= n -> n * PGSIZE < KERNBASE -> mp !! n = None) ->
  owned fl tb ds mp (fun n => 0 <= n /\ n * PGSIZE < KERNBASE).
Proof.
  intros [[A B] _ _] Hun.
  assert (forall n w, 0 <= n /\ n * PGSIZE < KERNBASE -> mp !! n = Some w -> 0 <= n < n1) as Hlt.
  { intros n w [H1 H2] Hw. destruct (decide (n < n1)); [lia|]. rewrite Hun in Hw by lia. done. }
  split.
  - intros n w Hn Hw. apply (A n w); [by apply (Hlt n w)|done].
  - intros n n' w w' Hn Hn' Hw Hw'. apply (B n n' w w'); try done; [by apply (Hlt n w)|by apply (Hlt n' w')].
Qed.

Lemma copyuvm_loop_ok fuel pm Ct k fl tb ds p mpp d mpd i sz :
  rep k fl tb ds -> ds !! p = Some mpp -> ds !! d = Some mpd -> p <> d ->
  i mod PGSIZE = 0 -> 0 <= i <= KERNBASE -> sz <= KERNBASE -> sz - i <= PGSIZE * Z.of_nat fuel ->
  parent_ok pm Ct k fl tb ds mpp sz ->
  fresh_with pm Ct k fl tb ds mpd (fun n => 0 <= n < vpn i) ->
  (forall n, vpn i <= n -> n * PGSIZE < KERNBASE -> mpd !! n = None) ->
  exists r k' fl' tb' ds', copyuvm_loop fuel p d i sz k = Ok (r, k') /\ rep k' fl' tb' ds' /\
    (forall u, loose fl tb ds u -> loose fl' tb' ds' u -> page k' u = page k u) /\
    ((exists mpd', r = d /\ ds' = <[d := mpd']> ds /\
       fresh_with pm Ct k' fl' tb' ds mpd' (fun n => 0 <= n < vpn i \/ vpn i <= n /\ n * PGSIZE < sz) /\
       (forall n, ~ (vpn i <= n /\ n * PGSIZE < sz) -> mpd' !! n = mpd !! n) /\
       (forall u, loose fl' tb' ds' u <-> loose fl tb ds u \/
          exists n, (vpn i <= n /\ n * PGSIZE < sz) /\ mpd' !! n = Some (upte (pm n) u) /\ valid u) /\
       (forall n u, vpn i <= n /\ n * PGSIZE < sz -> mpd' !! n = Some (upte (pm n) u) -> valid u -> ~ loose fl tb ds u))
     \/
     (r = 0 /\ ds' = delete d ds /\
       forall u, loose fl' tb' ds' u <-> loose fl tb ds u /\
         ~ exists n w, (0 <= n /\ n * PGSIZE < KERNBASE) /\ mpd !! n = Some w /\ u = upage w)).
Proof.
  revert k fl tb ds mpd i. induction fuel as [|fuel IH]; intros k fl tb ds mpd i Hr Hp Hd Hpd Hi Hi0 Hsz Hf Hpar Hfr Hun;
    cbn [copyuvm_loop]; (destruct (Z.ltb_spec i sz) as [Hlt|Hge]; cbn [negb]);
    try (exfalso; unfold_layout; lia);
    try (exists d, k, fl, tb, ds; split_and!; [done|done|done|]; left; exists mpd;
      assert (forall n, ~ (vpn i <= n /\ n * PGSIZE < sz)) as Hno by (intros n; unfold vpn; unfold_layout; zlia);
      split_and!; [done|by rewrite insert_id| |done| |];
      [eapply fresh_weaken; [|exact Hfr]; intros n [Hn'|Hn']; [done|by destruct (Hno n)]
      |intros u; split; [by left|]; intros [|(n & Hn' & _)]; [done|by destruct (Hno n)]
      |intros n u Hn'; by destruct (Hno n)]).
  assert (0 <= i < UINT_MOD) as Hib by (unfold_layout; unfold_bounds; lia).
  assert (0 <= vpn i /\ vpn i * PGSIZE = i /\ vpn (i + PGSIZE) = vpn i + 1) as (Hv1 & Hv2 & Hv3) by (unfold vpn; unfold_layout; zlia).
  destruct (Hpar (vpn i) ltac:(lia) ltac:(lia)) as (w & Hw & Hpm & Hwv & Hwl & HwC).
  destruct (rp_map _ _ _ _ Hr p mpp _ w Hp Hw) as (_ & Hsome & Hodd & Hwr).
  assert (exists t, tb !! (p, PDX i) = Some t) as [t Ht].
  { destruct (tb !! (p, PDX i)) as [t|] eqn:E; [by exists t|]. rewrite (absent_unmapped k fl tb ds p mpp i Hr Hp Hib E) in Hw. done. }
  rewrite (bind_Ok _ _ _ _ _ (walk_present k fl tb ds p mpp i t false Hr Hp Hib Ht)).
  destruct (pte_access k fl tb ds p mpp i t Hr Hp Hib Ht) as (Hnz & Hld & _).
  rewrite (proj2 (Z.eqb_neq _ _) Hnz), (bind_Ok _ _ _ _ _ Hld), Hw. cbn [from_option id]. rewrite land_1, Hodd.
  change (1 =? 0) with false. cbv beta iota.
  destruct fl as [|m fl].
  { rewrite (bind_Ok _ _ _ _ _ (rep_kalloc_nil k tb ds Hr)). change (0 =? 0) with true. cbv beta iota.
    destruct (freevm_ok k [] tb ds d mpd Hr Hd (owned_of_fresh _ _ _ _ _ _ _ _ Hfr Hun)) as (k' & fl' & G1 & G2 & G3 & G4).
    rewrite (bind_Ok _ _ _ _ _ G1). eexists 0, k', fl', _, _. split_and!; [done|exact G2|exact G4|]. right. by split_and!. }
  destruct (rep_kalloc k m fl tb ds Hr) as (k1 & Hk & Hmem & Hr1 & Hl1 & Hval).
  rewrite (bind_Ok _ _ _ _ _ Hk). destruct (valid_range m Hval) as (Hma & Hmr & Hm0 & _).
  fold (upage w). rewrite (proj2 (Z.eqb_neq _ _) Hm0), (bind_Ok _ _ _ _ _ (memmove_page_ok m (upage w) k1 Hval Hwv)).
  assert (page k1 (upage w) = Ct (vpn i)) as HC1 by (rewrite <-HwC; unfold page; by rewrite Hmem). rewrite HC1.
  set (k2 := setp m (Ct (vpn i)) k1).
  assert (length (Ct (vpn i)) = 1024%nat) as HCl by (rewrite <-HwC; apply page_length, Hr).
  assert (rep k2 fl tb ds) as Hr2 by (by apply rep_setp).
  assert (forall u, u <> m -> page k2 u = page k u) as Hpk.
  { intros u Hu. unfold k2. rewrite page_setp, decide_False by done. unfold page. by rewrite Hmem. }
  assert (forall n w', 0 <= n < vpn i -> mpd !! n = Some w' -> upage w' <> m /\ loose fl tb ds (upage w')) as Hum.
  { intros n w' Hn' Hw'. destruct Hfr as [[A B] _ _]. destruct (A n w' Hn' Hw') as [_ A2]. apply loose_cons in A2. tauto. }
  assert (fresh_with pm Ct k2 fl tb ds mpd (fun n => 0 <= n < vpn i)) as Hfr2.
  { destruct Hfr as [[A B] Hpm' C]. split; [split; [|done]|done|].
    - intros n w' Hn' Hw'. split; [by apply (A n w')|by apply (Hum n w')].
    - intros n Hn'. destruct (C n Hn') as (u & C1 & C2 & C3). exists u. split_and!; [done|done|].
      rewrite Hpk; [done|]. intros ->. destruct (Hum n _ Hn' C1) as [Hne _].
      by rewrite (proj2 (proj2 (upte_ok (pm n) m C2 (Hpm' n Hn')))) in Hne. }
  assert (0 <= PTE_FLAGS w < 4096) as Hflr by (rewrite PTE_FLAGS_mod; unfold_layout; zlia).
  destruct (upte_ok (PTE_FLAGS w) m Hval Hflr) as (_ & _ & Hupm).
  destruct (mappages_one k2 fl tb ds d mpd i (V2P m) (PTE_FLAGS w) Hr2 Hd Hi Hib) as [(Hmp & ->)|(k3 & fl3 & tb3 & Hmp & Hr3 & Hk3 & Hg3)];
    [rewrite V2P_id by (unfold_layout; unfold_bounds; lia); unfold_layout; unfold_bounds; zlia
    |rewrite V2P_id by (unfold_layout; unfold_bounds; lia); unfold_layout; unfold_bounds; zlia|done|apply Hun; lia|..];
    rewrite (bind_Ok _ _ _ _ _ Hmp).
  - change (-1 <? 0) with true. cbv beta iota.
    destruct (rep_kfree k2 [] tb ds m Hr2 Hval Hl1) as [Hkf Hr4]. rewrite (bind_Ok _ _ _ _ _ Hkf).
    destruct (freevm_ok (freed m k2) [m] tb ds d mpd Hr4 Hd) as (k' & fl' & G1 & G2 & G3 & G4).
    { apply (owned_of_fresh pm Ct k [m] tb ds mpd (vpn i)); [done|done]. }
    rewrite (bind_Ok _ _ _ _ _ G1). eexists 0, k', fl', _, _. split_and!; [done|exact G2| |].
    + intros u Hu Hu'. rewrite G4 by done. apply loose_cons in Hu as [_ Hne]. by rewrite page_freed, Hpk.
    + right. by split_and!.
  - change (0 <? 0) with false. cbv beta iota. rewrite u32_id by (unfold_layout; unfold_bounds; lia).
    fold (upte (PTE_FLAGS w) m) in Hr3. rewrite <-Hpm in *. set (mp3 := <[vpn i := upte (pm (vpn i)) m]> mpd) in *.
    assert (mp3 !! vpn i = Some (upte (pm (vpn i)) m)) as Hmp3 by (unfold mp3; by rewrite lookup_insert_eq).
    assert (forall n, n <> vpn i -> mp3 !! n = mpd !! n) as Hmp3n by (intros n Hne; unfold mp3; by rewrite lookup_insert_ne).
    assert (forall u, loose fl3 tb3 (<[d := mp3]> ds) u <-> loose (m :: fl) tb ds u \/ u = m) as Hl3.
    { intros u. rewrite (loose_insert _ _ ds d mpd) by done. rewrite (loose_grows _ _ _ _ _ _ Hg3), loose_cons.
      destruct (decide (u = m)) as [->|]; tauto. }
    destruct (IH k3 fl3 tb3 (<[d := mp3]> ds) mp3 (i + PGSIZE)) as (r & k' & fl' & tb' & ds' & H1 & H2 & H3 & H4);
      try done; try (unfold_layout; first [lia|zlia]).
    { by rewrite lookup_insert_ne. }
    { by rewrite lookup_insert_eq. }
    { intros n Hn0 Hn1. destruct (Hpar n Hn0 Hn1) as (w' & P1 & P2 & P3 & P4 & P5). exists w'. split_and!; try done.
      - apply Hl3. by left.
      - apply loose_cons in P4 as [P4 P6]. by rewrite Hk3, Hpk. }
    { rewrite Hv3. apply (fresh_insert _ _ _ _ _ _ d mp3 mpd _ (fun n => 0 <= n < vpn i + 1)); [by rewrite lookup_insert_eq|done|].
      rewrite insert_insert_eq, insert_id by done. eapply fresh_extend; try done.
      - intros n Hn' Hw'. destruct (Hum n _ Hn' Hw') as [Hne _]. destruct Hfr as [_ Hpm' _].
        by rewrite (proj2 (proj2 (upte_ok (pm n) m Hval (Hpm' n Hn')))) in Hne.
      - unfold k2. by rewrite page_setp, decide_True. }
    { intros n Hn' Hn2. rewrite Hmp3n, Hun; [done|lia|lia|lia]. }
    rewrite Hv3 in *. exists r, k', fl', tb', ds'. split_and!; [done|done| |].
    { intros u Hu Hu'. pose proof Hu as Hu2. apply loose_cons in Hu as [Hu Hne]. rewrite H3, Hk3, Hpk; [done|done|done| |done].
      apply Hl3. by left. }
    destruct H4 as [(mpd' & -> & -> & H5 & H6 & H7 & H8)|(-> & -> & H5)].
    + left. exists mpd'. split_and!; [done|by rewrite insert_insert_eq| | | |].
      * eapply fresh_insert; [done| |exact H5]. intros n Hn'. cbn in *. lia.
      * intros n Hn'. rewrite H6, Hmp3n; [done|lia|lia].
      * intros u. rewrite H7, Hl3. split.
        -- intros [[Hu| ->]|(n & Hn' & Hw')]; [by left| |].
           ++ right. exists (vpn i). split_and!; [lia|lia| |done]. rewrite H6 by lia. done.
           ++ right. exists n. split; [lia|done].
        -- intros [Hu|(n & Hn' & Hw' & Hvu)]; [by left; left|]. destruct (decide (n = vpn i)) as [->|Hne].
           ++ left. right. rewrite H6 in Hw' by lia. rewrite Hmp3 in Hw'. injection Hw' as Hw'.
              destruct (upte_ok (pm (vpn i)) u Hvu Hflr) as (_ & _ & <-). by rewrite <-Hw'.
           ++ right. exists n. split; [lia|done].
      * intros n u Hn' Hw' Hvu. destruct (decide (n = vpn i)) as [->|Hne].
        -- rewrite H6, Hmp3 in Hw' by lia. injection Hw' as Hw'. destruct (upte_ok (pm (vpn i)) u Hvu Hflr) as (_ & _ & Hu).
           rewrite <-Hw', Hupm in Hu. rewrite loose_cons. naive_solver.
        -- intros Hl. apply (H8 n u ltac:(lia) Hw' Hvu). apply Hl3. by left.
    + right. split_and!; [done|by rewrite delete_insert_eq|].
      intros u. rewrite H5, Hl3. split.
      * intros [Hu Hno]. split.
        -- destruct Hu as [|Hu]; [done|]. exfalso. apply Hno. exists (vpn i), (upte (pm (vpn i)) m).
           split_and!; [lia|unfold_layout; lia|done|congruence].
        -- intros (n & w' & Hn' & Hw' & Heq). apply Hno. exists n, w'. split_and!; [lia|lia| |done].
           destruct (decide (n = vpn i)) as [->|Hne]; [|by rewrite Hmp3n]. rewrite Hun in Hw' by lia. done.
      * intros [Hu Hno]. split; [by left|]. intros (n & w' & Hn' & Hw' & Heq). destruct (decide (n = vpn i)) as [->|Hne].
        -- rewrite Hmp3 in Hw'. simplify_eq. rewrite Hupm in Hu. apply loose_cons in Hu. naive_solver.
        -- apply Hno. exists n, w'. rewrite Hmp3n in Hw' by done. split_and!; [lia|lia|done|done].
Qed.
End copyuvm.

(** ** An example state *)
Section example.

Definition ex_dir : Z := 0x80200000.
Definition ex_k : kmem := freed 0x80203000 (freed 0x80202000 (freed 0x80201000 (mkKmem ∅ true 0))).

Lemma ex_valid u : In u [0x80200000; 0x80201000; 0x80202000; 0x80203000] -> valid u.
Proof. intros Hu. cbn in Hu. destruct_or? Hu; subst; (split; [reflexivity|by split]). Qed.

Lemma ex_rep : rep ex_k [0x80203000; 0x80202000; 0x80201000] ∅ {[ex_dir := ∅]}.
Proof.
  assert (rep (mkKmem ∅ true 0) [] ∅ {[ex_dir := ∅]}) as H0.
  { split.
    - split; [apply map_Forall_empty|done|constructor|constructor].
    - intros d mp [<- <-]%lookup_singleton_Some. split; [apply ex_valid; by left|set_solver].
    - intros d i t Ht. by rewrite lookup_empty in Ht.
    - intros p q t Ht. by rewrite lookup_empty in Ht.
    - intros d mp i [<- <-]%lookup_singleton_Some Hi. rewrite lookup_empty. by apply (entry_replicate _ _ 0).
    - intros d mp i t j _ Ht. by rewrite lookup_empty in Ht.
    - intros d mp n w [<- <-]%lookup_singleton_Some Hw. by rewrite lookup_empty in Hw. }
  unfold ex_k. do 3 (apply rep_kfree; [|apply ex_valid; cbn; tauto|split_and!; [set_solver|done|intros p; by rewrite lookup_empty]]).
  exact H0.
Qed.
End example.

Section properties.
Context `{Linker}.

(** The page numbers that growing from [oldsz] to [newsz] adds. *)
Definition grown (oldsz newsz n : Z) : Prop := vpn (PGROUNDUP oldsz) <= n /\ n * PGSIZE < newsz.

(** Growing a process.  allocuvm always returns; either it returns the new
    size and every new page is mapped for the user to a page of zeros of its
    own that was free before, or it returns 0, the mappings are as before and
    every page it took is free again or a page table of this directory; no
    other mapping and no other page changes. *)
Theorem allocuvm_correct k fl tb ds d mp oldsz newsz :
  rep k fl tb ds -> ds !! d = Some mp -> 0 <= oldsz <= newsz -> newsz < MMAPBASE ->
  (forall n, grown oldsz newsz n -> mp !! n = None) ->
  exists r k' fl' tb' mp', allocuvm d oldsz newsz k = Ok (r, k') /\ rep k' fl' tb' (<[d := mp']> ds) /\
    tb ⊆ tb' /\ (forall u, loose fl tb ds u -> page k' u = page k u) /\
    (r = newsz /\ fresh k' fl' tb' ds mp' (grown oldsz newsz) /\
       (forall n, ~ grown oldsz newsz n -> mp' !! n = mp !! n) /\
       (forall n u, grown oldsz newsz n -> mp' !! n = Some (user_pte u) -> valid u -> ~ loose fl tb ds u)
     \/ r = 0 /\ mp' = mp /\ (forall u, loose fl' tb' ds u <-> loose fl tb ds u)).
Proof.
  intros Hr Hd Ho Hn Hun.
  assert (PGROUNDUP oldsz mod PGSIZE = 0 /\ oldsz <= PGROUNDUP oldsz /\ PGROUNDUP oldsz <= KERNBASE) as (Ha & Hb & Hc).
  { rewrite PGROUNDUP_mod by (unfold_layout; unfold_bounds; lia). unfold_layout. zlia. }
  destruct (allocuvm_loop_ok (Z.to_nat (newsz / PGSIZE + 1)) k fl tb ds d mp (PGROUNDUP oldsz) oldsz newsz)
    as (r & k' & fl' & tb' & mp' & H1 & H2 & H3 & H4 & H5); try done; try (unfold_layout; zlia).
  { split; [split|..]; intros n; lia. }
  exists r, k', fl', tb', mp'.
  assert (forall n w, (vpn (PGROUNDUP oldsz) <= n /\ n * PGSIZE < newsz) -> mp !! n = Some w -> False) as Hno.
  { intros n w Hn' Hw. rewrite Hun in Hw; [done|]. done. }
  assert (forall u, loose fl tb ds u -> loose fl' tb' ds u) as Hl.
  { intros u Hu. destruct H5 as [(_ & _ & _ & H5 & _)|(_ & _ & H5)]; apply H5; [by left|]. split; [done|].
    intros (n & w & Hn' & Hw & _). by apply (Hno n w). }
  split_and!; try done.
  - unfold allocuvm. rewrite (proj2 (Z.leb_gt _ _)), (proj2 (Z.ltb_ge _ _)) by lia. done.
  - intros u Hu. apply H4; [done|by apply Hl].
  - destruct H5 as [(-> & H5 & H6 & H7 & H8)|(-> & -> & H5)]; [left|right].
    + split_and!; [done| |done|done]. eapply fresh_weaken; [|exact H5]. intros n Hn'. by right.
    + split_and!; [done| |].
      * apply map_eq. intros n. rewrite lookup_unmap. case_decide as Hn'; [|done]. destruct (mp !! n) eqn:E; [|done]. by destruct (Hno n z Hn' E).
      * intros u. rewrite H5. split; [by intros [? _]|]. intros Hu. split; [done|]. intros (n & w & Hn' & Hw & _). by apply (Hno n w).
Qed.
End properties.

Lemma allocuvm_correct_witness :
  exists r k' fl' tb' mp', allocuvm ex_dir 0 4096 ex_k = Ok (r, k') /\
    rep k' fl' tb' (<[ex_dir := mp']> {[ex_dir := ∅]}) /\
    ∅ ⊆ tb' /\ (forall u, loose [0x80203000; 0x80202000; 0x80201000] ∅ {[ex_dir := ∅]} u -> page k' u = page ex_k u) /\
    (r = 4096 /\ fresh k' fl' tb' {[ex_dir := ∅]} mp' (grown 0 4096) /\
       (forall n, ~ grown 0 4096 n -> mp' !! n = (∅ : gmap Z Z) !! n) /\
       (forall n u, grown 0 4096 n -> mp' !! n = Some (user_pte u) -> valid u ->
          ~ loose [0x80203000; 0x80202000; 0x80201000] ∅ {[ex_dir := ∅]} u)
     \/ r = 0 /\ mp' = ∅ /\ (forall u, loose fl' tb' {[ex_dir := ∅]} u <->
          loose [0x80203000; 0x80202000; 0x80201000] ∅ {[ex_dir := ∅]} u)).
Proof.
  apply (allocuvm_correct ex_k [0x80203000; 0x80202000; 0x80201000] ∅ {[ex_dir := ∅]} ex_dir ∅ 0 4096);
    [exact ex_rep|reflexivity|lia|reflexivity|done].
Defined.

Section properties2.
Context `{Linker}.

(** Growing and shrinking a process cancel out.  When allocuvm has grown
    the process from [oldsz] to [newsz], deallocuvm back to [oldsz] succeeds,
    the mappings are the original ones, and every page that was taken is free
    again or a page table of this directory. *)
Theorem alloc_dealloc_roundtrip k fl tb ds d mp oldsz newsz k1 :
  rep k fl tb ds -> ds !! d = Some mp -> 0 <= oldsz < newsz -> newsz < MMAPBASE ->
  (forall n, grown oldsz newsz n -> mp !! n = None) ->
  allocuvm d oldsz newsz k = Ok (newsz, k1) ->
  exists k2 fl2 tb2, deallocuvm d newsz oldsz k1 = Ok (oldsz, k2) /\ rep k2 fl2 tb2 ds /\ tb ⊆ tb2 /\
    (forall u, loose fl2 tb2 ds u <-> loose fl tb ds u) /\ (forall u, loose fl tb ds u -> page k2 u = page k u).
Proof.
  intros Hr Hd Ho Hn Hun Hal.
  assert (PGROUNDUP oldsz mod PGSIZE = 0 /\ oldsz <= PGROUNDUP oldsz /\ PGROUNDUP oldsz <= KERNBASE) as (Ha & Hb & Hc).
  { rewrite PGROUNDUP_mod by (unfold_layout; unfold_bounds; lia). unfold_layout. zlia. }
  assert (forall n w, (vpn (PGROUNDUP oldsz) <= n /\ n * PGSIZE < newsz) -> mp !! n = Some w -> False) as Hno.
  { intros n w Hn' Hw. rewrite Hun in Hw; [done|]. done. }
  destruct (allocuvm_loop_ok (Z.to_nat (newsz / PGSIZE + 1)) k fl tb ds d mp (PGROUNDUP oldsz) oldsz newsz)
    as (r & k' & fl' & tb' & mp' & H1 & H2 & H3 & H4 & H5); try done; try lia; try (unfold_layout; zlia).
  { split; [split|..]; intros n; lia. }
  unfold allocuvm in Hal. rewrite (proj2 (Z.leb_gt _ _)), (proj2 (Z.ltb_ge _ _)), H1 in Hal by lia. injection Hal as -> ->.
  destruct H5 as [(_ & H5 & H6 & H7 & H8)|(? & _)]; [|lia].
  assert (fresh k1 fl' tb' (<[d := mp']> ds) mp' (fun n => vpn (PGROUNDUP oldsz) <= n /\ n * PGSIZE < newsz)) as Hfr.
  { apply (fresh_insert _ _ _ _ _ _ d mp' mp _ (fun n => vpn (PGROUNDUP oldsz) <= n /\ n * PGSIZE < newsz)); [by rewrite lookup_insert_eq|done|].
    rewrite insert_insert_eq. eapply (fresh_insert _ _ _ _ _ _ d mp mp); [by rewrite lookup_insert_eq| |].
    2:{ rewrite insert_insert_eq. rewrite (insert_id ds d mp) by done. exact H5. }
    intros n Hn'. by right. }
  destruct (deallocuvm_ok k1 fl' tb' (<[d := mp']> ds) d mp' newsz oldsz H2) as (k2 & fr & G1 & G2 & G3 & G4);
    [by rewrite lookup_insert_eq|lia|unfold_layout; lia|apply Hfr|].
  assert (unmap (vpn (PGROUNDUP oldsz)) newsz mp' = mp) as Hum.
  { apply map_eq. intros n. rewrite lookup_unmap. case_decide as Hn'; [|by apply H6].
    destruct (mp !! n) eqn:E; [|done]. by destruct (Hno n z Hn' E). }
  rewrite insert_insert_eq, Hum, (insert_id ds d mp) in G2 by done.
  exists k2, (fr ++ fl'), tb'.
  assert (forall u, u ∈ fr -> exists n, (vpn (PGROUNDUP oldsz) <= n /\ n * PGSIZE < newsz) /\ mp' !! n = Some (user_pte u) /\ valid u) as Hfr1.
  { intros u (n & w & Hn' & Hw & ->)%G3. destruct (fr_page _ _ _ _ _ _ _ _ Hfr n Hn') as (u & C1 & C2 & C3).
    assert (w = user_pte u) as -> by (rewrite Hw in C1; by injection C1).
    rewrite (proj2 (proj2 (user_pte_ok u C2))). exists n. by split_and!; try lia. }
  assert (forall u, loose (fr ++ fl') tb' ds u <-> loose fl tb ds u) as Hll.
  { intros u. split.
    - intros (L1 & L2 & L3). rewrite elem_of_app in L1. assert (loose fl' tb' ds u) as Hl by (split_and!; tauto).
      apply H7 in Hl as [Hl|(n & Hn' & Hw & Hv)]; [done|]. exfalso. apply L1. left. apply G3.
      exists n, (user_pte u). split_and!; [lia|lia|done|]. symmetry. by apply user_pte_ok.
    - intros Hl. assert (loose fl' tb' ds u) as (L1 & L2 & L3) by (apply H7; by left). split_and!; [|done|done].
      rewrite elem_of_app. intros [Hu|Hu]; [|done]. destruct (Hfr1 u Hu) as (n & Hn' & Hw & Hv). by apply (H8 n u Hn' Hw Hv). }
  split_and!; [done|done|done|done|].
  intros u Hu. pose proof Hu as Hu'. apply Hll in Hu' as (L1 & L2 & L3). rewrite elem_of_app in L1.
  rewrite G4, H4; [done|done|split_and!; tauto|rewrite (loose_insert _ _ ds d mp) by done; split_and!; tauto|tauto].
Qed.

(** C37: fork's copy of the address space.  If every page below [sz] of the
    parent is mapped to a page no component manages, copyuvm does not panic:
    either it returns a new directory that maps each of those pages, with the
    same flags, to a page of its own, free before, with the same contents, and
    above them only the kernel; or it returns 0 and has given back every page
    it took.  The parent's mappings and every page in use are unchanged. *)
Theorem copyuvm_correct k fl tb ds p mp sz :
  rep k fl tb ds -> ds !! p = Some mp -> 0 <= sz <= KERNBASE ->
  (forall n, 0 <= n -> n * PGSIZE < sz -> exists w, mp !! n = Some w /\ valid (upage w) /\ loose fl tb ds (upage w)) ->
  exists r k' fl' tb' ds', copyuvm p sz k = Ok (r, k') /\ rep k' fl' tb' ds' /\
    (forall u, loose fl tb ds u -> page k' u = page k u) /\
    ((r <> 0 /\ ds !! r = None /\ exists mpc, ds' = <[r := mpc]> ds /\
        (forall n, ~ (0 <= n /\ n * PGSIZE < sz) -> mpc !! n = kernel_map !! n) /\
        (forall n, 0 <= n -> n * PGSIZE < sz -> exists w w', mp !! n = Some w /\ mpc !! n = Some w' /\
           PTE_FLAGS w' = PTE_FLAGS w /\ page k' (upage w') = page k (upage w) /\
           valid (upage w') /\ ~ loose fl tb ds (upage w') /\ loose fl' tb' ds' (upage w')) /\
        (forall n n' w w', 0 <= n -> n * PGSIZE < sz -> 0 <= n' -> n' * PGSIZE < sz ->
           mpc !! n = Some w -> mpc !! n' = Some w' -> upage w = upage w' -> n = n'))
     \/ r = 0 /\ ds' = ds /\ (forall u, loose fl' tb' ds u <-> loose fl tb ds u)).
Proof.
  intros Hr Hp Hsz Hpar. unfold copyuvm.
  destruct (setupkvm_ok k fl tb ds Hr) as (d & k1 & fl1 & tb1 & ds1 & H1 & H2 & H3 & H4 & [(Hd0 & Hdn & ->)|(-> & ->)]);
    rewrite (bind_Ok _ _ _ _ _ H1).
  2:{ exists 0, k1, fl1, tb1, ds. split_and!; [done|done|done|by right]. }
  rewrite (proj2 (Z.eqb_neq _ _) Hd0).
  assert (p <> d) as Hpd by (intros ->; congruence).
  set (pm := fun n => PTE_FLAGS (default 0 (mp !! n))). set (Ct := fun n => page k (upage (default 0 (mp !! n)))).
  destruct (copyuvm_loop_ok (Z.to_nat (sz / PGSIZE + 1)) pm Ct k1 fl1 tb1 (<[d := kernel_map]> ds) p mp d kernel_map 0 sz)
    as (r & k' & fl' & tb' & ds' & G1 & G2 & G3 & G4).
  { exact H2. }
  { rewrite lookup_insert_ne; [exact Hp|congruence]. }
  { apply lookup_insert_eq. }
  { exact Hpd. }
  { reflexivity. }
  { unfold_layout. lia. }
  { lia. }
  { unfold_layout. zlia. }
  { intros n Hn1 Hn2. destruct (Hpar n Hn1 Hn2) as (w & P1 & P2 & P3). exists w. unfold pm, Ct. rewrite P1. cbn [from_option id].
    split_and!; [done|done|done|by apply H3|by apply H4]. }
  { change (vpn 0) with 0. split; [split|..]; intros n; lia. }
  { intros n _ Hn. by apply kernel_map_user. }
  change (vpn 0) with 0 in *. rewrite G1. exists r, k', fl', tb', ds'.
  assert (forall u, loose fl tb ds u -> loose fl' tb' ds' u) as Hl.
  { intros u Hu. apply H3 in Hu. destruct G4 as [(mpd & _ & _ & _ & _ & G7 & _)|(_ & _ & G5)]; [apply G7; by left|].
    apply G5. split; [done|]. intros (n & w & [Hn1 Hn2] & Hw & _). by rewrite kernel_map_user in Hw. }
  split_and!; [done|done| |].
  - intros u Hu. rewrite G3; [by apply H4|by apply H3|by apply Hl].
  - destruct G4 as [(mpd & -> & -> & G5 & G6 & G7 & G8)|(-> & -> & G5)].
    + left. split_and!; [done|done|]. exists mpd. rewrite insert_insert_eq. split_and!; [done| | |].
      * intros n Hn. apply G6. lia.
      * intros n Hn1 Hn2. destruct (Hpar n Hn1 Hn2) as (w & P1 & P2 & P3).
        assert (0 <= n < 0 \/ 0 <= n /\ n * PGSIZE < sz) as Hin by lia.
        destruct (fr_page _ _ _ _ _ _ _ _ G5 n Hin) as (u & C1 & C2 & C3). pose proof (fr_perm _ _ _ _ _ _ _ _ G5 n Hin) as Hperm.
        destruct (upte_ok (pm n) u C2 Hperm) as (_ & _ & Hu). exists w, (upte (pm n) u). rewrite Hu.
        assert (pm n = PTE_FLAGS w) as Hpm by (unfold pm; by rewrite P1).
        destruct (rp_map _ _ _ _ Hr p mp n w Hp P1) as (_ & _ & Hodd & _).
        destruct (valid_range u C2) as (Ha & Hrg & _).
        split_and!; [done|done| | |done| |].
        -- rewrite Hpm. unfold upte. rewrite or_flags_flags; [|rewrite V2P_id by (unfold_layout; unfold_bounds; lia); unfold_layout; zlia|done].
           rewrite V2P_id by (unfold_layout; unfold_bounds; lia). rewrite !PTE_FLAGS_mod. unfold_layout. zlia.
        -- rewrite C3. unfold Ct. by rewrite P1.
        -- intros Hlu. apply (G8 n u); [lia|done|done|]. by apply H3.
        -- rewrite <-(insert_insert_eq ds d mpd kernel_map). apply G7. right. exists n. split; [lia|done].
      * intros n n' w w' A1 A2 A3 A4 W1 W2. apply (ow_inj _ _ _ _ _ (fr_owned _ _ _ _ _ _ _ _ G5) n n' w w'); (done || cbn; lia).
    + right. rewrite delete_insert_id by done. split_and!; [done|done|]. intros u. rewrite delete_insert_id in G5 by done. rewrite G5, H3.
      split; [by intros [? _]|]. intros Hu. split; [done|]. intros (n & w & [Hn1 Hn2] & Hw & _). by rewrite kernel_map_user in Hw.
Qed.

(** Every directory that setupkvm returns maps the kernel: the I/O space, the
    text (read only), the data and free memory, and the devices, each at its
    fixed place, nothing below KERNBASE and nothing for the user; with too
    little memory it returns 0 and has given every page back. *)
Theorem setupkvm_correct k fl tb ds : rep k fl tb ds ->
  exists r k' fl' tb' ds', setupkvm k = Ok (r, k') /\ rep k' fl' tb' ds' /\
    (forall u, loose fl' tb' ds' u <-> loose fl tb ds u) /\ (forall u, loose fl tb ds u -> page k' u = page k u) /\
    (r <> 0 /\ ds !! r = None /\ ds' = <[r := kernel_map]> ds \/ r = 0 /\ ds' = ds) /\
    forall n, kernel_map !! n =
      if decide (n * PGSIZE < KERNBASE) then None
      else if decide (n * PGSIZE < KERNLINK) then Some (or_flags (n * PGSIZE - KERNBASE) PTE_W)
      else if decide (n * PGSIZE < data) then Some (or_flags (n * PGSIZE - KERNBASE) 0)
      else if decide (n * PGSIZE < KERNBASE + PHYSTOP) then Some (or_flags (n * PGSIZE - KERNBASE) PTE_W)
      else if decide (n * PGSIZE < DEVSPACE) then None
      else if decide (n * PGSIZE < UINT_MOD) then Some (or_flags (n * PGSIZE) PTE_W)
      else None.
Proof.
  intros Hr. destruct (setupkvm_ok k fl tb ds Hr) as (r & k' & fl' & tb' & ds' & H1 & H2 & H3 & H4 & H5).
  exists r, k', fl', tb', ds'. split_and!; try done.
  intros n. pose proof data_aligned as Ha. pose proof data_above as Hb. pose proof end_above. pose proof end_below.
  unfold kernel_map, kmap. cbn [kmapped]. unfold KERNLINK in *.
  rewrite !V2P_id by (unfold_layout; unfold_bounds; lia).
  replace (u32 (0 - DEVSPACE)) with 33554432 by reflexivity.
  rewrite !u32_id by (unfold_layout; unfold_bounds; lia).
  rewrite !lookup_map_range, lookup_empty.
  assert (data = 4096 * (data / 4096)) as Hq by (unfold_layout; zlia). set (q := data / 4096) in *. clearbody q.
  assert (vpn data = q) as Hvq by (unfold vpn; unfold_layout; rewrite Hq; zlia).
  rewrite !Z2Nat.id by (unfold_layout; zlia).
  replace ((EXTMEM - 0) / PGSIZE) with 256 by reflexivity. replace (33554432 / PGSIZE) with 8192 by reflexivity.
  replace ((data - KERNBASE - (KERNBASE + EXTMEM - KERNBASE)) / PGSIZE) with (q - 524544) by (unfold_layout; zlia).
  replace ((PHYSTOP - (data - KERNBASE)) / PGSIZE) with (581632 - q) by (unfold_layout; zlia).
  rewrite Hvq. change (vpn KERNBASE) with 524288. change (vpn (KERNBASE + EXTMEM)) with 524544. change (vpn DEVSPACE) with 1040384.
  clear Ha Hvq. unfold_layout. unfold_bounds.
  repeat case_decide; try done; try (exfalso; lia); do 2 f_equal; lia.
Qed.
End properties2.

(** ** copyout: bytes of user memory *)

Lemma length_page_bytes ws : length (page_bytes ws) = (4 * length ws)%nat.
Proof.
  induction ws as [|w ws IH]; [done|]. change (page_bytes (w :: ws)) with (word_bytes w ++ page_bytes ws).
  rewrite length_app, IH. cbn. lia.
Qed.

Lemma page_bytes_range ws b : b ∈ page_bytes ws -> 0 <= b < 256.
Proof.
  unfold page_bytes. rewrite list_elem_of_bind. intros (w & Hb & _). unfold word_bytes in Hb.
  rewrite !elem_of_cons, elem_of_nil in Hb. destruct_or? Hb; subst; try done; apply Z.mod_pos_bound; lia.
Qed.

Lemma word_bytes_join b0 b1 b2 b3 : 0 <= b0 < 256 -> 0 <= b1 < 256 -> 0 <= b2 < 256 -> 0 <= b3 < 256 ->
  word_bytes (b0 + 256 * b1 + 65536 * b2 + 16777216 * b3) = [b0; b1; b2; b3].
Proof. intros. unfold word_bytes. repeat f_equal; zlia. Qed.

Lemma page_bytes_words n bs : length bs = (4 * n)%nat -> (forall b, b ∈ bs -> 0 <= b < 256) ->
  page_bytes (bytes_words bs) = bs /\ length (bytes_words bs) = n.
Proof.
  revert bs. induction n as [|n IH]; intros bs Hl Hb; [by destruct bs|].
  destruct bs as [|b0 [|b1 [|b2 [|b3 bs]]]]; cbn in Hl; try lia.
  destruct (IH bs) as [I1 I2]; [lia|intros b Hin; apply Hb; set_solver|].
  cbn [bytes_words]. split; [|cbn; lia].
  change (page_bytes (?w :: ?ws)) with (word_bytes w ++ page_bytes ws).
  rewrite I1, word_bytes_join by (apply Hb; set_solver). done.
Qed.

Section copyout.
Context `{Linker}.

(** The byte at user address [a]. *)
Definition user_byte (k : kmem) (mp : gmap Z Z) (a : Z) : option Z :=
  w ← mp !! vpn a; page_bytes (page k (upage w)) !! Z.to_nat (a mod PGSIZE).

Lemma uva2ka_ok k fl tb ds d mp va w : rep k fl tb ds -> ds !! d = Some mp -> 0 <= va < UINT_MOD ->
  mp !! vpn va = Some w -> Z.land w PTE_U <> 0 -> uva2ka d va k = Ok (upage w, k).
Proof.
  intros Hr Hd Hv Hw Hu. destruct (rp_map _ _ _ _ Hr d mp _ w Hd Hw) as (_ & _ & Hodd & _).
  destruct (tb !! (d, PDX va)) as [t|] eqn:Ht.
  2:{ rewrite (absent_unmapped k fl tb ds d mp va Hr Hd Hv Ht) in Hw. done. }
  unfold uva2ka. rewrite (bind_Ok _ _ _ _ _ (walk_present k fl tb ds d mp va t false Hr Hd Hv Ht)).
  destruct (pte_access k fl tb ds d mp va t Hr Hd Hv Ht) as (_ & Hld & _). rewrite (bind_Ok _ _ _ _ _ Hld), Hw.
  cbn [from_option id]. rewrite land_1, Hodd. change (1 =? 0) with false. cbv beta iota.
  by rewrite (proj2 (Z.eqb_neq _ _) Hu).
Qed.

Lemma write_bytes_ok k u off bs : wf k -> valid u -> 0 <= off -> off + Z.of_nat (length bs) <= PGSIZE ->
  (forall b, b ∈ bs -> 0 <= b < 256) ->
  exists ws, write_bytes u off bs k = Ok (tt, setp u ws k) /\ length ws = 1024%nat /\
    forall i, 0 <= i -> page_bytes ws !! Z.to_nat i =
      if decide (off <= i < off + Z.of_nat (length bs)) then bs !! Z.to_nat (i - off)
      else page_bytes (page k u) !! Z.to_nat i.
Proof.
  intros Hw Hu Ho Hl Hb. destruct (valid_range u Hu) as (_ & Hr & _).
  set (old := page_bytes (page k u)). set (new := take (Z.to_nat off) old ++ bs ++ drop (Z.to_nat off + length bs) old).
  assert (length old = 4096%nat) as Hlo by (unfold old; by rewrite length_page_bytes, page_length).
  assert (length new = (4 * 1024)%nat) as Hln.
  { unfold new. rewrite !length_app, length_take, length_drop, Hlo. unfold_layout. lia. }
  destruct (page_bytes_words 1024 new Hln) as [E1 E2].
  { intros b. unfold new. rewrite !elem_of_app. intros [Hin|[Hin|Hin]].
    - apply (page_bytes_range (page k u)). by eapply elem_of_take in Hin as (? & ? & _); apply list_elem_of_lookup_2 in H0.
    - by apply Hb.
    - apply (page_bytes_range (page k u)). apply list_elem_of_lookup_1 in Hin as [j Hj]. rewrite lookup_drop in Hj.
      by eapply list_elem_of_lookup_2. }
  exists (bytes_words new). split_and!; [|done|].
  - unfold write_bytes, mbind, M_bind, get. rewrite mapped_kva_true, (proj2 (Z.leb_le _ _)), (proj2 (Z.leb_le _ _)) by lia. done.
  - intros i Hi. rewrite E1. unfold new. destruct (decide (off <= i < off + Z.of_nat (length bs))) as [Hin|Hout].
    + rewrite lookup_app_r by (rewrite length_take; unfold_layout; lia). rewrite length_take, Hlo.
      rewrite lookup_app_l by (unfold_layout; lia). f_equal. unfold_layout. lia.
    + destruct (decide (i < off)).
      * rewrite lookup_app_l by (rewrite length_take; unfold_layout; lia). by rewrite lookup_take_lt by lia.
      * rewrite lookup_app_r by (rewrite length_take; unfold_layout; lia). rewrite length_take, Hlo.
        rewrite lookup_app_r by (unfold_layout; lia). rewrite lookup_drop. f_equal. unfold_layout. lia.
Qed.

(** The user pages that the addresses from [va] to [va + len] touch. *)
Definition touched (va len n : Z) : Prop := exists a, va <= a < va + len /\ n = vpn a.

Lemma copyout_loop_ok fuel k fl tb ds d mp va p (P : Z -> Prop) :
  rep k fl tb ds -> ds !! d = Some mp -> 0 <= va -> va + Z.of_nat (length p) <= KERNBASE -> (length p < fuel)%nat ->
  (forall b, b ∈ p -> 0 <= b < 256) -> owned fl tb ds mp P ->
  (forall n, touched va (Z.of_nat (length p)) n -> P n /\ exists w, mp !! n = Some w /\ Z.land w PTE_U <> 0) ->
  exists k', copyout_loop fuel d va p k = Ok (0, k') /\ rep k' fl tb ds /\
    (forall a, P (vpn a) -> 0 <= a -> user_byte k' mp a =
      if decide (va <= a < va + Z.of_nat (length p)) then p !! Z.to_nat (a - va) else user_byte k mp a) /\
    (forall u, (forall n w, P n -> mp !! n = Some w -> upage w <> u) -> page k' u = page k u).
Proof.
  revert k va p. induction fuel as [|fuel IH]; intros k va p Hr Hd Hv0 Hv Hf Hb Hown Ht; [lia|].
  destruct p as [|b0 p0].
  { exists k. split_and!; [done|done| |done]. intros a _ _. by rewrite decide_False by (cbn; lia). }
  set (p := b0 :: p0) in *. assert (0 < Z.of_nat (length p)) as Hp0 by (cbn; lia).
  change (copyout_loop (S fuel) d va p) with (
    pa0 ← uva2ka d (PGROUNDDOWN va);
    if (pa0 : Z) =? 0 then mret (-1) else
    _ ← write_bytes pa0 (va - PGROUNDDOWN va) (take (Z.to_nat (Z.min (PGSIZE - (va - PGROUNDDOWN va)) (Z.of_nat (length p)))) p);
    copyout_loop fuel d (u32 (PGROUNDDOWN va + PGSIZE)) (drop (Z.to_nat (Z.min (PGSIZE - (va - PGROUNDDOWN va)) (Z.of_nat (length p)))) p)).
  rewrite PGROUNDDOWN_mod. set (va0 := va - va mod PGSIZE). replace (va - va0) with (va mod PGSIZE) by (unfold va0; lia).
  set (n := Z.min (PGSIZE - va mod PGSIZE) (Z.of_nat (length p))).
  assert (0 <= va mod PGSIZE < PGSIZE) as Hm by (apply Z.mod_pos_bound; done).
  assert (0 < n <= Z.of_nat (length p) /\ n <= PGSIZE - va mod PGSIZE) as [Hn Hn2] by (unfold n; lia).
  assert (vpn va0 = vpn va /\ 0 <= va0 < UINT_MOD /\ va0 mod PGSIZE = 0) as (Hvp & Hv0' & Hv0a).
  { unfold va0, vpn. unfold_layout. unfold_bounds. zlia. }
  destruct (Ht (vpn va)) as (HP & w & Hw & HU); [exists va; split; [lia|done]|].
  destruct (ow_loose _ _ _ _ _ Hown _ w HP Hw) as [Hwv Hwl]. destruct (valid_range _ Hwv) as (_ & _ & Hw0 & _).
  rewrite <-Hvp in Hw. rewrite (bind_Ok _ _ _ _ _ (uva2ka_ok k fl tb ds d mp va0 w Hr Hd Hv0' Hw HU)), (proj2 (Z.eqb_neq _ _) Hw0).
  rewrite Hvp in Hw.
  assert (length (take (Z.to_nat n) p) = Z.to_nat n) as Hlt by (rewrite length_take; lia).
  destruct (write_bytes_ok k (upage w) (va mod PGSIZE) (take (Z.to_nat n) p)) as (ws & Hwb & Hwl2 & Hwi);
    [apply Hr|done|lia|lia| |].
  { intros b (i & Hi & _)%elem_of_take. apply Hb. by eapply list_elem_of_lookup_2. }
  rewrite (bind_Ok _ _ _ _ _ Hwb). rewrite u32_id by (unfold_layout; unfold_bounds; lia).
  set (k1 := setp (upage w) ws k) in *.
  assert (rep k1 fl tb ds) as Hr1 by (by apply rep_setp).
  assert (forall a, P (vpn a) -> 0 <= a -> user_byte k1 mp a =
      if decide (va <= a < va + n) then p !! Z.to_nat (a - va) else user_byte k mp a) as Hub1.
  { intros a HPa Ha. unfold user_byte. destruct (mp !! vpn a) as [w'|] eqn:Ew.
    2:{ rewrite decide_False; [done|]. intros Hin. assert (vpn a = vpn va) as Heq.
        { unfold vpn. unfold_layout. zlia. }
        rewrite Heq in Ew. congruence. }
    cbn [mbind option_bind]. unfold k1. rewrite page_setp. destruct (decide (upage w' = upage w)) as [He|Hne].
    - pose proof (ow_inj _ _ _ _ _ Hown _ _ _ _ HPa HP Ew Hw He) as Hvv. rewrite Hwi by (apply Z.mod_pos_bound; done).
      rewrite Hlt. assert (a - va = a mod PGSIZE - va mod PGSIZE) as Ha'.
      { unfold vpn in Hvv. pose proof (Z.div_mod a PGSIZE ltac:(done)). pose proof (Z.div_mod va PGSIZE ltac:(done)). rewrite Hvv in *. lia. }
      destruct (decide (va <= a < va + n)).
      + rewrite decide_True by lia. rewrite lookup_take_lt by lia. f_equal. lia.
      + rewrite decide_False by lia. by rewrite He.
    - rewrite decide_False; [done|]. intros Hin. apply Hne. assert (vpn a = vpn va) as Heq.
      { unfold vpn. unfold_layout. zlia. }
      rewrite Heq in Ew. congruence. }
  destruct (IH k1 (va0 + PGSIZE) (drop (Z.to_nat n) p)) as (k' & H1 & H2 & H3 & H4); try done.
  - unfold va0. unfold_layout. lia.
  - rewrite length_drop. destruct (decide (n = Z.of_nat (length p))); [|unfold va0; unfold_layout; lia].
    unfold va0 in *. unfold_layout. zlia.
  - rewrite length_drop. lia.
  - intros b Hin. apply Hb. apply list_elem_of_lookup_1 in Hin as [j Hj]. rewrite lookup_drop in Hj. by eapply list_elem_of_lookup_2.
  - intros x (a & Ha & ->). apply Ht. exists a. split; [|done]. rewrite length_drop in Ha. unfold va0 in *.
    destruct (decide (n = Z.of_nat (length p))); [lia|]. unfold n in *. lia.
  - exists k'. split_and!; [done|done| |].
    + intros a HPa Ha. rewrite H3, Hub1 by done. rewrite length_drop.
      destruct (decide (n = Z.of_nat (length p))) as [Hall|Hpart].
      * rewrite (decide_False (P := va0 + PGSIZE <= a < _)) by lia. by rewrite Hall.
      * assert (va0 + PGSIZE = va + n) as -> by (unfold va0, n in *; lia).
        destruct (decide (va + n <= a < va + n + Z.of_nat (length p - Z.to_nat n))).
        -- rewrite decide_True by lia. rewrite lookup_drop. f_equal. lia.
        -- destruct (decide (va <= a < va + n)); [by rewrite decide_True by lia|by rewrite decide_False by lia].
    + intros u Hu. rewrite H4 by done. unfold k1. rewrite page_setp, decide_False; [done|]. intros ->. by apply (Hu (vpn va) w).
Qed.
End copyout.

Section properties3.
Context `{Linker}.

(** Copyout.  When the user can reach every page that the addresses from
    [va] to [va + len] touch, and the pages in [P] belong to the process alone,
    copyout succeeds and afterwards user memory holds exactly the bytes of the
    buffer there, and what it held before elsewhere, also across page
    boundaries; no mapping and no page outside the process changes. *)
Theorem copyout_correct k fl tb ds d mp va p (P : Z -> Prop) :
  rep k fl tb ds -> ds !! d = Some mp -> 0 <= va -> va + Z.of_nat (length p) <= KERNBASE ->
  (forall b, b ∈ p -> 0 <= b < 256) -> owned fl tb ds mp P ->
  (forall n, touched va (Z.of_nat (length p)) n -> P n /\ exists w, mp !! n = Some w /\ Z.land w PTE_U <> 0) ->
  exists k', copyout d va p k = Ok (0, k') /\ rep k' fl tb ds /\
    (forall a, P (vpn a) -> 0 <= a -> user_byte k' mp a =
      if decide (va <= a < va + Z.of_nat (length p)) then p !! Z.to_nat (a - va) else user_byte k mp a) /\
    (forall u, (forall n w, P n -> mp !! n = Some w -> upage w <> u) -> page k' u = page k u).
Proof.
  intros Hr Hd Hv Hv2 Hb Ho Ht. unfold copyout. eapply (copyout_loop_ok (S (length p))); eauto.
Qed.

(** Copyout to an address whose 4 MB region has no page table does not
    return -1: uva2ka reads the entry through the NULL pointer that walkpgdir
    returned. *)
Theorem copyout_null_entry k fl tb ds d mp va p :
  rep k fl tb ds -> ds !! d = Some mp -> 0 <= va < UINT_MOD -> tb !! (d, PDX (PGROUNDDOWN va)) = None -> p <> [] ->
  copyout d va p k = Err Undefined.
Proof.
  intros Hr Hd Hv Ht Hp. destruct p as [|b p]; [done|]. unfold copyout. cbn [length copyout_loop].
  assert (0 <= PGROUNDDOWN va < UINT_MOD) as Hv' by (rewrite PGROUNDDOWN_mod; unfold_layout; unfold_bounds; zlia).
  apply bind_Err. unfold uva2ka. rewrite (bind_Ok _ _ _ _ _ (walk_absent k fl tb ds d mp _ Hr Hd Hv' Ht)).
  by apply bind_Err.
Qed.
End properties3.

Lemma copyout_null_entry_witness : copyout ex_dir 4096 [65] ex_k = Err Undefined.
Proof.
  apply (copyout_null_entry ex_k [0x80203000; 0x80202000; 0x80201000] ∅ {[ex_dir := ∅]} ex_dir ∅ 4096 [65]);
    [exact ex_rep|reflexivity|unfold_bounds; lia|reflexivity|discriminate].
Defined.

Lemma setupkvm_correct_witness :
  exists r k' fl' tb' ds', setupkvm ex_k = Ok (r, k') /\ rep k' fl' tb' ds'.
Proof.
  destruct (setupkvm_correct ex_k _ _ _ ex_rep) as (r & k' & fl' & tb' & ds' & H1 & H2 & _).
  exists r, k', fl', tb', ds'. exact (conj H1 H2).
Defined.

(** The example process, grown to one page. *)
Lemma ex_grown : exists k fl tb mp w, rep k fl tb {[ex_dir := mp]} /\ mp !! 0 = Some w /\ Z.land w PTE_U <> 0 /\
  owned fl tb {[ex_dir := mp]} mp (fun n => n = 0) /\ allocuvm ex_dir 0 4096 ex_k = Ok (4096, k).
Proof.
  assert (exists u k1, kalloc ex_k = Ok (u, k1) /\ u = 0x80203000) as (u & k1 & Hk & ->).
  { destruct (rep_kalloc ex_k _ _ _ _ ex_rep) as (k' & Hk & _). by exists 0x80203000, k'. }
  destruct (rep_kalloc ex_k _ _ _ _ ex_rep) as (k1' & Hk' & Hmem & Hr1 & Hl & Hv). rewrite Hk in Hk'. injection Hk' as <-.
  set (m := 0x80203000) in *. set (k2 := setp m zero_page k1).
  assert (rep k2 [0x80202000; 0x80201000] ∅ {[ex_dir := ∅]}) as Hr2 by (by apply rep_setp).
  destruct (mappages_one k2 _ _ _ ex_dir ∅ 0 (V2P m) (Z.lor PTE_W PTE_U) Hr2) as [(_ & ?)|(k3 & fl3 & tb3 & Hmp & Hr3 & Hk3 & Hg3)]; try done.
  rewrite insert_singleton_eq in Hr3. change (vpn 0) with 0 in Hr3.
  exists k3, fl3, tb3, (<[0 := user_pte m]> ∅), (user_pte m). split_and!; [done|done|done| |].
  - destruct (user_pte_ok m Hv) as (_ & _ & Hu). split.
    + intros n w -> Hw. rewrite lookup_insert_eq in Hw. injection Hw as <-. rewrite Hu. split; [done|].
      assert ({[ex_dir := <[0 := user_pte m]> ∅]} = <[ex_dir := <[0 := user_pte m]> ∅]> ({[ex_dir := ∅]} : gmap Z (gmap Z Z))) as ->
        by (by rewrite insert_singleton_eq).
      rewrite (loose_insert _ _ _ ex_dir ∅) by done.
      by apply (loose_grows _ _ _ _ _ _ Hg3).
    + by intros n n' w w' -> ->.
  - unfold allocuvm. change (MMAPBASE <=? 4096) with false. change (4096 <? 0) with false. cbv beta iota.
    change (Z.to_nat (4096 / PGSIZE + 1)) with 2%nat. change (PGROUNDUP 0) with 0. cbn [allocuvm_loop].
    change (negb (0 <? 4096)) with false. cbv beta iota. rewrite (bind_Ok _ _ _ _ _ Hk). change (m =? 0) with false. cbv beta iota.
    rewrite (bind_Ok _ _ _ _ _ (memset_zero m k1 Hv)). fold k2. rewrite (bind_Ok _ _ _ _ _ Hmp).
    done.
Qed.

Lemma alloc_dealloc_roundtrip_witness :
  exists k1 k2 fl2 tb2, allocuvm ex_dir 0 4096 ex_k = Ok (4096, k1) /\ deallocuvm ex_dir 4096 0 k1 = Ok (0, k2) /\
    rep k2 fl2 tb2 {[ex_dir := ∅]}.
Proof.
  destruct ex_grown as (k1 & _ & _ & _ & _ & _ & _ & _ & _ & Hal). exists k1.
  destruct (alloc_dealloc_roundtrip ex_k [0x80203000; 0x80202000; 0x80201000] ∅ {[ex_dir := ∅]} ex_dir ∅ 0 4096 k1 ex_rep)
    as (k2 & fl2 & tb2 & H1 & H2 & _); [reflexivity|lia|reflexivity|done|exact Hal|].
  exists k2, fl2, tb2. exact (conj Hal (conj H1 H2)).
Defined.

Lemma copyuvm_correct_witness :
  exists k fl tb mp w r k' fl' tb' ds', mp !! 0 = Some w /\ rep k fl tb {[ex_dir := mp]} /\
    copyuvm ex_dir 4096 k = Ok (r, k') /\ rep k' fl' tb' ds'.
Proof.
  destruct ex_grown as (k & fl & tb & mp & w & Hr & Hw & _ & Ho & _). exists k, fl, tb, mp, w.
  destruct (copyuvm_correct k fl tb {[ex_dir := mp]} ex_dir mp 4096 Hr) as (r & k' & fl' & tb' & ds' & H1 & H2 & _).
  - by rewrite lookup_singleton_eq.
  - unfold_layout. lia.
  - intros n Hn1 Hn2. assert (n = 0) as -> by (unfold_layout; lia). exists w. split; [exact Hw|]. exact (ow_loose _ _ _ _ _ Ho 0 w eq_refl Hw).
  - exists r, k', fl', tb', ds'. exact (conj Hw (conj Hr (conj H1 H2))).
Defined.

Lemma copyout_correct_witness :
  exists k fl tb mp k', rep k fl tb {[ex_dir := mp]} /\ copyout ex_dir 100 [72; 105] k = Ok (0, k') /\
    user_byte k' mp 101 = Some 105.
Proof.
  destruct ex_grown as (k & fl & tb & mp & w & Hr & Hw & HU & Ho & _). exists k, fl, tb, mp.
  destruct (copyout_correct k fl tb {[ex_dir := mp]} ex_dir mp 100 [72; 105] (fun n => n = 0) Hr) as (k' & H1 & _ & H2 & _).
  - by rewrite lookup_singleton_eq.
  - lia.
  - unfold_layout. cbn. lia.
  - intros b Hb. rewrite !elem_of_cons, elem_of_nil in Hb. destruct_or? Hb; subst; try done; lia.
  - exact Ho.
  - intros n (a & Ha & ->). cbn in Ha. assert (vpn a = 0) as -> by (unfold vpn; unfold_layout; zlia). split; [done|]. by exists w.
  - exists k'. split; [exact Hr|]. split; [exact H1|]. rewrite (H2 101) by done. reflexivity.
Defined.
