(* ===== verification/File.v ===== *)
(** * The file table, xv6 wmap/solution/file.c and file.h

    A [struct file *] is an index into the table ([None] is NULL).  What the
    table needs from pipes and inodes is the class [Fs]; [FsOk] states what
    those operations promise for regular files. *)
From S2P Require Import Prelude.

Definition NFILE : nat := 100.

Inductive ftype : Type := FD_NONE | FD_PIPE | FD_INODE.

Record file : Type := mkFile {
  type : ftype;
  ref : Z;
  readable : bool;
  writable : bool;
  pipe : Z;
  ip : Z;
  off : Z
}.

#[export] Instance ftype_eq_dec : EqDecision ftype.
Proof. solve_decision. Defined.
#[export] Instance file_eq_dec : EqDecision file.
Proof. solve_decision. Defined.

Definition set_ref (r : Z) (f : file) : file := mkFile (type f) r (readable f) (writable f) (pipe f) (ip f) (off f).
Definition set_off (o : Z) (f : file) : file := mkFile (type f) (ref f) (readable f) (writable f) (pipe f) (ip f) o.
Definition set_none (f : file) : file := mkFile FD_NONE 0 (readable f) (writable f) (pipe f) (ip f) (off f).

(** What pipe.c, fs.c and log.c offer to file.c and wmap.c.  Reads return the
    result and the bytes read; stati the fields of [struct stat]. *)
Class Fs (FS : Type) : Type := {
  pipeclose : Z -> bool -> M FS unit;
  piperead : Z -> Z -> M FS (Z * list Z);
  pipewrite : Z -> list Z -> M FS Z;
  begin_op : M FS unit;
  end_op : M FS unit;
  ilock : Z -> M FS unit;
  iunlock : Z -> M FS unit;
  iput : Z -> M FS unit;
  idup : Z -> M FS unit;
  readi : Z -> Z -> Z -> M FS (Z * list Z);
  writei : Z -> list Z -> Z -> M FS Z;
  stati : Z -> M FS (list Z)
}.

Record fstate (FS : Type) : Type := mkFstate { ftable : list file; fsys : FS }.
Arguments mkFstate {FS}.
Arguments ftable {FS}.
Arguments fsys {FS}.

Section file.
Context {FS : Type} `{Fs FS}.

(** A locked read, and a locked write as a transaction of its own. *)
Definition readi_op (i o n : Z) : M FS (Z * list Z) :=
  _ ← ilock i; r ← readi i o n; _ ← iunlock i; mret r.
Definition writei_op (i : Z) (bs : list Z) (o : Z) : M FS Z :=
  _ ← begin_op; _ ← ilock i; r ← writei i bs o; _ ← iunlock i; _ ← end_op; mret r.

Definition fs_op {A} (m : M FS A) : M (fstate FS) A := fun s =>
  match m (fsys s) with
  | Ok (a, fs) => Ok (a, mkFstate (ftable s) fs)
  | Err e => Err e
  end.

Definition get_file (f : nat) : M (fstate FS) file :=
  s ← get; match ftable s !! f with Some x => mret x | None => fail Undefined end.
Definition put_file (f : nat) (x : file) : M (fstate FS) unit :=
  modify (fun s => mkFstate (<[f := x]> (ftable s)) (fsys s)).

Definition filealloc : M (fstate FS) (option nat) :=
  s ← get;
  match list_find (fun x => ref x = 0) (ftable s) with
  | Some (i, x) => _ ← put_file i (set_ref 1 x); mret (Some i)
  | None => mret None
  end.

Definition filedup (f : nat) : M (fstate FS) nat :=
  x ← get_file f;
  if ref x <? 1 then fail Panic else
  r ← lift (sint (ref x + 1));
  _ ← put_file f (set_ref r x);
  mret f.

Definition fileclose (f : nat) : M (fstate FS) unit :=
  x ← get_file f;
  if ref x <? 1 then fail Panic else
  if 0 <? ref x - 1 then put_file f (set_ref (ref x - 1) x) else
  _ ← put_file f (set_none x);
  match type x with
  | FD_PIPE => fs_op (pipeclose (pipe x) (writable x))
  | FD_INODE => _ ← fs_op begin_op; _ ← fs_op (iput (ip x)); fs_op end_op
  | FD_NONE => mret tt
  end.

Definition filestat (f : nat) : M (fstate FS) (Z * list Z) :=
  x ← get_file f;
  match type x with
  | FD_INODE => _ ← fs_op (ilock (ip x)); st ← fs_op (stati (ip x)); _ ← fs_op (iunlock (ip x)); mret (0, st)
  | _ => mret (-1, [])
  end.

Definition fileread (f : nat) (n : Z) : M (fstate FS) (Z * list Z) :=
  x ← get_file f;
  if negb (readable x) then mret (-1, []) else
  match type x with
  | FD_PIPE => fs_op (piperead (pipe x) n)
  | FD_INODE =>
      _ ← fs_op (ilock (ip x));
      rb ← fs_op (readi (ip x) (off x) (u32 n));
      _ ← (if 0 <? rb.1 then put_file f (set_off (u32 (off x + rb.1)) x) else mret tt);
      _ ← fs_op (iunlock (ip x));
      mret rb
  | FD_NONE => fail Panic
  end.

(** The chunks of filewrite and of write_to_file: [MAXOPBLOCKS] is 10. *)
Definition max_chunk : Z := (10 - 1 - 1 - 2) / 2 * 512.

(** filewrite from byte [i] of [bs] on: the number of bytes written so far. *)
Fixpoint filewrite_loop (fuel : nat) (f : nat) (bs : list Z) (i : Z) : M (fstate FS) Z :=
  if negb (i <? Z.of_nat (length bs)) then mret i else
  match fuel with
  | O => fail OutOfFuel
  | S fuel' =>
      let n1 := Z.min (Z.of_nat (length bs) - i) max_chunk in
      x ← get_file f;
      _ ← fs_op begin_op;
      _ ← fs_op (ilock (ip x));
      r ← fs_op (writei (ip x) (take (Z.to_nat n1) (drop (Z.to_nat i) bs)) (off x));
      _ ← (if 0 <? (r : Z) then put_file f (set_off (u32 (off x + r)) x) else mret tt);
      _ ← fs_op (iunlock (ip x));
      _ ← fs_op end_op;
      if r <? 0 then mret i
      else if negb (r =? n1) then fail Panic
      else filewrite_loop fuel' f bs (i + r)
  end.

Definition filewrite (f : nat) (bs : list Z) : M (fstate FS) Z :=
  x ← get_file f;
  if negb (writable x) then mret (-1) else
  match type x with
  | FD_PIPE => fs_op (pipewrite (pipe x) bs)
  | FD_INODE =>
      i ← filewrite_loop (S (length bs)) f bs 0;
      mret (if (i : Z) =? Z.of_nat (length bs) then Z.of_nat (length bs) else -1)
  | FD_NONE => fail Panic
  end.
End file.

(** ** Writing through a file descriptor *)

(** The largest file, MAXFILE blocks of 512 bytes. *)
Definition max_file : Z := (12 + 128) * 512.

(** What a write promises.  [ready] says that [n] bytes at offset [o] of an inode
    can be written; then a chunk of them, written inside or at the end of the
    file, goes in whole and to that inode alone, and the rest can still be
    written. *)
Class FsOk (FS : Type) `{Fs FS} : Type := {
  contents : FS -> Z -> list Z;
  ready : FS -> Z -> Z -> Z -> Prop;
  writei_ok : forall fs i bs o n, ready fs i o n -> 0 <= o <= Z.of_nat (length (contents fs i)) ->
    Forall (fun v => 0 <= v < 256) bs -> Z.of_nat (length bs) <= max_chunk -> Z.of_nat (length bs) <= n -> o + n <= max_file ->
    exists fs', writei_op i bs o fs = Ok (Z.of_nat (length bs), fs') /\
      contents fs' i = write_at (Z.to_nat o) bs (contents fs i) /\ (forall j, j <> i -> contents fs' j = contents fs j) /\
      ready fs' i (o + Z.of_nat (length bs)) (n - Z.of_nat (length bs))
}.

Section filewrite.
Context {FS : Type} `{FsOk FS}.

Lemma bind_Ok_inv {S A B} (m : M S A) (k : A -> M S B) s r : mbind k m s = Ok r -> exists a s', m s = Ok (a, s') /\ k a s' = Ok r.
Proof. unfold mbind, M_bind. destruct (m s) as [[a s']|]; [|done]. intros Hk. by exists a, s'. Qed.

(** The steps of a locked write, one by one. *)
Lemma writei_op_inv i bs o (fs fs' : FS) r : writei_op i bs o fs = Ok (r, fs') -> exists f1 f2 f3 f4,
  begin_op fs = Ok (tt, f1) /\ ilock i f1 = Ok (tt, f2) /\ writei i bs o f2 = Ok (r, f3) /\ iunlock i f3 = Ok (tt, f4) /\ end_op f4 = Ok (tt, fs').
Proof.
  unfold writei_op. intros ([] & f1 & E1 & ([] & f2 & E2 & (r' & f3 & E3 & ([] & f4 & E4 & ([] & f5 & E5 & E6)%bind_Ok_inv)%bind_Ok_inv)%bind_Ok_inv)%bind_Ok_inv)%bind_Ok_inv.
  injection E6 as -> ->. by exists f1, f2, f3, f4.
Qed.

Lemma fs_op_ok {A} (m : M FS A) s a fs' : m (fsys s) = Ok (a, fs') -> fs_op m s = Ok (a, mkFstate (ftable s) fs').
Proof. intros Hm. unfold fs_op. by rewrite Hm. Qed.

Lemma filewrite_loop_ok fuel f bs i (s : fstate FS) x : ftable s !! f = Some x -> (i <= length bs)%nat -> (length bs - i < fuel)%nat ->
  Forall (fun v => 0 <= v < 256) bs -> ready (fsys s) (ip x) (off x) (Z.of_nat (length bs - i)) ->
  0 <= off x <= Z.of_nat (length (contents (fsys s) (ip x))) -> off x + Z.of_nat (length bs - i) <= max_file ->
  exists fs', filewrite_loop fuel f bs (Z.of_nat i) s =
      Ok (Z.of_nat (length bs), mkFstate (<[f := set_off (off x + Z.of_nat (length bs - i)) x]> (ftable s)) fs') /\
    contents fs' (ip x) = write_at (Z.to_nat (off x)) (drop i bs) (contents (fsys s) (ip x)) /\
    forall j, j <> ip x -> contents fs' j = contents (fsys s) j.
Proof.
  revert i s x. induction fuel as [|fuel IH]; intros i s x Hx Hi Hf Hby Hrd Ho Hm; [lia|]. cbn [filewrite_loop].
  destruct (Z.ltb_spec (Z.of_nat i) (Z.of_nat (length bs))) as [Hlt|Hge]; cbn [negb].
  2:{ assert (i = length bs) as -> by lia. exists (fsys s). rewrite drop_all, write_at_nil, Nat.sub_diag, Z.add_0_r.
    split_and!; [|done|done]. rewrite list_insert_id; [by destruct s|]. rewrite Hx. by destruct x. }
  set (n := Z.to_nat (Z.min (Z.of_nat (length bs) - Z.of_nat i) max_chunk)).
  assert (Z.min (Z.of_nat (length bs) - Z.of_nat i) max_chunk = Z.of_nat n /\ (0 < n <= length bs - i)%nat /\ Z.of_nat n <= max_chunk) as (En & Hn & Hc).
  { subst n. change max_chunk with 1536. lia. }
  rewrite En, !Nat2Z.id.
  assert (length (take n (drop i bs)) = n) as Hl by (rewrite length_take, length_drop; lia).
  erewrite bind_Ok by (unfold get_file, mbind, M_bind, get; rewrite Hx; reflexivity).
  destruct (writei_ok (fsys s) (ip x) (take n (drop i bs)) (off x) _ Hrd Ho) as (fs' & W1 & W2 & W3 & W4); rewrite ?Hl; [by apply Forall_take, Forall_drop|lia..|].
  rewrite Hl in W1, W4. destruct (writei_op_inv _ _ _ _ _ _ W1) as (f1 & f2 & f3 & f4 & E1 & E2 & E3 & E4 & E5).
  erewrite bind_Ok by (apply fs_op_ok; exact E1). erewrite bind_Ok by (apply fs_op_ok; exact E2). erewrite bind_Ok by (apply fs_op_ok; exact E3).
  rewrite (proj2 (Z.ltb_lt 0 _)), (proj2 (Z.ltb_ge _ 0)), Z.eqb_refl by lia.
  erewrite bind_Ok by reflexivity. erewrite bind_Ok by (apply fs_op_ok; exact E4). erewrite bind_Ok by (apply fs_op_ok; exact E5).
  cbn [ftable fsys negb]. cbv beta iota. rewrite <-Nat2Z.inj_add.
  rewrite u32_id by (unfold max_file in Hm; unfold_bounds; lia).
  destruct (IH (i + n)%nat (mkFstate (<[f := set_off (off x + Z.of_nat n) x]> (ftable s)) fs') (set_off (off x + Z.of_nat n) x))
    as (fs2 & H1 & H2 & H3); cbn [ftable fsys off ip set_off]; try lia; try done.
  { apply list_lookup_insert_eq. by eapply lookup_lt_Some. }
  { replace (Z.of_nat (length bs - (i + n))) with (Z.of_nat (length bs - i) - Z.of_nat n) by lia. exact W4. }
  { rewrite W2, length_write_at; lia. }
  cbn [ftable fsys off ip set_off type ref readable writable pipe] in H1, H2, H3. exists fs2. split_and!.
  - rewrite H1, list_insert_insert_eq. unfold set_off. cbn [type ref readable writable pipe ip off]. do 5 f_equal. lia.
  - rewrite H2, W2. rewrite Z2Nat.inj_add, Nat2Z.id by lia. rewrite <-Hl at 1. rewrite write_at_app by lia.
    f_equal. rewrite <-drop_drop. by rewrite take_drop.
  - intros j Hj. rewrite H3, W3 by done. done.
Qed.

(** A write to an inode.  However many chunks it takes, filewrite puts all
    the bytes into the inode at the file's offset, moves the offset past them,
    returns their number and changes no other inode and no other file. *)
Theorem filewrite_whole f bs (s : fstate FS) x :
  ftable s !! f = Some x -> type x = FD_INODE -> writable x = true -> Forall (fun v => 0 <= v < 256) bs ->
  ready (fsys s) (ip x) (off x) (Z.of_nat (length bs)) ->
  0 <= off x <= Z.of_nat (length (contents (fsys s) (ip x))) -> off x + Z.of_nat (length bs) <= max_file ->
  exists fs', filewrite f bs s =
      Ok (Z.of_nat (length bs), mkFstate (<[f := set_off (off x + Z.of_nat (length bs)) x]> (ftable s)) fs') /\
    contents fs' (ip x) = write_at (Z.to_nat (off x)) bs (contents (fsys s) (ip x)) /\
    forall j, j <> ip x -> contents fs' j = contents (fsys s) j.
Proof.
  intros Hx Ht Hw Hby Hrd Ho Hm. destruct (filewrite_loop_ok (S (length bs)) f bs 0 s x Hx) as (fs' & H1 & H2 & H3); rewrite ?Nat.sub_0_r; [lia|lia|done..|].
  rewrite Nat.sub_0_r in H1. exists fs'. split_and!; [|done|done]. unfold filewrite.
  erewrite bind_Ok by (unfold get_file, mbind, M_bind, get; rewrite Hx; reflexivity). rewrite Hw, Ht. cbn [negb]. cbv beta iota.
  change 0 with (Z.of_nat 0). rewrite (bind_Ok _ _ _ _ _ H1). by rewrite Z.eqb_refl.
Qed.
End filewrite.

(** A disk that keeps the bytes of every inode. *)
Definition ex_disk : Fs (gmap Z (list Z)) :=
  {| pipeclose _ _ := mret tt; piperead _ _ := mret (0, []); pipewrite _ _ := mret 0; begin_op := mret tt; end_op := mret tt;
     ilock _ := mret tt; iunlock _ := mret tt; iput _ := mret tt; idup _ := mret tt; stati _ := mret [];
     readi i o n := fun fs => let l := take (Z.to_nat n) (drop (Z.to_nat o) (default [] (fs !! i))) in Ok ((Z.of_nat (length l), l), fs);
     writei i bs o := fun fs => Ok (Z.of_nat (length bs), <[i := write_at (Z.to_nat o) bs (default [] (fs !! i))]> fs) |}.

Lemma ex_disk_writes (fs : gmap Z (list Z)) i bs o (n : Z) : True -> 0 <= o <= Z.of_nat (length (default [] (fs !! i))) ->
  Forall (fun v => 0 <= v < 256) bs -> Z.of_nat (length bs) <= max_chunk -> Z.of_nat (length bs) <= n -> o + n <= max_file ->
  exists fs', @writei_op _ ex_disk i bs o fs = Ok (Z.of_nat (length bs), fs') /\
    default [] (fs' !! i) = write_at (Z.to_nat o) bs (default [] (fs !! i)) /\
    (forall j, j <> i -> default [] (fs' !! j) = default [] (fs !! j)) /\ True.
Proof.
  intros _ _ _ _ _ _. eexists. split; [reflexivity|]. split; [by rewrite lookup_insert_eq|]. split; [|done]. intros j Hj. by rewrite lookup_insert_ne.
Qed.

Definition ex_disk_ok : @FsOk (gmap Z (list Z)) ex_disk := {| contents fs i := default [] (fs !! i); ready _ _ _ _ := True; writei_ok := ex_disk_writes |}.

Lemma filewrite_whole_witness :
  let x := mkFile FD_INODE 1 true true 0 7 2 in
  exists fs', @filewrite _ ex_disk 0 (replicate 2000 65) (mkFstate [x] {[7 := [1; 2; 3]]}) =
      Ok (2000, mkFstate [set_off 2002 x] fs') /\ default [] (fs' !! 7) = [1; 2] ++ replicate 2000 65.
Proof.
  intros x. destruct (@filewrite_whole _ ex_disk ex_disk_ok 0%nat (replicate 2000 65) (mkFstate [x] {[7 := [1; 2; 3]]}) x) as (fs' & H1 & H2 & _);
    [reflexivity..|by apply Forall_replicate|done|by vm_compute|by rewrite length_replicate|].
  exists fs'. split; [|exact H2]. rewrite H1, length_replicate. reflexivity.
Defined.
