(* ===== verification/Wmap.v ===== *)
(** * Memory mappings, xv6 wmap/solution/wmap.c

    The state holds the kernel memory, the file table and the process table.  A
    process keeps sixteen region slots, linked through slot indices in the
    order of [next]; an unused slot has address 2^32 - 1.  User memory is
    accessed through the page table of the current process. *)
From S2P Require Import Prelude Kalloc Vm File.

Definition MAX_NMMAP : nat := 16.
Definition MAX_WMMAP_INFO : nat := 16.
Definition MAX_UPAGE_INFO : nat := 32.
Definition NOFILE : Z := 16.
Definition FAILED : Z := -1.
Definition MAP_PRIVATE : Z := 1.
Definition MAP_SHARED : Z := 2.
Definition MAP_ANONYMOUS : Z := 4.
Definition MAP_FIXED : Z := 8.

(** [(uint)-1], the address of an unused slot. *)
Definition NO_ADDR : Z := UINT_MOD - 1.

Record mmap_region : Type := mkRegion {
  addr : Z;
  len : Z;
  flags : Z;
  fd : Z;
  f : option nat;
  refcnt : Z;
  n_loaded_pages : Z;
  next : option nat
}.

Definition set_next (n : option nat) (r : mmap_region) : mmap_region :=
  mkRegion (addr r) (len r) (flags r) (fd r) (f r) (refcnt r) (n_loaded_pages r) n.
Definition set_addr (a : Z) (r : mmap_region) : mmap_region :=
  mkRegion a (len r) (flags r) (fd r) (f r) (refcnt r) (n_loaded_pages r) (next r).
Definition set_len (l : Z) (r : mmap_region) : mmap_region :=
  mkRegion (addr r) l (flags r) (fd r) (f r) (refcnt r) (n_loaded_pages r) (next r).
Definition set_loaded (n : Z) (r : mmap_region) : mmap_region :=
  mkRegion (addr r) (len r) (flags r) (fd r) (f r) (refcnt r) n (next r).
Definition set_refcnt (c : Z) (r : mmap_region) : mmap_region :=
  mkRegion (addr r) (len r) (flags r) (fd r) (f r) c (n_loaded_pages r) (next r).

(** The fields of [struct proc] that wmap.c uses. *)
Record proc : Type := mkProc {
  pgdir : Z;
  kstack : Z;
  parent : option nat;
  ofile : list (option nat);
  mmaps : list mmap_region;
  mmap_head : option nat;
  total_mmaps : Z
}.

Definition set_maps (ms : list mmap_region) (h : option nat) (t : Z) (p : proc) : proc :=
  mkProc (pgdir p) (kstack p) (parent p) (ofile p) ms h t.
Definition upd_region (i : nat) (g : mmap_region -> mmap_region) (p : proc) : proc :=
  set_maps (alter g i (mmaps p)) (mmap_head p) (total_mmaps p) p.

(** init_one_mmap and init_mmaps *)
Definition init_region : mmap_region := mkRegion NO_ADDR (-1) (-1) (-1) None 0 0 None.
Definition init_one_mmap (i : nat) (p : proc) : proc := upd_region i (fun _ => init_region) p.
Definition init_mmaps (p : proc) : proc := set_maps (replicate MAX_NMMAP init_region) None 0 p.

Definition has (fl m : Z) : bool := negb (Z.land fl m =? 0).

(** The end of a region, in [uint] arithmetic. *)
Definition rend (r : mmap_region) : Z := u32 (addr r + len r).

(** ** Placement *)

Definition validate_input (a length fl fd : Z) (fp : option nat) : Z :=
  if length <=? 0 then -1
  else if Bool.eqb (has fl MAP_SHARED) (has fl MAP_PRIVATE) then -1
  else if negb (has fl MAP_ANONYMOUS) && (if fp then false else true) then -1
  else if has fl MAP_FIXED then
    if negb (a mod PGSIZE =? 0) then -1
    else if (a <? MMAPBASE) || (KERNBASE <=? a) then -1
    else if KERNBASE <? u32 (a + length) then -1
    else 0
  else 0.

Definition find_unused_mmap (p : proc) : option nat :=
  fst <$> list_find (fun r => addr r = NO_ADDR) (mmaps p).

Definition region (p : proc) (i : nat) : mmap_region := default init_region (mmaps p !! i).

(** Walking the list: the first slot whose region satisfies [test]; also the
    slot before it. *)
Fixpoint find_region (fuel : nat) (test : mmap_region -> bool) (p : proc) (prev cur : option nat)
    : result (option (option nat * nat)) :=
  match cur with
  | None => Ok None
  | Some i =>
      match fuel with
      | O => Err OutOfFuel
      | S fuel' =>
          if test (region p i) then Ok (Some (prev, i))
          else find_region fuel' test p (Some i) (next (region p i))
      end
  end.

Definition list_fuel : nat := S MAX_NMMAP.

(** The slot after which the region at [a] goes: the last one with a smaller
    address, from [prev] on. *)
Fixpoint insert_after (fuel : nat) (p : proc) (a : Z) (prev : nat) : result nat :=
  match next (region p prev) with
  | None => Ok prev
  | Some j =>
      match fuel with
      | O => Err OutOfFuel
      | S fuel' => if addr (region p j) <? a then insert_after fuel' p a j else Ok prev
      end
  end.

Definition link (p : proc) (m : nat) (a : Z) : result proc :=
  let p1 := upd_region m (set_addr a) p in
  match mmap_head p1 with
  | None => Ok (set_maps (mmaps (upd_region m (set_next None) p1)) (Some m) (total_mmaps p) p)
  | Some h =>
      if a <? addr (region p1 h) then
        Ok (set_maps (mmaps (upd_region m (set_next (Some h)) p1)) (Some m) (total_mmaps p) p)
      else
        prev ← insert_after list_fuel p1 a h;
        let p2 := upd_region m (set_next (next (region p1 prev))) p1 in
        Ok (upd_region prev (set_next (Some m)) p2)
  end.

Definition fix_addr_place_mmap (p : proc) (a length fl : Z) : result (option nat * proc) :=
  let e := u32 (a + length) in
  o ← find_region list_fuel (fun r => (a <? rend r) && (addr r <? e)) p None (mmap_head p);
  match o with
  | Some _ => Ok (None, p)
  | None =>
      match find_unused_mmap p with
      | None => Ok (None, p)
      | Some m => p' ← link p m a; Ok (Some m, p')
      end
  end.

(** The loop of find_addr_place_mmap: the start of the gap. *)
Fixpoint find_gap (fuel : nat) (p : proc) (length start : Z) (cur : option nat) : result Z :=
  match cur with
  | None => Ok start
  | Some i =>
      match fuel with
      | O => Err OutOfFuel
      | S fuel' =>
          let r := region p i in
          if u32 (start + length) <=? addr r then Ok start else
          let start1 := if start <? rend r then rend r else start in
          let start2 := if negb (start1 mod PGSIZE =? 0) then PGROUNDUP start1 else start1 in
          find_gap fuel' p length start2 (next r)
      end
  end.

Definition find_addr_place_mmap (p : proc) (length fl : Z) : result (option nat * proc) :=
  start ← find_gap list_fuel p length MMAPBASE (mmap_head p);
  if KERNBASE <? u32 (start + length) then Ok (None, p)
  else fix_addr_place_mmap p start length fl.

(** ** The state *)
Section wmap.
Context `{Linker} {FS : Type} `{Fs FS}.

Record world : Type := mkWorld { km : kmem; files : fstate FS; procs : list proc }.

Definition with_mem {A} (m : M kmem A) : M world A := fun w =>
  match m (km w) with Ok (a, k) => Ok (a, mkWorld k (files w) (procs w)) | Err e => Err e end.
Definition with_files {A} (m : M (fstate FS) A) : M world A := fun w =>
  match m (files w) with Ok (a, s) => Ok (a, mkWorld (km w) s (procs w)) | Err e => Err e end.
Definition getp (me : nat) : M world proc :=
  w ← get; match procs w !! me with Some p => mret p | None => fail Undefined end.
Definition setp_ (me : nat) (p : proc) : M world unit :=
  modify (fun w => mkWorld (km w) (files w) (<[me := p]> (procs w))).
Definition updp (me : nat) (g : proc -> proc) : M world unit := p ← getp me; setp_ me (g p).

(** A byte of user memory, as the processor reads it. *)
Definition user_load (pd a : Z) : M world Z :=
  pte ← with_mem (walkpgdir pd a false);
  if (pte : Z) =? 0 then fail Undefined else
  w ← with_mem (load pte);
  if Z.land w PTE_P =? 0 then fail Undefined else
  k ← get;
  match page_bytes (page (km k) (P2V (PTE_ADDR w))) !! Z.to_nat (a mod PGSIZE) with
  | Some b => mret b
  | None => fail Undefined
  end.
Fixpoint user_read (pd a : Z) (n : nat) : M world (list Z) :=
  match n with
  | O => mret []
  | S n' => b ← user_load pd a; bs ← user_read pd (a + 1) n'; mret (b :: bs)
  end.

Definition user_store (pd a b : Z) : M world unit :=
  pte ← with_mem (walkpgdir pd a false);
  if (pte : Z) =? 0 then fail Undefined else
  w ← with_mem (load pte);
  if Z.land w PTE_P =? 0 then fail Undefined else
  with_mem (write_bytes (P2V (PTE_ADDR w)) (a mod PGSIZE) [b]).
Fixpoint user_write (pd a : Z) (bs : list Z) : M world unit :=
  match bs with
  | [] => mret tt
  | b :: bs' => _ ← user_store pd a b; user_write pd (a + 1) bs'
  end.

(** switchuvm (vm.c): its panics; the registers it loads are not modelled. *)
Definition switchuvm (p : proc) : M world unit :=
  if kstack p =? 0 then fail Panic else if pgdir p =? 0 then fail Panic else mret tt.

(** write_to_file, from byte [i] on. *)
Fixpoint write_to_file_loop (fuel : nat) (pd : Z) (fp : nat) (va offset n_bytes i : Z) : M world Z :=
  if negb (i <? n_bytes) then mret i else
  match fuel with
  | O => fail OutOfFuel
  | S fuel' =>
      let n1 := Z.min (n_bytes - i) max_chunk in
      bs ← user_read pd (va + i) (Z.to_nat n1);
      x ← with_files (get_file fp);
      r ← with_files (fs_op (writei_op (ip x) bs offset));
      let offset' := if 0 <? (r : Z) then offset + r else offset in
      if r <? 0 then mret i
      else if negb (r =? n1) then fail Panic
      else write_to_file_loop fuel' pd fp va offset' n_bytes (i + r)
  end.

Definition write_to_file (pd : Z) (fp : nat) (va offset n_bytes : Z) : M world Z :=
  i ← write_to_file_loop (S (Z.to_nat n_bytes)) pd fp va offset n_bytes 0;
  mret (if (i : Z) =? n_bytes then n_bytes else -1).

Definition get_physical_page (pd va : Z) : M world (option (Z * Z)) :=
  pt ← with_mem (walkpgdir pd va false);
  if (pt : Z) =? 0 then mret None else
  w ← with_mem (load pt);
  if Z.land w PTE_P =? 0 then mret None else mret (Some (pt, PTE_ADDR w)).

Fixpoint count_loaded_loop (fuel : nat) (pd va e count : Z) : M world Z :=
  if negb (va <? e) then mret count else
  match fuel with
  | O => fail OutOfFuel
  | S fuel' =>
      pte ← with_mem (walkpgdir pd va false);
      w ← (if (pte : Z) =? 0 then mret 0 else with_mem (load pte));
      count_loaded_loop fuel' pd (u32 (va + PGSIZE)) e (if Z.land w PTE_P =? 0 then count else count + 1)
  end.
Definition pages_fuel (a e : Z) : nat := Z.to_nat ((e - a) / PGSIZE + 1).
Definition count_loaded_pages (pd start e : Z) : M world Z :=
  count_loaded_loop (pages_fuel start e) pd start e 0.

(** ** Unmapping *)

(** The loops of remove_map, sys_wpunmap and delete_mmaps over the pages from
    [va] to [e] of the region in slot [i]: [wb] tells whether pages go to the
    file, [fr] whether they are freed, [cnt] whether n_loaded_pages counts. *)
Fixpoint unmap_pages (fuel : nat) (me i : nat) (wb fr cnt : bool) (va e : Z) : M world unit :=
  if negb (va <? e) then mret tt else
  match fuel with
  | O => fail OutOfFuel
  | S fuel' =>
      p ← getp me;
      let r := region p i in
      pte ← with_mem (walkpgdir (pgdir p) va false);
      w ← (if (pte : Z) =? 0 then mret 0 else with_mem (load pte));
      _ ← (if Z.land w PTE_P =? 0 then mret tt else
           _ ← (match f r with
                | Some fp => if wb then _ ← write_to_file (pgdir p) fp va (va - addr r) PGSIZE; mret tt else mret tt
                | None => mret tt
                end);
           _ ← (if fr then with_mem (kfree (P2V (PTE_ADDR w))) else mret tt);
           _ ← with_mem (store pte 0);
           if cnt then updp me (upd_region i (fun r => set_loaded (n_loaded_pages r - 1) r)) else mret tt);
      unmap_pages fuel' me i wb fr cnt (u32 (va + PGSIZE)) e
  end.

Definition file_backed_shared (r : mmap_region) : bool := negb (has (flags r) MAP_ANONYMOUS) && has (flags r) MAP_SHARED.

Definition remove_map (me : nat) (a : Z) : M world Z :=
  p ← getp me;
  o ← lift (find_region list_fuel (fun r => addr r =? a) p None (mmap_head p));
  match o with
  | None => mret (-1)
  | Some (prev, i) =>
      let r := region p i in
      let own := refcnt r =? 0 in
      _ ← unmap_pages (pages_fuel (addr r) (rend r)) me i (file_backed_shared r) own false (addr r) (rend r);
      _ ← (match f r with
           | Some fp => if own then _ ← with_files (fileclose fp); mret tt else mret tt
           | None => mret tt
           end);
      _ ← updp me (fun p =>
            match prev with
            | None => set_maps (mmaps p) (next (region p i)) (total_mmaps p) p
            | Some j => upd_region j (set_next (next (region p i))) p
            end);
      _ ← updp me (fun p => init_one_mmap i (set_maps (mmaps p) (mmap_head p) (total_mmaps p - 1) p));
      p ← getp me;
      _ ← switchuvm p;
      mret 0
  end.

(** ** System calls

    [argint n] is what argint finds for argument [n] on the user stack. *)

Definition argfd (argint : nat -> option Z) (n : nat) (p : proc) : option (Z * nat) :=
  fd ← argint n;
  if (fd <? 0) || (NOFILE <=? fd) then None else
  o ← ofile p !! Z.to_nat fd;
  fp ← (o : option nat);
  Some (fd, fp).

Definition sys_wmap (argint : nat -> option Z) (me : nat) : M world Z :=
  match argint 0%nat, argint 1%nat, argint 2%nat with
  | Some a0, Some length, Some fl =>
      let a := u32 a0 in
      p ← getp me;
      o ← (match argfd argint 3 p with
           | None => mret (-1, None)
           | Some (fd, fp) => fp' ← with_files (filedup fp); mret (fd, Some fp')
           end);
      let '(fd, fp) := (o : Z * option nat) in
      if validate_input a length fl fd fp <? 0 then mret FAILED else
      let close := match fp with Some x => with_files (fileclose x) | None => mret tt end in
      if Z.of_nat MAX_NMMAP <=? total_mmaps p then _ ← close; mret FAILED else
      q ← lift (if has fl MAP_FIXED then fix_addr_place_mmap p a length fl else find_addr_place_mmap p length fl);
      match q with
      | (None, _) => _ ← close; mret FAILED
      | (Some m, p1) =>
          let p2 := upd_region m (fun r => mkRegion (addr r) length fl fd fp 0 0 (next r)) p1 in
          let p3 := set_maps (mmaps p2) (mmap_head p2) (total_mmaps p2 + 1) p2 in
          _ ← setp_ me p3;
          mret (to_int (addr (region p3 m)))
      end
  | _, _, _ => mret FAILED
  end.

Definition sys_wunmap (argint : nat -> option Z) (me : nat) : M world Z :=
  match argint 0%nat with
  | None => mret FAILED
  | Some a0 =>
      let a := u32 a0 in
      if negb (a mod PGSIZE =? 0) then mret FAILED else
      r ← remove_map me a;
      if (r : Z) <? 0 then mret FAILED else mret 0
  end.

Definition sys_wpunmap (argint : nat -> option Z) (me : nat) : M world Z :=
  match argint 0%nat, argint 1%nat with
  | Some a0, Some length =>
      let a := u32 a0 in
      let e := u32 (a + length) in
      if negb (e mod PGSIZE =? 0) then mret FAILED
      else if length <=? 0 then mret FAILED
      else if negb (a mod PGSIZE =? 0) then mret FAILED
      else
      p ← getp me;
      o ← lift (find_region list_fuel (fun r => (addr r <=? a) && (e <=? rend r)) p None (mmap_head p));
      match o with
      | None => mret FAILED
      | Some (_, i) =>
          let r := region p i in
          _ ← unmap_pages (pages_fuel a e) me i (file_backed_shared r) true true a e;
          p ← getp me;
          b ← (if a =? addr r then
                 _ ← setp_ me (upd_region i (fun r => set_len (len r - length) (set_addr e r)) p); mret true
               else if e =? rend r then
                 _ ← setp_ me (upd_region i (fun r => set_len (len r - length) r) p); mret true
               else
                 match find_unused_mmap p with
                 | None => mret false
                 | Some n =>
                     let r1 := region p i in
                     let new_length := to_int (rend r1 - e) in
                     fp ← (match f r1 with
                           | Some x => y ← with_files (filedup x); mret (Some y)
                           | None => mret None
                           end);
                     let p1 := upd_region i (set_len (to_int (a - addr r1))) p in
                     let p2 := upd_region n (fun r => mkRegion e new_length (flags r1) (fd r1) fp (refcnt r1) (n_loaded_pages r) (next r)) p1 in
                     c1 ← count_loaded_pages (pgdir p) e (u32 (e + new_length));
                     let p3 := upd_region n (set_loaded c1) p2 in
                     c2 ← count_loaded_pages (pgdir p) (addr r1) (rend (region p3 i));
                     let p4 := upd_region i (set_loaded c2) p3 in
                     let p5 := upd_region n (set_next (next (region p4 i))) p4 in
                     let p6 := upd_region i (set_next (Some n)) p5 in
                     _ ← setp_ me (set_maps (mmaps p6) (mmap_head p6) (total_mmaps p6 + 1) p6);
                     mret true
                 end);
          if negb (b : bool) then mret FAILED else
          p ← getp me;
          _ ← switchuvm p;
          mret 0
      end
  | _, _ => mret FAILED
  end.

(** getwmapinfo: the entries written to [info], in order; [ok] tells whether
    argptr accepts the pointer. *)
Record wmapinfo : Type := mkInfo { i_addr : Z; i_length : Z; i_flags : Z; i_fd : Z; i_refcnt : Z; i_loaded : Z }.
Definition info_of (r : mmap_region) : wmapinfo :=
  mkInfo (to_int (addr r)) (len r) (flags r) (fd r) (refcnt r) (n_loaded_pages r).

Fixpoint wmapinfo_loop (n : nat) (p : proc) (cur : option nat) : list wmapinfo :=
  match n, cur with
  | S n', Some i => info_of (region p i) :: wmapinfo_loop n' p (next (region p i))
  | _, _ => []
  end.

Definition sys_getwmapinfo (ok : bool) (me : nat) : M world (Z * (Z * list wmapinfo)) :=
  if negb ok then mret (FAILED, (0, [])) else
  p ← getp me;
  mret (0, (total_mmaps p, wmapinfo_loop MAX_WMMAP_INFO p (mmap_head p))).

(** getpgdirinfo: the number of user pages and the first of them. *)
Fixpoint pgdirinfo_loop (fuel : nat) (pd va n : Z) (info : list (Z * Z)) : M world (Z * list (Z * Z)) :=
  if negb (va <? KERNBASE) then mret (n, info) else
  match fuel with
  | O => fail OutOfFuel
  | S fuel' =>
      pte ← with_mem (walkpgdir pd va false);
      w ← (if (pte : Z) =? 0 then mret 0 else with_mem (load pte));
      if negb (Z.land w PTE_P =? 0) && negb (Z.land w PTE_U =? 0) then
        pgdirinfo_loop fuel' pd (u32 (va + PGSIZE)) (n + 1)
          (if n + 1 <=? Z.of_nat MAX_UPAGE_INFO then info ++ [(va, PTE_ADDR w)] else info)
      else pgdirinfo_loop fuel' pd (u32 (va + PGSIZE)) n info
  end.

Definition sys_getpgdirinfo (ok : bool) (me : nat) : M world (Z * (Z * list (Z * Z))) :=
  if negb ok then mret (FAILED, (0, [])) else
  p ← getp me;
  i ← pgdirinfo_loop (Z.to_nat (KERNBASE / PGSIZE)) (pgdir p) 0 0 [];
  mret (0, i).

(** ** Demand allocation *)
Definition handle_page_fault (pgflt_vaddr : Z) (me : nat) : M world Z :=
  let va := PGROUNDDOWN pgflt_vaddr in
  p ← getp me;
  o ← lift (find_region list_fuel (fun r => (addr r <=? va) && (va <? rend r)) p None (mmap_head p));
  match o with
  | None => mret FAILED
  | Some (_, i) =>
      m ← with_mem kalloc;
      if (m : Z) =? 0 then mret FAILED else
      _ ← with_mem (memset_page m 0);
      r ← with_mem (mappages (pgdir p) va PGSIZE (V2P m) (Z.lor PTE_W PTE_U));
      if (r : Z) <? 0 then _ ← with_mem (kfree m); mret FAILED else
      let rg := region p i in
      b ← (match f rg with
           | Some fp =>
               if has (flags rg) MAP_ANONYMOUS then mret true else
               x ← with_files (get_file fp);
               rb ← with_files (fs_op (readi_op (ip x) (va - addr rg) PGSIZE));
               _ ← user_write (pgdir p) va rb.2;
               mret (negb (rb.1 <? 0))
           | None => mret true
           end);
      if negb (b : bool) then mret FAILED else
      _ ← updp me (upd_region i (fun r => set_loaded (n_loaded_pages r + 1) r));
      mret 0
  end.

(** ** fork: copy_maps *)

(** The pages from [va] to [e] of a mapping, shared or copied: false on failure. *)
Fixpoint copy_pages (fuel : nat) (shared : bool) (ppd : Z) (child i : nat) (va e : Z) : M world bool :=
  if negb (va <? e) then mret true else
  match fuel with
  | O => fail OutOfFuel
  | S fuel' =>
      pte ← with_mem (walkpgdir ppd va false);
      w ← (if (pte : Z) =? 0 then mret 0 else with_mem (load pte));
      if Z.land w PTE_P =? 0 then copy_pages fuel' shared ppd child i (u32 (va + PGSIZE)) e else
      c ← getp child;
      b ← (if shared then
             r ← with_mem (mappages (pgdir c) va PGSIZE (PTE_ADDR w) (Z.lor PTE_W PTE_U));
             mret (negb ((r : Z) <? 0))
           else
             m ← with_mem kalloc;
             if (m : Z) =? 0 then mret false else
             _ ← with_mem (memmove_page m (P2V (PTE_ADDR w)));
             r ← with_mem (mappages (pgdir c) va PGSIZE (V2P m) (Z.lor PTE_W PTE_U));
             if (r : Z) <? 0 then _ ← with_mem (kfree m); mret false else mret true);
      if negb (b : bool) then mret false else
      _ ← updp child (upd_region i (fun r => set_loaded (n_loaded_pages r + 1) r));
      copy_pages fuel' shared ppd child i (u32 (va + PGSIZE)) e
  end.

Fixpoint copy_maps_loop (fuel : nat) (me child : nat) (child_prev cur : option nat) : M world Z :=
  match cur with
  | None => mret 0
  | Some j =>
      match fuel with
      | O => fail OutOfFuel
      | S fuel' =>
          p ← getp me;
          c ← getp child;
          let pr := region p j in
          match find_unused_mmap c with
          | None => mret FAILED
          | Some i =>
              fp ← (match f pr with
                    | Some x => y ← with_files (filedup x); mret (Some y)
                    | None => mret None
                    end);
              _ ← setp_ child (upd_region i (fun _ => mkRegion (addr pr) (len pr) (flags pr) (fd pr) fp 0 0 None) c);
              let shared := has (flags pr) MAP_SHARED in
              b ← copy_pages (pages_fuel (addr pr) (rend pr)) shared (pgdir p) child i (addr pr) (rend pr);
              if negb (b : bool) then mret FAILED else
              _ ← (if shared then updp child (upd_region i (set_refcnt 1)) else mret tt);
              c ← getp child;
              c1 ← (match mmap_head c, child_prev with
                    | None, _ => mret (set_maps (mmaps c) (Some i) (total_mmaps c) c)
                    | Some _, Some q => mret (upd_region q (set_next (Some i)) c)
                    | Some _, None => fail Undefined
                    end);
              _ ← setp_ child (set_maps (mmaps c1) (mmap_head c1) (total_mmaps c1 + 1) c1);
              copy_maps_loop fuel' me child (Some i) (next pr)
          end
      end
  end.

Definition copy_maps (me child : nat) : M world Z :=
  p ← getp me;
  copy_maps_loop list_fuel me child None (mmap_head p).

(** ** exit: delete_mmaps *)

(** The parent's region at [a] loses a reference. *)
Definition drop_parent_ref (par : nat) (a : Z) : M world unit :=
  q ← getp par;
  o ← lift (find_region list_fuel (fun r => addr r =? a) q None (mmap_head q));
  match o with
  | Some (_, j) =>
      if 0 <? refcnt (region q j) then updp par (upd_region j (fun r => set_refcnt (refcnt r - 1) r)) else mret tt
  | None => mret tt
  end.

Fixpoint delete_mmaps_loop (fuel : nat) (me : nat) (cur : option nat) : M world unit :=
  match cur with
  | None => mret tt
  | Some i =>
      match fuel with
      | O => fail OutOfFuel
      | S fuel' =>
          p ← getp me;
          let r := region p i in
          let nxt := next r in
          let own := refcnt r =? 0 in
          _ ← unmap_pages (pages_fuel (addr r) (rend r)) me i (file_backed_shared r && own) own false (addr r) (rend r);
          _ ← (match parent p with
               | Some par => if has (flags r) MAP_SHARED && (refcnt r =? 1) then drop_parent_ref par (addr r) else mret tt
               | None => mret tt
               end);
          _ ← (match f r with
               | Some fp => if own then with_files (fileclose fp) else mret tt
               | None => mret tt
               end);
          _ ← updp me (init_one_mmap i);
          delete_mmaps_loop fuel' me nxt
      end
  end.

Definition delete_mmaps (me : nat) : M world Z :=
  p ← getp me;
  _ ← delete_mmaps_loop list_fuel me (mmap_head p);
  _ ← updp me (fun p => set_maps (mmaps p) None 0 p);
  mret 0.
End wmap.

(** ** The list of regions *)

Lemma region_upd i g p j : (i < length (mmaps p))%nat ->
  region (upd_region i g p) j = if decide (j = i) then g (region p i) else region p j.
Proof.
  intros Hi. unfold region, upd_region, set_maps. cbn. destruct (decide (j = i)) as [->|Hne].
  - rewrite list_lookup_alter_eq. destruct (lookup_lt_is_Some_2 (mmaps p) i Hi) as [r Hr]. by rewrite Hr.
  - by rewrite list_lookup_alter_ne.
Qed.

Lemma length_upd i g p : length (mmaps (upd_region i g p)) = length (mmaps p).
Proof. apply length_alter. Qed.

Fixpoint linked (p : proc) (cur : option nat) (ids : list nat) : Prop :=
  match ids with
  | [] => cur = None
  | i :: ids' => cur = Some i /\ (i < MAX_NMMAP)%nat /\ linked p (next (region p i)) ids'
  end.

Lemma linked_ext p p' cur ids : (forall i, i ∈ ids -> next (region p' i) = next (region p i)) -> linked p cur ids -> linked p' cur ids.
Proof.
  revert cur. induction ids as [|i ids IH]; intros cur He; [done|]. cbn. intros (-> & Hi & Hl). split_and!; [done|done|].
  rewrite He by set_solver. apply IH; [|done]. intros j Hj. apply He. set_solver.
Qed.

(** The search along the list of slots. *)
Fixpoint search (test : mmap_region -> bool) (p : proc) (prev : option nat) (ids : list nat) : option (option nat * nat) :=
  match ids with
  | [] => None
  | i :: ids' => if test (region p i) then Some (prev, i) else search test p (Some i) ids'
  end.

Lemma find_region_search fuel test p prev cur ids : linked p cur ids -> (length ids <= fuel)%nat ->
  find_region fuel test p prev cur = Ok (search test p prev ids).
Proof.
  revert fuel prev cur. induction ids as [|i ids IH]; intros fuel prev cur Hl Hf.
  - cbn in Hl. subst. by destruct fuel.
  - destruct Hl as (-> & Hi & Hl). destruct fuel as [|fuel]; cbn in Hf; [lia|]. cbn.
    destruct (test (region p i)); [done|]. apply IH; [done|lia].
Qed.

Lemma search_None test p prev ids : search test p prev ids = None <-> forall i, i ∈ ids -> test (region p i) = false.
Proof.
  revert prev. induction ids as [|i ids IH]; intros prev; cbn; [set_solver|].
  destruct (test (region p i)) eqn:E.
  - split; [done|]. intros Ha. rewrite (Ha i) in E by set_solver. done.
  - rewrite IH. set_solver.
Qed.

Lemma search_Some test p prev ids q i : search test p prev ids = Some (q, i) ->
  exists l1 l2, ids = l1 ++ i :: l2 /\ test (region p i) = true /\ (forall j, j ∈ l1 -> test (region p j) = false) /\
    q = match last l1 with Some x => Some x | None => prev end.
Proof.
  revert prev. induction ids as [|j ids IH]; intros prev; cbn; [done|].
  destruct (test (region p j)) eqn:E.
  - intros [= <- <-]. exists [], ids. split_and!; [done|done|set_solver|done].
  - intros (l1 & l2 & -> & Ht & Ha & ->)%IH. exists (j :: l1), l2. split_and!; [done|done|set_solver|].
    rewrite last_cons. by destruct (last l1).
Qed.

(** Splicing a slot in, and taking one out. *)
Lemma linked_splice p p' cur l1 q m l2 : linked p cur (l1 ++ q :: l2) -> (m < MAX_NMMAP)%nat ->
  (forall i, i ∈ l1 ++ l2 -> next (region p' i) = next (region p i)) ->
  next (region p' q) = Some m -> next (region p' m) = next (region p q) ->
  linked p' cur (l1 ++ q :: m :: l2).
Proof.
  revert cur. induction l1 as [|j l1 IH]; intros cur; cbn [app linked].
  - intros (-> & Hq & Hl) Hm He Hnq Hnm. rewrite Hnq, Hnm. split_and!; try done. eapply linked_ext; [|done]. set_solver.
  - intros (-> & Hj & Hl) Hm He Hnq Hnm. split_and!; try done. rewrite He by set_solver. apply IH; try done. set_solver.
Qed.

Lemma linked_remove p p' cur l1 q i l2 : linked p cur (l1 ++ q :: i :: l2) ->
  (forall j, j ∈ l1 ++ l2 -> next (region p' j) = next (region p j)) ->
  next (region p' q) = next (region p i) -> linked p' cur (l1 ++ q :: l2).
Proof.
  revert cur. induction l1 as [|j l1 IH]; intros cur; cbn [app linked].
  - intros (-> & Hq & Hnq & Hi & Hl) He Hn. rewrite Hn. split_and!; try done. eapply linked_ext; [|done]. set_solver.
  - intros (-> & Hj & Hl) He Hn. split_and!; try done. rewrite He by set_solver. apply IH; try done. set_solver.
Qed.

Lemma linked_lt p cur ids i : linked p cur ids -> i ∈ ids -> (i < MAX_NMMAP)%nat.
Proof.
  revert cur. induction ids as [|j ids IH]; intros cur; [set_solver|]. intros (-> & Hj & Hl) [->|Hi]%elem_of_cons; [done|by eapply IH].
Qed.

(** A region without its link. *)
Definition bare (r : mmap_region) : mmap_region := set_next None r.

Lemma insert_after_ok fuel p a h l1 l2 : linked p (Some h) (h :: l1 ++ l2) -> (length l1 < fuel)%nat ->
  (forall i, i ∈ l1 -> addr (region p i) < a) -> (forall i, i ∈ l2 -> a < addr (region p i)) ->
  insert_after fuel p a h = Ok (default h (last l1)).
Proof.
  revert fuel h. induction l1 as [|j l1 IH]; intros fuel h [_ [_ Hl]] Hf H1 H2; cbn [app linked] in Hl;
    (destruct fuel as [|fuel]; cbn in Hf; [lia|]).
  - destruct l2 as [|x l2]; cbn [linked] in Hl; [cbn; by rewrite Hl|].
    destruct Hl as (Hn & Hx & _). cbn. rewrite Hn, (proj2 (Z.ltb_ge _ _)); [done|]. specialize (H2 x ltac:(set_solver)). lia.
  - destruct Hl as (Hn & Hj & Hl). cbn. rewrite Hn.
    rewrite (proj2 (Z.ltb_lt _ _)) by (apply H1; set_solver). rewrite (IH fuel j); [|done|lia|set_solver|done].
    f_equal. rewrite last_cons. by destruct (last l1).
Qed.

(** Fields other than the slots and the head. *)
Definition same_rest (p p' : proc) : Prop :=
  pgdir p' = pgdir p /\ kstack p' = kstack p /\ parent p' = parent p /\ ofile p' = ofile p /\
  total_mmaps p' = total_mmaps p /\ length (mmaps p') = length (mmaps p).

Lemma link_ok p m a l1 l2 : length (mmaps p) = MAX_NMMAP -> linked p (mmap_head p) (l1 ++ l2) -> NoDup (l1 ++ l2) ->
  m ∉ l1 ++ l2 -> (m < MAX_NMMAP)%nat -> (length l1 <= MAX_NMMAP)%nat ->
  (forall i, i ∈ l1 -> addr (region p i) < a) -> (forall i, i ∈ l2 -> a < addr (region p i)) ->
  exists p', link p m a = Ok p' /\ linked p' (mmap_head p') (l1 ++ m :: l2) /\ same_rest p p' /\
    (forall i, i <> m -> bare (region p' i) = bare (region p i)) /\
    bare (region p' m) = bare (set_addr a (region p m)).
Proof.
  intros Hlen Hl Hnd Hm Hml Hl1 H1 H2. unfold link. set (p1 := upd_region m (set_addr a) p).
  assert (length (mmaps p1) = MAX_NMMAP) as Hlen1 by (unfold p1; by rewrite length_upd).
  assert (forall i, region p1 i = if decide (i = m) then set_addr a (region p m) else region p i) as Hr1.
  { intros i. unfold p1. rewrite region_upd by lia. done. }
  assert (forall i, i ∈ l1 ++ l2 -> region p1 i = region p i) as Hr1'.
  { intros i Hi. rewrite Hr1, decide_False; [done|]. by intros ->. }
  assert (linked p1 (mmap_head p1) (l1 ++ l2)) as Hlk.
  { change (mmap_head p1) with (mmap_head p). eapply linked_ext; [|exact Hl]. intros i Hi. by rewrite Hr1'. }
  destruct l1 as [|h l1].
  - (* first *)
    assert (forall n, n = mmap_head p1 ->
      let p' := set_maps (mmaps (upd_region m (set_next n) p1)) (Some m) (total_mmaps p) p in
      linked p' (mmap_head p') (m :: l2) /\ same_rest p p' /\
      (forall i, i <> m -> bare (region p' i) = bare (region p i)) /\ bare (region p' m) = bare (set_addr a (region p m))) as Hgo.
    { intros n Hn p'. assert (forall i, region p' i = if decide (i = m) then set_next n (region p1 m) else region p1 i) as Hr'.
      { intros i. change (region p' i) with (region (upd_region m (set_next n) p1) i). rewrite region_upd by lia. done. }
      split_and!.
      - cbn [linked]. split_and!; [done|done|]. rewrite Hr', decide_True by done. cbn. rewrite Hn. eapply linked_ext; [|exact Hlk].
        intros i Hi. rewrite Hr', decide_False; [done|]. intros ->. by apply Hm.
      - unfold same_rest, p'. cbn [set_maps pgdir kstack parent ofile total_mmaps mmaps]. split_and!; try done. rewrite length_upd. lia.
      - intros i Hi. rewrite Hr', decide_False, Hr1, decide_False by done. done.
      - rewrite Hr', decide_True, Hr1, decide_True by done. done. }
    destruct (mmap_head p1) as [h|] eqn:Eh; [|eexists; split; [reflexivity|]; by apply Hgo].
    rewrite (proj2 (Z.ltb_lt _ _)); [eexists; split; [reflexivity|]; by apply Hgo|].
    destruct l2 as [|x l2]; cbn in Hlk; [done|]. destruct Hlk as ([= ->] & _). rewrite Hr1' by set_solver. apply H2. set_solver.
  - cbn [app] in Hlk. pose proof Hlk as (Hh & Hhl & _). rewrite Hh. rewrite (Hr1' h) by set_solver.
    rewrite (proj2 (Z.ltb_ge _ _)) by (specialize (H1 h ltac:(set_solver)); lia).
    rewrite (insert_after_ok list_fuel p1 a h l1 l2); [|by rewrite <-Hh|cbn in Hl1; unfold list_fuel, MAX_NMMAP in *; lia|..].
    2:{ intros i Hi. rewrite Hr1' by set_solver. apply H1. set_solver. }
    2:{ intros i Hi. rewrite Hr1' by set_solver. apply H2. set_solver. }
    set (q := default h (last l1)). unfold mbind, result_bind.
    assert (exists l1', h :: l1 = l1' ++ [q]) as [l1' Hq].
    { unfold q. destruct (last l1) as [x|] eqn:El; cbn.
      - apply last_Some in El as [l' ->]. by exists (h :: l').
      - apply last_None in El as ->. by exists []. }
    clearbody q. assert (q ∈ h :: l1) as Hqin by (rewrite Hq; set_solver).
    assert (q <> m) as Hqm by (intros ->; set_solver).
    assert ((q < MAX_NMMAP)%nat) as Hql by (eapply (linked_lt p1 _ (h :: l1 ++ l2)); [exact Hlk|rewrite app_comm_cons; apply elem_of_app; by left]).
    set (p2 := upd_region m (set_next (next (region p1 q))) p1).
    set (p' := upd_region q (set_next (Some m)) p2).
    assert (length (mmaps p2) = MAX_NMMAP) as Hlen2 by (unfold p2; by rewrite length_upd).
    assert (forall i, region p' i = if decide (i = q) then set_next (Some m) (region p q) else
      if decide (i = m) then set_next (next (region p q)) (set_addr a (region p m)) else region p i) as Hr'.
    { intros i. unfold p', p2. rewrite !region_upd by (rewrite ?length_upd; lia).
      rewrite !Hr1. destruct (decide (i = q)) as [->|]; [by rewrite !(decide_False (P := q = m)) by done|].
      destruct (decide (i = m)) as [->|]; [rewrite (decide_True (P := m = m)) by done|done].
      by rewrite (decide_False (P := q = m)) by done. }
    exists p'. split; [done|]. split_and!.
    + change (mmap_head p') with (mmap_head p). change ((h :: l1) ++ m :: l2) with (h :: l1 ++ m :: l2).
      assert (h :: l1 ++ m :: l2 = l1' ++ q :: m :: l2) as -> by (rewrite app_comm_cons, Hq, <-app_assoc; done).
      assert (NoDup (l1' ++ q :: l2)) as Hnd'.
      { rewrite Hq, <-app_assoc in Hnd. done. }
      assert (q ∉ l1' ++ l2) as Hqn by (apply NoDup_app in Hnd' as (_ & Hd & [Hq2 _]%NoDup_cons); set_solver).
      apply (linked_splice p).
      * rewrite Hq, <-app_assoc in Hl. exact Hl.
      * done.
      * intros i Hi. rewrite Hr', !decide_False; [done|..]; intros ->; [|done]. apply Hm. rewrite Hq. set_solver.
      * rewrite Hr', decide_True by done. done.
      * rewrite Hr', decide_False, decide_True by done. done.
    + unfold same_rest, p', p2, p1. rewrite !length_upd. by split_and!.
    + intros i Hi. rewrite Hr'. destruct (decide (i = q)) as [->|]; [done|]. by rewrite decide_False.
    + rewrite Hr', decide_False, decide_True by done. done.
Qed.

(** ** The invariant of a process's regions *)

(** The regions in the list, without their links. *)
Definition maps_of (p : proc) (ids : list nat) : list mmap_region := (fun i => bare (region p i)) <$> ids.

(** Page-aligned, not empty, within the mapping area, in order and apart. *)
Fixpoint spaced (lo : Z) (rs : list mmap_region) : Prop :=
  match rs with
  | [] => True
  | r :: rs' => lo <= addr r /\ addr r mod PGSIZE = 0 /\ 0 < len r /\ addr r + len r <= KERNBASE /\ spaced (addr r + len r) rs'
  end.

Record maps_ok (p : proc) (ids : list nat) : Prop := {
  mo_slots : length (mmaps p) = MAX_NMMAP;
  mo_linked : linked p (mmap_head p) ids;
  mo_unused : forall i, (i < MAX_NMMAP)%nat -> addr (region p i) = NO_ADDR <-> i ∉ ids;
  mo_total : total_mmaps p = Z.of_nat (length ids);
  mo_spaced : spaced MMAPBASE (maps_of p ids)
}.

Lemma spaced_weaken lo lo' rs : lo' <= lo -> spaced lo rs -> spaced lo' rs.
Proof. destruct rs as [|r rs]; [done|]. cbn. intros H (H1 & H2). split; [lia|done]. Qed.

(** Where the regions [rs] end, at least [lo]. *)
Fixpoint end_of (lo : Z) (rs : list mmap_region) : Z :=
  match rs with [] => lo | r :: rs' => end_of (addr r + len r) rs' end.

Lemma spaced_app lo rs1 rs2 : spaced lo (rs1 ++ rs2) <-> spaced lo rs1 /\ spaced (end_of lo rs1) rs2.
Proof. revert lo. induction rs1 as [|r rs1 IH]; intros lo; cbn; [tauto|]. rewrite IH. tauto. Qed.

Lemma spaced_end lo rs : spaced lo rs -> lo <= end_of lo rs /\ forall r, r ∈ rs ->
  lo <= addr r /\ addr r mod PGSIZE = 0 /\ 0 < len r /\ addr r + len r <= KERNBASE /\ addr r + len r <= end_of lo rs.
Proof.
  revert lo. induction rs as [|r rs IH]; intros lo; cbn; [split; [lia|set_solver]|].
  intros (H1 & H2 & H3 & H4 & [H5 H6]%IH). split; [lia|]. intros x [->|Hx]%elem_of_cons; [by split_and!; try lia|].
  destruct (H6 x Hx) as (G1 & G2 & G3 & G4 & G5). split_and!; try done; lia.
Qed.

Lemma spaced_insert lo rs1 rs2 r : spaced lo (rs1 ++ rs2) -> addr r mod PGSIZE = 0 -> 0 < len r -> addr r + len r <= KERNBASE ->
  end_of lo rs1 <= addr r -> (forall x, x ∈ rs2 -> addr r + len r <= addr x) -> spaced lo (rs1 ++ r :: rs2).
Proof.
  intros [H1 H2]%spaced_app Ha Hl Hk He Hx. apply spaced_app. split; [done|]. cbn. split_and!; try done.
  destruct rs2 as [|x rs2]; [done|]. destruct H2 as (? & ? & ? & ? & ?). cbn. split_and!; try done. apply Hx. set_solver.
Qed.

Lemma elem_of_maps p ids r : r ∈ maps_of p ids <-> exists i, i ∈ ids /\ r = bare (region p i).
Proof. unfold maps_of. rewrite list_elem_of_fmap. naive_solver. Qed.

Lemma spaced_region p lo ids i : spaced lo (maps_of p ids) -> i ∈ ids ->
  lo <= addr (region p i) /\ addr (region p i) mod PGSIZE = 0 /\ 0 < len (region p i) /\
  addr (region p i) + len (region p i) <= KERNBASE /\ addr (region p i) + len (region p i) <= end_of lo (maps_of p ids).
Proof.
  intros [_ Hs]%spaced_end Hi. apply (Hs (bare (region p i))). apply elem_of_maps. by exists i.
Qed.

Lemma spaced_NoDup p lo ids : spaced lo (maps_of p ids) -> NoDup ids.
Proof.
  revert lo. induction ids as [|i ids IH]; intros lo; [constructor|]. cbn. intros (H1 & H2 & H3 & H4 & H5).
  constructor; [|by eapply IH]. intros Hi. destruct (spaced_region _ _ _ _ H5 Hi). lia.
Qed.

(** ** Where a new region goes *)

(** The first gap of [l] bytes, from [start] on. *)
Fixpoint first_fit (start l : Z) (rs : list mmap_region) : Z :=
  match rs with
  | [] => start
  | r :: rs' => if start + l <=? addr r then start else first_fit (PGROUNDUP (addr r + len r)) l rs'
  end.

Definition apart (a l : Z) (r : mmap_region) : Prop := a + l <= addr r \/ addr r + len r <= a.

Lemma PGROUNDUP_least x : 0 <= x <= KERNBASE ->
  PGROUNDUP x mod PGSIZE = 0 /\ x <= PGROUNDUP x <= KERNBASE /\ (forall a, a mod PGSIZE = 0 -> x <= a -> PGROUNDUP x <= a).
Proof.
  intros Hx. rewrite PGROUNDUP_mod by (unfold_layout; unfold_bounds; lia). unfold_layout. split_and!; [zlia|zlia|zlia|].
  intros a Ha Hle. zlia.
Qed.

Lemma first_fit_ok lo l rs : 0 <= lo <= KERNBASE -> 0 < l -> spaced lo rs ->
  let a := first_fit (PGROUNDUP lo) l rs in
  a mod PGSIZE = 0 /\ lo <= a <= KERNBASE /\ (forall r, r ∈ rs -> apart a l r) /\
  (forall b, b mod PGSIZE = 0 -> lo <= b -> (forall r, r ∈ rs -> apart b l r) -> a <= b).
Proof.
  revert lo. induction rs as [|r rs IH]; intros lo Hlo Hl Hs; cbn [first_fit].
  - destruct (PGROUNDUP_least lo Hlo) as (H1 & H2 & H3). cbn. split_and!; [done|lia|lia|set_solver|]. intros b Hb Hle _. by apply H3.
  - destruct Hs as (H1 & H2 & H3 & H4 & H5). destruct (PGROUNDUP_least lo Hlo) as (G1 & G2 & G3).
    destruct (Z.leb_spec (PGROUNDUP lo + l) (addr r)) as [Hle|Hgt]; cbn zeta.
    + split_and!; [done|lia|lia| |intros b Hb Hbl _; by apply G3].
      destruct (spaced_end _ _ H5) as [_ He]. intros x [->|Hx]%elem_of_cons; [by left|]. left. destruct (He x Hx). lia.
    + destruct (IH (addr r + len r)) as (I1 & I2 & I3 & I4); [lia|done|done|]. cbn zeta in *. split_and!; [done|lia|lia| |].
      * intros x [->|Hx]%elem_of_cons; [right; lia|by apply I3].
      * intros b Hb Hbl Hap. apply I4; [done| |intros x Hx; apply Hap; set_solver].
        pose proof (G3 b Hb Hbl). destruct (Hap r ltac:(set_solver)); lia.
Qed.

Lemma find_gap_ok fuel p l lo cur ids : linked p cur ids -> (length ids <= fuel)%nat -> MMAPBASE <= lo <= KERNBASE ->
  0 < l <= INT_MAX -> spaced lo (maps_of p ids) ->
  find_gap fuel p l (PGROUNDUP lo) cur = Ok (first_fit (PGROUNDUP lo) l (maps_of p ids)).
Proof.
  revert fuel lo cur. induction ids as [|i ids IH]; intros fuel lo cur Hl Hf Hlo Hl0 Hs.
  { cbn in Hl. subst. by destruct fuel. }
  destruct Hl as (-> & Hi & Hl). destruct Hs as (H1 & H2 & H3 & H4 & H5). destruct fuel as [|fuel]; cbn in Hf; [lia|].
  change (addr (bare (region p i))) with (addr (region p i)) in *. change (len (bare (region p i))) with (len (region p i)) in *.
  assert (0 <= lo <= KERNBASE) as Hlo0 by (unfold_layout; lia).
  destruct (PGROUNDUP_least lo Hlo0) as (G1 & G2 & G3). cbn [find_gap maps_of fmap list_fmap first_fit].
  rewrite u32_id by (unfold_layout; unfold_bounds; lia).
  change (addr (bare (region p i))) with (addr (region p i)). change (len (bare (region p i))) with (len (region p i)).
  destruct (PGROUNDUP lo + l <=? addr (region p i)); [done|].
  assert (rend (region p i) = addr (region p i) + len (region p i)) as -> by (unfold rend; apply u32_id; unfold_layout; unfold_bounds; lia).
  pose proof (G3 _ H2 H1) as Hle. rewrite (proj2 (Z.ltb_lt _ _)) by lia.
  destruct (PGROUNDUP_least (addr (region p i) + len (region p i))) as (E1 & E2 & E3); [unfold_layout; lia|].
  assert ((if negb ((addr (region p i) + len (region p i)) mod PGSIZE =? 0) then PGROUNDUP (addr (region p i) + len (region p i))
    else addr (region p i) + len (region p i)) = PGROUNDUP (addr (region p i) + len (region p i))) as ->.
  { destruct (Z.eqb_spec ((addr (region p i) + len (region p i)) mod PGSIZE) 0) as [He|He]; [|done]. cbn.
    pose proof (E3 _ He ltac:(lia)). lia. }
  apply IH; [done|lia|unfold_layout; lia|done|done].
Qed.

(** A free range splits the list. *)
Lemma spaced_split p lo ids a l : spaced lo (maps_of p ids) -> 0 < l -> (forall i, i ∈ ids -> apart a l (region p i)) ->
  exists l1 l2, ids = l1 ++ l2 /\ (forall i, i ∈ l1 -> addr (region p i) + len (region p i) <= a) /\
    (forall i, i ∈ l2 -> a + l <= addr (region p i)).
Proof.
  revert lo. induction ids as [|i ids IH]; intros lo Hs Hl Ha; [exists [], []; split_and!; [done|set_solver|set_solver]|].
  destruct Hs as (H1 & H2 & H3 & H4 & H5). cbn in *. destruct (Ha i ltac:(set_solver)) as [Hlt|Hgt].
  - exists [], (i :: ids). split_and!; [done|set_solver|]. intros j [->|Hj]%elem_of_cons; [done|].
    destruct (spaced_region _ _ _ _ H5 Hj). lia.
  - destruct (IH _ H5 Hl) as (l1 & l2 & -> & G1 & G2); [intros j Hj; apply Ha; set_solver|].
    exists (i :: l1), l2. split_and!; [done| |done]. intros j [->|Hj]%elem_of_cons; [done|by apply G1].
Qed.

Lemma end_of_le lo rs x : lo <= x -> (forall r, r ∈ rs -> addr r + len r <= x) -> end_of lo rs <= x.
Proof.
  revert lo. induction rs as [|r rs IH]; intros lo Hl Hr; [done|]. cbn. apply IH; [apply Hr; set_solver|].
  intros y Hy. apply Hr. set_solver.
Qed.

(** An unused slot exists exactly when fewer than sixteen are in the list. *)
Lemma ids_bound p ids : maps_ok p ids -> NoDup ids /\ (forall i, i ∈ ids -> (i < MAX_NMMAP)%nat) /\ (length ids <= MAX_NMMAP)%nat.
Proof.
  intros [A B C D E]. pose proof (spaced_NoDup _ _ _ E) as Hn.
  assert (forall i, i ∈ ids -> (i < MAX_NMMAP)%nat) as Hlt by (intros i Hi; by eapply linked_lt).
  split_and!; [done|done|]. rewrite <-(length_seq MAX_NMMAP 0). apply submseteq_length, NoDup_submseteq; [done|].
  intros i Hi. apply elem_of_seq. specialize (Hlt i Hi). lia.
Qed.

Lemma find_unused_ok p ids : maps_ok p ids ->
  (exists m, find_unused_mmap p = Some m /\ (m < MAX_NMMAP)%nat /\ m ∉ ids /\ (length ids < MAX_NMMAP)%nat) \/
  (find_unused_mmap p = None /\ length ids = MAX_NMMAP).
Proof.
  intros Hok. destruct (ids_bound p ids Hok) as (Hn & Hlt & Hle). destruct Hok as [A B C D E].
  unfold find_unused_mmap. destruct (list_find (fun r => addr r = NO_ADDR) (mmaps p)) as [[m r]|] eqn:Ef; cbn.
  - left. exists m. apply list_find_Some in Ef as (Hm & Ha & _).
    assert ((m < MAX_NMMAP)%nat) as Hml by (rewrite <-A; by eapply lookup_lt_Some).
    assert (m ∉ ids) as Hmi by (apply C; [done|]; unfold region; by rewrite Hm).
    split_and!; try done. assert (length (m :: ids) <= MAX_NMMAP)%nat; [|cbn in *; lia].
    rewrite <-(length_seq MAX_NMMAP 0). apply submseteq_length, NoDup_submseteq; [by constructor|].
    intros i Hi. apply elem_of_seq. apply elem_of_cons in Hi as [->|Hi]; [lia|]. specialize (Hlt i Hi). lia.
  - right. split; [done|]. apply list_find_None in Ef. assert (MAX_NMMAP <= length ids)%nat; [|lia].
    rewrite <-(length_seq MAX_NMMAP 0). apply submseteq_length, NoDup_submseteq; [apply NoDup_seq|].
    intros i Hi%elem_of_seq. destruct (decide (i ∈ ids)) as [|Hni]; [done|]. exfalso.
    apply C in Hni; [|lia]. destruct (lookup_lt_is_Some_2 (mmaps p) i) as [r Hr]; [lia|].
    rewrite Forall_forall in Ef. apply (Ef r); [by eapply list_elem_of_lookup_2|]. unfold region in Hni. by rewrite Hr in Hni.
Qed.

Definition new_region (a l fl fd : Z) (fp : option nat) : mmap_region := mkRegion a l fl fd fp 0 0 None.

(** A placed region, as the outcome of the placement functions. *)
Definition placed (p : proc) (ids : list nat) (a l : Z) (m : nat) (p' : proc) : Prop :=
  exists l1 l2, ids = l1 ++ l2 /\ m ∉ ids /\ (m < MAX_NMMAP)%nat /\ linked p' (mmap_head p') (l1 ++ m :: l2) /\ same_rest p p' /\
    (forall i, i <> m -> bare (region p' i) = bare (region p i)) /\ addr (region p' m) = a /\
    (forall i, i ∈ l1 -> addr (region p i) + len (region p i) <= a) /\ (forall i, i ∈ l2 -> a + l <= addr (region p i)).

Lemma rend_ok p ids i : maps_ok p ids -> i ∈ ids -> rend (region p i) = addr (region p i) + len (region p i).
Proof.
  intros Hok Hi. destruct (spaced_region _ _ _ _ (mo_spaced _ _ Hok) Hi) as (H1 & H2 & H3 & H4 & _).
  unfold rend. apply u32_id. unfold_layout. unfold_bounds. lia.
Qed.

Lemma list_fuel_ok p ids : maps_ok p ids -> (length ids <= list_fuel)%nat.
Proof. intros Hok. destruct (ids_bound p ids Hok) as (_ & _ & ?). unfold list_fuel. lia. Qed.

Lemma fix_addr_ok p ids a l fl : maps_ok p ids -> a mod PGSIZE = 0 -> MMAPBASE <= a -> 0 < l -> a + l <= KERNBASE ->
  (fix_addr_place_mmap p a l fl = Ok (None, p) /\ (length ids = MAX_NMMAP \/ exists i, i ∈ ids /\ ~ apart a l (region p i))) \/
  (exists m p', fix_addr_place_mmap p a l fl = Ok (Some m, p') /\ placed p ids a l m p' /\ forall i, i ∈ ids -> apart a l (region p i)).
Proof.
  intros Hok Ha Hab Hl Hk. unfold fix_addr_place_mmap.
  rewrite (find_region_search _ _ _ _ _ ids (mo_linked _ _ Hok) (list_fuel_ok _ _ Hok)). unfold mbind, result_bind.
  rewrite (u32_id (a + l)) by (unfold_layout; unfold_bounds; lia).
  assert (forall i, i ∈ ids -> ((a <? rend (region p i)) && (addr (region p i) <? a + l)) = false <-> apart a l (region p i)) as Ht.
  { intros i Hi. rewrite (rend_ok p ids i Hok Hi). unfold apart. rewrite andb_false_iff, !Z.ltb_ge. tauto. }
  destruct (search _ p None ids) as [[q i]|] eqn:Es.
  { left. split; [done|right]. apply search_Some in Es as (l1 & l2 & -> & Hi & _). exists i.
    assert (i ∈ l1 ++ i :: l2) as Hin by set_solver. split; [done|]. intros Hap. apply (Ht i Hin) in Hap. congruence. }
  rewrite search_None in Es. assert (forall i, i ∈ ids -> apart a l (region p i)) as Hap by (intros i Hi; apply Ht; auto).
  destruct (find_unused_ok p ids Hok) as [(m & -> & Hm & Hmi & Hlen)|(-> & Hlen)]; [right|left; split; [done|by left]].
  destruct (spaced_split p _ ids a l (mo_spaced _ _ Hok) Hl Hap) as (l1 & l2 & -> & H1 & H2).
  assert (forall i, i ∈ l1 ++ l2 -> 0 < len (region p i)) as Hlp.
  { intros i Hi. by destruct (spaced_region _ _ _ _ (mo_spaced _ _ Hok) Hi) as (_ & _ & ? & _). }
  destruct (link_ok p m a l1 l2) as (p' & -> & G1 & G2 & G3 & G4); try done; try apply Hok.
  - by destruct (ids_bound _ _ Hok).
  - rewrite length_app in Hlen. clear -Hlen. lia.
  - intros i Hi. specialize (H1 i Hi). specialize (Hlp i ltac:(set_solver)). lia.
  - intros i Hi. specialize (H2 i Hi). lia.
  - exists m, p'. split; [done|]. split; [|done]. exists l1, l2. split_and!; try done.
    by apply (f_equal addr) in G4.
Qed.

(** Recording the new region in its slot. *)
Definition record_region (m : nat) (l fl fd : Z) (fp : option nat) (p : proc) : proc :=
  let p2 := upd_region m (fun r => mkRegion (addr r) l fl fd fp 0 0 (next r)) p in
  set_maps (mmaps p2) (mmap_head p2) (total_mmaps p2 + 1) p2.

Lemma record_ok p ids a l fl fd fp m p' : maps_ok p ids -> placed p ids a l m p' ->
  a mod PGSIZE = 0 -> MMAPBASE <= a -> 0 < l -> a + l <= KERNBASE ->
  exists l1 l2, ids = l1 ++ l2 /\ maps_ok (record_region m l fl fd fp p') (l1 ++ m :: l2) /\
    maps_of (record_region m l fl fd fp p') (l1 ++ m :: l2) = maps_of p l1 ++ new_region a l fl fd fp :: maps_of p l2 /\
    addr (region (record_region m l fl fd fp p') m) = a.
Proof.
  intros Hok (l1 & l2 & -> & Hm & Hml & Hlk & (R1 & R2 & R3 & R4 & R5 & R6) & Hb & Ha & H1 & H2) Hal Hab Hl Hk.
  set (p3 := record_region m l fl fd fp p'). destruct Hok as [A B C D E].
  assert (forall i, region p3 i = if decide (i = m) then mkRegion a l fl fd fp 0 0 (next (region p' m)) else region p' i) as Hr.
  { intros i. change (region p3 i) with (region (upd_region m (fun r => mkRegion (addr r) l fl fd fp 0 0 (next r)) p') i).
    rewrite region_upd by lia. by rewrite Ha. }
  assert (forall i, i <> m -> bare (region p3 i) = bare (region p i)) as Hb3.
  { intros i Hi. rewrite Hr, decide_False by done. by apply Hb. }
  assert (forall ids', m ∉ ids' -> maps_of p3 ids' = maps_of p ids') as Hmo.
  { intros ids' Hn. unfold maps_of. apply list_fmap_ext. intros ? i Hi. apply Hb3. intros ->. apply Hn. by eapply list_elem_of_lookup_2. }
  assert (maps_of p3 (l1 ++ m :: l2) = maps_of p l1 ++ new_region a l fl fd fp :: maps_of p l2) as Hmaps.
  { unfold maps_of at 1. rewrite fmap_app. cbn [fmap list_fmap].
    fold (maps_of p3 l1). fold (maps_of p3 l2). rewrite !Hmo by set_solver. by rewrite Hr, decide_True. }
  exists l1, l2. split_and!; [done| |done|by rewrite Hr, decide_True].
  split.
  - change (mmaps p3) with (mmaps (upd_region m (fun r => mkRegion (addr r) l fl fd fp 0 0 (next r)) p')). by rewrite length_upd, R6.
  - change (mmap_head p3) with (mmap_head p'). eapply linked_ext; [|exact Hlk]. intros i _. rewrite Hr. by destruct (decide (i = m)) as [->|].
  - intros i Hi. rewrite Hr. destruct (decide (i = m)) as [->|Hne]; cbn [addr].
    + split; [|set_solver]. intros ->. unfold NO_ADDR in *. unfold_layout. unfold_bounds. lia.
    + specialize (C i Hi). specialize (Hb i Hne). apply (f_equal addr) in Hb. change (addr (region p' i) = addr (region p i)) in Hb.
      rewrite Hb, C. set_solver.
  - change (total_mmaps p3) with (total_mmaps p' + 1). rewrite R5, D, !length_app. cbn [length]. lia.
  - rewrite Hmaps. assert (spaced MMAPBASE (maps_of p l1 ++ maps_of p l2)) as Hs.
    { unfold maps_of in *. by rewrite <-fmap_app. }
    apply spaced_insert; [done|done|done|done| |].
    + apply end_of_le; [done|]. intros r (i & Hi & ->)%elem_of_maps. by apply H1.
    + intros r (i & Hi & ->)%elem_of_maps. by apply H2.
Qed.

(** ** sys_wmap *)
Section sys_wmap.
Context {FS : Type} `{Fs FS}.

(** Addresses where a mapping of [l] bytes can go. *)
Definition fits (rs : list mmap_region) (l a : Z) : Prop :=
  a mod PGSIZE = 0 /\ MMAPBASE <= a /\ a + l <= KERNBASE /\ forall r, r ∈ rs -> apart a l r.

Lemma validate_ok a l fl fd fp : validate_input a l fl fd fp = 0 -> 0 < l /\
  (has fl MAP_FIXED = true -> l <= INT_MAX -> a mod PGSIZE = 0 /\ MMAPBASE <= a < KERNBASE /\ a + l <= KERNBASE).
Proof.
  unfold validate_input. destruct (Z.leb_spec l 0); [done|]. intros Hv. split; [lia|]. intros Hf Hl. rewrite Hf in Hv.
  destruct (Bool.eqb _ _); [done|]. destruct (_ && _); [done|].
  destruct (Z.eqb_spec (a mod PGSIZE) 0); [|done]. cbn [negb] in Hv.
  destruct (Z.ltb_spec a MMAPBASE), (Z.leb_spec KERNBASE a); try done. cbn [orb] in Hv.
  rewrite u32_id in Hv by (unfold_layout; unfold_bounds; lia). destruct (Z.ltb_spec KERNBASE (a + l)); [done|]. by split_and!.
Qed.

Lemma find_addr_ok p ids l fl : maps_ok p ids -> 0 < l <= INT_MAX ->
  (find_addr_place_mmap p l fl = Ok (None, p) /\ (length ids = MAX_NMMAP \/ forall a, ~ fits (maps_of p ids) l a)) \/
  (exists a m p', find_addr_place_mmap p l fl = Ok (Some m, p') /\ placed p ids a l m p' /\
    fits (maps_of p ids) l a /\ forall b, fits (maps_of p ids) l b -> a <= b).
Proof.
  intros Hok Hl. unfold find_addr_place_mmap.
  pose proof (find_gap_ok list_fuel p l MMAPBASE _ ids (mo_linked _ _ Hok) (list_fuel_ok _ _ Hok) ltac:(unfold_layout; lia) Hl (mo_spaced _ _ Hok)) as Hg.
  change (PGROUNDUP MMAPBASE) with MMAPBASE in Hg. rewrite Hg. unfold mbind, result_bind.
  destruct (first_fit_ok MMAPBASE l (maps_of p ids) ltac:(unfold_layout; lia) ltac:(lia) (mo_spaced _ _ Hok)) as (F1 & F2 & F3 & F4).
  change (PGROUNDUP MMAPBASE) with MMAPBASE in *. set (a := first_fit MMAPBASE l (maps_of p ids)) in *.
  rewrite u32_id by (unfold_layout; unfold_bounds; lia). destruct (Z.ltb_spec KERNBASE (a + l)) as [Hgt|Hle].
  { left. split; [done|right]. intros b (B1 & B2 & B3 & B4). specialize (F4 b B1 B2 B4). lia. }
  assert (fits (maps_of p ids) l a) as Hfit by (split_and!; [done|lia|done|done]).
  destruct (fix_addr_ok p ids a l fl Hok F1 ltac:(lia) ltac:(lia) Hle) as [(-> & [Hlen|(i & Hi & Hap)])|(m & p' & -> & Hp & _)].
  - left. split; [done|by left].
  - exfalso. apply Hap, (F3 (bare (region p i))), elem_of_maps. by exists i.
  - right. exists a, m, p'. split_and!; [done|done|done|]. intros b (B1 & B2 & B3 & B4). by apply F4.
Qed.

(** What filedup leaves in the file table. *)
Definition dup_file (fp : option nat) (s : fstate FS) : fstate FS :=
  match fp with
  | Some i => mkFstate (alter (fun x => set_ref (ref x + 1) x) i (ftable s)) (fsys s)
  | None => s
  end.
Definition live_file (fp : option nat) (s : fstate FS) : Prop :=
  match fp with Some i => exists x, ftable s !! i = Some x /\ 1 <= ref x < INT_MAX | None => True end.

(** The file descriptor argument: -1 and NULL when argfd rejects it. *)
Definition fd_arg (argint : nat -> option Z) (p : proc) : Z * option nat :=
  match argfd argint 3 p with Some (fd, fp) => (fd, Some fp) | None => (-1, None) end.

Lemma filedup_ok i s : live_file (Some i) s -> filedup i s = Ok (i, dup_file (Some i) s).
Proof.
  intros (x & Hx & Hr). unfold filedup, get_file, put_file, mbind, M_bind, get, lift, modify, mret, M_ret. rewrite Hx.
  rewrite (proj2 (Z.ltb_ge _ _)), sint_ok by (unfold_bounds; lia). cbn. do 3 f_equal.
  apply list_eq. intros j. destruct (decide (j = i)) as [->|Hne].
  - rewrite list_lookup_insert_eq by (by eapply lookup_lt_Some). by rewrite list_lookup_alter_eq, Hx.
  - by rewrite list_lookup_insert_ne, list_lookup_alter_ne.
Qed.

Lemma fileclose_dup i s : live_file (Some i) s -> fileclose i (dup_file (Some i) s) = Ok (tt, s).
Proof.
  intros (x & Hx & Hr). destruct s as [t fs]. cbn in Hx. unfold fileclose, get_file, put_file, mbind, M_bind, get, modify. cbn [ftable fsys dup_file].
  rewrite list_lookup_alter_eq, Hx. cbn [fmap option_fmap option_map mret M_ret]. unfold mret, M_ret. cbn [ref set_ref]. rewrite (proj2 (Z.ltb_ge _ _)), (proj2 (Z.ltb_lt _ _)) by lia. do 3 f_equal. cbn [ftable].
  apply list_eq. intros j. destruct (decide (j = i)) as [->|Hne].
  - rewrite list_lookup_insert_eq by (eapply lookup_lt_Some; by rewrite list_lookup_alter_eq, Hx). rewrite Hx. f_equal. destruct x. unfold set_ref. cbn. f_equal. lia.
  - by rewrite list_lookup_insert_ne, list_lookup_alter_ne.
Qed.
End sys_wmap.

Section sys_wmap_properties.
Context {FS : Type} `{Fs FS}.
Notation world := (@world FS).

Lemma getp_ok me (w : world) p : procs w !! me = Some p -> getp me w = Ok (p, w).
Proof. intros Hp. unfold getp, mbind, M_bind, get. by rewrite Hp. Qed.

Definition with_dup (fp : option nat) (w : world) : world := mkWorld (km w) (dup_file fp (files w)) (procs w).

(** The file argument of sys_wmap: its reference count goes up. *)
Lemma fetch_file_ok argint p (w : world) : live_file (fd_arg argint p).2 (files w) ->
  (match argfd argint 3 p with
   | None => mret (-1, None)
   | Some (fd, fp) => fp' ← with_files (filedup fp); mret (fd, Some fp')
   end) w = Ok (fd_arg argint p, with_dup (fd_arg argint p).2 w).
Proof.
  unfold fd_arg. destruct (argfd argint 3 p) as [[fd fp]|]; cbn [snd].
  - intros Hl. erewrite bind_Ok; [reflexivity|]. unfold with_files. by rewrite (filedup_ok fp _ Hl).
  - intros _. unfold mret, M_ret, with_dup, dup_file. by destruct w.
Qed.

Lemma close_dup_ok fp (w : world) : live_file fp (files w) ->
  (match fp with Some x => with_files (fileclose x) | None => mret tt end) (with_dup fp w) = Ok (tt, w).
Proof.
  destruct fp as [x|]; intros Hl; unfold with_files, mret, M_ret, with_dup; cbn [files km procs].
  - rewrite (fileclose_dup x _ Hl). by destruct w.
  - by destruct w.
Qed.

(** Both ways of placing a region. *)
Lemma place_ok p ids a0 l fl : maps_ok p ids -> 0 < l <= INT_MAX ->
  (has fl MAP_FIXED = true -> l <= INT_MAX -> a0 mod PGSIZE = 0 /\ MMAPBASE <= a0 < KERNBASE /\ a0 + l <= KERNBASE) ->
  ((if has fl MAP_FIXED then fix_addr_place_mmap p a0 l fl else find_addr_place_mmap p l fl) = Ok (None, p) /\
   (length ids = MAX_NMMAP \/ if has fl MAP_FIXED then ~ fits (maps_of p ids) l a0 else forall b, ~ fits (maps_of p ids) l b)) \/
  (exists a m p', (if has fl MAP_FIXED then fix_addr_place_mmap p a0 l fl else find_addr_place_mmap p l fl) = Ok (Some m, p') /\
    placed p ids a l m p' /\ fits (maps_of p ids) l a /\
    if has fl MAP_FIXED then a = a0 else forall b, fits (maps_of p ids) l b -> a <= b).
Proof.
  intros Hok Hl Hfix. destruct (has fl MAP_FIXED); [|by apply find_addr_ok].
  destruct (Hfix eq_refl ltac:(lia)) as (F1 & F2 & F3).
  destruct (fix_addr_ok p ids a0 l fl Hok F1 ltac:(lia) ltac:(lia) F3) as [[-> Hno]|(m & p' & -> & Hpl & Hap)].
  - left. split; [done|]. destruct Hno as [|(i & Hi & Hap)]; [by left|right]. intros (_ & _ & _ & Hf). apply Hap.
    apply (Hf (bare (region p i))), elem_of_maps. by exists i.
  - right. exists a0, m, p'. split_and!; try done. split_and!; [done|lia|done|]. intros r (i & Hi & ->)%elem_of_maps. by apply Hap.
Qed.

(** For arguments that validate_input accepts, wmap either adds
    exactly one region, page aligned, inside the mapping area and apart from
    the others, at the requested address with MAP_FIXED and otherwise at the
    lowest address where it fits, keeps the list of regions well formed, loads
    no page and takes one reference to the file; or it fails without any change,
    and then sixteen regions exist or the region fits nowhere (with MAP_FIXED,
    not at the requested address). *)
Lemma wmap_places argint me (w : world) p ids a0 l fl :
  procs w !! me = Some p -> maps_ok p ids ->
  argint 0%nat = Some a0 -> argint 1%nat = Some l -> argint 2%nat = Some fl -> l <= INT_MAX ->
  live_file (fd_arg argint p).2 (files w) ->
  validate_input (u32 a0) l fl (fd_arg argint p).1 (fd_arg argint p).2 = 0 ->
  (exists a p' ids' rs1 rs2,
     sys_wmap argint me w = Ok (a, mkWorld (km w) (dup_file (fd_arg argint p).2 (files w)) (<[me := p']> (procs w))) /\
     maps_ok p' ids' /\ pgdir p' = pgdir p /\ kstack p' = kstack p /\ maps_of p ids = rs1 ++ rs2 /\
     maps_of p' ids' = rs1 ++ new_region a l fl (fd_arg argint p).1 (fd_arg argint p).2 :: rs2 /\
     fits (maps_of p ids) l a /\
     if has fl MAP_FIXED then a = u32 a0 else forall b, fits (maps_of p ids) l b -> a <= b)
  \/ (sys_wmap argint me w = Ok (FAILED, w) /\
      (length ids = MAX_NMMAP \/ if has fl MAP_FIXED then ~ fits (maps_of p ids) l (u32 a0) else forall b, ~ fits (maps_of p ids) l b)).
Proof.
  intros Hp Hok A0 A1 A2 Hlm Hlive Hval. destruct (validate_ok _ _ _ _ _ Hval) as [Hl Hfix].
  unfold sys_wmap. rewrite A0, A1, A2. rewrite (bind_Ok _ _ _ _ _ (getp_ok me w p Hp)).
  rewrite (bind_Ok _ _ _ _ _ (fetch_file_ok argint p w Hlive)).
  destruct (fd_arg argint p) as [fd fp]. cbn [fst snd] in *. rewrite Hval. change (0 <? 0) with false. cbv beta iota.
  rewrite (mo_total _ _ Hok).
  destruct (Z.leb_spec (Z.of_nat MAX_NMMAP) (Z.of_nat (length ids))) as [Hfull|Hroom].
  { right. rewrite (bind_Ok _ _ _ _ _ (close_dup_ok fp w Hlive)). split; [done|left].
    destruct (ids_bound p ids Hok) as (_ & _ & ?). lia. }
  destruct (place_ok p ids (u32 a0) l fl Hok ltac:(lia) Hfix) as [[Hpl Hno]|(a & m & p' & Hpl & Hplaced & Hfit & Hleast)];
    (erewrite bind_Ok by (unfold lift; rewrite Hpl; reflexivity)); cbv beta iota.
  - right. rewrite (bind_Ok _ _ _ _ _ (close_dup_ok fp w Hlive)). split; [done|exact Hno].
  - left. pose proof Hfit as (F1 & F2 & F3 & F4).
    destruct (record_ok p ids a l fl fd fp m p' Hok Hplaced F1 F2 Hl F3) as (l1 & l2 & -> & G1 & G2 & G3).
    exists a, (record_region m l fl fd fp p'), (l1 ++ m :: l2), (maps_of p l1), (maps_of p l2). split_and!; try done.
    + unfold setp_, with_dup. erewrite bind_Ok by reflexivity. cbn [km files procs]. unfold mret, M_ret.
      change (set_maps _ _ _ _) with (record_region m l fl fd fp p'). rewrite G3, to_int_id; [done|].
      unfold_layout. unfold_bounds. lia.
    + destruct Hplaced as (? & ? & _ & _ & _ & _ & (Hpg & _) & _). exact Hpg.
    + destruct Hplaced as (? & ? & _ & _ & _ & _ & (_ & Hpg & _) & _). exact Hpg.
    + unfold maps_of. by rewrite fmap_app.
Qed.
End sys_wmap_properties.

(** ** Mapped pages of a process *)
Section memory.
Context `{Linker} {FS : Type} `{Fs FS}.
Notation world := (@world FS).

(** The number of mapped pages from number [lo] that start below [hi]. *)
Definition loaded_in (lo hi : Z) (mp : gmap Z Z) : Z :=
  Z.of_nat (size (filter (fun p => lo <= p.1 /\ p.1 * PGSIZE < hi) mp)).

Lemma loaded_in_empty lo hi mp : (forall n, lo <= n -> n * PGSIZE < hi -> mp !! n = None) -> loaded_in lo hi mp = 0.
Proof.
  intros Hn. unfold loaded_in. rewrite (proj2 (map_size_empty_iff _)); [done|]. apply map_eq. intros n. rewrite lookup_empty.
  apply map_lookup_filter_None. destruct (mp !! n) as [w|] eqn:E; [right|by left]. intros x _ [H1 H2].
  rewrite (Hn n H1 H2) in E. done.
Qed.

Lemma loaded_in_insert lo hi mp n w : lo <= n -> n * PGSIZE < hi -> mp !! n = None -> loaded_in lo hi (<[n := w]> mp) = loaded_in lo hi mp + 1.
Proof.
  intros H1 H2 Hn. unfold loaded_in. rewrite map_filter_insert_True by done.
  rewrite map_size_insert_None; [lia|]. apply map_lookup_filter_None. by left.
Qed.

Lemma loaded_in_ext lo hi mp mp' : (forall n, lo <= n -> n * PGSIZE < hi -> mp' !! n = mp !! n) -> loaded_in lo hi mp' = loaded_in lo hi mp.
Proof.
  intros Hn. unfold loaded_in. do 2 f_equal. apply map_filter_strong_ext. intros n w. cbn. split; intros [[H1 H2] Hw]; (split; [done|]).
  - by rewrite <-Hn.
  - by rewrite Hn.
Qed.

Lemma loaded_in_delete lo hi mp w : lo * PGSIZE < hi -> mp !! lo = Some w -> loaded_in lo hi mp = loaded_in (lo + 1) hi (delete lo mp) + 1.
Proof.
  intros Hl Hw. rewrite <-(insert_delete_id mp lo w Hw) at 1. rewrite loaded_in_insert; [|lia|done|apply lookup_delete_eq].
  f_equal. unfold loaded_in. do 2 f_equal. apply map_filter_strong_ext. intros n x. cbn. split; intros [[H1 H2] Hx]; (split; [|done]); [|lia].
  assert (n <> lo) by (intros ->; by rewrite lookup_delete_eq in Hx). lia.
Qed.

Lemma loaded_in_skip lo hi mp : mp !! lo = None -> loaded_in lo hi mp = loaded_in (lo + 1) hi mp.
Proof.
  intros Hw. unfold loaded_in. do 2 f_equal. apply map_filter_strong_ext. intros n x. cbn. split; intros [[H1 H2] Hx]; (split; [|done]); [|lia].
  assert (n <> lo) by (intros ->; congruence). lia.
Qed.

(** Reading the entry of a page, as the loops over pages do. *)
Lemma read_pte (w : world) fl tb ds d mp va : rep (km w) fl tb ds -> ds !! d = Some mp -> 0 <= va < UINT_MOD ->
  exists pte, with_mem (walkpgdir d va false) w = Ok (pte, w) /\
    (if (pte : Z) =? 0 then mret 0 else with_mem (load pte)) w = Ok (default 0 (mp !! vpn va), w) /\
    (mp !! vpn va = None \/ exists t, tb !! (d, PDX va) = Some t /\ pte = t + 4 * PTX va).
Proof.
  intros Hr Hd Hv. unfold with_mem. destruct (tb !! (d, PDX va)) as [t|] eqn:Ht.
  - exists (t + 4 * PTX va). rewrite (walk_present _ _ _ _ _ _ _ _ _ Hr Hd Hv Ht).
    destruct (pte_access _ _ _ _ _ _ _ _ Hr Hd Hv Ht) as (Hnz & Hld & _). rewrite (proj2 (Z.eqb_neq _ _) Hnz), Hld.
    split_and!; [by destruct w|by destruct w|right; by exists t].
  - exists 0. rewrite (walk_absent _ _ _ _ _ _ _ Hr Hd Hv Ht). pose proof (absent_unmapped _ _ _ _ _ _ _ Hr Hd Hv Ht) as Hn.
    rewrite Hn. split_and!; [by destruct w|done|by left].
Qed.

(** Counting down the loaded pages of slot [i], when asked to. *)
Definition uncount (cnt : bool) (i : nat) (c : Z) (p : proc) : proc :=
  if cnt then upd_region i (fun r => set_loaded (n_loaded_pages r - c) r) p else p.

Lemma alter_id {A} (g : A -> A) i (l : list A) : (forall x, g x = x) -> alter g i l = l.
Proof.
  intros Hg. apply list_eq. intros j. destruct (decide (j = i)) as [->|Hne].
  - rewrite list_lookup_alter_eq. destruct (l !! i); [|done]. cbn. by rewrite Hg.
  - by rewrite list_lookup_alter_ne.
Qed.

Lemma uncount_0 cnt i p : uncount cnt i 0 p = p.
Proof.
  unfold uncount. destruct cnt; [|done]. unfold upd_region. rewrite alter_id; [by destruct p|].
  intros r. destruct r. unfold set_loaded. cbn. f_equal. lia.
Qed.

Lemma uncount_plus cnt i c p : uncount cnt i c (uncount cnt i 1 p) = uncount cnt i (c + 1) p.
Proof.
  unfold uncount. destruct cnt; [|done]. unfold upd_region, set_maps. cbn [mmaps pgdir kstack parent ofile mmap_head total_mmaps]. f_equal.
  apply list_eq. intros j. destruct (decide (j = i)) as [->|Hne].
  - rewrite !list_lookup_alter_eq. destruct (mmaps p !! i) as [r|]; [|done]. cbn. unfold set_loaded. cbn. do 2 f_equal. lia.
  - by rewrite !list_lookup_alter_ne.
Qed.

Lemma uncount_fields cnt i c p j : pgdir (uncount cnt i c p) = pgdir p /\ length (mmaps (uncount cnt i c p)) = length (mmaps p) /\
  f (region (uncount cnt i c p) j) = f (region p j).
Proof.
  unfold uncount. destruct cnt; [|done]. split_and!; [done|by rewrite length_upd|].
  unfold region, upd_region, set_maps. cbn. destruct (decide (j = i)) as [->|Hne]; [rewrite list_lookup_alter_eq|by rewrite list_lookup_alter_ne].
  by destruct (mmaps p !! i).
Qed.

(** The loops that unmap pages, for regions without a file. *)
Lemma unmap_pages_ok fuel me i wb cnt va e (w : world) p fl tb ds mp :
  rep (km w) fl tb ds -> procs w !! me = Some p -> ds !! pgdir p = Some mp -> f (region p i) = None ->
  va mod PGSIZE = 0 -> 0 <= va -> e <= KERNBASE -> va <= KERNBASE -> e - va <= PGSIZE * Z.of_nat fuel ->
  owned fl tb ds mp (fun n => vpn va <= n /\ n * PGSIZE < e) ->
  exists k' fr, unmap_pages fuel me i wb true cnt va e w =
      Ok (tt, mkWorld k' (files w) (<[me := uncount cnt i (loaded_in (vpn va) e mp) p]> (procs w))) /\
    rep k' (fr ++ fl) tb (<[pgdir p := unmap (vpn va) e mp]> ds) /\
    (forall u, u ∈ fr <-> exists n x, (vpn va <= n /\ n * PGSIZE < e) /\ mp !! n = Some x /\ u = upage x) /\
    (forall u, loose fl tb ds u -> u ∉ fr -> page k' u = page (km w) u).
Proof.
  revert va w p fl ds mp. induction fuel as [|fuel IH]; intros va w p fl ds mp Hr Hp Hd Hf Ha Ha0 He Hk Hfu Hown;
    cbn [unmap_pages]; (destruct (Z.ltb_spec va e) as [Hlt|Hge]; cbn [negb]);
    try (exfalso; unfold_layout; lia);
    try (exists (km w), [];
      assert (forall n, ~ (vpn va <= n /\ n * PGSIZE < e)) as Hno by (intros n; unfold vpn; unfold_layout; zlia);
      rewrite loaded_in_empty, uncount_0, list_insert_id by (done || intros n H1' H2'; by destruct (Hno n));
      split_and!; [by destruct w|rewrite unmap_empty by (unfold vpn; unfold_layout; zlia); by rewrite insert_id
        |intros u; split; [by intros ?%elem_of_nil|intros (n & x & Hn & _); by destruct (Hno n)]|done]).
  assert (0 <= va < UINT_MOD) as Hvb by (unfold_layout; unfold_bounds; lia).
  assert (vpn va * PGSIZE = va /\ vpn (va + PGSIZE) = vpn va + 1) as [Hv2 Hv3] by (unfold vpn; unfold_layout; zlia).
  rewrite (bind_Ok _ _ _ _ _ (getp_ok me w p Hp)).
  destruct (read_pte w fl tb ds (pgdir p) mp va Hr Hd Hvb) as (pte & Hw1 & Hw2 & Hpte).
  rewrite (bind_Ok _ _ _ _ _ Hw1), (bind_Ok _ _ _ _ _ Hw2), u32_id by (unfold_layout; unfold_bounds; lia).
  destruct (mp !! vpn va) as [x|] eqn:Ex; cbn [from_option id].
  2:{ change (Z.land 0 PTE_P =? 0) with true. cbv beta iota. erewrite bind_Ok by reflexivity.
    destruct (IH (va + PGSIZE) w p fl ds mp Hr Hp Hd Hf) as (k' & fr & H1 & H2 & H3 & H4);
      try (unfold_layout; first [done|lia|zlia]).
    { eapply owned_weaken; [|exact Hown]. intros n [Hn1 Hn2]. cbn. lia. }
    rewrite Hv3 in *. exists k', fr. rewrite loaded_in_skip by done. rewrite (unmap_skip _ (vpn va + 1)); [|lia|].
    2:{ intros n Hn. by replace n with (vpn va) by lia. }
    split_and!; [done|done| |done]. intros u. rewrite H3. split; intros (n & y & Hn1 & Hn2 & Hn3); exists n, y.
    - split_and!; [lia|lia|done|done].
    - destruct (decide (n = vpn va)) as [->|]; [congruence|]. split_and!; [lia|lia|done|done]. }
  destruct Hpte as [?|(t & Ht & ->)]; [congruence|].
  destruct (rp_map _ _ _ _ Hr _ mp _ x Hd Ex) as (_ & _ & Hodd & _). rewrite land_1, Hodd. change (1 =? 0) with false. cbv beta iota.
  rewrite Hf. assert (vpn va <= vpn va /\ vpn va * PGSIZE < e) as Hin by lia.
  destruct (ow_loose _ _ _ _ _ Hown _ x Hin Ex) as [Hval Hloose].
  destruct (rep_kfree _ fl tb ds (upage x) Hr Hval Hloose) as [Hkf Hr1].
  destruct (pte_access _ _ tb ds _ mp va t Hr1 Hd Hvb Ht) as (_ & _ & Hst1).
  destruct (vpn_split va Hvb) as (Hs & Hi & Hj).
  set (k2 := set_entry t (PTX va) 0 (freed (upage x) (km w))). set (mp2 := delete (vpn va) mp).
  assert (rep k2 (upage x :: fl) tb (<[pgdir p := mp2]> ds)) as Hr2.
  { eapply rep_set_pte; [exact Hr1|done|done|done|..]; rewrite ?Hs; unfold mp2.
    - by rewrite lookup_delete_eq.
    - intros n' Hn'. by rewrite lookup_delete_ne.
    - by rewrite lookup_delete_eq. }
  set (p2 := uncount cnt i 1 p). destruct (uncount_fields cnt i 1 p i) as (Hp2d & Hp2l & Hp2f). fold p2 in Hp2d, Hp2l, Hp2f.
  set (w2 := mkWorld k2 (files w) (<[me := p2]> (procs w))).
  assert (forall (K : unit -> M world unit),
    mbind K (_ ← mret tt; _ ← with_mem (kfree (P2V (PTE_ADDR x))); _ ← with_mem (store (t + 4 * PTX va) 0);
      if cnt then updp me (upd_region i (fun r => set_loaded (n_loaded_pages r - 1) r)) else mret tt) w = K tt w2) as Hbody.
  { intros K. apply bind_Ok. fold (upage x). erewrite bind_Ok by reflexivity. erewrite bind_Ok by (unfold with_mem; rewrite Hkf; reflexivity).
    erewrite bind_Ok by (unfold with_mem; cbn [km]; rewrite Hst1; reflexivity). fold k2. unfold w2, p2. destruct cnt.
    - unfold updp. erewrite bind_Ok by (apply getp_ok; exact Hp). done.
    - unfold uncount. rewrite list_insert_id by done. done. }
  rewrite Hbody.
  assert (procs w2 !! me = Some p2) as Hpw2 by (unfold w2; cbn; apply list_lookup_insert_eq; by eapply lookup_lt_Some).
  destruct (IH (va + PGSIZE) w2 p2 (upage x :: fl) (<[pgdir p := mp2]> ds) mp2) as (k' & fr & H1 & H2 & H3 & H4);
    try (unfold_layout; first [done|lia|zlia]).
  { rewrite Hp2d. by rewrite lookup_insert_eq. }
  { by rewrite Hp2f. }
  { split.
    - intros n y Hn' Hy. unfold mp2 in Hy. apply lookup_delete_Some in Hy as [Hne Hy].
      assert (vpn va <= n /\ n * PGSIZE < e) as Hn2 by lia.
      destruct (ow_loose _ _ _ _ _ Hown n y Hn2 Hy) as [Hv' Hl']. split; [done|].
      rewrite (loose_insert _ _ ds (pgdir p) mp) by done. apply loose_cons. split; [done|].
      intros Heq. apply Hne. by apply (ow_inj _ _ _ _ _ Hown _ _ x y).
    - intros n n' y1 y2 Hn1 Hn2 Hy1 Hy2. unfold mp2 in *. apply lookup_delete_Some in Hy1 as [_ Hy1], Hy2 as [_ Hy2].
      apply (ow_inj _ _ _ _ _ Hown n n' y1 y2); (done || lia). }
  rewrite Hv3, Hp2d, insert_insert_eq in *. exists k', (fr ++ [upage x]). split_and!.
  - rewrite H1. unfold w2. cbn [files procs]. rewrite list_insert_insert_eq. unfold p2. rewrite uncount_plus.
    rewrite (loaded_in_delete _ _ mp x) by (done || lia). done.
  - unfold mp2 in H2. rewrite unmap_delete in H2 by lia. by rewrite <-app_assoc.
  - intros u. rewrite elem_of_app, list_elem_of_singleton, H3. unfold mp2. split.
    + intros [(n & y & Hn1 & Hn2 & Hn3)| ->].
      * apply lookup_delete_Some in Hn2 as [_ Hn2]. exists n, y. split_and!; [lia|lia|done|done].
      * exists (vpn va), x. by split_and!; try lia.
    + intros (n & y & Hn1 & Hn2 & Hn3). destruct (decide (n = vpn va)) as [->|Hne].
      * right. congruence.
      * left. exists n, y. split_and!; [lia|lia|by rewrite lookup_delete_ne|done].
  - intros u Hu Hnu. rewrite elem_of_app, list_elem_of_singleton in Hnu.
    rewrite H4; [|rewrite (loose_insert _ _ ds (pgdir p) mp) by done; apply loose_cons; tauto|tauto].
    unfold w2, k2, set_entry. cbn [km]. rewrite page_setp, decide_False; [apply page_freed; tauto|].
    intros ->. destruct Hu as (_ & _ & H9). by apply (H9 (pgdir p, PDX va)).
Qed.
End memory.

Lemma NoDup_split_unique {A} (l1 : list A) i l2 x1 x2 : NoDup (l1 ++ i :: l2) -> l1 ++ i :: l2 = x1 ++ i :: x2 -> x1 = l1 /\ x2 = l2.
Proof.
  revert x1. induction l1 as [|y l1 IH]; intros [|z x1] Hnd Heq; cbn in *.
  - by injection Heq as ->.
  - exfalso. injection Heq as <- ->. apply NoDup_cons in Hnd as [Hnd _]. apply Hnd, elem_of_app. right. apply list_elem_of_here.
  - exfalso. injection Heq as -> <-. apply NoDup_cons in Hnd as [Hnd _]. apply Hnd, elem_of_app. right. apply list_elem_of_here.
  - injection Heq as -> Heq. apply NoDup_cons in Hnd as [_ Hnd]. by destruct (IH x1 Hnd Heq) as [-> ->].
Qed.

(** ** Removing a region *)

(** The updates of remove_map to the process: unlink slot [i] and reset it. *)
Definition unlink (prev : option nat) (i : nat) (p : proc) : proc :=
  match prev with
  | None => set_maps (mmaps p) (next (region p i)) (total_mmaps p) p
  | Some j => upd_region j (set_next (next (region p i))) p
  end.
Definition drop_slot (i : nat) (p : proc) : proc :=
  init_one_mmap i (set_maps (mmaps p) (mmap_head p) (total_mmaps p - 1) p).

Lemma unlink_ok p l1 i l2 : maps_ok p (l1 ++ i :: l2) ->
  let p' := drop_slot i (unlink (match last l1 with Some x => Some x | None => None end) i p) in
  maps_ok p' (l1 ++ l2) /\ maps_of p' (l1 ++ l2) = maps_of p l1 ++ maps_of p l2 /\ pgdir p' = pgdir p /\ kstack p' = kstack p.
Proof.
  intros Hok p'. destruct (ids_bound _ _ Hok) as (Hn & Hlt & _). destruct Hok as [A B C D E].
  assert (i ∉ l1 ++ l2) as Hi.
  { apply NoDup_app in Hn as (_ & Hd & [Hi2 _]%NoDup_cons). rewrite elem_of_app. intros [Hi|Hi]; [|done].
    apply (Hd i Hi). set_solver. }
  assert ((i < MAX_NMMAP)%nat) as Hil by (apply Hlt; set_solver).
  set (p1 := unlink _ i p) in *.
  assert (length (mmaps p1) = MAX_NMMAP) as Hlen1 by (unfold p1, unlink; destruct (last l1); [by rewrite length_upd|done]).
  assert (forall j, region p' j = if decide (j = i) then init_region else region p1 j) as Hr.
  { intros j. unfold p', drop_slot, init_one_mmap. rewrite region_upd by (cbn; lia). done. }
  assert (forall j, bare (region p1 j) = bare (region p j)) as Hb1.
  { intros j. unfold p1, unlink. destruct (last l1) as [q|] eqn:El; [|done]. apply last_Some in El as [l' ->].
    rewrite region_upd by (rewrite A; apply Hlt; set_solver). by destruct (decide (j = q)) as [->|]. }
  assert (forall j, j <> i -> bare (region p' j) = bare (region p j)) as Hb by (intros j Hj; rewrite Hr, decide_False by done; apply Hb1).
  assert (maps_of p' (l1 ++ l2) = maps_of p l1 ++ maps_of p l2) as Hmaps.
  { unfold maps_of. rewrite <-fmap_app. apply list_fmap_ext. intros ? j Hj. apply Hb. intros ->. apply Hi. by eapply list_elem_of_lookup_2. }
  split_and!; [|done|unfold p', drop_slot, p1, unlink; by destruct (last l1)..].
  split.
  - unfold p', drop_slot, init_one_mmap. rewrite length_upd. exact Hlen1.
  - change (mmap_head p') with (mmap_head p1).
    apply (linked_ext p1). { intros j Hj. rewrite Hr, decide_False; [done|]. by intros ->. }
    unfold p1, unlink. destruct (last l1) as [q|] eqn:El.
    + apply last_Some in El as [l' ->]. rewrite <-app_assoc in *. cbn [app] in *.
      assert ((q < MAX_NMMAP)%nat) as Hql by (apply Hlt; set_solver).
      eapply (linked_remove p); [exact B| |].
      * intros j Hj. rewrite region_upd by lia. rewrite decide_False; [done|]. intros ->.
        apply NoDup_app in Hn as (_ & Hd & [Hq Hn2]%NoDup_cons). apply elem_of_app in Hj as [Hj|Hj]; [|set_solver].
        apply (Hd q Hj). set_solver.
      * rewrite region_upd by lia. by rewrite decide_True.
    + apply last_None in El as ->. cbn [app linked] in *. destruct B as (_ & _ & B). apply (linked_ext p); [done|exact B].
  - intros j Hj. rewrite Hr. destruct (decide (j = i)) as [->|Hne]; cbn [addr init_region].
    + tauto.
    + assert (addr (region p1 j) = addr (region p j)) as -> by exact (f_equal addr (Hb1 j)).
      rewrite (C j Hj). set_solver.
  - change (total_mmaps p') with (total_mmaps p1 - 1).
    assert (total_mmaps p1 = total_mmaps p) as -> by (unfold p1, unlink; by destruct (last l1)).
    rewrite D, !length_app. cbn [length]. lia.
  - rewrite Hmaps. unfold maps_of in E. rewrite fmap_app in E. cbn [fmap list_fmap] in E. apply spaced_app in E as [E1 E2].
    cbn in E2. destruct E2 as (E2 & E3 & E4 & E5 & E6). apply spaced_app. split; [exact E1|].
    eapply spaced_weaken; [|exact E6]. cbn in *. unfold maps_of in *. lia.
Qed.

Section wunmap.
Context `{Linker} {FS : Type} `{Fs FS}.
Notation world := (@world FS).

(** A process whose memory is in order: its regions, its page directory, and
    its mapped pages in the mapping area, each inside a region and counted there;
    such a page is not free, no page table or directory, and mapped at one page
    number only of this directory. *)
Record good (w : world) (me : nat) (p : proc) (ids : list nat) (fl : list Z) (tb : gmap (Z * Z) Z)
    (ds : gmap Z (gmap Z Z)) (mp : gmap Z Z) : Prop := {
  gd_proc : procs w !! me = Some p;
  gd_maps : maps_ok p ids;
  gd_rep : rep (km w) fl tb ds;
  gd_dir : ds !! pgdir p = Some mp;
  gd_kstack : kstack p <> 0;
  gd_owned : owned fl tb ds mp (fun n => MMAPBASE <= n * PGSIZE /\ n * PGSIZE < KERNBASE);
  gd_inside : forall n v, MMAPBASE <= n * PGSIZE -> n * PGSIZE < KERNBASE -> mp !! n = Some v ->
    exists r, r ∈ maps_of p ids /\ addr r <= n * PGSIZE < addr r + len r;
  gd_loaded : forall r, r ∈ maps_of p ids -> n_loaded_pages r = loaded_in (vpn (addr r)) (addr r + len r) mp
}.

Lemma switchuvm_ok (w : world) me p ids fl tb ds mp : good w me p ids fl tb ds mp -> switchuvm p w = Ok (tt, w).
Proof.
  intros Hg. unfold switchuvm. rewrite (proj2 (Z.eqb_neq _ _) (gd_kstack _ _ _ _ _ _ _ _ Hg)).
  destruct (rp_dir _ _ _ _ (gd_rep _ _ _ _ _ _ _ _ Hg) _ _ (gd_dir _ _ _ _ _ _ _ _ Hg)) as [Hv _].
  destruct (valid_range _ Hv) as (_ & _ & Hz & _). by rewrite (proj2 (Z.eqb_neq _ _) Hz).
Qed.

(** Two regions of the list share no page. *)
Lemma regions_apart lo rs1 r rs2 x n : spaced lo (rs1 ++ r :: rs2) -> x ∈ rs1 ++ rs2 ->
  addr x <= n * PGSIZE < addr x + len x -> ~ (addr r <= n * PGSIZE < addr r + len r).
Proof.
  intros [H1 (H2 & H3 & H4 & H5 & H6)]%spaced_app Hx Hn Hr. apply elem_of_app in Hx as [Hx|Hx].
  - destruct (spaced_end _ _ H1) as [_ He]. destruct (He x Hx) as (_ & _ & _ & _ & ?). lia.
  - destruct (spaced_end _ _ H6) as [_ He]. destruct (He x Hx) as (? & _). lia.
Qed.

(** The search finds the only region that satisfies the test. *)
Lemma find_region_unique test p l1 i l2 : maps_ok p (l1 ++ i :: l2) -> test (region p i) = true ->
  (forall j, j ∈ l1 ++ i :: l2 -> test (region p j) = true -> j = i) ->
  find_region list_fuel test p None (mmap_head p) = Ok (Some (match last l1 with Some x => Some x | None => None end, i)).
Proof.
  intros Hok Hi Hu. rewrite (find_region_search _ _ _ _ _ _ (mo_linked _ _ Hok) (list_fuel_ok _ _ Hok)). f_equal.
  destruct (search _ p None (l1 ++ i :: l2)) as [[q j]|] eqn:Es.
  - apply search_Some in Es as (x1 & x2 & Heq & Hj & Hx1 & ->).
    assert (j = i) as -> by (apply Hu; [rewrite Heq; set_solver|done]).
    destruct (ids_bound _ _ Hok) as (Hnd & _). by destruct (NoDup_split_unique l1 i l2 x1 x2 Hnd Heq) as [-> _].
  - rewrite search_None in Es. rewrite (Es i) in Hi by set_solver. done.
Qed.

Lemma find_region_none test p ids : maps_ok p ids -> (forall j, j ∈ ids -> test (region p j) = false) ->
  find_region list_fuel test p None (mmap_head p) = Ok None.
Proof.
  intros Hok Hn. rewrite (find_region_search _ _ _ _ _ _ (mo_linked _ _ Hok) (list_fuel_ok _ _ Hok)). f_equal. by apply search_None.
Qed.

(** At most one region holds the page number [n]. *)
Lemma region_of_page p l1 i l2 n j : maps_ok p (l1 ++ i :: l2) -> j ∈ l1 ++ i :: l2 ->
  addr (region p i) <= n * PGSIZE < addr (region p i) + len (region p i) ->
  addr (region p j) <= n * PGSIZE < addr (region p j) + len (region p j) -> j = i.
Proof.
  intros Hok Hj Hi Hjn. destruct (decide (j = i)) as [|Hne]; [done|]. exfalso.
  pose proof (mo_spaced _ _ Hok) as Hsp. unfold maps_of in Hsp. rewrite fmap_app in Hsp. cbn [fmap list_fmap] in Hsp.
  apply (regions_apart _ _ _ _ (bare (region p j)) n Hsp); [|done|done].
  rewrite <-fmap_app. apply list_elem_of_fmap. exists j. split; [done|set_solver].
Qed.

Lemma remove_map_ok (w : world) me p ids fl tb ds mp a rs1 r rs2 :
  good w me p ids fl tb ds mp -> maps_of p ids = rs1 ++ r :: rs2 -> addr r = a -> f r = None -> refcnt r = 0 ->
  exists p' ids' k' fr, remove_map me a w = Ok (0, mkWorld k' (files w) (<[me := p']> (procs w))) /\
    good (mkWorld k' (files w) (<[me := p']> (procs w))) me p' ids' (fr ++ fl) tb
      (<[pgdir p := unmap (vpn a) (a + len r) mp]> ds) (unmap (vpn a) (a + len r) mp) /\
    maps_of p' ids' = rs1 ++ rs2 /\ pgdir p' = pgdir p /\
    (forall u, u ∈ fr <-> exists n x, a <= n * PGSIZE < a + len r /\ mp !! n = Some x /\ u = upage x) /\
    (forall u, loose fl tb ds u -> u ∉ fr -> page k' u = page (km w) u).
Proof.
  intros Hg Hrs Ha Hf Href. pose proof (gd_maps _ _ _ _ _ _ _ _ Hg) as Hok.
  apply fmap_app_inv in Hrs as (l1 & l2' & Hrs1 & Hrs2 & ->). destruct l2' as [|i l2]; [done|]. injection Hrs2 as Hri Hrs2.
  assert (i ∈ l1 ++ i :: l2) as Hi by set_solver.
  destruct (spaced_region _ _ _ _ (mo_spaced _ _ Hok) Hi) as (S1 & S2 & S3 & S4 & _).
  assert (addr (region p i) = a /\ len (region p i) = len r /\ f (region p i) = None /\ refcnt (region p i) = 0) as (Ra & Rl & Rf & Rr)
    by (rewrite Hri in Ha, Hf, Href |- *; by split_and!).
  rewrite Ra, Rl in *.
  assert (find_region list_fuel (fun r => addr r =? a) p None (mmap_head p) =
    Ok (Some (match last l1 with Some x => Some x | None => None end, i))) as Hfind.
  { apply find_region_unique with (l2 := l2); [done|by apply Z.eqb_eq|]. intros y Hy Hya%Z.eqb_eq.
    apply (region_of_page p l1 i l2 (a / PGSIZE) y Hok Hy).
    - rewrite Ra, Rl. unfold_layout. zlia.
    - destruct (spaced_region _ _ _ _ (mo_spaced _ _ Hok) Hy) as (_ & Y2 & Y3 & _). rewrite Hya in *. unfold_layout. zlia. }
  assert (rend (region p i) = a + len r) as Hrend by (rewrite (rend_ok p _ i Hok Hi), Ra, Rl; done).
  destruct (unmap_pages_ok (pages_fuel a (a + len r)) me i (file_backed_shared (region p i)) false a (a + len r) w p fl tb ds mp)
    as (k' & fr & H1 & H2 & H3 & H4); try apply Hg; try done; try (unfold pages_fuel; unfold_layout; first [lia|zlia]).
  { eapply owned_weaken; [|apply Hg]. intros n [Hn1 Hn2]. cbn. unfold vpn in Hn1. unfold_layout. zlia. }
  cbn [uncount] in H1. rewrite (list_insert_id _ _ _ (gd_proc _ _ _ _ _ _ _ _ Hg)) in H1.
  set (p1 := unlink (match last l1 with Some x => Some x | None => None end) i p). set (p' := drop_slot i p1).
  destruct (unlink_ok p l1 i l2 Hok) as (G1 & G2 & G3 & G4). cbv zeta in G1, G2, G3, G4. fold p1 in G1, G2, G3, G4. fold p' in G1, G2, G3, G4.
  assert (me < length (procs w))%nat as Hme by (eapply lookup_lt_Some; apply Hg).
  exists p', (l1 ++ l2), k', fr.
  assert (good (mkWorld k' (files w) (<[me := p']> (procs w))) me p' (l1 ++ l2) (fr ++ fl) tb
      (<[pgdir p := unmap (vpn a) (a + len r) mp]> ds) (unmap (vpn a) (a + len r) mp)) as Hgood.
  { assert (forall n, MMAPBASE <= n * PGSIZE -> n * PGSIZE < KERNBASE -> (vpn a <= n /\ n * PGSIZE < a + len r) <-> a <= n * PGSIZE < a + len r) as Hrng.
    { intros n Hn1 Hn2. unfold vpn. unfold_layout. zlia. }
    split.
    - cbn. by apply list_lookup_insert_eq.
    - done.
    - exact H2.
    - rewrite G3. by rewrite lookup_insert_eq.
    - rewrite G4. apply Hg.
    - split.
      + intros n x [Hn1 Hn2] Hx. rewrite lookup_unmap in Hx. case_decide as Hin; [done|].
        destruct (ow_loose _ _ _ _ _ (gd_owned _ _ _ _ _ _ _ _ Hg) n x (conj Hn1 Hn2) Hx) as [Hv Hl]. split; [done|].
        rewrite (loose_insert _ _ ds (pgdir p) mp) by apply Hg. destruct Hl as (L1 & L2 & L3). split_and!; [|done|done].
        rewrite elem_of_app. intros [Hu|Hu]; [|done]. apply H3 in Hu as (n' & x' & Hn' & Hx' & Heq).
        assert (n = n') as ->; [|done]. apply (ow_inj _ _ _ _ _ (gd_owned _ _ _ _ _ _ _ _ Hg) n n' x x'); try done.
        unfold vpn in Hn'. unfold_layout. zlia.
      + intros n n' x x' Hn1 Hn2 Hx Hx'. rewrite lookup_unmap in Hx, Hx'. do 2 (case_decide; [done|]).
        by apply (ow_inj _ _ _ _ _ (gd_owned _ _ _ _ _ _ _ _ Hg) n n' x x').
    - intros n v Hn1 Hn2 Hv. rewrite lookup_unmap in Hv. case_decide as Hin; [done|].
      destruct (gd_inside _ _ _ _ _ _ _ _ Hg n v Hn1 Hn2 Hv) as (x & Hx & Hxn). exists x. split; [|done]. rewrite G2.
      unfold maps_of in Hx. rewrite fmap_app in Hx. cbn [fmap list_fmap] in Hx.
      apply elem_of_app in Hx as [Hx|[->|Hx]%elem_of_cons]; [apply elem_of_app; by left| |apply elem_of_app; by right].
      exfalso. apply Hin, Hrng; [done|done|]. change (addr (bare (region p i))) with (addr (region p i)) in Hxn.
      change (len (bare (region p i))) with (len (region p i)) in Hxn. by rewrite Ra, Rl in Hxn.
    - intros x Hx. rewrite G2 in Hx.
      assert (x ∈ maps_of p (l1 ++ i :: l2)) as Hx2.
      { unfold maps_of. rewrite fmap_app. cbn [fmap list_fmap]. fold (maps_of p l1). fold (maps_of p l2).
        apply elem_of_app in Hx as [Hx|Hx]; [apply elem_of_app; by left|apply elem_of_app; right; by apply elem_of_cons; right]. }
      rewrite (gd_loaded _ _ _ _ _ _ _ _ Hg x Hx2). symmetry. apply loaded_in_ext. intros n Hn1 Hn2. rewrite lookup_unmap, decide_False; [done|].
      intros Hin. pose proof (mo_spaced _ _ Hok) as Hsp. unfold maps_of in Hsp. rewrite fmap_app in Hsp. cbn [fmap list_fmap] in Hsp.
      destruct (spaced_end _ _ (mo_spaced _ _ Hok)) as [_ Hse]. destruct (Hse x Hx2) as (X1 & X2 & X3 & X4 & _).
      apply (regions_apart _ _ _ _ x n Hsp Hx); [unfold vpn in Hn1; unfold_layout; zlia|].
      change (addr (bare (region p i))) with (addr (region p i)). change (len (bare (region p i))) with (len (region p i)). rewrite Ra, Rl.
      unfold vpn in *. unfold_layout. zlia. }
  split_and!; [|exact Hgood|by rewrite G2, Hrs1, Hrs2|done| |exact H4].
  - unfold remove_map. rewrite (bind_Ok _ _ _ _ _ (getp_ok me w p (gd_proc _ _ _ _ _ _ _ _ Hg))).
    erewrite bind_Ok by (unfold lift; rewrite Hfind; reflexivity). cbv beta iota.
    rewrite Ra, Rr, Hrend. change (0 =? 0) with true. rewrite (bind_Ok _ _ _ _ _ H1), Rf. erewrite bind_Ok by reflexivity.
    set (w1 := mkWorld k' (files w) (procs w)).
    assert (procs w1 !! me = Some p) as Hw1 by apply Hg.
    erewrite bind_Ok by (unfold updp; erewrite bind_Ok by (apply getp_ok; exact Hw1); reflexivity). fold p1.
    change (match match last l1 with Some x => Some x | None => None end with
            | Some j => upd_region j (set_next (next (region p i))) p
            | None => set_maps (mmaps p) (next (region p i)) (total_mmaps p) p
            end) with p1.
    erewrite bind_Ok by (unfold updp; erewrite bind_Ok by (apply getp_ok; cbn; by apply list_lookup_insert_eq); reflexivity).
    cbn [km files procs]. rewrite list_insert_insert_eq. fold (drop_slot i p1). fold p'.
    erewrite bind_Ok by (apply getp_ok; cbn; by apply list_lookup_insert_eq). cbv beta.
    rewrite (bind_Ok _ _ _ _ _ (switchuvm_ok _ _ _ _ _ _ _ _ Hgood)). done.
  - intros u. rewrite H3. split; intros (n & x & Hn & Hx & Hu); exists n, x; (refine (conj _ (conj Hx Hu))).
    + unfold vpn in Hn. unfold_layout. zlia.
    + unfold vpn. unfold_layout. zlia.
Qed.
End wunmap.

(** ** Demand allocation *)

(** One more loaded page in slot [i]. *)
Definition bump (i : nat) (p : proc) : proc := upd_region i (fun r => set_loaded (n_loaded_pages r + 1) r) p.

Lemma spaced_same lo rs rs' : Forall2 (fun r r' => addr r = addr r' /\ len r = len r') rs rs' -> spaced lo rs -> spaced lo rs'.
Proof.
  intros HF. revert lo. induction HF as [|r r' rs rs' [Ha Hl] HF IH]; intros lo; [done|]. cbn. rewrite Ha, Hl.
  intros (? & ? & ? & ? & ?). split_and!; try done. by apply IH.
Qed.

Lemma bump_ok p l1 i l2 : maps_ok p (l1 ++ i :: l2) ->
  maps_ok (bump i p) (l1 ++ i :: l2) /\
  maps_of (bump i p) (l1 ++ i :: l2) =
    maps_of p l1 ++ set_loaded (n_loaded_pages (region p i) + 1) (bare (region p i)) :: maps_of p l2.
Proof.
  intros Hok. destruct (ids_bound _ _ Hok) as (Hn & Hlt & _). destruct Hok as [A B C D E].
  assert (forall j, region (bump i p) j = if decide (j = i) then set_loaded (n_loaded_pages (region p i) + 1) (region p i) else region p j) as Hr.
  { intros j. unfold bump. rewrite region_upd; [done|]. rewrite A. apply Hlt. set_solver. }
  assert (forall j, j ∈ l1 ++ l2 -> region (bump i p) j = region p j) as Hr2.
  { intros j Hj. rewrite Hr, decide_False; [done|]. intros ->. apply NoDup_app in Hn as (_ & Hd & [Hn _]%NoDup_cons).
    apply elem_of_app in Hj as [Hj|Hj]; [|done]. apply (Hd i Hj). set_solver. }
  assert (maps_of (bump i p) (l1 ++ i :: l2) =
    maps_of p l1 ++ set_loaded (n_loaded_pages (region p i) + 1) (bare (region p i)) :: maps_of p l2) as Hmaps.
  { unfold maps_of. rewrite fmap_app. cbn [fmap list_fmap]. f_equal; [|f_equal].
    - apply list_fmap_ext. intros ? j Hj. rewrite Hr2; [done|]. apply elem_of_app. left. by eapply list_elem_of_lookup_2.
    - by rewrite Hr, decide_True.
    - apply list_fmap_ext. intros ? j Hj. rewrite Hr2; [done|]. apply elem_of_app. right. by eapply list_elem_of_lookup_2. }
  split; [|done]. split; [unfold bump; by rewrite length_upd| | |done|].
  - eapply linked_ext; [|exact B]. intros j _. rewrite Hr. by destruct (decide (j = i)) as [->|].
  - intros j Hj. rewrite Hr. destruct (decide (j = i)) as [->|]; by apply C.
  - eapply spaced_same; [|exact E]. rewrite Hmaps. unfold maps_of at 1. rewrite fmap_app. cbn [fmap list_fmap].
    apply Forall2_app; [by apply Forall_Forall2_diag, Forall_true|]. constructor; [done|by apply Forall_Forall2_diag, Forall_true].
Qed.

Section faults.
Context `{Linker} {FS : Type} `{Fs FS}.
Notation world := (@world FS).

(** A page of the region in slot [i] gets mapped to a page of the free list. *)
Lemma good_map (w : world) me p l1 i l2 m fl tb ds mp n k' fl' tb' :
  good w me p (l1 ++ i :: l2) (m :: fl) tb ds mp -> addr (region p i) <= n * PGSIZE < addr (region p i) + len (region p i) ->
  mp !! n = None -> valid m -> loose fl tb ds m -> rep k' fl' tb' (<[pgdir p := <[n := user_pte m]> mp]> ds) -> grows fl tb fl' tb' ->
  good (mkWorld k' (files w) (<[me := bump i p]> (procs w))) me (bump i p) (l1 ++ i :: l2) fl' tb'
    (<[pgdir p := <[n := user_pte m]> mp]> ds) (<[n := user_pte m]> mp).
Proof.
  intros Hg Hn Hun Hm Hlm Hr' Hgr. pose proof (gd_maps _ _ _ _ _ _ _ _ Hg) as Hok. destruct (bump_ok _ _ _ _ Hok) as [Hok2 Hmaps].
  pose proof (mo_spaced _ _ Hok) as Hsp. unfold maps_of in Hsp. rewrite fmap_app in Hsp. cbn [fmap list_fmap] in Hsp.
  fold (maps_of p l1) in Hsp. fold (maps_of p l2) in Hsp.
  destruct (spaced_region _ _ _ i (mo_spaced _ _ Hok) ltac:(set_solver)) as (S1 & S2 & S3 & S4 & _).
  assert (me < length (procs w))%nat as Hme by (eapply lookup_lt_Some; apply Hg).
  destruct (user_pte_ok m Hm) as (_ & _ & Hupm).
  assert (forall u, loose (m :: fl) tb ds u \/ u = m -> loose fl' tb' (<[pgdir p := <[n := user_pte m]> mp]> ds) u) as Hl.
  { intros u Hu. rewrite (loose_insert _ _ ds (pgdir p) mp) by apply Hg. apply (loose_grows _ _ _ _ _ _ Hgr).
    destruct Hu as [Hu| ->]; [|done]. by apply loose_cons in Hu as [Hu _]. }
  pose proof (gd_owned _ _ _ _ _ _ _ _ Hg) as [Hol Hoi].
  split.
  - cbn. by apply list_lookup_insert_eq.
  - done.
  - done.
  - apply lookup_insert_eq.
  - apply Hg.
  - split.
    + intros n' w' Hn' Hw. destruct (decide (n' = n)) as [->|Hne].
      * rewrite lookup_insert_eq in Hw. injection Hw as <-. rewrite Hupm. split; [done|]. apply Hl. by right.
      * rewrite lookup_insert_ne in Hw by done. destruct (Hol n' w' Hn' Hw). split; [done|]. apply Hl. by left.
    + intros n1 n2 w1 w2 Hn1 Hn2 Hw1 Hw2 Heq.
      assert (forall n' w', MMAPBASE <= n' * PGSIZE /\ n' * PGSIZE < KERNBASE -> mp !! n' = Some w' -> upage w' <> m) as Hne.
      { intros n' w' Hn' Hw' Heq'. destruct (Hol n' w' Hn' Hw') as [_ Hx]. by apply loose_cons in Hx as [_ Hx]. }
      destruct (decide (n1 = n)) as [->|H1], (decide (n2 = n)) as [->|H2]; rewrite ?lookup_insert_eq, ?lookup_insert_ne in * by done.
      * done.
      * injection Hw1 as <-. rewrite Hupm in Heq. by destruct (Hne n2 w2).
      * injection Hw2 as <-. rewrite Hupm in Heq. by destruct (Hne n1 w1).
      * by apply (Hoi n1 n2 w1 w2).
  - intros n' v Hn1 Hn2 Hv. rewrite Hmaps. destruct (decide (n' = n)) as [->|Hne].
    + exists (set_loaded (n_loaded_pages (region p i) + 1) (bare (region p i))). split; [set_solver|exact Hn].
    + rewrite lookup_insert_ne in Hv by done. destruct (gd_inside _ _ _ _ _ _ _ _ Hg n' v Hn1 Hn2 Hv) as (x & Hx & Hxn).
      unfold maps_of in Hx. rewrite fmap_app in Hx. cbn [fmap list_fmap] in Hx. fold (maps_of p l1) in Hx. fold (maps_of p l2) in Hx.
      apply elem_of_app in Hx as [Hx|[->|Hx]%elem_of_cons]; [exists x; split; [set_solver|done]| |exists x; split; [set_solver|done]].
      exists (set_loaded (n_loaded_pages (region p i) + 1) (bare (region p i))). split; [set_solver|exact Hxn].
  - intros x Hx. rewrite Hmaps in Hx.
    assert (x = set_loaded (n_loaded_pages (region p i) + 1) (bare (region p i)) \/ x ∈ maps_of p l1 ++ maps_of p l2) as [->|Hx2] by set_solver.
    + cbn [n_loaded_pages set_loaded addr len bare set_next].
      rewrite loaded_in_insert by (done || unfold vpn; unfold_layout; zlia). f_equal.
      apply (gd_loaded _ _ _ _ _ _ _ _ Hg (bare (region p i))), elem_of_maps. exists i. split; [set_solver|done].
    + assert (x ∈ maps_of p (l1 ++ i :: l2)) as Hx3.
      { unfold maps_of. rewrite fmap_app. cbn [fmap list_fmap]. fold (maps_of p l1). fold (maps_of p l2). set_solver. }
      rewrite (gd_loaded _ _ _ _ _ _ _ _ Hg x Hx3). symmetry. apply loaded_in_ext. intros n' Hn1 Hn2.
      rewrite lookup_insert_ne; [done|]. intros <-.
      destruct (spaced_end _ _ (mo_spaced _ _ Hok)) as [_ Hse]. destruct (Hse x Hx3) as (X1 & X2 & X3 & X4 & _).
      apply (regions_apart _ _ _ _ x n Hsp Hx2); [unfold vpn in Hn1; unfold_layout; zlia|exact Hn].
Qed.

(** Memory may change as long as the regions, the mappings and their pages
    stay. *)
Lemma good_mem (w : world) me p ids fl tb ds mp k' fl' : good w me p ids fl tb ds mp -> rep k' fl' tb ds ->
  (forall u, loose fl tb ds u -> loose fl' tb ds u) -> good (mkWorld k' (files w) (procs w)) me p ids fl' tb ds mp.
Proof.
  intros [A B C D E [F1 F2] G I] Hr Hl. split; try done. split; [|done].
  intros n x Hn Hx. destruct (F1 n x Hn Hx). split; [done|by apply Hl].
Qed.


(** kalloc, memset and mappages, as a page fault or fork does them. *)
Lemma map_zero_page k m fl tb ds d mp va : rep k (m :: fl) tb ds -> ds !! d = Some mp -> va mod PGSIZE = 0 -> 0 <= va < UINT_MOD ->
  mp !! vpn va = None ->
  exists k1, kalloc k = Ok (m, k1) /\ m <> 0 /\ valid m /\ loose fl tb ds m /\
    memset_page m 0 k1 = Ok (tt, setp m zero_page k1) /\
    (mappages d va PGSIZE (V2P m) (Z.lor PTE_W PTE_U) (setp m zero_page k1) = Ok (-1, setp m zero_page k1) /\ fl = [] /\
       (exists k2, kfree m (setp m zero_page k1) = Ok (tt, k2) /\ rep k2 [m] tb ds /\ (forall u, loose [m] tb ds u -> page k2 u = page k u))
     \/ exists k2 fl' tb', mappages d va PGSIZE (V2P m) (Z.lor PTE_W PTE_U) (setp m zero_page k1) = Ok (0, k2) /\
       rep k2 fl' tb' (<[d := <[vpn va := user_pte m]> mp]> ds) /\ grows fl tb fl' tb' /\ page k2 m = zero_page /\
       (forall u, loose (m :: fl) tb ds u -> page k2 u = page k u)).
Proof.
  intros Hr Hd Ha Hv Hun. destruct (rep_kalloc k m fl tb ds Hr) as (k1 & Hk & Hmem & Hr1 & Hl1 & Hval).
  destruct (valid_range m Hval) as (Hma & Hmr & Hm0 & _). exists k1. do 4 (split; [done|]). split; [by apply memset_zero|].
  set (k2 := setp m zero_page k1).
  assert (rep k2 fl tb ds) as Hr2 by (apply rep_setp; [done|done|apply length_replicate]).
  assert (forall u, u <> m -> page k2 u = page k u) as Hpk.
  { intros u Hu. unfold k2. rewrite page_setp, decide_False by done. unfold page. by rewrite Hmem. }
  assert (V2P m mod PGSIZE = 0 /\ 0 <= V2P m < UINT_MOD) as [Hp1 Hp2]
    by (rewrite V2P_id by (unfold_layout; unfold_bounds; lia); unfold_layout; unfold_bounds; zlia).
  destruct (mappages_one k2 fl tb ds d mp va (V2P m) (Z.lor PTE_W PTE_U) Hr2 Hd Ha Hv Hp1 Hp2 ltac:(done) Hun)
    as [(Hmp & ->)|(k3 & fl3 & tb3 & Hmp & Hr3 & Hk3 & Hg3)].
  - left. destruct (rep_kfree k2 [] tb ds m Hr2 Hval Hl1) as [Hkf Hr4]. split_and!; [done|done|]. exists (freed m k2).
    split_and!; [done|done|]. intros u Hu. apply loose_cons in Hu as [_ Hu]. by rewrite page_freed, Hpk.
  - right. exists k3, fl3, tb3. split_and!; [done|done|done| |].
    + rewrite Hk3 by done. unfold k2. by rewrite page_setp, decide_True.
    + intros u Hu. apply loose_cons in Hu as [Hu Hne]. by rewrite Hk3, Hpk.
Qed.

(** A page fault in an anonymous region: a zeroed page of the free list gets
    mapped and counted, or memory runs out and nothing else changes. *)
Lemma fault_anonymous (w : world) me p l1 i l2 fl tb ds mp va :
  good w me p (l1 ++ i :: l2) fl tb ds mp -> 0 <= va < UINT_MOD -> f (region p i) = None ->
  addr (region p i) <= PGROUNDDOWN va < addr (region p i) + len (region p i) -> mp !! vpn va = None ->
  (exists m k' fl' tb', handle_page_fault va me w = Ok (0, mkWorld k' (files w) (<[me := bump i p]> (procs w))) /\
     good (mkWorld k' (files w) (<[me := bump i p]> (procs w))) me (bump i p) (l1 ++ i :: l2) fl' tb'
       (<[pgdir p := <[vpn va := user_pte m]> mp]> ds) (<[vpn va := user_pte m]> mp) /\
     m ∈ fl /\ page k' m = zero_page /\ (forall u, loose fl tb ds u -> page k' u = page (km w) u)) \/
  ((length fl <= 1)%nat /\ exists k' fl', handle_page_fault va me w = Ok (FAILED, mkWorld k' (files w) (procs w)) /\
     good (mkWorld k' (files w) (procs w)) me p (l1 ++ i :: l2) fl' tb ds mp /\
     (forall u, loose fl tb ds u -> page k' u = page (km w) u)).
Proof.
  intros Hg Hv Hf Hin Hun. pose proof (gd_maps _ _ _ _ _ _ _ _ Hg) as Hok. pose proof (gd_rep _ _ _ _ _ _ _ _ Hg) as Hr.
  assert (PGROUNDDOWN va = vpn va * PGSIZE /\ 0 <= PGROUNDDOWN va < UINT_MOD /\ PGROUNDDOWN va mod PGSIZE = 0) as (Hpg & Hpr & Hpm).
  { rewrite PGROUNDDOWN_mod. unfold vpn. unfold_layout. unfold_bounds. zlia. }
  assert (vpn (PGROUNDDOWN va) = vpn va) as Hvp by (rewrite Hpg; unfold vpn; unfold_layout; zlia).
  assert (forall j, j ∈ l1 ++ i :: l2 -> ((addr (region p j) <=? PGROUNDDOWN va) && (PGROUNDDOWN va <? rend (region p j)) = true <->
    addr (region p j) <= vpn va * PGSIZE < addr (region p j) + len (region p j))) as Htest.
  { intros j Hj. rewrite (rend_ok p _ j Hok Hj), Hpg. rewrite andb_true_iff, Z.leb_le, Z.ltb_lt. done. }
  unfold handle_page_fault. rewrite (bind_Ok _ _ _ _ _ (getp_ok me w p (gd_proc _ _ _ _ _ _ _ _ Hg))).
  pose proof (find_region_unique (fun r => (addr r <=? PGROUNDDOWN va) && (PGROUNDDOWN va <? rend r)) p l1 i l2 Hok) as Hfind.
  rewrite Hfind; [|apply Htest; [set_solver|by rewrite <-Hpg]
    |intros j Hj Ht; apply (region_of_page p l1 i l2 (vpn va)); [done|done|by rewrite <-Hpg|by apply Htest]].
  erewrite bind_Ok by reflexivity.
  cbv beta iota. destruct fl as [|m fl].
  { right. split; [cbn; lia|]. exists (km w), []. erewrite bind_Ok by (unfold with_mem; rewrite (rep_kalloc_nil _ _ _ Hr); reflexivity).
    change (0 =? 0) with true. split_and!; [done|by destruct w|done]. }
  destruct (map_zero_page (km w) m fl tb ds (pgdir p) mp (PGROUNDDOWN va) Hr (gd_dir _ _ _ _ _ _ _ _ Hg) Hpm Hpr ltac:(by rewrite Hvp))
    as (k1 & Hk & Hm0 & Hval & Hlm & Hms & Hcase).
  erewrite bind_Ok by (unfold with_mem; rewrite Hk; reflexivity). rewrite (proj2 (Z.eqb_neq _ _) Hm0).
  erewrite bind_Ok by (unfold with_mem; cbn [km]; rewrite Hms; reflexivity). rewrite Hvp in Hcase.
  destruct Hcase as [(Hmp & -> & k2 & Hkf & Hr2 & Hpk)|(k2 & fl' & tb' & Hmp & Hr2 & Hgr & Hz & Hpk)];
    erewrite bind_Ok by (unfold with_mem; cbn [km]; rewrite Hmp; reflexivity).
  - right. split; [cbn; lia|]. exists k2, [m]. change (-1 <? 0) with true. cbv beta iota.
    erewrite bind_Ok by (unfold with_mem; cbn [km]; rewrite Hkf; reflexivity). split_and!; [done|by eapply good_mem|done].
  - left. exists m, k2, fl', tb'. change (0 <? 0) with false. cbv beta iota. rewrite Hf. erewrite bind_Ok by reflexivity.
    cbn [negb]. cbv beta iota. erewrite bind_Ok by (unfold updp; erewrite bind_Ok by (apply getp_ok; apply Hg); reflexivity).
    split_and!; [done| |set_solver|done|done]. eapply good_map; try done. by rewrite <-Hpg.
Qed.

(** A region without pages joins the others. *)
Lemma good_insert (w : world) me p ids fl tb ds mp p' ids' rs1 r rs2 (s' : fstate FS) : good w me p ids fl tb ds mp -> maps_ok p' ids' ->
  pgdir p' = pgdir p -> kstack p' = kstack p -> maps_of p ids = rs1 ++ rs2 -> maps_of p' ids' = rs1 ++ r :: rs2 ->
  n_loaded_pages r = 0 -> addr r mod PGSIZE = 0 -> MMAPBASE <= addr r -> addr r + len r <= KERNBASE ->
  (forall x, x ∈ maps_of p ids -> apart (addr r) (len r) x) ->
  good (mkWorld (km w) s' (<[me := p']> (procs w))) me p' ids' fl tb ds mp.
Proof.
  intros Hg Hok' Hpd Hks H1 H2 Hz Ha Hb Hk Hap.
  assert (me < length (procs w))%nat as Hme by (eapply lookup_lt_Some; apply Hg).
  split; try done; try apply Hg.
  - cbn. by apply list_lookup_insert_eq.
  - rewrite Hpd. apply Hg.
  - rewrite Hks. apply Hg.
  - intros n v Hn1 Hn2 Hv. destruct (gd_inside _ _ _ _ _ _ _ _ Hg n v Hn1 Hn2 Hv) as (x & Hx & Hxn). exists x. split; [|done].
    rewrite H2. rewrite H1 in Hx. set_solver.
  - intros x Hx. rewrite H2 in Hx. assert (x = r \/ x ∈ maps_of p ids) as [->|Hx2] by (rewrite H1; set_solver).
    + rewrite Hz. symmetry. apply loaded_in_empty. intros n Hn1 Hn2. destruct (mp !! n) as [v|] eqn:Hv; [|done]. exfalso.
      assert (addr r <= n * PGSIZE) as Hn3 by (unfold vpn in Hn1; unfold_layout; zlia).
      destruct (gd_inside _ _ _ _ _ _ _ _ Hg n v ltac:(lia) ltac:(lia) Hv) as (x & Hx' & Hxn). destruct (Hap x Hx'); [|lia].
      pose proof (gd_maps _ _ _ _ _ _ _ _ Hg) as Hok. destruct (spaced_end _ _ (mo_spaced _ _ Hok)) as [_ Hse]. destruct (Hse x Hx') as (X1 & X2 & X3 & X4 & _).
      lia.
    + by apply Hg.
Qed.

Lemma remove_map_missing (w : world) me p ids fl tb ds mp a : good w me p ids fl tb ds mp ->
  (forall r, r ∈ maps_of p ids -> addr r <> a) -> remove_map me a w = Ok (-1, w).
Proof.
  intros Hg Hno. unfold remove_map. rewrite (bind_Ok _ _ _ _ _ (getp_ok me w p (gd_proc _ _ _ _ _ _ _ _ Hg))).
  rewrite (find_region_none _ p ids (gd_maps _ _ _ _ _ _ _ _ Hg)); [done|].
  intros j Hj. apply Z.eqb_neq. apply (Hno (bare (region p j))), elem_of_maps. by exists j.
Qed.

Lemma region_split (P : mmap_region -> Prop) `{forall r, Decision (P r)} (rs : list mmap_region) :
  (exists rs1 r rs2, rs = rs1 ++ r :: rs2 /\ P r) \/ (forall r, r ∈ rs -> ~ P r).
Proof.
  destruct (decide (Exists P rs)) as [He|Hn].
  - left. apply Exists_exists in He as (r & (rs1 & rs2 & ->)%list_elem_of_split & Hp). by exists rs1, r, rs2.
  - right. intros r Hr Hp. apply Hn, Exists_exists. by exists r.
Qed.

Lemma fault_missing (w : world) me p ids fl tb ds mp va : good w me p ids fl tb ds mp -> 
  (forall r, r ∈ maps_of p ids -> ~ (addr r <= PGROUNDDOWN va < addr r + len r)) -> handle_page_fault va me w = Ok (FAILED, w).
Proof.
  intros Hg Hno. unfold handle_page_fault. rewrite (bind_Ok _ _ _ _ _ (getp_ok me w p (gd_proc _ _ _ _ _ _ _ _ Hg))).
  pose proof (gd_maps _ _ _ _ _ _ _ _ Hg) as Hok.
  rewrite (find_region_none _ p ids Hok); [done|].
  intros j Hj. rewrite (rend_ok p _ j Hok Hj). apply not_true_iff_false. rewrite andb_true_iff, Z.leb_le, Z.ltb_lt.
  apply (Hno (bare (region p j))), elem_of_maps. by exists j.
Qed.
End faults.

(** ** The system calls keep a process's memory in order *)
Section properties.
Context `{Linker} {FS : Type} `{Fs FS}.
Notation world := (@world FS).

(** Regions without a file and without another process. *)
Definition anonymous (rs : list mmap_region) : Prop := forall r, r ∈ rs -> f r = None /\ refcnt r = 0.

(** C13: wmap.  For arguments that validate_input accepts, wmap either adds
    exactly one region, page aligned, inside the mapping area and apart from
    the others, at the requested address with MAP_FIXED and otherwise at the
    lowest address where it fits, loads no page, takes one reference to the
    file and leaves the process's memory in order; or it fails without any
    change, and then sixteen regions exist or the region fits nowhere (with
    MAP_FIXED, not at the requested address). *)
Theorem sys_wmap_correct argint me (w : world) p ids flst tb ds mp a0 l fl :
  good w me p ids flst tb ds mp ->
  argint 0%nat = Some a0 -> argint 1%nat = Some l -> argint 2%nat = Some fl -> l <= INT_MAX ->
  live_file (fd_arg argint p).2 (files w) ->
  validate_input (u32 a0) l fl (fd_arg argint p).1 (fd_arg argint p).2 = 0 ->
  (exists a p' ids' rs1 rs2, let w' := mkWorld (km w) (dup_file (fd_arg argint p).2 (files w)) (<[me := p']> (procs w)) in
     sys_wmap argint me w = Ok (a, w') /\ good w' me p' ids' flst tb ds mp /\
     maps_of p ids = rs1 ++ rs2 /\ maps_of p' ids' = rs1 ++ new_region a l fl (fd_arg argint p).1 (fd_arg argint p).2 :: rs2 /\
     fits (maps_of p ids) l a /\
     if has fl MAP_FIXED then a = u32 a0 else forall b, fits (maps_of p ids) l b -> a <= b)
  \/ (sys_wmap argint me w = Ok (FAILED, w) /\
      (length ids = MAX_NMMAP \/ if has fl MAP_FIXED then ~ fits (maps_of p ids) l (u32 a0) else forall b, ~ fits (maps_of p ids) l b)).
Proof.
  intros Hg A0 A1 A2 Hlm Hlive Hval. destruct (validate_ok _ _ _ _ _ Hval) as [Hl _].
  destruct (wmap_places argint me w p ids a0 l fl) as [(a & p' & ids' & rs1 & rs2 & H1 & H2 & H3 & H4 & H6 & H7 & H8 & H9)|Hf];
    try done; try apply Hg; [left|by right].
  exists a, p', ids', rs1, rs2. pose proof H8 as (F1 & F2 & F3 & F4). split_and!; try done. by eapply good_insert.
Qed.

(** C38: wunmap of private anonymous memory, of a process all of whose regions
    are without a file and without another process that shares them
    ([anonymous]: no file, reference count 0; a region with a file or with a
    reference count is not covered).  Unless a region starts at the given
    address, wunmap fails and changes nothing.  Otherwise it removes exactly
    that region, gives exactly the pages mapped in it back to the allocator,
    leaves the other mappings and their contents alone and the process's memory
    in order. *)
Theorem sys_wunmap_correct argint me (w : world) p ids fl tb ds mp a0 :
  good w me p ids fl tb ds mp -> anonymous (maps_of p ids) -> argint 0%nat = Some a0 ->
  (exists rs1 r rs2 p' ids' k' fr, let w' := mkWorld k' (files w) (<[me := p']> (procs w)) in
     let mp' := unmap (vpn (addr r)) (addr r + len r) mp in
     maps_of p ids = rs1 ++ r :: rs2 /\ addr r = u32 a0 /\ sys_wunmap argint me w = Ok (0, w') /\
     maps_of p' ids' = rs1 ++ rs2 /\ good w' me p' ids' (fr ++ fl) tb (<[pgdir p := mp']> ds) mp' /\
     (forall u, u ∈ fr <-> exists n x, addr r <= n * PGSIZE < addr r + len r /\ mp !! n = Some x /\ u = upage x) /\
     (forall u, loose fl tb ds u -> u ∉ fr -> page k' u = page (km w) u)) \/
  ((forall r, r ∈ maps_of p ids -> addr r <> u32 a0) /\ sys_wunmap argint me w = Ok (FAILED, w)).
Proof.
  intros Hg Han A0. pose proof (gd_maps _ _ _ _ _ _ _ _ Hg) as Hok. unfold sys_wunmap. rewrite A0.
  destruct (region_split (fun r => addr r = u32 a0) (maps_of p ids)) as [(rs1 & r & rs2 & Hrs & Hr)|Hno].
  - left. destruct (Han r ltac:(rewrite Hrs; set_solver)) as [Hf Hrc].
    destruct (remove_map_ok w me p ids fl tb ds mp _ rs1 r rs2 Hg Hrs Hr Hf Hrc) as (p' & ids' & k' & fr & H1 & H2 & H3 & H4 & H5 & H6).
    rewrite <-Hr in *. exists rs1, r, rs2, p', ids', k', fr.
    destruct (spaced_end _ _ (mo_spaced _ _ Hok)) as [_ Hse]. destruct (Hse r ltac:(rewrite Hrs; set_solver)) as (_ & -> & _).
    change (negb (0 =? 0)) with false. cbv beta iota. rewrite (bind_Ok _ _ _ _ _ H1). by split_and!.
  - right. split; [done|]. cbv zeta. destruct (negb _); [done|]. by rewrite (bind_Ok _ _ _ _ _ (remove_map_missing _ _ _ _ _ _ _ _ _ Hg Hno)).
Qed.

(** Lazy allocation.  A fault at an address outside the regions fails and
    changes nothing.  Inside a region it maps exactly the page of the address
    to a page of zeros that was free and counts it; or memory is short, the call
    fails and the mappings are as before.  Other pages keep their contents and
    the process's memory stays in order. *)
Theorem handle_page_fault_correct me (w : world) p ids fl tb ds mp va :
  good w me p ids fl tb ds mp -> anonymous (maps_of p ids) -> 0 <= va < UINT_MOD -> mp !! vpn va = None ->
  ((forall r, r ∈ maps_of p ids -> ~ (addr r <= PGROUNDDOWN va < addr r + len r)) /\ handle_page_fault va me w = Ok (FAILED, w)) \/
  exists rs1 r rs2, maps_of p ids = rs1 ++ r :: rs2 /\ addr r <= PGROUNDDOWN va < addr r + len r /\
    ((exists m k' fl' tb' p' ids', let w' := mkWorld k' (files w) (<[me := p']> (procs w)) in
        let mp' := <[vpn va := user_pte m]> mp in
        handle_page_fault va me w = Ok (0, w') /\ m ∈ fl /\ page k' m = zero_page /\
        maps_of p' ids' = rs1 ++ set_loaded (n_loaded_pages r + 1) r :: rs2 /\
        good w' me p' ids' fl' tb' (<[pgdir p := mp']> ds) mp' /\ (forall u, loose fl tb ds u -> page k' u = page (km w) u)) \/
     ((length fl <= 1)%nat /\ exists k' fl', let w' := mkWorld k' (files w) (procs w) in
        handle_page_fault va me w = Ok (FAILED, w') /\ good w' me p ids fl' tb ds mp /\
        (forall u, loose fl tb ds u -> page k' u = page (km w) u))).
Proof.
  intros Hg Han Hv Hun.
  destruct (region_split (fun r => addr r <= PGROUNDDOWN va < addr r + len r) (maps_of p ids)) as [(rs1 & r & rs2 & Hrs & Hr)|Hno];
    [right|left; split; [done|by eapply fault_missing]].
  exists rs1, r, rs2. split_and!; [done|lia|lia|]. destruct (Han r ltac:(rewrite Hrs; set_solver)) as [Hf _].
  pose proof Hrs as Hrs'. apply fmap_app_inv in Hrs as (l1 & l2' & -> & Hrs2 & ->). destruct l2' as [|i l2]; [done|]. injection Hrs2 as -> ->.
  destruct (fault_anonymous w me p l1 i l2 fl tb ds mp va Hg Hv Hf Hr Hun) as [(m & k' & fl' & tb' & H1 & H2 & H3 & H4 & H5)|(H1 & k' & fl' & H2 & H3 & H4)].
  - left. exists m, k', fl', tb', (bump i p), (l1 ++ i :: l2). split_and!; try done. apply bump_ok, Hg.
  - right. split; [done|]. by exists k', fl'.
Qed.
End properties.

(** ** Sequences of calls *)

Inductive call : Type :=
  | Wmap (argint : nat -> option Z)
  | Wunmap (argint : nat -> option Z)
  | Fault (va : Z).

Section calls.
Context `{Linker} {FS : Type} `{Fs FS}.
Notation world := (@world FS).

Definition exec (me : nat) (c : call) : M world Z :=
  match c with
  | Wmap argint => sys_wmap argint me
  | Wunmap argint => sys_wunmap argint me
  | Fault va => handle_page_fault va me
  end.

(** Arguments are ints, mappings are requested without a file, and the
    processor faults at pages that are not present. *)
Definition admissible (w : world) (me : nat) (c : call) : Prop :=
  match c with
  | Wmap argint => (forall n z, argint n = Some z -> z <= INT_MAX) /\ forall p, procs w !! me = Some p -> (fd_arg argint p).2 = None
  | Wunmap _ => True
  | Fault va => 0 <= va < UINT_MOD /\ forall p, procs w !! me = Some p -> get_physical_page (pgdir p) va w = Ok (None, w)
  end.

Inductive step (me : nat) (w : world) : world -> Prop :=
  | step_call c r w' : admissible w me c -> exec me c w = Ok (r, w') -> step me w w'.

(** The memory of process [me] is in order and its regions have no file. *)
Definition tidy (me : nat) (w : world) : Prop :=
  exists p ids fl tb ds mp, good w me p ids fl tb ds mp /\ anonymous (maps_of p ids).

Lemma unmapped_of_absent (w : world) me p ids fl tb ds mp va : good w me p ids fl tb ds mp -> 0 <= va < UINT_MOD ->
  get_physical_page (pgdir p) va w = Ok (None, w) -> mp !! vpn va = None.
Proof.
  intros Hg Hv Hpp. destruct (mp !! vpn va) as [x|] eqn:Ex; [|done]. exfalso.
  destruct (read_pte w fl tb ds (pgdir p) mp va (gd_rep _ _ _ _ _ _ _ _ Hg) (gd_dir _ _ _ _ _ _ _ _ Hg) Hv) as (pte & Hw1 & Hw2 & _).
  rewrite Ex in Hw2. unfold get_physical_page in Hpp. rewrite (bind_Ok _ _ _ _ _ Hw1) in Hpp.
  destruct (rp_map _ _ _ _ (gd_rep _ _ _ _ _ _ _ _ Hg) _ mp _ x (gd_dir _ _ _ _ _ _ _ _ Hg) Ex) as (_ & _ & Hodd & _).
  destruct ((pte : Z) =? 0).
  - injection Hw2 as Hw2. by rewrite <-Hw2 in Hodd.
  - rewrite (bind_Ok _ _ _ _ _ Hw2) in Hpp. cbn [from_option id] in Hpp. rewrite land_1, Hodd in Hpp. done.
Qed.

Lemma anonymous_mid rs1 r rs2 : f r = None -> refcnt r = 0 -> anonymous (rs1 ++ rs2) -> anonymous (rs1 ++ r :: rs2).
Proof. intros Hf Hr Ha x Hx. assert (x = r \/ x ∈ rs1 ++ rs2) as [->|Hx'] by set_solver; [done|by apply Ha]. Qed.

Lemma anonymous_drop rs1 r rs2 : anonymous (rs1 ++ r :: rs2) -> anonymous (rs1 ++ rs2).
Proof. intros Ha x Hx. apply Ha. set_solver. Qed.

Lemma tidy_wmap me (w : world) argint : tidy me w -> admissible w me (Wmap argint) ->
  exists r w', sys_wmap argint me w = Ok (r, w') /\ tidy me w'.
Proof.
  intros (p & ids & fl & tb & ds & mp & Hg & Han) [Hint Hnofile]. pose proof (gd_proc _ _ _ _ _ _ _ _ Hg) as Hp. specialize (Hnofile p Hp).
  destruct (argint 0%nat) as [a0|] eqn:A0, (argint 1%nat) as [l|] eqn:A1, (argint 2%nat) as [flg|] eqn:A2;
    try (exists FAILED, w; split; [unfold sys_wmap; by rewrite A0, ?A1, ?A2|by exists p, ids, fl, tb, ds, mp]).
  assert (live_file (fd_arg argint p).2 (files w)) as Hlive by by rewrite Hnofile.
  destruct (decide (validate_input (u32 a0) l flg (fd_arg argint p).1 (fd_arg argint p).2 = 0)) as [Hval|Hval].
  - destruct (wmap_places argint me w p ids a0 l flg) as [(a & p' & ids' & rs1 & rs2 & H1 & H2 & H3 & H4 & H5 & H6 & H7 & _)|[Hf _]];
      try done; try apply Hg; [by eapply Hint| |exists FAILED, w; split; [done|by exists p, ids, fl, tb, ds, mp]].
    rewrite Hnofile in *. destruct H7 as (F1 & F2 & F3 & F4). eexists a, _. split; [exact H1|]. exists p', ids', fl, tb, ds, mp. split.
    + by eapply good_insert.
    + rewrite H6. apply anonymous_mid; [done|done|by rewrite <-H5].
  - exists FAILED, w. split; [|by exists p, ids, fl, tb, ds, mp]. unfold sys_wmap. rewrite A0, A1, A2.
    rewrite (bind_Ok _ _ _ _ _ (getp_ok me w p Hp)), (bind_Ok _ _ _ _ _ (fetch_file_ok argint p w Hlive)).
    destruct (fd_arg argint p) as [fd fp]. cbn [fst snd] in *. rewrite Hnofile in *. rewrite (proj2 (Z.ltb_lt _ _)); [by destruct w|].
    revert Hval. unfold validate_input. by repeat case_match.
Qed.

Lemma tidy_wunmap me (w : world) argint : tidy me w -> exists r w', sys_wunmap argint me w = Ok (r, w') /\ tidy me w'.
Proof.
  intros (p & ids & fl & tb & ds & mp & Hg & Han). unfold sys_wunmap.
  assert (tidy me w) as Ht by (by exists p, ids, fl, tb, ds, mp).
  destruct (argint 0%nat) as [a0|]; [|by exists FAILED, w]. cbv zeta. destruct (negb _); [by exists FAILED, w|].
  destruct (region_split (fun r => addr r = u32 a0) (maps_of p ids)) as [(rs1 & r & rs2 & Hrs & Hr)|Hno].
  - destruct (Han r ltac:(rewrite Hrs; set_solver)) as [Hf Hrc].
    destruct (remove_map_ok w me p ids fl tb ds mp _ rs1 r rs2 Hg Hrs Hr Hf Hrc) as (p' & ids' & k' & fr & H1 & H2 & H3 & _).
    eexists 0, _. split; [by rewrite (bind_Ok _ _ _ _ _ H1)|]. do 6 eexists. split; [exact H2|]. rewrite H3.
    apply (anonymous_drop _ r). by rewrite <-Hrs.
  - exists FAILED, w. split; [|done]. by rewrite (bind_Ok _ _ _ _ _ (remove_map_missing _ _ _ _ _ _ _ _ _ Hg Hno)).
Qed.

Lemma tidy_fault me (w : world) va : tidy me w -> admissible w me (Fault va) ->
  exists r w', handle_page_fault va me w = Ok (r, w') /\ tidy me w'.
Proof.
  intros (p & ids & fl & tb & ds & mp & Hg & Han) [Hv Habs].
  pose proof (unmapped_of_absent _ _ _ _ _ _ _ _ _ Hg Hv (Habs p (gd_proc _ _ _ _ _ _ _ _ Hg))) as Hun.
  destruct (region_split (fun r => addr r <= PGROUNDDOWN va < addr r + len r) (maps_of p ids)) as [(rs1 & r & rs2 & Hrs & Hr)|Hno].
  2:{ exists FAILED, w. split; [by eapply fault_missing|by exists p, ids, fl, tb, ds, mp]. }
  destruct (Han r ltac:(rewrite Hrs; set_solver)) as [Hf Hrc].
  pose proof Hrs as Hrs'. apply fmap_app_inv in Hrs as (l1 & l2' & -> & Hrs2 & ->). destruct l2' as [|i l2]; [done|]. injection Hrs2 as -> ->.
  destruct (fault_anonymous w me p l1 i l2 fl tb ds mp va Hg Hv Hf Hr Hun) as [(m & k' & fl' & tb' & H1 & H2 & _)|(_ & k' & fl' & H1 & H2 & _)].
  - do 2 eexists. split; [exact H1|]. do 6 eexists. split; [exact H2|]. destruct (bump_ok p l1 i l2 (gd_maps _ _ _ _ _ _ _ _ Hg)) as [_ ->].
    apply anonymous_mid; [done|done|]. apply (anonymous_drop _ (bare (region p i))). by rewrite Hrs' in Han.
  - do 2 eexists. split; [exact H1|]. by exists p, (l1 ++ i :: l2), fl', tb, ds, mp.
Qed.

Lemma tidy_step me (w : world) c : tidy me w -> admissible w me c -> exists r w', exec me c w = Ok (r, w') /\ tidy me w'.
Proof. destruct c; intros Ht Hc; [by apply tidy_wmap|by apply tidy_wunmap|by apply tidy_fault]. Qed.

(** C12: no sequence of mapping, unmapping and faults breaks a process's
    private anonymous memory.  Start with a process whose regions have no file
    and are shared with no other process, and map further regions without a file
    only ([tidy] and [admissible]; regions with a file, and the sharing that fork
    sets up, are not covered).  After any calls the regions are aligned, disjoint
    and inside the mapping area, the list and the slots agree, every mapped page
    lies in one region and is counted there, and it is neither free nor a page
    table nor mapped a second time by the process; and the next call always
    returns: it does not panic, loop or touch a bad address. *)
Theorem wmap_calls_safe me (w w' : world) : tidy me w -> rtc (step me) w w' ->
  tidy me w' /\ forall c, admissible w' me c -> exists r w'', exec me c w' = Ok (r, w'').
Proof.
  intros Ht Hs. induction Hs as [w|w w1 w2 [c r w1' Hc He] Hs IH].
  - split; [done|]. intros c Hc. destruct (tidy_step me w c Ht Hc) as (r & w'' & He & _). by exists r, w''.
  - apply IH. destruct (tidy_step me w c Ht Hc) as (r2 & w3 & He2 & Ht2). rewrite He in He2. by simplify_eq.
Qed.
End calls.

Section wpunmap.
Context `{Linker} {FS : Type} `{Fs FS}.
Notation world := (@world FS).

Lemma uncount_region i c p j : (i < length (mmaps p))%nat ->
  region (uncount true i c p) j = if decide (j = i) then set_loaded (n_loaded_pages (region p i) - c) (region p i) else region p j.
Proof. intros Hi. unfold uncount. by rewrite region_upd. Qed.

(** Wpunmap of a whole region.  It succeeds and frees the region's pages,
    but the region stays in the list with length 0, at its old end, and still
    counts towards the sixteen regions. *)
Theorem sys_wpunmap_whole argint me (w : world) p ids fl tb ds mp i a0 :
  good w me p ids fl tb ds mp -> i ∈ ids -> f (region p i) = None -> argint 0%nat = Some a0 -> u32 a0 = addr (region p i) ->
  argint 1%nat = Some (len (region p i)) -> len (region p i) mod PGSIZE = 0 ->
  exists p' k' fr, sys_wpunmap argint me w = Ok (0, mkWorld k' (files w) (<[me := p']> (procs w))) /\
    rep k' (fr ++ fl) tb (<[pgdir p := unmap (vpn (u32 a0)) (u32 a0 + len (region p i)) mp]> ds) /\
    linked p' (mmap_head p') ids /\ total_mmaps p' = total_mmaps p /\
    len (region p' i) = 0 /\ addr (region p' i) = addr (region p i) + len (region p i) /\ n_loaded_pages (region p' i) = 0.
Proof.
  intros Hg Hi Hf A0 Ha A1 Hm. pose proof (gd_maps _ _ _ _ _ _ _ _ Hg) as Hok. destruct (ids_bound _ _ Hok) as (_ & Hlt & _).
  pose proof (spaced_region _ _ _ i (mo_spaced _ _ Hok) Hi) as (S1 & S2 & S3 & S4 & _). specialize (Hlt i Hi).
  pose proof (rend_ok p ids i Hok Hi) as Hrend. unfold sys_wpunmap. rewrite A0, A1. cbv zeta. rewrite Ha.
  set (a := addr (region p i)) in *. set (l := len (region p i)) in *.
  rewrite (u32_id (a + l)) by (unfold_layout; unfold_bounds; lia).
  assert ((a + l) mod PGSIZE = 0) as -> by (unfold_layout; zlia). rewrite S2, (proj2 (Z.leb_gt l 0)) by lia.
  change (negb (0 =? 0)) with false. cbv beta iota. rewrite (bind_Ok _ _ _ _ _ (getp_ok me w p (gd_proc _ _ _ _ _ _ _ _ Hg))).
  pose proof Hi as Hi'. apply list_elem_of_split in Hi' as (l1 & l2 & ->).
  rewrite (find_region_unique (fun r => (addr r <=? a) && (a + l <=? rend r)) p l1 i l2 Hok).
  2:{ rewrite Hrend. fold a l. apply andb_true_iff. split; apply Z.leb_le; lia. }
  2:{ intros j Hj [T1%Z.leb_le T2%Z.leb_le]%andb_true_iff. rewrite (rend_ok p _ j Hok Hj) in T2.
    apply (region_of_page p l1 i l2 (a / PGSIZE) j Hok Hj); fold a l; unfold_layout; zlia. }
  erewrite bind_Ok by reflexivity. cbv beta iota.
  destruct (unmap_pages_ok (pages_fuel a (a + l)) me i (file_backed_shared (region p i)) true a (a + l) w p fl tb ds mp)
    as (k' & fr & H1 & H2 & _ & _); try apply Hg; try done; try (unfold pages_fuel; unfold_layout; first [lia|zlia]).
  { eapply owned_weaken; [|apply Hg]. intros n [Hn1 Hn2]. cbn. unfold vpn in Hn1. unfold_layout. zlia. }
  rewrite (bind_Ok _ _ _ _ _ H1).
  set (c := loaded_in (vpn a) (a + l) mp) in *. set (p1 := uncount true i c p) in *.
  assert (procs w !! me = Some p) as Hp by apply Hg. assert (me < length (procs w))%nat as Hme by (by eapply lookup_lt_Some).
  erewrite bind_Ok by (apply getp_ok; cbn; by apply list_lookup_insert_eq). fold a. rewrite Z.eqb_refl.
  set (p2 := upd_region i (fun r => set_len (len r - l) (set_addr (a + l) r)) p1).
  rewrite (bind_Ok _ _ _ true (mkWorld k' (files w) (<[me := p2]> (procs w)))).
  2:{ erewrite bind_Ok by reflexivity. cbn [km files procs]. by rewrite list_insert_insert_eq. }
  cbn [negb]. cbv beta iota.
  erewrite bind_Ok by (apply getp_ok; cbn; by apply list_lookup_insert_eq).
  assert (length (mmaps p1) = MAX_NMMAP /\ (i < length (mmaps p))%nat) as [Hlen Hil].
  { unfold p1, uncount. rewrite length_upd, (mo_slots _ _ Hok). split; [done|lia]. }
  assert (forall j, region p2 j = if decide (j = i) then set_len (l - l) (set_addr (a + l) (set_loaded (n_loaded_pages (region p i) - c) (region p i)))
                                  else region p j) as Hr.
  { intros j. unfold p2. rewrite region_upd by lia. unfold p1. rewrite !uncount_region by done. rewrite (decide_True (P := i = i)) by done.
    by destruct (decide (j = i)). }
  exists p2, k', fr. split_and!; [|exact H2| |done|rewrite Hr, decide_True by done; cbn; lia|by rewrite Hr, decide_True by done|].
  - erewrite bind_Ok; [reflexivity|]. unfold switchuvm. change (kstack p2) with (kstack p). change (pgdir p2) with (pgdir p).
    rewrite (proj2 (Z.eqb_neq _ _) (gd_kstack _ _ _ _ _ _ _ _ Hg)).
    destruct (rp_dir _ _ _ _ (gd_rep _ _ _ _ _ _ _ _ Hg) _ _ (gd_dir _ _ _ _ _ _ _ _ Hg)) as [Hv _].
    destruct (valid_range _ Hv) as (_ & _ & Hz & _). by rewrite (proj2 (Z.eqb_neq _ _) Hz).
  - eapply linked_ext; [|exact (mo_linked _ _ Hok)]. intros j Hj. rewrite Hr. by destruct (decide (j = i)) as [->|].
  - rewrite Hr, decide_True by done. cbn [n_loaded_pages set_len set_addr set_loaded].
    pose proof (gd_loaded _ _ _ _ _ _ _ _ Hg (bare (region p i)) ltac:(apply elem_of_maps; by exists i)) as Hld.
    cbn [n_loaded_pages addr len bare set_next] in Hld. fold a l in Hld. rewrite Hld. fold c. lia.
Qed.
End wpunmap.

(** Sixteen slots, the first [n] in the list with the regions [rs]. *)
Definition ex_proc (rs : list mmap_region) : proc :=
  mkProc ex_dir 1 None [Some 0%nat] (rs ++ replicate (MAX_NMMAP - length rs) init_region)
    (match rs with [] => None | _ => Some 0%nat end) (Z.of_nat (length rs)).
Definition ex_region : mmap_region := mkRegion 0x60001000 8192 5 (-1) None 0 0 None.
Definition ex_args (l : list Z) (n : nat) : option Z := l !! n.

(** A file system that answers nothing, for the examples. *)
Definition ex_fs : Fs unit :=
  {| pipeclose _ _ := mret tt; piperead _ _ := mret (0, []); pipewrite _ _ := mret 0; begin_op := mret tt; end_op := mret tt;
     ilock _ := mret tt; iunlock _ := mret tt; iput _ := mret tt; idup _ := mret tt; readi _ _ _ := mret (0, []); writei _ _ _ := mret 0; stati _ := mret [] |}.

Section leak.
Context {FS : Type} `{Fs FS} `{Linker}.
Notation world := (@world FS).

(** Rejected arguments.  When the file descriptor is valid and
    validate_input rejects the other arguments, wmap fails but keeps the
    reference to the file that it took: the count stays one higher. *)
Theorem sys_wmap_keeps_reference argint me (w : world) p a0 l fl fd i :
  procs w !! me = Some p -> argint 0%nat = Some a0 -> argint 1%nat = Some l -> argint 2%nat = Some fl ->
  fd_arg argint p = (fd, Some i) -> live_file (Some i) (files w) -> validate_input (u32 a0) l fl fd (Some i) <> 0 ->
  sys_wmap argint me w = Ok (FAILED, mkWorld (km w) (dup_file (Some i) (files w)) (procs w)) /\
  exists x, ftable (files w) !! i = Some x /\ ftable (dup_file (Some i) (files w)) !! i = Some (set_ref (ref x + 1) x).
Proof.
  intros Hp A0 A1 A2 Hfd Hlive Hval. split.
  - unfold sys_wmap. rewrite A0, A1, A2. pose proof (fetch_file_ok argint p w) as Hff. rewrite Hfd in Hff.
    rewrite (bind_Ok _ _ _ _ _ (getp_ok me w p Hp)), (bind_Ok _ _ _ _ _ (Hff Hlive)). cbn [snd fst].
    rewrite (proj2 (Z.ltb_lt _ _)); [done|]. revert Hval. unfold validate_input. by repeat case_match.
  - destruct Hlive as (x & Hx & _). exists x. split; [done|]. cbn. by rewrite list_lookup_alter_eq, Hx.
Qed.
End leak.

(** ** The properties at concrete states *)
Section examples.
#[local] Existing Instance ex_fs.

Definition ex_world (rs : list mmap_region) : @world unit :=
  mkWorld ex_k (mkFstate [mkFile FD_INODE 1 true true 0 7 0] tt) [ex_proc rs].

Lemma ex_good : good (ex_world []) 0 (ex_proc []) [] [0x80203000; 0x80202000; 0x80201000] ∅ {[ex_dir := ∅]} ∅.
Proof.
  split; try done.
  - split; try done. intros i Hi. split; [intros _; set_solver|]. intros _. do 16 (destruct i as [|i]; [done|]). unfold MAX_NMMAP in Hi. lia.
  - exact ex_rep.
  - cbn. set_solver.
Qed.

Lemma ex_good1 : good (ex_world [ex_region]) 0 (ex_proc [ex_region]) [0%nat] [0x80203000; 0x80202000; 0x80201000] ∅ {[ex_dir := ∅]} ∅.
Proof.
  split; try done.
  - split; try done.
    + cbn. split_and!; [done|unfold MAX_NMMAP; lia|done].
    + intros i Hi. destruct i as [|i]; [split; [intros Hc; vm_compute in Hc; discriminate|intros Hn; by destruct Hn; apply list_elem_of_singleton]|].
      do 15 (destruct i as [|i]; [split; [intros _; by intros ?%list_elem_of_singleton|done]|]). unfold MAX_NMMAP in Hi. lia.
  - exact ex_rep.
  - intros r Hr. cbn in Hr. apply list_elem_of_singleton in Hr as ->. reflexivity.
Qed.

Lemma ex_anonymous : anonymous (maps_of (ex_proc [ex_region]) [0%nat]).
Proof. intros r Hr. cbn in Hr. by apply list_elem_of_singleton in Hr as ->. Qed.

Lemma sys_wmap_correct_witness :
  validate_input 0x60000000 8192 5 (-1) None = 0 /\
  ((exists a p' ids' rs1 rs2, let w' := mkWorld ex_k (dup_file None (files (ex_world []))) (<[0%nat := p']> [ex_proc []]) in
     sys_wmap (ex_args [0x60000000; 8192; 5; -1]) 0 (ex_world []) = Ok (a, w') /\
     good w' 0 p' ids' [0x80203000; 0x80202000; 0x80201000] ∅ {[ex_dir := ∅]} ∅ /\
     [] = rs1 ++ rs2 /\ maps_of p' ids' = rs1 ++ new_region a 8192 5 (-1) None :: rs2 /\
     fits [] 8192 a /\ forall b, fits [] 8192 b -> a <= b)
  \/ (sys_wmap (ex_args [0x60000000; 8192; 5; -1]) 0 (ex_world []) = Ok (FAILED, ex_world []) /\
      (0%nat = MAX_NMMAP \/ forall b, ~ fits [] 8192 b))).
Proof.
  split; [reflexivity|].
  apply (sys_wmap_correct (ex_args [0x60000000; 8192; 5; -1]) 0 (ex_world []) (ex_proc []) [] _ _ _ _ 0x60000000 8192 5 ex_good);
    (reflexivity || exact I || (unfold_bounds; lia)).
Defined.

(** The page of 0x60001004 is touched. *)
Lemma ex_faulted : exists m k' fl' tb', let w := mkWorld k' (files (ex_world [ex_region])) [bump 0 (ex_proc [ex_region])] in
  let mp := <[vpn 0x60001004 := user_pte m]> ∅ in
  handle_page_fault 0x60001004 0 (ex_world [ex_region]) = Ok (0, w) /\
  good w 0 (bump 0 (ex_proc [ex_region])) [0%nat] fl' tb' (<[ex_dir := mp]> {[ex_dir := ∅]}) mp /\
  m ∈ [0x80203000; 0x80202000; 0x80201000].
Proof.
  destruct (fault_anonymous (ex_world [ex_region]) 0 (ex_proc [ex_region]) [] 0 [] _ _ _ ∅ 0x60001004 ex_good1)
    as [(m & k' & fl' & tb' & H1 & H2 & H3 & _)|[Hl _]]; [unfold_bounds; lia|reflexivity|by vm_compute|reflexivity| |].
  - exists m, k', fl', tb'. split; [exact H1|split; [exact H2|exact H3]].
  - cbn in Hl. lia.
Qed.

Lemma ex_faulted_anonymous : anonymous (maps_of (bump 0 (ex_proc [ex_region])) [0%nat]).
Proof. intros r Hr. cbn in Hr. by apply list_elem_of_singleton in Hr as ->. Qed.

(** The touched page goes back to the allocator. *)
Lemma sys_wunmap_correct_witness : exists w w' p' ids' m fl tb ds mp,
  handle_page_fault 0x60001004 0 (ex_world [ex_region]) = Ok (0, w) /\
  sys_wunmap (ex_args [0x60001000]) 0 w = Ok (0, w') /\ maps_of p' ids' = [] /\
  good w' 0 p' ids' fl tb ds mp /\ upage (user_pte m) ∈ fl /\ mp !! vpn 0x60001004 = None.
Proof.
  destruct ex_faulted as (m & k' & fl' & tb' & E & Hg & Hm).
  destruct (sys_wunmap_correct (ex_args [0x60001000]) 0 _ _ _ _ _ _ _ 0x60001000 Hg ex_faulted_anonymous eq_refl)
    as [(rs1 & r & rs2 & p' & ids' & k2 & fr & Hrs & Hr & Hc & Hmaps & Hg' & Hfr & _)|[Hno _]].
  - assert (rs1 = [] /\ rs2 = [] /\ len r = 8192) as (-> & -> & Hlen).
    { destruct rs1 as [|x rs1]; [|by destruct rs1]. cbn in Hrs. injection Hrs as <- <-. done. }
    do 9 eexists. split; [exact E|split; [exact Hc|split; [exact Hmaps|split; [exact Hg'|split]]]].
    + apply elem_of_app. left. apply Hfr. exists (vpn 0x60001004). eexists.
      split; [rewrite Hr, Hlen; vm_compute; split; [discriminate|reflexivity]|].
      split; [apply lookup_insert_eq|reflexivity].
    + rewrite lookup_unmap, decide_True; [reflexivity|]. rewrite Hr, Hlen. vm_compute. split; [discriminate|reflexivity].
  - exfalso. apply (Hno (bare (region (bump 0 (ex_proc [ex_region])) 0))); [left|reflexivity].
Defined.

Lemma handle_page_fault_correct_witness :
  exists rs1 r rs2, [ex_region] = rs1 ++ r :: rs2 /\ addr r <= PGROUNDDOWN 0x60001004 < addr r + len r.
Proof.
  destruct (handle_page_fault_correct 0 _ _ _ _ _ _ _ 0x60001004 ex_good1 ex_anonymous ltac:(unfold_bounds; lia) eq_refl)
    as [[Hno _]|(rs1 & r & rs2 & H1 & H2 & _)].
  - exfalso. apply (Hno ex_region); [by apply list_elem_of_singleton|]. by vm_compute.
  - by exists rs1, r, rs2.
Defined.

Lemma ex_tidy : tidy 0 (ex_world [ex_region]).
Proof. do 6 eexists. split; [exact ex_good1|exact ex_anonymous]. Qed.

Lemma ex_touch : admissible (ex_world [ex_region]) 0 (Fault 0x60001004).
Proof. split; [unfold_bounds; lia|]. intros p [= <-]. by vm_compute. Qed.

Lemma wmap_calls_safe_witness : exists w r w'',
  handle_page_fault 0x60001004 0 (ex_world [ex_region]) = Ok (0, w) /\ tidy 0 w /\
  exec 0 (Wunmap (ex_args [0x60001000])) w = Ok (r, w'').
Proof.
  destruct ex_faulted as (m & k' & fl' & tb' & E & _ & _).
  destruct (wmap_calls_safe 0 (ex_world [ex_region]) _ ex_tidy
    (rtc_once _ _ (step_call 0 _ (Fault 0x60001004) 0 _ ex_touch E))) as [Ht Hn].
  destruct (Hn (Wunmap (ex_args [0x60001000])) I) as (r & w'' & Hw).
  eexists _, r, w''. split; [exact E|split; [exact Ht|exact Hw]].
Defined.

Lemma sys_wpunmap_whole_witness :
  exists p' k', sys_wpunmap (ex_args [0x60001000; 8192]) 0 (ex_world [ex_region]) =
      Ok (0, mkWorld k' (files (ex_world [ex_region])) (<[0%nat := p']> [ex_proc [ex_region]])) /\
    linked p' (mmap_head p') [0%nat] /\ total_mmaps p' = 1 /\ len (region p' 0) = 0.
Proof.
  destruct (sys_wpunmap_whole (ex_args [0x60001000; 8192]) 0 _ _ _ _ _ _ _ 0%nat 0x60001000 ex_good1) as (p' & k' & fr & H1 & _ & H2 & H3 & H4 & _);
    [by apply list_elem_of_singleton|reflexivity..|]. by exists p', k'.
Defined.

Lemma sys_wmap_keeps_reference_witness :
  validate_input 0x60000000 0 1 0 (Some 0%nat) = -1 /\
  sys_wmap (ex_args [0x60000000; 0; 1; 0]) 0 (ex_world []) =
    Ok (FAILED, mkWorld ex_k (dup_file (Some 0%nat) (files (ex_world []))) [ex_proc []]).
Proof.
  split; [reflexivity|].
  apply (sys_wmap_keeps_reference (ex_args [0x60000000; 0; 1; 0]) 0 (ex_world []) (ex_proc []) 0x60000000 0 1 0 0%nat);
    (reflexivity || discriminate || idtac). exists (mkFile FD_INODE 1 true true 0 7 0). split; [reflexivity|unfold_bounds; cbn; lia].
Defined.
End examples.
