(* ===== verification/Proc.v ===== *)
(** * Processes, xv6 wmap/solution/proc.c

    [struct proc] is in two parts: the fields that wmap.c uses are [Wmap.proc],
    in the world of Wmap.v with memory and files; the others are [pcb].  A
    process is an index into both tables.  ptable.lock makes sections
    indivisible, from acquiring it to releasing it or to the switch to the
    scheduler; fork and exit, which run for one process on its own slot, are one
    step each.  What context switches do to registers and stacks (swtch, the
    trap frames' contents but for eax) is not modelled, nor are process names. *)
From S2P Require Import Prelude Kalloc Vm File Wmap.

Definition NPROC : nat := 64.
Definition KSTACKSIZE : Z := 4096.

Inductive procstate : Type := UNUSED | EMBRYO | SLEEPING | RUNNABLE | RUNNING | ZOMBIE.
(** What a process sleeps on: a process, or another address. *)
Inductive channel : Type := ChProc (i : nat) | ChAddr (a : Z).

#[export] Instance procstate_eq_dec : EqDecision procstate.
Proof. solve_decision. Defined.
#[export] Instance channel_eq_dec : EqDecision channel.
Proof. solve_decision. Defined.

Record pcb : Type := mkPcb {
  state : procstate; pid : Z; tf : Z; chan : option channel; killed : bool; sz : Z; cwd : option Z
}.

Definition set_state (s : procstate) (p : pcb) : pcb := mkPcb s (pid p) (tf p) (chan p) (killed p) (sz p) (cwd p).
Definition set_pid (n : Z) (p : pcb) : pcb := mkPcb (state p) n (tf p) (chan p) (killed p) (sz p) (cwd p).
Definition set_tf (a : Z) (p : pcb) : pcb := mkPcb (state p) (pid p) a (chan p) (killed p) (sz p) (cwd p).
Definition set_chan (c : option channel) (p : pcb) : pcb := mkPcb (state p) (pid p) (tf p) c (killed p) (sz p) (cwd p).
Definition set_killed (b : bool) (p : pcb) : pcb := mkPcb (state p) (pid p) (tf p) (chan p) b (sz p) (cwd p).
Definition set_sz (n : Z) (p : pcb) : pcb := mkPcb (state p) (pid p) (tf p) (chan p) (killed p) n (cwd p).
Definition set_cwd (c : option Z) (p : pcb) : pcb := mkPcb (state p) (pid p) (tf p) (chan p) (killed p) (sz p) c.

Definition with_pgdir (d : Z) (p : proc) : proc := mkProc d (kstack p) (parent p) (ofile p) (mmaps p) (mmap_head p) (total_mmaps p).
Definition with_kstack (a : Z) (p : proc) : proc := mkProc (pgdir p) a (parent p) (ofile p) (mmaps p) (mmap_head p) (total_mmaps p).
Definition with_parent (o : option nat) (p : proc) : proc := mkProc (pgdir p) (kstack p) o (ofile p) (mmaps p) (mmap_head p) (total_mmaps p).
Definition with_ofile (l : list (option nat)) (p : proc) : proc := mkProc (pgdir p) (kstack p) (parent p) l (mmaps p) (mmap_head p) (total_mmaps p).

(** The addresses that a new process starts at: trapret is assembly. *)
Class Entries : Type := { trapret : Z; forkret_entry : Z }.

Section proc.
Context `{HL : Linker} `{HE : Entries} {FS : Type} `{HFS : Fs FS}.

Record kernel : Type := mkKernel { wld : world (FS := FS); ptab : list pcb; nextpid : Z; initproc : option nat }.

Definition with_world {A} (m : M (world (FS := FS)) A) : M kernel A := fun s =>
  match m (wld s) with Ok (a, w) => Ok (a, mkKernel w (ptab s) (nextpid s) (initproc s)) | Err e => Err e end.
Definition gett (i : nat) : M kernel pcb := s ← get; match ptab s !! i with Some p => mret p | None => fail Undefined end.
Definition set_ptab (l : list pcb) : M kernel unit := modify (fun s => mkKernel (wld s) l (nextpid s) (initproc s)).
Definition updt (i : nat) (g : pcb -> pcb) : M kernel unit := s ← get; _ ← gett i; set_ptab (alter g i (ptab s)).

(** ** Creating processes *)

(** The words of a new kernel stack below the trap frame: trapret, and a
    context of five words that starts at forkret. *)
Definition init_stack (tfa : Z) : M kmem unit :=
  _ ← store (tfa - 4) trapret;
  _ ← store (tfa - 24) 0; _ ← store (tfa - 20) 0; _ ← store (tfa - 16) 0; _ ← store (tfa - 12) 0;
  _ ← store (tfa - 8) 0;
  store (tfa - 8) forkret_entry.

Definition TRAPFRAME : Z := 76.

Definition allocproc : M kernel (option nat) :=
  s ← get;
  match list_find (fun p => state p = UNUSED) (ptab s) with
  | None => mret None
  | Some (i, _) =>
      n ← lift (sint (nextpid s + 1));
      _ ← updt i (fun p => set_pid (nextpid s) (set_state EMBRYO p));
      _ ← modify (fun s => mkKernel (wld s) (ptab s) n (initproc s));
      k ← with_world (with_mem kalloc);
      _ ← with_world (updp i (with_kstack k));
      if k =? 0 then _ ← updt i (set_state UNUSED); mret None else
      let tfa := k + KSTACKSIZE - TRAPFRAME in
      _ ← updt i (set_tf tfa);
      _ ← with_world (with_mem (init_stack tfa));
      _ ← with_world (updp i init_mmaps);
      mret (Some i)
  end.

(** The nineteen words of a trap frame. *)
Fixpoint copy_words (n : nat) (dst src : Z) : M kmem unit :=
  match n with O => mret tt | S n' => w ← load src; _ ← store dst w; copy_words n' (dst + 4) (src + 4) end.

(** The files of the parent from descriptor [fd] on. *)
Fixpoint dup_files (fds : list (option nat)) (fd : nat) (i : nat) : M (world (FS := FS)) unit :=
  match fds with
  | [] => mret tt
  | o :: fds' =>
      _ ← (match o with
           | Some f => g ← with_files (filedup f); updp i (fun p => with_ofile (<[fd := Some g]> (ofile p)) p)
           | None => mret tt
           end);
      dup_files fds' (S fd) i
  end.

(** What both failures of fork undo. *)
Definition drop_stack (i : nat) : M kernel unit :=
  q ← with_world (getp i);
  _ ← with_world (with_mem (kfree (kstack q)));
  with_world (updp i (with_kstack 0)).

(** The end of fork: the mappings, then the child may run. *)
Definition fork_maps (me i : nat) : M kernel Z :=
  r ← with_world (copy_maps me i);
  if r <? 0 then
    _ ← drop_stack i;
    q ← with_world (getp i);
    _ ← with_world (with_mem (freevm (pgdir q)));
    _ ← updt i (set_state UNUSED);
    mret (-1)
  else
  n ← gett i;
  _ ← updt i (set_state RUNNABLE);
  mret (pid n).

Definition fork (me : nat) : M kernel Z :=
  o ← allocproc;
  match o with
  | None => mret (-1)
  | Some i =>
      p ← with_world (getp me);
      c ← gett me;
      d ← with_world (with_mem (copyuvm (pgdir p) (sz c)));
      _ ← with_world (updp i (with_pgdir d));
      if d =? 0 then
        _ ← drop_stack i;
        _ ← updt i (set_state UNUSED);
        mret (-1)
      else
      _ ← updt i (set_sz (sz c));
      _ ← with_world (updp i (with_parent (Some me)));
      n ← gett i;
      _ ← with_world (with_mem (copy_words 19 (tf n) (tf c)));
      _ ← with_world (with_mem (store (tf n + 28) 0));
      _ ← with_world (dup_files (ofile p) 0 i);
      _ ← (match cwd c with Some ip => with_world (with_files (fs_op (idup ip))) | None => fail Undefined end);
      _ ← updt i (set_cwd (cwd c));
      fork_maps me i
  end.

(** growproc; [n] is an int. *)
Definition growproc (me : nat) (n : Z) : M kernel Z :=
  p ← with_world (getp me);
  c ← gett me;
  let old := sz c in
  r ← (if 0 <? n then s ← with_world (with_mem (allocuvm (pgdir p) old (u32 (old + n)))); mret (if s =? 0 then None else Some s)
       else if n <? 0 then s ← with_world (with_mem (deallocuvm (pgdir p) old (u32 (old + n)))); mret (if s =? 0 then None else Some s)
       else mret (Some old));
  match r with
  | None => mret (-1)
  | Some s =>
      _ ← updt me (set_sz s);
      _ ← with_world (switchuvm p);
      mret 0
  end.

(** ** Sleeping *)

(** wakeup1 on the process table. *)
Definition sleeps_on (ch : option channel) (p : pcb) : bool := bool_decide (state p = SLEEPING) && bool_decide (chan p = ch).
Definition wakeup1 (ch : option channel) (t : list pcb) : list pcb :=
  (fun p => if sleeps_on ch p then set_state RUNNABLE p else p) <$> t.
Definition wakeup (ch : channel) : M kernel unit := s ← get; set_ptab (wakeup1 (Some ch) (ptab s)).

(** sleep up to the switch to the scheduler, and from the return of it on. *)
Definition sleep (me : nat) (ch : channel) : M kernel unit := updt me (fun p => set_state SLEEPING (set_chan (Some ch) p)).
Definition tidy_up (me : nat) : M kernel unit := updt me (set_chan None).

Definition yield (me : nat) : M kernel unit := updt me (set_state RUNNABLE).

Definition kill (n : Z) : M kernel Z :=
  s ← get;
  match list_find (fun p => pid p = n) (ptab s) with
  | Some (i, _) => _ ← updt i (fun p => let q := set_killed true p in if bool_decide (state p = SLEEPING) then set_state RUNNABLE q else q); mret 0
  | None => mret (-1)
  end.

(** The scheduler's choice of process [i]. *)
Definition schedule (i : nat) : M kernel unit :=
  c ← gett i;
  if bool_decide (state c = RUNNABLE) then
    p ← with_world (getp i);
    _ ← with_world (switchuvm p);
    updt i (set_state RUNNING)
  else fail Undefined.

(** ** exit and wait *)
Fixpoint close_files (n : nat) (fd : nat) (me : nat) : M (world (FS := FS)) unit :=
  match n with
  | O => mret tt
  | S n' =>
      p ← getp me;
      _ ← (match ofile p !! fd with
           | Some (Some f) => _ ← with_files (fileclose f); updp me (fun p => with_ofile (<[fd := None]> (ofile p)) p)
           | Some None => mret tt
           | None => fail Undefined
           end);
      close_files n' (S fd) me
  end.

(** The children of [me], from slot [i] on, become children of init. *)
Fixpoint reparent (n : nat) (i : nat) (me : nat) : M kernel unit :=
  match n with
  | O => mret tt
  | S n' =>
      q ← with_world (getp i);
      _ ← (if bool_decide (parent q = Some me) then
             s ← get;
             _ ← with_world (updp i (with_parent (initproc s)));
             c ← gett i;
             if bool_decide (state c = ZOMBIE) then set_ptab (wakeup1 (ChProc <$> initproc s) (ptab s)) else mret tt
           else mret tt);
      reparent n' (S i) me
  end.

Definition exit_ (me : nat) : M kernel unit :=
  s ← get;
  if bool_decide (initproc s = Some me) then fail Panic else
  _ ← with_world (delete_mmaps me);
  _ ← with_world (close_files (Z.to_nat NOFILE) 0 me);
  c ← gett me;
  _ ← with_world (with_files (fs_op begin_op));
  _ ← (match cwd c with Some ip => with_world (with_files (fs_op (iput ip))) | None => fail Undefined end);
  _ ← with_world (with_files (fs_op end_op));
  _ ← updt me (set_cwd None);
  p ← with_world (getp me);
  s ← get;
  _ ← set_ptab (wakeup1 (ChProc <$> parent p) (ptab s));
  _ ← reparent NPROC 0 me;
  updt me (set_state ZOMBIE).

(** A scan of wait: a child that has exited, no reason to wait, or sleep. *)
Inductive wait_next : Type := WRet (r : Z) | WSleep.

Definition is_child (me : nat) (q : proc) : bool := bool_decide (parent q = Some me).

Definition reap (i : nat) : M kernel Z :=
  c ← gett i;
  q ← with_world (getp i);
  _ ← drop_stack i;
  _ ← with_world (with_mem (freevm (pgdir q)));
  _ ← with_world (updp i (with_parent None));
  _ ← updt i (fun c => set_state UNUSED (set_killed false (set_pid 0 c)));
  mret (pid c).

Fixpoint wait_scan (n : nat) (i : nat) (me : nat) (havekids : bool) : M kernel (option Z * bool) :=
  match n with
  | O => mret (None, havekids)
  | S n' =>
      q ← with_world (getp i);
      if negb (is_child me q) then wait_scan n' (S i) me havekids else
      c ← gett i;
      if bool_decide (state c = ZOMBIE) then r ← reap i; mret (Some r, true)
      else wait_scan n' (S i) me true
  end.

Definition wait_section (me : nat) : M kernel wait_next :=
  r ← wait_scan NPROC 0 me false;
  match r with
  | (Some n, _) => mret (WRet n)
  | (None, havekids) =>
      c ← gett me;
      if negb havekids || killed c then mret (WRet (-1))
      else _ ← sleep me (ChProc me); mret WSleep
  end.
End proc.

(** ** The steps of all processes *)
Section steps.
Context `{HL : Linker} `{HE : Entries} {FS : Type} `{HFS : Fs FS}.

(** Where a process is: in user code or about to call the kernel, inside
    wait, or asleep elsewhere in the kernel. *)
Inductive activity : Type := InUser | InWait | InSleep.

Record sys : Type := mkSys { kern : kernel (FS := FS); act : list activity }.

Definition running (s : sys) (i : nat) (a : activity) : Prop :=
  (exists c, ptab (kern s) !! i = Some c /\ state c = RUNNING) /\ act s !! i = Some a.

Inductive step : sys -> sys -> Prop :=
  | step_schedule s i k : schedule i (kern s) = Ok (tt, k) -> step s (mkSys k (act s))
  | step_yield s i a k : running s i a -> yield i (kern s) = Ok (tt, k) -> step s (mkSys k (act s))
  | step_fork s i r k : running s i InUser -> fork i (kern s) = Ok (r, k) -> step s (mkSys k (act s))
  | step_grow s i n r k : running s i InUser -> growproc i n (kern s) = Ok (r, k) -> step s (mkSys k (act s))
  (** any other work on memory, files and mappings *)
  | step_other s i w : running s i InUser -> parent <$> procs w = parent <$> procs (wld (kern s)) ->
      step s (mkSys (mkKernel w (ptab (kern s)) (nextpid (kern s)) (initproc (kern s))) (act s))
  | step_exit s i k : running s i InUser -> exit_ i (kern s) = Ok (tt, k) -> step s (mkSys k (act s))
  | step_kill s i n r k : running s i InUser -> kill n (kern s) = Ok (r, k) -> step s (mkSys k (act s))
  | step_wakeup s i ch k : running s i InUser -> (forall j, ch <> ChProc j) -> wakeup ch (kern s) = Ok (tt, k) -> step s (mkSys k (act s))
  | step_sleep s i ch k : running s i InUser -> (forall j, ch <> ChProc j) -> sleep i ch (kern s) = Ok (tt, k) -> step s (mkSys k (<[i := InSleep]> (act s)))
  | step_woken s i k : running s i InSleep -> tidy_up i (kern s) = Ok (tt, k) -> step s (mkSys k (<[i := InUser]> (act s)))
  | step_wait s i r k : running s i InUser -> wait_section i (kern s) = Ok (WRet r, k) -> step s (mkSys k (act s))
  | step_wait_sleep s i k : running s i InUser -> wait_section i (kern s) = Ok (WSleep, k) -> step s (mkSys k (<[i := InWait]> (act s)))
  | step_wait_again s i r k : running s i InWait -> (_ ← tidy_up i; wait_section i) (kern s) = Ok (WRet r, k) -> step s (mkSys k (<[i := InUser]> (act s)))
  | step_wait_again_sleep s i k : running s i InWait -> (_ ← tidy_up i; wait_section i) (kern s) = Ok (WSleep, k) -> step s (mkSys k (act s)).
End steps.

(** ** Partial correctness of kernel code *)
Definition wlp {S A} (m : M S A) (s : S) (Q : A -> S -> Prop) : Prop := forall a s', m s = Ok (a, s') -> Q a s'.

Section wlp.
Context {S : Type}.
Implicit Types s : S.

Lemma wlp_ret {A} (a : A) s (Q : A -> S -> Prop) : Q a s -> wlp (mret a) s Q.
Proof. intros HQ a' s' [= <- <-]. done. Qed.
Lemma wlp_bind {A B} (m : M S A) (k : A -> M S B) s Q : wlp m s (fun a s' => wlp (k a) s' Q) -> wlp (mbind k m) s Q.
Proof. intros Hm b s' Hb. apply bind_Ok_inv in Hb as (a & s1 & H1 & H2). by apply (Hm a s1). Qed.
Lemma wlp_fail {A} e s (Q : A -> S -> Prop) : wlp (fail e) s Q.
Proof. done. Qed.
Lemma wlp_get s Q : Q s s -> wlp (@get S) s Q.
Proof. intros HQ a s' [= <- <-]. done. Qed.
Lemma wlp_modify (f : S -> S) s Q : Q tt (f s) -> wlp (modify f) s Q.
Proof. intros HQ a s' [= <- <-]. done. Qed.
Lemma wlp_lift {A} (r : result A) s (Q : A -> S -> Prop) : (forall a, r = Ok a -> Q a s) -> wlp (lift r) s Q.
Proof. intros HQ a s' Hr. unfold lift in Hr. destruct r as [b|]; [|done]. injection Hr as <- <-. by apply HQ. Qed.
Lemma wlp_mono {A} (m : M S A) s (P Q : A -> S -> Prop) : wlp m s P -> (forall a s', P a s' -> Q a s') -> wlp m s Q.
Proof. intros Hm HPQ a s' E. by apply HPQ, Hm. Qed.
Lemma wlp_pure {A} (P : A -> Prop) (m : M S A) s (Q : A -> S -> Prop) : wlp m s (fun a s' => s' = s /\ P a) -> (forall a, P a -> Q a s) -> wlp m s Q.
Proof. intros Hm HQ a s' E. destruct (Hm a s' E) as [-> HP]. by apply HQ. Qed.
Lemma wlp_if {A} (b : bool) (m1 m2 : M S A) s Q : (b = true -> wlp m1 s Q) -> (b = false -> wlp m2 s Q) -> wlp (if b then m1 else m2) s Q.
Proof. destruct b; auto. Qed.
End wlp.

Ltac wlp_step :=
  lazymatch goal with
  | |- wlp (mret _) _ _ => apply wlp_ret
  | |- wlp (mbind _ _) _ _ => apply wlp_bind
  | |- wlp get _ _ => apply wlp_get
  | |- wlp (modify _) _ _ => apply wlp_modify
  | |- wlp (fail _) _ _ => apply wlp_fail
  | |- wlp (if _ then _ else _) _ _ => apply wlp_if; intros ?
  end; cbn beta iota.

(** ** What leaves the family tree alone *)
Section parents.
Context `{HL : Linker} {FS : Type} `{HFS : Fs FS}.
Notation world := (world (FS := FS)).

Definition wparents (w : world) : list (option nat) := parent <$> procs w.
Definition keeps_parents {A} (m : M world A) : Prop := forall w, wlp m w (fun _ w' => wparents w' = wparents w).

Lemma kp_ret {A} (a : A) : keeps_parents (mret a).
Proof. intros w. by apply wlp_ret. Qed.
Lemma kp_fail {A} e : keeps_parents (fail e : M world A).
Proof. done. Qed.
Lemma kp_bind {A B} (m : M world A) (k : A -> M world B) : keeps_parents m -> (forall a, keeps_parents (k a)) -> keeps_parents (mbind k m).
Proof. intros Hm Hk w. apply wlp_bind. eapply wlp_mono; [apply Hm|]. intros a w1 E. eapply wlp_mono; [apply Hk|]. cbn. congruence. Qed.
Lemma kp_with_mem {A} (m : M kmem A) : keeps_parents (with_mem m : M world A).
Proof. intros w a w' E. unfold with_mem in E. destruct (m (km w)) as [[? ?]|]; [|done]. by injection E as <- <-. Qed.
Lemma kp_with_files {A} (m : M (fstate FS) A) : keeps_parents (with_files m : M world A).
Proof. intros w a w' E. unfold with_files in E. destruct (m (files w)) as [[? ?]|]; [|done]. by injection E as <- <-. Qed.
Lemma kp_get : keeps_parents (get : M world world).
Proof. intros w a w' [= <- <-]. done. Qed.
Lemma kp_lift {A} (r : result A) : keeps_parents (lift r : M world A).
Proof. intros w. by apply wlp_lift. Qed.
Lemma kp_getp i : keeps_parents (getp i).
Proof. intros w a w' E. unfold getp, mbind, M_bind, get in E. destruct (procs w !! i); [|done]. by injection E as <- <-. Qed.

Lemma wparents_set i p w q : procs w !! i = Some q -> wparents (mkWorld (km w) (files w) (<[i := p]> (procs w))) = <[i := parent p]> (wparents w).
Proof. intros _. unfold wparents. cbn. apply list_fmap_insert. Qed.

Lemma kp_setp i p w (Q : unit -> world -> Prop) : wparents w !! i = Some (parent p) -> (forall w', wparents w' = wparents w -> Q tt w') -> wlp (setp_ i p) w Q.
Proof.
  intros Hi HQ. apply wlp_modify. apply HQ. unfold wparents. cbn. rewrite list_fmap_insert. by apply list_insert_id.
Qed.

Lemma kp_updp i g : (forall p, parent (g p) = parent p) -> keeps_parents (updp i g).
Proof.
  intros Hg w. unfold updp. apply wlp_bind. intros p w' E. unfold getp, mbind, M_bind, get in E. destruct (procs w !! i) as [q|] eqn:Hq; [|done].
  injection E as -> <-. apply kp_setp; [|done]. rewrite Hg. unfold wparents. by rewrite list_lookup_fmap, Hq.
Qed.

(** Setting the part of a process that was read before. *)
Lemma kp_getp_bind {B} i (k : proc -> M world B) : (forall p w, wparents w !! i = Some (parent p) -> wlp (k p) w (fun _ w' => wparents w' = wparents w)) ->
  keeps_parents (mbind k (getp i)).
Proof.
  intros Hk w. apply wlp_bind. intros p w' E. unfold getp, mbind, M_bind, get in E. destruct (procs w !! i) as [q|] eqn:Hq; [|done].
  injection E as -> <-. apply Hk. unfold wparents. by rewrite list_lookup_fmap, Hq.
Qed.
End parents.

Create HintDb parents.
Ltac kp_step :=
  lazymatch goal with
  | |- keeps_parents (mret _) => apply kp_ret
  | |- keeps_parents (fail _) => apply kp_fail
  | |- keeps_parents (with_mem _) => apply kp_with_mem
  | |- keeps_parents (with_files _) => apply kp_with_files
  | |- keeps_parents get => apply kp_get
  | |- keeps_parents (lift _) => apply kp_lift
  | |- keeps_parents (getp _) => apply kp_getp
  | |- keeps_parents (updp _ _) => apply kp_updp; by intros []
  | |- keeps_parents (mbind _ _) => apply kp_bind; [|intros ?]
  | |- keeps_parents (if ?b then _ else _) => destruct b
  | |- keeps_parents (match ?x with _ => _ end) => destruct x
  | |- _ => solve [eauto with parents]
  end; cbv beta zeta.
Ltac kp := cbv beta zeta; repeat kp_step.

Section kept.
Context `{HL : Linker} {FS : Type} `{HFS : Fs FS}.
Notation world := (world (FS := FS)).

Lemma kp_user_read pd a n : keeps_parents (user_read pd a n : M world _).
Proof. revert a. induction n as [|n IH]; intros a; cbn [user_read]; [kp|]. unfold user_load. kp; apply IH. Qed.
#[local] Hint Resolve kp_user_read : parents.

Lemma kp_write_to_file_loop fuel pd fp va o n i : keeps_parents (write_to_file_loop fuel pd fp va o n i : M world _).
Proof. revert o i. induction fuel as [|fuel IH]; intros o i; cbn [write_to_file_loop]; kp; apply IH. Qed.
#[local] Hint Resolve kp_write_to_file_loop : parents.

Lemma kp_unmap_pages fuel me i wb fr cnt va e : keeps_parents (unmap_pages fuel me i wb fr cnt va e : M world _).
Proof. revert va. induction fuel as [|fuel IH]; intros va; cbn [unmap_pages]; unfold write_to_file; kp; apply IH. Qed.
#[local] Hint Resolve kp_unmap_pages : parents.

Lemma kp_delete_mmaps me : keeps_parents (delete_mmaps me : M world _).
Proof.
  unfold delete_mmaps. kp. generalize (mmap_head a). generalize list_fuel. intros n. induction n as [|n IH]; intros cur; cbn [delete_mmaps_loop]; unfold drop_parent_ref; kp; apply IH.
Qed.
#[local] Hint Resolve kp_delete_mmaps : parents.

Lemma wlp_kp {A} (m : M world A) w (Q : A -> world -> Prop) : keeps_parents m -> (forall a w', wparents w' = wparents w -> Q a w') -> wlp m w Q.
Proof. intros Hm HQ. eapply wlp_mono; [apply Hm|]. intros a w' E. by apply HQ. Qed.

Lemma wlp_getp i w (Q : proc -> world -> Prop) : (forall p, procs w !! i = Some p -> wparents w !! i = Some (parent p) -> Q p w) -> wlp (getp i) w Q.
Proof.
  intros HQ p w' E. unfold getp, mbind, M_bind, get in E. destruct (procs w !! i) as [q|] eqn:Hq; [|done].
  injection E as -> <-. apply HQ; [done|]. unfold wparents. by rewrite list_lookup_fmap, Hq.
Qed.

Lemma kp_copy_pages fuel sh ppd child i va e : keeps_parents (copy_pages fuel sh ppd child i va e : M world _).
Proof. revert va. induction fuel as [|fuel IH]; intros va; cbn [copy_pages]; kp; apply IH. Qed.
#[local] Hint Resolve kp_copy_pages : parents.

Lemma kp_copy_maps me child : keeps_parents (copy_maps me child : M world _).
Proof.
  unfold copy_maps. kp. generalize (mmap_head a). generalize (None : option nat). generalize list_fuel. clear a.
  intros n. induction n as [|n IH]; intros prev cur; cbn [copy_maps_loop]; [kp|]. destruct cur as [j|]; [|kp]. intros w.
  wlp_step. apply wlp_kp; [kp|]. intros p w0 E0. wlp_step. apply wlp_getp. intros c _ Hc. rewrite E0 in Hc.
  destruct (find_unused_mmap c) as [i|]; [|by wlp_step].
  wlp_step. apply wlp_kp; [kp|]. intros fp w1 E1. wlp_step. apply kp_setp; [by rewrite E1, E0|]. intros w2 E2.
  wlp_step. apply wlp_kp; [kp|]. intros b w3 E3. destruct b; cbn [negb]; [|wlp_step; congruence].
  wlp_step. apply wlp_kp; [kp|]. intros [] w4 E4. wlp_step. apply wlp_getp. intros c2 _ Hc2.
  wlp_step. apply (wlp_pure (fun c1 => parent c1 = parent c2)).
  { destruct (mmap_head c2), prev; by wlp_step. }
  intros c1 Hc1. wlp_step. apply kp_setp; [by rewrite <-Hc1 in Hc2|]. intros w5 E5. eapply wlp_mono; [apply IH|]. cbn. congruence.
Qed.
End kept.

(** ** What the operations do to the process table *)
Section table.
Context `{HL : Linker} `{HE : Entries} {FS : Type} `{HFS : Fs FS}.
Notation world := (world (FS := FS)).
Notation kernel := (kernel (FS := FS)).
Implicit Types (s k : kernel) (t : list pcb).

Definition parents (k : kernel) : list (option nat) := wparents (wld k).
Definition setw (w : world) (s : kernel) : kernel := mkKernel w (ptab s) (nextpid s) (initproc s).
Definition sett (t : list pcb) (s : kernel) : kernel := mkKernel (wld s) t (nextpid s) (initproc s).

Lemma wlp_with_world {A} (m : M world A) s (Q : A -> kernel -> Prop) : wlp m (wld s) (fun a w => Q a (setw w s)) -> wlp (with_world m) s Q.
Proof. intros Hm a s' E. unfold with_world in E. destruct (m (wld s)) as [[b w]|] eqn:Em; [|done]. injection E as <- <-. by apply Hm. Qed.

Lemma wlp_ww {A} (m : M world A) s (Q : A -> kernel -> Prop) : keeps_parents m -> (forall a w, wparents w = parents s -> Q a (setw w s)) -> wlp (with_world m) s Q.
Proof. intros Hm HQ. apply wlp_with_world. by apply wlp_kp. Qed.

Lemma wlp_ww_getp i s (Q : proc -> kernel -> Prop) : (forall p, procs (wld s) !! i = Some p -> parents s !! i = Some (parent p) -> Q p s) -> wlp (with_world (getp i)) s Q.
Proof. intros HQ. apply wlp_with_world. apply wlp_getp. intros p Hp Hpp. destruct s. by apply HQ. Qed.

Lemma wlp_set_parent i o s (Q : unit -> kernel -> Prop) : (forall w, wparents w = <[i := o]> (parents s) -> Q tt (setw w s)) -> wlp (with_world (updp i (with_parent o))) s Q.
Proof.
  intros HQ. apply wlp_with_world. unfold updp. wlp_step. apply wlp_getp. intros p Hp _. unfold setp_. wlp_step. apply HQ.
  by rewrite (wparents_set _ _ _ p).
Qed.

Lemma wlp_gett i s (Q : pcb -> kernel -> Prop) : (forall p, ptab s !! i = Some p -> Q p s) -> wlp (gett i) s Q.
Proof. intros HQ p s' E. unfold gett, mbind, M_bind, get in E. destruct (ptab s !! i) as [q|] eqn:Hq; [|done]. injection E as -> <-. by apply HQ. Qed.

Lemma alter_lookup {A} (g : A -> A) (l : list A) i x : l !! i = Some x -> alter g i l = <[i := g x]> l.
Proof.
  intros Hx. apply list_eq. intros j. destruct (decide (i = j)) as [<-|Hne].
  - rewrite list_lookup_alter_eq, Hx, list_lookup_insert_eq by (by eapply lookup_lt_Some). done.
  - by rewrite list_lookup_alter_ne, list_lookup_insert_ne.
Qed.

Lemma wlp_updt i g s (Q : unit -> kernel -> Prop) : (forall p, ptab s !! i = Some p -> Q tt (sett (<[i := g p]> (ptab s)) s)) -> wlp (updt i g) s Q.
Proof.
  intros HQ. unfold updt. wlp_step. wlp_step. wlp_step. apply wlp_gett. intros p Hp. unfold set_ptab. wlp_step.
  rewrite (alter_lookup _ _ _ p) by done. by apply HQ.
Qed.

Lemma kp_dup_files fds fd i : keeps_parents (dup_files fds fd i : M world _).
Proof. revert fd. induction fds as [|o fds IH]; intros fd; cbn [dup_files]; kp; apply IH. Qed.
Lemma kp_close_files n fd me : keeps_parents (close_files n fd me : M world _).
Proof. revert fd. induction n as [|n IH]; intros fd; cbn [close_files]; kp; apply IH. Qed.
#[local] Hint Resolve kp_dup_files kp_close_files kp_copy_maps kp_delete_mmaps : parents.

(** What fork leaves: no process slot, a slot given back, or a child. *)
Inductive forked (me : nat) (s : kernel) : Z -> kernel -> Prop :=
  | forked_none k : ptab k = ptab s -> parents k = parents s -> nextpid k = nextpid s -> initproc k = initproc s -> forked me s (-1) k
  | forked_back i p0 p k : ptab s !! i = Some p0 -> state p0 = UNUSED -> ptab k = <[i := p]> (ptab s) -> state p = UNUSED ->
      (parents k = parents s \/ parents k = <[i := Some me]> (parents s)) -> nextpid k = nextpid s + 1 -> initproc k = initproc s -> forked me s (-1) k
  | forked_child i p0 p k : ptab s !! i = Some p0 -> state p0 = UNUSED -> ptab k = <[i := p]> (ptab s) -> state p = RUNNABLE ->
      pid p = nextpid s -> parents k = <[i := Some me]> (parents s) -> nextpid k = nextpid s + 1 -> initproc k = initproc s -> forked me s (nextpid s) k.

Lemma allocproc_spec s : wlp allocproc s (fun o k => initproc k = initproc s /\ parents k = parents s /\ match o with
  | None => (ptab k = ptab s /\ nextpid k = nextpid s) \/
      exists i p0 p, ptab s !! i = Some p0 /\ state p0 = UNUSED /\ ptab k = <[i := p]> (ptab s) /\ state p = UNUSED /\ nextpid k = nextpid s + 1
  | Some i => exists p0 p, ptab s !! i = Some p0 /\ state p0 = UNUSED /\ ptab k = <[i := p]> (ptab s) /\ state p = EMBRYO /\ pid p = nextpid s /\ nextpid k = nextpid s + 1
  end).
Proof.
  unfold allocproc. wlp_step. wlp_step. destruct (list_find _ (ptab s)) as [[i p0]|] eqn:E; [|wlp_step; split_and!; auto].
  apply list_find_Some in E as (Hp0 & Hst & _). pose proof (lookup_lt_Some _ _ _ Hp0) as Hlt.
  wlp_step. apply wlp_lift. intros n Hn. assert (n = nextpid s + 1) as -> by (unfold sint in Hn; case_match; congruence).
  wlp_step. apply wlp_updt. intros p Hp. rewrite Hp0 in Hp. injection Hp as <-. wlp_step. wlp_step.
  wlp_step. apply wlp_ww; [kp|]. intros a w1 E1. wlp_step. apply wlp_ww; [kp|]. intros [] w2 E2. wlp_step.
  - wlp_step. apply wlp_updt. intros p Hp. wlp_step. cbn in Hp. rewrite list_lookup_insert_eq in Hp by done. injection Hp as <-.
    split; [done|]. split; [cbn; unfold parents in *; cbn in *; congruence|]. right. eexists i, p0, _. cbn. rewrite list_insert_insert_eq. done.
  - wlp_step. apply wlp_updt. intros p Hp. cbn in Hp. rewrite list_lookup_insert_eq in Hp by done. injection Hp as <-.
    wlp_step. apply wlp_ww; [kp|]. intros [] w3 E3. wlp_step. apply wlp_ww; [kp|]. intros [] w4 E4. wlp_step.
    split; [done|]. split; [cbn; unfold parents in *; cbn in *; congruence|]. eexists p0, _. cbn. rewrite list_insert_insert_eq. done.
Qed.

Lemma drop_stack_spec i s : wlp (drop_stack i) s (fun _ k => ptab k = ptab s /\ parents k = parents s /\ nextpid k = nextpid s /\ initproc k = initproc s).
Proof.
  unfold drop_stack. wlp_step. apply wlp_ww_getp. intros p _ _. wlp_step. apply wlp_ww; [kp|]. intros [] w1 E1. apply wlp_ww; [kp|]. intros [] w2 E2.
  split_and!; try done. unfold parents in *. cbn in *. congruence.
Qed.

Lemma fork_spec me s : wlp (fork me) s (forked me s).
Proof.
  unfold fork. wlp_step. eapply wlp_mono; [apply allocproc_spec|]. intros [i|] k (Hi & Hpar & Hk).
  2:{ wlp_step. destruct Hk as [[Ht Hn]|(i & p0 & p & H1 & H2 & H3 & H4 & H5)]; [by apply forked_none|]. eapply forked_back; try done. by left. }
  destruct Hk as (p0 & p & H1 & H2 & H3 & H4 & H5 & H6). pose proof (lookup_lt_Some _ _ _ H1) as Hlt.
  assert (forall q, ptab k !! i = Some q -> q = p) as Huniq by (intros q; rewrite H3, list_lookup_insert_eq by done; congruence).
  wlp_step. apply wlp_ww_getp. intros pp _ _. wlp_step. apply wlp_gett. intros c Hc. wlp_step. apply wlp_ww; [kp|]. intros d w1 E1.
  wlp_step. apply wlp_ww; [kp|]. intros [] w2 E2. wlp_step.
  { wlp_step. eapply wlp_mono; [apply drop_stack_spec|]. intros [] k1 (T1 & T2 & T3 & T4). wlp_step. apply wlp_updt. intros q Hq.
    rewrite T1 in Hq. cbn in Hq. apply Huniq in Hq as ->. wlp_step. eapply (forked_back _ _ i p0 (set_state UNUSED p)); try done; cbn; rewrite ?T1, ?T3, ?T4; cbn; try congruence.
    - by rewrite H3, list_insert_insert_eq.
    - left. unfold parents in *. cbn in *. congruence. }
  wlp_step. apply wlp_updt. intros q Hq. cbn in Hq. apply Huniq in Hq as ->. cbn [ptab sett setw] in *.
  wlp_step. apply wlp_set_parent. intros w3 E3. wlp_step. apply wlp_gett. intros n Hn. wlp_step. apply wlp_ww; [kp|]. intros [] w4 E4.
  wlp_step. apply wlp_ww; [kp|]. intros [] w5 E5. wlp_step. apply wlp_ww; [kp|]. intros [] w6 E6.
  wlp_step. apply (wlp_mono _ _ (fun _ k' => exists w, k' = setw w (sett (<[i:=set_sz (sz c) p]> (ptab k)) k) /\ wparents w = <[i := Some me]> (parents s))).
  { destruct (cwd c); [|by wlp_step]. apply wlp_ww; [kp|]. intros [] w7 E7. exists w7. split; [done|]. unfold parents in *. cbn in *. congruence. }
  intros [] k1 (w7 & -> & E7). wlp_step. apply wlp_updt. intros q Hq. cbn in Hq. rewrite H3, list_insert_insert_eq, list_lookup_insert_eq in Hq by done. injection Hq as <-.
  unfold fork_maps. wlp_step. apply wlp_ww; [kp|]. intros r w8 E8. wlp_step.
  - wlp_step. eapply wlp_mono; [apply drop_stack_spec|]. intros [] k2 (T1 & T2 & T3 & T4). wlp_step. apply wlp_ww_getp. intros q _ _. wlp_step. apply wlp_ww; [kp|]. intros [] w9 E9.
    wlp_step. apply wlp_updt. intros q2 Hq2. cbn in Hq2. rewrite T1 in Hq2. cbn in Hq2. rewrite H3, !list_insert_insert_eq, list_lookup_insert_eq in Hq2 by done. injection Hq2 as <-.
    wlp_step. eapply (forked_back _ _ i p0 (set_state UNUSED (set_cwd (cwd c) (set_sz (sz c) p)))); try done; cbn; rewrite ?T1, ?T3, ?T4; cbn; try congruence.
    + by rewrite H3, !list_insert_insert_eq.
    + right. unfold parents in *. cbn in *. congruence.
  - wlp_step. apply wlp_gett. intros q Hq. cbn in Hq. rewrite H3, !list_insert_insert_eq, list_lookup_insert_eq in Hq by done. injection Hq as <-.
    wlp_step. apply wlp_updt. intros q Hq. cbn in Hq. rewrite H3, !list_insert_insert_eq, list_lookup_insert_eq in Hq by done. injection Hq as <-.
    wlp_step. cbn [pid set_cwd set_sz]. rewrite H5. eapply (forked_child _ _ i p0 (set_state RUNNABLE (set_cwd (cwd c) (set_sz (sz c) p)))); try done; cbn; try congruence.
    + by rewrite H3, !list_insert_insert_eq.
    + unfold parents in *. cbn in *. congruence.
Qed.

(** ** Waking up *)

(** From [t] to [t'] only sleepers have become runnable. *)
Definition wakes (t t' : list pcb) : Prop := length t' = length t /\
  forall i p, t !! i = Some p -> exists p', t' !! i = Some p' /\ (p' = p \/ (state p = SLEEPING /\ p' = set_state RUNNABLE p)).
(** Nobody sleeps on [ch]. *)
Definition quiet (ch : option channel) (t : list pcb) : Prop := forall i p, t !! i = Some p -> state p = SLEEPING -> chan p <> ch.

Lemma wakes_refl t : wakes t t.
Proof. split; [done|]. intros i p Hp. exists p. auto. Qed.
Lemma wakes_trans t1 t2 t3 : wakes t1 t2 -> wakes t2 t3 -> wakes t1 t3.
Proof.
  intros [L1 H1] [L2 H2]. split; [congruence|]. intros i p Hp. destruct (H1 i p Hp) as (p2 & Hp2 & [->|[Hs ->]]).
  - by apply H2.
  - destruct (H2 i _ Hp2) as (p3 & Hp3 & [->|[Hs' ->]]); [|done]. exists (set_state RUNNABLE p). auto.
Qed.
(** Read backwards. *)
Lemma wakes_inv t t' i p' : wakes t t' -> t' !! i = Some p' -> exists p, t !! i = Some p /\ (p' = p \/ (state p = SLEEPING /\ p' = set_state RUNNABLE p)).
Proof.
  intros [L HW] Hp'. destruct (lookup_lt_is_Some_2 t i) as [p Hp]; [rewrite <-L; by eapply lookup_lt_Some|].
  destruct (HW i p Hp) as (q & Hq & Hc). exists p. split; [done|]. congruence.
Qed.
Lemma quiet_wakes ch t t' : wakes t t' -> quiet ch t -> quiet ch t'.
Proof.
  intros HW Hq i p' Hp' Hs. destruct (wakes_inv _ _ _ _ HW Hp') as (p & Hp & [->|[_ ->]]); [by eapply Hq|done].
Qed.
Lemma wakeup1_wakes ch t : wakes t (wakeup1 ch t) /\ quiet ch (wakeup1 ch t).
Proof.
  unfold wakeup1. split.
  - split; [by rewrite length_fmap|]. intros i p Hp. rewrite list_lookup_fmap, Hp. eexists. split; [done|].
    destruct (sleeps_on ch p) eqn:E; [|by left]. apply andb_true_iff in E as [E%bool_decide_eq_true _]. by right.
  - intros i p Hp Hs. rewrite list_lookup_fmap in Hp. destruct (t !! i) as [q|]; [|done]. injection Hp as <-.
    destruct (sleeps_on ch q) eqn:E; [done|]. apply andb_false_iff in E as [E%bool_decide_eq_false|E%bool_decide_eq_false]; done.
Qed.

Lemma wlp_set_ptab t s (Q : unit -> kernel -> Prop) : Q tt (sett t s) -> wlp (set_ptab t) s Q.
Proof. intros HQ. unfold set_ptab. by wlp_step. Qed.

Definition adopt (me : nat) (ini o : option nat) : option nat := if decide (o = Some me) then ini else o.

Lemma reparent_spec n i me s : wlp (reparent n i me) s (fun _ k => initproc k = initproc s /\ nextpid k = nextpid s /\ wakes (ptab s) (ptab k) /\
  (forall j, parents k !! j = (if decide (i <= j < i + n)%nat then adopt me (initproc s) else id) <$> parents s !! j) /\
  forall j c, (i <= j < i + n)%nat -> parents s !! j = Some (Some me) -> ptab s !! j = Some c -> state c = ZOMBIE -> quiet (ChProc <$> initproc s) (ptab k)).
Proof.
  revert i s. induction n as [|n IH]; intros i s; cbn [reparent].
  { wlp_step. split_and!; try done; [apply wakes_refl| |lia]. intros j. rewrite decide_False by lia. by destruct (parents s !! j). }
  wlp_step. apply wlp_ww_getp. intros q _ Hq. wlp_step.
  apply (wlp_mono _ _ (fun _ k => initproc k = initproc s /\ nextpid k = nextpid s /\ wakes (ptab s) (ptab k) /\ parents k = <[i := adopt me (initproc s) (parent q)]> (parents s) /\
    forall c, parents s !! i = Some (Some me) -> ptab s !! i = Some c -> state c = ZOMBIE -> quiet (ChProc <$> initproc s) (ptab k))).
  { apply wlp_if; intros E.
    - apply bool_decide_eq_true in E. wlp_step. wlp_step. wlp_step. apply wlp_set_parent. intros w1 E1. wlp_step. apply wlp_gett. intros c Hc. cbn in Hc.
      assert (adopt me (initproc s) (parent q) = initproc s) as -> by (unfold adopt; by rewrite decide_True). destruct (wakeup1_wakes (ChProc <$> initproc s) (ptab s)) as [W1 W2].
      apply wlp_if; intros Ez; [apply bool_decide_eq_true in Ez; apply wlp_set_ptab|apply bool_decide_eq_false in Ez; wlp_step]; split_and!; try done.
      + apply wakes_refl.
      + intros c' _ Hc'. cbn in Hc'. congruence.
    - apply bool_decide_eq_false in E. wlp_step. assert (adopt me (initproc s) (parent q) = parent q) as -> by (unfold adopt; by rewrite decide_False).
      rewrite list_insert_id by done. split_and!; try done; [apply wakes_refl|]. intros c Hc. congruence. }
  intros [] k (K1 & K2 & K3 & K4 & K5). eapply wlp_mono; [apply IH|]. intros [] k2 (L1 & L2 & L3 & L4 & L5). rewrite K1 in *.
  pose proof (lookup_lt_Some _ _ _ Hq) as Hlt.
  split_and!; [done|congruence|by eapply wakes_trans| |].
  - intros j. rewrite L4, K4. destruct (decide (j = i)) as [->|Hne].
    + rewrite list_lookup_insert_eq, Hq by done. rewrite decide_False, decide_True by lia. done.
    + rewrite list_lookup_insert_ne by done. destruct (decide (S i <= j < S i + n)%nat), (decide (i <= j < i + S n)%nat); done || lia.
  - intros j c Hj Hpj Hc Hz. destruct (decide (j = i)) as [->|Hne]; [eapply quiet_wakes; [exact L3|]; by apply (K5 c)|].
    destruct (proj2 K3 j c Hc) as (c' & Hc' & [->|[? _]]); [|congruence]. eapply (L5 j c); [lia| |done|done]. rewrite K4. by rewrite list_lookup_insert_ne.
Qed.

Lemma exit_spec me s : length (parents s) = NPROC -> wlp (exit_ me) s (fun _ k => initproc s <> Some me /\ initproc k = initproc s /\ nextpid k = nextpid s /\
  exists c t c1, ptab s !! me = Some c /\ wakes (<[me := set_cwd None c]> (ptab s)) t /\ t !! me = Some c1 /\ ptab k = <[me := set_state ZOMBIE c1]> t /\
  parents k = adopt me (initproc s) <$> parents s /\ (forall o, parents s !! me = Some o -> quiet (ChProc <$> o) t) /\
  forall j z, parents s !! j = Some (Some me) -> j <> me -> ptab s !! j = Some z -> state z = ZOMBIE -> quiet (ChProc <$> initproc s) t).
Proof.
  intros Hlen. unfold exit_. wlp_step. wlp_step. apply wlp_if; intros Hi; [by wlp_step|]. apply bool_decide_eq_false in Hi.
  wlp_step. apply wlp_ww; [kp|]. intros r w1 E1. wlp_step. apply wlp_ww; [kp|]. intros [] w2 E2. wlp_step. apply wlp_gett. intros c Hc. cbn in Hc.
  wlp_step. apply wlp_ww; [kp|]. intros [] w3 E3. wlp_step.
  apply (wlp_mono _ _ (fun _ k => exists w, k = setw w s /\ wparents w = parents s)).
  { destruct (cwd c); [|by wlp_step]. apply wlp_ww; [kp|]. intros [] w4 E4. exists w4. split; [done|]. unfold parents in *. cbn in *. congruence. }
  intros [] k (w4 & -> & E4). wlp_step. apply wlp_ww; [kp|]. intros [] w5 E5. wlp_step. apply wlp_updt. intros c' Hc'. cbn in Hc'. rewrite Hc in Hc'. injection Hc' as <-.
  wlp_step. apply wlp_ww_getp. intros p _ Hp. wlp_step. wlp_step. wlp_step. apply wlp_set_ptab. cbn [ptab sett setw].
  set (t0 := <[me := set_cwd None c]> (ptab s)). destruct (wakeup1_wakes (ChProc <$> parent p) t0) as [W1 W2].
  assert (wparents w5 = parents s) as E6 by (unfold parents in E5; cbn in E5; congruence).
  assert (parents s !! me = Some (parent p)) as Hpar by (unfold parents in Hp; cbn in Hp; by rewrite E6 in Hp).
  wlp_step. eapply wlp_mono; [apply reparent_spec|]. intros [] k (K1 & K2 & K3 & K4 & K5). cbn [ptab sett setw initproc nextpid] in *.
  pose proof (lookup_lt_Some _ _ _ Hc) as Hlt. apply wlp_updt. intros c1 Hc1. split_and!; [done|done|done|]. exists c, (ptab k), c1.
  split_and!; [done|by eapply wakes_trans|done|done| |intros o Ho; assert (o = parent p) as -> by congruence; by eapply quiet_wakes|].
  - apply list_eq. intros j. change (parents (sett _ k)) with (parents k). rewrite K4. change (parents (sett _ _)) with (wparents w5). rewrite E6, list_lookup_fmap.
    destruct (parents s !! j) as [o|] eqn:Ho; [|done]. rewrite decide_True; [done|]. apply lookup_lt_Some in Ho. lia.
  - intros j z Hj Hne Hz Hzs. eapply quiet_wakes; [apply wakes_refl|]. eapply (K5 j z); [split; [lia|]| |  |done].
    + apply lookup_lt_Some in Hj. lia.
    + change (parents _) with (wparents w5). by rewrite E6.
    + destruct (proj2 W1 j z) as (z' & Hz' & [->|[? _]]); [|done|congruence]. unfold t0. by rewrite list_lookup_insert_ne.
Qed.

(** ** wait *)
Definition reaped (c : pcb) : pcb := set_state UNUSED (set_killed false (set_pid 0 c)).

Lemma reap_spec i s : wlp (reap i) s (fun r k => exists c, ptab s !! i = Some c /\ r = pid c /\ ptab k = <[i := reaped c]> (ptab s) /\
  parents k = <[i := None]> (parents s) /\ nextpid k = nextpid s /\ initproc k = initproc s).
Proof.
  unfold reap. wlp_step. apply wlp_gett. intros c Hc. wlp_step. apply wlp_ww_getp. intros q _ _. wlp_step. eapply wlp_mono; [apply drop_stack_spec|].
  intros [] k1 (T1 & T2 & T3 & T4). wlp_step. apply wlp_ww; [kp|]. intros [] w1 E1. wlp_step. apply wlp_set_parent. intros w2 E2. wlp_step. apply wlp_updt.
  intros c' Hc'. cbn in Hc'. rewrite T1, Hc in Hc'. injection Hc' as <-. wlp_step. exists c. cbn. rewrite T1. split_and!; try done.
  unfold parents in *. cbn in *. congruence.
Qed.

Lemma wait_scan_spec n i me hk s : wlp (wait_scan n i me hk) s (fun r k => match r with
  | (Some v, _) => exists j c, (i <= j < i + n)%nat /\ parents s !! j = Some (Some me) /\ ptab s !! j = Some c /\ state c = ZOMBIE /\ v = pid c /\
      ptab k = <[j := reaped c]> (ptab s) /\ parents k = <[j := None]> (parents s) /\ nextpid k = nextpid s /\ initproc k = initproc s
  | (None, b) => k = s /\ (b = true <-> hk = true \/ exists j, (i <= j < i + n)%nat /\ parents s !! j = Some (Some me)) /\
      forall j c, (i <= j < i + n)%nat -> parents s !! j = Some (Some me) -> ptab s !! j = Some c -> state c <> ZOMBIE
  end).
Proof.
  revert i hk. induction n as [|n IH]; intros i hk; cbn [wait_scan].
  { wlp_step. split_and!; [done| |lia]. split; [by left|]. intros [?|(j & ? & _)]; [done|lia]. }
  wlp_step. apply wlp_ww_getp. intros q _ Hq. apply wlp_if; intros E.
  - apply negb_true_iff, bool_decide_eq_false in E. eapply wlp_mono; [apply IH|]. intros [[v|] b] k.
    + intros (j & c & Hj & HP). exists j, c. split; [lia|done].
    + intros (-> & Hb & Hz). split; [done|]. split.
      * rewrite Hb. split; intros [?|(j & Hj & Hpj)]; [by left|right; exists j; split; [lia|done]|by left|right; exists j; split; [|done]].
        destruct (decide (j = i)) as [->|]; [congruence|lia].
      * intros j c Hj Hpj. destruct (decide (j = i)) as [->|]; [congruence|]. apply (Hz j); [lia|done].
  - apply negb_false_iff, bool_decide_eq_true in E. wlp_step. apply wlp_gett. intros c Hc. apply wlp_if; intros Ez.
    + apply bool_decide_eq_true in Ez. wlp_step. eapply wlp_mono; [apply reap_spec|]. intros r k (c' & Hc' & -> & HP). wlp_step.
      rewrite Hc in Hc'. injection Hc' as <-. exists i, c. split_and!; try done; try lia; [congruence|apply HP..].
    + apply bool_decide_eq_false in Ez. eapply wlp_mono; [apply IH|]. intros [[v|] b] k.
      * intros (j & c' & Hj & HP). exists j, c'. split; [lia|done].
      * intros (-> & Hb & Hz). split; [done|]. split.
        -- rewrite Hb. split; [intros _|by left]. right. exists i. split; [lia|congruence].
        -- intros j c' Hj Hpj Hc'. destruct (decide (j = i)) as [->|]; [congruence|]. apply (Hz j); [lia|done|done].
Qed.

Lemma wait_spec me s : length (parents s) = NPROC -> wlp (wait_section me) s (fun r k => nextpid k = nextpid s /\ initproc k = initproc s /\ match r with
  | WRet v => (exists j c, parents s !! j = Some (Some me) /\ ptab s !! j = Some c /\ state c = ZOMBIE /\ v = pid c /\
        ptab k = <[j := reaped c]> (ptab s) /\ parents k = <[j := None]> (parents s)) \/
      (v = -1 /\ k = s /\ ((exists c, ptab s !! me = Some c /\ killed c = true) \/ forall j, parents s !! j <> Some (Some me)))
  | WSleep => exists c, ptab s !! me = Some c /\ ptab k = <[me := set_state SLEEPING (set_chan (Some (ChProc me)) c)]> (ptab s) /\ parents k = parents s /\
      (exists j, parents s !! j = Some (Some me)) /\ forall j z, parents s !! j = Some (Some me) -> ptab s !! j = Some z -> state z <> ZOMBIE
  end).
Proof.
  intros Hlen. assert (forall j o, parents s !! j = Some o -> (0 <= j < 0 + NPROC)%nat) as Hr by (intros j o Hj%lookup_lt_Some; lia).
  unfold wait_section. wlp_step. eapply wlp_mono; [apply wait_scan_spec|]. intros [[v|] b] k.
  - intros (j & c & _ & H1 & H2 & H3 & H4 & H5 & H6 & H7 & H8). wlp_step. split_and!; try done. left. by exists j, c.
  - intros (-> & Hb & Hz). wlp_step. apply wlp_gett. intros c Hc. apply wlp_if; intros E.
    + wlp_step. split_and!; try done. right. split_and!; try done. apply orb_true_iff in E as [E%negb_true_iff|E]; [right|left; by exists c].
      intros j Hj. assert (b = true) as Hb' by (apply Hb; right; exists j; split; [by eapply Hr|done]). congruence.
    + apply orb_false_iff in E as [E%negb_false_iff _]. unfold sleep. wlp_step. apply wlp_updt. intros c' Hc'. rewrite Hc in Hc'. injection Hc' as <-. wlp_step.
      split_and!; try done. exists c. split_and!; try done.
      * apply Hb in E as [?|(j & _ & Hj)]; [done|]. by exists j.
      * intros j z Hj. apply (Hz j); [by eapply Hr|done].
Qed.
End table.

(** ** The process table in every reachable state *)
Section invariant.
Context `{HL : Linker} `{HE : Entries} {FS : Type} `{HFS : Fs FS}.
Notation kernel := (kernel (FS := FS)).
Notation sys := (sys (FS := FS)).
Implicit Types (s : sys) (k : kernel) (c d : pcb).

Definition used (c : pcb) : Prop := state c <> UNUSED.
Definition live (c : pcb) : Prop := state c = SLEEPING \/ state c = RUNNABLE \/ state c = RUNNING.

Record table_ok (s : sys) : Prop := {
  to_len : length (ptab (kern s)) = NPROC /\ length (parents (kern s)) = NPROC /\ length (act s) = NPROC;
  (** init is alive *)
  to_init : exists ini c, initproc (kern s) = Some ini /\ ptab (kern s) !! ini = Some c /\ live c;
  (** no slot is left half made *)
  to_embryo : forall i c, ptab (kern s) !! i = Some c -> state c <> EMBRYO;
  (** identifiers are positive, below nextpid and not shared *)
  to_pid : forall i c, ptab (kern s) !! i = Some c -> used c -> 0 < pid c < nextpid (kern s);
  to_pids : forall i j c d, ptab (kern s) !! i = Some c -> ptab (kern s) !! j = Some d -> used c -> used d -> pid c = pid d -> i = j;
  (** every process but init has another, live process as its parent *)
  to_parent : forall i c, ptab (kern s) !! i = Some c -> used c -> initproc (kern s) <> Some i ->
    exists j d, parents (kern s) !! i = Some (Some j) /\ j <> i /\ ptab (kern s) !! j = Some d /\ live d;
  (** nobody sleeps in wait while a child of his has exited *)
  to_wait : forall i c, act s !! i = Some InWait -> ptab (kern s) !! i = Some c -> state c = SLEEPING ->
    chan c = Some (ChProc i) /\ forall j z, parents (kern s) !! j = Some (Some i) -> ptab (kern s) !! j = Some z -> state z <> ZOMBIE;
  to_act : forall i a c, act s !! i = Some a -> ptab (kern s) !! i = Some c -> a <> InUser -> live c
}.

Lemma live_used c : live c -> used c.
Proof. intros [E|[E|E]]; unfold used; rewrite E; done. Qed.
Lemma live_not c : live c -> state c <> ZOMBIE /\ state c <> UNUSED /\ state c <> EMBRYO.
Proof. intros [E|[E|E]]; rewrite E; done. Qed.
Lemma live_cases c : live c \/ state c = UNUSED \/ state c = EMBRYO \/ state c = ZOMBIE.
Proof. unfold live. destruct (state c); auto 6. Qed.

(** One live process changes and stays live. *)
Lemma ok_update s k i c c' a : table_ok s -> ptab (kern s) !! i = Some c -> live c -> live c' -> pid c' = pid c ->
  ptab k = <[i := c']> (ptab (kern s)) -> parents k = parents (kern s) -> nextpid k = nextpid (kern s) -> initproc k = initproc (kern s) ->
  (a = InWait -> state c' = SLEEPING -> chan c' = Some (ChProc i) /\ forall j z, parents (kern s) !! j = Some (Some i) -> ptab (kern s) !! j = Some z -> state z <> ZOMBIE) ->
  table_ok (mkSys k (<[i := a]> (act s))).
Proof.
  intros [(L1 & L2 & L3) (ini & ci & I1 & I2 & I3) Em Pd Pu Pa Wa Ac] Hc Hl Hl' Hp Ht Hpar Hn Hini Hw. pose proof (lookup_lt_Some _ _ _ Hc) as Hlt.
  assert (forall j d, ptab k !! j = Some d -> exists d0, ptab (kern s) !! j = Some d0 /\ pid d = pid d0 /\ (j = i /\ d = c' \/ j <> i /\ d = d0) /\ (used d -> used d0) /\ (state d = ZOMBIE -> state d0 = ZOMBIE)) as Hback.
  { intros j d Hd. rewrite Ht in Hd. apply list_lookup_insert_Some in Hd as [(<- & <- & _)|[Hne Hd]]; [|exists d; auto 6].
    exists c. split_and!; try done; [by left|intros _; by apply live_used|]. intros E. by destruct (live_not _ Hl'). }
  assert (forall j d, ptab (kern s) !! j = Some d -> live d -> exists d', ptab k !! j = Some d' /\ live d') as Hfwd.
  { intros j d Hd Hld. rewrite Ht. destruct (decide (i = j)) as [<-|Hne]; [rewrite list_lookup_insert_eq by done; by exists c'|rewrite list_lookup_insert_ne by done; by exists d]. }
  split; cbn [kern act]; rewrite ?Hpar, ?Hn, ?Hini.
  - rewrite Ht, !length_insert. done.
  - destruct (Hfwd ini ci I2 I3) as (d & ? & ?). by exists ini, d.
  - intros j d Hd. destruct (Hback j d Hd) as (d0 & H0 & _ & [[-> ->]|[_ ->]] & _); [by apply live_not|by eapply Em].
  - intros j d Hd Hu. destruct (Hback j d Hd) as (d0 & H0 & -> & _ & HU & _). apply (Pd j d0); [done|by apply HU].
  - intros j1 j2 d1 d2 H1 H2 U1 U2 Hpp. destruct (Hback _ _ H1) as (e1 & E1 & P1 & _ & V1 & _), (Hback _ _ H2) as (e2 & E2 & P2 & _ & V2 & _).
    apply (Pu j1 j2 e1 e2); try done; [by apply V1|by apply V2|congruence].
  - intros j d Hd Hu Hji. destruct (Hback _ _ Hd) as (d0 & H0 & _ & _ & HU & _). destruct (Pa j d0 H0 (HU Hu) Hji) as (p & e & E1 & E2 & E3 & E4).
    destruct (Hfwd p e E3 E4) as (e' & ? & ?). by exists p, e'.
  - intros j d Ha Hd Hs. assert (forall q z, parents (kern s) !! q = Some (Some j) -> ptab k !! q = Some z -> (forall z0, ptab (kern s) !! q = Some z0 -> state z0 <> ZOMBIE) -> state z <> ZOMBIE) as Hz.
    { intros q z _ Hz Hno E. destruct (Hback _ _ Hz) as (z0 & Z0 & _ & _ & _ & HZ). by apply (Hno z0 Z0), HZ. }
    destruct (Hback _ _ Hd) as (d0 & H0 & _ & [[-> ->]|[Hne ->]] & _).
    + rewrite list_lookup_insert_eq in Ha by lia. injection Ha as ->. destruct (Hw eq_refl Hs) as [W1 W2]. split; [done|].
      intros q z Hq Hzz. apply (Hz q z Hq Hzz). intros z0. by apply W2.
    + rewrite list_lookup_insert_ne in Ha by done. destruct (Wa j d0 Ha H0 Hs) as [W1 W2]. split; [done|].
      intros q z Hq Hzz. apply (Hz q z Hq Hzz). intros z0. by apply W2.
  - intros j b d Hb Hd Hne. destruct (Hback _ _ Hd) as (d0 & H0 & _ & [[-> ->]|[Hji ->]] & _); [done|]. rewrite list_lookup_insert_ne in Hb by done. by eapply Ac.
Qed.

(** Some sleepers wake up. *)
Lemma ok_wakes s k : table_ok s -> wakes (ptab (kern s)) (ptab k) -> parents k = parents (kern s) -> nextpid k = nextpid (kern s) -> initproc k = initproc (kern s) ->
  table_ok (mkSys k (act s)).
Proof.
  intros [(L1 & L2 & L3) (ini & ci & I1 & I2 & I3) Em Pd Pu Pa Wa Ac] HW Hpar Hn Hini.
  assert (forall j d, ptab k !! j = Some d -> exists d0, ptab (kern s) !! j = Some d0 /\ pid d = pid d0 /\ (used d -> used d0) /\
    (state d <> RUNNABLE -> d = d0) /\ (live d0 -> live d) /\ (d = d0 \/ live d)) as Hback.
  { intros j d Hd. destruct (wakes_inv _ _ _ _ HW Hd) as (d0 & H0 & [->|[Hs ->]]); exists d0; split_and!; try done; [by left| |by right; left|right; by right; left].
    intros _. unfold used. by rewrite Hs. }
  assert (forall j d, ptab (kern s) !! j = Some d -> live d -> exists d', ptab k !! j = Some d' /\ live d') as Hfwd.
  { intros j d Hd Hld. destruct (proj2 HW j d Hd) as (d' & Hd' & [->|[_ ->]]); [by exists d|]. eexists. split; [done|]. by right; left. }
  split; cbn [kern act]; rewrite ?Hpar, ?Hn, ?Hini.
  - by rewrite (proj1 HW).
  - destruct (Hfwd ini ci I2 I3) as (d & ? & ?). by exists ini, d.
  - intros j d Hd. destruct (Hback _ _ Hd) as (d0 & H0 & _ & _ & _ & _ & [->|Hl]); [by eapply Em|by apply live_not].
  - intros j d Hd Hu. destruct (Hback _ _ Hd) as (d0 & H0 & -> & HU & _). apply (Pd j d0); [done|by apply HU].
  - intros j1 j2 d1 d2 H1 H2 U1 U2 Hpp. destruct (Hback _ _ H1) as (e1 & E1 & P1 & V1 & _), (Hback _ _ H2) as (e2 & E2 & P2 & V2 & _).
    apply (Pu j1 j2 e1 e2); try done; [by apply V1|by apply V2|congruence].
  - intros j d Hd Hu Hji. destruct (Hback _ _ Hd) as (d0 & H0 & _ & HU & _). destruct (Pa j d0 H0 (HU Hu) Hji) as (p & e & E1 & E2 & E3 & E4).
    destruct (Hfwd p e E3 E4) as (e' & ? & ?). by exists p, e'.
  - intros j d Ha Hd Hs. destruct (Hback _ _ Hd) as (d0 & H0 & _ & _ & HR & _). rewrite HR in * by congruence. destruct (Wa j d0 Ha H0 Hs) as [W1 W2]. split; [done|].
    intros q z Hq Hz E. destruct (Hback _ _ Hz) as (z0 & Z0 & _ & _ & HRz & _). rewrite HRz in E by congruence. by apply (W2 q z0 Hq Z0).
  - intros j b d Hb Hd Hne. destruct (Hback _ _ Hd) as (d0 & H0 & _ & _ & _ & HL' & _). apply HL'. by eapply Ac.
Qed.

(** A free slot changes: it stays free or becomes a child of [me]. *)
Lemma ok_forked s k me cm r : table_ok s -> ptab (kern s) !! me = Some cm -> state cm = RUNNING -> forked me (kern s) r k -> table_ok (mkSys k (act s)).
Proof.
  intros Hok Hme Hrun Hf. pose proof Hok as [(L1 & L2 & L3) (ini & ci & I1 & I2 & I3) Em Pd Pu Pa Wa Ac].
  destruct Hf as [k Ht Hpar Hn Hini|i p0 p k H0 Hun Ht Hst Hpar Hn Hini|i p0 p k H0 Hun Ht Hst Hpid Hpar Hn Hini].
  - apply (ok_wakes s k); try done. rewrite Ht. apply wakes_refl.
  - assert (forall j d, ptab k !! j = Some d -> (j = i /\ state d = UNUSED) \/ (j <> i /\ ptab (kern s) !! j = Some d)) as Hback.
    { intros j d Hd. rewrite Ht in Hd. apply list_lookup_insert_Some in Hd as [(<- & <- & _)|[Hne Hd]]; [by left|right; done]. }
    assert (forall j d, ptab (kern s) !! j = Some d -> live d -> j <> i /\ ptab k !! j = Some d) as Hfwd.
    { intros j d Hd Hl. assert (j <> i) as Hne by (intros ->; rewrite H0 in Hd; injection Hd as ->; by destruct (live_not _ Hl) as (_ & ? & _)).
      split; [done|]. by rewrite Ht, list_lookup_insert_ne. }
    assert (forall j, j <> i -> parents k !! j = parents (kern s) !! j) as Hpj.
    { intros j Hj. destruct Hpar as [->| ->]; [done|by rewrite list_lookup_insert_ne]. }
    split; cbn [kern act]; rewrite ?Hini.
    + rewrite Ht, length_insert. split_and!; try done. destruct Hpar as [->| ->]; by rewrite ?length_insert.
    + destruct (Hfwd ini ci I2 I3) as [_ ?]. by exists ini, ci.
    + intros j d Hd. destruct (Hback _ _ Hd) as [[_ ->]|[_ Hd']]; [done|by eapply Em].
    + intros j d Hd Hu. destruct (Hback _ _ Hd) as [[_ ?]|[_ Hd']]; [done|]. pose proof (Pd j d Hd' Hu). lia.
    + intros j1 j2 d1 d2 H1 H2 U1 U2. destruct (Hback _ _ H1) as [[_ ?]|[_ D1]], (Hback _ _ H2) as [[_ ?]|[_ D2]]; try done. by apply (Pu j1 j2 d1 d2).
    + intros j d Hd Hu Hji. destruct (Hback _ _ Hd) as [[_ ?]|[Hne Hd']]; [done|]. destruct (Pa j d Hd' Hu Hji) as (q & e & E1 & E2 & E3 & E4).
      destruct (Hfwd q e E3 E4) as [_ ?]. exists q, e. by rewrite Hpj.
    + intros j d Ha Hd Hs. destruct (Hback _ _ Hd) as [[_ ?]|[Hne Hd']]; [congruence|]. destruct (Wa j d Ha Hd' Hs) as [W1 W2]. split; [done|].
      intros q z Hq Hz. destruct (Hback _ _ Hz) as [[_ ->]|[Hqi Hz']]; [done|]. rewrite Hpj in Hq by done. by eapply W2.
    + intros j b d Hb Hd Hne. destruct (Hback _ _ Hd) as [[-> ?]|[_ Hd']]; [|by eapply Ac]. destruct (live_not _ (Ac i b p0 Hb H0 Hne)) as (_ & ? & _). done.
  - assert (forall j d, ptab k !! j = Some d -> (j = i /\ d = p) \/ (j <> i /\ ptab (kern s) !! j = Some d)) as Hback.
    { intros j d Hd. rewrite Ht in Hd. apply list_lookup_insert_Some in Hd as [(<- & <- & _)|[Hne Hd]]; [by left|right; done]. }
    assert (forall j d, ptab (kern s) !! j = Some d -> live d -> j <> i /\ ptab k !! j = Some d) as Hfwd.
    { intros j d Hd Hl. assert (j <> i) as Hne by (intros ->; rewrite H0 in Hd; injection Hd as ->; by destruct (live_not _ Hl) as (_ & ? & _)).
      split; [done|]. by rewrite Ht, list_lookup_insert_ne. }
    assert (live cm) as Hlm by (right; by right). destruct (Hfwd me cm Hme Hlm) as [Hmi Hmk].
    assert (0 < nextpid (kern s)) as Hnp by (pose proof (Pd ini ci I2 (live_used _ I3)); lia).
    split; cbn [kern act]; rewrite ?Hini.
    + rewrite Ht, Hpar, !length_insert. done.
    + destruct (Hfwd ini ci I2 I3) as [_ ?]. by exists ini, ci.
    + intros j d Hd. destruct (Hback _ _ Hd) as [[_ ->]|[_ Hd']]; [by rewrite Hst|by eapply Em].
    + intros j d Hd Hu. destruct (Hback _ _ Hd) as [[_ ->]|[_ Hd']]; [lia|]. pose proof (Pd j d Hd' Hu). lia.
    + intros j1 j2 d1 d2 H1 H2 U1 U2 Hpp. destruct (Hback _ _ H1) as [[-> ->]|[_ D1]], (Hback _ _ H2) as [[-> ->]|[_ D2]]; [done| | |by apply (Pu j1 j2 d1 d2)].
      * pose proof (Pd j2 d2 D2 U2). lia.
      * pose proof (Pd j1 d1 D1 U1). lia.
    + intros j d Hd Hu Hji. rewrite Hpar. destruct (Hback _ _ Hd) as [[-> ->]|[Hne Hd']].
      * exists me, cm. rewrite list_lookup_insert_eq; [done|]. apply lookup_lt_Some in H0. lia.
      * rewrite list_lookup_insert_ne by done. destruct (Pa j d Hd' Hu Hji) as (q & e & E1 & E2 & E3 & E4). destruct (Hfwd q e E3 E4) as [_ ?]. by exists q, e.
    + intros j d Ha Hd Hs. destruct (Hback _ _ Hd) as [[_ ->]|[Hne Hd']]; [congruence|]. destruct (Wa j d Ha Hd' Hs) as [W1 W2]. split; [done|].
      intros q z Hq Hz. destruct (Hback _ _ Hz) as [[_ ->]|[Hqi Hz']]; [by rewrite Hst|]. rewrite Hpar, list_lookup_insert_ne in Hq by done. by eapply W2.
    + intros j b d Hb Hd Hne. destruct (Hback _ _ Hd) as [[-> ->]|[_ Hd']]; [|by eapply Ac]. right; by left.
Qed.

(** A process exits. *)
Lemma ok_exit s k me cm : table_ok s -> ptab (kern s) !! me = Some cm -> state cm = RUNNING -> act s !! me = Some InUser -> exit_ me (kern s) = Ok (tt, k) -> table_ok (mkSys k (act s)).
Proof.
  intros Hok Hme Hrun Hact E. pose proof Hok as [(L1 & L2 & L3) (ini & ci & I1 & I2 & I3) Em Pd Pu Pa Wa Ac].
  destruct (exit_spec me (kern s) L2 _ _ E) as (Hni & Hini & Hn & c & t & c1 & Hc & HW & Hc1 & Ht & Hpar & Hq1 & Hq2). rewrite Hme in Hc. injection Hc as <-.
  pose proof (lookup_lt_Some _ _ _ Hme) as Hlt. rewrite I1 in Hni, Hpar, Hq2.
  assert (c1 = set_cwd None cm) as ->.
  { destruct (wakes_inv _ _ _ _ HW Hc1) as (c0 & H0 & Hor). rewrite list_lookup_insert_eq in H0 by done. injection H0 as <-. destruct Hor as [->|[? _]]; [done|]. cbn in *. congruence. }
  assert (forall j d, ptab k !! j = Some d -> (j = me /\ state d = ZOMBIE /\ pid d = pid cm) \/
    (j <> me /\ t !! j = Some d /\ exists d0, ptab (kern s) !! j = Some d0 /\ (d = d0 \/ state d0 = SLEEPING /\ d = set_state RUNNABLE d0))) as Hback.
  { intros j d Hd. rewrite Ht in Hd. apply list_lookup_insert_Some in Hd as [(<- & <- & _)|[Hne Hd]]; [by left|right]. split; [done|]. split; [done|].
    destruct (wakes_inv _ _ _ _ HW Hd) as (d0 & H0 & Hor). rewrite list_lookup_insert_ne in H0 by done. by exists d0. }
  assert (forall j d, ptab (kern s) !! j = Some d -> live d -> j <> me -> exists d', ptab k !! j = Some d' /\ live d') as Hfwd.
  { intros j d Hd Hl Hne. destruct (proj2 HW j d) as (d' & Hd' & Hor); [by rewrite list_lookup_insert_ne|]. exists d'. rewrite Ht, list_lookup_insert_ne by done.
    split; [done|]. destruct Hor as [->|[_ ->]]; [done|by right; left]. }
  assert (ini <> me) as Him by congruence.
  split; cbn [kern act]; rewrite ?Hini, ?Hn, ?I1.
  - rewrite Ht, length_insert, (proj1 HW), length_insert, Hpar, length_fmap. done.
  - destruct (Hfwd ini ci I2 I3 Him) as (d & ? & ?). by exists ini, d.
  - intros j d Hd. destruct (Hback _ _ Hd) as [(_ & -> & _)|(_ & _ & d0 & H0 & [->|[_ ->]])]; [done|by eapply Em|done].
  - intros j d Hd Hu. destruct (Hback _ _ Hd) as [(-> & _ & ->)|(_ & _ & d0 & H0 & [->|[Hs ->]])]; [apply (Pd me cm Hme); unfold used; by rewrite Hrun|by apply (Pd j d0)|].
    apply (Pd j d0 H0). unfold used. by rewrite Hs.
  - assert (forall j d, ptab k !! j = Some d -> used d -> exists d0, ptab (kern s) !! j = Some d0 /\ used d0 /\ pid d = pid d0) as Hp.
    { intros j d Hd Hu. destruct (Hback _ _ Hd) as [(-> & _ & Hp)|(_ & _ & d0 & H0 & [->|[Hs ->]])].
      - exists cm. split_and!; try done. unfold used. by rewrite Hrun.
      - by exists d0.
      - exists d0. split_and!; try done. unfold used. by rewrite Hs. }
    intros j1 j2 d1 d2 H1 H2 U1 U2 Hpp. destruct (Hp _ _ H1 U1) as (e1 & E1 & V1 & P1), (Hp _ _ H2 U2) as (e2 & E2 & V2 & P2). apply (Pu j1 j2 e1 e2); congruence.
  - intros j d Hd Hu Hji. assert (exists d0, ptab (kern s) !! j = Some d0 /\ used d0) as (d0 & H0 & U0).
    { destruct (Hback _ _ Hd) as [(-> & _)|(_ & _ & d0 & H0 & [->|[Hs ->]])]; [exists cm; split; [done|]; unfold used; by rewrite Hrun|by exists d0|].
      exists d0. split; [done|]. unfold used. by rewrite Hs. }
    destruct (Pa j d0 H0 U0) as (q & e & E1 & E2 & E3 & E4); [by rewrite I1|]. rewrite Hpar, list_lookup_fmap, E1. cbn. unfold adopt.
    case_decide as Hq; [destruct (Hfwd ini ci I2 I3 Him) as (d' & ? & ?); exists ini, d'; split_and!; congruence|].
    assert (q <> me) as Hqm by congruence. destruct (Hfwd q e E3 E4 Hqm) as (d' & ? & ?). by exists q, d'.
  - intros j d Ha Hd Hs. destruct (Hback _ _ Hd) as [(-> & ? & _)|(Hne & Htj & d0 & H0 & [->|[_ ->]])]; [congruence| |done]. destruct (Wa j d0 Ha H0 Hs) as [W1 W2]. split; [done|].
    intros q z Hq Hz Hzz. rewrite Hpar, list_lookup_fmap in Hq. destruct (parents (kern s) !! q) as [o|] eqn:Ho; [|done]. cbn in Hq. injection Hq as Hq. unfold adopt in Hq.
    destruct (Hback _ _ Hz) as [(-> & _)|(Hqm & _ & z0 & Z0 & [->|[_ ->]])]; [|case_decide as Hoo|done].
    + destruct (Pa me cm Hme) as (q & e & E1 & E2 & _); [unfold used; by rewrite Hrun|by rewrite I1|]. rewrite Ho in E1. injection E1 as ->.
      rewrite decide_False in Hq by congruence. injection Hq as ->. by apply (Hq1 (Some j) Ho j d0 Htj Hs).
    + injection Hq as <-. subst o. by apply (Hq2 q z0 Ho Hqm Z0 Hzz ini d0 Htj Hs).
    + subst o. by apply (W2 q z0 Ho Z0).
  - intros j b d Hb Hd Hne. destruct (Hback _ _ Hd) as [(-> & _)|(_ & _ & d0 & H0 & [->|[_ ->]])]; [congruence|by eapply Ac|by right; left].
Qed.

(** A child that has exited is reaped. *)
Lemma ok_reaped s k me j c : table_ok s -> parents (kern s) !! j = Some (Some me) -> ptab (kern s) !! j = Some c -> state c = ZOMBIE ->
  ptab k = <[j := reaped c]> (ptab (kern s)) -> parents k = <[j := None]> (parents (kern s)) -> nextpid k = nextpid (kern s) -> initproc k = initproc (kern s) ->
  table_ok (mkSys k (act s)).
Proof.
  intros Hok Hpj Hj Hz Ht Hpar Hn Hini. pose proof Hok as [(L1 & L2 & L3) (ini & ci & I1 & I2 & I3) Em Pd Pu Pa Wa Ac].
  assert (forall i d, ptab k !! i = Some d -> (i = j /\ state d = UNUSED) \/ (i <> j /\ ptab (kern s) !! i = Some d)) as Hback.
  { intros i d Hd. rewrite Ht in Hd. apply list_lookup_insert_Some in Hd as [(<- & <- & _)|[Hne Hd]]; [by left|right; done]. }
  assert (forall i d, ptab (kern s) !! i = Some d -> live d -> i <> j /\ ptab k !! i = Some d) as Hfwd.
  { intros i d Hd Hl. assert (i <> j) as Hne by (intros ->; rewrite Hj in Hd; injection Hd as ->; by destruct (live_not _ Hl)).
    split; [done|]. by rewrite Ht, list_lookup_insert_ne. }
  split; cbn [kern act]; rewrite ?Hini, ?Hn.
  - rewrite Ht, Hpar, !length_insert. done.
  - destruct (Hfwd ini ci I2 I3) as [_ ?]. by exists ini, ci.
  - intros i d Hd. destruct (Hback _ _ Hd) as [[_ ->]|[_ Hd']]; [done|by eapply Em].
  - intros i d Hd Hu. destruct (Hback _ _ Hd) as [[_ ?]|[_ Hd']]; [done|by apply (Pd i d)].
  - intros j1 j2 d1 d2 H1 H2 U1 U2. destruct (Hback _ _ H1) as [[_ ?]|[_ D1]], (Hback _ _ H2) as [[_ ?]|[_ D2]]; try done. by apply (Pu j1 j2 d1 d2).
  - intros i d Hd Hu Hii. destruct (Hback _ _ Hd) as [[_ ?]|[Hne Hd']]; [done|]. destruct (Pa i d Hd' Hu Hii) as (q & e & E1 & E2 & E3 & E4).
    destruct (Hfwd q e E3 E4) as [_ ?]. exists q, e. rewrite Hpar, list_lookup_insert_ne; done.
  - intros i d Ha Hd Hs. destruct (Hback _ _ Hd) as [[_ ?]|[Hne Hd']]; [congruence|]. destruct (Wa i d Ha Hd' Hs) as [W1 W2]. split; [done|].
    intros q z Hq Hzz. destruct (Hback _ _ Hzz) as [[_ ->]|[Hqi Hz']]; [done|]. rewrite Hpar, list_lookup_insert_ne in Hq by done. by eapply W2.
  - intros i b d Hb Hd Hne. destruct (Hback _ _ Hd) as [[-> ?]|[_ Hd']]; [|by eapply Ac]. by destruct (live_not _ (Ac j b c Hb Hj Hne)).
Qed.
End invariant.

(** ** Properties *)
Section properties.
Context `{HL : Linker} `{HE : Entries} {FS : Type} `{HFS : Fs FS}.
Notation kernel := (kernel (FS := FS)).
Notation sys := (sys (FS := FS)).
Implicit Types (s : sys) (k : kernel).

Lemma act_same s i a k : act s !! i = Some a -> mkSys k (<[i := a]> (act s)) = mkSys k (act s).
Proof. intros Ha. by rewrite list_insert_id. Qed.

Lemma updt_Ok i g k c : ptab k !! i = Some c -> updt i g k = Ok (tt, sett (<[i := g c]> (ptab k)) k).
Proof.
  intros Hc. unfold updt, gett, set_ptab, modify, mbind, M_bind, get. rewrite Hc. unfold mret, M_ret, sett. by rewrite (alter_lookup _ _ _ c).
Qed.

Lemma ok_wait s k i c r : table_ok s -> ptab (kern s) !! i = Some c -> state c = RUNNING -> wait_section i (kern s) = Ok (r, k) ->
  table_ok (mkSys k (if r is WSleep then <[i := InWait]> (act s) else act s)).
Proof.
  intros Hok Hc Hrun E. destruct (wait_spec i (kern s) (proj1 (proj2 (to_len s Hok))) _ _ E) as (Hn & Hini & HP). destruct r as [v|].
  - destruct HP as [(j & z & P1 & P2 & P3 & _ & P5 & P6)|(_ & -> & _)]; [by eapply ok_reaped|]. by destruct s.
  - destruct HP as (c' & Hc' & Ht & Hpar & _ & Hz). rewrite Hc in Hc'. injection Hc' as <-.
    apply (ok_update s k i c (set_state SLEEPING (set_chan (Some (ChProc i)) c)) InWait Hok Hc); try done; [right; by right|by left].
Qed.

(** Only the killed flags change. *)
Lemma ok_flags s k : table_ok s -> length (ptab k) = length (ptab (kern s)) ->
  (forall i c', ptab k !! i = Some c' -> exists c, ptab (kern s) !! i = Some c /\ state c' = state c /\ pid c' = pid c /\ chan c' = chan c) ->
  parents k = parents (kern s) -> nextpid k = nextpid (kern s) -> initproc k = initproc (kern s) -> table_ok (mkSys k (act s)).
Proof.
  intros [(L1 & L2 & L3) (ini & ci & I1 & I2 & I3) Em Pd Pu Pa Wa Ac] Hlen Hback Hpar Hn Hini.
  assert (forall i c, ptab (kern s) !! i = Some c -> exists c', ptab k !! i = Some c' /\ state c' = state c) as Hfwd.
  { intros i c Hc. destruct (lookup_lt_is_Some_2 (ptab k) i) as [c' Hc']; [rewrite Hlen; by eapply lookup_lt_Some|].
    destruct (Hback i c' Hc') as (c0 & H0 & H1 & _). exists c'. split; [done|]. congruence. }
  split; cbn [kern act]; rewrite ?Hpar, ?Hn, ?Hini.
  - by rewrite Hlen.
  - destruct (Hfwd _ _ I2) as (c' & ? & Hs). exists ini, c'. split_and!; try done. unfold live. by rewrite Hs.
  - intros i c' Hc'. destruct (Hback _ _ Hc') as (c & Hc & -> & _). by eapply Em.
  - intros i c' Hc' Hu. destruct (Hback _ _ Hc') as (c & Hc & Hs & -> & _). apply (Pd i c Hc). unfold used in *. congruence.
  - intros i j c' d' Hc' Hd' U1 U2. destruct (Hback _ _ Hc') as (c & Hc & Hs & -> & _), (Hback _ _ Hd') as (d & Hd & Hs2 & -> & _).
    apply (Pu i j c d); unfold used in *; congruence.
  - intros i c' Hc' Hu Hii. destruct (Hback _ _ Hc') as (c & Hc & Hs & _). destruct (Pa i c Hc) as (j & d & E1 & E2 & E3 & E4); [unfold used in *; congruence|done|].
    destruct (Hfwd _ _ E3) as (d' & ? & Hs'). exists j, d'. split_and!; try done. unfold live. by rewrite Hs'.
  - intros i c' Ha Hc' Hs. destruct (Hback _ _ Hc') as (c & Hc & Hs' & _ & ->). destruct (Wa i c Ha Hc) as [W1 W2]; [congruence|]. split; [done|].
    intros j z' Hj Hz'. destruct (Hback _ _ Hz') as (z & Hz & -> & _). by eapply W2.
  - intros i a c' Ha Hc' Hne. destruct (Hback _ _ Hc') as (c & Hc & Hs & _). unfold live. rewrite Hs. by eapply Ac.
Qed.

Lemma ok_killed s j d : table_ok s -> ptab (kern s) !! j = Some d ->
  table_ok (mkSys (sett (<[j := let q := set_killed true d in if bool_decide (state d = SLEEPING) then set_state RUNNABLE q else q]> (ptab (kern s))) (kern s)) (act s)).
Proof.
  intros Hok Hd. pose proof (lookup_lt_Some _ _ _ Hd) as Hlt. case_bool_decide as Hs.
  - destruct (to_len s Hok) as (L1 & _ & L3). destruct (lookup_lt_is_Some_2 (act s) j) as [a Ha]; [lia|]. rewrite <-(act_same s j a _ Ha).
    apply (ok_update s _ j d (set_state RUNNABLE (set_killed true d)) a Hok Hd); try done; [by left|right; by left].
  - apply ok_flags; try done; [by cbn; rewrite length_insert|]. intros i c' Hc'. cbn in Hc'.
    apply list_lookup_insert_Some in Hc' as [(<- & <- & _)|[_ Hc']]; [by exists d|by exists c'].
Qed.

Lemma ok_tidy s k i c a : table_ok s -> ptab (kern s) !! i = Some c -> state c = RUNNING -> tidy_up i (kern s) = Ok (tt, k) ->
  table_ok (mkSys k (<[i := a]> (act s))) /\ ptab k !! i = Some (set_chan None c).
Proof.
  intros Hok Hc Hrun E. unfold tidy_up in E. rewrite (updt_Ok _ _ _ c) in E by done. injection E as <-. split.
  - apply (ok_update s _ i c (set_chan None c) a Hok Hc); try done; [right; by right|right; by right|]. cbn. congruence.
  - apply list_lookup_insert_eq. by eapply lookup_lt_Some.
Qed.

Lemma ok_step s s' : table_ok s -> step s s' -> table_ok s'.
Proof.
  intros Hok Hst. destruct Hst as [s i k E|s i a k [(c & Hc & Hrun) Ha] E|s i r k [(c & Hc & Hrun) Ha] E|s i n r k [(c & Hc & Hrun) Ha] E|s i w [(c & Hc & Hrun) Ha] E|s i k [(c & Hc & Hrun) Ha] E|s i n r k [(c & Hc & Hrun) Ha] E|
    s i ch k [(c & Hc & Hrun) Ha] Hch E|s i ch k [(c & Hc & Hrun) Ha] Hch E|s i k [(c & Hc & Hrun) Ha] E|s i r k [(c & Hc & Hrun) Ha] E|s i k [(c & Hc & Hrun) Ha] E|
    s i r k [(c & Hc & Hrun) Ha] E|s i k [(c & Hc & Hrun) Ha] E].
  - assert (wlp (schedule i) (kern s) (fun _ k => exists c, ptab (kern s) !! i = Some c /\ state c = RUNNABLE /\ ptab k = <[i := set_state RUNNING c]> (ptab (kern s)) /\
      parents k = parents (kern s) /\ nextpid k = nextpid (kern s) /\ initproc k = initproc (kern s))) as Hs.
    { unfold schedule. wlp_step. apply wlp_gett. intros c Hc. wlp_step; [|by wlp_step]. wlp_step. apply wlp_ww_getp. intros p _ _. wlp_step.
      apply wlp_ww; [unfold switchuvm; kp|]. intros [] w Ew. apply wlp_updt. intros c' Hc'. cbn in Hc'. rewrite Hc in Hc'. injection Hc' as <-.
      exists c. split_and!; try done. by eapply bool_decide_eq_true. }
    destruct (Hs _ _ E) as (c & Hc & Hr & Ht & Hp & Hn & Hi). pose proof (lookup_lt_Some _ _ _ Hc) as Hlt. destruct (to_len s Hok) as (L1 & _ & L3).
    destruct (lookup_lt_is_Some_2 (act s) i) as [a Ha]; [lia|]. rewrite <-(act_same s i a k Ha).
    apply (ok_update s k i c (set_state RUNNING c) a Hok Hc); try done; [right; by left|right; by right].
  - unfold yield in E. rewrite (updt_Ok _ _ _ c) in E by done. injection E as <-. rewrite <-(act_same s i a _ Ha). apply (ok_update s _ i c (set_state RUNNABLE c) a Hok Hc); try done; [right; by right|right; by left].
  - eapply ok_forked; [done..|]. by apply (fork_spec i (kern s)).
  - assert (wlp (growproc i n) (kern s) (fun _ k => exists c', ptab k = <[i := c']> (ptab (kern s)) /\ state c' = state c /\ pid c' = pid c /\
      parents k = parents (kern s) /\ nextpid k = nextpid (kern s) /\ initproc k = initproc (kern s))) as Hg.
    { unfold growproc. wlp_step. apply wlp_ww_getp. intros p _ _. wlp_step. apply wlp_gett. intros c0 Hc0. rewrite Hc in Hc0. injection Hc0 as <-. wlp_step.
      apply (wlp_mono _ _ (fun _ k => exists w, k = setw w (kern s) /\ wparents w = parents (kern s))).
      { wlp_step; [wlp_step|wlp_step; [wlp_step|]]; try (apply wlp_ww; [kp|]; intros a w Ew; wlp_step; by exists w). wlp_step. exists (wld (kern s)). by destruct (kern s). }
      intros [v|] k1 (w & -> & Ew); [|wlp_step; exists c; rewrite list_insert_id by done; done]. wlp_step. apply wlp_updt. intros c1 Hc1. cbn in Hc1. rewrite Hc in Hc1. injection Hc1 as <-.
      wlp_step. apply wlp_ww; [unfold switchuvm; kp|]. intros [] w2 Ew2. wlp_step. exists (set_sz v c). split_and!; try done. unfold parents in *. cbn in *. congruence. }
    destruct (Hg _ _ E) as (c' & Ht & Hs & Hp & Hpar & Hn & Hi). rewrite <-(act_same s i InUser k Ha).
    apply (ok_update s k i c c' InUser Hok Hc); try done; [right; by right|right; right; congruence].
  - apply ok_wakes; try done. apply wakes_refl.
  - by eapply ok_exit.
  - unfold kill in E. rewrite (bind_Ok _ _ _ (kern s) (kern s)) in E by done. destruct (list_find _ _) as [[j d]|] eqn:Ef; [|injection E as <- <-; by destruct s].
    apply list_find_Some in Ef as (Hd & _ & _). rewrite (bind_Ok _ _ _ _ _ (updt_Ok _ _ _ d Hd)) in E. injection E as <- <-.
    by apply ok_killed.
  - unfold wakeup in E. injection E as <-. apply ok_wakes; try done. apply wakeup1_wakes.
  - unfold sleep in E. rewrite (updt_Ok _ _ _ c) in E by done. injection E as <-. apply (ok_update s _ i c (set_state SLEEPING (set_chan (Some ch) c)) InSleep Hok Hc); try done; [right; by right|by left].
  - by apply (ok_tidy s k i c InUser Hok Hc Hrun E).
  - apply (ok_wait s k i c (WRet r) Hok Hc Hrun E).
  - apply (ok_wait s k i c WSleep Hok Hc Hrun E).
  - apply bind_Ok_inv in E as ([] & k1 & E1 & E2). destruct (ok_tidy s k1 i c InUser Hok Hc Hrun E1) as [Hok1 Hc1].
    apply (ok_wait (mkSys k1 (<[i := InUser]> (act s))) k i _ (WRet r) Hok1 Hc1 Hrun E2).
  - apply bind_Ok_inv in E as ([] & k1 & E1 & E2). destruct (ok_tidy s k1 i c InWait Hok Hc Hrun E1) as [Hok1 Hc1].
    pose proof (ok_wait (mkSys k1 (<[i := InWait]> (act s))) k i _ WSleep Hok1 Hc1 Hrun E2) as Hf. cbn in Hf. rewrite list_insert_insert_eq, list_insert_id in Hf; done.
Qed.

Definition free_slot : pcb := mkPcb UNUSED 0 0 None false 0 None.
(** The table once userinit has made the first process. *)
Record first_process (s : sys) : Prop := {
  fp_tab : exists c, ptab (kern s) = c :: replicate 63 free_slot /\ state c = RUNNABLE /\ pid c = 1;
  fp_next : nextpid (kern s) = 2;
  fp_init : initproc (kern s) = Some 0%nat;
  fp_len : length (parents (kern s)) = NPROC;
  fp_act : act s = replicate NPROC InUser
}.

(** C32: the process table stays sound.  From the first process on, whatever
    the processes do - fork, exit, wait, kill, sleep, wake up, yield, in any
    order and with any failure of an allocation - init stays alive, identifiers
    are positive and not shared, every process but init has a living parent
    other than itself, and no wakeup of wait is lost: a process sleeps in wait
    only while no child of its has exited. *)
Theorem process_table_sound s0 s : first_process s0 -> rtc step s0 s -> table_ok s.
Proof.
  intros [(c & Ht & Hst & Hp) Hn Hi Hl Ha] Hr. assert (table_ok s0) as Hok.
  { assert (forall i d, ptab (kern s0) !! i = Some d -> (i = 0%nat /\ d = c) \/ state d = UNUSED) as Hd.
    { intros i d Hd. rewrite Ht in Hd. apply lookup_cons_Some in Hd as [[-> <-]|[_ Hd]]; [by left|right]. by apply lookup_replicate in Hd as [-> _]. }
    split.
    - rewrite Ht, Ha, length_cons, !length_replicate. done.
    - exists 0%nat, c. rewrite Ht. split_and!; try done. right; by left.
    - intros i d Hid. destruct (Hd i d Hid) as [[_ ->]|E]; congruence.
    - intros i d Hid Hu. destruct (Hd i d Hid) as [[_ ->]|E]; [lia|done].
    - intros i j d e Hid Hje U1 U2 _. destruct (Hd i d Hid) as [[-> _]|E1], (Hd j e Hje) as [[-> _]|E2]; done.
    - intros i d Hid Hu Hni. destruct (Hd i d Hid) as [[-> _]|E1]; [congruence|done].
    - intros i d Hai. rewrite Ha in Hai. by apply lookup_replicate in Hai as [? _].
    - intros i a d Hai. rewrite Ha in Hai. by apply lookup_replicate in Hai as [-> _]. }
  clear -Hok Hr. induction Hr as [s|s s1 s2 Hs _ IH]; [done|]. apply IH. by eapply ok_step.
Qed.
End properties.

(** ** What the code gets wrong *)
Section findings.
Context `{HL : Linker} `{HE : Entries} {FS : Type} `{HFS : Fs FS}.
Notation kernel := (kernel (FS := FS)).
Notation sys := (sys (FS := FS)).

Lemma allocproc_keeps_killed (k : kernel) : wlp allocproc k (fun o k' => match o with
  | Some i => exists j p0 p, list_find (fun c => state c = UNUSED) (ptab k) = Some (j, p0) /\ i = j /\ ptab k' !! i = Some p /\ killed p = killed p0
  | None => True end).
Proof.
  unfold allocproc. wlp_step. wlp_step. destruct (list_find _ (ptab k)) as [[i p0]|] eqn:E; [|by wlp_step].
  pose proof E as (Hp0 & _ & _)%list_find_Some. pose proof (lookup_lt_Some _ _ _ Hp0) as Hlt.
  wlp_step. apply wlp_lift. intros n _. wlp_step. apply wlp_updt. intros p Hp. rewrite Hp0 in Hp. injection Hp as <-. wlp_step. wlp_step.
  wlp_step. apply wlp_ww; [kp|]. intros a w1 _. wlp_step. apply wlp_ww; [kp|]. intros [] w2 _. wlp_step.
  - wlp_step. apply wlp_updt. intros p _. by wlp_step.
  - wlp_step. apply wlp_updt. intros p Hp. cbn in Hp. rewrite list_lookup_insert_eq in Hp by done. injection Hp as <-.
    wlp_step. apply wlp_ww; [kp|]. intros [] w3 _. wlp_step. apply wlp_ww; [kp|]. intros [] w4 _. wlp_step.
    exists i, p0, (set_tf (a + KSTACKSIZE - TRAPFRAME) (set_pid (nextpid k) (set_state EMBRYO p0))). split; [done|]. split; [done|]. split; [cbn; rewrite list_insert_insert_eq; by apply list_lookup_insert_eq|done].
Qed.

(** kill(0) succeeds: it marks the free slot that the next process gets, and
    that process is born killed. *)
Lemma kill_zero_poisons (s : sys) : first_process s -> exists k, kill 0 (kern s) = Ok (0, k) /\
  forall i k', allocproc k = Ok (Some i, k') -> exists p, ptab k' !! i = Some p /\ killed p = true.
Proof.
  intros [(c & Ht & Hst & Hp) _ _ _ _]. assert (list_find (fun p => pid p = 0) (ptab (kern s)) = Some (1%nat, free_slot)) as Hf.
  { rewrite Ht. cbn [list_find]. rewrite decide_False by lia. reflexivity. }
  pose proof Hf as (H1 & _ & _)%list_find_Some. eexists. split.
  { unfold kill. rewrite (bind_Ok _ _ _ (kern s) (kern s)) by done. rewrite Hf. rewrite (bind_Ok _ _ _ _ _ (updt_Ok _ _ _ _ H1)). reflexivity. }
  intros i k' E. destruct (allocproc_keeps_killed _ _ _ E) as (j & p0 & p & Hj & -> & Hpk & Hkill). exists p. split; [done|]. rewrite Hkill.
  cbn [ptab sett] in Hj. rewrite Ht in Hj. cbn in Hj. rewrite decide_False in Hj by congruence. cbn in Hj. by injection Hj as <- <-.
Qed.

(** When copy_maps fails, fork gives the slot back with its parent still set:
    a parent without any child then sleeps in wait, where it should get -1. *)
Lemma failed_fork_strands_parent me i (k k' : kernel) v r w : copy_maps me i (wld k) = Ok (v, w) -> v < 0 -> parents k !! i = Some (Some me) ->
  fork_maps me i k = Ok (r, k') -> r = -1 /\ (exists p, ptab k' !! i = Some p /\ state p = UNUSED) /\
  (length (parents k) = NPROC -> (forall c, ptab k' !! me = Some c -> killed c = false) ->
   (forall j, parents k !! j = Some (Some me) -> j = i) -> wlp (wait_section me) k' (fun n _ => n = WSleep)).
Proof.
  intros Hcm Hv Hpi E. assert (wlp (fork_maps me i) k (fun r k' => r = -1 /\ (exists p, ptab k' !! i = Some p /\ state p = UNUSED) /\ parents k' = parents k)) as Hw.
  { unfold fork_maps. wlp_step. apply wlp_with_world. intros a w' Ea. rewrite Hcm in Ea. injection Ea as <- <-.
    pose proof (kp_copy_maps me i _ _ _ Hcm) as Hp. cbn in Hp. rewrite (proj2 (Z.ltb_lt _ _)) by done.
    wlp_step. eapply wlp_mono; [apply drop_stack_spec|]. intros [] k2 (T1 & T2 & T3 & T4). wlp_step. apply wlp_ww_getp. intros q _ _. wlp_step. apply wlp_ww; [kp|]. intros [] w9 E9.
    wlp_step. apply wlp_updt. intros q2 Hq2. wlp_step. split; [done|]. split.
    - eexists. split; [apply list_lookup_insert_eq; by eapply lookup_lt_Some|done].
    - unfold parents in *. cbn in *. congruence. }
  destruct (Hw _ _ E) as (-> & (p & Hp & Hs) & Hpar). split; [done|]. split; [by exists p|]. intros Hlen Hk Honly.
  eapply wlp_mono; [apply wait_spec; by rewrite Hpar|]. intros [n|] k3 (_ & _ & HP); [|done]. exfalso.
  destruct HP as [(j & c & J1 & J2 & J3 & _)|(_ & _ & [(c & C1 & C2)|Hno])].
  - rewrite Hpar in J1. apply (Honly j) in J1 as ->. congruence.
  - rewrite (Hk c C1) in C2. done.
  - apply (Hno i). by rewrite Hpar.
Qed.
End findings.

(** ** Examples *)
#[local] Instance ex_entries : Entries := {| trapret := 0x80105000; forkret_entry := 0x80103000 |}.
#[local] Existing Instance Kalloc.example_linker.
#[local] Existing Instance Wmap.ex_fs.
Definition ex_world : world (FS := unit) := mkWorld (mkKmem ∅ true 0) (mkFstate [] tt) (replicate NPROC (mkProc 1 1 None [] [] None 0)).
Definition ex_first : sys (FS := unit) :=
  mkSys (mkKernel ex_world (mkPcb RUNNABLE 1 0 None false 4096 (Some 1) :: replicate 63 free_slot) 2 (Some 0%nat)) (replicate NPROC InUser).

Definition ok_state {S A} (d : S) (r : result (A * S)) : S := if r is Ok (_, s) then s else d.
Definition ex_ran : sys (FS := unit) := mkSys (ok_state (kern ex_first) (schedule 0 (kern ex_first))) (act ex_first).
Definition ex_forked : sys (FS := unit) := mkSys (ok_state (kern ex_first) (fork 0 (kern ex_ran))) (act ex_first).
Definition ex_slept : sys (FS := unit) := mkSys (ok_state (kern ex_first) (sleep 0 (ChAddr 5) (kern ex_forked))) (<[0%nat := InSleep]> (act ex_first)).

(** The first process runs, fails to fork for want of memory, and sleeps. *)
Lemma process_table_sound_witness : rtc step ex_first ex_slept /\ table_ok ex_slept.
Proof.
  assert (first_process ex_first) as Hf by (split; [eexists; split; [reflexivity|split; reflexivity]|reflexivity..]).
  assert (rtc step ex_first ex_slept) as Hr; [|split; [exact Hr|exact (process_table_sound _ _ Hf Hr)]].
  eapply rtc_l; [apply (step_schedule ex_first 0 (kern ex_ran)); vm_compute; reflexivity|].
  eapply rtc_l; [apply (step_fork ex_ran 0 (-1) (kern ex_forked)); [split; [eexists; split; vm_compute; reflexivity|reflexivity]|vm_compute; reflexivity]|].
  eapply rtc_l; [apply (step_sleep ex_forked 0 (ChAddr 5) (kern ex_slept)); [split; [eexists; split; vm_compute; reflexivity|reflexivity]|intros j; congruence|vm_compute; reflexivity]|].
  apply rtc_refl.
Defined.
