(* ===== verification/Pipe.v ===== *)
(** * Pipes, xv6 wmap/solution/pipe.c

    A pipe is a ring of 512 bytes between two counters.  pipewrite and piperead
    give up the lock only to sleep, so each runs in sections: from acquiring the
    lock or waking up to sleeping or returning.  Writers and readers run their
    sections in any order; a wakeup makes every sleeper of its channel runnable,
    and so does killing a process. *)
From S2P Require Import Prelude Kalloc Vm File Wmap.

Definition PIPESIZE : Z := 512.

Record pipe : Type := mkPipe { data : list Z; nread : Z; nwrite : Z; readopen : bool; writeopen : bool }.

Definition push (b : Z) (p : pipe) : pipe :=
  mkPipe (<[Z.to_nat (nwrite p mod PIPESIZE) := b]> (data p)) (nread p) (u32 (nwrite p + 1)) (readopen p) (writeopen p).
Definition pop (p : pipe) : pipe := mkPipe (data p) (u32 (nread p + 1)) (nwrite p) (readopen p) (writeopen p).

Definition is_full (p : pipe) : bool := nwrite p =? u32 (nread p + PIPESIZE).
Definition is_empty (p : pipe) : bool := nread p =? nwrite p.

(** ** The sections *)

(** pipewrite with the bytes [bs] of [n] left: sleep, after waking the readers;
    return -1 with bytes left, waking nobody; or return [n] after waking the readers. *)
Inductive write_next : Type := WSleep (rest : list Z) | WFail (rest : list Z) | WRet (n : Z).

Fixpoint write_section (bs : list Z) (n : Z) (killed : bool) : M pipe write_next :=
  match bs with
  | [] => mret (WRet n)
  | b :: bs' =>
      p ← get;
      if is_full p then
        if negb (readopen p) || killed then mret (WFail bs) else mret (WSleep bs)
      else
      _ ← (if decide (Z.to_nat (nwrite p mod PIPESIZE) < length (data p))%nat then put (push b p) else fail Undefined);
      write_section bs' n killed
  end.

(** piperead: sleep, return -1, or return the bytes read after waking the writers. *)
Inductive read_next : Type := RSleep | RFail | RRet (bs : list Z).

Fixpoint copy_out (n : nat) : M pipe (list Z) :=
  match n with
  | O => mret []
  | S n' =>
      p ← get;
      if is_empty p then mret [] else
      match data p !! Z.to_nat (nread p mod PIPESIZE) with
      | Some b => _ ← put (pop p); bs ← copy_out n'; mret (b :: bs)
      | None => fail Undefined
      end
  end.

Definition read_section (n : Z) (killed : bool) : M pipe read_next :=
  p ← get;
  if is_empty p && writeopen p then if killed then mret RFail else mret RSleep
  else bs ← copy_out (Z.to_nat n); mret (RRet bs).

(** pipeclose wakes the other side and tells whether the pipe is freed. *)
Definition pipeclose (writable : bool) : M pipe bool :=
  _ ← modify (fun p => if writable then mkPipe (data p) (nread p) (nwrite p) (readopen p) false
                       else mkPipe (data p) (nread p) (nwrite p) false (writeopen p));
  p ← get;
  mret (negb (readopen p) && negb (writeopen p)).

(** ** Processes on a pipe

    A writer is outside pipewrite, inside it with a result [n] and the bytes
    [rest] to come, asleep in it, or has closed the pipe; a reader likewise.
    [asked] are the bytes of a writer's calls, less what failed calls left. *)
Inductive wstate : Type := WIdle | WIn (n : Z) (rest : list Z) | WAsleep (n : Z) (rest : list Z) | WClosed.
Inductive rstate : Type := RIdle | RIn (n : Z) | RAsleep (n : Z) | RClosed.

Record writer : Type := mkWriter { wst : wstate; wkilled : bool; asked : list Z }.
Record reader : Type := mkReader { rst : rstate; rkilled : bool }.

Record sys : Type := mkSys {
  pip : option pipe;             (** None: freed *)
  writers : list writer;
  readers : list reader;
  sent : list (nat * Z);         (** the bytes put in the pipe, with the writer *)
  received : list (nat * Z)      (** the bytes taken from it, with the reader *)
}.

Definition wake_w (w : writer) : writer := match wst w with WAsleep n l => mkWriter (WIn n l) (wkilled w) (asked w) | _ => w end.
Definition wake_r (r : reader) : reader := match rst r with RAsleep n => mkReader (RIn n) (rkilled r) | _ => r end.

Inductive event : Type :=
  | EWrite (i : nat) (bs : list Z) | ERead (j : nat) (n : Z)     (** calls *)
  | ERunW (i : nat) | ERunR (j : nat)                            (** a section *)
  | EKillW (i : nat) | EKillR (j : nat)
  | ECloseW (i : nat) | ECloseR (j : nat).

(** The last process that closes its end closes that end of the pipe. *)
Definition w_closed (w : writer) : bool := match wst w with WClosed => true | _ => false end.
Definition r_closed (r : reader) : bool := match rst r with RClosed => true | _ => false end.

Definition run_writer (i : nat) (w : writer) (n : Z) (rest : list Z) (p : pipe) (s : sys) : result sys :=
  '(r, p') ← write_section rest n (wkilled w) p;
  let left := match r with WSleep l | WFail l => l | WRet _ => [] end in
  let sent' := sent s ++ (pair i <$> take (length rest - length left) rest) in
  let w' := match r with
            | WSleep l => mkWriter (WAsleep n l) (wkilled w) (asked w)
            | WRet _ => mkWriter WIdle (wkilled w) (asked w)
            | WFail _ => mkWriter WIdle (wkilled w) (take (length (asked w) - length left) (asked w))
            end in
  let rs := match r with WFail _ => readers s | _ => wake_r <$> readers s end in
  Ok (mkSys (Some p') (<[i := w']> (writers s)) rs sent' (received s)).

Definition run_reader (j : nat) (r : reader) (n : Z) (p : pipe) (s : sys) : result sys :=
  '(x, p') ← read_section n (rkilled r) p;
  let st := match x with RSleep => RAsleep n | _ => RIdle end in
  let ws := match x with RRet _ => wake_w <$> writers s | _ => writers s end in
  let got := match x with RRet bs => bs | _ => [] end in
  Ok (mkSys (Some p') ws (<[j := mkReader st (rkilled r)]> (readers s)) (sent s) (received s ++ (pair j <$> got))).

Definition close_end (writable : bool) (s : sys) : result sys :=
  match pip s with
  | None => Err Undefined
  | Some p =>
      '(freed, p') ← pipeclose writable p;
      Ok (mkSys (if freed : bool then None else Some p') (if writable then writers s else wake_w <$> writers s)
            (if writable then wake_r <$> readers s else readers s) (sent s) (received s))
  end.

(** [None]: the event cannot happen now. *)
Definition exec (e : event) (s : sys) : option (result sys) :=
  let set_w i w := mkSys (pip s) (<[i := w]> (writers s)) (readers s) (sent s) (received s) in
  let set_r j r := mkSys (pip s) (writers s) (<[j := r]> (readers s)) (sent s) (received s) in
  match e with
  | EWrite i bs => w ← writers s !! i;
      match wst w with WIdle => Some (Ok (set_w i (mkWriter (WIn (Z.of_nat (length bs)) bs) (wkilled w) (asked w ++ bs)))) | _ => None end
  | ERead j n => r ← readers s !! j;
      match rst r with RIdle => Some (Ok (set_r j (mkReader (RIn n) (rkilled r)))) | _ => None end
  | ERunW i => w ← writers s !! i;
      match wst w with
      | WIn n rest => Some (match pip s with Some p => run_writer i w n rest p s | None => Err Undefined end)
      | _ => None
      end
  | ERunR j => r ← readers s !! j;
      match rst r with
      | RIn n => Some (match pip s with Some p => run_reader j r n p s | None => Err Undefined end)
      | _ => None
      end
  | EKillW i => w ← writers s !! i; Some (Ok (set_w i (wake_w (mkWriter (wst w) true (asked w)))))
  | EKillR j => r ← readers s !! j; Some (Ok (set_r j (wake_r (mkReader (rst r) true))))
  | ECloseW i => w ← writers s !! i;
      match wst w with
      | WIdle => let s' := set_w i (mkWriter WClosed (wkilled w) (asked w)) in
                 Some (if forallb w_closed (writers s') then close_end true s' else Ok s')
      | _ => None
      end
  | ECloseR j => r ← readers s !! j;
      match rst r with
      | RIdle => let s' := set_r j (mkReader RClosed (rkilled r)) in
                 Some (if forallb r_closed (readers s') then close_end false s' else Ok s')
      | _ => None
      end
  end.

Definition step (s s' : sys) : Prop := exists e, exec e s = Some (Ok s').

Definition new_pipe (l : list Z) : pipe := mkPipe l 0 0 true true.
Definition start (l : list Z) (nw nr : nat) : sys :=
  mkSys (Some (new_pipe l)) (replicate nw (mkWriter WIdle false [])) (replicate nr (mkReader RIdle false)) [] [].

(** ** The ring *)
Record ring (p : pipe) (q : list Z) : Prop := {
  r_len : length (data p) = Z.to_nat PIPESIZE;
  r_cap : Z.of_nat (length q) <= PIPESIZE;
  r_nread : 0 <= nread p < UINT_MOD;
  r_nwrite : nwrite p = u32 (nread p + Z.of_nat (length q));
  r_data : forall i b, q !! i = Some b -> data p !! Z.to_nat ((nread p + Z.of_nat i) mod PIPESIZE) = Some b
}.

(** A counter modulo 2^32 modulo 512. *)
Lemma u32_slot z : u32 z mod PIPESIZE = z mod PIPESIZE.
Proof. unfold u32, UINT_MOD, PIPESIZE. zlia. Qed.

Lemma ring_full p q : ring p q -> is_full p = (Z.of_nat (length q) =? PIPESIZE).
Proof.
  intros [_ Hc Hn Hw _]. unfold is_full. rewrite Hw. unfold u32, UINT_MOD, PIPESIZE in *.
  destruct (Z.eqb_spec (Z.of_nat (length q)) 512); [apply Z.eqb_eq; zlia|apply Z.eqb_neq; zlia].
Qed.

Lemma ring_empty p q : ring p q -> is_empty p = bool_decide (q = []).
Proof.
  intros [_ Hc Hn Hw _]. unfold is_empty. rewrite Hw. unfold u32, UINT_MOD, PIPESIZE in *. destruct q as [|b q]; case_bool_decide; try done.
  - apply Z.eqb_eq. cbn. zlia.
  - apply Z.eqb_neq. cbn [length] in *. zlia.
Qed.

Lemma slot_lt p q z : ring p q -> (Z.to_nat (z mod PIPESIZE) < length (data p))%nat.
Proof. intros Hr. rewrite (r_len p q Hr). unfold PIPESIZE. zlia. Qed.

Lemma ring_push p q b : ring p q -> Z.of_nat (length q) < PIPESIZE -> ring (push b p) (q ++ [b]).
Proof.
  intros Hr Hlt. pose proof Hr as [Hl Hc Hn Hw Hd]. split; cbn [push data nread nwrite].
  - by rewrite length_insert.
  - rewrite length_app. cbn. lia.
  - done.
  - rewrite Hw, length_app. cbn. unfold u32, UINT_MOD. zlia.
  - intros i c Hi. rewrite Hw, u32_slot. destruct (decide (i < length q)%nat) as [Hi'|Hi'].
    + rewrite lookup_app_l in Hi by done. rewrite list_lookup_insert_ne; [by apply Hd|]. unfold PIPESIZE in *. zlia.
    + rewrite lookup_app_r in Hi by lia. apply list_lookup_singleton_Some in Hi as [Hi <-]. assert (i = length q) as -> by lia.
      apply list_lookup_insert_eq. by eapply slot_lt.
Qed.

Lemma ring_pop p b q : ring p (b :: q) -> data p !! Z.to_nat (nread p mod PIPESIZE) = Some b /\ ring (pop p) q.
Proof.
  intros [Hl Hc Hn Hw Hd]. cbn [length] in *. split.
  - rewrite <-(Hd 0%nat b eq_refl). f_equal. by rewrite Z.add_0_r.
  - split; cbn [pop data nread nwrite]; [done|lia|apply u32_range| |].
    + rewrite Hw. unfold u32, UINT_MOD. zlia.
    + intros i c Hi. rewrite <-(Hd (S i) c Hi). do 2 f_equal. unfold u32, UINT_MOD, PIPESIZE. zlia.
Qed.

Lemma ring_ends p q ro wo : ring p q -> ring (mkPipe (data p) (nread p) (nwrite p) ro wo) q.
Proof. by intros []. Qed.

(** What the sections do. *)
Definition room (q : list Z) : nat := Z.to_nat PIPESIZE - length q.

Definition same_ends (p p' : pipe) : Prop := readopen p' = readopen p /\ writeopen p' = writeopen p.

Lemma write_section_spec bs n killed p q : ring p q -> exists p', ring p' (q ++ take (room q) bs) /\ same_ends p p' /\
  write_section bs n killed p = Ok (if decide (length bs <= room q)%nat then WRet n else
    (if negb (readopen p) || killed then WFail else WSleep) (drop (room q) bs), p').
Proof.
  revert p q. induction bs as [|b bs IH]; intros p q Hr; cbn [write_section].
  - exists p. rewrite take_nil, app_nil_r. rewrite decide_True by (cbn; lia). done.
  - rewrite (bind_Ok _ _ p p p) by done. rewrite (ring_full p q Hr). pose proof (r_cap p q Hr). unfold room, PIPESIZE in *.
    destruct (Z.eqb_spec (Z.of_nat (length q)) 512) as [E|E].
    + exists p. replace (Z.to_nat 512 - length q)%nat with 0%nat by lia. rewrite take_0, drop_0, app_nil_r. rewrite decide_False by (cbn; lia).
      split; [done|]. split; [done|]. by destruct (negb _ || _).
    + rewrite decide_True by (by eapply slot_lt). rewrite (bind_Ok _ _ p tt (push b p)) by done.
      destruct (IH (push b p) (q ++ [b])) as (p' & R & [E1 E2] & W); [apply ring_push; [done|unfold PIPESIZE; lia]|]. exists p'.
      rewrite length_app in *. cbn [length] in *. replace (Z.to_nat 512 - length q)%nat with (S (Z.to_nat 512 - (length q + 1))) by lia. cbn [take drop].
      split; [by rewrite <-app_assoc in R|]. split; [done|]. rewrite W. f_equal. f_equal.
      destruct (decide (length bs <= _)%nat), (decide (S (length bs) <= _)%nat); done || lia.
Qed.

Lemma copy_out_spec n p q : ring p q -> exists p', copy_out n p = Ok (take n q, p') /\ ring p' (drop n q) /\ same_ends p p'.
Proof.
  revert p q. induction n as [|n IH]; intros p q Hr; cbn [copy_out]; [by exists p|].
  rewrite (bind_Ok _ _ p p p) by done. rewrite (ring_empty p q Hr). destruct q as [|b q]; [by exists p|].
  destruct (ring_pop p b q Hr) as [Hb Hr']. rewrite bool_decide_false by done. rewrite Hb. rewrite (bind_Ok _ _ p tt (pop p)) by done.
  destruct (IH _ _ Hr') as (p' & E & R & [E1 E2]). exists p'. rewrite (bind_Ok _ _ _ _ _ E). done.
Qed.

Lemma read_section_spec n killed p q : ring p q -> exists p',
  read_section n killed p = Ok (if decide (q = [] /\ writeopen p = true) then (if killed then RFail else RSleep) else RRet (take (Z.to_nat n) q), p') /\
  ring p' (if decide (q = [] /\ writeopen p = true) then q else drop (Z.to_nat n) q) /\ same_ends p p'.
Proof.
  intros Hr. unfold read_section. rewrite (bind_Ok _ _ p p p) by done. rewrite (ring_empty p q Hr).
  destruct (decide (q = [] /\ writeopen p = true)) as [[-> ->]|Hne].
  - exists p. rewrite bool_decide_true by done. split; [|done]. by destruct killed.
  - replace (bool_decide (q = []) && writeopen p) with false by (case_bool_decide; destruct (writeopen p); cbn; tauto).
    destruct (copy_out_spec (Z.to_nat n) p q Hr) as (p' & E & R). exists p'. by rewrite (bind_Ok _ _ _ _ _ E).
Qed.

(** ** The invariant *)
Definition rest_of (w : writer) : list Z := match wst w with WIn _ l | WAsleep _ l => l | _ => [] end.
Definition w_asleep (w : writer) : bool := match wst w with WAsleep _ _ => true | _ => false end.
Definition r_asleep (r : reader) : bool := match rst r with RAsleep _ => true | _ => false end.

(** The bytes of process [i]. *)
Definition bytes_of (i : nat) (l : list (nat * Z)) : list Z := snd <$> filter (fun x => x.1 = i) l.

Definition all_closed (s : sys) : bool * bool := (forallb w_closed (writers s), forallb r_closed (readers s)).

Record inv (s : sys) (q : list Z) : Prop := {
  i_bytes : (sent s).*2 = (received s).*2 ++ q;
  i_pipe : match pip s with
           | Some p => ring p q /\ all_closed s = (negb (writeopen p), negb (readopen p)) /\ writeopen p || readopen p = true
           | None => all_closed s = (true, true) /\ Z.of_nat (length q) <= PIPESIZE
           end;
  i_who : forall i w, writers s !! i = Some w -> bytes_of i (sent s) ++ rest_of w = asked w;
  i_wsleep : forall i w, writers s !! i = Some w -> w_asleep w = true -> Z.of_nat (length q) = PIPESIZE /\ (all_closed s).2 = false;
  i_rsleep : forall j r, readers s !! j = Some r -> r_asleep r = true ->
    (q = [] /\ (all_closed s).1 = false) \/ exists i w, writers s !! i = Some w /\ wkilled w = true
}.

Lemma bytes_of_app i l1 l2 : bytes_of i (l1 ++ l2) = bytes_of i l1 ++ bytes_of i l2.
Proof. unfold bytes_of. by rewrite filter_app, fmap_app. Qed.
Lemma bytes_of_pair i j l : bytes_of i (pair j <$> l) = if decide (j = i) then l else [].
Proof.
  unfold bytes_of. induction l as [|b l IH]; [by destruct (decide (j = i))|]. rewrite fmap_cons, filter_cons. cbn. destruct (decide (j = i)); [|done].
  cbn. by rewrite IH.
Qed.
Lemma pair_snd (i : nat) (l : list Z) : (pair i <$> l).*2 = l.
Proof. rewrite <-list_fmap_compose. apply list_fmap_id. Qed.

Lemma forallb_insert {A} (f : A -> bool) (l : list A) i x y : l !! i = Some x -> f y = f x -> forallb f (<[i := y]> l) = forallb f l.
Proof.
  revert i. induction l as [|z l IH]; intros [|i] Hx Hf; cbn in Hx; try done.
  - injection Hx as ->. change (<[0%nat := y]> (x :: l)) with (y :: l). cbn. by rewrite Hf.
  - change (<[S i := y]> (z :: l)) with (z :: <[i := y]> l). cbn. by rewrite (IH i).
Qed.
Lemma forallb_fmap {A} (f : A -> bool) (g : A -> A) (l : list A) : (forall x, f (g x) = f x) -> forallb f (g <$> l) = forallb f l.
Proof. intros Hf. induction l as [|z l IH]; [done|]. cbn. by rewrite Hf, IH. Qed.
Lemma forallb_false {A} (f : A -> bool) (l : list A) i x : l !! i = Some x -> f x = false -> forallb f l = false.
Proof.
  intros Hx Hf. destruct (forallb f l) eqn:E; [|done]. rewrite forallb_forall in E. rewrite (E x) in Hf; [done|].
  apply base.list_elem_of_In. by eapply list_elem_of_lookup_2.
Qed.

Lemma wake_w_closed w : w_closed (wake_w w) = w_closed w.
Proof. unfold w_closed, wake_w. by destruct (wst w) eqn:E; cbn; rewrite ?E. Qed.
Lemma wake_r_closed r : r_closed (wake_r r) = r_closed r.
Proof. unfold r_closed, wake_r. by destruct (rst r) eqn:E; cbn; rewrite ?E. Qed.
Lemma wake_w_facts w : rest_of (wake_w w) = rest_of w /\ asked (wake_w w) = asked w /\ wkilled (wake_w w) = wkilled w /\ w_asleep (wake_w w) = false.
Proof. unfold rest_of, w_asleep, wake_w. by destruct (wst w) eqn:E; cbn; rewrite ?E. Qed.
Lemma wake_r_awake r : r_asleep (wake_r r) = false.
Proof. unfold r_asleep, wake_r. by destruct (rst r) eqn:E; cbn; rewrite ?E. Qed.
#[local] Hint Rewrite wake_w_closed wake_r_closed wake_r_awake : lists.

(** The list of writers or readers changes at one place, or all wake up. *)
Lemma insert_cases {A} (l : list A) i x j y : <[i := x]> l !! j = Some y -> (j = i /\ y = x) \/ (j <> i /\ l !! j = Some y).
Proof. intros [(-> & -> & _)|[Hne Hy]]%list_lookup_insert_Some; auto. Qed.

Lemma killed_insert (l : list writer) i w w' : l !! i = Some w -> (wkilled w = true -> wkilled w' = true) ->
  (exists j v, l !! j = Some v /\ wkilled v = true) -> exists j v, <[i := w']> l !! j = Some v /\ wkilled v = true.
Proof.
  intros Hi Hk (j & v & Hj & Hv). destruct (decide (j = i)) as [->|Hne].
  - exists i, w'. rewrite list_lookup_insert_eq by (by eapply lookup_lt_Some). split; [done|]. apply Hk. congruence.
  - exists j, v. by rewrite list_lookup_insert_ne.
Qed.
Lemma killed_wake (l : list writer) : (exists j v, l !! j = Some v /\ wkilled v = true) -> exists j v, (wake_w <$> l) !! j = Some v /\ wkilled v = true.
Proof. intros (j & v & Hj & Hv). exists j, (wake_w v). rewrite list_lookup_fmap, Hj. split; [done|]. by destruct (wake_w_facts v) as (_ & _ & -> & _). Qed.

Lemma take_but_drop {A} (b l : list A) n : take (length (b ++ l) - length (drop n l)) (b ++ l) = b ++ take n l.
Proof.
  rewrite length_app, length_drop, take_app, take_ge by lia. f_equal. destruct (decide (n <= length l)%nat); [f_equal; lia|]. by rewrite !take_ge by lia.
Qed.

(** A writer changes without touching the pipe. *)
Lemma inv_set_w s q i w w' : inv s q -> writers s !! i = Some w -> w_closed w' = w_closed w -> bytes_of i (sent s) ++ rest_of w' = asked w' ->
  (w_asleep w' = true -> w_asleep w = true) -> (wkilled w = true -> wkilled w' = true) ->
  inv (mkSys (pip s) (<[i := w']> (writers s)) (readers s) (sent s) (received s)) q.
Proof.
  intros [Hb Hp Hwho Hws Hrs] Hi Hc Hr Has Hk. assert (all_closed (mkSys (pip s) (<[i := w']> (writers s)) (readers s) (sent s) (received s)) = all_closed s) as Hac.
  { unfold all_closed. cbn. by rewrite (forallb_insert _ _ _ w). }
  split; rewrite ?Hac; cbn [pip sent received writers readers].
  - done.
  - destruct (pip s); unfold all_closed in *; cbn [writers readers] in *; rewrite (forallb_insert _ _ _ w) in * by done; done.
  - intros j v [[-> ->]|[_ Hj]]%insert_cases; [done|by apply Hwho].
  - intros j v [[-> ->]|[_ Hj]]%insert_cases Ha; [apply (Hws i w Hi); auto|by apply (Hws j v)].
  - intros j r Hj Ha. destruct (Hrs j r Hj Ha) as [?|?]; [by left|right]. by eapply killed_insert.
Qed.

Lemma inv_set_r s q j r r' : inv s q -> readers s !! j = Some r -> r_closed r' = r_closed r -> (r_asleep r' = true -> r_asleep r = true) ->
  inv (mkSys (pip s) (writers s) (<[j := r']> (readers s)) (sent s) (received s)) q.
Proof.
  intros [Hb Hp Hwho Hws Hrs] Hj Hc Has. assert (all_closed (mkSys (pip s) (writers s) (<[j := r']> (readers s)) (sent s) (received s)) = all_closed s) as Hac.
  { unfold all_closed. cbn. by rewrite (forallb_insert _ _ _ r). }
  split; rewrite ?Hac; cbn [pip sent received writers readers]; try done.
  intros k v [[-> ->]|[_ Hk]]%insert_cases Ha; [apply (Hrs j r Hj); auto|by apply (Hrs k v)].
Qed.

Lemma open_pipe s q : inv s q -> all_closed s <> (true, true) -> exists p, pip s = Some p.
Proof. intros [_ Hp _ _ _] Hne. destruct (pip s) as [p|]; [by exists p|]. by destruct Hp. Qed.

(** A section of a writer. *)
Lemma inv_run_writer s q i w n rest p : inv s q -> writers s !! i = Some w -> wst w = WIn n rest -> pip s = Some p ->
  exists s' q', run_writer i w n rest p s = Ok s' /\ inv s' q'.
Proof.
  intros [Hb Hp Hwho Hws Hrs] Hi Hw Ep. rewrite Ep in Hp. destruct Hp as (Hr & Hac & Hop).
  destruct (write_section_spec rest n (wkilled w) p q Hr) as (p' & Hr' & [Er Ew] & W). pose proof (Hwho i w Hi) as Hwi. unfold rest_of in Hwi. rewrite Hw in Hwi.
  assert (w_closed w = false) as Hcl by (unfold w_closed; by rewrite Hw). assert (rest = take (room q) rest ++ drop (room q) rest) as Hsplit by (by rewrite take_drop).
  assert (forall j v, writers s !! j = Some v -> w_asleep v = true -> take (room q) rest = []) as Hfull.
  { intros j v Hj Ha. destruct (Hws j v Hj Ha) as [Hq _]. unfold room. replace (Z.to_nat PIPESIZE - length q)%nat with 0%nat by lia. apply take_0. }
  assert (forall j v, readers s !! j = Some v -> r_asleep v = true -> readopen p = true) as Hro.
  { intros j v Hj Ha. destruct (readopen p) eqn:E; [done|]. assert (forallb r_closed (readers s) = false) as Hf; [|unfold all_closed in Hac; cbn in Hac; congruence].
    eapply forallb_false; [exact Hj|]. unfold r_asleep in Ha. unfold r_closed. by destruct (rst v). }
  pose proof (r_cap p q Hr) as Hcap. unfold run_writer. rewrite W. cbn [mbind result_bind]. set (k := length rest) in *.
  assert (take (room q) rest = take (k - length (drop (room q) rest)) rest) as Htk.
  { rewrite length_drop. fold k. destruct (decide (k <= room q)%nat); [rewrite !take_ge by (unfold k; lia); done|]. f_equal. lia. }
  assert (forall l w', l = rest_of w' -> asked w' = bytes_of i (sent s) ++ take (room q) rest ++ l ->
     forall j v, <[i := w']> (writers s) !! j = Some v -> bytes_of j (sent s ++ (pair i <$> take (room q) rest)) ++ rest_of v = asked v) as Hwho'.
  { intros l w' -> Hask j v. rewrite bytes_of_app, bytes_of_pair. intros [[-> ->]|[Hne Hj]]%insert_cases.
    - rewrite decide_True by done. rewrite Hask. by rewrite <-app_assoc.
    - rewrite decide_False by done. rewrite app_nil_r. by apply Hwho. }
  destruct (decide (k <= room q)%nat) as [Hle|Hgt].
  - rewrite Nat.sub_0_r. fold k. replace (take k rest) with (take (room q) rest) by (by rewrite !take_ge by (unfold k; lia)). eexists _, _. split; [done|].
    assert (drop (room q) rest = []) as Hnil by (apply drop_ge; unfold k in Hle; lia). rewrite Hnil, app_nil_r in Hsplit.
    split; cbn [pip sent received writers readers all_closed].
    + rewrite fmap_app, Hb, pair_snd. by rewrite <-app_assoc.
    + split; [exact Hr'|]. rewrite Er, Ew. split; [|done]. rewrite <-Hac. unfold all_closed. cbn. by rewrite (forallb_insert _ _ _ w), forallb_fmap by (done || apply wake_r_closed).
    + eapply (Hwho' []); [done|]. cbn [asked]. rewrite app_nil_r. congruence.
    + intros j v [[-> ->]|[_ Hj]]%insert_cases Ha; [done|]. rewrite (Hfull j v Hj Ha), app_nil_r. destruct (Hws j v Hj Ha) as [? ?]. split; [done|].
      unfold all_closed in *. cbn in *. by rewrite forallb_fmap by apply wake_r_closed.
    + intros j r Hj Ha. rewrite list_lookup_fmap in Hj. destruct (readers s !! j); [|done]. injection Hj as <-. by rewrite wake_r_awake in Ha.
  - assert (Z.of_nat (length (q ++ take (room q) rest)) = PIPESIZE) as Hfl.
    { rewrite length_app, length_take. fold k. unfold room in *. lia. }
    destruct (negb (readopen p) || wkilled w) eqn:Efail; rewrite <-Htk; eexists _, _; (split; [done|]).
    + split; cbn [pip sent received writers readers].
      * rewrite fmap_app, Hb, pair_snd. by rewrite <-app_assoc.
      * split; [exact Hr'|]. rewrite Er, Ew. split; [|done]. rewrite <-Hac. unfold all_closed. cbn. by rewrite (forallb_insert _ _ _ w).
      * eapply (Hwho' []); [done|]. cbn [asked]. rewrite app_nil_r, <-Hwi. apply take_but_drop.
      * intros j v [[-> ->]|[_ Hj]]%insert_cases Ha; [done|]. rewrite (Hfull j v Hj Ha), app_nil_r. by apply (Hws j v).
      * intros j r Hj Ha. right. exists i. eexists. rewrite list_lookup_insert_eq by (by eapply lookup_lt_Some). split; [done|]. cbn.
        rewrite (Hro j r Hj Ha) in Efail. done.
    + apply orb_false_iff in Efail as [Hopen%negb_false_iff _]. split; cbn [pip sent received writers readers].
      * rewrite fmap_app, Hb, pair_snd. by rewrite <-app_assoc.
      * split; [exact Hr'|]. rewrite Er, Ew. split; [|done]. rewrite <-Hac. unfold all_closed. cbn. by rewrite (forallb_insert _ _ _ w), forallb_fmap by (done || apply wake_r_closed).
      * eapply (Hwho' (drop (room q) rest)); [done|]. cbn [asked]. rewrite take_drop. congruence.
      * intros j v Hj Ha. split; [done|]. unfold all_closed in *. cbn in *. rewrite forallb_fmap by apply wake_r_closed. rewrite Hopen in Hac. cbn in Hac. congruence.
      * intros j r Hj Ha. rewrite list_lookup_fmap in Hj. destruct (readers s !! j); [|done]. injection Hj as <-. by rewrite wake_r_awake in Ha.
Qed.

(** A section of a reader. *)
Lemma inv_run_reader s q j r n p : inv s q -> readers s !! j = Some r -> rst r = RIn n -> pip s = Some p ->
  exists s' q', run_reader j r n p s = Ok s' /\ inv s' q'.
Proof.
  intros [Hb Hp Hwho Hws Hrs] Hj Hst Ep. rewrite Ep in Hp. destruct Hp as (Hr & Hac & Hop).
  destruct (read_section_spec n (rkilled r) p q Hr) as (p' & E & Hr' & [Er Ew]).
  assert (r_closed r = false) as Hcl by (unfold r_closed; by rewrite Hst).
  unfold run_reader. rewrite E. cbn [mbind result_bind].
  assert (forall r' g, r_closed r' = false -> (forall v, w_closed (g v) = w_closed v) ->
    (forallb w_closed (g <$> writers s), forallb r_closed (<[j := r']> (readers s))) = (negb (writeopen p'), negb (readopen p'))) as Hac'.
  { intros r' g Hc Hg. rewrite (forallb_insert _ _ _ r), forallb_fmap by congruence. rewrite Er, Ew. exact Hac. }
  destruct (decide (q = [] /\ writeopen p = true)) as [[-> Hwo]|Hne].
  - assert (forall r', r_closed r' = false -> inv (mkSys (Some p') (writers s) (<[j := r']> (readers s)) (sent s) (received s)) []) as Hi.
    { intros r' Hc. pose proof (Hac' r' id Hc (fun _ => eq_refl)) as Hac2. rewrite list_fmap_id in Hac2. split; cbn [pip sent received writers readers]; try done.
      - split; [done|]. split; [exact Hac2|]. by rewrite Er, Ew.
      - intros i v Hv Ha. destruct (Hws i v Hv Ha) as [? _]. done.
      - intros k v Hk Ha. left. split; [done|]. unfold all_closed in *. cbn in *. rewrite Hwo in Hac. cbn in Hac. congruence. }
    destruct (rkilled r); eexists _, []; rewrite fmap_nil, app_nil_r; (split; [done|by apply Hi]).
  - eexists _, (drop (Z.to_nat n) q). split; [done|]. pose proof (Hac' (mkReader RIdle (rkilled r)) wake_w eq_refl wake_w_closed) as Hac2.
    split; cbn [pip sent received writers readers].
    + rewrite fmap_app, pair_snd, <-app_assoc, take_drop. done.
    + split; [done|]. split; [exact Hac2|]. by rewrite Er, Ew.
    + intros i v Hv. rewrite list_lookup_fmap in Hv. destruct (writers s !! i) as [w|] eqn:Hw; [|done]. injection Hv as <-.
      destruct (wake_w_facts w) as (-> & -> & _). by apply Hwho.
    + intros i v Hv Ha. rewrite list_lookup_fmap in Hv. destruct (writers s !! i) as [w|]; [|done]. injection Hv as <-. destruct (wake_w_facts w) as (_ & _ & _ & Hf). congruence.
    + intros k v [[-> ->]|[_ Hk]]%insert_cases Ha; [done|]. destruct (Hrs k v Hk Ha) as [[-> Hc]|?]; [left|right; by apply killed_wake].
      split; [by destruct (Z.to_nat n)|]. unfold all_closed in *. cbn in *. rewrite forallb_fmap by apply wake_w_closed. done.
Qed.

(** Closing an end: [s] is the state in which all its processes have closed it. *)
Lemma inv_close_w s q i w p : inv s q -> writers s !! i = Some w -> wst w = WIdle -> pip s = Some p ->
  let s1 := mkSys (pip s) (<[i := mkWriter WClosed (wkilled w) (asked w)]> (writers s)) (readers s) (sent s) (received s) in
  exists s', (if forallb w_closed (writers s1) then close_end true s1 else Ok s1) = Ok s' /\ inv s' q.
Proof.
  intros [Hb Hp Hwho Hws Hrs] Hi Hst Ep s1. rewrite Ep in Hp. destruct Hp as (Hr & Hac & Hop).
  assert (w_closed w = false) as Hcl by (unfold w_closed; by rewrite Hst).
  assert (writeopen p = true /\ negb (readopen p) = forallb r_closed (readers s)) as [Hwo Hro].
  { unfold all_closed in Hac. injection Hac as E1 E2. rewrite (forallb_false _ _ i w) in E1 by done. by destruct (writeopen p). }
  assert (forall j v, writers s1 !! j = Some v -> bytes_of j (sent s) ++ rest_of v = asked v) as Hwho1.
  { intros j v [[-> ->]|[_ Hj]]%insert_cases; [|by apply Hwho]. specialize (Hwho i w Hi). unfold rest_of in *. by rewrite Hst in Hwho. }
  assert (forall j v, writers s1 !! j = Some v -> w_asleep v = true -> Z.of_nat (length q) = PIPESIZE /\ forallb r_closed (readers s) = false) as Hws1.
  { intros j v [[-> ->]|[_ Hj]]%insert_cases Ha; [done|by apply (Hws j v)]. }
  destruct (forallb w_closed (writers s1)) eqn:Eall.
  - unfold close_end, s1. cbn [pip]. rewrite Ep. cbn [pipeclose mbind M_bind result_bind modify get mret M_ret readopen writeopen].
    eexists. split; [done|]. cbn [negb readopen writeopen]. rewrite andb_true_r. split; cbn [pip sent received writers readers]; try done.
    + rewrite Hro. destruct (forallb r_closed (readers s)) eqn:Er; unfold all_closed; cbn [writers readers]; rewrite forallb_fmap by apply wake_r_closed; cbn in Eall; rewrite Eall, Er.
      * split; [done|by apply (r_cap p)].
      * cbn [readopen writeopen negb orb]. rewrite Hro. split; [by apply ring_ends|]. split; [done|]. by apply negb_false_iff in Hro.
    + intros j v Hj Ha. destruct (Hws1 j v Hj Ha) as [? Hf]. split; [done|]. unfold all_closed. cbn. by rewrite forallb_fmap by apply wake_r_closed.
    + intros j r Hj Ha. rewrite list_lookup_fmap in Hj. destruct (readers s !! j); [|done]. injection Hj as <-. by rewrite wake_r_awake in Ha.
  - exists s1. split; [done|]. split; try done.
    + cbn [pip s1]. rewrite Ep. split; [done|]. split; [|done]. unfold all_closed. cbn [writers readers s1] in *. by rewrite Eall, Hwo, Hro.
    + intros j r Hj Ha. cbn in Hj. destruct (Hrs j r Hj Ha) as [[-> _]|?]; [left; split; [done|exact Eall]|right; by eapply killed_insert].
Qed.

Lemma inv_close_r s q j r p : inv s q -> readers s !! j = Some r -> rst r = RIdle -> pip s = Some p ->
  let s1 := mkSys (pip s) (writers s) (<[j := mkReader RClosed (rkilled r)]> (readers s)) (sent s) (received s) in
  exists s', (if forallb r_closed (readers s1) then close_end false s1 else Ok s1) = Ok s' /\ inv s' q.
Proof.
  intros [Hb Hp Hwho Hws Hrs] Hj Hst Ep s1. rewrite Ep in Hp. destruct Hp as (Hr & Hac & Hop).
  assert (r_closed r = false) as Hcl by (unfold r_closed; by rewrite Hst).
  assert (readopen p = true /\ negb (writeopen p) = forallb w_closed (writers s)) as [Hro Hwo].
  { unfold all_closed in Hac. injection Hac as E1 E2. rewrite (forallb_false _ _ j r) in E2 by done. by destruct (readopen p). }
  assert (forall k v, readers s1 !! k = Some v -> r_asleep v = true -> readers s !! k = Some v) as Hrs1.
  { intros k v [[-> ->]|[_ Hk]]%insert_cases Ha; done. }
  destruct (forallb r_closed (readers s1)) eqn:Eall.
  - unfold close_end, s1. cbn [pip]. rewrite Ep. cbn [pipeclose mbind M_bind result_bind modify get mret M_ret readopen writeopen].
    eexists. split; [done|]. cbn [negb readopen writeopen andb]. split; cbn [pip sent received writers readers]; try done.
    + rewrite Hwo. destruct (forallb w_closed (writers s)) eqn:Er; unfold all_closed; cbn [writers readers]; rewrite forallb_fmap by apply wake_w_closed; cbn in Eall; rewrite Eall, Er.
      * split; [done|by apply (r_cap p)].
      * cbn [readopen writeopen negb orb]. rewrite Hwo. split; [by apply ring_ends|]. split; [done|]. apply negb_false_iff in Hwo. by rewrite Hwo.
    + intros i v Hv. rewrite list_lookup_fmap in Hv. destruct (writers s !! i) as [w|] eqn:Hw; [|done]. injection Hv as <-.
      destruct (wake_w_facts w) as (-> & -> & _). by apply Hwho.
    + intros i v Hv Ha. rewrite list_lookup_fmap in Hv. destruct (writers s !! i) as [w|]; [|done]. injection Hv as <-. destruct (wake_w_facts w) as (_ & _ & _ & Hf). congruence.
    + intros k v Hk Ha. exfalso. pose proof (forallb_false r_closed _ k v Hk) as Hf. cbn in Eall. rewrite Eall in Hf.
      unfold r_asleep in Ha. unfold r_closed in Hf. by destruct (rst v); try done; specialize (Hf eq_refl).
  - exists s1. split; [done|]. split; try done.
    + cbn [pip s1]. rewrite Ep. split; [done|]. split; [|done]. unfold all_closed. cbn [writers readers s1] in *. by rewrite Eall, Hwo, Hro.
    + intros i v Hv Ha. cbn in Hv. destruct (Hws i v Hv Ha) as [? _]. split; [done|exact Eall].
    + intros k v Hk Ha. apply (Hrs k v); [by apply Hrs1|done].
Qed.

(** No event goes wrong, and every event keeps the invariant. *)
Lemma inv_exec s q e r : inv s q -> exec e s = Some r -> exists s' q', r = Ok s' /\ inv s' q'.
Proof.
  intros Hi. destruct e as [i bs|j n|i|j|i|j|i|j]; cbn [exec mbind option_bind].
  - destruct (writers s !! i) as [w|] eqn:Hw; [|done]. cbn. destruct (wst w) eqn:Hst; try done. intros [= <-]. eexists _, q. split; [done|].
    apply (inv_set_w s q i w _ Hi Hw); cbn; try done; [by unfold w_closed; rewrite Hst|]. pose proof (i_who s q Hi i w Hw) as Hr. unfold rest_of in *. rewrite Hst, app_nil_r in Hr. cbn. congruence.
  - destruct (readers s !! j) as [r0|] eqn:Hr; [|done]. cbn. destruct (rst r0) eqn:Hst; try done. intros [= <-]. eexists _, q. split; [done|].
    apply (inv_set_r s q j r0 _ Hi Hr); cbn; try done. by unfold r_closed; rewrite Hst.
  - destruct (writers s !! i) as [w|] eqn:Hw; [|done]. cbn. destruct (wst w) eqn:Hst; try done. intros [= <-].
    destruct (open_pipe s q Hi) as [p Ep]; [unfold all_closed; rewrite (forallb_false _ _ i w Hw); [done|unfold w_closed; by rewrite Hst]|]. rewrite Ep. by eapply inv_run_writer.
  - destruct (readers s !! j) as [r0|] eqn:Hr; [|done]. cbn. destruct (rst r0) eqn:Hst; try done. intros [= <-].
    destruct (open_pipe s q Hi) as [p Ep]; [unfold all_closed; rewrite (forallb_false r_closed _ j r0 Hr); [done|unfold r_closed; by rewrite Hst]|]. rewrite Ep. by eapply inv_run_reader.
  - destruct (writers s !! i) as [w|] eqn:Hw; [|done]. cbn. intros [= <-]. eexists _, q. split; [done|].
    destruct (wake_w_facts (mkWriter (wst w) true (asked w))) as (F1 & F2 & F3 & F4). apply (inv_set_w s q i w _ Hi Hw).
    + by rewrite wake_w_closed.
    + rewrite F1, F2. apply (i_who s q Hi i w Hw).
    + congruence.
    + done.
  - destruct (readers s !! j) as [r0|] eqn:Hr; [|done]. cbn. intros [= <-]. eexists _, q. split; [done|]. apply (inv_set_r s q j r0 _ Hi Hr).
    + by rewrite wake_r_closed.
    + by rewrite wake_r_awake.
  - destruct (writers s !! i) as [w|] eqn:Hw; [|done]. cbn [mbind option_bind]. destruct (wst w) eqn:Hst; try done. intros [= <-].
    destruct (open_pipe s q Hi) as [p Ep]; [unfold all_closed; rewrite (forallb_false _ _ i w Hw); [done|unfold w_closed; by rewrite Hst]|].
    destruct (inv_close_w s q i w p Hi Hw Hst Ep) as (s' & E & Hi'). exists s', q. done.
  - destruct (readers s !! j) as [r0|] eqn:Hr; [|done]. cbn [mbind option_bind]. destruct (rst r0) eqn:Hst; try done. intros [= <-].
    destruct (open_pipe s q Hi) as [p Ep]; [unfold all_closed; rewrite (forallb_false r_closed _ j r0 Hr); [done|unfold r_closed; by rewrite Hst]|].
    destruct (inv_close_r s q j r0 p Hi Hr Hst Ep) as (s' & E & Hi'). exists s', q. done.
Qed.

Lemma pipe_inv_start l nw nr : length l = Z.to_nat PIPESIZE -> (0 < nw)%nat -> (0 < nr)%nat -> inv (start l nw nr) [].
Proof.
  intros Hl Hw Hr. split; cbn [start pip sent received writers readers]; try done.
  - split; [split; cbn; try done; unfold PIPESIZE, UINT_MOD; lia|]. split; [|done]. unfold all_closed. cbn. destruct nw, nr; done || lia.
  - intros i w [-> _]%lookup_replicate. done.
  - intros i w [-> _]%lookup_replicate. done.
  - intros i w [-> _]%lookup_replicate. done.
Qed.

Lemma pipe_inv_reachable s0 s q0 : inv s0 q0 -> rtc step s0 s -> exists q, inv s q.
Proof.
  intros Hi Hr. revert q0 Hi. induction Hr as [s|s s1 s2 [e He] _ IH]; intros q0 Hi; [by exists q0|].
  destruct (inv_exec s q0 e _ Hi He) as (s' & q' & E & Hi'). injection E as ->. by apply (IH q').
Qed.

(** ** Properties *)

(** C33: a pipe is a bounded queue.  However the processes on it interleave,
    are woken up and killed, no section fails: the ring is never accessed out of
    bounds and the pipe never after it was freed, which is when both ends are
    closed.  The bytes received are the first of those sent, in order, at most
    512 are under way, and what each writer has sent are the first bytes of its
    calls, in order. *)
Theorem pipe_fifo l nw nr s : length l = Z.to_nat PIPESIZE -> (0 < nw)%nat -> (0 < nr)%nat -> rtc step (start l nw nr) s ->
  (exists q, (sent s).*2 = (received s).*2 ++ q /\ Z.of_nat (length q) <= PIPESIZE) /\
  (forall i w, writers s !! i = Some w -> bytes_of i (sent s) ++ rest_of w = asked w) /\
  (pip s = None <-> forallb w_closed (writers s) = true /\ forallb r_closed (readers s) = true) /\
  forall e r, exec e s = Some r -> exists s', r = Ok s'.
Proof.
  intros Hl Hw Hr Hrtc. destruct (pipe_inv_reachable _ _ _ (pipe_inv_start l nw nr Hl Hw Hr) Hrtc) as [q Hi]. pose proof Hi as [Hb Hp Hwho _ _]. split_and!.
  - exists q. split; [done|]. destruct (pip s) as [p|]; [by apply (r_cap p), Hp|apply Hp].
  - done.
  - unfold all_closed in Hp. destruct (pip s) as [p|]; split; intros H; try done.
    + destruct Hp as (_ & E & Ho), H as [E1 E2]. rewrite E1, E2 in E. by destruct (writeopen p), (readopen p).
    + destruct Hp as [E _]. by injection E.
  - intros e r He. destruct (inv_exec s q e r Hi He) as (s' & _ & -> & _). by exists s'.
Qed.

(** C34: no wakeup is lost.  As long as no writer has been killed, a reader
    sleeps only while the pipe is empty and some writer may still write, and a
    writer only while the pipe is full and some reader may still read: never
    both at once. *)
Theorem pipe_no_lost_wakeup l nw nr s : length l = Z.to_nat PIPESIZE -> (0 < nw)%nat -> (0 < nr)%nat -> rtc step (start l nw nr) s ->
  (forall i w, writers s !! i = Some w -> wkilled w = false) ->
  (forall j r, readers s !! j = Some r -> r_asleep r = true -> (sent s).*2 = (received s).*2 /\ forallb w_closed (writers s) = false) /\
  (forall i w, writers s !! i = Some w -> w_asleep w = true ->
     length (sent s) = (length (received s) + Z.to_nat PIPESIZE)%nat /\ forallb r_closed (readers s) = false /\
     forall j r, readers s !! j = Some r -> r_asleep r = false).
Proof.
  intros Hl Hw Hr Hrtc Hk. destruct (pipe_inv_reachable _ _ _ (pipe_inv_start l nw nr Hl Hw Hr) Hrtc) as [q [Hb Hp Hwho Hws Hrs]].
  assert (forall j r, readers s !! j = Some r -> r_asleep r = true -> q = [] /\ forallb w_closed (writers s) = false) as Hrs'.
  { intros j r Hj Ha. destruct (Hrs j r Hj Ha) as [?|(i & w & Hi & Hkw)]; [done|]. by rewrite (Hk i w Hi) in Hkw. }
  split.
  - intros j r Hj Ha. destruct (Hrs' j r Hj Ha) as [-> Hc]. by rewrite Hb, app_nil_r.
  - intros i w Hi Ha. destruct (Hws i w Hi Ha) as [Hq Hc]. split; [|split; [done|]].
    + apply (f_equal length) in Hb. rewrite length_app, !length_fmap in Hb. lia.
    + intros j r Hj. destruct (r_asleep r) eqn:E; [|done]. destruct (Hrs' j r Hj E) as [-> _]. done.
Qed.

(** The result of a section of pipewrite and of piperead on a pipe that
    holds [q]: bytes go in while there is room and come out in order; a read
    returns nothing only when the pipe is empty and the write end is closed. *)
Theorem pipe_sections_correct p q : ring p q ->
  (forall bs n killed, let k := (Z.to_nat PIPESIZE - length q)%nat in exists p', ring p' (q ++ take k bs) /\
     write_section bs n killed p = Ok (if decide (length bs <= k)%nat then WRet n
       else if negb (readopen p) || killed then WFail (drop k bs) else WSleep (drop k bs), p')) /\
  (forall n killed, exists x p', read_section n killed p = Ok (x, p') /\
     match x with
     | RSleep => q = [] /\ writeopen p = true /\ killed = false /\ p' = p
     | RFail => q = [] /\ writeopen p = true /\ killed = true /\ p' = p
     | RRet bs => bs = take (Z.to_nat n) q /\ ring p' (drop (Z.to_nat n) q) /\ (bs = [] -> 0 < n -> q = [] /\ writeopen p = false)
     end).
Proof.
  intros Hr. split.
  - intros bs n killed k. destruct (write_section_spec bs n killed p q Hr) as (p' & Hr' & _ & W). exists p'. split; [done|]. rewrite W. f_equal. f_equal.
    change (room q) with k. destruct (decide (length bs <= k)%nat); [done|]. by destruct (negb (readopen p) || killed).
  - intros n killed. unfold read_section. rewrite (bind_Ok _ _ p p p) by done. destruct (is_empty p && writeopen p) eqn:E.
    + apply andb_true_iff in E as [E1 E2]. rewrite (ring_empty p q Hr) in E1. apply bool_decide_eq_true in E1. destruct killed; eexists _, _; (split; [done|]); done.
    + destruct (copy_out_spec (Z.to_nat n) p q Hr) as (p' & Ec & Hr' & _). eexists _, p'. split; [by rewrite (bind_Ok _ _ _ _ _ Ec)|]. split; [done|]. split; [done|].
      intros Hn Hpos. assert (q = []) as -> by (destruct q; [done|]; destruct (Z.to_nat n) eqn:En; [lia|done]). split; [done|].
      rewrite (ring_empty p [] Hr) in E. cbn in E. done.
Qed.

(** ** Making a pipe *)
Section pipealloc.
Context `{HL : Linker} {FS : Type} `{HFS : Fs FS}.
Notation world := (world (FS := FS)).

(** The pipes live in pages of their own. *)
Record kpipes : Type := mkKpipes { kw : world; pipes : gmap Z pipe }.

Definition in_world {A} (m : M world A) : M kpipes A := fun s =>
  match m (kw s) with Ok (a, w) => Ok (a, mkKpipes w (pipes s)) | Err e => Err e end.

Definition pipe_end (p : Z) (writable : bool) (f : file) : file := mkFile FD_PIPE (ref f) (negb writable) writable p (ip f) (off f).
Definition set_end (i : nat) (p : Z) (writable : bool) : M kpipes unit :=
  f ← in_world (with_files (get_file i)); in_world (with_files (put_file i (pipe_end p writable f))).

(** [junk] is what the 512 bytes of the new page hold. *)
Definition pipealloc (junk : list Z) : M kpipes (option (nat * nat)) :=
  o0 ← in_world (with_files filealloc);
  match o0 with
  | None => mret None
  | Some f0 =>
      o1 ← in_world (with_files filealloc);
      match o1 with
      | None => _ ← in_world (with_files (fileclose f0)); mret None
      | Some f1 =>
          p ← in_world (with_mem kalloc);
          if p =? 0 then
            _ ← in_world (with_files (fileclose f0));
            _ ← in_world (with_files (fileclose f1));
            mret None
          else
          _ ← modify (fun s => mkKpipes (kw s) (<[p := new_pipe junk]> (pipes s)));
          _ ← set_end f0 p false;
          _ ← set_end f1 p true;
          mret (Some (f0, f1))
      end
  end.

(** Free entries of the file table are empty, as fileclose leaves them. *)
Definition clean (t : list file) : Prop := forall i f, t !! i = Some f -> ref f = 0 -> type f = FD_NONE.

Definition with_table (t : list file) (s : kpipes) : kpipes :=
  mkKpipes (mkWorld (km (kw s)) (mkFstate t (fsys (files (kw s)))) (procs (kw s))) (pipes s).
Definition table (s : kpipes) : list file := ftable (files (kw s)).

Lemma with_table_same s t : t = table s -> with_table t s = s.
Proof. intros ->. by destruct s as [[? [] ?] ?]. Qed.

Lemma filealloc_run s : in_world (with_files filealloc) s = match list_find (fun x => ref x = 0) (table s) with
  | Some (i, f) => Ok (Some i, with_table (<[i := set_ref 1 f]> (table s)) s)
  | None => Ok (None, s) end.
Proof.
  destruct s as [[k [t fs] ps] pp]. unfold in_world, with_files, table, filealloc, mbind, M_bind, get. cbn [kw files ftable].
  destruct (list_find _ t) as [[i f]|]; done.
Qed.

Lemma fileclose_run s i f : table s !! i = Some f -> ref f = 1 -> type f = FD_NONE ->
  in_world (with_files (fileclose i)) s = Ok (tt, with_table (<[i := set_none f]> (table s)) s).
Proof.
  intros Hf Hr Ht. destruct s as [[k [t fs] ps] pp]. unfold in_world, with_files, table, fileclose, get_file, put_file, mbind, M_bind, get in *.
  cbn in *. rewrite Hf. unfold mret, M_ret. rewrite Hr. cbn. by rewrite Ht.
Qed.

Lemma set_end_run s i p wr f : table s !! i = Some f -> set_end i p wr s = Ok (tt, with_table (<[i := pipe_end p wr f]> (table s)) s).
Proof.
  intros Hf. destruct s as [[k [t fs] ps] pp]. unfold set_end, in_world, with_files, table, get_file, put_file, mbind, M_bind, get in *. cbn in *. by rewrite Hf.
Qed.

Lemma reopened (t : list file) i f : t !! i = Some f -> ref f = 0 -> type f = FD_NONE -> <[i := set_none (set_ref 1 f)]> t = t.
Proof. intros Hi Hr Ht. apply list_insert_id. rewrite Hi. destruct f. cbn in *. by subst. Qed.

(** C35: pipe creation.  pipealloc gives two fresh descriptions of one empty
    pipe in a page of its own, the first to read and the second to write; when
    there is no second free file or no page it fails and leaves the file table,
    memory and the pipes exactly as they were. *)
Theorem pipealloc_correct s junk fl : clean (table s) -> free_ok (km (kw s)) fl ->
  exists r s', pipealloc junk s = Ok (r, s') /\
  match r with
  | None => s' = s
  | Some (f0, f1) => exists x0 x1 p, f0 <> f1 /\ table s !! f0 = Some x0 /\ table s !! f1 = Some x1 /\ ref x0 = 0 /\ ref x1 = 0 /\
      table s' = <[f1 := pipe_end p true (set_ref 1 x1)]> (<[f0 := pipe_end p false (set_ref 1 x0)]> (table s)) /\
      head fl = Some p /\ free_ok (km (kw s')) (tail fl) /\ pipes s' = <[p := new_pipe junk]> (pipes s)
  end.
Proof.
  intros Hc Hk. unfold pipealloc. pose proof (filealloc_run s) as E0. destruct (list_find (fun x => ref x = 0) (table s)) as [[f0 x0]|] eqn:F0.
  2:{ rewrite (bind_Ok _ _ _ _ _ E0). by exists None, s. }
  rewrite (bind_Ok _ _ _ _ _ E0). apply list_find_Some in F0 as (H0 & R0 & _). pose proof (lookup_lt_Some _ _ _ H0) as L0. pose proof (Hc _ _ H0 R0) as T0.
  set (s1 := with_table (<[f0:=set_ref 1 x0]> (table s)) s). assert (table s1 !! f0 = Some (set_ref 1 x0)) as H01 by (by apply list_lookup_insert_eq).
  pose proof (filealloc_run s1) as E1. destruct (list_find (fun x => ref x = 0) (table s1)) as [[f1 x1]|] eqn:F1; rewrite (bind_Ok _ _ _ _ _ E1).
  2:{ rewrite (bind_Ok _ _ _ _ _ (fileclose_run s1 f0 _ H01 eq_refl T0)). eexists None, _. split; [done|]. unfold s1, table. cbn.
      rewrite list_insert_insert_eq. unfold with_table. cbn. rewrite reopened by done. apply with_table_same. done. }
  apply list_find_Some in F1 as (H1 & R1 & _). assert (f0 <> f1) as Hne by (intros <-; rewrite H01 in H1; by injection H1 as <-).
  assert (table s !! f1 = Some x1) as H1' by (unfold s1, table in H1; cbn in H1; by rewrite list_lookup_insert_ne in H1). pose proof (Hc _ _ H1' R1) as T1.
  pose proof (lookup_lt_Some _ _ _ H1') as L1. set (s2 := with_table (<[f1:=set_ref 1 x1]> (table s1)) s1).
  assert (table s2 !! f1 = Some (set_ref 1 x1)) as H12 by (apply list_lookup_insert_eq; unfold s1, table; cbn; by rewrite length_insert).
  assert (table s2 !! f0 = Some (set_ref 1 x0)) as H02 by (unfold s2, table; cbn; by rewrite list_lookup_insert_ne).
  destruct fl as [|p fl].
  - rewrite (bind_Ok _ _ s2 0 s2) by (unfold in_world, with_mem; cbn; rewrite (kalloc_nil _ Hk); done). change (0 =? 0) with true. cbv iota.
    rewrite (bind_Ok _ _ _ _ _ (fileclose_run s2 f0 _ H02 eq_refl T0)).
    rewrite (bind_Ok _ _ _ _ _ (fileclose_run (with_table (<[f0:=set_none (set_ref 1 x0)]> (table s2)) s2) f1 (set_ref 1 x1) ltac:(unfold table; cbn; rewrite list_lookup_insert_ne by congruence; exact H12) eq_refl T1)).
    eexists None, _. split; [done|]. unfold s2, s1, with_table, table. cbn. apply (with_table_same s). unfold table.
    rewrite (list_insert_insert_ne _ f0 f1) by done. rewrite !list_insert_insert_eq. rewrite (reopened _ f0) by done. by apply reopened.
  - destruct (kalloc_cons _ p fl Hk) as (Ek & Hk' & Hv & _). assert (p <> 0) as Hp by (by destruct (valid_range p Hv) as (_ & _ & ? & _)).
    rewrite (bind_Ok _ _ s2 p (mkKpipes (mkWorld (set_freelist (entry (km (kw s)) p 0) (km (kw s))) (files (kw s2)) (procs (kw s2))) (pipes s2))) by (unfold in_world, with_mem; cbn; rewrite Ek; done).
    rewrite (proj2 (Z.eqb_neq _ _)) by done. cbv iota. rewrite (bind_Ok _ _ _ tt _ eq_refl). set (s3 := mkKpipes _ _).
    rewrite (bind_Ok _ _ _ _ _ (set_end_run s3 f0 p false (set_ref 1 x0) H02)).
    rewrite (bind_Ok _ _ _ _ _ (set_end_run (with_table (<[f0:=pipe_end p false (set_ref 1 x0)]> (table s3)) s3) f1 p true (set_ref 1 x1) ltac:(unfold table; cbn; rewrite list_lookup_insert_ne by done; exact H12))).
    eexists (Some (f0, f1)), _. split; [done|]. exists x0, x1, p. split_and!; try done. unfold s3, s2, s1, with_table, table. cbn.
    rewrite (list_insert_insert_ne _ f0 f1) by done. by rewrite !list_insert_insert_eq.
Qed.
End pipealloc.

(** ** Examples *)
Fixpoint run (es : list event) (s : sys) : option sys :=
  match es with
  | [] => Some s
  | e :: es' => match exec e s with Some (Ok s') => run es' s' | _ => None end
  end.

Lemma run_rtc es s s' : run es s = Some s' -> rtc step s s'.
Proof.
  revert s. induction es as [|e es IH]; intros s E; cbn in E; [injection E as <-; apply rtc_refl|].
  destruct (exec e s) as [[s1|]|] eqn:Ee; try done. eapply rtc_l; [by exists e|by apply IH].
Qed.

Definition ex_data : list Z := replicate 512 0.

(** Two writers and a reader: the reader sleeps first, then drains a full pipe. *)
Definition ex_events : list event :=
  [ERead 0 300; ERunR 0; EWrite 0 (replicate 510 1); ERunW 0; EWrite 1 [2; 3; 4]; ERunW 1; ERunR 0; ERunW 1; ECloseW 0].
Definition ex_state : sys := match run ex_events (start ex_data 2 1) with Some s => s | None => start ex_data 2 1 end.

Lemma ex_reached : rtc step (start ex_data 2 1) ex_state.
Proof. apply (run_rtc ex_events). vm_compute. reflexivity. Qed.

Lemma pipe_fifo_witness : (exists q, (sent ex_state).*2 = (received ex_state).*2 ++ q /\ Z.of_nat (length q) <= PIPESIZE) /\
  length (sent ex_state) = 513%nat /\ length (received ex_state) = 300%nat.
Proof.
  split; [|split; vm_compute; reflexivity]. destruct (pipe_fifo ex_data 2 1 ex_state) as [H _]; [reflexivity|lia|lia|exact ex_reached|exact H].
Defined.

(** A reader asleep, and its reason to be. *)
Definition ex_asleep : sys := match run [ERead 0 300; ERunR 0] (start ex_data 2 1) with Some s => s | None => start ex_data 2 1 end.

Lemma pipe_no_lost_wakeup_witness : readers ex_asleep = [mkReader (RAsleep 300) false] /\
  (sent ex_asleep).*2 = (received ex_asleep).*2 /\ forallb w_closed (writers ex_asleep) = false.
Proof.
  split; [vm_compute; reflexivity|]. destruct (pipe_no_lost_wakeup ex_data 2 1 ex_asleep) as [H _]; [reflexivity|lia|lia| | |].
  - apply (run_rtc [ERead 0 300; ERunR 0]). vm_compute. reflexivity.
  - intros [|[|i]] w Hw; vm_compute in Hw; [injection Hw as <-; reflexivity|injection Hw as <-; reflexivity|destruct i; discriminate Hw].
  - apply (H 0%nat (mkReader (RAsleep 300) false)); vm_compute; reflexivity.
Defined.

Lemma ring_new : ring (new_pipe ex_data) [].
Proof. split; cbn; try done; unfold PIPESIZE, UINT_MOD; lia. Qed.

Lemma pipe_sections_correct_witness : exists p', ring p' [7; 8] /\ write_section [7; 8] 2 false (new_pipe ex_data) = Ok (WRet 2, p').
Proof. destruct (pipe_sections_correct _ _ ring_new) as [H _]. destruct (H [7; 8] 2 false) as (p' & Hr & E). exists p'. split; [exact Hr|exact E]. Defined.

(** A writer that has been killed fills the pipe and returns -1 without waking
    the reader, which sleeps beside 512 bytes while nobody is going to wake it:
    the other writer may keep the pipe open without writing. *)
Lemma killed_writer_strands_reader : exists s, rtc step (start ex_data 2 1) s /\
  length (sent s) = 512%nat /\ received s = [] /\ rst <$> readers s = [RAsleep 1] /\ wst <$> writers s = [WIdle; WIdle].
Proof.
  set (es := [ERead 0 1; ERunR 0; EKillW 0; EWrite 0 (replicate 513 7); ERunW 0]).
  destruct (run es (start ex_data 2 1)) as [s|] eqn:E; [|by vm_compute in E]. exists s. split; [by apply (run_rtc es)|].
  vm_compute in E. injection E as <-. by vm_compute.
Qed.

#[local] Existing Instance Kalloc.example_linker.
#[local] Existing Instance Wmap.ex_fs.
Definition ex_kpipes : kpipes (FS := unit) :=
  mkKpipes (mkWorld (mkKmem ∅ true (P2V 8388608)) (mkFstate [mkFile FD_NONE 0 false false 0 0 0; mkFile FD_NONE 0 false false 0 0 0] tt) []) ∅.
Lemma pipealloc_correct_witness : clean (table ex_kpipes) /\ exists s', pipealloc ex_data ex_kpipes = Ok (Some (0%nat, 1%nat), s') /\ pipes s' = {[P2V 8388608 := new_pipe ex_data]}.
Proof.
  assert (clean (table ex_kpipes)) as Hc by (intros [|[|i]] f Hf Hr; cbn in Hf; [injection Hf as <-; reflexivity|injection Hf as <-; reflexivity|destruct i; discriminate Hf]).
  split; [exact Hc|]. destruct (pipealloc_correct ex_kpipes ex_data [P2V 8388608] Hc) as (r & s' & E & HP).
  - split; [apply map_Forall_empty|split; [reflexivity|reflexivity]|apply NoDup_singleton|apply Forall_singleton; split; [reflexivity|vm_compute; split; [discriminate|reflexivity]]].
  - assert (r = Some (0%nat, 1%nat)) as -> by (vm_compute in E; congruence). destruct HP as (x0 & x1 & p & _ & _ & _ & _ & _ & _ & Hp & _ & Hpp).
    injection Hp as <-. exists s'. split; [exact E|]. rewrite Hpp. reflexivity.
Defined.
