(* ===== verification/Bio.v ===== *)
(** * The buffer cache, xv6 wmap/solution/bio.c, buf.h and memide.c

    A buffer is an index into the array of buffers; the doubly linked list
    through [head] is the list [order] of those indices, most recently used
    first.  A block is its 128 words.  The disk is the one of memide.c, which
    keeps the blocks in memory; [writes] records the blocks written to it, in
    order, so that a crash can be placed between any two writes.  The state is
    that of one process using the cache; a process that waits for a buffer it
    has locked itself never returns, which is the fault [OutOfFuel]. *)
From S2P Require Import Prelude.

Definition NBUF : nat := 30.
Definition BWORDS : nat := 128.
Definition zero_block : list Z := replicate BWORDS 0.

Record buf : Type := mkBuf {
  valid : bool;
  dirty : bool;
  dev : Z;
  blockno : Z;
  locked : bool;
  refcnt : Z;
  data : list Z
}.

Record bcache : Type := mkBcache {
  bufs : list buf;
  order : list nat;
  disk : gmap Z (list Z);
  disksize : Z;
  writes : list (Z * list Z)
}.

Definition set_locked (l : bool) (x : buf) : buf := mkBuf (valid x) (dirty x) (dev x) (blockno x) l (refcnt x) (data x).
Definition set_refcnt (r : Z) (x : buf) : buf := mkBuf (valid x) (dirty x) (dev x) (blockno x) (locked x) r (data x).
Definition set_data (d : list Z) (x : buf) : buf := mkBuf (valid x) (dirty x) (dev x) (blockno x) (locked x) (refcnt x) d.
Definition set_dirty (d : bool) (x : buf) : buf := mkBuf (valid x) d (dev x) (blockno x) (locked x) (refcnt x) (data x).
Definition set_valid (v : bool) (x : buf) : buf := mkBuf v (dirty x) (dev x) (blockno x) (locked x) (refcnt x) (data x).

(** The buffers as the kernel finds them at boot: static data. *)
Definition zero_buf : buf := mkBuf false false 0 0 false 0 zero_block.
Definition buf_at (s : bcache) (i : nat) : buf := default zero_buf (bufs s !! i).
Definition read_disk (d : gmap Z (list Z)) (b : Z) : list Z := default zero_block (d !! b).

Definition put_buf (i : nat) (x : buf) (s : bcache) : bcache :=
  mkBcache (<[i := x]> (bufs s)) (order s) (disk s) (disksize s) (writes s).
Definition set_order (o : list nat) (s : bcache) : bcache := mkBcache (bufs s) o (disk s) (disksize s) (writes s).
Definition upd_buf (i : nat) (g : buf -> buf) : M bcache unit := modify (fun s => put_buf i (g (buf_at s i)) s).
Definition getb (i : nat) : M bcache buf := s ← get; mret (buf_at s i).

(** binit: each buffer in turn goes to the head of the list. *)
Definition binit (d : gmap Z (list Z)) (size : Z) : bcache :=
  mkBcache (replicate NBUF zero_buf) (fold_left (fun l b => b :: l) (seq 0 NBUF) []) d size [].

(** acquiresleep and releasesleep (sleeplock.c), for one process. *)
Definition acquiresleep (i : nat) : M bcache unit :=
  x ← getb i; if (locked x : bool) then fail OutOfFuel else upd_buf i (set_locked true).
Definition releasesleep (i : nat) : M bcache unit := upd_buf i (set_locked false).

Definition bget (d b : Z) : M bcache nat :=
  s ← get;
  match list_find (fun i => dev (buf_at s i) = d /\ blockno (buf_at s i) = b) (order s) with
  | Some (_, i) =>
      _ ← upd_buf i (fun x => set_refcnt (u32 (refcnt x + 1)) x);
      _ ← acquiresleep i;
      mret i
  | None =>
      match list_find (fun i => refcnt (buf_at s i) = 0 /\ dirty (buf_at s i) = false) (reverse (order s)) with
      | Some (_, i) =>
          _ ← upd_buf i (fun x => mkBuf false false d b (locked x) 1 (data x));
          _ ← acquiresleep i;
          mret i
      | None => fail Panic
      end
  end.

(** iderw of memide.c. *)
Definition iderw (i : nat) : M bcache unit :=
  x ← getb i;
  if negb (locked x) then fail Panic
  else if valid x && negb (dirty x) then fail Panic
  else if negb (dev x =? 1) then fail Panic
  else s ← get;
  if disksize s <=? blockno x then fail Panic
  else
  _ ← (if dirty x then
         _ ← upd_buf i (set_dirty false);
         modify (fun s => mkBcache (bufs s) (order s) (<[blockno x := data x]> (disk s)) (disksize s) (writes s ++ [(blockno x, data x)]))
       else upd_buf i (set_data (read_disk (disk s) (blockno x))));
  upd_buf i (set_valid true).

Definition bread (d b : Z) : M bcache nat :=
  i ← bget d b;
  x ← getb i;
  _ ← (if valid x then mret tt else iderw i);
  mret i.

Definition bwrite (i : nat) : M bcache unit :=
  x ← getb i;
  if negb (locked x) then fail Panic else
  _ ← upd_buf i (set_dirty true);
  iderw i.

Definition brelse (i : nat) : M bcache unit :=
  x ← getb i;
  if negb (locked x) then fail Panic else
  _ ← releasesleep i;
  _ ← upd_buf i (fun x => set_refcnt (u32 (refcnt x - 1)) x);
  x ← getb i;
  if refcnt x =? 0 then modify (fun s => set_order (i :: filter (fun j => j <> i) (order s)) s) else mret tt.

(** ** What the cache stands for

    [D] holds the blocks that are dirty in the cache, with their contents, and
    [H] the buffers the process holds, with their block and contents. *)
Definition content (s : bcache) (D : gmap Z (list Z)) (b : Z) : list Z := default (read_disk (disk s) b) (D !! b).

Record rep (s : bcache) (D : gmap Z (list Z)) (H : gmap nat (Z * list Z)) : Prop := {
  rb_len : length (bufs s) = NBUF;
  rb_order : order s ≡ₚ seq 0 NBUF;
  rb_key : forall i j, (i < NBUF)%nat -> (j < NBUF)%nat -> dev (buf_at s i) = 1 -> dev (buf_at s j) = 1 ->
    blockno (buf_at s i) = blockno (buf_at s j) -> i = j;
  rb_held : forall i b c, H !! i = Some (b, c) -> (i < NBUF)%nat /\ dev (buf_at s i) = 1 /\ blockno (buf_at s i) = b /\
    valid (buf_at s i) = true /\ locked (buf_at s i) = true /\ refcnt (buf_at s i) = 1 /\ data (buf_at s i) = c /\ b < disksize s;
  rb_free : forall i, (i < NBUF)%nat -> H !! i = None -> locked (buf_at s i) = false /\ refcnt (buf_at s i) = 0 /\
    (dev (buf_at s i) = 1 -> valid (buf_at s i) = true /\ data (buf_at s i) = content s D (blockno (buf_at s i)) /\ blockno (buf_at s i) < disksize s);
  rb_dirty : forall i, (i < NBUF)%nat ->
    dirty (buf_at s i) = bool_decide (dev (buf_at s i) = 1 /\ is_Some (D !! blockno (buf_at s i)));
  rb_pinned : forall b, is_Some (D !! b) -> exists i, (i < NBUF)%nat /\ dev (buf_at s i) = 1 /\ blockno (buf_at s i) = b
}.

(** Operations that leave the disk alone. *)
Definition same_disk (s s' : bcache) : Prop := disk s' = disk s /\ disksize s' = disksize s /\ writes s' = writes s.

Section bio.

Lemma buf_at_put s i j x : length (bufs s) = NBUF -> (i < NBUF)%nat -> buf_at (put_buf i x s) j = if decide (j = i) then x else buf_at s j.
Proof.
  intros Hl Hi. unfold buf_at, put_buf. cbn. destruct (decide (j = i)) as [->|Hne].
  - by rewrite list_lookup_insert_eq by lia.
  - by rewrite list_lookup_insert_ne.
Qed.

Lemma same_disk_refl s : same_disk s s.
Proof. done. Qed.

Lemma same_disk_content s s' D b : same_disk s s' -> content s' D b = content s D b.
Proof. intros (Hd & _). unfold content. by rewrite Hd. Qed.

Lemma in_order s D H i : rep s D H -> i ∈ order s <-> (i < NBUF)%nat.
Proof. intros Hr. rewrite (rb_order _ _ _ Hr), elem_of_seq. lia. Qed.

(** Some buffer is neither held nor dirty when there are enough. *)
Lemma free_buffer s D H : rep s D H -> (size D + size H < NBUF)%nat ->
  exists i, (i < NBUF)%nat /\ H !! i = None /\ dirty (buf_at s i) = false.
Proof.
  intros Hr Hs. destruct (decide (Exists (fun i => H !! i = None /\ dirty (buf_at s i) = false) (seq 0 NBUF))) as [He|Hn].
  - apply Exists_exists in He as (i & Hi%elem_of_seq & H1 & H2). exists i. split_and!; [lia|done..].
  - exfalso. set (L := fst <$> map_to_list H). set (B := fst <$> map_to_list D).
    set (dirties := filter (fun i => H !! i = None) (seq 0 NBUF)).
    assert (seq 0 NBUF ⊆+ L ++ dirties) as Hsub.
    { apply NoDup_submseteq; [apply NoDup_seq|]. intros i Hi. apply elem_of_app. destruct (H !! i) as [c|] eqn:E.
      - left. apply list_elem_of_fmap. exists (i, c). split; [done|]. by apply elem_of_map_to_list.
      - right. by apply list_elem_of_filter. }
    assert (NoDup ((fun i => blockno (buf_at s i)) <$> dirties)) as Hnd.
    { apply NoDup_fmap_2_strong; [|apply NoDup_filter, NoDup_seq]. intros i j [Hi Hi2%elem_of_seq]%list_elem_of_filter [Hj Hj2%elem_of_seq]%list_elem_of_filter Hij.
      assert (forall k, (k < NBUF)%nat -> H !! k = None -> dev (buf_at s k) = 1) as Hdev.
      { intros k Hk Hkn. pose proof (rb_dirty _ _ _ Hr k Hk) as Hd. destruct (dirty (buf_at s k)) eqn:Ed.
        - symmetry in Hd. by apply bool_decide_eq_true in Hd as [? _].
        - exfalso. apply Hn, Exists_exists. exists k. split; [apply elem_of_seq; lia|done]. }
      apply (rb_key _ _ _ Hr); [lia|lia|apply Hdev; [lia|done]|apply Hdev; [lia|done]|done]. }
    assert ((fun i => blockno (buf_at s i)) <$> dirties ⊆+ B) as Hsub2.
    { apply NoDup_submseteq; [done|]. intros b (i & -> & [Hi Hi2%elem_of_seq]%list_elem_of_filter)%list_elem_of_fmap.
      pose proof (rb_dirty _ _ _ Hr i ltac:(lia)) as Hd. destruct (dirty (buf_at s i)) eqn:Ed.
      - symmetry in Hd. apply bool_decide_eq_true in Hd as [_ [c Hc]]. apply list_elem_of_fmap. exists (blockno (buf_at s i), c). split; [done|].
        by apply elem_of_map_to_list.
      - exfalso. apply Hn, Exists_exists. exists i. split; [apply elem_of_seq; lia|done]. }
    apply submseteq_length in Hsub, Hsub2. rewrite length_app, length_seq in Hsub. 
    unfold L, B in Hsub, Hsub2. rewrite length_fmap, length_map_to_list in Hsub. rewrite !length_fmap, length_map_to_list in Hsub2. lia.
Qed.

Lemma put_put i x y s : put_buf i y (put_buf i x s) = put_buf i y s.
Proof. unfold put_buf. cbn. by rewrite list_insert_insert_eq. Qed.

Lemma buf_at_put_eq s i x : length (bufs s) = NBUF -> (i < NBUF)%nat -> buf_at (put_buf i x s) i = x.
Proof. intros. by rewrite buf_at_put, decide_True. Qed.

Lemma upd_buf_put i g x s : length (bufs s) = NBUF -> (i < NBUF)%nat -> upd_buf i g (put_buf i x s) = Ok (tt, put_buf i (g x) s).
Proof. intros Hl Hi. unfold upd_buf, modify. by rewrite buf_at_put_eq, put_put. Qed.

Lemma getb_put i x s : length (bufs s) = NBUF -> (i < NBUF)%nat -> getb i (put_buf i x s) = Ok (x, put_buf i x s).
Proof. intros Hl Hi. unfold getb, mbind, M_bind, get, mret, M_ret. by rewrite buf_at_put_eq. Qed.

Lemma put_self i s : length (bufs s) = NBUF -> (i < NBUF)%nat -> put_buf i (buf_at s i) s = s.
Proof.
  intros Hl Hi. unfold put_buf, buf_at. rewrite list_insert_id; [by destruct s|].
  destruct (lookup_lt_is_Some_2 (bufs s) i ltac:(lia)) as [x Hx]. by rewrite Hx.
Qed.

(** A buffer that nobody holds gets held. *)
Lemma rep_hold s D H i b c : rep s D H -> (i < NBUF)%nat -> H !! i = None -> b < disksize s ->
  (forall j, (j < NBUF)%nat -> j <> i -> dev (buf_at s j) = 1 -> blockno (buf_at s j) <> b) ->
  (dev (buf_at s i) = 1 -> is_Some (D !! blockno (buf_at s i)) -> blockno (buf_at s i) = b) ->
  rep (put_buf i (mkBuf true (bool_decide (is_Some (D !! b))) 1 b true 1 c) s) D (<[i := (b, c)]> H).
Proof.
  intros Hr Hi Hh Hb Hk Hp. pose proof (rb_len _ _ _ Hr) as Hl.
  assert (forall j, buf_at (put_buf i (mkBuf true (bool_decide (is_Some (D !! b))) 1 b true 1 c) s) j =
    if decide (j = i) then mkBuf true (bool_decide (is_Some (D !! b))) 1 b true 1 c else buf_at s j) as Hbuf by (intros j; by apply buf_at_put).
  split.
  - unfold put_buf. cbn. by rewrite length_insert.
  - apply Hr.
  - intros j k Hj Hk' . rewrite !Hbuf. destruct (decide (j = i)) as [->|Hji], (decide (k = i)) as [->|Hki]; [done|..]; cbn [dev blockno].
    + intros _ Hd He. by destruct (Hk k Hk' Hki Hd).
    + intros Hd _ He. by destruct (Hk j Hj Hji Hd).
    + by apply (rb_key _ _ _ Hr).
  - intros j b' c' Hj. rewrite Hbuf. destruct (decide (j = i)) as [->|Hji].
    + rewrite lookup_insert_eq in Hj. injection Hj as <- <-. by split_and!.
    + rewrite lookup_insert_ne in Hj by done. by apply (rb_held _ _ _ Hr).
  - intros j Hj Hn. rewrite Hbuf. destruct (decide (j = i)) as [->|Hji]; [by rewrite lookup_insert_eq in Hn|].
    rewrite lookup_insert_ne in Hn by done. by apply (rb_free _ _ _ Hr).
  - intros j Hj. rewrite Hbuf. destruct (decide (j = i)) as [->|Hji]; cbn [dirty dev blockno]; [|by apply Hr].
    apply bool_decide_ext. naive_solver.
  - intros b' Hb'. destruct (rb_pinned _ _ _ Hr b' Hb') as (j & Hj & Hd & Hn). destruct (decide (j = i)) as [->|Hji].
    + exists i. split; [done|]. rewrite Hbuf, decide_True by done. split; [done|]. cbn. rewrite <-Hp; [done|done|by rewrite Hn].
    + exists j. split; [done|]. rewrite Hbuf, decide_False by done. done.
Qed.

(** The buffer that bget picks for a block: the one that caches it, or else the
    least recently used of those neither in use nor dirty. *)
Definition victim (s : bcache) (b : Z) (i : nat) : Prop :=
  (dev (buf_at s i) = 1 /\ blockno (buf_at s i) = b) \/
  ((forall j, j ∈ order s -> ~ (dev (buf_at s j) = 1 /\ blockno (buf_at s j) = b)) /\
   exists l1 l2, order s = l1 ++ i :: l2 /\ refcnt (buf_at s i) = 0 /\ dirty (buf_at s i) = false /\
     forall j, j ∈ l2 -> ~ (refcnt (buf_at s j) = 0 /\ dirty (buf_at s j) = false)).

Lemma last_such (P : nat -> Prop) `{forall x, Decision (P x)} (l : list nat) k i : list_find P (reverse l) = Some (k, i) ->
  exists l1 l2, l = l1 ++ i :: l2 /\ P i /\ forall j, j ∈ l2 -> ~ P j.
Proof.
  intros (Hk & Hi & Hb)%list_find_Some. apply list_elem_of_split_length in Hk as (r1 & r2 & Hr & Hlen).
  exists (reverse r2), (reverse r1). split_and!; [|done|].
  - apply (f_equal reverse) in Hr. by rewrite reverse_involutive, reverse_app, reverse_cons, <-app_assoc in Hr.
  - intros j Hj. rewrite elem_of_reverse in Hj. apply list_elem_of_lookup in Hj as [m Hm].
    apply (Hb m j); [|subst k; by eapply lookup_lt_Some]. rewrite Hr. by apply lookup_app_l_Some.
Qed.

(** bread.  The process gets a buffer it does not hold yet, locked, with the
    current contents of the block; the disk is only read. *)
Lemma bread_ok s D H b : rep s D H -> b < disksize s -> (forall i c, H !! i <> Some (b, c)) ->
  is_Some (D !! b) \/ (size D + size H < NBUF)%nat ->
  exists i s', bread 1 b s = Ok (i, s') /\ H !! i = None /\ (i < NBUF)%nat /\ rep s' D (<[i := (b, content s D b)]> H) /\ same_disk s s' /\
    victim s b i /\ exists x, s' = put_buf i x s.
Proof.
  intros Hr Hb Hh Hroom. pose proof (rb_len _ _ _ Hr) as Hl. unfold bread, bget.
  destruct (list_find (fun i => dev (buf_at s i) = 1 /\ blockno (buf_at s i) = b) (order s)) as [[k i]|] eqn:Ef.
  - pose proof Ef as Ef'. apply list_find_Some in Ef' as (Ho & [Hd Hbn] & _). assert (i < NBUF)%nat as Hi by (apply (in_order _ _ _ _ Hr); by eapply list_elem_of_lookup_2).
    assert (H !! i = None) as Hn.
    { destruct (H !! i) as [[b' c]|] eqn:E; [|done]. destruct (rb_held _ _ _ Hr i b' c E) as (_ & _ & Hb' & _).
      rewrite Hbn in Hb'. subst b'. by destruct (Hh i c). }
    destruct (rb_free _ _ _ Hr i Hi Hn) as (Hlk & Hrc & Hv). destruct (Hv Hd) as (Hv1 & Hv2 & _). rewrite Hbn in Hv2.
    pose proof (rb_dirty _ _ _ Hr i Hi) as Hdi.
    exists i, (put_buf i (mkBuf true (bool_decide (is_Some (D !! b))) 1 b true 1 (content s D b)) s).
    split_and!; [|done|done| |done..|by left|by eexists].
    + erewrite bind_Ok.
      2:{ erewrite bind_Ok by reflexivity. rewrite Ef. erewrite bind_Ok by reflexivity. erewrite bind_Ok; [reflexivity|].
          unfold acquiresleep. rewrite (bind_Ok _ _ _ _ _ (getb_put i _ s Hl Hi)). cbn [locked set_refcnt]. rewrite Hlk. by apply upd_buf_put. }
      rewrite (bind_Ok _ _ _ _ _ (getb_put i _ s Hl Hi)). cbn [valid set_locked set_refcnt]. rewrite Hv1, Hrc.
      unfold mbind, M_bind, mret, M_ret. do 3 f_equal.
      destruct (buf_at s i) as [v dr d n l r da]. cbn [valid dirty dev blockno locked refcnt data] in *. subst.
      unfold set_locked, set_refcnt. cbn [valid dirty dev blockno locked refcnt data]. change (u32 (0 + 1)) with 1. f_equal.
      apply bool_decide_ext. naive_solver.
    + apply rep_hold; try done. intros j Hj Hji Hdj Hbj. apply Hji. by apply (rb_key _ _ _ Hr); try congruence.
  - rewrite list_find_None in Ef. rewrite Forall_forall in Ef.
    assert (forall j, (j < NBUF)%nat -> dev (buf_at s j) = 1 -> blockno (buf_at s j) <> b) as Hno.
    { intros j Hj Hd Hbj. apply (Ef j); [by apply (in_order _ _ _ _ Hr)|done]. }
    assert (D !! b = None) as HDb.
    { destruct (D !! b) as [c|] eqn:E; [|done]. destruct (rb_pinned _ _ _ Hr b) as (j & Hj & Hd & Hbj); [by exists c|]. by destruct (Hno j Hj Hd). }
    destruct Hroom as [[c Hc]|Hroom]; [congruence|].
    destruct (list_find (fun i => refcnt (buf_at s i) = 0 /\ dirty (buf_at s i) = false) (reverse (order s))) as [[k i]|] eqn:Eg.
    2:{ exfalso. rewrite list_find_None, Forall_forall in Eg. destruct (free_buffer _ _ _ Hr Hroom) as (i & Hi & Hn & Hdi).
        apply (Eg i); [rewrite elem_of_reverse; by apply (in_order _ _ _ _ Hr)|]. by destruct (rb_free _ _ _ Hr i Hi Hn) as (_ & ? & _). }
    pose proof Eg as Eg'. apply list_find_Some in Eg' as (Ho & [Hrc Hdi] & _).
    assert (i < NBUF)%nat as Hi by (apply (in_order _ _ _ _ Hr); rewrite <-elem_of_reverse; by eapply list_elem_of_lookup_2).
    assert (H !! i = None) as Hn.
    { destruct (H !! i) as [[b' c]|] eqn:E; [|done]. destruct (rb_held _ _ _ Hr i b' c E) as (_ & _ & _ & _ & _ & Hrc' & _). lia. }
    destruct (rb_free _ _ _ Hr i Hi Hn) as (Hlk & _ & _).
    exists i, (put_buf i (mkBuf true (bool_decide (is_Some (D !! b))) 1 b true 1 (content s D b)) s).
    split_and!; [|done|done| |done..| |by eexists].
    3:{ right. split; [done|]. apply last_such in Eg as (l1 & l2 & Hl12 & (_ & _) & Hl2). by exists l1, l2. }
    + erewrite bind_Ok.
      2:{ erewrite bind_Ok by reflexivity. rewrite (proj2 (list_find_None _ _)) by (by apply Forall_forall). rewrite Eg.
          erewrite bind_Ok by reflexivity. erewrite bind_Ok; [reflexivity|].
          unfold acquiresleep. rewrite (bind_Ok _ _ _ _ _ (getb_put i _ s Hl Hi)). cbn [locked]. rewrite Hlk. by apply upd_buf_put. }
      rewrite (bind_Ok _ _ _ _ _ (getb_put i _ s Hl Hi)). cbn [valid set_locked]. unfold iderw.
      erewrite bind_Ok; [reflexivity|]. rewrite (bind_Ok _ _ _ _ _ (getb_put i _ s Hl Hi)). cbn [valid dirty dev locked set_locked negb andb blockno].
      change (1 =? 1) with true. cbn [negb]. cbv beta iota. erewrite bind_Ok by reflexivity.
      change (disksize (put_buf _ _ s)) with (disksize s). rewrite (proj2 (Z.leb_gt _ _)) by lia.
      rewrite (bind_Ok _ _ _ _ _ (upd_buf_put i _ _ s Hl Hi)), (upd_buf_put i _ _ s Hl Hi). do 3 f_equal.
      unfold set_valid, set_data. cbn [valid dirty dev blockno locked refcnt data]. f_equal.
      * rewrite HDb. done.
      * unfold content. by rewrite HDb.
    + apply rep_hold; try done.
      * intros j Hj _ Hdj Hbj. by destruct (Hno j Hj Hdj).
      * intros Hd Hs. rewrite (rb_dirty _ _ _ Hr i Hi) in Hdi. apply bool_decide_eq_false in Hdi. tauto.
Qed.

(** The buffer held in slot [i] changes, and with it what the cache stands for. *)
Lemma rep_put s D H i b c x D' H' o d ws : rep s D H -> H !! i = Some (b, c) ->
  dev x = 1 -> blockno x = b -> valid x = true -> dirty x = bool_decide (is_Some (D' !! b)) ->
  (forall b', b' <> b -> D' !! b' = D !! b' /\ read_disk d b' = read_disk (disk s) b') ->
  (forall j, j <> i -> H' !! j = H !! j) -> o ≡ₚ seq 0 NBUF ->
  match H' !! i with
  | Some (b', c') => b' = b /\ locked x = true /\ refcnt x = 1 /\ data x = c'
  | None => locked x = false /\ refcnt x = 0 /\ data x = default (read_disk d b) (D' !! b)
  end ->
  rep (mkBcache (<[i := x]> (bufs s)) o d (disksize s) ws) D' H'.
Proof.
  intros Hr Hh Hd Hb Hv Hdi HD HH Ho Hx. pose proof (rb_len _ _ _ Hr) as Hl.
  destruct (rb_held _ _ _ Hr i b c Hh) as (Hi & Hdi0 & Hb0 & _ & _ & _ & _ & Hlt).
  set (s' := mkBcache _ _ _ _ _).
  assert (forall j, buf_at s' j = if decide (j = i) then x else buf_at s j) as Hbuf by (intros j; by apply buf_at_put).
  assert (forall j, (j < NBUF)%nat -> j <> i -> dev (buf_at s j) = 1 -> blockno (buf_at s j) <> b) as Hother.
  { intros j Hj Hji Hdj Hbj. apply Hji. apply (rb_key _ _ _ Hr); try done; congruence. }
  split.
  - cbn. by rewrite length_insert.
  - exact Ho.
  - intros j k Hj Hk'. rewrite !Hbuf. destruct (decide (j = i)) as [->|Hji], (decide (k = i)) as [->|Hki]; [done|..].
    + rewrite Hb. intros _ Hdk He. by destruct (Hother k Hk' Hki Hdk).
    + rewrite Hb. intros Hdj _ He. by destruct (Hother j Hj Hji Hdj).
    + by apply (rb_key _ _ _ Hr).
  - intros j b' c' Hj. rewrite Hbuf. destruct (decide (j = i)) as [->|Hji].
    + rewrite Hj in Hx. destruct Hx as (-> & H1 & H2 & H3). by split_and!.
    + rewrite HH in Hj by done. by apply (rb_held _ _ _ Hr).
  - intros j Hj Hn. rewrite Hbuf. destruct (decide (j = i)) as [->|Hji].
    + rewrite Hn in Hx. destruct Hx as (H1 & H2 & H3). rewrite Hb. by split_and!.
    + rewrite HH in Hn by done. destruct (rb_free _ _ _ Hr j Hj Hn) as (H1 & H2 & H3). split_and!; [done|done|].
      intros Hdj. destruct (H3 Hdj) as (H4 & H5 & H6). destruct (HD (blockno (buf_at s j)) (Hother j Hj Hji Hdj)) as [E1 E2].
      split_and!; [done| |done]. rewrite H5. unfold content, s'. cbn [disk]. by rewrite E1, E2.
  - intros j Hj. rewrite Hbuf. destruct (decide (j = i)) as [->|Hji].
    + rewrite Hdi, Hd, Hb. apply bool_decide_ext. naive_solver.
    + rewrite (rb_dirty _ _ _ Hr j Hj). apply bool_decide_ext. split; intros [Hdj He]; (split; [done|]);
        destruct (HD (blockno (buf_at s j)) (Hother j Hj Hji Hdj)) as [E1 _]; congruence.
  - intros b' Hb'. destruct (decide (b' = b)) as [->|Hne].
    + exists i. split; [done|]. rewrite Hbuf, decide_True by done. done.
    + rewrite (proj1 (HD b' Hne)) in Hb'. destruct (rb_pinned _ _ _ Hr b' Hb') as (j & Hj & Hdj & Hbj). exists j. split; [done|].
      rewrite Hbuf, decide_False; [done|]. intros ->. congruence.
Qed.

(** The holder changes the data of its buffer. *)
Lemma set_data_ok s D H i b c c' : rep s D H -> H !! i = Some (b, c) ->
  exists s', upd_buf i (set_data c') s = Ok (tt, s') /\ rep s' D (<[i := (b, c')]> H) /\ same_disk s s'.
Proof.
  intros Hr Hh. destruct (rb_held _ _ _ Hr i b c Hh) as (Hi & Hd & Hb & Hv & Hlk & Hrc & _ & _).
  eexists. split; [reflexivity|]. split; [|done]. eapply (rep_put s D H i b c); try done.
  - cbn. rewrite (rb_dirty _ _ _ Hr i Hi), Hd, Hb. apply bool_decide_ext. naive_solver.
  - intros j Hj. by rewrite lookup_insert_ne.
  - apply Hr.
  - rewrite lookup_insert_eq. by split_and!.
Qed.

(** log_write marks a held buffer dirty. *)
Lemma set_dirty_ok s D H i b c : rep s D H -> H !! i = Some (b, c) ->
  exists s', upd_buf i (set_dirty true) s = Ok (tt, s') /\ rep s' (<[b := c]> D) H /\ same_disk s s'.
Proof.
  intros Hr Hh. destruct (rb_held _ _ _ Hr i b c Hh) as (Hi & Hd & Hb & Hv & Hlk & Hrc & Hdata & _).
  eexists. split; [reflexivity|]. split; [|done]. eapply (rep_put s D H i b c); try done.
  - symmetry. apply bool_decide_eq_true. rewrite lookup_insert_eq. by eexists.
  - intros b' Hne. split; [by rewrite lookup_insert_ne|done].
  - apply Hr.
  - rewrite Hh. by split_and!.
Qed.

Lemma iderw_dirty s i x : length (bufs s) = NBUF -> (i < NBUF)%nat -> locked x = true -> dirty x = true -> dev x = 1 -> blockno x < disksize s ->
  iderw i (put_buf i x s) =
    Ok (tt, mkBcache (<[i := set_valid true (set_dirty false x)]> (bufs s)) (order s) (<[blockno x := data x]> (disk s)) (disksize s)
      (writes s ++ [(blockno x, data x)])).
Proof.
  intros Hl Hi Hlk Hdi Hd Hb. unfold iderw. rewrite (bind_Ok _ _ _ _ _ (getb_put i x s Hl Hi)). rewrite Hlk, Hdi, Hd, andb_false_r.
  change (1 =? 1) with true. cbn [negb]. cbv beta iota. erewrite bind_Ok by reflexivity. change (disksize (put_buf _ _ s)) with (disksize s).
  rewrite (proj2 (Z.leb_gt _ _)) by lia. erewrite bind_Ok.
  2:{ rewrite (bind_Ok _ _ _ _ _ (upd_buf_put i _ x s Hl Hi)). reflexivity. }
  unfold upd_buf, modify. do 3 f_equal. unfold put_buf. cbn [bufs order disk disksize writes]. f_equal. unfold buf_at. cbn [bufs].
  rewrite list_lookup_insert_eq by lia. by rewrite list_insert_insert_eq.
Qed.

(** bwrite puts the contents on the disk; the block is clean then. *)
Lemma bwrite_ok s D H i b c : rep s D H -> H !! i = Some (b, c) ->
  exists s', bwrite i s = Ok (tt, s') /\ rep s' (delete b D) H /\ disk s' = <[b := c]> (disk s) /\ disksize s' = disksize s /\
    writes s' = writes s ++ [(b, c)].
Proof.
  intros Hr Hh. destruct (rb_held _ _ _ Hr i b c Hh) as (Hi & Hd & Hb & Hv & Hlk & Hrc & Hdata & Hlt). pose proof (rb_len _ _ _ Hr) as Hl.
  eexists. split.
  { unfold bwrite. erewrite bind_Ok by reflexivity. rewrite Hlk. cbn [negb]. erewrite bind_Ok by reflexivity. rewrite iderw_dirty; try done. cbn. lia. }
  cbn [blockno data set_dirty]. rewrite Hb, Hdata. split; [|done]. eapply (rep_put s D H i b c); try done.
  - symmetry. apply bool_decide_eq_false. rewrite lookup_delete_eq. by intros [? ?].
  - intros b' Hne. rewrite lookup_delete_ne by done. split; [done|]. unfold read_disk. by rewrite lookup_insert_ne.
  - apply Hr.
  - rewrite Hh. by split_and!.
Qed.

Lemma move_to_front (i : nat) l : NoDup l -> i ∈ l -> i :: filter (fun j => j <> i) l ≡ₚ l.
Proof.
  intros Hn Hi. apply NoDup_Permutation.
  - constructor; [|by apply NoDup_filter]. intros [? _]%list_elem_of_filter. done.
  - done.
  - intros j. rewrite elem_of_cons, list_elem_of_filter. destruct (decide (j = i)) as [->|]; tauto.
Qed.

(** brelse gives the buffer back and makes it the most recently used. *)
Lemma brelse_ok s D H i b : rep s D H -> H !! i = Some (b, content s D b) ->
  exists s', brelse i s = Ok (tt, s') /\ rep s' D (delete i H) /\ same_disk s s' /\ head (order s') = Some i.
Proof.
  intros Hr Hh. destruct (rb_held _ _ _ Hr i b _ Hh) as (Hi & Hd & Hb & Hv & Hlk & Hrc & Hdata & Hlt). pose proof (rb_len _ _ _ Hr) as Hl.
  eexists. split.
  { unfold brelse. erewrite bind_Ok by reflexivity. rewrite Hlk. cbn [negb]. unfold releasesleep. erewrite bind_Ok by reflexivity.
    rewrite (bind_Ok _ _ _ _ _ (upd_buf_put i _ _ s Hl Hi)), (bind_Ok _ _ _ _ _ (getb_put i _ s Hl Hi)). cbn [refcnt set_refcnt set_locked].
    rewrite Hrc. change (u32 (1 - 1)) with 0. reflexivity. }
  split; [|done]. eapply (rep_put s D H i b); try done.
  - cbn. rewrite (rb_dirty _ _ _ Hr i Hi), Hd, Hb. apply bool_decide_ext. naive_solver.
  - intros j Hj. by rewrite lookup_delete_ne.
  - cbn [order]. rewrite move_to_front; [apply Hr| |by apply (in_order _ _ _ _ Hr)]. rewrite (rb_order _ _ _ Hr). apply NoDup_seq.
  - rewrite lookup_delete_eq. by split_and!.
Qed.

(** The cache at boot. *)
Lemma binit_ok d size : rep (binit d size) ∅ ∅ .
Proof.
  assert (forall i, buf_at (binit d size) i = zero_buf) as Hz.
  { intros i. unfold buf_at, binit. cbn [bufs]. destruct (decide (i < NBUF)%nat) as [Hi|Hi].
    - by rewrite lookup_replicate_2.
    - by rewrite lookup_ge_None_2 by (rewrite length_replicate; lia). }
  split.
  - done.
  - apply (reverse_Permutation (seq 0 NBUF)).
  - intros i j Hi Hj. by rewrite Hz.
  - intros i b c Hi. by rewrite lookup_empty in Hi.
  - intros i Hi _. by rewrite Hz.
  - intros i Hi. by rewrite Hz.
  - intros b [c Hc]. by rewrite lookup_empty in Hc.
Qed.
End bio.

(** ** Reading and writing blocks through the cache *)

Inductive blockop : Type := Read (b : Z) | Write (b : Z) (c : list Z).

Definition op_block (o : blockop) : Z := match o with Read b => b | Write b _ => b end.

Definition run_op (o : blockop) : M bcache (list (list Z)) :=
  match o with
  | Read b => i ← bread 1 b; x ← getb i; _ ← brelse i; mret [data x]
  | Write b c => i ← bread 1 b; _ ← upd_buf i (set_data c); _ ← bwrite i; _ ← brelse i; mret []
  end.

Fixpoint run_ops (os : list blockop) : M bcache (list (list Z)) :=
  match os with
  | [] => mret []
  | o :: os' => r ← run_op o; rs ← run_ops os'; mret (r ++ rs)
  end.

(** The same on a disk without a cache: the blocks read, and the disk. *)
Fixpoint direct (os : list blockop) (d : gmap Z (list Z)) : list (list Z) * gmap Z (list Z) :=
  match os with
  | [] => ([], d)
  | Read b :: os' => let (rs, d') := direct os' d in (read_disk d b :: rs, d')
  | Write b c :: os' => direct os' (<[b := c]> d)
  end.
Definition written (os : list blockop) : list (Z * list Z) :=
  omap (fun o => match o with Read _ => None | Write b c => Some (b, c) end) os.

Section transparent.

Lemma bread_held D H i b c s : rep s D (<[i := (b, c)]> H) -> getb i s = Ok (buf_at s i, s) /\ data (buf_at s i) = c.
Proof. intros Hr. split; [done|]. by destruct (rb_held _ _ _ Hr i b c (lookup_insert_eq _ _ _)) as (_&_&_&_&_&_&?&_). Qed.

Lemma run_op_ok s o : rep s ∅ ∅ -> op_block o < disksize s -> exists s',
  run_op o s = Ok (fst (direct [o] (disk s)), s') /\ rep s' ∅ ∅ /\ disk s' = snd (direct [o] (disk s)) /\
  disksize s' = disksize s /\ writes s' = writes s ++ written [o].
Proof.
  intros Hr Hb. assert (forall i c, (∅ : gmap nat (Z * list Z)) !! i <> Some (op_block o, c)) as Hh by (intros i c; by rewrite lookup_empty).
  destruct (bread_ok s ∅ ∅ (op_block o) Hr Hb Hh) as (i & s1 & H1 & _ & Hi & Hr1 & (Hd1 & Hs1 & Hw1) & _).
  { right. rewrite !map_size_empty. unfold NBUF. lia. }
  assert (content s ∅ (op_block o) = read_disk (disk s) (op_block o)) as Hc by (unfold content; by rewrite lookup_empty).
  rewrite Hc in Hr1. destruct o as [b|b c]; cbn [op_block run_op direct fst snd written omap list_omap] in *; rewrite (bind_Ok _ _ _ _ _ H1).
  - destruct (bread_held _ _ _ _ _ s1 Hr1) as [H2 H3]. rewrite (bind_Ok _ _ _ _ _ H2), H3.
    destruct (brelse_ok s1 ∅ _ i b Hr1) as (s2 & H4 & Hr2 & (Hd2 & Hs2 & Hw2) & _).
    { rewrite lookup_insert_eq. unfold content. by rewrite lookup_empty, Hd1. }
    rewrite delete_insert_id in Hr2 by done. rewrite (bind_Ok _ _ _ _ _ H4). exists s2. rewrite app_nil_r. split_and!; try done; congruence.
  - destruct (set_data_ok s1 _ _ i b _ c Hr1 (lookup_insert_eq _ _ _)) as (s2 & H2 & Hr2 & (Hd2 & Hs2 & Hw2)). rewrite insert_insert_eq in Hr2.
    rewrite (bind_Ok _ _ _ _ _ H2).
    destruct (bwrite_ok s2 _ _ i b c Hr2 (lookup_insert_eq _ _ _)) as (s3 & H3 & Hr3 & Hd3 & Hs3 & Hw3). rewrite delete_empty in Hr3.
    rewrite (bind_Ok _ _ _ _ _ H3).
    destruct (brelse_ok s3 ∅ _ i b Hr3) as (s4 & H4 & Hr4 & (Hd4 & Hs4 & Hw4) & _).
    { rewrite lookup_insert_eq. unfold content, read_disk. by rewrite lookup_empty, Hd3, lookup_insert_eq. }
    rewrite delete_insert_id in Hr4 by done. rewrite (bind_Ok _ _ _ _ _ H4). exists s4. split_and!; try done; congruence.
Qed.

(** C40: the cache is transparent.  From boot on, any sequence of block reads
    and writes through the buffer cache returns the same blocks as on a disk
    without a cache, writes the same blocks in the same order and leaves the
    same disk; no buffer is ever missing. *)
Theorem cache_transparent d size os : Forall (fun o => op_block o < size) os -> exists s',
  run_ops os (binit d size) = Ok (fst (direct os d), s') /\ disk s' = snd (direct os d) /\ writes s' = written os.
Proof.
  intros Hos. assert (forall s, rep s ∅ ∅ -> disksize s = size -> exists s', run_ops os s = Ok (fst (direct os (disk s)), s') /\
    disk s' = snd (direct os (disk s)) /\ writes s' = writes s ++ written os) as Hgen.
  { induction Hos as [|o os Ho Hos IH]; intros s Hr Hs.
    - exists s. split_and!; [done|done|]. cbn. by rewrite app_nil_r.
    - cbn [run_ops]. destruct (run_op_ok s o Hr ltac:(lia)) as (s1 & H1 & Hr1 & Hd1 & Hs1 & Hw1). rewrite (bind_Ok _ _ _ _ _ H1).
      destruct (IH s1 Hr1 ltac:(congruence)) as (s2 & H2 & Hd2 & Hw2). rewrite (bind_Ok _ _ _ _ _ H2). exists s2.
      rewrite Hd1 in *. rewrite Hw2, Hw1, <-app_assoc. destruct o as [b|b c]; cbn [direct fst snd] in *;
        [destruct (direct os (disk s)) eqn:E; cbn in *|]; by split_and!. }
  destruct (Hgen (binit d size) (binit_ok d size) eq_refl) as (s' & H1 & H2 & H3). by exists s'.
Qed.
End transparent.

Lemma cache_transparent_witness : exists s',
  run_ops [Write 7 [1]; Read 7; Read 8] (binit ∅ 10) = Ok ([[1]; zero_block], s') /\ disk s' = {[7 := [1]]} /\ writes s' = [(7, [1])].
Proof.
  destruct (cache_transparent ∅ 10 [Write 7 [1]; Read 7; Read 8]) as (s' & H1 & H2 & H3); [repeat constructor|]. by exists s'.
Defined.
