(* ===== verification/Log.v ===== *)
(** * The write-ahead log, xv6 wmap/solution/log.c

    The log of the file system, over the buffer cache of Bio.v.  Only the first
    [lh.n] entries of the in-memory header are ever read, so the header is the
    list of those block numbers.  begin_op answers whether it may go on, since
    a process that may not sleeps until a commit.  Calls are the steps of any
    interleaving: the lock makes each of begin_op, log_write and end_op
    indivisible, and nothing else runs while end_op commits. *)
From S2P Require Import Prelude Bio.

Definition MAXOPBLOCKS : Z := 10.
Definition LOGSIZE : Z := MAXOPBLOCKS * 3.

Record log : Type := mkLog {
  start : Z;
  size : Z;
  outstanding : Z;
  committing : bool;
  ldev : Z;
  lh : list Z;
  bc : bcache
}.

Definition set_bc (s : bcache) (l : log) : log := mkLog (start l) (size l) (outstanding l) (committing l) (ldev l) (lh l) s.
Definition set_lh (bs : list Z) (l : log) : log := mkLog (start l) (size l) (outstanding l) (committing l) (ldev l) bs (bc l).
Definition set_state (o : Z) (c : bool) (l : log) : log := mkLog (start l) (size l) o c (ldev l) (lh l) (bc l).

Definition with_bc {A} (m : M bcache A) : M log A := fun l =>
  match m (bc l) with Ok (a, s) => Ok (a, set_bc s l) | Err e => Err e end.

(** ** The header block *)

(** The words of [struct logheader], written over a block. *)
Definition encode_head (bs : list Z) (d : list Z) : list Z := list_inserts 1 bs (<[0%nat := Z.of_nat (length bs)]> d).

Definition read_head : M log unit :=
  l ← get;
  i ← with_bc (bread (ldev l) (start l));
  x ← with_bc (getb i);
  let n := to_int (default 0 (data x !! 0%nat)) in
  if LOGSIZE <? n then fail Undefined else
  _ ← modify (set_lh (take (Z.to_nat n) (drop 1 (data x))));
  with_bc (brelse i).

Definition write_head : M log unit :=
  l ← get;
  i ← with_bc (bread (ldev l) (start l));
  _ ← with_bc (upd_buf i (fun x => set_data (encode_head (lh l) (data x)) x));
  _ ← with_bc (bwrite i);
  with_bc (brelse i).

(** ** Copying between the log and the home locations

    The loops over the header, from entry [tail] on. *)
Fixpoint install_loop (bs : list Z) (tail : Z) : M log unit :=
  match bs with
  | [] => mret tt
  | b :: bs' =>
      l ← get;
      a ← lift (sint (start l + tail + 1));
      lbuf ← with_bc (bread (ldev l) a);
      dbuf ← with_bc (bread (ldev l) b);
      x ← with_bc (getb lbuf);
      _ ← with_bc (upd_buf dbuf (set_data (data x)));
      _ ← with_bc (bwrite dbuf);
      _ ← with_bc (brelse lbuf);
      _ ← with_bc (brelse dbuf);
      install_loop bs' (tail + 1)
  end.
Definition install_trans : M log unit := l ← get; install_loop (lh l) 0.

Fixpoint write_log_loop (bs : list Z) (tail : Z) : M log unit :=
  match bs with
  | [] => mret tt
  | b :: bs' =>
      l ← get;
      a ← lift (sint (start l + tail + 1));
      to ← with_bc (bread (ldev l) a);
      from ← with_bc (bread (ldev l) b);
      x ← with_bc (getb from);
      _ ← with_bc (upd_buf to (set_data (data x)));
      _ ← with_bc (bwrite to);
      _ ← with_bc (brelse from);
      _ ← with_bc (brelse to);
      write_log_loop bs' (tail + 1)
  end.
Definition write_log : M log unit := l ← get; write_log_loop (lh l) 0.

(** ** Recovery *)
Definition recover_from_log : M log unit :=
  _ ← read_head;
  _ ← install_trans;
  _ ← modify (set_lh []);
  write_head.

(** The super block (fs.h), and readsb (fs.c), which copies it out of block 1. *)
Record superblock : Type := mkSb {
  sb_size : Z; nblocks : Z; ninodes : Z; nlog : Z; logstart : Z; inodestart : Z; bmapstart : Z
}.
Definition decode_sb (d : list Z) : superblock :=
  let w k := default 0 (d !! k) in mkSb (w 0%nat) (w 1%nat) (w 2%nat) (w 3%nat) (w 4%nat) (w 5%nat) (w 6%nat).
Definition readsb (d : Z) : M bcache superblock :=
  i ← bread d 1;
  x ← getb i;
  _ ← brelse i;
  mret (decode_sb (data x)).

Definition initlog (d : Z) : M log unit :=
  sb ← with_bc (readsb d);
  _ ← modify (fun l => mkLog (to_int (logstart sb)) (to_int (nlog sb)) (outstanding l) (committing l) d (lh l) (bc l));
  recover_from_log.

(** The log variable and the buffer cache as the kernel finds them at boot. *)
Definition boot (d : gmap Z (list Z)) (dsize : Z) : log := mkLog 0 0 0 false 0 [] (binit d dsize).

(** ** Transactions *)
Definition commit : M log unit :=
  l ← get;
  if 0 <? Z.of_nat (length (lh l)) then
    _ ← write_log;
    _ ← write_head;
    _ ← install_trans;
    _ ← modify (set_lh []);
    write_head
  else mret tt.

Definition begin_op : M log bool :=
  l ← get;
  if committing l then mret false
  else if LOGSIZE <? Z.of_nat (length (lh l)) + (outstanding l + 1) * MAXOPBLOCKS then mret false
  else _ ← modify (fun l => set_state (outstanding l + 1) (committing l) l); mret true.

Definition end_op : M log unit :=
  _ ← modify (fun l => set_state (outstanding l - 1) (committing l) l);
  l ← get;
  if committing l then fail Panic
  else if outstanding l =? 0 then
    _ ← modify (fun l => set_state (outstanding l) true l);
    _ ← commit;
    modify (fun l => set_state (outstanding l) false l)
  else mret tt.

Definition log_write (i : nat) : M log unit :=
  l ← get;
  if (LOGSIZE <=? Z.of_nat (length (lh l))) || (size l - 1 <=? Z.of_nat (length (lh l))) then fail Panic
  else if outstanding l <? 1 then fail Panic
  else
  x ← with_bc (getb i);
  _ ← (match list_find (fun b => b = blockno x) (lh l) with
       | Some _ => mret tt
       | None => modify (set_lh (lh l ++ [blockno x]))
       end);
  with_bc (upd_buf i (set_dirty true)).

(** ** The calls of file-system operations *)
Inductive logop : Type := Begin | Update (b : Z) (c : list Z) | End.

(** A block changes the way the comment before log_write describes. *)
Definition exec_op (o : logop) : M log unit :=
  match o with
  | Begin => go ← begin_op; if (go : bool) then mret tt else fail OutOfFuel
  | Update b c =>
      i ← with_bc (bread 1 b);
      _ ← with_bc (upd_buf i (set_data c));
      _ ← log_write i;
      with_bc (brelse i)
  | End => end_op
  end.

Fixpoint exec_ops (os : list logop) : M log unit :=
  match os with
  | [] => mret tt
  | o :: os' => _ ← exec_op o; exec_ops os'
  end.

(** What the disk holds after the writes [ws]. *)
Definition apply_writes (ws : list (Z * list Z)) (d : gmap Z (list Z)) : gmap Z (list Z) :=
  fold_left (fun d w => <[w.1 := w.2]> d) ws d.

(** ** Disks and headers *)

Lemma apply_writes_app ws1 ws2 d : apply_writes (ws1 ++ ws2) d = apply_writes ws2 (apply_writes ws1 d).
Proof. apply fold_left_app. Qed.

Lemma read_insert b c d x : read_disk (<[b := c]> d) x = if decide (x = b) then c else read_disk d x.
Proof.
  unfold read_disk. destruct (decide (x = b)) as [->|]; [by rewrite lookup_insert_eq|by rewrite lookup_insert_ne].
Qed.

Lemma read_apply_writes ws d x : x ∉ ws.*1 -> read_disk (apply_writes ws d) x = read_disk d x.
Proof.
  revert d. induction ws as [|[b c] ws IH]; intros d Hx; [done|]. cbn in *. apply not_elem_of_cons in Hx as [Hb Hx].
  rewrite IH by done. by rewrite read_insert, decide_False.
Qed.

(** The header that a block holds. *)
Definition decode_head (d : list Z) : list Z := take (Z.to_nat (to_int (default 0 (d !! 0%nat)))) (drop 1 d).

Lemma length_encode_head bs d : length (encode_head bs d) = length d.
Proof. unfold encode_head. by rewrite length_inserts, length_insert. Qed.

Lemma encode_head_0 bs d : (0 < length d)%nat -> encode_head bs d !! 0%nat = Some (Z.of_nat (length bs)).
Proof. intros Hd. unfold encode_head. rewrite list_lookup_inserts_lt by lia. by apply list_lookup_insert_eq. Qed.

Lemma decode_encode_head bs d : (length bs < length d)%nat -> Z.of_nat (length bs) <= LOGSIZE -> decode_head (encode_head bs d) = bs.
Proof.
  intros Hd Hb. unfold decode_head. rewrite encode_head_0 by lia. cbn [from_option id].
  rewrite to_int_id by (unfold LOGSIZE, MAXOPBLOCKS in Hb; unfold_bounds; lia). rewrite Nat2Z.id. unfold encode_head.
  apply list_eq. intros i. destruct (decide (i < length bs)%nat) as [Hi|Hi].
  - rewrite lookup_take_lt, lookup_drop by done. rewrite list_lookup_inserts by (rewrite ?length_insert; lia). f_equal. lia.
  - rewrite lookup_take_ge by lia. symmetry. apply lookup_ge_None_2. lia.
Qed.

Section log.
Implicit Types l : log.

Lemma with_bc_ok {A} (m : M bcache A) l a s : m (bc l) = Ok (a, s) -> with_bc m l = Ok (a, set_bc s l).
Proof. intros Hm. unfold with_bc. by rewrite Hm. Qed.

Lemma set_bc_bc s s' l : set_bc s' (set_bc s l) = set_bc s' l.
Proof. done. Qed.

(** The layout of the disk: boot block, super block, log, and home blocks. *)
Record layout (st sz dsize : Z) : Prop := {
  ly_start : 2 <= st;
  ly_size : 2 <= sz <= LOGSIZE;
  ly_end : st + sz <= dsize;
  ly_disk : dsize <= INT_MAX
}.
Definition home (st sz dsize b : Z) : Prop := 0 <= b < dsize /\ b <> 1 /\ ~ (st <= b < st + sz).
(** The home blocks and the super block. *)
Definition kept (st sz dsize b : Z) : Prop := 0 <= b < dsize /\ ~ (st <= b < st + sz).
Lemma home_kept st sz dsize b : home st sz dsize b -> kept st sz dsize b.
Proof. intros (? & _ & ?). done. Qed.

(** What every moment between two calls has in common. *)
Record log_ok (l : log) (D : gmap Z (list Z)) : Prop := {
  lk_layout : layout (start l) (size l) (disksize (bc l));
  lk_rep : rep (bc l) D ∅;
  lk_dev : ldev l = 1;
  lk_home : forall b, is_Some (D !! b) -> home (start l) (size l) (disksize (bc l)) b;
  lk_room : (base.size D < NBUF)%nat;
  lk_head : length (read_disk (disk (bc l)) (start l)) = BWORDS
}.

(** Blocks [bs] with the contents of [D], in the log from block [a] on. *)
Fixpoint logged (bs : list Z) (a : Z) (D : gmap Z (list Z)) : list (Z * list Z) :=
  match bs with
  | [] => []
  | b :: bs' => (a, default zero_block (D !! b)) :: logged bs' (a + 1) D
  end.

(** One step of write_log: a pinned block goes to a block that is not pinned. *)
Lemma copy_to_log s D a b c : rep s D ∅ -> D !! b = Some c -> D !! a = None -> a < disksize s -> b < disksize s -> (base.size D < NBUF)%nat -> exists to from s1 s2 s3 s4 s5 s6,
  bread 1 a s = Ok (to, s1) /\ bread 1 b s1 = Ok (from, s2) /\ getb from s2 = Ok (buf_at s2 from, s2) /\
  upd_buf to (set_data (data (buf_at s2 from))) s2 = Ok (tt, s3) /\ bwrite to s3 = Ok (tt, s4) /\
  brelse from s4 = Ok (tt, s5) /\ brelse to s5 = Ok (tt, s6) /\
  rep s6 D ∅ /\ disk s6 = <[a := c]> (disk s) /\ disksize s6 = disksize s /\ writes s6 = writes s ++ [(a, c)].
Proof.
  intros Hr Hb Ha Hal Hbl Hroom. assert (a <> b) as Hne by congruence.
  destruct (bread_ok s D ∅ a Hr Hal) as (to & s1 & H1 & _ & _ & Hr1 & (Hd1 & Hs1 & Hw1) & _); [intros i c'; by rewrite lookup_empty|right; rewrite map_size_empty; lia|].
  destruct (bread_ok s1 D _ b Hr1 ltac:(lia)) as (from & s2 & H2 & Hf & _ & Hr2 & (Hd2 & Hs2 & Hw2) & _).
  { intros i c' [[_ ?]|[_ He]]%lookup_insert_Some; [congruence|by rewrite lookup_empty in He]. }
  { left. by exists c. }
  apply lookup_insert_None in Hf as [_ Hft].
  destruct (bread_held D (<[to := (a, content s D a)]> ∅) from b (content s1 D b) s2 Hr2) as [H3 Hc].
  destruct (set_data_ok s2 D _ to a (content s D a) (data (buf_at s2 from)) Hr2) as (s3 & H4 & Hr3 & (Hd3 & Hs3 & Hw3)).
  { rewrite lookup_insert_ne by done. apply lookup_insert_eq. }
  assert (content s1 D b = c) as Hcc by (unfold content; by rewrite Hb). rewrite Hcc in *.
  rewrite Hc in *.
  destruct (bwrite_ok s3 D _ to a c Hr3 (lookup_insert_eq _ _ _)) as (s4 & H5 & Hr4 & Hd4 & Hs4 & Hw4).
  rewrite (delete_id D a Ha) in Hr4.
  destruct (brelse_ok s4 D _ from b Hr4) as (s5 & H6 & Hr5 & (Hd5 & Hs5 & Hw5) & _).
  { rewrite lookup_insert_ne, lookup_insert_eq by done. unfold content. by rewrite Hb. }
  destruct (brelse_ok s5 D _ to a Hr5) as (s6 & H7 & Hr6 & (Hd6 & Hs6 & Hw6) & _).
  { rewrite lookup_delete_ne, lookup_insert_eq by done. unfold content, read_disk. by rewrite Ha, Hd5, Hd4, lookup_insert_eq. }
  assert (delete to (delete from (<[from := (b, c)]> (<[to := (a, c)]> (<[to := (a, content s D a)]> ∅)))) = (∅ : gmap nat (Z * list Z))) as Hheld.
  { rewrite insert_insert_eq, delete_insert_id by (by rewrite lookup_insert_ne). by apply delete_insert_id. }
  assert (delete to (delete from (<[to := (a, c)]> (<[from := (b, c)]> (<[to := (a, content s D a)]> ∅)))) = (∅ : gmap nat (Z * list Z))) as Hheld2.
  { by rewrite insert_insert_ne, Hheld. }
  rewrite Hheld2 in Hr6. exists to, from, s1, s2, s3, s4, s5, s6. rewrite Hc. split_and!; try done; congruence.
Qed.

(** One step of install_trans: a log block goes to a home block. *)
Lemma copy_home s D a b : rep s D ∅ -> D !! a = None -> a <> b -> a < disksize s -> b < disksize s ->
  (base.size D < NBUF)%nat -> is_Some (D !! b) \/ (base.size D + 1 < NBUF)%nat -> exists lbuf dbuf s1 s2 s3 s4 s5 s6,
  bread 1 a s = Ok (lbuf, s1) /\ bread 1 b s1 = Ok (dbuf, s2) /\ getb lbuf s2 = Ok (buf_at s2 lbuf, s2) /\
  upd_buf dbuf (set_data (data (buf_at s2 lbuf))) s2 = Ok (tt, s3) /\ bwrite dbuf s3 = Ok (tt, s4) /\
  brelse lbuf s4 = Ok (tt, s5) /\ brelse dbuf s5 = Ok (tt, s6) /\
  rep s6 (delete b D) ∅ /\ disk s6 = <[b := read_disk (disk s) a]> (disk s) /\ disksize s6 = disksize s /\
  writes s6 = writes s ++ [(b, read_disk (disk s) a)].
Proof.
  intros Hr Ha Hne Hal Hbl Hroom Hb.
  destruct (bread_ok s D ∅ a Hr Hal) as (lbuf & s1 & H1 & _ & _ & Hr1 & (Hd1 & Hs1 & Hw1) & _); [intros i c'; by rewrite lookup_empty|right; rewrite map_size_empty; lia|].
  destruct (bread_ok s1 D _ b Hr1 ltac:(lia)) as (dbuf & s2 & H2 & Hf & _ & Hr2 & (Hd2 & Hs2 & Hw2) & _).
  { intros i c' [[_ ?]|[_ He]]%lookup_insert_Some; [congruence|by rewrite lookup_empty in He]. }
  { destruct Hb as [Hb|Hb]; [by left|right]. rewrite map_size_insert_None, map_size_empty by apply lookup_empty. lia. }
  apply lookup_insert_None in Hf as [_ Hft].
  assert (content s D a = read_disk (disk s) a) as Hca by (unfold content; by rewrite Ha). rewrite Hca in *. set (c := read_disk (disk s) a) in *.
  assert (data (buf_at s2 lbuf) = c) as Hc.
  { rewrite insert_insert_ne in Hr2 by done. by destruct (bread_held _ _ _ _ _ s2 Hr2). }
  destruct (set_data_ok s2 D _ dbuf b _ c Hr2 (lookup_insert_eq _ _ _)) as (s3 & H4 & Hr3 & (Hd3 & Hs3 & Hw3)). rewrite insert_insert_eq in Hr3.
  destruct (bwrite_ok s3 D _ dbuf b c Hr3 (lookup_insert_eq _ _ _)) as (s4 & H5 & Hr4 & Hd4 & Hs4 & Hw4).
  destruct (brelse_ok s4 _ _ lbuf a Hr4) as (s5 & H6 & Hr5 & (Hd5 & Hs5 & Hw5) & _).
  { rewrite lookup_insert_ne, lookup_insert_eq by done. unfold content, c. rewrite lookup_delete_ne, Ha by done. cbn [from_option id].
    rewrite Hd4, read_insert, decide_False by done. by rewrite Hd3, Hd2, Hd1. }
  destruct (brelse_ok s5 _ _ dbuf b Hr5) as (s6 & H7 & Hr6 & (Hd6 & Hs6 & Hw6) & _).
  { rewrite lookup_delete_ne, lookup_insert_eq by done. unfold content. rewrite lookup_delete_eq. cbn [from_option id].
    by rewrite Hd5, Hd4, read_insert, decide_True. }
  assert (delete dbuf (delete lbuf (<[dbuf := (b, c)]> (<[lbuf := (a, c)]> ∅))) = (∅ : gmap nat (Z * list Z))) as Hheld.
  { rewrite delete_insert_ne, (delete_insert_id _ lbuf) by done. by apply delete_insert_id. }
  rewrite Hheld in Hr6. exists lbuf, dbuf, s1, s2, s3, s4, s5, s6. rewrite Hc. split_and!; try done; congruence.
Qed.

Lemma write_log_loop_ok bs tail l D : log_ok l D -> (forall b, b ∈ bs -> is_Some (D !! b)) -> 0 <= tail ->
  tail + Z.of_nat (length bs) <= size l - 1 ->
  exists s, write_log_loop bs tail l = Ok (tt, set_bc s l) /\ log_ok (set_bc s l) D /\ disksize s = disksize (bc l) /\
    disk s = apply_writes (logged bs (start l + tail + 1) D) (disk (bc l)) /\
    writes s = writes (bc l) ++ logged bs (start l + tail + 1) D.
Proof.
  revert tail l. induction bs as [|b bs IH]; intros tail l Hl Hbs Ht Hlen.
  { exists (bc l). assert (set_bc (bc l) l = l) as -> by by destruct l. split_and!; try done. cbn. by rewrite app_nil_r. }
  destruct Hl as [HL Hr Hd Hh Hroom Hhead]. pose proof HL as [L1 L2 L3 L4].
  destruct (Hbs b (list_elem_of_here _ _)) as [c Hc]. destruct (Hh b ltac:(by exists c)) as (Hb & _).
  cbn [write_log_loop length] in *. set (a := start l + tail + 1) in *.
  assert (D !! a = None) as Ha.
  { destruct (D !! a) eqn:E; [|done]. destruct (Hh a ltac:(by eexists)) as (_ & _ & Hno). exfalso. apply Hno. unfold a. lia. }
  destruct (copy_to_log (bc l) D a b c Hr Hc Ha) as (to & from & s1 & s2 & s3 & s4 & s5 & s6 & C1 & C2 & C3 & C4 & C5 & C6 & C7 & Hr6 & Hd6 & Hs6 & Hw6);
    [unfold a; lia|lia|done|].
  erewrite bind_Ok by reflexivity. erewrite bind_Ok by (unfold lift; rewrite sint_ok by (unfold_bounds; unfold a in *; lia); reflexivity). fold a.
  rewrite Hd. erewrite bind_Ok by (apply with_bc_ok; exact C1). erewrite bind_Ok by (apply with_bc_ok; exact C2).
  erewrite bind_Ok by (apply with_bc_ok; exact C3). erewrite bind_Ok by (apply with_bc_ok; exact C4).
  erewrite bind_Ok by (apply with_bc_ok; exact C5). erewrite bind_Ok by (apply with_bc_ok; exact C6).
  erewrite bind_Ok by (apply with_bc_ok; exact C7). rewrite !set_bc_bc.
  destruct (IH (tail + 1) (set_bc s6 l)) as (s7 & H1 & H2 & H3 & H4 & H5).
  { split; cbn [bc start size ldev set_bc]; rewrite ?Hs6; try done. rewrite Hd6, read_insert. rewrite decide_False; [done|]. unfold a. lia. }
  { intros b' Hb'. apply Hbs. by apply list_elem_of_further. }
  { lia. }
  { cbn [size set_bc]. lia. }
  cbn [start set_bc bc] in *. exists s7. rewrite set_bc_bc in H1, H2. replace (start l + (tail + 1) + 1) with (a + 1) in * by (unfold a; lia).
  split_and!; [done|done|congruence|..]; cbn [logged]; rewrite Hc; cbn [from_option id].
  - rewrite H4, Hd6. done.
  - rewrite H5, Hw6, <-app_assoc. done.
Qed.

(** The writes of install_trans: the log blocks from [a] on go home. *)
Fixpoint installs (bs : list Z) (a : Z) (d : gmap Z (list Z)) : list (Z * list Z) :=
  match bs with
  | [] => []
  | b :: bs' => (b, read_disk d a) :: installs bs' (a + 1) d
  end.

Lemma installs_ext bs a d d' : (forall x, a <= x < a + Z.of_nat (length bs) -> read_disk d' x = read_disk d x) -> installs bs a d' = installs bs a d.
Proof.
  revert a. induction bs as [|b bs IH]; intros a Hx; [done|]. cbn [installs length] in *. rewrite Hx by lia. f_equal. apply IH. intros x Hx2. apply Hx. lia.
Qed.

Lemma installs_fst bs a d : (installs bs a d).*1 = bs.
Proof. revert a. induction bs as [|b bs IH]; intros a; [done|]. cbn. by rewrite IH. Qed.

Lemma logged_fst bs a D x : x ∈ (logged bs a D).*1 <-> a <= x < a + Z.of_nat (length bs).
Proof.
  revert a. induction bs as [|b bs IH]; intros a; cbn [logged length fmap list_fmap fst].
  - split; [by intros ?%elem_of_nil|lia].
  - rewrite elem_of_cons. rewrite (IH (a + 1)). lia.
Qed.

Lemma install_loop_ok bs tail l D : log_ok l D -> 0 <= tail -> tail + Z.of_nat (length bs) <= size l - 1 ->
  (forall b, b ∈ bs -> home (start l) (size l) (disksize (bc l)) b) -> (D = ∅ \/ NoDup bs /\ forall b, b ∈ bs -> is_Some (D !! b)) ->
  exists s D', install_loop bs tail l = Ok (tt, set_bc s l) /\ log_ok (set_bc s l) D' /\ disksize s = disksize (bc l) /\
    disk s = apply_writes (installs bs (start l + tail + 1) (disk (bc l))) (disk (bc l)) /\
    writes s = writes (bc l) ++ installs bs (start l + tail + 1) (disk (bc l)) /\
    (forall b, D' !! b = if decide (b ∈ bs) then None else D !! b).
Proof.
  revert tail l D. induction bs as [|b bs IH]; intros tail l D Hl Ht Hlen Hhome HD.
  { exists (bc l), D. assert (set_bc (bc l) l = l) as -> by by destruct l. split_and!; try done. cbn. by rewrite app_nil_r. }
  destruct Hl as [HL Hr Hd Hh Hroom Hhead]. pose proof HL as [L1 L2 L3 L4].
  destruct (Hhome b (list_elem_of_here _ _)) as (Hb & Hb1 & Hbl). cbn [install_loop length] in *. set (a := start l + tail + 1) in *.
  assert (D !! a = None) as Ha.
  { destruct (D !! a) eqn:E; [|done]. destruct (Hh a ltac:(by eexists)) as (_ & _ & Hno). exfalso. apply Hno. unfold a. lia. }
  destruct (copy_home (bc l) D a b Hr Ha) as (lbuf & dbuf & s1 & s2 & s3 & s4 & s5 & s6 & C1 & C2 & C3 & C4 & C5 & C6 & C7 & Hr6 & Hd6 & Hs6 & Hw6);
    [unfold a; lia|unfold a; lia|lia|done| |].
  { destruct HD as [->|[_ HD]]; [right; rewrite map_size_empty; unfold NBUF; lia|left; apply HD, list_elem_of_here]. }
  erewrite bind_Ok by reflexivity. erewrite bind_Ok by (unfold lift; rewrite sint_ok by (unfold_bounds; unfold a in *; lia); reflexivity). fold a.
  rewrite Hd. erewrite bind_Ok by (apply with_bc_ok; exact C1). erewrite bind_Ok by (apply with_bc_ok; exact C2).
  erewrite bind_Ok by (apply with_bc_ok; exact C3). erewrite bind_Ok by (apply with_bc_ok; exact C4).
  erewrite bind_Ok by (apply with_bc_ok; exact C5). erewrite bind_Ok by (apply with_bc_ok; exact C6).
  erewrite bind_Ok by (apply with_bc_ok; exact C7). rewrite !set_bc_bc.
  assert (base.size (delete b D) <= base.size D)%nat as Hsz by (apply map_subseteq_size, delete_subseteq).
  destruct (IH (tail + 1) (set_bc s6 l) (delete b D)) as (s7 & D' & H1 & H2 & H3 & H4 & H5 & H6); cbn [bc start size ldev set_bc]; rewrite ?Hs6.
  { split; cbn [bc start size ldev set_bc]; rewrite ?Hs6; try done.
    - intros b' [c [_ Hc]%lookup_delete_Some]. apply Hh. by exists c.
    - lia.
    - rewrite Hd6, read_insert. rewrite decide_False; [done|]. lia. }
  { lia. }
  { lia. }
  { intros b' Hb'. apply Hhome. by apply list_elem_of_further. }
  { destruct HD as [->|[Hn HD]]; [left; apply delete_empty|right]. apply NoDup_cons in Hn as [Hn1 Hn2]. split; [done|]. intros b' Hb'.
    rewrite lookup_delete_ne by (by intros ->). apply HD. by apply list_elem_of_further. }
  cbn [start set_bc bc] in *. exists s7, D'. rewrite set_bc_bc in H1, H2. replace (start l + (tail + 1) + 1) with (a + 1) in * by (unfold a; lia).
  assert (installs bs (a + 1) (disk s6) = installs bs (a + 1) (disk (bc l))) as Hins.
  { apply installs_ext. intros x Hx. rewrite Hd6, read_insert, decide_False; [done|]. unfold a in Hx. lia. }
  rewrite Hins in *. split_and!; [done|done|congruence|..]; cbn [installs].
  - rewrite H4, Hd6. done.
  - rewrite H5, Hw6, <-app_assoc. done.
  - intros x. rewrite H6. destruct (decide (x ∈ bs)) as [Hx|Hx].
    + rewrite decide_True; [done|]. by apply list_elem_of_further.
    + destruct (decide (x = b)) as [->|Hxb].
      * rewrite lookup_delete_eq, decide_True; [done|]. apply list_elem_of_here.
      * rewrite lookup_delete_ne, decide_False; [done| |done]. intros [?|?]%elem_of_cons; done.
Qed.

Lemma start_clean l D : log_ok l D -> D !! start l = None /\ D !! 1 = None /\ start l < disksize (bc l) /\ 1 < disksize (bc l).
Proof.
  intros [[L1 L2 L3 L4] _ _ Hh _ _]. split_and!; try lia.
  - destruct (D !! start l) eqn:E; [|done]. destruct (Hh (start l) ltac:(by eexists)) as (_ & _ & Hno). exfalso. apply Hno. lia.
  - destruct (D !! 1) eqn:E; [|done]. by destruct (Hh 1 ltac:(by eexists)) as (_ & Hno & _).
Qed.

Lemma write_head_ok l D : log_ok l D -> Z.of_nat (length (lh l)) <= LOGSIZE ->
  exists s, write_head l = Ok (tt, set_bc s l) /\ log_ok (set_bc s l) D /\ disksize s = disksize (bc l) /\
    disk s = <[start l := encode_head (lh l) (read_disk (disk (bc l)) (start l))]> (disk (bc l)) /\
    writes s = writes (bc l) ++ [(start l, encode_head (lh l) (read_disk (disk (bc l)) (start l)))].
Proof.
  intros Hl Hn. destruct (start_clean l D Hl) as (Hst & _ & Hlt & _). destruct Hl as [HL Hr Hd Hh Hroom Hhead].
  destruct (bread_ok (bc l) D ∅ (start l) Hr Hlt) as (i & s1 & H1 & _ & _ & Hr1 & (Hd1 & Hs1 & Hw1) & _); [intros j c; by rewrite lookup_empty|right; rewrite map_size_empty; lia|].
  destruct (bread_held _ _ _ _ _ s1 Hr1) as [_ Hdata]. unfold content in Hdata. rewrite Hst in Hdata. cbn [from_option id] in Hdata.
  set (c := encode_head (lh l) (read_disk (disk (bc l)) (start l))).
  destruct (set_data_ok s1 D _ i (start l) _ c Hr1 (lookup_insert_eq _ _ _)) as (s2 & H2 & Hr2 & (Hd2 & Hs2 & Hw2)). rewrite insert_insert_eq in Hr2.
  destruct (bwrite_ok s2 D _ i (start l) c Hr2 (lookup_insert_eq _ _ _)) as (s3 & H3 & Hr3 & Hd3 & Hs3 & Hw3). rewrite (delete_id D) in Hr3 by done.
  destruct (brelse_ok s3 D _ i (start l) Hr3) as (s4 & H4 & Hr4 & (Hd4 & Hs4 & Hw4) & _).
  { rewrite lookup_insert_eq. unfold content. rewrite Hst. cbn [from_option id]. by rewrite Hd3, read_insert, decide_True. }
  rewrite delete_insert_id in Hr4 by done. exists s4. split_and!; try congruence.
  - unfold write_head. erewrite bind_Ok by reflexivity. rewrite Hd. erewrite bind_Ok by (apply with_bc_ok; exact H1).
    assert (upd_buf i (fun x => set_data (encode_head (lh l) (data x)) x) s1 = Ok (tt, s2)) as H2'.
    { rewrite <-H2. unfold upd_buf, modify, c. by rewrite Hdata. }
    erewrite bind_Ok by (apply with_bc_ok; exact H2'). erewrite bind_Ok by (apply with_bc_ok; exact H3).
    erewrite with_bc_ok by exact H4. done.
  - split; cbn [bc start size ldev set_bc]; try done; rewrite ?Hs4, ?Hs3, ?Hs2, ?Hs1; try done.
    rewrite Hd4, Hd3, read_insert, decide_True by done. unfold c. by rewrite length_encode_head.
Qed.

(** ** Recovery *)

(** A disk whose log holds the blocks [bs] of a committed transaction. *)
Record log_disk (d : gmap Z (list Z)) (dsize st sz : Z) (bs : list Z) : Prop := {
  ld_layout : layout st sz dsize;
  ld_nlog : read_disk d 1 !! 3%nat = Some sz;
  ld_start : read_disk d 1 !! 4%nat = Some st;
  ld_head : length (read_disk d st) = BWORDS;
  ld_n : read_disk d st !! 0%nat = Some (Z.of_nat (length bs));
  ld_blocks : decode_head (read_disk d st) = bs;
  ld_fits : Z.of_nat (length bs) <= sz - 1;
  ld_home : forall b, b ∈ bs -> home st sz dsize b
}.

(** The writes of recovery. *)
Definition recovery (d : gmap Z (list Z)) (st : Z) (bs : list Z) : list (Z * list Z) :=
  installs bs (st + 1) d ++ [(st, encode_head [] (read_disk d st))].

Lemma read_head_ok l bs : log_ok l ∅ -> log_disk (disk (bc l)) (disksize (bc l)) (start l) (size l) bs ->
  exists s, read_head l = Ok (tt, set_lh bs (set_bc s l)) /\ log_ok (set_bc s l) ∅ /\ same_disk (bc l) s.
Proof.
  intros Hl Hld. destruct (start_clean l ∅ Hl) as (_ & _ & Hlt & _). destruct Hl as [HL Hr Hd Hh Hroom Hhead].
  destruct (bread_ok (bc l) ∅ ∅ (start l) Hr Hlt) as (i & s1 & H1 & _ & _ & Hr1 & (Hd1 & Hs1 & Hw1) & _); [intros j c; by rewrite lookup_empty|right; rewrite !map_size_empty; unfold NBUF; lia|].
  destruct (bread_held _ _ _ _ _ s1 Hr1) as [H2 Hdata]. unfold content in Hdata. rewrite lookup_empty in Hdata. cbn [from_option id] in Hdata.
  destruct (brelse_ok s1 ∅ _ i (start l) Hr1) as (s2 & H3 & Hr2 & (Hd2 & Hs2 & Hw2) & _).
  { rewrite lookup_insert_eq. unfold content. rewrite !lookup_empty. cbn [from_option id]. by rewrite Hd1. }
  rewrite delete_insert_id in Hr2 by done. exists s2. split_and!; [| |split_and!; congruence].
  - unfold read_head. erewrite bind_Ok by reflexivity. rewrite Hd. erewrite bind_Ok by (apply with_bc_ok; exact H1).
    erewrite bind_Ok by (apply with_bc_ok; exact H2). rewrite Hdata, (ld_n _ _ _ _ _ Hld). cbn [from_option id].
    pose proof (ld_fits _ _ _ _ _ Hld) as Hf. destruct HL as [L1 L2 L3 L4].
    rewrite to_int_id by (unfold LOGSIZE, MAXOPBLOCKS in L2; unfold_bounds; lia). rewrite (proj2 (Z.ltb_ge _ _)) by lia.
    assert (take (Z.to_nat (Z.of_nat (length bs))) (drop 1 (read_disk (disk (bc l)) (start l))) = bs) as ->.
    { rewrite <-(ld_blocks _ _ _ _ _ Hld) at 2. unfold decode_head. rewrite (ld_n _ _ _ _ _ Hld). cbn [from_option id].
      by rewrite to_int_id by (unfold LOGSIZE, MAXOPBLOCKS in L2; unfold_bounds; lia). }
    erewrite bind_Ok by reflexivity. by erewrite with_bc_ok by exact H3.
  - split; cbn [bc start size ldev set_bc]; rewrite ?Hs2, ?Hs1, ?Hd2, ?Hd1; done.
Qed.

(** The machine has just booted with disk [d]; it may have read blocks. *)
Definition fresh (d : gmap Z (list Z)) (dsize : Z) (l : log) : Prop :=
  exists s, l = mkLog 0 0 0 false 0 [] s /\ rep s ∅ ∅ /\ disk s = d /\ disksize s = dsize /\ writes s = [].

Lemma fresh_boot d dsize : fresh d dsize (boot d dsize).
Proof. exists (binit d dsize). split_and!; try done. apply binit_ok. Qed.

Lemma readsb_ok s : rep s ∅ ∅ -> 1 < disksize s -> exists s', readsb 1 s = Ok (decode_sb (read_disk (disk s) 1), s') /\ rep s' ∅ ∅ /\ same_disk s s'.
Proof.
  intros Hr Hsz. destruct (bread_ok s ∅ ∅ 1 Hr) as (i & s1 & H1 & _ & _ & Hr1 & (Hd1 & Hs1 & Hw1) & _);
    [lia|intros j c; by rewrite lookup_empty|right; rewrite !map_size_empty; unfold NBUF; lia|].
  destruct (bread_held _ _ _ _ _ s1 Hr1) as [H2 Hdata]. unfold content in Hdata. rewrite lookup_empty in Hdata. cbn [from_option id] in Hdata.
  destruct (brelse_ok s1 ∅ _ i 1 Hr1) as (s2 & H3 & Hr2 & (Hd2 & Hs2 & Hw2) & _).
  { rewrite lookup_insert_eq. unfold content. rewrite !lookup_empty. cbn [from_option id]. by rewrite Hd1. }
  rewrite delete_insert_id in Hr2 by done. exists s2. split_and!; [|done|split_and!; congruence].
  unfold readsb. by rewrite (bind_Ok _ _ _ _ _ H1), (bind_Ok _ _ _ _ _ H2), (bind_Ok _ _ _ _ _ H3), Hdata.
Qed.

(** Recovery installs the committed blocks and clears the log. *)
Lemma initlog_ok d dsize st sz bs l0 : log_disk d dsize st sz bs -> fresh d dsize l0 -> exists s, let l := mkLog st sz 0 false 1 [] s in
  initlog 1 l0 = Ok (tt, l) /\ log_ok l ∅ /\ disksize s = dsize /\
  writes s = recovery d st bs /\ disk s = apply_writes (recovery d st bs) d.
Proof.
  intros Hld (s0 & -> & Hr0 & Hd0 & Hs0 & Hw0). pose proof (ld_layout _ _ _ _ _ Hld) as HL. pose proof HL as [L1 L2 L3 L4].
  destruct (readsb_ok s0 Hr0) as (s1 & H1 & Hr1 & (Hd1 & Hs1 & Hw1)); [lia|]. rewrite Hd0 in Hd1, H1. rewrite Hs0 in Hs1. rewrite Hw0 in Hw1.
  set (l1 := mkLog st sz 0 false 1 [] s1).
  assert (log_ok l1 ∅) as Hl1.
  { split; cbn [l1 bc start size ldev]; rewrite ?Hs1, ?Hd1; try done; [intros b [c Hc]; by rewrite lookup_empty in Hc|rewrite map_size_empty; unfold NBUF; lia|apply Hld]. }
  destruct (read_head_ok l1 bs Hl1) as (s2 & H2 & Hl2 & (Hd2 & Hs2 & Hw2)). { cbn. by rewrite Hd1, Hs1. } cbn [bc l1] in Hd2, Hs2, Hw2.
  destruct (install_loop_ok bs 0 (set_lh bs (set_bc s2 l1)) ∅) as (s3 & D' & H3 & Hl3 & Hs3 & Hd3 & Hw3 & HD').
  { destruct Hl2 as [A B C E F G]. by split. }
  { lia. }
  { cbn [size set_lh set_bc l1]. pose proof (ld_fits _ _ _ _ _ Hld). lia. }
  { cbn. rewrite Hs2, Hs1. apply Hld. }
  { by left. }
  assert (D' = ∅) as ->. { apply map_eq. intros b. rewrite HD', lookup_empty. by case_decide. }
  cbn [start l1 set_lh set_bc bc] in *. rewrite Hd2, Hd1 in *. rewrite Z.add_0_r in *.
  destruct (write_head_ok (set_lh [] (set_bc s3 (set_lh bs (set_bc s2 l1)))) ∅) as (s4 & H4 & Hl4 & Hs4 & Hd4 & Hw4).
  { destruct Hl3 as [A B C E F G]. by split. }
  { cbn. unfold LOGSIZE, MAXOPBLOCKS. lia. }
  cbn [start l1 set_lh set_bc bc lh] in *.
  assert (read_disk (disk s3) st = read_disk d st) as Hsame.
  { rewrite Hd3. apply read_apply_writes. rewrite installs_fst. intros Hin. destruct (ld_home _ _ _ _ _ Hld st Hin) as (_ & _ & Hno). apply Hno. lia. }
  rewrite Hsame in *. exists s4. split_and!.
  - unfold initlog. erewrite bind_Ok by (apply with_bc_ok; exact H1). rewrite (bind_Ok _ _ _ tt l1).
    2:{ unfold modify. cbn [decode_sb logstart nlog]. rewrite (ld_nlog _ _ _ _ _ Hld), (ld_start _ _ _ _ _ Hld). cbn [from_option id]. by rewrite !to_int_id by (unfold_bounds; unfold LOGSIZE, MAXOPBLOCKS in *; lia). }
    unfold recover_from_log. rewrite (bind_Ok _ _ _ _ _ H2).
    unfold install_trans at 1. erewrite bind_Ok by (erewrite bind_Ok by reflexivity; exact H3). erewrite bind_Ok by reflexivity.
    exact H4.
  - destruct Hl4 as [A B C E F G]. by split.
  - congruence.
  - rewrite Hw4, Hw3, Hw2, Hw1. done.
  - unfold recovery. rewrite apply_writes_app, Hd4, Hd3. done.
Qed.

(** ** Crashes *)

(** The transaction that a commit writes: the blocks [bs] with the contents [g],
    over the disk [d] with a clear log. *)
Record tx (d : gmap Z (list Z)) (dsize st sz : Z) (D : gmap Z (list Z)) (bs : list Z) : Prop := {
  tx_disk : log_disk d dsize st sz [];
  tx_pinned : forall b, is_Some (D !! b) <-> b ∈ bs;
  tx_home : forall b, b ∈ bs -> home st sz dsize b;
  tx_fits : Z.of_nat (length bs) <= sz - 1
}.
Definition new_block (d D : gmap Z (list Z)) (x : Z) : list Z := default (read_disk d x) (D !! x).
Definition pinned (D : gmap Z (list Z)) (bs : list Z) : list (Z * list Z) := (fun b => (b, default zero_block (D !! b))) <$> bs.

(** Between a begin_op and the commit: [D] holds the updates so far. *)
Record open_tx (l : log) (D : gmap Z (list Z)) : Prop := {
  op_ok : log_ok l D;
  op_tx : tx (disk (bc l)) (disksize (bc l)) (start l) (size l) D (lh l);
  op_nodup : NoDup (lh l);
  op_commit : committing l = false
}.

(** No operation is running and everything is on the disk. *)
Definition log_idle (l : log) : Prop := open_tx l ∅ /\ outstanding l = 0 /\ lh l = [].

Lemma log_disk_ext d d' dsize st sz bs : log_disk d dsize st sz bs -> read_disk d' 1 = read_disk d 1 -> read_disk d' st = read_disk d st ->
  log_disk d' dsize st sz bs.
Proof. intros [A B C D E F G H] H1 H2. split; rewrite ?H1, ?H2; done. Qed.

Lemma log_disk_head d d' dsize st sz bs bs' : log_disk d dsize st sz bs -> read_disk d' 1 = read_disk d 1 ->
  read_disk d' st = encode_head bs' (read_disk d st) -> Z.of_nat (length bs') <= sz - 1 ->
  (forall b, b ∈ bs' -> home st sz dsize b) -> log_disk d' dsize st sz bs'.
Proof.
  intros [A B C D E F G H] H1 H2 H3 H4. pose proof A as [L1 L2 L3 L4]. split; rewrite ?H1, ?H2; try done.
  - by rewrite length_encode_head.
  - apply encode_head_0. rewrite D. unfold BWORDS. lia.
  - apply decode_encode_head; [rewrite D; unfold BWORDS, LOGSIZE, MAXOPBLOCKS in *; lia|lia].
Qed.

Lemma initlog_idle d dsize st sz bs l0 : log_disk d dsize st sz bs -> fresh d dsize l0 -> exists s, let l := mkLog st sz 0 false 1 [] s in
  initlog 1 l0 = Ok (tt, l) /\ log_idle l /\ disksize s = dsize /\
  writes s = recovery d st bs /\ disk s = apply_writes (recovery d st bs) d /\
  (forall x, kept st sz dsize x -> read_disk (disk s) x = read_disk (apply_writes (installs bs (st + 1) d) d) x).
Proof.
  intros Hld Hfr. destruct (initlog_ok d dsize st sz bs l0 Hld Hfr) as (s & H1 & H2 & H3 & H4 & H5). exists s. split_and!; try done.
  2:{ intros x (_ & Hx). rewrite H5. unfold recovery. rewrite apply_writes_app. cbn. rewrite read_insert, decide_False; [done|].
      destruct (ld_layout _ _ _ _ _ Hld). lia. }
  pose proof (ld_layout _ _ _ _ _ Hld) as [L1 L2 L3 L4]. split; [|done]. split; [exact H2|split|constructor|done]; cbn [bc start size lh].
  - rewrite H3. eapply (log_disk_head d); [exact Hld| | |cbn; lia|by intros b ?%elem_of_nil]; rewrite H5; unfold recovery; rewrite apply_writes_app; cbn.
    + rewrite read_insert, decide_False by lia. apply read_apply_writes. rewrite installs_fst. intros Hin. by destruct (ld_home _ _ _ _ _ Hld 1 Hin) as (_ & ? & _).
    + by rewrite read_insert, decide_True.
  - intros b. rewrite lookup_empty. split; [by intros [? ?]|by intros ?%elem_of_nil].
  - by intros b ?%elem_of_nil.
  - cbn. lia.
Qed.

(** After a crash with disk [d], recovery leaves a clear log and gives the blocks
    outside it the contents [P]. *)
Definition recovers (d : gmap Z (list Z)) (dsize st sz : Z) (P : Z -> list Z) : Prop :=
  forall l0, fresh d dsize l0 -> exists s, let l := mkLog st sz 0 false 1 [] s in
    initlog 1 l0 = Ok (tt, l) /\ log_idle l /\ disksize s = dsize /\ read_disk (disk s) 1 = read_disk d 1 /\
    forall x, kept st sz dsize x -> read_disk (disk s) x = P x.

Lemma recovers_disk d dsize st sz bs P : log_disk d dsize st sz bs ->
  (forall x, kept st sz dsize x -> read_disk (apply_writes (installs bs (st + 1) d) d) x = P x) -> recovers d dsize st sz P.
Proof.
  intros Hld HP l0 Hfr. destruct (initlog_idle d dsize st sz bs l0 Hld Hfr) as (s & H1 & H2 & H3 & _ & H5 & H6). exists s. split_and!; try done; [|intros x Hx; by rewrite H6, HP].
  destruct (ld_layout _ _ _ _ _ Hld). rewrite H5. apply read_apply_writes. unfold recovery. rewrite fmap_app, installs_fst, elem_of_app.
  intros [Hx|Hx%list_elem_of_singleton]; [|cbn in Hx; lia]. by destruct (ld_home _ _ _ _ _ Hld _ Hx) as (_ & ? & _).
Qed.

Lemma read_installed (g : Z -> list Z) bs d x :
  read_disk (apply_writes ((fun b => (b, g b)) <$> bs) d) x = if decide (x ∈ bs) then g x else read_disk d x.
Proof.
  revert d. induction bs as [|b bs IH]; intros d; [done|]. cbn [fmap list_fmap apply_writes fold_left fst snd]. fold (apply_writes ((fun b => (b, g b)) <$> bs)).
  rewrite IH, read_insert. destruct (decide (x ∈ bs)) as [Hx|Hx].
  - rewrite decide_True; [done|]. by apply list_elem_of_further.
  - destruct (decide (x = b)) as [->|Hxb]; [rewrite decide_True; [done|apply list_elem_of_here]|].
    rewrite decide_False; [done|]. by intros [?|?]%elem_of_cons.
Qed.

Lemma installs_logged bs a D d : installs bs a (apply_writes (logged bs a D) d) = (fun b => (b, default zero_block (D !! b))) <$> bs.
Proof.
  revert a d. induction bs as [|b bs IH]; intros a d; [done|]. cbn [installs logged fmap list_fmap apply_writes fold_left fst snd].
  fold (apply_writes (logged bs (a + 1) D)). rewrite (IH (a + 1)). f_equal. f_equal.
  rewrite read_apply_writes, read_insert, decide_True; [done|done|]. rewrite logged_fst. lia.
Qed.

Section tx.
Context d dsize st sz D bs (Htx : tx d dsize st sz D bs).
Definition tx_log := logged bs (st + 1) D.
Definition tx_head := encode_head bs (read_disk d st).
Definition tx_erase := encode_head [] tx_head.

(** All the writes of the commit. *)
Definition tx_writes : list (Z * list Z) := tx_log ++ [(st, tx_head)] ++ pinned D bs ++ [(st, tx_erase)].

Lemma kept_not_log x : kept st sz dsize x -> x <> st /\ x ∉ tx_log.*1.
Proof.
  intros (_ & Hx). destruct (ld_layout _ _ _ _ _ (tx_disk _ _ _ _ _ _ Htx)). pose proof (tx_fits _ _ _ _ _ _ Htx).
  split; [lia|]. unfold tx_log. rewrite logged_fst. lia.
Qed.

Lemma meta_not_logged : st ∉ tx_log.*1 /\ 1 ∉ tx_log.*1.
Proof. destruct (ld_layout _ _ _ _ _ (tx_disk _ _ _ _ _ _ Htx)). unfold tx_log. rewrite !logged_fst. lia. Qed.

Lemma meta_not_home : st ∉ bs /\ 1 ∉ bs.
Proof. destruct (ld_layout _ _ _ _ _ (tx_disk _ _ _ _ _ _ Htx)). split; intros Hb; destruct (tx_home _ _ _ _ _ _ Htx _ Hb) as (_ & ? & ?); lia. Qed.

Lemma new_block_alt x : new_block d D x = if decide (x ∈ bs) then default zero_block (D !! x) else read_disk d x.
Proof.
  unfold new_block. destruct (decide (x ∈ bs)) as [Hx|Hx]; rewrite <-(tx_pinned _ _ _ _ _ _ Htx) in Hx.
  - destruct Hx as [c Hx]. by rewrite Hx.
  - apply eq_None_not_Some in Hx. by rewrite Hx.
Qed.

(** Before the header is written the old blocks are recovered. *)
Lemma crash_logging A1 A2 : tx_log = A1 ++ A2 -> recovers (apply_writes A1 d) dsize st sz (read_disk d).
Proof.
  intros HA. assert (forall x, x ∉ tx_log.*1 -> read_disk (apply_writes A1 d) x = read_disk d x) as Hx.
  { intros x Hx. apply read_apply_writes. intros Hin. apply Hx. rewrite HA, fmap_app. apply elem_of_app. by left. }
  destruct meta_not_logged as [Hst H1]. eapply (recovers_disk _ _ _ _ []).
  - eapply log_disk_ext; [apply Htx|by apply Hx..].
  - intros x Hh. apply Hx. by apply kept_not_log.
Qed.

(** Once it is, any part of the installation may be missing. *)
Lemma committed_disk bs1 : bs1 `sublist_of` bs -> let d1 := apply_writes (tx_log ++ [(st, tx_head)] ++ pinned D bs1) d in
  log_disk d1 dsize st sz bs /\ (forall x, kept st sz dsize x -> read_disk d1 x = if decide (x ∈ bs1) then default zero_block (D !! x) else read_disk d x) /\
  forall x, st < x < st + sz -> read_disk d1 x = read_disk (apply_writes tx_log d) x.
Proof.
  intros Hsub d1. assert (forall x, x ∈ bs1 -> x ∈ bs) as Hin by (intros x Hx; eapply elem_of_submseteq; [exact Hx|by apply sublist_submseteq]).
  destruct meta_not_logged as [Hst H1]. destruct meta_not_home as [Hst2 H12]. destruct (ld_layout _ _ _ _ _ (tx_disk _ _ _ _ _ _ Htx)).
  assert (forall x, read_disk d1 x = if decide (x ∈ bs1) then default zero_block (D !! x) else if decide (x = st) then tx_head else read_disk (apply_writes tx_log d) x) as Hd1.
  { intros x. unfold d1. rewrite (app_assoc tx_log), (apply_writes_app (tx_log ++ _)). unfold pinned. rewrite read_installed. case_decide; [done|].
    rewrite apply_writes_app. cbn. by rewrite read_insert. }
  split_and!.
  - eapply (log_disk_head (apply_writes tx_log d)).
    + eapply log_disk_ext; [apply Htx|by apply read_apply_writes..].
    + rewrite Hd1, !decide_False by (lia || naive_solver). done.
    + rewrite Hd1, decide_False, decide_True by naive_solver. unfold tx_head. by rewrite (read_apply_writes tx_log).
    + apply Htx.
    + apply Htx.
  - intros x Hx. destruct (kept_not_log x Hx) as (X1 & X3). rewrite Hd1, (decide_False (P := x = st)) by done. by rewrite (read_apply_writes tx_log).
  - intros x Hx. rewrite Hd1, !decide_False; [done|lia|]. intros Hx1. destruct (tx_home _ _ _ _ _ _ Htx x (Hin x Hx1)) as (_ & _ & Hno). lia.
Qed.

Lemma crash_installing bs1 : bs1 `sublist_of` bs -> recovers (apply_writes (tx_log ++ [(st, tx_head)] ++ pinned D bs1) d) dsize st sz (new_block d D).
Proof.
  intros Hsub. destruct (committed_disk bs1 Hsub) as (H1 & H2 & H3). set (d1 := apply_writes _ d) in *.
  pose proof (tx_fits _ _ _ _ _ _ Htx). eapply recovers_disk; [exact H1|]. intros x Hx.
  assert (installs bs (st + 1) d1 = pinned D bs) as ->.
  { unfold pinned. rewrite <-(installs_logged bs (st + 1) D d). apply installs_ext. intros y Hy. apply H3. lia. }
  unfold pinned. rewrite read_installed, new_block_alt. case_decide as Hxb; [done|]. rewrite H2, decide_False; [done| |done].
  intros Hin. apply Hxb. eapply elem_of_submseteq; [exact Hin|by apply sublist_submseteq].
Qed.

(** After the commit the log is clear again and the new blocks are home. *)
Lemma tx_done : log_disk (apply_writes tx_writes d) dsize st sz [] /\
  forall x, kept st sz dsize x -> read_disk (apply_writes tx_writes d) x = new_block d D x.
Proof.
  destruct (committed_disk bs (reflexivity bs)) as (H1 & H2 & _). destruct meta_not_logged as [Hst _]. destruct meta_not_home as [Hst2 H12].
  pose proof (ld_layout _ _ _ _ _ (tx_disk _ _ _ _ _ _ Htx)) as [L1 L2 L3 L4]. unfold tx_writes.
  rewrite !(app_assoc tx_log), (app_assoc (tx_log ++ _)), apply_writes_app, <-(app_assoc tx_log). set (d1 := apply_writes (tx_log ++ _) d) in *.
  change (apply_writes [(st, tx_erase)] d1) with (<[st := tx_erase]> d1). split.
  - eapply (log_disk_head d1); [exact H1| | |cbn; lia|by intros b ?%elem_of_nil].
    + rewrite read_insert, decide_False by lia. done.
    + rewrite read_insert, decide_True by done. unfold tx_erase. f_equal. unfold d1.
      rewrite (app_assoc tx_log), (apply_writes_app (tx_log ++ _)). unfold pinned. rewrite read_installed, decide_False by done.
      rewrite apply_writes_app. cbn. by rewrite read_insert, decide_True.
  - intros x Hx. destruct (kept_not_log x Hx) as (X1 & _). by rewrite read_insert, decide_False, H2, new_block_alt.
Qed.

(** A crash between any two writes of the commit. *)
Lemma tx_crash ws1 ws2 : tx_writes = ws1 ++ ws2 ->
  (ws2 <> [] /\ recovers (apply_writes ws1 d) dsize st sz (read_disk d)) \/ recovers (apply_writes ws1 d) dsize st sz (new_block d D).
Proof.
  unfold tx_writes. intros [(k & HA & Hk)|(k & -> & Hk)]%app_eq_inv.
  - left. split; [|by eapply crash_logging]. subst ws2. by destruct k.
  - destruct k as [|w k].
    { left. cbn in Hk. subst ws2. split; [done|]. rewrite app_nil_r. by apply (crash_logging tx_log []); rewrite app_nil_r. }
    right. injection Hk as <- Hk. symmetry in Hk. apply app_eq_inv in Hk as [(k2 & -> & Hk2)|(k2 & HB & ->)].
    + destruct k2 as [|w2 k2].
      * rewrite app_nil_r. by apply crash_installing.
      * destruct tx_done as [T1 T2]. injection Hk2 as <- Hk2. symmetry in Hk2. apply app_eq_nil in Hk2 as [-> ->].
        change (tx_log ++ (st, tx_head) :: pinned D bs ++ [(st, tx_erase)]) with tx_writes. by eapply recovers_disk.
    + unfold pinned in HB. apply fmap_app_inv in HB as (b1 & b2 & -> & _ & Hbs). apply (crash_installing b1). rewrite Hbs. by apply sublist_inserts_r.
Qed.
End tx.

(** commit writes exactly [tx_writes] and leaves nothing pinned. *)
Lemma commit_ok l D : log_ok l D -> tx (disk (bc l)) (disksize (bc l)) (start l) (size l) D (lh l) -> NoDup (lh l) ->
  exists s ws, commit l = Ok (tt, set_lh [] (set_bc s l)) /\ log_ok (set_lh [] (set_bc s l)) ∅ /\ disksize s = disksize (bc l) /\
    writes s = writes (bc l) ++ ws /\ disk s = apply_writes ws (disk (bc l)) /\
    (lh l = [] /\ ws = [] \/ ws = tx_writes (disk (bc l)) (start l) D (lh l)).
Proof.
  intros Hl Htx Hn. pose proof Hl as [HL Hr Hd Hh Hroom Hhead]. pose proof HL as [L1 L2 L3 L4]. pose proof (tx_fits _ _ _ _ _ _ Htx) as Hfit.
  destruct (decide (lh l = [])) as [Hnil|Hne].
  { assert (D = ∅) as ->.
    { apply map_eq. intros b. rewrite lookup_empty. apply eq_None_not_Some. rewrite (tx_pinned _ _ _ _ _ _ Htx), Hnil. apply not_elem_of_nil. }
    exists (bc l), []. assert (set_lh [] (set_bc (bc l) l) = l) as -> by (destruct l; cbn in *; by subst). rewrite app_nil_r.
    split_and!; try done; [|by left]. unfold commit. erewrite bind_Ok by reflexivity. by rewrite Hnil. }
  destruct (write_log_loop_ok (lh l) 0 l D Hl) as (s1 & E1 & Hl1 & Hs1 & Hd1 & Hw1); [intros b Hb; by apply Htx|lia|done|].
  rewrite Z.add_0_r in *. fold (tx_log (start l) D (lh l)) in Hd1, Hw1.
  destruct (write_head_ok (set_bc s1 l) D Hl1) as (s2 & E2 & Hl2 & Hs2 & Hd2 & Hw2); [cbn; lia|]. cbn [start lh set_bc bc] in E2, Hl2, Hs2, Hd2, Hw2.
  destruct (meta_not_logged _ _ _ _ _ _ Htx) as [Hst H1]. destruct (meta_not_home _ _ _ _ _ _ Htx) as [Hstb H1b].
  rewrite Hd1, read_apply_writes in Hd2, Hw2 by done. fold (tx_head (disk (bc l)) (start l) (lh l)) in Hd2, Hw2.
  destruct (install_loop_ok (lh l) 0 (set_bc s2 l) D Hl2) as (s3 & D' & E3 & Hl3 & Hs3 & Hd3 & Hw3 & HD'); cbn [start size set_bc bc] in *.
  { lia. } { lia. } { rewrite Hs2, Hs1. apply Htx. } { right. split; [done|]. intros b Hb. by apply Htx. }
  assert (D' = ∅) as ->.
  { apply map_eq. intros b. rewrite HD', lookup_empty. case_decide as Hb; [done|]. rewrite <-(tx_pinned _ _ _ _ _ _ Htx) in Hb. by apply eq_None_not_Some. }
  rewrite Z.add_0_r in Hd3, Hw3.
  assert (installs (lh l) (start l + 1) (disk s2) = pinned D (lh l)) as HB.
  { unfold pinned. rewrite <-(installs_logged (lh l) (start l + 1) D (disk (bc l))). apply installs_ext. intros x Hx.
    by rewrite Hd2, read_insert, decide_False by lia. }
  rewrite HB in *.
  destruct (write_head_ok (set_lh [] (set_bc s3 l)) ∅) as (s4 & E4 & Hl4 & Hs4 & Hd4 & Hw4).
  { destruct Hl3 as [X1 X2 X3 X4 X5 X6]. by split. } { cbn. unfold LOGSIZE, MAXOPBLOCKS. lia. }
  cbn [start lh set_bc set_lh bc] in E4, Hl4, Hs4, Hd4, Hw4.
  assert (read_disk (disk s3) (start l) = tx_head (disk (bc l)) (start l) (lh l)) as Hh1.
  { rewrite Hd3, Hd2. unfold pinned. by rewrite read_installed, decide_False, read_insert, decide_True. }
  rewrite Hh1 in Hd4, Hw4. fold (tx_erase (disk (bc l)) (start l) (lh l)) in Hd4, Hw4.
  exists s4, (tx_writes (disk (bc l)) (start l) D (lh l)). split_and!; [|done|congruence| | |by right].
  - unfold commit. erewrite bind_Ok by reflexivity. rewrite (proj2 (Z.ltb_lt _ _)) by (destruct (lh l); [done|cbn; lia]).
    erewrite bind_Ok by (unfold write_log; erewrite bind_Ok by reflexivity; exact E1). rewrite (bind_Ok _ _ _ _ _ E2).
    rewrite set_bc_bc. erewrite bind_Ok by (unfold install_trans; erewrite bind_Ok by reflexivity; exact E3).
    rewrite set_bc_bc. erewrite bind_Ok by reflexivity. rewrite E4. done.
  - rewrite Hw4, Hw3, Hw2, Hw1. unfold tx_writes. by rewrite <-!app_assoc.
  - unfold tx_writes. by rewrite !apply_writes_app, Hd4, Hd3, Hd2.
Qed.

(** ** Groups of operations *)

(** The blocks after all the updates of [os]. *)
Definition blocks_after (os : list logop) (P : Z -> list Z) : Z -> list Z :=
  fold_left (fun P o => match o with Update b c => fun x => if decide (x = b) then c else P x | _ => P end) os P.

(** One group commit: every begin_op may go on, no update overflows the log and
    the last end_op is the last call.  [n] bounds the blocks logged so far. *)
Fixpoint group (sz n out : Z) (os : list logop) : bool :=
  match os with
  | [] => false
  | Begin :: os' => (n + (out + 1) * MAXOPBLOCKS <=? LOGSIZE) && group sz n (out + 1) os'
  | Update _ _ :: os' => (1 <=? out) && (n <? sz - 1) && group sz (n + 1) out os'
  | End :: os' => if out =? 1 then (if os' then true else false) else (1 <? out) && group sz n (out - 1) os'
  end.

Lemma recovers_ext d dsize st sz P Q : (forall x, kept st sz dsize x -> P x = Q x) -> recovers d dsize st sz P -> recovers d dsize st sz Q.
Proof. intros HPQ HP l0 Hfr. destruct (HP l0 Hfr) as (s & H1 & H2 & H3 & H5 & H4). exists s. split_and!; try done. intros x Hx. rewrite <-HPQ by done. by apply H4. Qed.

Lemma open_tx_state l D o : open_tx l D -> open_tx (set_state o false l) D.
Proof. intros [[A B C E F G] T N Hc]. by split. Qed.

Lemma add_block_nodup (b : Z) bs : NoDup bs -> NoDup (match list_find (fun x => x = b) bs with Some _ => bs | None => bs ++ [b] end) /\
  (forall x, x ∈ (match list_find (fun x => x = b) bs with Some _ => bs | None => bs ++ [b] end) <-> x = b \/ x ∈ bs) /\
  (length (match list_find (fun x => x = b) bs with Some _ => bs | None => bs ++ [b] end) <= length bs + 1)%nat.
Proof.
  intros Hn. destruct (list_find (fun x => x = b) bs) as [[i y]|] eqn:E.
  - apply list_find_Some in E as (Hi & -> & _). split_and!; [done| |lia]. intros x. split; [by right|]. intros [->|?]; [|done]. by eapply list_elem_of_lookup_2.
  - rewrite list_find_None, Forall_forall in E. split_and!.
    + apply NoDup_app. split_and!; [done| |apply NoDup_singleton]. intros x Hx ->%list_elem_of_singleton. by apply (E b).
    + intros x. rewrite elem_of_app, list_elem_of_singleton. tauto.
    + rewrite length_app. cbn. lia.
Qed.

Lemma exec_update l D b c : open_tx l D -> 1 <= outstanding l -> Z.of_nat (length (lh l)) < size l - 1 -> home (start l) (size l) (disksize (bc l)) b ->
  exists l', exec_op (Update b c) l = Ok (tt, l') /\ open_tx l' (<[b := c]> D) /\ start l' = start l /\ size l' = size l /\
    disk (bc l') = disk (bc l) /\ disksize (bc l') = disksize (bc l) /\ writes (bc l') = writes (bc l) /\ outstanding l' = outstanding l /\
    (length (lh l') <= length (lh l) + 1)%nat.
Proof.
  intros [Hl Htx Hn Hc] Ho Hlen Hb. pose proof Hl as [HL Hr Hd Hh Hroom Hhead]. pose proof HL as [L1 L2 L3 L4]. pose proof Hb as (Hb1 & _).
  destruct (bread_ok (bc l) D ∅ b Hr) as (i & s1 & H1 & _ & _ & Hr1 & (Hd1 & Hs1 & Hw1) & _); [lia|intros j c'; by rewrite lookup_empty|right; rewrite map_size_empty; lia|].
  destruct (set_data_ok s1 D _ i b _ c Hr1 (lookup_insert_eq _ _ _)) as (s2 & H2 & Hr2 & (Hd2 & Hs2 & Hw2)). rewrite insert_insert_eq in Hr2.
  destruct (set_dirty_ok s2 D _ i b c Hr2 (lookup_insert_eq _ _ _)) as (s3 & H3 & Hr3 & (Hd3 & Hs3 & Hw3)).
  destruct (brelse_ok s3 _ _ i b Hr3) as (s4 & H4 & Hr4 & (Hd4 & Hs4 & Hw4) & _). { rewrite lookup_insert_eq. unfold content. by rewrite lookup_insert_eq. }
  rewrite delete_insert_id in Hr4 by done.
  destruct (add_block_nodup b (lh l) Hn) as (N1 & N2 & N3). set (bs := match list_find _ (lh l) with Some _ => _ | None => _ end) in *.
  assert (disksize s4 = disksize (bc l) /\ disk s4 = disk (bc l) /\ writes s4 = writes (bc l)) as (Es & Ed & Ew) by (split_and!; congruence).
  assert (forall x, is_Some (<[b := c]> D !! x) <-> x ∈ bs) as Hdom.
  { intros x. rewrite N2, lookup_insert_is_Some, (tx_pinned _ _ _ _ _ _ Htx). destruct (decide (x = b)); naive_solver. }
  exists (set_lh bs (set_bc s4 l)). split_and!; try done.
  - cbn [exec_op]. erewrite bind_Ok by (apply with_bc_ok; exact H1). erewrite bind_Ok by (apply with_bc_ok; exact H2).
    erewrite bind_Ok.
    2:{ unfold log_write. erewrite bind_Ok by reflexivity. cbn [lh size outstanding set_bc].
      rewrite (proj2 (Z.leb_gt LOGSIZE _)), (proj2 (Z.leb_gt (size l - 1) _)), (proj2 (Z.ltb_ge (outstanding l) 1)) by lia. cbn [orb].
      erewrite bind_Ok by reflexivity. destruct (rb_held _ _ _ Hr2 i b c (lookup_insert_eq _ _ _)) as (_ & _ & Hbn & _). cbn [bc set_bc] in *. rewrite Hbn.
      instantiate (1 := set_lh bs (set_bc s3 l)). instantiate (1 := tt).
      rewrite (bind_Ok _ _ _ tt (set_lh bs (set_bc s2 l))).
      - erewrite with_bc_ok by exact H3. done.
      - unfold bs. destruct (list_find _ (lh l)); [by destruct l|done]. }
    erewrite with_bc_ok by exact H4. done.
  - split; [split|split| |]; cbn [bc start size ldev lh set_lh set_bc committing]; rewrite ?Es, ?Ed; try done.
    + intros x [->|Hx]%Hdom%N2; [done|]. by apply (tx_home _ _ _ _ _ _ Htx).
    + assert (base.size (<[b := c]> D) <= length bs)%nat; [|unfold NBUF, LOGSIZE, MAXOPBLOCKS in *; lia].
      rewrite <-(size_dom (D := gset Z)), <-(size_list_to_set (C := gset Z) bs) by done. apply subseteq_size.
      intros x Hx%elem_of_dom. apply elem_of_list_to_set. by apply Hdom.
    + apply Htx.
    + intros x [->|Hx]%N2; [done|]. by apply (tx_home _ _ _ _ _ _ Htx).
    + lia.
Qed.

Lemma home_updated D d b c x : (forall y, new_block d (<[b := c]> D) y = if decide (y = b) then c else new_block d D y) /\
  new_block d ∅ x = read_disk d x.
Proof.
  unfold new_block. split; [|by rewrite lookup_empty]. intros y. case_decide as Hy; [subst; by rewrite lookup_insert_eq|by rewrite lookup_insert_ne].
Qed.

(** The last end_op of a group. *)
Lemma exec_last_end l D : open_tx l D -> outstanding l = 1 -> exists l' ws, exec_op End l = Ok (tt, l') /\ log_idle l' /\
  start l' = start l /\ size l' = size l /\ disksize (bc l') = disksize (bc l) /\
  writes (bc l') = writes (bc l) ++ ws /\ disk (bc l') = apply_writes ws (disk (bc l)) /\
  (forall x, kept (start l) (size l) (disksize (bc l)) x -> read_disk (disk (bc l')) x = new_block (disk (bc l)) D x) /\
  (forall ws1 ws2, ws = ws1 ++ ws2 ->
    (ws2 <> [] /\ recovers (apply_writes ws1 (disk (bc l))) (disksize (bc l)) (start l) (size l) (read_disk (disk (bc l)))) \/
    recovers (apply_writes ws1 (disk (bc l))) (disksize (bc l)) (start l) (size l) (new_block (disk (bc l)) D)).
Proof.
  intros Hop Ho. set (l1 := set_state 0 true l).
  assert (log_ok l1 D) as Hl1 by (destruct Hop as [[A B C E F G] _ _ _]; by split).
  destruct (commit_ok l1 D Hl1 (op_tx _ _ Hop) (op_nodup _ _ Hop)) as (s & ws & H1 & H2 & H3 & H4 & H5 & H6).
  cbn [bc l1 set_state lh start size] in *. exists (set_state 0 false (set_lh [] (set_bc s l1))), ws.
  pose proof (op_tx _ _ Hop) as Htx.
  assert (log_disk (disk s) (disksize s) (start l) (size l) [] /\
    forall x, kept (start l) (size l) (disksize (bc l)) x -> read_disk (disk s) x = new_block (disk (bc l)) D x) as [Hclear Hnew].
  { rewrite H3, H5. destruct H6 as [[Hn ->]| ->]; [|by apply (tx_done _ (disksize (bc l)))]. split; [apply Htx|]. intros x _. cbn.
    rewrite (new_block_alt _ _ _ _ _ _ Htx), decide_False; [done|]. rewrite Hn. apply not_elem_of_nil. }
  split_and!; try done.
  - cbn [exec_op]. unfold end_op. erewrite bind_Ok by reflexivity. erewrite bind_Ok by reflexivity. cbn [committing outstanding set_state].
    rewrite (op_commit _ _ Hop), Ho. change (1 - 1 =? 0) with true. cbv beta iota. erewrite bind_Ok by reflexivity.
    change (set_state (outstanding (set_state (1 - 1) false l)) true (set_state (1 - 1) false l)) with l1.
    rewrite (bind_Ok _ _ _ _ _ H1). done.
  - split; [|done]. split; [|split|constructor|done]; try done.
    + destruct H2 as [A B C E F G]. by split.
    + intros b. cbn. rewrite lookup_empty. split; [by intros [? ?]|by intros ?%elem_of_nil].
    + by intros b ?%elem_of_nil.
    + cbn. destruct (ld_layout _ _ _ _ _ Hclear). lia.
  - intros ws1 ws2 Hws. destruct H6 as [[Hn ->]| ->]; [|by apply (tx_crash _ _ _ _ _ _ Htx)]. right.
    symmetry in Hws. apply app_eq_nil in Hws as [-> ->]. eapply (recovers_disk _ _ _ _ []); [apply Htx|]. intros x _. cbn.
    rewrite (new_block_alt _ _ _ _ _ _ Htx), decide_False; [done|]. rewrite Hn. apply not_elem_of_nil.
Qed.

Definition logop_home (st sz dsize : Z) (o : logop) : Prop := match o with Update b _ => home st sz dsize b | _ => True end.

Lemma blocks_after_ext os P Q x : (forall y, P y = Q y) -> blocks_after os P x = blocks_after os Q x.
Proof.
  revert P Q. induction os as [|o os IH]; intros P Q HPQ; [apply HPQ|]. cbn. apply IH. intros y. destruct o; try apply HPQ. case_decide; [done|apply HPQ].
Qed.

Lemma group_ok os l D n d : open_tx l D -> disk (bc l) = d -> Z.of_nat (length (lh l)) <= n -> group (size l) n (outstanding l) os = true ->
  Forall (logop_home (start l) (size l) (disksize (bc l))) os ->
  exists l' ws, exec_ops os l = Ok (tt, l') /\ log_idle l' /\ start l' = start l /\ size l' = size l /\ disksize (bc l') = disksize (bc l) /\
    writes (bc l') = writes (bc l) ++ ws /\ disk (bc l') = apply_writes ws d /\
    (forall x, kept (start l) (size l) (disksize (bc l)) x -> read_disk (disk (bc l')) x = blocks_after os (new_block d D) x) /\
    (forall ws1 ws2, ws = ws1 ++ ws2 ->
      (ws2 <> [] /\ recovers (apply_writes ws1 d) (disksize (bc l)) (start l) (size l) (read_disk d)) \/
      recovers (apply_writes ws1 d) (disksize (bc l)) (start l) (size l) (blocks_after os (new_block d D))).
Proof.
  revert l D n. induction os as [|o os IH]; intros l D n Hop Hdisk Hn Hg Hh; [done|]. apply Forall_cons in Hh as [Ho Hh]. cbn [exec_ops].
  destruct o as [|b c|]; cbn [group] in Hg.
  - apply andb_true_iff in Hg as [G1%Z.leb_le G2].
    destruct (IH (set_state (outstanding l + 1) false l) D n) as (l' & ws & H1 & H2 & H3); try done; [by apply open_tx_state|].
    exists l', ws. split; [|done]. rewrite (bind_Ok _ _ _ tt (set_state (outstanding l + 1) false l)); [exact H1|].
    cbn [exec_op]. unfold begin_op. erewrite bind_Ok; [|erewrite bind_Ok by reflexivity; rewrite (op_commit _ _ Hop), (proj2 (Z.ltb_ge _ _)) by (unfold MAXOPBLOCKS in *; lia); reflexivity].
    cbv beta iota. unfold mret, M_ret. by rewrite (op_commit _ _ Hop).
  - apply andb_true_iff in Hg as [[G1%Z.leb_le G2%Z.ltb_lt]%andb_true_iff G3].
    destruct (exec_update l D b c Hop G1) as (l1 & U1 & U2 & U3 & U4 & U5 & U6 & U7 & U8 & U9); [lia|done|].
    rewrite (bind_Ok _ _ _ _ _ U1).
    destruct (IH l1 (<[b := c]> D) (n + 1)) as (l' & ws & H1 & H2 & H3 & H4 & H5 & H6 & H7 & H8 & H9); rewrite ?U3, ?U4, ?U6, ?U8 in *; try done; [congruence|lia|].
    rewrite U7 in H6. exists l', ws. cbn [blocks_after fold_left]. fold (blocks_after os).
    assert (forall x, blocks_after os (fun x => if decide (x = b) then c else new_block d D x) x = blocks_after os (new_block d (<[b := c]> D)) x) as Hext.
    { intros x. apply blocks_after_ext. intros y. symmetry. by apply (home_updated D d b c y). }
    split_and!; try done.
    + intros x Hx. rewrite Hext. by apply H8.
    + intros ws1 ws2 Hws. destruct (H9 ws1 ws2 Hws) as [H10|H10]; [by left|right]. eapply recovers_ext; [|exact H10]. intros x _. by rewrite Hext.
  - destruct (Z.eqb_spec (outstanding l) 1) as [Heq|Hne].
    + destruct os; [|done]. destruct (exec_last_end l D Hop Heq) as (l' & ws & H1 & H2 & H3 & H4 & H5 & H6 & H7 & H8 & H9). subst d.
      exists l', ws. split_and!; try done. by rewrite (bind_Ok _ _ _ _ _ H1).
    + apply andb_true_iff in Hg as [G1%Z.ltb_lt G2].
      destruct (IH (set_state (outstanding l - 1) false l) D n) as (l' & ws & H1 & H2 & H3); try done; [by apply open_tx_state|].
      exists l', ws. split; [|done]. rewrite (bind_Ok _ _ _ tt (set_state (outstanding l - 1) false l)); [exact H1|].
      cbn [exec_op]. unfold end_op. erewrite bind_Ok by reflexivity. erewrite bind_Ok by reflexivity. cbn [committing outstanding set_state].
      by rewrite (op_commit _ _ Hop), (proj2 (Z.eqb_neq _ 0)) by lia.
Qed.
End log.

(** ** Properties *)
Section properties.

(** C14: group commit is atomic and durable.  Started with a clear log, a group
    of operations whose updates fit runs to its end, leaves the log clear and
    every updated block on the disk.  A crash between any two of its disk
    writes is repaired by initlog: afterwards the blocks outside the log are
    all as before the group, or all as after it, and certainly as after it once
    the last end_op has returned. *)
Theorem log_atomic l os : log_idle l -> group (size l) 0 0 os = true -> Forall (logop_home (start l) (size l) (disksize (bc l))) os ->
  exists l' ws, exec_ops os l = Ok (tt, l') /\ log_idle l' /\ writes (bc l') = writes (bc l) ++ ws /\
    (forall x, kept (start l) (size l) (disksize (bc l)) x -> read_disk (disk (bc l')) x = blocks_after os (read_disk (disk (bc l))) x) /\
    (forall ws1 ws2, ws = ws1 ++ ws2 ->
      (ws2 <> [] /\ recovers (apply_writes ws1 (disk (bc l))) (disksize (bc l)) (start l) (size l) (read_disk (disk (bc l)))) \/
      recovers (apply_writes ws1 (disk (bc l))) (disksize (bc l)) (start l) (size l) (blocks_after os (read_disk (disk (bc l))))).
Proof.
  intros (Hop & Ho & Hnil) Hg Hh.
  destruct (group_ok os l ∅ 0 (disk (bc l)) Hop eq_refl) as (l' & ws & H1 & H2 & H3 & H4 & H5 & H6 & H7 & H8 & H9); [by rewrite Hnil|by rewrite Ho|done|].
  assert (forall x, blocks_after os (new_block (disk (bc l)) ∅) x = blocks_after os (read_disk (disk (bc l))) x) as Hext.
  { intros x. apply blocks_after_ext. intros y. apply (home_updated (disk (bc l)) ∅ 0 [] y). }
  exists l', ws. split; [exact H1|]. split; [exact H2|]. split; [exact H6|]. split; [intros x Hx; rewrite <-Hext; by apply H8|].
  intros ws1 ws2 Hws. destruct (H9 ws1 ws2 Hws) as [H10|H10]; [by left|right]. eapply recovers_ext; [|exact H10]. intros x _. apply Hext.
Qed.

Lemma read_apply_same ws d d' x : x ∈ ws.*1 -> read_disk (apply_writes ws d') x = read_disk (apply_writes ws d) x.
Proof.
  revert d d'. induction ws as [|[b c] ws IH]; intros d d' Hx; [by apply elem_of_nil in Hx|]. cbn.
  destruct (decide (x ∈ ws.*1)) as [Hin|Hout]; [by apply IH|]. apply elem_of_cons in Hx as [->|Hx]; [|done]. cbn.
  rewrite !(read_apply_writes ws), !read_insert by done. by rewrite !decide_True.
Qed.

(** C15: recovery can be interrupted.  initlog on a disk with a committed
    transaction returns with the log clear; a crash between any two of its
    writes, followed by another recovery, gives the same blocks. *)
Theorem recovery_idempotent d dsize st sz bs : log_disk d dsize st sz bs -> exists s, let l := mkLog st sz 0 false 1 [] s in
  initlog 1 (boot d dsize) = Ok (tt, l) /\ log_idle l /\
  forall ws1 ws2, writes s = ws1 ++ ws2 -> recovers (apply_writes ws1 d) dsize st sz (read_disk (disk s)).
Proof.
  intros Hld. destruct (initlog_idle d dsize st sz bs _ Hld (fresh_boot d dsize)) as (s & H1 & H2 & H3 & H4 & H5 & H6). exists s. split_and!; [done|done|].
  pose proof (ld_layout _ _ _ _ _ Hld) as [L1 L2 L3 L4]. pose proof (ld_fits _ _ _ _ _ Hld) as Hfit.
  assert (forall x, st <= x < st + sz \/ x = 1 -> x ∉ bs) as Hout.
  { intros x Hx Hin. destruct (ld_home _ _ _ _ _ Hld x Hin) as (_ & ? & ?). lia. }
  assert (forall C C2, installs bs (st + 1) d = C ++ C2 -> recovers (apply_writes C d) dsize st sz (read_disk (disk s))) as Hpart.
  { intros C C2 HC. assert (forall x, x ∉ bs -> read_disk (apply_writes C d) x = read_disk d x) as HCx.
    { intros x Hx. apply read_apply_writes. intros Hin. apply Hx. rewrite <-(installs_fst bs (st + 1) d), HC, fmap_app. apply elem_of_app. by left. }
    eapply (recovers_disk _ _ _ _ bs).
    - eapply log_disk_ext; [exact Hld| |]; apply HCx, Hout; lia.
    - intros x Hx. rewrite H6 by done. rewrite (installs_ext bs (st + 1) d).
      + destruct (decide (x ∈ bs)) as [Hin|Hin]; [apply read_apply_same; by rewrite installs_fst|]. rewrite !(read_apply_writes (installs _ _ _)) by by rewrite installs_fst. by apply HCx.
      + intros y Hy. apply HCx, Hout. lia. }
  intros ws1 ws2 Hws. rewrite H4 in Hws. unfold recovery in Hws. apply app_eq_inv in Hws as [(k & HC & _)|(k & -> & Hk)]; [by eapply Hpart|].
  destruct k as [|w k].
  - rewrite app_nil_r. apply (Hpart _ []). by rewrite app_nil_r.
  - injection Hk as <- Hk. symmetry in Hk. apply app_eq_nil in Hk as [-> ->]. fold (recovery d st bs). rewrite <-H5.
    destruct H2 as ([_ Htx _ _] & _). pose proof (tx_disk _ _ _ _ _ _ Htx) as Hc. cbn [bc start size] in Hc. rewrite H3 in Hc.
    by eapply recovers_disk.
Qed.

(** A disk as mkfs lays it out: the log of 30 blocks starts at block 2. *)
Definition ex_super : list Z := list_inserts 0 [1000; 941; 200; 30; 2; 32; 58] zero_block.
Definition ex_disk : gmap Z (list Z) := {[1 := ex_super]}.
(** The same after a crash with block 100 committed but not installed. *)
Definition ex_crashed : gmap Z (list Z) := <[3 := [7]]> (<[2 := encode_head [100] zero_block]> ex_disk).

Lemma ex_log_disk : log_disk ex_disk 1000 2 30 [].
Proof. split; try reflexivity; [split; unfold LOGSIZE, MAXOPBLOCKS; unfold_bounds; lia|cbn; lia|by intros b ?%elem_of_nil]. Qed.

Lemma log_atomic_witness : let os := [Begin; Update 100 [1]; Begin; Update 101 [2]; End; Update 100 [3]; End] in
  exists l l' ws, initlog 1 (boot ex_disk 1000) = Ok (tt, l) /\ exec_ops os l = Ok (tt, l') /\
    writes (bc l') = writes (bc l) ++ ws /\ read_disk (disk (bc l')) 100 = [3] /\ read_disk (disk (bc l')) 101 = [2].
Proof.
  intros os. destruct (initlog_idle _ _ _ _ _ _ ex_log_disk (fresh_boot _ _)) as (s & H1 & H2 & H3 & _ & H5 & _).
  destruct (log_atomic (mkLog 2 30 0 false 1 [] s) os H2 eq_refl) as (l' & ws & E1 & E2 & E3 & E4 & _).
  { cbn [start size bc]. rewrite H3. repeat constructor; unfold home; lia. }
  exists (mkLog 2 30 0 false 1 [] s), l', ws. cbn [start size bc] in E4. rewrite H3 in E4.
  split; [exact H1|]. split; [exact E1|]. split; [exact E3|].
  split; (rewrite E4 by (unfold kept; lia)); reflexivity.
Defined.

Lemma recovery_idempotent_witness : exists s, initlog 1 (boot ex_crashed 1000) = Ok (tt, mkLog 2 30 0 false 1 [] s) /\
  forall ws1 ws2, writes s = ws1 ++ ws2 -> recovers (apply_writes ws1 ex_crashed) 1000 2 30 (read_disk (disk s)).
Proof.
  destruct (recovery_idempotent ex_crashed 1000 2 30 [100]) as (s & H1 & _ & H3); [|exists s; split; [exact H1|exact H3]].
  split; try reflexivity; [split; unfold LOGSIZE, MAXOPBLOCKS; unfold_bounds; lia|cbn; lia|].
  intros b ->%list_elem_of_singleton. unfold home. lia.
Defined.

(** Three operations that log ten blocks each, the most an operation may, are
    all let in by begin_op; but the log has room for 29 blocks, and log_write
    panics at the last one. *)
Lemma log_space_overcommitted :
  (_ ← initlog 1;
   exec_ops ([Begin; Begin; Begin] ++ ((fun n => Update (100 + Z.of_nat n) []) <$> seq 0 29)))
    (boot ex_disk 1000) <> Err Panic /\
  (_ ← initlog 1;
   exec_ops ([Begin; Begin; Begin] ++ ((fun n => Update (100 + Z.of_nat n) []) <$> seq 0 30)))
    (boot ex_disk 1000) = Err Panic.
Proof. split; vm_compute; done. Qed.
End properties.
