(* ===== verification/Block.v ===== *)
(** * Disk blocks, the bottom of xv6 wmap/solution/fs.c

    A block is its 128 words; [get_byte] and [set_byte] are the accesses of fs.c
    to its bytes.  Holds bzero, balloc and bfree, and the view of the disk that
    a transaction of Log.v has: every block, with the updates of the running
    transaction, as a function from block numbers to contents. *)
From stdpp Require Import functions.
From S2P Require Import Prelude Bio Log.

Definition BSIZE : Z := 512.
Definition BPB : Z := BSIZE * 8.
Definition BBLOCK (b : Z) (sb : superblock) : Z := b / BPB + bmapstart sb.

(** ** The bytes of a block *)
Definition word_at (d : list Z) (k : Z) : Z := default 0 (d !! Z.to_nat k).
Definition get_byte (d : list Z) (k : Z) : Z := Z.land (Z.shiftr (word_at d (k / 4)) (8 * (k mod 4))) 255.
Definition set_byte (d : list Z) (k v : Z) : list Z :=
  let s := 8 * (k mod 4) in
  <[Z.to_nat (k / 4) := Z.lor (Z.ldiff (word_at d (k / 4)) (Z.shiftl 255 s)) (Z.shiftl v s)]> d.

(** memmove out of and into the data of a buffer. *)
Definition get_bytes (d : list Z) (k n : Z) : list Z := get_byte d <$> seqZ k n.
Fixpoint put_bytes (d : list Z) (k : Z) (bs : list Z) : list Z :=
  match bs with
  | [] => d
  | v :: bs' => put_bytes (set_byte d k v) (k + 1) bs'
  end.

(** The data of a buffer, and assignments to it. *)
Definition bdata (i : nat) : M log (list Z) := x ← with_bc (getb i); mret (data x).
Definition set_bdata (i : nat) (d : list Z) : M log unit := with_bc (upd_buf i (set_data d)).

(** ** bzero, balloc and bfree *)
Section block.
Variable sb : superblock.

Definition bzero (d bno : Z) : M log unit :=
  i ← with_bc (bread d bno);
  _ ← set_bdata i zero_block;
  _ ← log_write i;
  with_bc (brelse i).

(** The inner loop of balloc from bit [bi] on, with [n] bits left in the block. *)
Fixpoint balloc_bits (n : nat) (d : Z) (i : nat) (b bi : Z) : M log (option Z) :=
  match n with
  | O => mret None
  | S n' =>
      if b + bi <? sb_size sb then
        c ← bdata i;
        let m := Z.shiftl 1 (bi mod 8) in
        if Z.land (get_byte c (bi / 8)) m =? 0 then
          _ ← set_bdata i (set_byte c (bi / 8) (Z.lor (get_byte c (bi / 8)) m));
          _ ← log_write i;
          _ ← with_bc (brelse i);
          _ ← bzero d (b + bi);
          mret (Some (b + bi))
        else balloc_bits n' d i b (bi + 1)
      else mret None
  end.

Fixpoint balloc_loop (fuel : nat) (d b : Z) : M log Z :=
  match fuel with
  | O => fail OutOfFuel
  | S fuel' =>
      if b <? sb_size sb then
        i ← with_bc (bread d (BBLOCK b sb));
        o ← balloc_bits (Z.to_nat BPB) d i b 0;
        match o with
        | Some r => mret r
        | None =>
            _ ← with_bc (brelse i);
            b' ← lift (sint (b + BPB));
            balloc_loop fuel' d b'
        end
      else fail Panic
  end.
Definition balloc (d : Z) : M log Z := balloc_loop (Z.to_nat (sb_size sb / BPB + 2)) d 0.

Definition bfree (d b : Z) : M log unit :=
  i ← with_bc (bread d (BBLOCK b sb));
  c ← bdata i;
  let bi := b mod BPB in
  let m := Z.shiftl 1 (bi mod 8) in
  if Z.land (get_byte c (bi / 8)) m =? 0 then fail Panic
  else
  _ ← set_bdata i (set_byte c (bi / 8) (Z.land (get_byte c (bi / 8)) (Z.lnot m)));
  _ ← log_write i;
  with_bc (brelse i).
End block.

(** ** Bits and bytes *)

(** Bit [n] of a block, the least significant bit of each word first. *)
Definition get_bit (d : list Z) (n : Z) : bool := Z.testbit (word_at d (n / 32)) (n mod 32).

Section bits.

Lemma testbit_byte v j : 0 <= v < 256 -> 8 <= j -> Z.testbit v j = false.
Proof.
  intros Hv Hj. destruct (decide (v = 0)) as [->|]; [apply Z.testbit_0_l|]. apply Z.bits_above_log2; [lia|].
  assert (Z.log2 v < 8); [|lia]. apply Z.log2_lt_pow2; lia.
Qed.

Lemma testbit_255 j : 0 <= j -> Z.testbit 255 j = bool_decide (j < 8).
Proof.
  intros Hj. change 255 with (Z.ones 8). rewrite Z.testbit_ones_nonneg by lia. destruct (Z.ltb_spec j 8); symmetry;
    [by apply bool_decide_eq_true|by apply bool_decide_eq_false; lia].
Qed.

Lemma get_byte_bit d k j : 0 <= k -> 0 <= j -> Z.testbit (get_byte d k) j = bool_decide (j < 8) && get_bit d (8 * k + j).
Proof.
  intros Hk Hj. unfold get_byte. rewrite Z.land_spec, testbit_255, andb_comm by done. case_bool_decide as Hj8; [cbn [andb]|done].
  rewrite Z.shiftr_spec by done. unfold get_bit. f_equal; [f_equal; zlia|zlia].
Qed.

Lemma get_byte_range d k : 0 <= get_byte d k < 256.
Proof. unfold get_byte. change 255 with (Z.ones 8). rewrite Z.land_ones by lia. apply Z.mod_pos_bound. lia. Qed.

Lemma word_at_insert d k w j : 0 <= k < Z.of_nat (length d) -> 0 <= j -> word_at (<[Z.to_nat k := w]> d) j = if decide (j = k) then w else word_at d j.
Proof.
  intros Hk Hj. unfold word_at. case_decide as E.
  - subst. by rewrite list_lookup_insert_eq by lia.
  - rewrite list_lookup_insert_ne; [done|lia].
Qed.

Lemma length_set_byte d k v : length (set_byte d k v) = length d.
Proof. apply length_insert. Qed.

Lemma get_bit_set_byte d k v n : length d = BWORDS -> 0 <= k < BSIZE -> 0 <= v < 256 -> 0 <= n ->
  get_bit (set_byte d k v) n = if decide (n / 8 = k) then Z.testbit v (n mod 8) else get_bit d n.
Proof.
  intros Hd Hk Hv Hn. unfold get_bit, set_byte. rewrite word_at_insert by (unfold BWORDS, BSIZE in *; zlia).
  destruct (decide (n / 32 = k / 4)) as [E|E]; [|rewrite decide_False; [done|zlia]].
  rewrite Z.lor_spec, Z.ldiff_spec, !Z.shiftl_spec by zlia. rewrite <-E. case_decide as E2.
  - assert (n mod 32 - 8 * (k mod 4) = n mod 8) as -> by zlia. rewrite testbit_255, bool_decide_true by zlia. by rewrite andb_false_r.
  - destruct (decide (n mod 32 - 8 * (k mod 4) < 0)) as [Hlt|Hge].
    + rewrite !(Z.testbit_neg_r _ (n mod 32 - 8 * (k mod 4))) by done. by rewrite andb_true_r, orb_false_r.
    + rewrite testbit_255, bool_decide_false by zlia. rewrite (testbit_byte v) by zlia. by rewrite andb_true_r, orb_false_r.
Qed.

Lemma byte_ext v w : 0 <= v < 256 -> 0 <= w < 256 -> (forall j, 0 <= j < 8 -> Z.testbit v j = Z.testbit w j) -> v = w.
Proof.
  intros Hv Hw He. apply Z.bits_inj'. intros j Hj. destruct (decide (j < 8)); [by apply He|]. by rewrite !testbit_byte by lia.
Qed.

Lemma get_byte_set_byte d k v j : length d = BWORDS -> 0 <= k < BSIZE -> 0 <= v < 256 -> 0 <= j ->
  get_byte (set_byte d k v) j = if decide (j = k) then v else get_byte d j.
Proof.
  intros Hd Hk Hv Hj. apply byte_ext; [apply get_byte_range|case_decide; [done|apply get_byte_range]|]. intros b Hb.
  rewrite get_byte_bit, bool_decide_true, get_bit_set_byte by lia. cbn [andb]. destruct (decide (j = k)) as [->|Hne].
  - rewrite decide_True by zlia. f_equal. zlia.
  - rewrite decide_False by zlia. by rewrite get_byte_bit, bool_decide_true by lia.
Qed.

Lemma length_put_bytes bs d k : length (put_bytes d k bs) = length d.
Proof. revert d k. induction bs as [|v bs IH]; intros d k; [done|]. cbn. by rewrite IH, length_set_byte. Qed.

Lemma get_byte_put_bytes bs d k j : length d = BWORDS -> 0 <= k -> k + Z.of_nat (length bs) <= BSIZE ->
  Forall (fun v => 0 <= v < 256) bs -> 0 <= j ->
  get_byte (put_bytes d k bs) j = if decide (k <= j < k + Z.of_nat (length bs)) then default 0 (bs !! Z.to_nat (j - k)) else get_byte d j.
Proof.
  revert d k. induction bs as [|v bs IH]; intros d k Hd Hk Hl Hbs Hj; cbn [put_bytes length] in *.
  { rewrite decide_False by lia. done. }
  apply Forall_cons in Hbs as [Hv Hbs]. rewrite IH by (rewrite ?length_set_byte; lia || done).
  rewrite get_byte_set_byte by (lia || done). repeat case_decide; try lia.
  - rewrite lookup_cons_ne_0 by lia. do 2 f_equal. lia.
  - subst. by rewrite Z.sub_diag.
Qed.

Lemma land_bit x j : 0 <= j -> (Z.land x (Z.shiftl 1 j) =? 0) = negb (Z.testbit x j).
Proof.
  intros Hj. rewrite Z.shiftl_1_l. destruct (Z.testbit x j) eqn:E; cbn [negb].
  - apply Z.eqb_neq. intros H. apply (f_equal (fun z => Z.testbit z j)) in H. rewrite Z.land_spec, Z.pow2_bits_true, E, Z.testbit_0_l in H by done. done.
  - apply Z.eqb_eq, Z.bits_inj'. intros i Hi. rewrite Z.land_spec, Z.testbit_0_l. destruct (decide (i = j)) as [->|]; [by rewrite E|].
    rewrite Z.pow2_bits_false by lia. apply andb_false_r.
Qed.

(** Setting and clearing the bit of a block. *)
Definition mark (d : list Z) (bi : Z) : list Z := set_byte d (bi / 8) (Z.lor (get_byte d (bi / 8)) (Z.shiftl 1 (bi mod 8))).
Definition unmark (d : list Z) (bi : Z) : list Z := set_byte d (bi / 8) (Z.land (get_byte d (bi / 8)) (Z.lnot (Z.shiftl 1 (bi mod 8)))).

Lemma test_get_byte d bi : 0 <= bi -> (Z.land (get_byte d (bi / 8)) (Z.shiftl 1 (bi mod 8)) =? 0) = negb (get_bit d bi).
Proof.
  intros Hb. rewrite land_bit by zlia. f_equal. rewrite get_byte_bit, bool_decide_true by zlia. cbn [andb]. f_equal. zlia.
Qed.

Lemma get_bit_mark d bi n : length d = BWORDS -> 0 <= bi < BPB -> 0 <= n -> get_bit (mark d bi) n = bool_decide (n = bi) || get_bit d n.
Proof.
  intros Hd Hb Hn. unfold mark. unfold BPB in Hb. assert (0 <= bi mod 8 < 8) by zlia.
  rewrite get_bit_set_byte; [|done|unfold BSIZE in *; zlia| |done].
  - destruct (decide (n / 8 = bi / 8)) as [E|E].
    + rewrite Z.lor_spec, get_byte_bit, bool_decide_true by zlia. cbn [andb].
      replace (8 * (bi / 8) + n mod 8) with n by zlia. rewrite orb_comm. f_equal. rewrite Z.shiftl_1_l, Z.pow2_bits_eqb by lia.
      destruct (Z.eqb_spec (bi mod 8) (n mod 8)); symmetry; [apply bool_decide_eq_true|apply bool_decide_eq_false]; zlia.
    + rewrite bool_decide_false; [done|congruence].
  - pose proof (get_byte_range d (bi / 8)) as Hr. rewrite Z.shiftl_1_l.
    split; [apply Z.lor_nonneg; split; [lia|apply Z.pow_nonneg; lia]|].
    destruct (decide (Z.lor (get_byte d (bi / 8)) (2 ^ (bi mod 8)) = 0)) as [->|Hnz]; [lia|].
    apply (Z.log2_lt_pow2 _ 8); [pose proof (proj2 (Z.lor_nonneg (get_byte d (bi / 8)) (2 ^ (bi mod 8)))) as Hp; specialize (Hp (conj (proj1 Hr) (Z.pow_nonneg 2 _ ltac:(lia)))); lia|].
    rewrite Z.log2_lor by (first [lia|apply Z.pow_nonneg; lia]). rewrite Z.log2_pow2 by lia.
    assert (Z.log2 (get_byte d (bi / 8)) < 8); [|lia]. destruct (decide (get_byte d (bi / 8) = 0)) as [->|]; [cbn; lia|]. apply Z.log2_lt_pow2; lia.
Qed.

Lemma get_bit_unmark d bi n : length d = BWORDS -> 0 <= bi < BPB -> 0 <= n -> get_bit (unmark d bi) n = negb (bool_decide (n = bi)) && get_bit d n.
Proof.
  intros Hd Hb Hn. unfold unmark. unfold BPB in Hb. assert (0 <= bi mod 8 < 8) by zlia.
  pose proof (get_byte_range d (bi / 8)) as Hr.
  rewrite get_bit_set_byte; [|done|unfold BSIZE in *; zlia| |done].
  - destruct (decide (n / 8 = bi / 8)) as [E|E].
    + rewrite Z.land_spec, get_byte_bit, bool_decide_true by zlia. cbn [andb].
      replace (8 * (bi / 8) + n mod 8) with n by zlia. rewrite andb_comm. f_equal. rewrite Z.lnot_spec by zlia. f_equal.
      rewrite Z.shiftl_1_l, Z.pow2_bits_eqb by lia.
      destruct (Z.eqb_spec (bi mod 8) (n mod 8)); symmetry; [apply bool_decide_eq_true|apply bool_decide_eq_false]; zlia.
    + rewrite bool_decide_false; [done|congruence].
  - set (g := get_byte d (bi / 8)) in *. set (x := Z.lnot _). assert (Z.land g x = Z.land x g mod 2 ^ 8) as ->; [|apply Z.mod_pos_bound; lia].
    rewrite <-Z.land_ones, <-Z.land_assoc, Z.land_ones, Z.mod_small by lia. apply Z.land_comm.
Qed.

Lemma length_mark d bi : length (mark d bi) = length d.
Proof. apply length_set_byte. Qed.
Lemma length_unmark d bi : length (unmark d bi) = length d.
Proof. apply length_set_byte. Qed.
End bits.

(** ** The view of a transaction

    Between the begin_op and the end_op of an operation: [V] gives the contents
    of every block, updates of the transaction included; [H] the buffers held;
    [T] contains the blocks logged so far.  [l0] is the log as the operation
    found it; nothing has been written to the disk since. *)
Record txi (l0 l : log) (D : gmap Z (list Z)) (H : gmap nat (Z * list Z)) : Prop := {
  xi_start : start l = start l0;
  xi_size : size l = size l0;
  xi_dsize : disksize (bc l) = disksize (bc l0);
  xi_disk : disk (bc l) = disk (bc l0);
  xi_writes : writes (bc l) = writes (bc l0);
  xi_out : outstanding l = outstanding l0;
  xi_commit : committing l = false;
  xi_dev : ldev l = 1;
  xi_rep : rep (bc l) D H;
  xi_tx : tx (disk (bc l0)) (disksize (bc l0)) (start l0) (size l0) D (lh l);
  xi_nodup : NoDup (lh l)
}.
Definition in_tx (l0 l : log) (V : Z -> list Z) (H : gmap nat (Z * list Z)) (T : gset Z) : Prop :=
  exists D, txi l0 l D H /\ (forall b, new_block (disk (bc l0)) D b = V b) /\ dom D ⊆ T.

(** The log has room for the blocks of [T]. *)
Definition room (l0 : log) (T : gset Z) : Prop := Z.of_nat (base.size T) < size l0 - 1.
Definition home_block (l0 : log) (b : Z) : Prop := home (start l0) (size l0) (disksize (bc l0)) b.
Definition not_held (H : gmap nat (Z * list Z)) (b : Z) : Prop := forall i c, H !! i <> Some (b, c).

Section view.
Implicit Types (l : log) (T : gset Z) (H : gmap nat (Z * list Z)).

Lemma not_held_empty b : not_held ∅ b.
Proof. intros i c. by rewrite lookup_empty. Qed.

Lemma not_held_insert i b c H b' : not_held H b' -> b <> b' -> not_held (<[i := (b, c)]> H) b'.
Proof. intros Hn Hb j c' [[_ ?]|[_ ?]]%lookup_insert_Some; [congruence|by eapply Hn]. Qed.

(** From the state between calls to the view of a transaction, and back. *)
Lemma txi_open l D : open_tx l D -> txi l l D ∅.
Proof. intros [[A B C E F G] Htx Hn Hc]. by split. Qed.

Lemma open_txi l0 l D : txi l0 l D ∅ -> open_tx l D.
Proof.
  intros [A1 A2 A3 A4 A5 A6 A8 A9 Hr Htx Hn]. pose proof (tx_disk _ _ _ _ _ _ Htx) as Hld. pose proof (ld_layout _ _ _ _ _ Hld) as HL.
  split; rewrite ?A1, ?A2, ?A3, ?A4; try done. split; rewrite ?A1, ?A2, ?A3, ?A4; try done.
  - intros b Hb. apply (tx_home _ _ _ _ _ _ Htx). by apply (tx_pinned _ _ _ _ _ _ Htx).
  - assert (base.size D <= length (lh l))%nat; [|pose proof (tx_fits _ _ _ _ _ _ Htx); destruct HL; unfold NBUF, LOGSIZE, MAXOPBLOCKS in *; lia].
    rewrite <-(size_dom (D := gset Z)), <-(size_list_to_set (C := gset Z) (lh l)) by done. apply subseteq_size.
    intros x Hx%elem_of_dom. apply elem_of_list_to_set. by apply (tx_pinned _ _ _ _ _ _ Htx).
  - apply Hld.
Qed.

Lemma txi_logged l0 l D H T : txi l0 l D H -> dom D ⊆ T -> (length (lh l) <= base.size T)%nat /\ (base.size D <= base.size T)%nat.
Proof.
  intros Hx HT. split.
  - rewrite <-(size_list_to_set (C := gset Z) (lh l)) by apply Hx. apply subseteq_size. intros x Hin%elem_of_list_to_set.
    apply HT, elem_of_dom. by apply (tx_pinned _ _ _ _ _ _ (xi_tx _ _ _ _ Hx)).
  - rewrite <-(size_dom (D := gset Z)). by apply subseteq_size.
Qed.

Lemma in_tx_ext l0 l V V' H T T' : in_tx l0 l V H T -> (forall b, V b = V' b) -> T ⊆ T' -> in_tx l0 l V' H T'.
Proof. intros (D & H1 & H2 & H3) HV HT. exists D. split_and!; [done| |set_solver]. intros b. by rewrite H2. Qed.

(** bread, and the data of a held buffer. *)
Lemma wp_bread l0 l V H T b (Q : nat -> log -> Prop) : in_tx l0 l V H T -> b < disksize (bc l0) -> not_held H b ->
  room l0 T -> (base.size H <= 1)%nat ->
  (forall i l', H !! i = None -> in_tx l0 l' V (<[i := (b, V b)]> H) T -> Q i l') ->
  wp (with_bc (bread 1 b)) l Q.
Proof.
  intros (D & Hx & HV & HT) Hb Hh Hroom Hs HQ. destruct (txi_logged _ _ _ _ _ Hx HT) as [_ HD].
  pose proof (ld_layout _ _ _ _ _ (tx_disk _ _ _ _ _ _ (xi_tx _ _ _ _ Hx))) as [_ HL _ _]. unfold room, LOGSIZE, MAXOPBLOCKS in *.
  pose proof Hx as [A1 A2 A3 A4 A5 A6 A8 A9 Hr Htx Hn].
  destruct (bread_ok (bc l) D H b Hr) as (i & s & H1 & Hi & _ & Hr1 & (Hd1 & Hs1 & Hw1) & _); [lia|done|right; unfold NBUF; lia|].
  exists i, (set_bc s l). split; [by apply with_bc_ok|]. apply HQ; [done|]. exists D. split_and!; [|done|done].
  assert (content (bc l) D b = V b) as <-. { rewrite <-HV. unfold content, new_block. by rewrite A4. }
  split; cbn [set_bc bc start size outstanding committing ldev lh]; try done; congruence.
Qed.

Lemma wp_bdata l0 l V H T i b c (Q : list Z -> log -> Prop) : in_tx l0 l V H T -> H !! i = Some (b, c) -> Q c l -> wp (bdata i) l Q.
Proof.
  intros (D & Hx & _) Hi HQ. destruct (rb_held _ _ _ (xi_rep _ _ _ _ Hx) i b c Hi) as (_ & _ & _ & _ & _ & _ & Hd & _).
  exists c, l. split; [|done]. unfold bdata, mbind, M_bind, with_bc, getb, get, mret, M_ret. unfold mbind, M_bind, mret, M_ret.
  rewrite Hd. by destruct l.
Qed.

Lemma wp_set_bdata l0 l V H T i b c d (Q : unit -> log -> Prop) : in_tx l0 l V H T -> H !! i = Some (b, c) ->
  (forall l', in_tx l0 l' V (<[i := (b, d)]> H) T -> Q tt l') -> wp (set_bdata i d) l Q.
Proof.
  intros (D & Hx & HV & HT) Hi HQ. pose proof Hx as [A1 A2 A3 A4 A5 A6 A8 A9 Hr Htx Hn].
  destruct (set_data_ok (bc l) D H i b c d Hr Hi) as (s & H1 & Hr1 & (Hd1 & Hs1 & Hw1)).
  exists tt, (set_bc s l). split; [by apply with_bc_ok|]. apply HQ. exists D. split_and!; [|done|done].
  split; cbn [set_bc bc start size outstanding committing ldev lh]; try done; congruence.
Qed.

Lemma wp_log_write l0 l V H T i b c (Q : unit -> log -> Prop) : in_tx l0 l V H T -> H !! i = Some (b, c) ->
  home_block l0 b -> 1 <= outstanding l0 -> room l0 T -> b ∈ T ->
  (forall l', in_tx l0 l' (<[b := c]> V) H T -> Q tt l') -> wp (log_write i) l Q.
Proof.
  intros (D & Hx & HV & HT) Hi Hb Hops Hroom HbT HQ. destruct (txi_logged _ _ _ _ _ Hx HT) as [Hlen _].
  pose proof (ld_layout _ _ _ _ _ (tx_disk _ _ _ _ _ _ (xi_tx _ _ _ _ Hx))) as [_ HL _ _]. unfold room in *.
  pose proof Hx as [A1 A2 A3 A4 A5 A6 A8 A9 Hr Htx Hn].
  destruct (set_dirty_ok (bc l) D H i b c Hr Hi) as (s & H1 & Hr1 & (Hd1 & Hs1 & Hw1)).
  destruct (rb_held _ _ _ Hr i b c Hi) as (_ & _ & Hbn & _).
  destruct (add_block_nodup b (lh l) Hn) as (N1 & N2 & N3). set (bs := match list_find _ (lh l) with Some _ => _ | None => _ end) in *.
  exists tt, (set_lh bs (set_bc s l)). split.
  { unfold log_write. erewrite bind_Ok by reflexivity.
    rewrite (proj2 (Z.leb_gt LOGSIZE _)), (proj2 (Z.leb_gt (size l - 1) _)), (proj2 (Z.ltb_ge (outstanding l) 1)) by lia. cbn [orb].
    erewrite bind_Ok by reflexivity. rewrite Hbn. rewrite (bind_Ok _ _ _ tt (set_lh bs l)).
    - erewrite with_bc_ok by exact H1. done.
    - unfold bs. destruct (list_find _ (lh l)); [by destruct l|done]. }
  apply HQ. exists (<[b := c]> D). split_and!.
  - split; cbn [set_bc set_lh bc start size outstanding committing ldev lh]; try done; try congruence. split.
    + apply Htx.
    + intros x. rewrite N2, lookup_insert_is_Some, (tx_pinned _ _ _ _ _ _ Htx). destruct (decide (x = b)); naive_solver.
    + intros x [->|Hin]%N2; [done|]. by apply (tx_home _ _ _ _ _ _ Htx).
    + lia.
  - intros x. rewrite (proj1 (home_updated D (disk (bc l0)) b c x)). unfold insert, fn_insert. case_decide as E1; case_decide as E2; congruence || done.
  - rewrite dom_insert. set_solver.
Qed.

Lemma wp_brelse l0 l V H T i b (Q : unit -> log -> Prop) : in_tx l0 l V H T -> H !! i = Some (b, V b) ->
  (forall l', in_tx l0 l' V (delete i H) T -> Q tt l') -> wp (with_bc (brelse i)) l Q.
Proof.
  intros (D & Hx & HV & HT) Hi HQ. pose proof Hx as [A1 A2 A3 A4 A5 A6 A8 A9 Hr Htx Hn].
  assert (content (bc l) D b = V b) as Hc. { rewrite <-HV. unfold content, new_block. by rewrite A4. }
  rewrite <-Hc in Hi. destruct (brelse_ok (bc l) D H i b Hr Hi) as (s & H1 & Hr1 & (Hd1 & Hs1 & Hw1) & _).
  exists tt, (set_bc s l). split; [by apply with_bc_ok|]. apply HQ. exists D. split_and!; [|done|done].
  split; cbn [set_bc bc start size outstanding committing ldev lh]; try done; congruence.
Qed.
End view.

(** ** The layout of the file system and its free map *)
Definition IPB : Z := BSIZE / 64.
Definition datastart (sb : superblock) : Z := bmapstart sb + sb_size sb / BPB + 1.

Record geo (sb : superblock) (l0 : log) : Prop := {
  ge_start : 2 <= start l0;
  ge_log : 2 <= size l0 /\ start l0 + size l0 <= inodestart sb;
  ge_inodes : 0 <= ninodes sb /\ inodestart sb + ninodes sb / IPB + 1 <= bmapstart sb;
  ge_data : datastart sb <= sb_size sb;
  ge_disk : sb_size sb <= disksize (bc l0);
  ge_int : sb_size sb <= INT_MAX - BPB
}.

Definition used (sb : superblock) (V : Z -> list Z) (b : Z) : bool := get_bit (V (BBLOCK b sb)) (b mod BPB).
Definition first_free (sb : superblock) (V : Z -> list Z) (b : Z) : Prop :=
  0 <= b < sb_size sb /\ used sb V b = false /\ forall b', 0 <= b' < b -> used sb V b' = true.
Definition bitmap_block (sb : superblock) (b : Z) : Prop := bmapstart sb <= b < datastart sb.
(** The blocks from the inodes on are full. *)
Definition full_blocks (sb : superblock) (V : Z -> list Z) : Prop := forall b, inodestart sb <= b < sb_size sb -> length (V b) = BWORDS.

(** The blocks after balloc has returned [b], and after bfree of [b]. *)
Definition allocated (sb : superblock) (V : Z -> list Z) (b : Z) : Z -> list Z :=
  <[b := zero_block]> (<[BBLOCK b sb := mark (V (BBLOCK b sb)) (b mod BPB)]> V).
Definition freed (sb : superblock) (V : Z -> list Z) (b : Z) : Z -> list Z :=
  <[BBLOCK b sb := unmark (V (BBLOCK b sb)) (b mod BPB)]> V.

Section alloc.
Context (sb : superblock) (l0 : log) (Hgeo : geo sb l0).
Implicit Types (l : log) (T : gset Z) (H : gmap nat (Z * list Z)).

Lemma home_fs b : inodestart sb <= b < sb_size sb -> home_block l0 b.
Proof. destruct Hgeo as [? [? ?] ? ? ? ?]. unfold home_block, home. lia. Qed.

Lemma bblock_range b : 0 <= b < sb_size sb -> bitmap_block sb (BBLOCK b sb).
Proof. intros Hb. unfold bitmap_block, BBLOCK, datastart, BPB, BSIZE. zlia. Qed.

Lemma bitmap_home b : bitmap_block sb b -> home_block l0 b /\ b < disksize (bc l0).
Proof.
  intros Hb. destruct Hgeo as [? [? ?] [? ?] ? ? ?]. unfold bitmap_block in Hb. split; [|lia]. apply home_fs.
  pose proof (Z.div_pos (ninodes sb) IPB ltac:(lia) ltac:(done)). lia.
Qed.

Lemma bitmap_fs b : bitmap_block sb b -> inodestart sb <= b < sb_size sb.
Proof.
  intros Hb. destruct Hgeo as [? [? ?] [? ?] ? ? ?]. unfold bitmap_block in Hb.
  pose proof (Z.div_pos (ninodes sb) IPB ltac:(lia) ltac:(done)). lia.
Qed.

Context (Hops : 1 <= outstanding l0).

Lemma wp_bzero l V H T b (Q : unit -> log -> Prop) : in_tx l0 l V H T -> home_block l0 b -> not_held H b -> room l0 T -> b ∈ T -> (base.size H <= 1)%nat ->
  (forall l', in_tx l0 l' (<[b := zero_block]> V) H T -> Q tt l') -> wp (bzero 1 b) l Q.
Proof.
  intros Hl Hb Hh Hroom HbT Hs HQ. unfold bzero. pose proof Hb as ([_ ?] & _ & _). wp_step. eapply wp_bread; [done..|].
  intros i l1 Hi H1. wp_step. eapply wp_set_bdata; [exact H1|apply lookup_insert_eq|]. intros l2 H2. rewrite insert_insert_eq in H2.
  wp_step. eapply wp_log_write; [exact H2|apply lookup_insert_eq|done..|]. intros l3 H3.
  eapply wp_brelse; [exact H3|rewrite lookup_insert_eq; by rewrite fn_lookup_insert|]. intros l4 H4. rewrite delete_insert_id in H4 by done. by apply HQ.
Qed.

(** The scan of one block of the free map. *)
Lemma wp_balloc_bits n l V H T i b bi (Q : option Z -> log -> Prop) :
  in_tx l0 l V (<[i := (BBLOCK b sb, V (BBLOCK b sb))]> H) T -> H !! i = None -> full_blocks sb V -> (base.size H <= 1)%nat ->
  b mod BPB = 0 -> 0 <= b -> 0 <= bi -> bi + Z.of_nat n = BPB ->
  (forall b', 0 <= b' < b + bi -> used sb V b' = true) ->
  (forall f, first_free sb V f -> f < b + BPB -> not_held H f /\ BBLOCK f sb ∈ T /\ datastart sb <= f /\ room l0 ({[f]} ∪ T) /\
    forall l', in_tx l0 l' (allocated sb V f) H ({[f]} ∪ T) -> Q (Some f) l') ->
  ((forall b', 0 <= b' < b + BPB -> b' < sb_size sb -> used sb V b' = true) -> Q None l) ->
  wp (balloc_bits sb n 1 i b bi) l Q.
Proof.
  intros Hl Hi Hfull Hs Hb Hb0. revert bi. induction n as [|n IH]; intros bi Hbi Hn Hused HS HN; cbn [balloc_bits].
  { wp_step. apply HN. intros b' Hb' _. apply Hused. lia. }
  destruct (Z.ltb_spec (b + bi) (sb_size sb)) as [Hlt|Hge]; [|wp_step; apply HN; intros b' Hb' Hsz; apply Hused; lia].
  assert (BBLOCK (b + bi) sb = BBLOCK b sb /\ (b + bi) mod BPB = bi) as [Eb Em] by (unfold BBLOCK, BPB, BSIZE in *; zlia).
  wp_step. eapply wp_bdata; [exact Hl|apply lookup_insert_eq|]. cbn beta iota. rewrite test_get_byte by done.
  assert (get_bit (V (BBLOCK b sb)) bi = used sb V (b + bi)) as -> by (unfold used; by rewrite Eb, Em).
  destruct (used sb V (b + bi)) eqn:Eu; cbn [negb].
  { apply IH; try done; try lia. intros b' Hb'. destruct (decide (b' = b + bi)) as [->|]; [done|]. apply Hused. lia. }
  destruct (HS (b + bi)) as (Hh & HbT & Hds & Hroom & HQ); [by split_and!; (done || lia)|lia|]. fold (mark (V (BBLOCK b sb)) bi).
  assert (home_block l0 (b + bi)) as Hhome.
  { apply home_fs. destruct Hgeo as [? [? ?] [? ?] ? ? ?]. pose proof (Z.div_pos (ninodes sb) IPB ltac:(lia) ltac:(done)).
    unfold datastart in *. pose proof (Z.div_pos (sb_size sb) BPB ltac:(lia) ltac:(unfold BPB, BSIZE; lia)). lia. }
  destruct (bitmap_home (BBLOCK b sb)) as [Hbh _]; [rewrite <-Eb; apply bblock_range; lia|].
  assert (in_tx l0 l V (<[i := (BBLOCK b sb, V (BBLOCK b sb))]> H) ({[b + bi]} ∪ T)) as Hl1 by (eapply in_tx_ext; [exact Hl|done|set_solver]).
  wp_step. eapply wp_set_bdata; [exact Hl1|apply lookup_insert_eq|]. intros l1 H1. rewrite insert_insert_eq in H1.
  wp_step. eapply wp_log_write; [exact H1|apply lookup_insert_eq|done|done|done|rewrite <-Eb; set_solver|]. intros l2 H2.
  wp_step. eapply wp_brelse; [exact H2|rewrite lookup_insert_eq; by rewrite fn_lookup_insert|]. intros l3 H3. rewrite delete_insert_id in H3 by done.
  wp_step. eapply wp_bzero; [exact H3|done|done|done|set_solver|done|]. intros l4 H4. wp_step. apply HQ. unfold allocated. by rewrite Eb, Em.
Qed.

(** balloc returns the first free block, zeroed and marked. *)
Lemma wp_balloc l V H T f (Q : Z -> log -> Prop) :
  in_tx l0 l V H T -> full_blocks sb V -> (base.size H <= 1)%nat -> (forall b, bitmap_block sb b -> not_held H b) ->
  first_free sb V f -> not_held H f -> BBLOCK f sb ∈ T -> datastart sb <= f -> room l0 ({[f]} ∪ T) ->
  (forall l', in_tx l0 l' (allocated sb V f) H ({[f]} ∪ T) -> Q f l') -> wp (balloc sb 1) l Q.
Proof.
  intros Hl Hfull Hs Hheld Hf Hfh HfT Hfd Hroom HQ. unfold balloc. pose proof Hf as (Hf1 & Hf2 & Hf3).
  assert (forall f', first_free sb V f' -> f' = f) as Huniq.
  { intros f' (G1 & G2 & G3). destruct (Ztrichotomy f f') as [Hlt|[?|Hgt]]; [|done|].
    - rewrite G3 in Hf2 by lia. done.
    - rewrite Hf3 in G2 by lia. done. }
  assert (room l0 T) as Hroom1 by (unfold room in *; pose proof (subseteq_size T ({[f]} ∪ T) ltac:(set_solver)); lia).
  assert (forall fuel b l, in_tx l0 l V H T -> b mod BPB = 0 -> 0 <= b -> b <= f -> f < b + BPB * Z.of_nat fuel ->
    wp (balloc_loop sb fuel 1 b) l Q) as Hgen; [|apply Hgen; [done|done|lia|lia|unfold BPB, BSIZE in *; zlia]].
  clear l Hl. induction fuel as [|fuel IH]; intros b l Hl Hb Hb0 Hbf Hfuel; [lia|]. cbn [balloc_loop].
  rewrite (proj2 (Z.ltb_lt _ _)) by lia. pose proof (bblock_range b ltac:(lia)) as Hbr. destruct (bitmap_home _ Hbr) as [_ Hbd].
  wp_step. eapply wp_bread; [done..| |done|done|]; [by apply Hheld|]. intros i l1 Hi H1.
  wp_step. eapply (wp_balloc_bits _ _ V H T i b 0); [exact H1|done..|lia|rewrite Z2Nat.id by (unfold BPB, BSIZE; lia); lia| | |].
  - intros b' Hb'. apply Hf3. lia.
  - intros f' Hf' _. rewrite (Huniq f' Hf'). split_and!; try done. intros l2 H2. wp_step. by apply HQ.
  - intros Hall. assert (b + BPB <= f) as Hbf2. { destruct (decide (f < b + BPB)); [|lia]. rewrite Hall in Hf2 by lia. done. }
    wp_step. eapply wp_brelse; [exact H1|apply lookup_insert_eq|]. intros l2 H2. rewrite delete_insert_id in H2 by done.
    destruct Hgeo. wp_step. eapply wp_lift; [apply sint_ok; unfold BPB, BSIZE in *; unfold_bounds; lia|].
    apply IH; [done|unfold BPB, BSIZE in *; zlia|unfold BPB, BSIZE in *; lia..].
Qed.

(** bfree clears the bit of a used block. *)
Lemma wp_bfree l V H T b (Q : unit -> log -> Prop) :
  in_tx l0 l V H T -> full_blocks sb V -> (base.size H <= 1)%nat -> not_held H (BBLOCK b sb) ->
  0 <= b < sb_size sb -> used sb V b = true -> BBLOCK b sb ∈ T -> room l0 T ->
  (forall l', in_tx l0 l' (freed sb V b) H T -> Q tt l') -> wp (bfree sb 1 b) l Q.
Proof.
  intros Hl Hfull Hs Hheld Hb Hu HbT Hroom HQ. unfold bfree. destruct (bitmap_home _ (bblock_range b Hb)) as [Hbh Hbd].
  wp_step. eapply wp_bread; [done..|]. intros i l1 Hi H1. wp_step. eapply wp_bdata; [exact H1|apply lookup_insert_eq|]. cbn beta iota.
  rewrite test_get_byte by (unfold BPB, BSIZE; zlia). fold (used sb V b). rewrite Hu. cbn [negb]. fold (unmark (V (BBLOCK b sb)) (b mod BPB)).
  wp_step. eapply wp_set_bdata; [exact H1|apply lookup_insert_eq|]. intros l2 H2. rewrite insert_insert_eq in H2.
  wp_step. eapply wp_log_write; [exact H2|apply lookup_insert_eq|done..|]. intros l3 H3.
  eapply wp_brelse; [exact H3|rewrite lookup_insert_eq; by rewrite fn_lookup_insert|]. intros l4 H4. rewrite delete_insert_id in H4 by done. by apply HQ.
Qed.

(** The free map after the two. *)
Lemma used_allocated V f b : full_blocks sb V -> 0 <= f < sb_size sb -> ~ bitmap_block sb f -> 0 <= b < sb_size sb ->
  used sb (allocated sb V f) b = bool_decide (b = f) || used sb V b.
Proof.
  intros Hfull Hf Hnb Hb. unfold used, allocated. assert (f <> BBLOCK b sb) by (intros ->; by destruct (Hnb (bblock_range b Hb))).
  rewrite fn_lookup_insert_ne by done. destruct (decide (BBLOCK f sb = BBLOCK b sb)) as [E|E].
  - rewrite <-E, fn_lookup_insert, get_bit_mark by (first [by apply Hfull, bitmap_fs, bblock_range|unfold BPB, BSIZE in *; zlia]). f_equal. apply bool_decide_ext. unfold BBLOCK, BPB, BSIZE in *. zlia.
  - rewrite fn_lookup_insert_ne by done. rewrite bool_decide_false; [done|congruence].
Qed.

Lemma used_freed V f b : full_blocks sb V -> 0 <= f < sb_size sb -> 0 <= b < sb_size sb ->
  used sb (freed sb V f) b = negb (bool_decide (b = f)) && used sb V b.
Proof.
  intros Hfull Hf Hb. unfold used, freed. destruct (decide (BBLOCK f sb = BBLOCK b sb)) as [E|E].
  - rewrite <-E, fn_lookup_insert, get_bit_unmark by (first [by apply Hfull, bitmap_fs, bblock_range|unfold BPB, BSIZE in *; zlia]). do 2 f_equal. apply bool_decide_ext. unfold BBLOCK, BPB, BSIZE in *. zlia.
  - rewrite fn_lookup_insert_ne by done. rewrite bool_decide_false; [done|congruence].
Qed.

Lemma full_blocks_allocated V f : full_blocks sb V -> 0 <= f < sb_size sb -> full_blocks sb (allocated sb V f).
Proof.
  intros HV Hf b Hb. unfold allocated. destruct (decide (f = b)) as [<-|]; [by rewrite fn_lookup_insert|rewrite fn_lookup_insert_ne by done].
  destruct (decide (BBLOCK f sb = b)) as [<-|]; [rewrite fn_lookup_insert, length_mark|rewrite fn_lookup_insert_ne by done]; by apply HV.
Qed.
Lemma full_blocks_freed V f : full_blocks sb V -> full_blocks sb (freed sb V f).
Proof.
  intros HV b Hb. unfold freed. destruct (decide (BBLOCK f sb = b)) as [<-|]; [rewrite fn_lookup_insert, length_unmark|rewrite fn_lookup_insert_ne by done]; by apply HV.
Qed.
End alloc.
