(* ===== verification/Inode.v ===== *)
(** * Inodes and file contents, xv6 wmap/solution/fs.c from iinit to writei

    The state is the super block, the table of in-memory inodes, the log with
    the buffer cache under it, and whatever the device switch works on.  An
    inode pointer is an index into the table.  The state is that of one process
    using the file system; waiting for an inode it has locked itself is the
    fault [OutOfFuel].  Bytes that C moves from or to the caller's memory are
    lists. *)
From stdpp Require Import functions.
From S2P Require Import Prelude Bio Log Block.

Definition NINODE : nat := 50.
Definition NDEV : Z := 10.
Definition NDIRECT : Z := 12.
Definition NINDIRECT : Z := BSIZE / 4.
Definition MAXFILE : Z := NDIRECT + NINDIRECT.
Definition T_DIR : Z := 1.
Definition T_FILE : Z := 2.
Definition T_DEV : Z := 3.
Definition IBLOCK (i : Z) (sb : superblock) : Z := i / IPB + inodestart sb.

(** ** Inodes on disk and in memory *)
Record dinode : Type := mkDinode {
  type : Z; major : Z; minor : Z; nlink : Z; dsize : Z; addrs : list Z
}.
Record inode : Type := mkInode {
  idev : Z; inum : Z; iref : Z; ilocked : bool; ivalid : bool; din : dinode
}.

#[export] Instance dinode_eq_dec : EqDecision dinode.
Proof. solve_decision. Defined.
#[export] Instance inode_eq_dec : EqDecision inode.
Proof. solve_decision. Defined.

Definition set_addr (bn a : Z) (d : dinode) : dinode := mkDinode (type d) (major d) (minor d) (nlink d) (dsize d) (<[Z.to_nat bn := a]> (addrs d)).
Definition set_dsize (n : Z) (d : dinode) : dinode := mkDinode (type d) (major d) (minor d) (nlink d) n (addrs d).
Definition set_type (t : Z) (d : dinode) : dinode := mkDinode t (major d) (minor d) (nlink d) (dsize d) (addrs d).
Definition addr_at (d : dinode) (bn : Z) : Z := word_at (addrs d) bn.

Definition set_ilocked (b : bool) (x : inode) : inode := mkInode (idev x) (inum x) (iref x) b (ivalid x) (din x).
Definition set_iref (r : Z) (x : inode) : inode := mkInode (idev x) (inum x) r (ilocked x) (ivalid x) (din x).
Definition set_ivalid (v : bool) (x : inode) : inode := mkInode (idev x) (inum x) (iref x) (ilocked x) v (din x).
Definition set_din (d : dinode) (x : inode) : inode := mkInode (idev x) (inum x) (iref x) (ilocked x) (ivalid x) d.

(** A [short], and the two of a word: the low half first. *)
Definition u16 (z : Z) : Z := z mod 65536.
Definition s16 (z : Z) : Z := (z + 32768) mod 65536 - 32768.

(** The inode in slot [k] of a block of sixteen-word inodes. *)
Definition decode_dinode (d : list Z) (k : Z) : dinode :=
  let w j := word_at d (16 * k + j) in
  mkDinode (s16 (w 0)) (s16 (w 0 / 65536)) (s16 (w 1)) (s16 (w 1 / 65536)) (w 2) ((fun j => w (3 + j)) <$> seqZ 0 (NDIRECT + 1)).
Definition encode_dinode (x : dinode) : list Z :=
  [u16 (type x) + 65536 * u16 (major x); u16 (minor x) + 65536 * u16 (nlink x); dsize x] ++ addrs x.
Definition put_dinode (x : dinode) (d : list Z) (k : Z) : list Z := list_inserts (Z.to_nat (16 * k)) (encode_dinode x) d.
Definition zero_dinode : dinode := mkDinode 0 0 0 0 0 (replicate 13 0).
Definition zero_inode : inode := mkInode 0 0 0 false false zero_dinode.

(** The functions of the device switch: read and write of a major number. *)
Class Devsw (DS : Type) : Type := {
  dev_read : Z -> option (Z -> M DS (Z * list Z));
  dev_write : Z -> option (list Z -> M DS Z)
}.

Record fstate (DS : Type) : Type := mkFstate { fsb : superblock; icache : list inode; flog : log; devs : DS }.
Arguments mkFstate {DS}.
Arguments fsb {DS}.
Arguments icache {DS}.
Arguments flog {DS}.
Arguments devs {DS}.

Section inode.
Context {DS : Type} `{Devsw DS}.

Definition with_log {A} (m : M log A) : M (fstate DS) A := fun s =>
  match m (flog s) with Ok (a, l) => Ok (a, mkFstate (fsb s) (icache s) l (devs s)) | Err e => Err e end.
Definition with_dev {A} (m : M DS A) : M (fstate DS) A := fun s =>
  match m (devs s) with Ok (a, d) => Ok (a, mkFstate (fsb s) (icache s) (flog s) d) | Err e => Err e end.
Definition the_sb : M (fstate DS) superblock := s ← get; mret (fsb s).
Definition geti (ip : nat) : M (fstate DS) inode :=
  s ← get; match icache s !! ip with Some x => mret x | None => fail Undefined end.
Definition updi (ip : nat) (g : inode -> inode) : M (fstate DS) unit :=
  modify (fun s => mkFstate (fsb s) (alter g ip (icache s)) (flog s) (devs s)).

(** iinit: the table is static, so all of it is zero. *)
Definition iinit (d : Z) : M (fstate DS) unit :=
  sb ← with_log (with_bc (readsb d));
  modify (fun s => mkFstate sb (icache s) (flog s) (devs s)).

(** ** Allocation and references *)

(** iget from entry [i] on; [empty] is the first free entry before it. *)
Fixpoint iget_scan (l : list inode) (i : nat) (empty : option nat) (d n : Z) : option nat * option nat :=
  match l with
  | [] => (None, empty)
  | x :: l' =>
      if (0 <? iref x) && (idev x =? d) && (inum x =? n) then (Some i, empty)
      else iget_scan l' (S i) (match empty with None => if iref x =? 0 then Some i else None | _ => empty end) d n
  end.

Definition iget (d n : Z) : M (fstate DS) nat :=
  s ← get;
  match iget_scan (icache s) 0 None d n with
  | (Some ip, _) => x ← geti ip; r ← lift (sint (iref x + 1)); _ ← updi ip (set_iref r); mret ip
  | (None, Some ip) => _ ← updi ip (fun x => mkInode d n 1 (ilocked x) false (din x)); mret ip
  | (None, None) => fail Panic
  end.

Definition idup (ip : nat) : M (fstate DS) nat :=
  x ← geti ip; r ← lift (sint (iref x + 1)); _ ← updi ip (set_iref r); mret ip.

(** ialloc from inode number [n] on, with [fuel] numbers left to try. *)
Fixpoint ialloc_loop (fuel : nat) (d t n : Z) : M (fstate DS) nat :=
  match fuel with
  | O => fail OutOfFuel
  | S fuel' =>
      sb ← the_sb;
      if n <? ninodes sb then
        i ← with_log (with_bc (bread d (IBLOCK n sb)));
        c ← with_log (bdata i);
        if type (decode_dinode c (n mod IPB)) =? 0 then
          _ ← with_log (set_bdata i (put_dinode (set_type t zero_dinode) c (n mod IPB)));
          _ ← with_log (log_write i);
          _ ← with_log (with_bc (brelse i));
          iget d n
        else
          _ ← with_log (with_bc (brelse i));
          ialloc_loop fuel' d t (n + 1)
      else fail Panic
  end.
Definition ialloc (d t : Z) : M (fstate DS) nat := sb ← the_sb; ialloc_loop (S (Z.to_nat (ninodes sb))) d t 1.

Definition iupdate (ip : nat) : M (fstate DS) unit :=
  x ← geti ip;
  sb ← the_sb;
  i ← with_log (with_bc (bread (idev x) (IBLOCK (inum x) sb)));
  c ← with_log (bdata i);
  _ ← with_log (set_bdata i (put_dinode (din x) c (inum x mod IPB)));
  _ ← with_log (log_write i);
  with_log (with_bc (brelse i)).

(** The sleep lock of an inode, for one process. *)
Definition acquirei (ip : nat) : M (fstate DS) unit :=
  x ← geti ip; if (ilocked x : bool) then fail OutOfFuel else updi ip (set_ilocked true).

Definition ilock (ip : nat) : M (fstate DS) unit :=
  x ← geti ip;
  if iref x <? 1 then fail Panic else
  _ ← acquirei ip;
  x ← geti ip;
  if ivalid x then mret tt
  else
    sb ← the_sb;
    i ← with_log (with_bc (bread (idev x) (IBLOCK (inum x) sb)));
    c ← with_log (bdata i);
    _ ← updi ip (set_din (decode_dinode c (inum x mod IPB)));
    _ ← with_log (with_bc (brelse i));
    _ ← updi ip (set_ivalid true);
    x ← geti ip;
    if type (din x) =? 0 then fail Panic else mret tt.

Definition iunlock (ip : nat) : M (fstate DS) unit :=
  x ← geti ip;
  if negb (ilocked x) || (iref x <? 1) then fail Panic else updi ip (set_ilocked false).

(** ** The blocks of a file *)

(** The address in field [k] of the inode, allocated when there is none. *)
Definition bmap_field (ip : nat) (k : Z) : M (fstate DS) Z :=
  sb ← the_sb;
  x ← geti ip;
  if addr_at (din x) k =? 0 then
    a ← with_log (balloc sb (idev x));
    _ ← updi ip (fun x => set_din (set_addr k a (din x)) x);
    mret a
  else mret (addr_at (din x) k).

(** Entry [k] of the indirect block [addr], allocated when there is none. *)
Definition bmap_entry (d addr k : Z) : M (fstate DS) Z :=
  sb ← the_sb;
  i ← with_log (with_bc (bread d addr));
  c ← with_log (bdata i);
  r ← (if word_at c k =? 0 then
         a ← with_log (balloc sb d);
         _ ← with_log (set_bdata i (<[Z.to_nat k := a]> c));
         _ ← with_log (log_write i);
         mret a
       else mret (word_at c k));
  _ ← with_log (with_bc (brelse i));
  mret r.

Definition bmap (ip : nat) (bn : Z) : M (fstate DS) Z :=
  if bn <? NDIRECT then bmap_field ip bn
  else if bn - NDIRECT <? NINDIRECT then
    addr ← bmap_field ip NDIRECT;
    x ← geti ip;
    bmap_entry (idev x) addr (bn - NDIRECT)
  else fail Panic.

(** itrunc: the direct blocks from [k] on, and the entries of the indirect block. *)
Fixpoint itrunc_direct (n : nat) (ip : nat) (k : Z) : M (fstate DS) unit :=
  match n with
  | O => mret tt
  | S n' =>
      sb ← the_sb;
      x ← geti ip;
      _ ← (if addr_at (din x) k =? 0 then mret tt
           else
             _ ← with_log (bfree sb (idev x) (addr_at (din x) k));
             updi ip (fun x => set_din (set_addr k 0 (din x)) x));
      itrunc_direct n' ip (k + 1)
  end.

Fixpoint itrunc_indirect (n : nat) (d : Z) (i : nat) (k : Z) : M (fstate DS) unit :=
  match n with
  | O => mret tt
  | S n' =>
      sb ← the_sb;
      c ← with_log (bdata i);
      _ ← (if word_at c k =? 0 then mret tt else with_log (bfree sb d (word_at c k)));
      itrunc_indirect n' d i (k + 1)
  end.

Definition itrunc (ip : nat) : M (fstate DS) unit :=
  _ ← itrunc_direct (Z.to_nat NDIRECT) ip 0;
  x ← geti ip;
  _ ← (if addr_at (din x) NDIRECT =? 0 then mret tt
       else
         sb ← the_sb;
         i ← with_log (with_bc (bread (idev x) (addr_at (din x) NDIRECT)));
         _ ← itrunc_indirect (Z.to_nat NINDIRECT) (idev x) i 0;
         _ ← with_log (with_bc (brelse i));
         _ ← with_log (bfree sb (idev x) (addr_at (din x) NDIRECT));
         updi ip (fun x => set_din (set_addr NDIRECT 0 (din x)) x));
  _ ← updi ip (fun x => set_din (set_dsize 0 (din x)) x);
  iupdate ip.

Definition iput (ip : nat) : M (fstate DS) unit :=
  _ ← acquirei ip;
  x ← geti ip;
  _ ← (if ivalid x && (nlink (din x) =? 0) && (iref x =? 1) then
         _ ← itrunc ip;
         _ ← updi ip (fun x => set_din (set_type 0 (din x)) x);
         _ ← iupdate ip;
         updi ip (set_ivalid false)
       else mret tt);
  _ ← updi ip (set_ilocked false);
  x ← geti ip;
  r ← lift (sint (iref x - 1));
  updi ip (set_iref r).

Definition iunlockput (ip : nat) : M (fstate DS) unit := _ ← iunlock ip; iput ip.

(** stati: the fields of [struct stat], in order. *)
Definition stati (ip : nat) : M (fstate DS) (list Z) :=
  x ← geti ip; mret [type (din x); to_int (idev x); inum x; nlink (din x); dsize (din x)].

(** ** Reading and writing *)

(** readi: from offset [off] on, with [n] bytes still to read. *)
Fixpoint readi_loop (fuel : nat) (ip : nat) (off n : Z) : M (fstate DS) (list Z) :=
  match fuel with
  | O => fail OutOfFuel
  | S fuel' =>
      if 0 <? n then
        x ← geti ip;
        a ← bmap ip (off / BSIZE);
        i ← with_log (with_bc (bread (idev x) a));
        let m := Z.min n (BSIZE - off mod BSIZE) in
        c ← with_log (bdata i);
        _ ← with_log (with_bc (brelse i));
        rest ← readi_loop fuel' ip (u32 (off + m)) (n - m);
        mret (get_bytes c (off mod BSIZE) m ++ rest)
      else mret []
  end.

Definition readi (ip : nat) (off n : Z) : M (fstate DS) (Z * list Z) :=
  x ← geti ip;
  if type (din x) =? T_DEV then
    if (major (din x) <? 0) || (NDEV <=? major (din x)) then mret (-1, [])
    else match dev_read (major (din x)) with
         | None => mret (-1, [])
         | Some rd => with_dev (rd (to_int n))
         end
  else if (dsize (din x) <? off) || (u32 (off + n) <? off) then mret (-1, [])
  else
  let n := if dsize (din x) <? u32 (off + n) then dsize (din x) - off else n in
  bs ← readi_loop (S (Z.to_nat n)) ip off n;
  mret (to_int n, bs).

(** writei: the bytes [src] still to write at offset [off]; the offset after them. *)
Fixpoint writei_loop (fuel : nat) (ip : nat) (off : Z) (src : list Z) : M (fstate DS) Z :=
  match fuel with
  | O => fail OutOfFuel
  | S fuel' =>
      if 0 <? Z.of_nat (length src) then
        x ← geti ip;
        a ← bmap ip (off / BSIZE);
        i ← with_log (with_bc (bread (idev x) a));
        let m := Z.min (Z.of_nat (length src)) (BSIZE - off mod BSIZE) in
        c ← with_log (bdata i);
        _ ← with_log (set_bdata i (put_bytes c (off mod BSIZE) (take (Z.to_nat m) src)));
        _ ← with_log (log_write i);
        _ ← with_log (with_bc (brelse i));
        writei_loop fuel' ip (u32 (off + m)) (drop (Z.to_nat m) src)
      else mret off
  end.

Definition writei (ip : nat) (src : list Z) (off : Z) : M (fstate DS) Z :=
  let n := Z.of_nat (length src) in
  x ← geti ip;
  if type (din x) =? T_DEV then
    if (major (din x) <? 0) || (NDEV <=? major (din x)) then mret (-1)
    else match dev_write (major (din x)) with
         | None => mret (-1)
         | Some wr => with_dev (wr src)
         end
  else if (dsize (din x) <? off) || (u32 (off + n) <? off) then mret (-1)
  else if MAXFILE * BSIZE <? u32 (off + n) then mret (-1)
  else
  off ← writei_loop (S (length src)) ip off src;
  x ← geti ip;
  _ ← (if (0 <? n) && (dsize (din x) <? off) then
         _ ← updi ip (fun x => set_din (set_dsize off (din x)) x);
         iupdate ip
       else mret tt);
  mret (to_int n).
End inode.

(** ** What the blocks of a well-formed file system say

    [V] are the blocks and [I] the inodes by number.  Slot [k] of an inode, for
    [k] below MAXFILE, is the address of its block [k]; slot MAXFILE is the
    address of its indirect block; 0 is no block. *)
Definition baddr (V : Z -> list Z) (d : dinode) (j : Z) : Z :=
  if j <? NDIRECT then addr_at d j
  else if addr_at d NDIRECT =? 0 then 0 else word_at (V (addr_at d NDIRECT)) (j - NDIRECT).
Definition slot (V : Z -> list Z) (d : dinode) (k : Z) : Z := if k =? MAXFILE then addr_at d NDIRECT else baddr V d k.
Definition file_byte (V : Z -> list Z) (d : dinode) (k : Z) : Z := get_byte (V (baddr V d (k / BSIZE))) (k mod BSIZE).
Definition file_bytes (V : Z -> list Z) (d : dinode) : list Z := file_byte V d <$> seqZ 0 (dsize d).

Definition inode_no (sb : superblock) (i : Z) : Prop := 0 <= i < ninodes sb.
Definition short (z : Z) : Prop := -32768 <= z < 32768.
Record fields_ok (d : dinode) : Prop := {
  fi_type : short (type d); fi_major : short (major d); fi_minor : short (minor d); fi_nlink : short (nlink d);
  fi_size : 0 <= dsize d <= MAXFILE * BSIZE; fi_addrs : length (addrs d) = 13%nat
}.

Record fs_wf (sb : superblock) (V : Z -> list Z) (I : Z -> dinode) : Prop := {
  fw_full : full_blocks sb V;
  fw_meta : forall b, 0 <= b < datastart sb -> used sb V b = true;
  fw_fields : forall i, inode_no sb i -> fields_ok (I i);
  fw_slot : forall i k, inode_no sb i -> 0 <= k <= MAXFILE -> slot V (I i) k <> 0 ->
    datastart sb <= slot V (I i) k < sb_size sb /\ used sb V (slot V (I i) k) = true;
  fw_inj : forall i k i' k', inode_no sb i -> inode_no sb i' -> 0 <= k <= MAXFILE -> 0 <= k' <= MAXFILE ->
    slot V (I i) k <> 0 -> slot V (I i) k = slot V (I i') k' -> i = i' /\ k = k';
  fw_data : forall i j, inode_no sb i -> 0 <= j -> j * BSIZE < dsize (I i) -> baddr V (I i) j <> 0
}.

(** Inode [i] may gain blocks; everything else about the files stays. *)
Record grows (sb : superblock) (i : Z) (V : Z -> list Z) (I : Z -> dinode) (V' : Z -> list Z) (I' : Z -> dinode) : Prop := {
  gr_wf : fs_wf sb V' I';
  gr_fields : forall i, type (I' i) = type (I i) /\ major (I' i) = major (I i) /\ minor (I' i) = minor (I i) /\
    nlink (I' i) = nlink (I i) /\ dsize (I' i) = dsize (I i);
  gr_slot : forall i k, inode_no sb i -> 0 <= k <= MAXFILE -> slot V (I i) k <> 0 -> slot V' (I' i) k = slot V (I i) k;
  gr_other : forall i' k, inode_no sb i' -> i' <> i -> 0 <= k <= MAXFILE -> I' i' = I i' /\ slot V' (I' i') k = slot V (I i') k;
  gr_data : forall i k, inode_no sb i -> 0 <= k < MAXFILE -> slot V (I i) k <> 0 -> V' (slot V (I i) k) = V (slot V (I i) k);
  gr_meta : forall b, b < bmapstart sb -> V' b = V b
}.

Definition nfree (sb : superblock) (V : Z -> list Z) : nat := length (filter (fun b => used sb V b = false) (seqZ 0 (sb_size sb))).

Section wf.
Context (sb : superblock).
Implicit Types (V : Z -> list Z) (I : Z -> dinode).

Lemma maxfile_eq : MAXFILE = 140.
Proof. done. Qed.

Lemma slot_baddr V d k : 0 <= k < MAXFILE -> slot V d k = baddr V d k.
Proof. intros Hk. unfold slot. by rewrite (proj2 (Z.eqb_neq _ _)) by lia. Qed.
Lemma slot_ind V d : slot V d MAXFILE = addr_at d NDIRECT.
Proof. unfold slot. by rewrite Z.eqb_refl. Qed.

(** Only the indirect block of an inode matters for its slots. *)
Lemma slot_frame V V' d k : (addr_at d NDIRECT <> 0 -> V' (addr_at d NDIRECT) = V (addr_at d NDIRECT)) -> slot V' d k = slot V d k.
Proof.
  intros HV. unfold slot, baddr. destruct (k =? MAXFILE), (k <? NDIRECT); try done. destruct (Z.eqb_spec (addr_at d NDIRECT) 0); [done|]. by rewrite HV.
Qed.

Lemma bitmap_below b : bitmap_block sb b -> b < datastart sb.
Proof. unfold bitmap_block. lia. Qed.

Lemma ind_range V I i : fs_wf sb V I -> inode_no sb i -> addr_at (I i) NDIRECT <> 0 ->
  datastart sb <= addr_at (I i) NDIRECT < sb_size sb /\ used sb V (addr_at (I i) NDIRECT) = true.
Proof. intros Hwf Hi. rewrite <-(slot_ind V). apply Hwf; [done|rewrite maxfile_eq; lia]. Qed.

(** A change that keeps the indirect blocks and frees nothing. *)
Lemma wf_frame V V' I : fs_wf sb V I -> full_blocks sb V' ->
  (forall b, 0 <= b < sb_size sb -> used sb V b = true -> used sb V' b = true) ->
  datastart sb <= sb_size sb -> 0 <= datastart sb ->
  (forall i, inode_no sb i -> addr_at (I i) NDIRECT <> 0 -> V' (addr_at (I i) NDIRECT) = V (addr_at (I i) NDIRECT)) ->
  fs_wf sb V' I /\ forall i k, inode_no sb i -> slot V' (I i) k = slot V (I i) k.
Proof.
  intros Hwf Hfull Hu Hds Hds0 Hind. assert (forall i k, inode_no sb i -> slot V' (I i) k = slot V (I i) k) as Hslot.
  { intros i k Hi. apply slot_frame. by apply Hind. }
  split; [|done]. split.
  - done.
  - intros b Hb. apply Hu; [lia|]. by apply Hwf.
  - apply Hwf.
  - intros i k Hi Hk. rewrite Hslot by done. intros Hnz. destruct (fw_slot _ _ _ Hwf i k Hi Hk Hnz). split; [done|]. apply Hu; [lia|done].
  - intros i k i' k' Hi Hi' Hk Hk'. rewrite !Hslot by done. by apply Hwf.
  - intros i j Hi Hj Hlt. assert (j < MAXFILE) as Hj2.
    { destruct (fi_size _ (fw_fields _ _ _ Hwf i Hi)). unfold BSIZE in *. lia. }
    rewrite <-slot_baddr, Hslot, slot_baddr by (lia || done). by apply Hwf.
Qed.

Lemma file_grows_refl i V I : fs_wf sb V I -> grows sb i V I V I.
Proof. intros Hwf. by split. Qed.

Lemma file_grows_trans i V1 I1 V2 I2 V3 I3 : grows sb i V1 I1 V2 I2 -> grows sb i V2 I2 V3 I3 -> grows sb i V1 I1 V3 I3.
Proof.
  intros [A1 A2 A3 A4 A5 A6] [B1 B2 B3 B4 B5 B6]. split.
  - done.
  - intros j. destruct (A2 j) as (?&?&?&?&?), (B2 j) as (?&?&?&?&?). split_and!; congruence.
  - intros j k Hj Hk Hnz. rewrite B3; rewrite ?A3; done.
  - intros j k Hj Hne Hk. destruct (A4 j k Hj Hne Hk) as [E1 E2], (B4 j k Hj Hne Hk) as [F1 F2]. split; congruence.
  - intros j k Hj Hk Hnz. rewrite <-(A5 j k Hj Hk Hnz). rewrite <-(A3 j k Hj ltac:(lia) Hnz). apply B5; [done|done|]. rewrite A3; [done|done|lia|done].
  - intros b Hb. rewrite B6, A6; done.
Qed.

(** No slot names a free block. *)
Lemma slot_not_free V I f i k : fs_wf sb V I -> used sb V f = false -> f <> 0 -> inode_no sb i -> 0 <= k <= MAXFILE -> slot V (I i) k <> f.
Proof. intros Hwf Hf Hf0 Hi Hk He. destruct (fw_slot _ _ _ Hwf i k Hi Hk) as [_ Hu]; [by rewrite He|]. rewrite He in Hu. congruence. Qed.

Lemma free_is_data V I f : fs_wf sb V I -> first_free sb V f -> datastart sb <= f < sb_size sb /\ used sb V f = false.
Proof.
  intros Hwf (H1 & H2 & _). split; [|done]. destruct (decide (f < datastart sb)); [|lia]. rewrite (fw_meta _ _ _ Hwf) in H2 by lia. done.
Qed.

Lemma grows_allocated l0 i V I f : geo sb l0 -> fs_wf sb V I -> first_free sb V f ->
  grows sb i V I (allocated sb V f) I /\ forall j k, inode_no sb j -> slot (allocated sb V f) (I j) k = slot V (I j) k.
Proof.
  intros Hgeo Hwf Hf. destruct (free_is_data _ _ _ Hwf Hf) as [Hfd Hfu]. pose proof Hgeo as [G1 [G2 G3] [G4 G5] G6 G7 G8].
  assert (0 <= ninodes sb / IPB) by (apply Z.div_pos; [lia|done]).
  assert (0 <= sb_size sb / BPB) by (apply Z.div_pos; [unfold first_free in Hf; lia|done]).
  assert (bitmap_block sb (BBLOCK f sb)) as Hbb by (apply bblock_range; unfold first_free in Hf; lia).
  assert (forall b, datastart sb <= b -> b <> f -> allocated sb V f b = V b) as Hdata.
  { intros b Hb Hne. unfold allocated. unfold bitmap_block in Hbb. rewrite !fn_lookup_insert_ne; [done|lia|done]. }
  destruct (wf_frame V (allocated sb V f) I) as [Hwf' Hslot].
  - done.
  - apply full_blocks_allocated; [apply Hwf|unfold first_free in Hf; lia].
  - intros b Hb Hu. rewrite (used_allocated sb l0 Hgeo); [by rewrite Hu, orb_true_r|apply Hwf|unfold first_free in Hf; lia|unfold bitmap_block; lia|done].
  - done.
  - unfold datastart. lia.
  - intros j Hj Hnz. destruct (ind_range V I j Hwf Hj Hnz) as [Hr Hu]. apply Hdata; [lia|]. intros He. rewrite He in Hu. congruence.
  - split; [|done]. split; try done.
    + intros j k Hj _ _. by apply Hslot.
    + intros j k Hj _ _. split; [done|]. by apply Hslot.
    + intros j k Hj Hk Hnz. destruct (fw_slot _ _ _ Hwf j k Hj ltac:(lia) Hnz) as [Hr Hu]. apply Hdata; [lia|]. intros He. rewrite He in Hu. congruence.
    + intros b Hb. unfold allocated. unfold bitmap_block in Hbb. unfold datastart in *. rewrite !fn_lookup_insert_ne; [done|lia|lia].
Qed.
End wf.

Section slots.
Context (sb : superblock).
Implicit Types (V : Z -> list Z) (I : Z -> dinode).

(** One more slot of inode [i] is filled. *)
Lemma grows_slot i V I V' I' k0 f : fs_wf sb V I -> inode_no sb i -> 0 <= k0 <= MAXFILE -> slot V (I i) k0 = 0 ->
  datastart sb <= f < sb_size sb -> 0 < f -> used sb V f = true ->
  (forall j k, inode_no sb j -> 0 <= k <= MAXFILE -> slot V (I j) k <> f) ->
  full_blocks sb V' -> (forall b, 0 <= b < sb_size sb -> used sb V' b = used sb V b) -> datastart sb <= sb_size sb -> 0 <= datastart sb ->
  (forall j, type (I' j) = type (I j) /\ major (I' j) = major (I j) /\ minor (I' j) = minor (I j) /\ nlink (I' j) = nlink (I j) /\
    dsize (I' j) = dsize (I j) /\ length (addrs (I' j)) = length (addrs (I j))) ->
  (forall j k, inode_no sb j -> 0 <= k <= MAXFILE -> slot V' (I' j) k = if decide (j = i /\ k = k0) then f else slot V (I j) k) ->
  (forall j, j <> i -> I' j = I j) ->
  (forall j k, inode_no sb j -> 0 <= k < MAXFILE -> slot V (I j) k <> 0 -> V' (slot V (I j) k) = V (slot V (I j) k)) ->
  (forall b, b < bmapstart sb -> V' b = V b) -> grows sb i V I V' I'.
Proof.
  intros Hwf Hi Hk0 Hz Hf Hf0 Hfu Hfn Hfull Hu Hds Hds0 Hfld Hslot HI Hdata Hmeta.
  assert (forall j k, inode_no sb j -> 0 <= k <= MAXFILE -> slot V (I j) k <> 0 -> slot V' (I' j) k = slot V (I j) k) as Hkeep.
  { intros j k Hj Hk Hnz. rewrite Hslot by done. rewrite decide_False; [done|]. by intros [-> ->]. }
  assert (fs_wf sb V' I') as Hwf'.
  { split.
    - done.
    - intros b Hb. rewrite Hu by lia. by apply Hwf.
    - intros j Hj. destruct (fw_fields _ _ _ Hwf j Hj), (Hfld j) as (?&?&?&?&?&?). split; congruence.
    - intros j k Hj Hk. rewrite Hslot by done. case_decide as E; [intros _; rewrite Hu by lia; done|]. intros Hnz.
      destruct (fw_slot _ _ _ Hwf j k Hj Hk Hnz). rewrite Hu by lia. done.
    - intros j k j' k' Hj Hj' Hk Hk'. rewrite !Hslot by done. case_decide as E; case_decide as E'; [naive_solver|..].
      + intros _ He. by destruct (Hfn j' k' Hj' Hk').
      + intros _ He. by destruct (Hfn j k Hj Hk).
      + by apply Hwf.
    - intros j k Hj Hk. destruct (Hfld j) as (_&_&_&_&->&_). intros Hlt. assert (k < MAXFILE) as Hk2.
      { destruct (fi_size _ (fw_fields _ _ _ Hwf j Hj)). unfold BSIZE in *. lia. }
      pose proof (fw_data _ _ _ Hwf j k Hj Hk Hlt) as Hnz. rewrite <-slot_baddr in * by lia. by rewrite Hkeep by (lia || done). }
  split; try done.
  - intros j. destruct (Hfld j) as (?&?&?&?&?&?). done.
  - intros j k Hj Hne Hk. split; [by apply HI|]. rewrite Hslot by done. rewrite decide_False; [done|naive_solver].
Qed.

Lemma addr_at_set d bn a k : length (addrs d) = 13%nat -> 0 <= bn <= NDIRECT -> 0 <= k -> addr_at (set_addr bn a d) k = if decide (k = bn) then a else addr_at d k.
Proof. intros Hl Hbn Hk. unfold addr_at, set_addr. cbn [addrs]. apply word_at_insert; [unfold NDIRECT in *; lia|done]. Qed.

Lemma word_at_zero k : word_at zero_block k = 0.
Proof.
  unfold word_at, zero_block. destruct (decide (Z.to_nat k < BWORDS)%nat); [by rewrite lookup_replicate_2|].
  by rewrite lookup_ge_None_2 by (rewrite length_replicate; lia).
Qed.

(** The slot that an address field stands for. *)
Definition field_slot (bn : Z) : Z := if decide (bn = NDIRECT) then MAXFILE else bn.

Lemma slot_set_addr V d bn a k : length (addrs d) = 13%nat -> 0 <= bn <= NDIRECT -> 0 <= k <= MAXFILE ->
  (bn = NDIRECT -> addr_at d NDIRECT = 0 /\ V a = zero_block) -> slot V (set_addr bn a d) k = if decide (k = field_slot bn) then a else slot V d k.
Proof.
  intros Hl Hbn Hk Hind. unfold slot, baddr, field_slot. rewrite maxfile_eq in *. unfold NDIRECT in *.
  rewrite !(addr_at_set d bn a) by (unfold NDIRECT; lia || done). destruct (Z.eqb_spec k 140) as [->|Hk1].
  - repeat case_decide; lia.
  - destruct (Z.ltb_spec k 12) as [Hk2|Hk2].
    + repeat case_decide; lia.
    + repeat case_decide; try lia. destruct Hind as [Ha0 Hb0]; [done|]. rewrite Ha0, Hb0, word_at_zero. by destruct (a =? 0).
Qed.

Lemma grows_set_addr i V I bn f : fs_wf sb V I -> inode_no sb i -> 0 <= bn <= NDIRECT -> addr_at (I i) bn = 0 ->
  datastart sb <= f < sb_size sb -> 0 < f -> used sb V f = true -> V f = zero_block ->
  (forall j k, inode_no sb j -> 0 <= k <= MAXFILE -> slot V (I j) k <> f) -> datastart sb <= sb_size sb -> 0 <= datastart sb ->
  grows sb i V I V (<[i := set_addr bn f (I i)]> I) /\ slot V (set_addr bn f (I i)) (field_slot bn) = f.
Proof.
  intros Hwf Hi Hbn Hz Hf Hf0 Hfu Hfz Hfn Hds Hds0. pose proof (fi_addrs _ (fw_fields _ _ _ Hwf i Hi)) as Hl.
  assert (0 <= field_slot bn <= MAXFILE) as Hfs by (unfold field_slot; rewrite maxfile_eq; unfold NDIRECT in *; case_decide; lia).
  split; [|rewrite slot_set_addr; [by rewrite decide_True|done..|]; by intros ->].
  eapply (grows_slot i V I V _ (field_slot bn) f); try done.
  - unfold slot, field_slot. unfold NDIRECT in *. rewrite maxfile_eq in *. destruct (decide (bn = 12)) as [->|]; [done|].
    rewrite (proj2 (Z.eqb_neq _ _)) by lia. unfold baddr, NDIRECT. by rewrite (proj2 (Z.ltb_lt _ _)) by lia.
  - apply Hwf.
  - intros j. unfold insert, fn_insert. case_decide; [subst|done]. cbn. by rewrite length_insert.
  - intros j k Hj Hk. unfold insert, fn_insert. destruct (decide (i = j)) as [<-|Hne].
    + rewrite slot_set_addr; [|done..|by intros ->]. repeat case_decide; naive_solver.
    + rewrite decide_False; [done|naive_solver].
  - intros j Hj. by rewrite fn_lookup_insert_ne.
Qed.

(** An entry of the indirect block is filled. *)
Lemma slot_set_entry V I i bn f j k : fs_wf sb V I -> inode_no sb i -> inode_no sb j -> addr_at (I i) NDIRECT <> 0 -> NDIRECT <= bn < MAXFILE -> 0 <= k <= MAXFILE -> inodestart sb <= addr_at (I i) NDIRECT < sb_size sb ->
  slot (<[addr_at (I i) NDIRECT := <[Z.to_nat (bn - NDIRECT) := f]> (V (addr_at (I i) NDIRECT))]> V) (I j) k =
    if decide (j = i /\ k = bn) then f else slot V (I j) k.
Proof.
  intros Hwf Hi Hj Hnz Hbn Hk Hr. rewrite maxfile_eq in *. unfold NDIRECT in Hbn. set (ind := addr_at (I i) NDIRECT) in *. unfold slot, baddr. rewrite maxfile_eq.
  destruct (Z.eqb_spec k 140) as [->|Hk1]; [rewrite decide_False; [done|lia]|].
  change (k <? NDIRECT) with (k <? 12). destruct (Z.ltb_spec k 12) as [Hk2|Hk2]; [rewrite decide_False; [done|lia]|].
  destruct (Z.eqb_spec (addr_at (I j) NDIRECT) 0) as [E|E]; [rewrite decide_False; [done|]; intros [-> _]; done|].
  destruct (decide (j = i)) as [->|Hji].
  - fold ind. rewrite fn_lookup_insert. rewrite word_at_insert; [|rewrite (fw_full _ _ _ Hwf _ Hr); unfold NDIRECT, BWORDS; lia|unfold NDIRECT; lia].
    repeat case_decide; unfold NDIRECT in *; lia || done.
  - rewrite decide_False by naive_solver. rewrite fn_lookup_insert_ne; [done|]. intros He. apply Hji.
    destruct (fw_inj _ _ _ Hwf i MAXFILE j MAXFILE) as [-> _]; rewrite ?maxfile_eq; try done; rewrite <-maxfile_eq, !slot_ind; done.
Qed.

Lemma grows_set_entry i V I bn f : fs_wf sb V I -> inode_no sb i -> addr_at (I i) NDIRECT <> 0 -> NDIRECT <= bn < MAXFILE -> baddr V (I i) bn = 0 ->
  datastart sb <= f < sb_size sb -> 0 < f -> used sb V f = true ->
  (forall j k, inode_no sb j -> 0 <= k <= MAXFILE -> slot V (I j) k <> f) -> datastart sb <= sb_size sb -> 0 <= datastart sb -> bmapstart sb <= datastart sb -> inodestart sb <= datastart sb ->
  grows sb i V I (<[addr_at (I i) NDIRECT := <[Z.to_nat (bn - NDIRECT) := f]> (V (addr_at (I i) NDIRECT))]> V) I.
Proof.
  intros Hwf Hi Hnz Hbn Hz Hf Hf0 Hfu Hfn Hds Hds0 Hbm His. destruct (ind_range sb V I i Hwf Hi Hnz) as [Hir Hiu]. pose proof maxfile_eq.
  eapply (grows_slot i V I _ I bn f); try done.
  - unfold NDIRECT in *. lia.
  - by rewrite slot_baddr by (unfold NDIRECT in *; lia).
  - intros b Hb. destruct (decide (addr_at (I i) NDIRECT = b)) as [<-|]; [rewrite fn_lookup_insert, length_insert|rewrite fn_lookup_insert_ne by done]; by apply Hwf.
  - intros b Hb. unfold used. rewrite fn_lookup_insert_ne; [done|]. intros He. pose proof (bblock_range sb b Hb) as Hbb.
    rewrite <-He in Hbb. apply bitmap_below in Hbb. lia.
  - intros j k Hj Hk. apply slot_set_entry; done || lia.
  - intros j k Hj Hk Hnz'. rewrite fn_lookup_insert_ne; [done|]. rewrite <-(slot_ind V). intros He.
    destruct (fw_inj _ _ _ Hwf i MAXFILE j k) as [_ Hk']; try done; lia.
  - intros b Hb. rewrite fn_lookup_insert_ne; [done|]. lia.
Qed.

(** ** Free blocks *)
Lemma filter_agree {A} (P Q : A -> Prop) `{!forall x, Decision (P x), !forall x, Decision (Q x)} (l : list A) :
  (forall x, x ∈ l -> P x <-> Q x) -> filter P l = filter Q l.
Proof.
  induction l as [|x l IH]; intros Hl; [done|]. rewrite !filter_cons, IH by (intros y Hy; apply Hl; by apply list_elem_of_further).
  destruct (decide (P x)) as [Hp|Hp], (decide (Q x)) as [Hq|Hq]; try done; exfalso; rewrite (Hl x) in Hp by apply list_elem_of_here; done.
Qed.

Lemma nfree_ext V V' : (forall b, 0 <= b < sb_size sb -> used sb V' b = used sb V b) -> nfree sb V' = nfree sb V.
Proof.
  intros Hu. unfold nfree. f_equal. apply filter_agree. intros b Hb%elem_of_seqZ. rewrite Hu by lia. done.
Qed.

Lemma nfree_pos V : (0 < nfree sb V)%nat -> exists f, first_free sb V f.
Proof.
  intros Hn. unfold nfree in Hn. destruct (list_find (fun b => used sb V b = false) (seqZ 0 (sb_size sb))) as [[n f]|] eqn:E.
  - apply list_find_Some in E as (Hf%lookup_seqZ & Hu & Hb). exists f. unfold first_free. split_and!; [lia|lia|done|]. intros b' Hb'.
    destruct (used sb V b') eqn:Eb; [done|]. exfalso. apply (Hb (Z.to_nat b') b'); [apply lookup_seqZ; lia|lia|done].
  - rewrite list_find_None, Forall_forall in E. exfalso. destruct (filter _ _) as [|b l] eqn:Ef; [cbn in Hn; lia|].
    assert (b ∈ filter (fun b => used sb V b = false) (seqZ 0 (sb_size sb))) as [Hb1 Hb2]%list_elem_of_filter by (rewrite Ef; apply list_elem_of_here).
    by apply (E b).
Qed.

Lemma nfree_allocated l0 V f : geo sb l0 -> full_blocks sb V -> first_free sb V f -> ~ bitmap_block sb f -> nfree sb V = S (nfree sb (allocated sb V f)).
Proof.
  intros Hgeo Hfull (Hf & Hu & _) Hnb. unfold nfree. assert (NoDup (seqZ 0 (sb_size sb))) as Hnd by apply NoDup_seqZ.
  assert (f ∈ seqZ 0 (sb_size sb)) as Hin by (apply elem_of_seqZ; lia).
  apply list_elem_of_split in Hin as (l1 & l2 & Hl). rewrite Hl in *. apply NoDup_app in Hnd as (_ & Hd1 & Hd2%NoDup_cons).
  assert (forall b, b ∈ l1 ++ l2 -> b <> f /\ 0 <= b < sb_size sb) as Hb.
  { intros b Hb. assert (b ∈ seqZ 0 (sb_size sb)) as Hb2%elem_of_seqZ by (rewrite Hl; set_solver). split; [|lia]. intros ->.
    apply elem_of_app in Hb as [Hb|Hb]; [|by apply Hd2]. apply (Hd1 f Hb). apply list_elem_of_here. }
  rewrite !filter_app, !filter_cons, decide_True by done. rewrite decide_False.
  2:{ rewrite (used_allocated sb l0 Hgeo) by (done || lia). by rewrite bool_decide_true. }
  rewrite !length_app. cbn [length]. rewrite Nat.add_succ_r. f_equal. f_equal; f_equal; apply filter_agree;
    intros b Hin; (destruct (Hb b) as [? ?]; [set_solver|]); rewrite (used_allocated sb l0 Hgeo) by (done || lia); by rewrite bool_decide_false.
Qed.
End slots.

(** ** bmap *)

(** How many blocks bmap has to allocate for block [bn]. *)
Definition missing (V : Z -> list Z) (d : dinode) (bn : Z) : nat :=
  Nat.add (if baddr V d bn =? 0 then 1%nat else 0%nat) (if (NDIRECT <=? bn) && (addr_at d NDIRECT =? 0) then 1%nat else 0%nat).

Lemma size_add (a : Z) (T : gset Z) : (base.size ({[a]} ∪ T) <= base.size T + 1)%nat.
Proof. rewrite size_union_alt, size_singleton. pose proof (subseteq_size (T ∖ {[a]}) T ltac:(set_solver)). lia. Qed.

Section bmap.
Context {DS : Type} `{HDS : Devsw DS} (sb : superblock) (l0 : log) (Hgeo : geo sb l0) (Hops : 1 <= outstanding l0).
Implicit Types (s : fstate DS) (V : Z -> list Z) (I : Z -> dinode) (T : gset Z) (ip : nat) (l : log).

Definition set_flog (l : log) s : fstate DS := mkFstate (fsb s) (icache s) l (devs s).
Definition set_icache (t : list inode) s : fstate DS := mkFstate (fsb s) t (flog s) (devs s).

Lemma wp_with_log {A} (m : M log A) s (Q : A -> fstate DS -> Prop) : wp m (flog s) (fun a l => Q a (set_flog l s)) -> wp (with_log m) s Q.
Proof. intros (a & l & Hm & HQ). exists a, (set_flog l s). split; [|done]. unfold with_log. by rewrite Hm. Qed.

Lemma wp_geti ip x s (Q : inode -> fstate DS -> Prop) : icache s !! ip = Some x -> Q x s -> wp (geti ip) s Q.
Proof. intros Hx HQ. exists x, s. split; [|done]. unfold geti, get, mbind, M_bind. by rewrite Hx. Qed.

Lemma wp_the_sb s (Q : superblock -> fstate DS -> Prop) : Q (fsb s) s -> wp (the_sb : M (fstate DS) superblock) s Q.
Proof. intros HQ. exists (fsb s), s. by split. Qed.

Lemma alter_insert {A} (g : A -> A) (l : list A) i x : l !! i = Some x -> alter g i l = <[i := g x]> l.
Proof.
  intros Hx. apply list_eq. intros j. destruct (decide (i = j)) as [<-|Hne].
  - rewrite list_lookup_alter_eq, Hx, list_lookup_insert_eq by (by eapply lookup_lt_Some). done.
  - by rewrite list_lookup_alter_ne, list_lookup_insert_ne.
Qed.

Lemma wp_updi ip g x s (Q : unit -> fstate DS -> Prop) : icache s !! ip = Some x -> Q tt (set_icache (<[ip := g x]> (icache s)) s) -> wp (updi ip g) s Q.
Proof. intros Hx HQ. eexists tt, _. split; [reflexivity|]. by rewrite (alter_insert _ _ _ x). Qed.

Lemma room_more T T' (n : Z) : Z.of_nat (base.size T) + n < size l0 - 1 -> Z.of_nat (base.size T') <= Z.of_nat (base.size T) + n -> room l0 T'.
Proof. unfold room. lia. Qed.


Lemma geo_data : 0 < datastart sb /\ bmapstart sb <= datastart sb /\ datastart sb <= sb_size sb /\ inodestart sb <= bmapstart sb.
Proof.
  destruct Hgeo as [? [? ?] [? ?] ? ? ?]. pose proof (Z.div_pos (ninodes sb) IPB ltac:(lia) ltac:(done)). unfold datastart in *.
  destruct (decide (0 <= sb_size sb)).
  - pose proof (Z.div_pos (sb_size sb) BPB ltac:(lia) ltac:(done)). lia.
  - pose proof (Z.div_le_lower_bound (sb_size sb) BPB (sb_size sb) ltac:(done)). unfold BPB, BSIZE in *. lia.
Qed.

(** balloc in a well-formed file system with a free block. *)
Lemma wp_balloc_wf l V I T H i (Q : Z -> log -> Prop) : in_tx l0 l V H T -> fs_wf sb V I -> (0 < nfree sb V)%nat -> (base.size H <= 1)%nat ->
  (forall b, bitmap_block sb b -> b ∈ T) -> (forall b, bitmap_block sb b -> not_held H b) -> (forall f, used sb V f = false -> not_held H f) ->
  Z.of_nat (base.size T) + 1 < size l0 - 1 ->
  (forall f l', let V1 := allocated sb V f in
    in_tx l0 l' V1 H ({[f]} ∪ T) -> grows sb i V I V1 I -> (forall j k, inode_no sb j -> slot V1 (I j) k = slot V (I j) k) ->
    used sb V f = false -> used sb V1 f = true -> V1 f = zero_block -> (forall j k, inode_no sb j -> 0 <= k <= MAXFILE -> slot V (I j) k <> f) ->
    datastart sb <= f < sb_size sb -> nfree sb V = S (nfree sb V1) -> (forall b, datastart sb <= b -> b <> f -> V1 b = V b) -> Q f l') ->
  wp (balloc sb 1) l Q.
Proof.
  intros Hl Hwf Hn Hs HT Hh1 Hh2 Hroom HQ. destruct (nfree_pos sb V Hn) as [f Hf]. destruct (free_is_data _ _ _ _ Hwf Hf) as [Hfd Hfu].
  pose proof geo_data as (D1 & D2 & D3 & D4). pose proof (proj1 Hf) as Hf1.
  assert (~ bitmap_block sb f) as Hnb by (intros Hb%bitmap_below; lia).
  destruct (grows_allocated sb l0 i V I f Hgeo Hwf Hf) as [Hgr Hslot].
  eapply (wp_balloc sb l0 Hgeo Hops _ V H T f); [done|apply Hwf|done|done|done|by apply Hh2|apply HT, bblock_range; lia|lia| |].
  { eapply room_more; [exact Hroom|]. pose proof (size_add f T). lia. }
  intros l' Hl'. apply HQ; try done.
  - rewrite (used_allocated sb l0 Hgeo); [by rewrite bool_decide_true|apply Hwf|lia|done|lia].
  - unfold allocated. by rewrite fn_lookup_insert.
  - intros j k Hj Hk. eapply slot_not_free; [done|done|lia|done|done].
  - by apply (nfree_allocated sb l0 V f Hgeo (fw_full _ _ _ Hwf)).
  - intros b Hb Hne. unfold allocated. pose proof (bblock_range sb f Hf1) as Hbb%bitmap_below. rewrite !fn_lookup_insert_ne; [done|lia|done].
Qed.

(** The address in a field of the inode. *)
Lemma wp_bmap_field s V I T ip x k (Q : Z -> fstate DS -> Prop) :
  fsb s = sb -> in_tx l0 (flog s) V ∅ T -> icache s !! ip = Some x -> idev x = 1 -> inode_no sb (inum x) -> I (inum x) = din x -> fs_wf sb V I ->
  (forall b, bitmap_block sb b -> b ∈ T) -> 0 <= k <= NDIRECT -> Z.of_nat (base.size T) + 1 < size l0 - 1 ->
  (addr_at (din x) k = 0 -> (0 < nfree sb V)%nat) ->
  (forall V' d' l', let a := addr_at d' k in let I' := <[inum x := d']> I in
    grows sb (inum x) V I V' I' -> a <> 0 -> (nfree sb V <= nfree sb V' + if decide (addr_at (din x) k = 0)%Z then 1 else 0)%nat ->
    (addr_at (din x) k <> 0 -> V' = V /\ d' = din x) -> (forall j, 0 <= j < MAXFILE -> j <> field_slot k -> baddr V' d' j = baddr V (din x) j) ->
    in_tx l0 l' V' ∅ ({[a]} ∪ T) ->
    Q a (set_flog l' (set_icache (<[ip := set_din d' x]> (icache s)) s))) ->
  wp (bmap_field ip k) s Q.
Proof.
  intros Hsb Hl Hx Hdev Hi HI Hwf HT Hk Hroom Hn HQ. unfold bmap_field. wp_step. apply wp_the_sb. wp_step. eapply wp_geti; [done|].
  rewrite Hsb, Hdev. destruct (Z.eqb_spec (addr_at (din x) k) 0) as [E|E].
  2:{ wp_step. specialize (HQ V (din x) (flog s)). cbn zeta in HQ.
      assert (set_flog (flog s) (set_icache (<[ip := set_din (din x) x]> (icache s)) s) = s) as Hs.
      { unfold set_flog, set_icache. cbn. rewrite list_insert_id by (by destruct x). by destruct s. }
      rewrite Hs in HQ. apply HQ; try done.
      - assert (forall j, (<[inum x := din x]> I) j = I j) as Hext by (intros j; destruct (decide (inum x = j)) as [<-|]; [by rewrite fn_lookup_insert|by rewrite fn_lookup_insert_ne]).
        split; try done; try (intros; rewrite !Hext; done). destruct Hwf as [W1 W2 W3 W4 W5 W6].
        split; try done; intros *; rewrite ?Hext; [apply W3|apply W4|apply W5|apply W6].
      - lia.
      - eapply in_tx_ext; [exact Hl|done|set_solver]. }
  wp_step. apply wp_with_log. eapply (wp_balloc_wf _ V I T ∅ (inum x)); [done|done|by apply Hn|rewrite map_size_empty; lia|done|intros; apply not_held_empty|intros; apply not_held_empty|done|].
  intros f l' V1 Hl' Hgr Hslot Hfu Hu1 Hz Hnf Hfd Hnfree Hdata. wp_step. eapply wp_updi; [exact Hx|]. wp_step.
  pose proof geo_data as (D1 & D2 & D3 & D4). pose proof (fi_addrs _ (fw_fields _ _ _ Hwf _ Hi)) as Hlen. rewrite HI in Hlen.
  destruct (grows_set_addr sb (inum x) V1 I k f) as [Hgr2 Hsl]; [apply Hgr|done|done|by rewrite HI|lia|lia|done|done| |lia|lia|].
  { intros j k' Hj Hk'. rewrite Hslot by done. by apply Hnf. }
  assert (addr_at (set_addr k f (din x)) k = f) as Ef by (rewrite addr_at_set by (done || lia); by rewrite decide_True).
  rewrite HI in *. specialize (HQ V1 (set_addr k f (din x)) l'). cbn zeta in HQ. rewrite Ef in HQ. apply HQ; try done; try lia.
  - by eapply file_grows_trans.
  - rewrite decide_True by done. lia.
  - intros j Hj Hjk. rewrite <-!slot_baddr by done. rewrite slot_set_addr by (first [done|lia|by intros ->]).
    rewrite decide_False by done. rewrite <-HI. by apply Hslot.
Qed.
End bmap.

Section bmap2.
Context {DS : Type} `{HDS : Devsw DS} (sb : superblock) (l0 : log) (Hgeo : geo sb l0) (Hops : 1 <= outstanding l0).
Implicit Types (s : fstate DS) (V : Z -> list Z) (I : Z -> dinode) (T : gset Z) (ip : nat) (l : log).

(** The entry of the indirect block. *)
Lemma wp_bmap_entry s V I T i bn (Q : Z -> fstate DS -> Prop) : let ind := addr_at (I i) NDIRECT in
  fsb s = sb -> in_tx l0 (flog s) V ∅ T -> inode_no sb i -> fs_wf sb V I -> ind <> 0 -> NDIRECT <= bn < MAXFILE ->
  (forall b, bitmap_block sb b -> b ∈ T) -> Z.of_nat (base.size T) + 2 < size l0 - 1 ->
  (baddr V (I i) bn = 0 -> (0 < nfree sb V)%nat) ->
  (forall V' l', let a := baddr V' (I i) bn in
    grows sb i V I V' I -> a <> 0 -> (nfree sb V <= nfree sb V' + if decide (baddr V (I i) bn = 0)%Z then 1 else 0)%nat ->
    (baddr V (I i) bn <> 0 -> V' = V) -> in_tx l0 l' V' ∅ ({[a; ind]} ∪ T) -> Q a (set_flog l' s)) ->
  wp (bmap_entry 1 ind (bn - NDIRECT)) s Q.
Proof.
  intros ind Hsb Hl Hi Hwf Hind Hbn HT Hroom Hn HQ. unfold bmap_entry. wp_step. apply wp_the_sb. rewrite Hsb.
  destruct (ind_range sb V I i Hwf Hi Hind) as [Hir Hiu]. fold ind in Hir, Hiu. destruct (geo_data sb l0 Hgeo) as (D1 & D2 & D3 & D4).
  assert (home_block l0 ind) as Hhome by (apply (home_fs sb l0 Hgeo); lia). pose proof (ge_disk _ _ Hgeo) as Hdisk.
  assert (in_tx l0 (flog s) V ∅ ({[ind]} ∪ T)) as Hl1 by (eapply in_tx_ext; [exact Hl|done|set_solver]).
  assert (baddr V (I i) bn = word_at (V ind) (bn - NDIRECT)) as Hb.
  { unfold baddr. fold ind. rewrite (proj2 (Z.ltb_ge _ _)) by lia. by rewrite (proj2 (Z.eqb_neq _ _)). }
  pose proof (size_add ind T) as Hsz.
  wp_step. apply wp_with_log. eapply wp_bread; [exact Hl1|lia|apply not_held_empty|unfold room; lia|rewrite map_size_empty; lia|].
  intros j l1 Hj H1. wp_step. apply wp_with_log. cbn [flog set_flog]. eapply wp_bdata; [exact H1|apply lookup_insert_eq|]. cbn beta iota.
  wp_step. rewrite <-Hb. destruct (Z.eqb_spec (baddr V (I i) bn) 0) as [E|E].
  2:{ wp_step. wp_step. apply wp_with_log. cbn [flog set_flog]. eapply wp_brelse; [exact H1|apply lookup_insert_eq|]. intros l2 H2.
      rewrite delete_insert_id in H2 by done. wp_step. apply (HQ V l2); [by apply file_grows_refl|done|lia|done|].
      eapply in_tx_ext; [exact H2|done|set_solver]. }
  wp_step. apply wp_with_log. cbn [flog set_flog].
  eapply (wp_balloc_wf sb l0 Hgeo Hops _ V I ({[ind]} ∪ T) _ i); [exact H1|done|by apply Hn|rewrite map_size_insert_None, map_size_empty by done; lia
    |set_solver|intros b Hbb%bitmap_below; apply not_held_insert; [apply not_held_empty|lia]
    |intros f Hf; apply not_held_insert; [apply not_held_empty|intros ->; congruence]|lia|].
  intros f l2 V1 H2 Hgr Hslot Hfu Hu1 Hz Hnf Hfd Hnfree Hdata.
  assert (ind <> f) as Hif by (intros ->; congruence). assert (V1 ind = V ind) as HVi by (apply Hdata; [lia|done]).
  pose proof maxfile_eq as Hmax.
  wp_step. apply wp_with_log. cbn [flog set_flog]. eapply wp_set_bdata; [exact H2|apply lookup_insert_eq|]. intros l3 H3. rewrite insert_insert_eq in H3.
  pose proof (size_add f ({[ind]} ∪ T)) as Hsz2.
  wp_step. apply wp_with_log. cbn [flog set_flog]. eapply wp_log_write; [exact H3|apply lookup_insert_eq|done|done|unfold room; lia|set_solver|].
  intros l4 H4. rewrite <-HVi in H4. set (V2 := <[ind := _]> V1) in *. wp_step. wp_step. apply wp_with_log. cbn [flog set_flog].
  eapply wp_brelse; [exact H4|rewrite lookup_insert_eq; unfold V2; by rewrite fn_lookup_insert|]. intros l5 H5. rewrite delete_insert_id in H5 by done. wp_step.
  assert (grows sb i V1 I V2 I) as Hgr2.
  { apply grows_set_entry; try done; try lia; [apply Hgr| |].
    - rewrite <-slot_baddr by (unfold NDIRECT in *; lia). rewrite Hslot, slot_baddr by (done || unfold NDIRECT in *; lia). done.
    - intros j' k Hj' Hk. rewrite Hslot by done. by apply Hnf. }
  assert (baddr V2 (I i) bn = f) as Ea.
  { rewrite <-slot_baddr by (unfold NDIRECT in *; lia). unfold V2, ind. rewrite (slot_set_entry sb V1 I i bn f i bn) by (first [apply Hgr|done|unfold NDIRECT in *; lia]).
    by rewrite decide_True. }
  specialize (HQ V2 l5). cbn zeta in HQ. rewrite Ea in HQ. apply HQ; try done.
  - by eapply file_grows_trans.
  - lia.
  - rewrite decide_True by done. rewrite Hnfree. assert (nfree sb V2 = nfree sb V1) as ->; [|lia]. apply nfree_ext. intros b Hbr.
    unfold used, V2. rewrite fn_lookup_insert_ne; [done|]. intros He. pose proof (bblock_range sb b Hbr) as Hbb%bitmap_below. lia.
  - eapply in_tx_ext; [exact H5|done|set_solver].
Qed.

(** bmap: the address of block [bn] of the file, allocated if it had none. *)
Lemma wp_bmap s V I T ip x bn (Q : Z -> fstate DS -> Prop) :
  fsb s = sb -> in_tx l0 (flog s) V ∅ T -> icache s !! ip = Some x -> idev x = 1 -> inode_no sb (inum x) -> I (inum x) = din x -> fs_wf sb V I ->
  (forall b, bitmap_block sb b -> b ∈ T) -> 0 <= bn < MAXFILE -> Z.of_nat (base.size T) + 3 < size l0 - 1 ->
  (missing V (din x) bn <= nfree sb V)%nat ->
  (forall V' d' l', let a := baddr V' d' bn in let I' := <[inum x := d']> I in
    grows sb (inum x) V I V' I' -> a <> 0 -> (nfree sb V <= nfree sb V' + missing V (din x) bn)%nat ->
    (baddr V (din x) bn <> 0 -> V' = V /\ d' = din x) -> (NDIRECT <= bn -> addr_at d' NDIRECT <> 0) ->
    in_tx l0 l' V' ∅ ({[a; addr_at d' NDIRECT]} ∪ T) ->
    Q a (set_flog l' (set_icache (<[ip := set_din d' x]> (icache s)) s))) ->
  wp (bmap ip bn) s Q.
Proof.
  intros Hsb Hl Hx Hdev Hi HI Hwf HT Hbn Hroom Hn HQ. pose proof maxfile_eq as Hmax. unfold bmap, missing in *.
  destruct (Z.ltb_spec bn NDIRECT) as [Hd|Hd].
  - rewrite (proj2 (Z.leb_gt NDIRECT bn)) in * by lia. cbn [andb] in *.
    assert (forall V d, baddr V d bn = addr_at d bn) as Hb by (intros; unfold baddr; by rewrite (proj2 (Z.ltb_lt _ _))).
    rewrite Hb in *. eapply (wp_bmap_field sb l0 Hgeo Hops _ V I T ip x bn); try done; [lia|lia|intros E; rewrite E in Hn; cbn in Hn; lia|].
    intros V' d' l' a I' G1 G2 G3 G4 G5 G6. specialize (HQ V' d' l'). cbn zeta in HQ. rewrite Hb in HQ. fold a in HQ. apply HQ; try done.
    + destruct (decide (addr_at (din x) bn = 0)) as [E|E]; [rewrite (proj2 (Z.eqb_eq _ _) E)|rewrite (proj2 (Z.eqb_neq _ _) E)]; cbn; lia.
    + intros ?. lia.
    + eapply in_tx_ext; [exact G6|done|set_solver].
  - rewrite (proj2 (Z.ltb_lt _ _)) by (unfold MAXFILE in *; lia). rewrite (proj2 (Z.leb_le NDIRECT bn)) in * by lia. cbn [andb] in *.
    wp_step. eapply (wp_bmap_field sb l0 Hgeo Hops _ V I T ip x NDIRECT); try done; [lia| |].
    { intros E. rewrite E in Hn. cbn in Hn. destruct (baddr V (din x) bn =? 0); lia. }
    intros V1 d1 l1 a1 I1 G1 G2 G3 G4 G5 G6. set (s1 := set_flog _ _).
    assert (icache s1 !! ip = Some (set_din d1 x)) as Hx1 by (cbn; apply list_lookup_insert_eq; by eapply lookup_lt_Some).
    wp_step. eapply wp_geti; [exact Hx1|]. cbn [idev set_din]. rewrite Hdev.
    assert (I1 (inum x) = d1) as HI1 by apply fn_lookup_insert.
    assert (baddr V1 d1 bn = baddr V (din x) bn) as Eb.
    { apply G5; [done|]. unfold field_slot. rewrite decide_True by done. lia. }
    pose proof (size_add a1 T) as Hsz.
    unfold a1. rewrite <-HI1. eapply (wp_bmap_entry s1 V1 I1 ({[a1]} ∪ T) (inum x) bn); rewrite ?HI1; fold a1; try done.
    + apply G1.
    + lia.
    + set_solver.
    + lia.
    + intros E. rewrite Eb in E. rewrite E in Hn. cbn [Z.eqb] in Hn. destruct (decide (addr_at (din x) NDIRECT = 0)) as [E2|E2].
      * rewrite E2 in Hn. cbn [Z.eqb Nat.add] in Hn. lia.
      * destruct (G4 E2) as [-> _]. lia.
    + intros V' l' a K1 K2 K3 K4 K5. specialize (HQ V' d1 l'). cbn zeta in HQ. fold a in HQ.
      assert (set_flog l' (set_icache (<[ip := set_din d1 x]> (icache s)) s) = set_flog l' s1) as Hs by done. rewrite Hs in HQ. apply HQ; try done.
      * by eapply file_grows_trans.
      * rewrite Eb in K3. destruct (decide (addr_at (din x) NDIRECT = 0)) as [E|E], (decide (baddr V (din x) bn = 0)) as [E'|E'];
          rewrite ?(proj2 (Z.eqb_eq _ 0) E), ?(proj2 (Z.eqb_eq _ 0) E'), ?(proj2 (Z.eqb_neq _ 0) E), ?(proj2 (Z.eqb_neq _ 0) E'); cbn; lia.
      * intros E. rewrite Eb in K4. specialize (K4 E). assert (addr_at (din x) NDIRECT <> 0) as E2.
        { intros E2. apply E. unfold baddr. rewrite (proj2 (Z.ltb_ge _ _)) by done. by rewrite E2. }
        destruct (G4 E2) as [-> ->]. done.
      * eapply in_tx_ext; [exact K5|done|set_solver].
Qed.
End bmap2.

(** ** The inodes on disk *)

Definition dinode_on (sb : superblock) (V : Z -> list Z) (i : Z) : dinode := decode_dinode (V (IBLOCK i sb)) (i mod IPB).
(** The disk has the inodes [I], but for those of [X]. *)
Definition synced (sb : superblock) (V : Z -> list Z) (I : Z -> dinode) (X : Z -> Prop) : Prop :=
  forall i, inode_no sb i -> ~ X i -> dinode_on sb V i = I i.

Section dinode.
Context (sb : superblock).

Lemma length_encode d : length (addrs d) = 13%nat -> length (encode_dinode d) = 16%nat.
Proof. intros Hl. cbn. by rewrite Hl. Qed.

Lemma length_put_dinode d c k : length (put_dinode d c k) = length c.
Proof. apply length_inserts. Qed.

Lemma word_put_dinode d c k j : length (addrs d) = 13%nat -> length c = BWORDS -> 0 <= k < IPB -> 0 <= j ->
  word_at (put_dinode d c k) j = if decide (16 * k <= j < 16 * k + 16) then word_at (encode_dinode d) (j - 16 * k) else word_at c j.
Proof.
  intros Hd Hc Hk Hj. change IPB with 8 in Hk. unfold BWORDS in Hc. unfold word_at, put_dinode. pose proof (length_encode d Hd) as He. case_decide as E.
  - rewrite list_lookup_inserts by (rewrite ?He; lia). do 2 f_equal. lia.
  - destruct (decide (j < 16 * k)).
    + by rewrite list_lookup_inserts_lt by lia.
    + by rewrite list_lookup_inserts_ge by (rewrite He; lia).
Qed.

Lemma decode_ext c c' k : (forall j, 0 <= j < 16 -> word_at c (16 * k + j) = word_at c' (16 * k + j)) -> decode_dinode c k = decode_dinode c' k.
Proof.
  intros Hc. unfold decode_dinode. rewrite !(Hc 0), !(Hc 1), !(Hc 2) by lia. f_equal. apply list_fmap_ext. intros n j Hj%lookup_seqZ.
  unfold NDIRECT in Hj. apply Hc. lia.
Qed.

Lemma shorts_word a b : short a -> short b -> s16 (u16 a + 65536 * u16 b) = a /\ s16 ((u16 a + 65536 * u16 b) / 65536) = b.
Proof. unfold short, s16, u16. intros Ha Hb. split; zlia. Qed.

Lemma decode_put_dinode d c k : fields_ok d -> length c = BWORDS -> 0 <= k < IPB -> decode_dinode (put_dinode d c k) k = d.
Proof.
  intros [H1 H2 H3 H4 H5 H6] Hc Hk. unfold decode_dinode.
  assert (forall j, 0 <= j < 16 -> word_at (put_dinode d c k) (16 * k + j) = word_at (encode_dinode d) j) as Hw.
  { intros j Hj. rewrite word_put_dinode by (done || lia). rewrite decide_True by lia. f_equal. lia. }
  rewrite !Hw by lia. destruct (shorts_word _ _ H1 H2) as [E1 E2], (shorts_word _ _ H3 H4) as [E3 E4].
  change (word_at (encode_dinode d) 0) with (u16 (type d) + 65536 * u16 (major d)).
  change (word_at (encode_dinode d) 1) with (u16 (minor d) + 65536 * u16 (nlink d)).
  change (word_at (encode_dinode d) 2) with (dsize d). rewrite E1, E2, E3, E4.
  assert (((fun j => word_at (put_dinode d c k) (16 * k + (3 + j))) <$> seqZ 0 (NDIRECT + 1)) = addrs d) as ->; [|by destruct d].
  apply list_eq. intros n. destruct (decide (n < 13)%nat) as [Hn|Hn].
  - assert (seqZ 0 (NDIRECT + 1) !! n = Some (Z.of_nat n)) as Hq by (apply lookup_seqZ; unfold NDIRECT; lia).
    rewrite list_lookup_fmap, Hq. cbn [fmap option_fmap option_map]. rewrite Hw by lia. unfold word_at.
    replace (Z.to_nat (3 + Z.of_nat n)) with (S (S (S n))) by lia. cbn [encode_dinode app lookup list_lookup]. destruct (addrs d !! n) eqn:E; [done|]. apply lookup_ge_None in E. lia.
  - rewrite !lookup_ge_None_2; [done|lia|]. rewrite length_fmap, length_seqZ. unfold NDIRECT. lia.
Qed.

Lemma decode_put_other d c k k' : fields_ok d -> length c = BWORDS -> 0 <= k < IPB -> 0 <= k' -> k <> k' -> decode_dinode (put_dinode d c k) k' = decode_dinode c k'.
Proof.
  intros Hd Hc Hk Hk' Hne. apply decode_ext. intros j Hj. rewrite word_put_dinode by (done || lia || apply Hd). rewrite decide_False; [done|lia].
Qed.
End dinode.

(** Blocks of inodes hold nothing else. *)
Section inode_blocks.
Context (sb : superblock) (l0 : log) (Hgeo : geo sb l0).
Implicit Types (V : Z -> list Z) (I : Z -> dinode).

Lemma iblock_range i : inode_no sb i -> inodestart sb <= IBLOCK i sb < bmapstart sb.
Proof.
  intros Hi. destruct Hgeo as [_ _ [? ?] _ _ _]. unfold IBLOCK, inode_no in *. change IPB with 8 in *. zlia.
Qed.

Lemma wf_iblock V I i c : fs_wf sb V I -> inode_no sb i -> length c = BWORDS ->
  let V' := <[IBLOCK i sb := c]> V in
  fs_wf sb V' I /\ (forall j k, inode_no sb j -> slot V' (I j) k = slot V (I j) k) /\ (forall b, bmapstart sb <= b -> V' b = V b) /\ nfree sb V' = nfree sb V.
Proof.
  intros Hwf Hi Hc V'. destruct (geo_data sb l0 Hgeo) as (D1 & D2 & D3 & D4). pose proof (iblock_range i Hi) as Hr.
  assert (forall b, bmapstart sb <= b -> V' b = V b) as Hb by (intros b Hb; unfold V'; rewrite fn_lookup_insert_ne; [done|lia]).
  assert (forall b, 0 <= b < sb_size sb -> used sb V' b = used sb V b) as Hu.
  { intros b Hbr. unfold used. rewrite Hb; [done|]. pose proof (bblock_range sb b Hbr) as [? _]. done. }
  destruct (wf_frame sb V V' I) as [H1 H2]; try done; try lia.
  - intros b Hbr. unfold V'. destruct (decide (IBLOCK i sb = b)) as [<-|]; [by rewrite fn_lookup_insert|rewrite fn_lookup_insert_ne by done; by apply Hwf].
  - intros b Hbr. by rewrite Hu.
  - intros j Hj Hnz. apply Hb. destruct (ind_range sb V I j Hwf Hj Hnz). lia.
  - split_and!; try done. by apply nfree_ext.
Qed.

(** The bytes of a file only depend on its blocks. *)
Lemma file_byte_frame V V' I i k : fs_wf sb V I -> inode_no sb i -> 0 <= k < MAXFILE * BSIZE -> (forall j, slot V' (I i) j = slot V (I i) j) ->
  (forall b, datastart sb <= b < sb_size sb -> V' b = V b) -> baddr V (I i) (k / BSIZE) <> 0 -> file_byte V' (I i) k = file_byte V (I i) k.
Proof.
  intros Hwf Hi Hk Hs Hb Hnz. unfold file_byte. pose proof maxfile_eq. assert (0 <= k / BSIZE < MAXFILE) as Hkb by (unfold BSIZE in *; zlia).
  rewrite <-!slot_baddr in * by done. rewrite Hs, Hb; [done|]. apply (fw_slot _ _ _ Hwf i (k / BSIZE) Hi); [lia|done].
Qed.
End inode_blocks.

(** ** What depends on the blocks of the file system only *)
Section same_blocks.
Context (sb : superblock) (l0 : log) (Hgeo : geo sb l0) (V V' : Z -> list Z).
Implicit Types (I : Z -> dinode).

Definition same_fs : Prop := forall b, inodestart sb <= b < sb_size sb -> V' b = V b.
Context (Hsame : same_fs).

Lemma used_same b : 0 <= b < sb_size sb -> used sb V' b = used sb V b.
Proof. intros Hb. unfold used. rewrite Hsame; [done|]. apply (bitmap_fs sb l0 Hgeo). by apply bblock_range. Qed.

Lemma nfree_same : nfree sb V' = nfree sb V.
Proof. apply nfree_ext, used_same. Qed.

Lemma wf_same I : fs_wf sb V I -> fs_wf sb V' I /\ forall i k, inode_no sb i -> slot V' (I i) k = slot V (I i) k.
Proof.
  intros Hwf. destruct (geo_data sb l0 Hgeo) as (D1 & D2 & D3 & D4). apply (wf_frame sb V V' I); try done; try lia.
  - intros b Hb. rewrite Hsame by done. by apply Hwf.
  - intros b Hb. by rewrite used_same.
  - intros i Hi Hnz. apply Hsame. destruct (ind_range sb V I i Hwf Hi Hnz). lia.
Qed.

Lemma file_bytes_same I i : fs_wf sb V I -> inode_no sb i -> file_bytes V' (I i) = file_bytes V (I i).
Proof.
  intros Hwf Hi. destruct (geo_data sb l0 Hgeo) as (D1 & D2 & D3 & D4). destruct (wf_same I Hwf) as [_ Hs].
  unfold file_bytes. apply list_fmap_ext. intros n k Hk%lookup_seqZ. pose proof (fi_size _ (fw_fields _ _ _ Hwf i Hi)) as Hsz.
  apply (file_byte_frame sb V V' I i k); try done; [lia|intros k'; by apply Hs|intros b Hb; apply Hsame; lia|].
  apply (fw_data _ _ _ Hwf i); [done|unfold BSIZE; zlia|unfold BSIZE in *; zlia].
Qed.

Lemma synced_same I X : synced sb V I X -> synced sb V' I X.
Proof.
  intros Hs i Hi Hx. rewrite <-(Hs i Hi Hx). unfold dinode_on. rewrite Hsame; [done|]. pose proof (iblock_range sb l0 Hgeo i Hi).
  destruct (geo_data sb l0 Hgeo) as (D1 & D2 & D3 & D4). lia.
Qed.
End same_blocks.
