(* ===== verification/Readwrite.v ===== *)
(** * Reading and writing files, the theorems about readi and writei

    Over the inode layer of Inode.v: what readi and writei do to the bytes of
    the files, inside a transaction and as a transaction of their own. *)
From stdpp Require Import functions.
From S2P Require Import Prelude Bio Log Block Inode.

(** ** An inode in use during a transaction *)
Record in_file {DS : Type} (sb : superblock) (l0 : log) (s : fstate DS) (V : Z -> list Z) (I : Z -> dinode) (T : gset Z) (ip : nat) (x : inode) : Prop := {
  if_sb : fsb s = sb;
  if_tx : in_tx l0 (flog s) V ∅ T;
  if_ip : icache s !! ip = Some x;
  if_dev : idev x = 1;
  if_no : inode_no sb (inum x);
  if_din : I (inum x) = din x;
  if_wf : fs_wf sb V I
}.

(** Inode [i] of [V], [I] after the bytes [bs] have been written at [off]. *)
Record wrote (sb : superblock) (i : Z) (V : Z -> list Z) (I : Z -> dinode) (V' : Z -> list Z) (I' : Z -> dinode) (off : Z) (bs : list Z) : Prop := {
  wr_wf : fs_wf sb V' I';
  wr_fields : forall j, type (I' j) = type (I j) /\ major (I' j) = major (I j) /\ minor (I' j) = minor (I j) /\
    nlink (I' j) = nlink (I j) /\ dsize (I' j) = dsize (I j);
  wr_slot : forall j k, inode_no sb j -> 0 <= k <= MAXFILE -> slot V (I j) k <> 0 -> slot V' (I' j) k = slot V (I j) k;
  wr_other : forall j k, inode_no sb j -> j <> i -> 0 <= k <= MAXFILE -> I' j = I j /\ slot V' (I' j) k = slot V (I j) k;
  wr_new : forall k, off <= k < off + Z.of_nat (length bs) -> baddr V' (I' i) (k / BSIZE) <> 0;
  wr_bytes : forall k, 0 <= k < MAXFILE * BSIZE -> baddr V (I i) (k / BSIZE) <> 0 \/ off <= k < off + Z.of_nat (length bs) ->
    file_byte V' (I' i) k = if decide (off <= k < off + Z.of_nat (length bs)) then default 0 (bs !! Z.to_nat (k - off)) else file_byte V (I i) k;
  wr_others : forall j k, inode_no sb j -> j <> i -> 0 <= k < MAXFILE * BSIZE -> baddr V (I j) (k / BSIZE) <> 0 -> file_byte V' (I' j) k = file_byte V (I j) k;
  wr_meta : forall b, b < bmapstart sb -> V' b = V b;
  wr_same : (forall k, off <= k < off + Z.of_nat (length bs) -> baddr V (I i) (k / BSIZE) <> 0) -> I' i = I i
}.

Section readwrite.
Context {DS : Type} `{HDS : Devsw DS} (sb : superblock) (l0 : log) (Hgeo : geo sb l0).
Implicit Types (s : fstate DS) (V : Z -> list Z) (I : Z -> dinode) (T : gset Z) (ip : nat) (l : log).

Lemma slot_home V I i k : fs_wf sb V I -> inode_no sb i -> 0 <= k <= MAXFILE -> slot V (I i) k <> 0 ->
  home_block l0 (slot V (I i) k) /\ slot V (I i) k < disksize (bc l0) /\ ~ bitmap_block sb (slot V (I i) k) /\ datastart sb <= slot V (I i) k.
Proof.
  intros Hwf Hi Hk Hnz. destruct (fw_slot _ _ _ Hwf i k Hi Hk Hnz) as [Hr _]. destruct (geo_data sb l0 Hgeo) as (D1 & D2 & D3 & D4).
  pose proof (ge_disk _ _ Hgeo). split_and!; [apply (home_fs sb l0 Hgeo); lia|lia| |lia]. intros Hb%bitmap_below. lia.
Qed.

(** bmap of a block that the file has changes nothing. *)
Lemma wp_bmap_read s V I T ip x bn (Q : Z -> fstate DS -> Prop) : in_file sb l0 s V I T ip x -> 0 <= bn < MAXFILE -> room l0 T -> baddr V (din x) bn <> 0 ->
  (forall l', in_tx l0 l' V ∅ T -> Q (baddr V (din x) bn) (set_flog l' s)) -> wp (bmap ip bn) s Q.
Proof.
  intros [Hsb Hl Hx Hdev Hi HI Hwf] Hbn Hroom Hnz HQ. assert (set_flog (flog s) s = s) as Hs by by destruct s.
  assert (forall k (Q : Z -> fstate DS -> Prop), addr_at (din x) k <> 0 -> Q (addr_at (din x) k) s -> wp (bmap_field ip k) s Q) as Hfield.
  { intros k Q' Hk HQ'. unfold bmap_field. wp_step. apply wp_the_sb. wp_step. eapply wp_geti; [done|]. by rewrite (proj2 (Z.eqb_neq _ _)) by done; apply wp_ret. }
  unfold bmap, baddr in *. destruct (Z.ltb_spec bn NDIRECT) as [Hd|Hd].
  - apply Hfield; [done|]. rewrite <-Hs. by apply HQ.
  - rewrite (proj2 (Z.ltb_lt _ _)) by (unfold MAXFILE in *; lia).
    destruct (Z.eqb_spec (addr_at (din x) NDIRECT) 0) as [|E]; [done|]. wp_step. apply Hfield; [done|]. wp_step. eapply wp_geti; [done|].
    assert (0 <= MAXFILE <= MAXFILE) as Hmf by (rewrite maxfile_eq; lia).
    destruct (slot_home V I (inum x) MAXFILE Hwf Hi Hmf) as (_ & Hlt & _); rewrite slot_ind, HI in *; [done|].
    rewrite Hdev. unfold bmap_entry. wp_step. apply wp_the_sb. wp_step. apply wp_with_log.
    eapply wp_bread; [exact Hl|done|apply not_held_empty|done|rewrite map_size_empty; lia|]. intros i l1 Hi1 H1.
    wp_step. apply wp_with_log. cbn [flog set_flog]. eapply wp_bdata; [exact H1|apply lookup_insert_eq|]. cbn beta iota.
    rewrite (proj2 (Z.eqb_neq _ _)) by done. wp_step. wp_step. wp_step. apply wp_with_log. cbn [flog set_flog].
    eapply wp_brelse; [exact H1|apply lookup_insert_eq|]. intros l2 H2. rewrite delete_insert_id in H2 by done. wp_step. by apply (HQ l2).
Qed.

Lemma get_bytes_file V d off m : 0 <= off -> 0 <= m -> off mod BSIZE + m <= BSIZE ->
  get_bytes (V (baddr V d (off / BSIZE))) (off mod BSIZE) m = file_byte V d <$> seqZ off m.
Proof.
  intros Ho Hm Hb. unfold get_bytes. apply list_eq. intros n. rewrite !list_lookup_fmap.
  destruct (decide (Z.of_nat n < m)) as [Hn|Hn].
  - rewrite (proj2 (lookup_seqZ (off mod BSIZE) m n (off mod BSIZE + Z.of_nat n))) by lia. rewrite (proj2 (lookup_seqZ off m n (off + Z.of_nat n))) by lia.
    cbn. f_equal. unfold file_byte. unfold BSIZE in *. f_equal; [f_equal; f_equal; zlia|zlia].
  - rewrite !lookup_ge_None_2; [done|rewrite length_seqZ; lia..].
Qed.

Lemma wp_readi_loop fuel s V I T ip x off n (Q : list Z -> fstate DS -> Prop) : in_file sb l0 s V I T ip x -> room l0 T -> 0 <= off -> 0 <= n -> off + n <= dsize (din x) ->
  n < Z.of_nat fuel ->
  (forall l', in_tx l0 l' V ∅ T -> Q (file_byte V (din x) <$> seqZ off n) (set_flog l' s)) -> wp (readi_loop fuel ip off n) s Q.
Proof.
  revert s off n Q. induction fuel as [|fuel IH]; intros s off n Q Hf Hroom Ho Hn Hs Hfuel HQ; [lia|]. cbn [readi_loop].
  assert (set_flog (flog s) s = s) as Hss by by destruct s. pose proof Hf as [Hsb Hl Hx Hdev Hi HI Hwf].
  destruct (Z.ltb_spec 0 n) as [Hn0|Hn0].
  2:{ assert (n = 0) as -> by lia. wp_step. rewrite <-Hss. by apply HQ. }
  set (m := Z.min n (BSIZE - off mod BSIZE)). assert (0 < m <= n /\ off mod BSIZE + m <= BSIZE) as [Hm Hmb] by (unfold m, BSIZE; zlia).
  pose proof (fi_size _ (fw_fields _ _ _ Hwf _ Hi)) as Hsz. rewrite HI in Hsz. pose proof maxfile_eq as Hmax.
  assert (0 <= off / BSIZE < MAXFILE /\ off / BSIZE * BSIZE <= off) as [Hbn Hle] by (unfold BSIZE in *; zlia).
  assert (baddr V (din x) (off / BSIZE) <> 0) as Hnz by (rewrite <-HI; apply (fw_data _ _ _ Hwf _ _ Hi); [lia|rewrite HI; lia]).
  destruct (slot_home V I (inum x) (off / BSIZE) Hwf Hi ltac:(lia)) as (_ & Hlt & _ & _); rewrite slot_baddr, HI in * by lia; [done|].
  wp_step. eapply wp_geti; [done|]. wp_step. eapply wp_bmap_read; [exact Hf|done..|]. intros l1 H1.
  wp_step. apply wp_with_log. rewrite Hdev. cbn [flog set_flog].
  eapply wp_bread; [exact H1|done|apply not_held_empty|done|rewrite map_size_empty; lia|]. intros i l2 Hi2 H2.
  wp_step. apply wp_with_log. cbn [flog set_flog]. eapply wp_bdata; [exact H2|apply lookup_insert_eq|]. cbn beta iota.
  wp_step. apply wp_with_log. cbn [flog set_flog]. eapply wp_brelse; [exact H2|apply lookup_insert_eq|]. intros l3 H3. rewrite delete_insert_id in H3 by done.
  rewrite u32_id by (unfold BSIZE, UINT_MOD in *; lia).
  wp_step. apply IH; [by split|done|lia|lia|lia|lia|]. intros l4 H4. wp_step.
  rewrite get_bytes_file by lia. rewrite <-fmap_app.
  replace (seqZ off m ++ seqZ (off + m) (n - m)) with (seqZ off n) by (rewrite <-seqZ_app by lia; f_equal; lia).
  by apply (HQ l4).
Qed.
End readwrite.

Section wrote.
Context (sb : superblock) (l0 : log) (Hgeo : geo sb l0).
Implicit Types (V : Z -> list Z) (I : Z -> dinode).

Lemma block_of k : 0 <= k < MAXFILE * BSIZE -> 0 <= k / BSIZE < MAXFILE.
Proof. rewrite maxfile_eq. unfold BSIZE. intros Hk. zlia. Qed.

(** Bytes written into one block that bmap has provided. *)
Lemma wrote_block i V I V1 I1 off bs : inode_no sb i -> fs_wf sb V I -> grows sb i V I V1 I1 -> 0 <= off -> 0 < Z.of_nat (length bs) ->
  off mod BSIZE + Z.of_nat (length bs) <= BSIZE -> off < MAXFILE * BSIZE -> Forall (fun v => 0 <= v < 256) bs ->
  let a := baddr V1 (I1 i) (off / BSIZE) in a <> 0 -> (baddr V (I i) (off / BSIZE) <> 0 -> I1 i = I i) ->
  wrote sb i V I (<[a := put_bytes (V1 a) (off mod BSIZE) bs]> V1) I1 off bs.
Proof.
  intros Hi Hwf Hgr Ho Hl Hfit Hoff Hbs a Ha Hsame. pose proof Hgr as [Hwf1 Hfld Hslot Hother Hdata Hmeta].
  destruct (geo_data sb l0 Hgeo) as (D1 & D2 & D3 & D4). pose proof (block_of off ltac:(lia)) as Hbn. set (bn := off / BSIZE) in *.
  assert (slot V1 (I1 i) bn = a) as Hsa by by rewrite slot_baddr.
  destruct (fw_slot _ _ _ Hwf1 i bn Hi ltac:(lia)) as [Har Hau]; [by rewrite Hsa|]. rewrite Hsa in Har, Hau.
  set (V2 := <[a := _]> V1).
  assert (forall b, b <> a -> V2 b = V1 b) as Hne by (intros b Hb; unfold V2; by rewrite fn_lookup_insert_ne).
  assert (forall j k, inode_no sb j -> 0 <= k <= MAXFILE -> slot V1 (I1 j) k = a -> j = i /\ k = bn) as Hinj.
  { intros j k Hj Hk He. destruct (fw_inj _ _ _ Hwf1 j k i bn) as [? ?]; try done; [lia|congruence|congruence]. }
  assert (forall b, 0 <= b < sb_size sb -> used sb V2 b = used sb V1 b) as Hu.
  { intros b Hb. unfold used. rewrite Hne; [done|]. pose proof (bblock_range sb b Hb) as Hbb%bitmap_below. lia. }
  destruct (wf_frame sb V1 V2 I1) as [Hwf2 Hslot2]; [done| |intros b Hb; by rewrite Hu|lia|lia| |].
  { intros b Hb. unfold V2. destruct (decide (a = b)) as [<-|]; [rewrite fn_lookup_insert, length_put_bytes|rewrite fn_lookup_insert_ne by done]; by apply Hwf1. }
  { intros j Hj Hnz. apply Hne. rewrite <-(slot_ind V1). intros He. pose proof maxfile_eq. destruct (Hinj j MAXFILE Hj ltac:(lia) He). lia. }
  assert (forall j k, inode_no sb j -> 0 <= k < MAXFILE -> baddr V2 (I1 j) k = baddr V1 (I1 j) k) as Hb2.
  { intros j k Hj Hk. rewrite <-!slot_baddr by done. by apply Hslot2. }
  assert (forall j k, inode_no sb j -> 0 <= k < MAXFILE -> baddr V (I j) k <> 0 -> baddr V1 (I1 j) k = baddr V (I j) k /\ V1 (baddr V (I j) k) = V (baddr V (I j) k)) as Hb1.
  { intros j k Hj Hk Hnz. rewrite <-!slot_baddr in * by done. split; [apply Hslot; (done || lia)|by apply Hdata]. }
  split; try done.
  - intros j k Hj Hk Hnz. rewrite Hslot2 by done. by apply Hslot.
  - intros j k Hj Hji Hk. rewrite Hslot2 by done. by apply Hother.
  - intros k Hk. assert (k / BSIZE = bn) as -> by (unfold bn, BSIZE in *; zlia). rewrite Hb2 by done. done.
  - intros k Hk Hnz. pose proof (block_of k Hk) as Hkb. unfold file_byte. rewrite Hb2 by done.
    destruct (decide (k / BSIZE = bn)) as [Hkn|Hkn].
    + rewrite Hkn. fold a. unfold V2. rewrite fn_lookup_insert.
      rewrite get_byte_put_bytes; [|apply Hwf1; lia|unfold BSIZE in *; zlia..|done|unfold BSIZE in *; zlia].
      assert (off mod BSIZE <= k mod BSIZE < off mod BSIZE + Z.of_nat (length bs) <-> off <= k < off + Z.of_nat (length bs)) as Hiff by (unfold bn, BSIZE in *; zlia).
      destruct (decide (off <= k < off + Z.of_nat (length bs))) as [E|E]; rewrite <-Hiff in E.
      * rewrite decide_True by done. do 2 f_equal. unfold bn, BSIZE in *. zlia.
      * rewrite decide_False by done. destruct Hnz as [Hnz|?]; [|tauto]. rewrite Hkn in Hnz. destruct (Hb1 i bn Hi Hbn Hnz) as [E1 E2].
        unfold a. by rewrite E1, E2.
    + rewrite decide_False by (unfold bn, BSIZE in *; zlia). destruct Hnz as [Hnz|?]; [|exfalso; unfold bn, BSIZE in *; zlia].
      destruct (Hb1 i (k / BSIZE) Hi Hkb Hnz) as [E1 E2]. rewrite Hne.
      * by rewrite E1, E2.
      * rewrite <-slot_baddr by done. intros He. destruct (Hinj i (k / BSIZE) Hi ltac:(lia) He). done.
  - intros j k Hj Hji Hk Hnz. pose proof (block_of k Hk) as Hkb. unfold file_byte. rewrite Hb2 by done.
    destruct (Hb1 j (k / BSIZE) Hj Hkb Hnz) as [E1 E2]. rewrite Hne; [by rewrite E1, E2|].
    rewrite <-slot_baddr by done. intros He. destruct (Hinj j (k / BSIZE) Hj ltac:(lia) He). done.
  - intros b Hb. rewrite Hne by lia. by apply Hmeta.
  - intros Hall. apply Hsame. apply (Hall off). lia.
Qed.

Lemma wrote_nil i V I off : fs_wf sb V I -> wrote sb i V I V I off [].
Proof.
  intros Hwf. split; try done.
  - intros k Hk. cbn in Hk. lia.
  - intros k Hk Hnz. cbn. by rewrite decide_False by lia.
Qed.

Lemma wrote_trans i V1 I1 V2 I2 V3 I3 off b1 b2 : inode_no sb i -> 0 <= off -> off + Z.of_nat (length (b1 ++ b2)) <= MAXFILE * BSIZE ->
  wrote sb i V1 I1 V2 I2 off b1 -> wrote sb i V2 I2 V3 I3 (off + Z.of_nat (length b1)) b2 -> wrote sb i V1 I1 V3 I3 off (b1 ++ b2).
Proof.
  intros Hi Ho Hmax [A1 A2 A3 A4 A5 A6 A7 A8 A9] [B1 B2 B3 B4 B5 B6 B7 B8 B9].
  assert (Z.of_nat (length (b1 ++ b2)) = Z.of_nat (length b1) + Z.of_nat (length b2)) as Hlen by (rewrite length_app; lia).
  assert (forall j k, inode_no sb j -> 0 <= k < MAXFILE -> baddr V1 (I1 j) k <> 0 -> baddr V2 (I2 j) k <> 0) as Hk1.
  { intros j k Hj Hk Hnz. rewrite <-slot_baddr in * by done. rewrite A3 by (done || lia). done. }
  split; try done.
  - intros j. destruct (A2 j) as (?&?&?&?&?), (B2 j) as (?&?&?&?&?). split_and!; congruence.
  - intros j k Hj Hk Hnz. rewrite B3; rewrite ?A3; done.
  - intros j k Hj Hji Hk. destruct (A4 j k Hj Hji Hk) as [E1 E2], (B4 j k Hj Hji Hk) as [F1 F2]. split; congruence.
  - intros k Hk. destruct (decide (k < off + Z.of_nat (length b1))) as [Hlt|Hge]; [|apply B5; lia].
    pose proof (A5 k ltac:(lia)) as Hnz. pose proof (block_of k ltac:(lia)) as Hkb. rewrite <-slot_baddr in * by done. rewrite B3 by (done || lia). done.
  - intros k Hk Hnz. pose proof (block_of k Hk) as Hkb. destruct (decide (off <= k < off + Z.of_nat (length b1))) as [E|E].
    + rewrite B6; [|done|left; by apply A5]. rewrite decide_False by lia. rewrite A6 by (done || by right).
      rewrite !decide_True by lia. rewrite lookup_app_l; [done|lia].
    + rewrite B6; [|done|destruct Hnz as [Hnz|?]; [left; by apply Hk1|right; lia]].
      destruct (decide (off + Z.of_nat (length b1) <= k < off + Z.of_nat (length b1) + Z.of_nat (length b2))) as [F|F].
      * rewrite decide_True by lia. rewrite lookup_app_r by lia. do 2 f_equal. lia.
      * rewrite decide_False by lia. rewrite A6 by (first [done|tauto|left; destruct Hnz; [done|lia]]). by rewrite decide_False.
  - intros j k Hj Hji Hk Hnz. pose proof (block_of k Hk) as Hkb. rewrite B7, A7; try done. by apply Hk1.
  - intros b Hb. rewrite B8, A8; done.
  - intros Hall. rewrite B9; [apply A9|]; intros k Hk.
    + apply Hall. lia.
    + apply Hk1; [done|apply block_of; lia|]. apply Hall. lia.
Qed.
End wrote.

(** ** writei *)

(** The blocks that [n] bytes at offset [off] lie in. *)
Definition spanned (off n : Z) : Z := if n =? 0 then 0 else (off + n - 1) / BSIZE - off / BSIZE + 1.

(** The blocks among them that the file lacks, and whether it lacks its indirect block. *)
Definition missing_in (V : Z -> list Z) (d : dinode) (off n : Z) : nat :=
  length (filter (fun j => baddr V d j = 0) (seqZ (off / BSIZE) (spanned off n))).
Definition need_ind (d : dinode) : nat := if decide (addr_at d NDIRECT = 0) then 1%nat else 0%nat.

Section writei.
Context {DS : Type} `{HDS : Devsw DS} (sb : superblock) (l0 : log) (Hgeo : geo sb l0) (Hops : 1 <= outstanding l0).
Implicit Types (s : fstate DS) (V : Z -> list Z) (I : Z -> dinode) (T : gset Z) (ip : nat) (l : log).

Lemma spanned_step off n m : 0 <= off -> 0 < n -> m = Z.min n (BSIZE - off mod BSIZE) -> spanned off n = 1 + spanned (off + m) (n - m).
Proof.
  intros Ho Hn ->. unfold spanned. rewrite (proj2 (Z.eqb_neq n 0)) by lia. unfold BSIZE. destruct (Z.eqb_spec (n - Z.min n (512 - off mod 512)) 0); zlia.
Qed.

Lemma spanned_pos off n : 0 <= off -> 0 <= n -> 0 <= spanned off n.
Proof. intros Ho Hn. unfold spanned, BSIZE. destruct (Z.eqb_spec n 0); zlia. Qed.

Definition lacks V d bn : nat := if decide (baddr V d bn = 0) then 1%nat else 0%nat.
Lemma missing_le V d bn : (missing V d bn <= lacks V d bn + need_ind d)%nat /\ (bn < NDIRECT -> missing V d bn = lacks V d bn).
Proof.
  unfold missing, need_ind, lacks. destruct (Z.eqb_spec (baddr V d bn) 0), (Z.leb_spec NDIRECT bn), (Z.eqb_spec (addr_at d NDIRECT) 0);
    repeat case_decide; cbn; lia.
Qed.

Lemma missing_in_step V d off n m : 0 <= off -> 0 < n -> m = Z.min n (BSIZE - off mod BSIZE) ->
  missing_in V d off n = (lacks V d (off / BSIZE) + missing_in V d (off + m) (n - m))%nat.
Proof.
  intros Ho Hn Hm. unfold missing_in. rewrite (spanned_step off n m) by done.
  pose proof (spanned_pos (off + m) (n - m) ltac:(unfold BSIZE in *; zlia) ltac:(lia)) as Hp.
  rewrite seqZ_cons by lia. rewrite filter_cons. unfold lacks.
  assert (seqZ (Z.succ (off / BSIZE)) (Z.pred (1 + spanned (off + m) (n - m))) = seqZ ((off + m) / BSIZE) (spanned (off + m) (n - m))) as ->.
  { replace (Z.pred (1 + spanned (off + m) (n - m))) with (spanned (off + m) (n - m)) by lia. destruct (decide (n - m = 0)) as [E|E].
    - rewrite E. done.
    - f_equal. subst m. unfold BSIZE in *. zlia. }
  by case_decide.
Qed.

Lemma missing_in_mono V d V' d' off n : (forall j, off / BSIZE <= j < off / BSIZE + spanned off n -> baddr V d j <> 0 -> baddr V' d' j <> 0) ->
  (missing_in V' d' off n <= missing_in V d off n)%nat.
Proof.
  intros Hk. unfold missing_in. apply submseteq_length, NoDup_submseteq; [apply NoDup_filter, NoDup_seqZ|].
  intros j [Hj Hs]%list_elem_of_filter. apply list_elem_of_filter. split; [|done]. apply elem_of_seqZ in Hs.
  destruct (decide (baddr V d j = 0)); [done|]. by destruct (Hk j).
Qed.

Lemma insert_same_din (t : list inode) ip x d d' : <[ip := set_din d' (set_din d x)]> (<[ip := set_din d x]> t) = <[ip := set_din d' x]> t.
Proof. rewrite list_insert_insert_eq. done. Qed.

Lemma wp_writei_loop fuel s V I T ip x off src (Q : Z -> fstate DS -> Prop) : let n := Z.of_nat (length src) in
  in_file sb l0 s V I T ip x -> (forall b, bitmap_block sb b -> b ∈ T) -> n < Z.of_nat fuel -> 0 <= off -> off + n <= MAXFILE * BSIZE ->
  Forall (fun v => 0 <= v < 256) src -> Z.of_nat (base.size T) + 2 * spanned off n + 1 < size l0 - 1 ->
  (missing_in V (din x) off n + need_ind (din x) <= nfree sb V)%nat ->
  (forall V' I' T' l', wrote sb (inum x) V I V' I' off src -> let x' := set_din (I' (inum x)) x in
    let s' := set_flog l' (set_icache (<[ip := x']> (icache s)) s) in in_file sb l0 s' V' I' T' ip x' -> T ⊆ T' ->
    Z.of_nat (base.size T') <= Z.of_nat (base.size T) + 2 * spanned off n ->
    (nfree sb V + need_ind (I' (inum x)) <= nfree sb V' + missing_in V (din x) off n + need_ind (din x))%nat -> Q (off + n) s') ->
  wp (writei_loop fuel ip off src) s Q.
Proof.
  revert s V I T x off src Q. induction fuel as [|fuel IH]; intros s V I T x off src Q n Hf HT Hfuel Ho Hmax Hsrc Hroom Hfree HQ; [lia|].
  cbn [writei_loop]. fold n. pose proof Hf as [Hsb Hl Hx Hdev Hi HI Hwf]. destruct (Z.ltb_spec 0 n) as [Hn|Hn].
  2:{ assert (src = []) as -> by (destruct src; [done|cbn in n; lia]). wp_step. cbn in n. specialize (HQ V I T (flog s)). cbn zeta in HQ.
      rewrite HI in HQ. assert (set_din (din x) x = x) as E by by destruct x. rewrite E in HQ.
      assert (set_flog (flog s) (set_icache (<[ip := x]> (icache s)) s) = s) as E2 by (unfold set_flog, set_icache; cbn; rewrite list_insert_id by done; by destruct s).
      rewrite E2 in HQ. unfold n in HQ. cbn in HQ. change (Z.of_nat 0) with 0 in HQ. rewrite !Z.add_0_r in HQ. apply HQ; [by apply wrote_nil|done|done|cbn; lia|lia]. }
  set (m := Z.min n (BSIZE - off mod BSIZE)) in *. pose proof (spanned_step off n m Ho Hn eq_refl) as Hsp.
  assert (0 < m <= n /\ off mod BSIZE + m <= BSIZE) as [Hm Hmb] by (unfold m, BSIZE; zlia).
  pose proof (spanned_pos (off + m) (n - m) ltac:(lia) ltac:(lia)) as Hsp0.
  pose proof (missing_in_step V (din x) off n m Ho Hn eq_refl) as Hmi.
  pose proof (block_of off ltac:(lia)) as Hbn. destruct (missing_le V (din x) (off / BSIZE)) as [Hms1 Hms2].
  wp_step. eapply wp_geti; [done|]. wp_step. eapply (wp_bmap sb l0 Hgeo Hops _ V I T ip x); try done; [lia|lia|].
  intros V1 d1 l1 a I1 Hgr Ha Hnf Hold Hind Hl1. assert (I1 (inum x) = d1) as HI1 by apply fn_lookup_insert.
  set (src1 := take (Z.to_nat m) src). assert (Z.of_nat (length src1) = m) as Hlen1 by (unfold src1; rewrite length_take; lia).
  assert (slot V1 (I1 (inum x)) (off / BSIZE) = a) as Hsa by (by rewrite slot_baddr, HI1).
  destruct (slot_home sb l0 Hgeo V1 I1 (inum x) (off / BSIZE)) as (Hhome & Hlt & Hnb & Hds); [apply Hgr|done|lia|by rewrite Hsa|]. rewrite Hsa in *.
  set (T1 := {[a; addr_at d1 NDIRECT]} ∪ T) in *.
  assert (Z.of_nat (base.size T1) <= Z.of_nat (base.size T) + 2) as Hszt.
  { pose proof (size_add (addr_at d1 NDIRECT) T). pose proof (size_add a ({[addr_at d1 NDIRECT]} ∪ T)).
    replace T1 with ({[a]} ∪ ({[addr_at d1 NDIRECT]} ∪ T)) by (unfold T1; set_solver). lia. }
  assert (room l0 T1) as Hroom1 by (unfold room; lia).
  wp_step. apply wp_with_log. rewrite Hdev. cbn [flog set_flog].
  eapply wp_bread; [exact Hl1|done|apply not_held_empty|done|rewrite map_size_empty; lia|]. intros i l2 Hi2 H2.
  wp_step. apply wp_with_log. cbn [flog set_flog]. eapply wp_bdata; [exact H2|apply lookup_insert_eq|]. cbn beta iota. fold m src1.
  wp_step. apply wp_with_log. cbn [flog set_flog]. eapply wp_set_bdata; [exact H2|apply lookup_insert_eq|]. intros l3 H3. rewrite insert_insert_eq in H3.
  wp_step. apply wp_with_log. cbn [flog set_flog]. eapply wp_log_write; [exact H3|apply lookup_insert_eq|done|done|done|unfold T1; set_solver|]. intros l4 H4.
  wp_step. apply wp_with_log. cbn [flog set_flog]. eapply wp_brelse; [exact H4|rewrite lookup_insert_eq; by rewrite fn_lookup_insert|]. intros l5 H5.
  rewrite delete_insert_id in H5 by done. set (V2 := <[a := _]> V1) in *.
  assert (wrote sb (inum x) V I V2 I1 off src1) as Hw.
  { unfold V2. assert (a = baddr V1 (I1 (inum x)) (off / BSIZE)) as -> by by rewrite HI1.
    apply (wrote_block sb l0 Hgeo); try done; try lia; [by apply Forall_take|]. intros Hnz. rewrite HI in Hnz. rewrite HI1, HI. by apply Hold. }
  rewrite u32_id by (rewrite maxfile_eq in *; unfold BSIZE, UINT_MOD in *; lia).
  assert (Z.of_nat (length (drop (Z.to_nat m) src)) = n - m) as Hlen2 by (rewrite length_drop; lia).
  assert (nfree sb V2 = nfree sb V1) as Hnf2.
  { apply nfree_ext. intros b Hb. unfold used, V2. rewrite fn_lookup_insert_ne; [done|]. intros ->. by apply Hnb, bblock_range. }
  pose proof (gr_slot _ _ _ _ _ _ Hgr) as Hgs.
  assert (missing_in V2 d1 (off + m) (n - m) <= missing_in V (din x) (off + m) (n - m))%nat as Hmm.
  { apply missing_in_mono. intros j Hj Hnz. assert (0 <= j < MAXFILE) as Hjm.
    { unfold spanned in Hj. rewrite maxfile_eq in *. unfold BSIZE in *. destruct (Z.eqb_spec (n - m) 0); zlia. }
    rewrite <-slot_baddr, <-HI in Hnz by done. rewrite <-HI1, <-slot_baddr by done. rewrite (wr_slot _ _ _ _ _ _ _ _ Hw); [done|done|lia|done]. }
  assert (nfree sb V + need_ind d1 <= nfree sb V1 + lacks V (din x) (off / BSIZE) + need_ind (din x))%nat as Hacc.
  { specialize (Hgs (inum x) MAXFILE Hi ltac:(rewrite maxfile_eq; lia)). rewrite !slot_ind, HI1, HI in Hgs. unfold need_ind in *.
    destruct (decide (addr_at d1 NDIRECT = 0)) as [E1|E1]; [|lia].
    destruct (decide (addr_at (din x) NDIRECT = 0)) as [E2|E2]; [|exfalso; apply E2; rewrite <-Hgs; done].
    destruct (decide (off / BSIZE < NDIRECT)); [rewrite Hms2 in * by done; lia|]. exfalso. apply Hind; [lia|done]. }
  set (x1 := set_din d1 x) in *. set (s2 := set_flog l5 _).
  eapply (IH s2 V2 I1 T1 x1 (off + m)); rewrite ?Hlen2; try lia.
  - split; try done; [|apply Hw]. cbn. apply list_lookup_insert_eq. by eapply lookup_lt_Some.
  - intros b Hb. unfold T1. pose proof (HT b Hb). set_solver.
  - by apply Forall_drop.
  - change (din x1) with d1. rewrite Hnf2. lia.
  - intros V' I' T' l' Hw2 x' s' Hf' HTT Hsz' Hacc2. change (din x1) with d1 in Hacc2. change (inum x1) with (inum x) in Hacc2. specialize (HQ V' I' T' l').
    replace (off + m + (n - m)) with (off + n) by lia.
    assert (set_flog l' (set_icache (<[ip := set_din (I' (inum x)) x]> (icache s)) s) = s') as Es.
    { unfold s', s2, x', x1, set_flog, set_icache. cbn. by rewrite list_insert_insert_eq. }
    cbn zeta in HQ. rewrite Es in HQ. apply HQ.
    + rewrite <-(take_drop (Z.to_nat m) src). apply (wrote_trans sb _ _ _ V2 I1); [done|done|rewrite take_drop; lia|done|]. fold src1. by rewrite Hlen1.
    + done.
    + etrans; [|exact HTT]. unfold T1. set_solver.
    + lia.
    + rewrite Hnf2 in Hacc2. lia.
Qed.
End writei.

(** ** The system calls' view: whole reads and writes *)

(** An inode that a transaction may read and write: the disk has every inode as
    it is in memory, and [T] counts the free map and the inode's block. *)
Record open_file {DS : Type} (sb : superblock) (l0 : log) (s : fstate DS) (V : Z -> list Z) (I : Z -> dinode) (T : gset Z) (ip : nat) (x : inode) : Prop := {
  of_in : in_file sb l0 s V I T ip x;
  of_sync : synced sb V I (fun _ => False);
  of_bitmap : forall b, bitmap_block sb b -> b ∈ T;
  of_iblock : IBLOCK (inum x) sb ∈ T
}.

Section whole.
Context {DS : Type} `{HDS : Devsw DS} (sb : superblock) (l0 : log) (Hgeo : geo sb l0).
Implicit Types (s : fstate DS) (V : Z -> list Z) (I : Z -> dinode) (T : gset Z) (ip : nat) (l : log).

Lemma wp_iupdate (Hops : 1 <= outstanding l0) s V I T ip x (Q : unit -> fstate DS -> Prop) : in_file sb l0 s V I T ip x -> IBLOCK (inum x) sb ∈ T -> room l0 T ->
  (forall l', in_tx l0 l' (<[IBLOCK (inum x) sb := put_dinode (din x) (V (IBLOCK (inum x) sb)) (inum x mod IPB)]> V) ∅ T -> Q tt (set_flog l' s)) ->
  wp (iupdate ip) s Q.
Proof.
  intros [Hsb Hl Hx Hdev Hi HI Hwf] HiT Hroom HQ. unfold iupdate. destruct (geo_data sb l0 Hgeo) as (D1 & D2 & D3 & D4).
  pose proof (iblock_range sb l0 Hgeo _ Hi) as Hr. pose proof (ge_disk _ _ Hgeo).
  assert (home_block l0 (IBLOCK (inum x) sb)) as Hhome by (apply (home_fs sb l0 Hgeo); lia).
  wp_step. eapply wp_geti; [done|]. wp_step. apply wp_the_sb. rewrite Hsb, Hdev.
  wp_step. apply wp_with_log. eapply wp_bread; [exact Hl|lia|apply not_held_empty|done|rewrite map_size_empty; lia|]. intros i l1 Hi1 H1.
  wp_step. apply wp_with_log. cbn [flog set_flog]. eapply wp_bdata; [exact H1|apply lookup_insert_eq|]. cbn beta iota.
  wp_step. apply wp_with_log. cbn [flog set_flog]. eapply wp_set_bdata; [exact H1|apply lookup_insert_eq|]. intros l2 H2. rewrite insert_insert_eq in H2.
  wp_step. apply wp_with_log. cbn [flog set_flog]. eapply wp_log_write; [exact H2|apply lookup_insert_eq|done..|]. intros l3 H3.
  apply wp_with_log. cbn [flog set_flog]. eapply wp_brelse; [exact H3|rewrite lookup_insert_eq; by rewrite fn_lookup_insert|]. intros l4 H4.
  rewrite delete_insert_id in H4 by done. by apply (HQ l4).
Qed.

Lemma bmod_range i : 0 <= i mod IPB < IPB.
Proof. by apply Z.mod_pos_bound. Qed.

(** iupdate puts inode [i] on the disk and touches nothing else. *)
Lemma put_inode V I i : fs_wf sb V I -> inode_no sb i -> synced sb V I (fun j => j = i) ->
  let V' := <[IBLOCK i sb := put_dinode (I i) (V (IBLOCK i sb)) (i mod IPB)]> V in
  fs_wf sb V' I /\ synced sb V' I (fun _ => False) /\ nfree sb V' = nfree sb V /\ (forall j k, inode_no sb j -> slot V' (I j) k = slot V (I j) k) /\
  (forall b, bmapstart sb <= b -> V' b = V b) /\
  forall j, inode_no sb j -> file_bytes V' (I j) = file_bytes V (I j).
Proof.
  intros Hwf Hi Hs V'. destruct (wf_iblock sb l0 Hgeo V I i (put_dinode (I i) (V (IBLOCK i sb)) (i mod IPB)) Hwf Hi) as (H1 & H2 & H3 & H4).
  { rewrite length_put_dinode. apply Hwf. pose proof (iblock_range sb l0 Hgeo i Hi). pose proof (geo_data sb l0 Hgeo). lia. }
  destruct (geo_data sb l0 Hgeo) as (D1 & D2 & D3 & D4). pose proof (iblock_range sb l0 Hgeo i Hi) as Hib. split_and!; try done.
  - intros j Hj _. unfold dinode_on, V'. destruct (decide (IBLOCK i sb = IBLOCK j sb)) as [E|E].
    + rewrite <-E, fn_lookup_insert. destruct (decide (i = j)) as [<-|Hne].
      * apply decode_put_dinode; [by apply Hwf|apply Hwf; lia|apply bmod_range].
      * rewrite decode_put_other; [|by apply Hwf|apply Hwf; lia|apply bmod_range|apply bmod_range|].
        -- rewrite E. apply Hs; [done|congruence].
        -- intros Hm. apply Hne. unfold IBLOCK in E. rewrite (Z.div_mod i IPB), (Z.div_mod j IPB), Hm by done. do 2 f_equal. lia.
    + rewrite fn_lookup_insert_ne by done. apply Hs; [done|congruence].
  - intros j Hj. unfold file_bytes. apply list_fmap_ext. intros n k Hk%lookup_seqZ. pose proof (fi_size _ (fw_fields _ _ _ Hwf j Hj)) as Hsz.
    apply (file_byte_frame sb V V' I j k); try done; [lia|intros k'; by apply H2|intros b Hb; apply H3; lia|].
    apply (fw_data _ _ _ Hwf j); [done|unfold BSIZE; zlia|unfold BSIZE in *; zlia].
Qed.

(** The bytes of the file after a write that starts inside it or at its end. *)
Lemma bytes_written V I V' I' i off src N : inode_no sb i -> fs_wf sb V I -> wrote sb i V I V' I' off src -> 0 <= off <= dsize (I i) ->
  off + Z.of_nat (length src) <= MAXFILE * BSIZE -> N = Z.max (dsize (I i)) (off + Z.of_nat (length src)) ->
  (file_byte V' (I' i) <$> seqZ 0 N) = write_at (Z.to_nat off) src (file_bytes V (I i)).
Proof.
  intros Hi Hwf Hw Ho Hmax ->. pose proof (fi_size _ (fw_fields _ _ _ Hwf i Hi)) as Hsz.
  assert (length (file_bytes V (I i)) = Z.to_nat (dsize (I i))) as Hlen by (unfold file_bytes; by rewrite length_fmap, length_seqZ).
  apply list_eq. intros n. destruct (decide (Z.of_nat n < Z.max (dsize (I i)) (off + Z.of_nat (length src)))) as [Hn|Hn].
  2:{ rewrite !lookup_ge_None_2; [done|rewrite length_write_at; lia|rewrite length_fmap, length_seqZ; lia]. }
  rewrite list_lookup_fmap, (proj2 (lookup_seqZ _ _ n (Z.of_nat n))) by lia. cbn [fmap option_fmap option_map].
  rewrite lookup_write_at by lia. rewrite (wr_bytes _ _ _ _ _ _ _ _ Hw).
  - destruct (decide (off <= Z.of_nat n < off + Z.of_nat (length src))) as [E|E].
    + rewrite decide_True by lia. replace (Z.to_nat (Z.of_nat n - off)) with (n - Z.to_nat off)%nat by lia.
      destruct (src !! (n - Z.to_nat off)%nat) eqn:El; [done|]. apply lookup_ge_None in El. lia.
    + rewrite decide_False by lia. unfold file_bytes. by rewrite list_lookup_fmap, (proj2 (lookup_seqZ _ _ n (Z.of_nat n))) by lia.
  - lia.
  - destruct (decide (Z.of_nat n < dsize (I i))); [left|right; lia]. apply (fw_data _ _ _ Hwf i); [done|unfold BSIZE; zlia|unfold BSIZE; zlia].
Qed.

Lemma bytes_others V I V' I' i off src j : fs_wf sb V I -> wrote sb i V I V' I' off src -> inode_no sb j -> j <> i -> file_bytes V' (I' j) = file_bytes V (I j).
Proof.
  intros Hwf Hw Hj Hji. pose proof (fi_size _ (fw_fields _ _ _ Hwf j Hj)) as Hsz. unfold file_bytes.
  destruct (wr_fields _ _ _ _ _ _ _ _ Hw j) as (_&_&_&_&->). apply list_fmap_ext. intros n k Hk%lookup_seqZ.
  apply (wr_others _ _ _ _ _ _ _ _ Hw); [done|done|lia|]. apply (fw_data _ _ _ Hwf j); [done|unfold BSIZE; zlia|unfold BSIZE in *; zlia].
Qed.

(** A file grows to the blocks it has. *)
Lemma wf_grow V I i N : fs_wf sb V I -> inode_no sb i -> 0 <= N <= MAXFILE * BSIZE -> (forall k, 0 <= k < N -> baddr V (I i) (k / BSIZE) <> 0) ->
  let I' := <[i := set_dsize N (I i)]> I in fs_wf sb V I' /\ forall j k, slot V (I' j) k = slot V (I j) k.
Proof.
  intros [W1 W2 W3 W4 W5 W6] Hi HN Hall I'. assert (forall j k, slot V (I' j) k = slot V (I j) k) as Hslot.
  { intros j k. unfold I'. destruct (decide (i = j)) as [<-|]; [by rewrite fn_lookup_insert|by rewrite fn_lookup_insert_ne]. }
  split; [|done]. split; try done.
  - intros j Hj. unfold I'. destruct (decide (i = j)) as [<-|]; [|rewrite fn_lookup_insert_ne by done; by apply W3].
    rewrite fn_lookup_insert. destruct (W3 i Hi). by split.
  - intros j k Hj Hk. rewrite Hslot. by apply W4.
  - intros j k j' k' Hj Hj' Hk Hk'. rewrite !Hslot. by apply W5.
  - intros j k Hj Hk. unfold I'. destruct (decide (i = j)) as [<-|]; [|rewrite fn_lookup_insert_ne by done; by apply W6].
    rewrite fn_lookup_insert. cbn [dsize set_dsize]. intros Hlt. change (baddr V (set_dsize N (I i)) k) with (baddr V (I i) k).
    replace k with ((k * BSIZE) / BSIZE) by (apply Z.div_mul; done). apply Hall. unfold BSIZE in *. lia.
Qed.

(** readi of a regular file or a directory. *)
Lemma wp_readi s V I T ip x off n : in_file sb l0 s V I T ip x -> room l0 T -> type (din x) <> T_DEV -> 0 <= off <= dsize (din x) -> 0 <= n -> off + n < UINT_MOD ->
  wp (readi ip off n) s (fun r s' => exists l', let bs := take (Z.to_nat n) (drop (Z.to_nat off) (file_bytes V (din x))) in
    r = (Z.of_nat (length bs), bs) /\ s' = set_flog l' s /\ in_tx l0 l' V ∅ T).
Proof.
  intros Hf Hroom Ht Ho Hn Hmax. pose proof Hf as [Hsb Hl Hx Hdev Hi HI Hwf]. unfold readi. wp_step. eapply wp_geti; [done|].
  rewrite (proj2 (Z.eqb_neq _ _)) by done. rewrite u32_id by lia. rewrite (proj2 (Z.ltb_ge _ _)), (proj2 (Z.ltb_ge _ _)) by lia. cbn [orb].
  pose proof (fi_size _ (fw_fields _ _ _ Hwf _ Hi)) as Hsz. rewrite HI in Hsz.
  set (m := if dsize (din x) <? off + n then dsize (din x) - off else n).
  assert (m = Z.min n (dsize (din x) - off)) as Hm by (unfold m; destruct (Z.ltb_spec (dsize (din x)) (off + n)); lia).
  wp_step. eapply wp_readi_loop; [done|exact Hf|done|lia|lia|lia|lia|]. intros l' Hl'. wp_step. exists l'.
  assert ((file_byte V (din x) <$> seqZ off m) = take (Z.to_nat n) (drop (Z.to_nat off) (file_bytes V (din x)))) as Hb.
  { unfold file_bytes. apply list_eq. intros k. rewrite list_lookup_fmap. destruct (decide (Z.of_nat k < m)) as [Hk|Hk].
    - rewrite (proj2 (lookup_seqZ _ _ k (off + Z.of_nat k))) by lia. rewrite lookup_take_lt, lookup_drop, list_lookup_fmap by lia.
      by rewrite (proj2 (lookup_seqZ _ _ _ (off + Z.of_nat k))) by lia.
    - rewrite !lookup_ge_None_2; [done|rewrite length_take, length_drop, length_fmap, length_seqZ; lia|rewrite length_seqZ; lia]. }
  rewrite <-Hb. split_and!; try done. rewrite length_fmap, length_seqZ. f_equal. rewrite to_int_id; [lia|].
  rewrite maxfile_eq in *. unfold BSIZE in *. unfold_bounds. lia.
Qed.
End whole.

Section writing.
Context {DS : Type} `{HDS : Devsw DS} (sb : superblock) (l0 : log) (Hgeo : geo sb l0) (Hops : 1 <= outstanding l0).
Implicit Types (s : fstate DS) (V : Z -> list Z) (I : Z -> dinode) (T : gset Z) (ip : nat) (l : log).

(** What a write leaves behind. *)
Record written {A : Type} (s s' : fstate A) V I V' I' T T' ip x x' off (src : list Z) : Prop := {
  wn_open : open_file sb l0 s' V' I' T' ip x';
  wn_entry : x' = set_din (din x') x;
  wn_fields : type (din x') = type (din x) /\ major (din x') = major (din x) /\ minor (din x') = minor (din x) /\ nlink (din x') = nlink (din x);
  wn_size : dsize (din x') = Z.max (dsize (din x)) (off + Z.of_nat (length src));
  wn_state : exists l', s' = set_flog l' (set_icache (<[ip := x']> (icache s)) s);
  wn_bytes : file_bytes V' (din x') = write_at (Z.to_nat off) src (file_bytes V (din x));
  wn_others : forall j, inode_no sb j -> j <> inum x -> I' j = I j /\ file_bytes V' (I j) = file_bytes V (I j);
  wn_T : T ⊆ T' /\ Z.of_nat (base.size T') <= Z.of_nat (base.size T) + 2 * spanned off (Z.of_nat (length src));
  wn_free : (nfree sb V + need_ind (din x') <= nfree sb V' + missing_in V (din x) off (Z.of_nat (length src)) + need_ind (din x))%nat;
  wn_slots : forall k, 0 <= k <= MAXFILE -> slot V (din x) k <> 0 -> slot V' (din x') k = slot V (din x) k;
  wn_meta : forall b, b < inodestart sb -> V' b = V b;
  wn_other_slots : forall j k, inode_no sb j -> j <> inum x -> 0 <= k <= MAXFILE -> slot V' (I j) k = slot V (I j) k
}.

Lemma wp_writei s V I T ip x off src : let n := Z.of_nat (length src) in
  open_file sb l0 s V I T ip x -> type (din x) <> T_DEV -> 0 <= off <= dsize (din x) -> off + n <= MAXFILE * BSIZE ->
  Forall (fun v => 0 <= v < 256) src -> Z.of_nat (base.size T) + 2 * spanned off n + 1 < size l0 - 1 ->
  (missing_in V (din x) off n + need_ind (din x) <= nfree sb V)%nat ->
  wp (writei ip src off) s (fun r s' => r = n /\ exists V' I' T' x', written s s' V I V' I' T T' ip x x' off src).
Proof.
  intros n [Hf Hsync Hbm Hib] Ht Ho Hmax Hsrc Hroom Hfree. pose proof Hf as [Hsb Hl Hx Hdev Hi HI Hwf]. unfold writei. fold n.
  assert (off + n < UINT_MOD /\ INT_MIN <= n <= INT_MAX) as [Hov Hni] by (rewrite maxfile_eq in *; unfold BSIZE in *; unfold_bounds; lia).
  wp_step. eapply wp_geti; [done|]. rewrite (proj2 (Z.eqb_neq _ _)) by done. rewrite u32_id by lia.
  rewrite (proj2 (Z.ltb_ge _ _)), (proj2 (Z.ltb_ge _ _)), (proj2 (Z.ltb_ge _ _)) by lia. cbn [orb].
  wp_step. eapply (wp_writei_loop sb l0 Hgeo Hops _ _ V I T ip x off src); try done; [lia|lia|]. fold n.
  intros V1 I1 T1 l1 Hw x1 s1 Hf1 HTT Hsz Hacc. pose proof Hf1 as [Hsb1 Hl1 Hx1 Hdev1 Hi1 HI1 Hwf1]. set (i := inum x) in *.
  assert (inum x1 = i) as Ei by done. destruct (wr_fields _ _ _ _ _ _ _ _ Hw i) as (F1 & F2 & F3 & F4 & F5). rewrite HI in F1, F2, F3, F4, F5.
  assert (synced sb V1 I1 (fun j => j = i)) as Hs1.
  { intros j Hj Hji. destruct (wr_other _ _ _ _ _ _ _ _ Hw j 0 Hj Hji ltac:(rewrite maxfile_eq; lia)) as [-> _]. rewrite <-Hsync by (done || tauto).
    unfold dinode_on. rewrite (wr_meta _ _ _ _ _ _ _ _ Hw); [done|]. apply (iblock_range sb l0 Hgeo). done. }
  assert (forall j, inode_no sb j -> j <> i -> I1 j = I j /\ file_bytes V1 (I1 j) = file_bytes V (I j)) as Hoth.
  { intros j Hj Hji. split; [|by eapply bytes_others]. apply (wr_other _ _ _ _ _ _ _ _ Hw j 0 Hj Hji). rewrite maxfile_eq. lia. }
  assert (forall N, N = Z.max (dsize (din x)) (off + n) -> (file_byte V1 (I1 i) <$> seqZ 0 N) = write_at (Z.to_nat off) src (file_bytes V (din x))) as Hbytes.
  { intros N HN. rewrite <-HI. apply (bytes_written sb V I V1 I1 i off src N); rewrite ?HI; done. }
  assert (forall k, 0 <= k <= MAXFILE -> slot V (din x) k <> 0 -> slot V1 (I1 i) k = slot V (din x) k) as Hslots.
  { intros k Hk. rewrite <-HI. by apply (wr_slot _ _ _ _ _ _ _ _ Hw). }
  wp_step. eapply wp_geti; [exact Hx1|]. change (dsize (din x1)) with (dsize (I1 i)). rewrite F5.
  wp_step. destruct ((0 <? n) && (dsize (din x) <? off + n)) eqn:Eg.
  - apply andb_true_iff in Eg as [Hn0%Z.ltb_lt Hlt%Z.ltb_lt].
    assert (forall k, 0 <= k < off + n -> baddr V1 (I1 i) (k / BSIZE) <> 0) as Hnz.
    { intros k Hk. destruct (decide (off <= k)); [apply (wr_new _ _ _ _ _ _ _ _ Hw); fold n; lia|].
      pose proof (block_of k ltac:(lia)) as Hkb. rewrite <-slot_baddr by done. rewrite Hslots; [|lia|]; rewrite slot_baddr, <-HI by done;
        (apply (fw_data _ _ _ Hwf i); [done|unfold BSIZE; zlia|fold i in HI; rewrite HI; unfold BSIZE; zlia]). }
    destruct (wf_grow sb V1 I1 i (off + n) Hwf1 Hi ltac:(lia) Hnz) as [Hwf2 Hslot2]. set (I2 := <[i := set_dsize (off + n) (I1 i)]> I1) in *.
    assert (I2 i = set_dsize (off + n) (I1 i)) as HI2 by apply fn_lookup_insert.
    wp_step. eapply wp_updi; [exact Hx1|]. set (s2 := set_icache _ s1). set (x2 := set_din (set_dsize (off + n) (din x1)) x1).
    assert (in_file sb l0 s2 V1 I2 T1 ip x2) as Hf2.
    { split; try done. apply list_lookup_insert_eq. by eapply lookup_lt_Some. }
    eapply (wp_iupdate sb l0 Hgeo Hops s2 V1 I2 T1 ip x2); [exact Hf2|apply HTT, Hib|unfold room; lia|]. intros l3 H3. wp_step.
    split; [by apply to_int_id|]. change (inum x2) with i in H3. change (din x2) with (set_dsize (off + n) (I1 i)) in H3. rewrite <-HI2 in H3.
    destruct (put_inode sb l0 Hgeo V1 I2 i Hwf2 Hi) as (P1 & P2 & P3 & P4 & P5 & P6).
    { intros j Hj Hji. unfold I2. rewrite fn_lookup_insert_ne by congruence. by apply Hs1. }
    set (V3 := <[_ := _]> V1) in *. exists V3, I2, T1, x2. destruct (geo_data sb l0 Hgeo) as (D1 & D2 & D3 & D4). split.
    + split; [by destruct Hf2; split|done|intros b Hb; by apply HTT, Hbm|by apply HTT].
    + done.
    + done.
    + cbn. lia.
    + exists l3. unfold s2, s1, set_flog, set_icache. cbn. by rewrite list_insert_insert_eq.
    + change (din x2) with (set_dsize (off + n) (I1 i)). rewrite <-HI2, P6, HI2 by done. apply Hbytes. cbn [dsize set_dsize]. lia.
    + intros j Hj Hji. destruct (Hoth j Hj Hji) as [E1 E2]. assert (I2 j = I j) as E3 by (unfold I2; rewrite fn_lookup_insert_ne by (by apply not_eq_sym); done).
      split; [done|]. rewrite <-E3, P6, E3 by done. by rewrite <-E1 at 1.
    + done.
    + rewrite P3. exact Hacc.
    + intros k Hk Hnz'. rewrite <-Hslots by done. change (din x2) with (set_dsize (off + n) (I1 i)). rewrite <-HI2, P4 by done. apply Hslot2.
    + intros b Hb. pose proof (iblock_range sb l0 Hgeo i Hi). unfold V3. rewrite fn_lookup_insert_ne by lia. apply (wr_meta _ _ _ _ _ _ _ _ Hw). lia.
    + intros j k Hj Hji Hk. assert (I2 j = I j) as E3 by (unfold I2; rewrite fn_lookup_insert_ne by (by apply not_eq_sym); by apply Hoth).
      rewrite <-E3 at 1. rewrite P4, E3 by done. destruct (wr_other _ _ _ _ _ _ _ _ Hw j k Hj Hji Hk) as [E4 E5]. by rewrite <-E4 at 1.
  - wp_step. wp_step. split; [by apply to_int_id|].
    assert (off + n <= dsize (din x)) as Hle by (apply andb_false_iff in Eg as [Hz%Z.ltb_ge|Hz%Z.ltb_ge]; lia).
    assert (I1 i = din x) as Esame.
    { rewrite <-HI. apply (wr_same _ _ _ _ _ _ _ _ Hw). fold n. intros k Hk. apply (fw_data _ _ _ Hwf i); [done|unfold BSIZE; zlia|fold i in HI; rewrite HI; unfold BSIZE; zlia]. }
    exists V1, I1, T1, x1. split; try done.
    + split; [done| |intros b Hb; by apply HTT, Hbm|by apply HTT].
      { intros j Hj _. destruct (decide (j = i)) as [->|Hji]; [|by apply Hs1].
        rewrite Esame, <-HI. rewrite <-(Hsync i Hi) by tauto. unfold dinode_on. rewrite (wr_meta _ _ _ _ _ _ _ _ Hw); [done|]. by apply (iblock_range sb l0 Hgeo). }
    + change (din x1) with (I1 i). rewrite F5. fold n. lia.
    + by exists l1.
    + change (din x1) with (I1 i). unfold file_bytes at 1. rewrite F5. apply Hbytes. lia.
    + intros j Hj Hji. destruct (Hoth j Hj Hji) as [E1 E2]. split; [done|]. by rewrite <-E1 at 1.
    + intros b Hb. apply (wr_meta _ _ _ _ _ _ _ _ Hw). destruct (geo_data sb l0 Hgeo) as (D1 & D2 & D3 & D4). lia.
    + intros j k Hj Hji Hk. destruct (wr_other _ _ _ _ _ _ _ _ Hw j k Hj Hji Hk) as [E4 E5]. by rewrite <-E4 at 1.
Qed.
End writing.
