(* ===== verification/Fileop.v ===== *)
(** * Files over the disk: fs.c and log.c under file.c

    The operations that file.c needs ([Fs] of File.v), given by the inodes of
    Inode.v, the log and the disk, and the proof that they keep the promise
    [FsOk]: a locked write between begin_op and end_op goes in whole, is on the
    disk when it returns, and is atomic when the machine crashes.  Pipes are a
    parameter.  The state between two calls is [fs_idle]. *)
From stdpp Require Import functions.
From S2P Require Import Prelude File Bio Log Block Inode Readwrite.

Section ops.
Context {DS : Type} `{HDS : Devsw DS}.
Context (pclose : Z -> bool -> M (fstate DS) unit) (pread : Z -> Z -> M (fstate DS) (Z * list Z)) (pwrite : Z -> list Z -> M (fstate DS) Z).

(** A process that begin_op does not let in sleeps; alone, it sleeps for ever. *)
Definition begin_tx : M (fstate DS) unit := go ← with_log begin_op; if (go : bool) then mret tt else fail OutOfFuel.

Definition inode_fs : Fs (fstate DS) := {|
  File.pipeclose := pclose; File.piperead := pread; File.pipewrite := pwrite;
  File.begin_op := begin_tx; File.end_op := with_log end_op;
  File.ilock i := ilock (Z.to_nat i); File.iunlock i := iunlock (Z.to_nat i); File.iput i := iput (Z.to_nat i); File.idup i := (_ ← idup (Z.to_nat i); mret tt);
  File.readi i o n := readi (Z.to_nat i) o n; File.writei i bs o := writei (Z.to_nat i) bs o; File.stati i := stati (Z.to_nat i)
|}.
End ops.

(** ** The state between two calls *)

(** The inode table: entries in use name different inodes and, when valid, hold
    what the file system says. *)
Record icache_ok (sb : superblock) (t : list inode) (I : Z -> dinode) : Prop := {
  ic_ref : forall ip x, t !! ip = Some x -> 0 <= iref x;
  ic_used : forall ip x, t !! ip = Some x -> 0 < iref x -> idev x = 1 /\ inode_no sb (inum x) /\ (ivalid x = true -> din x = I (inum x));
  ic_uniq : forall ip x ip' x', t !! ip = Some x -> t !! ip' = Some x' -> 0 < iref x -> 0 < iref x' -> inum x = inum x' -> ip = ip';
  ic_unlocked : forall ip x, t !! ip = Some x -> ilocked x = false
}.

(** The blocks on the disk. *)
Definition on_disk (l : log) : Z -> list Z := read_disk (disk (bc l)).

(** Blocks that hold a file system with the inodes [I]. *)
Record fs_disk (sb : superblock) (V : Z -> list Z) (I : Z -> dinode) : Prop := {
  fd_super : decode_sb (V 1) = sb;
  fd_wf : fs_wf sb V I;
  fd_sync : synced sb V I (fun _ => False)
}.

Record fs_idle {DS : Type} (sb : superblock) (s : fstate DS) (I : Z -> dinode) : Prop := {
  fid_sb : fsb s = sb;
  fid_log : log_idle (flog s);
  fid_geo : geo sb (flog s);
  fid_disk : fs_disk sb (on_disk (flog s)) I;
  fid_icache : icache_ok sb (icache s) I
}.

(** The bytes of inode [i], read off the disk. *)
Definition file_on (sb : superblock) (V : Z -> list Z) (i : Z) : list Z := file_bytes V (dinode_on sb V i).
Definition file_of {DS : Type} (s : fstate DS) (i : Z) : list Z := file_on (fsb s) (on_disk (flog s)) i.

Definition bitmap_set (sb : superblock) : gset Z := list_to_set (seqZ (bmapstart sb) (datastart sb - bmapstart sb)).

Section locks.
Context {DS : Type} `{HDS : Devsw DS} (sb : superblock) (l0 : log) (Hgeo : geo sb l0).
Implicit Types (s : fstate DS) (V : Z -> list Z) (I : Z -> dinode) (T : gset Z) (ip : nat) (l : log).

(** An inode as ilock leaves it. *)
Definition locked_inode (x : inode) (d : dinode) : inode := mkInode (idev x) (inum x) (iref x) true true d.

Lemma wp_ilock s V I T ip x (Q : unit -> fstate DS -> Prop) : fsb s = sb -> in_tx l0 (flog s) V ∅ T -> room l0 T ->
  icache s !! ip = Some x -> idev x = 1 -> inode_no sb (inum x) -> 0 < iref x -> ilocked x = false -> (ivalid x = true -> din x = I (inum x)) ->
  dinode_on sb V (inum x) = I (inum x) -> type (I (inum x)) <> 0 ->
  (forall l', in_tx l0 l' V ∅ T -> Q tt (set_flog l' (set_icache (<[ip := locked_inode x (I (inum x))]> (icache s)) s))) ->
  wp (ilock ip) s Q.
Proof.
  intros Hsb Hl Hroom Hx Hdev Hi Hr Hlk Hv Hd Ht HQ. unfold ilock, acquirei. wp_step. eapply wp_geti; [done|].
  rewrite (proj2 (Z.ltb_ge _ _)) by lia. wp_step. wp_step. eapply wp_geti; [done|]. rewrite Hlk. eapply wp_updi; [done|].
  set (x1 := set_ilocked true x). set (s1 := set_icache _ s). pose proof (lookup_lt_Some _ _ _ Hx) as Hlt.
  assert (icache s1 !! ip = Some x1) as Hx1 by (by apply list_lookup_insert_eq).
  wp_step. eapply wp_geti; [exact Hx1|]. change (ivalid x1) with (ivalid x). destruct (ivalid x) eqn:Ev.
  { wp_step. specialize (HQ (flog s) Hl). assert (locked_inode x (I (inum x)) = x1) as E.
    { unfold locked_inode, x1, set_ilocked. by rewrite Ev, Hv. }
    rewrite E in HQ. exact HQ. }
  pose proof (iblock_range sb l0 Hgeo (inum x) Hi) as Hir. destruct (geo_data sb l0 Hgeo) as (D1 & D2 & D3 & D4). pose proof (ge_disk _ _ Hgeo).
  wp_step. apply wp_the_sb. change (fsb s1) with (fsb s). rewrite Hsb. change (idev x1) with (idev x). change (inum x1) with (inum x). rewrite Hdev.
  wp_step. apply wp_with_log. eapply wp_bread; [exact Hl|lia|apply not_held_empty|done|rewrite map_size_empty; lia|]. intros i l1 Hi1 H1.
  wp_step. apply wp_with_log. cbn [flog set_flog]. eapply wp_bdata; [exact H1|apply lookup_insert_eq|]. cbn beta iota.
  fold (dinode_on sb V (inum x)). rewrite Hd. wp_step. eapply wp_updi; [exact Hx1|]. set (x2 := set_din _ x1). set (s2 := set_icache _ _).
  assert (icache s2 !! ip = Some x2) as Hx2 by (apply list_lookup_insert_eq; cbn; by rewrite length_insert).
  wp_step. apply wp_with_log. cbn [flog set_flog]. eapply wp_brelse; [exact H1|apply lookup_insert_eq|]. intros l2 H2. rewrite delete_insert_id in H2 by done.
  wp_step. eapply wp_updi; [exact Hx2|]. set (x3 := set_ivalid true x2). set (s3 := set_icache _ _).
  assert (icache s3 !! ip = Some x3) as Hx3 by (apply list_lookup_insert_eq; cbn; by rewrite !length_insert).
  wp_step. eapply wp_geti; [exact Hx3|]. change (type (din x3)) with (type (I (inum x))). rewrite (proj2 (Z.eqb_neq _ _)) by done. wp_step.
  specialize (HQ l2 H2). assert (locked_inode x (I (inum x)) = x3) as E by done. rewrite E in HQ.
  assert (set_flog l2 (set_icache (<[ip:=x3]> (icache s)) s) = s3) as Es.
  { unfold s3, s2, s1, set_flog, set_icache. cbn. by rewrite !list_insert_insert_eq. }
  by rewrite Es in HQ.
Qed.

Lemma wp_iunlock s ip x (Q : unit -> fstate DS -> Prop) : icache s !! ip = Some x -> ilocked x = true -> 0 < iref x ->
  Q tt (set_icache (<[ip := set_ilocked false x]> (icache s)) s) -> wp (iunlock ip) s Q.
Proof.
  intros Hx Hl Hr HQ. unfold iunlock. wp_step. eapply wp_geti; [done|]. rewrite Hl, (proj2 (Z.ltb_ge _ _)) by lia. cbn [negb orb].
  by eapply wp_updi.
Qed.
End locks.

(** The view of the disk at the beginning of a transaction, or without one. *)
Lemma in_tx_idle l T : log_idle l -> in_tx l l (on_disk l) ∅ T.
Proof.
  intros (Hop & _). exists ∅. split; [by apply txi_open|]. split; [|set_solver]. intros b. by apply (home_updated ∅ (disk (bc l)) 0 [] b).
Qed.

(** begin_op on an idle log. *)
Section begin.
Context {DS : Type} `{HDS : Devsw DS}.

Lemma wp_begin_tx (s : fstate DS) (Q : unit -> fstate DS -> Prop) : log_idle (flog s) ->
  (let l0 := set_state 1 false (flog s) in (forall T, in_tx l0 l0 (on_disk (flog s)) ∅ T) -> Q tt (set_flog l0 s)) ->
  wp begin_tx s Q.
Proof.
  intros (Hop & Ho & Hnil) HQ. unfold begin_tx. wp_step. apply wp_with_log. unfold begin_op.
  exists true, (set_state 1 false (flog s)). split.
  - erewrite bind_Ok by reflexivity. rewrite (op_commit _ _ Hop), Ho, Hnil. cbn [length]. change (LOGSIZE <? Z.of_nat 0 + (0 + 1) * MAXOPBLOCKS) with false.
    cbv beta iota. unfold modify. erewrite bind_Ok by reflexivity. rewrite Ho, (op_commit _ _ Hop). done.
  - wp_step. apply HQ. intros T. exists ∅. split; [|split; [|set_solver]].
    + apply txi_open. by apply open_tx_state.
    + intros b. by apply (home_updated ∅ (disk (bc (flog s))) 0 [] b).
Qed.
End begin.

(** ** Disks that agree outside the log *)
Section same_disk.
Context (sb : superblock) (l0 : log) (Hgeo : geo sb l0) (V V' : Z -> list Z).
Context (Hkept : forall b, kept (start l0) (size l0) (disksize (bc l0)) b -> V' b = V b).

Lemma kept_fs : same_fs sb V V' /\ V' 1 = V 1.
Proof.
  destruct Hgeo as [G1 [G2 G3] G4 G5 G6 G7]. split.
  - intros b Hb. apply Hkept. unfold kept. lia.
  - apply Hkept. destruct G4 as [? ?]. pose proof (Z.div_pos (ninodes sb) IPB ltac:(lia) ltac:(done)).
    destruct (geo_data sb l0 Hgeo) as (D1 & D2 & D3 & D4). unfold kept. lia.
Qed.

Lemma fs_disk_kept I : fs_disk sb V I -> fs_disk sb V' I /\ forall i, inode_no sb i -> file_on sb V' i = file_on sb V i.
Proof.
  intros [Hsup Hwf Hs]. destruct kept_fs as [Hsame H1]. split.
  - split; [by rewrite H1|by apply (wf_same sb l0 Hgeo V V')|by apply (synced_same sb l0 Hgeo V V')].
  - intros i Hi. unfold file_on. rewrite (synced_same sb l0 Hgeo V V' Hsame I _ Hs i Hi), (Hs i Hi) by tauto.
    by apply (file_bytes_same sb l0 Hgeo V V' Hsame).
Qed.
End same_disk.

Lemma file_on_sync sb V I i : synced sb V I (fun _ => False) -> inode_no sb i -> file_on sb V i = file_bytes V (I i).
Proof. intros Hs Hi. unfold file_on. by rewrite (Hs i Hi) by tauto. Qed.

Lemma geo_ext sb l l' : start l' = start l -> size l' = size l -> disksize (bc l') = disksize (bc l) -> geo sb l -> geo sb l'.
Proof. intros E1 E2 E3 [A B C D E F]. split; rewrite ?E1, ?E2, ?E3; done. Qed.

(** ** Starting up *)
Section restart.
Context {DS : Type} `{HDS : Devsw DS}.

(** forkret, the first time: iinit and initlog of the root device. *)
Definition forkret : M (fstate DS) unit := _ ← iinit 1; with_log (initlog 1).

(** Memory when the machine has booted with disk [d]. *)
Definition booted (d : gmap Z (list Z)) (dsize : Z) (v : DS) : fstate DS :=
  mkFstate (mkSb 0 0 0 0 0 0 0) (replicate NINODE zero_inode) (boot d dsize) v.

Lemma empty_icache_ok sb I : icache_ok sb (replicate NINODE zero_inode) I.
Proof.
  split.
  - intros ip x [-> _]%lookup_replicate. done.
  - intros ip x [-> _]%lookup_replicate. done.
  - intros ip x ip' x' [-> _]%lookup_replicate. done.
  - intros ip x [-> _]%lookup_replicate. done.
Qed.

(** Recovery of a file system: the memory is as between two calls. *)
Lemma restart_ok sb l0 d V I v : geo sb l0 -> recovers d (disksize (bc l0)) (start l0) (size l0) V -> fs_disk sb V I ->
  exists s, forkret (booted d (disksize (bc l0)) v) = Ok (tt, s) /\ fs_idle sb s I /\
    icache s = replicate NINODE zero_inode /\ size (flog s) = size l0 /\ same_fs sb V (on_disk (flog s)) /\ forall i, inode_no sb i -> file_of s i = file_on sb V i.
Proof.
  intros Hgeo Hrec Hfs. set (dsize := disksize (bc l0)) in *.
  assert (1 < dsize) as Hd1 by (destruct Hgeo as [G1 [G2 G3] [G4 G4'] G5 G6 G7]; pose proof (Z.div_pos (ninodes sb) IPB ltac:(lia) ltac:(done));
    destruct (geo_data sb l0) as (D1 & D2 & D3 & D4); [by split|lia]).
  destruct (readsb_ok (binit d dsize) (binit_ok d dsize)) as (s1 & E1 & Hr1 & (Hd & Hs & Hw)); [done|]. cbn [disk disksize writes binit] in E1, Hd, Hs, Hw.
  set (l1 := mkLog 0 0 0 false 0 [] s1). assert (fresh d dsize l1) as Hfr by (exists s1; done).
  destruct (Hrec l1 Hfr) as (s2 & E2 & Hidle & Hs2 & Hb1 & Hkept). set (l2 := mkLog (start l0) (size l0) 0 false 1 [] s2) in *.
  assert (geo sb l2) as Hgeo2 by (eapply (geo_ext sb l0); done).
  assert (decode_sb (read_disk d 1) = sb) as Hsup.
  { rewrite <-Hb1, (Hkept 1); [apply Hfs|]. destruct Hgeo as [G1 _ _ _ _ _]. unfold kept. lia. }
  exists (mkFstate sb (replicate NINODE zero_inode) l2 v). split_and!.
  - unfold forkret. rewrite (bind_Ok _ _ _ tt (mkFstate (decode_sb (read_disk d 1)) (replicate NINODE zero_inode) l1 v)).
    2:{ unfold iinit. erewrite bind_Ok by (unfold with_log; cbn [flog booted]; erewrite with_bc_ok by (exact E1); reflexivity). reflexivity. }
    rewrite Hsup. unfold with_log. cbn [flog]. by rewrite E2.
  - destruct (fs_disk_kept sb l2 Hgeo2 V (on_disk l2)) with (I := I) as [Hd' _]; [cbn [start size bc l2]; rewrite Hs2; exact Hkept|done|].
    split; try done. apply empty_icache_ok.
  - done.
  - done.
  - apply (kept_fs sb l2 Hgeo2 V (on_disk l2)). cbn [start size bc l2]. rewrite Hs2. exact Hkept.
  - intros i Hi. unfold file_of. cbn [fsb flog].
    destruct (fs_disk_kept sb l2 Hgeo2 V (on_disk l2)) with (I := I) as [_ Hf]; [cbn [start size bc l2]; rewrite Hs2; exact Hkept|done|]. by apply Hf.
Qed.
End restart.

(** ** A write is one transaction *)
Section write.
Context {DS : Type} `{HDS : Devsw DS}.
Context (pclose : Z -> bool -> M (fstate DS) unit) (pread : Z -> Z -> M (fstate DS) (Z * list Z)) (pwrite : Z -> list Z -> M (fstate DS) Z).
#[local] Instance the_fs : Fs (fstate DS) := inode_fs pclose pread pwrite.
Implicit Types (s : fstate DS) (V : Z -> list Z) (I : Z -> dinode) (T : gset Z) (ip : nat) (l : log).

(** The commit at the end of the only transaction. *)
Lemma wp_end_tx l0 s V T (Q : unit -> fstate DS -> Prop) : in_tx l0 (flog s) V ∅ T -> outstanding l0 = 1 ->
  (forall l' ws, log_idle l' -> start l' = start l0 -> size l' = size l0 -> disksize (bc l') = disksize (bc l0) ->
    writes (bc l') = writes (bc l0) ++ ws -> disk (bc l') = apply_writes ws (disk (bc l0)) ->
    (forall b, kept (start l0) (size l0) (disksize (bc l0)) b -> on_disk l' b = V b) ->
    (forall ws1 ws2, ws = ws1 ++ ws2 -> let d := apply_writes ws1 (disk (bc l0)) in
      (ws2 <> [] /\ recovers d (disksize (bc l0)) (start l0) (size l0) (on_disk l0)) \/ recovers d (disksize (bc l0)) (start l0) (size l0) V) ->
    Q tt (set_flog l' s)) -> wp (with_log end_op) s Q.
Proof.
  intros (D & Hx & HV & _) Ho HQ. pose proof Hx as [A1 A2 A3 A4 A5 A6 _ _ _ _ _].
  destruct (exec_last_end (flog s) D) as (l' & ws & E1 & E2 & E3 & E4 & E5 & E6 & E7 & E8 & E9); [by eapply open_txi|by rewrite A6|].
  rewrite A1, A2, A3, A4, A5 in *. apply wp_with_log. eapply wp_of_Ok; [exact E1|]. apply (HQ l' ws); try done.
  - intros b Hb. unfold on_disk. by rewrite E8, HV.
  - intros ws1 ws2 Hws d. destruct (E9 ws1 ws2 Hws) as [H|H]; [by left|right]. eapply recovers_ext; [|exact H]. intros x _. apply HV.
Qed.

(** The old files or the new ones, whenever the machine stops. *)
Definition crash_ok (sb : superblock) s I s' I' (ws : list (Z * list Z)) : Prop := forall ws1 ws2 v, ws = ws1 ++ ws2 ->
  exists s2 I2, forkret (booted (apply_writes ws1 (disk (bc (flog s)))) (disksize (bc (flog s))) v) = Ok (tt, s2) /\ fs_idle sb s2 I2 /\
    ((ws2 <> [] /\ I2 = I /\ forall j, inode_no sb j -> file_of s2 j = file_of s j) \/ (I2 = I' /\ forall j, inode_no sb j -> file_of s2 j = file_of s' j)).

(** From one state between two calls to another by the transaction [ws]. *)
Record transaction (sb : superblock) s I s' I' : Prop := {
  ta_idle : fs_idle sb s' I';
  ta_devs : devs s' = devs s;
  ta_geo : start (flog s') = start (flog s) /\ size (flog s') = size (flog s) /\ disksize (bc (flog s')) = disksize (bc (flog s));
  ta_crash : exists ws, writes (bc (flog s')) = writes (bc (flog s)) ++ ws /\ disk (bc (flog s')) = apply_writes ws (disk (bc (flog s))) /\
    crash_ok sb s I s' I' ws
}.

(** end_op, when the blocks hold a file system again. *)
Lemma wp_end_idle sb s0 I0 s V I T l0 : fs_idle sb s0 I0 -> fs_disk sb V I -> l0 = set_state 1 false (flog s0) ->
  in_tx l0 (flog s) V ∅ T -> fsb s = sb -> devs s = devs s0 -> icache_ok sb (icache s) I ->
  wp (with_log end_op) s (fun _ s' => transaction sb s0 I0 s' I /\ icache s' = icache s /\
    same_fs sb V (on_disk (flog s')) /\ forall j, inode_no sb j -> file_of s' j = file_on sb V j).
Proof.
  intros [Hsb Hidle Hgeo Hd0 Hic] Hd -> Hl Hsb2 Hdv Hic2. eapply wp_end_tx; [exact Hl|done|]. cbn [start size bc set_state].
  intros l' ws E1 E2 E3 E4 E5 E6 E7 E8. assert (geo sb l') as Hgeo' by (by eapply geo_ext).
  assert (forall b, kept (start l') (size l') (disksize (bc l')) b -> on_disk l' b = V b) as Hk by (rewrite E2, E3, E4; exact E7).
  destruct (fs_disk_kept sb l' Hgeo' V (on_disk l') Hk I Hd) as [Hd' Hf].
  assert (forall j, inode_no sb j -> file_of (set_flog l' s) j = file_on sb V j) as Hfile.
  { intros j Hj. unfold file_of. cbn [fsb flog set_flog]. rewrite Hsb2. by apply Hf. }
  split; [|split_and!; [done|by eapply kept_fs|exact Hfile]]. split; [by split|done|done|]. exists ws. split; [done|]. split; [done|].
  intros ws1 ws2 v Hws. destruct (E8 ws1 ws2 Hws) as [[Hne Hr]|Hr].
  - destruct (restart_ok sb (flog s0) _ (on_disk (flog s0)) I0 v Hgeo Hr Hd0) as (s2 & R1 & R2 & _ & _ & _ & R3). exists s2, I0. split_and!; [exact R1|done|].
    left. split; [done|]. split; [done|]. intros j Hj. rewrite R3 by done. unfold file_of. by rewrite Hsb.
  - destruct (restart_ok sb (flog s0) _ V I v Hgeo Hr Hd) as (s2 & R1 & R2 & _ & _ & _ & R3). exists s2, I. split_and!; [exact R1|done|].
    right. split; [done|]. intros j Hj. by rewrite R3, Hfile.
Qed.

Lemma icache_locked sb t I ip x : icache_ok sb t I -> t !! ip = Some x -> 0 < iref x ->
  idev x = 1 /\ inode_no sb (inum x) /\ (ivalid x = true -> din x = I (inum x)) /\ ilocked x = false.
Proof. intros [A B C D] Hx Hr. destruct (B ip x Hx Hr) as (B1 & B2 & B3). split_and!; try done. by eapply D. Qed.

(** The table once an inode has been changed and unlocked. *)
Lemma icache_changed sb t I I' ip x : icache_ok sb t I -> t !! ip = Some x -> 0 < iref x ->
  (forall j, inode_no sb j -> j <> inum x -> I' j = I j) ->
  icache_ok sb (<[ip := mkInode (idev x) (inum x) (iref x) false true (I' (inum x))]> t) I'.
Proof.
  intros [A B C D] Hx Hr HI. destruct (B ip x Hx Hr) as (B1 & B2 & _). pose proof (lookup_lt_Some _ _ _ Hx) as Hlt.
  set (x' := mkInode _ _ _ _ _ _).
  assert (forall ip' y, <[ip := x']> t !! ip' = Some y -> (ip' = ip /\ y = x') \/ (ip' <> ip /\ t !! ip' = Some y)) as Hcase.
  { intros ip' y Hy. apply list_lookup_insert_Some in Hy as [(<- & -> & _)|(Hne & Hy)]; [by left|right]. done. }
  split.
  - intros ip' y [(-> & ->)|(_ & Hy)]%Hcase; [cbn; lia|by eapply A].
  - intros ip' y [(-> & ->)|(Hne & Hy)]%Hcase Hry; [done|]. destruct (B ip' y Hy Hry) as (Y1 & Y2 & Y3). split_and!; try done.
    intros Hv. rewrite HI; [by apply Y3|done|]. intros He. apply Hne. by eapply C.
  - intros ip1 y1 ip2 y2 [(-> & ->)|(Hn1 & Hy1)]%Hcase [(-> & ->)|(Hn2 & Hy2)]%Hcase R1 R2 He; try done.
    + symmetry. by eapply (C ip2 y2 ip x).
    + by eapply (C ip1 y1 ip x).
    + by eapply (C ip1 y1 ip2 y2).
  - intros ip' y [(-> & ->)|(_ & Hy)]%Hcase; [done|by eapply D].
Qed.
End write.

(** ** iget *)
Section iget.
Context {DS : Type} `{HDS : Devsw DS}.
Implicit Types (s : fstate DS) (I : Z -> dinode) (t : list inode) (ip : nat).

Lemma iget_scan_spec t i e d n : match (iget_scan t i e d n).1 with
  | Some k => exists x, (i <= k)%nat /\ t !! (k - i)%nat = Some x /\ 0 < iref x /\ idev x = d /\ inum x = n
  | None => (forall x, x ∈ t -> 0 < iref x -> idev x = d -> inum x <> n) /\
      match (iget_scan t i e d n).2 with
      | Some k => e = Some k \/ exists x, (i <= k)%nat /\ t !! (k - i)%nat = Some x /\ iref x = 0
      | None => e = None /\ forall x, x ∈ t -> iref x <> 0
      end
  end.
Proof.
  revert i e. induction t as [|x t IH]; intros i e; cbn [iget_scan].
  { cbn. split; [by intros x ?%elem_of_nil|]. destruct e; [by left|]. split; [done|by intros x ?%elem_of_nil]. }
  destruct ((0 <? iref x) && (idev x =? d) && (inum x =? n)) eqn:E.
  - apply andb_true_iff in E as [[E1%Z.ltb_lt E2%Z.eqb_eq]%andb_true_iff E3%Z.eqb_eq]. cbn. exists x. by rewrite Nat.sub_diag.
  - set (e' := match e with None => if iref x =? 0 then Some i else None | Some _ => e end). specialize (IH (S i) e').
    assert (forall k y, (S i <= k)%nat /\ t !! (k - S i)%nat = Some y -> (i <= k)%nat /\ (x :: t) !! (k - i)%nat = Some y) as Hlift.
    { intros k y [Hk Hy]. split; [lia|]. by replace (k - i)%nat with (S (k - S i)) by lia. }
    destruct (iget_scan t (S i) e' d n) as [[k|] e2]; cbn [fst snd] in *.
    + destruct IH as (y & Hk & Hy & HP). destruct (Hlift k y (conj Hk Hy)) as [? ?]. by exists y.
    + destruct IH as [IH1 IH2]. split.
      * intros y [->|Hy]%elem_of_cons; [|by apply IH1]. intros R1 R2 R3. rewrite R2, R3, !Z.eqb_refl, (proj2 (Z.ltb_lt _ _)) in E by done. done.
      * destruct e2 as [k|].
        -- destruct IH2 as [He|(y & Hk & Hy & Hz)]; [|destruct (Hlift k y (conj Hk Hy)) as [? ?]; right; by exists y].
           unfold e' in He. destruct e as [m|]; [by left|]. destruct (Z.eqb_spec (iref x) 0); [|done]. injection He as <-. right. exists x. by rewrite Nat.sub_diag.
        -- destruct IH2 as [He Hn]. unfold e' in He. destruct e as [m|]; [done|]. destruct (Z.eqb_spec (iref x) 0); [done|]. split; [done|].
           intros y [->|Hy]%elem_of_cons; [done|by apply Hn].
Qed.

(** A free entry is given to inode [n]. *)
Lemma icache_opened sb t I ip x n : icache_ok sb t I -> t !! ip = Some x -> inode_no sb n -> iref x = 0 ->
  (forall y, y ∈ t -> 0 < iref y -> inum y <> n) -> icache_ok sb (<[ip := mkInode 1 n 1 (ilocked x) false (din x)]> t) I.
Proof.
  intros [A B C D] Hx Hn H0 Hno. set (x' := mkInode _ _ _ _ _ _).
  assert (forall ip' y, <[ip := x']> t !! ip' = Some y -> (ip' = ip /\ y = x') \/ (ip' <> ip /\ t !! ip' = Some y)) as Hcase.
  { intros ip' y Hy. apply list_lookup_insert_Some in Hy as [(<- & -> & _)|(Hne & Hy)]; [by left|by right]. }
  split.
  - intros ip' y [(-> & ->)|(_ & Hy)]%Hcase; [done|by eapply A].
  - intros ip' y [(-> & ->)|(_ & Hy)]%Hcase Hr; [done|by eapply B].
  - intros ip1 y1 ip2 y2 [(-> & ->)|(Hn1 & Hy1)]%Hcase [(-> & ->)|(Hn2 & Hy2)]%Hcase R1 R2 He; [done|exfalso|exfalso|by eapply (C ip1 y1 ip2 y2)].
    + apply (Hno y2); [by eapply list_elem_of_lookup_2|done|done].
    + apply (Hno y1); [by eapply list_elem_of_lookup_2|done|done].
  - intros ip' y [(-> & ->)|(_ & Hy)]%Hcase; [by apply (D ip x)|by eapply D].
Qed.

(** An entry in use is shared. *)
Lemma icache_shared sb t I ip x r : icache_ok sb t I -> t !! ip = Some x -> 0 < iref x -> 0 <= r -> icache_ok sb (<[ip := set_iref r x]> t) I.
Proof.
  intros [A B C D] Hx Hr Hr'. set (x' := set_iref _ _).
  assert (forall ip' y, <[ip := x']> t !! ip' = Some y -> exists z, t !! ip' = Some z /\ (0 < iref y -> 0 < iref z) /\ 0 <= iref y /\
    idev y = idev z /\ inum y = inum z /\ ivalid y = ivalid z /\ din y = din z /\ ilocked y = ilocked z) as Hcase.
  { intros ip' y Hy. apply list_lookup_insert_Some in Hy as [(<- & <- & _)|(Hne & Hy)]; [|exists y; split_and!; try done; by eapply A].
    exists x. split_and!; done. }
  split.
  - by intros ip' y (z & _ & _ & ? & _)%Hcase.
  - intros ip' y (z & Hz & R & _ & -> & -> & -> & -> & _)%Hcase Hry. eapply B; [done|by apply R].
  - intros ip1 y1 ip2 y2 (z1 & Hz1 & R1 & _ & _ & -> & _)%Hcase (z2 & Hz2 & R2 & _ & _ & -> & _)%Hcase Hr1 Hr2 He.
    eapply (C ip1 z1 ip2 z2); try done; [by apply R1|by apply R2].
  - intros ip' y (z & Hz & _ & _ & _ & _ & _ & _ & ->)%Hcase. by eapply D.
Qed.

Lemma iget_empty s n : icache s = replicate NINODE zero_inode ->
  iget 1 n s = Ok (0%nat, set_icache (<[0%nat := mkInode 1 n 1 false false zero_dinode]> (icache s)) s).
Proof.
  intros Hic. unfold iget. rewrite (bind_Ok _ _ _ s s) by done. rewrite Hic.
  assert (iget_scan (replicate NINODE zero_inode) 0 None 1 n = (None, Some 0%nat)) as -> by reflexivity.
  unfold updi, modify, mbind, M_bind, mret, M_ret. rewrite (alter_insert _ _ _ zero_inode) by by rewrite Hic. by rewrite Hic.
Qed.

(** Iget gives every inode one entry.  On an idle file system iget of
    inode [n] returns the entry in use for it, with one more reference, or gives
    it the first free entry with one reference; the table stays one with at
    most one entry per inode, nothing else changes, and iget panics exactly
    when [n] has no entry and none is free. *)
Theorem iget_unique sb s I n : fs_idle sb s I -> inode_no sb n -> (forall ip x, icache s !! ip = Some x -> iref x < INT_MAX) ->
  (exists ip x s', iget 1 n s = Ok (ip, s') /\ fs_idle sb s' I /\ icache s' !! ip = Some x /\ inum x = n /\ 0 < iref x /\
    (forall j, j <> ip -> icache s' !! j = icache s !! j) /\ flog s' = flog s /\
    match icache s !! ip with Some y => iref x = iref y + 1 /\ (0 < iref y -> inum y = n) | None => False end) \/
  (iget 1 n s = Err Panic /\ forall ip x, icache s !! ip = Some x -> 0 < iref x /\ inum x <> n).
Proof.
  intros Hid Hn Hmax. pose proof Hid as [Hsb Hlog Hgeo Hd Hic]. unfold iget.
  pose proof (iget_scan_spec (icache s) 0 None 1 n) as Hsc. rewrite (bind_Ok _ _ _ s s) by done. destruct (iget_scan (icache s) 0 None 1 n) as [[k|] e]; cbn [fst snd] in Hsc.
  - left. destruct Hsc as (x & _ & Hx & Hr & _ & Hxn). rewrite Nat.sub_0_r in Hx. pose proof (Hmax k x Hx). pose proof (lookup_lt_Some _ _ _ Hx).
    exists k, (set_iref (iref x + 1) x), (set_icache (<[k := set_iref (iref x + 1) x]> (icache s)) s). split.
    { unfold geti. rewrite (bind_Ok _ _ _ x s) by (unfold mbind, M_bind, get; by rewrite Hx). rewrite (bind_Ok _ _ _ (iref x + 1) s) by (unfold lift; rewrite sint_ok; [done|unfold_bounds; lia]).
      unfold updi, modify, mbind, M_bind. rewrite (alter_insert _ _ _ x) by done. done. }
    split; [split; try done; by apply icache_shared; [..|lia]|]. cbn [icache set_icache flog]. rewrite list_lookup_insert_eq, Hx by done.
    split_and!; try done; [cbn; lia|]. intros j Hj. by rewrite list_lookup_insert_ne.
  - destruct Hsc as [Hno He]. assert (forall y, y ∈ icache s -> 0 < iref y -> inum y <> n) as Hno'.
    { intros y Hy Hr. apply Hno; [done|done|]. apply list_elem_of_lookup in Hy as [ip Hy]. by apply (ic_used _ _ _ Hic ip y). }
    destruct e as [k|].
    + left. destruct He as [He|(x & _ & Hx & H0)]; [done|]. rewrite Nat.sub_0_r in Hx. pose proof (lookup_lt_Some _ _ _ Hx).
      set (x' := mkInode 1 n 1 (ilocked x) false (din x)). exists k, x', (set_icache (<[k := x']> (icache s)) s). split.
      { unfold updi, modify, mbind, M_bind. rewrite (alter_insert _ _ _ x) by done. done. }
      split; [split; try done; by apply icache_opened|]. cbn [icache set_icache flog]. rewrite list_lookup_insert_eq, Hx by done.
      split_and!; try done; [|cbn; lia|lia]. intros j Hj. by rewrite list_lookup_insert_ne.
    + right. split; [done|]. destruct He as [_ He]. intros ip x Hx. pose proof (list_elem_of_lookup_2 _ _ _ Hx) as Hin.
      assert (0 < iref x) as Hr by (pose proof (ic_ref _ _ _ Hic ip x Hx); specialize (He x Hin); lia). split; [done|by apply Hno'].
Qed.
End iget.

(** What a locked write needs: an inode in use that is not a device, a place
    inside or at the end of the file, free blocks and room in the log. *)
Record can_write {DS : Type} (sb : superblock) (s : fstate DS) (I : Z -> dinode) (ip : nat) (x : inode) (off n : Z) : Prop := {
  cw_ip : icache s !! ip = Some x;
  cw_ref : 0 < iref x;
  cw_type : type (I (inum x)) <> 0 /\ type (I (inum x)) <> T_DEV;
  cw_off : 0 <= off <= dsize (I (inum x));
  cw_size : off + n <= MAXFILE * BSIZE;
  cw_free : (missing_in (on_disk (flog s)) (I (inum x)) off n + need_ind (I (inum x)) <= nfree sb (on_disk (flog s)))%nat
}.
(** Room in the log for a transaction that writes [k] blocks of a file. *)
Definition log_room (sb : superblock) (l : log) (k : Z) : Prop := datastart sb - bmapstart sb + 1 + 2 * k + 1 < size l - 1.

Section write.
Context {DS : Type} `{HDS : Devsw DS}.
Context (pclose : Z -> bool -> M (fstate DS) unit) (pread : Z -> Z -> M (fstate DS) (Z * list Z)) (pwrite : Z -> list Z -> M (fstate DS) Z).
#[local] Instance fs_of_inodes : Fs (fstate DS) := inode_fs pclose pread pwrite.
Implicit Types (s : fstate DS) (V : Z -> list Z) (I : Z -> dinode) (T : gset Z) (ip : nat) (l : log).

Lemma elem_of_bitmap_set sb b : b ∈ bitmap_set sb <-> bitmap_block sb b.
Proof. unfold bitmap_set, bitmap_block. rewrite elem_of_list_to_set, elem_of_seqZ. lia. Qed.

Lemma size_bitmap_set sb : bmapstart sb <= datastart sb -> Z.of_nat (base.size (bitmap_set sb)) = datastart sb - bmapstart sb.
Proof. intros Hle. unfold bitmap_set. rewrite size_list_to_set by apply NoDup_seqZ. rewrite length_seqZ. lia. Qed.

(** What a write of [src] at [off] does to inode [i]. *)
Record file_written (sb : superblock) V I V' I' i off (src : list Z) : Prop := {
  fwr_fields : type (I' i) = type (I i) /\ major (I' i) = major (I i) /\ minor (I' i) = minor (I i) /\ nlink (I' i) = nlink (I i);
  fwr_size : dsize (I' i) = Z.max (dsize (I i)) (off + Z.of_nat (length src));
  fwr_bytes : file_bytes V' (I' i) = write_at (Z.to_nat off) src (file_bytes V (I i));
  fwr_others : forall j, inode_no sb j -> j <> i -> I' j = I j /\ file_bytes V' (I' j) = file_bytes V (I j);
  fwr_free : (nfree sb V + need_ind (I' i) <= nfree sb V' + missing_in V (I i) off (Z.of_nat (length src)) + need_ind (I i))%nat;
  fwr_slots : forall k, 0 <= k <= MAXFILE -> slot V (I i) k <> 0 -> slot V' (I' i) k = slot V (I i) k
}.

Lemma wp_writei_op sb s I ip x off src : let n := Z.of_nat (length src) in
  fs_idle sb s I -> can_write sb s I ip x off n -> log_room sb (flog s) (spanned off n) -> Forall (fun v => 0 <= v < 256) src ->
  wp (writei_op (Z.of_nat ip) src off) s (fun r s' => r = n /\ exists I', transaction sb s I s' I' /\
    file_written sb (on_disk (flog s)) I (on_disk (flog s')) I' (inum x) off src /\
    icache s' = <[ip := mkInode (idev x) (inum x) (iref x) false true (I' (inum x))]> (icache s)).
Proof.
  intros n Hid Hcw Hroom Hsrc. pose proof Hid as [Hsb Hlog Hgeo [Hsup Hwf Hsync] Hic]. pose proof Hcw as [Hx Hr [Ht1 Ht2] Ho Hmax Hfree].
  destruct (icache_locked sb _ _ _ _ Hic Hx Hr) as (Hdev & Hi & Hv & Hlk). set (i := inum x) in *. set (V := on_disk (flog s)) in *.
  destruct (geo_data sb (flog s) Hgeo) as (D1 & D2 & D3 & D4). pose proof (spanned_pos off n ltac:(lia) ltac:(lia)) as Hsp.
  set (T := {[IBLOCK i sb]} ∪ bitmap_set sb : gset Z). assert (Z.of_nat (base.size T) <= datastart sb - bmapstart sb + 1) as HszT.
  { pose proof (size_add (IBLOCK i sb) (bitmap_set sb)). rewrite <-size_bitmap_set by lia. unfold T. lia. }
  unfold writei_op. cbn [File.begin_op File.end_op File.ilock File.writei File.iunlock fs_of_inodes inode_fs]. rewrite Nat2Z.id.
  wp_step. apply wp_begin_tx; [done|]. set (l0 := set_state 1 false (flog s)). cbv zeta. intros Hl0. fold V in Hl0.
  assert (geo sb l0) as Hgeo0 by (eapply (geo_ext sb (flog s)); done). unfold log_room in Hroom.
  wp_step. eapply (wp_ilock sb l0 Hgeo0 _ V I T ip x); [done|apply Hl0|unfold room; cbn [size l0 set_state]; lia|done..|apply Hsync; tauto|done|].
  intros l1 H1. set (x1 := locked_inode x (I i)). set (s1 := set_flog l1 _). pose proof (lookup_lt_Some _ _ _ Hx) as Hlt.
  assert (icache s1 !! ip = Some x1) as Hx1 by (by apply list_lookup_insert_eq).
  wp_step. eapply wp_mono; [apply (wp_writei sb l0 Hgeo0 ltac:(cbn; lia) s1 V I T ip x1 off src); try done|].
  { split; [by split|done| |unfold T; set_solver]. intros b Hb%elem_of_bitmap_set. unfold T. set_solver. }
  { cbn [size l0 set_state]. fold n. lia. }
  intros r s2 (-> & V2 & I2 & T2 & x2 & Hw). pose proof Hw as [Hopen Hent Hfld Hsize (l2 & Hs2) Hby Hoth HT Hacc Hsl Hmeta].
  destruct Hopen as [[F1 F2 F3 F4 F5 F6 F7] F8 F9 F10].
  assert (inum x2 = i) as Ei by (by rewrite Hent). rewrite Ei in *.
  wp_step. eapply wp_iunlock; [exact F3|by rewrite Hent|by rewrite Hent|]. set (s3 := set_icache _ s2).
  assert (icache s3 = <[ip := mkInode (idev x) i (iref x) false true (I2 i)]> (icache s)) as Hic3.
  { unfold s3. rewrite Hs2. cbn. rewrite !list_insert_insert_eq. f_equal. rewrite Hent, F6. done. }
  wp_step. eapply wp_mono; [apply (wp_end_idle sb s I s3 V2 I2 T2 l0); try done|].
  - split; [|done|done]. rewrite Hmeta; [done|]. destruct Hgeo as [? [? ?] _ _ _ _]. lia.
  - unfold s3. rewrite Hs2. done.
  - rewrite Hic3. eapply icache_changed; try done. intros j Hj Hne. by apply Hoth.
  - intros [] s' (Hta & Hics & Hsame & Hfiles). wp_step. split; [done|]. exists I2. split; [done|]. split; [|by rewrite Hics].
    destruct (ta_idle _ _ _ _ _ Hta) as [_ _ Hgeo' _ _]. destruct (wf_same sb (flog s') Hgeo' V2 _ Hsame I2 F7) as [_ Hslot'].
    split.
    + rewrite F6. exact Hfld.
    + rewrite F6. exact Hsize.
    + rewrite (file_bytes_same sb (flog s') Hgeo' V2 _ Hsame), F6 by done. exact Hby.
    + intros j Hj Hne. rewrite (file_bytes_same sb (flog s') Hgeo' V2 _ Hsame) by done. destruct (Hoth j Hj Hne) as [E1 E2]. split; [done|]. by rewrite E1.
    + rewrite (nfree_same sb (flog s') Hgeo' V2 _ Hsame), F6. exact Hacc.
    + intros k Hk Hnz. rewrite Hslot' by done. rewrite F6. by apply Hsl.
Qed.
End write.

(** ** The blocks that the rest of a write needs *)
Section missing.
Implicit Types (V : Z -> list Z) (d : dinode).

Lemma spanned_4 off n : 0 <= off -> 0 <= n <= 3 * BSIZE -> spanned off n <= 4.
Proof. intros Ho Hn. unfold spanned, BSIZE in *. destruct (Z.eqb_spec n 0); zlia. Qed.

Lemma filter_length_le {A} (P Q : A -> Prop) `{!forall x, Decision (P x), !forall x, Decision (Q x)} (l : list A) :
  (forall x, x ∈ l -> P x -> Q x) -> (length (filter P l) <= length (filter Q l))%nat.
Proof.
  induction l as [|x l IH]; intros Hl; [done|]. rewrite !filter_cons. assert (length (filter P l) <= length (filter Q l))%nat as Hle.
  { apply IH. intros y Hy. apply Hl. by apply list_elem_of_further. }
  destruct (decide (P x)) as [Hp|], (decide (Q x)) as [|Hq]; cbn [length]; try lia. exfalso. apply Hq, Hl; [apply list_elem_of_here|done].
Qed.

Lemma missing_in_0 V d off : missing_in V d off 0 = 0%nat.
Proof. unfold missing_in. change (spanned off 0) with 0. by rewrite (nil_length_inv (seqZ (off / BSIZE) 0)) by by rewrite length_seqZ. Qed.

Lemma missing_rest V d V' d' off n m : 0 <= off -> 0 <= m <= n -> off + n <= MAXFILE * BSIZE ->
  (forall j, 0 <= j < MAXFILE -> baddr V d j <> 0 -> baddr V' d' j <> 0) -> (forall j, 0 <= j -> off < (j + 1) * BSIZE -> j * BSIZE < off + m -> baddr V' d' j <> 0) ->
  (missing_in V' d' (off + m) (n - m) + missing_in V d off m <= missing_in V d off n)%nat.
Proof.
  intros Ho Hm Hmax Hkeep Hnew. rewrite maxfile_eq in *. destruct (decide (n = m)) as [->|Hnm]; [by rewrite Z.sub_diag, missing_in_0|].
  unfold missing_in. set (P := fun j => baddr V d j = 0). set (P' := fun j => baddr V' d' j = 0).
  assert (forall a k, 0 <= a -> a + k <= 140 -> (length (filter P' (seqZ a k)) <= length (filter P (seqZ a k)))%nat) as Hle.
  { intros a k Ha Hk. apply filter_length_le. intros j Hj%elem_of_seqZ Hp. destruct (decide (P j)) as [|Hnp]; [done|]. exfalso. apply (Hkeep j); [lia|done|done]. }
  destruct (decide (m = 0)) as [->|Hm0].
  { rewrite Z.add_0_r, Z.sub_0_r. change (spanned off 0) with 0. cbn [length filter seqZ]. destruct (decide (n = 0)) as [->|]; [done|].
    assert (0 <= off / BSIZE /\ off / BSIZE + spanned off n <= 140) as [G1 G2] by (unfold spanned; rewrite (proj2 (Z.eqb_neq n 0)) by done; unfold BSIZE in *; zlia).
    pose proof (Hle _ _ G1 G2). cbn [seqZ]. rewrite (nil_length_inv (seqZ (off / BSIZE) 0)) by by rewrite length_seqZ. cbn [filter length]. rewrite Nat.add_0_r. done. }
  set (a := off / BSIZE). set (c := (off + m - 1) / BSIZE + 1). set (e := (off + n - 1) / BSIZE + 1).
  assert (spanned off n = e - a /\ spanned off m = c - a) as [-> ->] by (unfold spanned, a, c, e; rewrite !(proj2 (Z.eqb_neq _ 0)) by lia; lia).
  assert (spanned (off + m) (n - m) = e - (off + m) / BSIZE) as ->.
  { unfold spanned, e. rewrite (proj2 (Z.eqb_neq _ 0)) by lia. replace (off + m + (n - m) - 1) with (off + n - 1) by lia. lia. }
  assert (0 <= a <= c /\ c <= e /\ e <= 140) as (B1 & B2 & B3) by (unfold a, c, e, BSIZE in *; zlia).
  replace (seqZ a (e - a)) with (seqZ a (c - a) ++ seqZ c (e - c)) by (replace c with (a + (c - a)) at 2 by lia; rewrite <-seqZ_app by lia; f_equal; lia).
  rewrite filter_app, length_app. assert (length (filter P' (seqZ ((off + m) / BSIZE) (e - (off + m) / BSIZE))) <= length (filter P' (seqZ c (e - c))))%nat as Hc.
  { destruct (decide ((off + m) / BSIZE = c)) as [->|Hne]; [done|]. assert ((off + m) / BSIZE = c - 1) as -> by (unfold c, BSIZE in *; zlia).
    rewrite seqZ_cons by lia. rewrite filter_cons, decide_False; [by replace (Z.succ (c - 1)) with c by lia; replace (Z.pred (e - (c - 1))) with (e - c) by lia|].
    unfold P'. apply Hnew; unfold a, c, BSIZE in *; zlia. }
  pose proof (Hle c (e - c) ltac:(lia) ltac:(lia)). unfold P, P' in *. lia.
Qed.

Lemma missing_mono V d off n m : 0 <= off -> 0 <= m <= n -> (missing_in V d off m <= missing_in V d off n)%nat.
Proof.
  intros Ho Hm. unfold missing_in. assert (0 <= spanned off m <= spanned off n) as Hs.
  { unfold spanned, BSIZE. destruct (Z.eqb_spec m 0), (Z.eqb_spec n 0); zlia. }
  replace (spanned off n) with (spanned off m + (spanned off n - spanned off m)) by lia. rewrite seqZ_app by lia. rewrite filter_app, length_app. lia.
Qed.
End missing.

(** ** The promise to file.c *)
Section promise.
Context {DS : Type} `{HDS : Devsw DS}.
Context (pclose : Z -> bool -> M (fstate DS) unit) (pread : Z -> Z -> M (fstate DS) (Z * list Z)) (pwrite : Z -> list Z -> M (fstate DS) Z).
#[local] Instance fs_ops : Fs (fstate DS) := inode_fs pclose pread pwrite.
Implicit Types (s : fstate DS) (V : Z -> list Z) (I : Z -> dinode) (ip : nat).

Lemma file_of_idle sb s I j : fs_idle sb s I -> inode_no sb j -> file_of s j = file_bytes (on_disk (flog s)) (I j).
Proof. intros [Hsb _ _ [_ _ Hs] _] Hj. unfold file_of. by rewrite Hsb, (file_on_sync sb _ I). Qed.

Lemma length_file_of sb s I i : fs_idle sb s I -> inode_no sb i -> Z.of_nat (length (file_of s i)) = dsize (I i).
Proof.
  intros Hid Hi. rewrite (file_of_idle sb s I i Hid Hi). unfold file_bytes. rewrite length_fmap, length_seqZ.
  pose proof (fi_size _ (fw_fields _ _ _ (fd_wf _ _ _ (fid_disk _ _ _ Hid)) i Hi)). lia.
Qed.

(** C16: a file write is atomic, down to the disk.  Between calls, a locked
    write of bytes inside or at the end of a file that is not a device, given
    free blocks and room in the log, returns the number of bytes; the file then
    has those bytes at that offset and no other inode or file has changed.  [ws] is
    the list of the disk writes the call made, in order, as the buffer cache
    recorded them: if the machine stops after any number of them, starting up again recovers a
    file system with all the old files, or with all the new ones; once the call
    has returned, with the new ones. *)
Theorem write_atomic sb s I ip x off src : let n := Z.of_nat (length src) in
  fs_idle sb s I -> can_write sb s I ip x off n -> log_room sb (flog s) (spanned off n) -> Forall (fun v => 0 <= v < 256) src ->
  exists s' I', writei_op (Z.of_nat ip) src off s = Ok (n, s') /\ fs_idle sb s' I' /\
    file_of s' (inum x) = write_at (Z.to_nat off) src (file_of s (inum x)) /\
    (forall j, inode_no sb j -> j <> inum x -> I' j = I j /\ file_of s' j = file_of s j) /\
    exists ws, writes (bc (flog s')) = writes (bc (flog s)) ++ ws /\
      disk (bc (flog s')) = apply_writes ws (disk (bc (flog s))) /\ crash_ok sb s I s' I' ws.
Proof.
  intros n Hid Hcw Hroom Hsrc. destruct (wp_writei_op pclose pread pwrite sb s I ip x off src Hid Hcw Hroom Hsrc) as (r & s' & E & -> & I' & Hta & Hw & _).
  pose proof Hid as [_ _ _ _ Hic]. destruct (icache_locked sb _ _ _ _ Hic (cw_ip _ _ _ _ _ _ _ Hcw) (cw_ref _ _ _ _ _ _ _ Hcw)) as (_ & Hi & _).
  pose proof (fun j => file_of_idle sb s I j Hid) as Hf. pose proof (fun j => file_of_idle sb s' I' j (ta_idle _ _ _ _ _ Hta)) as Hf'.
  exists s', I'. split; [exact E|]. split; [apply Hta|]. split_and!.
  - rewrite Hf', Hf by done. apply (fwr_bytes _ _ _ _ _ _ _ _ Hw).
  - intros j Hj Hne. rewrite Hf', Hf by done. by apply (fwr_others _ _ _ _ _ _ _ _ Hw).
  - exact (ta_crash _ _ _ _ _ Hta).
Qed.

(** The inode that entry [i] of the table stands for, and its bytes. *)
Definition held (s : fstate DS) (i : Z) : option Z :=
  if i <? 0 then None else match icache s !! Z.to_nat i with Some x => if 0 <? iref x then Some (inum x) else None | None => None end.
Definition inode_contents (s : fstate DS) (i : Z) : list Z := match held s i with Some j => file_of s j | None => [] end.

(** [n] bytes at offset [o] of entry [i] can be written, however they are cut. *)
Definition write_ready (s : fstate DS) (i o n : Z) : Prop :=
  exists sb I x, 0 <= i /\ fs_idle sb s I /\ can_write sb s I (Z.to_nat i) x o n /\ log_room sb (flog s) 4.

(** A write of the first [m] of [n] bytes leaves the rest writable. *)
Lemma can_write_rest sb s I ip x off n src s' I' : let m := Z.of_nat (length src) in
  can_write sb s I ip x off n -> m <= n -> inode_no sb (inum x) -> fs_wf sb (on_disk (flog s')) I' ->
  file_written sb (on_disk (flog s)) I (on_disk (flog s')) I' (inum x) off src ->
  icache s' = <[ip := mkInode (idev x) (inum x) (iref x) false true (I' (inum x))]> (icache s) ->
  can_write sb s' I' ip (mkInode (idev x) (inum x) (iref x) false true (I' (inum x))) (off + m) (n - m).
Proof.
  intros m [Hx Hr Ht Ho Hmax Hfree] Hm Hi Hwf [(F1 & F2 & F3 & F4) Fs Fb Fo Ff Fsl] Hic. split; cbn [inum iref].
  - rewrite Hic. apply list_lookup_insert_eq. by eapply lookup_lt_Some.
  - done.
  - by rewrite F1.
  - rewrite Fs. fold m. lia.
  - lia.
  - pose proof (missing_rest (on_disk (flog s)) (I (inum x)) (on_disk (flog s')) (I' (inum x)) off n m ltac:(lia) ltac:(lia) Hmax) as Hrest.
    assert (forall j, 0 <= j < MAXFILE -> baddr (on_disk (flog s)) (I (inum x)) j <> 0 -> baddr (on_disk (flog s')) (I' (inum x)) j <> 0) as H1.
    { intros j Hj. rewrite <-!slot_baddr by done. intros Hnz. rewrite Fsl; [done|lia|done]. }
    specialize (Hrest H1). fold m in Ff. assert (missing_in (on_disk (flog s')) (I' (inum x)) (off + m) (n - m) + missing_in (on_disk (flog s)) (I (inum x)) off m <=
      missing_in (on_disk (flog s)) (I (inum x)) off n)%nat; [|lia]. apply Hrest. intros j Hj _ Hlt. apply (fw_data _ _ _ Hwf (inum x) j Hi Hj). rewrite Fs. fold m. lia.
Qed.

Lemma can_write_less sb s I ip x off n m : can_write sb s I ip x off n -> 0 <= m <= n -> can_write sb s I ip x off m.
Proof.
  intros [Hx Hr Ht Ho Hmax Hfree] Hm. split; try done; [lia|].
  pose proof (missing_mono (on_disk (flog s)) (I (inum x)) off n m ltac:(lia) Hm). lia.
Qed.

Lemma inode_writei_ok s i bs o n : write_ready s i o n -> 0 <= o <= Z.of_nat (length (inode_contents s i)) ->
  Forall (fun v => 0 <= v < 256) bs -> Z.of_nat (length bs) <= max_chunk -> Z.of_nat (length bs) <= n -> o + n <= max_file ->
  exists s', writei_op i bs o s = Ok (Z.of_nat (length bs), s') /\
    inode_contents s' i = write_at (Z.to_nat o) bs (inode_contents s i) /\ (forall j, j <> i -> inode_contents s' j = inode_contents s j) /\
    write_ready s' i (o + Z.of_nat (length bs)) (n - Z.of_nat (length bs)).
Proof.
  intros (sb & I & x & Hi0 & Hid & Hcw & Hroom) Ho Hby Hchunk Hlen _. set (m := Z.of_nat (length bs)) in *. set (ip := Z.to_nat i) in *.
  assert (Z.of_nat ip = i) as Hip by (unfold ip; lia). pose proof Hcw as [Hx Hr Ht Hoff Hmax Hfree].
  assert (spanned o m <= 4) as Hsp by (apply spanned_4; [lia|change max_chunk with 1536 in Hchunk; unfold BSIZE; lia]).
  destruct (wp_writei_op pclose pread pwrite sb s I ip x o bs Hid) as (r & s' & E & -> & I' & Hta & Hw & Hic'); fold m; [by apply (can_write_less sb s I ip x o n m); [|lia]|unfold log_room in *; lia|done|].
  rewrite Hip in E. pose proof Hid as [_ _ _ _ Hic]. destruct (icache_locked sb _ _ _ _ Hic Hx Hr) as (_ & Hi & _).
  pose proof (ta_idle _ _ _ _ _ Hta) as Hid'. pose proof (fun j => file_of_idle sb s I j Hid) as Hf. pose proof (fun j => file_of_idle sb s' I' j Hid') as Hf'.
  pose proof (lookup_lt_Some _ _ _ Hx) as Hlt. set (x' := mkInode _ _ _ _ _ _) in Hic'.
  assert (held s i = Some (inum x) /\ held s' i = Some (inum x)) as [Hh Hh'].
  { unfold held. rewrite (proj2 (Z.ltb_ge _ _)), Hic' by lia. fold ip. rewrite Hx, list_lookup_insert_eq by done. cbn [iref inum x']. by rewrite (proj2 (Z.ltb_lt _ _)). }
  exists s'. split; [exact E|]. split_and!.
  - unfold inode_contents. rewrite Hh, Hh', Hf, Hf' by done. apply Hw.
  - intros j Hj. unfold inode_contents. assert (held s' j = held s j) as ->.
    { unfold held. destruct (Z.ltb_spec j 0); [done|]. rewrite Hic', list_lookup_insert_ne; [done|unfold ip; lia]. }
    destruct (held s j) as [k|] eqn:Ek; [|done]. unfold held in Ek. destruct (Z.ltb_spec j 0); [done|]. destruct (icache s !! Z.to_nat j) as [y|] eqn:Ey; [|done].
    destruct (Z.ltb_spec 0 (iref y)); [|done]. injection Ek as <-. destruct (icache_locked sb _ _ _ _ Hic Ey ltac:(done)) as (_ & Hk & _).
    rewrite Hf, Hf' by done. apply Hw; [done|]. intros He. apply Hj. assert (Z.to_nat j = ip) as Hjp by (eapply (ic_uniq _ _ _ Hic); done). unfold ip in Hjp. lia.
  - exists sb, I', x'. split; [done|]. split; [done|]. split.
    + apply (can_write_rest sb s I ip x o n bs s' I'); try done. apply Hid'.
    + destruct (ta_geo _ _ _ _ _ Hta) as (_ & Hsz & _). unfold log_room in *. by rewrite Hsz.
Qed.

(** The disk keeps the promise that file.c needs. *)
#[export] Instance inode_fs_ok : FsOk (fstate DS) := {| contents := inode_contents; ready := write_ready; writei_ok := inode_writei_ok |}.
End promise.

(** ** Reading, and reading back *)
Section read.
Context {DS : Type} `{HDS : Devsw DS}.
Context (pclose : Z -> bool -> M (fstate DS) unit) (pread : Z -> Z -> M (fstate DS) (Z * list Z)) (pwrite : Z -> list Z -> M (fstate DS) Z).
#[local] Instance fs_disk_ops : Fs (fstate DS) := inode_fs pclose pread pwrite.
Implicit Types (s : fstate DS) (I : Z -> dinode) (ip : nat) (l : log).

(** Without a transaction nothing is logged and the disk does not change. *)
Lemma in_tx_unlogged l l' V : log_idle l -> in_tx l l' V ∅ ∅ -> log_idle l' /\ disk (bc l') = disk (bc l) /\
  start l' = start l /\ size l' = size l /\ disksize (bc l') = disksize (bc l) /\ writes (bc l') = writes (bc l).
Proof.
  intros (Hop & Ho & Hnil) (D & Hx & _ & HD). pose proof Hx as [A1 A2 A3 A4 A5 A6 A7 A8 A9 A10 A11].
  assert (D = ∅) as -> by (apply map_eq; intros b; rewrite lookup_empty; apply not_elem_of_dom; set_solver).
  split; [|done]. split; [by eapply open_txi|]. split; [by rewrite A6|]. destruct (lh l') as [|b bs] eqn:E; [done|].
  pose proof (proj2 (tx_pinned _ _ _ _ _ _ A10 b) ltac:(left)) as [c Hc]. by rewrite lookup_empty in Hc.
Qed.

Lemma wp_readi_op sb s I ip x off n : fs_idle sb s I -> icache s !! ip = Some x -> 0 < iref x ->
  type (I (inum x)) <> 0 -> type (I (inum x)) <> T_DEV -> 0 <= off <= dsize (I (inum x)) -> 0 <= n -> off + n < UINT_MOD ->
  wp (readi_op (Z.of_nat ip) off n) s (fun r s' => let bs := take (Z.to_nat n) (drop (Z.to_nat off) (file_of s (inum x))) in
    r = (Z.of_nat (length bs), bs) /\ fs_idle sb s' I /\ disk (bc (flog s')) = disk (bc (flog s))).
Proof.
  intros Hid Hx Hr Ht1 Ht2 Ho Hn Hmax. pose proof Hid as [Hsb Hlog Hgeo [Hsup Hwf Hsync] Hic].
  destruct (icache_locked sb _ _ _ _ Hic Hx Hr) as (Hdev & Hi & Hv & Hlk). rewrite (file_of_idle sb s I) by done.
  set (i := inum x) in *. set (V := on_disk (flog s)) in *. set (l0 := flog s) in *.
  assert (room l0 ∅) as Hroom by (unfold room; rewrite size_empty; destruct Hgeo as [_ [? _] _ _ _ _]; destruct Hlog as [[[[? ?] _ _ _ _ _] _ _ _] _]; lia).
  unfold readi_op. cbn [File.ilock File.iunlock File.readi fs_disk_ops inode_fs]. rewrite Nat2Z.id.
  wp_step. eapply (wp_ilock sb l0 Hgeo _ V I ∅ ip x); [done|by apply in_tx_idle|done|done..|apply Hsync; tauto|done|].
  intros l1 H1. set (x1 := locked_inode x (I i)). set (s1 := set_flog l1 _). pose proof (lookup_lt_Some _ _ _ Hx) as Hlt.
  assert (icache s1 !! ip = Some x1) as Hx1 by (by apply list_lookup_insert_eq).
  wp_step. eapply wp_mono; [apply (wp_readi sb l0 Hgeo s1 V I ∅ ip x1 off n); try done; by split|].
  intros r s2 (l2 & -> & -> & H2). wp_step. eapply wp_iunlock; [exact Hx1|done|done|]. wp_step.
  split; [done|]. destruct (in_tx_unlogged _ _ _ Hlog H2) as (E1 & E2 & E3 & E4 & E5 & _). split; [|exact E2].
  split; try done.
  - by eapply (geo_ext sb l0).
  - unfold on_disk. change (flog _) with l2. by rewrite E2.
  - cbn. rewrite list_insert_insert_eq. by apply (icache_changed sb _ I I ip x).
Qed.

(** C17: what has been written is read back.  Writing bytes into a file and
    then reading as many at the same offset gives the bytes written. *)
Theorem write_read sb s I ip x off src : let n := Z.of_nat (length src) in
  fs_idle sb s I -> can_write sb s I ip x off n -> log_room sb (flog s) (spanned off n) -> Forall (fun v => 0 <= v < 256) src ->
  exists s', (_ ← writei_op (Z.of_nat ip) src off; readi_op (Z.of_nat ip) off n) s = Ok ((n, src), s').
Proof.
  intros n Hid Hcw Hroom Hsrc. destruct (wp_writei_op pclose pread pwrite sb s I ip x off src Hid Hcw Hroom Hsrc) as (r & s1 & E1 & -> & I1 & Hta & Hw & Hic1).
  pose proof Hid as [_ _ _ _ Hic]. pose proof Hcw as [Hx Hr [Ht1 Ht2] Ho Hmax _]. destruct (icache_locked sb _ _ _ _ Hic Hx Hr) as (_ & Hi & _).
  pose proof Hw as [(F1 & _) Fs Fb _ _ _]. set (x1 := mkInode _ _ _ _ _ _) in Hic1.
  destruct (wp_readi_op sb s1 I1 ip x1 off n) as (r & s2 & E2 & -> & _); try done; cbn [inum x1]; try congruence.
  - apply Hta.
  - rewrite Hic1. apply list_lookup_insert_eq. by eapply lookup_lt_Some.
  - rewrite Fs. lia.
  - lia.
  - rewrite maxfile_eq in Hmax. unfold BSIZE in Hmax. fold n. unfold UINT_MOD. lia.
  - exists s2. rewrite (bind_Ok _ _ _ _ _ E1), E2. change (inum x1) with (inum x). rewrite (file_of_idle sb s1 I1) by (done || apply Hta). rewrite Fb.
    assert (take (Z.to_nat n) (drop (Z.to_nat off) (write_at (Z.to_nat off) src (file_bytes (on_disk (flog s)) (I (inum x))))) = src) as ->; [|done].
    rewrite <-(file_of_idle sb s I) by done. pose proof (length_file_of sb s I (inum x) Hid Hi). unfold write_at.
    rewrite drop_app_length' by (rewrite length_take; lia). unfold n. rewrite Nat2Z.id. by rewrite take_app_length.
Qed.
End read.

(** ** An example: a disk as mkfs lays it out, with one empty file *)
#[local] Instance no_devices : Devsw unit := {| dev_read := fun _ => None; dev_write := fun _ => None |}.
Definition ex_sb : superblock := mkSb 1000 941 200 30 2 32 58.
Definition ex_file : dinode := mkDinode T_FILE 0 0 1 0 (replicate 13 0).
Definition ex_blocks : gmap Z (list Z) :=
  <[58 := fold_left mark (seqZ 0 59) zero_block]> (<[32 := put_dinode ex_file zero_block 1]> (<[1 := Log.ex_super]> ∅)).
Definition ex_inodes : Z -> dinode := dinode_on ex_sb (read_disk ex_blocks).
Definition ex_entry : inode := mkInode 1 1 1 false false zero_dinode.

Lemma ex_inode_1 : inode_no ex_sb 1.
Proof. unfold inode_no. cbn. lia. Qed.

Lemma forallb_seqZ (P : Z -> bool) a n : forallb P (seqZ a n) = true -> forall i, a <= i < a + n -> P i = true.
Proof. intros Hall i Hi. apply (proj1 (List.forallb_forall P (seqZ a n)) Hall). apply list_elem_of_In, elem_of_seqZ. lia. Qed.

Lemma ex_inodes_eq i : inode_no ex_sb i -> ex_inodes i = if decide (i = 1) then ex_file else zero_dinode.
Proof.
  intros Hi. assert (forallb (fun i => bool_decide (ex_inodes i = if decide (i = 1) then ex_file else zero_dinode)) (seqZ 0 200) = true) as Hall by by vm_compute.
  pose proof (forallb_seqZ _ _ _ Hall i Hi) as Hd. by apply bool_decide_eq_true in Hd.
Qed.

Lemma ex_slots V i k : inode_no ex_sb i -> slot V (ex_inodes i) k = 0.
Proof.
  intros Hi. rewrite ex_inodes_eq by done. assert (forall j, word_at (replicate 13 0) j = 0) as Hw.
  { intros j. unfold word_at. destruct (replicate 13 0 !! Z.to_nat j) eqn:E; [|done]. by apply lookup_replicate in E as [-> _]. }
  assert (forall d, addrs d = replicate 13 0 -> slot V d k = 0) as Hs.
  { intros d Hd. unfold slot, baddr, addr_at. rewrite Hd, !Hw. by repeat case_match. }
  case_decide; by apply Hs.
Qed.

Lemma ex_fs_disk : fs_disk ex_sb (read_disk ex_blocks) ex_inodes.
Proof.
  split; [by vm_compute| |done]. split.
  - intros b _. unfold read_disk, ex_blocks. destruct (decide (b = 58)) as [->|]; [by vm_compute|]. rewrite lookup_insert_ne by done.
    destruct (decide (b = 32)) as [->|]; [by vm_compute|]. rewrite lookup_insert_ne by done. destruct (decide (b = 1)) as [->|]; [by vm_compute|].
    by rewrite lookup_insert_ne.
  - intros b Hb. assert (forallb (used ex_sb (read_disk ex_blocks)) (seqZ 0 59) = true) as Hall by by vm_compute.
    by apply (forallb_seqZ _ _ _ Hall).
  - intros i Hi. rewrite ex_inodes_eq by done. case_decide; by split.
  - intros i k Hi _ Hnz. by rewrite ex_slots in Hnz.
  - intros i k i' k' Hi Hi' _ _ Hnz. by rewrite ex_slots in Hnz.
  - intros i j Hi Hj Hlt. rewrite ex_inodes_eq in Hlt by done. exfalso. unfold BSIZE in Hlt. case_decide; cbn in Hlt; lia.
Qed.

(** The machine starts on that disk. *)
Lemma ex_booted : exists s, forkret (booted ex_blocks 1000 tt) = Ok (tt, s) /\ fs_idle ex_sb s ex_inodes /\ icache s = replicate NINODE zero_inode /\
  size (flog s) = 30 /\ nfree ex_sb (on_disk (flog s)) = 941%nat /\ forall j, inode_no ex_sb j -> file_of s j = [].
Proof.
  assert (log_disk ex_blocks 1000 2 30 []) as Hld.
  { split; try reflexivity; [split; unfold LOGSIZE, MAXOPBLOCKS; unfold_bounds; lia|cbn; lia|by intros b ?%elem_of_nil]. }
  set (l0 := boot ex_blocks 1000). set (l1 := mkLog 2 30 0 false 1 [] (bc l0)).
  assert (geo ex_sb l1) as Hgeo by (split; unfold_bounds; vm_compute; done).
  destruct (restart_ok ex_sb l1 ex_blocks (read_disk ex_blocks) ex_inodes tt Hgeo) as (s & E & Hid & Hic & Hsz & Hsame & Hf); [by eapply recovers_disk|apply ex_fs_disk|].
  change (disksize (bc l1)) with 1000 in E. exists s. split; [exact E|]. split; [exact Hid|]. split; [exact Hic|]. split; [exact Hsz|]. split.
  - rewrite (nfree_same ex_sb l1 Hgeo _ _ Hsame). vm_compute. reflexivity.
  - intros j Hj. rewrite Hf by done. rewrite (file_on_sync ex_sb _ ex_inodes j (fd_sync _ _ _ ex_fs_disk) Hj).
    unfold file_bytes. rewrite ex_inodes_eq by done. by case_decide.
Qed.

(** Opening its file. *)
Lemma ex_started : exists s, (_ ← forkret; iget 1 1) (booted ex_blocks 1000 tt) = Ok (0%nat, s) /\ fs_idle ex_sb s ex_inodes /\
  icache s !! 0%nat = Some ex_entry /\ size (flog s) = 30 /\ nfree ex_sb (on_disk (flog s)) = 941%nat /\ forall j, inode_no ex_sb j -> file_of s j = [].
Proof.
  destruct ex_booted as (s & E & Hid & Hic & Hsz & Hfree & Hf). pose proof Hid as [Hsb Hlog Hg Hd Hc].
  exists (set_icache (<[0%nat := ex_entry]> (icache s)) s). split_and!; [|split; [exact Hsb|exact Hlog|exact Hg|exact Hd|]| |exact Hsz|exact Hfree|exact Hf].
  - rewrite (bind_Ok _ _ _ _ _ E). exact (iget_empty s 1 Hic).
  - apply (icache_opened ex_sb (icache s) ex_inodes 0%nat zero_inode 1); [exact Hc|by rewrite Hic|exact ex_inode_1|reflexivity|].
    intros y Hy Hry. rewrite Hic in Hy. apply elem_of_replicate in Hy as [-> _]. done.
  - cbn [icache set_icache]. by rewrite Hic.
Qed.

(** The premises of the theorems above hold of it. *)
Lemma ex_can_write (s : fstate unit) (src : list Z) : fs_idle ex_sb s ex_inodes -> icache s !! 0%nat = Some ex_entry -> size (flog s) = 30 ->
  nfree ex_sb (on_disk (flog s)) = 941%nat -> (length src <= 1536)%nat ->
  can_write ex_sb s ex_inodes 0 ex_entry 0 (Z.of_nat (length src)) /\ log_room ex_sb (flog s) (spanned 0 (Z.of_nat (length src))).
Proof.
  intros Hid He Hsz Hfree Hlen. assert (ex_inodes (inum ex_entry) = ex_file) as Ef by by vm_compute.
  pose proof (spanned_4 0 (Z.of_nat (length src)) ltac:(lia) ltac:(unfold BSIZE; lia)) as Hsp. split.
  - split; rewrite ?Ef; try done.
    + rewrite maxfile_eq. unfold BSIZE. lia.
    + rewrite Hfree. unfold missing_in. pose proof (length_filter (fun j => baddr (on_disk (flog s)) ex_file j = 0) (seqZ (0 / BSIZE) (spanned 0 (Z.of_nat (length src))))) as Hl.
      rewrite length_seqZ in Hl. assert (need_ind ex_file <= 1)%nat by (unfold need_ind; case_decide; lia). lia.
  - unfold log_room. rewrite Hsz. change (datastart ex_sb) with 59. change (bmapstart ex_sb) with 58. lia.
Qed.

Lemma write_atomic_witness : let src := replicate 1000 7 in exists s s', (_ ← forkret; iget 1 1) (booted ex_blocks 1000 tt) = Ok (0%nat, s) /\
  @writei_op _ (inode_fs (fun _ _ => mret tt) (fun _ _ => mret (0, [])) (fun _ _ => mret 0)) 0 src 0 s = Ok (1000, s') /\ file_of s' 1 = src /\ file_of s 1 = [].
Proof.
  intros src. destruct ex_started as (s & E & Hid & He & Hsz & Hfree & Hf). destruct (ex_can_write s src Hid He Hsz Hfree) as [Hcw Hroom]; [unfold src; rewrite length_replicate; lia|].
  destruct (write_atomic (fun _ _ => mret tt) (fun _ _ => mret (0, [])) (fun _ _ => mret 0) ex_sb s ex_inodes 0 ex_entry 0 src Hid Hcw Hroom) as (s' & I' & W1 & W2 & W3 & _).
  { unfold src. apply Forall_replicate. lia. }
  assert (file_of s 1 = []) as Hf1 by (apply Hf, ex_inode_1). exists s, s'. split; [exact E|]. split; [exact W1|]. split; [|exact Hf1].
  etrans; [exact W3|]. change (file_of s (inum ex_entry)) with (file_of s 1). rewrite Hf1. unfold write_at. rewrite take_nil, drop_nil, app_nil_r. reflexivity.
Defined.

Lemma write_read_witness : let src := replicate 1000 7 in exists s s', (_ ← forkret; iget 1 1) (booted ex_blocks 1000 tt) = Ok (0%nat, s) /\
  (_ ← @writei_op _ (inode_fs (fun _ _ => mret tt) (fun _ _ => mret (0, [])) (fun _ _ => mret 0)) 0 src 0;
   @readi_op _ (inode_fs (fun _ _ => mret tt) (fun _ _ => mret (0, [])) (fun _ _ => mret 0)) 0 0 1000) s = Ok ((1000, src), s').
Proof.
  intros src. destruct ex_started as (s & E & Hid & He & Hsz & Hfree & Hf). destruct (ex_can_write s src Hid He Hsz Hfree) as [Hcw Hroom]; [unfold src; rewrite length_replicate; lia|].
  destruct (write_read (fun _ _ => mret tt) (fun _ _ => mret (0, [])) (fun _ _ => mret 0) ex_sb s ex_inodes 0 ex_entry 0 src Hid Hcw Hroom) as (s' & W).
  { unfold src. apply Forall_replicate. lia. }
  exists s, s'. split; [exact E|]. exact W.
Defined.

Lemma iget_unique_witness : exists s s' x, forkret (booted ex_blocks 1000 tt) = Ok (tt, s) /\ iget 1 1 s = Ok (0%nat, s') /\ icache s' !! 0%nat = Some x /\ inum x = 1.
Proof.
  destruct ex_booted as (s & E & Hid & Hic & _). destruct (iget_unique ex_sb s ex_inodes 1 Hid) as [(ip & x & s' & G1 & _ & G2 & G3 & _)|[_ Hno]].
  - exact ex_inode_1.
  - intros ip x Hx. rewrite Hic in Hx. apply lookup_replicate in Hx as [-> _]. by vm_compute.
  - rewrite (iget_empty s 1 Hic) in G1. injection G1 as <- <-. eexists s, _, x. split; [exact E|]. split; [exact (iget_empty s 1 Hic)|]. split; [exact G2|exact G3].
  - exfalso. destruct (Hno 0%nat zero_inode) as [Hr _]; [by rewrite Hic|]. vm_compute in Hr. discriminate.
Defined.
