(* ===== verification/Dir.v ===== *)
(** * Directories and paths, xv6 wmap/solution/fs.c from namecmp on

    A directory is a file of 16-byte entries: an inode number and a name of 14
    bytes, shorter names ending with NUL.  A C string, or a buffer that strncmp
    reads, is the list of its bytes from there on, its NUL included.  The current
    directory of the process is an argument. *)
From stdpp Require Import functions.
From S2P Require Import Prelude Text Bio Log Block Inode Readwrite Fileop.

Definition DIRSIZ : nat := 14.
Definition ROOTDEV : Z := 1.
Definition ROOTINO : Z := 1.
Definition SLASH : Z := 47.

Record dirent : Type := mkDirent { d_inum : Z; d_name : list Z }.
Definition decode_dirent (bs : list Z) : dirent := mkDirent (default 0 (bs !! 0%nat) + 256 * default 0 (bs !! 1%nat)) (drop 2 bs).
Definition encode_dirent (e : dirent) : list Z := d_inum e mod 256 :: (d_inum e / 256) mod 256 :: d_name e.
Definition DIRENT : Z := 16.

(** ** string.c; characters are compared as unsigned *)
Fixpoint strncmp (n : nat) (p q : list Z) : result Z :=
  match n with
  | O => Ok 0
  | S n' =>
      match p, q with
      | a :: p', b :: q' => if negb (a =? 0) && (a =? b) then strncmp n' p' q' else Ok (a mod 256 - b mod 256)
      | _, _ => Err Undefined
      end
  end.

(** The [n] bytes that strncpy writes. *)
Fixpoint strncpy (n : nat) (t : list Z) : result (list Z) :=
  match n with
  | O => Ok []
  | S n' =>
      match t with
      | c :: t' => if c =? 0 then Ok (replicate n 0) else r ← strncpy n' t'; Ok (c :: r)
      | [] => Err Undefined
      end
  end.

Definition namecmp (s t : list Z) : result Z := strncmp DIRSIZ s t.

(** ** Paths *)
Fixpoint skip_slashes (path : list Z) : list Z :=
  match path with c :: p => if c =? SLASH then skip_slashes p else path | [] => [] end.
Fixpoint span_elem (path : list Z) : list Z * list Z :=
  match path with
  | c :: p => if (c =? SLASH) || (c =? 0) then ([], path) else let '(e, r) := span_elem p in (c :: e, r)
  | [] => ([], [])
  end.

(** skipelem: the rest of the path and the buffer [name] after it; [None] for a
    path without elements. *)
Definition skipelem (path name : list Z) : result (option (list Z * list Z)) :=
  match skip_slashes path with
  | [] => Err Undefined
  | (c :: _) as path =>
      if c =? 0 then Ok None else
      let '(s, path) := span_elem path in
      match path with
      | [] => Err Undefined
      | _ =>
          let name := if (DIRSIZ <=? length s)%nat then take DIRSIZ s ++ drop DIRSIZ name else s ++ 0 :: drop (S (length s)) name in
          Ok (Some (skip_slashes path, name))
      end
  end.

Section dir.
Context {DS : Type} `{HDS : Devsw DS}.

(** ** Directories *)

(** dirlookup from offset [off] on: the inode and the offset of the entry. *)
Fixpoint dirlookup_loop (fuel : nat) (dp : nat) (name : list Z) (off : Z) : M (fstate DS) (option (nat * Z)) :=
  match fuel with
  | O => fail OutOfFuel
  | S fuel' =>
      x ← geti dp;
      if off <? dsize (din x) then
        '(r, bs) ← readi dp off DIRENT;
        if negb (r =? DIRENT) then fail Panic else
        let de := decode_dirent bs in
        if d_inum de =? 0 then dirlookup_loop fuel' dp name (u32 (off + DIRENT)) else
        c ← lift (namecmp name (d_name de));
        if c =? 0 then ip ← iget (idev x) (d_inum de); mret (Some (ip, off))
        else dirlookup_loop fuel' dp name (u32 (off + DIRENT))
      else mret None
  end.

Definition dirlookup (dp : nat) (name : list Z) : M (fstate DS) (option (nat * Z)) :=
  x ← geti dp;
  if negb (type (din x) =? T_DIR) then fail Panic
  else dirlookup_loop (S (Z.to_nat (dsize (din x)))) dp name 0.

(** dirlink's search for an empty entry. *)
Fixpoint find_empty (fuel : nat) (dp : nat) (off : Z) : M (fstate DS) Z :=
  match fuel with
  | O => fail OutOfFuel
  | S fuel' =>
      x ← geti dp;
      if off <? dsize (din x) then
        '(r, bs) ← readi dp off DIRENT;
        if negb (r =? DIRENT) then fail Panic else
        if d_inum (decode_dirent bs) =? 0 then mret off else find_empty fuel' dp (off + DIRENT)
      else mret off
  end.

Definition dirlink (dp : nat) (name : list Z) (n : Z) : M (fstate DS) Z :=
  r ← dirlookup dp name;
  match r with
  | Some (ip, _) => _ ← iput ip; mret (-1)
  | None =>
      x ← geti dp;
      off ← find_empty (S (Z.to_nat (dsize (din x)))) dp 0;
      nm ← lift (strncpy DIRSIZ name);
      w ← writei dp (encode_dirent (mkDirent (n mod 65536) nm)) off;
      if negb (w =? DIRENT) then fail Panic else mret 0
  end.

(** ** Path names *)
Fixpoint namex_loop (fuel : nat) (ip : nat) (path name : list Z) (nameiparent : bool) : M (fstate DS) (option nat * list Z) :=
  match fuel with
  | O => fail OutOfFuel
  | S fuel' =>
      r ← lift (skipelem path name);
      match r with
      | None => if nameiparent then _ ← iput ip; mret (None, name) else mret (Some ip, name)
      | Some (path, name) =>
          _ ← ilock ip;
          x ← geti ip;
          if negb (type (din x) =? T_DIR) then _ ← iunlockput ip; mret (None, name)
          else if nameiparent && (default 0 (head path) =? 0) then _ ← iunlock ip; mret (Some ip, name)
          else
          next ← dirlookup ip name;
          match next with
          | None => _ ← iunlockput ip; mret (None, name)
          | Some (next, _) => _ ← iunlockput ip; namex_loop fuel' next path name nameiparent
          end
      end
  end.

Definition namex (path : list Z) (nameiparent : bool) (name : list Z) (cwd : nat) : M (fstate DS) (option nat * list Z) :=
  match path with
  | [] => fail Undefined
  | c :: _ =>
      ip ← (if c =? SLASH then iget ROOTDEV ROOTINO else idup cwd);
      namex_loop (length path) ip path name nameiparent
  end.

Definition namei (path : list Z) (cwd : nat) : M (fstate DS) (option nat) :=
  '(r, _) ← namex path false (replicate DIRSIZ 0) cwd; mret r.
Definition nameiparent (path name : list Z) (cwd : nat) : M (fstate DS) (option nat * list Z) := namex path true name cwd.
End dir.

(** ** What names and paths mean *)

(** The name in a buffer of 14 bytes: up to the NUL. *)
Definition name_of (l : list Z) : list Z := until_nul (take DIRSIZ l).
(** A name of 14 bytes in C's sense: either NUL comes early or there are 14. *)
Definition is_name (l : list Z) : Prop := (DIRSIZ <= length l)%nat \/ 0 ∈ l.

(** The elements of a path before its NUL. *)
Fixpoint elements_from (cur path : list Z) : list (list Z) :=
  match path with
  | [] => if decide (cur = []) then [] else [cur]
  | c :: p => if c =? SLASH then (if decide (cur = []) then [] else [cur]) ++ elements_from [] p else elements_from (cur ++ [c]) p
  end.
Definition elements (path : list Z) : list (list Z) := elements_from [] path.

(** Entry [k] of a directory, and the entry with a name. *)
Definition entry_at (V : Z -> list Z) (d : dinode) (k : nat) : dirent := decode_dirent (take 16 (drop (16 * k) (file_bytes V d))).
Definition entries (V : Z -> list Z) (d : dinode) : list dirent := entry_at V d <$> seq 0 (Z.to_nat (dsize d / DIRENT)).
Definition named (nm : list Z) (e : dirent) : Prop := d_inum e <> 0 /\ name_of (d_name e) = nm.
#[export] Instance named_dec nm e : Decision (named nm e).
Proof. unfold named. apply _. Defined.
Definition dir_find (V : Z -> list Z) (d : dinode) (nm : list Z) : option (nat * dirent) := list_find (named nm) (entries V d).

(** From inode [i] along names. *)
Fixpoint walk (V : Z -> list Z) (I : Z -> dinode) (i : Z) (es : list (list Z)) : option Z :=
  match es with
  | [] => Some i
  | e :: es' => if type (I i) =? T_DIR then match dir_find V (I i) (take DIRSIZ e) with Some (_, d) => walk V I (d_inum d) es' | None => None end else None
  end.

(** ** Names *)
Definition bytes_ok (l : list Z) : Prop := Forall (fun c => 0 <= c < 256) l.
(** strncmp may read [n] bytes of [l]. *)
Definition readable (n : nat) (l : list Z) : Prop := (n <= length l)%nat \/ 0 ∈ l.

Lemma strncmp_spec n p q : bytes_ok p -> bytes_ok q -> readable n p -> readable n q ->
  exists r, strncmp n p q = Ok r /\ (r = 0 <-> until_nul (take n p) = until_nul (take n q)).
Proof.
  intros Hp. revert n q. induction Hp as [|a p Ha Hp IH]; intros [|n] q Hq Rp Rq; try (by exists 0).
  { destruct Rp as [Rp|Rp]; [cbn in Rp; lia|by apply elem_of_nil in Rp]. }
  destruct Hq as [|b q Hb Hq]; [destruct Rq as [Rq|Rq]; [cbn in Rq; lia|by apply elem_of_nil in Rq]|].
  cbn [strncmp take until_nul]. destruct (Z.eqb_spec a 0) as [->|Ha0]; cbn [negb andb].
  - eexists. split; [done|]. rewrite !Z.mod_small by lia. destruct (Z.eqb_spec b 0); split; try done; lia.
  - destruct (Z.eqb_spec a b) as [<-|Hab].
    + destruct (IH n q Hq) as (r & E & Hr).
      { destruct Rp as [Rp|Rp]; [left; cbn in Rp; lia|right; by apply elem_of_cons in Rp as [<-|]]. }
      { destruct Rq as [Rq|Rq]; [left; cbn in Rq; lia|right; by apply elem_of_cons in Rq as [<-|]]. }
      exists r. split; [done|]. rewrite (proj2 (Z.eqb_neq a 0)) by done. rewrite Hr. split; congruence.
    + eexists. split; [done|]. rewrite !Z.mod_small by lia. split; [lia|]. destruct (Z.eqb_spec b 0); congruence.
Qed.

Lemma namecmp_spec s t : bytes_ok s -> bytes_ok t -> readable DIRSIZ s -> readable DIRSIZ t ->
  exists r, namecmp s t = Ok r /\ (r = 0 <-> name_of s = name_of t).
Proof. apply strncmp_spec. Qed.

Lemma strncpy_spec n t : readable n t -> exists r, strncpy n t = Ok r /\ length r = n /\ until_nul r = until_nul (take n t).
Proof.
  revert t. induction n as [|n IH]; intros t Ht; [by exists []|]. cbn [strncpy]. destruct t as [|c t].
  { destruct Ht as [Ht|Ht]; [cbn in Ht; lia|by apply elem_of_nil in Ht]. }
  cbn [take until_nul]. destruct (Z.eqb_spec c 0) as [->|Hc].
  - exists (replicate (S n) 0). split; [done|]. split; [by rewrite length_replicate|done].
  - destruct (IH t) as (r & E & Hl & Hr); [destruct Ht as [Ht|Ht]; [left; cbn in Ht; lia|right; by apply elem_of_cons in Ht as [<-|]]|].
    exists (c :: r). rewrite E. split; [done|]. split; [cbn; lia|]. cbn. rewrite (proj2 (Z.eqb_neq c 0)) by done. by rewrite Hr.
Qed.

Lemma strncpy_bytes n t r : bytes_ok t -> strncpy n t = Ok r -> bytes_ok r.
Proof.
  intros Ht. revert n r. induction Ht as [|c t Hc Ht IH]; intros [|n] r E; cbn in E; try done; [injection E as <-; by constructor|injection E as <-; by constructor|].
  destruct (c =? 0); [injection E as <-; apply (Forall_replicate _ (S n)); lia|]. destruct (strncpy n t) eqn:E2; [|done]. injection E as <-. constructor; [done|by eapply IH].
Qed.

(** ** Elements of paths *)
Definition plain (l : list Z) : Prop := Forall (fun c => c <> SLASH) l.

Lemma elements_app cur e p : plain e -> match p with [] => True | c :: _ => c = SLASH end -> cur ++ e <> [] -> elements_from cur (e ++ p) = (cur ++ e) :: elements p.
Proof.
  intros He. revert cur. induction He as [|c e Hc He IH]; intros cur Hp Hne.
  - rewrite app_nil_r in *. destruct p as [|c p]; cbn; rewrite decide_False by done; [done|]. rewrite Hp. cbn. done.
  - cbn [app elements_from]. rewrite (proj2 (Z.eqb_neq c SLASH)) by done. rewrite IH; [by rewrite <-app_assoc|done|by destruct cur].
Qed.

Lemma skip_slashes_spec p t : exists p', skip_slashes (p ++ 0 :: t) = p' ++ 0 :: t /\ elements p' = elements p /\ (length p' <= length p)%nat /\
  (forall P : Z -> Prop, Forall P p -> Forall P p') /\ match p' with [] => True | c :: _ => c <> SLASH end.
Proof.
  induction p as [|c p (p' & E & He & Hl & HP & Hc)].
  - exists []. done.
  - cbn [skip_slashes app]. destruct (Z.eqb_spec c SLASH) as [->|Hne].
    + exists p'. split; [done|]. split; [by rewrite He|]. split; [cbn; lia|]. split; [|done]. intros P H. apply HP. by inversion H.
    + exists (c :: p). done.
Qed.

Lemma span_elem_spec p t : Forall (fun c => c <> 0) p -> exists e r, span_elem (p ++ 0 :: t) = (e, r ++ 0 :: t) /\ p = e ++ r /\ plain e /\
  match r with [] => True | c :: _ => c = SLASH end.
Proof.
  induction 1 as [|c p Hc Hp (e & r & E & -> & He & Hr)].
  - exists [], []. split; [done|]. split; [done|]. by split; [constructor|].
  - cbn [span_elem app]. rewrite (proj2 (Z.eqb_neq c 0)) by done. destruct (Z.eqb_spec c SLASH) as [->|Hne]; cbn [orb].
    + exists [], (SLASH :: e ++ r). split; [done|]. split; [done|]. by split; [constructor|].
    + rewrite E. exists (c :: e), r. split; [done|]. split; [done|]. by split; [constructor|].
Qed.

Lemma until_nul_app e t : Forall (fun c => c <> 0) e -> until_nul (e ++ t) = e ++ until_nul t.
Proof. induction 1 as [|c e Hc He IH]; [done|]. cbn. rewrite (proj2 (Z.eqb_neq c 0)) by done. by rewrite IH. Qed.
Lemma until_nul_id e : Forall (fun c => c <> 0) e -> until_nul e = e.
Proof. intros He. rewrite <-(app_nil_r e) at 1. by rewrite until_nul_app, app_nil_r. Qed.

(** What skipelem leaves in the buffer. *)
Definition put_name (s name : list Z) : list Z := if (DIRSIZ <=? length s)%nat then take DIRSIZ s ++ drop DIRSIZ name else s ++ 0 :: drop (S (length s)) name.

Lemma put_name_spec s name : Forall (fun c => c <> 0) s -> length name = DIRSIZ ->
  length (put_name s name) = DIRSIZ /\ name_of (put_name s name) = take DIRSIZ s.
Proof.
  intros Hs Hn. unfold put_name, name_of. destruct (Nat.leb_spec DIRSIZ (length s)) as [Hl|Hl].
  - rewrite drop_ge, app_nil_r by lia. split; [rewrite length_take; lia|]. rewrite take_take, Nat.min_id. apply until_nul_id. by apply Forall_take.
  - split; [rewrite length_app; cbn [length]; rewrite length_drop; lia|]. rewrite take_ge by (rewrite length_app; cbn [length]; rewrite length_drop; lia).
    rewrite until_nul_app by done. rewrite (take_ge s) by lia. cbn. by rewrite app_nil_r.
Qed.

Lemma put_name_bytes s name : bytes_ok s -> bytes_ok name -> bytes_ok (put_name s name).
Proof.
  intros Hs Hn. unfold put_name, bytes_ok. destruct (DIRSIZ <=? length s)%nat; apply Forall_app; split; try done; [by apply Forall_take|by apply Forall_drop|].
  constructor; [lia|by apply Forall_drop].
Qed.

(** skipelem takes the first element of a path. *)
Lemma skipelem_spec p t name : Forall (fun c => c <> 0) p -> match elements p with
  | [] => skipelem (p ++ 0 :: t) name = Ok None
  | e :: es => exists p', skipelem (p ++ 0 :: t) name = Ok (Some (p' ++ 0 :: t, put_name e name)) /\ elements p' = es /\ (length p' < length p)%nat /\
      (forall P : Z -> Prop, Forall P p -> Forall P p' /\ Forall P e) /\ (p' = [] <-> es = [])
  end.
Proof.
  intros Hp. destruct (skip_slashes_spec p t) as (p1 & E1 & He1 & Hl1 & HP1 & Hc1). rewrite <-He1. unfold skipelem. rewrite E1.
  pose proof (HP1 _ Hp) as Hp1. destruct p1 as [|c p1]; [done|]. cbn [app]. rewrite (proj2 (Z.eqb_neq c 0)) by (by inversion Hp1).
  destruct (span_elem_spec (c :: p1) t Hp1) as (e & r & E2 & Ep & He & Hr). change (c :: p1 ++ 0 :: t) with ((c :: p1) ++ 0 :: t). rewrite E2.
  assert (e <> []) as Hne by (intros ->; destruct r; [done|]; cbn in Ep; injection Ep as -> _; done).
  rewrite Ep. unfold elements. rewrite (elements_app [] e r) by done. cbn [app].
  destruct (skip_slashes_spec r t) as (r1 & E3 & He3 & Hl3 & HP3 & Hc3).
  assert (forall P : Z -> Prop, Forall P p -> Forall P r1 /\ Forall P e) as HP.
  { intros P H. apply HP1 in H. rewrite Ep in H. apply Forall_app in H as [? ?]. split; [by apply HP3|done]. }
  destruct (r ++ 0 :: t) as [|z zs] eqn:Er; [by destruct r|]. rewrite E3. exists r1. split; [done|]. split; [done|]. split; [|split; [done|]].
  - pose proof (f_equal length Ep) as HL. rewrite length_app in HL. assert (0 < length e)%nat by (destruct e; [done|cbn; lia]). lia.
  - rewrite <-He3. split; [by intros ->|]. intros H0. destruct r1 as [|d r1]; [done|]. exfalso. revert H0. unfold elements. cbn [elements_from].
    rewrite (proj2 (Z.eqb_neq d SLASH)) by done. cbn [app]. clear. generalize d. intros d'. assert (forall l cur, cur <> [] -> elements_from cur l <> []) as Hx; [|by apply Hx].
    induction l as [|c l IH]; intros cur Hc; cbn; [by rewrite decide_False|]. destruct (c =? SLASH); [by rewrite decide_False|]. apply IH. by destruct cur.
Qed.

(** ** dirlookup *)
Section lookup.
Context (V : Z -> list Z) (d : dinode).

Lemma file_bytes_range : bytes_ok (file_bytes V d).
Proof. apply Forall_fmap, Forall_true. intros k. apply get_byte_range. Qed.

Lemma length_file_bytes : length (file_bytes V d) = Z.to_nat (dsize d).
Proof. unfold file_bytes. by rewrite length_fmap, length_seqZ. Qed.

Lemma entry_name k : 16 * Z.of_nat k + 16 <= dsize d -> length (d_name (entry_at V d k)) = DIRSIZ /\ bytes_ok (d_name (entry_at V d k)).
Proof.
  intros Hk. unfold entry_at, decode_dirent. cbn [d_name]. split.
  - rewrite length_drop, length_take, length_drop, length_file_bytes. unfold DIRSIZ. lia.
  - apply Forall_drop, Forall_take, Forall_drop, file_bytes_range.
Qed.

Lemma entries_lookup k : 16 * Z.of_nat k + 16 <= dsize d -> entries V d !! k = Some (entry_at V d k).
Proof.
  intros Hk. unfold entries. rewrite list_lookup_fmap, lookup_seq_lt; [done|]. change DIRENT with 16. zlia.
Qed.

Lemma length_entries : 0 <= dsize d -> dsize d mod DIRENT = 0 -> 16 * Z.of_nat (length (entries V d)) = dsize d.
Proof. intros Hd Hm. unfold entries, DIRENT in *. rewrite length_fmap, length_seq. zlia. Qed.
End lookup.

Section dirlookup.
Context {DS : Type} `{HDS : Devsw DS} (sb : superblock) (l0 : log) (Hgeo : geo sb l0).
Implicit Types (s : fstate DS) (V : Z -> list Z) (I : Z -> dinode) (T : gset Z) (ip : nat) (l : log).

Lemma list_find_drop {A} (P : A -> Prop) `{!forall x, Decision (P x)} (l : list A) k x : l !! k = Some x ->
  list_find P (drop k l) = if decide (P x) then Some (0%nat, x) else prod_map S id <$> list_find P (drop (S k) l).
Proof. intros Hx. by rewrite (drop_S _ _ _ Hx). Qed.

(** One entry of a directory. *)
Lemma wp_read_entry s V I T ip x k (Q : Z * list Z -> fstate DS -> Prop) : in_file sb l0 s V I T ip x -> room l0 T -> type (din x) = T_DIR ->
  16 * Z.of_nat k + 16 <= dsize (din x) ->
  (forall l' bs, in_tx l0 l' V ∅ T -> decode_dirent bs = entry_at V (din x) k -> Q (DIRENT, bs) (set_flog l' s)) ->
  wp (readi ip (16 * Z.of_nat k) DIRENT) s Q.
Proof.
  intros Hf Hroom Ht Hk HQ. pose proof Hf as [_ _ _ _ Hi HI Hwf]. pose proof (fi_size _ (fw_fields _ _ _ Hwf _ Hi)) as Hsz. rewrite HI in Hsz.
  rewrite maxfile_eq in Hsz. unfold BSIZE in Hsz.
  eapply wp_mono; [apply (wp_readi sb l0 Hgeo s V I T ip x (16 * Z.of_nat k) DIRENT); try done; try (unfold DIRENT; unfold_bounds; lia)|].
  { rewrite Ht. done. }
  intros r s' (l' & -> & -> & Hl'). replace (Z.to_nat (16 * Z.of_nat k)) with (16 * k)%nat by lia. change (Z.to_nat DIRENT) with 16%nat.
  rewrite length_take, length_drop, length_file_bytes. replace (Z.of_nat (16 `min` (Z.to_nat (dsize (din x)) - 16 * k))) with DIRENT by (unfold DIRENT; lia).
  by apply HQ.
Qed.

Lemma wp_dirlookup_loop fuel s V I T ip x name k (Q : option (nat * Z) -> fstate DS -> Prop) : in_file sb l0 s V I T ip x -> room l0 T ->
  type (din x) = T_DIR -> dsize (din x) mod DIRENT = 0 -> bytes_ok name -> readable DIRSIZ name ->
  16 * Z.of_nat k <= dsize (din x) -> dsize (din x) - 16 * Z.of_nat k < 16 * Z.of_nat fuel ->
  (forall l', in_tx l0 l' V ∅ T -> match list_find (named (name_of name)) (drop k (entries V (din x))) with
    | None => Q None (set_flog l' s)
    | Some (j, e) => wp (iget (idev x) (d_inum e)) (set_flog l' s) (fun ip' => Q (Some (ip', 16 * Z.of_nat (k + j))))
    end) ->
  wp (dirlookup_loop fuel ip name (16 * Z.of_nat k)) s Q.
Proof.
  revert s k. induction fuel as [|fuel IH]; intros s k Hf Hroom Ht Hm Hn1 Hn2 Hk Hfuel HQ; [lia|]. cbn [dirlookup_loop].
  pose proof Hf as [Hsb Hl Hx Hdev Hi HI Hwf]. pose proof (fi_size _ (fw_fields _ _ _ Hwf _ Hi)) as Hsz. rewrite HI in Hsz.
  wp_step. eapply wp_geti; [done|]. destruct (Z.ltb_spec (16 * Z.of_nat k) (dsize (din x))) as [Hlt|Hge].
  2:{ wp_step. specialize (HQ (flog s) Hl). rewrite drop_ge in HQ; [by destruct s|]. pose proof (length_entries V (din x) ltac:(lia) Hm). lia. }
  assert (16 * Z.of_nat k + 16 <= dsize (din x)) as Hk16 by (unfold DIRENT in Hm; zlia).
  wp_step. eapply wp_read_entry; try done. intros l1 bs H1 Hbs. rewrite Z.eqb_refl. cbn [negb]. rewrite Hbs.
  assert (u32 (16 * Z.of_nat k + DIRENT) = 16 * Z.of_nat (S k)) as ->.
  { rewrite u32_id; [unfold DIRENT; lia|]. rewrite maxfile_eq in Hsz. unfold BSIZE in Hsz. unfold DIRENT, UINT_MOD. lia. }
  assert (in_file sb l0 (set_flog l1 s) V I T ip x) as Hf1 by (by split).
  set (e := entry_at V (din x) k) in *. destruct (entry_name V (din x) k Hk16) as [Hel Heb]. fold e in Hel, Heb.
  assert (~ named (name_of name) e -> wp (dirlookup_loop fuel ip name (16 * Z.of_nat (S k))) (set_flog l1 s) Q) as Hnext.
  { intros Hno. apply IH; try done; [lia|lia|]. intros l2 H2. specialize (HQ l2 H2).
    rewrite (list_find_drop _ _ k e), decide_False in HQ by (done || by apply entries_lookup).
    destruct (list_find _ (drop (S k) _)) as [[j e']|]; [|exact HQ]. cbn [fmap option_fmap option_map prod_map fst snd] in HQ.
    replace (S k + j)%nat with (k + S j)%nat by lia. exact HQ. }
  destruct (Z.eqb_spec (d_inum e) 0) as [H0|H0]; [apply Hnext; intros [? _]; done|].
  destruct (namecmp_spec name (d_name e) Hn1 Heb Hn2 (or_introl (Nat.eq_le_incl _ _ (eq_sym Hel)))) as (r & Er & Hr).
  wp_step. eapply wp_lift; [exact Er|]. destruct (Z.eqb_spec r 0) as [->|Hr0].
  - wp_step. specialize (HQ l1 H1). rewrite (list_find_drop _ _ k e), decide_True in HQ; [|split; [done|symmetry; by apply Hr]|by apply entries_lookup].
    rewrite Nat.add_0_r in HQ. eapply wp_mono; [exact HQ|]. intros ip' s' HQ'. by wp_step.
  - apply Hnext. intros [_ He]. apply Hr0, Hr. done.
Qed.

Lemma wp_dirlookup s V I T ip x name (Q : option (nat * Z) -> fstate DS -> Prop) : in_file sb l0 s V I T ip x -> room l0 T ->
  type (din x) = T_DIR -> dsize (din x) mod DIRENT = 0 -> bytes_ok name -> readable DIRSIZ name ->
  (forall l', in_tx l0 l' V ∅ T -> match dir_find V (din x) (name_of name) with
    | None => Q None (set_flog l' s)
    | Some (j, e) => wp (iget 1 (d_inum e)) (set_flog l' s) (fun ip' => Q (Some (ip', 16 * Z.of_nat j)))
    end) ->
  wp (dirlookup ip name) s Q.
Proof.
  intros Hf Hroom Ht Hm Hn1 Hn2 HQ. pose proof Hf as [_ _ Hx Hdev Hi HI Hwf]. pose proof (fi_size _ (fw_fields _ _ _ Hwf _ Hi)) as Hsz. rewrite HI in Hsz.
  unfold dirlookup. wp_step. eapply wp_geti; [done|]. rewrite Ht, Z.eqb_refl. cbn [negb].
  apply (wp_dirlookup_loop _ s V I T ip x name 0); try done; [lia|lia|]. rewrite Hdev. exact HQ.
Qed.
End dirlookup.

(** ** References to inodes

    The table as the inode operations leave it, when the entry [L], if any, is
    locked. *)
Record icache_lk (sb : superblock) (t : list inode) (I : Z -> dinode) (L : list nat) : Prop := {
  lk_ok : icache_ok sb (set_ilocked false <$> t) I;
  lk_owner : forall ip x, t !! ip = Some x -> ilocked x = bool_decide (ip ∈ L)
}.
(** References to inode [n], and entries not in use. *)
Definition refs_in (n : Z) (x : inode) : nat := if inum x =? n then Z.to_nat (iref x) else 0%nat.
Definition refs (t : list inode) (n : Z) : nat := sumf (refs_in n) t.
Definition unused (x : inode) : nat := if iref x =? 0 then 1%nat else 0%nat.
Definition free_entries (t : list inode) : nat := sumf unused t.

(** Entry [ip] refers to inode [n]. *)
Definition refers (t : list inode) (ip : nat) (n : Z) : Prop := exists x, t !! ip = Some x /\ inum x = n /\ 0 < iref x.

Section table.
Context (sb : superblock).
Implicit Types (I : Z -> dinode) (t : list inode) (ip : nat) (L : list nat).

Lemma unlock_id t I : icache_ok sb t I -> set_ilocked false <$> t = t.
Proof.
  intros [_ _ _ D]. apply list_eq. intros ip. rewrite list_lookup_fmap. destruct (t !! ip) as [x|] eqn:Hx; [|done].
  cbn. f_equal. destruct x. cbn. by rewrite <-(D ip _ Hx).
Qed.

Lemma icache_lk_none t I : icache_lk sb t I [] <-> icache_ok sb t I.
Proof.
  split.
  - intros [H1 H2]. assert (set_ilocked false <$> t = t) as E; [|by rewrite E in H1]. apply list_eq. intros ip. rewrite list_lookup_fmap.
    destruct (t !! ip) as [x|] eqn:Hx; [|done]. cbn. f_equal. specialize (H2 ip _ Hx). rewrite bool_decide_eq_false_2 in H2 by apply not_elem_of_nil. destruct x. cbn in *. by rewrite H2.
  - intros H. split; [by rewrite (unlock_id t I)|]. intros ip x Hx. rewrite (ic_unlocked _ _ _ H ip x Hx). symmetry. apply bool_decide_eq_false_2, not_elem_of_nil.
Qed.

(** An entry changes but for its lock. *)
Lemma icache_lk_insert t I L ip y : icache_lk sb t I L -> icache_ok sb (<[ip := set_ilocked false y]> (set_ilocked false <$> t)) I ->
  ilocked y = bool_decide (ip ∈ L) -> icache_lk sb (<[ip := y]> t) I L.
Proof.
  intros [H1 H2] Ho Hl. split; [by rewrite list_fmap_insert|]. intros ip' z Hz.
  apply list_lookup_insert_Some in Hz as [(<- & <- & _)|(_ & Hz)]; [done|by apply H2].
Qed.

(** The lock of an entry changes hands. *)
Lemma icache_lk_lock t I L L' ip x : icache_lk sb t I L -> t !! ip = Some x ->
  (forall j, j <> ip -> (j ∈ L <-> j ∈ L')) -> icache_lk sb (<[ip := set_ilocked (bool_decide (ip ∈ L')) x]> t) I L'.
Proof.
  intros [H1 H2] Hx HL. split.
  - rewrite list_fmap_insert. cbn. rewrite list_insert_id; [done|]. by rewrite list_lookup_fmap, Hx.
  - intros ip' z Hz. apply list_lookup_insert_Some in Hz as [(<- & <- & _)|(Hne & Hz)]; [done|]. rewrite (H2 ip' z Hz).
    apply bool_decide_ext, HL. congruence.
Qed.

Lemma lk_used t I L ip x : icache_lk sb t I L -> t !! ip = Some x -> 0 < iref x ->
  idev x = 1 /\ inode_no sb (inum x) /\ (ivalid x = true -> din x = I (inum x)).
Proof. intros [H1 _] Hx Hr. apply (ic_used _ _ _ H1 ip (set_ilocked false x)); [by rewrite list_lookup_fmap, Hx|done]. Qed.

Lemma lk_ref t I L ip x : icache_lk sb t I L -> t !! ip = Some x -> 0 <= iref x.
Proof. intros [H1 _] Hx. apply (ic_ref _ _ _ H1 ip (set_ilocked false x)). by rewrite list_lookup_fmap, Hx. Qed.

Lemma lk_uniq t I L ip x ip' x' : icache_lk sb t I L -> t !! ip = Some x -> t !! ip' = Some x' -> 0 < iref x -> 0 < iref x' -> inum x = inum x' -> ip = ip'.
Proof.
  intros [H1 _] Hx Hx' Hr Hr' He. apply (ic_uniq _ _ _ H1 ip (set_ilocked false x) ip' (set_ilocked false x')); try done.
  - by rewrite list_lookup_fmap, Hx.
  - by rewrite list_lookup_fmap, Hx'.
Qed.

Lemma refs_insert t ip x y n : t !! ip = Some x -> (refs (<[ip := y]> t) n + refs_in n x = refs t n + refs_in n y)%nat.
Proof. apply sumf_insert. Qed.
Lemma free_insert t ip x y : t !! ip = Some x -> (free_entries (<[ip := y]> t) + unused x = free_entries t + unused y)%nat.
Proof. apply sumf_insert. Qed.

(** The references to an inode are counted by its one entry. *)
Lemma refs_entry t I L ip x : icache_lk sb t I L -> t !! ip = Some x -> 0 < iref x -> refs t (inum x) = Z.to_nat (iref x).
Proof.
  intros H Hx Hr. pose proof (refs_insert t ip x zero_inode (inum x) Hx) as Hs.
  assert (refs (<[ip := zero_inode]> t) (inum x) = 0%nat) as H0.
  { apply sumf_const0. intros y Hy. apply list_elem_of_lookup in Hy as [j Hj]. unfold refs_in. destruct (Z.eqb_spec (inum y) (inum x)) as [He|]; [|done].
    apply list_lookup_insert_Some in Hj as [(_ & <- & _)|(Hne & Hj)]; [done|]. pose proof (lk_ref t I L j y H Hj). destruct (decide (iref y = 0)) as [->|]; [done|].
    exfalso. apply Hne. by eapply (lk_uniq t I L ip x j y); try done; lia. }
  rewrite H0 in Hs. unfold refs_in in Hs. rewrite Z.eqb_refl in Hs. cbn [inum iref zero_inode] in Hs. destruct (0 =? inum x); lia.
Qed.

Lemma refs_refers t I L ip n : icache_lk sb t I L -> refers t ip n -> (0 < refs t n)%nat.
Proof. intros H (x & Hx & <- & Hr). rewrite (refs_entry t I L ip x H Hx Hr). lia. Qed.
End table.

(** Entry [ip] has one reference more, for inode [n]. *)
Record got (t t' : list inode) (ip : nat) (n : Z) : Prop := {
  got_refers : refers t' ip n;
  got_refs : forall m, refs t' m = (refs t m + if (m =? n)%Z then 1 else 0)%nat;
  got_free : free_entries t = (free_entries t' + if decide (refs t n = 0%nat) then 1 else 0)%nat;
  got_kept : forall j m, j <> ip -> refers t j m <-> refers t' j m;
  got_entry : forall m, refers t ip m <-> m = n /\ (0 < refs t n)%nat
}.

Lemma refers_inj t ip n m : refers t ip n -> refers t ip m -> n = m.
Proof. intros (x & Hx & <- & _) (y & Hy & <- & _). congruence. Qed.

Lemma refers_insert_ne t ip y j m : j <> ip -> refers t j m <-> refers (<[ip := y]> t) j m.
Proof. intros Hj. unfold refers. by rewrite list_lookup_insert_ne. Qed.

Lemma got_shared sb t I L ip x n : icache_lk sb t I L -> t !! ip = Some x -> inum x = n -> 0 < iref x -> let t' := <[ip := set_iref (iref x + 1) x]> t in
  icache_lk sb t' I L /\ got t t' ip n.
Proof.
  intros H Hx Hn Hr t'. pose proof (lookup_lt_Some _ _ _ Hx) as Hlt. split.
  - apply icache_lk_insert; [done| |by apply (lk_owner _ _ _ _ H ip x)]. change (set_ilocked false (set_iref (iref x + 1) x)) with (set_iref (iref x + 1) (set_ilocked false x)).
    apply icache_shared; [by apply H|by rewrite list_lookup_fmap, Hx|done|lia].
  - pose proof (refs_entry sb t I L ip x H Hx Hr) as Hrefs. split.
    + exists (set_iref (iref x + 1) x). split; [by apply list_lookup_insert_eq|]. split; [done|]. cbn. lia.
    + intros m. pose proof (refs_insert t ip x (set_iref (iref x + 1) x) m Hx) as Hs. unfold refs_in in Hs. cbn [inum iref set_iref] in Hs. rewrite Hn in Hs. fold t' in Hs.
      destruct (Z.eqb_spec m n) as [->|Hne]; [rewrite Z.eqb_refl in Hs; lia|]. rewrite (proj2 (Z.eqb_neq n m)) in Hs by congruence. lia.
    + pose proof (free_insert t ip x (set_iref (iref x + 1) x) Hx) as Hs. fold t' in Hs. unfold unused in Hs. cbn [iref set_iref] in Hs.
      rewrite (proj2 (Z.eqb_neq (iref x) 0)), (proj2 (Z.eqb_neq (iref x + 1) 0)) in Hs by lia. rewrite decide_False; [lia|]. rewrite <-Hn. lia.
    + intros j m Hj. by apply refers_insert_ne.
    + intros m. split; [intros (y & Hy & <- & _); assert (y = x) as -> by congruence; split; [done|rewrite <-Hn; lia]|intros [-> _]; by exists x].
Qed.

Lemma got_opened sb t I L ip x n : icache_lk sb t I L -> t !! ip = Some x -> iref x = 0 -> inode_no sb n -> refs t n = 0%nat ->
  let t' := <[ip := mkInode 1 n 1 (ilocked x) false (din x)]> t in icache_lk sb t' I L /\ got t t' ip n.
Proof.
  intros H Hx Hr Hn H0 t'. pose proof (lookup_lt_Some _ _ _ Hx) as Hlt. set (y := mkInode _ _ _ _ _ _) in t'. split.
  - apply icache_lk_insert; [done| |by apply (lk_owner _ _ _ _ H ip x)].
    apply (icache_opened sb (set_ilocked false <$> t) I ip (set_ilocked false x) n); [by apply H|by rewrite list_lookup_fmap, Hx|done|done|].
    intros z Hz Hrz Hzn. apply list_elem_of_lookup in Hz as [j Hj]. rewrite list_lookup_fmap in Hj. destruct (t !! j) as [w|] eqn:Hw; [|done].
    cbn in Hj. injection Hj as <-. pose proof (refs_refers sb t I L j n H) as Hp. assert (refers t j n) as Hq by (by exists w). specialize (Hp Hq). lia.
  - split.
    + exists y. by split; [apply list_lookup_insert_eq|].
    + intros m. pose proof (refs_insert t ip x y m Hx) as Hs. unfold refs_in in Hs. rewrite Hr in Hs. cbn in Hs. fold t' in Hs.
      destruct (Z.eqb_spec m n) as [->|Hne]; [rewrite Z.eqb_refl in Hs; destruct (inum x =? n); lia|]. rewrite (proj2 (Z.eqb_neq n m)) in Hs by congruence. destruct (inum x =? m); lia.
    + pose proof (free_insert t ip x y Hx) as Hs. fold t' in Hs. unfold unused in Hs. rewrite Hr in Hs. cbn in Hs. rewrite decide_True by done. lia.
    + intros j m Hj. by apply refers_insert_ne.
    + intros m. split; [intros (z & Hz & _ & Hrz); assert (z = x) as -> by congruence; lia|intros [_ ?]; lia].
Qed.

Section table_ops.
Context {DS : Type} `{HDS : Devsw DS} (sb : superblock).
Implicit Types (s : fstate DS) (I : Z -> dinode) (t : list inode) (ip : nat) (L : list nat).

Lemma wp_add_ref s ip x (Q : nat -> fstate DS -> Prop) : icache s !! ip = Some x -> 0 <= iref x < INT_MAX ->
  Q ip (set_icache (<[ip := set_iref (iref x + 1) x]> (icache s)) s) ->
  wp (x ← geti ip; r ← lift (sint (iref x + 1)); _ ← updi ip (set_iref r); mret ip) s Q.
Proof.
  intros Hx Hr HQ. wp_step. eapply wp_geti; [done|]. wp_step. eapply wp_lift; [rewrite sint_ok; [done|unfold_bounds; lia]|].
  wp_step. eapply wp_updi; [done|]. by wp_step.
Qed.

Lemma wp_idup s I L ip n (Q : nat -> fstate DS -> Prop) : icache_lk sb (icache s) I L -> refers (icache s) ip n -> Z.of_nat (refs (icache s) n) < INT_MAX ->
  (forall t', icache_lk sb t' I L -> got (icache s) t' ip n -> Q ip (set_icache t' s)) -> wp (idup ip) s Q.
Proof.
  intros H (x & Hx & Hn & Hr) Hmax HQ. rewrite <-Hn, (refs_entry sb _ I L ip x H Hx Hr) in Hmax. eapply wp_add_ref; [done|lia|].
  destruct (got_shared sb _ I L ip x n H Hx Hn Hr). by apply HQ.
Qed.

Lemma wp_iget s I L n (Q : nat -> fstate DS -> Prop) : icache_lk sb (icache s) I L -> inode_no sb n -> Z.of_nat (refs (icache s) n) < INT_MAX ->
  (0 < refs (icache s) n + free_entries (icache s))%nat ->
  (forall ip t', icache_lk sb t' I L -> got (icache s) t' ip n -> Q ip (set_icache t' s)) -> wp (iget 1 n) s Q.
Proof.
  intros H Hn Hmax Hfree HQ. pose proof (iget_scan_spec (icache s) 0 None 1 n) as Hsc. unfold iget. wp_step. wp_step.
  destruct (iget_scan (icache s) 0 None 1 n) as [[k|] e]; cbn [fst snd] in Hsc.
  - destruct Hsc as (x & _ & Hx & Hr & _ & Hxn). rewrite Nat.sub_0_r in Hx. eapply (wp_idup s I L k n); [done|by exists x|done|]. intros t' Ht1 Ht2. by apply HQ.
  - destruct Hsc as [Hno He]. assert (refs (icache s) n = 0%nat) as H0.
    { apply sumf_const0. intros y Hy. unfold refs_in. destruct (Z.eqb_spec (inum y) n) as [E|]; [|done]. destruct (decide (0 < iref y)) as [Hp|]; [|lia].
      exfalso. eapply Hno; [done|done| |done]. apply list_elem_of_lookup in Hy as [j Hj]. by apply (lk_used sb _ I L j y H). }
    destruct e as [k|].
    + destruct He as [He|(x & _ & Hx & Hr)]; [done|]. rewrite Nat.sub_0_r in Hx. wp_step. eapply wp_updi; [done|]. wp_step.
      destruct (got_opened sb _ I L k x n H Hx Hr Hn H0). by apply HQ.
    + exfalso. destruct He as [_ He]. assert (free_entries (icache s) = 0%nat); [|lia]. apply sumf_const0. intros y Hy. unfold unused.
      by rewrite (proj2 (Z.eqb_neq _ _)) by (by apply He).
Qed.

(** The entry with one reference less. *)
Lemma got_put t I L ip x n : icache_lk sb t I L -> t !! ip = Some x -> inum x = n -> 0 < iref x -> got (<[ip := set_iref (iref x - 1) x]> t) t ip n.
Proof.
  intros H Hx Hn Hr. pose proof (lookup_lt_Some _ _ _ Hx) as Hlt. set (t' := <[ip := set_iref (iref x - 1) x]> t).
  split.
  - by exists x.
  - intros m. pose proof (refs_insert _ ip x (set_iref (iref x - 1) x) m Hx) as Hs. unfold refs_in in Hs. cbn [inum iref set_iref] in Hs. rewrite Hn in Hs. fold t' in Hs.
    destruct (Z.eqb_spec m n) as [->|Hne]; [rewrite Z.eqb_refl in Hs; lia|]. rewrite (proj2 (Z.eqb_neq n m)) in Hs by congruence. lia.
  - pose proof (free_insert _ ip x (set_iref (iref x - 1) x) Hx) as Hs. fold t' in Hs. unfold unused in Hs. cbn [iref set_iref] in Hs.
    rewrite (proj2 (Z.eqb_neq (iref x) 0)) in Hs by lia.
    pose proof (refs_insert _ ip x (set_iref (iref x - 1) x) n Hx) as Hs2. unfold refs_in in Hs2. cbn [inum iref set_iref] in Hs2. rewrite Hn, Z.eqb_refl in Hs2. fold t' in Hs2.
    pose proof (refs_entry sb _ I L ip x H Hx Hr) as Hre. rewrite Hn in Hre.
    destruct (Z.eqb_spec (iref x - 1) 0); case_decide; lia.
  - intros j m Hj. symmetry. by apply refers_insert_ne.
  - pose proof (refs_insert _ ip x (set_iref (iref x - 1) x) n Hx) as Hs2. unfold refs_in in Hs2. cbn [inum iref set_iref] in Hs2. rewrite Hn, Z.eqb_refl in Hs2. fold t' in Hs2.
    pose proof (refs_entry sb _ I L ip x H Hx Hr) as Hre. rewrite Hn in Hre. intros m. unfold refers, t' at 1. rewrite list_lookup_insert_eq by done. split.
    + intros (y & Hy & <- & Hry). injection Hy as <-. cbn in Hry. split; [done|lia].
    + intros [-> Hp]. exists (set_iref (iref x - 1) x). split; [done|]. split; [done|]. cbn [iref set_iref]. lia.
Qed.

(** iput, when the inode is not the last reference to a file without links. *)
Lemma wp_iput s I L ip n (Q : unit -> fstate DS -> Prop) : icache_lk sb (icache s) I L -> refers (icache s) ip n -> ip ∉ L ->
  Z.of_nat (refs (icache s) n) <= INT_MAX -> nlink (I n) <> 0 \/ (2 <= refs (icache s) n)%nat ->
  (forall t', icache_lk sb t' I L -> got t' (icache s) ip n -> (forall j, j <> ip -> t' !! j = icache s !! j) -> Q tt (set_icache t' s)) -> wp (iput ip) s Q.
Proof.
  intros H (x & Hx & Hn & Hr) HL Hmax Hnl HQ. pose proof (lookup_lt_Some _ _ _ Hx) as Hlt. rewrite <-Hn in Hmax, Hnl. rewrite (refs_entry sb _ I L ip x H Hx Hr) in *.
  assert (ilocked x = false) as Hlk by (rewrite (lk_owner _ _ _ _ H ip x Hx); by apply bool_decide_eq_false_2).
  unfold iput, acquirei. wp_step. wp_step. eapply wp_geti; [done|]. rewrite Hlk. eapply wp_updi; [done|]. set (x1 := set_ilocked true x). set (s1 := set_icache _ s).
  assert (icache s1 !! ip = Some x1) as Hx1 by (by apply list_lookup_insert_eq).
  wp_step. eapply wp_geti; [exact Hx1|]. wp_step. assert (ivalid x1 && (nlink (din x1) =? 0) && (iref x1 =? 1) = false) as ->.
  { cbn [ivalid din iref x1 set_ilocked]. destruct (ivalid x) eqn:Ev; [|done]. destruct (lk_used sb _ I L ip x H Hx Hr) as (_ & _ & Hd). rewrite (Hd Ev).
    cbn [andb]. apply andb_false_iff. destruct Hnl; [left; apply Z.eqb_neq; done|right; apply Z.eqb_neq; lia]. }
  wp_step. wp_step. eapply wp_updi; [exact Hx1|]. set (x2 := set_ilocked false x1). assert (x2 = x) as E2 by (destruct x; cbn in Hlk; by subst).
  set (s2 := set_icache _ s1). assert (icache s2 = icache s) as Es2 by (unfold s2; cbn; rewrite E2, list_insert_insert_eq; by apply list_insert_id).
  wp_step. eapply wp_geti; [by rewrite Es2|]. wp_step. eapply wp_lift; [rewrite sint_ok; [done|unfold_bounds; lia]|].
  eapply wp_updi; [by rewrite Es2|]. rewrite Es2. set (t' := <[ip := set_iref (iref x - 1) x]> (icache s)).
  assert (set_icache t' s2 = set_icache t' s) as -> by done. apply HQ.
  - apply icache_lk_insert; [done| |by apply (lk_owner _ _ _ _ H ip x)]. change (set_ilocked false (set_iref (iref x - 1) x)) with (set_iref (iref x - 1) (set_ilocked false x)).
    apply icache_shared; [by apply H|by rewrite list_lookup_fmap, Hx|done|lia].
  - by eapply got_put.
  - intros j Hj. by apply list_lookup_insert_ne.
Qed.

(** Taking and releasing the lock. *)
Lemma lk_locked t I L ip x : icache_lk sb t I L -> t !! ip = Some x -> 0 < iref x ->
  icache_lk sb (<[ip := locked_inode x (I (inum x))]> t) I (ip :: L).
Proof.
  intros H Hx Hr. split.
  - rewrite list_fmap_insert. apply (icache_changed sb (set_ilocked false <$> t) I I ip (set_ilocked false x)); [by apply H|by rewrite list_lookup_fmap, Hx|done|done].
  - intros j y Hy. apply list_lookup_insert_Some in Hy as [(<- & <- & _)|(Hne & Hy)]; [by rewrite bool_decide_eq_true_2 by apply list_elem_of_here|].
    rewrite (lk_owner _ _ _ _ H j y Hy). apply bool_decide_ext. rewrite elem_of_cons. naive_solver.
Qed.

Lemma lk_unlocked t I L ip x : icache_lk sb t I (ip :: L) -> ip ∉ L -> t !! ip = Some x -> icache_lk sb (<[ip := set_ilocked false x]> t) I L.
Proof.
  intros H HL Hx. pose proof (icache_lk_lock sb t I (ip :: L) L ip x H Hx) as Hu. rewrite (bool_decide_eq_false_2 (ip ∈ L)) in Hu by done. apply Hu.
  intros j Hj. rewrite elem_of_cons. naive_solver.
Qed.

(** The order of the locks does not matter. *)
Lemma lk_perm t I L L' : icache_lk sb t I L -> (forall j, j ∈ L <-> j ∈ L') -> icache_lk sb t I L'.
Proof. intros [H1 H2] HL. split; [done|]. intros ip x Hx. rewrite (H2 ip x Hx). by apply bool_decide_ext. Qed.

(** Locking and unlocking count no references. *)
Record same_refs t t' : Prop := {
  sr_refs : forall n, refs t' n = refs t n;
  sr_free : free_entries t' = free_entries t;
  sr_refers : forall j n, refers t' j n <-> refers t j n
}.

Lemma same_refs_insert t ip x y : t !! ip = Some x -> inum y = inum x -> iref y = iref x -> same_refs t (<[ip := y]> t).
Proof.
  intros Hx E1 E2. split.
  - intros n. pose proof (refs_insert t ip x y n Hx) as H. unfold refs_in in H. rewrite E1, E2 in H. lia.
  - pose proof (free_insert t ip x y Hx) as H. unfold unused in H. rewrite E2 in H. lia.
  - intros j n. destruct (decide (j = ip)) as [->|Hne]; [|symmetry; by apply refers_insert_ne].
    pose proof (lookup_lt_Some _ _ _ Hx). unfold refers. rewrite list_lookup_insert_eq by done. split; intros (z & Hz & Hn & Hr).
    + injection Hz as <-. exists x. by rewrite <-E1, <-E2.
    + assert (z = x) as -> by congruence. exists y. by rewrite E1, E2.
Qed.

Lemma got_same t t1 t' ip n : same_refs t t1 -> got t' t1 ip n -> got t' t ip n.
Proof.
  intros [S1 S2 S3] [A B C D E]. split.
  - by apply S3.
  - intros m. rewrite <-S1. apply B.
  - by rewrite <-S2.
  - intros j m Hj. rewrite <-S3. by apply D.
  - done.
Qed.

(** iunlockput gives one reference back. *)
Lemma wp_iunlockput s I L ip n (Q : unit -> fstate DS -> Prop) : icache_lk sb (icache s) I (ip :: L) -> ip ∉ L -> refers (icache s) ip n ->
  Z.of_nat (refs (icache s) n) <= INT_MAX -> nlink (I n) <> 0 \/ (2 <= refs (icache s) n)%nat ->
  (forall t', icache_lk sb t' I L -> got t' (icache s) ip n -> (forall j, j <> ip -> t' !! j = icache s !! j) -> Q tt (set_icache t' s)) -> wp (iunlockput ip) s Q.
Proof.
  intros H HL Hrf Hmax Hnl HQ. pose proof Hrf as (x & Hx & Hn & Hr). assert (ilocked x = true) as Hl by (rewrite (lk_owner _ _ _ _ H ip x Hx); apply bool_decide_eq_true_2, list_elem_of_here).
  unfold iunlockput. wp_step. eapply wp_iunlock; [done|done|done|]. pose proof (same_refs_insert _ ip x (set_ilocked false x) Hx eq_refl eq_refl) as Hs.
  eapply (wp_iput _ I L ip n); [exact (lk_unlocked _ _ _ _ _ H HL Hx)|by apply Hs|done|cbn [icache set_icache]; rewrite (sr_refs _ _ Hs)..|]; [done|done|].
  intros t' Ht' Hg Hoth. apply HQ; [done|by eapply got_same|]. intros j Hj. rewrite Hoth by done. cbn. by apply list_lookup_insert_ne.
Qed.
End table_ops.

(** ** Following a path *)

(** What a lookup relies on: the entries of directories name inodes in use, and
    directories hold whole entries. *)
Record dirs_ok (sb : superblock) (V : Z -> list Z) (I : Z -> dinode) : Prop := {
  do_size : forall i, inode_no sb i -> type (I i) = T_DIR -> dsize (I i) mod DIRENT = 0;
  do_entry : forall i e, inode_no sb i -> type (I i) = T_DIR -> e ∈ entries V (I i) -> d_inum e <> 0 ->
    inode_no sb (d_inum e) /\ type (I (d_inum e)) <> 0 /\ nlink (I (d_inum e)) <> 0
}.

(** The directory that holds the last element of a path, and that element. *)
Definition walk_parent (V : Z -> list Z) (I : Z -> dinode) (i : Z) (es : list (list Z)) : option (Z * list Z) :=
  match last es with
  | None => None
  | Some e => match walk V I i (List.removelast es) with
      | Some d => if type (I d) =? T_DIR then Some (d, take DIRSIZ e) else None
      | None => None
      end
  end.

Section namex.
Context {DS : Type} `{HDS : Devsw DS} (sb : superblock) (l0 : log) (Hgeo : geo sb l0).
Context (V : Z -> list Z) (I : Z -> dinode) (T : gset Z) (Hwf : fs_wf sb V I) (Hsync : synced sb V I (fun _ => False)) (Hdirs : dirs_ok sb V I) (Hroom : room l0 T).
Implicit Types (s : fstate DS) (t : list inode) (ip : nat) (l : log).

Lemma dir_find_entry i nm j e : inode_no sb i -> type (I i) = T_DIR -> dir_find V (I i) nm = Some (j, e) ->
  inode_no sb (d_inum e) /\ type (I (d_inum e)) <> 0 /\ nlink (I (d_inum e)) <> 0.
Proof.
  intros Hi Ht He. apply list_find_Some in He as (He & [Hn _] & _). eapply (do_entry _ _ _ Hdirs i e); try done. by eapply list_elem_of_lookup_2.
Qed.

(** The table [t] holds what [t0] does, and a reference to the inode [w] more. *)
Record carries (t0 t : list inode) (w : option Z) : Prop := {
  ca_refs : forall m, refs t m = (refs t0 m + if decide (w = Some m) then 1 else 0)%nat;
  ca_kept : forall j m, refers t0 j m -> refers t j m;
  ca_free : free_entries t0 = (free_entries t + match w with Some m => if decide (refs t0 m = 0%nat) then 1 else 0 | None => 0 end)%nat
}.

Lemma carries_refl t : carries t t None.
Proof. split; [|done|lia]. intros m. rewrite decide_False by done. lia. Qed.

Lemma carries_got t0 t t' ip n : carries t0 t None -> got t t' ip n -> carries t0 t' (Some n).
Proof.
  intros [A B A3] [C D E F G]. split.
  - intros m. rewrite D, A. rewrite decide_False by done. destruct (Z.eqb_spec m n) as [->|Hne]; [rewrite decide_True by done|rewrite decide_False by congruence]; lia.
  - intros j m Hj. destruct (decide (j = ip)) as [->|Hne]; [|apply F; [done|by apply B]]. by destruct (proj1 (G m) (B _ _ Hj)) as [-> _].
  - rewrite (A n), (decide_False (P := None = Some n)) in E by done. rewrite A3. repeat case_decide; lia.
Qed.

Lemma carries_put L t0 t t' ip n : icache_lk sb t0 I L -> carries t0 t (Some n) -> got t' t ip n -> carries t0 t' None.
Proof.
  intros H0 [A B A3] [C D E F G]. assert (forall m, refs t' m = refs t0 m) as Hr.
  { intros m. specialize (A m). rewrite D in A. destruct (Z.eqb_spec m n) as [Heq|Hne]; [subst m; rewrite decide_True in A by done|rewrite decide_False in A by congruence]; lia. }
  split.
  - intros m. rewrite Hr, decide_False by done. lia.
  - intros j m Hj. destruct (decide (j = ip)) as [->|Hne]; [|apply F; [done|by apply B]]. apply G. rewrite Hr.
    rewrite <-(refers_inj _ _ _ _ (B _ _ Hj) C). split; [done|]. by eapply refs_refers.
  - rewrite Hr in E. rewrite A3. repeat case_decide; lia.
Qed.

Lemma carries_swap L t0 t t1 t2 ip ip' i n : icache_lk sb t0 I L -> carries t0 t (Some i) -> got t t1 ip' n -> got t2 t1 ip i -> carries t0 t2 (Some n).
Proof.
  intros H0 [A B A3] [C D E F G] [C' D' E' F' G']. assert (forall m, refs t2 m = (refs t0 m + if decide (Some n = Some m) then 1 else 0)%nat) as Hr.
  { intros m. pose proof (D m) as H1. rewrite A, D' in H1. destruct (Z.eqb_spec m n) as [Hn|Hn], (Z.eqb_spec m i) as [Hi|Hi]; try subst m; repeat case_decide; simplify_eq; lia. }
  split; [done| |].
  2:{ rewrite A3. rewrite A in E. rewrite Hr in E'. repeat case_decide; simplify_eq; lia. }
  intros j m Hj. assert (refers t1 j m) as Hj1.
  { destruct (decide (j = ip')) as [->|Hne]; [|apply F; [done|by apply B]]. by destruct (proj1 (G m) (B _ _ Hj)) as [-> _]. }
  destruct (decide (j = ip)) as [->|Hne]; [|by apply F']. apply G'. rewrite <-(refers_inj _ _ _ _ Hj1 C'). split; [done|]. rewrite Hr.
  pose proof (refs_refers sb t0 I L ip m H0 Hj). lia.
Qed.

Lemma carries_same t0 t t' w : carries t0 t w -> same_refs t t' -> carries t0 t' w.
Proof. intros [A B A3] [C D E]. split; [intros m; by rewrite C| |by rewrite D]. intros j m Hj. by apply E, B. Qed.

(** The process is at inode [i], by entry [ip]. *)
Record at_inode (t0 : list inode) s ip (i : Z) : Prop := {
  ai_sb : fsb s = sb;
  ai_tx : in_tx l0 (flog s) V ∅ T;
  ai_lk : icache_lk sb (icache s) I [];
  ai_refers : refers (icache s) ip i;
  ai_carries : carries t0 (icache s) (Some i);
  ai_type : type (I i) <> 0;
  ai_nlink : nlink (I i) <> 0 \/ (2 <= refs (icache s) i)%nat;
  ai_free : (2 <= free_entries (icache s) + if decide (refs (icache s) i = 1) then 1 else 0)%nat
}.

(** The end of a lookup: nothing but the log's buffers and the table has changed,
    and the table carries one reference more, to the inode found, or none. *)
Definition resolved (t0 : list inode) s s' (r : option nat) (w : option Z) : Prop := exists l' t',
  s' = set_flog l' (set_icache t' s) /\ in_tx l0 l' V ∅ T /\ icache_lk sb t' I [] /\ carries t0 t' w /\
  match w with Some j => exists ip, r = Some ip /\ refers t' ip j | None => r = None end.

Lemma at_inode_no t0 s ip i : at_inode t0 s ip i -> inode_no sb i.
Proof. intros [_ _ H (x & Hx & <- & Hr) _ _ _ _]. by apply (lk_used sb _ I [] ip x H). Qed.

(** Locking the inode. *)
Lemma wp_lock_dir t0 s ip i (Q : unit -> fstate DS -> Prop) : at_inode t0 s ip i ->
  (forall l' x, let t' := <[ip := x]> (icache s) in let s' := set_flog l' (set_icache t' s) in
    in_file sb l0 s' V I T ip x -> inum x = i -> icache_lk sb t' I [ip] -> same_refs (icache s) t' -> ilocked x = true /\ 0 < iref x -> Q tt s') ->
  wp (ilock ip) s Q.
Proof.
  intros Ha HQ. pose proof (at_inode_no _ _ _ _ Ha) as Hi. destruct Ha as [A1 A2 A3 (x & Hx & Hn & Hr) _ A6 _ _]. subst i.
  destruct (lk_used sb _ I [] ip x A3 Hx Hr) as (Hdev & _ & Hv). pose proof (lookup_lt_Some _ _ _ Hx) as Hlt.
  eapply (wp_ilock sb l0 Hgeo s V I T ip x); [done|done|done|done|done|done|done| |done|apply Hsync; tauto|done|].
  { rewrite (lk_owner _ _ _ _ A3 ip x Hx). apply bool_decide_eq_false_2, not_elem_of_nil. }
  intros l' Hl'. apply (HQ l' (locked_inode x (I (inum x)))); [|done|by apply lk_locked|by apply (same_refs_insert _ ip x)|done].
  split; try done. by apply list_lookup_insert_eq.
Qed.

(** Leaving an inode that is locked, or the search at an inode that is not. *)
Lemma wp_leave t0 s0 s ip i l1 t1 (Q : option nat * list Z -> fstate DS -> Prop) nm : at_inode t0 s0 ip i -> (exists L, icache_lk sb t0 I L) ->
  (forall m, Z.of_nat (refs t0 m) <= INT_MAX - 2) ->
  s = set_flog l1 (set_icache t1 s0) -> in_tx l0 l1 V ∅ T -> icache_lk sb t1 I [ip] -> same_refs (icache s0) t1 ->
  (forall s', resolved t0 s0 s' None None -> Q (None, nm) s') ->
  wp (_ ← iunlockput ip; mret (None, nm)) s Q.
Proof.
  intros Ha [L HL] Hmax -> Hl Hlk Hs HQ. wp_step. pose proof (ca_refs _ _ _ (ai_carries _ _ _ _ Ha) i) as Hi. rewrite decide_True in Hi by done.
  eapply (wp_iunlockput sb _ I [] ip i); [done|by apply not_elem_of_nil|apply Hs, (ai_refers _ _ _ _ Ha)|cbn [icache set_flog set_icache]; rewrite (sr_refs _ _ Hs); specialize (Hmax i)|
    cbn [icache set_flog set_icache]; rewrite (sr_refs _ _ Hs); apply (ai_nlink _ _ _ _ Ha)|].
  { lia. }
  intros t' Ht' Hg _. wp_step. apply HQ. exists l1, t'. split; [done|]. split; [done|]. split; [done|]. split; [|done].
  eapply (carries_put L t0 (icache s0) t' ip i); [done|apply Ha|]. by eapply got_same.
Qed.

(** From a locked directory to the inode [n] of one of its entries. *)
Lemma wp_next_dir t0 s0 ip i l1 t1 n : at_inode t0 s0 ip i -> (exists L, icache_lk sb t0 I L) -> (forall m, Z.of_nat (refs t0 m) <= INT_MAX - 2) ->
  in_tx l0 l1 V ∅ T -> icache_lk sb t1 I [ip] -> same_refs (icache s0) t1 ->
  inode_no sb n -> type (I n) <> 0 -> nlink (I n) <> 0 ->
  wp (iget 1 n) (set_flog l1 (set_icache t1 s0)) (fun ip' s1 => wp (iunlockput ip) s1 (fun _ s2 =>
    at_inode t0 s2 ip' n /\ exists t3, s2 = set_flog l1 (set_icache t3 s0))).
Proof.
  intros Ha [L HL] Hmax Hl Hlk Hs Hn Ht Hnl. pose proof Ha as [A1 A2 A3 A4 A5 A6 A7 A8]. pose proof (carries_same _ _ _ _ A5 Hs) as Hc.
  apply Hs in A4. rewrite <-(sr_refs _ _ Hs) in A7, A8. rewrite <-(sr_free _ _ Hs) in A8.
  pose proof (ca_refs _ _ _ Hc) as Hrc. pose proof (Hmax n) as Hmn. pose proof (Hmax i) as Hmi. pose proof (Hrc n) as Hrn. pose proof (Hrc i) as Hri. rewrite decide_True in Hri by done.
  eapply (wp_iget sb _ I [ip] n); [done|done|cbn [icache set_flog set_icache]..|].
  { repeat case_decide; lia. }
  { repeat case_decide; lia. }
  intros ip' t2 Hlk2 Hg. cbn [icache set_flog set_icache] in Hg. pose proof Hg as [G1 G2 G3 G4 G5]. pose proof (G2 n) as G2n. pose proof (G2 i) as G2i.
  rewrite Z.eqb_refl in G2n. assert (refers t2 ip i) as Hrf2.
  { destruct (decide (ip = ip')) as [<-|Hne]; [|by apply G4]. by destruct (proj1 (G5 i) A4) as [-> _]. }
  eapply (wp_iunlockput sb _ I [] ip i); [done|by apply not_elem_of_nil|exact Hrf2|cbn [icache set_flog set_icache]..|].
  { rewrite G2i. destruct (i =? n); lia. }
  { destruct A7; [by left|right]. destruct (i =? n); lia. }
  intros t3 Hlk3 Hg3 _. cbn [icache set_flog set_icache] in Hg3. pose proof Hg3 as [K1 K2 K3 K4 K5].
  pose proof (carries_swap L t0 t1 t2 t3 ip ip' i n HL Hc Hg Hg3) as Hc3. pose proof (ca_refs _ _ _ Hc3) as Hr3. pose proof (Hr3 n) as Hr3n. rewrite decide_True in Hr3n by done.
  split; [|by exists t3]. split; try done.
  - cbn [icache set_flog set_icache]. destruct (decide (ip' = ip)) as [->|Hne]; [|by apply K4].
    pose proof (refers_inj _ _ _ _ G1 Hrf2) as ->. apply K5. split; [done|lia].
  - by left.
  - cbn [icache set_flog set_icache]. pose proof (K2 i) as K2i. pose proof (K2 n) as K2n. rewrite Z.eqb_refl in K2i.
    destruct (Z.eqb_spec i n) as [Hin|Hin]; [subst n; rewrite Z.eqb_refl in *|rewrite (proj2 (Z.eqb_neq n i)) in K2n by congruence]; repeat case_decide; lia.
Qed.

Lemma walk_parent_cons i e es : walk_parent V I i (e :: es) = if type (I i) =? T_DIR then match es with
  | [] => Some (i, take DIRSIZ e)
  | _ => match dir_find V (I i) (take DIRSIZ e) with Some (_, d) => walk_parent V I (d_inum d) es | None => None end
  end else None.
Proof.
  unfold walk_parent. destruct es as [|e2 es]; [done|]. change (last (e :: e2 :: es)) with (last (e2 :: es)).
  change (List.removelast (e :: e2 :: es)) with (e :: List.removelast (e2 :: es)). cbn [walk].
  destruct (last (e2 :: es)) eqn:El; [|by apply last_None in El]. destruct (type (I i) =? T_DIR); [|done].
  by destruct (dir_find V (I i) (take DIRSIZ e)) as [[j d]|].
Qed.

(** What namex returns. *)
Definition namex_post (t0 : list inode) s (parent : bool) (i : Z) (es : list (list Z)) (r : option nat * list Z) s' : Prop :=
  if parent then match walk_parent V I i es with
    | Some (d, e) => resolved t0 s s' r.1 (Some d) /\ name_of r.2 = e /\ length r.2 = DIRSIZ /\ bytes_ok r.2
    | None => resolved t0 s s' r.1 None
    end
  else resolved t0 s s' r.1 (walk V I i es).

Lemma namex_post_next t0 s1 s2 l1 t1 parent n es r s' : s2 = set_flog l1 (set_icache t1 s1) -> namex_post t0 s2 parent n es r s' -> namex_post t0 s1 parent n es r s'.
Proof.
  intros -> H. assert (forall w, resolved t0 (set_flog l1 (set_icache t1 s1)) s' r.1 w -> resolved t0 s1 s' r.1 w) as Hr.
  { intros w (l' & t' & -> & Hrest). by exists l', t'. }
  unfold namex_post in *. destruct parent; [|by apply Hr]. destruct (walk_parent V I n es) as [[d e]|]; [|by apply Hr]. destruct H as [H He]. split; [by apply Hr|done].
Qed.

Lemma wp_namex_loop fuel t0 s ip i p tl nm parent : (exists L, icache_lk sb t0 I L) -> (forall m, Z.of_nat (refs t0 m) <= INT_MAX - 2) ->
  at_inode t0 s ip i -> Forall (fun c => c <> 0) p -> bytes_ok p -> length nm = DIRSIZ -> bytes_ok nm -> (length p < fuel)%nat ->
  wp (namex_loop fuel ip (p ++ 0 :: tl) nm parent) s (namex_post t0 s parent i (elements p)).
Proof.
  intros HL Hmax. revert s ip i p nm. induction fuel as [|fuel IH]; intros s ip i p nm Ha Hp Hb Hnm Hnb Hfuel; [lia|]. cbn [namex_loop].
  pose proof (skipelem_spec p tl nm Hp) as Hsk. destruct (elements p) as [|e es] eqn:Ees.
  - wp_step. eapply wp_lift; [exact Hsk|]. destruct parent.
    + wp_step. pose proof Ha as [A1 A2 A3 A4 A5 A6 A7 A8]. pose proof (ca_refs _ _ _ A5 i) as Hri. rewrite decide_True in Hri by done. specialize (Hmax i) as Hmi.
      eapply (wp_iput sb s I [] ip i); [done|done|by apply not_elem_of_nil|lia|done|]. intros t' Hlk' Hg _. wp_step. destruct HL as [L HL].
      exists (flog s), t'. split; [by destruct s|]. split; [done|]. split; [done|]. split; [|done]. by eapply carries_put.
    + wp_step. exists (flog s), (icache s). split; [by destruct s|]. split; [apply Ha|]. split; [apply Ha|]. split; [apply Ha|]. exists ip. split; [done|apply Ha].
  - destruct Hsk as (p' & Esk & Ees' & Hlt & HP & Hnil). wp_step. eapply wp_lift; [exact Esk|]. cbn iota.
    destruct (HP _ Hp) as [Hp' He0]. destruct (HP _ Hb) as [Hb' Heb]. destruct (put_name_spec e nm He0 Hnm) as [Hnl Hno].
    pose proof (put_name_bytes e nm Heb Hnb) as Hpb. set (nm' := put_name e nm) in *.
    wp_step. eapply wp_lock_dir; [exact Ha|]. intros l1 x t1 s1 Hf Hxn Hlk1 Hsame [Hxl Hxr]. pose proof Hf as [_ Htx1 Hx _ _ Hdin _]. rewrite Hxn in Hdin.
    wp_step. eapply wp_geti; [exact Hx|]. rewrite <-Hdin.
    assert (forall s', resolved t0 s s' None None -> type (I i) <> T_DIR \/ (dir_find V (I i) (take DIRSIZ e) = None /\ (parent && (default 0 (head (p' ++ 0 :: tl)) =? 0)) = false) ->
      namex_post t0 s parent i (e :: es) (None, nm') s') as Hfail.
    { intros s' Hres Hwhy. unfold namex_post. rewrite walk_parent_cons. cbn [walk fst]. destruct (Z.eqb_spec (type (I i)) T_DIR) as [Htd|]; [|by destruct parent].
      destruct Hwhy as [Hw|[-> Hw]]; [done|]. destruct parent; [|done]. destruct es; [|done]. rewrite (proj2 Hnil eq_refl) in Hw. done. }
    destruct (Z.eqb_spec (type (I i)) T_DIR) as [Htd|Htd]; cbn [negb].
    2:{ eapply (wp_leave t0 s s1 ip i l1 t1); try done. intros s' Hres. apply Hfail; [done|by left]. }
    destruct (parent && (default 0 (head (p' ++ 0 :: tl)) =? 0)) eqn:Estop.
    + apply andb_true_iff in Estop as [-> Hhd%Z.eqb_eq]. assert (p' = []) as Ep' by (destruct p' as [|c p']; [done|inversion Hp'; done]).
      assert (es = []) as -> by (by apply Hnil). wp_step. eapply wp_iunlock; [exact Hx|exact Hxl|exact Hxr|].
      wp_step. unfold namex_post. rewrite walk_parent_cons, (proj2 (Z.eqb_eq _ _) Htd). split; [|by split_and!].
      exists l1, (<[ip := set_ilocked false x]> t1). pose proof (same_refs_insert t1 ip x (set_ilocked false x) Hx eq_refl eq_refl) as Hs2.
      split; [done|]. split; [done|]. split; [apply lk_unlocked; [done|by apply not_elem_of_nil|done]|]. split; [by eapply carries_same; [eapply carries_same; [apply Ha|exact Hsame]|]|].
      exists ip. split; [done|]. apply Hs2, Hsame, Ha.
    + wp_step. eapply (wp_dirlookup sb l0 Hgeo s1 V I T ip x nm'); [done|done|by rewrite <-Hdin|rewrite <-Hdin; apply (do_size _ _ _ Hdirs); [by eapply at_inode_no|done]|done|left; lia|].
      intros l2 H2. rewrite <-Hdin, Hno. destruct (dir_find V (I i) (take DIRSIZ e)) as [[j de]|] eqn:Efind.
      2:{ eapply (wp_leave t0 s _ ip i l2 t1); try done. intros s' Hres. apply Hfail; [done|by right]. }
      destruct (dir_find_entry i _ j de (at_inode_no _ _ _ _ Ha) Htd Efind) as (N1 & N2 & N3).
      eapply wp_mono; [apply (wp_next_dir t0 s ip i l2 t1 (d_inum de)); done|]. intros ip' s2 Hd. cbn beta iota. wp_step. eapply wp_mono; [exact Hd|].
      intros [] s3 (Ha3 & t3 & Es3). cbn beta. eapply wp_mono; [apply (IH s3 ip' (d_inum de) p' nm'); try done; lia|]. intros r s' Hpost.
      apply (namex_post_next t0 s s3 l2 t3 parent (d_inum de)) in Hpost; [|done]. rewrite Ees' in Hpost. unfold namex_post in *. rewrite walk_parent_cons. cbn [walk].
      rewrite (proj2 (Z.eqb_eq _ _) Htd), Efind. destruct parent; [|done]. destruct es; [|done]. exfalso. rewrite (proj2 Hnil eq_refl) in Estop. done.
Qed.
End namex.

(** What a lookup starts from: a file system, during a transaction or without
    one, whose directories are in order, room for two more inodes in the table,
    and a current directory. *)
Record can_look {DS : Type} (sb : superblock) (l0 : log) (s : fstate DS) (V : Z -> list Z) (I : Z -> dinode) (T : gset Z) (cwd : nat) (c : Z) : Prop := {
  cl_sb : fsb s = sb;
  cl_geo : geo sb l0;
  cl_tx : in_tx l0 (flog s) V ∅ T;
  cl_room : room l0 T;
  cl_wf : fs_wf sb V I;
  cl_sync : synced sb V I (fun _ => False);
  cl_dirs : dirs_ok sb V I;
  cl_icache : icache_ok sb (icache s) I;
  cl_refs : forall m, Z.of_nat (refs (icache s) m) <= INT_MAX - 2;
  cl_free : (2 <= free_entries (icache s))%nat;
  cl_cwd : refers (icache s) cwd c /\ type (I c) <> 0;
  cl_root : inode_no sb ROOTINO /\ type (I ROOTINO) <> 0 /\ nlink (I ROOTINO) <> 0
}.

(** The inode where a path starts. *)
Definition start_of (p : list Z) (c : Z) : Z := if default 0 (head p) =? SLASH then ROOTINO else c.

Section paths.
Context {DS : Type} `{HDS : Devsw DS}.
Implicit Types (s : fstate DS) (V : Z -> list Z) (I : Z -> dinode) (T : gset Z) (l : log).

Lemma wp_namex sb l0 s V I T cwd c p tl nm parent : can_look sb l0 s V I T cwd c -> Forall (fun ch => 0 < ch < 256) p -> length nm = DIRSIZ -> bytes_ok nm ->
  wp (namex (p ++ 0 :: tl) parent nm cwd) s (namex_post sb l0 V I T (icache s) s parent (start_of p c) (elements p)).
Proof.
  intros [C1 C2 C3 C4 C5 C6 C7 C8 C9 C10 [C11 C12] (C13 & C14 & C15)] Hp Hnm Hnb. apply icache_lk_none in C8.
  assert (exists ch r, p ++ 0 :: tl = ch :: r /\ ch = default 0 (head p)) as (ch & r & Epath & Ech) by (destruct p; by eauto).
  unfold namex. rewrite Epath. rewrite Ech. set (start := start_of p c). set (f := if _ =? SLASH then iget ROOTDEV ROOTINO else idup cwd).
  assert (forall Q : nat -> fstate DS -> Prop, (forall ip t', at_inode sb l0 V I T (icache s) (set_icache t' s) ip start -> Q ip (set_icache t' s)) -> wp f s Q) as Hstart.
  { intros Q HQ. unfold f. unfold start, start_of in HQ. destruct (default 0 (head p) =? SLASH).
    - apply (wp_iget sb s I [] ROOTINO); [done|done|specialize (C9 ROOTINO); lia|lia|]. intros ip t' Hlk Hg. pose proof Hg as [G1 G2 G3 _ _]. apply HQ. split; try done.
      + eapply carries_got; [apply carries_refl|done].
      + by left.
      + cbn [icache set_icache]. specialize (G2 ROOTINO). rewrite Z.eqb_refl in G2. repeat case_decide; lia.
    - apply (wp_idup sb s I [] cwd c); [done|done|specialize (C9 c); lia|]. intros t' Hlk Hg. pose proof Hg as [G1 G2 G3 _ _]. apply HQ.
      specialize (G2 c). rewrite Z.eqb_refl in G2. pose proof (refs_refers sb _ I [] cwd c C8 C11). split; try done.
      + eapply carries_got; [apply carries_refl|done].
      + right. cbn [icache set_icache]. lia.
      + cbn [icache set_icache]. repeat case_decide; lia. }
  wp_step. apply Hstart. intros ip t' Ha. rewrite <-Ech, <-Epath.
  eapply wp_mono; [apply (wp_namex_loop sb l0 C2 V I T C5 C6 C7 C4 _ (icache s) (set_icache t' s) ip start p tl nm parent)|].
  - by exists [].
  - done.
  - done.
  - eapply Forall_impl; [exact Hp|]. cbn. lia.
  - eapply Forall_impl; [exact Hp|]. cbn. lia.
  - done.
  - done.
  - rewrite length_app. cbn. lia.
  - intros [r' nm'] s' Hpost. eapply (namex_post_next sb l0 V I T (icache s) s (set_icache t' s) (flog s) t'); [by destruct s|done].
Qed.

(** C18: namei and nameiparent follow paths.  In a well-formed file system, for
    every path that ends with NUL, namei returns a reference to the inode that
    one reaches from the root or the current directory along the path's
    elements, each cut to 14 characters, or fails when an element is missing or
    one before the last is not a directory; nameiparent returns a reference to
    the directory reached along all elements but the last, with the last one in
    [name].  They return on every path, leave the disk alone, hold no lock and
    no other reference, and keep every inode that others refer to. *)
Theorem namei_correct sb l0 s V I T cwd c p tl : can_look sb l0 s V I T cwd c -> Forall (fun ch => 0 < ch < 256) p ->
  let start := start_of p c in
  (exists r s', namei (p ++ 0 :: tl) cwd s = Ok (r, s') /\ resolved sb l0 V I T (icache s) s s' r (walk V I start (elements p))) /\
  forall nm, length nm = DIRSIZ -> bytes_ok nm -> exists r nm' s', nameiparent (p ++ 0 :: tl) nm cwd s = Ok ((r, nm'), s') /\
    match walk_parent V I start (elements p) with
    | Some (d, e) => resolved sb l0 V I T (icache s) s s' r (Some d) /\ name_of nm' = e /\ length nm' = DIRSIZ /\ bytes_ok nm'
    | None => resolved sb l0 V I T (icache s) s s' r None
    end.
Proof.
  intros Hc Hp start. split.
  - destruct (wp_namex sb l0 s V I T cwd c p tl (replicate DIRSIZ 0) false Hc Hp) as ([r nm'] & s' & E & Hr); [by rewrite length_replicate|apply Forall_replicate; lia|].
    exists r, s'. split; [|exact Hr]. unfold namei. by rewrite (bind_Ok _ _ _ _ _ E).
  - intros nm Hn Hb. destruct (wp_namex sb l0 s V I T cwd c p tl nm true Hc Hp Hn Hb) as ([r nm'] & s' & E & Hr). by exists r, nm', s'.
Qed.
End paths.

(** ** dirlink *)
Section list_find.
Context {A : Type} (P : A -> Prop) `{!forall x, Decision (P x)}.

(** A search that a change at [k] does not concern. *)
Lemma list_find_other (l l' : list A) k : (forall j, j <> k -> l' !! j = l !! j) -> (forall x, l !! k = Some x -> ~ P x) -> (forall x, l' !! k = Some x -> ~ P x) ->
  list_find P l' = list_find P l.
Proof.
  intros Hj Hk Hk'. destruct (list_find P l) as [[i x]|] eqn:E.
  - apply list_find_Some in E as (Hi & HP & Hmin). assert (i <> k) as Hne by (intros ->; by eapply Hk). apply list_find_Some. split_and!; [by rewrite Hj|done|].
    intros j y Hy Hlt. destruct (decide (j = k)) as [->|Hjk]; [by eapply Hk'|]. rewrite Hj in Hy by done. by eapply Hmin.
  - apply list_find_None in E. apply list_find_None. apply Forall_lookup. intros j y Hy. destruct (decide (j = k)) as [->|Hjk]; [by apply Hk'|].
    rewrite Hj in Hy by done. eapply Forall_lookup in E; [exact E|done].
Qed.

(** A search that finds what has been put at [k]. *)
Lemma list_find_new (l l' : list A) k x : (forall j, j <> k -> l' !! j = l !! j) -> list_find P l = None -> l' !! k = Some x -> P x -> list_find P l' = Some (k, x).
Proof.
  intros Hj Hno Hk HP. apply list_find_None in Hno. apply list_find_Some. split_and!; [done|done|]. intros j y Hy Hlt. rewrite Hj in Hy by lia.
  eapply Forall_lookup in Hno; [exact Hno|done].
Qed.
End list_find.

Lemma decode_encode_dirent n nm : 0 <= n < 65536 -> decode_dirent (encode_dirent (mkDirent n nm)) = mkDirent n nm.
Proof. intros Hn. unfold decode_dirent, encode_dirent. cbn [lookup list_lookup default d_inum d_name drop]. f_equal. cbn. zlia. Qed.

(** The entries of a directory in which entry [k] has been written. *)
Lemma entries_written V d V' d' k e : 0 <= dsize d -> dsize d mod DIRENT = 0 -> 16 * Z.of_nat k <= dsize d ->
  length (d_name e) = DIRSIZ -> 0 <= d_inum e < 65536 -> dsize d' = Z.max (dsize d) (16 * Z.of_nat k + DIRENT) ->
  file_bytes V' d' = write_at (16 * k) (encode_dirent e) (file_bytes V d) ->
  entries V' d' !! k = Some e /\ (forall j, j <> k -> entries V' d' !! j = entries V d !! j) /\ dsize d' mod DIRENT = 0.
Proof.
  intros Hd Hm Hk Hl He Hd' Hb. assert (length (encode_dirent e) = 16%nat) as Hle by (cbn; rewrite Hl; done). unfold DIRENT in *.
  pose proof (length_file_bytes V d) as Hlen. assert (forall j, entry_at V' d' j = decode_dirent (take 16 (drop (16 * j) (write_at (16 * k) (encode_dirent e) (file_bytes V d))))) as Hat.
  { intros j. unfold entry_at. by rewrite Hb. }
  split; [|split].
  - rewrite entries_lookup by lia. f_equal. rewrite Hat. unfold write_at. rewrite drop_app_length' by (rewrite length_take; lia).
    rewrite take_app_le, take_ge by lia. destruct e as [n nm]. by apply decode_encode_dirent.
  - intros j Hj. destruct (decide (16 * Z.of_nat j + 16 <= dsize d)) as [Hjd|Hjd].
    + rewrite !entries_lookup by lia. f_equal. rewrite Hat. unfold entry_at. f_equal. apply list_eq. intros i. destruct (decide (i < 16)%nat); [|by rewrite !lookup_ge_None_2 by (rewrite length_take; lia)].
      rewrite !lookup_take_lt, !lookup_drop by lia. rewrite lookup_write_at by lia. rewrite decide_False by lia. done.
    + rewrite !lookup_ge_None_2; [done|pose proof (length_entries V d Hd Hm); lia|]. pose proof (length_entries V' d' ltac:(lia)) as Hle'. unfold DIRENT in Hle'. specialize (Hle' ltac:(zlia)).
      assert (16 * Z.of_nat k <> dsize d \/ j <> k) by lia. zlia.
  - zlia.
Qed.

(** A directory that is locked, in a transaction that may add an entry to it. *)
Record can_link {DS : Type} (sb : superblock) (l0 : log) (s : fstate DS) (V : Z -> list Z) (I : Z -> dinode) (T : gset Z) (L : list nat) (dp : nat) (x : inode) : Prop := {
  ck_geo : geo sb l0;
  ck_ops : 1 <= outstanding l0;
  ck_open : open_file sb l0 s V I T dp x;
  ck_lk : icache_lk sb (icache s) I (dp :: L);
  ck_used : 0 < iref x;
  ck_dirs : dirs_ok sb V I;
  ck_type : type (din x) = T_DIR;
  ck_size : dsize (din x) + DIRENT <= MAXFILE * BSIZE;
  ck_refs : forall m, Z.of_nat (refs (icache s) m) <= INT_MAX - 2;
  ck_entries : (1 <= free_entries (icache s))%nat;
  ck_blocks : (2 <= nfree sb V)%nat;
  ck_room : Z.of_nat (base.size T) + 3 < size l0 - 1
}.

Section dirlink.
Context {DS : Type} `{HDS : Devsw DS} (sb : superblock) (l0 : log).
Implicit Types (s : fstate DS) (V : Z -> list Z) (I : Z -> dinode) (T : gset Z) (ip : nat) (l : log).

Lemma wp_find_empty (Hgeo : geo sb l0) fuel s V I T ip x k (Q : Z -> fstate DS -> Prop) : in_file sb l0 s V I T ip x -> room l0 T ->
  type (din x) = T_DIR -> dsize (din x) mod DIRENT = 0 -> 16 * Z.of_nat k <= dsize (din x) -> dsize (din x) - 16 * Z.of_nat k < 16 * Z.of_nat fuel ->
  (forall l' k', in_tx l0 l' V ∅ T -> 16 * Z.of_nat k' <= dsize (din x) -> (16 * Z.of_nat k' < dsize (din x) -> d_inum (entry_at V (din x) k') = 0) ->
    Q (16 * Z.of_nat k') (set_flog l' s)) ->
  wp (find_empty fuel ip (16 * Z.of_nat k)) s Q.
Proof.
  revert s k. induction fuel as [|fuel IH]; intros s k Hf Hroom Ht Hm Hk Hfuel HQ; [lia|]. cbn [find_empty].
  pose proof Hf as [Hsb Hl Hx Hdev Hi HI Hwf]. wp_step. eapply wp_geti; [done|]. destruct (Z.ltb_spec (16 * Z.of_nat k) (dsize (din x))) as [Hlt|Hge].
  2:{ wp_step. specialize (HQ (flog s) k Hl Hk). destruct s. apply HQ. lia. }
  assert (16 * Z.of_nat k + 16 <= dsize (din x)) as Hk16 by (unfold DIRENT in Hm; zlia).
  wp_step. eapply (wp_read_entry sb l0 Hgeo); try done. intros l1 bs H1 Hbs. rewrite Z.eqb_refl. cbn [negb]. rewrite Hbs.
  destruct (Z.eqb_spec (d_inum (entry_at V (din x) k)) 0) as [H0|H0]; [wp_step; by apply HQ|].
  replace (16 * Z.of_nat k + DIRENT) with (16 * Z.of_nat (S k)) by (unfold DIRENT; lia). apply IH; [by split|done|done|done|lia|lia|]. intros l2 k' H2. by apply HQ.
Qed.

Lemma missing_entry V d k : (missing_in V d (16 * k) DIRENT + need_ind d <= 2)%nat /\ spanned (16 * k) DIRENT = 1.
Proof.
  assert (spanned (16 * k) DIRENT = 1) as Hs by (unfold spanned, DIRENT, BSIZE; cbn [Z.eqb]; zlia). split; [|done].
  unfold missing_in. rewrite Hs. pose proof (length_filter (fun j => baddr V d j = 0) (seqZ (16 * k / BSIZE) 1)) as Hl. rewrite length_seqZ in Hl.
  assert (need_ind d <= 1)%nat by (unfold need_ind; case_decide; lia). lia.
Qed.

Lemma encode_dirent_bytes e : bytes_ok (d_name e) -> Forall (fun v => 0 <= v < 256) (encode_dirent e).
Proof. intros He. unfold encode_dirent. constructor; [by apply Z.mod_pos_bound|]. constructor; [by apply Z.mod_pos_bound|exact He]. Qed.

(** A new name. *)
Lemma wp_dirlink_new s V I T L dp x name n : can_link sb l0 s V I T L dp x -> bytes_ok name -> readable DIRSIZ name -> 0 < n < 65536 ->
  dir_find V (din x) (name_of name) = None ->
  wp (dirlink dp name n) s (fun r s' => r = 0 /\ exists V' I' T' x' off e k,
    entries V' (din x') !! k = Some e /\ (forall j, j <> k -> entries V' (din x') !! j = entries V (din x) !! j) /\ d_inum e = n /\
    written sb l0 s s' V I V' I' T T' dp x x' off (encode_dirent e) /\ dir_find V' (din x') (name_of name) = Some (k, e) /\
    (forall nm, nm <> name_of name -> dir_find V' (din x') nm = dir_find V (din x) nm) /\ dsize (din x') mod DIRENT = 0).
Proof.
  intros [K1 K2 K3 K4 K5 K6 K7 K8 K9 K10 K11 K12] Hn1 Hn2 Hn Hno. pose proof K3 as [Hf Hsync Hbm Hib]. pose proof Hf as [Hsb Hl Hx Hdev Hi HI Hwf].
  pose proof (fi_size _ (fw_fields _ _ _ Hwf _ Hi)) as Hsz. rewrite HI in Hsz.
  assert (dsize (din x) mod DIRENT = 0) as Hm by (rewrite <-HI; apply (do_size _ _ _ K6); [done|by rewrite HI]). assert (room l0 T) as Hroom by (unfold room; lia).
  unfold dirlink. wp_step. eapply (wp_dirlookup sb l0 K1 s V I T dp x name); try done. intros l1 H1. rewrite Hno.
  set (s1 := set_flog l1 s). assert (in_file sb l0 s1 V I T dp x) as Hf1 by (by split).
  wp_step. eapply wp_geti; [exact Hx|]. wp_step. apply (wp_find_empty K1 _ s1 V I T dp x 0); try done; [lia|lia|].
  intros l2 k H2 Hk He0. destruct (strncpy_spec DIRSIZ name Hn2) as (nm & Enm & Hnl & Hnu). pose proof (strncpy_bytes _ _ _ Hn1 Enm) as Hnb.
  wp_step. eapply wp_lift; [exact Enm|]. rewrite (Z.mod_small n) by lia. set (e := mkDirent n nm). destruct (missing_entry V (din x) (Z.of_nat k)) as [Hmiss Hspan].
  assert (Z.of_nat (length (encode_dirent e)) = DIRENT) as Hle by (cbn; rewrite Hnl; done).
  wp_step. eapply wp_mono; [apply (wp_writei sb l0 K1 K2 (set_flog l2 s1) V I T dp x (16 * Z.of_nat k) (encode_dirent e)); rewrite ?Hle, ?Hspan; try done|].
  { by rewrite K7. }
  { lia. }
  { lia. }
  { by apply encode_dirent_bytes. }
  { lia. }
  { lia. }
  intros r s' (-> & V' & I' & T' & x' & Hw). rewrite Hle, Z.eqb_refl. cbn [negb]. wp_step. split; [done|].
  exists V', I', T', x', (16 * Z.of_nat k), e, k. pose proof Hw as [W1 W2 W3 W4 [l3 W5] W6 W7 W8 W9 W10 W11]. rewrite Hle in W4.
  destruct (entries_written V (din x) V' (din x') k e) as (E1 & E2 & E3); try done; [lia|cbn; lia|by replace (Z.to_nat (16 * Z.of_nat k)) with (16 * k)%nat in W6 by lia|].
  assert (name_of nm = name_of name) as Hnm by (unfold name_of; rewrite take_ge by lia; done).
  split; [done|]. split; [done|]. split; [done|]. split; [split; try done; [by rewrite Hle|by exists l3]|]. split; [|split; [|done]].
  - apply (list_find_new _ (entries V (din x))); [done|done|done|]. split; [cbn; lia|done].
  - intros nm' Hne. apply (list_find_other _ _ _ k); [done| |].
    + intros y Hy [Hy0 _]. assert (16 * Z.of_nat k < dsize (din x)) as Hlt.
      { apply lookup_lt_Some in Hy. pose proof (length_entries V (din x) ltac:(lia) Hm). lia. }
      rewrite entries_lookup in Hy by (unfold DIRENT in Hm; zlia). injection Hy as <-. by apply Hy0, He0.
    + intros y Hy [_ Hy2]. rewrite E1 in Hy. injection Hy as <-. apply Hne. rewrite <-Hy2. exact Hnm.
Qed.

(** The name is taken. *)
Lemma wp_dirlink_taken s V I T dp x name n k e : can_link sb l0 s V I T [] dp x -> bytes_ok name -> readable DIRSIZ name ->
  dir_find V (din x) (name_of name) = Some (k, e) -> d_inum e <> inum x ->
  wp (dirlink dp name n) s (fun r s' => r = -1 /\ exists l' t', s' = set_flog l' (set_icache t' s) /\ in_tx l0 l' V ∅ T /\
    icache_lk sb t' I [dp] /\ carries (icache s) t' None).
Proof.
  intros [K1 K2 K3 K4 K5 K6 K7 K8 K9 K10 K11 K12] Hn1 Hn2 Hfind Hself. pose proof K3 as [Hf Hsync Hbm Hib]. pose proof Hf as [Hsb Hl Hx Hdev Hi HI Hwf].
  assert (dsize (din x) mod DIRENT = 0) as Hm by (rewrite <-HI; apply (do_size _ _ _ K6); [done|by rewrite HI]). assert (room l0 T) as Hroom by (unfold room; lia).
  rewrite <-HI in Hfind. destruct (dir_find_entry sb V I K6 (inum x) _ k e Hi ltac:(by rewrite HI) Hfind) as (N1 & N2 & N3). rewrite HI in Hfind.
  unfold dirlink. wp_step. eapply (wp_dirlookup sb l0 K1 s V I T dp x name); try done. intros l1 H1. rewrite Hfind. pose proof (K9 (d_inum e)).
  eapply (wp_iget sb (set_flog l1 s) I [dp] (d_inum e)); [done|done|cbn; lia|cbn; lia|]. intros ip t1 Hlk1 Hg. pose proof Hg as [G1 G2 G3 G4 G5]. cbn [icache set_flog] in *.
  pose proof (carries_got _ _ _ _ _ (carries_refl (icache s)) Hg) as Hc. pose proof (ca_refs _ _ _ Hc (d_inum e)) as Hrc. rewrite decide_True in Hrc by done.
  wp_step. eapply (wp_iput sb _ I [dp] ip (d_inum e)); [done|done| |cbn [icache set_icache]; lia|by left|].
  { intros ->%list_elem_of_singleton. apply Hself. symmetry. eapply (refers_inj t1 dp); [|done]. apply Hc. by exists x. }
  intros t2 Hlk2 Hg2 _. wp_step. split; [done|]. exists l1, t2. split; [done|]. split; [done|]. split; [done|]. by eapply (carries_put sb I [dp]).
Qed.

(** A name that the directory has for itself: the process waits for its own lock. *)
Lemma dirlink_self s V I T dp x name n k e : can_link sb l0 s V I T [] dp x -> bytes_ok name -> readable DIRSIZ name ->
  dir_find V (din x) (name_of name) = Some (k, e) -> d_inum e = inum x -> dirlink dp name n s = Err OutOfFuel.
Proof.
  intros [K1 K2 K3 K4 K5 K6 K7 K8 K9 K10 K11 K12] Hn1 Hn2 Hfind Hself. pose proof K3 as [Hf Hsync Hbm Hib]. pose proof Hf as [Hsb Hl Hx Hdev Hi HI Hwf].
  assert (dsize (din x) mod DIRENT = 0) as Hm by (rewrite <-HI; apply (do_size _ _ _ K6); [done|by rewrite HI]). assert (room l0 T) as Hroom by (unfold room; lia).
  assert (wp (dirlookup dp name) s (fun r s' => exists off y, r = Some (dp, off) /\ icache s' !! dp = Some y /\ ilocked y = true)) as (r & s' & E & off & y & -> & Hy & Hlk).
  { eapply (wp_dirlookup sb l0 K1 s V I T dp x name); try done. intros l1 H1. rewrite Hfind, Hself. pose proof (K9 (inum x)).
    eapply (wp_iget sb (set_flog l1 s) I [dp] (inum x)); [done|done|cbn; lia|cbn; lia|]. intros ip t1 Hlk1 Hg. pose proof Hg as [G1 G2 G3 G4 G5]. cbn [icache set_flog set_icache] in *.
    destruct (carries_got _ _ _ _ _ (carries_refl (icache s)) Hg) as [_ Hkept]. destruct (Hkept dp (inum x)) as (y & Hy & Hyn & Hyr); [by exists x|].
    destruct G1 as (z & Hz & Hzn & Hzr). assert (ip = dp) as -> by (eapply (lk_uniq sb t1 I [dp] ip z dp y); congruence).
    exists (16 * Z.of_nat k), y. split; [done|]. split; [done|]. rewrite (lk_owner _ _ _ _ Hlk1 dp y Hy). apply bool_decide_eq_true_2, list_elem_of_here. }
  unfold dirlink. rewrite (bind_Ok _ _ _ _ _ E). unfold iput, acquirei, geti, mbind, M_bind, get. cbn beta iota.
  rewrite Hy. cbn. by rewrite Hlk.
Qed.
End dirlink.

Section link.
Context {DS : Type} `{HDS : Devsw DS}.
Implicit Types (s : fstate DS) (V : Z -> list Z) (I : Z -> dinode) (T : gset Z) (ip : nat) (l : log).

Lemma entries_ext V V' d : file_bytes V' d = file_bytes V d -> entries V' d = entries V d.
Proof. intros H. unfold entries. apply list_fmap_ext. intros _ k _. unfold entry_at. by rewrite H. Qed.

(** The directories stay in order. *)
Lemma dirs_ok_linked sb l0 s s' V I V' I' T T' dp x x' off src k e : in_file sb l0 s V I T dp x -> dirs_ok sb V I ->
  written sb l0 s s' V I V' I' T T' dp x x' off src -> dsize (din x') mod DIRENT = 0 -> type (din x) = T_DIR ->
  entries V' (din x') !! k = Some e -> (forall j, j <> k -> entries V' (din x') !! j = entries V (din x) !! j) ->
  inode_no sb (d_inum e) -> type (I (d_inum e)) <> 0 -> nlink (I (d_inum e)) <> 0 -> dirs_ok sb V' I'.
Proof.
  intros [_ _ _ _ Hi HI _] [D1 D2] Hw Hm Ht He Hj N1 N2 N3. pose proof Hw as [[Hf' _ _ _] W2 (W3 & _ & _ & W3') _ _ _ W7 _ _ _ _].
  destruct Hf' as [_ _ _ _ Hi' HI' _]. assert (inum x' = inum x) as En by (by rewrite W2). rewrite En in HI'.
  assert (forall j, inode_no sb j -> type (I' j) = type (I j) /\ nlink (I' j) = nlink (I j)) as Hsame.
  { intros j Hjn. destruct (decide (j = inum x)) as [->|Hne]; [rewrite HI, HI'; done|]. by destruct (W7 j Hjn Hne) as [-> _]. }
  split.
  - intros i Hin. destruct (Hsame i Hin) as [-> _]. intros Hti. destruct (decide (i = inum x)) as [->|Hne]; [by rewrite HI'|]. destruct (W7 i Hin Hne) as [-> _]. by apply D1.
  - intros i y Hin Hti Hy Hy0. destruct (Hsame i Hin) as [E _]. rewrite E in Hti.
    assert (inode_no sb (d_inum y) /\ type (I (d_inum y)) <> 0 /\ nlink (I (d_inum y)) <> 0) as (M1 & M2 & M3).
    { destruct (decide (i = inum x)) as [->|Hne].
      - rewrite HI' in Hy. apply list_elem_of_lookup in Hy as [j Hy]. destruct (decide (j = k)) as [->|Hjk]; [assert (y = e) as -> by congruence; done|].
        rewrite Hj in Hy by done. apply (D2 (inum x) y); [done|done| |done]. rewrite HI. by eapply list_elem_of_lookup_2.
      - destruct (W7 i Hin Hne) as [E1 E2]. rewrite E1, (entries_ext V V') in Hy by done. by apply (D2 i y). }
    destruct (Hsame _ M1) as [-> ->]. done.
Qed.

(** C19: dirlink adds a name to a directory.  In a locked directory that does
    not have the name, it returns 0 and afterwards the directory finds the name
    at the given inode and every other name as before; no other file and no
    other field changes, and the directories stay in order.  When the name is
    there it returns -1, changes no file and keeps no reference, but for a name
    the directory has for itself, as ".": then the process waits for the lock
    it holds. *)
Theorem dirlink_correct sb l0 s V I T dp x name n : can_link sb l0 s V I T [] dp x -> bytes_ok name -> readable DIRSIZ name -> 0 < n < 65536 ->
  match dir_find V (din x) (name_of name) with
  | None => exists s' V' I' T' x' k e, dirlink dp name n s = Ok (0, s') /\ open_file sb l0 s' V' I' T' dp x' /\
      dir_find V' (din x') (name_of name) = Some (k, e) /\ d_inum e = n /\
      (forall nm, nm <> name_of name -> dir_find V' (din x') nm = dir_find V (din x) nm) /\
      (type (din x') = type (din x) /\ nlink (din x') = nlink (din x)) /\
      (forall j, inode_no sb j -> j <> inum x -> I' j = I j /\ file_bytes V' (I j) = file_bytes V (I j)) /\
      (inode_no sb n -> type (I n) <> 0 -> nlink (I n) <> 0 -> dirs_ok sb V' I')
  | Some (_, e) =>
      if decide (d_inum e = inum x) then dirlink dp name n s = Err OutOfFuel
      else exists l' t', dirlink dp name n s = Ok (-1, set_flog l' (set_icache t' s)) /\ in_tx l0 l' V ∅ T /\
        icache_lk sb t' I [dp] /\ carries (icache s) t' None
  end.
Proof.
  intros Hck Hn1 Hn2 Hn. destruct (dir_find V (din x) (name_of name)) as [[k e]|] eqn:Hfind.
  - case_decide; [by eapply dirlink_self|]. destruct (wp_dirlink_taken sb l0 s V I T dp x name n k e) as (r & s' & E & -> & l' & t' & -> & Hrest); try done.
    by exists l', t'.
  - destruct (wp_dirlink_new sb l0 s V I T [] dp x name n) as (r & s' & E & -> & V' & I' & T' & x' & off & e & k & Hent & Hoth & He & Hw & Hfind' & Hnames & Hm); try done.
    pose proof Hw as [W1 _ (F1 & _ & _ & F2) _ _ _ W7 _ _ _ _]. exists s', V', I', T', x', k, e.
    split; [done|]. split; [done|]. split; [done|]. split; [done|]. split; [done|]. split; [done|]. split; [done|].
    intros N1 N2 N3. rewrite <-He in N1, N2, N3. eapply (dirs_ok_linked sb l0 s s'); [apply (of_in _ _ _ _ _ _ _ _ (ck_open _ _ _ _ _ _ _ _ _ Hck))|apply Hck|exact Hw|done|apply Hck|done..].
Qed.
End link.

(** ** An example: directories "/" and "/usr" and the file "/usr/f" *)
#[local] Instance dir_no_devices : Devsw unit := {| dev_read := fun _ => None; dev_write := fun _ => None |}.
Definition ex_name (l : list Z) : list Z := l ++ replicate (DIRSIZ - length l) 0.
Definition ex_dir (b n : Z) : dinode := mkDinode T_DIR 0 0 1 n (b :: replicate 12 0).
Definition ex_entries (es : list dirent) : list Z := put_bytes zero_block 0 (concat (encode_dirent <$> es)).
Definition ex_root_block : list Z := ex_entries [mkDirent 1 (ex_name [46]); mkDirent 1 (ex_name [46; 46]); mkDirent 2 (ex_name [117; 115; 114])].
Definition ex_usr_block : list Z := ex_entries [mkDirent 2 (ex_name [46]); mkDirent 1 (ex_name [46; 46]); mkDirent 3 (ex_name [102])].
Definition ex_tree (i : Z) : dinode :=
  if decide (i = 1) then ex_dir 59 48 else if decide (i = 2) then ex_dir 60 48 else if decide (i = 3) then ex_file else zero_dinode.
Definition ex_tree_blocks : gmap Z (list Z) :=
  <[60 := ex_usr_block]> (<[59 := ex_root_block]> (<[58 := fold_left mark (seqZ 0 61) zero_block]>
    (<[32 := put_dinode (ex_dir 59 48) (put_dinode (ex_dir 60 48) (put_dinode ex_file zero_block 3) 2) 1]> (<[1 := Log.ex_super]> ∅)))).

Lemma ex_tree_slot V i k : 0 <= k <= MAXFILE -> slot V (ex_tree i) k <> 0 -> k = 0 /\ ((i = 1 /\ slot V (ex_tree i) k = 59) \/ (i = 2 /\ slot V (ex_tree i) k = 60)).
Proof.
  rewrite maxfile_eq. intros Hk Hs. assert (forall a j, 0 <= j <= 12 -> word_at (a :: replicate 12 0) j = if decide (j = 0) then a else 0) as Hw.
  { intros a j Hj. unfold word_at. case_decide as Hj0; [by subst|]. destruct (Z.to_nat j) as [|m] eqn:Em; [lia|]. cbn [lookup list_lookup].
    destruct (replicate 12 0 !! m) eqn:E; [|done]. by apply lookup_replicate in E as [-> _]. }
  assert (forall a n t, slot V (mkDinode t 0 0 n 48 (a :: replicate 12 0)) k = if decide (k = 0) then a else 0) as Hd.
  { intros a n t. unfold slot, baddr, addr_at. rewrite maxfile_eq. cbn [addrs]. unfold NDIRECT. destruct (Z.eqb_spec k 140) as [->|].
    - rewrite Hw by lia. by rewrite !decide_False by lia.
    - destruct (Z.ltb_spec k 12); [by rewrite Hw by lia|]. rewrite Hw by lia. rewrite decide_False by lia. cbn. by rewrite decide_False by lia. }
  assert (forall d, addrs d = replicate 13 0 -> slot V d k = 0) as Hz.
  { intros d Ed. unfold slot, baddr, addr_at. rewrite Ed. change (replicate 13 0) with (0 :: replicate 12 0). unfold NDIRECT. rewrite (Hw 0 12) by lia. cbn.
    rewrite maxfile_eq. destruct (k =? 140); [done|]. destruct (Z.ltb_spec k 12); [|done]. rewrite Hw by lia. by case_decide. }
  unfold ex_tree in *. destruct (decide (i = 1)); [|destruct (decide (i = 2)); [|destruct (decide (i = 3)); by rewrite Hz in Hs]].
  - subst i. unfold ex_dir in *. rewrite Hd in *. destruct (decide (k = 0)); [|done]. split; [done|]. by left.
  - subst i. unfold ex_dir in *. rewrite Hd in *. destruct (decide (k = 0)); [|done]. split; [done|]. by right.
Qed.

Lemma ex_tree_fs : fs_disk ex_sb (read_disk ex_tree_blocks) ex_tree.
Proof.
  assert (forall i, inode_no ex_sb i -> dinode_on ex_sb (read_disk ex_tree_blocks) i = ex_tree i) as Hon.
  { intros i Hi. assert (forallb (fun i => bool_decide (dinode_on ex_sb (read_disk ex_tree_blocks) i = ex_tree i)) (seqZ 0 200) = true) as Hall by by vm_compute.
    pose proof (forallb_seqZ _ _ _ Hall i Hi) as Hd. by apply bool_decide_eq_true in Hd. }
  split; [by vm_compute| |by intros i Hi _; apply Hon]. split.
  - intros b _. unfold read_disk, ex_tree_blocks. rewrite !lookup_insert. repeat case_decide; by vm_compute.
  - intros b Hb. assert (forallb (used ex_sb (read_disk ex_tree_blocks)) (seqZ 0 59) = true) as Hall by by vm_compute.
    by apply (forallb_seqZ _ _ _ Hall).
  - intros i Hi. unfold ex_tree. repeat case_decide; by split.
  - intros i k Hi Hk Hs. destruct (ex_tree_slot _ i k Hk Hs) as [_ [[_ ->]|[_ ->]]]; split; by vm_compute.
  - intros i k i' k' Hi Hi' Hk Hk' Hs Heq. destruct (ex_tree_slot _ i k Hk Hs) as [-> HA]. rewrite Heq in Hs. destruct (ex_tree_slot _ i' k' Hk' Hs) as [-> HB].
    split; [|done]. rewrite Heq in HA. destruct HA as [[-> HA]|[-> HA]], HB as [[-> HB]|[-> HB]]; congruence.
  - intros i j Hi Hj Hlt. unfold ex_tree in *. unfold BSIZE in *. repeat case_decide; cbn in Hlt; try lia; assert (j = 0) as -> by lia; by vm_compute.
Qed.

(** The machine starts on that disk, and init's current directory is "/". *)
Definition ex_cwd : inode := mkInode 1 1 1 false false zero_dinode.
Lemma ex_tree_started : exists s, (_ ← forkret; iget 1 1) (booted ex_tree_blocks 1000 tt) = Ok (0%nat, s) /\ fs_idle ex_sb s ex_tree /\
  icache s = ex_cwd :: replicate 49 zero_inode /\ size (flog s) = 30 /\ nfree ex_sb (on_disk (flog s)) = 939%nat /\
  forall j, inode_no ex_sb j -> file_bytes (on_disk (flog s)) (ex_tree j) = file_bytes (read_disk ex_tree_blocks) (ex_tree j).
Proof.
  assert (log_disk ex_tree_blocks 1000 2 30 []) as Hld.
  { split; try reflexivity; [split; unfold LOGSIZE, MAXOPBLOCKS; unfold_bounds; lia|cbn; lia|by intros b ?%elem_of_nil]. }
  set (l0 := boot ex_tree_blocks 1000). set (l1 := mkLog 2 30 0 false 1 [] (bc l0)).
  assert (geo ex_sb l1) as Hgeo by (split; unfold_bounds; vm_compute; done).
  destruct (restart_ok ex_sb l1 ex_tree_blocks (read_disk ex_tree_blocks) ex_tree tt Hgeo) as (s & E & Hid & Hic & Hsz & Hsame & Hf); [by eapply recovers_disk|apply ex_tree_fs|].
  change (disksize (bc l1)) with 1000 in E. pose proof Hid as [Hsb Hlog Hg Hd Hc]. exists (set_icache (<[0%nat := ex_cwd]> (icache s)) s).
  split; [rewrite (bind_Ok _ _ _ _ _ E); exact (iget_empty s 1 Hic)|]. split; [split; [exact Hsb|exact Hlog|exact Hg|exact Hd|]|].
  { apply (icache_opened ex_sb (icache s) ex_tree 0%nat zero_inode 1); [exact Hc|by rewrite Hic|exact ex_inode_1|reflexivity|].
    intros y Hy Hry. rewrite Hic in Hy. apply elem_of_replicate in Hy as [-> _]. done. }
  split; [by cbn [icache set_icache]; rewrite Hic|]. split; [exact Hsz|]. split.
  - cbn [flog set_icache]. rewrite (nfree_same ex_sb l1 Hgeo _ _ Hsame). vm_compute. reflexivity.
  - intros j Hj. pose proof (file_of_idle ex_sb s ex_tree j Hid Hj) as H1. rewrite Hf in H1 by done.
    cbn [flog set_icache]. rewrite <-H1. apply (file_on_sync ex_sb _ ex_tree j (fd_sync _ _ _ ex_tree_fs) Hj).
Qed.

Lemma dir_find_ext V V' d nm : file_bytes V' d = file_bytes V d -> dir_find V' d nm = dir_find V d nm.
Proof. intros H. unfold dir_find. by rewrite (entries_ext V V' d H). Qed.

(** The premises of the theorems hold of it. *)
Lemma ex_dirs_ok V : (forall j, inode_no ex_sb j -> file_bytes V (ex_tree j) = file_bytes (read_disk ex_tree_blocks) (ex_tree j)) -> dirs_ok ex_sb V ex_tree.
Proof.
  intros HV. assert (forallb (fun i => negb (bool_decide (type (ex_tree i) = T_DIR)) || bool_decide (dsize (ex_tree i) mod DIRENT = 0)) (seqZ 0 200) = true) as H1 by by vm_compute.
  assert (forallb (fun i => forallb (fun e => (d_inum e =? 0) || bool_decide (0 <= d_inum e < 200) && negb (type (ex_tree (d_inum e)) =? 0) && negb (nlink (ex_tree (d_inum e)) =? 0))
    (entries (read_disk ex_tree_blocks) (ex_tree i))) (seqZ 0 200) = true) as H2 by by vm_compute.
  split.
  - intros i Hi Ht. pose proof (forallb_seqZ _ _ _ H1 i Hi) as Hd. cbn beta in Hd. rewrite bool_decide_eq_true_2 in Hd by done. by apply bool_decide_eq_true in Hd.
  - intros i e Hi Ht He H0. rewrite (entries_ext (read_disk ex_tree_blocks) V) in He by by apply HV. pose proof (forallb_seqZ _ _ _ H2 i Hi) as Hd. cbn beta in Hd.
    apply list_elem_of_In in He. apply (proj1 (List.forallb_forall _ _) Hd) in He. rewrite (proj2 (Z.eqb_neq _ _) H0) in He. cbn [orb] in He.
    apply andb_true_iff in He as [[E1%bool_decide_eq_true E2%negb_true_iff%Z.eqb_neq]%andb_true_iff E3%negb_true_iff%Z.eqb_neq].
    split; [exact E1|split; [exact E2|exact E3]].
Qed.

Lemma walk_ext sb V V' I i es : (forall j, inode_no sb j -> file_bytes V' (I j) = file_bytes V (I j)) -> dirs_ok sb V I -> inode_no sb i ->
  walk V' I i es = walk V I i es.
Proof.
  intros HV Hd. revert i. induction es as [|e es IH]; intros i Hi; [done|]. cbn [walk]. destruct (Z.eqb_spec (type (I i)) T_DIR) as [Ht|]; [|done].
  rewrite (dir_find_ext V V') by by apply HV. destruct (dir_find V (I i) (take DIRSIZ e)) as [[j d]|] eqn:E; [|done].
  apply IH. by apply (dir_find_entry sb V I Hd i _ j d Hi Ht E).
Qed.

Lemma ex_can_look (s : fstate unit) : fs_idle ex_sb s ex_tree -> icache s = ex_cwd :: replicate 49 zero_inode -> size (flog s) = 30 ->
  (forall j, inode_no ex_sb j -> file_bytes (on_disk (flog s)) (ex_tree j) = file_bytes (read_disk ex_tree_blocks) (ex_tree j)) ->
  can_look ex_sb (flog s) s (on_disk (flog s)) ex_tree ∅ 0 1.
Proof.
  intros [Hsb Hlog Hg [_ Hwf Hsync] Hic] Hc Hsz HV. split; [exact Hsb|exact Hg|by apply in_tx_idle| |exact Hwf|exact Hsync|by apply ex_dirs_ok|exact Hic| | | |].
  - unfold room. rewrite size_empty, Hsz. lia.
  - intros m. rewrite Hc. unfold refs. rewrite sumf_cons. rewrite sumf_const0.
    + unfold refs_in. cbn [inum iref ex_cwd]. unfold INT_MAX. destruct (1 =? m); cbn; lia.
    + intros x Hx. apply elem_of_replicate in Hx as [-> _]. unfold refs_in. cbn. by destruct m.
  - rewrite Hc. apply Nat.leb_le. by vm_compute.
  - split; [|by vm_compute]. exists ex_cwd. rewrite Hc. split; [reflexivity|]. split; reflexivity.
  - split; [exact ex_inode_1|]. split; by vm_compute.
Qed.

(** The path "/usr//f". *)
Definition ex_path : list Z := [47; 117; 115; 114; 47; 47; 102].

Lemma namei_correct_witness : exists s s' ip, (_ ← forkret; iget 1 1) (booted ex_tree_blocks 1000 tt) = Ok (0%nat, s) /\
  namei (ex_path ++ [0]) 0 s = Ok (Some ip, s') /\ refers (icache s') ip 3.
Proof.
  destruct ex_tree_started as (s & E & Hid & Hic & Hsz & _ & HV). pose proof (ex_can_look s Hid Hic Hsz HV) as Hcl.
  destruct (namei_correct ex_sb (flog s) s (on_disk (flog s)) ex_tree ∅ 0 1 ex_path [] Hcl) as [(r & s' & En & l' & t' & -> & _ & _ & _ & Hres) _].
  { repeat constructor. }
  rewrite (walk_ext ex_sb (read_disk ex_tree_blocks)) in Hres; [|exact HV|by apply ex_dirs_ok|exact ex_inode_1].
  assert (walk (read_disk ex_tree_blocks) ex_tree (start_of ex_path 1) (elements ex_path) = Some 3) as Hw by by vm_compute. rewrite Hw in Hres.
  destruct Hres as (ip & -> & Hrf). eexists s, _, ip. split; [exact E|]. split; [exact En|exact Hrf].
Defined.

(** "/" locked in a transaction. *)
Lemma ex_tree_locked : exists s l0 V T x, (_ ← forkret; _ ← iget 1 1; _ ← begin_tx; ilock 0) (booted ex_tree_blocks 1000 tt) = Ok (tt, s) /\
  can_link ex_sb l0 s V ex_tree T [] 0 x /\ inum x = 1 /\ dir_find V (din x) [103] = None.
Proof.
  destruct ex_tree_started as (s0 & E & Hid & Hic & Hsz & Hfree & HV). pose proof Hid as [Hsb Hlog Hg [_ Hwf Hsync] Hc].
  pose proof (ex_dirs_ok _ HV) as Hdirs. set (V := on_disk (flog s0)) in *. set (T := {[IBLOCK 1 ex_sb]} ∪ bitmap_set ex_sb : gset Z).
  assert (icache s0 !! 0%nat = Some ex_cwd) as H0 by by rewrite Hic.
  assert (wp (_ ← begin_tx; ilock 0) s0 (fun _ s => exists l0 x, can_link ex_sb l0 s V ex_tree T [] 0 x /\ inum x = 1)) as (r & s & E2 & l0 & x & Hck & Hx).
  { wp_step. apply wp_begin_tx; [exact Hlog|]. set (l0 := set_state 1 false (flog s0)). cbv zeta. intros Hl0. assert (geo ex_sb l0) as Hg0 by (eapply (geo_ext ex_sb (flog s0)); done).
    eapply (wp_ilock ex_sb l0 Hg0 _ V ex_tree T 0 ex_cwd); [exact Hsb|apply Hl0| |exact H0|reflexivity|exact ex_inode_1|reflexivity|reflexivity| |apply Hsync; [exact ex_inode_1|tauto]| |].
    - unfold room. cbn [size l0 set_state]. rewrite Hsz. vm_compute. reflexivity.
    - intros Hv. discriminate Hv.
    - by vm_compute.
    - intros l1 H1. set (x := locked_inode ex_cwd (ex_tree (inum ex_cwd))). exists l0, x. split; [|reflexivity].
      assert (icache_lk ex_sb (<[0%nat := x]> (icache s0)) ex_tree [0%nat]) as Hlk by (apply (lk_locked ex_sb); [by apply icache_lk_none|exact H0|reflexivity]).
      split; [exact Hg0|cbn; lia| |exact Hlk|reflexivity|exact Hdirs|by vm_compute| | | | |].
      + split; [split; [exact Hsb|exact H1| |reflexivity|exact ex_inode_1|reflexivity|exact Hwf]|exact Hsync| |].
        * cbn [icache set_flog set_icache]. by rewrite Hic.
        * intros b Hb%elem_of_bitmap_set. apply elem_of_union. right. exact Hb.
        * apply elem_of_union. left. apply elem_of_singleton. reflexivity.
      + vm_compute. discriminate.
      + intros m. cbn [icache set_flog set_icache]. rewrite Hic. change (<[0%nat := x]> (ex_cwd :: replicate 49 zero_inode)) with (x :: replicate 49 zero_inode).
        unfold refs. rewrite sumf_cons, sumf_const0.
        * unfold refs_in. change (inum x) with 1. change (iref x) with 1. unfold INT_MAX. destruct (1 =? m); cbn; lia.
        * intros y Hy. apply elem_of_replicate in Hy as [-> _]. unfold refs_in. cbn. by destruct m.
      + cbn [icache set_flog set_icache]. rewrite Hic. apply Nat.leb_le. by vm_compute.
      + rewrite Hfree. lia.
      + cbn [size l0 set_state]. rewrite Hsz. vm_compute. reflexivity. }
  destruct r. exists s, l0, V, T, x. split.
  { revert E. generalize (booted ex_tree_blocks 1000 tt). intros b E. unfold mbind, M_bind in *. destruct (forkret b) as [[[] s1]|]; [|discriminate E].
    rewrite E. exact E2. }
  split; [exact Hck|]. split; [exact Hx|]. destruct (ck_open _ _ _ _ _ _ _ _ _ Hck) as [[_ _ _ _ _ Hdin _] _ _ _]. rewrite <-Hdin, Hx.
  rewrite (dir_find_ext (read_disk ex_tree_blocks) V) by (apply HV, ex_inode_1). by vm_compute.
Qed.

Lemma dirlink_correct_witness : exists s s', (_ ← forkret; _ ← iget 1 1; _ ← begin_tx; ilock 0) (booted ex_tree_blocks 1000 tt) = Ok (tt, s) /\
  dirlink 0 [103; 0] 3 s = Ok (0, s') /\ exists V d k e, dir_find V d [103] = Some (k, e) /\ d_inum e = 3.
Proof.
  destruct ex_tree_locked as (s & l0 & V & T & x & E & Hck & Hx & Hno). pose proof (dirlink_correct ex_sb l0 s V ex_tree T 0 x [103; 0] 3 Hck) as Hd.
  change (name_of [103; 0]) with [103] in Hd. rewrite Hno in Hd. destruct Hd as (s' & V' & I' & T' & x' & k & e & Ed & _ & Hf & He & _).
  - constructor; [lia|constructor; [lia|constructor]].
  - right. apply list_elem_of_further, list_elem_of_here.
  - lia.
  - exists s, s'. split; [exact E|]. split; [exact Ed|]. exists V', (din x'), k, e. split; [exact Hf|exact He].
Defined.
