(* ===== verification/Trunc.v ===== *)
(** * Giving up files: the theorems about itrunc and iput in xv6 wmap/solution/fs.c

    Over the inode layer of Inode.v: itrunc frees every block of an inode and no
    other, and iput gives the inode up with the last reference to a file without
    links.  During itrunc the blocks are judged against the inodes as they will
    be, with the inode empty. *)
From stdpp Require Import functions.
From S2P Require Import Prelude Bio Log Block Inode Readwrite Fileop Dir.

(** ** Inodes whose blocks stay *)
Section fields.
Context (sb : superblock) (l0 : log) (Hgeo : geo sb l0).
Implicit Types (V : Z -> list Z) (I : Z -> dinode).

Lemma slot_addrs V d d' k : addrs d = addrs d' -> slot V d k = slot V d' k.
Proof. intros E. unfold slot, baddr, addr_at. by rewrite E. Qed.

Lemma file_bytes_addrs V d d' : addrs d = addrs d' -> dsize d = dsize d' -> file_bytes V d = file_bytes V d'.
Proof. intros E1 E2. unfold file_bytes, file_byte, baddr, addr_at. by rewrite E1, E2. Qed.

Lemma insert_inode V I i d j : addrs d = addrs (I i) -> addrs (<[i := d]> I j) = addrs (I j).
Proof. intros E. destruct (decide (i = j)) as [<-|Hne]; [by rewrite fn_lookup_insert|by rewrite fn_lookup_insert_ne]. Qed.

Lemma wf_fields V I i d : fs_wf sb V I -> fields_ok d -> addrs d = addrs (I i) -> dsize d = dsize (I i) -> fs_wf sb V (<[i := d]> I).
Proof.
  intros [A1 A2 A3 A4 A5 A6] Hd Ea Es. assert (forall j k, slot V (<[i := d]> I j) k = slot V (I j) k) as Hslot by (intros j k; apply slot_addrs; by apply insert_inode).
  split; [done|done| | | |].
  - intros j Hj. destruct (decide (i = j)) as [<-|Hne]; [by rewrite fn_lookup_insert|]. rewrite fn_lookup_insert_ne by done. by apply A3.
  - intros j k Hj Hk. rewrite Hslot. by apply A4.
  - intros j k j' k' Hj Hj' Hk Hk'. rewrite !Hslot. by apply A5.
  - intros j b Hj Hb Hlt. assert (dsize (<[i := d]> I j) = dsize (I j)) as Ed.
    { destruct (decide (i = j)) as [<-|Hne]; [by rewrite fn_lookup_insert|by rewrite fn_lookup_insert_ne]. }
    rewrite Ed in Hlt. pose proof (A6 j b Hj Hb Hlt) as Hnz. unfold baddr, addr_at in *. by rewrite insert_inode.
Qed.

(** Fields of inode [i] other than its blocks have been changed, on the disk too. *)
Record fields_set V I V' I' (i : Z) (d : dinode) : Prop := {
  fs_inode : I' i = d;
  fs_others : forall j, j <> i -> I' j = I j;
  fs_bytes : forall j, inode_no sb j -> file_bytes V' (I' j) = file_bytes V (I j);
  fs_free : nfree sb V' = nfree sb V;
  fs_meta : forall b, b < inodestart sb -> V' b = V b;
  fs_slots : forall j k, inode_no sb j -> slot V' (I' j) k = slot V (I j) k
}.

Lemma put_fields V I i d : fs_wf sb V I -> synced sb V I (fun _ => False) -> inode_no sb i -> fields_ok d -> addrs d = addrs (I i) -> dsize d = dsize (I i) ->
  let V' := <[IBLOCK i sb := put_dinode d (V (IBLOCK i sb)) (i mod IPB)]> V in let I' := <[i := d]> I in
  fs_wf sb V I' /\ fs_wf sb V' I' /\ synced sb V' I' (fun _ => False) /\ fields_set V I V' I' i d.
Proof.
  intros Hwf Hs Hi Hd Ea Es V' I'. assert (I' i = d) as Ei by apply fn_lookup_insert. pose proof (wf_fields V I i d Hwf Hd Ea Es) as Hwf'.
  assert (synced sb V I' (fun j => j = i)) as Hs'.
  { intros j Hj Hne. unfold I'. rewrite fn_lookup_insert_ne by done. apply Hs; [done|tauto]. }
  destruct (put_inode sb l0 Hgeo V I' i Hwf' Hi Hs') as (P1 & P2 & P3 & P4 & P5 & P6). rewrite Ei in P1, P2, P3, P4, P5, P6. split_and!; [done..|].
  pose proof (iblock_range sb l0 Hgeo i Hi) as Hib. split.
  - done.
  - intros j Hj. by apply fn_lookup_insert_ne.
  - intros j Hj. fold V' in P6. rewrite P6 by done. apply file_bytes_addrs; [by apply insert_inode|].
    unfold I'. destruct (decide (i = j)) as [<-|Hne]; [by rewrite fn_lookup_insert|by rewrite fn_lookup_insert_ne].
  - done.
  - intros b Hb. apply fn_lookup_insert_ne. lia.
  - intros j k Hj. fold V' in P4. rewrite P4 by done. apply slot_addrs. by apply insert_inode.
Qed.

(** Directories stay in order when only [nlink] of an inode changes, to a number
    that is not 0. *)
Lemma dirs_ok_fields V I V' I' i d : dirs_ok sb V I -> fields_set V I V' I' i d -> inode_no sb i ->
  type d = type (I i) -> dsize d = dsize (I i) -> nlink d <> 0 -> dirs_ok sb V' I'.
Proof.
  intros [D1 D2] [F1 F2 F3 _ _] Hi Et Es Hn. assert (forall j, type (I' j) = type (I j) /\ dsize (I' j) = dsize (I j)) as Hj.
  { intros j. destruct (decide (j = i)) as [->|Hne]; [by rewrite F1|by rewrite F2]. }
  split.
  - intros j Hjn. destruct (Hj j) as [-> ->]. by apply D1.
  - intros j e Hjn. destruct (Hj j) as [-> E]. intros Ht He He0.
    assert (e ∈ entries V (I j)) as He'. { unfold entries, entry_at in *. rewrite E, F3 in He by done. exact He. }
    destruct (D2 j e Hjn Ht He' He0) as (M1 & M2 & M3). destruct (Hj (d_inum e)) as [-> _]. split_and!; try done.
    destruct (decide (d_inum e = i)) as [->|Hne]; [by rewrite F1|by rewrite F2].
Qed.

(** Lookups see only types and entries. *)
Lemma dir_find_fields V I V' I' nm j : inode_no sb j -> dsize (I' j) = dsize (I j) -> file_bytes V' (I' j) = file_bytes V (I j) ->
  dir_find V' (I' j) nm = dir_find V (I j) nm.
Proof. intros Hj E1 E2. unfold dir_find, entries, entry_at. by rewrite E1, E2. Qed.

Lemma walk_fields V I V' I' i es : (forall j, inode_no sb j -> type (I' j) = type (I j) /\ dsize (I' j) = dsize (I j) /\ file_bytes V' (I' j) = file_bytes V (I j)) ->
  dirs_ok sb V I -> inode_no sb i -> walk V' I' i es = walk V I i es.
Proof.
  intros HI Hd. revert i. induction es as [|e es IH]; intros i Hi; [done|]. cbn [walk]. destruct (HI i Hi) as (E1 & E2 & E3). rewrite E1.
  destruct (Z.eqb_spec (type (I i)) T_DIR) as [Ht|]; [|done]. rewrite (dir_find_fields V I V' I' _ i) by done.
  destruct (dir_find V (I i) (take DIRSIZ e)) as [[j d]|] eqn:E; [|done]. apply IH. by apply (dir_find_entry sb V I Hd i _ j d Hi Ht E).
Qed.

(** What a walk reaches. *)
Lemma walk_live V I i es j : dirs_ok sb V I -> inode_no sb i -> type (I i) <> 0 -> walk V I i es = Some j ->
  inode_no sb j /\ type (I j) <> 0 /\ (j = i \/ (nlink (I j) <> 0 /\ exists k e d, dir_find V (I d) k = Some (e) /\ d_inum e.2 = j)).
Proof.
  intros Hd. revert i. induction es as [|e es IH]; intros i Hi Ht Hw; cbn [walk] in Hw; [injection Hw as ->; split_and!; [done|done|by left]|].
  destruct (Z.eqb_spec (type (I i)) T_DIR) as [Htd|]; [|done]. destruct (dir_find V (I i) (take DIRSIZ e)) as [[k d]|] eqn:E; [|done].
  destruct (dir_find_entry sb V I Hd i _ k d Hi Htd E) as (N1 & N2 & N3). destruct (IH _ N1 N2 Hw) as (M1 & M2 & [->|M3]).
  - split_and!; [done|done|]. right. split; [done|]. by exists (take DIRSIZ e), (k, d), i.
  - split_and!; [done|done|by right].
Qed.

Lemma walk_parent_live V I i es d e : dirs_ok sb V I -> inode_no sb i -> type (I i) <> 0 -> walk_parent V I i es = Some (d, e) ->
  inode_no sb d /\ type (I d) = T_DIR /\ (d = i \/ nlink (I d) <> 0).
Proof.
  intros Hd Hi Ht Hw. unfold walk_parent in Hw. destruct (last es) as [e0|]; [|done]. destruct (walk V I i (List.removelast es)) as [d0|] eqn:E; [|done].
  destruct (Z.eqb_spec (type (I d0)) T_DIR) as [Htd|]; [|done]. injection Hw as -> _. destruct (walk_live V I i _ d Hd Hi Ht E) as (M1 & M2 & M3).
  split_and!; [done|done|]. destruct M3 as [->|[M3 _]]; [by left|by right].
Qed.

Lemma walk_parent_fields V I V' I' i es : (forall j, inode_no sb j -> type (I' j) = type (I j) /\ dsize (I' j) = dsize (I j) /\ file_bytes V' (I' j) = file_bytes V (I j)) ->
  dirs_ok sb V I -> inode_no sb i -> type (I i) <> 0 -> walk_parent V' I' i es = walk_parent V I i es.
Proof.
  intros HI Hd Hi Ht. unfold walk_parent. rewrite (walk_fields V I V' I') by done. destruct (last es) as [e0|]; [|done].
  destruct (walk V I i (List.removelast es)) as [d0|] eqn:E; [|done]. destruct (walk_live V I i _ d0 Hd Hi Ht E) as (M1 & _). by destruct (HI d0 M1) as [-> _].
Qed.
End fields.

(** ** Inodes without blocks *)
Definition emptied (d : dinode) : dinode := mkDinode (type d) (major d) (minor d) (nlink d) 0 (replicate 13 0).

Section empty.
Context (sb : superblock) (l0 : log) (Hgeo : geo sb l0).
Implicit Types (V : Z -> list Z) (I : Z -> dinode).

Lemma slot_no_addrs V d k : addrs d = replicate 13 0 -> 0 <= k <= MAXFILE -> slot V d k = 0.
Proof.
  intros E Hk. assert (forall j, addr_at d j = 0) as Ha.
  { intros j. unfold addr_at, word_at. rewrite E. destruct (replicate 13 0 !! Z.to_nat j) eqn:El; [|done]. by apply lookup_replicate in El as [-> _]. }
  unfold slot, baddr. rewrite !Ha. by repeat case_match.
Qed.

(** The inodes without the blocks of inode [i]. *)
Lemma wf_emptied V I i d : fs_wf sb V I -> fields_ok d -> addrs d = replicate 13 0 -> dsize d = 0 -> fs_wf sb V (<[i := d]> I).
Proof.
  intros [A1 A2 A3 A4 A5 A6] Hd Ea Es. set (J := <[i := d]> I).
  assert (J i = d) as Ei by apply fn_lookup_insert. assert (forall j, j <> i -> J j = I j) as Ej by (intros j Hj; by apply fn_lookup_insert_ne).
  assert (forall j k, 0 <= k <= MAXFILE -> slot V (J j) k <> 0 -> j <> i) as Hne by (intros j k Hk Hs ->; by rewrite Ei, slot_no_addrs in Hs).
  split; [done|done| | | |].
  - intros j Hj. destruct (decide (j = i)) as [->|Hji]; [by rewrite Ei|rewrite Ej by done; by apply A3].
  - intros j k Hj Hk Hs. pose proof (Hne j k Hk Hs). rewrite Ej in * by done. by apply A4.
  - intros j k j' k' Hj Hj' Hk Hk' Hs He. pose proof (Hne j k Hk Hs). pose proof (Hne j' k' Hk' ltac:(by rewrite <-He)).
    rewrite !Ej in * by done. by apply A5.
  - intros j b Hj Hb Hlt. destruct (decide (j = i)) as [->|Hji]; [rewrite Ei, Es in Hlt; unfold BSIZE in Hlt; lia|]. rewrite Ej in * by done. by apply A6.
Qed.

(** Freeing a block that no inode has. *)
Lemma wf_freed V J b : fs_wf sb V J -> datastart sb <= b < sb_size sb -> (forall j k, inode_no sb j -> 0 <= k <= MAXFILE -> slot V (J j) k <> b) -> fs_wf sb (freed sb V b) J.
Proof.
  intros Hwf Hb Hno. destruct (geo_data sb l0 Hgeo) as (D1 & D2 & D3 & D4). assert (0 <= b < sb_size sb) as Hb0 by lia. pose proof (bblock_range sb b Hb0) as Hbb.
  assert (forall j k, inode_no sb j -> slot (freed sb V b) (J j) k = slot V (J j) k) as Hslot.
  { intros j k Hj. apply slot_frame. intros Hnz. unfold freed. apply fn_lookup_insert_ne. destruct (ind_range sb V J j Hwf Hj Hnz). unfold bitmap_block in Hbb. lia. }
  pose proof Hwf as [A1 A2 A3 A4 A5 A6]. split; [by eapply full_blocks_freed| |done| | |].
  - intros b' Hb'. rewrite (used_freed sb l0 Hgeo), bool_decide_eq_false_2 by (done || lia). by apply A2.
  - intros j k Hj Hk. rewrite Hslot by done. intros Hs. destruct (A4 j k Hj Hk Hs) as [R U]. split; [done|].
    rewrite (used_freed sb l0 Hgeo), bool_decide_eq_false_2 by (first [done|lia|by apply Hno]). done.
  - intros j k j' k' Hj Hj' Hk Hk'. rewrite !Hslot by done. by apply A5.
  - intros j k Hj Hk Hlt. assert (k < MAXFILE) as Hk2. { destruct (A3 j Hj) as [_ _ _ _ ? _]. unfold BSIZE in *. lia. }
    rewrite <-slot_baddr, Hslot, slot_baddr by (lia || done). by apply A6.
Qed.

Lemma used_outside V V' b : (forall b', ~ bitmap_block sb b' -> V' b' = V b') -> datastart sb <= b -> V' b = V b.
Proof. intros H Hb. apply H. unfold bitmap_block. lia. Qed.

(** Files whose blocks are not touched. *)
Lemma file_bytes_meta V V' J j : fs_wf sb V J -> (forall b, ~ bitmap_block sb b -> V' b = V b) -> inode_no sb j -> file_bytes V' (J j) = file_bytes V (J j).
Proof.
  intros Hwf HV Hj. unfold file_bytes. apply list_fmap_ext. intros n k Hk%lookup_seqZ. pose proof (fi_size _ (fw_fields _ _ _ Hwf j Hj)) as Hsz.
  apply (file_byte_frame sb V V' J j k); try done; [lia| | |apply (fw_data _ _ _ Hwf j); [done|unfold BSIZE; zlia|unfold BSIZE in *; zlia]].
  - intros m. apply slot_frame. intros Hnz. destruct (ind_range sb V J j Hwf Hj Hnz). eapply used_outside; [exact HV|lia].
  - intros b Hb. eapply used_outside; [exact HV|lia].
Qed.

(** ** The free map during itrunc

    The blocks of inode [i] in the slots [K] have been freed. *)
Record truncating (V0 : Z -> list Z) (I : Z -> dinode) (i : Z) (J : Z -> dinode) (K : Z -> Prop) (V : Z -> list Z) : Prop := {
  tc_wf : fs_wf sb V J;
  tc_same : forall b, ~ bitmap_block sb b -> V b = V0 b;
  tc_freed : forall k, 0 <= k <= MAXFILE -> slot V0 (I i) k <> 0 -> K k -> used sb V (slot V0 (I i) k) = false;
  tc_used : forall k, 0 <= k <= MAXFILE -> slot V0 (I i) k <> 0 -> ~ K k -> used sb V (slot V0 (I i) k) = true;
  tc_others : forall b, 0 <= b < sb_size sb -> (forall k, 0 <= k <= MAXFILE -> slot V0 (I i) k <> b) -> used sb V b = used sb V0 b
}.

Section truncating.
Context (V0 : Z -> list Z) (I : Z -> dinode) (i : Z) (d : dinode) (Hwf : fs_wf sb V0 I) (Hi : inode_no sb i).
Context (Hd : fields_ok d) (Hda : addrs d = replicate 13 0) (Hds : dsize d = 0).
Notation J := (<[i := d]> I).

Lemma truncating_start : truncating V0 I i J (fun _ => False) V0.
Proof.
  split; [by apply wf_emptied|done|done| |done]. intros k Hk Hs _. by apply (fw_slot _ _ _ Hwf i k Hi Hk Hs).
Qed.

Lemma truncating_ext K K' V : truncating V0 I i J K V -> (forall k, 0 <= k <= MAXFILE -> slot V0 (I i) k <> 0 -> K k <-> K' k) -> truncating V0 I i J K' V.
Proof.
  intros [A1 A2 A3 A4 A5] HK. split; try done.
  - intros k Hk Hs HKk. apply A3; [done|done|]. by apply HK.
  - intros k Hk Hs HKk. apply A4; [done|done|]. by rewrite HK.
Qed.

(** bfree of the block in slot [k]. *)
Lemma truncating_step K V k : truncating V0 I i J K V -> 0 <= k <= MAXFILE -> slot V0 (I i) k <> 0 -> ~ K k ->
  truncating V0 I i J (fun j => K j \/ j = k) (freed sb V (slot V0 (I i) k)).
Proof.
  intros [A1 A2 A3 A4 A5] Hk Hs HK. set (b := slot V0 (I i) k) in *. destruct (geo_data sb l0 Hgeo) as (D1 & D2 & D3 & D4).
  destruct (fw_slot _ _ _ Hwf i k Hi Hk Hs) as [Hr Hu]. fold b in Hr, Hu. assert (0 <= b < sb_size sb) as Hb0 by lia.
  assert (forall b', 0 <= b' < sb_size sb -> used sb (freed sb V b) b' = negb (bool_decide (b' = b)) && used sb V b') as Huf.
  { intros b' Hb'. by apply (used_freed sb l0 Hgeo); [apply A1| |]. }
  split.
  - apply wf_freed; [done|done|]. intros j m Hj Hm He. destruct (decide (j = i)) as [->|Hji].
    + rewrite fn_lookup_insert, slot_no_addrs in He by done. lia.
    + rewrite fn_lookup_insert_ne in He by done. rewrite (slot_frame V0 V) in He.
      * symmetry in He. unfold b in He. destruct (fw_inj _ _ _ Hwf i k j m Hi Hj Hk Hm Hs He). congruence.
      * intros Hnz. destruct (ind_range sb V0 I j Hwf Hj Hnz). eapply used_outside; [exact A2|lia].
  - intros b' Hb'. unfold freed. pose proof (bblock_range sb b Hb0). rewrite fn_lookup_insert_ne; [by apply A2|congruence].
  - intros m Hm Hsm HKm. destruct (fw_slot _ _ _ Hwf i m Hi Hm Hsm) as [Hrm _]. rewrite Huf by lia. destruct HKm as [HKm| ->]; [by rewrite A3, andb_false_r|].
    by rewrite bool_decide_eq_true_2.
  - intros m Hm Hsm HKm. destruct (fw_slot _ _ _ Hwf i m Hi Hm Hsm) as [Hrm _]. rewrite Huf, A4 by (try done; try lia; tauto).
    rewrite bool_decide_eq_false_2; [done|]. intros He. apply HKm. right. by apply (fw_inj _ _ _ Hwf i m i k Hi Hi Hm Hk Hsm He).
  - intros b' Hb' Hno. rewrite Huf, A5 by done. rewrite bool_decide_eq_false_2; [done|]. intros ->. by apply (Hno k).
Qed.

Lemma truncating_block K V k : truncating V0 I i J K V -> 0 <= k <= MAXFILE -> slot V0 (I i) k <> 0 -> ~ K k ->
  datastart sb <= slot V0 (I i) k < sb_size sb /\ used sb V (slot V0 (I i) k) = true.
Proof. intros H Hk Hs HK. split; [by apply (fw_slot _ _ _ Hwf i k Hi Hk Hs)|]. by apply (tc_used _ _ _ _ _ _ H). Qed.
End truncating.
End empty.

(** ** itrunc *)
Definition set_addrs (l : list Z) (d : dinode) : dinode := mkDinode (type d) (major d) (minor d) (nlink d) (dsize d) l.

Section itrunc.
Context {DS : Type} `{HDS : Devsw DS} (sb : superblock) (l0 : log) (Hgeo : geo sb l0) (Hops : 1 <= outstanding l0).
Context (V0 : Z -> list Z) (I : Z -> dinode) (i : Z) (d : dinode) (Hwf : fs_wf sb V0 I) (Hi : inode_no sb i).
Context (Hd : fields_ok d) (Hda : addrs d = replicate 13 0) (Hds : dsize d = 0).
Context (T : gset Z) (Hbm : forall b, bitmap_block sb b -> b ∈ T) (Hroom : room l0 T).
Implicit Types (s : fstate DS) (V : Z -> list Z) (ip : nat) (l : log).
Notation J := (<[i := d]> I).

(** bfree of the block in slot [k]. *)
Lemma wp_free_slot s V H K k (Q : unit -> fstate DS -> Prop) : in_tx l0 (flog s) V H T -> (base.size H <= 1)%nat -> (forall b, bitmap_block sb b -> not_held H b) ->
  truncating sb V0 I i J K V -> 0 <= k <= MAXFILE -> slot V0 (I i) k <> 0 -> ~ K k ->
  (forall l' V', in_tx l0 l' V' H T -> truncating sb V0 I i J (fun j => K j \/ j = k) V' -> Q tt (set_flog l' s)) ->
  wp (with_log (bfree sb 1 (slot V0 (I i) k))) s Q.
Proof.
  intros Hl HH Hnh Ht Hk Hs HK HQ. destruct (truncating_block sb V0 I i d Hwf Hi K V k Ht Hk Hs HK) as [Hr Hu].
  destruct (geo_data sb l0 Hgeo) as (D1 & D2 & D3 & D4). assert (0 <= slot V0 (I i) k < sb_size sb) as Hr0 by lia. pose proof (bblock_range sb _ Hr0) as Hbb.
  apply wp_with_log. eapply (wp_bfree sb l0 Hgeo Hops (flog s) V H T); [exact Hl|apply Ht|exact HH|by apply Hnh|exact Hr0|exact Hu|by apply Hbm|exact Hroom|].
  intros l' Hl'. eapply HQ; [exact Hl'|]. by apply (truncating_step sb l0 Hgeo V0 I i d Hwf Hi Hda).
Qed.

Lemma wp_itrunc_direct n k s V ip x (Q : unit -> fstate DS -> Prop) : (k + n = 12)%nat -> fsb s = sb -> in_tx l0 (flog s) V ∅ T -> icache s !! ip = Some x -> idev x = 1 ->
  addrs (din x) = replicate k 0 ++ drop k (addrs (I i)) -> truncating sb V0 I i J (fun j => j < Z.of_nat k) V ->
  (forall l' V', in_tx l0 l' V' ∅ T -> truncating sb V0 I i J (fun j => j < 12) V' ->
    Q tt (set_flog l' (set_icache (<[ip := set_din (set_addrs (replicate 12 0 ++ drop 12 (addrs (I i))) (din x)) x]> (icache s)) s))) ->
  wp (itrunc_direct n ip (Z.of_nat k)) s Q.
Proof.
  pose proof (fi_addrs _ (fw_fields _ _ _ Hwf i Hi)) as Hlen. pose proof maxfile_eq as Hmf.
  revert k s V x. induction n as [|n IH]; intros k s V x Hkn Hsb Hl Hx Hdev Ha Ht HQ; cbn [itrunc_direct].
  { assert (k = 12%nat) as -> by lia. wp_step. specialize (HQ (flog s) V Hl Ht). rewrite <-Ha in HQ.
    replace (set_din (set_addrs (addrs (din x)) (din x)) x) with x in HQ by (by destruct x as [? ? ? ? ? []]). rewrite list_insert_id in HQ by done. by destruct s. }
  wp_step. apply wp_the_sb. wp_step. eapply wp_geti; [exact Hx|]. rewrite Hsb, Hdev.
  assert (addr_at (din x) (Z.of_nat k) = slot V0 (I i) (Z.of_nat k)) as Ea.
  { rewrite slot_baddr by lia. unfold baddr. rewrite (proj2 (Z.ltb_lt _ _)) by (unfold NDIRECT; lia). unfold addr_at, word_at. rewrite Ha, Nat2Z.id.
    rewrite lookup_app_r by (rewrite length_replicate; lia). by rewrite length_replicate, lookup_drop, Nat.sub_diag, Nat.add_0_r. }
  assert (forall a, addrs (I i) !! k = Some a -> drop k (addrs (I i)) = a :: drop (S k) (addrs (I i))) as Hdrop by (intros a; apply drop_S).
  destruct (lookup_lt_is_Some_2 (addrs (I i)) k ltac:(lia)) as [a Hka]. pose proof (Hdrop a Hka) as Hdk.
  assert (addr_at (din x) (Z.of_nat k) = a) as Eka.
  { unfold addr_at, word_at. rewrite Ha, Hdk, Nat2Z.id. rewrite lookup_app_r, length_replicate, Nat.sub_diag by (rewrite length_replicate; lia). done. }
  replace (Z.of_nat k + 1) with (Z.of_nat (S k)) by lia. rewrite Eka. rewrite Eka in Ea. destruct (Z.eqb_spec a 0) as [Ha0|Ha0].
  - wp_step. wp_step. eapply (IH (S k) s V x); try done; [lia| |].
    + rewrite Ha, Hdk, Ha0. by rewrite replicate_S_end, <-app_assoc.
    + eapply truncating_ext; [exact Ht|]. intros m Hm Hsm. split; [lia|]. intros Hlt. destruct (decide (m = Z.of_nat k)) as [->|]; [congruence|lia].
  - wp_step. wp_step. rewrite Ea. eapply (wp_free_slot s V ∅ _ (Z.of_nat k)); [exact Hl|by rewrite map_size_empty; lia|intros b _; apply not_held_empty|exact Ht|lia|congruence|cbn beta; lia|].
    intros l1 V1 Hl1 Ht1. eapply wp_updi; [exact Hx|]. set (x1 := set_din _ x). pose proof (lookup_lt_Some _ _ _ Hx) as Hlt. set (s1 := set_icache _ _).
    assert (icache s1 !! ip = Some x1) as Hx1 by (by apply list_lookup_insert_eq). eapply (IH (S k) s1 V1 x1); try done; [lia| | |].
    + unfold x1, set_addr. cbn [din set_din addrs]. rewrite Ha, Hdk, Nat2Z.id. rewrite insert_app_r_alt by (rewrite length_replicate; lia).
      rewrite length_replicate, Nat.sub_diag. cbn [insert list_insert]. by rewrite replicate_S_end, <-app_assoc.
    + eapply truncating_ext; [exact Ht1|]. intros m Hm Hsm. cbn beta. lia.
    + intros l' V' Hl' Ht'. specialize (HQ l' V' Hl' Ht'). unfold s1. cbn [icache set_icache set_flog]. rewrite list_insert_insert_eq. exact HQ.
Qed.

Lemma indirect_slot k : 0 <= k < 128 -> addr_at (I i) NDIRECT <> 0 -> slot V0 (I i) (12 + k) = word_at (V0 (addr_at (I i) NDIRECT)) k.
Proof.
  intros Hk Hnz. rewrite slot_baddr by (rewrite maxfile_eq; lia). unfold baddr. rewrite (proj2 (Z.ltb_ge _ _)) by (unfold NDIRECT; lia).
  rewrite (proj2 (Z.eqb_neq _ _)) by done. f_equal. unfold NDIRECT. lia.
Qed.

Lemma wp_itrunc_indirect n k s V bi (Q : unit -> fstate DS -> Prop) : let ind := addr_at (I i) NDIRECT in let H := {[bi := (ind, V0 ind)]} : gmap nat (Z * list Z) in
  (k + n = 128)%nat -> ind <> 0 -> fsb s = sb -> in_tx l0 (flog s) V H T -> truncating sb V0 I i J (fun j => j < 12 + Z.of_nat k) V ->
  (forall l' V', in_tx l0 l' V' H T -> truncating sb V0 I i J (fun j => j < 140) V' -> Q tt (set_flog l' s)) ->
  wp (itrunc_indirect n 1 bi (Z.of_nat k)) s Q.
Proof.
  intros ind H. pose proof maxfile_eq as Hmf. revert k s V. induction n as [|n IH]; intros k s V Hkn Hnz Hsb Hl Ht HQ; cbn [itrunc_indirect].
  { assert (k = 128%nat) as -> by lia. wp_step. specialize (HQ (flog s) V Hl Ht). by destruct s. }
  destruct (ind_range sb V0 I i Hwf Hi Hnz) as [Hir _].
  wp_step. apply wp_the_sb. rewrite Hsb. wp_step. apply wp_with_log. eapply wp_bdata; [exact Hl|apply lookup_singleton_eq|]. cbn beta iota.
  assert (slot V0 (I i) (12 + Z.of_nat k) = word_at (V0 ind) (Z.of_nat k)) as Es by (apply indirect_slot; [lia|done]).
  replace (Z.of_nat k + 1) with (Z.of_nat (S k)) by lia. rewrite <-Es. destruct (Z.eqb_spec (slot V0 (I i) (12 + Z.of_nat k)) 0) as [Ha0|Ha0].
  - wp_step. wp_step. eapply (IH (S k) _ V); try done; [lia|].
    eapply truncating_ext; [exact Ht|]. intros m Hm Hsm. cbn beta. split; [lia|]. intros Hlt. destruct (decide (m = 12 + Z.of_nat k)) as [->|]; [congruence|lia].
  - wp_step. eapply (wp_free_slot _ V H _ (12 + Z.of_nat k)); [exact Hl|unfold H; by rewrite map_size_singleton| |exact Ht|lia|exact Ha0|cbn beta; lia|].
    { intros b Hb j c Hj. apply lookup_singleton_Some in Hj as [_ [= Hbi _]]. unfold bitmap_block in Hb. lia. }
    intros l1 V1 Hl1 Ht1. eapply (IH (S k) _ V1); try done; [lia|].
    eapply truncating_ext; [exact Ht1|]. intros m Hm Hsm. cbn beta. lia.
Qed.
End itrunc.

(** Inode [i] has become [d], without blocks, and its blocks are free. *)
Record given_up (sb : superblock) (V : Z -> list Z) (I : Z -> dinode) (V' : Z -> list Z) (I' : Z -> dinode) (i : Z) (d : dinode) : Prop := {
  gu_wf : fs_wf sb V' I';
  gu_sync : synced sb V' I' (fun _ => False);
  gu_inode : I' i = d;
  gu_others : forall j, j <> i -> I' j = I j;
  gu_bytes : forall j, inode_no sb j -> j <> i -> file_bytes V' (I' j) = file_bytes V (I j);
  gu_freed : forall k, 0 <= k <= MAXFILE -> slot V (I i) k <> 0 -> used sb V' (slot V (I i) k) = false;
  gu_meta : forall b, b < inodestart sb -> V' b = V b
}.

Section giving_up.
Context {DS : Type} `{HDS : Devsw DS} (sb : superblock) (l0 : log) (Hgeo : geo sb l0) (Hops : 1 <= outstanding l0).
Implicit Types (s : fstate DS) (V : Z -> list Z) (I : Z -> dinode) (T : gset Z) (ip : nat) (l : log).

Lemma fields_emptied d : fields_ok d -> fields_ok (emptied d).
Proof. intros [A B C D E F]. by split. Qed.

(** Fields of an inode that has been given up change. *)
Lemma given_up_put V I V1 I1 i d d' : fs_wf sb V I -> given_up sb V I V1 I1 i d -> inode_no sb i -> fields_ok d' -> addrs d' = addrs d -> dsize d' = dsize d ->
  let V2 := <[IBLOCK i sb := put_dinode d' (V1 (IBLOCK i sb)) (i mod IPB)]> V1 in fs_wf sb V1 (<[i := d']> I1) /\ given_up sb V I V2 (<[i := d']> I1) i d'.
Proof.
  intros Hwf [A1 A2 A3 A4 A5 A6 A7] Hi Hd Ea Es V2. assert (addrs d' = addrs (I1 i)) as Ea' by by rewrite A3. assert (dsize d' = dsize (I1 i)) as Es' by by rewrite A3.
  destruct (put_fields sb l0 Hgeo V1 I1 i d' A1 A2 Hi Hd Ea' Es') as (P1 & P2 & P3 & [F1 F2 F3 F4 F5]). split; [done|]. split; try done.
  - intros j Hj. by rewrite F2, A4.
  - intros j Hj Hji. rewrite F3, A5; done.
  - intros k Hk Hs. rewrite <-(A6 k Hk Hs). destruct (geo_data sb l0 Hgeo) as (D1 & D2 & D3 & D4). pose proof (iblock_range sb l0 Hgeo i Hi).
    destruct (fw_slot _ _ _ Hwf i k Hi Hk Hs) as [Hr _]. pose proof (bblock_range sb (slot V (I i) k) ltac:(lia)) as [Hb _].
    unfold used, V2. rewrite fn_lookup_insert_ne; [done|lia].
  - intros b Hb. rewrite F5, A7; done.
Qed.

(** After the last bfree, with the empty inode written. *)
Lemma truncated_put V0 V I i (d := emptied (I i)) : fs_wf sb V0 I -> synced sb V0 I (fun _ => False) -> inode_no sb i -> truncating sb V0 I i (<[i := d]> I) (fun j => j < 141) V ->
  given_up sb V0 I (<[IBLOCK i sb := put_dinode d (V (IBLOCK i sb)) (i mod IPB)]> V) (<[i := d]> I) i d.
Proof.
  intros Hwf Hsync Hi [A1 A2 A3 A4 A5]. destruct (geo_data sb l0 Hgeo) as (D1 & D2 & D3 & D4). set (J := <[i := d]> I) in *. assert (J i = d) as Ei by apply fn_lookup_insert.
  assert (forall j, j <> i -> J j = I j) as Ej by (intros j Hj; by apply fn_lookup_insert_ne).
  assert (synced sb V J (fun j => j = i)) as Hs.
  { intros j Hj Hne. rewrite Ej by done. rewrite <-(Hsync j Hj ltac:(tauto)). unfold dinode_on. rewrite A2; [done|]. unfold bitmap_block. pose proof (iblock_range sb l0 Hgeo j Hj). lia. }
  destruct (put_inode sb l0 Hgeo V J i A1 Hi Hs) as (P1 & P2 & P3 & P4 & P5 & P6). rewrite Ei in P1, P2, P3, P4, P5, P6. pose proof (iblock_range sb l0 Hgeo i Hi) as Hib.
  split; try done.
  - intros j Hj Hji. rewrite P6 by done. rewrite (file_bytes_meta sb V0 V J j); [by rewrite Ej| |done|done].
    apply wf_emptied; [done|apply fields_emptied; by apply Hwf|done|done].
  - intros k Hk Hsk. rewrite <-(A3 k Hk Hsk) by (rewrite maxfile_eq in Hk; lia). destruct (fw_slot _ _ _ Hwf i k Hi Hk Hsk) as [Hr _].
    pose proof (bblock_range sb (slot V0 (I i) k) ltac:(lia)) as [Hb _]. unfold used. rewrite P5; [done|lia].
  - intros b Hb. rewrite fn_lookup_insert_ne by lia. apply A2. unfold bitmap_block. lia.
Qed.

Lemma wp_itrunc s V I T ip i x (Q : unit -> fstate DS -> Prop) : in_file sb l0 s V I T ip x -> inum x = i -> synced sb V I (fun _ => False) ->
  (forall b, bitmap_block sb b -> b ∈ T) -> IBLOCK i sb ∈ T -> room l0 T ->
  (forall l' V', in_tx l0 l' V' ∅ T -> given_up sb V I V' (<[i := emptied (I i)]> I) i (emptied (I i)) ->
    Q tt (set_flog l' (set_icache (<[ip := set_din (emptied (I i)) x]> (icache s)) s))) ->
  wp (itrunc ip) s Q.
Proof.
  intros [Hsb Hl Hx Hdev Hi HI Hwf] Ei Hsync Hbm HiT Hroom HQ. rewrite Ei in *. set (d := emptied (I i)) in *. pose proof maxfile_eq as Hmf.
  assert (fields_ok d) as Hd by (apply fields_emptied; by apply Hwf). pose proof (fi_addrs _ (fw_fields _ _ _ Hwf i Hi)) as Hlen. pose proof (lookup_lt_Some _ _ _ Hx) as Hlt.
  destruct (geo_data sb l0 Hgeo) as (D1 & D2 & D3 & D4). pose proof (ge_disk _ _ Hgeo) as Hgd.
  unfold itrunc. wp_step. change 0 with (Z.of_nat 0) at 2. eapply (wp_itrunc_direct sb l0 Hgeo Hops V I i d Hwf Hi eq_refl T Hbm Hroom 12 0 s V ip x); try done.
  { by rewrite <-HI. }
  { eapply truncating_ext; [by apply truncating_start|]. intros k Hk _. cbn beta. lia. }
  intros l1 V1 Hl1 Ht1. set (x1 := set_din _ x). set (s1 := set_flog l1 _). assert (icache s1 !! ip = Some x1) as Hx1 by (by apply list_lookup_insert_eq).
  assert (addr_at (din x1) NDIRECT = addr_at (I i) NDIRECT) as Ea.
  { unfold addr_at, word_at, x1. cbn [din set_din set_addrs addrs]. change (Z.to_nat NDIRECT) with 12%nat. by rewrite lookup_app_r, length_replicate, lookup_drop by (rewrite length_replicate; lia). }
  wp_step. eapply wp_geti; [exact Hx1|]. rewrite Ea.
  assert (forall l2 V2 x2, in_tx l0 l2 V2 ∅ T -> truncating sb V I i (<[i := d]> I) (fun j => j < 141) V2 -> set_din (set_dsize 0 (din x2)) x2 = set_din d x ->
    wp (_ ← updi ip (fun x => set_din (set_dsize 0 (din x)) x); iupdate ip) (set_flog l2 (set_icache (<[ip := x2]> (icache s)) s)) Q) as Hend.
  { intros l2 V2 x2 Hl2 Ht2 Ex. wp_step. eapply wp_updi; [by apply list_lookup_insert_eq|]. rewrite Ex. set (x3 := set_din d x). set (s3 := set_icache _ _).
    assert (s3 = set_flog l2 (set_icache (<[ip := x3]> (icache s)) s)) as -> by (unfold s3, set_flog, set_icache; cbn; by rewrite list_insert_insert_eq).
    assert (inum x3 = i) as Ei3 by done.
    eapply (wp_iupdate sb l0 Hgeo Hops _ V2 (<[i := d]> I) T ip x3); [|by rewrite Ei3|exact Hroom|].
    - split; try done; [by apply list_lookup_insert_eq|by rewrite Ei3|rewrite Ei3; apply fn_lookup_insert|apply Ht2].
    - intros l3 Hl3. rewrite Ei3 in Hl3. apply (HQ l3 _ Hl3). by apply truncated_put. }
  assert (x1 = set_din (set_addrs (replicate 12 0 ++ drop 12 (addrs (I i))) (I i)) x) as Ex1 by (unfold x1; by rewrite HI).
  destruct (lookup_lt_is_Some_2 (addrs (I i)) 12 ltac:(lia)) as [a Ha12]. assert (addr_at (I i) NDIRECT = a) as Ea12 by (unfold addr_at, word_at; change (Z.to_nat NDIRECT) with 12%nat; by rewrite Ha12).
  assert (drop 12 (addrs (I i)) = [a]) as Edrop by (rewrite (drop_S _ _ _ Ha12); f_equal; apply nil_length_inv; rewrite length_drop; lia).
  destruct (Z.eqb_spec (addr_at (I i) NDIRECT) 0) as [Hz|Hnz].
  - wp_step. wp_step. eapply (Hend l1 V1 x1); [exact Hl1| |].
    + eapply truncating_ext; [exact Ht1|]. intros k Hk Hs. cbn beta. split; [lia|]. intros _. destruct (decide (k < 12)) as [|Hge]; [done|]. exfalso. apply Hs.
      unfold slot, baddr. rewrite Hz. destruct (k =? MAXFILE); [done|]. rewrite (proj2 (Z.ltb_ge _ _)); [done|unfold NDIRECT; lia].
    + rewrite Ex1, Edrop, <-Ea12, Hz. done.
  - destruct (ind_range sb V I i Hwf Hi Hnz) as [Hir _]. set (ind := addr_at (I i) NDIRECT) in *.
    wp_step. wp_step. apply wp_the_sb. change (idev x1) with (idev x). rewrite Hdev.
    wp_step. apply wp_with_log. eapply wp_bread; [exact Hl1|lia|apply not_held_empty|done|rewrite map_size_empty; lia|]. intros bi l2 _ Hl2.
    assert (V1 ind = V ind) as Eind by (apply (tc_same _ _ _ _ _ _ _ Ht1); unfold bitmap_block; lia). rewrite Eind in Hl2.
    wp_step. change 0 with (Z.of_nat 0) at 1.
    eapply (wp_itrunc_indirect sb l0 Hgeo Hops V I i d Hwf Hi eq_refl T Hbm Hroom 128 0 _ V1 bi); [done|exact Hnz|done|by rewrite insert_empty in Hl2| |].
    { eapply truncating_ext; [exact Ht1|]. intros k Hk _. cbn beta. lia. }
    intros l3 V3 Hl3 Ht3. wp_step. apply wp_with_log. eapply wp_brelse; [exact Hl3|rewrite lookup_singleton_eq; do 2 f_equal; symmetry; apply (tc_same _ _ _ _ _ _ _ Ht3); unfold bitmap_block; lia|].
    intros l4 Hl4. rewrite delete_singleton_eq in Hl4. assert (slot V (I i) MAXFILE = ind) as Eslot by apply slot_ind.
    wp_step. change (fsb s1) with (fsb s). rewrite Hsb. rewrite <-Eslot.
    eapply (wp_free_slot sb l0 Hgeo Hops V I i d Hwf Hi eq_refl T Hbm Hroom _ V3 ∅ _ MAXFILE); [exact Hl4|by rewrite map_size_empty; lia|intros b _; apply not_held_empty|exact Ht3|lia|by rewrite Eslot|cbn beta; lia|].
    intros l5 V5 Hl5 Ht5. eapply wp_updi; [exact Hx1|]. set (x2 := set_din _ x1). set (s5 := set_icache _ _).
    assert (s5 = set_flog l5 (set_icache (<[ip := x2]> (icache s)) s)) as -> by (unfold s5, s1, set_flog, set_icache; cbn; by rewrite list_insert_insert_eq).
    eapply (Hend l5 V5 x2); [exact Hl5| |].
    + eapply truncating_ext; [exact Ht5|]. intros k Hk Hs. cbn beta. rewrite Hmf. lia.
    + unfold x2. rewrite Ex1. cbn [din set_din]. unfold set_addr. cbn [addrs set_addrs]. rewrite Edrop. change (Z.to_nat NDIRECT) with 12%nat. done.
Qed.

(** The table without the entry of an inode that is given up. *)
Lemma icache_lk_dropped t I I' L ip x y : icache_lk sb t I L -> t !! ip = Some x -> 0 < iref x -> iref y = 0 -> ilocked y = false -> ip ∉ L ->
  (forall j, inode_no sb j -> j <> inum x -> I' j = I j) -> icache_lk sb (<[ip := y]> t) I' L.
Proof.
  intros H Hx Hr Hy Hyl HL HI. assert (forall j z, <[ip := y]> t !! j = Some z -> (j = ip /\ z = y) \/ (j <> ip /\ t !! j = Some z)) as Hcase.
  { intros j z Hz. apply list_lookup_insert_Some in Hz as [(<- & <- & _)|(Hne & Hz)]; [by left|by right]. }
  assert (forall j z, (set_ilocked false <$> <[ip := y]> t) !! j = Some z -> iref z = 0 \/ exists w, j <> ip /\ t !! j = Some w /\ z = set_ilocked false w) as Hcase2.
  { intros j z Hz. rewrite list_lookup_fmap in Hz. destruct (<[ip := y]> t !! j) as [w|] eqn:Hw; [|done]. injection Hz as <-.
    destruct (Hcase j w Hw) as [[-> ->]|[Hne Hw']]; [by left|right; by exists w]. }
  split; [split|].
  - intros j z Hz. destruct (Hcase2 j z Hz) as [->|(w & _ & Hw & ->)]; [lia|]. by apply (lk_ref sb t I L j w H Hw).
  - intros j z Hz Hrz. destruct (Hcase2 j z Hz) as [E|(w & Hne & Hw & ->)]; [lia|]. cbn in Hrz. destruct (lk_used sb t I L j w H Hw Hrz) as (U1 & U2 & U3).
    split_and!; [done|done|]. cbn. intros Hv. rewrite HI; [by apply U3|done|]. intros E. apply Hne. by apply (lk_uniq sb t I L j w ip x).
  - intros j z j' z' Hz Hz' Hrz Hrz' E. destruct (Hcase2 j z Hz) as [?|(w & Hne & Hw & ->)]; [lia|]. destruct (Hcase2 j' z' Hz') as [?|(w' & Hne' & Hw' & ->)]; [lia|].
    by apply (lk_uniq sb t I L j w j' w').
  - intros j z Hz. rewrite list_lookup_fmap in Hz. destruct (_ !! j); [|done]. by injection Hz as <-.
  - intros j z Hz. destruct (Hcase j z Hz) as [[-> ->]|[_ Hz']]; [|by apply (lk_owner _ _ _ _ H)]. rewrite Hyl. symmetry. by apply bool_decide_eq_false_2.
Qed.

Lemma got_same_left t' t1 t ip n : same_refs t' t1 -> got t' t ip n -> got t1 t ip n.
Proof.
  intros [S1 S2 S3] [A B C D E]. split; [done| | | |].
  - intros m. by rewrite S1.
  - by rewrite S2, S1.
  - intros j m Hj. by rewrite S3, D.
  - intros m. by rewrite S3, S1.
Qed.

(** iput of the last reference to an inode without links. *)
Lemma wp_iput_last s V I T L ip i x (Q : unit -> fstate DS -> Prop) : fsb s = sb -> in_tx l0 (flog s) V ∅ T -> fs_wf sb V I -> synced sb V I (fun _ => False) ->
  icache_lk sb (icache s) I L -> ip ∉ L -> icache s !! ip = Some x -> inum x = i -> iref x = 1 -> ivalid x = true -> nlink (I i) = 0 ->
  (forall b, bitmap_block sb b -> b ∈ T) -> IBLOCK i sb ∈ T -> room l0 T ->
  (forall l' V' I' t', in_tx l0 l' V' ∅ T -> given_up sb V I V' I' i (set_type 0 (emptied (I i))) -> icache_lk sb t' I' L -> got t' (icache s) ip i ->
    Q tt (set_flog l' (set_icache t' s))) ->
  wp (iput ip) s Q.
Proof.
  intros Hsb Hl Hwf Hsync Hlk HL Hx Ei Hr Hv Hn Hbm HiT Hroom HQ. pose proof (lookup_lt_Some _ _ _ Hx) as Hlt. assert (0 < iref x) as Hr0 by lia.
  destruct (lk_used sb _ I L ip x Hlk Hx Hr0) as (Hdev & Hi & Hd). specialize (Hd Hv). rewrite Ei in Hi, Hd.
  assert (ilocked x = false) as Hul by (rewrite (lk_owner _ _ _ _ Hlk ip x Hx); by apply bool_decide_eq_false_2).
  set (d := set_type 0 (emptied (I i))). assert (fields_ok (emptied (I i))) as Hfe by (apply fields_emptied; by apply Hwf).
  assert (fields_ok d) as Hfd by (destruct Hfe; by split).
  unfold iput, acquirei. wp_step. wp_step. eapply wp_geti; [exact Hx|]. rewrite Hul. eapply wp_updi; [exact Hx|]. set (x1 := set_ilocked true x). set (s1 := set_icache _ s).
  assert (icache s1 !! ip = Some x1) as Hx1 by (by apply list_lookup_insert_eq).
  wp_step. eapply wp_geti; [exact Hx1|]. cbn [ivalid din iref x1 set_ilocked]. rewrite Hv, Hd, Hn, Hr. cbn [Z.eqb Pos.eqb andb].
  wp_step. wp_step. eapply (wp_itrunc s1 V I T ip i x1); [split; [done|done|exact Hx1|exact Hdev|cbn; by rewrite Ei|cbn; by rewrite Ei|done]|done|exact Hsync|exact Hbm|exact HiT|exact Hroom|]. intros l2 V2 Hl2 Hg2. set (x2 := set_din _ x1). set (s2 := set_flog l2 _).
  assert (icache s2 !! ip = Some x2) as Hx2 by (by apply list_lookup_insert_eq; cbn; rewrite length_insert).
  wp_step. eapply wp_updi; [exact Hx2|]. change (set_din (set_type 0 (din x2)) x2) with (set_din d x2). set (x3 := set_din d x2). set (s3 := set_icache _ s2).
  destruct (given_up_put V I V2 _ i _ d Hwf Hg2 Hi Hfd eq_refl eq_refl) as (Hwf3 & Hg3). set (I3 := <[i := d]> (<[i := emptied (I i)]> I)) in *.
  assert (icache s3 !! ip = Some x3) as Hx3 by (by apply list_lookup_insert_eq; cbn; rewrite !length_insert). assert (inum x3 = i) as Ei3 by done.
  wp_step. eapply (wp_iupdate sb l0 Hgeo Hops s3 V2 I3 T ip x3); [|by rewrite Ei3|exact Hroom|].
  { split; try done; [by rewrite Ei3|rewrite Ei3; apply fn_lookup_insert]. }
  intros l4 Hl4. rewrite Ei3 in Hl4. eapply wp_updi; [exact Hx3|]. set (x4 := set_ivalid false x3). set (s4 := set_icache _ _).
  assert (icache s4 !! ip = Some x4) as Hx4 by (by apply list_lookup_insert_eq; cbn; rewrite !length_insert).
  wp_step. eapply wp_updi; [exact Hx4|]. set (x5 := set_ilocked false x4). set (s5 := set_icache _ s4).
  assert (icache s5 !! ip = Some x5) as Hx5 by (by apply list_lookup_insert_eq; cbn; rewrite !length_insert).
  wp_step. eapply wp_geti; [exact Hx5|]. change (iref x5) with (iref x). rewrite Hr. wp_step. eapply wp_lift; [by rewrite sint_ok by (unfold_bounds; lia)|].
  eapply wp_updi; [exact Hx5|]. set (y := set_iref (1 - 1) x5). set (s6 := set_icache _ s5).
  assert (s6 = set_flog l4 (set_icache (<[ip := y]> (icache s)) s)) as -> by (unfold s6, s5, s4, s3, s2, s1, set_flog, set_icache; cbn; by rewrite !list_insert_insert_eq).
  apply (HQ l4 _ I3 _ Hl4 Hg3).
  - apply (icache_lk_dropped _ I I3 L ip x y); try done. intros j _ Hne. rewrite Ei in Hne. unfold I3. by rewrite !fn_lookup_insert_ne.
  - eapply got_same_left; [|by apply (got_put sb (icache s) I L ip x i Hlk Hx Ei Hr0)].
    assert (<[ip := y]> (icache s) = <[ip := y]> (<[ip := set_iref (iref x - 1) x]> (icache s))) as -> by by rewrite list_insert_insert_eq.
    eapply same_refs_insert; [by apply list_lookup_insert_eq|done|cbn; lia].
Qed.
End giving_up.
