(* ===== verification/Syscall.v ===== *)
(** * System calls and their arguments, xv6 wmap/solution/syscall.c, syscall.h and sysproc.c

    The arguments lie on the user's stack.  A process's memory is the list of the
    bytes below its size; reading anywhere else is undefined.  Pointers to user
    memory are addresses. *)
From S2P Require Import Prelude Text Kalloc Vm File Wmap Proc.

Record user : Type := mkUser { mem : list Z; esp : Z }.
Definition usz (u : user) : Z := Z.of_nat (length (mem u)).

Definition load_byte (u : user) (a : Z) : result Z :=
  match (if a <? 0 then None else mem u !! Z.to_nat a) with Some b => Ok b | None => Err Undefined end.
Definition load_int (u : user) (a : Z) : result Z :=
  b0 ← load_byte u a; b1 ← load_byte u (a + 1); b2 ← load_byte u (a + 2); b3 ← load_byte u (a + 3);
  Ok (to_int (b0 + 256 * (b1 + 256 * (b2 + 256 * b3)))).

(** ** Fetching arguments *)
Definition fetchint (u : user) (addr : Z) : result (option Z) :=
  if (usz u <=? addr) || (usz u <? u32 (addr + 4)) then Ok None else z ← load_int u addr; Ok (Some z).

(** fetchstr from [s] on, [pp] being where the string starts. *)
Fixpoint fetchstr_loop (fuel : nat) (u : user) (pp s : Z) : result (option (Z * Z)) :=
  match fuel with
  | O => Err OutOfFuel
  | S fuel' =>
      if s <? usz u then
        c ← load_byte u s;
        if c =? 0 then Ok (Some (pp, s - pp)) else fetchstr_loop fuel' u pp (s + 1)
      else Ok None
  end.
Definition fetchstr (u : user) (addr : Z) : result (option (Z * Z)) :=
  if usz u <=? addr then Ok None else fetchstr_loop (S (length (mem u))) u addr addr.

Definition argint (u : user) (n : nat) : result (option Z) := fetchint u (u32 (u32 (esp u + 4) + 4 * Z.of_nat n)).

Definition argptr (u : user) (n : nat) (size : Z) : result (option Z) :=
  o ← argint u n;
  match o with
  | None => Ok None
  | Some i => if (size <? 0) || (usz u <=? u32 i) || (usz u <? u32 (u32 i + size)) then Ok None else Ok (Some (u32 i))
  end.

Definition argstr (u : user) (n : nat) : result (option (Z * Z)) :=
  o ← argint u n;
  match o with None => Ok None | Some addr => fetchstr u (u32 addr) end.

(** ** The table of system calls *)
Inductive sysname : Type :=
  | Fork | Exit_ | Wait | Pipe | Read | Kill | Exec | Fstat | Chdir | Dup | Getpid | Sbrk | Sleep | Uptime | Open | Write | Mknod | Unlink | Link
  | Mkdir | Close | Wmap | Wunmap | Wpunmap | Getwmapinfo | Getpgdirinfo.
Definition syscalls : list (option sysname) :=
  None :: (Some <$> [Fork; Exit_; Wait; Pipe; Read; Kill; Exec; Fstat; Chdir; Dup; Getpid; Sbrk; Sleep; Uptime; Open; Write; Mknod; Unlink; Link;
    Mkdir; Close; Wmap; Wunmap; Wpunmap; Getwmapinfo; Getpgdirinfo]).

(** What syscall puts in eax, for the number [num] in it. *)
Definition syscall {W : Type} (run : sysname -> M W Z) (num : Z) : M W Z :=
  match (if (0 <? num) && (num <? Z.of_nat (length syscalls)) then default None (syscalls !! Z.to_nat num) else None) with
  | Some f => run f
  | None => mret (-1)
  end.

(** ** sysproc.c *)

(** sys_sleep for [n] ticks from tick [ticks0] on: each turn of the loop sees the
    tick counter and whether the process has been killed.  [None] while it
    sleeps. *)
Fixpoint sys_sleep_loop (ticks0 n : Z) (seen : list (Z * bool)) : option Z :=
  match seen with
  | [] => None
  | (ticks, killed) :: seen' =>
      if u32 (ticks - ticks0) <? u32 n then if killed : bool then Some (-1) else sys_sleep_loop ticks0 n seen' else Some 0
  end.
Definition sys_sleep (u : user) (seen : list (Z * bool)) : result (option Z) :=
  o ← argint u 0;
  match o with
  | None => Ok (Some (-1))
  | Some n => match seen with [] => Ok None | (ticks0, _) :: _ => Ok (sys_sleep_loop ticks0 n seen) end
  end.
Definition sys_uptime (xticks : Z) : Z := to_int xticks.

Section sysproc.
Context `{HL : Linker} `{HE : Entries} {FS : Type} `{HFS : Fs FS}.
Notation kernel := (kernel (FS := FS)).

Definition sys_fork (me : nat) : M kernel Z := fork me.
Definition sys_kill (u : user) : M kernel Z :=
  o ← lift (argint u 0);
  match o with None => mret (-1) | Some pid => kill pid end.
Definition sys_getpid (me : nat) : M kernel Z := c ← gett me; mret (pid c).
Definition sys_sbrk (u : user) (me : nat) : M kernel Z :=
  o ← lift (argint u 0);
  match o with
  | None => mret (-1)
  | Some n => c ← gett me; r ← growproc me n; if r <? 0 then mret (-1) else mret (to_int (sz c))
  end.
End sysproc.

(** ** Arguments stay inside the process *)

(** Memory as a process has it: below the kernel, and made of bytes. *)
Record user_ok (u : user) : Prop := {
  us_size : usz u <= KERNBASE;
  us_bytes : Forall (fun b => 0 <= b < 256) (mem u)
}.

(** The string at [p]: the bytes of the process from there on. *)
Definition bytes_at (u : user) (p : Z) : list Z := drop (Z.to_nat p) (mem u).

Section args.
Context (u : user) (Hu : user_ok u).

Lemma load_byte_ok a : 0 <= a < usz u -> exists b, load_byte u a = Ok b /\ mem u !! Z.to_nat a = Some b /\ 0 <= b < 256.
Proof.
  intros Ha. unfold load_byte, usz in *. rewrite (proj2 (Z.ltb_ge _ _)) by lia. destruct (mem u !! Z.to_nat a) as [b|] eqn:E.
  - exists b. split_and!; try done; by destruct (Forall_lookup_1 _ _ _ _ (us_bytes _ Hu) E).
  - apply lookup_ge_None in E. lia.
Qed.

Lemma fetchint_ok addr : 0 <= addr < UINT_MOD -> exists o, fetchint u addr = Ok o /\ (o = None <-> usz u < addr + 4).
Proof.
  intros Ha. unfold fetchint. pose proof (us_size _ Hu) as Hsz. unfold KERNBASE in Hsz. destruct (Z.leb_spec (usz u) addr); cbn [orb].
  { exists None. split; [done|]. split; [lia|done]. }
  rewrite u32_id by (unfold UINT_MOD in *; lia). destruct (Z.ltb_spec (usz u) (addr + 4)); [by exists None|].
  unfold load_int. destruct (load_byte_ok addr ltac:(lia)) as (b0 & E0 & _), (load_byte_ok (addr + 1) ltac:(lia)) as (b1 & E1 & _),
    (load_byte_ok (addr + 2) ltac:(lia)) as (b2 & E2 & _), (load_byte_ok (addr + 3) ltac:(lia)) as (b3 & E3 & _).
  rewrite E0. cbn. rewrite E1. cbn. rewrite E2. cbn. rewrite E3. cbn. eexists. split; [done|]. split; [done|lia].
Qed.

Lemma argint_ok n : exists o, argint u n = Ok o.
Proof. destruct (fetchint_ok (u32 (u32 (esp u + 4) + 4 * Z.of_nat n))) as (o & E & _); [apply Z.mod_pos_bound; done|]. by exists o. Qed.

Lemma fetchstr_loop_ok fuel pp s : 0 <= pp <= s -> s <= usz u -> usz u - s < Z.of_nat fuel -> (forall a, pp <= a < s -> exists b, mem u !! Z.to_nat a = Some b /\ b <> 0) ->
  exists o, fetchstr_loop fuel u pp s = Ok o /\ match o with
    | Some (p, n) => p = pp /\ s <= p + n < usz u /\ mem u !! Z.to_nat (p + n) = Some 0 /\ forall a, p <= a < p + n -> exists b, mem u !! Z.to_nat a = Some b /\ b <> 0
    | None => forall a, s <= a < usz u -> mem u !! Z.to_nat a <> Some 0
    end.
Proof.
  revert s. induction fuel as [|fuel IH]; intros s Hs Hsz Hf Hbefore; cbn [fetchstr_loop]; [lia|].
  destruct (Z.ltb_spec s (usz u)) as [Hlt|Hge]; [|exists None; split; [done|intros; lia]].
  destruct (load_byte_ok s ltac:(lia)) as (c & E & Hc & _). rewrite E. cbn. destruct (Z.eqb_spec c 0) as [->|Hne].
  - exists (Some (pp, s - pp)). split; [done|]. replace (pp + (s - pp)) with s by lia. split_and!; try done; lia.
  - destruct (IH (s + 1)) as (o & Eo & Ho); [lia|lia|lia| |].
    { intros a Ha. destruct (decide (a = s)) as [->|]; [by exists c|]. apply Hbefore. lia. }
    exists o. split; [done|]. destruct o as [[p n]|].
    + destruct Ho as (-> & H1 & H2 & H3). split_and!; try done; lia.
    + intros a Ha. destruct (decide (a = s)) as [->|]; [congruence|]. apply Ho. lia.
Qed.

(** A string argument is its characters, a NUL and what follows. *)
Lemma argstr_ok n : exists o, argstr u n = Ok o /\ match o with
  | Some (p, len) => 0 <= p /\ p + len < usz u /\ exists s tl, bytes_at u p = s ++ 0 :: tl /\ Z.of_nat (length s) = len /\ Forall (fun c => 0 < c < 256) s
  | None => True
  end.
Proof.
  unfold argstr. destruct (argint_ok n) as ([i|] & E); rewrite E; cbn; [|by exists None]. unfold fetchstr.
  destruct (Z.leb_spec (usz u) (u32 i)) as [|Hlt]; [by exists None|]. pose proof (Z.mod_pos_bound i UINT_MOD ltac:(done)) as Hr. fold (u32 i) in Hr.
  destruct (fetchstr_loop_ok (S (length (mem u))) (u32 i) (u32 i)) as (o & Eo & Ho); [lia|lia|unfold usz in *; lia|intros; lia|]. rewrite Eo. exists o. split; [done|].
  destruct o as [[p len]|]; [|done]. destruct Ho as (-> & H1 & H2 & H3). split; [lia|]. split; [lia|]. unfold bytes_at. set (m := drop (Z.to_nat (u32 i)) (mem u)).
  assert (m !! Z.to_nat len = Some 0) as Hz by (unfold m; rewrite lookup_drop, <-H2; f_equal; lia).
  exists (take (Z.to_nat len) m), (drop (S (Z.to_nat len)) m). split; [by rewrite <-(drop_S _ _ _ Hz), take_drop|]. apply lookup_lt_Some in Hz.
  split; [rewrite length_take; lia|]. apply Forall_lookup. intros k c Hk. pose proof (lookup_lt_Some _ _ _ Hk) as Hkl. rewrite length_take in Hkl.
  rewrite lookup_take_lt in Hk by lia. unfold m in Hk. rewrite lookup_drop in Hk. destruct (H3 (u32 i + Z.of_nat k) ltac:(lia)) as (b & Hb & Hb0).
  replace (Z.to_nat (u32 i + Z.of_nat k)) with (Z.to_nat (u32 i) + k)%nat in Hb by lia. assert (c = b) as -> by congruence.
  pose proof (Forall_lookup_1 _ _ _ _ (us_bytes _ Hu) Hb). cbn beta in *. lia.
Qed.

(** C22: the kernel reads no memory but the process's own to fetch arguments,
    wherever the stack pointer is and whatever the arguments are.  fetchint
    accepts exactly the addresses of four bytes below the size of the process;
    argptr accepts a pointer only when the whole block lies below the size, and
    argstr only when a NUL follows below the size, and gives its distance. *)
Theorem arguments_inside n size : size <= INT_MAX ->
  (forall addr, 0 <= addr < UINT_MOD -> exists o, fetchint u addr = Ok o /\ (o = None <-> usz u < addr + 4)) /\
  (exists o, argint u n = Ok o) /\
  (exists o, argptr u n size = Ok o /\ forall p, o = Some p -> 0 <= size /\ 0 <= p < usz u /\ p + size <= usz u) /\
  (exists o, argstr u n = Ok o /\ forall p len, o = Some (p, len) ->
    0 <= p /\ p + len < usz u /\ exists s tl, bytes_at u p = s ++ 0 :: tl /\ Z.of_nat (length s) = len /\ Forall (fun c => 0 < c < 256) s).
Proof.
  intros Hint. split; [by apply fetchint_ok|]. split; [by apply argint_ok|]. split.
  - unfold argptr. destruct (argint_ok n) as ([i|] & E); rewrite E; cbn; [|by exists None].
    pose proof (Z.mod_pos_bound i UINT_MOD ltac:(done)) as Hr. fold (u32 i) in Hr. pose proof (us_size _ Hu) as Hsz. unfold KERNBASE in Hsz.
    destruct (Z.ltb_spec size 0); [by exists None|]. destruct (Z.leb_spec (usz u) (u32 i)); [by exists None|]. cbn [orb].
    rewrite u32_id by (unfold_bounds; unfold UINT_MOD in *; lia). destruct (Z.ltb_spec (usz u) (u32 i + size)); [by exists None|].
    exists (Some (u32 i)). split; [done|]. intros p [= <-]. lia.
  - destruct (argstr_ok n) as (o & E & Ho). exists o. split; [done|]. by intros p len ->.
Qed.
End args.

(** The same of the memory of "echo": esp at 4, the arguments 12 and "hi". *)
Definition ex_user : user := mkUser ([0; 0; 0; 0; 9; 9; 9; 9; 12; 0; 0; 0; 104; 105; 0; 7]) 4.
Lemma ex_user_ok : user_ok ex_user.
Proof. split; [by vm_compute|]. cbn. repeat (constructor; [lia|]). constructor. Qed.
Lemma arguments_inside_witness : argstr ex_user 0 = Ok (Some (12, 2)) /\ exists o, argptr ex_user 0 2 = Ok o.
Proof.
  split; [by vm_compute|]. destruct (arguments_inside ex_user ex_user_ok 0 2) as (_ & _ & (o & E & _) & _); [by vm_compute|]. by exists o.
Defined.

(** ** Dispatch and sleeping *)

(** Every number of syscall.h reaches the function with its name; other numbers
    run nothing and give -1. *)
Lemma syscall_known {W} (run : sysname -> M W Z) k f : syscalls !! k = Some (Some f) -> syscall run (Z.of_nat k) = run f.
Proof.
  intros Hk. pose proof (lookup_lt_Some _ _ _ Hk) as Hlt. unfold syscall. rewrite (proj2 (Z.ltb_lt (Z.of_nat k) _)) by lia. destruct k as [|k]; [done|].
  rewrite (proj2 (Z.ltb_lt _ _)) by lia. cbn [andb]. by rewrite Nat2Z.id, Hk.
Qed.
Lemma syscall_unknown {W} (run : sysname -> M W Z) num : num <= 0 \/ 26 < num -> syscall run num = mret (-1).
Proof.
  intros Hn. unfold syscall. change (Z.of_nat (length syscalls)) with 27.
  destruct (Z.ltb_spec 0 num); [|done]. destruct (Z.ltb_spec num 27); [lia|done].
Qed.

(** sleep(n) for n >= 0 returns 0 at the first turn that sees [n] ticks gone, or
    -1 at the first that sees the process killed before. *)
Lemma sys_sleep_loop_spec ticks0 n seen r : 0 <= n <= INT_MAX -> sys_sleep_loop ticks0 n seen = Some r ->
  exists pre t k post, seen = pre ++ (t, k) :: post /\ Forall (fun x => u32 (x.1 - ticks0) < n /\ x.2 = false) pre /\
    ((r = 0 /\ n <= u32 (t - ticks0)) \/ (r = -1 /\ k = true /\ u32 (t - ticks0) < n)).
Proof.
  intros Hn. induction seen as [|[t k] seen IH]; cbn [sys_sleep_loop]; [done|]. rewrite (u32_id n) by (unfold_bounds; unfold UINT_MOD; lia).
  destruct (Z.ltb_spec (u32 (t - ticks0)) n) as [Hlt|Hge].
  - destruct k.
    + intros [= <-]. exists [], t, true, seen. split_and!; try done. right. done.
    + intros (pre & t' & k' & post & -> & H1 & H2)%IH. exists ((t, false) :: pre), t', k', post. split; [done|]. split; [by constructor|done].
  - intros [= <-]. exists [], t, k, seen. split_and!; try done. by left.
Qed.

(** sleep of a negative number does not return before half of the counter's
    range has gone by. *)
Lemma sys_sleep_negative ticks0 n seen : INT_MIN <= n < 0 -> Forall (fun x => 0 <= x.1 - ticks0 < 2147483648 /\ x.2 = false) seen ->
  sys_sleep_loop ticks0 n seen = None.
Proof.
  intros Hn. induction 1 as [|[t k] seen [Ht Hk] _ IH]; [done|]. cbn in Ht, Hk. subst k. cbn [sys_sleep_loop].
  rewrite (proj2 (Z.ltb_lt _ _)); [done|]. unfold u32, UINT_MOD. unfold_bounds. zlia.
Qed.
