(* ===== verification/Sysfile.v ===== *)
(** * File system calls, xv6 wmap/solution/sysfile.c

    [Section fs_calls] is the calls that work on paths, over the inodes, the log
    and the disk; the process's memory gives the arguments ([user], Syscall.v) and
    its current directory is an argument.  [Section descriptors] is the calls that
    work on descriptors, over the processes and files of [world].  sys_exec, which
    loads programs, is left out. *)
From stdpp Require Import functions.
From S2P Require Import Prelude Text Kalloc Vm File Wmap Pipe Bio Log Block Inode Readwrite Fileop Dir Trunc Syscall.

Definition set_nlink (n : Z) (d : dinode) : dinode := mkDinode (type d) (major d) (minor d) n (dsize d) (addrs d).
Definition set_device (ma mi n : Z) (d : dinode) : dinode := mkDinode (type d) ma mi n (dsize d) (addrs d).

(** The names "." and "..", and a buffer for names. *)
Definition DOT : list Z := [46; 0].
Definition DOTDOT : list Z := [46; 46; 0].
Definition name_buffer : list Z := replicate DIRSIZ 0.

Section fs_calls.
Context {DS : Type} `{HDS : Devsw DS}.

Definition end_tx : M (fstate DS) unit := with_log Log.end_op.

(** ** link *)

(** nlink is a short. *)
Definition add_link (ip : nat) (k : Z) : M (fstate DS) unit :=
  _ ← updi ip (fun x => set_din (set_nlink (s16 (nlink (din x) + k)) (din x)) x);
  iupdate ip.

(** The label bad. *)
Definition link_bad (ip : nat) : M (fstate DS) Z :=
  _ ← ilock ip; _ ← add_link ip (-1); _ ← iunlockput ip; _ ← end_tx; mret (-1).

(** From the search for the parent of [new] on. *)
Definition link_new (ip : nat) (new : list Z) (cwd : nat) : M (fstate DS) Z :=
  '(o, name) ← nameiparent new name_buffer cwd;
  match o with
  | None => link_bad ip
  | Some dp =>
      _ ← ilock dp;
      d ← geti dp; x ← geti ip;
      r ← (if negb (idev d =? idev x) then mret (-1) else dirlink dp name (inum x));
      if (r : Z) <? 0 then _ ← iunlockput dp; link_bad ip else
      _ ← iunlockput dp; _ ← iput ip; _ ← end_tx; mret 0
  end.

Definition link (old new : list Z) (cwd : nat) : M (fstate DS) Z :=
  _ ← begin_tx;
  o ← namei old cwd;
  match o with
  | None => _ ← end_tx; mret (-1)
  | Some ip =>
      _ ← ilock ip;
      x ← geti ip;
      if type (din x) =? T_DIR then _ ← iunlockput ip; _ ← end_tx; mret (-1) else
      _ ← add_link ip 1;
      _ ← iunlock ip;
      link_new ip new cwd
  end.

Definition sys_link (u : user) (cwd : nat) : M (fstate DS) Z :=
  o ← lift (argstr u 0);
  match o with None => mret (-1) | Some (old, _) =>
  o ← lift (argstr u 1);
  match o with None => mret (-1) | Some (new, _) => link (bytes_at u old) (bytes_at u new) cwd end end.

(** ** unlink *)
Fixpoint isdirempty_loop (fuel : nat) (dp : nat) (off : Z) : M (fstate DS) bool :=
  match fuel with
  | O => fail OutOfFuel
  | S fuel' =>
      x ← geti dp;
      if off <? dsize (din x) then
        '(r, bs) ← readi dp off DIRENT;
        if negb (r =? DIRENT) then fail Panic else
        if negb (d_inum (decode_dirent bs) =? 0) then mret false else isdirempty_loop fuel' dp (off + DIRENT)
      else mret true
  end.
Definition isdirempty (dp : nat) : M (fstate DS) bool :=
  x ← geti dp; isdirempty_loop (S (Z.to_nat (dsize (din x)))) dp (2 * DIRENT).

Definition unlink_bad (dp : nat) : M (fstate DS) Z := _ ← iunlockput dp; _ ← end_tx; mret (-1).

(** The entry at [off] of the locked directory [dp] names the locked inode [ip]. *)
Definition unlink_entry (dp ip : nat) (off : Z) : M (fstate DS) Z :=
  w ← writei dp (replicate 16 0) off;
  if negb (w =? DIRENT) then fail Panic else
  x ← geti ip;
  _ ← (if type (din x) =? T_DIR then add_link dp (-1) else mret tt);
  _ ← iunlockput dp;
  _ ← add_link ip (-1);
  _ ← iunlockput ip;
  _ ← end_tx;
  mret 0.

Definition unlink (path : list Z) (cwd : nat) : M (fstate DS) Z :=
  _ ← begin_tx;
  '(o, name) ← nameiparent path name_buffer cwd;
  match o with
  | None => _ ← end_tx; mret (-1)
  | Some dp =>
      _ ← ilock dp;
      c1 ← lift (namecmp name DOT);
      c2 ← (if (c1 : Z) =? 0 then mret 0 else lift (namecmp name DOTDOT));
      if (c2 : Z) =? 0 then unlink_bad dp else
      o ← dirlookup dp name;
      match o with
      | None => unlink_bad dp
      | Some (ip, off) =>
          _ ← ilock ip;
          x ← geti ip;
          if nlink (din x) <? 1 then fail Panic else
          e ← (if type (din x) =? T_DIR then isdirempty ip else mret true);
          if negb e then _ ← iunlockput ip; unlink_bad dp else
          unlink_entry dp ip off
      end
  end.

Definition sys_unlink (u : user) (cwd : nat) : M (fstate DS) Z :=
  o ← lift (argstr u 0);
  match o with None => mret (-1) | Some (path, _) => unlink (bytes_at u path) cwd end.

(** ** Making files, directories and devices *)

(** A new inode [ip] in the locked directory [dp]. *)
Definition create_new (dp : nat) (name : list Z) (t ma mi : Z) : M (fstate DS) nat :=
  d ← geti dp;
  ip ← ialloc (idev d) t;
  _ ← ilock ip;
  _ ← updi ip (fun x => set_din (set_device ma mi 1 (din x)) x);
  _ ← iupdate ip;
  x ← geti ip;
  _ ← (if t =? T_DIR then
         _ ← add_link dp 1;
         r ← dirlink ip DOT (inum x);
         r2 ← (if (r : Z) <? 0 then mret r else d ← geti dp; dirlink ip DOTDOT (inum d));
         if (r2 : Z) <? 0 then fail Panic else mret tt
       else mret tt);
  r ← dirlink dp name (inum x);
  if (r : Z) <? 0 then fail Panic else
  _ ← iunlockput dp;
  mret ip.

(** create: the inode, locked. *)
Definition create (path : list Z) (t ma mi : Z) (cwd : nat) : M (fstate DS) (option nat) :=
  '(o, name) ← nameiparent path name_buffer cwd;
  match o with
  | None => mret None
  | Some dp =>
      _ ← ilock dp;
      o ← dirlookup dp name;
      match o with
      | Some (ip, _) =>
          _ ← iunlockput dp;
          _ ← ilock ip;
          x ← geti ip;
          if (t =? T_FILE) && (type (din x) =? T_FILE) then mret (Some ip) else _ ← iunlockput ip; mret None
      | None => ip ← create_new dp name t ma mi; mret (Some ip)
      end
  end.

(** The end of mkdir and mknod. *)
Definition put_new (o : option nat) : M (fstate DS) Z :=
  match o with
  | None => _ ← end_tx; mret (-1)
  | Some ip => _ ← iunlockput ip; _ ← end_tx; mret 0
  end.

Definition sys_mkdir (u : user) (cwd : nat) : M (fstate DS) Z :=
  _ ← begin_tx;
  o ← lift (argstr u 0);
  match o with
  | None => put_new None
  | Some (path, _) => o ← create (bytes_at u path) T_DIR 0 0 cwd; put_new o
  end.

Definition sys_mknod (u : user) (cwd : nat) : M (fstate DS) Z :=
  _ ← begin_tx;
  o ← lift (argstr u 0);
  match o with None => put_new None | Some (path, _) =>
  o ← lift (argint u 1);
  match o with None => put_new None | Some ma =>
  o ← lift (argint u 2);
  match o with None => put_new None | Some mi => o ← create (bytes_at u path) T_DEV (s16 ma) (s16 mi) cwd; put_new o end end end.

(** ** chdir: the result and the current directory after it *)
Definition chdir (path : list Z) (cwd : nat) : M (fstate DS) (Z * nat) :=
  o ← namei path cwd;
  match o with
  | None => _ ← end_tx; mret (-1, cwd)
  | Some ip =>
      _ ← ilock ip;
      x ← geti ip;
      if negb (type (din x) =? T_DIR) then _ ← iunlockput ip; _ ← end_tx; mret (-1, cwd) else
      _ ← iunlock ip;
      _ ← iput cwd;
      _ ← end_tx;
      mret (0, ip)
  end.
Definition sys_chdir (u : user) (cwd : nat) : M (fstate DS) (Z * nat) :=
  _ ← begin_tx;
  o ← lift (argstr u 0);
  match o with None => _ ← end_tx; mret (-1, cwd) | Some (path, _) => chdir (bytes_at u path) cwd end.
End fs_calls.

(** ** Descriptors *)
Section descriptors.
Context `{HL : Linker} {FS : Type} `{HFS : Fs FS}.
Notation world := (world (FS := FS)).

Definition set_ofile (fd : nat) (o : option nat) (p : proc) : proc :=
  mkProc (pgdir p) (kstack p) (parent p) (<[fd := o]> (ofile p)) (mmaps p) (mmap_head p) (total_mmaps p).

(** argfd of argument [n]. *)
Definition fd_arg_of (u : user) (n : nat) (me : nat) : M world (option (Z * nat)) :=
  i ← lift (argint u n); p ← getp me; mret (argfd (fun _ => i) n p).

Definition fdalloc (me f : nat) : M world Z :=
  p ← getp me;
  match list_find (fun o => o = None) (take (Z.to_nat NOFILE) (ofile p)) with
  | Some (fd, _) => _ ← setp_ me (set_ofile fd (Some f) p); mret (Z.of_nat fd)
  | None => mret (-1)
  end.

Definition sys_dup (u : user) (me : nat) : M world Z :=
  o ← fd_arg_of u 0 me;
  match o with None => mret (-1) | Some (_, f) =>
  fd ← fdalloc me f;
  if fd <? 0 then mret (-1) else _ ← with_files (filedup f); mret fd end.

(** Bytes written to user memory. *)
Definition poke (u : user) (p : Z) (bs : list Z) : user := mkUser (list_inserts (Z.to_nat p) bs (mem u)) (esp u).

(** The descriptor, the count and the buffer of read and write. *)
Definition rw_args (u : user) (me : nat) : M world (option (nat * Z * Z)) :=
  o ← fd_arg_of u 0 me;
  match o with None => mret None | Some (_, f) =>
  o ← lift (argint u 2);
  match o with None => mret None | Some n =>
  o ← lift (argptr u 1 n);
  match o with None => mret None | Some p => mret (Some (f, p, n)) end end end.

Definition sys_read (u : user) (me : nat) : M world (Z * user) :=
  o ← rw_args u me;
  match o with
  | None => mret (-1, u)
  | Some (f, p, n) => '(r, bs) ← with_files (fileread f n); mret (r, poke u p bs)
  end.

Definition sys_write (u : user) (me : nat) : M world Z :=
  o ← rw_args u me;
  match o with
  | None => mret (-1)
  | Some (f, p, n) => with_files (filewrite f (take (Z.to_nat n) (bytes_at u p)))
  end.

Definition sys_close (u : user) (me : nat) : M world Z :=
  o ← fd_arg_of u 0 me;
  match o with None => mret (-1) | Some (fd, f) =>
  _ ← updp me (set_ofile (Z.to_nat fd) None);
  _ ← with_files (fileclose f); mret 0 end.

(** [struct stat] in memory, from its fields; between them padding is left. *)
Definition STAT : Z := 20.
Definition le_bytes (n : nat) (z : Z) : list Z := (fun k => z / 256 ^ Z.of_nat k mod 256) <$> seq 0 n.
Definition poke_stat (u : user) (p : Z) (st : list Z) : user :=
  match st with
  | [t; dev; ino; nl; sz] =>
      poke (poke (poke (poke (poke u p (le_bytes 2 t)) (p + 4) (le_bytes 4 dev)) (p + 8) (le_bytes 4 ino)) (p + 12) (le_bytes 2 nl)) (p + 16) (le_bytes 4 sz)
  | _ => u
  end.
Definition sys_fstat (u : user) (me : nat) : M world (Z * user) :=
  o ← fd_arg_of u 0 me;
  match o with None => mret (-1, u) | Some (_, f) =>
  o ← lift (argptr u 1 STAT);
  match o with None => mret (-1, u) | Some st => '(r, l) ← with_files (filestat f); mret (r, poke_stat u st l) end end.

(** pipe; [junk] is what the pipe's new page holds. *)
Definition sys_pipe (u : user) (me : nat) (junk : list Z) : M (kpipes (FS := FS)) (Z * user) :=
  o ← lift (argptr u 0 8);
  match o with None => mret (-1, u) | Some fd =>
  o ← pipealloc junk;
  match o with None => mret (-1, u) | Some (rf, wf) =>
  fd0 ← in_world (fdalloc me rf);
  fd1 ← (if fd0 <? 0 then mret (-1) else in_world (fdalloc me wf));
  if fd1 <? 0 then
    _ ← in_world (if 0 <=? fd0 then updp me (set_ofile (Z.to_nat fd0) None) else mret tt);
    _ ← in_world (with_files (fileclose rf));
    _ ← in_world (with_files (fileclose wf));
    mret (-1, u)
  else mret (0, poke (poke u fd (le_bytes 4 fd0)) (fd + 4) (le_bytes 4 fd1)) end end.
End descriptors.

(** ** open *)
Section open.
Context `{HL : Linker} {DS : Type} `{HDS : Devsw DS} `{HFS : Fs (fstate DS)}.
Notation world := (world (FS := fstate DS)).

Definition O_RDONLY : Z := 0.
Definition O_WRONLY : Z := 1.
Definition O_RDWR : Z := 2.
Definition O_CREATE : Z := 512.
Definition has_flag (omode fl : Z) : bool := negb (Z.land omode fl =? 0).

Definition in_fs {A} (m : M (fstate DS) A) : M world A := with_files (fs_op m).

(** The inode to open, locked. *)
Definition open_inode (path : list Z) (omode : Z) (cwd : nat) : M (fstate DS) (option nat) :=
  if has_flag omode O_CREATE then create path T_FILE 0 0 cwd
  else
    o ← namei path cwd;
    match o with
    | None => mret None
    | Some ip =>
        _ ← ilock ip;
        x ← geti ip;
        if (type (din x) =? T_DIR) && negb (omode =? O_RDONLY) then _ ← iunlockput ip; mret None else mret (Some ip)
    end.

Definition opened_file (ip : nat) (omode : Z) (f : file) : file :=
  File.mkFile FD_INODE (ref f) (negb (has_flag omode O_WRONLY)) (has_flag omode O_WRONLY || has_flag omode O_RDWR) (File.pipe f) (Z.of_nat ip) 0.

Definition sys_open (u : user) (me : nat) (cwd : nat) : M world Z :=
  o ← lift (argstr u 0);
  match o with None => mret (-1) | Some (path, _) =>
  o ← lift (argint u 1);
  match o with None => mret (-1) | Some omode =>
  _ ← in_fs begin_tx;
  o ← in_fs (open_inode (bytes_at u path) omode cwd);
  match o with
  | None => _ ← in_fs end_tx; mret (-1)
  | Some ip =>
      o ← with_files filealloc;
      fd ← (match o with Some f => fdalloc me f | None => mret (-1) end);
      match o with
      | Some f =>
          if fd <? 0 then
            _ ← with_files (fileclose f); _ ← in_fs (iunlockput ip); _ ← in_fs end_tx; mret (-1)
          else
          _ ← in_fs (iunlock ip);
          _ ← in_fs end_tx;
          x ← with_files (get_file f);
          _ ← with_files (put_file f (opened_file ip omode x));
          mret fd
      | None => _ ← in_fs (iunlockput ip); _ ← in_fs end_tx; mret (-1)
      end
  end end end.
End open.

(** ** A transaction of calls on inodes

    Between two calls of fs.c: the file system [V], [I] of the transaction, and
    the lock that the process holds, if any. *)
Record in_call {DS : Type} (sb : superblock) (l0 : log) (s : fstate DS) (V : Z -> list Z) (I : Z -> dinode) (T : gset Z) (L : list nat) : Prop := {
  nc_sb : fsb s = sb;
  nc_tx : in_tx l0 (flog s) V ∅ T;
  nc_wf : fs_wf sb V I;
  nc_sync : synced sb V I (fun _ => False);
  nc_dirs : dirs_ok sb V I;
  nc_lk : icache_lk sb (icache s) I L
}.

(** Entry [ip], locked, holds inode [i]. *)
Record locked (t : list inode) (I : Z -> dinode) (ip : nat) (i : Z) (x : inode) : Prop := {
  lo_entry : t !! ip = Some x;
  lo_no : inum x = i;
  lo_dev : idev x = 1;
  lo_din : din x = I i;
  lo_valid : ivalid x = true;
  lo_lock : ilocked x = true;
  lo_ref : 0 < iref x
}.

Section calls.
Context {DS : Type} `{HDS : Devsw DS} (sb : superblock) (l0 : log) (Hgeo : geo sb l0).
Implicit Types (s : fstate DS) (V : Z -> list Z) (I : Z -> dinode) (T : gset Z) (ip : nat) (t : list inode).

Lemma locked_refers t I ip i x : locked t I ip i x -> refers t ip i.
Proof. intros [A B _ _ _ _ C]. by exists x. Qed.

Lemma locked_file s V I T L ip i x : in_call sb l0 s V I T L -> locked (icache s) I ip i x -> in_file sb l0 s V I T ip x /\ inode_no sb i.
Proof.
  intros [C1 C2 C3 C4 C5 C6] [A1 <- A3 A4 A5 A6 A7]. destruct (lk_used sb _ I _ ip x C6 A1 A7) as (_ & Hi & _). by split.
Qed.

Lemma wp_lock s V I T L ip i (Q : unit -> fstate DS -> Prop) : in_call sb l0 s V I T L -> ip ∉ L -> room l0 T -> refers (icache s) ip i -> type (I i) <> 0 ->
  (forall l' x, let t' := <[ip := x]> (icache s) in let s' := set_flog l' (set_icache t' s) in
    in_call sb l0 s' V I T (ip :: L) -> locked t' I ip i x -> same_refs (icache s) t' -> Q tt s') ->
  wp (ilock ip) s Q.
Proof.
  intros [C1 C2 C3 C4 C5 C6] HL Hroom (x & Hx & Hn & Hr) Ht HQ. subst i. pose proof (lookup_lt_Some _ _ _ Hx) as Hlt.
  destruct (lk_used sb _ I L ip x C6 Hx Hr) as (Hdev & Hi & Hv).
  eapply (wp_ilock sb l0 Hgeo s V I T ip x); [done|done|done|done|done|done|done| |done|apply C4; [done|tauto]|done|].
  { rewrite (lk_owner _ _ _ _ C6 ip x Hx). by apply bool_decide_eq_false_2. }
  intros l' Hl'. apply (HQ l' (locked_inode x (I (inum x)))); [|split; first [done|by apply list_lookup_insert_eq]|by apply (same_refs_insert _ ip x)].
  split; try done. by apply lk_locked.
Qed.

Lemma wp_unlock s V I T L ip i x (Q : unit -> fstate DS -> Prop) : in_call sb l0 s V I T (ip :: L) -> ip ∉ L -> locked (icache s) I ip i x ->
  (forall t', let s' := set_icache t' s in in_call sb l0 s' V I T L -> same_refs (icache s) t' -> Q tt s') -> wp (iunlock ip) s Q.
Proof.
  intros [C1 C2 C3 C4 C5 C6] HL [A1 A2 A3 A4 A5 A6 A7] HQ. eapply wp_iunlock; [done|done|done|].
  apply HQ; [|by apply (same_refs_insert _ ip x)]. split; try done. by apply lk_unlocked.
Qed.

(** Locking, and giving a reference back. *)
Lemma wp_unlockput s V I T L ip i t0 (Q : unit -> fstate DS -> Prop) : in_call sb l0 s V I T (ip :: L) -> ip ∉ L -> refers (icache s) ip i ->
  carries t0 (icache s) (Some i) -> (exists I0 L, icache_lk sb t0 I0 L) -> Z.of_nat (refs t0 i) < INT_MAX -> nlink (I i) <> 0 \/ (0 < refs t0 i)%nat ->
  (forall t', let s' := set_icache t' s in in_call sb l0 s' V I T L -> carries t0 t' None -> Q tt s') -> wp (iunlockput ip) s Q.
Proof.
  intros [C1 C2 C3 C4 C5 C6] HLip Hrf Hc (I0 & L0 & HL) Hmax Hnl HQ. pose proof (ca_refs _ _ _ Hc i) as Hri. rewrite decide_True in Hri by done.
  eapply (wp_iunlockput sb s I L ip i); [done|done|done|lia|destruct Hnl; [by left|right; lia]|].
  intros t' Hlk Hg _. apply HQ; [by split|]. by eapply carries_put.
Qed.

Lemma wp_iput_call s V I T L ip i t0 (Q : unit -> fstate DS -> Prop) : in_call sb l0 s V I T L -> refers (icache s) ip i -> ip ∉ L ->
  carries t0 (icache s) (Some i) -> (exists I0 L, icache_lk sb t0 I0 L) -> Z.of_nat (refs t0 i) < INT_MAX -> nlink (I i) <> 0 \/ (0 < refs t0 i)%nat ->
  (forall t', let s' := set_icache t' s in in_call sb l0 s' V I T L -> carries t0 t' None -> Q tt s') -> wp (iput ip) s Q.
Proof.
  intros [C1 C2 C3 C4 C5 C6] Hrf HLip Hc (I0 & L0 & HL) Hmax Hnl HQ. pose proof (ca_refs _ _ _ Hc i) as Hri. rewrite decide_True in Hri by done.
  eapply (wp_iput sb s I L ip i); [done|done|done|lia|destruct Hnl; [by left|right; lia]|].
  intros t' Hlk Hg _. apply HQ; [by split|]. by eapply carries_put.
Qed.

(** The locked inode with new fields. *)
Lemma icache_lk_fields t I I' L ip i x : icache_lk sb t I L -> ip ∈ L -> locked t I ip i x -> (forall j, inode_no sb j -> j <> i -> I' j = I j) ->
  let t' := <[ip := set_din (I' i) x]> t in icache_lk sb t' I' L /\ locked t' I' ip i (set_din (I' i) x) /\ same_refs t t'.
Proof.
  intros H HL [A1 A2 A3 A4 A5 A6 A7] HI t'. pose proof (lookup_lt_Some _ _ _ A1) as Hlt. split_and!.
  - split.
    + unfold t'. rewrite list_fmap_insert. set (y := set_ilocked false x).
      assert (set_ilocked false (set_din (I' i) x) = mkInode (idev y) (inum y) (iref y) false true (I' (inum y))) as ->.
      { cbn. unfold set_ilocked, set_din. cbn. by rewrite A5, A2. }
      eapply icache_changed; [apply H|by rewrite list_lookup_fmap, A1|done|]. intros j Hj Hne. apply HI; [done|]. cbn in Hne. congruence.
    + intros j y Hy. apply list_lookup_insert_Some in Hy as [(<- & <- & _)|(Hne & Hy)]; [|by apply (lk_owner _ _ _ _ H)].
      cbn. by rewrite A6, bool_decide_eq_true_2.
  - split; try done; by apply list_lookup_insert_eq.
  - by apply (same_refs_insert _ ip x).
Qed.

Lemma s16_id z : short z -> s16 z = z.
Proof. unfold short, s16. intros. rewrite Z.mod_small by lia. lia. Qed.

Lemma fields_nlink d n : fields_ok d -> short n -> fields_ok (set_nlink n d).
Proof. by intros [A B C D E F] Hn. Qed.

(** nlink changes by [k]. *)
Lemma wp_put_link (Hops : 1 <= outstanding l0) s V I T L ip i x k (Q : unit -> fstate DS -> Prop) : let d := set_nlink (nlink (I i) + k) (I i) in
  in_call sb l0 s V I T L -> ip ∈ L -> locked (icache s) I ip i x -> IBLOCK i sb ∈ T -> room l0 T -> short (nlink (I i) + k) ->
  (forall l' V' I' x', let t' := <[ip := x']> (icache s) in
    in_tx l0 l' V' ∅ T -> fs_wf sb V' I' -> synced sb V' I' (fun _ => False) -> icache_lk sb t' I' L -> locked t' I' ip i x' -> same_refs (icache s) t' ->
    fields_set sb V I V' I' i d -> Q tt (set_flog l' (set_icache t' s))) ->
  wp (add_link ip k) s Q.
Proof.
  intros d Hc HL Hlo HiT Hroom Hsh HQ. pose proof Hc as [C1 C2 C3 C4 C5 C6]. destruct (locked_file _ _ _ _ _ _ _ _ Hc Hlo) as [Hf Hi].
  destruct (icache_lk_fields (icache s) I (<[i := d]> I) L ip i x C6 HL Hlo) as (K1 & K2 & K3); [intros j _ Hne; by apply fn_lookup_insert_ne|].
  rewrite fn_lookup_insert in K1, K2, K3. pose proof Hlo as [A1 A2 A3 A4 A5 A6 A7]. cbv zeta in K1, K2, K3.
  assert (fields_ok d) as Hd by (apply fields_nlink; [by apply C3|done]).
  destruct (put_fields sb l0 Hgeo V I i d C3 C4 Hi Hd eq_refl eq_refl) as (P1 & P2 & P3 & P4).
  unfold add_link. wp_step. eapply wp_updi; [exact A1|]. rewrite A4, s16_id by done. fold d. set (x' := set_din d x) in *.
  assert (inum x' = i) as Ei by done. eapply (wp_iupdate sb l0 Hgeo Hops _ V (<[i := d]> I) T ip x'); [|by rewrite Ei|done|].
  - split; try done; [by apply K2|by rewrite Ei|]. rewrite Ei. by rewrite fn_lookup_insert.
  - intros l' Hl'. rewrite Ei in Hl'. eapply (HQ l' _ _ x'); [exact Hl'|exact P2|exact P3|exact K1|exact K2|exact K3|exact P4].
Qed.

(** The same, to a number with which the directories stay in order. *)
Lemma wp_add_link (Hops : 1 <= outstanding l0) s V I T L ip i x k (Q : unit -> fstate DS -> Prop) : let d := set_nlink (nlink (I i) + k) (I i) in
  in_call sb l0 s V I T L -> ip ∈ L -> locked (icache s) I ip i x ->
  IBLOCK i sb ∈ T -> room l0 T -> short (nlink (I i) + k) -> (nlink (I i) + k <> 0 \/ forall V' I', fields_set sb V I V' I' i d -> dirs_ok sb V' I') ->
  (forall l' V' I' x', let t' := <[ip := x']> (icache s) in let s' := set_flog l' (set_icache t' s) in
    in_call sb l0 s' V' I' T L -> locked t' I' ip i x' -> same_refs (icache s) t' -> fields_set sb V I V' I' i d -> Q tt s') ->
  wp (add_link ip k) s Q.
Proof.
  intros d Hc HL Hlo HiT Hroom Hsh Hnz HQ. destruct (locked_file _ _ _ _ _ _ _ _ Hc Hlo) as [_ Hi].
  eapply (wp_put_link Hops s V I T L ip i x k); [exact Hc|exact HL|exact Hlo|exact HiT|exact Hroom|exact Hsh|].
  intros l' V' I' x' t' H1 H2 H3 H4 H5 H6 H7. apply (HQ l' V' I' x'); [|exact H5|exact H6|exact H7]. split; try done; [apply Hc|].
  destruct Hnz as [Hnz|Hd]; [|by apply Hd]. by eapply (dirs_ok_fields sb V I V' I' i d); [apply Hc|..].
Qed.
End calls.

(** ** Ending a call *)
Section ending.
Context {DS : Type} `{HDS : Devsw DS} (sb : superblock) (l0 : log) (Hgeo : geo sb l0).
Implicit Types (s : fstate DS) (V : Z -> list Z) (I : Z -> dinode) (T : gset Z) (ip : nat) (t : list inode).

Lemma carries_trans t0 t1 t2 w : carries t0 t1 w -> carries t1 t2 None -> carries t0 t2 w.
Proof.
  intros [A B A3] [C D C3]. split; [|intros j m Hj; by apply D, B|lia]. intros m. rewrite C, A. rewrite (decide_False (P := None = Some m)) by done. lia.
Qed.

Lemma dirs_ok_same V V' I : same_fs sb V V' -> fs_wf sb V I -> dirs_ok sb V I -> dirs_ok sb V' I.
Proof.
  intros Hs Hwf [D1 D2]. split; [done|]. intros i e Hi Ht He. apply (D2 i e); [done|done|].
  rewrite (entries_ext V V') in He; [done|]. by apply (file_bytes_same sb l0 Hgeo V V' Hs).
Qed.

(** The call has ended: one transaction from [s0] on, whose files are those of
    [V] and [I]; the table has the references it had. *)
Record ended s0 I0 s' V I : Prop := {
  en_tx : transaction sb s0 I0 s' I;
  en_same : same_fs sb V (on_disk (flog s'));
  en_files : forall j, inode_no sb j -> file_of s' j = file_bytes V (I j);
  en_dirs : dirs_ok sb (on_disk (flog s')) I;
  en_wf : fs_wf sb V I;
  en_table : carries (icache s0) (icache s') None
}.

Lemma wp_finish s0 I0 s V I T (Q : unit -> fstate DS -> Prop) : fs_idle sb s0 I0 -> l0 = set_state 1 false (flog s0) -> in_call sb l0 s V I T [] ->
  decode_sb (V 1) = sb -> devs s = devs s0 -> carries (icache s0) (icache s) None ->
  (forall s', ended s0 I0 s' V I -> Q tt s') -> wp end_tx s Q.
Proof.
  intros Hid El [C1 C2 C3 C4 C5 C6] Hsup Hdv Hc HQ. unfold end_tx. eapply wp_mono; [apply (wp_end_idle sb s0 I0 s V I T l0); try done|].
  - by apply icache_lk_none.
  - intros [] s' (Hta & Hic & Hsame & Hf). apply HQ. split; try done.
    + intros j Hj. rewrite Hf by done. by apply file_on_sync.
    + by apply (dirs_ok_same V).
    + by rewrite Hic.
Qed.

(** The label bad of link: the link is taken back. *)
Lemma wp_link_bad s0 I0 s V I T ip i : fs_idle sb s0 I0 -> l0 = set_state 1 false (flog s0) -> in_call sb l0 s V I T [] ->
  decode_sb (V 1) = sb -> devs s = devs s0 -> refers (icache s) ip i -> carries (icache s0) (icache s) (Some i) -> Z.of_nat (refs (icache s0) i) < INT_MAX ->
  type (I i) <> 0 -> 1 < nlink (I i) -> IBLOCK i sb ∈ T -> room l0 T ->
  wp (link_bad ip) s (fun r s' => r = -1 /\ exists V' I', ended s0 I0 s' V' I' /\ fields_set sb V I V' I' i (set_nlink (nlink (I i) - 1) (I i))).
Proof.
  intros Hid El Hc Hsup Hdv Hrf Hca Hmax Ht Hn HiT Hroom. pose proof Hid as [_ _ _ _ Hic0]. apply icache_lk_none in Hic0.
  assert (1 <= outstanding l0) as Hops by (rewrite El; cbn; lia).
  unfold link_bad. wp_step. eapply (wp_lock sb l0 Hgeo s V I T [] ip i); [done|by apply not_elem_of_nil|done..|]. intros l1 x t1 s1 Hc1 Hlo1 Hs1.
  destruct (locked_file sb l0 s1 V I T [ip] ip i x Hc1 Hlo1) as [_ Hi]. pose proof (fi_nlink _ (fw_fields _ _ _ (nc_wf _ _ _ _ _ _ _ Hc) i Hi)) as Hsh. unfold short in Hsh.
  wp_step. eapply (wp_add_link sb l0 Hgeo Hops s1 V I T [ip] ip i x (-1)); [done|apply list_elem_of_here|done|done|done|unfold short; lia|left; lia|].
  intros l2 V2 I2 x2 t2 s2 Hc2 Hlo2 Hs2 Hfs. assert (I2 i = set_nlink (nlink (I i) + -1) (I i)) as Ei by apply Hfs.
  wp_step. eapply (wp_unlockput sb l0 s2 V2 I2 T [] ip i (icache s0)); [exact Hc2|by apply not_elem_of_nil|exact (locked_refers _ _ _ _ _ Hlo2)| |by eauto|done| |].
  - eapply carries_same; [|exact Hs2]. by eapply carries_same.
  - left. rewrite Ei. cbn. lia.
  - intros t3 s3 Hc3 Hca3. wp_step. eapply (wp_finish s0 I0 s3 V2 I2 T); try done.
    + rewrite (fs_meta _ _ _ _ _ _ _ Hfs); [done|]. destruct Hgeo as [? [? ?] _ _ _ _]. lia.
    + intros s' Hen. wp_step. split; [done|]. by exists V2, I2.
Qed.
End ending.

(** ** Paths inside a call *)

(** A table in which a path can be followed from the current directory [c]. *)
Record can_name (sb : superblock) (t : list inode) (I : Z -> dinode) (cwd : nat) (c : Z) : Prop := {
  cn_refs : forall m, Z.of_nat (refs t m) <= INT_MAX - 2;
  cn_free : (2 <= free_entries t)%nat;
  cn_cwd : refers t cwd c /\ type (I c) <> 0;
  cn_root : inode_no sb ROOTINO /\ type (I ROOTINO) <> 0 /\ nlink (I ROOTINO) <> 0
}.

Section paths.
Context {DS : Type} `{HDS : Devsw DS} (sb : superblock) (l0 : log) (Hgeo : geo sb l0).
Implicit Types (s : fstate DS) (V : Z -> list Z) (I : Z -> dinode) (T : gset Z) (ip : nat) (t : list inode).

Lemma can_look_call s V I T cwd c : in_call sb l0 s V I T [] -> room l0 T -> can_name sb (icache s) I cwd c -> can_look sb l0 s V I T cwd c.
Proof. intros [A1 A2 A3 A4 A5 A6] Hroom [B1 B2 B3 B4]. split; try done. by apply icache_lk_none. Qed.

Lemma start_live s V I T cwd c p : in_call sb l0 s V I T [] -> can_name sb (icache s) I cwd c ->
  inode_no sb (start_of p c) /\ type (I (start_of p c)) <> 0.
Proof.
  intros [A1 A2 A3 A4 A5 A6] [B1 B2 [(x & Hx & <- & Hr) B3] B4]. unfold start_of. destruct (_ =? SLASH); [by split; apply B4|].
  split; [|done]. by apply (lk_used sb _ I [] cwd x A6).
Qed.

Lemma wp_parent s V I T cwd c p tl (Q : option nat * list Z -> fstate DS -> Prop) : in_call sb l0 s V I T [] -> room l0 T -> can_name sb (icache s) I cwd c -> Forall (fun ch => 0 < ch < 256) p ->
  (forall r nm l' t', let s' := set_flog l' (set_icache t' s) in in_call sb l0 s' V I T [] ->
    match walk_parent V I (start_of p c) (elements p) with
    | Some (d, e) => exists dp, r = Some dp /\ refers t' dp d /\ carries (icache s) t' (Some d) /\ name_of nm = e /\ length nm = DIRSIZ /\ bytes_ok nm
    | None => r = None /\ carries (icache s) t' None
    end -> Q (r, nm) s') ->
  wp (nameiparent (p ++ 0 :: tl) name_buffer cwd) s Q.
Proof.
  intros Hc Hroom Hn Hp HQ. pose proof Hc as [C1 C2 C3 C4 C5 C6].
  unfold nameiparent. eapply wp_mono; [apply (wp_namex sb l0 s V I T cwd c p tl name_buffer true); [exact (can_look_call s V I T cwd c Hc Hroom Hn)|exact Hp|apply length_replicate|unfold name_buffer; apply Forall_replicate; lia]|].
  intros [r nm] s' Hpost. unfold namex_post in Hpost. destruct (walk_parent V I (start_of p c) (elements p)) as [[d e]|]; cbn [fst snd] in Hpost.
  - destruct Hpost as [(l' & t' & -> & H1 & H2 & H3 & dp & -> & H4) H5]. apply (HQ (Some dp) nm l' t'); [by split|]. by exists dp.
  - destruct Hpost as (l' & t' & -> & H1 & H2 & H3 & ->). apply (HQ None nm l' t'); [by split|]. done.
Qed.

Lemma wp_path s V I T cwd c p tl (Q : option nat -> fstate DS -> Prop) : in_call sb l0 s V I T [] -> room l0 T -> can_name sb (icache s) I cwd c -> Forall (fun ch => 0 < ch < 256) p ->
  (forall r l' t', let s' := set_flog l' (set_icache t' s) in in_call sb l0 s' V I T [] ->
    match walk V I (start_of p c) (elements p) with
    | Some i => exists ip, r = Some ip /\ refers t' ip i /\ carries (icache s) t' (Some i)
    | None => r = None /\ carries (icache s) t' None
    end -> Q r s') ->
  wp (namei (p ++ 0 :: tl) cwd) s Q.
Proof.
  intros Hc Hroom Hn Hp HQ. pose proof Hc as [C1 C2 C3 C4 C5 C6]. unfold namei. wp_step.
  eapply wp_mono; [apply (wp_namex sb l0 s V I T cwd c p tl (replicate DIRSIZ 0) false); [exact (can_look_call s V I T cwd c Hc Hroom Hn)|exact Hp|apply length_replicate|apply Forall_replicate; lia]|].
  intros [r nm] s' (l' & t' & -> & H1 & H2 & H3 & H4). wp_step. cbn [fst] in H4. apply (HQ r l' t'); [by split|].
  destruct (walk V I (start_of p c) (elements p)); [|done]. destruct H4 as (ip & -> & H4). by exists ip.
Qed.

(** The name in a locked directory. *)
Lemma can_link_call (Hops : 1 <= outstanding l0) s V I T L dp d x : in_call sb l0 s V I T (dp :: L) -> locked (icache s) I dp d x ->
  (forall b, bitmap_block sb b -> b ∈ T) -> IBLOCK d sb ∈ T -> Z.of_nat (base.size T) + 3 < size l0 - 1 ->
  type (I d) = T_DIR -> dsize (I d) + DIRENT <= MAXFILE * BSIZE -> (forall m, Z.of_nat (refs (icache s) m) <= INT_MAX - 2) -> (1 <= free_entries (icache s))%nat ->
  (2 <= nfree sb V)%nat -> can_link sb l0 s V I T L dp x.
Proof.
  intros Hc Hlo Hbm Hib Hroom Ht Hsz Hrefs Hfree Hnf. destruct (locked_file sb l0 s V I T (dp :: L) dp d x Hc Hlo) as [Hf Hi].
  destruct Hc as [C1 C2 C3 C4 C5 C6]. destruct Hlo as [A1 <- A3 A4 A5 A6 A7]. split; [done|done|by split|done|done|done|by rewrite A4|by rewrite A4|done..].
Qed.
End paths.

(** ** link *)

(** What a call starts from and goes on with: room in the table of inodes. *)
Record table_room (sb : superblock) (t : list inode) (I : Z -> dinode) (cwd : nat) (c : Z) : Prop := {
  tr_refs : forall m, Z.of_nat (refs t m) <= INT_MAX - 6;
  tr_free : (6 <= free_entries t)%nat;
  tr_cwd : refers t cwd c;
  tr_type : type (I c) = T_DIR;
  tr_root : inode_no sb ROOTINO /\ type (I ROOTINO) = T_DIR /\ nlink (I ROOTINO) <> 0
}.

Section link.
Context {DS : Type} `{HDS : Devsw DS} (sb : superblock) (l0 : log) (Hgeo : geo sb l0).
Context (s0 : fstate DS) (I0 : Z -> dinode) (cwd : nat) (c : Z) (Hid : fs_idle sb s0 I0) (El : l0 = set_state 1 false (flog s0)).
Context (Hroom0 : table_room sb (icache s0) I0 cwd c).
Implicit Types (s : fstate DS) (V : Z -> list Z) (I : Z -> dinode) (T : gset Z) (ip : nat) (t : list inode).

Lemma table0 : exists I L, icache_lk sb (icache s0) I L.
Proof. exists I0, []. apply icache_lk_none, Hid. Qed.

Lemma can_name_carried t I w : carries (icache s0) t w -> (forall j, inode_no sb j -> type (I j) = type (I0 j)) -> nlink (I ROOTINO) <> 0 -> can_name sb t I cwd c.
Proof.
  intros [A B C] Ht Hn. destruct Hroom0 as [R1 R2 R3 R4 (R5 & R6 & R7)]. assert (inode_no sb c) as Hc.
  { destruct R3 as (x & Hx & <- & Hr). destruct Hid as [_ _ _ _ Hic]. by apply (ic_used _ _ _ Hic cwd x). }
  split.
  - intros m. rewrite A. specialize (R1 m). case_decide; lia.
  - destruct w; [case_decide|]; lia.
  - split; [by apply B|]. rewrite Ht, R4; done.
  - split_and!; [done| |done]. by rewrite Ht, R6.
Qed.

(** The directory at the end of a path: linked or the current one. *)
Lemma parent_kept V I t es p d e : dirs_ok sb V I -> icache_lk sb t I [] -> can_name sb t I cwd c -> es = elements p -> walk_parent V I (start_of p c) es = Some (d, e) ->
  inode_no sb d /\ type (I d) = T_DIR /\ (nlink (I d) <> 0 \/ (0 < refs t d)%nat).
Proof.
  intros Hd Hlk [A B [C1 C2] (D1 & D2 & D3)] -> Hw. assert (inode_no sb c) as Hcn by (destruct C1 as (x & Hx & <- & Hr); by apply (lk_used sb t I [] cwd x Hlk)).
  destruct (walk_parent_live sb V I (start_of p c) (elements p) d e) as (M1 & M2 & M3); try done.
  - unfold start_of. by destruct (_ =? SLASH).
  - unfold start_of. by destruct (_ =? SLASH).
  - split_and!; [done|done|]. destruct M3 as [->|]; [|by left]. unfold start_of. destruct (_ =? SLASH); [by left|]. right. by eapply refs_refers.
Qed.

(** A new link [n] under the name [nm] of directory [d]. *)
Record linked_in V I V' I' (d n : Z) (nm : list Z) : Prop := {
  li_name : exists k e, dir_find V' (I' d) nm = Some (k, e) /\ d_inum e = n;
  li_names : forall nm', nm' <> nm -> dir_find V' (I' d) nm' = dir_find V (I d) nm';
  li_fields : type (I' d) = type (I d) /\ nlink (I' d) = nlink (I d);
  li_others : forall j, inode_no sb j -> j <> d -> I' j = I j /\ file_bytes V' (I j) = file_bytes V (I j)
}.

Lemma wp_link_name s V I T dp d x nm e n (Q : Z -> fstate DS -> Prop) : in_call sb l0 s V I T [dp] -> locked (icache s) I dp d x -> can_link sb l0 s V I T [] dp x ->
  name_of nm = e -> length nm = DIRSIZ -> bytes_ok nm -> 0 < n < 65536 -> inode_no sb n -> type (I n) <> 0 -> nlink (I n) <> 0 ->
  match dir_find V (I d) e with
  | Some (_, e') => d_inum e' <> d /\ forall l' t', let s' := set_flog l' (set_icache t' s) in in_call sb l0 s' V I T [dp] -> carries (icache s) t' None -> Q (-1) s'
  | None => forall V' I' T' l' t', let s' := set_flog l' (set_icache t' s) in in_call sb l0 s' V' I' T' [dp] -> same_refs (icache s) t' -> refers t' dp d ->
      linked_in V I V' I' d n e -> V' 1 = V 1 -> Q 0 s'
  end ->
  wp (dirlink dp nm n) s Q.
Proof.
  intros Hc Hlo Hck <- Hlen Hb Hn Hno Hnt Hnl HQ. pose proof Hlo as [A1 A2 A3 A4 A5 A6 A7]. pose proof Hc as [C1 C2 C3 C4 C5 C6].
  rewrite <-A4 in HQ. destruct (dir_find V (din x) (name_of nm)) as [[k e']|] eqn:Ef.
  - destruct HQ as [Hself HQ]. eapply wp_mono; [apply (wp_dirlink_taken sb l0 s V I T dp x nm n k e'); [done|done|left; lia|done|by rewrite A2]|].
    intros r s' (-> & l' & t' & -> & H1 & H2 & H3). apply HQ; [by split|done].
  - eapply wp_mono; [apply (wp_dirlink_new sb l0 s V I T [] dp x nm n); [done|done|left; lia|done|done]|].
    intros r s' (-> & V' & I' & T' & x' & off & e & k & H1 & H2 & H3 & H4 & H5 & H6 & H7).
    pose proof H4 as [W1 W2 (F1 & F2 & F3 & F4) W4 (l' & W5) W6 W7 W8 W9 W10 W11]. rewrite A2 in W7. pose proof W1 as [[G1 G2 G3 G4 G5 G6 G7] G8 G9 G10].
    assert (inum x' = d) as Ed by (by rewrite W2). rewrite Ed in G6.
    destruct (icache_lk_fields sb (icache s) I I' [dp] dp d x C6 ltac:(apply list_elem_of_here) Hlo) as (K1 & K2 & K3); [intros j Hj Hne; by apply W7|]. rewrite G6, <-W2 in K1, K2, K3.
    assert (dirs_ok sb V' I') as Hd'.
    { eapply (dirs_ok_linked sb l0 s s'); [apply (of_in _ _ _ _ _ _ _ _ (ck_open _ _ _ _ _ _ _ _ _ Hck))|done|exact H4|done|apply Hck|done|done|by rewrite H3..]. }
    subst s'. apply (HQ V' I' T' l'); [by split|exact K3|exact (locked_refers _ _ _ _ _ K2)| |].
    + split; [exists k, e; by rewrite G6|rewrite G6, <-A4; exact H6|rewrite G6, <-A4; by split|done].
    + apply W11. destruct Hgeo as [? [? ?] _ _ _ _]. lia.
Qed.

(** How the second half of link ends: the name is there, or the count of links
    is as it was before. *)
Definition link_end V I i (pn : option (Z * list Z)) (r : Z) s' : Prop :=
  match pn with
  | Some (d, nm) => match dir_find V (I d) nm with
      | None => r = 0 /\ exists V' I', ended sb s0 I0 s' V' I' /\ linked_in V I V' I' d i nm
      | Some _ => r = -1 /\ exists V' I', ended sb s0 I0 s' V' I' /\ fields_set sb V I V' I' i (set_nlink (nlink (I i) - 1) (I i))
      end
  | None => r = -1 /\ exists V' I', ended sb s0 I0 s' V' I' /\ fields_set sb V I V' I' i (set_nlink (nlink (I i) - 1) (I i))
  end.

Lemma wp_link_new s V I T ip i p tl : in_call sb l0 s V I T [] -> decode_sb (V 1) = sb -> devs s = devs s0 ->
  refers (icache s) ip i -> carries (icache s0) (icache s) (Some i) -> (forall j, inode_no sb j -> type (I j) = type (I0 j)) -> nlink (I ROOTINO) <> 0 ->
  Forall (fun ch => 0 < ch < 256) p -> type (I i) <> 0 -> type (I i) <> T_DIR -> 1 < nlink (I i) -> 0 < i < 65536 -> (forall b, bitmap_block sb b -> b ∈ T) -> IBLOCK i sb ∈ T ->
  Z.of_nat (base.size T) + 3 < size l0 - 1 -> (2 <= nfree sb V)%nat ->
  match walk_parent V I (start_of p c) (elements p) with
  | Some (d, nm) => IBLOCK d sb ∈ T /\ dsize (I d) + DIRENT <= MAXFILE * BSIZE /\ forall k e, dir_find V (I d) nm = Some (k, e) -> d_inum e <> d
  | None => True
  end ->
  wp (link_new ip (p ++ 0 :: tl) cwd) s (link_end V I i (walk_parent V I (start_of p c) (elements p))).
Proof.
  intros Hc Hsup Hdv Hrf Hca Hty Hrootn Hp Ht Htd Hn Hi Hbm HiT Hroom Hnf Hcase. pose proof (can_name_carried _ I _ Hca Hty Hrootn) as Hcn.
  assert (room l0 T) as Hroom1 by (unfold room; lia). destruct Hroom0 as [R1 R2 R3 R4 R5]. pose proof (R1 i) as Hmaxi. destruct table0 as (It & Lt & Ht0).
  assert (1 <= outstanding l0) as Hops by (rewrite El; cbn; lia).
  assert (inode_no sb i) as Hin by (destruct Hrf as (x & Hx & <- & Hr); by apply (lk_used sb (icache s) I [] ip x (nc_lk _ _ _ _ _ _ _ Hc))).
  unfold link_new. wp_step. eapply (wp_parent sb l0 Hgeo s V I T cwd c p tl); [exact Hc|exact Hroom1|exact Hcn|exact Hp|].
  intros r nm l1 t1 s1 Hc1 Hres. unfold link_end. destruct (walk_parent V I (start_of p c) (elements p)) as [[d e]|] eqn:Hw.
  2:{ destruct Hres as [-> Hca1]. eapply wp_mono; [apply (wp_link_bad sb l0 Hgeo s0 I0 s1 V I T ip i); try done|].
    - by apply (ca_kept _ _ _ Hca1).
    - by eapply carries_trans.
    - lia.
    - intros r s' H. exact H. }
  destruct Hres as (dp & -> & Hrf1 & Hca1 & Hnm & Hlen & Hb). destruct Hcase as (HdT & Hdsz & Hself).
  destruct (parent_kept V I (icache s) _ p d e (nc_dirs _ _ _ _ _ _ _ Hc) (nc_lk _ _ _ _ _ _ _ Hc) Hcn eq_refl Hw) as (Hdn & Hdt & Hdl).
  wp_step. eapply (wp_lock sb l0 Hgeo s1 V I T [] dp d); [exact Hc1|by apply not_elem_of_nil|exact Hroom1|exact Hrf1|by rewrite Hdt|].
  intros l2 x t2 s2 Hc2 Hlo2 Hs2. pose proof (carries_same _ _ _ _ Hca1 Hs2) as Hca2.
  destruct (ca_kept _ _ _ Hca2 _ _ Hrf) as (y & Hy & Hyn & Hyr). destruct (lk_used sb _ I _ ip y (nc_lk _ _ _ _ _ _ _ Hc2) Hy Hyr) as (Hyd & _ & _).
  wp_step. eapply wp_geti; [apply Hlo2|]. wp_step. eapply wp_geti; [exact Hy|]. rewrite (lo_dev _ _ _ _ _ Hlo2), Hyd, Hyn, Z.eqb_refl. cbn [negb].
  assert (forall m, Z.of_nat (refs t2 m) <= INT_MAX - 2 /\ (refs t2 m <= refs (icache s0) m + 2)%nat) as Hrefs.
  { intros m. rewrite (ca_refs _ _ _ Hca2), (ca_refs _ _ _ Hca). specialize (R1 m). repeat case_decide; lia. }
  assert (1 <= free_entries t2)%nat as Hfr.
  { pose proof (ca_free _ _ _ Hca2) as F2. pose proof (ca_free _ _ _ Hca) as F1. cbn iota in F1, F2. repeat case_decide; lia. }
  assert (can_link sb l0 s2 V I T [] dp x) as Hck by (eapply (can_link_call sb l0 Hgeo Hops s2 V I T [] dp d x); try done; intros m; apply Hrefs).
  assert (refs (icache s) d <= refs (icache s0) d + 1)%nat as Hrd by (rewrite (ca_refs _ _ _ Hca); case_decide; lia). pose proof (R1 d) as Hmaxd.
  wp_step. eapply (wp_link_name s2 V I T dp d x nm e i); [exact Hc2|exact Hlo2|exact Hck|exact Hnm|exact Hlen|exact Hb|exact Hi|exact Hin|exact Ht|lia|].
  destruct (dir_find V (I d) e) as [[k e']|] eqn:Hfind.
  - split; [by eapply Hself|]. intros l3 t3 s3 Hc3 Hca3. change (-1 <? 0) with true. cbn iota.
    pose proof (carries_trans _ _ _ _ Hca2 Hca3) as Hca23.
    wp_step. eapply (wp_unlockput sb l0 s3 V I T [] dp d (icache s)); [exact Hc3|by apply not_elem_of_nil|apply (ca_kept _ _ _ Hca3), (locked_refers _ _ _ _ _ Hlo2)|exact Hca23|by exists I, []; apply Hc|lia|exact Hdl|].
    intros t4 s4 Hc4 Hca4. eapply wp_mono; [apply (wp_link_bad sb l0 Hgeo s0 I0 s4 V I T ip i); try done|].
    + by apply (ca_kept _ _ _ Hca4).
    + by eapply carries_trans.
    + lia.
    + intros r s' H. exact H.
  - intros V3 I3 T3 l3 t3 s3 Hc3 Hs3 Hrf3 Hli Hsup3. change (0 <? 0) with false. cbn iota. pose proof (carries_same _ _ _ _ Hca2 Hs3) as Hca3.
    destruct Hli as [L1 L2 [L3 L4] L5]. assert (i <> d) as Hid' by (intros ->; by rewrite Hdt in Htd).
    wp_step. eapply (wp_unlockput sb l0 s3 V3 I3 T3 [] dp d (icache s)); [exact Hc3|by apply not_elem_of_nil|exact Hrf3|exact Hca3|by exists I, []; apply Hc|lia|by rewrite L4|].
    intros t4 s4 Hc4 Hca4. wp_step. eapply (wp_iput_call sb l0 s4 V3 I3 T3 [] ip i (icache s0)); [exact Hc4|by apply (ca_kept _ _ _ Hca4)|by apply not_elem_of_nil|by eapply carries_trans|by eauto|lia| |].
    { left. destruct (L5 i Hin Hid') as [-> _]. lia. }
    intros t5 s5 Hc5 Hca5. wp_step. eapply (wp_finish sb l0 Hgeo s0 I0 s5 V3 I3 T3); [done|done|exact Hc5|by rewrite Hsup3|done|exact Hca5|].
    intros s' Hen. wp_step. split; [done|]. by exists V3, I3.
Qed.
End link.

(** ** The call as a whole *)

(** What link does: the inode to link, the directory and the name, or none. *)
Definition link_target (V : Z -> list Z) (I : Z -> dinode) (c : Z) (old new : list Z) : option (Z * Z * list Z) :=
  match walk V I (start_of old c) (elements old) with
  | Some i =>
      if type (I i) =? T_DIR then None else
      match walk_parent V I (start_of new c) (elements new) with
      | Some (d, nm) => match dir_find V (I d) nm with None => Some (i, d, nm) | Some _ => None end
      | None => None
      end
  | None => None
  end.

(** One link more to inode [i], as [nm] in directory [d]. *)
Record linked (sb : superblock) (V : Z -> list Z) (I : Z -> dinode) (V' : Z -> list Z) (I' : Z -> dinode) (i d : Z) (nm : list Z) : Prop := {
  lk_name : exists k e, dir_find V' (I' d) nm = Some (k, e) /\ d_inum e = i;
  lk_names : forall nm', nm' <> nm -> dir_find V' (I' d) nm' = dir_find V (I d) nm';
  lk_dir : type (I' d) = T_DIR /\ nlink (I' d) = nlink (I d);
  lk_inode : I' i = set_nlink (nlink (I i) + 1) (I i);
  lk_bytes : file_bytes V' (I' i) = file_bytes V (I i);
  lk_others : forall j, inode_no sb j -> j <> i -> j <> d -> I' j = I j /\ file_bytes V' (I' j) = file_bytes V (I j)
}.

(** A system between calls that can run link: free entries in the table of
    inodes, two free blocks, room in the log, counts of links that are positive
    shorts, room for an entry in the directory.  [ly_self] excludes names that
    the directory has for itself. *)
Record link_ready {DS : Type} (sb : superblock) (s : fstate DS) (I : Z -> dinode) (cwd : nat) (c : Z) (old new : list Z) : Prop := {
  ly_idle : fs_idle sb s I;
  ly_dirs : dirs_ok sb (on_disk (flog s)) I;
  ly_table : table_room sb (icache s) I cwd c;
  ly_inodes : ninodes sb <= 65536;
  ly_log : datastart sb - bmapstart sb + 6 < size (flog s);
  ly_free : (2 <= nfree sb (on_disk (flog s)))%nat;
  ly_nlink : forall i, walk (on_disk (flog s)) I (start_of old c) (elements old) = Some i -> type (I i) <> T_DIR -> 0 < nlink (I i) < 32767;
  ly_size : forall d nm, walk_parent (on_disk (flog s)) I (start_of new c) (elements new) = Some (d, nm) -> dsize (I d) + DIRENT <= MAXFILE * BSIZE;
  ly_self : forall d nm k e, walk_parent (on_disk (flog s)) I (start_of new c) (elements new) = Some (d, nm) ->
    dir_find (on_disk (flog s)) (I d) nm = Some (k, e) -> d_inum e <> d;
  ly_old : Forall (fun ch => 0 < ch < 256) old;
  ly_new : Forall (fun ch => 0 < ch < 256) new
}.

Lemma set_nlink_nlink d n m : set_nlink n (set_nlink m d) = set_nlink n d.
Proof. done. Qed.
Lemma set_nlink_same d : set_nlink (nlink d) d = d.
Proof. by destruct d. Qed.

Section link_call.
Context {DS : Type} `{HDS : Devsw DS} (sb : superblock).
Implicit Types (s : fstate DS) (V : Z -> list Z) (I : Z -> dinode) (T : gset Z) (ip : nat) (t : list inode).

(** The files are the same as before. *)
Definition same_files V I V' I' : Prop := forall j, inode_no sb j -> I' j = I j /\ file_bytes V' (I' j) = file_bytes V (I j).

(** The ends of link, seen from its start. *)
Lemma link_end_all s0 I0 V I V1 I1 i (pn : option (Z * list Z)) r s' : let d1 := set_nlink (nlink (I i) + 1) (I i) in
  fields_set sb V I V1 I1 i d1 -> inode_no sb i -> (forall d nm, pn = Some (d, nm) -> inode_no sb d /\ d <> i /\ type (I d) = T_DIR) ->
  link_end sb s0 I0 V1 I1 i pn r s' ->
  match match pn with Some (d, nm) => match dir_find V (I d) nm with None => Some (i, d, nm) | Some _ => None end | None => None end with
  | Some (i, d, nm) => r = 0 /\ exists V' I', ended sb s0 I0 s' V' I' /\ linked sb V I V' I' i d nm
  | None => r = -1 /\ exists V' I', ended sb s0 I0 s' V' I' /\ same_files V I V' I'
  end.
Proof.
  intros d1 [A1 A2 A3 A4 A5] Hi Hpn He. unfold link_end in He.
  assert (forall V' I', fields_set sb V1 I1 V' I' i (set_nlink (nlink (I1 i) - 1) (I1 i)) -> same_files V I V' I') as Hback.
  { intros V' I' [B1 B2 B3 _ _] j Hj. rewrite B3, A3 by done. split; [|done]. destruct (decide (j = i)) as [->|Hne]; [|by rewrite B2, A2].
    rewrite B1, A1. unfold d1. cbn [nlink set_nlink]. rewrite set_nlink_nlink. replace (nlink (I i) + 1 - 1) with (nlink (I i)) by lia. apply set_nlink_same. }
  destruct pn as [[d nm]|].
  2:{ destruct He as (-> & V' & I' & Hen & Hf). split; [done|]. exists V', I'. split; [done|]. by apply Hback. }
  destruct (Hpn d nm eq_refl) as (Hd & Hdi & Hdt). assert (I1 d = I d) as Ed by by apply A2.
  rewrite (dir_find_fields sb V I V1 I1 nm d Hd) in He; [|by rewrite Ed|by apply A3].
  destruct (dir_find V (I d) nm) as [[k e]|].
  { destruct He as (-> & V' & I' & Hen & Hf). split; [done|]. exists V', I'. split; [done|]. by apply Hback. }
  destruct He as (-> & V' & I' & Hen & [L1 L2 [L3 L4] L5]). split; [done|]. exists V', I'. split; [done|]. destruct (L5 i Hi) as [E1 E2]; [done|]. split.
  - exact L1.
  - intros nm' Hne. rewrite L2 by done. by apply (dir_find_fields sb); [done|rewrite Ed|apply A3].
  - by rewrite L3, L4, Ed.
  - by rewrite E1, A1.
  - rewrite E1, E2. by apply A3.
  - intros j Hj Hji Hjd. destruct (L5 j Hj Hjd) as [-> ->]. split; [by apply A2|by apply A3].
Qed.

Section ready.
Context s0 I0 cwd c old new (Hready : link_ready sb s0 I0 cwd c old new).
Let V : Z -> list Z := on_disk (flog s0).
Let l0 : log := set_state 1 false (flog s0).

(** The end of link. *)
Definition link_post (r : Z) s' : Prop :=
  match link_target V I0 c old new with
  | Some (i, d, nm) => r = 0 /\ exists V' I', ended sb s0 I0 s' V' I' /\ linked sb V I0 V' I' i d nm
  | None => r = -1 /\ exists V' I', ended sb s0 I0 s' V' I' /\ same_files V I0 V' I'
  end.

Lemma ready_geo : geo sb l0.
Proof. destruct Hready as [[_ _ Hgeo _ _] _ _ _ _ _ _ _ _ _ _]. by eapply (geo_ext sb (flog s0)). Qed.

Lemma ready_start p : inode_no sb (start_of p c) /\ type (I0 (start_of p c)) = T_DIR /\ (nlink (I0 (start_of p c)) <> 0 \/ (0 < refs (icache s0) (start_of p c))%nat).
Proof.
  destruct Hready as [[_ _ _ _ Hic] _ [R1 R2 R3 R4 (R5 & R6 & R7)] _ _ _ _ _ _ _ _]. unfold start_of. destruct (_ =? SLASH); [by split_and!; [| |left]|].
  pose proof (proj2 (icache_lk_none sb _ _) Hic) as Hlk. split; [|split; [done|right; by eapply refs_refers]].
  destruct R3 as (x & Hx & <- & Hr). by apply (ic_used _ _ _ Hic cwd x).
Qed.

(** Nothing has been done: the call fails. *)
Lemma wp_link_fail s T : in_call sb l0 s V I0 T [] -> devs s = devs s0 -> carries (icache s0) (icache s) None -> link_target V I0 c old new = None ->
  wp (_ ← end_tx; mret (-1)) s link_post.
Proof.
  intros Hc Hdv Hca Hno. pose proof (ly_idle _ _ _ _ _ _ _ Hready) as Hid. wp_step. eapply (wp_finish sb l0 ready_geo s0 I0 s V I0 T); try done; [apply Hid|].
  intros s' Hen. wp_step. unfold link_post. rewrite Hno. split; [done|]. exists V, I0. split; [done|]. by intros j Hj.
Qed.

(** From the inode to link on, which is locked and no directory. *)
Lemma wp_link_file s T ip i x tl : in_call sb l0 s V I0 T [ip] -> locked (icache s) I0 ip i x -> devs s = devs s0 -> carries (icache s0) (icache s) (Some i) ->
  walk V I0 (start_of old c) (elements old) = Some i -> type (I0 i) <> T_DIR -> (forall b, bitmap_block sb b -> b ∈ T) -> IBLOCK i sb ∈ T ->
  (forall d nm, walk_parent V I0 (start_of new c) (elements new) = Some (d, nm) -> IBLOCK d sb ∈ T) -> Z.of_nat (base.size T) + 3 < size l0 - 1 ->
  wp (_ ← add_link ip 1; _ ← iunlock ip; link_new ip (new ++ 0 :: tl) cwd) s link_post.
Proof.
  intros Hc Hlo Hdv Hca Hw Htd Hbm HiT HdT Hroom. pose proof ready_geo as Hgeo. pose proof Hready as [Hid Hdirs Htab Hino _ Hfree Hnl Hsize Hself Ho Hn].
  pose proof Htab as [_ _ _ _ (R5 & R6 & R7)]. destruct (ready_start old) as (Hst1 & Hst2 & _). destruct (ready_start new) as (Hst3 & Hst4 & _).
  destruct (walk_live sb V I0 _ _ i Hdirs Hst1 ltac:(by rewrite Hst2) Hw) as (Hin & Hit & Hfrom). specialize (Hnl i Hw Htd). assert (1 <= outstanding l0) as Hops by (cbn; lia).
  assert (0 < i < 65536) as Hi.
  { destruct Hfrom as [->|(_ & nm & [k e] & d & Hf & He)]; [done|]. unfold inode_no in Hin. apply list_find_Some in Hf as (_ & [He0 _] & _). cbn in He. lia. }
  assert (forall d nm, walk_parent V I0 (start_of new c) (elements new) = Some (d, nm) -> inode_no sb d /\ d <> i /\ type (I0 d) = T_DIR) as Hpn.
  { intros d nm Hd. destruct (walk_parent_live sb V I0 _ _ d nm Hdirs Hst3 ltac:(by rewrite Hst4) Hd) as (P1 & P2 & _). split_and!; [done|by intros ->|done]. }
  wp_step. eapply (wp_add_link sb l0 Hgeo Hops s V I0 T [ip] ip i x 1); [exact Hc|apply list_elem_of_here|exact Hlo|exact HiT|unfold room; lia|unfold short; lia|left; lia|].
  intros l4 V4 I4 x4 t4 s4 Hc4 Hlo4 Hs4 Hfs. pose proof (carries_same _ _ _ _ Hca Hs4) as Hca4. pose proof Hfs as [A1 A2 A3 A4 A5].
  wp_step. eapply (wp_unlock sb l0 s4 V4 I4 T [] ip i x4); [exact Hc4|by apply not_elem_of_nil|exact Hlo4|]. intros t5 s5 Hc5 Hs5. pose proof (carries_same _ _ _ _ Hca4 Hs5) as Hca5.
  assert (forall j, type (I4 j) = type (I0 j) /\ dsize (I4 j) = dsize (I0 j)) as Hkeep.
  { intros j. destruct (decide (j = i)) as [->|Hne]; [by rewrite A1|by rewrite A2]. }
  assert (walk_parent V4 I4 (start_of new c) (elements new) = walk_parent V I0 (start_of new c) (elements new)) as Hwp.
  { apply (walk_parent_fields sb V I0 V4 I4); [|done|done|by rewrite Hst4]. intros j Hj. destruct (Hkeep j) as [-> ->]. split_and!; [done|done|by apply A3]. }
  destruct (Hkeep i) as [Eti _]. assert (1 < nlink (I4 i)) as Hn4 by (rewrite A1; cbn [nlink set_nlink]; lia).
  eapply wp_mono; [eapply (wp_link_new sb l0 Hgeo s0 I0 cwd c Hid eq_refl Htab s5 V4 I4 T ip i new tl); rewrite ?Eti; try done|].
  - rewrite A5; [apply Hid|]. destruct Hgeo as [? [? ?] _ _ _ _]. lia.
  - apply Hs5, (locked_refers _ _ _ _ _ Hlo4).
  - intros j _. apply Hkeep.
  - destruct (decide (ROOTINO = i)) as [<-|Hne]; [by rewrite R6 in Htd|by rewrite A2].
  - by rewrite A4.
  - rewrite Hwp. destruct (walk_parent V I0 (start_of new c) (elements new)) as [[d nm]|] eqn:Ewp; [|done]. destruct (Hpn d nm eq_refl) as (P1 & P2 & P3).
    assert (I4 d = I0 d) as Ed by (by apply A2). split; [by eapply HdT|]. split; [rewrite Ed; by eapply Hsize|].
    intros k e. rewrite (dir_find_fields sb V I0 V4 I4 nm d P1); [|by rewrite Ed|by apply A3]. by apply Hself.
  - rewrite Hwp. intros r s' He. unfold link_post, link_target. rewrite Hw, (proj2 (Z.eqb_neq _ _) Htd).
    by apply (link_end_all s0 I0 V I0 V4 I4 i _ r s' Hfs Hin Hpn).
Qed.

Lemma wp_link tl0 tl1 : wp (link (old ++ 0 :: tl0) (new ++ 0 :: tl1) cwd) s0 link_post.
Proof.
  pose proof ready_geo as Hgeo. pose proof Hready as [Hid Hdirs Htab Hino Hlog Hfree Hnl Hsize Hself Ho Hn]. pose proof Hid as [Hsb Hli _ [_ Hwf Hsync] Hic].
  destruct (geo_data sb l0 Hgeo) as (D1 & D2 & D3 & D4). pose proof Htab as [R1 R2 R3 R4 (R5 & R6 & R7)].
  set (ti := default ROOTINO (walk V I0 (start_of old c) (elements old))). set (td := (default (ROOTINO, []) (walk_parent V I0 (start_of new c) (elements new))).1).
  set (T := {[IBLOCK ti sb]} ∪ ({[IBLOCK td sb]} ∪ bitmap_set sb) : gset Z). assert (Z.of_nat (base.size T) + 3 < size l0 - 1) as HszT.
  { pose proof (size_add (IBLOCK ti sb) ({[IBLOCK td sb]} ∪ bitmap_set sb)). pose proof (size_add (IBLOCK td sb) (bitmap_set sb)).
    pose proof (size_bitmap_set sb ltac:(lia)). unfold T. cbn [size l0 set_state]. lia. }
  assert (room l0 T) as Hroom by (unfold room; lia). destruct (ready_start old) as (Hst1 & Hst2 & Hst3).
  unfold link. wp_step. apply wp_begin_tx; [done|]. fold l0. cbv zeta. intros Hl0. set (s1 := set_flog l0 s0).
  assert (in_call sb l0 s1 V I0 T []) as Hc1 by (split; [done|apply Hl0|done|done|done|by apply icache_lk_none]).
  assert (can_name sb (icache s1) I0 cwd c) as Hcn by (eapply (can_name_carried sb s0 I0 cwd c Hid Htab); [apply carries_refl|done|done]).
  wp_step. eapply (wp_path sb l0 Hgeo s1 V I0 T cwd c old tl0); [exact Hc1|exact Hroom|exact Hcn|exact Ho|].
  intros r l2 t2 s2 Hc2 Hres. change (icache s1) with (icache s0) in Hres. destruct (walk V I0 (start_of old c) (elements old)) as [i|] eqn:Hw.
  2:{ destruct Hres as [-> Hca]. apply (wp_link_fail s2 T); try done. unfold link_target. by rewrite Hw. }
  destruct Hres as (ip & -> & Hrf & Hca). destruct (walk_live sb V I0 _ _ i Hdirs Hst1 ltac:(by rewrite Hst2) Hw) as (Hin & Hit & Hfrom). pose proof (R1 i) as Hmaxi.
  wp_step. eapply (wp_lock sb l0 Hgeo s2 V I0 T [] ip i); [exact Hc2|by apply not_elem_of_nil|exact Hroom|exact Hrf|exact Hit|]. intros l3 x t3 s3 Hc3 Hlo3 Hs3. pose proof (carries_same _ _ _ _ Hca Hs3) as Hca3.
  wp_step. eapply wp_geti; [apply Hlo3|]. rewrite (lo_din _ _ _ _ _ Hlo3). destruct (Z.eqb_spec (type (I0 i)) T_DIR) as [Htd|Htd].
  - wp_step. eapply (wp_unlockput sb l0 s3 V I0 T [] ip i (icache s0)); [exact Hc3|by apply not_elem_of_nil|exact (locked_refers _ _ _ _ _ Hlo3)|exact Hca3|by eapply table0|lia| |].
    + destruct Hfrom as [->|[? _]]; [done|by left].
    + intros t4 s4 Hc4 Hca4. apply (wp_link_fail s4 T); try done. unfold link_target. by rewrite Hw, (proj2 (Z.eqb_eq _ _) Htd).
  - apply (wp_link_file s3 T ip i x tl1); try done; [intros b Hb%elem_of_bitmap_set; unfold T; set_solver|unfold T, ti; set_solver|].
    intros d nm E. unfold T, td. rewrite E. cbn. set_solver.
Qed.
End ready.

(** A block outside the log may change: the same link. *)
Lemma linked_same V I V' V2 I' i d nm : inode_no sb i -> inode_no sb d -> (forall j, inode_no sb j -> file_bytes V2 (I' j) = file_bytes V' (I' j)) ->
  linked sb V I V' I' i d nm -> linked sb V I V2 I' i d nm.
Proof.
  intros Hi Hd HV [A1 A2 A3 A4 A5 A6]. assert (forall nm', dir_find V2 (I' d) nm' = dir_find V' (I' d) nm') as Hf by (intros nm'; by apply dir_find_ext, HV).
  split; [by rewrite Hf|intros nm' Hne; rewrite Hf; by apply A2|done|done|by rewrite HV|]. intros j Hj H1 H2. rewrite HV by done. by apply A6.
Qed.

(** A string argument. *)
Definition string_arg (u : user) (n : nat) (str : list Z) : Prop := exists p len tl, argstr u n = Ok (Some (p, len)) /\ bytes_at u p = str ++ 0 :: tl.

(** C20: link gives a file one more name, in one transaction.  Between calls, in
    a well-formed file system, sys_link returns 0 exactly when the first path
    leads to an inode that is no directory and the second to a directory without
    its last name; then that name leads to the inode, every other name of the
    directory to what it did, the inode counts one link more and no other inode
    and no byte of another file has changed.  Otherwise it returns -1 and every
    inode and file is as before: the link counted early is taken back.  The call
    is crash-atomic, leaves the directories in order and keeps no reference. *)
Theorem sys_link_correct s I u cwd c old new : link_ready sb s I cwd c old new -> string_arg u 0 old -> string_arg u 1 new ->
  exists r s' I', sys_link u cwd s = Ok (r, s') /\ transaction sb s I s' I' /\ dirs_ok sb (on_disk (flog s')) I' /\ carries (icache s) (icache s') None /\
    match link_target (on_disk (flog s)) I c old new with
    | Some (i, d, nm) => r = 0 /\ linked sb (on_disk (flog s)) I (on_disk (flog s')) I' i d nm
    | None => r = -1 /\ same_files (on_disk (flog s)) I (on_disk (flog s')) I'
    end.
Proof.
  intros Hready (p0 & n0 & tl0 & Ea0 & Eb0) (p1 & n1 & tl1 & Ea1 & Eb1). destruct (wp_link s I cwd c old new Hready tl0 tl1) as (r & s' & E & Hpost).
  assert (sys_link u cwd s = Ok (r, s')) as Es by (unfold sys_link, mbind, M_bind, lift; rewrite Ea0, Ea1, Eb0, Eb1; exact E).
  assert (forall V' I', ended sb s I s' V' I' -> forall j, inode_no sb j -> file_bytes (on_disk (flog s')) (I' j) = file_bytes V' (I' j)) as Hb.
  { intros V' I' [Hta Hsame Hf _ _ _] j Hj. rewrite <-Hf by done. symmetry. eapply file_of_idle; [apply Hta|done]. }
  exists r, s'. unfold link_post in Hpost. destruct (link_target (on_disk (flog s)) I c old new) as [[[i d] nm]|] eqn:Et.
  - destruct Hpost as (-> & V' & I' & Hen & Hl). exists I'. split; [done|]. pose proof (Hb V' I' Hen) as HV. destruct Hen as [E1 E2 E3 E4 E5 E6]. split; [done|]. split; [done|].
    split; [done|]. split; [done|]. unfold link_target in Et. destruct (walk _ I (start_of old c) _) as [i0|] eqn:Ew; [|done]. destruct (type (I i0) =? T_DIR); [done|].
    destruct (walk_parent _ I (start_of new c) _) as [[d0 nm0]|] eqn:Ewp; [|done]. destruct (dir_find _ (I d0) nm0); [done|]. injection Et as <- <- <-.
    pose proof (ly_dirs _ _ _ _ _ _ _ Hready) as Hdirs. destruct (ready_start s I cwd c old new Hready old) as (S1 & S2 & _), (ready_start s I cwd c old new Hready new) as (S3 & S4 & _).
    destruct (walk_live sb _ I _ _ i0 Hdirs S1 ltac:(by rewrite S2) Ew) as (N1 & _). destruct (walk_parent_live sb _ I _ _ d0 nm0 Hdirs S3 ltac:(by rewrite S4) Ewp) as (N2 & _).
    by apply (linked_same _ I V').
  - destruct Hpost as (-> & V' & I' & Hen & Hl). exists I'. split; [done|]. pose proof (Hb V' I' Hen) as HV. destruct Hen as [E1 E2 E3 E4 E5 E6]. split; [done|]. split; [done|].
    split; [done|]. split; [done|]. intros j Hj. destruct (Hl j Hj) as [L1 L2]. split; [done|]. by rewrite HV.
Qed.
End link_call.

(** ** An example: link("/usr/f", "/g") *)
#[local] Instance link_no_devices : Devsw unit := {| dev_read := fun _ => None; dev_write := fun _ => None |}.
Definition ex_new : list Z := [47; 103].
Definition ex_link_user : user := mkUser ([0; 0; 0; 0; 12; 0; 0; 0; 20; 0; 0; 0] ++ ex_path ++ [0] ++ ex_new ++ [0]) 0.

Lemma ex_table_room (t : list inode) : t = ex_cwd :: replicate 49 zero_inode -> table_room ex_sb t ex_tree 0 1.
Proof.
  intros ->. split; [| | | |].
  - intros m. unfold refs. rewrite sumf_cons. rewrite sumf_const0.
    + unfold refs_in. cbn [inum iref ex_cwd]. unfold INT_MAX. destruct (1 =? m); cbn; lia.
    + intros x Hx. apply elem_of_replicate in Hx as [-> _]. unfold refs_in. cbn. by destruct m.
  - apply Nat.leb_le. by vm_compute.
  - exists ex_cwd. split; [reflexivity|]. split; reflexivity.
  - by vm_compute.
  - split; [exact ex_inode_1|]. split; by vm_compute.
Qed.

Lemma ex_link_ready (s : fstate unit) : fs_idle ex_sb s ex_tree -> icache s = ex_cwd :: replicate 49 zero_inode -> size (flog s) = 30 -> nfree ex_sb (on_disk (flog s)) = 939%nat ->
  (forall j, inode_no ex_sb j -> file_bytes (on_disk (flog s)) (ex_tree j) = file_bytes (read_disk ex_tree_blocks) (ex_tree j)) ->
  link_ready ex_sb s ex_tree 0 1 ex_path ex_new /\ link_target (on_disk (flog s)) ex_tree 1 ex_path ex_new = Some (3, 1, [103]).
Proof.
  intros Hid Hic Hsz Hnf HV. set (V := on_disk (flog s)) in *. pose proof (ex_dirs_ok V HV) as Hdirs.
  assert (walk V ex_tree 1 (elements ex_path) = Some 3) as Hw.
  { rewrite (walk_ext ex_sb (read_disk ex_tree_blocks)); [by vm_compute|exact HV|apply ex_dirs_ok; done|exact ex_inode_1]. }
  assert (walk_parent V ex_tree 1 (elements ex_new) = Some (1, [103])) as Hwp by by vm_compute.
  assert (dir_find V (ex_tree 1) [103] = None) as Hf.
  { rewrite (dir_find_ext (read_disk ex_tree_blocks) V); [by vm_compute|apply HV, ex_inode_1]. }
  change (start_of ex_path 1) with 1 in *. split; [|by unfold link_target; change (start_of ex_path 1) with 1; change (start_of ex_new 1) with 1; rewrite Hw, Hwp, Hf].
  split; fold V; change (start_of ex_path 1) with 1; change (start_of ex_new 1) with 1; rewrite ?Hw, ?Hwp; [exact Hid|exact Hdirs|by apply ex_table_room| | | | | | | |].
  - vm_compute. discriminate.
  - rewrite Hsz. by vm_compute.
  - rewrite Hnf. lia.
  - intros i [= <-] _. by vm_compute.
  - intros d nm [= <- <-]. by vm_compute.
  - intros d nm k e [= <- <-]. by rewrite Hf.
  - repeat constructor.
  - repeat constructor.
Qed.

Lemma sys_link_correct_witness : exists s s' k e, (_ ← forkret; iget 1 1) (booted ex_tree_blocks 1000 tt) = Ok (0%nat, s) /\
  sys_link ex_link_user 0 s = Ok (0, s') /\ (exists I', dir_find (on_disk (flog s')) (I' 1) [103] = Some (k, e) /\ nlink (I' 3) = 2) /\ d_inum e = 3.
Proof.
  destruct ex_tree_started as (s & E & Hid & Hic & Hsz & Hnf & HV). destruct (ex_link_ready s Hid Hic Hsz Hnf HV) as [Hready Ht].
  destruct (sys_link_correct ex_sb s ex_tree ex_link_user 0 1 ex_path ex_new Hready) as (r & s' & I' & El & _ & _ & _ & Hl).
  - exists 12, 7, (ex_new ++ [0]). split; by vm_compute.
  - exists 20, 2, []. split; by vm_compute.
  - rewrite Ht in Hl. destruct Hl as (-> & [(k & e & Hf & He) _ _ Hn _ _]). exists s, s', k, e. split; [exact E|]. split; [exact El|]. split; [|exact He].
    exists I'. split; [exact Hf|]. rewrite Hn. by vm_compute.
Defined.
