(* ===== verification/Unlink.v ===== *)
(** * Removing names: the theorems about unlink in xv6 wmap/solution/sysfile.c

    Over the calls of Sysfile.v and the truncation of Trunc.v: what sys_unlink
    does to directories, inodes and free blocks. *)
From stdpp Require Import functions.
From S2P Require Import Prelude Text Bio Log Block Inode Readwrite Fileop Dir Trunc Syscall Sysfile.

(** ** What unlink removes *)

(** The directory, the entry, the name and the inode that a path leads to, unless
    the name is "." or "..". *)
Definition unlink_entry_of (V : Z -> list Z) (I : Z -> dinode) (c : Z) (path : list Z) : option (Z * nat * list Z * Z) :=
  match walk_parent V I (start_of path c) (elements path) with
  | Some (d, nm) =>
      if decide (nm = [46] \/ nm = [46; 46]) then None
      else match dir_find V (I d) nm with Some (k, e) => Some (d, k, nm, d_inum e) | None => None end
  | None => None
  end.
Definition dir_empty (V : Z -> list Z) (d : dinode) : bool := forallb (fun e => d_inum e =? 0) (drop 2 (entries V d)).
Definition unlink_target (V : Z -> list Z) (I : Z -> dinode) (c : Z) (path : list Z) : option (Z * nat * list Z * Z) :=
  match unlink_entry_of V I c path with
  | Some (d, k, nm, i) => if (type (I i) =? T_DIR) && negb (dir_empty V (I i)) then None else Some (d, k, nm, i)
  | None => None
  end.

Section isdirempty.
Context {DS : Type} `{HDS : Devsw DS} (sb : superblock) (l0 : log) (Hgeo : geo sb l0).
Implicit Types (s : fstate DS) (V : Z -> list Z) (I : Z -> dinode) (T : gset Z) (ip : nat).

Lemma wp_isdirempty_loop fuel s V I T ip x k (Q : bool -> fstate DS -> Prop) : in_file sb l0 s V I T ip x -> room l0 T ->
  type (din x) = T_DIR -> dsize (din x) mod DIRENT = 0 -> dsize (din x) - 16 * Z.of_nat k < 16 * Z.of_nat fuel -> (0 < fuel)%nat ->
  (forall l', in_tx l0 l' V ∅ T -> Q (forallb (fun e => d_inum e =? 0) (drop k (entries V (din x)))) (set_flog l' s)) ->
  wp (isdirempty_loop fuel ip (16 * Z.of_nat k)) s Q.
Proof.
  revert s k. induction fuel as [|fuel IH]; intros s k Hf Hroom Ht Hm Hfuel Hpos HQ; [lia|]. cbn [isdirempty_loop].
  pose proof Hf as [Hsb Hl Hx Hdev Hi HI Hwf]. pose proof (fi_size _ (fw_fields _ _ _ Hwf _ Hi)) as Hsz. rewrite HI in Hsz.
  wp_step. eapply wp_geti; [done|]. destruct (Z.ltb_spec (16 * Z.of_nat k) (dsize (din x))) as [Hlt|Hge].
  2:{ wp_step. specialize (HQ (flog s) Hl). rewrite drop_ge in HQ; [by destruct s|]. pose proof (length_entries V (din x) ltac:(lia) Hm). lia. }
  assert (16 * Z.of_nat k + 16 <= dsize (din x)) as Hk16 by (unfold DIRENT in Hm; zlia).
  wp_step. eapply (wp_read_entry sb l0 Hgeo); try done. intros l1 bs H1 Hbs. rewrite Z.eqb_refl. cbn [negb]. rewrite Hbs.
  rewrite (drop_S _ _ _ (entries_lookup V (din x) k Hk16)) in HQ. cbn [forallb] in HQ.
  destruct (d_inum (entry_at V (din x) k) =? 0) eqn:E0; cbn [negb andb] in *; [|wp_step; by apply HQ].
  replace (16 * Z.of_nat k + DIRENT) with (16 * Z.of_nat (S k)) by (unfold DIRENT; lia). apply IH; [by split|done|done|done|lia|lia|]. intros l2 H2. by apply HQ.
Qed.

Lemma wp_isdirempty s V I T ip x (Q : bool -> fstate DS -> Prop) : in_file sb l0 s V I T ip x -> room l0 T ->
  type (din x) = T_DIR -> dsize (din x) mod DIRENT = 0 ->
  (forall l', in_tx l0 l' V ∅ T -> Q (dir_empty V (din x)) (set_flog l' s)) -> wp (isdirempty ip) s Q.
Proof.
  intros Hf Hroom Ht Hm HQ. pose proof Hf as [_ _ Hx _ Hi HI Hwf]. pose proof (fi_size _ (fw_fields _ _ _ Hwf _ Hi)) as Hsz. rewrite HI in Hsz.
  unfold isdirempty. wp_step. eapply wp_geti; [done|]. change (2 * DIRENT) with (16 * Z.of_nat 2).
  eapply (wp_isdirempty_loop _ s V I T ip x 2); try done; lia.
Qed.
End isdirempty.

(** ** Clearing an entry *)

(** Directory [d] without entry [k], which had the name [nm]. *)
Record cleared (sb : superblock) (V : Z -> list Z) (I : Z -> dinode) (V' : Z -> list Z) (I' : Z -> dinode) (d : Z) (k : nat) (nm : list Z) : Prop := {
  cl_entry : exists e, entries V' (I' d) !! k = Some e /\ d_inum e = 0;
  cl_entries : forall j, j <> k -> entries V' (I' d) !! j = entries V (I d) !! j;
  cl_name : dir_find V' (I' d) nm = None;
  cl_names : forall nm', nm' <> nm -> dir_find V' (I' d) nm' = dir_find V (I d) nm';
  cl_fields : type (I' d) = type (I d) /\ nlink (I' d) = nlink (I d) /\ dsize (I' d) mod DIRENT = 0;
  cl_others : forall j, inode_no sb j -> j <> d -> I' j = I j /\ file_bytes V' (I j) = file_bytes V (I j);
  cl_slots : forall j m, inode_no sb j -> j <> d -> 0 <= m <= MAXFILE -> slot V' (I j) m = slot V (I j) m
}.

Lemma dirs_ok_cleared sb V I V' I' d k nm : dirs_ok sb V I -> type (I d) = T_DIR -> cleared sb V I V' I' d k nm -> inode_no sb d -> dirs_ok sb V' I'.
Proof.
  intros [D1 D2] Ht [(e0 & C1 & C1') C2 _ _ (C5 & C6 & C7) C8 _] Hd.
  assert (forall j, inode_no sb j -> type (I' j) = type (I j) /\ nlink (I' j) = nlink (I j)) as Hf.
  { intros j Hj. destruct (decide (j = d)) as [->|Hne]; [done|]. by destruct (C8 j Hj Hne) as [-> _]. }
  split.
  - intros j Hj Htj. destruct (decide (j = d)) as [->|Hne]; [done|]. destruct (C8 j Hj Hne) as [E _]. rewrite E in *. by apply D1.
  - intros j e Hj Htj He He0. destruct (Hf j Hj) as [Et _]. rewrite Et in Htj.
    assert (inode_no sb (d_inum e) /\ type (I (d_inum e)) <> 0 /\ nlink (I (d_inum e)) <> 0) as (M1 & M2 & M3).
    { apply (D2 j e); [done|done| |done]. destruct (decide (j = d)) as [->|Hne].
      - apply list_elem_of_lookup in He as [m Hm]. destruct (decide (m = k)) as [->|Hmk]; [congruence|]. rewrite C2 in Hm by done. by eapply list_elem_of_lookup_2.
      - destruct (C8 j Hj Hne) as [E1 E2]. rewrite E1, (entries_ext V V') in He by done. done. }
    destruct (Hf _ M1) as [-> ->]. done.
Qed.

Section clear.
Context {DS : Type} `{HDS : Devsw DS} (sb : superblock) (l0 : log) (Hgeo : geo sb l0) (Hops : 1 <= outstanding l0).
Implicit Types (s : fstate DS) (V : Z -> list Z) (I : Z -> dinode) (T : gset Z) (ip : nat).

Lemma wp_clear_entry s V I T L dp d x k e nm (Q : Z -> fstate DS -> Prop) : in_call sb l0 s V I T L -> dp ∈ L -> locked (icache s) I dp d x ->
  (forall b, bitmap_block sb b -> b ∈ T) -> IBLOCK d sb ∈ T -> Z.of_nat (base.size T) + 3 < size l0 - 1 -> type (I d) = T_DIR -> (1 <= nfree sb V)%nat ->
  dir_find V (I d) nm = Some (k, e) -> (forall m e', entries V (I d) !! m = Some e' -> named nm e' -> m = k) ->
  (forall l' V' I' T' x', let t' := <[dp := x']> (icache s) in let s' := set_flog l' (set_icache t' s) in
    in_call sb l0 s' V' I' T' L -> locked t' I' dp d x' -> same_refs (icache s) t' -> cleared sb V I V' I' d k nm -> V' 1 = V 1 ->
    T ⊆ T' -> Z.of_nat (base.size T') <= Z.of_nat (base.size T) + 2 -> Q DIRENT s') ->
  wp (writei dp (replicate 16 0) (16 * Z.of_nat k)) s Q.
Proof.
  intros Hc HL Hlo Hbm HdT Hroom Ht Hnf Hfind Honce HQ. destruct (locked_file sb l0 s V I T L dp d x Hc Hlo) as [Hf Hd]. pose proof Hf as [_ _ _ _ Hi HI Hwf].
  pose proof Hlo as [A1 A2 A3 A4 A5 A6 A7]. pose proof Hc as [C1 C2 C3 C4 C5 C6]. pose proof (fi_size _ (fw_fields _ _ _ Hwf _ Hi)) as Hsz. rewrite HI, A4 in Hsz.
  assert (dsize (I d) mod DIRENT = 0) as Hm by (by apply (do_size _ _ _ C5)).
  assert (16 * Z.of_nat k + 16 <= dsize (I d)) as Hk.
  { apply list_find_Some in Hfind as (Hk & _). apply lookup_lt_Some in Hk. pose proof (length_entries V (I d) ltac:(lia) Hm). lia. }
  set (e0 := mkDirent 0 (replicate 14 0)). assert (replicate 16 0 = encode_dirent e0) as Eenc by done.
  assert (Z.of_nat (length (encode_dirent e0)) = DIRENT) as Hle by done.
  destruct (missing_entry V (I d) (Z.of_nat k)) as [_ Hspan].
  assert (missing_in V (I d) (16 * Z.of_nat k) DIRENT = 0)%nat as Hmiss.
  { unfold missing_in. rewrite Hspan. rewrite seqZ_cons by lia. change (seqZ _ (Z.pred 1)) with (@nil Z). rewrite filter_cons_False; [done|].
    apply (fw_data _ _ _ Hwf d); [done|unfold BSIZE; zlia|unfold BSIZE in *; zlia]. }
  assert (need_ind (I d) <= 1)%nat as Hni by (unfold need_ind; case_decide; lia).
  rewrite Eenc. eapply wp_mono; [apply (wp_writei sb l0 Hgeo Hops s V I T dp x (16 * Z.of_nat k) (encode_dirent e0)); rewrite ?Hle, ?Hspan, ?A4; try done|].
  { split; [done|done|done|by rewrite A2]. }
  { by rewrite Ht. }
  { lia. }
  { unfold DIRENT. lia. }
  { by apply encode_dirent_bytes, Forall_replicate. }
  { lia. }
  { lia. }
  intros r s' (-> & V' & I' & T' & x' & [W1 W2 (F1 & F2 & F3 & F4) W4 (l' & W5) W6 W7 [W8 W8'] W9 W10 W11 W12]). rewrite Hle in *. rewrite A4 in *. rewrite A2 in W7, W12.
  destruct W1 as [[G1 G2 G3 G4 G5 G6 G7] G8 G9 G10]. assert (inum x' = d) as Ed by (by rewrite W2). rewrite Ed in G6.
  destruct (entries_written V (I d) V' (din x') k e0) as (E1 & E2 & E3); try done; [lia|lia|by replace (Z.to_nat (16 * Z.of_nat k)) with (16 * k)%nat in W6 by lia|].
  destruct (icache_lk_fields sb (icache s) I I' L dp d x C6 HL Hlo) as (K1 & K2 & K3); [intros j Hj Hne; by apply W7|]. rewrite G6, <-W2 in K1, K2, K3.
  assert (cleared sb V I V' I' d k nm) as Hcl.
  { split; rewrite ?G6; try done.
    - by exists e0.
    - apply list_find_None, Forall_lookup. intros m e' Hm' Hn. destruct (decide (m = k)) as [->|Hmk]; [rewrite E1 in Hm'; injection Hm' as <-; by destruct Hn|].
      rewrite E2 in Hm' by done. by apply Hmk, (Honce m e').
    - intros nm' Hne. apply (list_find_other _ _ _ k); [done| |].
      + intros y Hy [_ Hn]. apply list_find_Some in Hfind as (Hk' & [_ Hn'] & _). congruence.
      + intros y Hy [Hn _]. rewrite E1 in Hy. by injection Hy as <-. }
  subst s'. apply (HQ l' V' I' T' x'); [|exact K2|exact K3|exact Hcl| |done|].
  - split; try done. by eapply dirs_ok_cleared.
  - apply W11. destruct Hgeo as [? [? ?] _ _ _ _]. lia.
  - rewrite Hspan in W8'. lia.
Qed.
End clear.

(** ** The last step: one link less *)

(** Entries that name inode [i], but for its own. *)
Definition unnamed (sb : superblock) (V : Z -> list Z) (I : Z -> dinode) (i : Z) : Prop := forall j e, inode_no sb j -> j <> i -> type (I j) = T_DIR ->
  e ∈ entries V (I j) -> d_inum e <> i.

Section dirs.
Context (sb : superblock).
Implicit Types (V : Z -> list Z) (I : Z -> dinode).

Lemma dirs_ok_unnamed V I V' I' i n : dirs_ok sb V I -> fields_set sb V I V' I' i (set_nlink n (I i)) -> unnamed sb V I i -> type (I i) <> T_DIR -> dirs_ok sb V' I'.
Proof.
  intros [D1 D2] [F1 F2 F3 _ _ _] Hun Hti. assert (forall j, j <> i -> I' j = I j) as Hj by done.
  assert (type (I' i) = type (I i)) as Eti by by rewrite F1.
  split.
  - intros j Hjn Htj. destruct (decide (j = i)) as [->|Hne]; [congruence|]. rewrite F2 in * by done. by apply D1.
  - intros j e Hjn Htj He He0. destruct (decide (j = i)) as [->|Hne]; [congruence|]. pose proof (F3 j Hjn) as Eb. rewrite F2 in * by done. rewrite (entries_ext V V') in He by done.
    destruct (D2 j e Hjn Htj He He0) as (M1 & M2 & M3). rewrite (F2 (d_inum e)) by (by apply (Hun j e)). done.
Qed.

Lemma dirs_ok_given_up V I V' I' i d : dirs_ok sb V I -> given_up sb V I V' I' i d -> type d <> T_DIR -> unnamed sb V I i -> dirs_ok sb V' I'.
Proof.
  intros [D1 D2] [_ _ G1 G2 G3 _ _] Ht Hun. split.
  - intros j Hjn Htj. destruct (decide (j = i)) as [->|Hne]; [congruence|]. rewrite G2 in * by done. by apply D1.
  - intros j e Hjn Htj He He0. destruct (decide (j = i)) as [->|Hne]; [congruence|]. pose proof (G3 j Hjn Hne) as Eb. rewrite G2 in * by done. rewrite (entries_ext V V') in He by done.
    destruct (D2 j e Hjn Htj He He0) as (M1 & M2 & M3). rewrite (G2 (d_inum e)) by (by apply (Hun j e)). done.
Qed.

Lemma given_up_after V I V1 I1 V2 I2 i d1 d : fields_set sb V I V1 I1 i d1 -> given_up sb V1 I1 V2 I2 i d -> inode_no sb i -> given_up sb V I V2 I2 i d.
Proof.
  intros [F1 F2 F3 _ F5 F6] [G1 G2 G3 G4 G5 G6 G7] Hi. split; try done.
  - intros j Hj. by rewrite G4, F2.
  - intros j Hj Hne. rewrite G5, F3; done.
  - intros k Hk. rewrite <-(F6 i k Hi). by apply G6.
  - intros b Hb. rewrite G7, F5; done.
Qed.
End dirs.

(** Inode [i] after a link less: given up when it was the last and nobody has
    the inode open. *)
Definition dropped (sb : superblock) (V : Z -> list Z) (I : Z -> dinode) (V' : Z -> list Z) (I' : Z -> dinode) (i : Z) (users : nat) : Prop :=
  if decide (nlink (I i) = 1 /\ users = 0%nat) then given_up sb V I V' I' i (set_type 0 (emptied (set_nlink 0 (I i))))
  else fields_set sb V I V' I' i (set_nlink (nlink (I i) - 1) (I i)).

Section drop.
Context {DS : Type} `{HDS : Devsw DS} (sb : superblock) (l0 : log) (Hgeo : geo sb l0).
Context (s0 : fstate DS) (I0 : Z -> dinode) (Hid : fs_idle sb s0 I0) (El : l0 = set_state 1 false (flog s0)).
Implicit Types (s : fstate DS) (V : Z -> list Z) (I : Z -> dinode) (T : gset Z) (ip : nat) (t : list inode).

Lemma wp_drop_link s V I T ip i x : in_call sb l0 s V I T [ip] -> locked (icache s) I ip i x -> decode_sb (V 1) = sb -> devs s = devs s0 ->
  carries (icache s0) (icache s) (Some i) -> Z.of_nat (refs (icache s0) i) < INT_MAX -> 0 < nlink (I i) ->
  (nlink (I i) = 1 -> unnamed sb V I i /\ ((0 < refs (icache s0) i)%nat -> type (I i) <> T_DIR)) ->
  (forall b, bitmap_block sb b -> b ∈ T) -> IBLOCK i sb ∈ T -> room l0 T ->
  wp (_ ← add_link ip (-1); _ ← iunlockput ip; _ ← end_tx; mret 0) s (fun r s' => r = 0 /\ exists V' I', ended sb s0 I0 s' V' I' /\ dropped sb V I V' I' i (refs (icache s0) i)).
Proof.
  intros Hc Hlo Hsup Hdv Hca Hmax Hn Hlast Hbm HiT Hroom. pose proof Hid as [_ _ _ _ Hic0]. apply icache_lk_none in Hic0.
  assert (1 <= outstanding l0) as Hops by (rewrite El; cbn; lia). destruct (locked_file sb l0 s V I T [ip] ip i x Hc Hlo) as [_ Hi].
  pose proof (fi_nlink _ (fw_fields _ _ _ (nc_wf _ _ _ _ _ _ _ Hc) i Hi)) as Hsh. unfold short in Hsh. destruct (geo_data sb l0 Hgeo) as (D1 & D2 & D3 & D4).
  assert (1 < inodestart sb) as Hino by (destruct Hgeo as [? [? ?] _ _ _ _]; lia).
  unfold dropped. destruct (decide (nlink (I i) = 1 /\ refs (icache s0) i = 0%nat)) as [[Hn1 Hr0]|Hnot].
  - destruct (Hlast Hn1) as [Hun _]. wp_step. eapply (wp_put_link sb l0 Hgeo Hops s V I T [ip] ip i x (-1)); [exact Hc|apply list_elem_of_here|exact Hlo|exact HiT|exact Hroom|unfold short; lia|].
    intros l1 V1 I1 x1 t1 Hl1 Hwf1 Hsy1 Hlk1 Hlo1 Hs1 Hfs. pose proof Hlo1 as [B1 B2 B3 B4 B5 B6 B7]. pose proof (fs_inode _ _ _ _ _ _ _ Hfs) as EI1. rewrite Hn1 in EI1. cbn [Z.add] in EI1.
    pose proof (carries_same _ _ _ _ Hca Hs1) as Hca1. pose proof (same_refs_insert t1 ip x1 (set_ilocked false x1) B1 eq_refl eq_refl) as Hs2.
    wp_step. unfold iunlockput. wp_step. eapply wp_iunlock; [exact B1|exact B6|exact B7|].
    pose proof (lk_unlocked sb t1 I1 [] ip x1 Hlk1 (not_elem_of_nil _) B1) as Hlk2. set (t2 := <[ip := set_ilocked false x1]> t1) in *. pose proof (carries_same _ _ _ _ Hca1 Hs2) as Hca2.
    assert (t2 !! ip = Some (set_ilocked false x1)) as Hx2 by (apply list_lookup_insert_eq; by eapply lookup_lt_Some).
    assert (iref x1 = 1) as Hr1.
    { pose proof (refs_entry sb t2 I1 [] ip _ Hlk2 Hx2 B7) as Hre. cbn [inum iref set_ilocked] in Hre. rewrite B2, (ca_refs _ _ _ Hca2), Hr0, decide_True in Hre by done. lia. }
    eapply (wp_iput_last sb l0 Hgeo Hops _ V1 I1 T [] ip i (set_ilocked false x1)); try done; [apply Hc|apply not_elem_of_nil|by rewrite EI1|].
    intros l3 V3 I3 t3 Hl3 Hg3 Hlk3 Hgot3. rewrite EI1 in Hg3. pose proof (given_up_after sb V I V1 I1 V3 I3 i _ _ Hfs Hg3 Hi) as Hgu.
    assert (carries (icache s0) t3 None) as Hca3 by (by eapply (carries_put sb I0 [])).
    wp_step. eapply (wp_finish sb l0 Hgeo s0 I0 _ V3 I3 T); [done|done| |by rewrite (gu_meta _ _ _ _ _ _ _ Hgu) by lia|done|exact Hca3|].
    + split; [apply Hc|exact Hl3|apply Hgu|apply Hgu| |exact Hlk3]. eapply dirs_ok_given_up; [apply Hc|exact Hgu|done|exact Hun].
    + intros s' Hen. wp_step. split; [done|]. by exists V3, I3.
  - wp_step. eapply (wp_add_link sb l0 Hgeo Hops s V I T [ip] ip i x (-1)); [exact Hc|apply list_elem_of_here|exact Hlo|exact HiT|exact Hroom|unfold short; lia| |].
    { destruct (decide (nlink (I i) = 1)) as [Hn1|]; [|left; lia]. right. destruct (Hlast Hn1) as [Hun Hdt]. intros V' I' Hfs. eapply dirs_ok_unnamed; [apply Hc|exact Hfs|exact Hun|]. apply Hdt. lia. }
    intros l1 V1 I1 x1 t1 s1 Hc1 Hlo1 Hs1 Hfs. pose proof (carries_same _ _ _ _ Hca Hs1) as Hca1.
    wp_step. eapply (wp_unlockput sb l0 s1 V1 I1 T [] ip i (icache s0)); [exact Hc1|apply not_elem_of_nil|exact (locked_refers _ _ _ _ _ Hlo1)|exact Hca1|by eauto|exact Hmax| |].
    { rewrite (fs_inode _ _ _ _ _ _ _ Hfs). cbn [nlink set_nlink]. destruct (decide (nlink (I i) = 1)); [right; lia|left; lia]. }
    intros t2 s2 Hc2 Hca2. wp_step. eapply (wp_finish sb l0 Hgeo s0 I0 s2 V1 I1 T); [done|done|exact Hc2|by rewrite (fs_meta _ _ _ _ _ _ _ Hfs) by lia|done|exact Hca2|].
    intros s' Hen. wp_step. split; [done|]. exists V1, I1. split; [done|]. exact Hfs.
Qed.
End drop.

(** ** The entry and the inode *)

(** References to the directory [d] and, by entry [ip], to inode [i]. *)
Definition holds_two (t0 t : list inode) (ip : nat) (d i : Z) : Prop := exists t1 t2, carries t0 t1 (Some d) /\ got t1 t2 ip i /\ same_refs t2 t.

Lemma same_refs_trans t1 t2 t3 : same_refs t1 t2 -> same_refs t2 t3 -> same_refs t1 t3.
Proof. intros [A B C] [D E F]. split; [intros n; by rewrite D|by rewrite E|intros j n; by rewrite F]. Qed.

Lemma holds_two_same t0 t t' ip d i : holds_two t0 t ip d i -> same_refs t t' -> holds_two t0 t' ip d i.
Proof. intros (t1 & t2 & A & B & C) H. exists t1, t2. split_and!; [done|done|by eapply same_refs_trans]. Qed.

Lemma holds_two_refs t0 t ip d i m : holds_two t0 t ip d i -> (refs t m <= refs t0 m + 2)%nat /\ (m = d -> refs t0 m < refs t m)%nat /\ (m = i -> refs t0 m < refs t m)%nat.
Proof.
  intros (t1 & t2 & A & B & C). rewrite (sr_refs _ _ C), (got_refs _ _ _ _ B), (ca_refs _ _ _ A). destruct (Z.eqb_spec m i); case_decide; simplify_eq; split_and!; intros; try lia; congruence.
Qed.

Lemma holds_two_first sb I L t0 t t' ip dp d i : icache_lk sb t0 I L -> holds_two t0 t ip d i -> got t' t dp d -> carries t0 t' (Some i).
Proof. intros H (t1 & t2 & A & B & C) Hg. eapply (carries_swap sb I L t0 t1 t2 t' dp ip d i); [done|done|done|]. by eapply got_same. Qed.

Lemma holds_two_second sb I L t0 t t' ip d i : (exists I1 L1 t1 t2, icache_lk sb t1 I1 L1 /\ carries t0 t1 (Some d) /\ got t1 t2 ip i /\ same_refs t2 t) -> icache_lk sb t0 I L -> got t' t ip i -> carries t0 t' (Some d).
Proof.
  intros (I1 & L1 & t1 & t2 & H1 & A & B & C) H Hg. eapply (carries_trans t0 t1); [done|]. eapply (carries_put sb I1 L1 t1 t2 t' ip i); [done| |by eapply got_same].
  eapply carries_got; [apply carries_refl|done].
Qed.

Lemma in_call_perm {DS : Type} sb l0 (s : fstate DS) V I T L L' : in_call sb l0 s V I T L -> (forall j, j ∈ L <-> j ∈ L') -> in_call sb l0 s V I T L'.
Proof. intros [A B C D E F] HL. split; try done. by eapply lk_perm. Qed.

Lemma fields_set_refl sb V I i : fields_set sb V I V I i (I i).
Proof. by split. Qed.

(** A name less: entry [k] of directory [d], for inode [i] with [users]. *)
Record unlinked (sb : superblock) (V : Z -> list Z) (I : Z -> dinode) (V' : Z -> list Z) (I' : Z -> dinode) (d : Z) (nm : list Z) (i : Z) (users : nat) : Prop := {
  ul_name : dir_find V' (I' d) nm = None;
  ul_names : forall nm', nm' <> nm -> dir_find V' (I' d) nm' = dir_find V (I d) nm';
  ul_dir : type (I' d) = T_DIR /\ nlink (I' d) = nlink (I d) - (if type (I i) =? T_DIR then 1 else 0);
  ul_inode : if decide (nlink (I i) = 1 /\ users = 0%nat)
    then I' i = set_type 0 (emptied (set_nlink 0 (I i))) /\ forall k, 0 <= k <= MAXFILE -> slot V (I i) k <> 0 -> used sb V' (slot V (I i) k) = false
    else I' i = set_nlink (nlink (I i) - 1) (I i) /\ file_bytes V' (I' i) = file_bytes V (I i);
  ul_others : forall j, inode_no sb j -> j <> i -> j <> d -> I' j = I j /\ file_bytes V' (I' j) = file_bytes V (I j)
}.

Lemma unlinked_steps sb V I V1 I1 V2 I2 V' I' d k nm i users : inode_no sb i -> inode_no sb d -> i <> d -> type (I d) = T_DIR -> cleared sb V I V1 I1 d k nm ->
  fields_set sb V1 I1 V2 I2 d (set_nlink (nlink (I1 d) - (if type (I i) =? T_DIR then 1 else 0)) (I1 d)) -> dropped sb V2 I2 V' I' i users ->
  unlinked sb V I V' I' d nm i users.
Proof.
  intros Hi Hd Hne Ht [_ _ C3 C4 (C5 & C6 & _) C7 C8] [F1 F2 F3 _ _ F6] Hdr.
  destruct (C7 i Hi Hne) as [Ei Eib]. assert (I2 i = I i) as Ei2 by by rewrite F2. assert (file_bytes V2 (I2 i) = file_bytes V (I i)) as Eb2 by by rewrite F3, Ei.
  assert (forall j, inode_no sb j -> j <> i -> I' j = I2 j /\ file_bytes V' (I' j) = file_bytes V2 (I2 j)) as Hoth.
  { intros j Hj Hji. unfold dropped in Hdr. case_decide; destruct Hdr; split; auto. }
  destruct (Hoth d Hd ltac:(done)) as [Ed Edb]. rewrite Ed in Edb.
  assert (file_bytes V' (I2 d) = file_bytes V1 (I1 d)) as Edb2 by by rewrite Edb, F3.
  assert (forall nm', dir_find V' (I' d) nm' = dir_find V1 (I1 d) nm') as Hfind.
  { intros nm'. apply (dir_find_fields sb V1 I1 V' I'); [done|by rewrite Ed, F1|by rewrite Ed]. }
  split.
  - by rewrite Hfind.
  - intros nm' Hn. rewrite Hfind. by apply C4.
  - rewrite Ed, F1. cbn [type nlink set_nlink]. by rewrite C5, C6.
  - unfold dropped in Hdr. rewrite Ei2 in Hdr. case_decide.
    + destruct Hdr as [_ _ G3 _ _ G6 _]. split; [done|]. intros m Hm Hs. assert (slot V2 (I2 i) m = slot V (I i) m) as Es by (rewrite F6, Ei by done; by apply C8).
      rewrite <-Es. apply G6; [done|]. by rewrite Es.
    + destruct Hdr as [G1 _ G3 _ _ _]. split; [done|]. by rewrite G3.
  - intros j Hj Hji Hjd. destruct (Hoth j Hj Hji) as [-> ->]. rewrite F3, F2 by done. destruct (C7 j Hj Hjd) as [-> ->]. done.
Qed.

Section entry.
Context {DS : Type} `{HDS : Devsw DS} (sb : superblock) (l0 : log) (Hgeo : geo sb l0).
Context (s0 : fstate DS) (I0 : Z -> dinode) (Hid : fs_idle sb s0 I0) (El : l0 = set_state 1 false (flog s0)) (Hmax : forall m, Z.of_nat (refs (icache s0) m) <= INT_MAX - 6).
Implicit Types (s : fstate DS) (V : Z -> list Z) (I : Z -> dinode) (T : gset Z) (ip : nat) (t : list inode).

(** What unlink relies on about the entry that it finds: it is the only one with
    its name; the count of links is right when it is 1; a directory to remove is
    in no use and is counted by its parent. *)
Record removable V I (d : Z) (k : nat) (nm : list Z) (i : Z) (users : nat) : Prop := {
  rm_self : i <> d /\ i <> 0;
  rm_nlink : 0 < nlink (I i);
  rm_once : forall m e, entries V (I d) !! m = Some e -> named nm e -> m = k;
  rm_count : nlink (I i) = 1 -> forall j m e, inode_no sb j -> type (I j) = T_DIR -> entries V (I j) !! m = Some e -> d_inum e = i -> (j = d /\ m = k) \/ j = i;
  rm_dir : type (I i) = T_DIR -> dir_empty V (I i) = true -> 1 < nlink (I d) /\ users = 0%nat
}.

Lemma unnamed_cleared V I V1 I1 V2 I2 d k nm i dd : removable V I d k nm i (refs (icache s0) i) -> inode_no sb d -> inode_no sb i -> cleared sb V I V1 I1 d k nm ->
  fields_set sb V1 I1 V2 I2 d dd -> dsize dd = dsize (I1 d) -> type dd = type (I1 d) -> nlink (I i) = 1 -> unnamed sb V2 I2 i.
Proof.
  intros [R1 R2 R3 R4 R5] Hd Hi [(e0 & C1 & C1') C2 C3 C4 (C5 & _) C7 C8] [F1 F2 F3 _ _ _] Es Et Hn j e Hj Hji Htj He Hei.
  assert (type (I2 j) = type (I j) /\ entries V2 (I2 j) = entries V1 (I1 j)) as [Ej Ee].
  { pose proof (F3 j Hj) as Eb. destruct (decide (j = d)) as [->|Hjd].
    - rewrite F1 in *. rewrite Et, C5. split; [done|]. unfold entries, entry_at. by rewrite Es, Eb.
    - rewrite F2 in * by done. destruct (C7 j Hj Hjd) as [E _]. rewrite E in *. split; [done|]. by apply entries_ext. }
  rewrite Ej in Htj. rewrite Ee in He. apply list_elem_of_lookup in He as [m Hm]. destruct (decide (j = d)) as [->|Hjd].
  - destruct (decide (m = k)) as [->|Hmk]; [assert (e = e0) as -> by congruence; lia|]. rewrite C2 in Hm by done. destruct (R4 Hn d m e Hj Htj Hm Hei) as [[_ ?]|?]; done.
  - destruct (C7 j Hj Hjd) as [E1 E2]. rewrite E1, (entries_ext V V1) in Hm by done. destruct (R4 Hn j m e Hj Htj Hm Hei) as [[? _]|?]; done.
Qed.

(** The end of unlink, once the entry is cleared and the directory's links are
    counted. *)
Lemma wp_unlink_rest s V I V1 I1 V2 I2 T ip i x dp d y k nm : in_call sb l0 s V2 I2 T [ip; dp] -> locked (icache s) I2 ip i x -> locked (icache s) I2 dp d y ->
  cleared sb V I V1 I1 d k nm -> fields_set sb V1 I1 V2 I2 d (set_nlink (nlink (I1 d) - (if type (I i) =? T_DIR then 1 else 0)) (I1 d)) ->
  removable V I d k nm i (refs (icache s0) i) -> type (I d) = T_DIR -> (type (I i) = T_DIR -> dir_empty V (I i) = true) -> decode_sb (V2 1) = sb -> devs s = devs s0 ->
  holds_two (icache s0) (icache s) ip d i -> nlink (I2 d) <> 0 \/ (0 < refs (icache s0) d)%nat ->
  (forall b, bitmap_block sb b -> b ∈ T) -> IBLOCK i sb ∈ T -> room l0 T ->
  wp (_ ← iunlockput dp; _ ← add_link ip (-1); _ ← iunlockput ip; _ ← end_tx; mret 0) s
    (fun r s' => r = 0 /\ exists V' I', ended sb s0 I0 s' V' I' /\ unlinked sb V I V' I' d nm i (refs (icache s0) i)).
Proof.
  intros Hc Hlo Hlod Hcl Hfs Hrm Htd Hemp Hsup Hdv Hh Hnd Hbm HiT Hroom. pose proof Hid as [_ _ _ _ Hic0]. apply icache_lk_none in Hic0.
  pose proof Hrm as [[R1 R0] R2 R3 R4 R5]. destruct (locked_file sb l0 s V2 I2 T _ ip i x Hc Hlo) as [_ Hi]. destruct (locked_file sb l0 s V2 I2 T _ dp d y Hc Hlod) as [_ Hd].
  assert (ip <> dp) as Hipdp by (intros ->; apply R1; eapply refers_inj; by eapply locked_refers).
  assert (in_call sb l0 s V2 I2 T [dp; ip]) as Hc' by (eapply in_call_perm; [exact Hc|]; intros j; rewrite !elem_of_cons; tauto).
  assert (dp ∉ [ip]) as HL by (rewrite list_elem_of_singleton; congruence).
  destruct (holds_two_refs _ _ _ _ _ d Hh) as (Q1 & Q2 & _). specialize (Q2 eq_refl). pose proof (Hmax d). pose proof (Hmax i).
  pose proof Hc' as [C1 C2 C3 C4 C5 C6].
  wp_step. eapply (wp_iunlockput sb s I2 [ip] dp d); [exact C6|exact HL|exact (locked_refers _ _ _ _ _ Hlod)|lia|destruct Hnd; [by left|right; lia]|].
  intros t3 Hlk3 Hg3 Hoth3. pose proof (holds_two_first sb I0 [] _ _ _ _ _ _ _ Hic0 Hh Hg3) as Hca3. set (s3 := set_icache t3 s).
  assert (in_call sb l0 s3 V2 I2 T [ip]) as Hc3 by (by split).
  assert (I1 i = I i) as Ei1 by (by apply (cl_others _ _ _ _ _ _ _ _ Hcl)). assert (I2 i = I i) as Ei2 by (by rewrite (fs_others _ _ _ _ _ _ _ Hfs)).
  assert (locked t3 I2 ip i x) as Hlo3 by (destruct Hlo; split; try done; by rewrite Hoth3).
  eapply wp_mono; [eapply (wp_drop_link sb l0 Hgeo s0 I0 Hid El s3 V2 I2 T ip i x); try done; [lia|by rewrite Ei2|]|].
  - rewrite Ei2. intros Hn. split; [eapply unnamed_cleared; done|]. intros Hu Hti. destruct (R5 Hti (Hemp Hti)) as [_ ?]. lia.
  - intros r s' (-> & V' & I' & Hen & Hdr). split; [done|]. exists V', I'. split; [done|]. by eapply unlinked_steps.
Qed.

Lemma wp_unlink_entry s V I T ip i x dp d y k nm e : in_call sb l0 s V I T [ip; dp] -> locked (icache s) I ip i x -> locked (icache s) I dp d y ->
  dir_find V (I d) nm = Some (k, e) -> removable V I d k nm i (refs (icache s0) i) -> type (I d) = T_DIR -> (type (I i) = T_DIR -> dir_empty V (I i) = true) ->
  decode_sb (V 1) = sb -> devs s = devs s0 -> holds_two (icache s0) (icache s) ip d i -> nlink (I d) <> 0 \/ (0 < refs (icache s0) d)%nat ->
  (forall b, bitmap_block sb b -> b ∈ T) -> IBLOCK i sb ∈ T -> IBLOCK d sb ∈ T -> Z.of_nat (base.size T) + 3 < size l0 - 1 -> (1 <= nfree sb V)%nat ->
  wp (unlink_entry dp ip (16 * Z.of_nat k)) s (fun r s' => r = 0 /\ exists V' I', ended sb s0 I0 s' V' I' /\ unlinked sb V I V' I' d nm i (refs (icache s0) i)).
Proof.
  intros Hc Hlo Hlod Hfind Hrm Htd Hemp Hsup Hdv Hh Hnd Hbm HiT HdT Hroom Hnf. assert (1 <= outstanding l0) as Hops by (rewrite El; cbn; lia).
  destruct (locked_file sb l0 s V I T _ ip i x Hc Hlo) as [_ Hi]. destruct (locked_file sb l0 s V I T _ dp d y Hc Hlod) as [_ Hd].
  pose proof Hrm as [[R1 R0] R2 R3 R4 R5]. assert (ip <> dp) as Hipdp by (intros ->; apply R1; eapply refers_inj; by eapply locked_refers).
  assert (dp ∈ [ip; dp]) as HL by (rewrite !elem_of_cons; tauto). assert (1 < inodestart sb) as Hino by (destruct Hgeo as [? [? ?] _ _ _ _]; lia).
  unfold unlink_entry. wp_step. eapply (wp_clear_entry sb l0 Hgeo Hops s V I T [ip; dp] dp d y k e nm); [exact Hc|exact HL|exact Hlod|exact Hbm|exact HdT|exact Hroom|exact Htd|exact Hnf|exact Hfind|exact R3|].
  intros l1 V1 I1 T1 y1 t1 s1 Hc1 Hlod1 Hs1 Hcl Hsup1 HTT HszT. rewrite Z.eqb_refl. cbn [negb].
  assert (I1 i = I i) as Ei1 by (by apply (cl_others _ _ _ _ _ _ _ _ Hcl)). assert (t1 !! ip = icache s !! ip) as Ex1 by (by apply list_lookup_insert_ne).
  assert (locked t1 I1 ip i x) as Hlo1 by (destruct Hlo; split; try done; [by rewrite Ex1|by rewrite Ei1]). destruct (cl_fields _ _ _ _ _ _ _ _ Hcl) as (E1 & E2 & _).
  assert (room l0 T1) as Hroom1 by (unfold room; lia). pose proof (holds_two_same _ _ _ _ _ _ Hh Hs1) as Hh1.
  wp_step. eapply wp_geti; [apply Hlo1|]. rewrite (lo_din _ _ _ _ _ Hlo1), Ei1. wp_step. destruct (Z.eqb_spec (type (I i)) T_DIR) as [Hti|Hti].
  - destruct (R5 Hti (Hemp Hti)) as [Hn2 _]. pose proof (fi_nlink _ (fw_fields _ _ _ (nc_wf _ _ _ _ _ _ _ Hc) d Hd)) as Hsh. unfold short in Hsh.
    eapply (wp_add_link sb l0 Hgeo Hops s1 V1 I1 T1 [ip; dp] dp d y1 (-1)); [exact Hc1|exact HL|exact Hlod1|by apply HTT|exact Hroom1|unfold short; lia|left; lia|].
    intros l2 V2 I2 y2 t2 s2 Hc2 Hlod2 Hs2 Hfs. assert (t2 !! ip = t1 !! ip) as Ex2 by (by apply list_lookup_insert_ne).
    assert (locked t2 I2 ip i x) as Hlo2 by (destruct Hlo1; split; try done; [by rewrite Ex2|by rewrite (fs_others _ _ _ _ _ _ _ Hfs)]).
    eapply (wp_unlink_rest s2 V I V1 I1 V2 I2 T1 ip i x dp d y2 k nm); [exact Hc2|exact Hlo2|exact Hlod2|exact Hcl| |exact Hrm|exact Htd|exact Hemp|by rewrite (fs_meta _ _ _ _ _ _ _ Hfs), Hsup1 by lia|done|by eapply holds_two_same| |intros b Hb; by apply HTT, Hbm|by apply HTT|exact Hroom1].
    + rewrite (proj2 (Z.eqb_eq _ _) Hti). exact Hfs.
    + left. rewrite (fs_inode _ _ _ _ _ _ _ Hfs). cbn [nlink set_nlink]. lia.
  - wp_step. eapply (wp_unlink_rest s1 V I V1 I1 V1 I1 T1 ip i x dp d y1 k nm); [exact Hc1|exact Hlo1|exact Hlod1|exact Hcl| |exact Hrm|exact Htd|exact Hemp|by rewrite Hsup1|done|exact Hh1|by rewrite E2|intros b Hb; by apply HTT, Hbm|by apply HTT|exact Hroom1].
    rewrite (proj2 (Z.eqb_neq _ _) Hti), Z.sub_0_r. rewrite set_nlink_same. apply fields_set_refl.
Qed.
End entry.

(** ** The call as a whole *)

(** A system between calls that can run unlink. *)
Record unlink_ready {DS : Type} (sb : superblock) (s : fstate DS) (I : Z -> dinode) (cwd : nat) (c : Z) (path : list Z) : Prop := {
  uy_idle : fs_idle sb s I;
  uy_dirs : dirs_ok sb (on_disk (flog s)) I;
  uy_table : table_room sb (icache s) I cwd c;
  uy_log : datastart sb - bmapstart sb + 6 < size (flog s);
  uy_free : (1 <= nfree sb (on_disk (flog s)))%nat;
  uy_entry : forall d k nm i, unlink_entry_of (on_disk (flog s)) I c path = Some (d, k, nm, i) -> removable sb (on_disk (flog s)) I d k nm i (refs (icache s) i);
  uy_path : Forall (fun ch => 0 < ch < 256) path
}.

Section unlink_call.
Context {DS : Type} `{HDS : Devsw DS} (sb : superblock).
Implicit Types (s : fstate DS) (V : Z -> list Z) (I : Z -> dinode) (T : gset Z) (ip : nat) (t : list inode).

Section ready.
Context s0 I0 cwd c path (Hready : unlink_ready sb s0 I0 cwd c path).
Let V : Z -> list Z := on_disk (flog s0).
Let l0 : log := set_state 1 false (flog s0).

Definition unlink_post (r : Z) s' : Prop :=
  match unlink_target V I0 c path with
  | Some (d, k, nm, i) => r = 0 /\ exists V' I', ended sb s0 I0 s' V' I' /\ unlinked sb V I0 V' I' d nm i (refs (icache s0) i)
  | None => r = -1 /\ exists V' I', ended sb s0 I0 s' V' I' /\ same_files sb V I0 V' I'
  end.

Lemma unlink_geo : geo sb l0.
Proof. destruct Hready as [[_ _ Hgeo _ _] _ _ _ _ _ _]. by eapply (geo_ext sb (flog s0)). Qed.

Lemma unlink_fail s T : in_call sb l0 s V I0 T [] -> devs s = devs s0 -> carries (icache s0) (icache s) None -> unlink_target V I0 c path = None ->
  wp (_ ← end_tx; mret (-1)) s unlink_post.
Proof.
  intros Hc Hdv Hca Hno. pose proof (uy_idle _ _ _ _ _ _ Hready) as Hid. wp_step. eapply (wp_finish sb l0 unlink_geo s0 I0 s V I0 T); try done; [apply Hid|].
  intros s' Hen. wp_step. unfold unlink_post. rewrite Hno. split; [done|]. exists V, I0. split; [done|]. by intros j Hj.
Qed.

(** The label bad. *)
Lemma wp_unlink_bad s T dp d : in_call sb l0 s V I0 T [dp] -> devs s = devs s0 -> refers (icache s) dp d -> carries (icache s0) (icache s) (Some d) ->
  nlink (I0 d) <> 0 \/ (0 < refs (icache s0) d)%nat -> unlink_target V I0 c path = None -> wp (unlink_bad dp) s unlink_post.
Proof.
  intros Hc Hdv Hrf Hca Hnl Hno. pose proof (tr_refs _ _ _ _ _ (uy_table _ _ _ _ _ _ Hready) d). pose proof (uy_idle _ _ _ _ _ _ Hready) as Hid.
  unfold unlink_bad. wp_step. eapply (wp_unlockput sb l0 s V I0 T [] dp d (icache s0)); [exact Hc|apply not_elem_of_nil|exact Hrf|exact Hca|by eapply table0|lia|exact Hnl|].
  intros t1 s1 Hc1 Hca1. by apply (unlink_fail s1 T).
Qed.

(** The entry has been found: from the lock of its inode on. *)
Lemma wp_unlink_found s T dp d y ip i k nm e : in_call sb l0 s V I0 T [dp] -> locked (icache s) I0 dp d y -> devs s = devs s0 -> refers (icache s) ip i ->
  holds_two (icache s0) (icache s) ip d i -> (exists I1 L1 t1 t2, icache_lk sb t1 I1 L1 /\ carries (icache s0) t1 (Some d) /\ got t1 t2 ip i /\ same_refs t2 (icache s)) ->
  unlink_entry_of V I0 c path = Some (d, k, nm, i) -> dir_find V (I0 d) nm = Some (k, e) ->
  type (I0 d) = T_DIR -> type (I0 i) <> 0 -> nlink (I0 d) <> 0 \/ (0 < refs (icache s0) d)%nat ->
  (forall b, bitmap_block sb b -> b ∈ T) -> IBLOCK i sb ∈ T -> IBLOCK d sb ∈ T -> Z.of_nat (base.size T) + 3 < size l0 - 1 ->
  wp (_ ← ilock ip; x ← geti ip;
      if nlink (din x) <? 1 then fail Panic else
      e ← (if type (din x) =? T_DIR then isdirempty ip else mret true);
      if negb e then _ ← iunlockput ip; unlink_bad dp else unlink_entry dp ip (16 * Z.of_nat k)) s unlink_post.
Proof.
  intros Hc Hlod Hdv Hrf Hh Hh2 Huo Hfind Htd Hit Hnd Hbm HiT HdT Hroom. pose proof unlink_geo as Hgeo. pose proof Hready as [Hid Hdirs Htab _ Hfree Hent _].
  pose proof (Hent _ _ _ _ Huo) as Hrm. pose proof Hrm as [[R1 R0] R2 _ _ _]. pose proof (tr_refs _ _ _ _ _ Htab) as Hmax. pose proof Hid as [_ _ _ Hfd Hic0]. apply icache_lk_none in Hic0.
  assert (ip ∉ [dp]) as HL by (intros ->%list_elem_of_singleton; apply R1; eapply refers_inj; [exact Hrf|by eapply locked_refers]). assert (room l0 T) as Hroom1 by (unfold room; lia).
  wp_step. eapply (wp_lock sb l0 Hgeo s V I0 T [dp] ip i); [exact Hc|exact HL|exact Hroom1|exact Hrf|exact Hit|]. intros l1 x t1 s1 Hc1 Hlo1 Hs1.
  pose proof (holds_two_same _ _ _ _ _ _ Hh Hs1) as Hh1. assert (t1 !! dp = icache s !! dp) as Ey by (apply list_lookup_insert_ne; intros ->; apply HL, list_elem_of_here).
  assert (locked t1 I0 dp d y) as Hlod1 by (destruct Hlod; split; try done; by rewrite Ey).
  wp_step. eapply wp_geti; [apply Hlo1|]. rewrite (lo_din _ _ _ _ _ Hlo1), (proj2 (Z.ltb_ge _ _)) by lia. destruct (locked_file sb l0 s1 V I0 T _ ip i x Hc1 Hlo1) as [Hf1 Hi].
  assert (forall l2, in_tx l0 l2 V ∅ T -> in_call sb l0 (set_flog l2 s1) V I0 T [ip; dp]) as Hc2 by (intros l2 Hl2; destruct Hc1; by split).
  assert (forall l2, in_tx l0 l2 V ∅ T -> (type (I0 i) = T_DIR -> dir_empty V (I0 i) = true) -> wp (unlink_entry dp ip (16 * Z.of_nat k)) (set_flog l2 s1) unlink_post) as Hgo.
  { intros l2 Hl2 Hemp. unfold unlink_post, unlink_target. rewrite Huo. replace ((type (I0 i) =? T_DIR) && negb (dir_empty V (I0 i))) with false
      by (destruct (Z.eqb_spec (type (I0 i)) T_DIR) as [Et|]; [by rewrite (Hemp Et)|done]).
    eapply (wp_unlink_entry sb l0 Hgeo s0 I0 Hid eq_refl Hmax _ V I0 T ip i x dp d y k nm e); try done; [by apply Hc2|apply Hfd]. }
  wp_step. destruct (Z.eqb_spec (type (I0 i)) T_DIR) as [Hti|Hti].
  2:{ wp_step. cbn [negb]. specialize (Hgo l1 (nc_tx _ _ _ _ _ _ _ Hc1)). apply Hgo. done. }
  eapply (wp_isdirempty sb l0 Hgeo s1 V I0 T ip x); [exact Hf1|exact Hroom1|by rewrite (lo_din _ _ _ _ _ Hlo1)|rewrite (lo_din _ _ _ _ _ Hlo1); by apply Hdirs|].
  intros l2 Hl2. rewrite (lo_din _ _ _ _ _ Hlo1). destruct (dir_empty V (I0 i)) eqn:Eemp; cbn [negb]; [by apply Hgo|].
  pose proof (Hc2 l2 Hl2) as Hc2'. destruct (holds_two_refs _ _ _ _ _ i Hh1) as (Q1 & _ & Q2). specialize (Q2 eq_refl). pose proof (Hmax i).
  wp_step. eapply (wp_iunlockput sb _ I0 [dp] ip i); [apply Hc2'|exact HL|exact (locked_refers _ _ _ _ _ Hlo1)|cbn; lia|left; lia|].
  intros t3 Hlk3 Hg3 Hoth3. cbn [icache set_flog] in Hg3, Hoth3. assert (carries (icache s0) t3 (Some d)) as Hca3.
  { eapply (holds_two_second sb I0 [] _ t1); [|exact Hic0|exact Hg3]. destruct Hh2 as (I1 & L1 & ta & tb & B1 & B2 & B3 & B4). exists I1, L1, ta, tb. split_and!; [done..|]. by eapply same_refs_trans. }
  eapply (wp_unlink_bad _ T dp d); [|done| |exact Hca3|exact Hnd|].
  - destruct Hc2'. by split.
  - assert (dp <> ip) as Hne by (intros ->; apply HL, list_elem_of_here). cbn [icache set_icache]. destruct (got_kept _ _ _ _ Hg3 dp d Hne) as [_ Hk]. apply Hk. by eapply locked_refers.
  - unfold unlink_target. by rewrite Huo, (proj2 (Z.eqb_eq _ _) Hti), Eemp.
Qed.

Lemma same_refs_refl t : same_refs t t.
Proof. by split. Qed.

Lemma iget_others s n ip s' : iget 1 n s = Ok (ip, s') -> forall j, j <> ip -> icache s' !! j = icache s !! j.
Proof.
  unfold iget, geti, updi, mbind, M_bind, get, modify, lift. cbn beta iota. destruct (iget_scan (icache s) 0 None 1 n) as [[k|] [k'|]].
  1,2: destruct (icache s !! k) as [x|]; [|done]; cbn; destruct (sint (iref x + 1)); [|done]; intros [= <- <-] j Hj; by apply list_lookup_alter_ne.
  - intros [= <- <-] j Hj. by apply list_lookup_alter_ne.
  - done.
Qed.

Lemma wp_iget_others s I L n (Q : nat -> fstate DS -> Prop) : icache_lk sb (icache s) I L -> inode_no sb n -> Z.of_nat (refs (icache s) n) < INT_MAX ->
  (0 < refs (icache s) n + free_entries (icache s))%nat ->
  (forall ip t', icache_lk sb t' I L -> got (icache s) t' ip n -> (forall j, j <> ip -> t' !! j = icache s !! j) -> Q ip (set_icache t' s)) -> wp (iget 1 n) s Q.
Proof.
  intros H1 H2 H3 H4 HQ.
  destruct (wp_iget sb s I L n (fun ip s' => exists t', s' = set_icache t' s /\ icache_lk sb t' I L /\ got (icache s) t' ip n) H1 H2 H3 H4) as (ip & s' & E & t' & -> & A & B).
  { intros ip t' A B. by exists t'. }
  exists ip, (set_icache t' s). split; [done|]. apply HQ; [done|done|]. exact (iget_others _ _ _ _ E).
Qed.

Lemma wp_name_dot s nm (K : Z -> M (fstate DS) Z) (Q : Z -> fstate DS -> Prop) : bytes_ok nm -> length nm = DIRSIZ ->
  (forall r, r = 0 <-> name_of nm = [46] \/ name_of nm = [46; 46] -> wp (K r) s Q) ->
  wp (c1 ← lift (namecmp nm DOT); c2 ← (if (c1 : Z) =? 0 then mret 0 else lift (namecmp nm DOTDOT)); K c2) s Q.
Proof.
  intros Hb Hl HQ. assert (readable DIRSIZ nm) as Hr by (left; lia). assert (0 ∈ DOT) as D1 by (unfold DOT; rewrite !elem_of_cons; tauto).
  assert (0 ∈ DOTDOT) as D2 by (unfold DOTDOT; rewrite !elem_of_cons; tauto).
  destruct (namecmp_spec nm DOT Hb ltac:(by repeat constructor) Hr ltac:(by right)) as (r1 & E1 & H1).
  destruct (namecmp_spec nm DOTDOT Hb ltac:(by repeat constructor) Hr ltac:(by right)) as (r2 & E2 & H2).
  change (name_of DOT) with [46] in H1. change (name_of DOTDOT) with [46; 46] in H2. wp_step. eapply wp_lift; [exact E1|]. wp_step. destruct (Z.eqb_spec r1 0) as [->|Hne].
  - wp_step. apply HQ. split; [intros _; left; by apply H1|done].
  - eapply wp_lift; [exact E2|]. apply HQ. rewrite H2. split; [by right|]. intros [Hd|Hd]; [|done]. by apply H1 in Hd.
Qed.

Lemma wp_unlink_call tl : wp (unlink (path ++ 0 :: tl) cwd) s0 unlink_post.
Proof.
  pose proof unlink_geo as Hgeo. pose proof Hready as [Hid Hdirs Htab Hlog Hfree Hent Hp]. pose proof Hid as [Hsb Hli _ [_ Hwf Hsync] Hic].
  destruct (geo_data sb l0 Hgeo) as (D1 & D2 & D3 & D4). pose proof Htab as [R1 R2 R3 R4 (R5 & R6 & R7)].
  set (u := default (ROOTINO, 0%nat, [], ROOTINO) (unlink_entry_of V I0 c path)).
  set (T := {[IBLOCK u.2 sb]} ∪ ({[IBLOCK u.1.1.1 sb]} ∪ bitmap_set sb) : gset Z). assert (Z.of_nat (base.size T) + 3 < size l0 - 1) as HszT.
  { pose proof (size_add (IBLOCK u.2 sb) ({[IBLOCK u.1.1.1 sb]} ∪ bitmap_set sb)). pose proof (size_add (IBLOCK u.1.1.1 sb) (bitmap_set sb)).
    pose proof (size_bitmap_set sb ltac:(lia)). unfold T. cbn [size l0 set_state]. lia. }
  assert (forall b, bitmap_block sb b -> b ∈ T) as Hbm by (intros b Hb%elem_of_bitmap_set; unfold T; set_solver).
  assert (room l0 T) as Hroom by (unfold room; lia). pose proof (proj2 (icache_lk_none sb _ _) Hic) as Hlk0.
  unfold unlink. wp_step. apply wp_begin_tx; [done|]. fold l0. cbv zeta. intros Hl0. set (s1 := set_flog l0 s0).
  assert (in_call sb l0 s1 V I0 T []) as Hc1 by (split; [done|apply Hl0|done|done|done|done]).
  assert (can_name sb (icache s1) I0 cwd c) as Hcn by (eapply (can_name_carried sb s0 I0 cwd c Hid Htab); [apply carries_refl|done|done]).
  wp_step. eapply (wp_parent sb l0 Hgeo s1 V I0 T cwd c path tl); [exact Hc1|exact Hroom|exact Hcn|exact Hp|].
  intros r nm l2 t2 s2 Hc2 Hres. change (icache s1) with (icache s0) in Hres. destruct (walk_parent V I0 (start_of path c) (elements path)) as [[d n]|] eqn:Hw.
  2:{ destruct Hres as [-> Hca]. apply (unlink_fail s2 T); try done. unfold unlink_target, unlink_entry_of. by rewrite Hw. }
  destruct Hres as (dp & -> & Hrf & Hca & Hnm & Hlen & Hb).
  destruct (parent_kept sb s0 I0 cwd c Htab V I0 (icache s0) _ path d n Hdirs Hlk0 Hcn eq_refl Hw) as (Hdn & Hdt & Hdl).
  wp_step. eapply (wp_lock sb l0 Hgeo s2 V I0 T [] dp d); [exact Hc2|apply not_elem_of_nil|exact Hroom|exact Hrf|by rewrite Hdt|].
  intros l3 y t3 s3 Hc3 Hlo3 Hs3. pose proof (carries_same _ _ _ _ Hca Hs3) as Hca3. pose proof (locked_refers _ _ _ _ _ Hlo3) as Hrf3.
  assert (nlink (I0 d) <> 0 \/ (0 < refs (icache s0) d)%nat) as Hnd by exact Hdl.
  apply wp_name_dot; [exact Hb|exact Hlen|]. intros r Hr. rewrite Hnm in Hr. destruct (Z.eqb_spec r 0) as [E0|Hr0].
  { apply (wp_unlink_bad s3 T dp d); try done. unfold unlink_target, unlink_entry_of. rewrite Hw. by rewrite decide_True by (by apply Hr). }
  assert (unlink_entry_of V I0 c path = match dir_find V (I0 d) n with Some (k, e) => Some (d, k, n, d_inum e) | None => None end) as Huo.
  { unfold unlink_entry_of. rewrite Hw, decide_False; [done|]. intros Hdots. by apply Hr0, Hr. }
  destruct (locked_file sb l0 s3 V I0 T _ dp d y Hc3 Hlo3) as [Hf3 _]. pose proof (lo_din _ _ _ _ _ Hlo3) as Ey.
  wp_step. eapply (wp_dirlookup sb l0 Hgeo s3 V I0 T dp y nm); [exact Hf3|exact Hroom|by rewrite Ey|rewrite Ey; by apply Hdirs|exact Hb|left; lia|].
  intros l4 Hl4. rewrite Ey, Hnm. assert (in_call sb l0 (set_flog l4 s3) V I0 T [dp]) as Hc4 by (destruct Hc3; by split).
  destruct (dir_find V (I0 d) n) as [[k e]|] eqn:Hfind.
  2:{ apply (wp_unlink_bad _ T dp d); try done. unfold unlink_target. by rewrite Huo. }
  destruct (dir_find_entry sb V I0 Hdirs d n k e Hdn Hdt Hfind) as (M1 & M2 & M3). set (i := d_inum e) in *.
  assert (u = (d, k, n, i)) as Eu by (unfold u; by rewrite Huo).
  pose proof (Hent _ _ _ _ Huo) as Hrm. pose proof (rm_self _ _ _ _ _ _ _ _ Hrm) as [Hne _].
  assert (refs t3 i <= refs (icache s0) i)%nat as Hri by (rewrite (ca_refs _ _ _ Hca3), decide_False by congruence; lia). pose proof (R1 i).
  assert (1 <= free_entries t3)%nat as Hfr by (pose proof (ca_free _ _ _ Hca3) as E; cbn beta iota in E; destruct (decide _) in E; lia).
  eapply (wp_iget_others (set_flog l4 s3) I0 [dp] i); [apply Hc4|exact M1|cbn; lia|cbn; lia|].
  intros ip t5 Hlk5 Hg5 Hoth5. cbn [icache set_flog set_icache] in Hg5, Hoth5. cbv beta.
  assert (dp <> ip) as Hip by (intros <-; apply (got_entry _ _ _ _ Hg5) in Hrf3 as [? _]; congruence).
  eapply (wp_unlink_found _ T dp d y ip i k n e); try done.
  - destruct Hlo3. split; try done. cbn [icache set_icache]. by rewrite Hoth5.
  - apply Hg5.
  - exists t3, t5. split; [done|]. split; [done|apply same_refs_refl].
  - exists I0, [dp], t3, t5. split; [apply Hc4|]. split; [done|]. split; [done|apply same_refs_refl].
  - unfold T. rewrite Eu. cbn. set_solver.
  - unfold T. rewrite Eu. cbn. set_solver.
Qed.
Lemma target_numbers d k nm i : unlink_target V I0 c path = Some (d, k, nm, i) -> inode_no sb d /\ inode_no sb i.
Proof.
  pose proof Hready as [Hid Hdirs Htab _ _ _ _]. pose proof Hid as [_ _ _ _ Hic]. pose proof (proj2 (icache_lk_none sb _ _) Hic) as Hlk0. pose proof Htab as [_ _ _ _ (_ & _ & R7)].
  unfold unlink_target. destruct (unlink_entry_of V I0 c path) as [[[[d' k'] nm'] i']|] eqn:E; [|done]. destruct (_ && _); [done|]. intros [= -> -> -> ->].
  unfold unlink_entry_of in E. destruct (walk_parent V I0 (start_of path c) (elements path)) as [[d1 n1]|] eqn:Hw; [|done].
  assert (can_name sb (icache s0) I0 cwd c) as Hcn by (eapply (can_name_carried sb s0 I0 cwd c Hid Htab); [apply carries_refl|done|done]).
  destruct (parent_kept sb s0 I0 cwd c Htab V I0 (icache s0) _ path d1 n1 Hdirs Hlk0 Hcn eq_refl Hw) as (Hdn & Hdt & _).
  destruct (decide _); [done|]. destruct (dir_find V (I0 d1) n1) as [[k1 e1]|] eqn:Ef; [|done]. injection E as -> -> -> <-. split; [done|].
  by apply (dir_find_entry sb V I0 Hdirs d nm k e1).
Qed.
End ready.

(** A block outside the log may change: the same removal. *)
Lemma unlinked_same V I V' V2 I' d nm i users : inode_no sb i -> inode_no sb d -> (forall j, inode_no sb j -> file_bytes V2 (I' j) = file_bytes V' (I' j)) ->
  (forall b, 0 <= b < sb_size sb -> used sb V2 b = used sb V' b) -> (forall k, 0 <= k <= MAXFILE -> slot V (I i) k <> 0 -> 0 <= slot V (I i) k < sb_size sb) ->
  unlinked sb V I V' I' d nm i users -> unlinked sb V I V2 I' d nm i users.
Proof.
  intros Hi Hd HV Hu Hsl [A1 A2 A3 A4 A5]. assert (forall nm', dir_find V2 (I' d) nm' = dir_find V' (I' d) nm') as Hf by (intros nm'; by apply dir_find_ext, HV).
  split; [by rewrite Hf|intros nm' Hne; rewrite Hf; by apply A2|done| |].
  - case_decide; destruct A4 as [B1 B2]; (split; [done|]); [|by rewrite HV]. intros k Hk Hs. rewrite Hu by (by apply Hsl). by apply B2.
  - intros j Hj H1 H2. rewrite HV by done. by apply A5.
Qed.

(** C21: unlink removes one name, in one transaction.  Between calls, in a
    well-formed file system, sys_unlink returns 0 exactly when the path leads to a
    directory that has its last name, other than "." and "..", for a file or an
    empty directory; then the directory has the name no more and every other name
    as before, and the inode counts one link less.  When that was the last link
    and nobody has the inode open, its type is 0, its size 0 and every block that
    it had is free; otherwise its bytes are still there.  A removed directory is
    one link less for the one above it, and nothing else has changed.  Otherwise
    the call returns -1 and every inode and file is as before.  The call is
    crash-atomic, leaves the directories in order and keeps no reference. *)
Theorem sys_unlink_correct s I u cwd c path : unlink_ready sb s I cwd c path -> string_arg u 0 path ->
  exists r s' I', sys_unlink u cwd s = Ok (r, s') /\ transaction sb s I s' I' /\ dirs_ok sb (on_disk (flog s')) I' /\ carries (icache s) (icache s') None /\
    match unlink_target (on_disk (flog s)) I c path with
    | Some (d, k, nm, i) => r = 0 /\ unlinked sb (on_disk (flog s)) I (on_disk (flog s')) I' d nm i (refs (icache s) i)
    | None => r = -1 /\ same_files sb (on_disk (flog s)) I (on_disk (flog s')) I'
    end.
Proof.
  intros Hready (p0 & n0 & tl0 & Ea & Eb). destruct (wp_unlink_call s I cwd c path Hready tl0) as (r & s' & E & Hpost).
  assert (sys_unlink u cwd s = Ok (r, s')) as Es by (unfold sys_unlink, mbind, M_bind, lift; rewrite Ea, Eb; exact E).
  assert (forall V' I', ended sb s I s' V' I' -> forall j, inode_no sb j -> file_bytes (on_disk (flog s')) (I' j) = file_bytes V' (I' j)) as Hb.
  { intros V' I' [Hta Hsame Hf _ _ _] j Hj. rewrite <-Hf by done. symmetry. eapply file_of_idle; [apply Hta|done]. }
  exists r, s'. unfold unlink_post in Hpost. destruct (unlink_target (on_disk (flog s)) I c path) as [[[[d k] nm] i]|] eqn:Et.
  - destruct Hpost as (-> & V' & I' & Hen & Hl). exists I'. split; [done|]. pose proof (Hb V' I' Hen) as HV. destruct Hen as [E1 E2 E3 E4 E5 E6].
    split; [done|]. split; [done|]. split; [done|]. split; [done|]. destruct (target_numbers s I cwd c path Hready d k nm i Et) as [Hd Hi].
    apply (unlinked_same _ I V'); try done.
    + intros b Hbb. by apply (used_same sb _ (unlink_geo s I cwd c path Hready)).
    + intros m Hm Hs. destruct (uy_idle _ _ _ _ _ _ Hready) as [_ _ _ [_ Hwf _] _]. destruct (fw_slot _ _ _ Hwf i m Hi Hm Hs). destruct (geo_data sb _ (unlink_geo s I cwd c path Hready)) as (D1 & D2 & D3 & D4). lia.
  - destruct Hpost as (-> & V' & I' & Hen & Hl). exists I'. split; [done|]. pose proof (Hb V' I' Hen) as HV. destruct Hen as [E1 E2 E3 E4 E5 E6]. split; [done|].
    split; [done|]. split; [done|]. split; [done|]. intros j Hj. destruct (Hl j Hj) as [L1 L2]. split; [done|]. by rewrite HV.
Qed.
End unlink_call.

(** ** An example: unlink("/usr/f") *)
#[local] Instance unlink_no_devices : Devsw unit := {| dev_read := fun _ => None; dev_write := fun _ => None |}.
Definition ex_unlink_user : user := mkUser ([0; 0; 0; 0; 8; 0; 0; 0] ++ ex_path ++ [0]) 0.

Lemma ex_removable V : (forall j, inode_no ex_sb j -> file_bytes V (ex_tree j) = file_bytes (read_disk ex_tree_blocks) (ex_tree j)) -> removable ex_sb V ex_tree 2 2 [102] 3 0.
Proof.
  intros HV. assert (forall j, inode_no ex_sb j -> entries V (ex_tree j) = entries (read_disk ex_tree_blocks) (ex_tree j)) as He by (intros j Hj; by apply entries_ext, HV).
  assert (inode_no ex_sb 2) as H2 by (by vm_compute). split; [done|by vm_compute| | |by vm_compute].
  - intros m e. rewrite (He 2 H2). intros Hm [_ Hn]. do 3 (destruct m as [|m]; [try done; vm_compute in Hm; injection Hm as <-; by vm_compute in Hn|]). by vm_compute in Hm.
  - intros _ j m e Hj Ht. rewrite (He j Hj). intros Hm Hn. left.
    assert (forallb (fun j => forallb (fun p => negb (d_inum p.2 =? 3) || bool_decide (j = 2 /\ p.1 = 2%nat)) (imap pair (entries (read_disk ex_tree_blocks) (ex_tree j)))) (seqZ 0 200) = true) as Hall by by vm_compute.
    pose proof (forallb_seqZ _ _ _ Hall j Hj) as Hj'. cbn beta in Hj'. rewrite forallb_forall in Hj'. specialize (Hj' (m, e)).
    destruct (orb_prop _ _ (Hj' ltac:(apply list_elem_of_In, elem_of_lookup_imap; by exists m, e))) as [Hb|Hb]; [cbn [snd] in Hb; by rewrite Hn in Hb|]. by apply bool_decide_eq_true in Hb.
Qed.

Lemma ex_unlink_ready (s : fstate unit) : fs_idle ex_sb s ex_tree -> icache s = ex_cwd :: replicate 49 zero_inode -> size (flog s) = 30 -> nfree ex_sb (on_disk (flog s)) = 939%nat ->
  (forall j, inode_no ex_sb j -> file_bytes (on_disk (flog s)) (ex_tree j) = file_bytes (read_disk ex_tree_blocks) (ex_tree j)) ->
  unlink_ready ex_sb s ex_tree 0 1 ex_path /\ unlink_target (on_disk (flog s)) ex_tree 1 ex_path = Some (2, 2%nat, [102], 3).
Proof.
  intros Hid Hic Hsz Hnf HV. set (V := on_disk (flog s)) in *. pose proof (ex_dirs_ok V HV) as Hdirs.
  assert (unlink_entry_of V ex_tree 1 ex_path = Some (2, 2%nat, [102], 3)) as Hu.
  { unfold unlink_entry_of. change (start_of ex_path 1) with 1.
    assert (walk_parent V ex_tree 1 (elements ex_path) = Some (2, [102])) as ->.
    { unfold walk_parent. rewrite (walk_ext ex_sb (read_disk ex_tree_blocks)); [by vm_compute|exact HV|by apply ex_dirs_ok|exact ex_inode_1]. }
    rewrite decide_False by (by intros [?|?]).
    rewrite (dir_find_ext (read_disk ex_tree_blocks) V) by (by apply HV). by vm_compute. }
  split; [|by unfold unlink_target; rewrite Hu].
  split; fold V; [exact Hid|exact Hdirs|by apply ex_table_room| | | |by repeat constructor].
  - rewrite Hsz. by vm_compute.
  - rewrite Hnf. lia.
  - rewrite Hu. intros d k nm i [= <- <- <- <-]. rewrite Hic. by apply ex_removable.
Qed.

Lemma ex_last_link : nlink (ex_tree 3) = 1 /\ refs (ex_cwd :: replicate 49 zero_inode) 3 = 0%nat.
Proof. split; vm_compute; reflexivity. Qed.

Lemma sys_unlink_correct_witness : exists s s', (_ ← forkret; iget 1 1) (booted ex_tree_blocks 1000 tt) = Ok (0%nat, s) /\
  sys_unlink ex_unlink_user 0 s = Ok (0, s') /\ exists I', dir_find (on_disk (flog s')) (I' 2) [102] = None /\ type (I' 3) = 0 /\ dirs_ok ex_sb (on_disk (flog s')) I'.
Proof.
  destruct ex_tree_started as (s & E & Hid & Hic & Hsz & Hnf & HV). destruct (ex_unlink_ready s Hid Hic Hsz Hnf HV) as [Hready Ht].
  destruct (sys_unlink_correct ex_sb s ex_tree ex_unlink_user 0 1 ex_path Hready) as (r & s' & I' & El & _ & Hd & _ & Hl).
  - exists 8, 7, []. split; by vm_compute.
  - rewrite Ht in Hl. destruct Hl as (-> & [Hf _ _ Hi _]). exists s, s'. split; [exact E|]. split; [exact El|]. clear E El. exists I'. split; [exact Hf|]. split; [|exact Hd].
    rewrite Hic, (decide_True _ _ ex_last_link) in Hi. exact (f_equal type (proj1 Hi)).
Defined.
