(* ===== verification/Mkfs.v ===== *)
(** * Building the disk image, xv6 wmap/solution/mkfs.c

    A program of the host: it writes the image file sector by sector, from the
    names and contents of the files to put in the root directory.  The image is
    the list of its sectors; reading beyond its end is the error exit of rsect.
    Blocks are words as in Block.v: xshort and xint put them in the kernel's byte
    order.  Host input and output do not fail but for opening files.  A failed
    assertion is the fault [Panic]. *)
From stdpp Require Import functions.
From S2P Require Import Prelude Text Bio Log Block Inode Readwrite Fileop Dir Trunc.

Definition FSSIZE : Z := 1000.
Definition NINODES : Z := 200.
Definition nbitmap : Z := FSSIZE / (BSIZE * 8) + 1.
Definition ninodeblocks : Z := NINODES / IPB + 1.
Definition nlog : Z := LOGSIZE.

(** The bytes of a short or an int, low byte first. *)
Definition xshort (x : Z) : Z := Z.lor (Z.land x 255) (Z.shiftl (Z.land (Z.shiftr x 8) 255) 8).
Definition xint (x : Z) : Z :=
  Z.lor (Z.land x 255) (Z.lor (Z.shiftl (Z.land (Z.shiftr x 8) 255) 8)
    (Z.lor (Z.shiftl (Z.land (Z.shiftr x 16) 255) 16) (Z.shiftl (Z.land (Z.shiftr x 24) 255) 24))).

Record image : Type := mkImage { sects : list (list Z); freeinode : Z; freeblock : Z }.
Definition set_sects (l : list (list Z)) (s : image) : image := mkImage l (freeinode s) (freeblock s).

Definition nmeta : Z := 2 + nlog + ninodeblocks + nbitmap.
Definition nblocks : Z := FSSIZE - nmeta.
(** The super block that main fills in. *)
Definition sb : superblock :=
  mkSb (xint FSSIZE) (xint nblocks) (xint NINODES) (xint nlog) (xint 2) (xint (2 + nlog)) (xint (2 + nlog + ninodeblocks)).
Definition sb_words : list Z := [sb_size sb; Log.nblocks sb; ninodes sb; Log.nlog sb; logstart sb; inodestart sb; bmapstart sb].

(** ** Sectors *)
Definition rsect (sec : Z) : M image (list Z) :=
  s ← get; match sects s !! Z.to_nat sec with Some b => mret b | None => fail (Exit 1) end.
(** Writing past the end of the file fills what is between with zeros. *)
Definition write_sect (l : list (list Z)) (n : nat) (buf : list Z) : list (list Z) :=
  <[n := buf]> (l ++ replicate (S n - length l) zero_block).
Definition wsect (sec : Z) (buf : list Z) : M image unit := modify (fun s => set_sects (write_sect (sects s) (Z.to_nat sec) buf) s).

Definition winode (inum : Z) (ip : dinode) : M image unit :=
  buf ← rsect (IBLOCK inum sb); wsect (IBLOCK inum sb) (put_dinode ip buf (inum mod IPB)).
Definition rinode (inum : Z) : M image dinode :=
  buf ← rsect (IBLOCK inum sb); mret (decode_dinode buf (inum mod IPB)).

(** freeblock++ *)
Definition next_block : M image Z := s ← get; _ ← put (mkImage (sects s) (freeinode s) (freeblock s + 1)); mret (freeblock s).

Definition ialloc (t : Z) : M image Z :=
  s ← get;
  let inum := freeinode s in
  _ ← put (mkImage (sects s) (inum + 1) (freeblock s));
  _ ← winode inum (mkDinode (xshort t) 0 0 (xshort 1) (xint 0) (replicate 13 0));
  mret inum.

(** The bitmap with the first [used] blocks marked. *)
Definition marks (used : Z) : list Z := fold_left mark (seqZ 0 used) zero_block.
Definition balloc (used : Z) : M image unit :=
  if negb (used <? BSIZE * 8) then fail Panic else wsect (bmapstart sb) (marks used).

(** ** Appending to a file *)

(** Address field [k], and entry [k] of the indirect block [ind], filled if they
    are empty. *)
Definition iaddr_field (din : dinode) (k : Z) : M image dinode :=
  if xint (addr_at din k) =? 0 then a ← next_block; mret (set_addr k (xint a) din) else mret din.
Definition iaddr_entry (ind k : Z) : M image Z :=
  indirect ← rsect ind;
  indirect ← (if word_at indirect k =? 0 then
                a ← next_block;
                let indirect := <[Z.to_nat k := xint a]> indirect in
                _ ← wsect ind indirect;
                mret indirect
              else mret indirect);
  mret (xint (word_at indirect k)).

(** The block [fbn] of the file, allocated if it has none. *)
Definition iaddr (din : dinode) (fbn : Z) : M image (dinode * Z) :=
  if fbn <? NDIRECT then
    din ← iaddr_field din fbn;
    mret (din, xint (addr_at din fbn))
  else
    din ← iaddr_field din NDIRECT;
    x ← iaddr_entry (xint (addr_at din NDIRECT)) (fbn - NDIRECT);
    mret (din, x).

Fixpoint iappend_loop (fuel : nat) (din : dinode) (off : Z) (p : list Z) : M image (dinode * Z) :=
  match fuel with
  | O => fail OutOfFuel
  | S fuel' =>
      let n := Z.of_nat (length p) in
      if 0 <? n then
        let fbn := off / BSIZE in
        if negb (fbn <? MAXFILE) then fail Panic else
        '(din, x) ← iaddr din fbn;
        let n1 := Z.min n ((fbn + 1) * BSIZE - off) in
        buf ← rsect x;
        _ ← wsect x (put_bytes buf (off - fbn * BSIZE) (take (Z.to_nat n1) p));
        iappend_loop fuel' din (off + n1) (drop (Z.to_nat n1) p)
      else mret (din, off)
  end.

Definition iappend (inum : Z) (xp : list Z) : M image unit :=
  din ← rinode inum;
  '(din, off) ← iappend_loop (S (length xp)) din (xint (dsize din)) xp;
  winode inum (set_dsize (xint off) din).

(** ** main *)

(** An argument: its name and, when it can be opened, what the reads return. *)
Record hostfile : Type := mkHost { argname : list Z; reads : option (list (list Z)) }.

Fixpoint iappend_all (inum : Z) (chunks : list (list Z)) : M image unit :=
  match chunks with
  | [] => mret tt
  | c :: cs => if 0 <? Z.of_nat (length c) then _ ← iappend inum c; iappend_all inum cs else mret tt
  end.

(** The name without a leading "_". *)
Definition stored_name (argv : list Z) : list Z := match argv with 95 :: n => n | _ => argv end.
Definition root_entry (inum : Z) (name : list Z) : M image unit :=
  nm ← lift (strncpy DIRSIZ (name ++ [0]));
  iappend ROOTINO (encode_dirent (mkDirent (xshort inum) nm)).

Definition add_file (f : hostfile) : M image unit :=
  if bool_decide (SLASH ∈ argname f) then fail Panic else
  match reads f with
  | None => fail (Exit 1)
  | Some chunks =>
      inum ← ialloc T_FILE;
      _ ← root_entry inum (stored_name (argname f));
      iappend_all inum chunks
  end.
Fixpoint add_files (fs : list hostfile) : M image unit :=
  match fs with [] => mret tt | f :: fs' => _ ← add_file f; add_files fs' end.

Fixpoint zero_sects (n : nat) (i : Z) : M image unit :=
  match n with O => mret tt | S n' => _ ← wsect i zero_block; zero_sects n' (i + 1) end.

(** The size of the root directory, rounded up. *)
Definition fix_root : M image unit :=
  din ← rinode ROOTINO;
  winode ROOTINO (set_dsize (xint ((xint (dsize din) / BSIZE + 1) * BSIZE)) din).

(** main up to its exit(0); [opened] is whether the image file could be opened. *)
Definition main (opened : bool) (files : list hostfile) : M image unit :=
  if negb opened then fail (Exit 1) else
  _ ← modify (fun s => mkImage (sects s) (freeinode s) nmeta);
  _ ← zero_sects (Z.to_nat FSSIZE) 0;
  _ ← wsect 1 (list_inserts 0 sb_words zero_block);
  rootino ← ialloc T_DIR;
  if negb (rootino =? ROOTINO) then fail Panic else
  _ ← root_entry rootino [46];
  _ ← root_entry rootino [46; 46];
  _ ← add_files files;
  _ ← fix_root;
  s ← get;
  balloc (freeblock s).
Definition mkfs (opened : bool) (files : list hostfile) : result image :=
  match main opened files (mkImage [] 1 0) with Ok (_, s) => Ok s | Err e => Err e end.

(** ** The image as blocks *)

Lemma xint_id x : 0 <= x < 4294967296 -> xint x = x.
Proof.
  intros Hx. unfold xint. apply Z.bits_inj'. intros n Hn. change 255 with (Z.ones 8).
  rewrite !Z.lor_spec, !Z.shiftl_spec, !Z.land_spec, !Z.testbit_ones by lia.
  assert (forall m, 32 <= m -> Z.testbit x m = false) as Hhigh.
  { intros m Hm. apply Z.bits_above_log2; [lia|]. destruct (decide (x = 0)) as [->|]; [cbn; lia|]. apply Z.log2_lt_pow2; [lia|]. eapply Z.lt_le_trans; [apply Hx|]. change 4294967296 with (2 ^ 32). apply Z.pow_le_mono_r; lia. }
  destruct (decide (n < 8)); [|destruct (decide (n < 16)); [|destruct (decide (n < 24)); [|destruct (decide (n < 32))]]].
  all: repeat match goal with |- context [Z.testbit (Z.land ?a (Z.ones 8)) ?m] => rewrite (Z.land_spec a (Z.ones 8) m), (Z.testbit_ones 8 m) by lia end.
  all: repeat match goal with |- context [Z.testbit (Z.shiftr ?a ?k) ?m] => destruct (decide (0 <= m)); [rewrite (Z.shiftr_spec a k m) by lia|rewrite (Z.testbit_neg_r _ m) by lia] end.
  all: repeat match goal with |- context [?a <=? ?b] => destruct (Z.leb_spec a b); try lia | |- context [?a <? ?b] => destruct (Z.ltb_spec a b); try lia end.
  all: cbn [andb]; rewrite ?andb_true_r, ?andb_false_r, ?orb_false_r, ?orb_false_l; try lia; try (f_equal; lia); try (symmetry; apply Hhigh; lia); done.
Qed.

Lemma xshort_id x : 0 <= x < 65536 -> xshort x = x.
Proof.
  intros Hx. rewrite <-(xint_id x) at 2 by lia. unfold xshort, xint. rewrite (Z.shiftr_div_pow2 x 16), (Z.shiftr_div_pow2 x 24) by lia.
  rewrite (Z.div_small x (2 ^ 16)), (Z.div_small x (2 ^ 24)) by lia. cbn. by rewrite Z.lor_0_r.
Qed.

Lemma sb_eq : sb = mkSb 1000 941 200 30 2 32 58.
Proof. vm_compute. reflexivity. Qed.

(** The log of the kernel that will use the image. *)
Definition disk_log : log := mkLog 2 30 0 false 1 [] (bc (boot ∅ 1000)).
Lemma disk_geo : geo sb disk_log.
Proof. rewrite sb_eq. split; unfold_bounds; vm_compute; done. Qed.

Lemma sb_fields : sb_size sb = 1000 /\ ninodes sb = 200 /\ inodestart sb = 32 /\ bmapstart sb = 58 /\ datastart sb = 59.
Proof. rewrite sb_eq. by vm_compute. Qed.

Lemma bblock b : 0 <= b < 1000 -> BBLOCK b sb = 58 /\ b mod BPB = b.
Proof. intros Hb. unfold BBLOCK. destruct sb_fields as (_ & _ & _ & -> & _). unfold BPB, BSIZE. split; zlia. Qed.

Lemma marks_S n : 0 <= n -> marks (n + 1) = mark (marks n) n.
Proof. intros Hn. unfold marks. by rewrite Z.add_1_r, (seqZ_S 0 (Z.to_nat n)) || (rewrite seqZ_app by lia; cbn; rewrite fold_left_app; cbn). Qed.

Lemma marks_spec n : 0 <= n <= BPB -> length (marks n) = BWORDS /\ forall b, 0 <= b < BPB -> get_bit (marks n) b = (b <? n).
Proof.
  intros Hn. replace n with (Z.of_nat (Z.to_nat n)) in * by lia. generalize (Z.to_nat n) as m, Hn. clear. intros m. induction m as [|m IH]; intros Hn.
  { split; [done|]. intros b Hb. rewrite (proj2 (Z.ltb_ge _ _)) by lia. unfold get_bit, marks. cbn [seqZ seq Z.to_nat fmap list_fmap fold_left Z.of_nat]. rewrite word_at_zero. apply Z.testbit_0_l. }
  destruct IH as [IH1 IH2]; [lia|]. rewrite Nat2Z.inj_succ, <-Z.add_1_r, marks_S by lia. split; [by rewrite length_mark|]. intros b Hb.
  rewrite get_bit_mark by (done || lia). rewrite IH2 by done. destruct (decide (b = Z.of_nat m)) as [->|]; [rewrite bool_decide_eq_true_2 by done|rewrite bool_decide_eq_false_2 by done].
  - symmetry. apply Z.ltb_lt. lia.
  - cbn [orb]. destruct (Z.ltb_spec b (Z.of_nat m)), (Z.ltb_spec b (Z.of_nat m + 1)); done || lia.
Qed.

(** The sectors hold the blocks [V]; the bitmap, which is written last, is already
    in [V]. *)
Record img_blocks (s : image) (V : Z -> list Z) : Prop := {
  ib_sect : forall b, 0 <= b < 1000 -> b <> 58 -> sects s !! Z.to_nat b = Some (V b);
  ib_len : length (sects s) = 1000%nat;
  ib_map : V 58 = marks (freeblock s);
  ib_free : 59 <= freeblock s <= 1000;
  ib_zero : forall b, freeblock s <= b < 1000 -> V b = zero_block;
  ib_super : V 1 = list_inserts 0 sb_words zero_block;
  ib_log : V 2 = zero_block
}.

Section blocks.
Implicit Types (s : image) (V : Z -> list Z) (I : Z -> dinode).

Lemma used_spec s V b : img_blocks s V -> 0 <= b < 1000 -> used sb V b = (b <? freeblock s).
Proof.
  intros [_ _ Hm Hf _ _ _] Hb. destruct (bblock b Hb) as [E1 E2]. unfold used. rewrite E1, E2, Hm. apply marks_spec; unfold BPB, BSIZE; lia.
Qed.

Lemma next_free s V : img_blocks s V -> freeblock s < 1000 -> first_free sb V (freeblock s).
Proof.
  intros Hib Hlt. pose proof (ib_free _ _ Hib). destruct sb_fields as (E & _). split; [rewrite E; lia|]. split.
  - rewrite (used_spec s V) by (done || lia). apply Z.ltb_irrefl.
  - intros b Hb. rewrite (used_spec s V) by (done || lia). apply Z.ltb_lt. lia.
Qed.

Definition taken s : image := mkImage (sects s) (freeinode s) (freeblock s + 1).
Lemma wp_next_block s V (Q : Z -> image -> Prop) : img_blocks s V -> freeblock s < 1000 ->
  (img_blocks (taken s) (allocated sb V (freeblock s)) -> Q (freeblock s) (taken s)) -> wp next_block s Q.
Proof.
  intros [B1 B2 B3 B4 B5 B6 B7] Hlt HQ. unfold next_block. wp_steps. apply HQ. destruct (bblock (freeblock s)) as [E1 E2]; [lia|].
  assert (forall b, b <> 58 -> freeblock s <= b < 1000 \/ b < freeblock s -> allocated sb V (freeblock s) b = V b) as Hsame.
  { intros b Hb Hr. unfold allocated. rewrite E1. destruct (decide (freeblock s = b)) as [<-|Hne]; [rewrite fn_lookup_insert; symmetry; apply B5; lia|].
    by rewrite !fn_lookup_insert_ne by congruence. }
  split; cbn [sects freeblock taken].
  - intros b Hb Hne. rewrite Hsame by (done || lia). by apply B1.
  - done.
  - unfold allocated. rewrite E1, E2, fn_lookup_insert_ne, fn_lookup_insert, B3 by lia. symmetry. apply marks_S. lia.
  - lia.
  - intros b Hb. rewrite Hsame by lia. apply B5. lia.
  - rewrite Hsame by lia. done.
  - rewrite Hsame by lia. done.
Qed.

Lemma wp_rsect s V b (Q : list Z -> image -> Prop) : img_blocks s V -> 0 <= b < 1000 -> b <> 58 -> Q (V b) s -> wp (rsect b) s Q.
Proof. intros Hib Hb Hne HQ. unfold rsect. wp_step. wp_step. rewrite (ib_sect _ _ Hib) by done. by wp_step. Qed.

Lemma write_sect_in l n buf : (n < length l)%nat -> write_sect l n buf = <[n := buf]> l.
Proof. intros Hn. unfold write_sect. replace (S n - length l)%nat with 0%nat by lia. cbn. by rewrite app_nil_r. Qed.

Definition written s (b : Z) (c : list Z) : image := set_sects (<[Z.to_nat b := c]> (sects s)) s.
Lemma wp_wsect s V b c (Q : unit -> image -> Prop) : img_blocks s V -> 2 < b < freeblock s -> b <> 58 ->
  (img_blocks (written s b c) (<[b := c]> V) -> Q tt (written s b c)) -> wp (wsect b c) s Q.
Proof.
  intros [B1 B2 B3 B4 B5 B6 B7] Hb Hne HQ. unfold wsect. wp_step. rewrite write_sect_in by lia. apply HQ. split; cbn [sects freeblock written set_sects].
  - intros k Hk Hk58. destruct (decide (b = k)) as [<-|Hbk]; [rewrite fn_lookup_insert; apply list_lookup_insert_eq; lia|].
    rewrite fn_lookup_insert_ne by done. rewrite list_lookup_insert_ne by lia. by apply B1.
  - by rewrite length_insert.
  - by rewrite fn_lookup_insert_ne.
  - done.
  - intros k Hk. rewrite fn_lookup_insert_ne by lia. by apply B5.
  - by rewrite fn_lookup_insert_ne by lia.
  - by rewrite fn_lookup_insert_ne by lia.
Qed.
End blocks.

(** ** The blocks of a file *)
Section file.
Implicit Types (s : image) (V : Z -> list Z) (I : Z -> dinode).

Lemma grows_same V I i : fs_wf sb V I -> grows sb i V I V (<[i := I i]> I).
Proof.
  intros Hwf. assert (forall j, (<[i := I i]> I) j = I j) as Hext by (intros j; destruct (decide (i = j)) as [<-|]; [by rewrite fn_lookup_insert|by rewrite fn_lookup_insert_ne]).
  split; try done; try (intros; rewrite !Hext; done). destruct Hwf as [W1 W2 W3 W4 W5 W6]. split; try done; intros *; rewrite ?Hext; [apply W3|apply W4|apply W5|apply W6].
Qed.

Lemma addr_range V I i k : fs_wf sb V I -> inode_no sb i -> 0 <= k <= NDIRECT -> addr_at (I i) k = 0 \/ 59 <= addr_at (I i) k < 1000.
Proof.
  intros Hwf Hi Hk. destruct (decide (addr_at (I i) k = 0)) as [|Hnz]; [by left|]. right. pose proof maxfile_eq. destruct sb_fields as (E1 & _ & _ & _ & E2).
  destruct (fw_slot _ _ _ Hwf i (field_slot k) Hi) as [Hr _]; unfold field_slot in *; (case_decide as Ek; [subst k; rewrite ?slot_ind in *|rewrite ?slot_baddr in * by (unfold NDIRECT in *; lia)]).
  all: rewrite ?E1, ?E2 in *; unfold baddr in *; unfold NDIRECT in *; try lia; try (rewrite (proj2 (Z.ltb_lt k 12)) in * by lia); try done; lia.
Qed.

Lemma slot_range V I i k : fs_wf sb V I -> inode_no sb i -> 0 <= k <= MAXFILE -> slot V (I i) k = 0 \/ 59 <= slot V (I i) k < 1000.
Proof.
  intros Hwf Hi Hk. destruct (decide (slot V (I i) k = 0)) as [|Hnz]; [by left|right]. destruct sb_fields as (E1 & _ & _ & _ & E2).
  destruct (fw_slot _ _ _ Hwf i k Hi Hk Hnz). lia.
Qed.

(** A new block is free, zero and in no file. *)
Lemma new_block_facts s V I i : img_blocks s V -> fs_wf sb V I -> inode_no sb i -> freeblock s < 1000 -> let f := freeblock s in let V1 := allocated sb V f in
  grows sb i V I V1 I /\ (forall j k, inode_no sb j -> slot V1 (I j) k = slot V (I j) k) /\ V1 f = zero_block /\ used sb V1 f = true /\
  (forall j k, inode_no sb j -> 0 <= k <= MAXFILE -> slot V1 (I j) k <> f).
Proof.
  intros Hib Hwf Hi Hlt f V1. pose proof (next_free s V Hib Hlt) as Hff. pose proof (ib_free _ _ Hib) as Hf. destruct (grows_allocated sb disk_log i V I f disk_geo Hwf Hff) as [Hgr Hsl].
  destruct sb_fields as (E1 & _ & _ & _ & E2). split; [done|]. split; [done|]. split; [unfold V1, allocated; by rewrite fn_lookup_insert|]. split.
  - unfold V1. rewrite (used_allocated sb disk_log disk_geo); [by rewrite bool_decide_eq_true_2|apply Hwf|rewrite E1; unfold f; lia| |rewrite E1; unfold f; lia].
    intros Hbb%bitmap_below. rewrite E2 in Hbb. unfold f in Hbb. lia.
  - intros j k Hj Hk. rewrite Hsl by done. apply (slot_not_free sb V I f j k); try done; [apply Hff|unfold f; lia].
Qed.

Lemma wp_iaddr_field s V I i k (Q : dinode -> image -> Prop) : img_blocks s V -> fs_wf sb V I -> inode_no sb i -> 0 <= k <= NDIRECT ->
  freeblock s + (if addr_at (I i) k =? 0 then 1 else 0) <= 1000 ->
  (forall s' V' d', img_blocks s' V' -> grows sb i V I V' (<[i := d']> I) -> addr_at d' k <> 0 -> freeblock s' = freeblock s + (if addr_at (I i) k =? 0 then 1 else 0) ->
    freeinode s' = freeinode s -> (addr_at (I i) k <> 0 -> d' = I i /\ V' = V /\ s' = s) -> (addr_at (I i) k = 0 -> V' (addr_at d' k) = zero_block) ->
    (forall j, 0 <= j <= MAXFILE -> j <> field_slot k -> slot V' d' j = slot V (I i) j) -> Q d' s') ->
  wp (iaddr_field (I i) k) s Q.
Proof.
  intros Hib Hwf Hi Hk Hroom HQ. unfold iaddr_field. destruct (addr_range V I i k Hwf Hi Hk) as [E|E].
  - rewrite E in *. cbn [Z.eqb] in *. change (xint 0 =? 0) with true. cbv iota. wp_step. eapply (wp_next_block s V); [done|lia|]. intros Hib1. wp_step.
    pose proof (ib_free _ _ Hib) as Hf. rewrite xint_id by lia. set (f := freeblock s) in *.
    destruct (new_block_facts s V I i Hib Hwf Hi ltac:(lia)) as (Hgr & Hsl & Hz & Hu & Hnf). destruct sb_fields as (E1 & _ & _ & _ & E2).
    destruct (grows_set_addr sb i (allocated sb V f) I k f) as [Hgr2 Hsf]; [apply Hgr|done|done|done|rewrite E1, E2; lia|lia|done|done|done|lia|lia|].
    pose proof (fi_addrs _ (fw_fields _ _ _ Hwf i Hi)) as Hlen.
    assert (addr_at (set_addr k f (I i)) k = f) as Ea by (rewrite addr_at_set by (done || lia); by rewrite decide_True).
    apply (HQ (taken s) (allocated sb V f)).
    + exact Hib1.
    + by eapply file_grows_trans.
    + rewrite Ea. lia.
    + reflexivity.
    + reflexivity.
    + intros Hnz. by destruct Hnz.
    + intros _. by rewrite Ea.
    + intros j Hj Hne. rewrite slot_set_addr; [by rewrite decide_False, Hsl|done|done|done|intros ->; done].
  - rewrite xint_id by lia. rewrite (proj2 (Z.eqb_neq _ _)) in * by lia. wp_step. apply (HQ s V); try done; [by apply grows_same|lia..].
Qed.
End file.

Section iaddr.
Implicit Types (s : image) (V : Z -> list Z) (I : Z -> dinode).

(** What iaddr does for block [fbn] of inode [i]. *)
Record addressed s V I (i fbn : Z) s' V' (d' : dinode) : Prop := {
  ad_img : img_blocks s' V';
  ad_grows : grows sb i V I V' (<[i := d']> I);
  ad_block : baddr V' d' fbn <> 0;
  ad_free : freeblock s' = freeblock s + Z.of_nat (missing V (I i) fbn);
  ad_inode : freeinode s' = freeinode s;
  ad_same : baddr V (I i) fbn <> 0 -> d' = I i;
  ad_zero : baddr V (I i) fbn = 0 -> V' (baddr V' d' fbn) = zero_block;
  ad_slots : forall j, 0 <= j < MAXFILE -> j <> fbn -> baddr V' d' j = baddr V (I i) j;
  ad_ind : if NDIRECT <=? fbn then addr_at d' NDIRECT <> 0 else addr_at d' NDIRECT = addr_at (I i) NDIRECT
}.

Lemma wp_iaddr_entry s V I i fbn (Q : Z -> image -> Prop) : let ind := addr_at (I i) NDIRECT in
  img_blocks s V -> fs_wf sb V I -> inode_no sb i -> NDIRECT <= fbn < MAXFILE -> ind <> 0 ->
  freeblock s + (if baddr V (I i) fbn =? 0 then 1 else 0) <= 1000 ->
  (forall s' V', img_blocks s' V' -> grows sb i V I V' I -> let a := baddr V' (I i) fbn in a <> 0 ->
    freeblock s' = freeblock s + (if baddr V (I i) fbn =? 0 then 1 else 0) -> freeinode s' = freeinode s ->
    (baddr V (I i) fbn = 0 -> V' a = zero_block) -> (forall j, 0 <= j <= MAXFILE -> j <> fbn -> slot V' (I i) j = slot V (I i) j) -> Q a s') ->
  wp (iaddr_entry ind (fbn - NDIRECT)) s Q.
Proof.
  intros ind Hib Hwf Hi Hfbn Hnz Hroom HQ. pose proof maxfile_eq. destruct (addr_range V I i NDIRECT Hwf Hi ltac:(unfold NDIRECT; lia)) as [|Hr]; [done|]. fold ind in Hr.
  assert (baddr V (I i) fbn = word_at (V ind) (fbn - NDIRECT)) as Eb.
  { unfold baddr. fold ind. rewrite (proj2 (Z.ltb_ge _ _)) by lia. by rewrite (proj2 (Z.eqb_neq _ _)) by done. }
  assert (slot V (I i) fbn = baddr V (I i) fbn) as Es by (apply slot_baddr; unfold NDIRECT in *; lia).
  unfold iaddr_entry. wp_step. eapply (wp_rsect s V); [done|lia|lia|]. wp_step. rewrite <-Eb. destruct (Z.eqb_spec (baddr V (I i) fbn) 0) as [E|E].
  - wp_step. eapply (wp_next_block s V); [done|lia|]. intros Hib1. pose proof (ib_free _ _ Hib) as Hf. rewrite xint_id by lia. set (f := freeblock s) in *.
    destruct (new_block_facts s V I i Hib Hwf Hi ltac:(lia)) as (Hgr & Hsl & Hz & Hu & Hnf). fold f in Hgr, Hsl, Hz, Hu, Hnf. set (V1 := allocated sb V f) in *.
    destruct sb_fields as (E1 & _ & E3 & E4 & E2).
    assert (ind <> f) as Hif by (unfold ind; rewrite <-(slot_ind V1); apply Hnf; [done|lia]).
    assert (V1 ind = V ind) as EV by (unfold V1, allocated; destruct (bblock f) as [-> _]; [unfold f; lia|]; by rewrite !fn_lookup_insert_ne by (congruence || lia)).
    assert (grows sb i V1 I (<[ind := <[Z.to_nat (fbn - NDIRECT) := f]> (V1 ind)]> V1) I) as Hgr2.
    { apply grows_set_entry; [apply Hgr|exact Hi|exact Hnz|exact Hfbn| |rewrite E1, E2; unfold f; lia|unfold f; lia|exact Hu|exact Hnf|rewrite E1, E2; lia|rewrite E2; lia|rewrite E2, E4; lia|rewrite E2, E3; lia].
      rewrite <-slot_baddr by (unfold NDIRECT in *; lia). rewrite Hsl by done. congruence. }
    assert (ind < f) as Hlt.
    { pose proof (slot_range V I i MAXFILE Hwf Hi ltac:(lia)) as Hs. pose proof (fw_slot _ _ _ Hwf i MAXFILE Hi ltac:(lia)) as Hw. rewrite slot_ind in *. fold ind in Hs, Hw.
      destruct (Hw Hnz) as [_ Hus]. rewrite (used_spec s V ind Hib) in Hus by lia. by apply Z.ltb_lt in Hus. }
    rewrite <-EV. cbv zeta. wp_step. eapply (wp_wsect (taken s) V1); [exact Hib1|cbn; lia|lia|]. intros Hib2. wp_step. wp_step.
    set (V2 := <[ind := _]> V1) in *.
    assert (forall k, 0 <= k <= MAXFILE -> slot V2 (I i) k = if decide (k = fbn) then f else slot V (I i) k) as Hs2.
    { intros k Hk. unfold V2, ind. rewrite (slot_set_entry sb V1 I i fbn f i k) by (first [exact Hi|apply Hgr|exact Hnz|exact Hfbn|exact Hk|rewrite E1, E3; fold ind; lia]). rewrite Hsl by done.
      destruct (decide (k = fbn)) as [->|Hne]; [by rewrite decide_True|]. rewrite decide_False; [done|naive_solver]. }
    assert (baddr V2 (I i) fbn = f) as Ea by (rewrite <-slot_baddr, Hs2 by (unfold NDIRECT in *; lia); by rewrite decide_True).
    assert (word_at (<[Z.to_nat (fbn - NDIRECT) := f]> (V1 ind)) (fbn - NDIRECT) = f) as Ew.
    { rewrite word_at_insert; [by rewrite decide_True| |lia]. rewrite (fw_full _ _ _ (gr_wf _ _ _ _ _ _ Hgr)) by lia. unfold BWORDS, NDIRECT in *. lia. }
    rewrite Ew, xint_id by (unfold f; lia). rewrite <-Ea at 1. apply (HQ (written (taken s) ind (<[Z.to_nat (fbn - NDIRECT) := f]> (V1 ind))) V2).
    + exact Hib2.
    + by eapply file_grows_trans.
    + rewrite Ea. unfold f. lia.
    + reflexivity.
    + reflexivity.
    + intros _. rewrite Ea. unfold V2. rewrite fn_lookup_insert_ne by done. exact Hz.
    + intros j Hj Hne. rewrite Hs2 by done. by rewrite decide_False.
  - wp_step. wp_step. rewrite <-Eb. assert (slot V (I i) fbn = 0 \/ 59 <= slot V (I i) fbn < 1000) as Hsr by (apply slot_range; [done|done|unfold NDIRECT in *; lia]).
    rewrite xint_id by lia. apply (HQ s V); [exact Hib|by apply file_grows_refl|exact E|lia|reflexivity|intros E0; by destruct E|reflexivity || done].
Qed.

Lemma wp_iaddr s V I i fbn (Q : dinode * Z -> image -> Prop) : img_blocks s V -> fs_wf sb V I -> inode_no sb i -> 0 <= fbn < MAXFILE ->
  freeblock s + Z.of_nat (missing V (I i) fbn) <= 1000 ->
  (forall s' V' d', addressed s V I i fbn s' V' d' -> Q (d', baddr V' d' fbn) s') -> wp (iaddr (I i) fbn) s Q.
Proof.
  intros Hib Hwf Hi Hfbn Hroom HQ. pose proof maxfile_eq. unfold iaddr. destruct (Z.ltb_spec fbn NDIRECT) as [Hlt|Hge].
  - assert (forall V d, baddr V d fbn = addr_at d fbn) as Eb by (intros V0 d0; unfold baddr; by rewrite (proj2 (Z.ltb_lt _ _))).
    assert (Z.of_nat (missing V (I i) fbn) = if addr_at (I i) fbn =? 0 then 1 else 0) as Em.
    { unfold missing. rewrite Eb. rewrite (proj2 (Z.leb_gt NDIRECT fbn)) by lia. cbn [andb]. by destruct (addr_at (I i) fbn =? 0). }
    wp_step. eapply (wp_iaddr_field s V I i fbn); [done|done|done|lia|lia|]. intros s' V' d' H1 H2 H3 H4 H5 H6 H7 H8. wp_step.
    pose proof (addr_range V' (<[i := d']> I) i fbn (gr_wf _ _ _ _ _ _ H2) Hi ltac:(lia)) as Hr. rewrite fn_lookup_insert in Hr. rewrite xint_id by lia. rewrite <-(Eb V').
    apply (HQ s'). assert (field_slot fbn = fbn) as Ef by (unfold field_slot; rewrite decide_False by lia; done). split; try done.
    + by rewrite Eb.
    + lia.
    + rewrite Eb. intros Hnz. by apply H6.
    + rewrite !Eb. done.
    + intros j Hj Hne. rewrite <-!slot_baddr by lia. apply H8; [lia|congruence].
    + rewrite (proj2 (Z.leb_gt NDIRECT fbn)) by lia. rewrite <-(slot_ind V'), <-(slot_ind V). apply H8; [lia|]. rewrite Ef. unfold NDIRECT in *. lia.
  - wp_step. assert (0 <= NDIRECT <= NDIRECT) as Hnd by (unfold NDIRECT; lia).
    assert (Z.of_nat (missing V (I i) fbn) = (if addr_at (I i) NDIRECT =? 0 then 1 else 0) + if baddr V (I i) fbn =? 0 then 1 else 0) as Em.
    { unfold missing. rewrite (proj2 (Z.leb_le NDIRECT fbn)) by lia. cbn [andb]. by destruct (addr_at (I i) NDIRECT =? 0), (baddr V (I i) fbn =? 0). }
    eapply (wp_iaddr_field s V I i NDIRECT); [done|done|done|done|destruct (baddr V (I i) fbn =? 0); lia|]. intros s1 V1 d1 H1 H2 H3 H4 H5 H6 H7 H8. wp_step.
    set (I1 := <[i := d1]> I) in *. assert (I1 i = d1) as HI1 by apply fn_lookup_insert. assert (field_slot NDIRECT = MAXFILE) as Ef by (unfold field_slot; by rewrite decide_True).
    pose proof (addr_range V1 I1 i NDIRECT (gr_wf _ _ _ _ _ _ H2) Hi Hnd) as Hr. rewrite HI1 in Hr. rewrite xint_id by lia. rewrite <-HI1 in *.
    assert (baddr V1 (I1 i) fbn = baddr V (I i) fbn) as Eb by (rewrite <-!slot_baddr by lia; apply H8; lia).
    eapply (wp_iaddr_entry s1 V1 I1 i fbn); [done|apply H2|done|lia|done|rewrite Eb; lia|]. intros s2 V2 K1 K2 a K3 K4 K5 K6 K7. wp_step.
    apply (HQ s2 V2 (I1 i)). split.
    + exact K1.
    + rewrite HI1. by eapply file_grows_trans.
    + exact K3.
    + rewrite K4, Eb, H4. lia.
    + congruence.
    + intros Hnz. apply H6. intros E0. apply Hnz. unfold baddr. rewrite (proj2 (Z.ltb_ge _ _)) by lia. by rewrite E0.
    + intros E0. apply K6. by rewrite Eb.
    + intros j Hj Hne. rewrite <-!slot_baddr by lia. rewrite K7 by lia. apply H8; lia.
    + by rewrite (proj2 (Z.leb_le NDIRECT fbn)) by lia.
Qed.
End iaddr.

(** ** Appending *)

(** The blocks of a file of [n] bytes, its indirect block included. *)
Definition blocks_for (n : Z) : Z := (n + BSIZE - 1) / BSIZE + if NDIRECT * BSIZE <? n then 1 else 0.

(** An inode has the blocks of its size and no others, and zeros after its end. *)
Record tight (V : Z -> list Z) (d : dinode) : Prop := {
  tg_block : forall k, 0 <= k < MAXFILE -> baddr V d k <> 0 <-> k * BSIZE < dsize d;
  tg_ind : addr_at d NDIRECT <> 0 <-> NDIRECT * BSIZE < dsize d;
  tg_tail : forall k, dsize d <= k < MAXFILE * BSIZE -> baddr V d (k / BSIZE) <> 0 -> file_byte V d k = 0
}.

Record fs_built (s : image) (V : Z -> list Z) (I : Z -> dinode) : Prop := {
  bu_img : img_blocks s V;
  bu_wf : fs_wf sb V I;
  bu_tight : forall j, inode_no sb j -> tight V (I j)
}.

Record appended (s : image) (V : Z -> list Z) (I : Z -> dinode) (i : Z) (c : list Z) (s' : image) (V' : Z -> list Z) (I' : Z -> dinode) : Prop := {
  ap_built : fs_built s' V' I';
  ap_bytes : file_bytes V' (I' i) = file_bytes V (I i) ++ c;
  ap_size : dsize (I' i) = dsize (I i) + Z.of_nat (length c);
  ap_fields : type (I' i) = type (I i) /\ major (I' i) = major (I i) /\ minor (I' i) = minor (I i) /\ nlink (I' i) = nlink (I i);
  ap_others : forall j, inode_no sb j -> j <> i -> I' j = I j /\ file_bytes V' (I j) = file_bytes V (I j);
  ap_free : freeblock s' = freeblock s + blocks_for (dsize (I' i)) - blocks_for (dsize (I i));
  ap_inode : freeinode s' = freeinode s
}.

Section append.
Implicit Types (s : image) (V : Z -> list Z) (I : Z -> dinode).

Lemma appended_nil s V I i : fs_built s V I -> appended s V I i [] s V I.
Proof. intros Hb. split; try done; [by rewrite app_nil_r|cbn; lia|lia]. Qed.

Lemma appended_trans s V I i c s1 V1 I1 c1 s2 V2 I2 : appended s V I i c s1 V1 I1 -> appended s1 V1 I1 i c1 s2 V2 I2 -> appended s V I i (c ++ c1) s2 V2 I2.
Proof.
  intros [A1 A2 A3 A4 A5 A6 A7] [B1 B2 B3 B4 B5 B6 B7]. split; [done|by rewrite B2, A2, <-app_assoc|rewrite length_app; lia| | |lia|congruence].
  - destruct A4 as (?&?&?&?), B4 as (?&?&?&?). split_and!; congruence.
  - intros j Hj Hne. destruct (A5 j Hj Hne) as [E1 E2], (B5 j Hj Hne) as [E3 E4]. split; [congruence|]. by rewrite <-E1, E4, E1.
Qed.

(** What block the end of the file is in. *)
Lemma end_block V I i n : tight V (I i) -> 0 <= dsize (I i) < MAXFILE * BSIZE -> 0 < n -> dsize (I i) mod BSIZE + n <= BSIZE ->
  let bn := dsize (I i) / BSIZE in 0 <= bn < MAXFILE /\ Z.of_nat (missing V (I i) bn) = blocks_for (dsize (I i) + n) - blocks_for (dsize (I i)) /\
  (baddr V (I i) bn = 0 -> dsize (I i) mod BSIZE = 0).
Proof.
  intros [T1 T2 _] Ho Hn Hfit bn. set (off := dsize (I i)) in *. assert (0 <= bn < MAXFILE) as Hbn by (apply block_of; lia). split; [done|].
  specialize (T1 bn Hbn). fold off in T1, T2. pose proof maxfile_eq. assert (bn * BSIZE = off - off mod BSIZE) as Eo by (unfold bn; pose proof (Z.div_mod off BSIZE ltac:(done)); lia).
  pose proof (Z.mod_pos_bound off BSIZE ltac:(done)). split.
  - unfold missing, blocks_for. assert ((off + n + BSIZE - 1) / BSIZE - (off + BSIZE - 1) / BSIZE = if baddr V (I i) bn =? 0 then 1 else 0) as E1.
    { destruct (Z.eqb_spec (baddr V (I i) bn) 0) as [E|E]; [assert (~ bn * BSIZE < off) by tauto|assert (bn * BSIZE < off) by tauto]; unfold BSIZE in *; zlia. }
    assert ((if NDIRECT * BSIZE <? off + n then 1 else 0) - (if NDIRECT * BSIZE <? off then 1 else 0) = if (NDIRECT <=? bn) && (addr_at (I i) NDIRECT =? 0) then 1 else 0) as E2.
    { unfold NDIRECT in *. unfold BSIZE in *. destruct (Z.eqb_spec (addr_at (I i) 12) 0) as [E|E]; [assert (~ 12 * 512 < off) by tauto|assert (12 * 512 < off) by tauto].
      all: destruct (Z.ltb_spec (12 * 512) (off + n)), (Z.ltb_spec (12 * 512) off), (Z.leb_spec 12 bn); cbn [andb]; lia. }
    destruct (baddr V (I i) bn =? 0), ((NDIRECT <=? bn) && (addr_at (I i) NDIRECT =? 0)); lia.
  - intros E. assert (~ bn * BSIZE < off) by tauto. lia.
Qed.

Lemma write_at_end (l c : list Z) n : n = length l -> write_at n c l = l ++ c.
Proof. intros ->. unfold write_at. rewrite take_ge, drop_ge by lia. by rewrite app_nil_r. Qed.
End append.

Section append_block.
Implicit Types (s : image) (V : Z -> list Z) (I : Z -> dinode).

(** Bytes [c] that fit into the block at the end of the file. *)
Section step.
Context s V I (i : Z) (c : list Z) s1 V1 (d1 : dinode).
Context (Hb : fs_built s V I) (Hi : inode_no sb i) (Ho : 0 <= dsize (I i) < MAXFILE * BSIZE) (Hc : 0 < Z.of_nat (length c))
  (Hfit : dsize (I i) mod BSIZE + Z.of_nat (length c) <= BSIZE) (Hbytes : Forall (fun v => 0 <= v < 256) c)
  (Had : addressed s V I i (dsize (I i) / BSIZE) s1 V1 d1).
Let off := dsize (I i).
Let bn := off / BSIZE.
Let a := baddr V1 d1 bn.
Let I1 := <[i := d1]> I.
Let V2 := <[a := put_bytes (V1 a) (off mod BSIZE) c]> V1.
Let N := off + Z.of_nat (length c).
Let I2 := <[i := set_dsize N d1]> I.

Lemma step_wrote : wrote sb i V I V2 I1 off c /\ I1 i = d1 /\ 0 <= bn < MAXFILE /\ N <= MAXFILE * BSIZE.
Proof.
  assert (I1 i = d1) as HI1 by apply fn_lookup_insert. pose proof Had as [A1 A2 A3 A4 A5 A6 A7 A8 A9]. split; [|split; [done|split; [apply block_of; unfold off; lia|]]].
  - pose proof (wrote_block sb disk_log disk_geo i V I V1 I1 off c Hi (bu_wf _ _ _ Hb) A2 ltac:(unfold off; lia) Hc Hfit ltac:(unfold off; lia) Hbytes) as Hw.
    rewrite HI1 in Hw. cbv zeta in Hw. apply Hw; [exact A3|exact A6].
  - pose proof (Z.div_mod off BSIZE ltac:(done)). pose proof (block_of off ltac:(unfold off; lia)). unfold N, off in *. unfold BSIZE in *. lia.
Qed.

Lemma step_wf : fs_wf sb V2 I2 /\ forall j k, slot V2 (I2 j) k = slot V2 (I1 j) k.
Proof.
  destruct step_wrote as (Hw & HI1 & Hbn & HN). pose proof (bu_tight _ _ _ Hb i Hi) as [T1 T2 T3].
  assert (forall j, I2 j = (<[i := set_dsize N (I1 i)]> I1) j) as Hext.
  { intros j. rewrite HI1. unfold I2, I1. destruct (decide (i = j)) as [<-|]; [by rewrite !fn_lookup_insert|by rewrite !fn_lookup_insert_ne]. }
  destruct (wf_grow sb V2 I1 i N (wr_wf _ _ _ _ _ _ _ _ Hw) Hi ltac:(unfold N, off; lia)) as [Hwf Hsl].
  { intros k Hk. destruct (decide (k < off)) as [Hko|Hko]; [|apply (wr_new _ _ _ _ _ _ _ _ Hw); unfold N in Hk; lia].
    pose proof (block_of k ltac:(lia)) as Hkb. assert (baddr V (I i) (k / BSIZE) <> 0) as Hnz by (apply T1; [done|]; unfold off, BSIZE in *; zlia).
    pose proof maxfile_eq. rewrite <-!slot_baddr in * by done. rewrite (wr_slot _ _ _ _ _ _ _ _ Hw) by (done || lia). done. }
  split.
  - destruct Hwf as [W1 W2 W3 W4 W5 W6]. split; try done; intros *; rewrite ?Hext; [apply W3|apply W4|apply W5|apply W6].
  - intros j k. rewrite Hext. apply Hsl.
Qed.

Lemma step_bytes : file_bytes V2 (I2 i) = file_bytes V (I i) ++ c /\ forall j, inode_no sb j -> j <> i -> I2 j = I j /\ file_bytes V2 (I j) = file_bytes V (I j).
Proof.
  destruct step_wrote as (Hw & HI1 & Hbn & HN). destruct step_wf as [_ Hsl]. split.
  - rewrite <-(write_at_end (file_bytes V (I i)) c (Z.to_nat off)) by (unfold file_bytes; by rewrite length_fmap, length_seqZ).
    rewrite <-(bytes_written sb V I V2 I1 i off c N Hi (bu_wf _ _ _ Hb) Hw ltac:(unfold off; lia) HN ltac:(unfold N, off; lia)).
    unfold I2. rewrite fn_lookup_insert, HI1. unfold file_bytes. cbn [dsize set_dsize]. done.
  - intros j Hj Hne. assert (I1 j = I j) as E1 by (unfold I1; by rewrite fn_lookup_insert_ne). split; [unfold I2; by rewrite fn_lookup_insert_ne|].
    rewrite <-E1 at 1. by apply (bytes_others sb V I V2 I1 i off c j (bu_wf _ _ _ Hb) Hw).
Qed.

Lemma step_tight_self : tight V2 (I2 i).
Proof.
  destruct step_wrote as (Hw & HI1 & Hbn & HN). pose proof Had as [A1 A2 A3 A4 A5 A6 A7 A8 A9]. pose proof (bu_tight _ _ _ Hb i Hi) as [T1 T2 T3]. pose proof maxfile_eq as Hmax.
  assert (I2 i = set_dsize N d1) as -> by apply fn_lookup_insert. fold off in T1, T2, T3, A7, A8, A9. fold bn in A3, A7, A8, A9. fold a in A7.
  assert (forall k, slot V2 d1 k = slot V1 d1 k) as Hs.
  { intros k. apply slot_frame. intros Hnz. unfold V2. rewrite fn_lookup_insert_ne; [done|]. intros E.
    assert (slot V1 (I1 i) bn = slot V1 (I1 i) MAXFILE) as Es by (rewrite HI1, slot_baddr, slot_ind by done; exact E).
    change (<[i := d1]> I) with I1 in A2. destruct (fw_inj _ _ _ (gr_wf _ _ _ _ _ _ A2) i bn i MAXFILE Hi Hi ltac:(lia) ltac:(lia)) as [_ ?]; [rewrite HI1, slot_baddr by done; exact A3|exact Es|lia]. }
  assert (forall k, 0 <= k < MAXFILE -> baddr V2 d1 k = if decide (k = bn) then a else baddr V (I i) k) as Hba.
  { intros k Hk. rewrite <-slot_baddr, Hs, slot_baddr by done. case_decide as E; [by subst k|]. by apply A8. }
  assert (bn * BSIZE <= off < bn * BSIZE + BSIZE /\ N <= bn * BSIZE + BSIZE /\ off < N) as (Hoff & HNb & HNo).
  { pose proof (Z.div_mod off BSIZE ltac:(done)). fold bn in H. pose proof (Z.mod_pos_bound off BSIZE ltac:(done)). change (dsize (I i)) with off in Hfit. unfold N. lia. }
  split; cbn [dsize set_dsize]; change (baddr V2 (set_dsize N d1)) with (baddr V2 d1); change (addr_at (set_dsize N d1)) with (addr_at d1).
  - intros k Hk. rewrite Hba by done. case_decide as E.
    + subst k. split; [intros _; unfold N; lia|done].
    + rewrite T1 by done. unfold BSIZE in *. lia.
  - destruct (Z.leb_spec NDIRECT bn) as [Hd|Hd]; [split; [intros _; unfold N, BSIZE, NDIRECT in *; lia|done]|].
    rewrite A9, T2. unfold N, BSIZE, NDIRECT, off in *. lia.
  - intros k Hk Hnz. pose proof (block_of k ltac:(unfold N, off in *; lia)) as Hkb. change (file_byte V2 (set_dsize N d1) k) with (file_byte V2 d1 k).
    destruct (decide (baddr V (I i) (k / BSIZE) = 0)) as [E|E].
    + rewrite Hba in Hnz by done. destruct (decide (k / BSIZE = bn)) as [Ek|]; [|done]. rewrite Ek in E. unfold file_byte. rewrite Hba, decide_True by done.
      unfold V2. rewrite fn_lookup_insert, A7 by done. rewrite get_byte_put_bytes; [|done|apply Z.mod_pos_bound; done|exact Hfit|exact Hbytes|apply Z.mod_pos_bound; done].
      rewrite decide_False.
      * unfold get_byte. by rewrite word_at_zero, Z.shiftr_0_l.
      * pose proof (Z.div_mod k BSIZE ltac:(done)). pose proof (Z.div_mod off BSIZE ltac:(done)). fold bn in H0. rewrite Ek in H. unfold N in Hk. lia.
    + rewrite <-HI1. rewrite (wr_bytes _ _ _ _ _ _ _ _ Hw k) by (unfold N, off in *; first [lia|by left]). rewrite decide_False by (unfold N in Hk; lia). apply T3; [unfold N in Hk; lia|done].
Qed.

Lemma step_tight j : inode_no sb j -> tight V2 (I2 j).
Proof.
  intros Hj. destruct (decide (j = i)) as [->|Hne]; [apply step_tight_self|]. destruct step_wrote as (Hw & HI1 & Hbn & HN). pose proof (bu_tight _ _ _ Hb j Hj) as [T1 T2 T3]. pose proof maxfile_eq as Hmax.
  assert (I2 j = I j) as -> by (unfold I2; by rewrite fn_lookup_insert_ne). assert (I1 j = I j) as E1 by (unfold I1; by rewrite fn_lookup_insert_ne).
  assert (forall k, 0 <= k < MAXFILE -> baddr V2 (I j) k = baddr V (I j) k) as Hba.
  { intros k Hk. rewrite <-!slot_baddr by done. rewrite <-E1 at 1. by apply (wr_other _ _ _ _ _ _ _ _ Hw j k Hj Hne ltac:(lia)). }
  split.
  - intros k Hk. rewrite Hba by done. by apply T1.
  - exact T2.
  - intros k Hk. pose proof (fi_size _ (fw_fields _ _ _ (bu_wf _ _ _ Hb) j Hj)). pose proof (block_of k ltac:(lia)) as Hkb. rewrite Hba by done. intros Hnz.
    rewrite <-(T3 k Hk Hnz). rewrite <-E1 at 1. apply (wr_others _ _ _ _ _ _ _ _ Hw j k Hj Hne ltac:(lia) Hnz).
Qed.

Lemma step_appended s2 : img_blocks s2 V2 -> freeblock s2 = freeblock s1 -> freeinode s2 = freeinode s1 -> appended s V I i c s2 V2 I2 /\ forall b, b < 58 -> V2 b = V b.
Proof.
  intros Hib2 Ef Ei. destruct step_bytes as [Hby Hoth]. pose proof Had as [A1 A2 A3 A4 A5 A6 A7 A8 A9]. destruct (gr_fields _ _ _ _ _ _ A2 i) as (F1 & F2 & F3 & F4 & _). rewrite fn_lookup_insert in F1, F2, F3, F4.
  assert (I2 i = set_dsize N d1) as EI by apply fn_lookup_insert. destruct step_wrote as (Hw & _ & Hbn & HN).
  split; [split|].
  - split; [exact Hib2|apply step_wf|apply step_tight].
  - exact Hby.
  - by rewrite EI.
  - by rewrite EI.
  - exact Hoth.
  - rewrite EI, Ef, A4. cbn [dsize set_dsize]. destruct (end_block V I i (Z.of_nat (length c)) (bu_tight _ _ _ Hb i Hi) Ho Hc Hfit) as (_ & Em & _). rewrite Em. unfold N, off. lia.
  - congruence.
  - intros b Hbb. destruct sb_fields as (_ & _ & _ & E4 & _). apply (wr_meta _ _ _ _ _ _ _ _ Hw). by rewrite E4.
Qed.
End step.
End append_block.

Section iappend.
Implicit Types (s : image) (V : Z -> list Z) (I : Z -> dinode).

(** iaddr does not look at the size. *)
Lemma iaddr_dsize n d fbn s : iaddr (set_dsize n d) fbn s = match iaddr d fbn s with Ok (p, s') => Ok ((set_dsize n p.1, p.2), s') | Err e => Err e end.
Proof.
  unfold iaddr, iaddr_field, mbind, M_bind. change (addr_at (set_dsize n d)) with (addr_at d).
  destruct (fbn <? NDIRECT); [destruct (xint (addr_at d fbn) =? 0)|destruct (xint (addr_at d NDIRECT) =? 0)]; try reflexivity.
  - unfold next_block, mbind, M_bind, get, put, mret, M_ret. cbn beta iota. change (addr_at (set_addr NDIRECT (xint (freeblock s)) (set_dsize n d))) with (addr_at (set_addr NDIRECT (xint (freeblock s)) d)).
    by destruct (iaddr_entry _ _ _) as [[x s']|e].
  - unfold mret, M_ret. change (addr_at (set_dsize n d)) with (addr_at d). by destruct (iaddr_entry _ _ _) as [[x s']|e].
Qed.

Lemma wp_iaddr_size s V I i din off fbn (Q : dinode * Z -> image -> Prop) : img_blocks s V -> fs_wf sb V I -> inode_no sb i -> I i = set_dsize off din ->
  0 <= fbn < MAXFILE -> freeblock s + Z.of_nat (missing V (I i) fbn) <= 1000 ->
  (forall s' V' d', addressed s V I i fbn s' V' (set_dsize off d') -> Q (d', baddr V' d' fbn) s') -> wp (iaddr din fbn) s Q.
Proof.
  intros Hib Hwf Hi HI Hfbn Hroom HQ.
  destruct (wp_iaddr s V I i fbn (fun p s' => exists V' d', p = (d', baddr V' d' fbn) /\ addressed s V I i fbn s' V' d') Hib Hwf Hi Hfbn Hroom) as (p & s' & E & V' & d' & -> & Had).
  { intros s' V' d' Had. by exists V', d'. }
  rewrite HI, iaddr_dsize in E. destruct (iaddr din fbn s) as [[[d1 x] s1]|] eqn:E1; [|done]. injection E as <- Ex <-. cbn [fst snd] in *. subst x.
  exists (d1, baddr V' (set_dsize off d1) fbn), s1. split; [done|]. exact (HQ _ _ _ Had).
Qed.

Lemma wp_iappend_loop fuel s V I i din p (Q : dinode * Z -> image -> Prop) : let off := dsize (I i) in
  fs_built s V I -> inode_no sb i -> I i = set_dsize off din -> off + Z.of_nat (length p) <= MAXFILE * BSIZE -> Forall (fun v => 0 <= v < 256) p -> (length p < fuel)%nat ->
  freeblock s + blocks_for (off + Z.of_nat (length p)) - blocks_for off <= 1000 ->
  (forall s' V' I' din', appended s V I i p s' V' I' -> (forall b, b < 58 -> V' b = V b) -> I' i = set_dsize (off + Z.of_nat (length p)) din' ->
    Q (din', off + Z.of_nat (length p)) s') ->
  wp (iappend_loop fuel din off p) s Q.
Proof.
  intros off. revert s V I din p off Q. induction fuel as [|fuel IH]; intros s V I din p off Q Hb Hi HI Hmax Hbytes Hfuel Hroom HQ; [lia|]. cbn [iappend_loop].
  destruct (Z.ltb_spec 0 (Z.of_nat (length p))) as [Hpos|Hpos].
  2:{ destruct p; [|cbn in Hpos; lia]. wp_step. specialize (HQ s V I din). cbn [length] in *. rewrite Z.add_0_r in HQ. apply HQ; [by apply appended_nil|done|done]. }
  pose proof (fi_size _ (fw_fields _ _ _ (bu_wf _ _ _ Hb) i Hi)) as Hsz. fold off in Hsz. pose proof (block_of off ltac:(lia)) as Hbn. rewrite (proj2 (Z.ltb_lt _ _)) by lia. cbn [negb].
  set (n1 := Z.min (Z.of_nat (length p)) ((off / BSIZE + 1) * BSIZE - off)).
  assert (off - off / BSIZE * BSIZE = off mod BSIZE) as Emod by (pose proof (Z.div_mod off BSIZE ltac:(done)); lia). pose proof (Z.mod_pos_bound off BSIZE ltac:(done)) as Hmod.
  assert (0 < n1 <= Z.of_nat (length p) /\ off mod BSIZE + n1 <= BSIZE) as [Hn1 Hfit] by (unfold n1; lia). set (c := take (Z.to_nat n1) p).
  assert (Z.of_nat (length c) = n1) as Hlc by (unfold c; rewrite length_take; lia).
  assert (Z.of_nat (length (drop (Z.to_nat n1) p)) = Z.of_nat (length p) - n1) as Hld by (rewrite length_drop; lia).
  destruct (end_block V I i n1 (bu_tight _ _ _ Hb i Hi) ltac:(fold off; lia) ltac:(lia) Hfit) as (_ & Hmiss & _). fold off in Hmiss.
  assert (blocks_for (off + n1) <= blocks_for (off + Z.of_nat (length p))) as Hmono.
  { unfold blocks_for. assert ((off + n1 + BSIZE - 1) / BSIZE <= (off + Z.of_nat (length p) + BSIZE - 1) / BSIZE) by (apply Z.div_le_mono; [done|lia]).
    destruct (Z.ltb_spec (NDIRECT * BSIZE) (off + n1)), (Z.ltb_spec (NDIRECT * BSIZE) (off + Z.of_nat (length p))); lia. }
  wp_step. eapply (wp_iaddr_size s V I i din off); [apply Hb|apply Hb|done|done|exact Hbn|lia|]. intros s1 V1 d1 Had. pose proof Had as [A1 A2 A3 A4 A5 A6 A7 A8 A9].
  change (baddr V1 (set_dsize off d1)) with (baddr V1 d1) in *. set (a := baddr V1 d1 (off / BSIZE)) in *.
  assert (59 <= a < freeblock s1 /\ freeblock s1 <= 1000) as [Ha Hf1].
  { pose proof (ib_free _ _ A1) as Hf. destruct (fw_slot _ _ _ (gr_wf _ _ _ _ _ _ A2) i (off / BSIZE) Hi ltac:(lia)) as [Hr Hu]; rewrite fn_lookup_insert, slot_baddr in * by lia; [exact A3|].
    change (baddr V1 (set_dsize off d1) (off / BSIZE)) with a in Hr, Hu. destruct sb_fields as (E1 & _ & _ & _ & E2). rewrite E1, E2 in Hr. rewrite (used_spec s1 V1 a A1) in Hu by lia. apply Z.ltb_lt in Hu. lia. }
  wp_step. eapply (wp_rsect s1 V1); [exact A1|lia|lia|]. wp_step. eapply (wp_wsect s1 V1); [exact A1|lia|lia|]. intros Hib2. rewrite Emod in *.
  destruct (step_appended s V I i c s1 V1 (set_dsize off d1) Hb Hi ltac:(fold off; lia) ltac:(lia) ltac:(by rewrite Hlc) ltac:(unfold c; by apply Forall_take) Had (written s1 a (put_bytes (V1 a) (off mod BSIZE) c)) Hib2 eq_refl eq_refl) as [Hap Hme].
  cbn zeta in Hap, Hme. change (set_dsize (dsize (I i) + Z.of_nat (length c)) (set_dsize off d1)) with (set_dsize (off + Z.of_nat (length c)) d1) in Hap. rewrite Hlc in Hap.
  set (I2 := <[i := set_dsize (off + n1) d1]> I) in *. set (V2 := <[_ := _]> V1) in Hap, Hme. assert (I2 i = set_dsize (off + n1) d1) as HI2 by apply fn_lookup_insert.
  assert (dsize (I2 i) = off + n1) as Hd2 by by rewrite HI2. pose proof (ap_free _ _ _ _ _ _ _ _ Hap) as Hfb. rewrite Hd2 in Hfb. fold off in Hfb.
  rewrite <-Hd2. eapply (IH _ V2 I2 d1 (drop (Z.to_nat n1) p)); rewrite ?Hd2; [apply Hap|done|done|lia|by apply Forall_drop|rewrite length_drop; lia|rewrite Hld; replace (off + n1 + (Z.of_nat (length p) - n1)) with (off + Z.of_nat (length p)) by lia; lia|].
  intros s3 V3 I3 din3 Hap3 Hme3 HI3. rewrite Hld in *. replace (off + n1 + (Z.of_nat (length p) - n1)) with (off + Z.of_nat (length p)) in * by lia. eapply HQ.
  - rewrite <-(take_drop (Z.to_nat n1) p). by eapply appended_trans.
  - intros b Hbb. by rewrite Hme3, Hme.
  - exact HI3.
Qed.
End iappend.

Section whole.
Implicit Types (s : image) (V : Z -> list Z) (I : Z -> dinode).

Lemma tight_frame V V' I i : fs_wf sb V I -> inode_no sb i -> (forall k, slot V' (I i) k = slot V (I i) k) -> (forall b, 59 <= b < 1000 -> V' b = V b) -> tight V (I i) -> tight V' (I i).
Proof.
  intros Hwf Hi Hs HV [T1 T2 T3]. pose proof (fi_size _ (fw_fields _ _ _ Hwf i Hi)). destruct sb_fields as (E1 & _ & _ & _ & E2).
  assert (forall k, 0 <= k < MAXFILE -> baddr V' (I i) k = baddr V (I i) k) as Hb by (intros k Hk; rewrite <-!slot_baddr by done; apply Hs).
  split; [intros k Hk; rewrite Hb by done; by apply T1|done|]. intros k Hk. pose proof (block_of k ltac:(lia)) as Hkb. rewrite Hb by done. intros Hnz. rewrite <-(T3 k Hk Hnz).
  apply (file_byte_frame sb V V' I i k Hwf Hi ltac:(lia) Hs); [intros b Hbr; apply HV; lia|done].
Qed.

Lemma iblock_sect i : inode_no sb i -> 32 <= IBLOCK i sb < 58.
Proof. intros Hi. pose proof (iblock_range sb disk_log disk_geo i Hi) as Hr. destruct sb_fields as (_ & _ & E3 & E4 & _). lia. Qed.

(** Writing the inode [i] to its block. *)
Lemma wp_winode s V I i (Q : unit -> image -> Prop) : img_blocks s V -> fs_wf sb V I -> synced sb V I (fun j => j = i) -> inode_no sb i ->
  let V' := <[IBLOCK i sb := put_dinode (I i) (V (IBLOCK i sb)) (i mod IPB)]> V in let s' := written s (IBLOCK i sb) (put_dinode (I i) (V (IBLOCK i sb)) (i mod IPB)) in
  (img_blocks s' V' -> fs_wf sb V' I -> synced sb V' I (fun _ => False) -> (forall j k, inode_no sb j -> slot V' (I j) k = slot V (I j) k) -> (forall b, 58 <= b -> V' b = V b) ->
    (forall j, inode_no sb j -> file_bytes V' (I j) = file_bytes V (I j)) -> Q tt s') ->
  wp (winode i (I i)) s Q.
Proof.
  intros Hib Hwf Hs Hi V' s' HQ. pose proof (iblock_sect i Hi) as Hr. pose proof (ib_free _ _ Hib) as Hf. unfold winode. wp_step.
  eapply (wp_rsect s V); [done|lia|lia|]. eapply (wp_wsect s V); [done|lia|lia|]. intros Hib'. destruct (put_inode sb disk_log disk_geo V I i Hwf Hi Hs) as (P1 & P2 & _ & P4 & P5 & P6).
  apply HQ; [done|done|done|done| |done]. intros b Hb. apply P5. destruct sb_fields as (_ & _ & _ & E4 & _). lia.
Qed.

Lemma wp_rinode s V I i (Q : dinode -> image -> Prop) : img_blocks s V -> synced sb V I (fun _ => False) -> inode_no sb i -> Q (I i) s -> wp (rinode i) s Q.
Proof.
  intros Hib Hs Hi HQ. pose proof (iblock_sect i Hi) as Hr. unfold rinode. wp_step. eapply (wp_rsect s V); [done|lia|lia|]. wp_step. rewrite <-(Hs i Hi) in HQ by tauto. exact HQ.
Qed.

Lemma set_dsize_same d : set_dsize (dsize d) d = d.
Proof. by destruct d. Qed.

Lemma wp_iappend s V I i p (Q : unit -> image -> Prop) : fs_built s V I -> synced sb V I (fun _ => False) -> inode_no sb i ->
  dsize (I i) + Z.of_nat (length p) <= MAXFILE * BSIZE -> Forall (fun v => 0 <= v < 256) p ->
  freeblock s + blocks_for (dsize (I i) + Z.of_nat (length p)) - blocks_for (dsize (I i)) <= 1000 ->
  (forall s' V' I', appended s V I i p s' V' I' -> synced sb V' I' (fun _ => False) -> Q tt s') -> wp (iappend i p) s Q.
Proof.
  intros Hb Hs Hi Hmax Hbytes Hroom HQ. pose proof (fi_size _ (fw_fields _ _ _ (bu_wf _ _ _ Hb) i Hi)) as Hsz. pose proof maxfile_eq as Hm. unfold iappend.
  wp_step. eapply (wp_rinode s V I i); [apply Hb|done|done|]. rewrite xint_id by (unfold BSIZE in *; lia).
  wp_step. eapply (wp_iappend_loop _ s V I i (I i) p); [done|done|by rewrite set_dsize_same|done|done|lia|done|]. intros s1 V1 I1 d1 Hap Hme HI1.
  rewrite xint_id by (unfold BSIZE in *; lia). rewrite <-HI1. pose proof Hap as [[B1 B2 B3] A2 A3 A4 A5 A6 A7].
  assert (synced sb V1 I1 (fun j => j = i)) as Hs1.
  { intros j Hj Hne. destruct (A5 j Hj Hne) as [E _]. rewrite E, <-(Hs j Hj) by tauto. unfold dinode_on. rewrite Hme; [done|]. apply iblock_sect in Hj. lia. }
  apply (wp_winode s1 V1 I1 i); [done|done|done|done|]. set (V2 := <[_ := _]> V1). intros C1 C2 C3 C4 C5 C6. apply (HQ _ V2 I1); [|done].
  split; [split; [done|done|]| |done|done| |done|done].
  - intros j Hj. apply (tight_frame V1); [done|done|intros k; by apply C4|intros b Hbr; apply C5; lia|by apply B3].
  - by rewrite C6, A2.
  - intros j Hj Hne. destruct (A5 j Hj Hne) as [E1 E2]. split; [done|]. rewrite <-E1, C6 by done. by rewrite E1.
Qed.
End whole.

(** ** Names and entries *)
Definition pad (n : nat) (nm : list Z) : list Z := take n nm ++ replicate (n - length nm) 0.
Lemma length_pad n nm : length (pad n nm) = n.
Proof. unfold pad. rewrite length_app, length_take, length_replicate. lia. Qed.

Lemma strncpy_pad n nm : Forall (fun c => 0 < c < 256) nm -> strncpy n (nm ++ [0]) = Ok (pad n nm).
Proof.
  intros Hnm. revert n. induction Hnm as [|c nm Hc Hnm IH]; intros n; destruct n as [|n]; cbn [strncpy app]; try done.
  rewrite (proj2 (Z.eqb_neq c 0)) by lia. by rewrite IH.
Qed.

Lemma pad_bytes n nm : Forall (fun c => 0 < c < 256) nm -> bytes_ok (pad n nm).
Proof. intros Hnm. apply Forall_app. split; [apply Forall_take; eapply Forall_impl; [exact Hnm|]; cbn; lia|apply Forall_replicate; lia]. Qed.

Lemma name_of_pad nm : Forall (fun c => 0 < c < 256) nm -> name_of (pad DIRSIZ nm) = take DIRSIZ nm.
Proof.
  intros Hnm. unfold name_of. rewrite take_ge by (rewrite length_pad; lia). unfold pad. assert (Forall (fun c => 0 < c < 256) (take DIRSIZ nm)) as Ht by by apply Forall_take.
  revert Ht. generalize (take DIRSIZ nm). intros l Hl. induction Hl as [|c l Hc Hl IH]; cbn [app until_nul].
  - destruct (DIRSIZ - length nm)%nat; done.
  - rewrite (proj2 (Z.eqb_neq c 0)) by lia. by rewrite IH.
Qed.

(** The entries of the root directory for files with these names. *)
Definition root_dents (names : list (list Z)) : list dirent :=
  mkDirent 1 (pad DIRSIZ [46]) :: mkDirent 1 (pad DIRSIZ [46; 46]) :: imap (fun k nm => mkDirent (Z.of_nat k + 2) (pad DIRSIZ nm)) names.
Definition dents_bytes (es : list dirent) : list Z := concat (encode_dirent <$> es).

Lemma root_dents_snoc names nm : root_dents (names ++ [nm]) = root_dents names ++ [mkDirent (Z.of_nat (length names) + 2) (pad DIRSIZ nm)].
Proof. unfold root_dents. by rewrite imap_app, app_comm_cons, app_comm_cons; cbn; rewrite Nat.add_0_r. Qed.
Lemma length_root_dents names : length (root_dents names) = (2 + length names)%nat.
Proof. unfold root_dents. cbn. by rewrite length_imap. Qed.

Lemma dents_bytes_app l1 l2 : dents_bytes (l1 ++ l2) = dents_bytes l1 ++ dents_bytes l2.
Proof. unfold dents_bytes. by rewrite fmap_app, concat_app. Qed.
Lemma length_dents es : Forall (fun e => length (d_name e) = DIRSIZ) es -> length (dents_bytes es) = (16 * length es)%nat.
Proof. induction 1 as [|e es He Hes IH]; [done|]. unfold dents_bytes in *. cbn. rewrite length_app, IH, He. unfold DIRSIZ. lia. Qed.

(** What the kernel reads back from them. *)
Lemma dents_lookup es k e rest : Forall (fun e => length (d_name e) = DIRSIZ) es -> es !! k = Some e -> 0 <= d_inum e < 65536 ->
  decode_dirent (take 16 (drop (16 * k) (dents_bytes es ++ rest))) = e.
Proof.
  revert k. induction es as [|e0 es IH]; intros k Hes Hk He; [done|]. apply Forall_cons in Hes as [He0 Hes].
  assert (length (encode_dirent e0) = 16%nat) as Hl by (cbn; by rewrite He0). destruct k as [|k].
  - injection Hk as <-. rewrite Nat.mul_0_r, drop_0. change (dents_bytes (e0 :: es)) with (encode_dirent e0 ++ dents_bytes es).
    rewrite <-app_assoc, take_app_le, take_ge by lia. destruct e0. by apply decode_encode_dirent.
  - change (dents_bytes (e0 :: es)) with (encode_dirent e0 ++ dents_bytes es). replace (16 * S k)%nat with (length (encode_dirent e0) + 16 * k)%nat by lia.
    rewrite <-app_assoc, drop_app_add. by apply IH.
Qed.

(** ** The file system as it grows *)
Definition cost (contents : list (list Z)) : Z :=
  59 + blocks_for (16 * (2 + Z.of_nat (length contents))) + foldr Z.add 0 ((fun c => blocks_for (Z.of_nat (length c))) <$> contents).

Lemma blocks_for_mono m n : m <= n -> blocks_for m <= blocks_for n.
Proof.
  intros Hn. unfold blocks_for. assert ((m + BSIZE - 1) / BSIZE <= (n + BSIZE - 1) / BSIZE) by (apply Z.div_le_mono; [done|lia]).
  destruct (Z.ltb_spec (NDIRECT * BSIZE) m), (Z.ltb_spec (NDIRECT * BSIZE) n); lia.
Qed.

Lemma sum_app l1 l2 : foldr Z.add 0 (l1 ++ l2) = foldr Z.add 0 l1 + foldr Z.add 0 l2.
Proof. induction l1 as [|x l1 IH]; cbn; lia. Qed.

Lemma cost_snoc cs c : cost (cs ++ [c]) = cost cs - blocks_for (16 * (2 + Z.of_nat (length cs))) + blocks_for (16 * (3 + Z.of_nat (length cs))) + blocks_for (Z.of_nat (length c)).
Proof. unfold cost. rewrite length_app, fmap_app, sum_app. cbn. replace (16 * (2 + Z.of_nat (length cs + 1))) with (16 * (3 + Z.of_nat (length cs))) by lia. lia. Qed.

Lemma cost_mono cs more : cost cs <= cost (cs ++ more).
Proof.
  revert cs. induction more as [|c more IH]; intros cs; [by rewrite app_nil_r|]. rewrite (app_assoc cs [c] more : cs ++ c :: more = _). etrans; [|apply IH].
  rewrite cost_snoc. pose proof (blocks_for_mono (16 * (2 + Z.of_nat (length cs))) (16 * (3 + Z.of_nat (length cs))) ltac:(lia)).
  pose proof (blocks_for_mono 0 (Z.of_nat (length c)) ltac:(lia)) as H0. change (blocks_for 0) with 0 in H0. lia.
Qed.

Record holds_files (s : image) (V : Z -> list Z) (I : Z -> dinode) (fs : list (list Z * list Z)) : Prop := {
  hf_built : fs_built s V I;
  hf_sync : synced sb V I (fun _ => False);
  hf_next : freeinode s = 2 + Z.of_nat (length fs);
  hf_unused : forall j, inode_no sb j -> j = 0 \/ freeinode s <= j -> I j = zero_dinode;
  hf_dir : type (I 1) = T_DIR /\ nlink (I 1) = 1;
  hf_root : file_bytes V (I 1) = dents_bytes (root_dents (fs.*1));
  hf_size : dsize (I 1) = 16 * (2 + Z.of_nat (length fs));
  hf_files : forall k nm c, fs !! k = Some (nm, c) -> let d := I (Z.of_nat k + 2) in
    type d = T_FILE /\ nlink d = 1 /\ dsize d = Z.of_nat (length c) /\ file_bytes V d = c;
  hf_cost : freeblock s = cost (fs.*2)
}.

Section growing.
Implicit Types (s : image) (V : Z -> list Z) (I : Z -> dinode).

Lemma tight_addrs V d d' : addrs d = addrs d' -> dsize d = dsize d' -> tight V d -> tight V d'.
Proof. intros Ea Es [T1 T2 T3]. unfold file_byte, baddr, addr_at in *. rewrite Ea, Es in *. by split. Qed.

Lemma inode_range i : inode_no sb i <-> 0 <= i < 200.
Proof. unfold inode_no. destruct sb_fields as (_ & -> & _). done. Qed.

Definition new_inode (t : Z) : dinode := mkDinode t 0 0 1 0 (replicate 13 0).
Lemma wp_ialloc s V I t (Q : Z -> image -> Prop) : let n := freeinode s in let I' := <[n := new_inode t]> I in
  fs_built s V I -> synced sb V I (fun _ => False) -> 0 <= n < 200 -> I n = zero_dinode -> 0 <= t < 32768 ->
  (forall s' V', fs_built s' V' I' -> synced sb V' I' (fun _ => False) -> (forall j, inode_no sb j -> file_bytes V' (I' j) = file_bytes V (I j)) ->
    freeinode s' = n + 1 -> freeblock s' = freeblock s -> Q n s') -> wp (ialloc t) s Q.
Proof.
  intros n I' [Hib Hwf Ht] Hs Hn%inode_range Hz Ht0 HQ. unfold ialloc. wp_step. wp_step. wp_step. wp_step. rewrite !xshort_id by lia. rewrite xint_id by lia.
  change (mkDinode t 0 0 1 0 (replicate 13 0)) with (new_inode t). fold n. assert (new_inode t = I' n) as En by (unfold I'; by rewrite fn_lookup_insert). wp_step. rewrite En.
  assert (addrs (new_inode t) = addrs (I n) /\ dsize (new_inode t) = dsize (I n)) as [Ea Es] by by rewrite Hz.
  assert (forall j, addrs (I' j) = addrs (I j) /\ dsize (I' j) = dsize (I j)) as Hj.
  { intros j. unfold I'. destruct (decide (n = j)) as [<-|]; [by rewrite fn_lookup_insert|by rewrite fn_lookup_insert_ne]. }
  assert (fs_wf sb V I') as Hwf' by (apply wf_fields; [done|split; unfold short; cbn; try lia; try done|done|done]).
  apply (wp_winode _ V I' n); [destruct Hib; by split|done| |done|].
  { intros j Hjn Hne. unfold I'. rewrite fn_lookup_insert_ne by done. apply Hs; [done|tauto]. }
  set (V' := <[_ := _]> V). intros C1 C2 C3 C4 C5 C6. wp_step. apply (HQ _ V'); [split; [done|done|]|done| |done|done].
  - intros j Hjn. apply (tight_frame V); [done|done|intros k; by apply C4|intros b Hb; apply C5; lia|]. destruct (Hj j) as [E1 E2]. apply (tight_addrs V (I j)); [done|done|by apply Ht].
  - intros j Hjn. rewrite C6 by done. destruct (Hj j) as [E1 E2]. by apply file_bytes_addrs.
Qed.

(** A chunk of the file written last. *)
Lemma wp_append_file s V I fs nm c c1 (Q : unit -> image -> Prop) : holds_files s V I (fs ++ [(nm, c)]) -> Z.of_nat (length fs) < 198 ->
  Z.of_nat (length (c ++ c1)) <= MAXFILE * BSIZE -> Forall (fun v => 0 <= v < 256) c1 -> cost (fs.*2 ++ [c ++ c1]) <= 1000 ->
  (forall s' V' I', holds_files s' V' I' (fs ++ [(nm, c ++ c1)]) -> Q tt s') -> wp (iappend (Z.of_nat (length fs) + 2) c1) s Q.
Proof.
  intros [H1 H2 H3 H4 H5 H6 H7 H8 H9] Hn Hmax Hbytes Hcost HQ. set (i := Z.of_nat (length fs) + 2) in *. assert (inode_no sb i) as Hi by (apply inode_range; unfold i; lia).
  destruct (H8 (length fs) nm c) as (F1 & F2 & F3 & F4); [by rewrite lookup_app_r, Nat.sub_diag by lia|]. fold i in F1, F2, F3, F4.
  rewrite fmap_app in H9. change ((fun p : list Z * list Z => p.2) <$> [(nm, c)]) with [c] in H9. change ([(nm, c)].*2) with [c] in H9.
  rewrite cost_snoc in H9, Hcost. rewrite length_app in Hmax, Hcost.
  eapply (wp_iappend s V I i c1); [done|done|done|rewrite F3; lia|done|rewrite F3, H9; rewrite Nat2Z.inj_add in Hcost; lia|]. intros s' V' I' [A1 A2 A3 A4 A5 A6 A7] Hs'. apply (HQ s' V' I').
  assert (inode_no sb 1 /\ 1 <> i) as [Hr1 Hri] by (split; [apply inode_range; lia|unfold i; lia]). destruct (A5 1 Hr1 Hri) as [E1 E2].
  split; [done|done| | | | | | |].
  - rewrite A7, H3, !length_app. done.
  - intros j Hj Hor. rewrite A7 in Hor. rewrite H3, length_app in Hor. cbn in Hor. destruct (A5 j Hj) as [-> _]; [unfold i; lia|]. apply H4; [done|]. rewrite H3, length_app. cbn. lia.
  - by rewrite E1.
  - rewrite E1, E2, H6. by rewrite !fmap_app.
  - rewrite E1, H7, !length_app. done.
  - intros k nm' c' Hk. cbv zeta. apply lookup_app_Some in Hk as [Hk|[Hk1 Hk2]].
    + pose proof (lookup_lt_Some _ _ _ Hk) as Hlt. destruct (A5 (Z.of_nat k + 2)) as [E3 E4]; [apply inode_range; lia|unfold i; lia|]. rewrite E3, E4.
      apply (H8 k nm' c'). by rewrite lookup_app_l.
    + assert (k = length fs) as -> by (destruct (k - length fs)%nat eqn:Ek; [lia|done]). rewrite Nat.sub_diag in Hk2. injection Hk2 as <- <-. fold i. destruct A4 as (G1 & _ & _ & G2).
      split_and!; [congruence|congruence|rewrite A3, F3, length_app; lia|by rewrite A2, F4].
  - rewrite A6, H9, A3, F3, !fmap_app. change ([(nm, c ++ c1)].*2) with [c ++ c1]. rewrite cost_snoc, length_app, Nat2Z.inj_add. lia.
Qed.
End growing.

Section adding.
Implicit Types (s : image) (V : Z -> list Z) (I : Z -> dinode).

Lemma wp_root_entry s V I n nm (Q : unit -> image -> Prop) : fs_built s V I -> synced sb V I (fun _ => False) -> Forall (fun c => 0 < c < 256) nm -> 0 <= n < 65536 ->
  dsize (I 1) + 16 <= MAXFILE * BSIZE -> freeblock s + blocks_for (dsize (I 1) + 16) - blocks_for (dsize (I 1)) <= 1000 ->
  (forall s' V' I', appended s V I 1 (encode_dirent (mkDirent n (pad DIRSIZ nm))) s' V' I' -> synced sb V' I' (fun _ => False) -> Q tt s') -> wp (root_entry n nm) s Q.
Proof.
  intros Hb Hs Hnm Hn Hmax Hroom HQ. unfold root_entry. wp_step. eapply wp_lift; [by apply strncpy_pad|]. rewrite xshort_id by lia.
  assert (Z.of_nat (length (encode_dirent (mkDirent n (pad DIRSIZ nm)))) = 16) as Hl by (cbn [encode_dirent length d_name]; by rewrite length_pad).
  apply (wp_iappend s V I ROOTINO); rewrite ?Hl; [done|done|apply inode_range; unfold ROOTINO; lia|done|apply encode_dirent_bytes; by apply pad_bytes|done|done].
Qed.

Lemma dents_snoc names nm : dents_bytes (root_dents (names ++ [nm])) = dents_bytes (root_dents names) ++ encode_dirent (mkDirent (Z.of_nat (length names) + 2) (pad DIRSIZ nm)).
Proof. rewrite root_dents_snoc, dents_bytes_app. unfold dents_bytes at 2. cbn [fmap list_fmap concat]. by rewrite app_nil_r. Qed.

(** A new empty file. *)
Lemma wp_new_file s V I fs nm (K : Z -> M image unit) (Q : unit -> image -> Prop) : holds_files s V I fs -> Z.of_nat (length fs) < 198 -> Forall (fun c => 0 < c < 256) nm -> cost (fs.*2 ++ [[]]) <= 1000 ->
  (forall s' V' I', holds_files s' V' I' (fs ++ [(nm, [])]) -> wp (K (Z.of_nat (length fs) + 2)) s' Q) ->
  wp (inum ← ialloc T_FILE; _ ← root_entry inum nm; K inum) s Q.
Proof.
  intros [H1 H2 H3 H4 H5 H6 H7 H8 H9] Hn Hnm Hcost HQ. set (i := freeinode s) in *. assert (inode_no sb i) as Hi by (apply inode_range; lia). assert (inode_no sb 1) as Hr by (apply inode_range; lia).
  wp_step. eapply (wp_ialloc s V I T_FILE); [done|done|fold i; lia|apply H4; [done|right; fold i; lia]|unfold T_FILE; lia|]. fold i. set (I1 := <[i := new_inode T_FILE]> I). intros s1 V1 B1 B2 B3 B4 B5.
  assert (I1 1 = I 1) as E1 by (unfold I1; by rewrite fn_lookup_insert_ne by lia). pose proof maxfile_eq. rewrite cost_snoc, length_fmap in Hcost. change (blocks_for (Z.of_nat (length []))) with 0 in Hcost.
  rewrite <-H9 in Hcost. wp_step. eapply (wp_root_entry s1 V1 I1 i nm); rewrite ?E1, ?H7; [done|done|done|lia|unfold BSIZE; lia| |].
  { rewrite B5. replace (16 * (2 + Z.of_nat (length fs)) + 16) with (16 * (3 + Z.of_nat (length fs))) by lia. lia. }
  intros s2 V2 I2 [A1 A2 A3 A4 A5 A6 A7] Hs2. rewrite E1 in A2, A3, A4, A6. assert (i = Z.of_nat (length fs) + 2) as Ei by lia. rewrite Ei in A2 |- *. apply (HQ s2 V2 I2).
  assert (inode_no sb (Z.of_nat (length fs) + 2)) as Hi' by (apply inode_range; lia).
  split; [done|done| | | | | | |].
  - rewrite A7, B4, length_app. cbn. lia.
  - intros j Hj Hor. destruct (A5 j Hj) as [-> _]; [lia|]. unfold I1. rewrite fn_lookup_insert_ne by lia. apply H4; [done|]. lia.
  - destruct A4 as (-> & _ & _ & ->). done.
  - rewrite A2, fmap_app. change ([(nm, [] : list Z)].*1) with [nm]. rewrite dents_snoc, length_fmap. by rewrite <-E1, B3, H6 by done.
  - rewrite A3, H7, length_app. cbn [encode_dirent length d_name]. rewrite length_pad. cbn. unfold DIRSIZ. lia.
  - intros k nm' c' Hk. cbv zeta. apply lookup_app_Some in Hk as [Hk|[Hk1 Hk2]].
    + pose proof (lookup_lt_Some _ _ _ Hk) as Hlt. assert (inode_no sb (Z.of_nat k + 2)) as Hk0 by (apply inode_range; lia). destruct (A5 (Z.of_nat k + 2) Hk0) as [E3 E4]; [lia|]. rewrite E3, E4, B3 by done.
      assert (I1 (Z.of_nat k + 2) = I (Z.of_nat k + 2)) as E5 by (unfold I1; by rewrite fn_lookup_insert_ne by lia). rewrite E5. by apply (H8 k nm' c').
    + assert (k = length fs) as -> by (destruct (k - length fs)%nat eqn:Ek; [lia|done]). rewrite Nat.sub_diag in Hk2. injection Hk2 as <- <-. destruct (A5 _ Hi') as [E3 E4]; [lia|]. rewrite E3, E4, B3 by done.
      unfold I1. rewrite <-Ei, fn_lookup_insert. split_and!; [done|done|done|]. unfold file_bytes. rewrite (H4 _ Hi) by (right; lia). done.
  - rewrite A6, B5, fmap_app. change ([(nm, [])].*2) with [[] : list Z]. rewrite cost_snoc, length_fmap, H9, A3, H7. cbn [encode_dirent length d_name]. rewrite length_pad. unfold DIRSIZ.
    replace (16 * (2 + Z.of_nat (length fs)) + Z.of_nat 16) with (16 * (3 + Z.of_nat (length fs))) by lia. change (blocks_for (Z.of_nat 0)) with 0. lia.
Qed.

Lemma wp_iappend_all cs s V I fs nm c (Q : unit -> image -> Prop) : holds_files s V I (fs ++ [(nm, c)]) -> Z.of_nat (length fs) < 198 ->
  Z.of_nat (length (c ++ concat cs)) <= MAXFILE * BSIZE -> Forall (fun c1 => c1 <> [] /\ Forall (fun v => 0 <= v < 256) c1) cs -> cost (fs.*2 ++ [c ++ concat cs]) <= 1000 ->
  (forall s' V' I', holds_files s' V' I' (fs ++ [(nm, c ++ concat cs)]) -> Q tt s') -> wp (iappend_all (Z.of_nat (length fs) + 2) cs) s Q.
Proof.
  revert s V I c. induction cs as [|c1 cs IH]; intros s V I c Hh Hn Hmax Hcs Hcost HQ; cbn [iappend_all concat] in *.
  { wp_step. rewrite app_nil_r in HQ. by eapply HQ. }
  apply Forall_cons in Hcs as [[Hne Hbytes] Hcs]. rewrite (proj2 (Z.ltb_lt _ _)) by (destruct c1; [done|cbn; lia]). rewrite app_assoc in HQ, Hmax, Hcost.
  assert (cost (fs.*2 ++ [c ++ c1]) <= cost (fs.*2 ++ [(c ++ c1) ++ concat cs])) as Hc.
  { rewrite !cost_snoc. pose proof (blocks_for_mono (Z.of_nat (length (c ++ c1))) (Z.of_nat (length ((c ++ c1) ++ concat cs))) ltac:(rewrite (length_app (c ++ c1)); lia)). lia. }
  wp_step. eapply (wp_append_file s V I fs nm c c1); [done|done|rewrite (length_app (c ++ c1)) in Hmax; lia|done|lia|]. intros s' V' I' Hh'. by eapply IH.
Qed.
End adding.

Record hostfile_ok (f : hostfile) : Prop := {
  ho_name : SLASH ∉ argname f /\ Forall (fun c => 0 < c < 256) (argname f);
  ho_reads : exists cs, reads f = Some cs /\ Forall (fun c => c <> [] /\ Forall (fun v => 0 <= v < 256) c) cs /\ Z.of_nat (length (concat cs)) <= MAXFILE * BSIZE
}.
(** What is stored of a file. *)
Definition contents (f : hostfile) : list Z := concat (default [] (reads f)).
Definition stored (f : hostfile) : list Z * list Z := (stored_name (argname f), contents f).

Lemma stored_name_ok (P : Z -> Prop) nm : Forall P nm -> Forall P (stored_name nm).
Proof.
  intros H. unfold stored_name. destruct nm as [|c nm]; [done|]. apply Forall_cons in H as [Hc H].
  repeat (case_match; try (by constructor)); done.
Qed.

Section all.
Implicit Types (s : image) (V : Z -> list Z) (I : Z -> dinode).

Lemma wp_add_files files s V I fs (Q : unit -> image -> Prop) : holds_files s V I fs -> Forall hostfile_ok files -> (length fs + length files <= 198)%nat ->
  cost ((fs ++ (stored <$> files)).*2) <= 1000 -> (forall s' V' I', holds_files s' V' I' (fs ++ (stored <$> files)) -> Q tt s') -> wp (add_files files) s Q.
Proof.
  revert s V I fs. induction files as [|f files IH]; intros s V I fs Hh Hfs Hn Hcost HQ; cbn [add_files fmap list_fmap] in *.
  { wp_step. rewrite app_nil_r in HQ. by eapply HQ. }
  apply Forall_cons in Hfs as [[[Hsl Hnm] (cs & Er & Hcs & Hmax)] Hfs]. assert (contents f = concat cs) as Ec by (unfold contents; by rewrite Er). cbn in Hn.
  rewrite cons_middle, app_assoc in HQ, Hcost. pose proof (cost_mono ((fs ++ [stored f]).*2) ((stored <$> files).*2)) as Hm. rewrite <-fmap_app in Hm.
  unfold stored at 1 in Hm. rewrite fmap_app in Hm. change ([(stored_name (argname f), contents f)].*2) with [contents f] in Hm. rewrite Ec in Hm.
  assert (cost (fs.*2 ++ [[]]) <= cost (fs.*2 ++ [concat cs])) as Hc.
  { rewrite !cost_snoc. pose proof (blocks_for_mono (Z.of_nat (length (@nil Z))) (Z.of_nat (length (concat cs))) ltac:(cbn; lia)). lia. }
  wp_step. unfold add_file. rewrite bool_decide_eq_false_2, Er by done.
  eapply (wp_new_file s V I fs (stored_name (argname f)) (fun inum => iappend_all inum cs)); [done|lia|by apply stored_name_ok|lia|]. intros s1 V1 I1 H1.
  eapply (wp_iappend_all cs s1 V1 I1 fs _ []); [done|lia|done|done|cbn [app]; lia|]. cbn [app]. intros s2 V2 I2 H2. rewrite <-Ec in H2.
  eapply (IH s2 V2 I2 (fs ++ [stored f])); [done|done|rewrite length_app; cbn; lia|exact Hcost|exact HQ].
Qed.
End all.

(** ** From the empty image to the last inode *)
Section main.
Implicit Types (s : image) (V : Z -> list Z) (I : Z -> dinode).

Lemma write_sect_end l buf : write_sect l (length l) buf = l ++ [buf].
Proof.
  unfold write_sect. replace (S (length l) - length l)%nat with 1%nat by lia. change (replicate 1 zero_block) with [zero_block].
  rewrite insert_app_r_alt, Nat.sub_diag by lia. done.
Qed.

Lemma wp_zero_sects n i s (Q : unit -> image -> Prop) : sects s = replicate i zero_block -> Q tt (set_sects (replicate (i + n) zero_block) s) -> wp (zero_sects n (Z.of_nat i)) s Q.
Proof.
  revert i s. induction n as [|n IH]; intros i s Hs HQ; cbn [zero_sects].
  - wp_step. rewrite Nat.add_0_r, <-Hs in HQ. by destruct s.
  - wp_step. unfold wsect. wp_step. replace (Z.of_nat i + 1) with (Z.of_nat (S i)) by lia. apply IH; cbn [sects set_sects].
    + rewrite Nat2Z.id. rewrite Hs at 1. replace i with (length (replicate i zero_block)) at 2 by apply length_replicate. rewrite write_sect_end. by rewrite replicate_S_end.
    + by rewrite Nat.add_succ_comm.
Qed.

Definition start_blocks (b : Z) : list Z := if decide (b = 1) then list_inserts 0 sb_words zero_block else if decide (b = 58) then marks 59 else zero_block.
Definition start_image : image := mkImage (<[1%nat := list_inserts 0 sb_words zero_block]> (replicate 1000 zero_block)) 1 59.

Lemma start_img : img_blocks start_image start_blocks.
Proof.
  split; cbn [sects freeblock start_image]; [| |done|lia| |done|done].
  - intros b Hb Hne. unfold start_blocks. destruct (decide (b = 1)) as [->|H1]; [done|]. rewrite decide_False by done.
    rewrite list_lookup_insert_ne by lia. by rewrite lookup_replicate_2 by lia.
  - by rewrite length_insert, length_replicate.
  - intros b Hb. unfold start_blocks. by rewrite !decide_False by lia.
Qed.

Lemma slot_zero V k : slot V zero_dinode k = 0.
Proof.
  assert (forall j, addr_at zero_dinode j = 0) as Hz.
  { intros j. unfold addr_at, word_at. cbn [addrs zero_dinode]. destruct (replicate 13 0 !! Z.to_nat j) eqn:E; [|done]. by apply lookup_replicate in E as [-> _]. }
  unfold slot, baddr. rewrite !Hz. by destruct (k =? MAXFILE), (k <? NDIRECT).
Qed.

Lemma start_built : fs_built start_image start_blocks (fun _ => zero_dinode) /\ synced sb start_blocks (fun _ => zero_dinode) (fun _ => False).
Proof.
  pose proof start_img as Hib. destruct sb_fields as (E1 & E2 & E3 & E4 & E5). split; [split; [done| |]|].
  - split.
    + intros b _. unfold start_blocks. case_decide; [done|]. case_decide; [apply marks_spec; unfold BPB, BSIZE; lia|done].
    + intros b Hb. rewrite (used_spec _ _ _ Hib) by lia. apply Z.ltb_lt. cbn. lia.
    + intros i _. by split.
    + intros i k _ _ Hnz. by rewrite slot_zero in Hnz.
    + intros i k i' k' _ _ _ _ Hnz. by rewrite slot_zero in Hnz.
    + intros i j _ Hj Hlt. cbn in Hlt. unfold BSIZE in Hlt. lia.
  - intros j Hj. split; cbn [dsize zero_dinode].
    + intros k Hk. rewrite <-slot_baddr, slot_zero by done. unfold BSIZE. lia.
    + rewrite <-(slot_ind start_blocks), slot_zero. unfold NDIRECT, BSIZE. lia.
    + intros k Hk Hnz. pose proof (block_of k Hk). by rewrite <-slot_baddr, slot_zero in Hnz by done.
  - intros i Hi _. unfold dinode_on, start_blocks. apply iblock_sect in Hi. rewrite !decide_False by lia.
    unfold decode_dinode. rewrite !word_at_zero. unfold zero_dinode. f_equal. apply list_eq. intros n. rewrite list_lookup_fmap.
    destruct (decide (n < 13)%nat) as [Hn|Hn].
    + rewrite (proj2 (lookup_seqZ 0 (NDIRECT + 1) n (Z.of_nat n))) by (unfold NDIRECT; lia). cbn [fmap option_fmap option_map]. rewrite word_at_zero. by rewrite lookup_replicate_2.
    + rewrite !lookup_ge_None_2; [done|rewrite length_replicate; lia|rewrite length_seqZ; unfold NDIRECT; lia].
Qed.

(** The root directory with its two entries. *)
Lemma wp_make_root (K : M image unit) (Q : unit -> image -> Prop) : (forall s V I, holds_files s V I [] -> wp K s Q) ->
  wp (rootino ← ialloc T_DIR; if negb (rootino =? ROOTINO) then fail Panic else _ ← root_entry rootino [46]; _ ← root_entry rootino [46; 46]; K) start_image Q.
Proof.
  intros HQ. destruct start_built as [Hb Hs]. assert (inode_no sb 1) as Hr by (apply inode_range; lia). pose proof maxfile_eq. wp_step.
  eapply (wp_ialloc start_image start_blocks (fun _ => zero_dinode) T_DIR); [done|done|cbn; lia|done|unfold T_DIR; lia|]. change (freeinode start_image) with 1. set (I1 := <[1 := new_inode T_DIR]> _). intros s1 V1 B1 B2 B3 B4 B5.
  assert (I1 1 = new_inode T_DIR) as E1 by (unfold I1; by rewrite fn_lookup_insert). change (negb (1 =? ROOTINO)) with false. cbv iota.
  wp_step. eapply (wp_root_entry s1 V1 I1 1 [46]); rewrite ?E1; [done|done|repeat constructor|lia|cbn [dsize new_inode]; unfold BSIZE; lia|rewrite B5; by vm_compute|].
  intros s2 V2 I2 [A1 A2 A3 A4 A5 A6 A7] Hs2. rewrite E1 in A3, A4, A6. change (dsize (new_inode T_DIR) + _) with 16 in A3.
  wp_step. eapply (wp_root_entry s2 V2 I2 1 [46; 46]); rewrite ?A3; [done|done|repeat constructor|lia|unfold BSIZE; lia|rewrite A6, A3, B5; by vm_compute|].
  intros s3 V3 I3 [C1 C2 C3 C4 C5 C6 C7] Hs3. rewrite A3 in C3, C6. change (16 + _) with 32 in C3. apply (HQ s3 V3 I3).
  destruct A4 as (F1 & _ & _ & F2), C4 as (G1 & _ & _ & G2). split; [done|done| | | | | | |].
  - rewrite C7, A7, B4. done.
  - intros j Hj Hor. rewrite C7, A7, B4 in Hor. destruct (C5 j Hj) as [-> _]; [lia|]. destruct (A5 j Hj) as [-> _]; [lia|]. unfold I1. by rewrite fn_lookup_insert_ne by lia.
  - rewrite G1, F1, G2, F2. done.
  - rewrite C2, A2, B3 by done. done.
  - exact C3.
  - intros k nm c Hk. done.
  - rewrite C6, A6, B5, C3, A3. by vm_compute.
Qed.
End main.

(** ** The end: the size of the root and the bitmap *)

(** The image as the disk of the kernel. *)
Definition disk_of (s : image) : gmap Z (list Z) := map_seqZ 0 (sects s).

(** The file system that the kernel finds. *)
Record made (s : image) (I : Z -> dinode) (fs : list (list Z * list Z)) : Prop := {
  md_disk : fs_disk sb (read_disk (disk_of s)) I;
  md_log : read_disk (disk_of s) 1 = list_inserts 0 sb_words zero_block /\ read_disk (disk_of s) 2 = zero_block;
  md_len : length (sects s) = 1000%nat;
  md_unused : forall j, inode_no sb j -> j = 0 \/ 2 + Z.of_nat (length fs) <= j -> I j = zero_dinode;
  md_dir : type (I 1) = T_DIR /\ nlink (I 1) = 1 /\ dsize (I 1) = (16 * (2 + Z.of_nat (length fs)) / BSIZE + 1) * BSIZE;
  md_root : exists n, file_bytes (read_disk (disk_of s)) (I 1) = dents_bytes (root_dents (fs.*1)) ++ replicate n 0;
  md_files : forall k nm c, fs !! k = Some (nm, c) -> let d := I (Z.of_nat k + 2) in
    type d = T_FILE /\ nlink d = 1 /\ dsize d = Z.of_nat (length c) /\ file_bytes (read_disk (disk_of s)) d = c;
  md_used : forall b, 0 <= b < 1000 -> used sb (read_disk (disk_of s)) b = (b <? cost (fs.*2))
}.

Section finish.
Implicit Types (s : image) (V : Z -> list Z) (I : Z -> dinode).

Lemma disk_of_lookup s b : 0 <= b -> read_disk (disk_of s) b = default zero_block (sects s !! Z.to_nat b).
Proof. intros Hb. unfold read_disk, disk_of. rewrite lookup_map_seqZ. case_guard; [|lia]. cbn. by rewrite Z.sub_0_r. Qed.

(** Bytes of the last block of the root directory. *)
Lemma root_rounded V I : tight V (I 1) -> fs_wf sb V I -> 0 <= dsize (I 1) -> dsize (I 1) mod BSIZE <> 0 -> dsize (I 1) < MAXFILE * BSIZE ->
  let N := (dsize (I 1) / BSIZE + 1) * BSIZE in 0 <= N <= MAXFILE * BSIZE /\ (forall k, 0 <= k < N -> baddr V (I 1) (k / BSIZE) <> 0) /\
  file_bytes V (set_dsize N (I 1)) = file_bytes V (I 1) ++ replicate (Z.to_nat (N - dsize (I 1))) 0.
Proof.
  intros [T1 T2 T3] Hwf H0 Hm Hmax N. pose proof (block_of (dsize (I 1)) ltac:(lia)) as Hb. pose proof (Z.div_mod (dsize (I 1)) BSIZE ltac:(done)) as Hd. pose proof (Z.mod_pos_bound (dsize (I 1)) BSIZE ltac:(done)) as Hr.
  assert (dsize (I 1) <= N <= MAXFILE * BSIZE) as HN by (unfold N; unfold BSIZE in *; lia).
  assert (forall k, 0 <= k < N -> baddr V (I 1) (k / BSIZE) <> 0) as Hall.
  { intros k Hk. apply T1; [apply block_of; lia|]. assert (k / BSIZE <= dsize (I 1) / BSIZE) by (unfold N, BSIZE in *; zlia). unfold BSIZE in *. lia. }
  split; [lia|]. split; [done|]. unfold file_bytes. cbn [dsize set_dsize]. change (file_byte V (set_dsize N (I 1))) with (file_byte V (I 1)).
  replace (seqZ 0 N) with (seqZ 0 (dsize (I 1)) ++ seqZ (dsize (I 1)) (N - dsize (I 1))) by (rewrite <-(Z.add_0_l (dsize (I 1))) at 2; rewrite <-seqZ_app by lia; f_equal; lia).
  rewrite fmap_app. f_equal. apply list_eq. intros n. rewrite list_lookup_fmap. destruct (decide (Z.of_nat n < N - dsize (I 1))) as [Hn|Hn].
  - rewrite (proj2 (lookup_seqZ _ _ n (dsize (I 1) + Z.of_nat n))) by lia. cbn [fmap option_fmap option_map].
    rewrite T3; [by rewrite lookup_replicate_2 by lia|lia|apply Hall; lia].
  - rewrite !lookup_ge_None_2; [done|rewrite length_replicate; lia|rewrite length_seqZ; lia].
Qed.

Lemma wp_finish_image s V I fs (Q : unit -> image -> Prop) : holds_files s V I fs -> (length fs <= 198)%nat -> (length fs mod 32 <> 30)%nat ->
  (forall s' I', made s' I' fs -> Q tt s') -> wp (_ ← fix_root; s ← get; balloc (freeblock s)) s Q.
Proof.
  intros [[Hib Hwf Ht] H2 H3 H4 H5 H6 H7 H8 H9] Hn Hm HQ. assert (inode_no sb 1) as Hr by (apply inode_range; lia). pose proof maxfile_eq as Hmax. destruct sb_fields as (E1 & E2 & E3 & E4 & E5).
  destruct (root_rounded V I (Ht 1 Hr) Hwf) as (HN & Hall & Hby); [lia| |rewrite H7; unfold BSIZE; lia|].
  { rewrite H7. unfold BSIZE. assert (Z.of_nat (length fs) mod 32 <> 30) by (rewrite <-(Nat2Z.inj_mod _ 32); lia). zlia. }
  set (N := (dsize (I 1) / BSIZE + 1) * BSIZE) in *. destruct (wf_grow sb V I 1 N Hwf Hr HN Hall) as [Hwf1 Hsl]. set (I1 := <[1 := set_dsize N (I 1)]> I) in *.
  assert (I1 1 = set_dsize N (I 1)) as EI by (unfold I1; by rewrite fn_lookup_insert). unfold fix_root. wp_step. wp_step. eapply (wp_rinode s V I 1); [done|done|done|].
  rewrite (xint_id (dsize (I 1))) by (rewrite H7; lia). fold N. rewrite (xint_id N) by (unfold BSIZE in HN; lia). rewrite <-EI.
  apply (wp_winode s V I1 1); [done|done| |done|].
  { intros j Hj Hne. unfold I1. rewrite fn_lookup_insert_ne by congruence. apply H2; [done|tauto]. }
  set (V2 := <[_ := _]> V). set (s2 := written s _ _). intros C1 C2 C3 C4 C5 C6. wp_step. wp_step. change (freeblock s2) with (freeblock s). pose proof (ib_free _ _ Hib) as Hf.
  unfold balloc. rewrite (proj2 (Z.ltb_lt _ _)) by (unfold BSIZE; lia). cbn [negb]. unfold wsect. wp_step. rewrite E4. pose proof C1 as [D1 D2 D3 D4 D5 D6 D7]. rewrite write_sect_in by (rewrite D2; lia).
  set (s3 := set_sects _ s2). assert (forall b, 0 <= b < 1000 -> read_disk (disk_of s3) b = V2 b) as HV.
  { intros b Hb. rewrite disk_of_lookup by lia. unfold s3. cbn [sects set_sects]. destruct (decide (b = 58)) as [->|Hne].
    - rewrite list_lookup_insert_eq by (rewrite D2; lia). cbn [default]. rewrite D3. done.
    - rewrite list_lookup_insert_ne by lia. by rewrite D1. }
  assert (same_fs sb V2 (read_disk (disk_of s3))) as Hsame by (intros b Hb; apply HV; lia). destruct (wf_same sb disk_log disk_geo V2 _ Hsame I1 C2) as [Hwf3 _].
  assert (forall j, inode_no sb j -> file_bytes (read_disk (disk_of s3)) (I1 j) = file_bytes V (I1 j)) as Hfb.
  { intros j Hj. rewrite (file_bytes_same sb disk_log disk_geo V2 _ Hsame I1 j) by done. by apply C6. }
  assert (forall j, j <> 1 -> I1 j = I j) as Ho by (intros j Hj; unfold I1; by rewrite fn_lookup_insert_ne).
  apply (HQ s3 I1). split.
  - split; [rewrite HV, D6 by lia; rewrite sb_eq; by vm_compute|done|]. by apply (synced_same sb disk_log disk_geo V2).
  - split; rewrite HV by lia; done.
  - unfold s3. cbn [sects set_sects]. by rewrite length_insert.
  - intros j Hj Hor. rewrite Ho by lia. apply H4; [done|]. by rewrite H3.
  - rewrite EI. cbn [type nlink dsize set_dsize]. destruct H5. split_and!; [done|done|]. unfold N. by rewrite H7.
  - exists (Z.to_nat (N - dsize (I 1))). rewrite Hfb, EI, Hby, H6 by done. done.
  - intros k nm c Hk. pose proof (lookup_lt_Some _ _ _ Hk). cbv zeta. rewrite Hfb by (apply inode_range; lia). rewrite Ho by lia. by apply (H8 k nm c).
  - intros b Hb. rewrite (used_same sb disk_log disk_geo V2 _ Hsame) by (rewrite E1; done). rewrite (used_spec s2 V2 b C1 Hb). change (freeblock s2) with (freeblock s). by rewrite H9.
Qed.

Lemma wp_main files (Q : unit -> image -> Prop) : Forall hostfile_ok files -> (length files <= 198)%nat -> (length files mod 32 <> 30)%nat -> cost (contents <$> files) <= 1000 ->
  (forall s I, made s I (stored <$> files) -> Q tt s) -> wp (main true files) (mkImage [] 1 0) Q.
Proof.
  intros Hf Hn Hm Hcost HQ. unfold main. cbn [negb]. wp_step. wp_step. cbn [sects freeinode freeblock]. wp_step. change 0 with (Z.of_nat 0) at 1.
  eapply (wp_zero_sects _ 0); [done|]. wp_step. unfold wsect. wp_step. cbn [sects set_sects]. rewrite write_sect_in by (rewrite length_replicate; unfold FSSIZE; lia).
  change (wp ?m ?s Q) with (wp m start_image Q). eapply wp_make_root. intros s V I Hh. wp_step. eapply (wp_add_files files s V I []); [done|done|cbn; lia| |].
  - cbn [app]. rewrite <-list_fmap_compose. exact Hcost.
  - cbn [app]. intros s1 V1 I1 H1. eapply wp_finish_image; [exact H1|by rewrite length_fmap|by rewrite length_fmap|exact HQ].
Qed.
End finish.

(** ** The kernel on the image *)
Section kernel.
Implicit Types (s : image) (V : Z -> list Z) (I : Z -> dinode).

(** The entries that the kernel reads in the root directory. *)
Lemma root_entries V d names n : Forall (fun nm => Forall (fun c => 0 < c < 256) nm) names -> Z.of_nat (length names) <= 198 -> file_bytes V d = dents_bytes (root_dents names) ++ replicate n 0 ->
  (forall k e, root_dents names !! k = Some e -> entry_at V d k = e) /\ (forall k, (2 + length names <= k)%nat -> d_inum (entry_at V d k) = 0).
Proof.
  intros Hnm Hn Hb. assert (Forall (fun e => length (d_name e) = DIRSIZ) (root_dents names)) as Hl.
  { unfold root_dents. constructor; [apply (length_pad DIRSIZ)|]. constructor; [apply (length_pad DIRSIZ)|]. apply Forall_lookup. intros k e Hk. apply list_lookup_imap_Some in Hk as (nm & _ & ->). apply (length_pad DIRSIZ). }
  split.
  - intros k e Hk. unfold entry_at. rewrite Hb. apply dents_lookup; [done|done|]. pose proof (lookup_lt_Some _ _ _ Hk) as Hlt. rewrite length_root_dents in Hlt.
    destruct k as [|[|k]]; cbn in Hk; [injection Hk as <-; cbn; lia..|]. apply list_lookup_imap_Some in Hk as (nm & _ & ->). cbn. lia.
  - intros k Hk. unfold entry_at. rewrite Hb, drop_app_ge by (rewrite length_dents, length_root_dents by done; lia). rewrite drop_replicate, take_replicate.
    unfold decode_dirent. cbn [d_inum]. assert (forall m j, default 0 (replicate m 0 !! j) = 0) as Hz by (intros m j; destruct (replicate m 0 !! j) eqn:E; [by apply lookup_replicate in E as [-> _]|done]).
    by rewrite !Hz.
Qed.

(** An inode number of an entry of the root directory. *)
Lemma root_dents_inum names k e : root_dents names !! k = Some e -> d_inum e = 1 \/ exists j, (j < length names)%nat /\ d_inum e = Z.of_nat j + 2.
Proof.
  destruct k as [|[|k]]; cbn; [intros [= <-]; by left..|]. intros Hk. right. apply list_lookup_imap_Some in Hk as (nm & Hk & ->). exists k. split; [by apply lookup_lt_Some in Hk|done].
Qed.

Section found.
Context s I (fs : list (list Z * list Z)) (V : Z -> list Z).
Context (Hmd : made s I fs) (Hnames : Forall (fun nm => Forall (fun c => 0 < c < 256) nm) (fs.*1)) (Hn : Z.of_nat (length fs) <= 198).
Context (HV : forall j, inode_no sb j -> file_bytes V (I j) = file_bytes (read_disk (disk_of s)) (I j)).

Lemma made_inode j : inode_no sb j -> I j = zero_dinode \/ j = 1 \/ (exists k, (k < length fs)%nat /\ j = Z.of_nat k + 2) /\ type (I j) = T_FILE /\ nlink (I j) = 1.
Proof.
  intros Hj. pose proof (proj1 (inode_range j) Hj) as Hr. destruct (decide (j = 0 \/ 2 + Z.of_nat (length fs) <= j)) as [Hu|Hu]; [left; by apply (md_unused _ _ _ Hmd)|right].
  destruct (decide (j = 1)); [by left|right]. destruct (lookup_lt_is_Some_2 fs (Z.to_nat (j - 2)) ltac:(lia)) as [[nm c] Hk].
  destruct (md_files _ _ _ Hmd _ _ _ Hk) as (F1 & F2 & _). replace (Z.of_nat (Z.to_nat (j - 2)) + 2) with j in * by lia. split; [|done]. exists (Z.to_nat (j - 2)). lia.
Qed.

Lemma made_bytes : exists n, file_bytes V (I 1) = dents_bytes (root_dents (fs.*1)) ++ replicate n 0.
Proof. destruct (md_root _ _ _ Hmd) as [n Hb]. exists n. rewrite HV; [done|]. apply inode_range. lia. Qed.

Lemma made_dirs : dirs_ok sb V I.
Proof.
  destruct made_bytes as [n Hb]. destruct (root_entries V (I 1) (fs.*1) n Hnames ltac:(rewrite length_fmap; lia) Hb) as [R1 R2]. destruct (md_dir _ _ _ Hmd) as (D1 & D2 & D3).
  split.
  - intros j Hj Ht. destruct (made_inode j Hj) as [E|[->|(_ & E & _)]]; [by rewrite E in Ht| |by rewrite E in Ht]. rewrite D3. unfold BSIZE, DIRENT. zlia.
  - intros j e Hj Ht He He0. destruct (made_inode j Hj) as [E|[->|(_ & E & _)]]; [by rewrite E in Ht| |by rewrite E in Ht].
    apply list_elem_of_fmap in He as (k & -> & _). destruct (decide (k < 2 + length fs)%nat) as [Hk|Hk]; [|rewrite R2 in He0 by (rewrite length_fmap; lia); done].
    destruct (lookup_lt_is_Some_2 (root_dents (fs.*1)) k) as [e He]; [by rewrite length_root_dents, length_fmap|]. rewrite (R1 k e He). destruct (root_dents_inum _ _ _ He) as [->|(i & Hi & ->)].
    + split; [apply inode_range; lia|]. by rewrite D1, D2.
    + rewrite length_fmap in Hi. assert (inode_no sb (Z.of_nat i + 2)) as Hi2 by (apply inode_range; lia). split; [done|]. destruct (lookup_lt_is_Some_2 fs i Hi) as [[nm c] Hk2].
      destruct (md_files _ _ _ Hmd _ _ _ Hk2) as (F1 & F2 & _). by rewrite F1, F2.
Qed.

(** Every stored name leads to its file, when no two are the same after 14 bytes. *)
Lemma made_walk k nm c : NoDup ([46] :: [46; 46] :: (take DIRSIZ <$> fs.*1)) -> fs !! k = Some (nm, c) -> walk V I ROOTINO [nm] = Some (Z.of_nat k + 2).
Proof.
  intros Hnd Hk. destruct made_bytes as [n Hb]. destruct (root_entries V (I 1) (fs.*1) n Hnames ltac:(rewrite length_fmap; lia) Hb) as [R1 R2]. destruct (md_dir _ _ _ Hmd) as (D1 & D2 & D3).
  assert (fs.*1 !! k = Some nm) as Hk1 by by rewrite list_lookup_fmap, Hk. pose proof (lookup_lt_Some _ _ _ Hk) as Hlt.
  assert (root_dents (fs.*1) !! S (S k) = Some (mkDirent (Z.of_nat k + 2) (pad DIRSIZ nm))) as He.
  { change (imap (fun k nm => mkDirent (Z.of_nat k + 2) (pad DIRSIZ nm)) (fs.*1) !! k = Some (mkDirent (Z.of_nat k + 2) (pad DIRSIZ nm))). by rewrite list_lookup_imap, Hk1. }
  assert (forall j e, root_dents (fs.*1) !! j = Some e -> ([46] :: [46; 46] :: (take DIRSIZ <$> fs.*1)) !! j = Some (name_of (d_name e))) as Hnm.
  { intros j e Hj. destruct j as [|[|j]]; cbn in Hj; [injection Hj as <-; by vm_compute..|]. apply list_lookup_imap_Some in Hj as (nm' & Hj & ->). 
    change ((take DIRSIZ <$> fs.*1) !! j = Some (name_of (pad DIRSIZ nm'))). rewrite list_lookup_fmap, Hj, name_of_pad; [done|]. by eapply Forall_lookup_1. }
  assert (16 * Z.of_nat (S (S k)) + 16 <= dsize (I 1)) as Hsz by (rewrite D3; unfold BSIZE; zlia).
  cbn [walk]. change ROOTINO with 1. rewrite D1, Z.eqb_refl. assert (dir_find V (I 1) (take DIRSIZ nm) = Some (S (S k), mkDirent (Z.of_nat k + 2) (pad DIRSIZ nm))) as ->; [|done].
  assert (name_of (pad DIRSIZ nm) = take DIRSIZ nm) as Hpn by (apply name_of_pad; by eapply Forall_lookup_1).
  unfold dir_find. apply list_find_Some. split; [rewrite entries_lookup by done; by rewrite (R1 _ _ He)|]. split; [split; [cbn; lia|exact Hpn]|].
  intros j e Hj Hjlt [He0 Hen]. assert (j < length (root_dents (fs.*1)))%nat as Hjl by (rewrite length_root_dents, length_fmap; lia). destruct (lookup_lt_is_Some_2 _ _ Hjl) as [e' He'].
  rewrite entries_lookup in Hj by lia. injection Hj as <-. rewrite (R1 _ _ He') in Hen. pose proof (Hnm _ _ He') as N1. pose proof (Hnm _ _ He) as N2. cbn [d_name] in N2. rewrite Hpn in N2. rewrite Hen in N1.
  pose proof (NoDup_lookup _ _ _ _ Hnd N1 N2). lia.
Qed.
End found.
End kernel.

Section boot.
Context {DS : Type} `{HDS : Devsw DS}.

Lemma empty_log_disk d : read_disk d 1 = list_inserts 0 sb_words zero_block -> read_disk d 2 = zero_block -> log_disk d 1000 2 30 [].
Proof.
  intros E1 E2. split; rewrite ?E1, ?E2; [split; unfold LOGSIZE, MAXOPBLOCKS; unfold_bounds; lia|reflexivity|reflexivity|reflexivity|reflexivity|reflexivity|cbn; lia|by intros b ?%elem_of_nil].
Qed.

Lemma stored_names files : Forall hostfile_ok files -> Forall (fun nm => Forall (fun c => 0 < c < 256) nm) ((stored <$> files).*1).
Proof.
  intros Hf. rewrite <-list_fmap_compose. apply Forall_fmap. eapply Forall_impl; [exact Hf|]. intros f [[_ Hnm] _]. cbn. by apply stored_name_ok.
Qed.

End boot.

(** ** Examples *)

(** Two files, the second read in two chunks: "README" and "_cat". *)
Definition ex_files : list hostfile :=
  [mkHost [82; 69; 65; 68; 77; 69] (Some [replicate 512 7; replicate 100 8]); mkHost [95; 99; 97; 116] (Some [[1; 2; 3]; [4]])].

#[local] Instance mkfs_no_devices : Devsw unit := {| dev_read := fun _ => None; dev_write := fun _ => None |}.

(** With 30 files the entries fill the block, and rounding the size up adds a
    block that the root directory does not have. *)
Definition thirty : list hostfile := (fun k => mkHost [97; 97 + k] (Some [])) <$> seqZ 0 30.
Lemma mkfs_root_hole : match mkfs true thirty with
  | Ok s => let d := dinode_on sb (read_disk (disk_of s)) 1 in dsize d = 1024 /\ addr_at d 0 = 59 /\ addr_at d 1 = 0
  | Err _ => False
  end.
Proof. vm_compute. auto. Qed.
