(* ===== verification/Grep.v ===== *)
(** * grep, xv6 wmap/solution/grep.c

    The pattern matcher (match, matchhere, matchstar), the line loop with its
    buffer of 1024 bytes, and main.  A C string is the list of its characters
    before the NUL; reading it past the end gives the NUL, 0. *)
From S2P Require Import Prelude Text.

(** ** The matcher *)
Definition STAR : Z := 42.
Definition DOT : Z := 46.
Definition CARET : Z := 94.
Definition DOLLAR : Z := 36.
Definition NEWLINE : Z := 10.

(** matchstar: [here] is matchhere for the rest of the pattern. *)
Fixpoint matchstar (here : list Z -> bool) (c : Z) (text : list Z) : bool :=
  if here text then true else
  match text with
  | [] => false
  | t :: text' => if (t =? c) || (c =? DOT) then matchstar here c text' else false
  end.

Fixpoint matchhere (re text : list Z) {struct re} : bool :=
  match re with
  | [] => true
  | c :: re' =>
      match re' with
      | s :: re'' =>
          if s =? STAR then matchstar (matchhere re'') c text else
          match text with
          | t :: text' => if (c =? DOT) || (c =? t) then matchhere re' text' else false
          | [] => false
          end
      | [] =>
          if c =? DOLLAR then (match text with [] => true | _ => false end) else
          match text with
          | t :: text' => if (c =? DOT) || (c =? t) then matchhere re' text' else false
          | [] => false
          end
      end
  end.

(** The loop of match over the suffixes of the text, the empty one included. *)
Fixpoint match_from (re text : list Z) : bool :=
  if matchhere re text then true else
  match text with
  | [] => false
  | _ :: text' => match_from re text'
  end.

Definition match_ (re text : list Z) : bool :=
  match re with
  | c :: re' => if c =? CARET then matchhere re' text else match_from re text
  | [] => match_from re text
  end.

(** ** The line loop *)

(** strchr for a newline: the line before it and what follows; NUL ends the search. *)
Fixpoint next_line (p : list Z) : option (list Z * list Z) :=
  match p with
  | [] => None
  | c :: p' =>
      if c =? 0 then None
      else if c =? NEWLINE then Some ([], p')
      else match next_line p' with Some (l, r) => Some (c :: l, r) | None => None end
  end.

(** The inner loop: the rest of the buffer and the output. *)
Fixpoint scan (fuel : nat) (pattern p out : list Z) : list Z * list Z :=
  match fuel with
  | O => (p, out)
  | S fuel' =>
      match next_line p with
      | None => (p, out)
      | Some (line, rest) => scan fuel' pattern rest (if match_ pattern line then out ++ line ++ [NEWLINE] else out)
      end
  end.

Definition BUFSIZE : Z := 1024.

Section grep.
Context {F : Type} (read : F -> Z -> list Z * F).

(** grep with [buf] holding the [m] bytes kept from before. *)
Fixpoint grep_loop (fuel : nat) (pattern : list Z) (f : F) (buf out : list Z) : result (list Z * F) :=
  match fuel with
  | O => Err OutOfFuel
  | S fuel' =>
      let '(chunk, f') := read f (BUFSIZE - Z.of_nat (length buf) - 1) in
      match chunk with
      | [] => Ok (out, f')
      | _ =>
          let b := buf ++ chunk in
          let '(p, out') := scan (S (length b)) pattern b out in
          grep_loop fuel' pattern f' (if (length p =? length b)%nat then [] else p) out'
      end
  end.
End grep.

(** A regular file: as many bytes as are left, up to those asked for. *)
Definition file_read (f : list Z) (n : Z) : list Z * list Z := (take (Z.to_nat n) f, drop (Z.to_nat n) f).

Definition grep (pattern file out : list Z) : result (list Z) :=
  r ← grep_loop file_read (S (length file)) pattern file [] out; Ok r.1.

(** main: the arguments after the program's name, the file on descriptor 0 and
    the files that can be opened; the outputs on descriptors 1 and 2. *)
Fixpoint grep_files (open : list Z -> option (list Z)) (pattern : list Z) (names : list (list Z)) (out : list Z) : result (list Z) :=
  match names with
  | [] => Ok out
  | n :: names' =>
      match open n with
      | None => Ok (out ++ chr "grep: cannot open " ++ n ++ [NEWLINE])
      | Some file => out' ← grep pattern file out; grep_files open pattern names' out'
      end
  end.

Definition main (open : list Z -> option (list Z)) (stdin : list Z) (args : list (list Z)) : result (list Z * list Z) :=
  match args with
  | [] => Ok ([], chr "usage: grep pattern [file ...]" ++ [NEWLINE])
  | [pattern] => out ← grep pattern stdin []; Ok (out, [])
  | pattern :: names => out ← grep_files open pattern names []; Ok (out, [])
  end.

(** ** What a pattern means *)

Inductive atom : Type := AChar (c : Z) | AAny.
Inductive item : Type := One (a : atom) | Rep (a : atom) | Eol.

Definition atom_of (c : Z) : atom := if c =? DOT then AAny else AChar c.
Definition accepts (a : atom) (t : Z) : Prop := match a with AAny => True | AChar c => t = c end.

(** A star repeats the character before it, whatever that is; a dollar sign is
    the end of the text when it ends the pattern. *)
Fixpoint parse (re : list Z) : list item :=
  match re with
  | [] => []
  | c :: re' =>
      match re' with
      | s :: re'' => if s =? STAR then Rep (atom_of c) :: parse re'' else One (atom_of c) :: parse re'
      | [] => if c =? DOLLAR then [Eol] else [One (atom_of c)]
      end
  end.

(** The items match the text from its beginning. *)
Inductive denotes : list item -> list Z -> Prop :=
  | d_nil text : denotes [] text
  | d_one a its t text : accepts a t -> denotes its text -> denotes (One a :: its) (t :: text)
  | d_rep a its ts text : Forall (accepts a) ts -> denotes its text -> denotes (Rep a :: its) (ts ++ text)
  | d_eol : denotes [Eol] [].

(** The pattern, read as literal characters, dots, repetitions and a final end
    anchor, describes a beginning of the text (with a leading caret) or of one
    of its suffixes (without). *)
Definition matches (re text : list Z) : Prop :=
  match re with
  | 94 :: re' => denotes (parse re') text
  | _ => exists pre post, text = pre ++ post /\ denotes (parse re) post
  end.

Section matcher.

Lemma atom_of_accepts c t : ((t =? c) || (c =? DOT)) = true <-> accepts (atom_of c) t.
Proof. unfold atom_of, accepts. destruct (Z.eqb_spec t c), (Z.eqb_spec c DOT); cbn; naive_solver. Qed.

Lemma atom_of_accepts' c t : ((c =? DOT) || (c =? t)) = true <-> accepts (atom_of c) t.
Proof. rewrite <-atom_of_accepts, orb_comm, (Z.eqb_sym t c). done. Qed.

Lemma matchstar_spec here c text : matchstar here c text = true <->
  exists ts rest, text = ts ++ rest /\ Forall (accepts (atom_of c)) ts /\ here rest = true.
Proof.
  induction text as [|t text IH]; cbn [matchstar].
  - destruct (here []) eqn:E; split; try done.
    + intros _. by exists [], [].
    + intros (ts & rest & Heq & _ & Hr). symmetry in Heq. apply app_eq_nil in Heq as [-> ->]. congruence.
  - destruct (here (t :: text)) eqn:E; [split; [intros _; by exists [], (t :: text)|done]|].
    destruct ((t =? c) || (c =? DOT)) eqn:Et.
    + apply atom_of_accepts in Et. rewrite IH. split.
      * intros (ts & rest & -> & Hts & Hr). exists (t :: ts), rest. split_and!; [done|by constructor|done].
      * intros ([|t' ts] & rest & Heq & Hts & Hr); [cbn in Heq; subst; congruence|]. injection Heq as -> ->. apply Forall_cons in Hts as [_ Hts]. by exists ts, rest.
    + split; [done|]. intros ([|t' ts] & rest & Heq & Hts & Hr); [cbn in Heq; subst; congruence|]. injection Heq as -> ->.
      apply Forall_cons in Hts as [Ht _]. apply atom_of_accepts in Ht. congruence.
Qed.

Lemma denotes_one a its text : denotes (One a :: its) text <-> exists t text', text = t :: text' /\ accepts a t /\ denotes its text'.
Proof. split; [intros H; inversion H; subst; eauto|intros (t & text' & -> & Ha & Hd); by constructor]. Qed.
Lemma denotes_rep a its text : denotes (Rep a :: its) text <-> exists ts rest, text = ts ++ rest /\ Forall (accepts a) ts /\ denotes its rest.
Proof. split; [intros H; inversion H; subst; eauto|intros (t & text' & -> & Ha & Hd); by constructor]. Qed.

Lemma match_one c re text : (forall text, matchhere re text = true <-> denotes (parse re) text) ->
  match text with t :: text' => if (c =? DOT) || (c =? t) then matchhere re text' else false | [] => false end = true <->
  denotes (One (atom_of c) :: parse re) text.
Proof.
  intros IH. rewrite denotes_one. destruct text as [|t text]; [split; [done|by intros (? & ? & ? & _)]|].
  destruct ((c =? DOT) || (c =? t)) eqn:E.
  - apply atom_of_accepts' in E. rewrite IH. split; [intros Hd; by exists t, text|]. by intros (? & ? & [= <- <-] & _ & ?).
  - split; [done|]. intros (? & ? & [= <- <-] & Ha & _). apply atom_of_accepts' in Ha. congruence.
Qed.

Lemma matchhere_spec re text : matchhere re text = true <-> denotes (parse re) text.
Proof.
  remember (length re) as n eqn:Hn. revert re text Hn. induction (lt_wf n) as [n _ IH]. intros re text ->.
  destruct re as [|c re]; [cbn; split; [intros _; constructor|done]|]. destruct re as [|s re].
  - cbn [matchhere parse]. destruct (Z.eqb_spec c DOLLAR) as [->|].
    + destruct text; split; intros H; try done; [constructor|inversion H].
    + apply (match_one c []). intros text'. apply (IH 0%nat); [cbn; lia|done].
  - change (matchhere (c :: s :: re) text) with (if s =? STAR then matchstar (matchhere re) c text else
      match text with t :: text' => if (c =? DOT) || (c =? t) then matchhere (s :: re) text' else false | [] => false end).
    change (parse (c :: s :: re)) with (if s =? STAR then Rep (atom_of c) :: parse re else One (atom_of c) :: parse (s :: re)).
    destruct (s =? STAR).
    + rewrite matchstar_spec, denotes_rep. assert (forall rest, matchhere re rest = true <-> denotes (parse re) rest) as Hre.
      { intros rest. apply (IH (length re)); [cbn; lia|done]. }
      split; intros (ts & rest & H1 & H2 & H3); exists ts, rest; (split_and!; [done|done|by apply Hre]).
    + apply match_one. intros text'. apply (IH (length (s :: re))); [cbn; lia|done].
Qed.

Lemma match_from_spec re text : match_from re text = true <-> exists pre post, text = pre ++ post /\ matchhere re post = true.
Proof.
  induction text as [|t text IH]; cbn [match_from].
  - destruct (matchhere re []) eqn:E; split; try done.
    + intros _. by exists [], [].
    + intros (pre & post & Heq & Hm). symmetry in Heq. apply app_eq_nil in Heq as [-> ->]. congruence.
  - destruct (matchhere re (t :: text)) eqn:E; [split; [intros _; by exists [], (t :: text)|done]|]. rewrite IH. split.
    + intros (pre & post & -> & Hm). by exists (t :: pre), post.
    + intros ([|t' pre] & post & Heq & Hm); [cbn in Heq; subst; congruence|]. injection Heq as -> ->. by exists pre, post.
Qed.

(** The matcher implements its patterns. *)
Theorem match_correct re text : match_ re text = true <-> matches re text.
Proof.
  unfold matches.
  assert (match_from re text = true <-> exists pre post, text = pre ++ post /\ denotes (parse re) post) as Hfrom.
  { rewrite match_from_spec. by setoid_rewrite matchhere_spec. }
  unfold match_. destruct re as [|c re]; [exact Hfrom|]. destruct (Z.eqb_spec c CARET) as [->|Hne].
  - apply matchhere_spec.
  - destruct c as [|c|c]; try exact Hfrom. do 7 (destruct c as [c|c|]; try exact Hfrom). by destruct Hne.
Qed.
End matcher.

(** ** Which lines grep prints *)

(** A line with its newline, that fits the buffer. *)
Definition line_ok (l : list Z) : Prop :=
  exists w, l = w ++ [NEWLINE] /\ NEWLINE ∉ w /\ 0 ∉ w /\ Z.of_nat (length l) < BUFSIZE.

(** The text of a line. *)
Definition text_of (l : list Z) : list Z := take (length l - 1) l.

Definition selected (pattern : list Z) (ls : list (list Z)) : list Z :=
  concat (filter (fun l => match_ pattern (text_of l) = true) ls).

(** The lines that match, in order. *)
Inductive chosen (pattern : list Z) : list (list Z) -> list (list Z) -> Prop :=
  | chosen_nil : chosen pattern [] []
  | chosen_match w ls ps : matches pattern w -> chosen pattern ls ps ->
      chosen pattern ((w ++ [NEWLINE]) :: ls) ((w ++ [NEWLINE]) :: ps)
  | chosen_other w ls ps : ~ matches pattern w -> chosen pattern ls ps ->
      chosen pattern ((w ++ [NEWLINE]) :: ls) ps.

Section lines.

Lemma text_of_line w : text_of (w ++ [NEWLINE]) = w.
Proof. unfold text_of. rewrite length_app. cbn. rewrite Nat.add_sub. by rewrite take_app_length. Qed.

Lemma next_line_none p : NEWLINE ∉ p -> next_line p = None.
Proof.
  induction p as [|c p IH]; intros Hp; [done|]. apply not_elem_of_cons in Hp as [Hc Hp]. cbn [next_line].
  destruct (c =? 0); [done|]. rewrite (proj2 (Z.eqb_neq c NEWLINE)) by done. by rewrite IH.
Qed.

Lemma next_line_some w rest : NEWLINE ∉ w -> 0 ∉ w -> next_line (w ++ NEWLINE :: rest) = Some (w, rest).
Proof.
  induction w as [|c w IH]; intros Hn H0; [done|]. apply not_elem_of_cons in Hn as [Hc Hn], H0 as [Hc0 H0]. cbn [next_line app].
  rewrite (proj2 (Z.eqb_neq c 0)), (proj2 (Z.eqb_neq c NEWLINE)) by done. by rewrite IH.
Qed.

(** Complete lines are printed or not; the rest stays. *)
Lemma scan_lines pattern ls tail fuel out : Forall line_ok ls -> NEWLINE ∉ tail -> (length ls < fuel)%nat ->
  scan fuel pattern (concat ls ++ tail) out = (tail, out ++ selected pattern ls).
Proof.
  intros Hls Ht. revert fuel out. induction Hls as [|l ls (w & -> & Hn & H0 & _) Hls IH]; intros [|fuel] out Hf; cbn [length] in Hf; try lia; cbn [scan].
  - cbn. rewrite next_line_none by done. by rewrite app_nil_r.
  - cbn [concat]. rewrite <-!app_assoc. cbn [app]. rewrite next_line_some by done. rewrite IH by lia. unfold selected. rewrite filter_cons, text_of_line.
    destruct (match_ pattern w); [rewrite decide_True by done|by rewrite decide_False]. cbn [concat]. by rewrite <-!app_assoc.
Qed.

(** The first [n] bytes of some lines: whole lines and the beginning of one. *)
Lemma take_lines ls n : Forall line_ok ls -> exists ls1 ls2 tail, ls = ls1 ++ ls2 /\ take n (concat ls) = concat ls1 ++ tail /\ NEWLINE ∉ tail /\
  (length tail <= n)%nat /\ (ls2 = [] -> tail = []) /\ (ls <> [] -> (1023 <= n)%nat -> ls1 <> []).
Proof.
  intros Hls. revert n. induction Hls as [|l ls (w & -> & Hn & H0 & Hl) Hls IH]; intros n.
  { exists [], [], []. split_and!; try done; [by destruct n|apply not_elem_of_nil|cbn; lia]. }
  destruct (decide (length (w ++ [NEWLINE]) <= n)%nat) as [Hle|Hgt].
  - destruct (IH (n - length (w ++ [NEWLINE]))%nat) as (ls1 & ls2 & tail & -> & H1 & H2 & H3 & H4 & _). exists ((w ++ [NEWLINE]) :: ls1), ls2, tail.
    split_and!; try done; [|lia]. cbn [concat]. by rewrite take_app_ge, H1, app_assoc.
  - exists [], ((w ++ [NEWLINE]) :: ls), (take n w). rewrite length_app in Hgt. cbn in Hgt. split_and!; try done.
    + cbn [concat app]. rewrite <-app_assoc. by rewrite take_app_le by lia.
    + intros (i & Hi & _)%elem_of_take. apply Hn. by eapply list_elem_of_lookup_2.
    + rewrite length_take. lia.
    + intros _ Hbig. unfold BUFSIZE in Hl. rewrite length_app in Hl. cbn in Hl. lia.
Qed.
End lines.

Section grep_correct.

Lemma grep_loop_lines fuel pattern file buf ls out : Forall line_ok ls -> buf ++ file = concat ls -> NEWLINE ∉ buf ->
  Z.of_nat (length buf) < BUFSIZE -> (length file < fuel)%nat ->
  grep_loop file_read fuel pattern file buf out = Ok (out ++ selected pattern ls, []).
Proof.
  revert file buf ls out. induction fuel as [|fuel IH]; intros file buf ls out Hls Hcat Hbuf Hlen Hf; [lia|]. cbn [grep_loop]. unfold file_read at 1.
  set (n := Z.to_nat (BUFSIZE - Z.of_nat (length buf) - 1)).
  destruct file as [|c file].
  { rewrite take_nil, drop_nil. rewrite app_nil_r in Hcat. destruct ls as [|l ls]; [by rewrite app_nil_r|]. exfalso. apply Hbuf. rewrite Hcat.
    apply Forall_cons in Hls as [(w & -> & _) _]. cbn. rewrite <-app_assoc. apply elem_of_app. right. apply list_elem_of_here. }
  assert (ls <> []) as Hne by (intros ->; by apply app_eq_nil in Hcat as [_ ?]).
  assert (0 < n)%nat as Hn.
  { destruct ls as [|l ls]; [done|]. apply Forall_cons in Hls as [(w & -> & Hw1 & Hw2 & Hl) _]. cbn [concat] in Hcat. rewrite <-app_assoc in Hcat.
    assert (length buf <= length w)%nat; [|rewrite length_app in Hl; cbn in Hl; unfold n; lia].
    destruct (decide (length buf <= length w)%nat) as [|Hgt]; [done|]. exfalso. apply Hbuf. cbn [app] in Hcat.
    assert (buf !! length w = Some NEWLINE) as Hx.
    { assert ((buf ++ c :: file) !! length w = Some NEWLINE) as Hx by (rewrite Hcat; apply list_lookup_middle; done). by rewrite lookup_app_l in Hx by lia. }
    by eapply list_elem_of_lookup_2. }
  destruct (take n (c :: file)) as [|c' chunk] eqn:Et; [destruct n; [lia|done]|]. rewrite <-Et. clear c' chunk Et.
  assert (buf ++ take n (c :: file) = take 1023 (concat ls)) as Hb.
  { rewrite <-Hcat, take_app. f_equal; [symmetry; apply take_ge; unfold BUFSIZE in Hlen; lia|]. f_equal. unfold n, BUFSIZE. lia. }
  destruct (take_lines ls 1023 Hls) as (ls1 & ls2 & tail & -> & Htk & Htail & Hlt & _ & Hprog). specialize (Hprog Hne ltac:(lia)).
  apply Forall_app in Hls as [Hls1 Hls2].
  assert (length ls1 <= length (concat ls1))%nat as Hl1.
  { clear -Hls1. induction Hls1 as [|l ls (w & -> & _) _ IH]; [done|]. cbn [concat length]. rewrite !length_app. cbn. lia. }
  rewrite Hb, Htk, (scan_lines pattern ls1 tail) by (try done; rewrite length_app; lia).
  assert (length ls1 <> 0)%nat as Hpos by (by destruct ls1).
  rewrite (proj2 (Nat.eqb_neq _ _)) by (rewrite length_app; lia).
  rewrite (IH (drop n (c :: file)) tail ls2).
  - unfold selected. rewrite filter_app, concat_app, app_assoc. done.
  - done.
  - apply (app_inv_head (concat ls1)). rewrite app_assoc, <-Htk, <-Hb, <-app_assoc, take_drop, Hcat, concat_app. done.
  - done.
  - unfold BUFSIZE. lia.
  - rewrite length_drop. cbn [length] in *. lia.
Qed.

Lemma selected_chosen pattern ls : Forall line_ok ls ->
  chosen pattern ls (filter (fun l => match_ pattern (text_of l) = true) ls).
Proof.
  induction 1 as [|l ls (w & -> & _) _ IH]; [constructor|]. rewrite filter_cons, text_of_line.
  destruct (match_ pattern w) eqn:E; [rewrite decide_True by done|rewrite decide_False by done]; constructor; try done.
  - by apply match_correct.
  - intros Hm%match_correct. congruence.
Qed.

(** C39: grep prints the lines that match.  On a regular file (a read gives as
    many bytes as were asked for while there are any) whose lines all end with a
    newline, hold no NUL and fit the buffer of 1023 bytes, grep always ends and
    prints exactly the lines that the pattern describes, in order, whatever the
    file's length and wherever the reads cut it.  What a pattern describes is
    its meaning as literal characters, dots, repetitions and anchors.  (A last
    line without a newline, and the beginning of a line at the end of a short
    read, are dropped: see grep_drops_partial_lines.) *)
Theorem grep_correct pattern ls out : Forall line_ok ls ->
  exists printed, grep pattern (concat ls) out = Ok (out ++ concat printed) /\ chosen pattern ls printed.
Proof.
  intros Hls. eexists. split; [|by apply selected_chosen]. unfold grep.
  erewrite (grep_loop_lines _ pattern (concat ls) [] ls); try done; [apply not_elem_of_nil|lia].
Qed.
End grep_correct.

Definition ex_lines : list (list Z) := [chr "abc" ++ [10]; chr "xabc" ++ [10]].
Lemma grep_correct_witness : exists printed,
  grep (chr "^a.*c$") (chr "abc" ++ [10] ++ chr "xabc" ++ [10]) [] = Ok (concat printed) /\
  chosen (chr "^a.*c$") ex_lines printed /\ concat printed = chr "abc" ++ [10].
Proof.
  destruct (grep_correct (chr "^a.*c$") ex_lines []) as (printed & E & Hc).
  - repeat constructor; eexists; (split; [reflexivity|]); split_and!; try done; vm_compute; intros H; repeat (inversion H; subst; clear H; rename select (_ ∈ _) into H).
  - exists printed. split; [exact E|split; [exact Hc|]]. vm_compute in E. injection E as E. symmetry. exact E.
Defined.

(** Reads of a few bytes each, as from a pipe or the console. *)
Definition chunk_read (cs : list (list Z)) (n : Z) : list Z * list (list Z) :=
  match cs with [] => ([], []) | c :: cs' => (take (Z.to_nat n) c, match drop (Z.to_nat n) c with [] => cs' | r => r :: cs' end) end.

(** A read without a newline empties the buffer: the beginning of a line that
    arrives in two pieces is lost, and so is a last line without a newline. *)
Lemma grep_drops_partial_lines :
  grep_loop chunk_read 9 (chr "ab") [chr "a"; chr "b" ++ [10]] [] [] = Ok ([], []) /\
  grep (chr "ab") (chr "ab" ++ [10] ++ chr "ab") [] = Ok (chr "ab" ++ [10]).
Proof. by vm_compute. Qed.
