(* ===== verification/Shell.v ===== *)
(** * The shell's command lines, xv6 wmap/solution/sh.c

    parsecmd reads a NUL-terminated line by recursive descent without a lexer of
    its own: strings of the command are pairs of pointers into the line, which
    nulterminate ends with NULs once the whole line is parsed.  Pointers are
    positions in the buffer; panic, which prints and exits, is [Exit 0].  malloc
    is taken to succeed.  A token grammar is the reference. *)
From S2P Require Import Prelude Text.

Definition MAXARGS : nat := 10.
Definition O_RDONLY : Z := 0.
Definition O_WRONLY : Z := 1.
Definition O_CREATE : Z := 512.

(** Commands, over a type of strings: pairs of pointers for the code. *)
Inductive cmd (A : Type) : Type :=
  | EXEC (argv : list A)
  | REDIR (c : cmd A) (file : A) (mode fd : Z)
  | PIPE (left right : cmd A)
  | LIST (left right : cmd A)
  | BACK (c : cmd A).
Arguments EXEC {A}.
Arguments REDIR {A}.
Arguments PIPE {A}.
Arguments LIST {A}.
Arguments BACK {A}.

#[export] Instance cmd_eq_dec {A} `{EqDecision A} : EqDecision (cmd A).
Proof. solve_decision. Defined.

Notation ptrs := (nat * nat)%type.

Definition whitespace : list Z := [32; 9; 13; 10; 11].
Definition symbols : list Z := chr "<|>&;()".

(** strchr on a set of characters: NUL is not found. *)
Definition strchr (set : list Z) (c : Z) : bool := bool_decide (c ∈ set).

(** ** Scanning: [buf] is the line, [es] its end, the state the position *)
Section scan.
Variables (buf : list Z) (es : nat).

Definition char_at (s : nat) : result Z := match buf !! s with Some c => Ok c | None => Err Undefined end.

(** while(s < es && p( *s )) s++ *)
Fixpoint skip_while (n : nat) (p : Z -> bool) (s : nat) : result nat :=
  match n with
  | O => Ok s
  | S n' => c ← char_at s; if p c then skip_while n' p (S s) else Ok s
  end.
Definition skip_ws (s : nat) : result nat := skip_while (es - s) (strchr whitespace) s.
Definition skip_word (s : nat) : result nat := skip_while (es - s) (fun c => negb (strchr whitespace c) && negb (strchr symbols c)) s.

(** The token and the pointers q and eq. *)
Definition gettoken : M nat (Z * ptrs) :=
  s ← get;
  q ← lift (skip_ws s);
  c ← lift (char_at q);
  '(ret, eq) ← lift (
    if c =? 0 then Ok (0, q)
    else if strchr (chr "|();&<") c then Ok (c, S q)
    else if c =? 62 then (d ← char_at (S q); if d =? 62 then Ok (43, S (S q)) else Ok (c, S q))
    else e ← skip_word q; Ok (97, e));
  s' ← lift (skip_ws eq);
  _ ← put s';
  mret (ret, (q, eq)).

Definition peek (toks : list Z) : M nat bool :=
  s ← get;
  s' ← lift (skip_ws s);
  _ ← put s';
  c ← lift (char_at s');
  mret (negb (c =? 0) && strchr toks c).

(** ** Parsing *)
Definition panic {A} : M nat A := fail (Exit 0).

Fixpoint parseredirs (fuel : nat) (c : cmd ptrs) : M nat (cmd ptrs) :=
  match fuel with
  | O => fail OutOfFuel
  | S fuel' =>
      b ← peek (chr "<>");
      if negb (b : bool) then mret c else
      '(tok, _) ← gettoken;
      '(t, q) ← gettoken;
      if negb (t =? 97) then panic else
      parseredirs fuel' (if tok =? 60 then REDIR c q O_RDONLY 0
                         else if tok =? 62 then REDIR c q (Z.lor O_WRONLY O_CREATE) 1
                         else if tok =? 43 then REDIR c q (Z.lor O_WRONLY O_CREATE) 1
                         else c)
  end.

(** The EXEC node that parseexec still fills is at the bottom of [ret]. *)
Fixpoint add_arg {A} (ret : cmd A) (q : A) : cmd A :=
  match ret with
  | EXEC argv => EXEC (argv ++ [q])
  | REDIR c f m d => REDIR (add_arg c q) f m d
  | _ => ret
  end.

Fixpoint parseargs (fuel : nat) (argc : nat) (ret : cmd ptrs) : M nat (cmd ptrs) :=
  match fuel with
  | O => fail OutOfFuel
  | S fuel' =>
      b ← peek (chr "|)&;");
      if b : bool then mret ret else
      '(tok, q) ← gettoken;
      if tok =? 0 then mret ret
      else if negb (tok =? 97) then panic
      else if (MAXARGS <=? S argc)%nat then panic
      else ret ← parseredirs (S es) (add_arg ret q); parseargs fuel' (S argc) ret
  end.

Fixpoint backs (fuel : nat) (c : cmd ptrs) : M nat (cmd ptrs) :=
  match fuel with
  | O => fail OutOfFuel
  | S fuel' =>
      b ← peek (chr "&");
      if negb (b : bool) then mret c else _ ← gettoken; backs fuel' (BACK c)
  end.

Fixpoint parseline (fuel : nat) : M nat (cmd ptrs) :=
  match fuel with
  | O => fail OutOfFuel
  | S fuel' =>
      cmd ← parsepipe fuel';
      cmd ← backs (S es) cmd;
      b ← peek (chr ";");
      if negb (b : bool) then mret cmd else
      _ ← gettoken;
      right ← parseline fuel';
      mret (LIST cmd right)
  end
with parsepipe (fuel : nat) : M nat (cmd ptrs) :=
  match fuel with
  | O => fail OutOfFuel
  | S fuel' =>
      cmd ← parseexec fuel';
      b ← peek (chr "|");
      if negb (b : bool) then mret cmd else
      _ ← gettoken;
      right ← parsepipe fuel';
      mret (PIPE cmd right)
  end
with parseexec (fuel : nat) : M nat (cmd ptrs) :=
  match fuel with
  | O => fail OutOfFuel
  | S fuel' =>
      b ← peek (chr "(");
      if b : bool then parseblock fuel' else
      ret ← parseredirs (S es) (EXEC []);
      parseargs (S es) 0 ret
  end
with parseblock (fuel : nat) : M nat (cmd ptrs) :=
  match fuel with
  | O => fail OutOfFuel
  | S fuel' =>
      b ← peek (chr "(");
      if negb (b : bool) then panic else
      _ ← gettoken;
      cmd ← parseline fuel';
      b ← peek (chr ")");
      if negb (b : bool) then panic else
      _ ← gettoken;
      parseredirs (S es) cmd
  end.
End scan.

(** ** parsecmd *)
Definition write_nul (i : nat) : M (list Z) unit :=
  buf ← get; if decide (i < length buf)%nat then put (<[i := 0]> buf) else fail Undefined.

Fixpoint nul_args (argv : list ptrs) : M (list Z) unit :=
  match argv with [] => mret tt | (_, eq) :: argv' => _ ← write_nul eq; nul_args argv' end.

Fixpoint nulterminate (c : cmd ptrs) : M (list Z) unit :=
  match c with
  | EXEC argv => nul_args argv
  | REDIR c (_, efile) _ _ => _ ← nulterminate c; write_nul efile
  | PIPE l r | LIST l r => _ ← nulterminate l; nulterminate r
  | BACK c => nulterminate c
  end.

Definition strlen (buf : list Z) : result nat :=
  let n := length (until_nul buf) in if decide (n < length buf)%nat then Ok n else Err Undefined.

(** Four levels of functions for every character of the line. *)
Definition parse_fuel (es : nat) : nat := 4 * es + 4.

Definition parsecmd : M (list Z) (cmd ptrs) :=
  buf ← get;
  es ← lift (strlen buf);
  '(cmd, s) ← lift (parseline buf es (parse_fuel es) 0%nat);
  '(_, s) ← lift (peek buf es [] s);
  if negb (Nat.eqb s es) then fail (Exit 0) else
  _ ← nulterminate cmd;
  mret cmd.

(** A string of the command, as exec and open will read it. *)
Definition string_at (buf : list Z) (q : ptrs) : list Z := until_nul (drop q.1 buf).
Fixpoint cmd_map {A B} (f : A -> B) (c : cmd A) : cmd B :=
  match c with
  | EXEC argv => EXEC (f <$> argv)
  | REDIR c file mode fd => REDIR (cmd_map f c) (f file) mode fd
  | PIPE l r => PIPE (cmd_map f l) (cmd_map f r)
  | LIST l r => LIST (cmd_map f l) (cmd_map f r)
  | BACK c => BACK (cmd_map f c)
  end.
Definition view (buf : list Z) : cmd ptrs -> cmd (list Z) := cmd_map (string_at buf).

(** ** The reference: tokens and a grammar of token lists *)
Inductive token : Type := TWord (w : list Z) | TSym (c : Z) | TApp.

Definition flush (cur : list Z) (ts : list token) : list token := match cur with [] => ts | _ => TWord cur :: ts end.

(** The tokens of a text, after the characters [cur] of a word. *)
Fixpoint lex (cur s : list Z) : list token :=
  match s with
  | [] => flush cur []
  | c :: s' =>
      if strchr whitespace c then flush cur (lex [] s')
      else if strchr symbols c then
        flush cur (if c =? 62 then
                     match s' with
                     | d :: s'' => if d =? 62 then TApp :: lex [] s'' else TSym c :: lex [] s'
                     | [] => [TSym c]
                     end
                   else TSym c :: lex [] s')
      else lex (cur ++ [c]) s'
  end.
Definition tokens (s : list Z) : list token := lex [] s.

Inductive redir_op : Type := RIn | ROut | RAppend.
Definition op_token (o : redir_op) : token := match o with RIn => TSym 60 | ROut => TSym 62 | RAppend => TApp end.
Definition op_mode (o : redir_op) : Z := match o with RIn => O_RDONLY | _ => Z.lor O_WRONLY O_CREATE end.
Definition op_fd (o : redir_op) : Z := match o with RIn => 0 | _ => 1 end.

(** A redirection of [c], and an item of a simple command. *)
Definition redirect (c : cmd (list Z)) (r : redir_op * list Z) : cmd (list Z) := REDIR c r.2 (op_mode r.1) (op_fd r.1).
Definition redir_tokens (r : redir_op * list Z) : list token := [op_token r.1; TWord r.2].
Definition item : Type := list Z + redir_op * list Z.
Definition item_tokens (i : item) : list token := match i with inl w => [TWord w] | inr r => redir_tokens r end.
Definition words_of (its : list item) : list (list Z) := omap (fun i => match i with inl w => Some w | inr _ => None end) its.
Definition redirs_of (its : list item) : list (redir_op * list Z) := omap (fun i => match i with inl _ => None | inr r => Some r end) its.

Inductive line : list token -> cmd (list Z) -> Prop :=
  | line_last ts c n : pipeline ts c -> line (ts ++ replicate n (TSym 38)) (Nat.iter n BACK c)
  | line_seq ts c n ts' c' : pipeline ts c -> line ts' c' -> line (ts ++ replicate n (TSym 38) ++ TSym 59 :: ts') (LIST (Nat.iter n BACK c) c')
with pipeline : list token -> cmd (list Z) -> Prop :=
  | pipe_one ts c : simple ts c -> pipeline ts c
  | pipe_more ts c ts' c' : simple ts c -> pipeline ts' c' -> pipeline (ts ++ TSym 124 :: ts') (PIPE c c')
with simple : list token -> cmd (list Z) -> Prop :=
  | simple_items its : (length (words_of its) < MAXARGS)%nat -> simple (its ≫= item_tokens) (foldl redirect (EXEC (words_of its)) (redirs_of its))
  | simple_block ts c rs : line ts c -> simple (TSym 40 :: ts ++ TSym 41 :: (rs ≫= redir_tokens)) (foldl redirect c rs).

Scheme line_mind := Minimality for line Sort Prop
  with pipeline_mind := Minimality for pipeline Sort Prop
  with simple_mind := Minimality for simple Sort Prop.
Combined Scheme grammar_ind from line_mind, pipeline_mind, simple_mind.

(** ** Scanning *)
Definition is_word (c : Z) : bool := negb (strchr whitespace c) && negb (strchr symbols c).
(** The text starts outside a word. *)
Definition word_end (l : list Z) : Prop := match l with [] => True | c :: _ => is_word c = false end.

Lemma lex_word cur w l : Forall (fun c => is_word c = true) w -> word_end l -> cur ++ w <> [] -> lex cur (w ++ l) = TWord (cur ++ w) :: lex [] l.
Proof.
  intros Hw. revert cur. induction Hw as [|c w Hc Hw IH]; intros cur Hl Hne.
  - rewrite app_nil_r in *. cbn [app]. destruct cur as [|d cur]; [done|]. destruct l as [|c l]; [done|]. cbn in Hl. unfold is_word in Hl. cbn [lex].
    destruct (strchr whitespace c); [done|]. destruct (strchr symbols c); done.
  - unfold is_word in Hc. apply andb_true_iff in Hc as [H1%negb_true_iff H2%negb_true_iff]. cbn [lex app]. rewrite H1, H2.
    rewrite IH; [by rewrite <-app_assoc|done|by destruct cur].
Qed.

Section scanning.
Variables (str tail : list Z).
Hypothesis no_nul : Forall (fun c => c <> 0) str.
Notation buf := (str ++ 0 :: tail).
Notation es := (length str).
Notation toks s := (tokens (drop s str)).

(** What is at position [s]. *)
Lemma at_pos s : (s <= es)%nat -> match drop s str with
  | [] => s = es /\ char_at buf s = Ok 0
  | c :: l => (s < es)%nat /\ drop (S s) str = l /\ c <> 0 /\ char_at buf s = Ok c end.
Proof.
  intros Hs. unfold char_at. destruct (decide (s = es)) as [->|Hne].
  - rewrite drop_all. split; [done|]. by rewrite lookup_app_r, Nat.sub_diag by lia.
  - destruct (lookup_lt_is_Some_2 str s) as [c Hc]; [lia|]. rewrite (drop_S _ c) by done. split; [lia|]. split; [done|].
    split; [by eapply (Forall_lookup_1 (fun c => c <> 0))|]. rewrite lookup_app_l by lia. by rewrite Hc.
Qed.

Lemma skip_while_spec p n s : (s + n = es)%nat -> exists s' w, skip_while buf n p s = Ok s' /\ (s <= s' <= es)%nat /\
  drop s str = w ++ drop s' str /\ s' = (s + length w)%nat /\ Forall (fun c => p c = true) w /\ match drop s' str with [] => True | c :: _ => p c = false end.
Proof.
  revert s. induction n as [|n IH]; intros s Hn; cbn [skip_while].
  - exists s, []. rewrite drop_ge by lia. split; [done|]. split; [lia|]. split; [done|]. split; [cbn; lia|]. done.
  - pose proof (at_pos s ltac:(lia)) as Hat. destruct (drop s str) as [|c l] eqn:E; [lia|]. destruct Hat as (_ & Hd & _ & ->). cbn [mbind result_bind].
    destruct (p c) eqn:Ep.
    + destruct (IH (S s)) as (s' & w & -> & Hs' & Hw & Hl & Hall & Hend); [lia|]. exists s', (c :: w). rewrite <-Hd, Hw. split; [done|]. split; [lia|]. split; [done|]. split; [cbn; lia|]. split; [by constructor|done].
    + exists s, []. rewrite E. split; [done|]. split; [lia|]. split; [done|]. split; [cbn; lia|]. done.
Qed.

Definition not_ws (l : list Z) : Prop := match l with [] => True | c :: _ => strchr whitespace c = false end.

Lemma tokens_ws w l : Forall (fun c => strchr whitespace c = true) w -> tokens (w ++ l) = tokens l.
Proof. intros Hw. induction Hw as [|c w Hc Hw IH]; [done|]. cbn [app]. unfold tokens in *. cbn [lex]. by rewrite Hc. Qed.

Lemma skip_ws_spec s : (s <= es)%nat -> exists s', skip_ws buf es s = Ok s' /\ (s <= s' <= es)%nat /\ toks s' = toks s /\ not_ws (drop s' str).
Proof.
  intros Hs. destruct (skip_while_spec (strchr whitespace) (es - s) s) as (s' & w & E & Hs' & Hw & _ & Hall & Hend); [lia|]. exists s'.
  split; [done|]. split; [done|]. split; [by rewrite Hw, tokens_ws|done].
Qed.

(** A token starts with one of these characters. *)
Definition starts (set : list Z) (ts : list token) : bool := match ts with TSym c :: _ => strchr set c | TApp :: _ => strchr set 62 | _ => false end.

Lemma strchr_sub set c : Forall (fun d => d ∈ symbols) set -> strchr set c = true -> strchr symbols c = true.
Proof. unfold strchr. rewrite !bool_decide_eq_true. intros Hs Hc. rewrite Forall_forall in Hs. by apply Hs. Qed.

Lemma tokens_head s : (s <= es)%nat -> not_ws (drop s str) -> match drop s str with
  | [] => toks s = []
  | c :: _ => if strchr symbols c then starts [c] (toks s) = true /\ (forall set, starts set (toks s) = strchr set c)
              else exists w l, toks s = TWord w :: l end.
Proof.
  intros Hs Hws. destruct (drop s str) as [|c l] eqn:Ed; [done|]. unfold tokens. cbn [not_ws] in Hws. cbn [lex]. rewrite Hws. destruct (strchr symbols c) eqn:Esym.
  - cbn [flush]. assert (strchr [c] c = true) as Hcc by (unfold strchr; apply bool_decide_eq_true; set_solver).
    destruct (Z.eqb_spec c 62) as [->|_]; [|done]. destruct l as [|d l]; [done|]. by destruct (d =? 62).
  - assert (exists w r, c :: l = w ++ r /\ w <> [] /\ Forall (fun c => is_word c = true) w /\ word_end r) as (w & r & Hl & Hne & Hw & Hr).
    { assert (is_word c = true) as Hc by (unfold is_word; by rewrite Hws, Esym). clear -Hc. revert c Hc. induction l as [|d l IH]; intros c Hc.
      - exists [c], []. split; [done|]. split; [done|]. split; [by repeat constructor|done].
      - destruct (is_word d) eqn:Ew; [|exists [c], (d :: l); split; [done|]; split; [done|]; split; [by repeat constructor|done]].
        destruct (IH d Ew) as (w & r & -> & ? & ? & ?). exists (c :: w), r. split; [done|]. split; [done|]. split; [by constructor|done]. }
    exists w, (lex [] r). pose proof (lex_word [] w r Hw Hr) as HL. cbn [app] in HL. rewrite <-HL by done. rewrite <-Hl. cbn [lex]. by rewrite Hws, Esym.
Qed.

Lemma peek_spec set s : (s <= es)%nat -> Forall (fun d => d ∈ symbols) set -> exists s', peek buf es set s = Ok (starts set (toks s), s') /\ (s <= s' <= es)%nat /\ toks s' = toks s.
Proof.
  intros Hs Hset. destruct (skip_ws_spec s Hs) as (s' & E & Hs' & Ht & Hws). exists s'. split; [|done].
  unfold peek. rewrite (bind_Ok _ _ s s s) by done. rewrite (bind_Ok _ _ s s' s) by (unfold lift; by rewrite E). rewrite (bind_Ok _ _ s tt s') by done.
  rewrite <-Ht. pose proof (at_pos s' ltac:(lia)) as Hat. pose proof (tokens_head s' ltac:(lia) Hws) as Hh. destruct (drop s' str) as [|c l] eqn:Ed.
  - destruct Hat as [_ Hc]. rewrite (bind_Ok _ _ s' 0 s') by (unfold lift; by rewrite Hc). cbn. done.
  - destruct Hat as (_ & _ & Hc0 & Hc). rewrite (bind_Ok _ _ s' c s') by (unfold lift; by rewrite Hc). rewrite (proj2 (Z.eqb_neq _ _)) by done. cbn [negb andb].
    unfold mret, M_ret. do 2 f_equal. destruct (strchr symbols c) eqn:Esym.
    + destruct Hh as [_ Hh]. by rewrite Hh.
    + destruct Hh as (w & r & Hh). rewrite Hh. cbn [starts]. destruct (strchr set c) eqn:E2; [|done]. by rewrite (strchr_sub set c Hset E2) in Esym.
Qed.

(** The pointers [q] delimit the word [w]. *)
Definition delimits (q : ptrs) (w : list Z) : Prop :=
  drop q.1 str = w ++ drop q.2 str /\ q.2 = (q.1 + length w)%nat /\ (q.2 <= es)%nat /\ Forall (fun c => is_word c = true) w /\ word_end (drop q.2 str).

Lemma gettoken_spec s : (s <= es)%nat -> exists r q s', gettoken buf es s = Ok ((r, q), s') /\ (s <= s' <= es)%nat /\
  match toks s with
  | [] => r = 0 /\ toks s' = []
  | TSym c :: ts => r = c /\ toks s' = ts /\ (s < s')%nat /\ c ∈ symbols
  | TApp :: ts => r = 43 /\ toks s' = ts /\ (s < s')%nat
  | TWord w :: ts => r = 97 /\ toks s' = ts /\ (s < s')%nat /\ delimits q w
  end.
Proof.
  intros Hs. destruct (skip_ws_spec s Hs) as (q & E & Hq & <- & Hws). unfold gettoken. rewrite (bind_Ok _ _ s s s) by done. rewrite (bind_Ok _ _ s q s) by (unfold lift; by rewrite E).
  pose proof (at_pos q ltac:(lia)) as Hat. destruct (drop q str) as [|c l] eqn:Ed.
  { destruct Hat as [-> Hc]. rewrite (bind_Ok _ _ s 0 s) by (unfold lift; by rewrite Hc). cbn [Z.eqb]. rewrite (bind_Ok _ _ s (0, es) s) by done.
    destruct (skip_ws_spec es ltac:(lia)) as (s' & E' & Hs' & Ht' & _). rewrite (bind_Ok _ _ s s' s) by (unfold lift; by rewrite E'). eexists 0, (es, es), s'.
    split; [done|]. split; [lia|]. cbn. by rewrite Ht', drop_all. }
  destruct Hat as (Hlt & Hd & Hc0 & Hc). cbn [not_ws] in Hws. rewrite (bind_Ok _ _ s c s) by (unfold lift; by rewrite Hc).
  assert (forall ret eq (m : result (Z * nat)), m = Ok (ret, eq) -> (eq <= es)%nat -> exists s', ('(ret, eq) ← lift m; s' ← lift (skip_ws buf es eq); _ ← put s'; mret (ret, (q, eq))) s = Ok ((ret, (q, eq)), s') /\
     (eq <= s' <= es)%nat /\ toks s' = toks eq) as Hfin.
  { intros ret eq m -> Heq. destruct (skip_ws_spec eq Heq) as (s' & E' & Hs' & Ht' & _). exists s'. split; [|done].
    rewrite (bind_Ok _ _ s (ret, eq) s) by done. by rewrite (bind_Ok _ _ s s' s) by (unfold lift; by rewrite E'). }
  rewrite (proj2 (Z.eqb_neq _ _) Hc0). destruct (strchr (chr "|();&<") c) eqn:E1.
  { assert (strchr symbols c = true) as Hsym by (apply (strchr_sub (chr "|();&<")); [apply Forall_forall; intros d Hd0; vm_compute in Hd0 |- *; set_solver|done]).
    destruct (Hfin c (S q) _ eq_refl ltac:(lia)) as (s' & -> & Hs' & Ht'). exists c, (q, S q), s'. split; [done|]. split; [lia|].
    assert (c <> 62) as H62 by (intros ->; by vm_compute in E1). unfold tokens at 1. cbn [lex]. rewrite Hws, Hsym, (proj2 (Z.eqb_neq _ _) H62). cbn [flush]. rewrite <-Hd.
    split; [done|]. split; [exact Ht'|]. split; [lia|]. by apply bool_decide_eq_true in Hsym. }
  destruct (Z.eqb_spec c 62) as [->|H62].
  { pose proof (at_pos (S q) ltac:(lia)) as Hat. rewrite Hd in Hat. unfold tokens at 1. cbn [lex]. rewrite Hws. change (strchr symbols 62) with true. change (62 =? 62) with true. cbn [flush]. cbv iota.
    destruct l as [|d l].
    - destruct Hat as [Hq1 Hat]. destruct (Hfin 62 (S q) (d ← char_at buf (S q); if d =? 62 then Ok (43, S (S q)) else Ok (62, S q)) ltac:(by rewrite Hat) ltac:(lia)) as (s' & -> & Hs' & Ht').
      exists 62, (q, S q), s'. split; [done|]. split; [lia|]. split; [done|]. split; [rewrite Ht', Hd; done|]. split; [lia|vm_compute; set_solver].
    - destruct Hat as (Hq1 & Hd1 & _ & Hat). destruct (Z.eqb_spec d 62) as [->|Hd62].
      + destruct (Hfin 43 (S (S q)) (d ← char_at buf (S q); if d =? 62 then Ok (43, S (S q)) else Ok (62, S q)) ltac:(by rewrite Hat) ltac:(lia)) as (s' & -> & Hs' & Ht').
        exists 43, (q, S (S q)), s'. split; [done|]. split; [lia|]. split; [done|]. split; [rewrite Ht', Hd1; done|lia].
      + destruct (Hfin 62 (S q) (d ← char_at buf (S q); if d =? 62 then Ok (43, S (S q)) else Ok (62, S q)) ltac:(rewrite Hat; cbn; by rewrite (proj2 (Z.eqb_neq _ _) Hd62)) ltac:(lia)) as (s' & -> & Hs' & Ht').
        exists 62, (q, S q), s'. split; [done|]. split; [lia|]. split; [done|]. split; [rewrite Ht', Hd; done|]. split; [lia|vm_compute; set_solver]. }
  assert (strchr symbols c = false) as Hsym.
  { apply bool_decide_eq_false. apply bool_decide_eq_false in E1. intros Hin. vm_compute in Hin, E1. set_solver. }
  destruct (skip_while_spec is_word (es - q) q ltac:(lia)) as (e & w & Ew & He & Hw & Hel & Hall & Hend).
  destruct (Hfin 97 e (e ← skip_word buf es q; Ok (97, e))) as (s' & -> & Hs' & Ht'); [unfold skip_word; fold is_word; rewrite Ew; done|lia|].
  assert (w <> []) as Hne. { intros ->. cbn in Hw. rewrite <-Hw, Ed in Hend. unfold is_word in Hend. by rewrite Hws, Hsym in Hend. }
  exists 97, (q, e), s'. split; [done|]. split; [lia|]. assert (tokens (c :: l) = TWord w :: toks e) as ->.
  { rewrite <-Ed, Hw. apply (lex_word [] w); done. }
  split; [done|]. split; [done|]. assert (0 < length w)%nat by (destruct w; [done|cbn; lia]). split; [lia|]. split; [done|]. split; [done|]. split; [cbn; lia|]. split; [done|exact Hend].
Qed.
End scanning.

(** ** The parser against the grammar *)

(** [m] returns with [Q] or is stopped by a syntax error. *)
Definition safe {A} (m : M nat A) (s : nat) (Q : A -> nat -> Prop) : Prop :=
  match m s with Ok (a, s') => Q a s' | Err e => e = Exit 0 end.

Lemma safe_bind {A B} (m : M nat A) (k : A -> M nat B) s Q : safe m s (fun a s' => safe (k a) s' Q) -> safe (mbind k m) s Q.
Proof. unfold safe, mbind, M_bind. by destruct (m s) as [[a s']|]. Qed.
Lemma safe_mono {A} (m : M nat A) s (P Q : A -> nat -> Prop) : safe m s P -> (forall a s', P a s' -> Q a s') -> safe m s Q.
Proof. unfold safe. destruct (m s) as [[a s']|]; auto. Qed.
Lemma safe_wp {A} (m : M nat A) s Q : wp m s Q -> safe m s Q.
Proof. intros (a & s' & E & HQ). unfold safe. by rewrite E. Qed.

Section parsing.
Variables (str tail : list Z).
Hypothesis no_nul : Forall (fun c => c <> 0) str.
Notation buf := (str ++ 0 :: tail).
Notation es := (length str).
Notation toks s := (tokens (drop s str)).
Notation delimits := (delimits str).

Fixpoint denotes (c : cmd ptrs) (a : cmd (list Z)) : Prop :=
  match c, a with
  | EXEC l, EXEC m => Forall2 delimits l m
  | REDIR c f md fd, REDIR a w md' fd' => denotes c a /\ delimits f w /\ md = md' /\ fd = fd'
  | PIPE c d, PIPE a b | LIST c d, LIST a b => denotes c a /\ denotes d b
  | BACK c, BACK a => denotes c a
  | _, _ => False
  end.

(** From [s] to [s'] the tokens [ts] are read. *)
Definition reads (s s' : nat) (ts : list token) : Prop := (s <= s' <= es)%nat /\ toks s = ts ++ toks s'.

Lemma reads_refl s : (s <= es)%nat -> reads s s [].
Proof. by split. Qed.
Lemma reads_trans s1 s2 s3 t1 t2 : reads s1 s2 t1 -> reads s2 s3 t2 -> reads s1 s3 (t1 ++ t2).
Proof. intros [? E1] [? E2]. split; [lia|]. by rewrite E1, E2, app_assoc. Qed.

Lemma wp_peek set s Q : (s <= es)%nat -> Forall (fun d => d ∈ symbols) set ->
  (forall s', reads s s' [] -> toks s' = toks s -> Q (starts set (toks s)) s') -> wp (peek buf es set) s Q.
Proof.
  intros Hs Hset HQ. destruct (peek_spec str tail no_nul set s Hs Hset) as (s' & E & Hs' & Ht). eapply wp_of_Ok; [exact E|]. apply HQ; [|done].
  split; [done|]. by rewrite Ht.
Qed.

(** What gettoken returns for a token. *)
Definition token_is (t : token) (r : Z * ptrs) : Prop :=
  match t with TSym c => r.1 = c /\ c ∈ symbols | TApp => r.1 = 43 | TWord w => r.1 = 97 /\ delimits r.2 w end.

Lemma wp_gettoken s Q : (s <= es)%nat ->
  (toks s = [] -> forall q s', reads s s' [] -> Q (0, q) s') ->
  (forall t ts, toks s = t :: ts -> forall r s', reads s s' [t] -> (s < s')%nat -> toks s' = ts -> token_is t r -> Q r s') -> wp (gettoken buf es) s Q.
Proof.
  intros Hs H0 H1. destruct (gettoken_spec str tail no_nul s Hs) as (r & q & s' & E & Hs' & HT). eapply wp_of_Ok; [exact E|].
  destruct (toks s) as [|t ts] eqn:Et.
  - destruct HT as [-> HT]. apply H0; [done|]. split; [done|]. by rewrite HT.
  - assert (toks s' = ts /\ (s < s')%nat /\ token_is t (r, q)) as (Ht & Hlt & Htok) by (destruct t; naive_solver).
    apply (H1 t ts); try done. split; [done|]. by rewrite Ht.
Qed.

Lemma wp_next t ts s Q : (s <= es)%nat -> toks s = t :: ts -> (forall r s', reads s s' [t] -> (s < s')%nat -> toks s' = ts -> token_is t r -> Q r s') -> wp (gettoken buf es) s Q.
Proof. intros Hs Ht HQ. apply wp_gettoken; [done|congruence|]. intros t' ts' E. rewrite Ht in E. injection E as <- <-. exact HQ. Qed.

(** One of the characters of a literal. *)
Lemma starts_inv set ts : starts set ts = true -> exists t ts', ts = t :: ts' /\ (match t with TSym c => c ∈ set | TApp => 62 ∈ set | TWord _ => False end).
Proof. unfold starts, strchr. destruct ts as [|[w|c|] ts]; try done; intros H%bool_decide_eq_true; eauto. Qed.

Definition wrap (a : cmd (list Z)) (rs : list (redir_op * list Z)) : cmd (list Z) := foldl redirect a rs.

Lemma redirs_sound fuel c a s : (s <= es)%nat -> (es - s < fuel)%nat -> denotes c a ->
  safe (parseredirs buf es fuel c) s (fun c' s' => exists rs, reads s s' (rs ≫= redir_tokens) /\ denotes c' (wrap a rs)).
Proof.
  revert c a s. induction fuel as [|fuel IH]; intros c a s Hs Hf Hc; [lia|]. cbn [parseredirs].
  apply safe_bind, safe_wp, wp_peek; [done|by apply (bool_decide_unpack _)|]. intros s1 R1 E1. destruct (starts (chr "<>") (toks s)) eqn:Est; cbn [negb].
  2:{ exists []. done. }
  apply starts_inv in Est as (t & ts & Et & Htok). rewrite <-E1 in Et. apply safe_bind, safe_wp, (wp_next t ts); [apply R1|done|]. intros [tok q0] s2 R2 Hlt2 E2 Htk.
  apply safe_bind, safe_wp, wp_gettoken; [apply R2| |].
  { intros _ q s3 _. done. }
  intros t3 ts3 E3 [r3 q] s3 R3 Hlt3 E4 Htk3. destruct (Z.eqb_spec r3 97) as [->|]; cbn [negb]; [|done].
  assert (exists w, t3 = TWord w /\ delimits q w) as (w & -> & Hw).
  { destruct t3 as [w|c3|]; [exists w; split; [done|apply Htk3]| |done]. destruct Htk3 as [Hc3 Hin]. cbn in Hc3. subst c3. exfalso. vm_compute in Hin. set_solver. }
  assert (exists o, op_token o = t /\ (if tok =? 60 then REDIR c q O_RDONLY 0 else if tok =? 62 then REDIR c q (Z.lor O_WRONLY O_CREATE) 1
      else if tok =? 43 then REDIR c q (Z.lor O_WRONLY O_CREATE) 1 else c) = REDIR c q (op_mode o) (op_fd o)) as (o & Ho & ->).
  { destruct t as [|ct|]; [done| |cbn in Htk; subst tok; by exists RAppend]. destruct Htk as [Hct _]. cbn in Hct. subst ct.
    assert (tok = 60 \/ tok = 62) as [->| ->] by (vm_compute in Htok; set_solver); [by exists RIn|by exists ROut]. }
  eapply safe_mono; [apply (IH _ (redirect a (o, w)) s3); [apply R3|destruct R1, R2, R3; lia|done]|].
  intros c' s' (rs & R & Hd). exists ((o, w) :: rs). split; [|exact Hd]. change (((o, w) :: rs) ≫= redir_tokens) with (op_token o :: TWord w :: (rs ≫= redir_tokens)). rewrite Ho.
  exact (reads_trans _ _ _ _ _ R1 (reads_trans _ _ _ _ _ R2 (reads_trans _ _ _ _ _ R3 R))).
Qed.

(** The command that a list of items gives. *)
Definition build (its : list item) : cmd (list Z) := wrap (EXEC (words_of its)) (redirs_of its).

Lemma words_app i1 i2 : words_of (i1 ++ i2) = words_of i1 ++ words_of i2.
Proof. apply omap_app. Qed.
Lemma redirs_app i1 i2 : redirs_of (i1 ++ i2) = redirs_of i1 ++ redirs_of i2.
Proof. apply omap_app. Qed.
Lemma words_redirs rs : words_of (inr <$> rs) = [] /\ redirs_of (inr <$> rs) = rs /\ (inr <$> rs) ≫= item_tokens = rs ≫= redir_tokens.
Proof. induction rs as [|r rs (E1 & E2 & E3)]; [done|]. cbn in *. unfold words_of, redirs_of in *. cbn. by rewrite E1, E2, E3. Qed.

Lemma add_wrap a rs w : add_arg (wrap a rs) w = wrap (add_arg a w) rs.
Proof. revert a. induction rs as [|r rs IH]; intros a; [done|]. apply IH. Qed.
Lemma build_word its w : add_arg (build its) w = build (its ++ [inl w]).
Proof. unfold build. rewrite add_wrap, words_app, redirs_app, app_nil_r. done. Qed.
Lemma build_redirs its rs : wrap (build its) rs = build (its ++ (inr <$> rs)).
Proof. unfold build, wrap. rewrite words_app, redirs_app. destruct (words_redirs rs) as (-> & -> & _). by rewrite app_nil_r, foldl_app. Qed.

Lemma denotes_add c a q w : denotes c a -> delimits q w -> denotes (add_arg c q) (add_arg a w).
Proof.
  revert a. induction c as [l|c IH f m d|c1 _ c2 _|c1 _ c2 _|c _]; intros a Hc Hq; destruct a; try done.
  - cbn. apply Forall2_app; [done|]. by constructor.
  - destruct Hc as (H1 & H2 & H3 & H4). cbn. auto.
Qed.

Lemma args_sound fuel argc ret its s : (s <= es)%nat -> (es - s < fuel)%nat -> denotes ret (build its) -> length (words_of its) = argc -> (argc < MAXARGS)%nat ->
  safe (parseargs buf es fuel argc ret) s (fun c' s' => exists its', reads s s' (its' ≫= item_tokens) /\ denotes c' (build (its ++ its')) /\ (length (words_of (its ++ its')) < MAXARGS)%nat).
Proof.
  revert argc ret its s. induction fuel as [|fuel IH]; intros argc ret its s Hs Hf Hd Ha Hm; [lia|]. cbn [parseargs].
  apply safe_bind, safe_wp, wp_peek; [done|by apply (bool_decide_unpack _)|]. intros s1 R1 E1. destruct (starts _ (toks s)).
  { exists []. rewrite app_nil_r. split; [done|]. split; [done|]. lia. }
  apply safe_bind, safe_wp, wp_gettoken; [apply R1| |].
  { intros _ q s2 R2. exists []. rewrite app_nil_r. split; [exact (reads_trans _ _ _ _ _ R1 R2)|]. split; [done|]. lia. }
  intros t ts Et [r q] s2 R2 Hlt E2 Htk. destruct (Z.eqb_spec r 0) as [->|Hr0].
  { exfalso. destruct t as [w|c|]; cbn in Htk; [by destruct Htk| |done]. destruct Htk as [<- Hin]. vm_compute in Hin. set_solver. }
  destruct (Z.eqb_spec r 97) as [->|]; cbn [negb]; [|done].
  assert (exists w, t = TWord w /\ delimits q w) as (w & -> & Hw).
  { destruct t as [w|c|]; [exists w; split; [done|apply Htk]| |done]. destruct Htk as [Hc Hin]. cbn in Hc. subst c. exfalso. vm_compute in Hin. set_solver. }
  destruct (MAXARGS <=? S argc)%nat eqn:Emax; [done|]. apply Nat.leb_gt in Emax.
  apply safe_bind. eapply safe_mono; [apply (redirs_sound _ _ (build (its ++ [inl w]))); [apply R2|destruct R2; lia|rewrite <-build_word; by apply denotes_add]|].
  intros ret' s3 (rs & R3 & Hd3). rewrite build_redirs in Hd3. destruct (words_redirs rs) as (W1 & _ & W3).
  eapply safe_mono; [apply (IH (S argc) ret' ((its ++ [inl w]) ++ (inr <$> rs)) s3); try done; [apply R3|destruct R1, R2, R3; lia| ]|].
  { rewrite !words_app, W1, app_nil_r, length_app, Ha. cbn. lia. }
  intros c' s' (its' & R & Hd' & Hl). exists (inl w :: (inr <$> rs) ++ its'). rewrite <-!app_assoc in Hd', Hl. split; [|split; [exact Hd'|exact Hl]].
  change ((inl w :: (inr <$> rs) ++ its') ≫= item_tokens) with (TWord w :: ((inr <$> rs) ++ its') ≫= item_tokens). rewrite bind_app, W3.
  exact (reads_trans _ _ _ _ _ R1 (reads_trans _ _ _ _ _ R2 (reads_trans _ _ _ _ _ R3 R))).
Qed.

Lemma backs_sound fuel c a s : (s <= es)%nat -> (es - s < fuel)%nat -> denotes c a ->
  safe (backs buf es fuel c) s (fun c' s' => exists n, reads s s' (replicate n (TSym 38)) /\ denotes c' (Nat.iter n BACK a)).
Proof.
  revert c a s. induction fuel as [|fuel IH]; intros c a s Hs Hf Hc; [lia|]. cbn [backs].
  apply safe_bind, safe_wp, wp_peek; [done|by apply (bool_decide_unpack _)|]. intros s1 R1 E1. destruct (starts (chr "&") (toks s)) eqn:Est; cbn [negb].
  2:{ by exists 0%nat. }
  apply starts_inv in Est as (t & ts & Et & Htok). assert (t = TSym 38) as -> by (destruct t as [|x|]; [done|vm_compute in Htok; set_solver|vm_compute in Htok; set_solver]).
  rewrite <-E1 in Et. apply safe_bind, safe_wp, (wp_next (TSym 38) ts); [apply R1|done|]. intros r s2 R2 Hlt _ _.
  eapply safe_mono; [apply (IH (BACK c) (BACK a) s2); [apply R2|destruct R1, R2; lia|done]|].
  intros c' s' (n & R & Hd). exists (S n). rewrite Nat.iter_succ_r. split; [|done]. exact (reads_trans _ _ _ _ _ R1 (reads_trans _ _ _ _ _ R2 R)).
Qed.

(** What a function of the parser gives for the token lists of [G]. *)
Definition sound (G : list token -> cmd (list Z) -> Prop) (m : M nat (cmd ptrs)) (s : nat) : Prop :=
  safe m s (fun c s' => exists ts a, reads s s' ts /\ G ts a /\ denotes c a).

(** The first token is this symbol. *)
Lemma wp_peek_sym x s Q : (s <= es)%nat -> x ∈ symbols -> x <> 62 ->
  (forall s' ts, reads s s' [] -> toks s' = TSym x :: ts -> Q true s') -> (forall s', reads s s' [] -> Q false s') -> wp (peek buf es [x]) s Q.
Proof.
  intros Hs Hx Hne HT HF. apply wp_peek; [done|by apply Forall_singleton|]. intros s' R E. destruct (starts [x] (toks s)) eqn:Est; [|by apply HF].
  apply starts_inv in Est as (t & ts & Et & Htok). apply (HT s' ts R). rewrite E, Et. f_equal. destruct t as [|y|]; [done| |]; set_solver.
Qed.

Lemma parser_sound fuel : forall s, (s <= es)%nat ->
  (4 * (es - s) + 4 <= fuel -> sound line (parseline buf es fuel) s)%nat /\
  (4 * (es - s) + 3 <= fuel -> sound pipeline (parsepipe buf es fuel) s)%nat /\
  (4 * (es - s) + 2 <= fuel -> sound simple (parseexec buf es fuel) s)%nat /\
  (4 * (es - s) + 1 <= fuel -> sound simple (parseblock buf es fuel) s)%nat.
Proof.
  assert (forall x, bool_decide (x ∈ symbols) = true -> x ∈ symbols) as Hsym by (intros x; apply bool_decide_eq_true_1).
  induction fuel as [|fuel IH]; intros s Hs; [split_and!; lia|]. split; [|split; [|split]]; intros Hf; unfold sound; cbn [parseline parsepipe parseexec parseblock].
  - apply safe_bind. eapply safe_mono; [apply (IH s Hs); lia|]. intros c s1 (ts & a & R1 & G1 & D1).
    apply safe_bind. eapply safe_mono; [apply (backs_sound _ _ a); [apply R1|destruct R1; lia|done]|]. intros c2 s2 (n & R2 & D2).
    pose proof (reads_trans _ _ _ _ _ R1 R2) as R12.
    apply safe_bind, safe_wp, wp_peek_sym; [apply R2|by apply Hsym|done| |]; [intros s3 ts3 R3 E3|intros s3 R3]; cbn [negb].
    + apply safe_bind, safe_wp, (wp_next (TSym 59) ts3); [apply R3|done|]. intros r s4 R4 Hlt _ _.
      apply safe_bind. eapply safe_mono; [apply (IH s4); [apply R4|destruct R12, R3, R4; lia]|]. intros c5 s5 (ts5 & a5 & R5 & G5 & D5).
      exists (ts ++ replicate n (TSym 38) ++ TSym 59 :: ts5), (LIST (Nat.iter n BACK a) a5). split; [|split; [by constructor|done]].
      rewrite app_assoc. exact (reads_trans _ _ _ _ _ R12 (reads_trans _ _ _ _ _ R3 (reads_trans _ _ _ _ _ R4 R5))).
    + exists (ts ++ replicate n (TSym 38)), (Nat.iter n BACK a). split; [|split; [by constructor|done]]. rewrite <-(app_nil_r (ts ++ _)). exact (reads_trans _ _ _ _ _ R12 R3).
  - apply safe_bind. eapply safe_mono; [apply (IH s Hs); lia|]. intros c s1 (ts & a & R1 & G1 & D1).
    apply safe_bind, safe_wp, wp_peek_sym; [apply R1|by apply Hsym|done| |]; [intros s3 ts3 R3 E3|intros s3 R3]; cbn [negb].
    + apply safe_bind, safe_wp, (wp_next (TSym 124) ts3); [apply R3|done|]. intros r s4 R4 Hlt _ _.
      apply safe_bind. eapply safe_mono; [apply (IH s4); [apply R4|destruct R1, R3, R4; lia]|]. intros c5 s5 (ts5 & a5 & R5 & G5 & D5).
      exists (ts ++ TSym 124 :: ts5), (PIPE a a5). split; [|split; [by apply pipe_more|done]].
      exact (reads_trans _ _ _ _ _ R1 (reads_trans _ _ _ _ _ R3 (reads_trans _ _ _ _ _ R4 R5))).
    + exists ts, a. split; [|split; [by apply pipe_one|done]]. rewrite <-(app_nil_r ts). exact (reads_trans _ _ _ _ _ R1 R3).
  - apply safe_bind, safe_wp, wp_peek_sym; [done|by apply Hsym|done| |]; [intros s1 ts1 R1 E1|intros s1 R1].
    + eapply safe_mono; [apply (IH s1); [apply R1|destruct R1; lia]|]. intros c s2 (ts & a & R2 & G & D). exists ts, a. split; [|done]. exact (reads_trans _ _ _ _ _ R1 R2).
    + apply safe_bind. eapply safe_mono; [apply (redirs_sound _ _ (EXEC [])); [apply R1|destruct R1; lia|constructor]|]. intros ret s2 (rs & R2 & D2).
      destruct (words_redirs rs) as (W1 & W2 & W3). assert (wrap (EXEC []) rs = build (inr <$> rs)) as Eb by (unfold build; by rewrite W1, W2). rewrite Eb in D2.
      eapply safe_mono; [apply (args_sound _ 0 ret (inr <$> rs)); try done; [apply R2|destruct R2; lia|by rewrite W1|unfold MAXARGS; lia]|].
      intros c s3 (its & R3 & D3 & L3). exists (((inr <$> rs) ++ its) ≫= item_tokens), (build ((inr <$> rs) ++ its)).
      split; [|split; [by apply simple_items|done]]. rewrite bind_app, W3. exact (reads_trans _ _ _ _ _ R1 (reads_trans _ _ _ _ _ R2 R3)).
  - apply safe_bind, safe_wp, wp_peek_sym; [done|by apply Hsym|done| |]; [intros s1 ts1 R1 E1|intros s1 R1]; cbn [negb]; [|done].
    apply safe_bind, safe_wp, (wp_next (TSym 40) ts1); [apply R1|done|]. intros r s2 R2 Hlt _ _.
    apply safe_bind. eapply safe_mono; [apply (IH s2); [apply R2|destruct R1, R2; lia]|]. intros c s3 (ts & a & R3 & G & D).
    apply safe_bind, safe_wp, wp_peek_sym; [apply R3|by apply Hsym|done| |]; [intros s4 ts4 R4 E4|intros s4 R4]; cbn [negb]; [|done].
    apply safe_bind, safe_wp, (wp_next (TSym 41) ts4); [apply R4|done|]. intros r5 s5 R5 Hlt5 _ _.
    eapply safe_mono; [apply (redirs_sound _ _ a); [apply R5|destruct R5; lia|done]|]. intros c6 s6 (rs & R6 & D6).
    exists (TSym 40 :: ts ++ TSym 41 :: (rs ≫= redir_tokens)), (wrap a rs). split; [|split; [by apply simple_block|done]].
    exact (reads_trans _ _ _ _ _ R1 (reads_trans _ _ _ _ _ R2 (reads_trans _ _ _ _ _ R3 (reads_trans _ _ _ _ _ R4 (reads_trans _ _ _ _ _ R5 R6))))).
Qed.
End parsing.

(** ** The grammar against the parser *)
Lemma wp_bind_assoc {S A B C} (m : M S A) (k : A -> M S B) (h : B -> M S C) s Q : wp (a ← m; (b ← k a; h b)) s Q -> wp (b ← (a ← m; k a); h b) s Q.
Proof. unfold wp, mbind, M_bind. by destruct (m s) as [[a s']|]. Qed.

Definition ends (set : list Z) (ts : list token) : Prop := match ts with [] => True | TSym c :: _ => c ∈ set | _ => False end.

Section completeness.
Variables (str tail : list Z).
Hypothesis no_nul : Forall (fun c => c <> 0) str.
Notation buf := (str ++ 0 :: tail).
Notation es := (length str).
Notation toks s := (tokens (drop s str)).
Notation delimits := (delimits str).
Notation denotes := (denotes str).
Notation reads := (reads str).
Notation wp_peek := (wp_peek str tail no_nul).
Notation wp_next := (wp_next str tail no_nul).

Lemma ends_starts set set' ts : ends set ts -> forallb (fun c => negb (strchr set' c)) set = true -> starts set' ts = false.
Proof.
  destruct ts as [|[w|c|] ts]; try done. cbn. intros Hc Hall. rewrite forallb_forall in Hall. specialize (Hall c).
  apply negb_true_iff, Hall. by apply base.list_elem_of_In.
Qed.
Lemma ends_sub set set' ts : ends set ts -> forallb (strchr set') set = true -> ends set' ts.
Proof.
  destruct ts as [|[w|c|] ts]; try done. cbn. intros Hc Hall. rewrite forallb_forall in Hall. specialize (Hall c). unfold strchr in Hall.
  rewrite bool_decide_eq_true in Hall. apply Hall. by apply base.list_elem_of_In.
Qed.

Lemma after s s' ts rest : reads s s' ts -> toks s = ts ++ rest -> toks s' = rest.
Proof. intros [_ E] E'. rewrite E in E'. by apply app_inv_head in E'. Qed.

Lemma redirs_complete rs : forall fuel c a s rest, (s <= es)%nat -> (es - s < fuel)%nat -> denotes c a ->
  toks s = (rs ≫= redir_tokens) ++ rest -> starts (chr "<>") rest = false ->
  wp (parseredirs buf es fuel c) s (fun c' s' => reads s s' (rs ≫= redir_tokens) /\ denotes c' (wrap a rs)).
Proof.
  induction rs as [|[o w] rs IH]; intros [|fuel] c a s rest Hs Hf Hc Ht Hrest; try lia; cbn [parseredirs];
    apply wp_bind, wp_peek; try done; try (by apply (bool_decide_unpack _)); intros s1 R1 E1; rewrite Ht.
  - change (([] ≫= redir_tokens) ++ rest) with rest. rewrite Hrest. cbn [negb]. by apply wp_ret.
  - change (((o, w) :: rs) ≫= redir_tokens) with (op_token o :: TWord w :: (rs ≫= redir_tokens)) in *. cbn [app] in *.
    assert (starts (chr "<>") (op_token o :: TWord w :: (rs ≫= redir_tokens) ++ rest) = true) as -> by (by destruct o). cbn [negb]. rewrite <-E1 in Ht.
    apply wp_bind, (wp_next _ _ _ _ (proj2 (proj1 R1)) Ht). intros [tok q0] s2 R2 Hlt2 E2 Htk.
    apply wp_bind, (wp_next _ _ _ _ (proj2 (proj1 R2)) E2). intros [r q] s3 R3 Hlt3 E3 [Hr Hq]. cbn in Hr, Hq. subst r. cbn [Z.eqb Pos.eqb negb].
    assert ((if tok =? 60 then REDIR c q O_RDONLY 0 else if tok =? 62 then REDIR c q (Z.lor O_WRONLY O_CREATE) 1
      else if tok =? 43 then REDIR c q (Z.lor O_WRONLY O_CREATE) 1 else c) = REDIR c q (op_mode o) (op_fd o)) as ->.
    { destruct o; cbn in Htk; [destruct Htk as [-> _]|destruct Htk as [-> _]|subst tok]; done. }
    eapply wp_mono; [apply (IH fuel _ (redirect a (o, w)) s3 rest); try done; [apply R3|destruct R1, R2, R3; lia]|].
    intros c' s' [R D]. split; [|exact D].
    exact (reads_trans _ _ _ _ _ _ R1 (reads_trans _ _ _ _ _ _ R2 (reads_trans _ _ _ _ _ _ R3 R))).
Qed.

Lemma items_complete its : forall f1 f2 argc ret pre s rest, (s <= es)%nat -> (es - s < f1)%nat -> (es - s < f2)%nat ->
  denotes ret (build pre) -> argc = length (words_of pre) -> (length (words_of (pre ++ its)) < MAXARGS)%nat ->
  toks s = (its ≫= item_tokens) ++ rest -> ends (chr "|)&;") rest ->
  wp (ret ← parseredirs buf es f1 ret; parseargs buf es f2 argc ret) s (fun c s' => reads s s' (its ≫= item_tokens) /\ denotes c (build (pre ++ its))).
Proof.
  induction its as [|i its IH]; intros f1 f2 argc ret pre s rest Hs H1 H2 Hd Ha Hm Ht Hrest.
  { apply wp_bind. eapply wp_mono; [apply (redirs_complete [] f1 ret (build pre) s rest); try done; by eapply ends_starts|]. intros ret' s1 [R1 D1].
    pose proof (after _ _ _ _ R1 Ht) as E1. destruct f2 as [|f2]; [lia|]. cbn [parseargs].
    apply wp_bind, wp_peek; [apply R1|by apply (bool_decide_unpack _)|]. intros s2 R2 E2. rewrite E1. rewrite app_nil_r.
    destruct rest as [|[w|c|] rest]; try done.
    - cbn [starts]. apply wp_bind, (wp_gettoken str tail no_nul); [apply R2| |intros t ts E; rewrite E2, E1 in E; done]. intros _ q s3 R3. cbn [Z.eqb]. apply wp_ret.
      split; [exact (reads_trans _ _ _ _ _ _ R1 (reads_trans _ _ _ _ _ _ R2 R3))|done].
    - assert (starts (chr "|)&;") (TSym c :: rest) = true) as -> by (by apply bool_decide_eq_true). apply wp_ret. split; [exact (reads_trans _ _ _ _ _ _ R1 R2)|done]. }
  destruct i as [w|r].
  - apply wp_bind. eapply wp_mono; [apply (redirs_complete [] f1 ret (build pre) s _ Hs H1 Hd Ht); done|]. intros ret' s1 [R1 D1].
    pose proof (after _ _ _ _ R1 Ht) as E1. change ((inl w :: its) ≫= item_tokens) with (TWord w :: (its ≫= item_tokens)) in *. cbn [app] in E1. destruct f2 as [|f2]; [lia|]. cbn [parseargs].
    apply wp_bind, wp_peek; [apply R1|by apply (bool_decide_unpack _)|]. intros s2 R2 E2. rewrite E1. cbn [starts].
    rewrite E1 in E2. apply wp_bind, (wp_next _ _ _ _ (proj2 (proj1 R2)) E2). intros [r q] s3 R3 Hlt3 E3 [Hr Hq]. cbn in Hr, Hq. subst r. cbn [Z.eqb Pos.eqb negb].
    assert (argc + 1 + length (words_of its) < MAXARGS)%nat as Hm'. { rewrite words_app, length_app in Hm. change (words_of (inl w :: its)) with (w :: words_of its) in Hm. cbn in Hm. lia. }
    rewrite (proj2 (Nat.leb_gt _ _)) by lia.
    eapply wp_mono; [apply (IH (S es) f2 (S argc) _ (pre ++ [inl w]) s3 rest); try done; [apply R3|destruct R3; lia|destruct R1, R2, R3; lia| | |by rewrite <-app_assoc]|].
    + rewrite <-build_word. by apply denotes_add.
    + rewrite words_app, length_app, Ha. cbn. lia.
    + intros c s' [R D]. rewrite <-app_assoc in D. split; [|exact D].
      exact (reads_trans _ _ _ _ _ _ R1 (reads_trans _ _ _ _ _ _ R2 (reads_trans _ _ _ _ _ _ R3 R))).
  - change ((inr r :: its) ≫= item_tokens) with (op_token r.1 :: TWord r.2 :: (its ≫= item_tokens)) in *. destruct f1 as [|f1]; [lia|]. cbn [parseredirs].
    apply wp_bind_assoc. apply wp_bind, wp_peek; [done|by apply (bool_decide_unpack _)|]. intros s1 R1 E1. rewrite Ht.
    assert (starts (chr "<>") ((op_token r.1 :: TWord r.2 :: (its ≫= item_tokens)) ++ rest) = true) as -> by (by destruct r as [[] ?]). cbn [negb]. rewrite <-E1 in Ht. cbn [app] in Ht.
    apply wp_bind_assoc, wp_bind, (wp_next _ _ _ _ (proj2 (proj1 R1)) Ht). intros [tok q0] s2 R2 Hlt2 E2 Htk.
    apply wp_bind_assoc, wp_bind, (wp_next _ _ _ _ (proj2 (proj1 R2)) E2). intros [t q] s3 R3 Hlt3 E3 [Hr Hq]. cbn in Hr, Hq. subst t. cbn [Z.eqb Pos.eqb negb].
    assert ((if tok =? 60 then REDIR ret q O_RDONLY 0 else if tok =? 62 then REDIR ret q (Z.lor O_WRONLY O_CREATE) 1
      else if tok =? 43 then REDIR ret q (Z.lor O_WRONLY O_CREATE) 1 else ret) = REDIR ret q (op_mode r.1) (op_fd r.1)) as ->.
    { destruct r as [[] w]; cbn in Htk; [destruct Htk as [-> _]|destruct Htk as [-> _]|subst tok]; done. }
    change (words_of (pre ++ inr r :: its)) with (words_of (pre ++ ([inr r] ++ its))) in Hm. rewrite (app_assoc pre) in Hm.
    change (build (pre ++ inr r :: its)) with (build (pre ++ ([inr r] ++ its))). rewrite (app_assoc pre).
    eapply wp_mono; [apply (IH f1 f2 argc _ (pre ++ [inr r]) s3 rest); try done; [apply R3|destruct R1, R2, R3; lia|destruct R1, R2, R3; lia| |]|].
    + assert (denotes (REDIR ret q (op_mode r.1) (op_fd r.1)) (wrap (build pre) [r])) as HD by done. rewrite build_redirs in HD. exact HD.
    + rewrite words_app, app_nil_r. done.
    + intros c s' [R D]. split; [|exact D].
      exact (reads_trans _ _ _ _ _ _ R1 (reads_trans _ _ _ _ _ _ R2 (reads_trans _ _ _ _ _ _ R3 R))).
Qed.

Lemma backs_complete n : forall fuel c a s rest, (s <= es)%nat -> (es - s < fuel)%nat -> denotes c a ->
  toks s = replicate n (TSym 38) ++ rest -> starts (chr "&") rest = false ->
  wp (backs buf es fuel c) s (fun c' s' => reads s s' (replicate n (TSym 38)) /\ denotes c' (Nat.iter n BACK a)).
Proof.
  induction n as [|n IH]; intros [|fuel] c a s rest Hs Hf Hc Ht Hrest; try lia; cbn [backs];
    apply wp_bind, wp_peek; try done; try (by apply (bool_decide_unpack _)); intros s1 R1 E1; rewrite Ht.
  - change (replicate 0 (TSym 38) ++ rest) with rest. rewrite Hrest. cbn [negb]. by apply wp_ret.
  - change (replicate (S n) (TSym 38)) with (TSym 38 :: replicate n (TSym 38)) in *. cbn [app] in *. change (starts (chr "&") (TSym 38 :: replicate n (TSym 38) ++ rest)) with true. cbn [negb]. rewrite <-E1 in Ht.
    apply wp_bind, (wp_next _ _ _ _ (proj2 (proj1 R1)) Ht). intros r s2 R2 Hlt2 E2 _.
    eapply wp_mono; [apply (IH fuel (BACK c) (BACK a) s2 rest); try done; [apply R2|destruct R1, R2; lia]|].
    intros c' s' [R D]. rewrite Nat.iter_succ_r. split; [|exact D]. exact (reads_trans _ _ _ _ _ _ R1 (reads_trans _ _ _ _ _ _ R2 R)).
Qed.

(** What follows a part of a line decides that it is complete. *)
Definition complete (follow : list Z) (k : nat) (m : nat -> M nat (cmd ptrs)) (ts : list token) (a : cmd (list Z)) : Prop :=
  forall s fuel rest, (s <= es)%nat -> (4 * (es - s) + k <= fuel)%nat -> toks s = ts ++ rest -> ends follow rest ->
  wp (m fuel) s (fun c s' => reads s s' ts /\ denotes c a).

(** The next token is a symbol that a peek looks for. *)
Lemma wp_expect {B} x s ts (k : M nat B) Q : (s <= es)%nat -> toks s = TSym x :: ts -> x ∈ symbols ->
  (forall s', reads s s' [TSym x] -> (s < s')%nat -> toks s' = ts -> wp k s' Q) -> wp (b ← peek buf es [x]; if negb (b : bool) then fail (Exit 0) else _ ← gettoken buf es; k) s Q.
Proof.
  intros Hs Ht Hx HQ. apply wp_bind, wp_peek; [done|by apply Forall_singleton|]. intros s1 R1 E1. rewrite Ht.
  assert (starts [x] (TSym x :: ts) = true) as -> by (apply bool_decide_eq_true; set_solver). cbn [negb]. rewrite <-E1 in Ht.
  apply wp_bind, (wp_next _ _ _ _ (proj2 (proj1 R1)) Ht). intros r s2 R2 Hlt E2 _. apply HQ; [exact (reads_trans _ _ _ _ _ _ R1 R2)|destruct R1; lia|done].
Qed.

Lemma parser_complete :
  (forall ts a, line ts a -> complete (chr ")") 4 (parseline buf es) ts a) /\
  (forall ts a, pipeline ts a -> complete (chr "&;)") 3 (parsepipe buf es) ts a) /\
  (forall ts a, simple ts a -> complete (chr "|&;)") 2 (parseexec buf es) ts a).
Proof.
  assert (forall n rest, ends (chr ";)") rest -> ends (chr "&;)") (replicate n (TSym 38) ++ rest)) as Hamp.
  { intros [|n] rest Hr; [by eapply ends_sub|]. cbn. vm_compute. set_solver. }
  assert (forall x, bool_decide (x ∈ symbols) = true -> x ∈ symbols) as Hsym by (intros x; apply bool_decide_eq_true_1).
  apply grammar_ind.
  - intros ts a n Hp IH s [|fuel] rest Hs Hf Ht Hrest; [lia|]. cbn [parseline]. rewrite <-app_assoc in Ht. assert (ends (chr ";)") rest) as Hr2 by (by eapply ends_sub).
    apply wp_bind. eapply wp_mono; [apply (IH s fuel _ Hs ltac:(lia) Ht); by apply Hamp|]. intros c1 s1 [R1 D1].
    apply wp_bind. eapply wp_mono; [apply (backs_complete n (S es) c1 a s1 rest (proj2 (proj1 R1)) ltac:(destruct R1; lia) D1 (after _ _ _ _ R1 Ht)); by eapply ends_starts|]. intros c2 s2 [R2 D2].
    pose proof (after _ _ _ _ R2 (after _ _ _ _ R1 Ht)) as E2. apply wp_bind, wp_peek; [apply R2|by apply (bool_decide_unpack _)|]. intros s3 R3 E3. rewrite E2.
    assert (starts (chr ";") rest = false) as -> by exact (ends_starts (chr ")") (chr ";") rest Hrest eq_refl). cbn [negb]. apply wp_ret. split; [|done].
    rewrite <-(app_nil_r (ts ++ _)). exact (reads_trans _ _ _ _ _ _ (reads_trans _ _ _ _ _ _ R1 R2) R3).
  - intros ts a n ts' a' Hp IHp Hl IHl s [|fuel] rest Hs Hf Ht Hrest; [lia|]. cbn [parseline]. rewrite <-!app_assoc in Ht. cbn [app] in Ht.
    apply wp_bind. eapply wp_mono; [apply (IHp s fuel _ Hs ltac:(lia) Ht); apply Hamp; vm_compute; set_solver|]. intros c1 s1 [R1 D1].
    apply wp_bind. eapply wp_mono; [apply (backs_complete n (S es) c1 a s1 _ (proj2 (proj1 R1)) ltac:(destruct R1; lia) D1 (after _ _ _ _ R1 Ht)); done|]. intros c2 s2 [R2 D2].
    pose proof (after _ _ _ _ R2 (after _ _ _ _ R1 Ht)) as E2. apply wp_bind, wp_peek; [apply R2|by apply (bool_decide_unpack _)|]. intros s3 R3 E3. rewrite E2. change (starts (chr ";") _) with true. cbn [negb].
    rewrite E2 in E3. apply wp_bind, (wp_next _ _ _ _ (proj2 (proj1 R3)) E3). intros r s4 R4 Hlt4 E4 _.
    apply wp_bind. eapply wp_mono; [apply (IHl s4 fuel rest); try done; [apply R4|destruct R1, R2, R3, R4; lia]|]. intros c5 s5 [R5 D5]. apply wp_ret. split; [|done].
    rewrite app_assoc. exact (reads_trans _ _ _ _ _ _ (reads_trans _ _ _ _ _ _ R1 R2) (reads_trans _ _ _ _ _ _ R3 (reads_trans _ _ _ _ _ _ R4 R5))).
  - intros ts a Hp IH s [|fuel] rest Hs Hf Ht Hrest; [lia|]. cbn [parsepipe].
    apply wp_bind. eapply wp_mono; [apply (IH s fuel rest Hs ltac:(lia) Ht); by eapply ends_sub|]. intros c1 s1 [R1 D1]. pose proof (after _ _ _ _ R1 Ht) as E1.
    apply wp_bind, wp_peek; [apply R1|by apply (bool_decide_unpack _)|]. intros s2 R2 E2. rewrite E1. assert (starts (chr "|") rest = false) as -> by (by eapply ends_starts). cbn [negb].
    apply wp_ret. split; [|done]. rewrite <-(app_nil_r ts). exact (reads_trans _ _ _ _ _ _ R1 R2).
  - intros ts a ts' a' Hp IHp Hl IHl s [|fuel] rest Hs Hf Ht Hrest; [lia|]. cbn [parsepipe]. rewrite <-app_assoc in Ht. cbn [app] in Ht.
    apply wp_bind. eapply wp_mono; [apply (IHp s fuel _ Hs ltac:(lia) Ht); vm_compute; set_solver|]. intros c1 s1 [R1 D1]. pose proof (after _ _ _ _ R1 Ht) as E1.
    apply wp_bind, wp_peek; [apply R1|by apply (bool_decide_unpack _)|]. intros s2 R2 E2. rewrite E1. change (starts (chr "|") _) with true. cbn [negb].
    rewrite E1 in E2. apply wp_bind, (wp_next _ _ _ _ (proj2 (proj1 R2)) E2). intros r s4 R4 Hlt4 E4 _.
    apply wp_bind. eapply wp_mono; [apply (IHl s4 fuel rest); try done; [apply R4|destruct R1, R2, R4; lia]|]. intros c5 s5 [R5 D5]. apply wp_ret. split; [|done].
    exact (reads_trans _ _ _ _ _ _ R1 (reads_trans _ _ _ _ _ _ R2 (reads_trans _ _ _ _ _ _ R4 R5))).
  - intros its Hm s [|fuel] rest Hs Hf Ht Hrest; [lia|]. cbn [parseexec]. apply wp_bind, wp_peek; [done|by apply (bool_decide_unpack _)|]. intros s1 R1 E1.
    assert (starts (chr "(") (toks s) = false) as ->.
    { rewrite Ht. destruct its as [|[w|[[] w]] its]; try done. cbn. by eapply ends_starts. }
    rewrite <-E1 in Ht. eapply wp_mono; [apply (items_complete its (S es) (S es) 0 (EXEC []) [] s1 rest); try done; [apply R1|destruct R1; lia|destruct R1; lia|constructor|by eapply ends_sub]|].
    intros c s2 [R2 D2]. split; [exact (reads_trans _ _ _ _ _ _ R1 R2)|exact D2].
  - intros ts a rs Hl IH s [|fuel] rest Hs Hf Ht Hrest; [lia|]. cbn [parseexec]. apply wp_bind, wp_peek; [done|by apply (bool_decide_unpack _)|]. intros s1 R1 E1.
    cbn [app] in Ht. rewrite Ht. change (starts (chr "(") _) with true. destruct fuel as [|fuel]; [lia|]. cbn [parseblock]. rewrite <-app_assoc in Ht. cbn [app] in Ht. rewrite <-E1 in Ht.
    apply (wp_expect 40 s1 _ _ _ (proj2 (proj1 R1)) Ht); [by apply Hsym|]. intros s2 R2 Hlt2 E2.
    apply wp_bind. eapply wp_mono; [apply (IH s2 fuel _ (proj2 (proj1 R2)) ltac:(destruct R1, R2; lia) E2); vm_compute; set_solver|]. intros c3 s3 [R3 D3].
    apply (wp_expect 41 s3 _ _ _ (proj2 (proj1 R3)) (after _ _ _ _ R3 E2)); [by apply Hsym|]. intros s4 R4 Hlt4 E4.
    eapply wp_mono; [apply (redirs_complete rs (S es) c3 a s4 rest); try done; [apply R4|destruct R4; lia|by eapply ends_starts]|].
    intros c5 s5 [R5 D5]. split; [|exact D5].
    exact (reads_trans _ _ _ _ _ _ R1 (reads_trans _ _ _ _ _ _ R2 (reads_trans _ _ _ _ _ _ R3 (reads_trans _ _ _ _ _ _ R4 R5)))).
Qed.
End completeness.

(** ** Ending the strings *)
Section strings.
Variables (str tail : list Z).
Hypothesis no_nul : Forall (fun c => c <> 0) str.
Notation buf := (str ++ 0 :: tail).
Notation es := (length str).
Notation toks s := (tokens (drop s str)).

(** The line with NULs written outside its words. *)
Definition erased (b : list Z) : Prop := length b = length buf /\
  forall i c, buf !! i = Some c -> b !! i = Some c \/ b !! i = Some 0 /\ is_word c = false.
Definition keeps_nuls (b b' : list Z) : Prop := forall i, b !! i = Some 0 -> b' !! i = Some 0.

Lemma erased_refl : erased buf.
Proof. split; [done|]. auto. Qed.

Lemma write_nul_spec q w b : delimits str q w -> erased b -> exists b', write_nul q.2 b = Ok (tt, b') /\ erased b' /\ keeps_nuls b b' /\ b' !! q.2 = Some 0.
Proof.
  intros (Hd & Hq & Hle & Hw & Hend) [Hl He]. assert (q.2 < length b)%nat as Hlt by (rewrite Hl, length_app; cbn; lia).
  exists (<[q.2 := 0]> b). split; [unfold write_nul, mbind, M_bind, get; by rewrite decide_True by done|]. split; [split|split].
  - by rewrite length_insert.
  - intros i c Hc. destruct (decide (i = q.2)) as [->|Hne]; [|rewrite list_lookup_insert_ne by done; by apply He].
    rewrite list_lookup_insert_eq by done. pose proof (at_pos str tail no_nul q.2 Hle) as Hat.
    destruct (drop q.2 str) as [|d l]; unfold char_at in Hat; rewrite Hc in Hat.
    + destruct Hat as [_ [= ->]]. by left.
    + destruct Hat as (_ & _ & _ & [= ->]). right. split; [done|]. exact Hend.
  - intros i Hi. destruct (decide (i = q.2)) as [->|Hne]; [by apply list_lookup_insert_eq|by rewrite list_lookup_insert_ne].
  - by apply list_lookup_insert_eq.
Qed.

Lemma string_at_word q w b : delimits str q w -> erased b -> b !! q.2 = Some 0 -> string_at b q = w.
Proof.
  intros (Hd & Hq & Hle & Hw & Hend) [Hl He] H0. unfold string_at. assert (take (length w) (drop q.1 b) = w) as Ht.
  { apply list_eq. intros i. destruct (decide (i < length w)%nat) as [Hi|Hi].
    - rewrite lookup_take_lt, lookup_drop by done. destruct (lookup_lt_is_Some_2 w i Hi) as [c Hc]. rewrite Hc.
      assert (str !! (q.1 + i)%nat = Some c) as Hs by (rewrite <-lookup_drop, Hd, lookup_app_l by done; done).
      destruct (He (q.1 + i)%nat c) as [E|[_ E]]; [rewrite lookup_app_l by (by eapply lookup_lt_Some); done|done|].
      rewrite (Forall_lookup_1 _ _ _ _ Hw Hc) in E. done.
    - rewrite lookup_take_ge by lia. by rewrite lookup_ge_None_2 by lia. }
  rewrite <-(take_drop (length w) (drop q.1 b)), Ht, drop_drop. rewrite <-Hq. rewrite (drop_S b 0) by done. apply until_nul_spec.
  assert (Forall (fun c => c <> 0) (drop q.1 str)) as Hn by (by apply Forall_drop). rewrite Hd in Hn. by apply Forall_app in Hn as [? _].
Qed.

(** Whatever else is erased later, the strings of [c] are those of [a]. *)
Definition shows (b : list Z) (c : cmd ptrs) (a : cmd (list Z)) : Prop := forall b', erased b' -> keeps_nuls b b' -> view b' c = a.

Lemma shows_view b c a : shows b c a -> erased b -> view b c = a.
Proof. intros Hs He. apply Hs; [done|]. by intros i. Qed.
Lemma shows_mono b b' c a : keeps_nuls b b' -> shows b c a -> shows b' c a.
Proof. intros Hk Hs b'' He Hk'. apply Hs; [done|]. intros i Hi. by apply Hk', Hk. Qed.

Lemma nul_args_spec l m b : Forall2 (delimits str) l m -> erased b -> exists b', nul_args l b = Ok (tt, b') /\ erased b' /\ keeps_nuls b b' /\
  forall b'', erased b'' -> keeps_nuls b' b'' -> string_at b'' <$> l = m.
Proof.
  intros Hlm. revert b. induction Hlm as [|[q eq] w l m Hq Hlm IH]; intros b Hb; cbn [nul_args]; [exists b; split; [done|]; split; [done|]; split; [by intros i|done]|].
  destruct (write_nul_spec _ _ b Hq Hb) as (b1 & E1 & Hb1 & K1 & Z1). destruct (IH b1 Hb1) as (b2 & E2 & Hb2 & K2 & V2). exists b2.
  cbn [snd] in E1. rewrite (bind_Ok _ _ _ _ _ E1). split; [done|]. split; [done|]. split; [intros i Hi; by apply K2, K1|].
  intros b'' He Hk. rewrite fmap_cons, V2 by done. f_equal. apply string_at_word; [done|done|]. by apply Hk, K2.
Qed.

Lemma nulterminate_spec c : forall a b, denotes str c a -> erased b -> exists b', nulterminate c b = Ok (tt, b') /\ erased b' /\ keeps_nuls b b' /\ shows b' c a.
Proof.
  assert (forall (c1 c2 : cmd ptrs) a1 a2 b, (exists b', nulterminate c1 b = Ok (tt, b') /\ erased b' /\ keeps_nuls b b' /\ shows b' c1 a1) ->
    (forall b, erased b -> exists b', nulterminate c2 b = Ok (tt, b') /\ erased b' /\ keeps_nuls b b' /\ shows b' c2 a2) ->
    exists b', (_ ← nulterminate c1; nulterminate c2) b = Ok (tt, b') /\ erased b' /\ keeps_nuls b b' /\ shows b' c1 a1 /\ shows b' c2 a2) as Hseq.
  { intros c1 c2 a1 a2 b (b1 & E1 & H1 & K1 & S1) H2. destruct (H2 b1 H1) as (b2 & E2 & Hb2 & K2 & S2). exists b2. rewrite (bind_Ok _ _ _ _ _ E1).
    split; [done|]. split; [done|]. split; [intros i Hi; by apply K2, K1|]. split; [by eapply shows_mono|done]. }
  induction c as [l|c IH [f ef] md fd|c1 IH1 c2 IH2|c1 IH1 c2 IH2|c IH]; intros a b Hd Hb; destruct a as [m|a w md' fd'|a1 a2|a1 a2|a]; try done; cbn [nulterminate].
  - destruct (nul_args_spec l m b Hd Hb) as (b' & E & Hb' & K & V). exists b'. split; [done|]. split; [done|]. split; [done|].
    intros b'' He Hk. unfold view. cbn [cmd_map]. by rewrite V.
  - destruct Hd as (Hc & Hf & <- & <-). destruct (IH a b Hc Hb) as (b1 & E1 & H1 & K1 & S1). destruct (write_nul_spec _ _ b1 Hf H1) as (b2 & E2 & Hb2 & K2 & Z2).
    exists b2. rewrite (bind_Ok _ _ _ _ _ E1). split; [done|]. split; [done|]. split; [intros i Hi; by apply K2, K1|].
    intros b'' He Hk. unfold view in *. cbn [cmd_map]. f_equal; [apply S1; [done|intros i Hi; by apply Hk, K2]|]. apply string_at_word; [done|done|]. by apply Hk.
  - destruct Hd as [D1 D2]. destruct (Hseq c1 c2 a1 a2 b (IH1 a1 b D1 Hb) (fun b => IH2 a2 b D2)) as (b' & E & Hb' & K & S1 & S2). exists b'.
    split; [done|]. split; [done|]. split; [done|]. intros b'' He Hk. unfold view in *. cbn [cmd_map]. f_equal; [by apply S1|by apply S2].
  - destruct Hd as [D1 D2]. destruct (Hseq c1 c2 a1 a2 b (IH1 a1 b D1 Hb) (fun b => IH2 a2 b D2)) as (b' & E & Hb' & K & S1 & S2). exists b'.
    split; [done|]. split; [done|]. split; [done|]. intros b'' He Hk. unfold view in *. cbn [cmd_map]. f_equal; [by apply S1|by apply S2].
  - destruct (IH a b Hd Hb) as (b' & E & Hb' & K & S1). exists b'. split; [done|]. split; [done|]. split; [done|]. intros b'' He Hk. unfold view in *. cbn [cmd_map]. f_equal. by apply S1.
Qed.

(** The check for leftovers. *)
Lemma peek_end s : (s <= es)%nat -> exists b s', peek buf es [] s = Ok (b, s') /\ (Nat.eqb s' es = true <-> toks s = []).
Proof.
  intros Hs. destruct (skip_ws_spec str tail no_nul s Hs) as (s' & E & Hs' & Ht & Hws). unfold peek. rewrite (bind_Ok _ _ s s s) by done.
  rewrite (bind_Ok _ _ s s' s) by (unfold lift; by rewrite E). rewrite (bind_Ok _ _ s tt s') by done.
  pose proof (at_pos str tail no_nul s' ltac:(lia)) as Hat. pose proof (tokens_head str no_nul s' ltac:(lia) Hws) as Hh. rewrite <-Ht. destruct (drop s' str) as [|c l] eqn:Ed.
  - destruct Hat as [-> Hc]. rewrite (bind_Ok _ _ es 0 es) by (unfold lift; by rewrite Hc). eexists _, es. split; [done|]. by rewrite Nat.eqb_refl.
  - destruct Hat as (Hlt & _ & _ & Hc). rewrite (bind_Ok _ _ s' c s') by (unfold lift; by rewrite Hc). eexists _, s'. split; [done|].
    rewrite (proj2 (Nat.eqb_neq s' es)) by lia. split; [done|]. intros E0. rewrite E0 in Hh. destruct (strchr symbols c); [by destruct Hh|by destruct Hh as (? & ? & ?)].
Qed.

Lemma strlen_line : strlen buf = Ok es.
Proof. unfold strlen. rewrite until_nul_spec by done. rewrite decide_True by (rewrite length_app; cbn; lia). done. Qed.

(** The parse of the whole line, and what the leftovers mean. *)
Lemma parse_whole a : line (tokens str) a -> exists c s, parseline buf es (parse_fuel es) 0%nat = Ok (c, s) /\ denotes str c a /\ toks s = [] /\ (s <= es)%nat.
Proof.
  intros Hl. destruct (parser_complete str tail no_nul) as [Hp _]. destruct (Hp _ _ Hl 0%nat (parse_fuel es) []) as (c & s & E & [R D]); [lia|unfold parse_fuel; lia|by rewrite app_nil_r|done|].
  exists c, s. split; [done|]. split; [done|]. split; [apply (after str 0 s _ [] R); by rewrite app_nil_r|apply R].
Qed.

Lemma parsecmd_run : match parsecmd buf with
  | Ok (c, buf') => forall a, line (tokens str) a <-> view buf' c = a
  | Err e => e = Exit 0 /\ forall a, ~ line (tokens str) a
  end.
Proof.
  unfold parsecmd. rewrite (bind_Ok _ _ buf buf buf) by done. rewrite (bind_Ok _ _ buf es buf) by (unfold lift; by rewrite strlen_line).
  destruct (parser_sound str tail no_nul (parse_fuel es) 0%nat ltac:(lia)) as [Hs _]. specialize (Hs ltac:(unfold parse_fuel; lia)). unfold sound, safe in Hs.
  destruct (parseline buf es (parse_fuel es) 0%nat) as [[c s]|e] eqn:Ep.
  2:{ rewrite (bind_Err _ _ buf e) by done. split; [done|]. intros a Ha. destruct (parse_whole a Ha) as (c & s & E & _). congruence. }
  destruct Hs as (ts & a & R & G & D). rewrite (bind_Ok _ _ buf (c, s) buf) by done. cbv beta iota.
  destruct (peek_end s (proj2 (proj1 R))) as (b & s' & E & Hend). rewrite (bind_Ok _ _ buf (b, s') buf) by (unfold lift; by rewrite E). cbv beta iota.
  destruct (Nat.eqb s' es) eqn:Eend; cbn [negb].
  - assert (toks s = []) as Hnil by (by apply Hend). destruct R as [Hs R]. rewrite Hnil, app_nil_r in R. rewrite drop_0 in R. subst ts.
    destruct (nulterminate_spec c a buf D erased_refl) as (b' & E' & Hb' & K & S). rewrite (bind_Ok _ _ _ _ _ E'). cbn.
    assert (view b' c = a) as Hv by (by apply shows_view). intros a2. split; [|intros <-; by rewrite Hv]. intros Ha2. destruct (parse_whole a2 Ha2) as (c2 & s2 & E2 & D2 & _). rewrite Ep in E2. injection E2 as <- <-.
    destruct (nulterminate_spec c a2 buf D2 erased_refl) as (b2 & E2 & Hb2 & K2 & S2). rewrite E' in E2. injection E2 as <-. by apply shows_view.
  - split; [done|]. intros a2 Ha2. destruct (parse_whole a2 Ha2) as (c2 & s2 & E2 & _ & Hn & _). rewrite Ep in E2. injection E2 as <- <-.
    apply Hend in Hn. congruence.
Qed.
End strings.

(** ** Printing commands *)
Definition paren (b : bool) (ts : list token) : list token := if b then TSym 40 :: ts ++ [TSym 41] else ts.

Definition mode_op (mode : Z) : redir_op := if mode =? O_RDONLY then RIn else ROut.

(** The tokens of a command where a line, a command of the background, a
    pipeline or a simple command is expected (0 to 3). *)
Fixpoint show (l : nat) (c : cmd (list Z)) : list token :=
  match c with
  | EXEC argv => TWord <$> argv
  | REDIR c file mode _ => show 3 c ++ redir_tokens (mode_op mode, file)
  | PIPE a b => paren (2 <? l)%nat (show 3 a ++ TSym 124 :: show 2 b)
  | LIST a b => paren (0 <? l)%nat (show 1 a ++ TSym 59 :: show 0 b)
  | BACK a => paren (1 <? l)%nat (show 1 a ++ [TSym 38])
  end.

Definition token_text (t : token) : list Z := match t with TWord w => w | TSym c => [c] | TApp => [62; 62] end.
Definition text (ts : list token) : list Z := ts ≫= (fun t => token_text t ++ [32]).
Definition print_cmd (c : cmd (list Z)) : list Z := text (show 0 c).

Definition word_ok (w : list Z) : bool := negb (bool_decide (w = [])) && forallb (fun c => is_word c && negb (c =? 0)) w.
Fixpoint cmd_ok (c : cmd (list Z)) : bool :=
  match c with
  | EXEC argv => (length argv <? MAXARGS)%nat && forallb word_ok argv
  | REDIR c file mode fd => cmd_ok c && word_ok file && bool_decide ((mode, fd) = (op_mode (mode_op mode), op_fd (mode_op mode)))
  | PIPE a b | LIST a b => cmd_ok a && cmd_ok b
  | BACK a => cmd_ok a
  end.

Definition token_ok (t : token) : bool := match t with TWord w => word_ok w | TSym c => strchr symbols c | TApp => true end.

Lemma tokens_text ts : forallb token_ok ts = true -> tokens (text ts) = ts /\ Forall (fun c => c <> 0) (text ts).
Proof.
  assert (forall c, c ∈ symbols -> c <> 0) as Hsym by (intros c Hc ->; vm_compute in Hc; set_solver).
  induction ts as [|t ts IH]; [by split; [|constructor]|]. intros [Ht Hts]%andb_true_iff. destruct (IH Hts) as [IH1 IH2].
  change (text (t :: ts)) with ((token_text t ++ [32]) ++ text ts). rewrite <-app_assoc. cbn [app]. destruct t as [w|c|]; cbn [token_text token_ok] in *.
  - apply andb_true_iff in Ht as [Hne%negb_true_iff%bool_decide_eq_false Hw]. rewrite forallb_forall in Hw.
    assert (Forall (fun c => is_word c = true) w /\ Forall (fun c => c <> 0) w) as [W1 W2].
    { split; apply Forall_forall; intros c Hc; apply base.list_elem_of_In in Hc; apply Hw, andb_true_iff in Hc as [? Hc]; [done|]. by apply negb_true_iff, Z.eqb_neq in Hc. }
    split; [|apply Forall_app; split; [done|by constructor]]. unfold tokens. rewrite (lex_word [] w (32 :: text ts)); try done. cbn [app lex]. f_equal. exact IH1.
  - split; [|constructor; [by apply Hsym; apply bool_decide_eq_true in Ht|by constructor]]. assert (strchr whitespace c = false) as Hws.
    { apply bool_decide_eq_true in Ht. apply bool_decide_eq_false. intros Hw. vm_compute in Ht, Hw. set_solver. }
    unfold tokens. cbn [app lex]. rewrite Hws, Ht. cbn [flush]. assert ((if c =? 62 then TSym c :: lex [] (32 :: text ts) else TSym c :: lex [] (32 :: text ts)) = TSym c :: ts) as E.
    { change (lex [] (32 :: text ts)) with (tokens (text ts)). rewrite IH1. by destruct (c =? 62). }
    change (32 =? 62) with false. exact E.
  - split; [|repeat constructor; done]. unfold tokens. cbn [app lex]. change (strchr whitespace 62) with false. change (strchr symbols 62) with true. change (62 =? 62) with true. cbn [flush]. cbv iota.
    f_equal. exact IH1.
Qed.

Lemma show_tokens c : forall l, cmd_ok c = true -> forallb token_ok (show l c) = true.
Proof.
  assert (forall b ts, forallb token_ok ts = true -> forallb token_ok (paren b ts) = true) as Hp.
  { intros [] ts H; [|done]. cbn. by rewrite forallb_app, H. }
  induction c as [argv|c IH f md fd|a IHa b IHb|a IHa b IHb|c IH]; intros l; cbn [cmd_ok show].
  - intros [_ Hw]%andb_true_iff. induction argv as [|w argv IH]; [done|]. cbn in *. apply andb_true_iff in Hw as [-> Hw]. by apply IH.
  - intros [[Hc Hf]%andb_true_iff _]%andb_true_iff. rewrite forallb_app, IH by done. cbn. rewrite Hf. unfold mode_op. by destruct (md =? O_RDONLY).
  - intros [Ha Hb]%andb_true_iff. apply Hp. rewrite forallb_app, IHa by done. cbn. by apply IHb.
  - intros [Ha Hb]%andb_true_iff. apply Hp. rewrite forallb_app, IHa by done. cbn. by apply IHb.
  - intros Hc. apply Hp. by rewrite forallb_app, IH.
Qed.

Lemma simple_redir ts a r : simple ts a -> simple (ts ++ redir_tokens r) (redirect a r).
Proof.
  intros [its Hm|ts' c rs Hl].
  - pose proof (words_app its [inr r]) as W. pose proof (redirs_app its [inr r]) as R. cbn in W, R. rewrite app_nil_r in W.
    assert (simple ((its ++ [inr r]) ≫= item_tokens) (foldl redirect (EXEC (words_of (its ++ [inr r]))) (redirs_of (its ++ [inr r])))) as Hs by (apply simple_items; by rewrite W).
    rewrite W, R, foldl_app, bind_app in Hs. exact Hs.
  - assert (simple (TSym 40 :: ts' ++ TSym 41 :: ((rs ++ [r]) ≫= redir_tokens)) (foldl redirect c (rs ++ [r]))) as Hs by (by apply simple_block).
    rewrite foldl_app, bind_app in Hs. cbn [app]. rewrite <-app_assoc. exact Hs.
Qed.

Lemma simple_paren ts a : line ts a -> simple (paren true ts) a.
Proof. intros Hl. exact (simple_block ts a [] Hl). Qed.

(** [show] gives every command tokens that the grammar reads back. *)
Definition amp (ts : list token) (a : cmd (list Z)) : Prop := exists ts' n c, pipeline ts' c /\ ts = ts' ++ replicate n (TSym 38) /\ a = Nat.iter n BACK c.

Lemma amp_pipe ts a : pipeline ts a -> amp ts a.
Proof. intros Hp. exists ts, 0%nat, a. by rewrite app_nil_r. Qed.
Lemma line_amp ts a : amp ts a -> line ts a.
Proof. intros (ts' & n & c & Hp & -> & ->). by constructor. Qed.

Lemma show_grammar c : cmd_ok c = true -> simple (show 3 c) c /\ pipeline (show 2 c) c /\ amp (show 1 c) c /\ line (show 0 c) c.
Proof.
  assert (forall c ts, simple ts c -> simple ts c /\ pipeline ts c /\ amp ts c /\ line ts c) as Hup.
  { intros d ts Hs. assert (pipeline ts d) as Hp by (by apply pipe_one). split; [done|]. split; [done|]. split; [by apply amp_pipe|by apply line_amp, amp_pipe]. }
  induction c as [argv|c IH f md fd|a IHa b IHb|a IHa b IHb|c IH]; cbn [cmd_ok show].
  - intros [Hm%Nat.ltb_lt _]%andb_true_iff. apply Hup. assert (words_of (inl <$> argv) = argv /\ redirs_of (inl <$> argv) = [] /\ ((inl <$> argv) ≫= item_tokens) = TWord <$> argv) as (W & R & T).
    { clear Hm. unfold words_of, redirs_of. induction argv as [|w argv (W & R & T)]; [done|]. cbn in *. by rewrite W, R, T. }
    pose proof (simple_items (inl <$> argv)) as Hs. rewrite W, R, T in Hs. by apply Hs.
  - intros [[Hc Hf]%andb_true_iff Hmd%bool_decide_eq_true]%andb_true_iff. destruct (IH Hc) as [Hs _]. apply Hup.
    pose proof (simple_redir _ _ (mode_op md, f) Hs) as Hr. unfold redirect in Hr. cbn [fst snd] in Hr. injection Hmd as E1 E2. rewrite <-E1, <-E2 in Hr. exact Hr.
  - intros [Ha Hb]%andb_true_iff. destruct (IHa Ha) as [Ha1 _], (IHb Hb) as (_ & Hb2 & _). cbn [Nat.ltb Nat.leb paren].
    assert (pipeline (show 3 a ++ TSym 124 :: show 2 b) (PIPE a b)) as Hp by (by apply pipe_more). split; [apply simple_paren, line_amp, amp_pipe, Hp|].
    split; [done|]. split; [by apply amp_pipe|by apply line_amp, amp_pipe].
  - intros [Ha Hb]%andb_true_iff. destruct (IHa Ha) as (_ & _ & (ts & n & c & Hp & E & ->) & _), (IHb Hb) as (_ & _ & _ & Hb0). cbn [Nat.ltb Nat.leb].
    assert (line (show 1 (Nat.iter n BACK c) ++ TSym 59 :: show 0 b) (LIST (Nat.iter n BACK c) b)) as Hl by (rewrite E, <-app_assoc; by apply line_seq).
    destruct (Hup _ _ (simple_paren _ _ Hl)) as (H3 & H2 & H1 & _). done.
  - intros Hc. destruct (IH Hc) as (_ & _ & (ts & n & d & Hp & E & ->) & _). cbn [Nat.ltb Nat.leb].
    assert (amp (show 1 (Nat.iter n BACK d) ++ [TSym 38]) (BACK (Nat.iter n BACK d))) as Hb.
    { exists ts, (S n), d. split; [done|]. split; [|done]. rewrite E, <-app_assoc. f_equal. by rewrite <-replicate_S_end. }
    destruct (Hup _ _ (simple_paren _ _ (line_amp _ _ Hb))) as (H3 & H2 & _ & _). split; [done|]. split; [done|]. split; [done|by apply line_amp].
Qed.

(** ** What the parser can return *)
Lemma tokens_ok s : forall cur, Forall (fun c => c <> 0) s -> forallb (fun c => is_word c && negb (c =? 0)) cur = true ->
  forallb token_ok (lex cur s) = true.
Proof.
  assert (forall cur ts, forallb (fun c => is_word c && negb (c =? 0)) cur = true -> forallb token_ok ts = true ->
    forallb token_ok (flush cur ts) = true) as Hf.
  { intros [|c cur] ts Hc Ht; [done|]. cbn [flush forallb token_ok]. unfold word_ok. by rewrite Hc, Ht. }
  induction s as [s IH] using (induction_ltof1 _ (@length Z)); unfold ltof in IH.
  intros cur Hs Hc. destruct s as [|c s]; [by apply Hf|]. apply Forall_cons in Hs as [Hn Hs]. cbn [lex].
  destruct (strchr whitespace c) eqn:Ew; [apply Hf; [done|]; by apply IH; [cbn; lia| |]|].
  destruct (strchr symbols c) eqn:Es.
  - apply Hf; [done|]. destruct (Z.eqb_spec c 62) as [->|_].
    + destruct s as [|d s]; [done|]. apply Forall_cons in Hs as [Hd Hs].
      destruct (d =? 62); cbn [forallb token_ok].
      * by apply IH; [cbn; lia| |].
      * rewrite Es. cbn [andb]. by apply IH; [cbn; lia|constructor|].
    + cbn [forallb token_ok]. rewrite Es. cbn [andb]. by apply IH; [cbn; lia| |].
  - apply IH; [cbn; lia|done|]. rewrite forallb_app, Hc. cbn [forallb andb]. unfold is_word.
    by rewrite Ew, Es, (proj2 (Z.eqb_neq c 0)) by done.
Qed.

Lemma redirect_ok rs : forall c, cmd_ok c = true -> forallb token_ok (rs ≫= redir_tokens) = true -> cmd_ok (foldl redirect c rs) = true.
Proof.
  induction rs as [|[o f] rs IH]; intros c Hc; [done|]. rewrite bind_cons, forallb_app. intros [Hr Hrs]%andb_true_iff.
  cbn [foldl]. apply IH; [|done]. cbn [redir_tokens forallb token_ok fst snd] in Hr.
  apply andb_true_iff in Hr as [_ [Hw _]%andb_true_iff]. unfold redirect. cbn [cmd_ok fst snd]. rewrite Hc, Hw.
  by destruct o.
Qed.

Lemma items_ok its : forallb token_ok (its ≫= item_tokens) = true ->
  forallb word_ok (words_of its) = true /\ forallb token_ok (redirs_of its ≫= redir_tokens) = true.
Proof.
  induction its as [|[w|r] its IH]; [done| |]; rewrite bind_cons, forallb_app; intros [Hi Hs]%andb_true_iff; destruct (IH Hs) as [Hw Hr].
  - cbn [item_tokens forallb token_ok] in Hi. apply andb_true_iff in Hi as [Hi _].
    split; [|exact Hr]. change (words_of (inl w :: its)) with (w :: words_of its). cbn [forallb]. by rewrite Hi.
  - split; [exact Hw|]. change (redirs_of (inr r :: its)) with (r :: redirs_of its). rewrite bind_cons, forallb_app, Hr, andb_true_r.
    exact Hi.
Qed.

Lemma iter_back_ok n c : cmd_ok (Nat.iter n BACK c) = cmd_ok c.
Proof. induction n as [|n IH]; [done|exact IH]. Qed.

Lemma grammar_ok :
  (forall ts a, line ts a -> forallb token_ok ts = true -> cmd_ok a = true) /\
  (forall ts a, pipeline ts a -> forallb token_ok ts = true -> cmd_ok a = true) /\
  (forall ts a, simple ts a -> forallb token_ok ts = true -> cmd_ok a = true).
Proof.
  apply grammar_ind.
  - intros ts c n _ IH. rewrite forallb_app. intros [Ht _]%andb_true_iff. rewrite iter_back_ok. by apply IH.
  - intros ts c n ts' c' _ IH _ IH'. rewrite !forallb_app. cbn [forallb]. intros [Ht [_ [_ Ht']%andb_true_iff]%andb_true_iff]%andb_true_iff.
    cbn [cmd_ok]. by rewrite iter_back_ok, IH, IH'.
  - intros ts c _ IH. exact IH.
  - intros ts c ts' c' _ IH _ IH'. rewrite forallb_app. cbn [forallb]. intros [Ht [_ Ht']%andb_true_iff]%andb_true_iff.
    cbn [cmd_ok]. by rewrite IH, IH'.
  - intros its Hm Ht. destruct (items_ok its Ht) as [Hw Hr]. apply redirect_ok; [|exact Hr].
    cbn [cmd_ok]. by rewrite Hw, (proj2 (Nat.ltb_lt _ _) Hm).
  - intros ts c rs _ IH. cbn [forallb]. intros [_ Ht]%andb_true_iff. rewrite forallb_app in Ht. cbn [forallb] in Ht.
    apply andb_true_iff in Ht as [Ht [_ Hr]%andb_true_iff]. apply redirect_ok; [by apply IH|exact Hr].
Qed.

Lemma parsed_ok str tail c buf : Forall (fun c => c <> 0) str -> parsecmd (str ++ 0 :: tail) = Ok (c, buf) -> cmd_ok (view buf c) = true.
Proof.
  intros Hn E. pose proof (parsecmd_run str tail Hn) as Hr. rewrite E in Hr.
  destruct grammar_ok as [Hg _]. apply (Hg (tokens str)); [by apply Hr|]. by apply tokens_ok.
Qed.

Lemma printed_parses a tail : cmd_ok a = true -> exists c buf, parsecmd (print_cmd a ++ 0 :: tail) = Ok (c, buf) /\ view buf c = a.
Proof.
  intros Ha. destruct (tokens_text (show 0 a) (show_tokens a 0 Ha)) as [Ht Hn]. pose proof (parsecmd_run (print_cmd a) tail Hn) as Hr.
  unfold print_cmd at 2 3 in Hr. rewrite Ht in Hr. destruct (show_grammar a Ha) as (_ & _ & _ & Hl).
  destruct (parsecmd (print_cmd a ++ 0 :: tail)) as [[c buf]|e]; [|by destruct (proj2 Hr a Hl)]. exists c, buf. split; [done|]. by apply Hr.
Qed.

(** ** Properties *)

(** C8: parsecmd decides the shell's grammar.  On every line the parser stops
    without an access outside the line; either it returns the one command that
    the grammar gives for the line's tokens, whose strings, read from the line
    after nulterminate, are the words, or it reports a syntax error and the
    grammar has no command for the line. *)
Theorem parsecmd_correct str tail : Forall (fun c => c <> 0) str ->
  match parsecmd (str ++ 0 :: tail) with
  | Ok (c, buf) => forall a, line (tokens str) a <-> view buf c = a
  | Err e => e = Exit 0 /\ forall a, ~ line (tokens str) a
  end.
Proof. apply parsecmd_run. Qed.

(** C9: the commands that [parsecmd] returns are [cmd_ok]: a simple command has
    fewer than MAXARGS words, words and file names are not empty and hold no
    NUL, blank or symbol of the shell, and a redirection has the mode and the
    descriptor of its operator.  Conversely every [cmd_ok] command can be
    written down: the line that [print_cmd] writes is parsed to that command,
    nesting, redirections and words included.  So printing what was parsed and
    parsing it again gives the same command. *)
Theorem print_parse a tail :
  (cmd_ok a = true -> exists c buf, parsecmd (print_cmd a ++ 0 :: tail) = Ok (c, buf) /\ view buf c = a) /\
  (forall str c buf, Forall (fun c => c <> 0) str -> parsecmd (str ++ 0 :: tail) = Ok (c, buf) ->
    cmd_ok (view buf c) = true /\
    exists c' buf', parsecmd (print_cmd (view buf c) ++ 0 :: tail) = Ok (c', buf') /\ view buf' c' = view buf c).
Proof.
  split; [apply printed_parses|]. intros str c buf Hn E. pose proof (parsed_ok str tail c buf Hn E) as Hok.
  split; [exact Hok|]. by apply printed_parses.
Qed.

(** ** Examples *)
Definition ex_cmd : cmd (list Z) :=
  LIST (BACK (PIPE (REDIR (EXEC [chr "cat"]) (chr "in") O_RDONLY 0) (PIPE (LIST (EXEC [chr "a"; chr "-b"]) (BACK (EXEC [chr "c"]))) (EXEC [chr "wc"]))))
    (REDIR (PIPE (EXEC []) (EXEC [chr "x"])) (chr "out") (Z.lor O_WRONLY O_CREATE) 1).

Example print_ex : print_cmd ex_cmd = chr "cat < in | ( a -b ; c & ) | wc & ; ( | x ) > out ".
Proof. vm_compute. reflexivity. Qed.

Lemma print_parse_witness : cmd_ok ex_cmd = true /\
  (exists c buf, parsecmd (print_cmd ex_cmd ++ [0]) = Ok (c, buf) /\ view buf c = ex_cmd) /\
  (forall c buf, parsecmd (chr "a|b" ++ [0]) = Ok (c, buf) -> cmd_ok (view buf c) = true).
Proof.
  destruct (print_parse ex_cmd []) as [Hp Hq]. split; [reflexivity|split; [apply Hp; reflexivity|]].
  intros c buf E. apply (Hq (chr "a|b") c buf); [|exact E]. vm_compute. repeat (constructor; [discriminate|]). constructor.
Defined.

Definition ex_line : list Z := chr "ls>f|wc  -l;x".
Lemma parsecmd_correct_witness : exists c buf, parsecmd (ex_line ++ [0]) = Ok (c, buf) /\
  forall a, line (tokens ex_line) a <-> view buf c = a.
Proof.
  assert (Forall (fun c => c <> 0) ex_line) as Hn by (vm_compute; repeat (constructor; [discriminate|]); constructor).
  pose proof (parsecmd_correct ex_line [] Hn) as Hp. destruct (parsecmd (ex_line ++ [0])) as [[c buf]|e] eqn:E; [exists c, buf; split; [reflexivity|exact Hp]|].
  vm_compute in E. discriminate E.
Defined.

(** A syntax error is found, and a command needs fewer than MAXARGS words. *)
Example syntax_error : parsecmd (chr "a | ( b" ++ [0]) = Err (Exit 0).
Proof. vm_compute. reflexivity. Qed.
Example ten_words : parsecmd (chr "a b c d e f g h i j" ++ [0]) = Err (Exit 0).
Proof. vm_compute. reflexivity. Qed.

(** [>>], which should append, gives the command that [>] gives. *)
Lemma append_is_write : exists c1 b1 c2 b2, parsecmd (chr "a >> f" ++ [0]) = Ok (c1, b1) /\ parsecmd (chr "a > f" ++ [0]) = Ok (c2, b2) /\
  view b1 c1 = view b2 c2.
Proof. do 4 eexists. split; [vm_compute; reflexivity|]. split; [vm_compute; reflexivity|]. reflexivity. Qed.
