(* ===== verification/Runcmd.v ===== *)
(** * Running commands, xv6 wmap/solution/sh.c

    runcmd and main over the descriptor table of the process, as sysfile.c keeps
    it: a descriptor is the lowest free one.  The log lists what the tree of
    processes starts and where it waits, with the descriptors held there; fork
    is taken to succeed.  [meaning] is the reference: three streams. *)
From S2P Require Import Prelude Text Shell.

Definition NOFILE : nat := 16.
Definition O_RDWR : Z := 2.

(** What a descriptor refers to. *)
Inductive obj : Type := Console | OFile (name : list Z) (mode : Z) | PipeR (k : nat) | PipeW (k : nat).
#[export] Instance obj_eq_dec : EqDecision obj.
Proof. solve_decision. Defined.

Notation fdtab := (list (option obj)).

Inductive event : Type := ERun (argv : list (list Z)) (t : fdtab) | EWait (t : fdtab).

(** A process of the shell; the pipes and the log are those of all processes. *)
Record shell : Type := mkShell { fds : fdtab; npipes : nat; log : list event }.

Section run.
Variable can_open : list Z -> Z -> bool.

(** ** The system calls on descriptors *)
Definition fdalloc (f : obj) : M shell (option nat) :=
  s ← get;
  match list_find (fun o => o = None) (fds s) with
  | Some (fd, _) => _ ← put (mkShell (<[fd := Some f]> (fds s)) (npipes s) (log s)); mret (Some fd)
  | None => mret None
  end.

Definition close (fd : nat) : M shell unit :=
  modify (fun s => mkShell (match fds s !! fd with Some (Some _) => <[fd := None]> (fds s) | _ => fds s end) (npipes s) (log s)).

Definition dup (fd : nat) : M shell (option nat) :=
  s ← get; match fds s !! fd with Some (Some f) => fdalloc f | _ => mret None end.

Definition open (name : list Z) (mode : Z) : M shell (option nat) := if can_open name mode then fdalloc (OFile name mode) else mret None.

Definition pipe : M shell (option (nat * nat)) :=
  s ← get;
  let k := npipes s in
  _ ← put (mkShell (fds s) (S k) (log s));
  r0 ← fdalloc (PipeR k);
  match r0 with
  | None => mret None
  | Some fd0 =>
      r1 ← fdalloc (PipeW k);
      match r1 with None => _ ← close fd0; mret None | Some fd1 => mret (Some (fd0, fd1)) end
  end.

Definition exec (argv : list (list Z)) : M shell unit := modify (fun s => mkShell (fds s) (npipes s) (log s ++ [ERun argv (fds s)])).
Definition wait : M shell unit := modify (fun s => mkShell (fds s) (npipes s) (log s ++ [EWait (fds s)])).

(** The child has a copy of the descriptors and ends after its work. *)
Definition fork1 (child : M shell unit) : M shell unit :=
  s ← get; _ ← child; modify (fun s' => mkShell (fds s) (npipes s') (log s')).

(** ** runcmd: returning stands for exit *)
Fixpoint runcmd (c : cmd (list Z)) : M shell unit :=
  match c with
  | EXEC argv => match argv with [] => mret tt | _ => exec argv end
  | REDIR c file mode fd =>
      _ ← close (Z.to_nat fd);
      r ← open file mode;
      match r with None => mret tt | Some _ => runcmd c end
  | LIST l r =>
      _ ← fork1 (runcmd l);
      _ ← wait;
      runcmd r
  | PIPE l r =>
      p ← pipe;
      match p with
      | None => mret tt
      | Some (p0, p1) =>
          _ ← fork1 (_ ← close 1; _ ← dup p1; _ ← close p0; _ ← close p1; runcmd l);
          _ ← fork1 (_ ← close 0; _ ← dup p0; _ ← close p0; _ ← close p1; runcmd r);
          _ ← close p0;
          _ ← close p1;
          _ ← wait;
          wait
      end
  | BACK c => fork1 (runcmd c)
  end.

(** ** main *)

(** while((fd = open("console", O_RDWR)) >= 0) if(fd >= 3) ... *)
Fixpoint open_console (fuel : nat) : M shell unit :=
  match fuel with
  | O => fail OutOfFuel
  | S fuel' =>
      r ← open (chr "console") O_RDWR;
      match r with
      | None => mret tt
      | Some fd => if (3 <=? fd)%nat then close fd else open_console fuel'
      end
  end.

(** gets: up to [n] bytes, to the end of a line. *)
Fixpoint gets (n : nat) (input : list Z) : list Z * list Z :=
  match n, input with
  | S n', c :: input' => if (c =? 10) || (c =? 13) then ([c], input') else let '(l, r) := gets n' input' in (c :: l, r)
  | _, _ => ([], input)
  end.

(** What main does with a line: change the directory itself, or let a child
    parse and run it. *)
Inductive action : Type := Chdir (path : list Z) | Fork (line : list Z).

Definition dispatch (line : list Z) : action :=
  match line with
  | c :: d :: s :: path => if (c =? 99) && (d =? 100) && (s =? 32) then Chdir (removelast path) else Fork line
  | _ => Fork line
  end.

(** The static buffer has 100 bytes; a line that starts with NUL ends the input. *)
Fixpoint session (fuel : nat) (input : list Z) : option (list action) :=
  match fuel with
  | O => None
  | S fuel' =>
      let '(buf, rest) := gets 99 input in
      match until_nul buf with
      | [] => Some []
      | line => cons (dispatch line) <$> session fuel' rest
      end
  end.

(** ** The reference *)
Record streams : Type := mkStreams { sin : obj; sout : obj; serr : obj }.
Definition std (st : streams) : fdtab := [Some (sin st); Some (sout st); Some (serr st)] ++ replicate 13 None.
Definition set_stream (fd : Z) (f : obj) (st : streams) : streams :=
  if fd =? 0 then mkStreams f (sout st) (serr st) else mkStreams (sin st) f (serr st).

(** What a command starts with the streams [st], and the pipes made so far. *)
Fixpoint meaning (c : cmd (list Z)) (st : streams) (k : nat) : list event * nat :=
  match c with
  | EXEC argv => (match argv with [] => [] | _ => [ERun argv (std st)] end, k)
  | REDIR c file mode fd => if can_open file mode then meaning c (set_stream fd (OFile file mode) st) k else ([], k)
  | LIST l r =>
      let '(e1, k1) := meaning l st k in let '(e2, k2) := meaning r st k1 in (e1 ++ EWait (std st) :: e2, k2)
  | PIPE l r =>
      let '(e1, k1) := meaning l (set_stream 1 (PipeW k) st) (S k) in
      let '(e2, k2) := meaning r (set_stream 0 (PipeR k) st) k1 in
      (e1 ++ e2 ++ [EWait (std st); EWait (std st)], k2)
  | BACK c => meaning c st k
  end.

(** Redirections of standard input and output, as the parser makes them. *)
Fixpoint redirs_ok (c : cmd (list Z)) : bool :=
  match c with
  | EXEC _ => true
  | REDIR c _ _ fd => ((fd =? 0) || (fd =? 1)) && redirs_ok c
  | PIPE l r | LIST l r => redirs_ok l && redirs_ok r
  | BACK c => redirs_ok c
  end.
End run.

Section proofs.
Variable can_open : list Z -> Z -> bool.
Notation runcmd := (runcmd can_open).
Notation meaning := (meaning can_open).

Lemma runcmd_run c : forall st k lg, redirs_ok c = true -> exists t,
  runcmd c (mkShell (std st) k lg) = Ok (tt, mkShell t (meaning c st k).2 (lg ++ (meaning c st k).1)).
Proof.
  induction c as [argv|c IH f md fd|l IHl r IHr|l IHl r IHr|c IH]; intros [i o e] k lg Hc; cbn [redirs_ok] in Hc; cbn [runcmd meaning].
  - exists (std (mkStreams i o e)). destruct argv; [by rewrite app_nil_r|done].
  - apply andb_true_iff in Hc as [Hfd Hc]. apply orb_true_iff in Hfd as [->%Z.eqb_eq| ->%Z.eqb_eq].
    + rewrite (bind_Ok _ _ _ tt (mkShell (None :: tail (std (mkStreams i o e))) k lg)) by done. unfold open. destruct (can_open f md); [|eexists; by rewrite app_nil_r].
      rewrite (bind_Ok _ _ _ (Some 0%nat) (mkShell (std (mkStreams (OFile f md) o e)) k lg)) by done. by apply IH.
    + rewrite (bind_Ok _ _ _ tt (mkShell (Some i :: None :: tail (tail (std (mkStreams i o e)))) k lg)) by done. unfold open. destruct (can_open f md); [|eexists; by rewrite app_nil_r].
      rewrite (bind_Ok _ _ _ (Some 1%nat) (mkShell (std (mkStreams i (OFile f md) e)) k lg)) by done. by apply IH.
  - apply andb_true_iff in Hc as [Hl Hr].
    set (t2 := [Some i; Some o; Some e; Some (PipeR k); Some (PipeW k)] ++ replicate 11 None).
    rewrite (bind_Ok _ _ _ (Some (3, 4)%nat) (mkShell t2 (S k) lg)) by done. cbv iota beta.
    destruct (IHl (mkStreams i (PipeW k) e) (S k) lg Hl) as (t3 & E3). change (set_stream 1 (PipeW k) (mkStreams i o e)) with (mkStreams i (PipeW k) e).
    destruct (meaning l (mkStreams i (PipeW k) e) (S k)) as [e1 k1]. cbn [fst snd] in E3.
    rewrite (bind_Ok _ _ _ tt (mkShell t2 k1 (lg ++ e1))).
    2:{ unfold fork1. rewrite (bind_Ok _ _ _ (mkShell t2 (S k) lg) (mkShell t2 (S k) lg)) by done.
       rewrite (bind_Ok _ _ _ tt (mkShell t3 k1 (lg ++ e1))) by (etransitivity; [|exact E3]; done). done. }
    destruct (IHr (mkStreams (PipeR k) o e) k1 (lg ++ e1) Hr) as (t4 & E4). change (set_stream 0 (PipeR k) (mkStreams i o e)) with (mkStreams (PipeR k) o e).
    destruct (meaning r (mkStreams (PipeR k) o e) k1) as [e2 k2]. cbn [fst snd] in E4 |- *.
    rewrite (bind_Ok _ _ _ tt (mkShell t2 k2 ((lg ++ e1) ++ e2))).
    2:{ unfold fork1. rewrite (bind_Ok _ _ _ (mkShell t2 k1 (lg ++ e1)) (mkShell t2 k1 (lg ++ e1))) by done.
       rewrite (bind_Ok _ _ _ tt (mkShell t4 k2 ((lg ++ e1) ++ e2))) by (etransitivity; [|exact E4]; done). done. }
    exists (std (mkStreams i o e)). unfold mbind, M_bind, close, wait, modify. cbn. by rewrite <-!app_assoc.
  - apply andb_true_iff in Hc as [Hl Hr]. destruct (IHl (mkStreams i o e) k lg Hl) as (t3 & E3). destruct (meaning l (mkStreams i o e) k) as [e1 k1]. cbn [fst snd] in E3.
    rewrite (bind_Ok _ _ _ tt (mkShell (std (mkStreams i o e)) k1 (lg ++ e1))).
    2:{ unfold fork1. rewrite (bind_Ok _ _ _ (mkShell (std (mkStreams i o e)) k lg) (mkShell (std (mkStreams i o e)) k lg)) by done. by rewrite (bind_Ok _ _ _ tt _ E3). }
    rewrite (bind_Ok _ _ _ tt (mkShell (std (mkStreams i o e)) k1 ((lg ++ e1) ++ [EWait (std (mkStreams i o e))]))) by done.
    destruct (IHr (mkStreams i o e) k1 ((lg ++ e1) ++ [EWait (std (mkStreams i o e))]) Hr) as (t4 & E4). destruct (meaning r (mkStreams i o e) k1) as [e2 k2]. cbn [fst snd] in E4 |- *.
    exists t4. rewrite E4. by rewrite <-!app_assoc.
  - destruct (IH (mkStreams i o e) k lg Hc) as (t & E). exists (std (mkStreams i o e)). unfold fork1.
    rewrite (bind_Ok _ _ _ (mkShell (std (mkStreams i o e)) k lg) (mkShell (std (mkStreams i o e)) k lg)) by done. by rewrite (bind_Ok _ _ _ tt _ E).
Qed.

(** The commands of the grammar redirect only these two. *)
Lemma grammar_redirs_ok : (forall ts a, line ts a -> redirs_ok a = true) /\ (forall ts a, pipeline ts a -> redirs_ok a = true) /\ (forall ts a, simple ts a -> redirs_ok a = true).
Proof.
  assert (forall n c, redirs_ok (Nat.iter n BACK c) = redirs_ok c) as Hb by (intros n c; induction n; done).
  assert (forall rs c, redirs_ok c = true -> redirs_ok (foldl redirect c rs) = true) as Hr.
  { intros rs. induction rs as [|[o w] rs IH]; intros c Hc; [done|]. apply IH. cbn. rewrite Hc. by destruct o. }
  apply grammar_ind.
  - intros ts c n _ IH. by rewrite Hb.
  - intros ts c n ts' c' _ IH1 _ IH2. cbn. by rewrite Hb, IH1, IH2.
  - done.
  - intros ts c ts' c' _ IH1 _ IH2. cbn. by rewrite IH1, IH2.
  - intros its _. by apply Hr.
  - intros ts c rs _ IH. by apply Hr.
Qed.

(** ** Who holds the ends of a pipe *)
Definition table_of (ev : event) : fdtab := match ev with ERun _ t | EWait t => t end.
Definition holds (f : obj) (ev : event) : Prop := Some f ∈ table_of ev.
(** The pipes of [st] are older than [k]. *)
Definition older (k : nat) (f : obj) : Prop := match f with PipeR j | PipeW j => (j < k)%nat | _ => True end.
Definition streams_older (k : nat) (st : streams) : Prop := older k (sin st) /\ older k (sout st) /\ older k (serr st).

Lemma in_std f st : Some f ∈ std st <-> f = sin st \/ f = sout st \/ f = serr st.
Proof.
  unfold std. rewrite elem_of_app. split.
  - intros [H|H]; [set_solver|]. by apply elem_of_replicate in H as [H _].
  - intros H. left. set_solver.
Qed.

Lemma older_mono k k' f : (k <= k')%nat -> older k f -> older k' f.
Proof. destruct f; cbn; lia || done. Qed.

Lemma holds_std f st argv : (holds f (ERun argv (std st)) -> f = sin st \/ f = sout st \/ f = serr st) /\ (holds f (EWait (std st)) -> f = sin st \/ f = sout st \/ f = serr st).
Proof. unfold holds. cbn [table_of]. rewrite in_std. done. Qed.

(** Everything a command starts holds only its streams, files and newer pipes. *)
Lemma meaning_holds c : forall st k, (k <= (meaning c st k).2)%nat /\ forall ev f, ev ∈ (meaning c st k).1 -> holds f ev ->
  f = sin st \/ f = sout st \/ f = serr st \/ (exists n m, f = OFile n m) \/ ~ older k f.
Proof.
  induction c as [argv|c IH n md fd|l IHl r IHr|l IHl r IHr|c IH]; intros st k; cbn [meaning].
  - split; [done|]. intros ev f Hev Hf. destruct argv as [|a argv]; [by apply elem_of_nil in Hev|].
    apply list_elem_of_singleton in Hev as ->. apply (proj1 (holds_std f st (a :: argv))) in Hf. tauto.
  - destruct (can_open n md); [|split; [done|]; intros ev f Hev; by apply elem_of_nil in Hev]. destruct (IH (set_stream fd (OFile n md) st) k) as [Hk H]. split; [done|].
    intros ev f Hev Hf. specialize (H ev f Hev Hf). unfold set_stream in H. destruct (fd =? 0); cbn in H; naive_solver.
  - destruct (IHl (set_stream 1 (PipeW k) st) (S k)) as [Hk1 H1]. destruct (meaning l _ (S k)) as [e1 k1]. cbn [fst snd] in *.
    destruct (IHr (set_stream 0 (PipeR k) st) k1) as [Hk2 H2]. destruct (meaning r _ k1) as [e2 k2]. cbn [fst snd] in *. split; [lia|].
    assert (forall j f, (k <= j)%nat -> ~ older j f -> ~ older k f) as Hold by (intros j f Hj Hn Ho; apply Hn; by eapply older_mono).
    assert (~ older k (PipeW k) /\ ~ older k (PipeR k)) as [HW HR] by (cbn; lia).
    intros ev f Hev Hf. apply elem_of_app in Hev as [Hev|Hev]; [|apply elem_of_app in Hev as [Hev|Hev]].
    + destruct (H1 ev f Hev Hf) as [H|[H|[H|[H|H]]]]; cbn in H; [tauto|subst f; tauto|tauto|tauto|]. do 4 right. by apply (Hold (S k)); [lia|].
    + destruct (H2 ev f Hev Hf) as [H|[H|[H|[H|H]]]]; cbn in H; [subst f; tauto|tauto|tauto|tauto|]. do 4 right. by apply (Hold k1); [lia|].
    + assert (ev = EWait (std st)) as -> by set_solver. apply (proj2 (holds_std f st [])) in Hf. tauto.
  - destruct (IHl st k) as [Hk1 H1]. destruct (meaning l st k) as [e1 k1]. cbn [fst snd] in *.
    destruct (IHr st k1) as [Hk2 H2]. destruct (meaning r st k1) as [e2 k2]. cbn [fst snd] in *. split; [lia|].
    intros ev f Hev Hf. apply elem_of_app in Hev as [Hev|Hev]; [by apply (H1 ev)|]. apply elem_of_cons in Hev as [->|Hev].
    + apply (proj2 (holds_std f st [])) in Hf. tauto.
    + destruct (H2 ev f Hev Hf) as [H|[H|[H|[H|H]]]]; [tauto..|]. do 4 right. intros Ho. apply H. by eapply older_mono.
  - apply IH.
Qed.

Lemma std_older k st f ev : streams_older k st -> (exists argv, ev = ERun argv (std st)) \/ ev = EWait (std st) -> holds f ev -> older k f.
Proof.
  intros (H1 & H2 & H3) Hev Hf. assert (f = sin st \/ f = sout st \/ f = serr st) as Hc.
  { destruct Hev as [[argv ->]| ->]; [by apply (holds_std f st argv)|by apply (holds_std f st [])]. }
  by destruct Hc as [->|[->| ->]].
Qed.

(** The tables after the three console descriptors are open. *)
Lemma open_console_full fuel t k lg : (3 <= length t)%nat -> (forall i, (i < 3)%nat -> t !! i <> Some None) ->
  open_console can_open (S fuel) (mkShell t k lg) = Ok (tt, mkShell t k lg).
Proof.
  intros Hl Ht. cbn [open_console]. unfold open. destruct (can_open (chr "console") O_RDWR); [|done].
  unfold fdalloc, mbind, M_bind, get. cbn [fds]. destruct (list_find (fun o => o = None) t) as [[fd o]|] eqn:E; [|done].
  apply list_find_Some in E as (Hfd & -> & _). assert (3 <= fd)%nat as H3 by (destruct (decide (fd < 3)%nat) as [Hlt|]; [by destruct (Ht fd Hlt)|lia]).
  unfold put, mret, M_ret. cbn [fds]. rewrite (proj2 (Nat.leb_le 3 fd)) by done. unfold close, modify. cbn [fds npipes log].
  rewrite list_lookup_insert_eq by (by eapply lookup_lt_Some). rewrite list_insert_insert_eq, list_insert_id by done. done.
Qed.

Lemma open_console_run a b c t k lg : can_open (chr "console") O_RDWR = true ->
  let fill o := Some (default (OFile (chr "console") O_RDWR) o) in
  open_console can_open 4 (mkShell (a :: b :: c :: t) k lg) = Ok (tt, mkShell (fill a :: fill b :: fill c :: t) k lg).
Proof.
  intros Ho fill. assert (forall x y z fuel, open_console can_open (S fuel) (mkShell (Some x :: Some y :: Some z :: t) k lg) = Ok (tt, mkShell (Some x :: Some y :: Some z :: t) k lg)) as Hfull.
  { intros x y z fuel. apply open_console_full; [cbn; lia|]. intros [|[|[|i]]] Hi; cbn; congruence || lia. }
  assert (forall fuel t1 t2 i, list_find (fun o => o = None) t1 = Some (i, None) -> (i < 3)%nat -> <[i := Some (OFile (chr "console") O_RDWR)]> t1 = t2 ->
    open_console can_open (S fuel) (mkShell t1 k lg) = open_console can_open fuel (mkShell t2 k lg)) as Hone.
  { intros fuel t1 t2 i Hf Hi <-. cbn [open_console]. unfold open. rewrite Ho. unfold fdalloc, mbind, M_bind, get. cbn [fds]. rewrite Hf. unfold put, mret, M_ret. cbn [fds npipes log].
    by rewrite (proj2 (Nat.leb_gt 3 i)) by lia. }
  destruct a as [a|], b as [b|], c as [c|]; cbn [fill default];
    repeat (first [apply Hfull|erewrite (Hone _ _ _ 0%nat) by (done || lia)|erewrite (Hone _ _ _ 1%nat) by (done || lia)|erewrite (Hone _ _ _ 2%nat) by (done || lia)]).
Qed.
End proofs.

(** ** Lines *)
Lemma gets_line n l rest : Forall (fun c => c <> 10 /\ c <> 13) l -> (length l < n)%nat -> gets n (l ++ 10 :: rest) = (l ++ [10], rest).
Proof.
  intros Hl. revert n. induction Hl as [|c l [H1 H2] Hl IH]; intros [|n] Hn; cbn [length] in Hn; try lia; [done|]. cbn [gets app].
  rewrite (proj2 (Z.eqb_neq c 10)), (proj2 (Z.eqb_neq c 13)) by done. cbn [orb]. by rewrite IH by lia.
Qed.

Definition line_ok (l : list Z) : Prop := Forall (fun c => c <> 10 /\ c <> 13 /\ c <> 0) l /\ (length l < 99)%nat.

Lemma session_run ls : Forall line_ok ls -> session (S (length ls)) (ls ≫= fun l => l ++ [10]) = Some ((fun l => dispatch (l ++ [10])) <$> ls).
Proof.
  induction 1 as [|l ls [Hl Hn] Hls IH]; [done|]. cbn [length]. change ((l :: ls) ≫= (fun l => l ++ [10])) with ((l ++ [10]) ++ (ls ≫= fun l => l ++ [10])).
  rewrite <-app_assoc. cbn [app]. remember (S (length ls)) as fuel. cbn [session]. rewrite gets_line; [|by eapply Forall_impl; [exact Hl|naive_solver]|done].
  replace (until_nul (l ++ [10])) with (l ++ [10]).
  2:{ clear -Hl. induction Hl as [|c l (_ & _ & H) Hl IH]; [done|]. cbn [app until_nul]. rewrite (proj2 (Z.eqb_neq c 0)) by done. by rewrite <-IH. }
  destruct (l ++ [10]) eqn:E; [by destruct l|]. rewrite <-E. rewrite IH. cbn. by rewrite E.
Qed.

(** ** Properties *)

(** C10: runcmd gives every program its streams.  Closing, opening and
    duplicating the lowest free descriptors in the right processes amounts to
    passing three streams down the command: a redirection replaces one, a pipe
    the output of its left and the input of its right side.  The programs
    started and the shells that wait hold these three descriptors and nothing
    else, and the parts run in the order of the command. *)
Theorem runcmd_meaning can_open c st k lg : redirs_ok c = true -> exists t,
  runcmd can_open c (mkShell (std st) k lg) = Ok (tt, mkShell t (meaning can_open c st k).2 (lg ++ (meaning can_open c st k).1)).
Proof. intros Hc. by apply runcmd_run. Qed.

(** C11: the reader of a pipeline sees the end of its input.  [l | r] runs [l]
    with its output replaced by the write end of a new pipe and [r] with its
    input replaced by the read end; the events of the pipeline are those of [l],
    those of [r] and the two waits.  The write end is held only by programs and
    shells of [l], the read end only by those of [r]: not by the other side and
    not by the shell that waits for both, so the read end is at its end once the
    programs of [l] have exited. *)
Theorem pipeline_ends can_open l r st k lg : redirs_ok (PIPE l r) = true -> streams_older k st ->
  exists t t1 t2 k1 k2 e1 e2,
  runcmd can_open l (mkShell (std (set_stream 1 (PipeW k) st)) (S k) []) = Ok (tt, mkShell t1 k1 e1) /\
  runcmd can_open r (mkShell (std (set_stream 0 (PipeR k) st)) k1 []) = Ok (tt, mkShell t2 k2 e2) /\
  runcmd can_open (PIPE l r) (mkShell (std st) k lg) = Ok (tt, mkShell t k2 (lg ++ e1 ++ e2 ++ [EWait (std st); EWait (std st)])) /\
  (forall ev, ev ∈ e1 -> ~ holds (PipeR k) ev) /\ (forall ev, ev ∈ e2 -> ~ holds (PipeW k) ev) /\
  ~ holds (PipeR k) (EWait (std st)) /\ ~ holds (PipeW k) (EWait (std st)).
Proof.
  intros Hc Hst. destruct (runcmd_run can_open (PIPE l r) st k lg Hc) as (t & E). cbn [meaning] in E.
  cbn [redirs_ok] in Hc. apply andb_prop in Hc as [Hcl Hcr].
  destruct (runcmd_run can_open l (set_stream 1 (PipeW k) st) (S k) [] Hcl) as (t1 & E1).
  destruct (meaning_holds can_open l (set_stream 1 (PipeW k) st) (S k)) as [Hk1 H1]. destruct (meaning can_open l (set_stream 1 (PipeW k) st) (S k)) as [e1 k1].
  cbn [fst snd] in *.
  destruct (runcmd_run can_open r (set_stream 0 (PipeR k) st) k1 [] Hcr) as (t2 & E2).
  destruct (meaning_holds can_open r (set_stream 0 (PipeR k) st) k1) as [_ H2]. destruct (meaning can_open r (set_stream 0 (PipeR k) st) k1) as [e2 k2].
  cbn [fst snd] in *. pose proof Hst as (Ho1 & Ho2 & Ho3). exists t, t1, t2, k1, k2, e1, e2.
  split; [exact E1|split; [exact E2|split; [exact E|]]].
  assert (forall f, ~ older k f -> ~ holds f (EWait (std st))) as Hw by (intros f Hf Hh; apply Hf; by eapply std_older; [|right|]).
  split; [|split; [|split; apply Hw; cbn; lia]]; intros ev Hev Hh.
  - destruct (H1 ev _ Hev Hh) as [H|[H|[H|[(n & m & H)|H]]]]; cbn in H; [rewrite <-H in Ho1; cbn in Ho1; lia|done|rewrite <-H in Ho3; cbn in Ho3; lia|done|lia].
  - destruct (H2 ev _ Hev Hh) as [H|[H|[H|[(n & m & H)|H]]]]; cbn in H; [done|rewrite <-H in Ho2; cbn in Ho2; lia|rewrite <-H in Ho3; cbn in Ho3; lia|done|lia].
Qed.

(** The shell starts with its three standard descriptors open and then
    takes its input line by line: a line [cd path] changes the directory, any
    other line goes to a child whole. *)
Theorem main_loop can_open a b c t k lg ls : can_open (chr "console") O_RDWR = true -> Forall line_ok ls ->
  (exists x y z, open_console can_open 4 (mkShell (a :: b :: c :: t) k lg) = Ok (tt, mkShell (Some x :: Some y :: Some z :: t) k lg)) /\
  session (S (length ls)) (ls ≫= fun l => l ++ [10]) = Some ((fun l => dispatch (l ++ [10])) <$> ls) /\
  forall path, dispatch (chr "cd " ++ path ++ [10]) = Chdir path.
Proof.
  intros Ho Hl. split; [|split; [by apply session_run|]].
  - do 3 eexists. rewrite (open_console_run can_open a b c t k lg Ho). reflexivity.
  - intros path. cbn. f_equal. apply removelast_last.
Qed.

(** Without a newline, at the end of the input or after 99 bytes, main cuts the
    last character of the path. *)
Lemma cd_cuts_path : session 2 (chr "cd dir") = Some [Chdir (chr "di")].
Proof. vm_compute. reflexivity. Qed.

Definition ex_streams : streams := mkStreams Console Console Console.
Definition ex_pipeline : cmd (list Z) := PIPE (REDIR (EXEC [chr "cat"]) (chr "in") 0 0) (PIPE (EXEC [chr "grep"; chr "x"]) (BACK (EXEC [chr "wc"]))).
Lemma runcmd_meaning_witness : exists t k lg, runcmd (fun _ _ => true) ex_pipeline (mkShell (std ex_streams) 0 []) = Ok (tt, mkShell t k lg) /\ length lg = 7%nat.
Proof. destruct (runcmd_meaning (fun _ _ => true) ex_pipeline ex_streams 0 [] eq_refl) as (t & E). do 3 eexists. split; [exact E|reflexivity]. Defined.

Lemma pipeline_ends_witness : exists t t1 t2 k1 k2 e1 e2,
  runcmd (fun _ _ => true) (REDIR (EXEC [chr "cat"]) (chr "in") 0 0) (mkShell (std (mkStreams Console (PipeW 0) Console)) 1 []) = Ok (tt, mkShell t1 k1 e1) /\
  runcmd (fun _ _ => true) (PIPE (EXEC [chr "grep"; chr "x"]) (BACK (EXEC [chr "wc"]))) (mkShell (std (mkStreams (PipeR 0) Console Console)) k1 []) = Ok (tt, mkShell t2 k2 e2) /\
  runcmd (fun _ _ => true) ex_pipeline (mkShell (std ex_streams) 0 []) = Ok (tt, mkShell t k2 (e1 ++ e2 ++ [EWait (std ex_streams); EWait (std ex_streams)])) /\
  (forall ev, ev ∈ e1 -> ~ holds (PipeR 0) ev) /\ (forall ev, ev ∈ e2 -> ~ holds (PipeW 0) ev).
Proof.
  destruct (pipeline_ends (fun _ _ => true) (REDIR (EXEC [chr "cat"]) (chr "in") 0 0) (PIPE (EXEC [chr "grep"; chr "x"]) (BACK (EXEC [chr "wc"]))) ex_streams 0 [] eq_refl) as (t & t1 & t2 & k1 & k2 & e1 & e2 & E1 & E2 & E & H1 & H2 & _).
  - repeat split.
  - exists t, t1, t2, k1, k2, e1, e2. split; [exact E1|split; [exact E2|split; [exact E|split; [exact H1|exact H2]]]].
Defined.

Lemma main_loop_witness : session 3 ([chr "cd dir"; chr "ls"] ≫= fun l => l ++ [10]) = Some [Chdir (chr "dir"); Fork (chr "ls" ++ [10])].
Proof.
  destruct (main_loop (fun _ _ => true) None None None [] 0 [] [chr "cd dir"; chr "ls"] eq_refl) as (_ & H & _); [|exact H].
  repeat constructor; discriminate || (cbn; lia).
Defined.
