(* ===== verification/Console.v ===== *)
(** * The console, xv6 wmap/solution/console.c, kbd.c and uart.c

    [Module Kbd]: scan codes to characters.  [Module Cga]: the text screen.  Then
    the console: cprintf, the line editor over its ring of 128 bytes, and readers
    that sleep and wake.  The cursor register of the screen and the serial line
    keep and carry what is written to their ports; waiting for the serial line to
    be ready, which is bounded, is left out, and so is the freezing of the other
    processors after a panic.  consoleintr and the sections of consoleread between
    two sleeps hold the console's lock and happen one at a time; the inode lock
    that consoleread and consolewrite give up meanwhile is not part of the state. *)
From S2P Require Import Prelude Text.

(** ** Keyboard *)
Module Kbd.

Definition KBS_DIB : Z := 1.
Definition SHIFT : Z := 1.
Definition CTL : Z := 2.
Definition ALT : Z := 4.
Definition CAPSLOCK : Z := 8.
Definition NUMLOCK : Z := 16.
Definition SCROLLLOCK : Z := 32.
Definition E0ESC : Z := 64.
Definition C (x : Z) : Z := x - 64.

(** An array of 256 uchars with its first elements and designated ones. *)
Definition uchars (first : list Z) (named : list (nat * Z)) : list Z :=
  (fun c => c mod 256) <$> fold_left (fun t p => <[p.1 := p.2]> t) named (first ++ replicate (256 - length first) 0).

Definition shiftcode : list Z := uchars [] [(0x1D, CTL); (0x2A, SHIFT); (0x36, SHIFT); (0x38, ALT); (0x9D, CTL); (0xB8, ALT)]%nat.
Definition togglecode : list Z := uchars [] [(0x3A, CAPSLOCK); (0x45, NUMLOCK); (0x46, SCROLLLOCK)]%nat.
Definition keypad : list (nat * Z) :=
  [(0xC8%nat, 0xE2); (0xD0%nat, 0xE3); (0xC9%nat, 0xE6); (0xD1%nat, 0xE7); (0xCB%nat, 0xE4); (0xCD%nat, 0xE5); (0x97%nat, 0xE0); (0xCF%nat, 0xE1);
   (0xD2%nat, 0xE8); (0xD3%nat, 0xE9)].
Definition normalmap : list Z := uchars
  ([0; 27] ++ chr "1234567890-=" ++ [8; 9] ++ chr "qwertyuiop[]" ++ [10; 0] ++ chr "asdfghjkl;'`" ++ [0] ++ chr "\zxcvbnm,./" ++ [0] ++ chr "*" ++
   [0; 32; 0; 0; 0; 0; 0; 0; 0; 0; 0; 0; 0; 0; 0] ++ chr "789-456+1230.") ([(0x9C%nat, 10); (0xB5%nat, 47)] ++ keypad).
Definition shiftmap : list Z := uchars
  ([0; 27] ++ chr "!@#$%^&*()_+" ++ [8; 9] ++ chr "QWERTYUIOP{}" ++ [10; 0] ++ chr "ASDFGHJKL:" ++ [34] ++ chr "~" ++ [0] ++ chr "|ZXCVBNM<>?" ++ [0] ++ chr "*" ++
   [0; 32; 0; 0; 0; 0; 0; 0; 0; 0; 0; 0; 0; 0; 0] ++ chr "789-456+1230.") ([(0x9C%nat, 10); (0xB5%nat, 47)] ++ keypad).
Definition ctlmap : list Z := uchars
  (replicate 16 0 ++ (C <$> chr "QWERTYUIOP") ++ [0; 0; 13; 0] ++ (C <$> chr "ASDFGHJKL") ++ [0; 0; 0; 0] ++ (C <$> chr "\ZXCVBNM") ++ [0; 0; C 47; 0; 0])
  ([(0x9C%nat, 13); (0xB5%nat, C 47)] ++ keypad).
Definition charcode : list (list Z) := [normalmap; shiftmap; ctlmap; ctlmap].

Definition at_ (t : list Z) (k : Z) : result Z := match t !! Z.to_nat k with Some c => Ok c | None => Err Undefined end.

(** kbdgetc with [st] and [data] at the ports; the state is [shift]. *)
Definition kbdgetc (st data : Z) : M Z Z :=
  if Z.land st KBS_DIB =? 0 then mret (-1) else
  shift ← get;
  if data =? 0xE0 then _ ← put (Z.lor shift E0ESC); mret 0
  else if negb (Z.land data 0x80 =? 0) then
    let data := if negb (Z.land shift E0ESC =? 0) then data else Z.land data 0x7F in
    k ← lift (at_ shiftcode data);
    _ ← put (Z.ldiff shift (Z.lor k E0ESC)); mret 0
  else
  let '(data, shift) := if negb (Z.land shift E0ESC =? 0) then (Z.lor data 0x80, Z.ldiff shift E0ESC) else (data, shift) in
  k ← lift (at_ shiftcode data);
  g ← lift (at_ togglecode data);
  let shift := Z.lxor (Z.lor shift k) g in
  _ ← put shift;
  match charcode !! Z.to_nat (Z.land shift (Z.lor CTL SHIFT)) with
  | None => fail Undefined
  | Some map =>
      c ← lift (at_ map data);
      mret (if negb (Z.land shift CAPSLOCK =? 0) then
              if (97 <=? c) && (c <=? 122) then u32 (c + (65 - 97))
              else if (65 <=? c) && (c <=? 90) then u32 (c + (97 - 65))
              else c
            else c)
  end.

(** What the keyboard's interrupt hands to the console for the scan codes of one
    interrupt: the characters up to the first negative one. *)
Fixpoint kbd_chars (codes : list Z) : M Z (list Z) :=
  match codes with
  | [] => c ← kbdgetc 0 0; mret []
  | d :: codes' => c ← kbdgetc KBS_DIB d; cs ← kbd_chars codes'; mret (c :: cs)
  end.
End Kbd.

(** ** The screen *)
Module Cga.

Definition BACKSPACE : Z := 0x100.
Record cga : Type := mkCga { crt : list Z; cursor : Z }.

(** The 25 rows of 80 cells. *)
Definition put_cell (k v : Z) (t : list Z) : result (list Z) :=
  if (0 <=? k) && (k <? 25 * 80) then Ok (<[Z.to_nat k := v]> t) else Err Undefined.
(** [memmove(crt, crt+80, 23*80 cells)] and [memset(crt+pos, 0, up to cell 24*80)]. *)
Definition scroll_up (t : list Z) : list Z := take (23 * 80) (drop 80 t) ++ drop (23 * 80) t.
Definition clear_from (pos : Z) (t : list Z) : result (list Z) :=
  if (0 <=? pos) && (pos <=? 24 * 80) then Ok (take (Z.to_nat pos) t ++ replicate (Z.to_nat (24 * 80 - pos)) 0 ++ drop (24 * 80) t) else Err Undefined.

Definition cgaputc (c : Z) : M cga unit :=
  s ← get;
  let pos := cursor s in
  '(t, pos) ← lift (if c =? 10 then Ok (crt s, pos + (80 - Z.rem pos 80))
                    else if c =? BACKSPACE then Ok (crt s, if 0 <? pos then pos - 1 else pos)
                    else t ← put_cell pos (Z.lor (Z.land c 0xff) 0x0700) (crt s); Ok (t, pos + 1));
  if (pos <? 0) || (25 * 80 <? pos) then fail Panic else
  '(t, pos) ← lift (if 24 <=? Z.quot pos 80 then t ← clear_from (pos - 80) (scroll_up t); Ok (t, pos - 80) else Ok (t, pos));
  t ← lift (put_cell pos (Z.lor 32 0x0700) t);
  put (mkCga t (Z.land (Z.shiftr pos 8) 0xff * 256 + Z.land pos 0xff)).
End Cga.
Export Cga.

(** ** The console *)
Definition INPUT_BUF : Z := 128.
Definition NL : Z := 10.
Definition CTRL_D : Z := 4.

(** A reader: outside consoleread, inside it with [target] bytes asked for, [n]
    still to come and [got] so far, or asleep in it. *)
Inductive rstate : Type := RIdle | RRun (target n : Z) (got : list Z) | RSleep (target n : Z) (got : list Z).
Record reader : Type := mkReader { rst : rstate; rkilled : bool }.
Definition wake_reader (r : reader) : reader := match rst r with RSleep t n g => mkReader (RRun t n g) (rkilled r) | _ => r end.

Record console : Type := mkConsole {
  buf : list Z; ri : Z; wi : Z; ei : Z;       (** input.buf, input.r, input.w, input.e *)
  uart : bool; serial : list Z;               (** what went to the serial line *)
  screen : cga;
  readers : list reader
}.

Definition set_e (e : Z) (s : console) : console := mkConsole (buf s) (ri s) (wi s) e (uart s) (serial s) (screen s) (readers s).
Definition set_w (w : Z) (s : console) : console := mkConsole (buf s) (ri s) w (ei s) (uart s) (serial s) (screen s) (readers s).
Definition set_r (r : Z) (s : console) : console := mkConsole (buf s) r (wi s) (ei s) (uart s) (serial s) (screen s) (readers s).
Definition set_buf (b : list Z) (s : console) : console := mkConsole b (ri s) (wi s) (ei s) (uart s) (serial s) (screen s) (readers s).
Definition set_serial (o : list Z) (s : console) : console := mkConsole (buf s) (ri s) (wi s) (ei s) (uart s) o (screen s) (readers s).
Definition set_screen (g : cga) (s : console) : console := mkConsole (buf s) (ri s) (wi s) (ei s) (uart s) (serial s) g (readers s).
Definition set_readers (l : list reader) (s : console) : console := mkConsole (buf s) (ri s) (wi s) (ei s) (uart s) (serial s) (screen s) l.

(** *** Output *)
Definition uartputc (c : Z) : M console unit := modify (fun s => if uart s then set_serial (serial s ++ [c mod 256]) s else s).
Definition on_screen (m : M cga unit) : M console unit := fun s =>
  match m (screen s) with Ok (_, g) => Ok (tt, set_screen g s) | Err e => Err e end.

Definition consputc (c : Z) : M console unit :=
  _ ← (if c =? BACKSPACE then _ ← uartputc 8; _ ← uartputc 32; uartputc 8 else uartputc c);
  on_screen (cgaputc c).

Fixpoint consputs (cs : list Z) : M console unit :=
  match cs with [] => mret tt | c :: cs' => _ ← consputc c; consputs cs' end.

(** printint fills [char buf[16]] from the lowest digit on. *)
Fixpoint printint_loop (room : nat) (x base : Z) (b : list Z) : result (list Z) :=
  match room with
  | O => Err Undefined
  | S room' =>
      let b := b ++ [digit_char (x mod base)] in
      if x / base =? 0 then Ok b else printint_loop room' (x / base) base b
  end.

Definition printint (xx base : Z) (sign : bool) : M console unit :=
  let neg := sign && (xx <? 0) in
  x ← lift (if neg then sint (- xx) else Ok (u32 xx));
  b ← lift (printint_loop 16 x base []);
  b ← lift (if neg then if (length b <? 16)%nat then Ok (b ++ [45]) else Err Undefined else Ok b);
  consputs (rev b).

(** cprintf: [args] are the words on the stack, [str] the C strings in memory. *)
Fixpoint cprintf (str : Z -> option (list Z)) (fmt args : list Z) : M console unit :=
  match fmt with
  | [] => mret tt
  | c :: fmt =>
      if negb (c =? 37) then _ ← consputc c; cprintf str fmt args else
      match fmt with
      | [] => mret tt
      | d :: fmt =>
          if d =? 100 then
            match args with a :: args => _ ← printint (to_int a) 10 true; cprintf str fmt args | [] => fail Undefined end
          else if (d =? 120) || (d =? 112) then
            match args with a :: args => _ ← printint (to_int a) 16 false; cprintf str fmt args | [] => fail Undefined end
          else if d =? 115 then
            match args with
            | a :: args =>
                match (if a =? 0 then Some (chr "(null)") else str a) with
                | Some t => _ ← consputs t; cprintf str fmt args
                | None => fail Undefined
                end
            | [] => fail Undefined
            end
          else if d =? 37 then _ ← consputc 37; cprintf str fmt args
          else _ ← consputc 37; _ ← consputc d; cprintf str fmt args
      end
  end.

Definition consolewrite (bs : list Z) : M console Z := _ ← consputs ((fun b => Z.land b 0xff) <$> bs); mret (Z.of_nat (length bs)).

(** *** Input *)
Definition buf_at (k : Z) : M console Z :=
  s ← get; match buf s !! Z.to_nat (k mod INPUT_BUF) with Some b => mret b | None => fail Undefined end.

(** Kill line: back to the last newline. *)
Fixpoint kill_line (fuel : nat) : M console unit :=
  match fuel with
  | O => fail OutOfFuel
  | S fuel' =>
      s ← get;
      if ei s =? wi s then mret tt else
      b ← buf_at (u32 (ei s - 1));
      if b =? NL then mret tt else
      _ ← modify (set_e (u32 (ei s - 1)));
      _ ← consputc BACKSPACE;
      kill_line fuel'
  end.

(** One character of consoleintr; true for a process listing. *)
Definition type_char (c : Z) : M console bool :=
  s ← get;
  if c =? 16 then mret true
  else if c =? 21 then _ ← kill_line (S (Z.to_nat (u32 (ei s - wi s)))); mret false
  else if (c =? 8) || (c =? 127) then
    if negb (ei s =? wi s) then _ ← modify (set_e (u32 (ei s - 1))); _ ← consputc BACKSPACE; mret false else mret false
  else if negb (c =? 0) && (u32 (ei s - ri s) <? INPUT_BUF) then
    let c := if c =? 13 then NL else c in
    _ ← (if decide (Z.to_nat (ei s mod INPUT_BUF) < length (buf s))%nat then put (set_e (u32 (ei s + 1)) (set_buf (<[Z.to_nat (ei s mod INPUT_BUF) := c mod 256]> (buf s)) s))
         else fail Undefined);
    _ ← consputc c;
    s ← get;
    if (c =? NL) || (c =? CTRL_D) || (ei s =? u32 (ri s + INPUT_BUF)) then
      _ ← put (set_readers (wake_reader <$> readers s) (set_w (ei s) s)); mret false
    else mret false
  else mret false.

(** consoleintr with what [getc] returns. *)
Fixpoint intr_loop (cs : list Z) (doprocdump : bool) : M console bool :=
  match cs with
  | [] => mret doprocdump
  | c :: cs' => if c <? 0 then mret doprocdump else d ← type_char c; intr_loop cs' (doprocdump || d)
  end.
Definition consoleintr (procdump : M console unit) (cs : list Z) : M console unit :=
  d ← intr_loop cs false; if (d : bool) then procdump else mret tt.

Definition kbdintr (procdump : M console unit) (shift : Z) (codes : list Z) : M console Z :=
  '(cs, shift) ← lift (Kbd.kbd_chars codes shift); _ ← consoleintr procdump cs; mret shift.
(** The serial line's characters are those waiting in it. *)
Definition uartintr (procdump : M console unit) (received : list Z) : M console unit :=
  s ← get; consoleintr procdump (if uart s then received else []).

(** A section of consoleread: sleep, or return a value with the bytes copied. *)
Inductive rnext : Type := NSleep (n : Z) (got : list Z) | NRet (v : Z) (got : list Z).

Fixpoint read_loop (fuel : nat) (killed : bool) (target n : Z) (got : list Z) : M console rnext :=
  match fuel with
  | O => fail OutOfFuel
  | S fuel' =>
      if 0 <? n then
        s ← get;
        if ri s =? wi s then if killed then mret (NRet (-1) got) else mret (NSleep n got)
        else
        c ← buf_at (ri s);
        _ ← modify (set_r (u32 (ri s + 1)));
        if c =? CTRL_D then
          if u32 n <? target then _ ← modify (set_r (ri s)); mret (NRet (to_int (target - n)) got) else mret (NRet (to_int (target - n)) got)
        else if c =? NL then mret (NRet (to_int (target - (n - 1))) (got ++ [c]))
        else read_loop fuel' killed target (n - 1) (got ++ [c])
      else mret (NRet (to_int (target - n)) got)
  end.
Definition consoleread (killed : bool) (target n : Z) (got : list Z) : M console rnext := read_loop (S (Z.to_nat n)) killed target n got.

(** ** Events *)
Inductive event : Type :=
  | EIntr (cs : list Z)                       (** an interrupt, with what getc returns *)
  | ERead (j : nat) (n : Z) | ERun (j : nat)  (** a call of consoleread, and a section of it *)
  | EKill (j : nat).

Section exec.
Context (procdump : M console unit).

(** The bytes that the event copies to readers, and the console; [None] when it
    cannot happen. *)
Definition exec (e : event) (s : console) : option (result (list Z * console)) :=
  let set_reader j r s := set_readers (<[j := r]> (readers s)) s in
  match e with
  | EIntr cs => Some ('(_, s') ← consoleintr procdump cs s; Ok ([], s'))
  | ERead j n => r ← readers s !! j;
      match rst r with RIdle => Some (Ok ([], set_reader j (mkReader (RRun (u32 n) n []) (rkilled r)) s)) | _ => None end
  | ERun j => r ← readers s !! j;
      match rst r with
      | RRun target n got => Some (
          '(x, s') ← consoleread (rkilled r) target n got s;
          let '(st, got') := match x with NSleep n' g => (RSleep target n' g, g) | NRet _ g => (RIdle, g) end in
          Ok (drop (length got) got', set_reader j (mkReader st (rkilled r)) s'))
      | _ => None
      end
  | EKill j => r ← readers s !! j; Some (Ok ([], set_reader j (wake_reader (mkReader (rst r) true)) s))
  end.

Fixpoint run (es : list event) (s : console) : option (result (list Z * console)) :=
  match es with
  | [] => Some (Ok ([], s))
  | e :: es' =>
      match exec e s with
      | None => None
      | Some (Err x) => Some (Err x)
      | Some (Ok (bs, s')) => match run es' s' with Some (Ok (bs', s'')) => Some (Ok (bs ++ bs', s'')) | r => r end
      end
  end.
End exec.

(** ** The line discipline

    A queue of bytes that may be read and the line being edited; [committed] is
    all that ever entered the queue. *)
Record tty : Type := mkTty { queue : list Z; line : list Z; procs : list reader; committed : list Z }.

Definition wants (c : Z) : bool := negb ((c =? 16) || (c =? 21) || (c =? 8) || (c =? 127) || (c =? 0)).
Definition cooked (c : Z) : Z := if c =? 13 then NL else c.
Definition room_in (t : tty) : bool := (length (queue t) + length (line t) <? 128)%nat.

Definition tty_type (t : tty) (c : Z) : tty :=
  if c =? 21 then mkTty (queue t) [] (procs t) (committed t)
  else if (c =? 8) || (c =? 127) then mkTty (queue t) (take (length (line t) - 1) (line t)) (procs t) (committed t)
  else if wants c && room_in t then
    let l := line t ++ [cooked c] in
    if (cooked c =? NL) || (cooked c =? CTRL_D) || (length (queue t) + length l =? 128)%nat
    then mkTty (queue t ++ l) [] (wake_reader <$> procs t) (committed t ++ l)
    else mkTty (queue t) l (procs t) (committed t)
  else t.

(** A reader that wants [n] bytes: what it takes, what it leaves, and whether it
    is done.  It stops after a newline; ^D ends a read, and is taken only by a
    read that has taken nothing. *)
Fixpoint tty_take (n : nat) (fresh : bool) (q : list Z) : list Z * list Z * bool :=
  match n, q with
  | O, _ => ([], q, true)
  | _, [] => ([], [], false)
  | S n', c :: q' =>
      if c =? CTRL_D then ([], if fresh then q' else q, true)
      else if c =? NL then ([c], q', true)
      else let '(g, r, d) := tty_take n' false q' in (c :: g, r, d)
  end.

(** What an interrupt has to type: up to the first negative value. *)
Fixpoint typed (cs : list Z) : list Z := match cs with c :: cs' => if c <? 0 then [] else c :: typed cs' | [] => [] end.

Definition tty_exec (e : event) (t : tty) : option (list Z * tty) :=
  let set_proc j r q := mkTty q (line t) (<[j := r]> (procs t)) (committed t) in
  match e with
  | EIntr cs => Some ([], fold_left tty_type (typed cs) t)
  | ERead j n => r ← procs t !! j;
      match rst r with RIdle => Some ([], set_proc j (mkReader (RRun (u32 n) n []) (rkilled r)) (queue t)) | _ => None end
  | ERun j => r ← procs t !! j;
      match rst r with
      | RRun target n got =>
          let '(g, q, d) := tty_take (Z.to_nat n) (bool_decide (got = [])) (queue t) in
          let st := if (d : bool) || rkilled r then RIdle else RSleep target (n - Z.of_nat (length g)) (got ++ g) in
          Some (g, set_proc j (mkReader st (rkilled r)) q)
      | _ => None
      end
  | EKill j => r ← procs t !! j; Some ([], set_proc j (wake_reader (mkReader (rst r) true)) (queue t))
  end.

Fixpoint tty_run (es : list event) (t : tty) : option (list Z * tty) :=
  match es with
  | [] => Some ([], t)
  | e :: es' => '(g, t) ← tty_exec e t; '(g', t) ← tty_run es' t; Some (g ++ g', t)
  end.

(** A console after consoleinit, and its discipline. *)
Definition console_start (u : bool) (nr : nat) (g : cga) : console := mkConsole (replicate 128 0) 0 0 0 u [] g (replicate nr (mkReader RIdle false)).
Definition tty_start (nr : nat) : tty := mkTty [] [] (replicate nr (mkReader RIdle false)) [].

(** ** The screen stays inside its rows *)
Definition cga_ok (g : cga) : Prop := length (crt g) = 2000%nat /\ 0 <= cursor g < 24 * 80.

Lemma put_cell_ok k v t : 0 <= k < 2000 -> length t = 2000%nat -> exists t', put_cell k v t = Ok t' /\ t' = <[Z.to_nat k := v]> t /\ length t' = 2000%nat.
Proof.
  intros Hk Hl. exists (<[Z.to_nat k := v]> t). unfold put_cell. rewrite (proj2 (Z.leb_le _ _)), (proj2 (Z.ltb_lt _ _)) by lia. by rewrite length_insert.
Qed.

Lemma cursor_bytes pos : 0 <= pos < 65536 -> Z.land (Z.shiftr pos 8) 0xff * 256 + Z.land pos 0xff = pos.
Proof.
  intros Hp. change 0xff with (Z.ones 8). rewrite !Z.land_ones, Z.shiftr_div_pow2 by lia. change (2 ^ 8) with 256. rewrite (Z.mod_small (pos / 256)) by zlia. zlia.
Qed.

(** What the first step of cgaputc does: the cells and the position. *)
Definition placed (g : cga) (c : Z) : list Z * Z :=
  if c =? 10 then (crt g, cursor g + (80 - cursor g mod 80))
  else if c =? BACKSPACE then (crt g, Z.max 0 (cursor g - 1))
  else (<[Z.to_nat (cursor g) := Z.lor (Z.land c 0xff) 0x0700]> (crt g), cursor g + 1).

Lemma wp_cgaputc g c : cga_ok g -> wp (cgaputc c) g (fun _ g' => cga_ok g' /\ let '(t, pos) := placed g c in
  if decide (pos < 24 * 80) then g' = mkCga (<[Z.to_nat pos := 0x720]> t) pos
  else pos = 24 * 80 /\ g' = mkCga (<[(23 * 80)%nat := 0x720]> (take (23 * 80) (drop 80 t) ++ replicate 80 0 ++ drop (24 * 80) t)) (23 * 80)).
Proof.
  intros [Hl Hp]. unfold cgaputc. wp_step. wp_step. wp_step. destruct (placed g c) as [t pos] eqn:Ep.
  assert ((if c =? 10 then Ok (crt g, cursor g + (80 - Z.rem (cursor g) 80))
           else if c =? BACKSPACE then Ok (crt g, if 0 <? cursor g then cursor g - 1 else cursor g)
           else t0 ← put_cell (cursor g) (Z.lor (Z.land c 0xff) 0x0700) (crt g); Ok (t0, cursor g + 1)) = Ok (t, pos) /\ length t = 2000%nat /\ 0 <= pos <= 1920) as (E & Hlt & Hpos).
  { unfold placed in Ep. destruct (c =? 10); [|destruct (c =? BACKSPACE)].
    - injection Ep as <- <-. rewrite Z.rem_mod_nonneg by lia. split; [done|]. split; [done|]. zlia.
    - injection Ep as <- <-. split; [|split; [done|lia]]. destruct (Z.ltb_spec 0 (cursor g)); do 2 f_equal; lia.
    - injection Ep as <- <-. destruct (put_cell_ok (cursor g) (Z.lor (Z.land c 0xff) 0x0700) (crt g)) as (t' & E & -> & Hl'); [lia|done|]. rewrite E. split; [done|]. split; [done|lia]. }
  eapply wp_lift; [exact E|]. cbn beta iota. rewrite (proj2 (Z.ltb_ge _ _)), (proj2 (Z.ltb_ge _ _)) by lia. cbn [orb]. wp_step.
  rewrite Z.quot_div_nonneg by lia. destruct (Z.leb_spec 24 (pos / 80)) as [Hs|Hs].
  - assert (pos = 1920) as -> by zlia. eapply wp_lift; [reflexivity|]. cbn beta iota. wp_step.
    change (Z.to_nat (1920 - 80)) with (23 * 80)%nat. change (Z.to_nat (24 * 80 - (1920 - 80))) with 80%nat.
    set (t1 := take (23 * 80) (scroll_up t) ++ replicate 80 0 ++ drop (24 * 80) (scroll_up t)).
    assert (t1 = take (23 * 80) (drop 80 t) ++ replicate 80 0 ++ drop (24 * 80) t) as Et1.
    { unfold t1, scroll_up. assert (length (take (23 * 80) (drop 80 t)) = (23 * 80)%nat) as Hlen by (rewrite length_take, length_drop; lia).
      rewrite take_app_length' by done. f_equal. f_equal. rewrite drop_app_ge by lia. rewrite Hlen, drop_drop. f_equal. }
    assert (length t1 = 2000%nat) as Hl1 by (rewrite Et1, !length_app, length_take, !length_drop, length_replicate; lia).
    destruct (put_cell_ok (1920 - 80) 0x720 t1) as (t2 & E2 & Et2 & Hl2); [lia|done|]. eapply wp_lift; [exact E2|]. wp_step.
    rewrite cursor_bytes by lia. split; [by split; [|cbn; lia]|]. rewrite decide_False by lia. split; [done|]. by rewrite Et2, <-Et1.
  - assert (pos < 1920) by zlia. eapply wp_lift; [reflexivity|]. cbn beta iota. wp_step.
    destruct (put_cell_ok pos 0x720 t) as (t2 & E2 & Et2 & Hl2); [lia|done|]. eapply wp_lift; [exact E2|]. wp_step.
    rewrite cursor_bytes by lia. split; [by split; [|cbn; lia]|]. rewrite decide_True by lia. by rewrite Et2.
Qed.

(** ** Output *)
Definition out (c : Z) : list Z := if c =? BACKSPACE then [8; 32; 8] else [c mod 256].
(** The console after output: the serial line has [o] more, when there is one. *)
Definition output (o : list Z) (g : cga) (s : console) : console := set_screen g (set_serial (if uart s then serial s ++ o else serial s) s).

Lemma output_output o1 g1 o2 g2 s : output o2 g2 (output o1 g1 s) = output (o1 ++ o2) g2 s.
Proof. destruct s. unfold output, set_screen, set_serial. cbn. destruct uart0; [by rewrite app_assoc|done]. Qed.
Lemma output_nil s : output [] (screen s) s = s.
Proof. destruct s. unfold output, set_screen, set_serial. cbn. destruct uart0; [by rewrite app_nil_r|done]. Qed.

Lemma wp_uartputc c s (Q : unit -> console -> Prop) : Q tt (output [c mod 256] (screen s) s) -> wp (uartputc c) s Q.
Proof. intros HQ. unfold uartputc. wp_step. destruct s. unfold output, set_screen, set_serial in *. cbn in *. by destruct uart0. Qed.

Lemma wp_consputc c s (Q : unit -> console -> Prop) : cga_ok (screen s) -> (forall g, cga_ok g -> Q tt (output (out c) g s)) -> wp (consputc c) s Q.
Proof.
  intros Hg HQ. unfold consputc, out in *. wp_step.
  assert (forall s', cga_ok (screen s') -> (forall g, cga_ok g -> Q tt (set_screen g s')) -> wp (on_screen (cgaputc c)) s' Q) as Hscr.
  { intros s' Hg' HQ'. destruct (wp_cgaputc (screen s') c Hg') as ([] & g & E & Hok & _). eapply wp_of_Ok; [unfold on_screen; by rewrite E|]. by apply HQ'. }
  destruct (c =? BACKSPACE).
  - wp_step. apply wp_uartputc. wp_step. apply wp_uartputc. apply wp_uartputc. rewrite !output_output. apply Hscr; [done|]. intros g Hgk. by apply (HQ g).
  - apply wp_uartputc. apply Hscr; [done|]. intros g Hgk. by apply (HQ g).
Qed.

Lemma wp_consputs cs s (Q : unit -> console -> Prop) : cga_ok (screen s) -> (forall g, cga_ok g -> Q tt (output (cs ≫= out) g s)) -> wp (consputs cs) s Q.
Proof.
  revert s. induction cs as [|c cs IH]; intros s Hg HQ; cbn [consputs].
  - wp_step. rewrite <-(output_nil s). by apply HQ.
  - wp_step. apply wp_consputc; [done|]. intros g Hgk. apply IH; [done|]. intros g' Hg'. rewrite output_output. by apply HQ.
Qed.

Lemma consputs_app a b s : consputs (a ++ b) s = (_ ← consputs a; consputs b) s.
Proof.
  revert s. induction a as [|c a IH]; intros s; [done|]. cbn [app consputs]. unfold mbind, M_bind in *. destruct (consputc c s) as [[[] s']|]; [|done]. apply IH.
Qed.

(** *** printint *)
Lemma printint_loop_spec room x base b : 0 <= x < base ^ Z.of_nat room -> 2 <= base <= 16 -> (0 < room)%nat ->
  exists b', printint_loop room x base b = Ok b' /\ rev b' = digits_aux room base x (rev b) /\ (length b' <= length b + room)%nat.
Proof.
  intros Hx Hb. revert x b Hx. induction room as [|room IH]; intros x b Hx Hr; [lia|]. cbn [printint_loop digits_aux].
  destruct (Z.eqb_spec (x / base) 0) as [E|E].
  - exists (b ++ [digit_char (x mod base)]). split; [done|]. rewrite rev_app_distr. split; [done|]. rewrite length_app. cbn. lia.
  - assert (0 <= x / base) by (apply Z.div_pos; lia). assert (x / base < base ^ Z.of_nat room) as Hlt.
    { apply Z.div_lt_upper_bound; [lia|]. rewrite Nat2Z.inj_succ, Z.pow_succ_r in Hx by lia. lia. }
    destruct room as [|room]; [change (base ^ Z.of_nat 0) with 1 in Hlt; lia|].
    destruct (IH (x / base) (b ++ [digit_char (x mod base)])) as (b' & E1 & E2 & E3); [lia|lia|]. exists b'. split; [done|].
    rewrite E2, rev_app_distr. split; [done|]. rewrite length_app in E3. cbn in E3. lia.
Qed.

(** More fuel than digits changes nothing. *)
Lemma digits_aux_fuel f1 f2 base n acc : 2 <= base -> 0 <= n < base ^ Z.of_nat f1 -> n < base ^ Z.of_nat f2 -> (0 < f1)%nat -> (0 < f2)%nat ->
  digits_aux f1 base n acc = digits_aux f2 base n acc.
Proof.
  intros Hb. revert f2 n acc. induction f1 as [|f1 IH]; intros f2 n acc H1 H2 Hf1 Hf2; [lia|]. destruct f2 as [|f2]; [lia|]. cbn [digits_aux].
  destruct (Z.eqb_spec (n / base) 0) as [E|E]; [done|]. assert (0 <= n / base) by (apply Z.div_pos; lia).
  assert (n / base < base ^ Z.of_nat f1) by (apply Z.div_lt_upper_bound; [lia|]; rewrite Nat2Z.inj_succ, Z.pow_succ_r in H1 by lia; lia).
  assert (n / base < base ^ Z.of_nat f2) by (apply Z.div_lt_upper_bound; [lia|]; rewrite Nat2Z.inj_succ, Z.pow_succ_r in H2 by lia; lia).
  destruct f1 as [|f1]; [change (base ^ Z.of_nat 0) with 1 in *; lia|]. destruct f2 as [|f2]; [change (base ^ Z.of_nat 0) with 1 in *; lia|]. apply IH; lia.
Qed.

Lemma digits_eq room base x : 2 <= base -> 0 <= x < base ^ Z.of_nat room -> (0 < room)%nat -> digits_aux room base x [] = digits base x.
Proof.
  intros Hb Hx Hr. unfold digits. apply digits_aux_fuel; try lia. rewrite Nat2Z.inj_succ, Z2Nat.id by apply Z.log2_nonneg.
  destruct (decide (x = 0)) as [->|]; [apply Z.pow_pos_nonneg; [lia|]; pose proof (Z.log2_nonneg 0); lia|].
  pose proof (Z.log2_spec x ltac:(lia)) as [_ Hl]. eapply Z.lt_le_trans; [exact Hl|]. apply Z.pow_le_mono_l. lia.
Qed.

(** What the conversions print. *)
Definition numeral (xx base : Z) (sign : bool) : list Z := if sign && (xx <? 0) then 45 :: digits base (- xx) else digits base (u32 xx).

Lemma printint_correct xx base sign s : base = 10 \/ base = 16 -> INT_MIN <= xx <= INT_MAX -> (sign = true -> xx <> INT_MIN) ->
  printint xx base sign s = consputs (numeral xx base sign) s.
Proof.
  intros Hb Hx Hmin. unfold printint, numeral. set (neg := sign && (xx <? 0)).
  assert (exists x, (if neg then sint (- xx) else Ok (u32 xx)) = Ok x /\ 0 <= x < 2 ^ 32 /\ (neg = true -> x <= INT_MAX) /\ x = if neg then - xx else u32 xx) as (x & E & Hxr & Hxn & Ex).
  { unfold neg. destruct sign; cbn [andb]; [|exists (u32 xx); unfold u32; pose proof (Z.mod_pos_bound xx UINT_MOD ltac:(done)); unfold UINT_MOD in *; split_and!; first [done|lia]].
    destruct (Z.ltb_spec xx 0).
    - specialize (Hmin eq_refl). exists (- xx). rewrite sint_ok by (unfold_bounds; lia). unfold_bounds. split_and!; first [done|lia].
    - exists (u32 xx). rewrite u32_id by (unfold_bounds; lia). unfold_bounds. split_and!; first [done|lia]. }
  assert (0 <= x < base ^ Z.of_nat 11) as Hx11 by (destruct Hb as [-> | ->]; cbn; lia).
  assert (0 <= x < base ^ Z.of_nat 16) as Hx16 by (split; [lia|]; eapply Z.lt_le_trans; [apply Hx11|]; apply Z.pow_le_mono_r; lia).
  destruct (printint_loop_spec 16 x base []) as (b & E1 & E2 & _); [done|lia|lia|]. cbn [rev] in E2. rewrite digits_eq in E2 by lia.
  destruct (printint_loop_spec 11 x base []) as (b11 & _ & E3 & E4); [done|lia|lia|]. cbn [rev] in E3. rewrite digits_eq in E3 by lia.
  assert (length b <= 11)%nat as Hlb by (rewrite <-(length_rev b), E2, <-E3, length_rev; done).
  rewrite (bind_Ok _ _ s x s) by (unfold lift; by rewrite E). rewrite (bind_Ok _ _ s b s) by (unfold lift; by rewrite E1).
  destruct neg.
  - rewrite (proj2 (Nat.ltb_lt _ _)) by lia. rewrite (bind_Ok _ _ s (b ++ [45]) s) by done. rewrite rev_app_distr, E2, Ex. done.
  - rewrite (bind_Ok _ _ s b s) by done. by rewrite E2, Ex.
Qed.

(** *** cprintf against the meaning of a format *)
Inductive piece : Type := Lit (t : list Z) | PInt | PHex | PStr.

Fixpoint pieces (fmt : list Z) : list piece :=
  match fmt with
  | [] => []
  | c :: fmt' =>
      if c =? 37 then
        match fmt' with
        | [] => []
        | d :: fmt'' => (if d =? 100 then PInt else if (d =? 120) || (d =? 112) then PHex else if d =? 115 then PStr else if d =? 37 then Lit [37] else Lit [37; d]) :: pieces fmt''
        end
      else Lit [c] :: pieces fmt'
  end.

(** The text of a format; [None] when an argument is missing, a string pointer is
    bad, or %d is to print the least int. *)
Fixpoint render (str : Z -> option (list Z)) (ps : list piece) (args : list Z) : option (list Z) :=
  match ps, args with
  | [], _ => Some []
  | Lit t :: ps, _ => r ← render str ps args; Some (t ++ r)
  | PInt :: ps, a :: args => if to_int a =? INT_MIN then None else r ← render str ps args; Some (print_int (to_int a) ++ r)
  | PHex :: ps, a :: args => r ← render str ps args; Some (digits 16 (u32 a) ++ r)
  | PStr :: ps, a :: args => t ← (if a =? 0 then Some (chr "(null)") else str a); r ← render str ps args; Some (t ++ r)
  | _, _ => None
  end.

Lemma to_int_range z : INT_MIN <= to_int z <= INT_MAX.
Proof. unfold to_int. pose proof (Z.mod_pos_bound (z + 2147483648) UINT_MOD ltac:(done)). unfold_bounds. lia. Qed.
Lemma u32_to_int z : u32 (to_int z) = u32 z.
Proof. unfold u32, to_int, UINT_MOD. zlia. Qed.

Lemma bind_eq {A B} (m m' : M console A) (k : A -> M console B) s : m s = m' s -> mbind k m s = mbind k m' s.
Proof. intros H. unfold mbind, M_bind. by rewrite H. Qed.

Lemma cprintf_text str fmt args text s : render str (pieces fmt) args = Some text -> cprintf str fmt args s = consputs text s.
Proof.
  assert (forall (p t r : list Z) (m : M console unit) s, (forall s, m s = consputs r s) -> (_ ← consputs t; m) s = consputs (t ++ r) s) as Hseq.
  { intros _ t r m s0 Hm. rewrite consputs_app. unfold mbind, M_bind. destruct (consputs t s0) as [[[] s1]|]; [|done]. apply Hm. }
  assert (forall (c : Z) r (m : M console unit) s, (forall s, m s = consputs r s) -> (_ ← consputc c; m) s = consputs (c :: r) s) as Hseq1.
  { intros c r m s0 Hm. cbn [consputs]. unfold mbind, M_bind. destruct (consputc c s0) as [[[] s1]|]; [|done]. apply Hm. }
  remember (length fmt) as len eqn:Hlen. assert (length fmt <= len)%nat as Hle by lia. clear Hlen. revert fmt Hle args text s.
  induction len as [|len IH]; intros [|c fmt] Hle args text s Ht; cbn [pieces render cprintf] in *; try (by injection Ht as <-); [cbn in Hle; lia|]. cbn in Hle.
  destruct (Z.eqb_spec c 37) as [->|Hc]; cbn [negb].
  - destruct fmt as [|d fmt]; [by injection Ht as <-|]. cbn in Hle. cbn [render] in Ht.
    destruct (d =? 100).
    + destruct args as [|a args]; [done|]. destruct (Z.eqb_spec (to_int a) INT_MIN) as [|Hmin]; [done|]. apply bind_Some in Ht as (r & Hr & [= <-]).
      rewrite (bind_eq _ (consputs (print_int (to_int a)))).
      * apply (Hseq []). intros s0. apply IH; [lia|done].
      * rewrite printint_correct by (first [by left|apply to_int_range|done]). unfold numeral, print_int. cbn [andb]. destruct (Z.ltb_spec (to_int a) 0); [done|].
        pose proof (to_int_range a). rewrite u32_id; [done|]. unfold_bounds. lia.
    + destruct ((d =? 120) || (d =? 112)).
      * destruct args as [|a args]; [done|]. apply bind_Some in Ht as (r & Hr & [= <-]). rewrite (bind_eq _ (consputs (digits 16 (u32 a)))).
        -- apply (Hseq []). intros s0. apply IH; [lia|done].
        -- rewrite printint_correct by (first [by right|apply to_int_range|done]). unfold numeral. cbn [andb]. by rewrite u32_to_int.
      * destruct (d =? 115).
        -- destruct args as [|a args]; [done|]. apply bind_Some in Ht as (t & Et & Ht). apply bind_Some in Ht as (r & Hr & [= <-]). rewrite Et.
           apply (Hseq []). intros s0. apply IH; [lia|done].
        -- destruct (Z.eqb_spec d 37) as [->|]; apply bind_Some in Ht as (r & Hr & [= <-]); cbn [app].
           ++ apply Hseq1. intros s0. apply IH; [lia|done].
           ++ apply Hseq1. intros s0. apply Hseq1. intros s1. apply IH; [lia|done].
  - apply bind_Some in Ht as (r & Hr & [= <-]). apply Hseq1. intros s0. apply IH; [lia|done].
Qed.

(** C27: cprintf prints what its format means.  Whenever the arguments are there,
    every string pointer is good and no %d is to print the least int, cprintf
    puts on the serial line the text of the format, with %d as a signed decimal,
    %x and %p as an unsigned hexadecimal numeral, %s as a string and anything
    else as it is; nothing else of the console changes but the screen, which
    stays in order. *)
Theorem cprintf_correct str fmt args text s : cga_ok (screen s) -> render str (pieces fmt) args = Some text ->
  exists g, cga_ok g /\ cprintf str fmt args s = Ok (tt, output (text ≫= out) g s).
Proof.
  intros Hg Ht. rewrite (cprintf_text str fmt args text s Ht).
  destruct (wp_consputs text s (fun _ s' => exists g, cga_ok g /\ s' = output (text ≫= out) g s) Hg) as ([] & s' & E & g & Hgk & ->); [by eauto|]. by exists g.
Qed.

(** The least int: its negation overflows. *)
Lemma printint_least str s : cprintf str (chr "%d") [2147483648] s = Err Undefined.
Proof. reflexivity. Qed.

(** ** The ring *)
Definition ring (b : list Z) (k n : Z) : list Z := (fun i => default 0 (b !! Z.to_nat (i mod INPUT_BUF))) <$> seqZ k n.

Lemma length_ring b k n : length (ring b k n) = Z.to_nat n.
Proof. unfold ring. by rewrite length_fmap, length_seqZ. Qed.

Lemma ring_snoc b k n : 0 <= n -> ring b k (n + 1) = ring b k n ++ [default 0 (b !! Z.to_nat ((k + n) mod INPUT_BUF))].
Proof. intros Hn. unfold ring. rewrite seqZ_app by lia. by rewrite fmap_app. Qed.

Lemma ring_cons b k n : 0 < n -> ring b k n = default 0 (b !! Z.to_nat (k mod INPUT_BUF)) :: ring b (k + 1) (n - 1).
Proof. intros Hn. unfold ring. rewrite seqZ_cons by lia. cbn [fmap list_fmap]. by rewrite <-Z.add_1_r, <-Z.sub_1_r. Qed.

Lemma ring_app b k n m : 0 <= n -> 0 <= m -> ring b k (n + m) = ring b k n ++ ring b (k + n) m.
Proof. intros Hn Hm. unfold ring. by rewrite seqZ_app, fmap_app by lia. Qed.

(** Counters count modulo 2^32, of which 128 is a divisor. *)
Lemma ring_u32 b k n : ring b (u32 k) n = ring b k n.
Proof.
  unfold ring. apply list_eq. intros j. rewrite !list_lookup_fmap. destruct (decide (Z.of_nat j < n)) as [Hj|Hj].
  - rewrite (proj2 (lookup_seqZ (u32 k) n j (u32 k + Z.of_nat j))), (proj2 (lookup_seqZ k n j (k + Z.of_nat j))) by lia. cbn [fmap option_fmap option_map]. do 4 f_equal.
    unfold u32, UINT_MOD, INPUT_BUF. zlia.
  - by rewrite !lookup_ge_None_2 by (rewrite length_seqZ; lia).
Qed.

Lemma ring_insert b k n j c : 0 <= n <= j -> j < 128 -> ring (<[Z.to_nat ((k + j) mod INPUT_BUF) := c]> b) k n = ring b k n.
Proof.
  intros Hn Hj. unfold ring. apply list_fmap_ext. intros i x Hx%lookup_seqZ. rewrite list_lookup_insert_ne; [done|].
  unfold INPUT_BUF in *. zlia.
Qed.

(** ** The console in order *)
Definition reader_ok (r : reader) : Prop :=
  match rst r with
  | RIdle => True
  | RRun t n g | RSleep t n g => (n <= 0 /\ g = [] /\ t = u32 n) \/ (0 <= n /\ t = n + Z.of_nat (length g) /\ t <= INT_MAX)
  end.
Definition asleep (r : reader) : Prop := match rst r with RSleep _ _ _ => True | _ => False end.

Record cons_ok (s : console) : Prop := {
  co_buf : length (buf s) = 128%nat;
  co_bytes : Forall (fun c => 0 <= c < 256) (buf s);
  co_range : 0 <= ri s < UINT_MOD /\ 0 <= wi s < UINT_MOD /\ 0 <= ei s < UINT_MOD;
  co_order : u32 (wi s - ri s) + u32 (ei s - wi s) <= 128;
  co_full : u32 (wi s - ri s) + u32 (ei s - wi s) = 128 -> wi s = ei s;
  co_line : Forall (fun c => c <> NL /\ c <> CTRL_D) (ring (buf s) (wi s) (u32 (ei s - wi s)));
  co_screen : cga_ok (screen s);
  co_readers : Forall reader_ok (readers s);
  co_sleep : forall r, r ∈ readers s -> asleep r -> ri s = wi s
}.

(** The discipline that a console shows. *)
Definition shows (s : console) (com : list Z) : tty := mkTty (ring (buf s) (ri s) (u32 (wi s - ri s))) (ring (buf s) (wi s) (u32 (ei s - wi s))) (readers s) com.

Lemma count_range z : 0 <= u32 z < UINT_MOD.
Proof. by apply Z.mod_pos_bound. Qed.

Lemma same_count a b : 0 <= a < UINT_MOD -> 0 <= b < UINT_MOD -> u32 (a - b) = 0 <-> a = b.
Proof. unfold u32, UINT_MOD. intros. split; [intros; zlia|intros ->; zlia]. Qed.

(** Output changes neither the input nor the readers. *)
Lemma cons_ok_output o g s : cga_ok g -> cons_ok s -> cons_ok (output o g s).
Proof. intros Hg [A B C D E F G H I]. by split. Qed.
Lemma shows_output o g s com : shows (output o g s) com = shows s com.
Proof. done. Qed.

Lemma wp_buf_at k s (Q : Z -> console -> Prop) : length (buf s) = 128%nat -> Q (default 0 (buf s !! Z.to_nat (k mod INPUT_BUF))) s -> wp (buf_at k) s Q.
Proof.
  intros Hl HQ. unfold buf_at. wp_step. wp_step. pose proof (Z.mod_pos_bound k INPUT_BUF ltac:(done)) as Hm. unfold INPUT_BUF in Hm.
  destruct (lookup_lt_is_Some_2 (buf s) (Z.to_nat (k mod INPUT_BUF))) as [b Hb]; [unfold INPUT_BUF; lia|]. rewrite Hb in *. by wp_step.
Qed.

(** The editing index one back. *)
Lemma back_line s : cons_ok s -> ei s <> wi s -> let s' := set_e (u32 (ei s - 1)) s in
  u32 (ei s' - wi s') = u32 (ei s - wi s) - 1 /\ 0 < u32 (ei s - wi s) /\
  ring (buf s) (wi s) (u32 (ei s - wi s)) = ring (buf s') (wi s') (u32 (ei s' - wi s')) ++ [default 0 (buf s !! Z.to_nat (u32 (ei s - 1) mod INPUT_BUF))] /\
  cons_ok s'.
Proof.
  intros [A B (C1 & C2 & C3) D E F G H I] Hne s'. assert (u32 (ei s - wi s) <> 0) as H0 by (intros H0; apply Hne; by apply same_count).
  pose proof (count_range (ei s - wi s)). assert (u32 (ei s' - wi s') = u32 (ei s - wi s) - 1) as He.
  { cbn. unfold u32, UINT_MOD in *. zlia. }
  assert (ring (buf s) (wi s) (u32 (ei s - wi s)) = ring (buf s') (wi s') (u32 (ei s' - wi s')) ++ [default 0 (buf s !! Z.to_nat (u32 (ei s - 1) mod INPUT_BUF))]) as Hr.
  { rewrite He. replace (u32 (ei s - wi s)) with (u32 (ei s - wi s) - 1 + 1) at 1 by lia. rewrite ring_snoc by lia. cbn. do 5 f_equal.
    unfold u32, UINT_MOD, INPUT_BUF in *. zlia. }
  split; [done|]. split; [lia|]. split; [done|]. split; try done.
  - cbn. split; [done|]. split; [done|]. apply count_range.
  - cbn in *. lia.
  - cbn in *. lia.
  - rewrite Hr in F. apply Forall_app in F as [F _]. done.
Qed.

(** ** Typing *)
Lemma wp_kill_line fuel s com : cons_ok s -> u32 (ei s - wi s) < Z.of_nat fuel ->
  wp (kill_line fuel) s (fun _ s' => cons_ok s' /\ shows s' com = mkTty (queue (shows s com)) [] (readers s) com).
Proof.
  revert s. induction fuel as [|fuel IH]; intros s Hok Hf; [pose proof (count_range (ei s - wi s)); lia|]. cbn [kill_line]. wp_step. wp_step.
  pose proof (co_range _ Hok) as (C1 & C2 & C3). destruct (Z.eqb_spec (ei s) (wi s)) as [He|He].
  - wp_step. split; [done|]. unfold shows. cbn [queue]. f_equal. rewrite He, Z.sub_diag. done.
  - destruct (back_line s Hok He) as (B1 & B2 & B3 & B4). wp_step. apply wp_buf_at; [by apply co_buf|].
    pose proof (co_line _ Hok) as Hl. rewrite B3 in Hl. apply Forall_app in Hl as [_ Hl]. apply Forall_cons in Hl as [[Hnl _] _].
    rewrite (proj2 (Z.eqb_neq _ _)) by exact Hnl. wp_step. wp_step. set (s1 := set_e (u32 (ei s - 1)) s) in *. wp_step. apply wp_consputc; [apply B4|]. intros g Hg.
    eapply wp_mono; [apply IH; [by apply cons_ok_output|]|].
    + change (u32 (ei s1 - wi s1) < Z.of_nat fuel). lia.
    + intros _ s' [Hok' Hs']. split; [done|]. exact Hs'.
Qed.

(** A character goes into the line. *)
Lemma typed_line s c : cons_ok s -> 0 <= c < 256 -> u32 (ei s - ri s) < INPUT_BUF ->
  let s' := set_e (u32 (ei s + 1)) (set_buf (<[Z.to_nat (ei s mod INPUT_BUF) := c]> (buf s)) s) in
  u32 (ei s - ri s) = u32 (wi s - ri s) + u32 (ei s - wi s) /\ u32 (ei s' - wi s') = u32 (ei s - wi s) + 1 /\
  ring (buf s') (ri s') (u32 (wi s' - ri s')) = ring (buf s) (ri s) (u32 (wi s - ri s)) /\
  ring (buf s') (wi s') (u32 (ei s' - wi s')) = ring (buf s) (wi s) (u32 (ei s - wi s)) ++ [c] /\
  ring (buf s') (ri s') (u32 (ei s' - ri s')) = ring (buf s') (ri s') (u32 (wi s' - ri s')) ++ ring (buf s') (wi s') (u32 (ei s' - wi s')).
Proof.
  intros [A B (C1 & C2 & C3) D E F G H I] Hc Hroom s'. pose proof (count_range (wi s - ri s)) as R1. pose proof (count_range (ei s - wi s)) as R2. pose proof (count_range (ei s - ri s)) as R3.
  assert (u32 (ei s - ri s) = u32 (wi s - ri s) + u32 (ei s - wi s)) as H1 by (unfold u32, UINT_MOD in *; zlia). unfold INPUT_BUF in Hroom.
  assert (u32 (ei s' - wi s') = u32 (ei s - wi s) + 1) as H2 by (cbn; unfold u32, UINT_MOD in *; zlia).
  assert (u32 (ei s' - ri s') = u32 (wi s - ri s) + (u32 (ei s - wi s) + 1)) as H4 by (cbn; unfold u32, UINT_MOD in *; zlia).
  assert (ring (buf s') (ri s') (u32 (wi s' - ri s')) = ring (buf s) (ri s) (u32 (wi s - ri s))) as H3.
  { cbn. replace (ei s mod INPUT_BUF) with ((ri s + u32 (ei s - ri s)) mod INPUT_BUF) by (unfold u32, UINT_MOD, INPUT_BUF in *; zlia). apply ring_insert; lia. }
  split; [done|]. split; [done|]. split; [done|]. split.
  - rewrite H2, ring_snoc by lia. cbn. f_equal.
    + replace (ei s mod INPUT_BUF) with ((wi s + u32 (ei s - wi s)) mod INPUT_BUF) by (unfold u32, UINT_MOD, INPUT_BUF in *; zlia). apply ring_insert; lia.
    + replace ((wi s + u32 (ei s - wi s)) mod INPUT_BUF) with (ei s mod INPUT_BUF) by (unfold u32, UINT_MOD, INPUT_BUF in *; zlia).
      rewrite list_lookup_insert_eq; [done|]. pose proof (Z.mod_pos_bound (ei s) INPUT_BUF ltac:(done)). unfold INPUT_BUF in *. lia.
  - rewrite H4, H2. change (wi s') with (wi s). change (ri s') with (ri s). rewrite ring_app by lia. f_equal.
    rewrite <-(ring_u32 _ (ri s + _)), <-(ring_u32 _ (wi s)). f_equal. unfold u32, UINT_MOD in *. zlia.
Qed.

Lemma reader_ok_wake r : reader_ok r -> reader_ok (wake_reader r).
Proof. by destruct r as [[]]. Qed.
Lemma not_asleep_wake r : ~ asleep (wake_reader r).
Proof. destruct r as [[]]; cbn; tauto. Qed.

Lemma wp_type_char c s com : cons_ok s -> 0 <= c < 256 -> wp (type_char c) s (fun _ s' => cons_ok s' /\
  exists com', tty_type (shows s com) c = shows s' com').
Proof.
  intros Hok Hc. pose proof (co_range _ Hok) as (C1 & C2 & C3). pose proof (co_order _ Hok) as Hord. pose proof (count_range (wi s - ri s)) as R1. pose proof (count_range (ei s - wi s)) as R2.
  unfold type_char, tty_type. wp_step. wp_step.
  destruct (Z.eqb_spec c 16) as [->|H16]; [wp_step; split; [done|by exists com]|]. destruct (Z.eqb_spec c 21) as [->|H21].
  { wp_step. eapply wp_mono; [apply (wp_kill_line _ s com); [done|lia]|]. intros [] s' [Hok' Hs']. wp_step. split; [done|]. exists com. by rewrite Hs'. }
  destruct ((c =? 8) || (c =? 127)) eqn:Ebs.
  { destruct (Z.eqb_spec (ei s) (wi s)) as [He|He]; cbn [negb].
    - wp_step. split; [done|]. exists com. unfold shows. cbn [queue line procs committed]. rewrite He, Z.sub_diag. change (u32 0) with 0. reflexivity.
    - destruct (back_line s Hok He) as (B1 & B2 & B3 & B4). wp_step. wp_step. set (s1 := set_e (u32 (ei s - 1)) s) in *. wp_step. apply wp_consputc; [apply B4|]. intros g Hg.
      wp_step. split; [by apply cons_ok_output|]. exists com. rewrite shows_output. unfold shows. cbn [queue line procs committed]. f_equal.
      rewrite length_ring, B3, take_app_le, take_ge by (rewrite length_ring; lia). done. }
  assert (wants c = negb (c =? 0)) as Hw by (unfold wants; apply orb_false_iff in Ebs as [-> ->]; rewrite (proj2 (Z.eqb_neq c 16)), (proj2 (Z.eqb_neq c 21)) by done; done).
  assert (room_in (shows s com) = (u32 (ei s - ri s) <? INPUT_BUF)) as Hroom.
  { unfold room_in, shows. cbn [queue line]. rewrite !length_ring. assert (u32 (ei s - ri s) = u32 (wi s - ri s) + u32 (ei s - wi s)) as -> by (unfold u32, UINT_MOD in *; zlia).
    unfold INPUT_BUF. destruct (Nat.ltb_spec (Z.to_nat (u32 (wi s - ri s)) + Z.to_nat (u32 (ei s - wi s))) 128), (Z.ltb_spec (u32 (wi s - ri s) + u32 (ei s - wi s)) 128); try done; lia. }
  rewrite Hw, Hroom. destruct (negb (c =? 0) && (u32 (ei s - ri s) <? INPUT_BUF)) eqn:Eok; [|wp_step; split; [done|by exists com]].
  apply andb_true_iff in Eok as [_ Hlt%Z.ltb_lt]. change (if c =? 13 then NL else c) with (cooked c). assert (0 <= cooked c < 256) as Hcc by (unfold cooked, NL; destruct (c =? 13); lia).
  rewrite (Z.mod_small (cooked c)) by lia. destruct (typed_line s (cooked c) Hok Hcc Hlt) as (T1 & T2 & T3 & T4 & T5). pose proof (co_buf _ Hok) as Hbl.
  pose proof (Z.mod_pos_bound (ei s) INPUT_BUF ltac:(done)) as Hm. unfold INPUT_BUF in Hm. rewrite decide_True by (rewrite Hbl; unfold INPUT_BUF; lia).
  wp_step. wp_step. set (s1 := set_e _ _) in *. wp_step. apply wp_consputc; [exact (co_screen _ Hok)|]. intros g Hg. wp_step. wp_step. set (s2 := output _ g s1).
  change (ei s2) with (ei s1). change (ri s2) with (ri s1). change (wi s2) with (wi s).
  assert (Forall (fun c => 0 <= c < 256) (buf s1)) as Hby by (apply Forall_insert; [by apply co_bytes|done]).
  assert (u32 (wi s1 - ri s1) + u32 (ei s1 - wi s1) <= 128) as Hord1 by (change (wi s1 - ri s1) with (wi s - ri s); unfold INPUT_BUF in Hlt; lia).
  assert ((ei s1 =? u32 (ri s1 + INPUT_BUF)) = (length (queue (shows s com)) + length (line (shows s com) ++ [cooked c]) =? 128)%nat) as Hfull.
  { unfold shows. cbn [queue line]. rewrite length_app, !length_ring. cbn [length]. change (ri s1) with (ri s). change (ei s1) with (u32 (ei s + 1)). unfold INPUT_BUF in *.
    destruct (Z.eqb_spec (u32 (ei s + 1)) (u32 (ri s + 128))) as [E|E]; symmetry; [apply Nat.eqb_eq|apply Nat.eqb_neq]; unfold u32, UINT_MOD in *; zlia. }
  rewrite Hfull. change (line (shows s com)) with (ring (buf s) (wi s) (u32 (ei s - wi s))) in *. rewrite <-T4. rewrite <-T4 in Hfull.
  destruct ((cooked c =? NL) || (cooked c =? CTRL_D) || _) eqn:Ecommit.
  - wp_step. wp_step. wp_step. split.
    + split; cbn -[u32]; try done.
      * by rewrite length_insert.
      * split; [done|]. split; apply count_range.
      * rewrite Z.sub_diag. change (u32 0) with 0. change (u32 (u32 (ei s + 1) - ri s)) with (u32 (ei s1 - ri s1)).
        assert (u32 (ei s1 - ri s1) = u32 (wi s1 - ri s1) + u32 (ei s1 - wi s1)) as ->; [|lia].
        change (ri s1) with (ri s). change (ei s1) with (u32 (ei s + 1)). change (wi s1) with (wi s). clear -T1 Hlt C1 C2 C3. unfold u32, UINT_MOD, INPUT_BUF in *. zlia.
      * rewrite Z.sub_diag. constructor.
      * apply Forall_fmap. eapply Forall_impl; [by apply co_readers|]. intros r. apply reader_ok_wake.
      * intros r (r0 & -> & _)%list_elem_of_fmap Hr. by apply not_asleep_wake in Hr.
    + exists (com ++ ring (buf s1) (wi s1) (u32 (ei s1 - wi s1))). unfold shows. cbn [queue line procs committed]. f_equal.
      * change (ring (buf s) (ri s) (u32 (wi s - ri s)) ++ ring (buf s1) (wi s1) (u32 (ei s1 - wi s1)) = ring (buf s1) (ri s1) (u32 (ei s1 - ri s1))). by rewrite T5, T3.
      * cbn [wi ei set_readers set_w buf]. rewrite Z.sub_diag. done.
  - wp_step. apply orb_false_iff in Ecommit as [[Enl Ed]%orb_false_iff Efull]. rewrite Efull in Hfull. split.
    + split; cbn -[u32 ring]; try done.
      * by rewrite length_insert.
      * split; [done|]. split; [done|]. apply count_range.
      * intros Hf. exfalso. apply Z.eqb_neq in Hfull. apply Hfull. change (ri s1) with (ri s). change (ei s1) with (u32 (ei s + 1)). clear -Hf C1 C2 C3. unfold u32, UINT_MOD, INPUT_BUF in *. zlia.
      * change (Forall (fun c => c <> NL /\ c <> CTRL_D) (ring (buf s1) (wi s1) (u32 (ei s1 - wi s1)))). rewrite T4. apply Forall_app. split; [by apply co_line|]. constructor; [|done]. split; by apply Z.eqb_neq.
      * by apply co_readers.
      * by apply co_sleep.
    + exists com. unfold shows. cbn [queue line procs committed]. change (buf s2) with (buf s1). change (ri s2) with (ri s1). change (wi s2) with (wi s1). change (ei s2) with (ei s1).
      rewrite T3. done.
Qed.

(** ** Interrupts *)
Lemma wp_intr_loop cs d s com : cons_ok s -> Forall (fun c => c < 256) cs -> wp (intr_loop cs d) s (fun _ s' => cons_ok s' /\
  exists com', fold_left tty_type (typed cs) (shows s com) = shows s' com').
Proof.
  intros Hok Hcs. revert d s com Hok. induction Hcs as [|c cs Hc Hcs IH]; intros d s com Hok; cbn [intr_loop typed]; [wp_step; split; [done|by exists com]|].
  destruct (Z.ltb_spec c 0); [wp_step; split; [done|by exists com]|]. wp_step. eapply wp_mono; [apply (wp_type_char c s com); [done|lia]|].
  intros d' s' [Hok' [com' E]]. cbn [fold_left]. rewrite E. by apply IH.
Qed.

(** ** Reading *)
Lemma pop_queue s : cons_ok s -> ri s <> wi s -> let s' := set_r (u32 (ri s + 1)) s in
  cons_ok s' /\ ring (buf s) (ri s) (u32 (wi s - ri s)) = default 0 (buf s !! Z.to_nat (ri s mod INPUT_BUF)) :: ring (buf s') (ri s') (u32 (wi s' - ri s')).
Proof.
  intros [A B (C1 & C2 & C3) D E F G H I] Hne s'. assert (u32 (wi s - ri s) <> 0) as H0 by (intros H0; apply Hne; symmetry; by apply same_count).
  pose proof (count_range (wi s - ri s)). pose proof (count_range (ei s - wi s)). assert (u32 (wi s' - ri s') = u32 (wi s - ri s) - 1) as Hc by (cbn; unfold u32, UINT_MOD in *; zlia).
  split.
  - split; try done; [split; [apply count_range|done]|change (u32 (wi s' - ri s') + u32 (ei s - wi s) <= 128); lia|change (u32 (wi s' - ri s') + u32 (ei s - wi s) = 128 -> wi s = ei s); lia|].
    intros r Hr Hs. exfalso. apply Hne. by eapply I.
  - rewrite Hc. change (ri s') with (u32 (ri s + 1)). rewrite ring_u32. apply ring_cons. lia.
Qed.

(** The call's arguments while a section runs. *)
Definition call_ok (target n : Z) (got : list Z) : Prop := (n <= 0 /\ got = [] /\ target = u32 n) \/ (0 <= n /\ target = n + Z.of_nat (length got) /\ target <= INT_MAX).

Lemma call_value target n got : call_ok target n got -> n <= 0 -> to_int (target - n) = Z.of_nat (length got).
Proof.
  intros [(H1 & -> & ->)|(H1 & -> & H3)] Hn.
  - cbn [length]. unfold to_int, u32, UINT_MOD in *. zlia.
  - assert (n = 0) as -> by lia. rewrite to_int_id; [lia|]. unfold_bounds. lia.
Qed.
Lemma call_value_pos target n got k : call_ok target n got -> 0 < n -> 0 <= k <= n -> to_int (target - (n - k)) = Z.of_nat (length got) + k.
Proof. intros [(H1 & _ & _)|(H1 & -> & H3)] Hn Hk; [lia|]. rewrite to_int_id; [lia|]. unfold_bounds. lia. Qed.

(** What a section returns when the discipline gives it [g], and [d] says it is done. *)
Definition section_result (killed d : bool) (n : Z) (got g : list Z) : rnext :=
  if d then NRet (Z.of_nat (length (got ++ g))) (got ++ g) else if killed then NRet (-1) (got ++ g) else NSleep (n - Z.of_nat (length g)) (got ++ g).

Lemma wp_read_loop fuel killed target n got s : cons_ok s -> call_ok target n got -> Z.max 0 n < Z.of_nat fuel ->
  wp (read_loop fuel killed target n got) s (fun x s' => cons_ok s' /\ (exists r, s' = set_r r s) /\
    let '(g, q, d) := tty_take (Z.to_nat n) (bool_decide (got = [])) (ring (buf s) (ri s) (u32 (wi s - ri s))) in
    q = ring (buf s') (ri s') (u32 (wi s' - ri s')) /\ x = section_result killed d n got g /\ (d = false -> ri s' = wi s' /\ Z.of_nat (length g) < n)).
Proof.
  revert n got s. induction fuel as [|fuel IH]; intros n got s Hok Hcall Hfuel; cbn [read_loop]; [lia|].
  destruct (Z.ltb_spec 0 n) as [Hn|Hn].
  2:{ wp_step. split; [done|]. split; [exists (ri s); by destruct s|]. replace (Z.to_nat n) with 0%nat by lia. cbn [tty_take]. split; [done|]. split; [|done].
      unfold section_result. rewrite app_nil_r, (call_value target n got) by done. done. }
  destruct (Z.to_nat n) as [|n'] eqn:En; [lia|]. wp_step. wp_step. pose proof (co_range _ Hok) as (C1 & C2 & C3).
  destruct (Z.eqb_spec (ri s) (wi s)) as [He|He].
  - assert (ring (buf s) (ri s) (u32 (wi s - ri s)) = []) as Eq by (rewrite He, Z.sub_diag; done). rewrite Eq. cbn [tty_take].
    destruct killed; wp_step; (split; [done|]); (split; [exists (ri s); by destruct s|]); rewrite Eq; (split; [done|]); (split; [unfold section_result; cbn [length]; rewrite app_nil_r; by rewrite ?Z.sub_0_r|cbn; lia]).
  - destruct (pop_queue s Hok He) as [Hok' Hq]. set (s1 := set_r (u32 (ri s + 1)) s) in *. wp_step. apply wp_buf_at; [by apply co_buf|]. rewrite Hq. set (c := default 0 _). wp_step. wp_step. fold s1. cbn [tty_take].
    assert (Hcall' := Hcall). destruct Hcall' as [(? & _)|(_ & Ht & Hmax)]; [lia|]. assert (u32 n = n) as Hun by (apply u32_id; unfold_bounds; lia).
    destruct (c =? CTRL_D).
    + rewrite Hun. pose proof (call_value_pos target n got 0 Hcall Hn ltac:(lia)) as Hv. rewrite Z.sub_0_r in Hv.
      assert ((n <? target) = negb (bool_decide (got = []))) as Ef.
      { destruct got as [|b got]; [rewrite bool_decide_eq_true_2 by done; apply Z.ltb_ge; cbn in Ht; lia|rewrite bool_decide_eq_false_2 by done; apply Z.ltb_lt; cbn in Ht; lia]. }
      rewrite Ef. destruct (bool_decide (got = [])); cbn [negb].
      * wp_step. split; [done|]. split; [by eexists|]. split; [done|]. split; [|done]. unfold section_result. rewrite app_nil_r, Hv. f_equal. lia.
      * wp_step. wp_step. wp_step. assert (set_r (ri s) s1 = s) as -> by by destruct s. split; [done|]. split; [exists (ri s); by destruct s|]. split; [by rewrite Hq|]. split; [|done].
        unfold section_result. rewrite app_nil_r, Hv. f_equal. lia.
    + destruct (c =? NL).
      * wp_step. split; [done|]. split; [by eexists|]. split; [done|]. split; [|done]. unfold section_result. rewrite (call_value_pos target n got 1 Hcall) by lia. rewrite length_app. cbn. f_equal. lia.
      * assert (call_ok target (n - 1) (got ++ [c])) as Hcall1 by (right; rewrite length_app; cbn; lia).
        eapply wp_mono; [apply (IH (n - 1) (got ++ [c]) s1 Hok' Hcall1); lia|]. intros x s' (Hok2 & [r Hr] & Hres).
        replace (Z.to_nat (n - 1)) with n' in Hres by lia. rewrite (bool_decide_eq_false_2 (got ++ [c] = [])) in Hres by (by destruct got).
        destruct (tty_take n' false (ring (buf s1) (ri s1) (u32 (wi s1 - ri s1)))) as [[g q] d]. destruct Hres as (E1 & E2 & E3). split; [done|]. split; [exists r; by rewrite Hr|]. split; [done|]. split.
        -- rewrite E2. unfold section_result. rewrite <-!app_assoc. cbn [app length]. destruct d; [done|]. destruct killed; [done|]. f_equal. lia.
        -- intros Hd. destruct (E3 Hd). cbn [length]. split; [done|lia].
Qed.

(** ** The console implements the line discipline *)

(** What an event may be: characters are bytes, counts are ints. *)
Definition event_ok (e : event) : Prop :=
  match e with
  | EIntr cs => Forall (fun c => c < 256) cs
  | ERead _ n => INT_MIN <= n <= INT_MAX
  | _ => True
  end.

Lemma cons_ok_reader s j r : cons_ok s -> reader_ok r -> (asleep r -> ri s = wi s) -> cons_ok (set_readers (<[j := r]> (readers s)) s).
Proof.
  intros [A B C D E F G H I] Hr Hs. split; try done.
  - cbn. apply Forall_insert; done.
  - cbn. intros r' Hin Hr'. apply list_elem_of_lookup in Hin as [i Hi]. apply list_lookup_insert_Some in Hi as [(_ & <- & _)|(_ & Hi)]; [by apply Hs|].
    eapply I; [by eapply list_elem_of_lookup_2|done].
Qed.

Section refines.
Context (procdump : M console unit).
(** procdump only writes. *)
Context (Hdump : forall s, cons_ok s -> wp procdump s (fun _ s' => exists o g, cga_ok g /\ s' = output o g s)).

Lemma exec_refines e s com : cons_ok s -> event_ok e ->
  match tty_exec e (shows s com) with
  | None => exec procdump e s = None
  | Some (g, t) => exists s' com', exec procdump e s = Some (Ok (g, s')) /\ cons_ok s' /\ t = shows s' com'
  end.
Proof.
  intros Hok He. destruct e as [cs|j n|j|j]; cbn [tty_exec exec].
  - assert (wp (consoleintr procdump cs) s (fun _ s' => cons_ok s' /\ exists com', fold_left tty_type (typed cs) (shows s com) = shows s' com')) as ([] & s' & E & Hok' & com' & Ht).
    { unfold consoleintr. wp_step. eapply wp_mono; [by apply (wp_intr_loop cs false s com)|]. intros [] s' (Hok' & com' & Ht).
      - eapply wp_mono; [by apply Hdump|]. intros [] s2 (o & g & Hg & ->). split; [by apply cons_ok_output|]. exists com'. by rewrite Ht.
      - wp_step. split; [done|]. by exists com'. }
    exists s', com'. rewrite E. by rewrite Ht.
  - change (procs (shows s com)) with (readers s). destruct (readers s !! j) as [r|] eqn:Hr; [|done]. cbn. destruct (rst r) eqn:Est; try done.
    eexists _, com. split; [done|]. split; [|done]. apply cons_ok_reader; [done| |by intros []].
    destruct (decide (n <= 0)); [left; by split_and!|right]. cbn [length]. rewrite u32_id by (cbn in He; unfold_bounds; lia). cbn in He. lia.
  - change (procs (shows s com)) with (readers s). destruct (readers s !! j) as [r|] eqn:Hr; [|done]. cbn -[consoleread tty_take]. destruct (rst r) as [|target n got|] eqn:Est; try done.
    assert (call_ok target n got) as Hcall.
    { pose proof (co_readers _ Hok) as HR. eapply Forall_lookup_1 in HR; [|exact Hr]. unfold reader_ok in HR. by rewrite Est in HR. }
    destruct (wp_read_loop (S (Z.to_nat n)) (rkilled r) target n got s Hok Hcall ltac:(lia)) as (x & s' & E & Hok' & [r' Hs'] & Hres).
    change (queue (shows s com)) with (ring (buf s) (ri s) (u32 (wi s - ri s))). destruct (tty_take (Z.to_nat n) (bool_decide (got = [])) _) as [[g q] d].
    destruct Hres as (Eq & Ex & Hd). unfold consoleread. rewrite E. cbn.
    set (st := if d || rkilled r then RIdle else RSleep target (n - Z.of_nat (length g)) (got ++ g)).
    assert ((let '(st0, got') := match x with NSleep n' g0 => (RSleep target n' g0, g0) | NRet _ g0 => (RIdle, g0) end in
      @Ok (list Z * console) (drop (length got) got', set_readers (<[j := mkReader st0 (rkilled r)]> (readers s')) s')) = Ok (g, set_readers (<[j := mkReader st (rkilled r)]> (readers s')) s')) as Efin.
    { rewrite Ex. unfold section_result, st. destruct d, (rkilled r); cbn [orb]; by rewrite drop_app_length. }
    exists (set_readers (<[j := mkReader st (rkilled r)]> (readers s')) s'), com. split; [by f_equal|]. split.
    + apply cons_ok_reader; [done| |].
      * unfold st. destruct d; [done|]. destruct (rkilled r); [done|]. destruct (Hd eq_refl). cbn. destruct Hcall as [(? & -> & _)|(? & -> & ?)]; [lia|]. right. rewrite length_app. lia.
      * unfold st, asleep. cbn. destruct d; [done|]. destruct (rkilled r); [done|]. intros _. by apply Hd.
    + unfold shows. rewrite Hs' in *. cbn -[ring] in *. by rewrite Eq.
  - change (procs (shows s com)) with (readers s). destruct (readers s !! j) as [r|] eqn:Hr; [|done]. cbn. eexists _, com. split; [done|]. split; [|done].
    apply cons_ok_reader; [done| |by intros ?%not_asleep_wake]. apply reader_ok_wake. pose proof (co_readers _ Hok) as HR. eapply Forall_lookup_1 in HR; [|exact Hr]. done.
Qed.

Lemma run_refines es s com : cons_ok s -> Forall event_ok es ->
  match tty_run es (shows s com) with
  | None => run procdump es s = None
  | Some (g, t) => exists s' com', run procdump es s = Some (Ok (g, s')) /\ cons_ok s' /\ t = shows s' com'
  end.
Proof.
  intros Hok Hes. revert s com Hok. induction Hes as [|e es He Hes IH]; intros s com Hok; cbn [tty_run run]; [by exists s, com|].
  pose proof (exec_refines e s com Hok He) as Hx. destruct (tty_exec e (shows s com)) as [[g t]|]; cbn; [|by rewrite Hx].
  destruct Hx as (s1 & com1 & -> & Hok1 & ->). specialize (IH s1 com1 Hok1). destruct (tty_run es (shows s1 com1)) as [[g' t']|]; cbn; [|by rewrite IH].
  destruct IH as (s2 & com2 & -> & Hok2 & ->). by exists s2, com2.
Qed.
End refines.

Lemma cons_ok_start u nr g : cga_ok g -> cons_ok (console_start u nr g).
Proof.
  intros Hg. split; try done; [by apply (Forall_replicate _ 128)|by apply Forall_replicate].
Qed.

(** ** What the discipline promises *)
Definition is_char (c : Z) : Prop := c <> CTRL_D.

(** Editing without a limit: the lines that are complete, and the one that is not. *)
Definition edit (st : list Z * list Z) (c : Z) : list Z * list Z :=
  let '(done, l) := st in
  if c =? 21 then (done, [])
  else if (c =? 8) || (c =? 127) then (done, take (length l - 1) l)
  else if wants c then
    let l := l ++ [cooked c] in if (cooked c =? NL) || (cooked c =? CTRL_D) then (done ++ l, []) else (done, l)
  else st.
Definition all_typed (es : list event) : list Z := es ≫= fun e => match e with EIntr cs => typed cs | _ => [] end.

Record tty_ok (t : tty) : Prop := {
  to_room : (length (queue t) + length (line t) <= 128)%nat;
  to_full : (length (queue t) + length (line t) = 128)%nat -> line t = [];
  to_sleep : forall r, r ∈ procs t -> asleep r -> queue t = []
}.

Lemma tty_take_spec n fresh q : let '(g, r, d) := tty_take n fresh q in
  filter is_char q = g ++ filter is_char r /\ (length r <= length q)%nat /\ (d = false -> r = []).
Proof.
  revert fresh q. induction n as [|n IH]; intros fresh q; [by cbn [tty_take]|]. destruct q as [|c q]; [done|]. cbn [tty_take].
  unfold is_char. destruct (Z.eqb_spec c CTRL_D) as [->|Hc].
  - rewrite filter_cons_False by (intros H; by apply H). destruct fresh; cbn; split_and!; first [done|lia|by rewrite filter_cons_False by (intros H; by apply H)].
  - destruct (c =? NL); [rewrite filter_cons_True by done; cbn; split_and!; first [done|lia]|]. specialize (IH false q). destruct (tty_take n false q) as [[g r] d]. destruct IH as (I1 & I2 & I3).
    rewrite filter_cons_True by done. unfold is_char in I1. rewrite I1. cbn. split_and!; first [done|lia].
Qed.

Lemma tty_take_taken n fresh q : exists k, (tty_take n fresh q).1.2 = drop k q.
Proof.
  revert fresh q. induction n as [|n IH]; intros fresh q; [by exists 0%nat|]. destruct q as [|c q]; [by exists 0%nat|]. cbn [tty_take].
  destruct (c =? CTRL_D); [destruct fresh; [by exists 1%nat|by exists 0%nat]|]. destruct (c =? NL); [by exists 1%nat|].
  destruct (IH false q) as [k Hk]. destruct (tty_take n false q) as [[g r] d]. exists (S k). exact Hk.
Qed.

(** The state of a run of the discipline: what was typed, and what was given out. *)
Record disciplined (ty got : list Z) (t : tty) : Prop := {
  di_ok : tty_ok t;
  di_fifo : filter is_char (committed t) = got ++ filter is_char (queue t);
  di_cook : (length ty < 128)%nat -> (committed t, line t) = fold_left edit ty ([], []) /\ (length (queue t) + length (line t) <= length ty)%nat
}.

Lemma tty_type_ok ty got t c : 0 <= c -> disciplined ty got t -> disciplined (ty ++ [c]) got (tty_type t c).
Proof.
  intros Hc0 [[R F Sl] Hf Hk]. assert ((length (ty ++ [c]) < 128)%nat -> fold_left edit (ty ++ [c]) ([], []) = edit (committed t, line t) c /\ (length (queue t) + length (line t) <= length ty)%nat /\ (length ty < 127)%nat) as Hk'.
  { rewrite length_app. cbn. intros Hl. destruct Hk as [Hk1 Hk2]; [lia|]. rewrite fold_left_app. cbn. rewrite <-Hk1. split; [done|lia]. }
  assert (length (ty ++ [c]) = S (length ty)) as Hl1 by (rewrite length_app; cbn; lia). unfold tty_type.
  destruct (c =? 21) eqn:E21.
  { split; [split; cbn; [lia|done|done]|done|]. intros Hl. destruct (Hk' Hl) as (-> & ? & _). cbn [edit committed line queue length]. rewrite E21, Hl1. split; [done|lia]. }
  destruct ((c =? 8) || (c =? 127)) eqn:E8.
  { split; [split; cbn; [rewrite length_take; lia| |done]|done|].
    - rewrite length_take. intros Hfull. rewrite F by lia. done.
    - intros Hl. destruct (Hk' Hl) as (-> & ? & _). unfold edit. rewrite E21, E8. cbn [committed line queue]. rewrite length_take, Hl1. split; [done|lia]. }
  destruct (wants c) eqn:Ew; cbn [andb].
  2:{ split; [done|done|]. intros Hl. destruct (Hk' Hl) as (-> & ? & _). unfold edit. rewrite E21, E8, Ew, Hl1. split; [done|lia]. }
  destruct (room_in t) eqn:Er.
  2:{ split; [done|done|]. intros Hl. destruct (Hk' Hl) as (_ & ? & ?). unfold room_in in Er. apply Nat.ltb_ge in Er. lia. }
  unfold room_in in Er. apply Nat.ltb_lt in Er. destruct ((cooked c =? NL) || (cooked c =? CTRL_D) || _) eqn:Ecom.
  - split.
    + split; cbn [queue line procs]; [rewrite length_app, length_app; cbn; lia|done|]. intros r (r0 & -> & _)%list_elem_of_fmap Hr. by apply not_asleep_wake in Hr.
    + cbn [committed queue]. rewrite !filter_app, Hf. by rewrite <-app_assoc.
    + intros Hl. destruct (Hk' Hl) as (-> & ? & ?). cbn [committed line queue]. unfold edit. rewrite E21, E8, Ew. rewrite !length_app. cbn [length].
      destruct ((cooked c =? NL) || (cooked c =? CTRL_D)) eqn:Enl; [split; [done|lia]|]. cbn [orb] in Ecom. apply Nat.eqb_eq in Ecom. rewrite length_app in Ecom. cbn in Ecom. lia.
  - apply orb_false_iff in Ecom as [Enl Efull%Nat.eqb_neq]. rewrite length_app in Efull. cbn in Efull. split.
    + split; cbn [queue line procs]; [rewrite length_app; cbn; lia|rewrite length_app; cbn; lia|done].
    + done.
    + intros Hl. destruct (Hk' Hl) as (-> & ? & ?). cbn [committed line queue]. unfold edit. rewrite E21, E8, Ew, Enl, !length_app. cbn [length]. split; [done|lia].
Qed.

Lemma tty_types_ok ty got t cs : disciplined ty got t -> disciplined (ty ++ typed cs) got (fold_left tty_type (typed cs) t).
Proof.
  revert ty t. induction cs as [|c cs IH]; intros ty t Hd; cbn [typed]; [by rewrite app_nil_r|]. destruct (Z.ltb_spec c 0); [by rewrite app_nil_r|]. cbn [fold_left].
  rewrite cons_middle, app_assoc. by apply IH, tty_type_ok.
Qed.

Lemma tty_exec_ok ty got t e g t' : disciplined ty got t -> tty_exec e t = Some (g, t') -> disciplined (ty ++ all_typed [e]) (got ++ g) t'.
Proof.
  intros Hd He. pose proof Hd as [[R F Sl] Hf Hk].
  assert (forall j r q, (asleep r -> q = []) -> (length q <= length (queue t))%nat -> (exists k, q = drop k (queue t)) -> filter is_char (queue t) = g ++ filter is_char q -> all_typed [e] = [] ->
    disciplined (ty ++ all_typed [e]) (got ++ g) (mkTty q (line t) (<[j := r]> (procs t)) (committed t))) as Hset.
  { intros j r q Hr Hlen [k Hq] Hg ->. rewrite app_nil_r. split; [split; cbn [queue line procs committed]| |].
    - lia.
    - intros Hfull. apply F. lia.
    - intros r' Hin Hr'. apply list_elem_of_lookup in Hin as [i Hi]. apply list_lookup_insert_Some in Hi as [(_ & <- & _)|(_ & Hi)]; [by apply Hr|].
      rewrite Hq, (Sl r'), drop_nil by (done || by eapply list_elem_of_lookup_2). done.
    - cbn [queue committed]. by rewrite Hf, Hg, app_assoc.
    - intros Hl. destruct (Hk Hl). cbn. split; [done|lia]. }
  destruct e as [cs|j n|j|j]; cbn [tty_exec] in He.
  - injection He as <- <-. rewrite app_nil_r. cbn. rewrite app_nil_r. by apply tty_types_ok.
  - apply bind_Some in He as (r & Hr & He). destruct (rst r); try done. injection He as <- <-. apply Hset; try done. by exists 0%nat.
  - apply bind_Some in He as (r & Hr & He). destruct (rst r) as [|target n got0|]; try done.
    pose proof (tty_take_spec (Z.to_nat n) (bool_decide (got0 = [])) (queue t)) as Ht. pose proof (tty_take_taken (Z.to_nat n) (bool_decide (got0 = [])) (queue t)) as Hk2.
    destruct (tty_take _ _ _) as [[g' q] d]. injection He as <- <-. destruct Ht as (T1 & T2 & T3). apply Hset; try done. unfold asleep. cbn. destruct d; [done|]. destruct (rkilled r); [done|]. by intros _; apply T3.
  - apply bind_Some in He as (r & Hr & He). injection He as <- <-. apply Hset; try done; [by intros ?%not_asleep_wake|by exists 0%nat].
Qed.

Lemma tty_run_ok es ty got t g t' : disciplined ty got t -> tty_run es t = Some (g, t') -> disciplined (ty ++ all_typed es) (got ++ g) t'.
Proof.
  revert ty got t g. induction es as [|e es IH]; intros ty got t g Hd Hr; cbn [tty_run] in Hr; [injection Hr as <- <-; cbn; by rewrite !app_nil_r|].
  apply bind_Some in Hr as ([g1 t1] & He & Hr). apply bind_Some in Hr as ([g2 t2] & Hr & Heq). injection Heq as <- <-.
  pose proof (tty_exec_ok _ _ _ _ _ _ Hd He) as Hd1. pose proof (IH _ _ _ _ Hd1 Hr) as Hd2. rewrite <-!app_assoc in Hd2.
  replace (all_typed (e :: es)) with (all_typed [e] ++ all_typed es); [done|]. unfold all_typed. by rewrite <-bind_app.
Qed.

(** ** The console over any sequence of events *)
Section promises.
Context (procdump : M console unit).
Context (Hdump : forall s, cons_ok s -> wp procdump s (fun _ s' => exists o g, cga_ok g /\ s' = output o g s)).

(** C24: the console stays in order.  Whatever characters arrive and whatever
    readers call, run, sleep or are killed, in any order, no operation of the
    console fails: the indices of the ring keep r <= w <= e <= r + 128 modulo
    2^32, its 128 bytes are bytes, a full ring has been committed, the line being
    edited has no newline and no ^D, the cursor is inside the screen, and every
    reader inside a call has as many bytes as its count says. *)
Theorem console_wf u nr g es : cga_ok g -> Forall event_ok es ->
  match run procdump es (console_start u nr g) with
  | None => True
  | Some (Err _) => False
  | Some (Ok (_, s)) => cons_ok s
  end.
Proof.
  intros Hg Hes. pose proof (run_refines procdump Hdump es (console_start u nr g) [] (cons_ok_start u nr g Hg) Hes) as Hr.
  destruct (tty_run es _) as [[bs t]|]; [|by rewrite Hr]. by destruct Hr as (s' & com' & -> & Hok & _).
Qed.

(** C25: the ring is a queue and a line.  Every run of the console gives readers
    the bytes that the same run of the line discipline gives, and ends with the
    bytes from r to w as its queue, those from w to e as its line, and its
    readers; what cannot happen in one cannot happen in the other. *)
Theorem console_refines u nr g es : cga_ok g -> Forall event_ok es ->
  match tty_run es (tty_start nr) with
  | None => run procdump es (console_start u nr g) = None
  | Some (bs, t) => exists s com, run procdump es (console_start u nr g) = Some (Ok (bs, s)) /\ t = shows s com
  end.
Proof.
  intros Hg Hes. pose proof (run_refines procdump Hdump es (console_start u nr g) [] (cons_ok_start u nr g Hg) Hes) as Hr.
  change (shows (console_start u nr g) []) with (tty_start nr) in Hr. destruct (tty_run es (tty_start nr)) as [[bs t]|]; [|done].
  destruct Hr as (s' & com' & E & _ & Ht). by exists s', com'.
Qed.

(** What is typed is read, once and in order.  In every run the bytes copied
    to readers and those still in the queue are, ^D apart, the bytes that the
    line discipline commits in that run; a reader sleeps only when the queue is
    empty; a ring with no room has no line to wait for.  While fewer than 128
    characters have been typed, none is refused: the bytes committed and the line
    are what editing the typed characters gives. *)
Theorem console_delivers u nr g es bs s : cga_ok g -> Forall event_ok es -> run procdump es (console_start u nr g) = Some (Ok (bs, s)) ->
  let q := ring (buf s) (ri s) (u32 (wi s - ri s)) in let l := ring (buf s) (wi s) (u32 (ei s - wi s)) in
  exists t, tty_run es (tty_start nr) = Some (bs, t) /\ queue t = q /\ line t = l /\
    filter is_char (committed t) = bs ++ filter is_char q /\
    (forall r, r ∈ readers s -> asleep r -> q = []) /\
    ((length q + length l <= 128)%nat /\ ((length q + length l = 128)%nat -> l = [])) /\
    ((length (all_typed es) < 128)%nat -> (committed t, l) = fold_left edit (all_typed es) ([], [])).
Proof.
  intros Hg Hes Hrun q l. pose proof (run_refines procdump Hdump es (console_start u nr g) [] (cons_ok_start u nr g Hg) Hes) as Hr.
  change (shows (console_start u nr g) []) with (tty_start nr) in Hr. destruct (tty_run es (tty_start nr)) as [[bs' t]|] eqn:Et; [|by rewrite Hr in Hrun].
  destruct Hr as (s' & com & E & _ & Ht). rewrite E in Hrun. injection Hrun as -> ->.
  assert (disciplined [] [] (tty_start nr)) as Hd.
  { split; [split; cbn; [lia|done|]|done|done]. intros r Hr. apply elem_of_replicate in Hr as [-> _]. done. }
  pose proof (tty_run_ok _ _ _ _ _ _ Hd Et) as [[R F S] Hf Hk]. exists t. split; [done|].
  rewrite Ht in *. split; [done|split; [done|split; [done|split; [done|split; [done|]]]]].
  intros Hl. by destruct (Hk Hl).
Qed.
End promises.

(** "ab", a backspace, "c" and a return, typed before and while a process reads. *)
Definition ex_cga : cga := mkCga (replicate 2000 0) 0.
Definition ex_events : list event := [EIntr [97; 98]; ERead 0 10; ERun 0; EIntr [8; 99; 13; -1]; ERun 0].
Lemma ex_cga_ok : cga_ok ex_cga.
Proof. by split. Qed.
Lemma ex_events_ok : Forall event_ok ex_events.
Proof. repeat constructor; cbn; unfold_bounds; lia. Qed.
Lemma ex_dump : forall s, cons_ok s -> wp (mret tt : M console unit) s (fun _ s' => exists o g, cga_ok g /\ s' = output o g s).
Proof. intros s Hok. wp_step. exists [], (screen s). split; [by apply co_screen|]. by rewrite output_nil. Qed.

Lemma console_wf_witness : match run (mret tt) ex_events (console_start true 1 ex_cga) with Some (Ok (bs, s)) => bs = [97; 99; 10] /\ cons_ok s | _ => False end.
Proof.
  pose proof (console_wf (mret tt) ex_dump true 1 ex_cga ex_events ex_cga_ok ex_events_ok) as Hw.
  assert (fmap (fun r => match r with Ok (bs, _) => bs | _ => [] end) (run (mret tt) ex_events (console_start true 1 ex_cga)) = Some [97; 99; 10]) as Hb by (vm_compute; reflexivity).
  destruct (run (mret tt) ex_events (console_start true 1 ex_cga)) as [[[bs s]|]|]; [|exact Hw|discriminate Hb]. split; [by injection Hb|exact Hw].
Defined.

Lemma console_refines_witness : exists s t com, run (mret tt) ex_events (console_start true 1 ex_cga) = Some (Ok ([97; 99; 10], s)) /\
  tty_run ex_events (tty_start 1) = Some ([97; 99; 10], t) /\ t = shows s com.
Proof.
  pose proof (console_refines (mret tt) ex_dump true 1 ex_cga ex_events ex_cga_ok ex_events_ok) as Hr.
  destruct (tty_run ex_events (tty_start 1)) as [[bs t]|] eqn:Et; [|vm_compute in Et; discriminate Et].
  assert (bs = [97; 99; 10]) as -> by (vm_compute in Et; congruence). destruct Hr as (s & com & E & Ht). exists s, t, com. split; [exact E|]. split; [reflexivity|exact Ht].
Defined.

Lemma console_delivers_witness : exists s t, run (mret tt) ex_events (console_start true 1 ex_cga) = Some (Ok ([97; 99; 10], s)) /\
  tty_run ex_events (tty_start 1) = Some ([97; 99; 10], t) /\ filter is_char (committed t) = [97; 99; 10].
Proof.
  destruct (run (mret tt) ex_events (console_start true 1 ex_cga)) as [[[bs s]|]|] eqn:E; [|vm_compute in E; discriminate E|vm_compute in E; discriminate E].
  destruct (console_delivers (mret tt) ex_dump true 1 ex_cga ex_events bs s ex_cga_ok ex_events_ok E) as (t & Et & _ & _ & _ & _ & _ & Hk).
  assert (bs = [97; 99; 10]) as -> by (vm_compute in E; congruence). exists s, t. split; [reflexivity|]. split; [exact Et|].
  assert ((committed t, ring (buf s) (wi s) (u32 (ei s - wi s))) = ([97; 99; 10], [])) as Hcom; [|by injection Hcom as -> _].
  rewrite Hk; [vm_compute; reflexivity|]. apply Nat.ltb_lt. vm_compute. reflexivity.
Defined.

Lemma cprintf_correct_witness : exists g, cga_ok g /\
  cprintf (fun _ => None) (chr "pid %d: %x%%") [4294967295; 255] (console_start true 0 ex_cga) = Ok (tt, output (chr "pid -1: ff%") g (console_start true 0 ex_cga)).
Proof.
  apply (cprintf_correct (fun _ => None) (chr "pid %d: %x%%") [4294967295; 255] (chr "pid -1: ff%") (console_start true 0 ex_cga)); [exact ex_cga_ok|]. vm_compute. reflexivity.
Defined.

(** ** What the screen shows *)
Fixpoint cgaputs (cs : list Z) : M cga unit := match cs with [] => mret tt | c :: cs' => _ ← cgaputc c; cgaputs cs' end.
Definition glyph (c : Z) : Z := Z.lor (Z.land c 0xff) 0x0700.
Definition plain_char (c : Z) : Prop := c <> 10 /\ c <> BACKSPACE.

Lemma placed_last g c : cga_ok g -> drop (24 * 80) (placed g c).1 = drop (24 * 80) (crt g).
Proof. intros [Hl Hp]. unfold placed. destruct (c =? 10); [done|]. destruct (c =? BACKSPACE); [done|]. cbn [fst]. apply drop_insert_lt. lia. Qed.

(** C26: the screen driver never leaves the 24 rows.  From any cursor in them,
    any characters are written without a panic and without an access outside the
    screen: the cursor stays inside, the last row of the memory is never touched,
    and the cell under the cursor is blank.  Plain characters that fit before the
    end of the rows appear in the cells from the cursor on, in order. *)
Theorem screen_bounds g cs : cga_ok g -> exists g', cgaputs cs g = Ok (tt, g') /\ cga_ok g' /\ drop (24 * 80) (crt g') = drop (24 * 80) (crt g) /\
  (cs <> [] -> crt g' !! Z.to_nat (cursor g') = Some 0x720) /\
  (Forall plain_char cs -> cs <> [] -> cursor g + Z.of_nat (length cs) < 24 * 80 ->
    cursor g' = cursor g + Z.of_nat (length cs) /\
    forall k, crt g' !! k = let i := (k - Z.to_nat (cursor g))%nat in
      if decide (k < Z.to_nat (cursor g))%nat then crt g !! k else if decide (i < length cs)%nat then glyph <$> cs !! i
      else if decide (i = length cs) then Some 0x720 else crt g !! k).
Proof.
  revert g. induction cs as [|c cs IH]; intros g Hg; cbn [cgaputs].
  { exists g. split; [done|]. split; [done|]. split; [done|]. by split. }
  destruct (wp_cgaputc g c Hg) as ([] & g1 & E1 & Hg1 & Hpl). destruct (IH g1 Hg1) as (g' & E & Hg' & Hd & Hb & Hp). pose proof (placed_last g c Hg) as Hlast.
  pose proof Hg as [Hlen Hcur]. exists g'. rewrite (bind_Ok _ _ _ _ _ E1). split; [done|]. split; [done|].
  destruct (placed g c) as [t pos] eqn:Epl. cbn [fst] in Hlast.
  assert (length t = 2000%nat /\ 0 <= pos) as [Hlt Hpos0].
  { unfold placed in Epl. destruct (c =? 10); [injection Epl as <- <-; split; [done|zlia]|]. destruct (c =? BACKSPACE); injection Epl as <- <-; [by split; [|lia]|]. split; [by rewrite length_insert|lia]. }
  assert (drop (24 * 80) (crt g1) = drop (24 * 80) (crt g) /\ crt g1 !! Z.to_nat (cursor g1) = Some 0x720) as [Hd1 Hb1].
  { destruct (decide (pos < 24 * 80)) as [Hlt'|]; [subst g1|destruct Hpl as [_ ->]]; cbn [crt cursor].
    - rewrite drop_insert_lt by lia. split; [done|]. rewrite list_lookup_insert_eq; [done|lia].
    - rewrite drop_insert_lt by lia. assert (length (take (23 * 80) (drop 80 t)) = (23 * 80)%nat) as Hl by (rewrite length_take, length_drop; lia). split.
      + rewrite drop_app_ge by lia. rewrite Hl. replace (24 * 80 - 23 * 80)%nat with 80%nat by done. rewrite drop_app_length' by by rewrite length_replicate. done.
      + rewrite list_lookup_insert_eq; [done|]. rewrite length_app, Hl, length_app, length_replicate. lia. }
  split; [by rewrite Hd|]. split.
  - intros _. destruct cs as [|c2 cs]; [|by apply Hb]. injection E as <-. done.
  - intros [[Hc1 Hc2] Hcs]%Forall_cons _ Hfit. cbn [length] in Hfit. unfold placed in Epl. rewrite (proj2 (Z.eqb_neq _ _)), (proj2 (Z.eqb_neq _ _)) in Epl by done. injection Epl as <- <-.
    rewrite decide_True in Hpl by lia. subst g1. cbn [crt cursor] in *. destruct cs as [|c2 cs].
    + injection E as <-. split; [cbn; lia|]. intros k. cbn zeta. cbn [crt length].
      destruct (decide (k < Z.to_nat (cursor g))%nat); [rewrite !list_lookup_insert_ne by lia; done|].
      destruct (decide (k = Z.to_nat (cursor g))) as [->|]; [rewrite Nat.sub_diag; rewrite list_lookup_insert_ne, list_lookup_insert_eq by lia; done|].
      rewrite decide_False by lia. destruct (decide (k = Z.to_nat (cursor g + 1))) as [->|]; [rewrite decide_True, list_lookup_insert_eq by (rewrite ?length_insert; lia); done|].
      rewrite decide_False by lia. by rewrite !list_lookup_insert_ne by lia.
    + destruct (Hp Hcs) as [P1 P2]; [done|cbn [length] in *; lia|]. split; [cbn [length] in *; lia|]. intros k. cbn zeta. rewrite P2. cbn zeta.
      change (length (c :: c2 :: cs)) with (S (length (c2 :: cs))).
      destruct (decide (k < Z.to_nat (cursor g))%nat); [rewrite decide_True by lia; rewrite !list_lookup_insert_ne by lia; done|].
      destruct (decide (k = Z.to_nat (cursor g))) as [->|].
      { rewrite decide_True by lia. rewrite Nat.sub_diag. rewrite list_lookup_insert_ne, list_lookup_insert_eq by lia. done. }
      rewrite (decide_False (P := (k < Z.to_nat (cursor g + 1))%nat)) by lia. replace (k - Z.to_nat (cursor g))%nat with (S (k - Z.to_nat (cursor g + 1))) by lia.
      set (m := (k - Z.to_nat (cursor g + 1))%nat). destruct (decide (m < length (c2 :: cs))%nat); [by rewrite decide_True by lia|]. rewrite (decide_False (P := (S m < S (length (c2 :: cs)))%nat)) by lia.
      destruct (decide (m = length (c2 :: cs))); [by rewrite decide_True by lia|]. rewrite (decide_False (P := (S m = S (length (c2 :: cs))))) by lia.
      assert (0 < length (c2 :: cs))%nat by (cbn; lia). rewrite list_lookup_insert_ne by lia. by rewrite list_lookup_insert_ne by lia.
Qed.

Lemma screen_bounds_witness : exists g', cgaputs (chr "xv6...") (mkCga (replicate 2000 0) 1900) = Ok (tt, g') /\ cursor g' = 1906 /\ crt g' !! 1900%nat = Some (glyph 120).
Proof.
  destruct (screen_bounds (mkCga (replicate 2000 0) 1900) (chr "xv6...")) as (g' & E & _ & _ & _ & Hp); [by split|]. exists g'. split; [exact E|].
  destruct Hp as [P1 P2]; [repeat constructor; discriminate|discriminate|reflexivity|]. split; [exact P1|]. rewrite P2. reflexivity.
Defined.

(** ** What the keyboard can type *)
Module KbdFacts.
Import Kbd.

(** Every scan code is answered, with a byte and modifiers of seven bits. *)
Lemma kbdgetc_ok data shift : 0 <= data < 256 -> 0 <= shift < 128 ->
  exists c shift', kbdgetc KBS_DIB data shift = Ok (c, shift') /\ 0 <= c < 256 /\ 0 <= shift' < 128.
Proof.
  intros Hd Hs. set (good := fun r : result (Z * Z) => match r with Ok (c, h) => (0 <=? c) && (c <? 256) && (0 <=? h) && (h <? 128) | Err _ => false end).
  assert (forallb (fun d => forallb (fun h => good (kbdgetc KBS_DIB d h)) (seqZ 0 128)) (seqZ 0 256) = true) as Hall by (vm_compute; reflexivity).
  assert (good (kbdgetc KBS_DIB data shift) = true) as Hg.
  { apply (proj1 (List.forallb_forall _ _)) with (x := data) in Hall; [|apply list_elem_of_In, elem_of_seqZ; lia].
    apply (proj1 (List.forallb_forall _ _)) with (x := shift) in Hall; [exact Hall|apply list_elem_of_In, elem_of_seqZ; lia]. }
  unfold good in Hg. destruct (kbdgetc KBS_DIB data shift) as [[c h]|]; [|done]. exists c, h. split; [done|]. lia.
Qed.

Lemma kbd_chars_ok codes shift : Forall (fun d => 0 <= d < 256) codes -> 0 <= shift < 128 ->
  exists cs shift', kbd_chars codes shift = Ok (cs, shift') /\ Forall (fun c => 0 <= c < 256) cs /\ 0 <= shift' < 128.
Proof.
  intros Hc. revert shift. induction Hc as [|d codes Hd Hc IH]; intros shift Hs; cbn [kbd_chars].
  - exists [], shift. split; [done|]. by split.
  - destruct (kbdgetc_ok d shift Hd Hs) as (c & h & E & Hcr & Hh). destruct (IH h Hh) as (cs & h' & E' & Hcs & Hh'). exists (c :: cs), h'.
    rewrite (bind_Ok _ _ _ _ _ E), (bind_Ok _ _ _ _ _ E'). split; [done|]. split; [by constructor|done].
Qed.

(** A key pressed and released, alone, with the left shift key or with control. *)
Definition press (k : Z) : list Z := [k; Z.lor k 0x80].
Definition keystrokes (c : Z) : option (list Z) :=
  match list_find (fun x => x = c) (take 128 normalmap), list_find (fun x => x = c) (take 128 shiftmap), list_find (fun x => x = c) (take 128 ctlmap) with
  | Some (k, _), _, _ => Some (press (Z.of_nat k))
  | None, Some (k, _), _ => Some ([0x2A] ++ press (Z.of_nat k) ++ [0xAA])
  | None, None, Some (k, _) => Some ([0x1D] ++ press (Z.of_nat k) ++ [0x9D])
  | None, None, None => None
  end.

(** Every printable ASCII character, newline, tab, backspace, escape and every
    control letter can be typed, and no modifier is left behind. *)
Lemma kbd_types c : 32 <= c <= 126 \/ 1 <= c <= 27 -> exists codes cs, keystrokes c = Some codes /\ kbd_chars codes 0 = Ok (cs, 0) /\ filter (fun x => x <> 0) cs = [c].
Proof.
  intros Hc. set (good := fun c => match keystrokes c with
    | Some codes => match kbd_chars codes 0 with Ok (cs, h) => bool_decide (filter (fun x => x <> 0) cs = [c]) && (h =? 0) | Err _ => false end
    | None => false end).
  assert (forallb good (seqZ 32 95 ++ seqZ 1 27) = true) as Hall by (vm_compute; reflexivity).
  assert (good c = true) as Hg.
  { apply (proj1 (List.forallb_forall _ _) Hall), list_elem_of_In, elem_of_app. rewrite !elem_of_seqZ. lia. }
  unfold good in Hg. destruct (keystrokes c) as [codes|]; [|done]. destruct (kbd_chars codes 0) as [[cs h]|] eqn:E; [|done].
  apply andb_true_iff in Hg as [H1%bool_decide_eq_true ->%Z.eqb_eq]. exists codes, cs. split; [reflexivity|]. split; [exact E|exact H1].
Qed.

(** The keyboard's interrupt keeps the console in order. *)
Lemma wp_kbdintr procdump shift codes s : (forall s, cons_ok s -> wp procdump s (fun _ s' => exists o g, cga_ok g /\ s' = output o g s)) ->
  cons_ok s -> Forall (fun d => 0 <= d < 256) codes -> 0 <= shift < 128 ->
  wp (kbdintr procdump shift codes) s (fun shift' s' => cons_ok s' /\ 0 <= shift' < 128).
Proof.
  intros Hdump Hok Hc Hs. destruct (kbd_chars_ok codes shift Hc Hs) as (cs & h & E & Hcs & Hh). unfold kbdintr. wp_step. eapply wp_lift; [exact E|]. cbn beta iota.
  wp_step. unfold consoleintr. wp_step. eapply wp_mono; [apply (wp_intr_loop cs false s []); [done|]|].
  { eapply Forall_impl; [exact Hcs|]. cbn. lia. }
  intros [] s' [Hok' _].
  - eapply wp_mono; [by apply Hdump|]. intros [] s2 (o & g & Hg & ->). wp_step. split; [by apply cons_ok_output|done].
  - wp_step. by wp_step.
Qed.
End KbdFacts.
